(* ===== verification/_CoqProject ===== *)
-Q . S2P
Prelude.v
GoStrings.v
NetIP.v
IPGuard.v
DomainMatch.v
PolicyTypes.v
GoPath.v
PushRules.v
EgressPolicy.v
EgressTarget.v
Approvals.v
PrivateIPMemo.v
Evaluate.v
GoSlices.v
DomEntry.v
Grants.v
PushForge.v
GrantBounds.v
Leq.v
LeqSound.v
Meet.v
MeetSound.v
MeetWhole.v
AckCursor.v
PoolLimits.v
PoolChoice.v
Clamp.v
ClampSound.v
Risk.v
GitWire.v
GitTree.v
GitWalk.v
GitPack.v
GitPackSound.v
GitSettle.v
GitPush.v
CanonNumber.v
GoJSON.v
GoJSONSound.v
ApprovalScope.v
ScopeSound.v
ApprovalStore.v
ApprovalFSM.v
FSMSound.v
ApprovalRaise.v
SecretMask.v
MaskSound.v
MaskRegistry.v
MaskRegSound.v
GHPath.v
GHScope.v
GHScopeSound.v
WireFrame.v
WireReplay.v
WireFlow.v
FlowSound.v
PolicyRef.v
Authz.v
Refuse.v
RunAccess.v
AttachTicket.v
SweepHealth.v
Reaper.v
ReaperStore.v
AdoNames.v
GoRunes.v
ArmScope.v
AdoCaps.v
AdoRoute.v
AdoBody.v
AdoScope.v
AdoSound.v
AdoKeys.v
AdoContent.v
Placement.v
PlaceTable.v
DeliveryCheck.v
PlaceGate.v
PlaceSound.v
PlaceSent.v
