(* ===== verification/Prelude.v ===== *)
(** * Wardyn, a governed-sandbox control plane: verification library

    Wardyn runs agents in sandboxes. All of a sandbox's network traffic leaves
    through one sidecar, [wardyn-proxy] ([src/internal/egress/proxy]), which
    decides every connection from the run's policy; the control plane composes
    that policy from ceilings, profiles and overlays ([src/internal/composer]) and
    holds each credential grant inside what the deployment provisioned. This
    library models those two decision cores, the push rules the sidecar applies to
    git traffic with the pack parser beneath them ([src/internal/gitpack]), the
    control plane's approval service over its table ([src/internal/approval],
    [src/internal/store]), the masking of secrets ([src/internal/secretmask]), the
    scope catalogues of GitHub and Azure ([src/internal/ghscope], [adoscope],
    [armscope]), the authorization of the control plane's API ([src/internal/authz], [src/internal/policyref], the doors of
    [src/internal/api]), the idle reaper ([src/internal/lifecycle]), what may be sent to a person's own
    computer ([src/internal/placement]), and three parts of
    its dealings with runners ([runnerpool], [ackcursor], [runnerwire]). It proves what each promises and how they fit together: the
    policy the composer calls narrower is narrower for the proxy, and the verdict
    on a push speaks about the bytes that were pushed.

    ** The parts of the program and the files that model them

    Go itself. [GoStrings] (package strings and strconv over byte strings; what
    depends on Unicode tables is the class [GoUnicode], which fixes the tables'
    behaviour on ASCII and leaves the rest free, with [asciiTables] an instance),
    [NetIP] (net and net/netip: parsing, printing, prefixes, host:port),
    [GoPath] (unicode/utf8 and path.Match), [GoSlices] (sorting, compaction),
    [GoJSON] (encoding/json: the scanner, decoding into [any] and into a struct's
    fields, [Marshal]; [GoJSONSound] has the round trip).

    The egress sidecar.
    - [IPGuard]: [ipguard.go] and [isBlockedIP] of [policy.go].
    - [DomainMatch]: [domainmatch.go], the one reading of a domain entry.
    - [EgressPolicy]: [CompilePolicy], [evalHost] and the other readings of the
      compiled lists ([policy.go], [exact_host_binding.go], [domain_charset.go]),
      the CONNECT gate with its port rule ([connect_gate.go], [port_rule.go]),
      refusal attribution ([refusal.go]) and tool rules ([tool_rules.go]). The
      policy engine is the class [Evaluator]; the gate's theorems are proved
      against it and [builtinEvaluator] instantiates it.
    - [EgressTarget]: where a request is dialled ([egress_target.go],
      [hard_deny.go], [literal_ip_guard.go], [vetHostLift] of [policy.go]). The
      DNS resolver is a field of [Proxy].
    - [Approvals]: the first-use approval cache ([approvals.go]). Each section
      under the lock is a function; [step] interleaves them with network round
      trips and with the control plane's decisions, and [reachable] is its closure.
    - [PrivateIPMemo]: [private_ip_memo.go] and the decision row.
    - [Evaluate]: [Proxy.evaluate], which calls all of the above.
    - [PushRules], [PushForge]: [push_rules.go], [push_forge.go] and the Azure
      DevOps half of the forge reader: the compiled rules, the glob walks, and the
      verdict on one push.

    The pack parser ([src/internal/gitpack]).
    - [GitWire]: the byte formats of [pack.go]: pkt-lines and the command section,
      capabilities, object headers, varints and deltas.
    - [GitTree]: [tree.go]: trees, commits, tags, and the walk that turns commits
      into changes, with its budgets and its memo of walked and diffed trees.
      [GitWalk] states what a commit introduces without either and proves the walk
      exact.
    - [GitPack]: the pack reader of [pack.go] with its parked deltas, and
      [Inspect]. [GitPackSound] has the reader's invariant and its theorems.
    - [GitSettle]: [Result.Settle], the second walk without the history the forge
      holds.
    - [GitPush]: the composition: the broker's rules over [Inspect] and [Settle].

    The composer.
    - [PolicyTypes]: the policy, limits, overlay and grant types of
      [src/internal/types], with their ranks and normalisers.
    - [DomEntry]: the domain algebra of [meet_domains.go].
    - [Grants], [GrantBounds]: repository identity, PAT scopes, grant pairing,
      [GrantWithin] and the grant half of the clamp.
    - [Leq]: [leq.go] and [leq_fallback.go]. Runner sizing is a parameter.
    - [Meet]: [ApplyOverlay], [ValidateOverlay], [MeetWalls]. The meet is written
      in a writer monad whose events are the warnings and refusals in source order.
    - [LeqSound], [MeetSound], [MeetWhole]: the theorems over both.
    - [Clamp], [ClampSound]: the rest of [clamp.go], in the code's order with its
      warnings as values, and what the clamped policy promises.
    - [Risk]: [risk.go], [autonomy.go] and the minter's permission ceiling
      ([broker/scope.go]).

    The approval service of the control plane.
    - [CanonNumber]: [canonicalNumber] of [approval.go], one spelling per number.
    - [ApprovalScope]: rows, [canonicalScope] on the text, the text [scopeHash]
      digests, [TallyKey], and [hold.go]. [ScopeSound]: rewriting the text commutes
      with decoding it, and the deduplication key is the value.
    - [ApprovalStore]: every statement on the approvals table (inserts with their
      partial unique indexes, decisions, rejoins, re-auth, one-shot spends,
      takeovers, the broker's mint) as a function on the table, and [act], their
      closure. What Postgres promises of a jsonb column is the class [Jsonb].
    - [ApprovalFSM]: [approval.go], in a state monad whose calls may be preceded by
      any statements of others and may fail before or after landing. [FSMSound]:
      its theorems.
    - [ApprovalRaise]: the lane check of [api/internal.go] against [TallyKey], and
      the bounds of a hold.

    Secret masking ([src/internal/secretmask]).
    - [SecretMask]: the masker, and the masking writer with the tail it holds back
      and its ways to close. [MaskSound]: [Mask] against a byte-by-byte reading, and
      the writer against [Mask].
    - [MaskRegistry]: the corpus of every run: its own values, the credentials'
      current ones, and those let go, with the cached maskers. [MaskRegSound]: its
      theorems over any sequence of operations.

    The control plane and its runners.
    - [PoolLimits], [PoolChoice]: [src/internal/runnerpool]: the fold of limit
      sources, pool resolution, barriers, candidates, stable selection and fit.
    - [AckCursor]: [ackcursor.go], a cursor over rows that a receiver acknowledges.
    - The wire to a runner ([src/internal/runnerwire]). [WireFrame]: the frame codec.
      [WireReplay]: the replay buffer, sequencing and resume, as the system of a sender
      and a receiver over a link that drops. [WireFlow]: the send windows and the
      receiving streams, as the system of both with what every goroutine holds between
      two locked sections; [FlowSound] has its invariant and theorems.

    The scope catalogue of GitHub ([src/internal/ghscope]).
    - [GHPath]: [path.go] and [pctdecode]: the segments of a path and names.
    - [GHScope]: capabilities, the routes, the gate and the token. [GHScopeSound]: what
      the gate holds.

    The scope catalogues of Azure ([src/internal/adoscope], [src/internal/armscope]).
    - [GoRunes]: case folding and rune maps; the tables outside ASCII are a class.
    - [AdoNames]: [names.go]: a segment's name, its one spelling, canonical addresses.
    - [ArmScope]: [armscope.go]: the Resource Manager gate.
    - [AdoCaps]: [capability.go], [areas.go] and [scopes.go]: capabilities, what they ask
      of a token, and the gate. [AdoRoute] and [AdoScope]: [classify.go]. [AdoBody]:
      [body.go], with the parts of [net/url] it calls. [AdoContent]: [content.go].
    - [AdoSound]: what the gate holds. [AdoKeys]: [top_level.go], and why an accepted
      body reads one way.

    Authorization in the control plane.
    - [PolicyRef]: [policyref.go] and the host shape of [hostrules.go]: the contact of a
      policy, its validator, and the headers a sandbox reads. The mail and URL parsers
      are the class [NetText].
    - [Authz]: [authz.go] and [registry.go]: decisions, the registry of refusals, the
      datum of an audit row.
    - [Refuse]: the callers of a request and their tiers, the refusal emitter
      ([refusal.go]) and the answer to a failed call ([writeservererror.go]).
    - [RunAccess]: the owner rules and doors of runs and workspaces ([helpers.go],
      [run_entry.go], [attach_ticket.go]); the store's reads are the record [apiStore].
    - [AttachTicket]: single-use tickets, as the system of every mint, redemption and
      sweep.

    The life of a run.
    - [SweepHealth]: [sweephealth.go]; the class [TickStore] with the laws
      [TickStoreOk], its two stores as instances.
    - [Reaper]: [lifecycle.go], the loop against the class [Stopper].
      [ReaperStore]: the stopper and the scan of [adapters.go] over the guarded updates
      of the store, an instance of it.

    Placement on a person's own computer ([src/internal/placement]).
    - [Placement]: [placement.go], [reasons.go] and the delivery policy of [delivery.go].
      [DeliveryCheck]: its write check and the report of a stored document.
    - [PlaceTable]: the declarations of every struct the dispatch carries, as reflection
      sees them, the classification table of [classify.go], the closed schema of
      [nested.go], and what the schema walk shows of the types.
    - [PlaceGate]: [eligibility.go], [resident_lift.go] and [enforce.go]: the gate on every
      credential of a plan, and the walk that makes the copy a laptop is sent. A value is a
      tree ([rv]); [uuid.Parse] is a parameter.
    - [PlaceSound]: the gate's theorems. [PlaceSent]: the walk step by step, and what is
      left in the copy.

    ** What the theorems show

    No dial of a blocked address: the address classification is exactly a table of
    intervals and has no hole through embedded IPv4 forms ([IPGuard]); an address
    handed out for dialling is public or a declared private one off the proxy's
    own networks, hard deny beats every admission of a host in plain spelling (with the
    spelling it misses proved beside it), a mixed DNS answer is refused
    ([EgressTarget]); the same of the whole pipeline, and an allowed request
    passed every stage ([Evaluate]).

    The policy means what it says: the compiled policy refines the lists it was
    compiled from, the gate admits exactly the requests the lists, methods and
    port rule allow and fails closed on any engine, a credential binds only to a
    reachable exact host, an accepted entry is live ([EgressPolicy]).

    Approvals: over every interleaving, a once grant is served once, an approved
    answer was decided for that host, at most one raise is in flight per host, the
    cache is bounded, and an unconfirmed grant goes stale ([Approvals]). The memo
    is bounded and loses no count ([PrivateIPMemo]).

    The approval service: a decision is final, at most one row is open per request
    and per grant, a one-shot approval is spent once ([ApprovalStore]); a raise
    answers with an open row of the same value, equal raises meet on one row, one
    decision lands, the sweep ends and strands nothing due and keeps true books, a
    cancelled run has no open row, all under interference and failing calls
    ([FSMSound]); a sandbox cannot forge a lane ([ApprovalRaise]).

    Masking: the chunks of a stream are invisible in what comes out, a stream cut
    short hides the beginning of a secret at its end ([MaskSound]); the cached
    maskers are those of the corpus, and a credential's value stays masked through
    its grace, whatever happens to other values ([MaskRegSound]).

    Pushes: both glob walks compute the meaning of a pattern, and a push that
    passes holds nothing denied that the forge did not answer for ([PushRules],
    [PushForge]). The command section and deltas round-trip ([GitWire]); every
    object of a parsed pack is filed under its own digest, none is left
    unresolved, the budget holds, and the inspection always ends with an answer
    ([GitPackSound]); the change set is exactly what the new commits introduce and
    an executable base is unanimous ([GitWalk]); what [Settle] takes out is vouched
    for ([GitSettle]); and a push that is not refused has every tree entry of every
    new tip held by its parents or reported and answered for ([GitPush]).

    Composition: [Leq] is sound for the proxy (hosts, methods, first-use mode,
    credentials, literals, grants, tools) unless the port rule is on, where a
    counterexample is proved ([LeqSound]); an overlay only narrows, on the conditions of the
    theorem and with the two cases outside them proved to fail, a write
    accepts exactly the overlays a resolve applies without a warning, the composed
    allowlist is exact, personal walls close an open policy ([MeetSound],
    [MeetWhole]); a grant is within a ceiling iff one ceiling grant dominates it,
    and what the clamp keeps is bounded on every axis ([GrantBounds]). The clamped
    policy admits no more than the ceiling and is at least as strict on every
    posture field ([ClampSound]); a tighter rubric never raises autonomy and a
    grant graded read-only mints a read-only token ([Risk]).

    Runners: limits fold to the strictest of their sources and always fold for
    what the server builds ([PoolLimits]); no pool is substituted, a runner never
    overcommits, selection is stable ([PoolChoice]); the cursor delivers at least
    once and reaches the end ([AckCursor]).

    The wire: the codec is a bijection ([WireFrame]); sequenced frames are accepted
    once and in order over any drops and resumes, and a resume loses nothing
    ([WireReplay]); a writer within its credit is never refused, and credit is never
    lost ([FlowSound]).

    GitHub requests: a segment reads one way however often it is decoded ([GHPath]); a
    permitted request stays in the run's repositories, a run granted reads never
    writes, the REST surface is a closed list of routes and writes, and a token is the join of what was granted
    ([GHScopeSound]).

    Azure requests: a name is read back from its one spelling ([AdoNames]); a Resource
    Manager request stays under the run's subscriptions however often its path is
    decoded ([ArmScope]); the scopes asked for are those of the capabilities and never
    make tokens ([AdoCaps]); a permitted Azure DevOps request is on the row's
    organisation and outside the denied areas, a reader never writes, a moved ref is
    named and checked, a verdict given before the body stands, a batch needs its widest
    operation ([AdoSound]); a body reads one way ([AdoKeys]); no code is written past
    the push rules, and a judged push is shown whole ([AdoContent]).

    Authorization: a refusal is an error status, and its audit row is written exactly when
    the registry asks for it ([Refuse]) whose
    datum no door can forge ([Authz]); what someone may not see is answered as missing,
    and a run is entered by its owner ([RunAccess]); a ticket opens once, for its run
    and while its authority stands ([AttachTicket]); the policy headers cannot be broken
    out of, and a contact read back is valid ([PolicyRef]).

    The reaper: it calls exactly for the due runs whatever its calls answer ([Reaper]);
    over the real rows one tick stops exactly those and spares what was touched since
    the scan ([ReaperStore]); a sweep that stops succeeding is reported ([SweepHealth]).

    Placement: a validated delivery policy keeps its bounds on every trust class, a write
    is refused by exactly the first new row the report would list, versions are ordered
    ([DeliveryCheck]); no type a dispatch reaches holds a field the table or the schema
    does not name ([PlaceTable]); a plan let onto a laptop carries no credential without a
    delivery, and what create promises of a grant dispatch keeps ([PlaceSound]); the copy
    holds nothing of the organisation's network or doors, and a credential the
    organisation serves leaves only a route naming its grant and host ([PlaceSent]).

    ** Bounds and fuel

    Go ints are [Z]; durations are nanoseconds in [Z]; the products that can
    wrap ([inspectMax], [maxFileBytes], [hold]) are wrapped at 64 bits. Fuel appears where
    recursion is not structural: the UTF-8 and path.Match loops consume a byte per
    step and get the length of their input; the IPv6 parser reads at most eight
    groups and gets nine steps; the glob walk gets [globFuel], and
    [matchSegments_correct] shows the walk ends with the right answer within it.
    The pack parser's loops consume bytes, objects or parked deltas and get their
    number; the tree walk gets one level more than [maxTreeDepth]; [Settle]'s
    worklists get the number of parent edges. [inspection_always_answers] and
    [settle_ends] show that none of them runs out. The loop that escapes a name gets one
    step per byte ([escape_decodes] shows it enough). The JSON parser gets two calls
    per byte (the round trip shows it enough for what [Marshal] writes); the expiry
    sweep gets one page per identifier and one more ([sweep_strands_nothing]); the search for occurrences of a secret gets one step per
    byte and one more; the schema walk goes 33 levels deep, as the source's. The product of
    an egress hold and the reaper's threshold are wrapped at 64 bits, and a difference
    of times is held inside them.

    ** Not modelled, and next

    HTTP, TLS interception, header injection and the broker protocols are I/O
    around the decisions modelled here. The answers of DNS, of the forge and of
    the control plane are parameters or steps. JSON decoding of a grant's scope is
    the type [RawScope] (decoded fields, or text that does not decode). zlib and
    the digests of [gitpack], of the runner selection and of the deduplication key
    are parameters, as are [uuid.Parse], the clock and fresh identifiers. The
    notification outbox written beside a new approval is not modelled.
    Sequence numbers of
    the wire and the generation of the mask registry are not wrapped.
    The middleware that authenticates a caller, the capability resolver and the SQL of
    other tables are not modelled; a database clock stands still inside one statement
    or tick. Of [net/url] only query parsing and relative references are modelled, and the
    digest of a pushed body is a parameter. Of the dispatch around [src/internal/placement]
    (choosing a runner, binding local paths, building the plan) nothing is modelled; the
    plan is the input. Next: calls and the handshake of the runner wire. *)
From stdpp Require Export base decidable option list strings gmap pretty.
From Stdlib Require Export ZArith Lia Ascii.

Declare Scope wardyn_scope.
Delimit Scope wardyn_scope with wardyn.

(** ** Tactics shared by the development *)

(** Case analysis on the innermost [match]/[if] of the goal or a hypothesis,
    keeping the equation. *)
Ltac break_match :=
  match goal with
  | |- context [match ?e with _ => _ end] =>
      lazymatch e with
      | context [match _ with _ => _ end] => fail
      | _ => destruct e eqn:?
      end
  | H : context [match ?e with _ => _ end] |- _ =>
      lazymatch e with
      | context [match _ with _ => _ end] => fail
      | _ => destruct e eqn:?
      end
  end.

(** The same, on the goal only. *)
Ltac break_goal :=
  match goal with
  | |- context [match ?e with _ => _ end] =>
      lazymatch e with
      | context [match _ with _ => _ end] => fail
      | _ => destruct e eqn:?
      end
  end.

(** Turn the boolean connectives and comparisons of hypotheses into
    propositions. *)
Ltac bool_prop :=
  repeat match goal with
  | H : (_ && _)%bool = true |- _ => apply andb_prop in H; destruct H
  | H : (_ || _)%bool = true |- _ => apply orb_prop in H
  | H : (_ || _)%bool = false |- _ => apply orb_false_elim in H; destruct H
  | H : negb _ = true |- _ => apply negb_true_iff in H
  | H : negb _ = false |- _ => apply negb_false_iff in H
  | H : (_ <=? _)%Z = true |- _ => apply Z.leb_le in H
  | H : (_ <=? _)%Z = false |- _ => apply Z.leb_gt in H
  | H : (_ <? _)%Z = true |- _ => apply Z.ltb_lt in H
  | H : (_ <? _)%Z = false |- _ => apply Z.ltb_ge in H
  | H : (_ =? _)%Z = true |- _ => apply Z.eqb_eq in H
  | H : (_ =? _)%Z = false |- _ => apply Z.eqb_neq in H
  | H : bool_decide _ = true |- _ => apply bool_decide_eq_true in H
  | H : bool_decide _ = false |- _ => apply bool_decide_eq_false in H
  end.

(** ** Errors as values *)

(** A Go result with an error: the left of a sum is the error's text. *)
Definition errOr (A : Type) : Type := string + A.
Definition ebind {A B} (m : errOr A) (k : A -> errOr B) : errOr B :=
  match m with inl e => inl e | inr x => k x end.
Notation "x <-! m ; k" := (ebind m (fun x => k)) (at level 100, m at next level, right associativity) : wardyn_scope.

(** ** Lists *)

(** Go's [slices.ContainsFunc] and [slices.IndexFunc]: the first element that
    satisfies the predicate decides. *)
Definition containsFunc {A} (f : A -> bool) (l : list A) : bool := existsb f l.

Fixpoint findFirst {A} (f : A -> bool) (l : list A) : option A :=
  match l with
  | [] => None
  | x :: l' => if f x then Some x else findFirst f l'
  end.

Lemma containsFunc_true {A} (f : A -> bool) l :
  containsFunc f l = true <-> exists x, x ∈ l /\ f x = true.
Proof.
  unfold containsFunc. rewrite existsb_exists.
  split; intros (x & Hx & Hf); exists x; split; auto; by apply list_elem_of_In.
Qed.

Lemma containsFunc_false {A} (f : A -> bool) l :
  containsFunc f l = false <-> forall x, x ∈ l -> f x = false.
Proof.
  split.
  - intros H x Hx. destruct (f x) eqn:E; [|done].
    assert (containsFunc f l = true) by (apply containsFunc_true; eauto). congruence.
  - intros H. destruct (containsFunc f l) eqn:E; [|done].
    apply containsFunc_true in E as (x & Hx & Hf). rewrite H in Hf; done.
Qed.

Lemma findFirst_Some {A} (f : A -> bool) l x :
  findFirst f l = Some x -> x ∈ l /\ f x = true.
Proof.
  induction l as [|a l IH]; simpl; [done|].
  destruct (f a) eqn:E; intros H; simplify_eq.
  - split; [left|done].
  - apply IH in H as [? ?]. split; [by right|done].
Qed.

Lemma findFirst_None {A} (f : A -> bool) l :
  findFirst f l = None <-> forall x, x ∈ l -> f x = false.
Proof.
  induction l as [|a l IH]; simpl.
  - split; [intros _ x Hx; by apply not_elem_of_nil in Hx | done].
  - destruct (f a) eqn:E; split; intros H.
    + done.
    + specialize (H a ltac:(left)). congruence.
    + intros x [->|Hx]%elem_of_cons; [done|]. by apply IH.
    + apply IH. intros x Hx. apply H. by right.
Qed.

Lemma findFirst_is_Some {A} (f : A -> bool) l x :
  x ∈ l -> f x = true -> is_Some (findFirst f l).
Proof.
  intros Hx Hf. destruct (findFirst f l) eqn:E; [eauto|].
  eapply findFirst_None in E; [|done]. congruence.
Qed.

#[global] Arguments String.eqb : simpl never.
#[global] Arguments Ascii.eqb : simpl never.

Create HintDb wardyn.
