(* ===== verification/GoStrings.v ===== *)
(** * Go strings

    A Go [string] is a sequence of bytes; here it is a [string] of [ascii]
    bytes. This file models the functions of Go's [strings], [strconv] and
    [net] packages that Wardyn's decision code calls, and the lemmas about them
    the components share.

    [strings.ToLower], [strings.ToUpper] and [strings.TrimSpace] are exact on a
    string whose bytes are all below 0x80. On any other string they consult the
    Unicode tables, which are data of the Go distribution: there they are the
    operations of the class [GoUnicode], and its laws are the only facts used
    about them. *)
From S2P Require Import Prelude.
Local Open Scope string_scope.

(** ** Basic facts on append and length *)

Lemma str_app_assoc (a b c : string) : a +:+ (b +:+ c) = (a +:+ b) +:+ c.
Proof. induction a; simpl; [done|]. unfold String.append in *; simpl in *. by f_equal. Qed.

Lemma str_app_nil_r (a : string) : a +:+ "" = a.
Proof. induction a; [done|]. change (String a (a0 +:+ "") = String a a0). by f_equal. Qed.

Lemma str_app_nil_l (a : string) : "" +:+ a = a.
Proof. done. Qed.

Lemma str_app_cons c (a b : string) : String c a +:+ b = String c (a +:+ b).
Proof. done. Qed.

Lemma str_len_app (a b : string) :
  String.length (a +:+ b) = String.length a + String.length b.
Proof. induction a; [done|]. rewrite str_app_cons. simpl. by rewrite IHa. Qed.

Lemma str_app_inj_l (a b c : string) : a +:+ b = a +:+ c -> b = c.
Proof. induction a; rewrite ?str_app_nil_l, ?str_app_cons; [done|]. intros [=]. auto. Qed.

Lemma str_app_len_inj (a b c d : string) :
  String.length a = String.length c -> a +:+ b = c +:+ d -> a = c /\ b = d.
Proof.
  revert c. induction a as [|x a IH]; intros [|y c]; simpl; intros Hl; try done.
  rewrite !str_app_cons. intros [= -> He]. apply IH in He as [-> ->]; auto.
Qed.

Lemma str_app_inj_r (a b c : string) : a +:+ c = b +:+ c -> a = b.
Proof.
  intros H. apply str_app_len_inj in H as [? ?]; [done|].
  apply (f_equal String.length) in H. rewrite !str_len_app in H. lia.
Qed.

Create Rewrite HintDb gostr.
#[export] Hint Rewrite str_app_nil_l str_app_nil_r str_app_cons : gostr.

(** ** Character classes *)

Definition byte_of (c : ascii) : Z := Z.of_N (N_of_ascii c).
Definition is_digit (c : ascii) : bool := (48 <=? byte_of c)%Z && (byte_of c <=? 57)%Z.
Definition is_upper (c : ascii) : bool := (65 <=? byte_of c)%Z && (byte_of c <=? 90)%Z.
Definition is_lower (c : ascii) : bool := (97 <=? byte_of c)%Z && (byte_of c <=? 122)%Z.
Definition is_ascii (c : ascii) : bool := (byte_of c <? 128)%Z.
(** The ASCII part of [unicode.IsSpace]. *)
Definition is_space (c : ascii) : bool :=
  ((9 <=? byte_of c)%Z && (byte_of c <=? 13)%Z) || (byte_of c =? 32)%Z.

Definition lower_byte (c : ascii) : ascii :=
  if is_upper c then ascii_of_N (N_of_ascii c + 32) else c.
Definition upper_byte (c : ascii) : ascii :=
  if is_lower c then ascii_of_N (N_of_ascii c - 32) else c.

Fixpoint str_map (f : ascii -> ascii) (s : string) : string :=
  match s with "" => "" | String c s' => String (f c) (str_map f s') end.

Fixpoint str_forall (f : ascii -> bool) (s : string) : bool :=
  match s with "" => true | String c s' => f c && str_forall f s' end.

Definition str_has (c : ascii) (s : string) : bool :=
  negb (str_forall (fun x => negb (Ascii.eqb x c)) s).

Lemma str_forall_app f a b : str_forall f (a +:+ b) = str_forall f a && str_forall f b.
Proof. induction a; [done|]. rewrite str_app_cons. simpl. by rewrite IHa, andb_assoc. Qed.

Lemma str_forall_impl (f g : ascii -> bool) s :
  (forall c, f c = true -> g c = true) -> str_forall f s = true -> str_forall g s = true.
Proof. intros Hfg. induction s; simpl; [done|]. intros [? ?]%andb_prop. by rewrite Hfg, IHs. Qed.

Lemma str_has_app c a b : str_has c (a +:+ b) = str_has c a || str_has c b.
Proof. unfold str_has. by rewrite str_forall_app, negb_andb. Qed.

Lemma str_has_cons c x s : str_has c (String x s) = Ascii.eqb x c || str_has c s.
Proof. unfold str_has. simpl. by rewrite negb_andb, negb_involutive. Qed.

(** ** Trimming *)

Fixpoint trimLeftFunc (f : ascii -> bool) (s : string) : string :=
  match s with
  | "" => ""
  | String c s' => if f c then trimLeftFunc f s' else s
  end.

Fixpoint trimRightFunc (f : ascii -> bool) (s : string) : string :=
  match s with
  | "" => ""
  | String c s' =>
      match trimRightFunc f s' with
      | "" => if f c then "" else String c ""
      | t => String c t
      end
  end.

(** [strings.TrimRight(s, ".")]: every trailing dot. *)
Definition TrimRightDots (s : string) : string := trimRightFunc (Ascii.eqb ".") s.

(** [strings.TrimSuffix(s, ".")]: at most one trailing dot. *)
Fixpoint TrimSuffixDot (s : string) : string :=
  match s with
  | "" => ""
  | String "." "" => ""
  | String c s' => String c (TrimSuffixDot s')
  end.

(** [strings.TrimPrefix(s, ".")]. *)
Definition TrimPrefixDot (s : string) : string :=
  match s with String "." s' => s' | _ => s end.

(** [strings.Trim(s, "[]")]. *)
Definition TrimBrackets (s : string) : string :=
  let f := fun c => Ascii.eqb c "[" || Ascii.eqb c "]" in
  trimRightFunc f (trimLeftFunc f s).

Definition trimSpaceASCII (s : string) : string :=
  trimRightFunc is_space (trimLeftFunc is_space s).

(** ** Searching *)

Definition HasPrefix (s p : string) : bool := String.prefix p s.

Fixpoint HasSuffix (s suf : string) : bool :=
  if String.eqb s suf then true
  else match s with "" => false | String _ s' => HasSuffix s' suf end.

(** ** Case and space

    The part of Go's Unicode behaviour this development does not compute is what
    the three functions do on a string with a byte of 0x80 or above. One law of it
    is used: only a dot lower-cases to a dot. *)
Class GoUnicode := {
  lower_wide : string -> string;
  upper_wide : string -> string;
  trim_wide : string -> string;
  lower_wide_dot : forall s, HasSuffix (lower_wide s) "." = HasSuffix s ".";
}.

Lemma str_map_lower_dot s : HasSuffix (str_map lower_byte s) "." = HasSuffix s ".".
Proof.
  induction s as [|c s IH]; [done|]. cbn [str_map HasSuffix]. rewrite IH. f_equal.
  destruct s as [|c' s]; [|destruct (String.eqb_spec (String c (String c' s)) "."),
    (String.eqb_spec (String (lower_byte c) (str_map lower_byte (String c' s))) "."); done].
  destruct c as [[] [] [] [] [] [] [] []]; reflexivity.
Qed.

(** The reading with no wide-character table; the instance witnesses use. *)
Definition asciiTables : GoUnicode :=
  {| lower_wide := str_map lower_byte; upper_wide := str_map upper_byte; trim_wide := trimSpaceASCII;
     lower_wide_dot := str_map_lower_dot |}.

Section Case.
Context {U : GoUnicode}.

Definition ToLower (s : string) : string :=
  if str_forall is_ascii s then str_map lower_byte s else lower_wide s.
Definition ToUpper (s : string) : string :=
  if str_forall is_ascii s then str_map upper_byte s else upper_wide s.
Definition TrimSpace (s : string) : string :=
  if str_forall is_ascii s then trimSpaceASCII s else trim_wide s.
End Case.

Lemma trimLeft_id f s : str_forall (fun c => negb (f c)) s = true -> trimLeftFunc f s = s.
Proof. destruct s as [|c s]; [done|]. cbn. by destruct (f c). Qed.

Lemma trimRight_id f s : str_forall (fun c => negb (f c)) s = true -> trimRightFunc f s = s.
Proof.
  induction s as [|c s IH]; [done|]. cbn [str_forall trimRightFunc]. intros [Hc Hs]%andb_prop.
  rewrite IH by done. destruct s; [by destruct (f c) | done].
Qed.

Lemma ToLower_dot `{U : GoUnicode} s : HasSuffix (ToLower s) "." = HasSuffix s ".".
Proof. unfold ToLower. destruct (str_forall is_ascii s); [apply str_map_lower_dot | apply lower_wide_dot]. Qed.

(** [strings.EqualFold] against a name of letters that fold to ASCII ones only (all
    but k and s). *)
Definition equalFold (a b : string) : bool := String.eqb (str_map upper_byte a) (str_map upper_byte b).

(** [strings.Cut(s, c)] for a one-byte separator: the text before the first
    occurrence and the text after it. *)
Fixpoint cutByte (c : ascii) (s : string) : option (string * string) :=
  match s with
  | "" => None
  | String x s' =>
      if Ascii.eqb x c then Some ("", s')
      else match cutByte c s' with
           | Some (a, b) => Some (String x a, b)
           | None => None
           end
  end.

(** The same for the last occurrence ([strings.LastIndexByte]). *)
Fixpoint cutLastByte (c : ascii) (s : string) : option (string * string) :=
  match s with
  | "" => None
  | String x s' =>
      match cutLastByte c s' with
      | Some (a, b) => Some (String x a, b)
      | None => if Ascii.eqb x c then Some ("", s') else None
      end
  end.

(** [strings.Split(s, c)] for a one-byte separator; never empty. *)
Fixpoint splitByte (c : ascii) (s : string) : list string :=
  match s with
  | "" => [""]
  | String x s' =>
      if Ascii.eqb x c then "" :: splitByte c s'
      else match splitByte c s' with
           | h :: t => String x h :: t
           | [] => [String x ""]
           end
  end.

(** ** Integers as text *)

(** [strconv.Itoa]. *)
Definition Itoa (n : Z) : string := pretty n.

Definition digit_val (c : ascii) : Z := byte_of c - 48.

Fixpoint digits_val (acc : Z) (s : string) : option Z :=
  match s with
  | "" => Some acc
  | String c s' => if is_digit c then digits_val (acc * 10 + digit_val c)%Z s' else None
  end.

(** [strconv.Atoi] on a 64-bit [int]: an optional sign, decimal digits, and a
    value in range. *)
Definition Atoi (s : string) : option Z :=
  let '(neg, body) :=
    match s with
    | String "-" r => (true, r)
    | String "+" r => (false, r)
    | _ => (false, s)
    end in
  match body with
  | "" => None
  | _ =>
      match digits_val 0 body with
      | Some n =>
          let v := if neg then (- n)%Z else n in
          if (- 2 ^ 63 <=? v)%Z && (v <? 2 ^ 63)%Z then Some v else None
      | None => None
      end
  end.

(** ** Lemmas on searching *)

Lemma HasPrefix_spec s p : HasPrefix s p = true <-> exists r, s = p +:+ r.
Proof.
  unfold HasPrefix. revert s. induction p as [|c p IH]; intros s; simpl.
  - split; [intros _; by exists s|by destruct s].
  - destruct s as [|d s]; simpl.
    + split; [done|]. intros (r & Hr). by rewrite str_app_cons in Hr.
    + destruct (ascii_dec c d) as [->|Hne].
      * rewrite IH. split; intros (r & Hr); exists r.
        -- by rewrite str_app_cons, Hr.
        -- rewrite str_app_cons in Hr. by simplify_eq.
      * split; [done|]. intros (r & Hr). rewrite str_app_cons in Hr. congruence.
Qed.

Lemma HasSuffix_spec s suf : HasSuffix s suf = true <-> exists p, s = p +:+ suf.
Proof.
  induction s as [|c s IH]; simpl.
  - destruct (String.eqb_spec "" suf) as [<-|Hne].
    + split; [intros _; by exists ""|done].
    + split; [done|]. intros (p & Hp). destruct p; [|done]. by rewrite str_app_nil_l in Hp.
  - destruct (String.eqb_spec (String c s) suf) as [<-|Hne].
    + split; [intros _; by exists ""|done].
    + rewrite IH. split; intros (p & Hp).
      * exists (String c p). by rewrite str_app_cons, Hp.
      * destruct p as [|d p].
        -- by rewrite str_app_nil_l in Hp.
        -- rewrite str_app_cons in Hp. simplify_eq. eauto.
Qed.

Lemma HasSuffix_refl s : HasSuffix s s = true.
Proof. apply HasSuffix_spec. by exists "". Qed.

Lemma HasSuffix_trans a b c : HasSuffix a b = true -> HasSuffix b c = true -> HasSuffix a c = true.
Proof.
  rewrite !HasSuffix_spec. intros (p & ->) (q & ->). exists (p +:+ q). by rewrite str_app_assoc.
Qed.

(** Of two suffixes of one string, the shorter is a suffix of the longer. *)
Lemma HasSuffix_common h a b :
  HasSuffix h a = true -> HasSuffix h b = true -> HasSuffix a b = true \/ HasSuffix b a = true.
Proof.
  rewrite !HasSuffix_spec. intros (p & ->) (q & Hq).
  revert q Hq. induction p as [|x p IH]; intros q Hq.
  - rewrite str_app_nil_l in Hq. left. eauto.
  - destruct q as [|y q].
    + rewrite str_app_nil_l in Hq. right. exists (String x p). by rewrite <- Hq.
    + rewrite !str_app_cons in Hq. simplify_eq. eauto.
Qed.

Lemma cutLastByte_None c s : cutLastByte c s = None <-> str_has c s = false.
Proof.
  induction s as [|x s IH]; [done|]. rewrite str_has_cons. simpl.
  destruct (cutLastByte c s) as [[a b]|] eqn:E.
  - assert (str_has c s = true) as -> by (destruct (str_has c s); [done|]; exfalso; by discriminate (proj2 IH eq_refl)).
    by rewrite orb_true_r.
  - rewrite (proj1 IH eq_refl), orb_false_r. by destruct (Ascii.eqb x c).
Qed.

Lemma cutLastByte_app c a b :
  str_has c b = false -> cutLastByte c (a +:+ String c b) = Some (a, b).
Proof.
  intros Hb. apply cutLastByte_None in Hb.
  induction a as [|x a IH]; rewrite ?str_app_nil_l, ?str_app_cons; simpl.
  - by rewrite Hb, Ascii.eqb_refl.
  - by rewrite IH.
Qed.

Lemma cutLastByte_Some c s a b :
  cutLastByte c s = Some (a, b) -> s = a +:+ String c b /\ str_has c b = false.
Proof.
  revert a b. induction s as [|x s IH]; intros a b; simpl; [done|].
  destruct (cutLastByte c s) as [[a' b']|] eqn:E.
  - intros [= <- <-]. destruct (IH _ _ eq_refl) as [-> ?]. by rewrite str_app_cons.
  - destruct (Ascii.eqb_spec x c) as [->|]; intros H; simplify_eq.
    split; [done|]. by apply cutLastByte_None.
Qed.

(** ** Lemmas on integers as text *)

Lemma pretty_N_char_digit (n : N) : (n < 10)%N -> 
  is_digit (pretty_N_char n) = true /\ digit_val (pretty_N_char n) = Z.of_N n.
Proof.
  intros H. destruct n as [|p]; [done|]. do 4 (try destruct p as [p|p|]); done || lia.
Qed.

Lemma pretty_N_go_digits (x : N) (s : string) :
  str_forall is_digit (pretty_N_go x s) = str_forall is_digit s.
Proof.
  revert s. induction (N.lt_wf_0 x) as [x _ IH]; intros s.
  destruct (decide (x = 0)%N) as [->|Hx]; [by rewrite pretty_N_go_0|].
  rewrite pretty_N_go_step by lia. rewrite IH by (apply N.div_lt; lia). simpl.
  by rewrite (proj1 (pretty_N_char_digit (x `mod` 10) ltac:(apply N.mod_lt; lia))).
Qed.

Lemma digits_val_pretty_N_go (x : N) (s : string) :
  digits_val 0 (pretty_N_go x s) = digits_val (Z.of_N x) s.
Proof.
  revert s. induction (N.lt_wf_0 x) as [x _ IH]; intros s.
  destruct (decide (x = 0)%N) as [->|Hx]; [by rewrite pretty_N_go_0|].
  rewrite pretty_N_go_step by lia. rewrite IH by (apply N.div_lt; lia). simpl.
  destruct (pretty_N_char_digit (x `mod` 10) ltac:(apply N.mod_lt; lia)) as [-> ->].
  f_equal. rewrite N2Z.inj_div, N2Z.inj_mod. simpl. 
  pose proof (Z.div_mod (Z.of_N x) 10 ltac:(lia)). lia.
Qed.

Lemma Itoa_pretty_N (n : Z) : (0 <= n)%Z -> Itoa n = pretty (Z.to_N n).
Proof. intros H. destruct n; [done|done|lia]. Qed.

Lemma Itoa_digits (n : Z) : (0 <= n)%Z -> str_forall is_digit (Itoa n) = true.
Proof.
  intros H. rewrite Itoa_pretty_N by done. unfold pretty, pretty_N.
  case_decide; [done|]. by rewrite pretty_N_go_digits.
Qed.

Lemma digits_val_Itoa (n : Z) : (0 <= n)%Z -> digits_val 0 (Itoa n) = Some n.
Proof.
  intros H. rewrite Itoa_pretty_N by done. unfold pretty, pretty_N.
  case_decide as E; [assert (n = 0)%Z as -> by lia; done|].
  rewrite digits_val_pretty_N_go. simpl. f_equal. lia.
Qed.

Lemma str_forall_has_not f c s :
  str_forall f s = true -> f c = false -> str_has c s = false.
Proof.
  intros Hs Hc. unfold str_has. apply negb_false_iff.
  eapply str_forall_impl; [|exact Hs]. intros x Hx.
  destruct (Ascii.eqb_spec x c) as [->|]; [congruence|done].
Qed.

Lemma Itoa_no_byte (n : Z) c : (0 <= n)%Z -> is_digit c = false -> str_has c (Itoa n) = false.
Proof. intros. eapply str_forall_has_not; [by apply Itoa_digits|done]. Qed.

Lemma Itoa_inj (n m : Z) : Itoa n = Itoa m -> n = m.
Proof. apply (inj pretty). Qed.

Lemma Atoi_digits s v :
  s <> "" -> str_forall is_digit s = true -> digits_val 0 s = Some v -> (0 <= v < 2 ^ 63)%Z ->
  Atoi s = Some v.
Proof.
  intros Hne Hd Hv Hr. unfold Atoi.
  destruct s as [|c s]; [done|]. simpl in Hd. apply andb_prop in Hd as [Hc _].
  assert (c <> "-"%char /\ c <> "+"%char) as [H1 H2].
  { split; intros ->; done. }
  assert ((match String c s with String "-" r => (true, r) | String "+" r => (false, r)
           | _ => (false, String c s) end) = (false, String c s)) as ->.
  { destruct c as [[] [] [] [] [] [] [] []]; first [done | by (exfalso; apply H1) | by (exfalso; apply H2)]. }
  rewrite Hv. replace ((- 2 ^ 63 <=? v)%Z && (v <? 2 ^ 63)%Z) with true; [done|].
  symmetry. apply andb_true_intro. split; [apply Z.leb_le|apply Z.ltb_lt]; lia.
Qed.

Lemma Itoa_nonempty n : Itoa n <> "".
Proof.
  intros H. destruct (decide (0 <= n)%Z) as [Hn|Hn].
  - pose proof (digits_val_Itoa n Hn) as E. rewrite H in E. simpl in E.
    simplify_eq.
  - destruct n; try lia. unfold Itoa, pretty, pretty_Z in H. by rewrite str_app_cons in H.
Qed.

(** A non-negative number in range is read back from its decimal text. *)
Lemma Atoi_Itoa (n : Z) : (0 <= n < 2 ^ 63)%Z -> Atoi (Itoa n) = Some n.
Proof.
  intros H. apply Atoi_digits; [apply Itoa_nonempty|apply Itoa_digits; lia| |lia].
  apply digits_val_Itoa. lia.
Qed.
