(* ===== verification/NetIP.v ===== *)
(** * IP addresses, prefixes and host:port text

    The parts of Go's [net] and [net/netip] that Wardyn's address guard and host
    matcher rely on: [net.IP] as a byte slice of length 4, 16 or anything else,
    [netip.Addr] and [netip.Prefix], the address predicates, the address parser
    and printer, and [net.SplitHostPort]. An address is kept as an integer of its
    width (32 or 128 bits). *)
From S2P Require Import Prelude GoStrings.
Local Open Scope string_scope.
Local Open Scope Z_scope.

(** ** Addresses *)

(** A [net.IP] slice: 4 bytes, 16 bytes, or the bytes of a slice that is no
    address ([IPother []] is the nil slice). *)
Inductive IP :=
| IP4 (a : Z)
| IP16 (a : Z)
| IPother (bs : list Z).

#[export] Instance IP_eq_dec : EqDecision IP.
Proof. solve_decision. Defined.

(** A [netip.Addr] without a zone. *)
Inductive Addr :=
| A4 (a : Z)
| A6 (a : Z).

#[export] Instance Addr_eq_dec : EqDecision Addr.
Proof. solve_decision. Defined.

Definition wf_IP (ip : IP) : Prop :=
  match ip with
  | IP4 a => 0 <= a < 2 ^ 32
  | IP16 a => 0 <= a < 2 ^ 128
  | IPother _ => True
  end.

Definition mappedPrefix : Z := 0xffff.

(** [IP.To4]. *)
Definition To4 (ip : IP) : option Z :=
  match ip with
  | IP4 a => Some a
  | IP16 a => if Z.shiftr a 32 =? mappedPrefix then Some (Z.land a (Z.ones 32)) else None
  | IPother _ => None
  end.

(** [netip.AddrFromSlice], then [Addr.Unmap]. *)
Definition Unmap (a : Addr) : Addr :=
  match a with
  | A4 _ => a
  | A6 x => if Z.shiftr x 32 =? mappedPrefix then A4 (Z.land x (Z.ones 32)) else a
  end.

Definition AddrFromSlice (ip : IP) : option Addr :=
  match ip with
  | IP4 a => Some (A4 a)
  | IP16 a => Some (A6 a)
  | IPother _ => None
  end.

(** [net.IP.Equal]: a 4-byte address equals its IPv4-mapped 16-byte form. *)
Definition IPEqual (x y : IP) : bool :=
  match To4 x, To4 y with
  | Some a, Some b => a =? b
  | None, None =>
      match x, y with
      | IP16 a, IP16 b => a =? b
      | IPother n, IPother m => bool_decide (n = m)
      | _, _ => false
      end
  | _, _ => false
  end.

(** ** Predicates of [net.IP] *)

Definition v4byte (i : Z) (a : Z) : Z := Z.land (Z.shiftr a (8 * (3 - i))) 255.
Definition v6byte (i : Z) (a : Z) : Z := Z.land (Z.shiftr a (8 * (15 - i))) 255.

Definition IsUnspecified (ip : IP) : bool :=
  match To4 ip with
  | Some a => a =? 0
  | None => match ip with IP16 a => a =? 0 | _ => false end
  end.

Definition IsLoopback (ip : IP) : bool :=
  match To4 ip with
  | Some a => v4byte 0 a =? 127
  | None => match ip with IP16 a => a =? 1 | _ => false end
  end.

Definition IsLinkLocalUnicast (ip : IP) : bool :=
  match To4 ip with
  | Some a => (v4byte 0 a =? 169) && (v4byte 1 a =? 254)
  | None => match ip with
            | IP16 a => (v6byte 0 a =? 0xfe) && (Z.land (v6byte 1 a) 0xc0 =? 0x80)
            | _ => false
            end
  end.

Definition IsLinkLocalMulticast (ip : IP) : bool :=
  match To4 ip with
  | Some a => (v4byte 0 a =? 224) && (v4byte 1 a =? 0) && (v4byte 2 a =? 0)
  | None => match ip with
            | IP16 a => (v6byte 0 a =? 0xff) && (Z.land (v6byte 1 a) 0x0f =? 0x02)
            | _ => false
            end
  end.

Definition IsMulticast (ip : IP) : bool :=
  match To4 ip with
  | Some a => Z.land (v4byte 0 a) 0xf0 =? 0xe0
  | None => match ip with IP16 a => v6byte 0 a =? 0xff | _ => false end
  end.

(** ** Prefixes *)

Record Prefix := mkPrefix { pfx_addr : Addr; pfx_bits : Z }.

Definition wf_Prefix (p : Prefix) : Prop :=
  match pfx_addr p with
  | A4 a => 0 <= a < 2 ^ 32 /\ 0 <= pfx_bits p <= 32
  | A6 a => 0 <= a < 2 ^ 128 /\ 0 <= pfx_bits p <= 128
  end.

(** [netip.Prefix.Contains]: the families must agree, and the top [bits] bits. *)
Definition Contains (p : Prefix) (a : Addr) : bool :=
  match pfx_addr p, a with
  | A4 x, A4 y => Z.shiftr (Z.lxor x y) (32 - pfx_bits p) =? 0
  | A6 x, A6 y => Z.shiftr (Z.lxor x y) (128 - pfx_bits p) =? 0
  | _, _ => false
  end.

(** [netip.Addr.IsPrivate] on an unmapped address: RFC 1918, and fc00::/7. *)
Definition IsPrivate (a : Addr) : bool :=
  match a with
  | A4 x => (v4byte 0 x =? 10)
            || ((v4byte 0 x =? 172) && (Z.land (v4byte 1 x) 0xf0 =? 16))
            || ((v4byte 0 x =? 192) && (v4byte 1 x =? 168))
  | A6 x => Z.land (v6byte 0 x) 0xfe =? 0xfc
  end.

(** ** Parsing *)

(** One decimal octet: digits, no leading zero, at most 255. *)
Definition parseOctet (s : string) : option Z :=
  match s with
  | "" => None
  | String "0" (String _ _) => None
  | _ => match digits_val 0 s with
         | Some v => if v <=? 255 then Some v else None
         | None => None
         end
  end.

Definition parseIPv4 (s : string) : option Z :=
  match splitByte "." s with
  | [a; b; c; d] =>
      match parseOctet a, parseOctet b, parseOctet c, parseOctet d with
      | Some w, Some x, Some y, Some z => Some (((w * 256 + x) * 256 + y) * 256 + z)
      | _, _, _, _ => None
      end
  | _ => None
  end.

Definition hex_val (c : ascii) : option Z :=
  let b := byte_of c in
  if (48 <=? b) && (b <=? 57) then Some (b - 48)
  else if (97 <=? b) && (b <=? 102) then Some (b - 87)
  else if (65 <=? b) && (b <=? 70) then Some (b - 55)
  else None.

(** The hex digits at the head of [s]: their value, how many, and the rest.
    More than four digits in a group is a failure. *)
Fixpoint hexGroup (acc : Z) (n : nat) (s : string) : option (Z * nat * string) :=
  match s with
  | "" => Some (acc, n, "")
  | String c s' =>
      match hex_val c with
      | Some v => if (3 <? n)%nat then None else hexGroup (acc * 16 + v) (S n) s'
      | None => Some (acc, n, s)
      end
  end.

(** The group loop of [parseIPv6]: [groups] are the 16-bit groups read so far in
    reverse, [ell] how many stood before the ellipsis. Each iteration reads at
    least one group and at most eight fit, so nine steps of fuel are enough. *)
Fixpoint v6loop (fuel : nat) (groups : list Z) (ell : option nat) (s : string)
  : option (list Z * option nat * string) :=
  match fuel with
  | O => Some (groups, ell, s)
  | S fuel' =>
      if (8 <=? length groups)%nat then Some (groups, ell, s)
      else
        match hexGroup 0 0 s with
        | None => None
        | Some (_, O, _) => None
        | Some (acc, _, rest) =>
            match rest with
            | String "." _ =>
                if match ell with None => negb (length groups =? 6)%nat | Some _ => false end
                then None
                else if (6 <? length groups)%nat then None
                else match parseIPv4 s with
                     | Some v => Some (Z.land v 0xffff :: Z.shiftr v 16 :: groups, ell, "")
                     | None => None
                     end
            | "" => Some (acc :: groups, ell, "")
            | String ":" "" => None
            | String ":" (String ":" rest') =>
                match ell with
                | Some _ => None
                | None =>
                    let g := acc :: groups in
                    match rest' with
                    | "" => Some (g, Some (length g), "")
                    | _ => v6loop fuel' g (Some (length g)) rest'
                    end
                end
            | String ":" rest' => v6loop fuel' (acc :: groups) ell rest'
            | _ => None
            end
        end
  end.

Definition groups_val (gs : list Z) : Z := fold_left (fun acc g => acc * 65536 + g) gs 0.

(** [parseIPv6] on the text before any zone. *)
Definition parseIPv6 (s : string) : option Z :=
  let '(ell0, s0) :=
    match s with
    | String ":" (String ":" r) => (Some O, r)
    | _ => (None, s)
    end in
  match ell0, s0 with
  | Some _, "" => Some 0
  | _, _ =>
      match v6loop 9 [] ell0 s0 with
      | Some (rgs, ell, "") =>
          let gs := rev rgs in
          let n := length gs in
          if (n <? 8)%nat then
            match ell with
            | None => None
            | Some e => Some (groups_val (take e gs ++ replicate (8 - n) 0 ++ drop e gs))
            end
          else match ell with Some _ => None | None => Some (groups_val gs) end
      | _ => None
      end
  end.

(** The first of '.', ':' and '%' decides the family ([netip.ParseAddr]). *)
Fixpoint addrKind (s : string) : option ascii :=
  match s with
  | "" => None
  | String c s' =>
      if Ascii.eqb c "." || Ascii.eqb c ":" || Ascii.eqb c "%" then Some c else addrKind s'
  end.

(** [netip.ParseAddr]: an address and its zone. *)
Definition ParseAddr (s : string) : option (Addr * string) :=
  match addrKind s with
  | Some "."%char => match parseIPv4 s with Some v => Some (A4 v, "") | None => None end
  | Some ":"%char =>
      match cutByte "%" s with
      | Some (_, "") => None
      | Some (t, z) => match parseIPv6 t with Some v => Some (A6 v, z) | None => None end
      | None => match parseIPv6 s with Some v => Some (A6 v, "") | None => None end
      end
  | _ => None
  end.

(** [Addr.As16] as a [net.IP]. *)
Definition As16 (a : Addr) : Z :=
  match a with A4 x => Z.shiftl mappedPrefix 32 + x | A6 x => x end.

(** [net.ParseIP]: always a 16-byte slice; a zone makes the text no address. *)
Definition ParseIP (s : string) : option IP :=
  match ParseAddr s with
  | Some (a, "") => Some (IP16 (As16 a))
  | _ => None
  end.

(** ** Printing *)

Definition v4String (a : Z) : string :=
  Itoa (v4byte 0 a) +:+ "." +:+ Itoa (v4byte 1 a) +:+ "." +:+ Itoa (v4byte 2 a) +:+ "." +:+ Itoa (v4byte 3 a).

Definition hexDigit (d : Z) : ascii :=
  ascii_of_N (Z.to_N (if d <? 10 then 48 + d else 87 + d)).

(** One 16-bit group in lower-case hex without leading zeros. *)
Definition hex16 (g : Z) : string :=
  let d i := Z.land (Z.shiftr g (4 * i)) 15 in
  let tail := fix tail (ds : list Z) : string :=
    match ds with [] => "" | x :: r => String (hexDigit x) (tail r) end in
  if 0x1000 <=? g then tail [d 3; d 2; d 1; d 0]
  else if 0x100 <=? g then tail [d 2; d 1; d 0]
  else if 0x10 <=? g then tail [d 1; d 0]
  else tail [d 0].

Definition v6groups (a : Z) : list Z :=
  map (fun i => Z.land (Z.shiftr a (16 * (7 - i))) 0xffff) [0; 1; 2; 3; 4; 5; 6; 7].

Fixpoint zeroRun (gs : list Z) : nat :=
  match gs with g :: r => if g =? 0 then S (zeroRun r) else O | [] => O end.

(** The first longest run of at least two zero groups, as (start, length). *)
Fixpoint bestRun (gs : list Z) (i : nat) (best : option (nat * nat)) : option (nat * nat) :=
  match gs with
  | [] => best
  | _ :: r =>
      let l := zeroRun gs in
      let better := (2 <=? l)%nat && (match best with Some (_, m) => m <? l | None => true end)%nat in
      bestRun r (S i) (if better then Some (i, l) else best)
  end.

Definition joinHex (gs : list Z) : string :=
  match gs with
  | [] => ""
  | g :: r => hex16 g +:+ fold_right (fun x acc => ":" +:+ hex16 x +:+ acc) "" r
  end.

Definition v6String (a : Z) : string :=
  let gs := v6groups a in
  match bestRun gs 0 None with
  | Some (i, l) => joinHex (take i gs) +:+ "::" +:+ joinHex (drop (i + l) gs)
  | None => joinHex gs
  end.

Fixpoint hexString (bs : list Z) : string :=
  match bs with
  | [] => ""
  | b :: r => String (hexDigit (Z.shiftr b 4)) (String (hexDigit (Z.land b 15)) (hexString r))
  end.

(** [net.IP.String]. *)
Definition IPString (ip : IP) : string :=
  match To4 ip with
  | Some a => v4String a
  | None => match ip with
            | IP16 a => v6String a
            | IPother [] => "<nil>"
            | IPother bs => "?" +:+ hexString bs
            | IP4 _ => ""
            end
  end.

Definition PrefixString (p : Prefix) : string :=
  (match pfx_addr p with A4 a => v4String a | A6 a => v6String a end) +:+ "/" +:+ Itoa (pfx_bits p).

Definition parsePrefixOf (addr bits : string) : option Prefix :=
  match ParseAddr addr, Atoi bits with
  | Some (a, ""), Some n =>
      let w := match a with A4 _ => 32 | A6 _ => 128 end in
      if (0 <=? n) && (n <=? w) then Some (mkPrefix a n) else None
  | _, _ => None
  end.

(** [netip.ParsePrefix]: no zone, and no sign or leading zero in a length of
    more than one digit. *)
Definition ParsePrefix (s : string) : option Prefix :=
  match cutLastByte "/" s with
  | Some (addr, bits) =>
      match bits with
      | String c (String _ _) => if negb (is_digit c) || Ascii.eqb c "0" then None else parsePrefixOf addr bits
      | _ => parsePrefixOf addr bits
      end
  | None => None
  end.

(** [net.ParseCIDR]: the network, as the family and prefix length its [Contains]
    compares: an IPv4-mapped network is an IPv4 one. *)
Definition maskAddr (a : Addr) (bits : Z) : Addr :=
  match a with
  | A4 x => A4 (Z.shiftl (Z.shiftr x (32 - bits)) (32 - bits))
  | A6 x => A6 (Z.shiftl (Z.shiftr x (128 - bits)) (128 - bits))
  end.

Definition ParseCIDR (s : string) : option Prefix :=
  match cutByte "/" s with
  | None => None
  | Some (addr, mask) =>
      match ParseAddr addr with
      | Some (a, "") =>
          match (if String.eqb mask "" then None else digits_val 0 mask) with
          | Some n =>
              let w := match a with A4 _ => 32 | A6 _ => 128 end in
              if n <=? w then
                match maskAddr a n with
                | A6 x => match Unmap (A6 x) with
                          | A4 y => Some (mkPrefix (A4 y) (n - 96))
                          | A6 y => Some (mkPrefix (A6 y) n)
                          end
                | A4 x => Some (mkPrefix (A4 x) n)
                end
              else None
          | None => None
          end
      | _ => None
      end
  end.

(** [IPNet.Contains]. *)
Definition NetContains (n : Prefix) (ip : IP) : bool :=
  match To4 ip with
  | Some a => Contains n (A4 a)
  | None => match ip with IP16 a => Contains n (A6 a) | _ => false end
  end.

Definition MustParsePrefix (s : string) : Prefix :=
  match ParsePrefix s with Some p => p | None => mkPrefix (A4 0) 32 end.

(** ** host:port text *)

(** [net.SplitHostPort]; [None] is every address error. *)
Definition SplitHostPort (hp : string) : option (string * string) :=
  match cutLastByte ":" hp with
  | None => None
  | Some (before, port) =>
      match hp with
      | String "[" rest =>
          match cutByte "]" rest with
          | None => None
          | Some (host, after) =>
              if String.eqb after (":" +:+ port)
                 && negb (str_has "[" host) && negb (str_has "[" after)
                 && negb (str_has "]" after)
              then Some (host, port) else None
          end
      | _ =>
          if negb (str_has ":" before) && negb (str_has "[" hp) && negb (str_has "]" hp)
          then Some (before, port) else None
      end
  end.

(** [net.JoinHostPort]. *)
Definition JoinHostPort (host port : string) : string :=
  if str_has ":" host then "[" +:+ host +:+ "]:" +:+ port else host +:+ ":" +:+ port.

(** ** Bounds *)

Lemma digits_val_nonneg acc s v : 0 <= acc -> digits_val acc s = Some v -> 0 <= v.
Proof.
  revert acc. induction s as [|c s IH]; intros acc Ha; simpl; [congruence|].
  destruct (is_digit c) eqn:Ec; [|done]. apply IH.
  unfold is_digit, digit_val in *. bool_prop. lia.
Qed.

Lemma parseOctet_bound s v : parseOctet s = Some v -> 0 <= v <= 255.
Proof.
  intros H. assert (exists w, digits_val 0 s = Some w /\ w <= 255 /\ v = w) as (w & Hw & ? & ->).
  { unfold parseOctet in H. repeat (break_match; simplify_eq; bool_prop); eauto. }
  split; [|done]. by eapply digits_val_nonneg in Hw.
Qed.

Lemma parseIPv4_bound s v : parseIPv4 s = Some v -> 0 <= v < 2 ^ 32.
Proof.
  unfold parseIPv4. intros H. repeat (break_match; simplify_eq).
  repeat match goal with E : parseOctet _ = Some _ |- _ => apply parseOctet_bound in E end. lia.
Qed.

Lemma hex_val_bound c v : hex_val c = Some v -> 0 <= v < 16.
Proof. unfold hex_val. intros H. repeat (break_match; simplify_eq); bool_prop; lia. Qed.

Lemma hexGroup_bound s acc n v m r :
  0 <= acc < 16 ^ Z.of_nat n -> (n <= 4)%nat -> hexGroup acc n s = Some (v, m, r) -> 0 <= v < 65536.
Proof.
  assert (Hbase : forall k x, (k <= 4)%nat -> 0 <= x < 16 ^ Z.of_nat k -> 0 <= x < 65536).
  { intros k x Hk Hx. pose proof (Z.pow_le_mono_r 16 (Z.of_nat k) 4 ltac:(lia) ltac:(lia)). lia. }
  revert acc n. induction s as [|c s IH]; intros acc n Ha Hn; simpl.
  - intros [= <- <- <-]. eauto.
  - destruct (hex_val c) as [x|] eqn:Ex; [|intros [= <- <- <-]; eauto].
    destruct (Nat.ltb_spec 3 n); [done|]. apply hex_val_bound in Ex.
    apply IH; [|lia]. rewrite Nat2Z.inj_succ, Z.pow_succ_r by lia. nia.
Qed.

Definition wf_group (g : Z) : Prop := 0 <= g < 65536.

Lemma v6loop_groups fuel gs ell s gs' ell' s' :
  Forall wf_group gs -> (length gs <= 8)%nat ->
  v6loop fuel gs ell s = Some (gs', ell', s') ->
  Forall wf_group gs' /\ (length gs' <= 8)%nat.
Proof.
  revert gs ell s. induction fuel as [|fuel IH]; intros gs ell s Hgs Hl; cbn [v6loop];
    [intros [= <- <- <-]; done|].
  destruct (Nat.leb_spec 8 (length gs)) as [|Hlt]; [intros [= <- <- <-]; done|].
  destruct (hexGroup 0 0 s) as [[[acc n] rest]|] eqn:Eh; [|done].
  destruct n as [|n]; [done|]. apply hexGroup_bound in Eh; [|simpl; lia|lia].
  assert (Forall wf_group (acc :: gs)) by (by constructor).
  destruct rest as [|c rest]; [intros [= <- <- <-]; simpl; split; [done|lia]|].
  assert (Hstep : forall e r, v6loop fuel (acc :: gs) e r = Some (gs', ell', s') ->
                   Forall wf_group gs' /\ (length gs' <= 8)%nat).
  { intros e r. apply IH; [done|simpl; lia]. }
  intros Hc. repeat (break_match; simplify_eq; try (by eauto); try (simpl; split; [done|lia])).
  all: match goal with E : parseIPv4 _ = Some ?v |- _ => apply parseIPv4_bound in E;
    pose proof (Z.land_ones v 16 ltac:(lia)) as Hlo; pose proof (Z.mod_pos_bound v (2 ^ 16) ltac:(lia));
    pose proof (Z.shiftr_div_pow2 v 16 ltac:(lia)) as Hhi end.
  all: change (Z.ones 16) with 0xffff in Hlo; match goal with E : (6 <? _)%nat = false |- _ => apply Nat.ltb_ge in E end.
  all: split; [|simpl; lia]; constructor; [unfold wf_group; lia|]; constructor; [|done].
  all: unfold wf_group; rewrite Hhi; split; [apply Z.div_pos; lia|apply Z.div_lt_upper_bound; lia].
Qed.

Lemma groups_val_bound gs acc :
  Forall wf_group gs -> 0 <= acc ->
  let v := fold_left (fun a g => a * 65536 + g) gs acc in
  0 <= v < (acc + 1) * 65536 ^ Z.of_nat (length gs).
Proof.
  revert acc. induction gs as [|g gs IH]; intros acc Hgs Ha; simpl; [lia|].
  inversion_clear Hgs as [|? ? Hg Hr]. unfold wf_group in Hg.
  destruct (IH (acc * 65536 + g) Hr ltac:(lia)) as [H1 H2]. split; [done|].
  eapply Z.lt_le_trans; [exact H2|].
  rewrite Nat2Z.inj_succ, Z.pow_succ_r by lia.
  assert (0 < 65536 ^ Z.of_nat (length gs)) by (apply Z.pow_pos_nonneg; lia). nia.
Qed.

Lemma groups_val_8 gs : Forall wf_group gs -> length gs = 8%nat -> 0 <= groups_val gs < 2 ^ 128.
Proof. intros H Hl. pose proof (groups_val_bound gs 0 H ltac:(lia)) as B. rewrite Hl in B. exact B. Qed.

Lemma parseIPv6_bound s v : parseIPv6 s = Some v -> 0 <= v < 2 ^ 128.
Proof.
  unfold parseIPv6. intros H.
  match type of H with context [let '(_, _) := ?e in _] => destruct e as [ell0 s0] end.
  assert (Hm : match v6loop 9 [] ell0 s0 with
     | Some (rgs, ell, "") => let gs := rev rgs in let n := length gs in
          if (n <? 8)%nat then match ell with None => None
            | Some e => Some (groups_val (take e gs ++ replicate (8 - n) 0 ++ drop e gs)) end
          else match ell with Some _ => None | None => Some (groups_val gs) end
     | _ => None end = Some v \/ v = 0) by (destruct ell0, s0; simplify_eq; auto).
  clear H. destruct Hm as [H| ->]; [|lia].
  destruct (v6loop 9 [] ell0 s0) as [[[rgs ell] [|]]|] eqn:E; try done.
  apply v6loop_groups in E as [Hw Hl]; [|done|simpl; lia]. simpl in H.
  assert (Hr : Forall wf_group (rev rgs)) by (by apply Forall_rev).
  rewrite length_rev in H. destruct (Nat.ltb_spec (length rgs) 8).
  - destruct ell as [e|]; simplify_eq. apply groups_val_8.
    + apply Forall_app; split; [by apply Forall_take|]. apply Forall_app; split; [|by apply Forall_drop].
      apply Forall_replicate. unfold wf_group; lia.
    + rewrite !length_app, length_take, length_replicate, length_drop, length_rev. lia.
  - destruct ell; simplify_eq. apply groups_val_8; [done|]. rewrite length_rev. lia.
Qed.

(** What [net.ParseIP] reads is an address of its width. *)
Lemma ParseIP_wf s ip : ParseIP s = Some ip -> wf_IP ip /\ exists a, ip = IP16 a.
Proof.
  unfold ParseIP. destruct (ParseAddr s) as [[a [|]]|] eqn:E; intros H; simplify_eq.
  split; [|by eexists]. unfold ParseAddr in E. repeat (break_match; simplify_eq); simpl.
  all: repeat match goal with
       | E : parseIPv4 _ = Some _ |- _ => apply parseIPv4_bound in E
       | E : parseIPv6 _ = Some _ |- _ => apply parseIPv6_bound in E
       end.
  all: change (Z.shiftl mappedPrefix 32) with 281470681743360; lia.
Qed.

(** ** Prefix containment as an interval *)

Lemma shiftr_lxor_zero x y k : 0 <= k ->
  (Z.shiftr (Z.lxor x y) k =? 0) = (Z.shiftr x k =? Z.shiftr y k).
Proof.
  intros Hk. rewrite Z.shiftr_lxor. apply eq_true_iff_eq. rewrite !Z.eqb_eq. apply Z.lxor_eq_0_iff.
Qed.

Lemma shiftr_interval x k q : 0 <= k ->
  (Z.shiftr x k =? q) = ((q * 2 ^ k <=? x) && (x <? (q + 1) * 2 ^ k)).
Proof.
  intros Hk. rewrite Z.shiftr_div_pow2 by done. set (p := 2 ^ k).
  assert (0 < p) by (apply Z.pow_pos_nonneg; lia).
  apply eq_true_iff_eq. rewrite andb_true_iff, Z.eqb_eq, Z.leb_le, Z.ltb_lt. split.
  - intros <-. pose proof (Z.div_mod x p ltac:(lia)). pose proof (Z.mod_pos_bound x p ltac:(lia)). nia.
  - intros [? ?]. symmetry. apply (Z.div_unique x p q (x - p * q)); [lia|lia].
Qed.

Definition in_range (lo hi x : Z) : bool := (lo <=? x) && (x <=? hi).

(** The interval of addresses a prefix covers. *)
Definition pfx_lo (x bits w : Z) : Z := Z.shiftr x (w - bits) * 2 ^ (w - bits).
Definition pfx_hi (x bits w : Z) : Z := (Z.shiftr x (w - bits) + 1) * 2 ^ (w - bits) - 1.

Lemma Contains_range p a : wf_Prefix p ->
  Contains p a =
    match pfx_addr p, a with
    | A4 x, A4 y => in_range (pfx_lo x (pfx_bits p) 32) (pfx_hi x (pfx_bits p) 32) y
    | A6 x, A6 y => in_range (pfx_lo x (pfx_bits p) 128) (pfx_hi x (pfx_bits p) 128) y
    | _, _ => false
    end.
Proof.
  unfold wf_Prefix, Contains, in_range, pfx_lo, pfx_hi.
  destruct (pfx_addr p) as [x|x], a as [y|y]; intros Hp; try done;
    rewrite shiftr_lxor_zero, Z.eqb_sym, shiftr_interval by lia; f_equal;
    match goal with |- (?u <? ?v) = (?u <=? ?w) => destruct (Z.ltb_spec u v), (Z.leb_spec u w); lia end.
Qed.

Example parse_v4 : ParseIP "169.254.169.254" = Some (IP16 (0xffffa9fea9fe)).
Proof. vm_compute. reflexivity. Qed.
Example parse_v6 : option_map IPString (ParseIP "2001:DB8:0:0:1:0:0:1") = Some "2001:db8::1:0:0:1".
Proof. vm_compute. reflexivity. Qed.
Example parse_mapped : option_map IPString (ParseIP "::ffff:10.0.0.1") = Some "10.0.0.1".
Proof. vm_compute. reflexivity. Qed.
Example parse_bad : map ParseIP ["127.1"; "01.2.3.4"; "1.2.3.4.5"; "fe80::1%eth0"; ":::"; "1::2::3"; "12345::"; "1:2:3:4:5:6:7"; "1:2:3:4:5:6:7:8:9"; "1::2:3:4:5:6:7:8"] = replicate 10 None.
Proof. vm_compute. reflexivity. Qed.
Example parse_more : map (fun s => option_map IPString (ParseIP s)) ["::"; "::1"; "1::"; "fd00:ec2::254"; "64:ff9b::a9fe:a9fe"; "1:2:3:4:5:6:7:8"; "::127.0.0.1"; "1:2:3:4:5:6:1.2.3.4"; "0:0:1:0:0:0:0:0"]
  = map Some ["::"; "::1"; "1::"; "fd00:ec2::254"; "64:ff9b::a9fe:a9fe"; "1:2:3:4:5:6:7:8"; "::7f00:1"; "1:2:3:4:5:6:102:304"; "0:0:1::"].
Proof. vm_compute. reflexivity. Qed.
Example split_ok : map SplitHostPort ["a:1"; "[::1]:443"; "a"; "a:b:1"; "[a]"; "[a]b:1"; "[a:b"; ":80"] =
  [Some ("a","1"); Some ("::1","443"); None; None; None; None; None; Some ("","80")].
Proof. vm_compute. reflexivity. Qed.
