(* ===== verification/IPGuard.v ===== *)
(** * The address guard

    [internal/ipguard/ipguard.go] (the reserved, NAT64 and liftable ranges and
    the predicates over them) and the classification the egress proxy builds on
    it ([isBlockedIP] and its block kinds, [internal/egress/proxy/policy.go]).

    The theorems give the classification as intervals of addresses: which
    address is blocked, and that the one liftable kind never contains loopback,
    link-local, multicast or a cloud metadata endpoint, however it is spelled. *)
From Stdlib Require Import Btauto.
From S2P Require Import Prelude GoStrings NetIP.
Local Open Scope string_scope.
Local Open Scope Z_scope.


(** ** The tables *)

Definition ReservedV4 : list Prefix := Eval vm_compute in map MustParsePrefix
  ["100.64.0.0/10"; "0.0.0.0/8"; "192.0.0.0/24"; "198.18.0.0/15"; "255.255.255.255/32";
   "192.0.2.0/24"; "198.51.100.0/24"; "203.0.113.0/24"; "192.88.99.0/24"; "240.0.0.0/4"].

Definition ReservedV6 : list Prefix := Eval vm_compute in map MustParsePrefix
  ["fec0::/10"; "2002::/16"; "2001::/32"; "2001:2::/48"; "2001:10::/28"; "2001:db8::/32";
   "3fff::/20"; "5f00::/16"; "100::/64"; "100:0:0:1::/64"].

Definition NAT64Prefixes : list Prefix := Eval vm_compute in map MustParsePrefix
  ["64:ff9b::/96"; "64:ff9b:1::/48"].

Definition Liftable : list Prefix := Eval vm_compute in map MustParsePrefix
  ["10.0.0.0/8"; "172.16.0.0/12"; "192.168.0.0/16"; "fc00::/7"; "100.64.0.0/10"].

Definition NeverLift : list Prefix := Eval vm_compute in map MustParsePrefix
  ["fd00:ec2::/64"; "fd20:ce::254/128"; "100.100.100.200/32"].

Definition v4CompatiblePrefix : Prefix := Eval vm_compute in MustParsePrefix "::/96".
Definition sixToFourPrefix : Prefix := Eval vm_compute in MustParsePrefix "2002::/16".

Definition addrOf (ip : IP) : option Addr := Unmap <$> AddrFromSlice ip.

Definition inAny (ps : list Prefix) (a : Addr) : bool := containsFunc (fun p => Contains p a) ps.
Definition firstIn (ps : list Prefix) (a : Addr) : option Prefix := findFirst (fun p => Contains p a) ps.

(** ** The predicates of ipguard.go *)

(** [None] is "not private or reserved"; otherwise the range's name. *)
Definition PrivateReserved (ip : IP) : option string :=
  match addrOf ip with
  | None => None
  | Some addr =>
      if IsPrivate addr then Some "rfc1918/ula"
      else match firstIn ReservedV4 addr with
           | Some p => Some (PrefixString p)
           | None => PrefixString <$> firstIn ReservedV6 addr
           end
  end.

Definition InLiftable (ip : IP) : bool :=
  match addrOf ip with
  | None => false
  | Some addr => if inAny NeverLift addr then false else inAny Liftable addr
  end.

(** The bytes [12:16] and [2:6] of a 16-byte address. *)
Definition low32 (a : Z) : Z := Z.land a (Z.ones 32).
Definition bytes2to6 (a : Z) : Z := Z.land (Z.shiftr a 80) (Z.ones 32).

Definition NAT64EmbeddedV4 (ip : IP) : option IP :=
  match addrOf ip with
  | None => None
  | Some addr => if inAny NAT64Prefixes addr then Some (IP4 (low32 (As16 addr))) else None
  end.

Definition is6 (a : Addr) : bool := match a with A6 _ => true | A4 _ => false end.

(** [GatewayIPRefused] with its recursive call abstracted: the call is on a
    4-byte address, which takes neither embedded branch, so two unrollings are
    the whole recursion ([GatewayIPRefused_eq]). *)
Definition gatewayRefusedBody (rec : IP -> bool) (ip : IP) : bool :=
  match addrOf ip with
  | None => true
  | Some addr =>
      if IsLoopback ip || IsLinkLocalUnicast ip || IsLinkLocalMulticast ip || IsMulticast ip || IsUnspecified ip
      then true
      else if inAny NeverLift addr then true
      else if is6 addr && Contains v4CompatiblePrefix addr then rec (IP4 (low32 (As16 addr)))
      else if is6 addr && Contains sixToFourPrefix addr then rec (IP4 (bytes2to6 (As16 addr)))
      else match NAT64EmbeddedV4 ip with Some _ => true | None => false end
  end.

Definition GatewayIPRefused (ip : IP) : bool :=
  gatewayRefusedBody (gatewayRefusedBody (fun _ => true)) ip.

(** ** The proxy's classification (policy.go) *)

Inductive blockKind :=
| blockNone | blockLocal | blockPrivate | blockReservedOther | blockNAT64 | blockV4Compat
| blockHardDeny | blockOwnNetwork | blockExclusionUnknown.

#[export] Instance blockKind_eq_dec : EqDecision blockKind.
Proof. solve_decision. Defined.

Definition v4CompatibleEmbeddedV4 (ip : IP) : option IP :=
  match AddrFromSlice ip with
  | None => None
  | Some addr =>
      let addr := Unmap addr in
      if negb (is6 addr) || negb (Contains v4CompatiblePrefix addr) then None
      else Some (IP4 (low32 (As16 addr)))
  end.

Definition isBlockedIPBody (rec : IP -> blockKind * string) (ip : IP) : blockKind * string :=
  if match ip with IPother [] => true | _ => false end then (blockLocal, "nil ip")
  else if IsUnspecified ip || IsLoopback ip || IsLinkLocalUnicast ip || IsLinkLocalMulticast ip || IsMulticast ip
  then (blockLocal, "loopback/link-local/multicast")
  else match PrivateReserved ip with
       | Some why =>
           if InLiftable ip then (blockPrivate, "private/reserved " +:+ why)
           else (blockReservedOther, "private/reserved " +:+ why)
       | None =>
           match NAT64EmbeddedV4 ip with
           | Some embedded =>
               let '(kind, why) := rec embedded in
               if bool_decide (kind <> blockNone) then (blockNAT64, "nat64-embedded " +:+ why)
               else (blockNAT64, "nat64 prefix (RFC 6052/8215)")
           | None =>
               match v4CompatibleEmbeddedV4 ip with
               | Some embedded =>
                   let '(kind, why) := rec embedded in
                   if bool_decide (kind <> blockNone) then (blockV4Compat, "ipv4-compatible-embedded " +:+ why)
                   else (blockNone, "")
               | None => (blockNone, "")
               end
           end
       end.

Definition isBlockedIP (ip : IP) : blockKind * string :=
  isBlockedIPBody (isBlockedIPBody (fun _ => (blockNone, ""))) ip.

Definition blockedKind (ip : IP) : blockKind := fst (isBlockedIP ip).

(** ** The recursion is exhausted *)

Lemma v4_no_nat64 a : NAT64EmbeddedV4 (IP4 a) = None.
Proof. done. Qed.
Lemma v4_no_compat a : v4CompatibleEmbeddedV4 (IP4 a) = None.
Proof. done. Qed.

Lemma isBlockedIPBody_v4 rec rec' a : isBlockedIPBody rec (IP4 a) = isBlockedIPBody rec' (IP4 a).
Proof. unfold isBlockedIPBody. by rewrite v4_no_nat64, v4_no_compat. Qed.

Lemma isBlockedIPBody_ext rec rec' ip :
  (forall a, rec (IP4 a) = rec' (IP4 a)) -> isBlockedIPBody rec ip = isBlockedIPBody rec' ip.
Proof.
  intros H. unfold isBlockedIPBody.
  destruct (NAT64EmbeddedV4 ip) as [e|] eqn:En.
  - assert (exists a, e = IP4 a) as [a ->].
    { unfold NAT64EmbeddedV4 in En. repeat (break_match; simplify_eq). eauto. }
    by rewrite H.
  - destruct (v4CompatibleEmbeddedV4 ip) as [e|] eqn:Ec; [|done].
    assert (exists a, e = IP4 a) as [a ->].
    { unfold v4CompatibleEmbeddedV4 in Ec. repeat (break_match; simplify_eq). eauto. }
    by rewrite H.
Qed.

(** The guard is the fixed point of the code's recursive body. *)
Lemma isBlockedIP_eq ip : isBlockedIP ip = isBlockedIPBody isBlockedIP ip.
Proof. apply isBlockedIPBody_ext. intros a. apply isBlockedIPBody_v4. Qed.

Lemma GatewayIPRefused_eq ip : GatewayIPRefused ip = gatewayRefusedBody GatewayIPRefused ip.
Proof.
  assert (Hv4 : forall rec rec' a, gatewayRefusedBody rec (IP4 a) = gatewayRefusedBody rec' (IP4 a)) by done.
  unfold GatewayIPRefused at 1. unfold gatewayRefusedBody at 1 3.
  repeat (break_goal; try done); apply Hv4.
Qed.

(** ** The classification as intervals *)

Definition in_ranges (l : list (Z * Z)) (x : Z) : bool := existsb (fun r => in_range (fst r) (snd r) x) l.

Definition v4ranges (ps : list Prefix) : list (Z * Z) :=
  flat_map (fun p => match pfx_addr p with
                     | A4 x => [(pfx_lo x (pfx_bits p) 32, pfx_hi x (pfx_bits p) 32)]
                     | A6 _ => []
                     end) ps.
Definition v6ranges (ps : list Prefix) : list (Z * Z) :=
  flat_map (fun p => match pfx_addr p with
                     | A6 x => [(pfx_lo x (pfx_bits p) 128, pfx_hi x (pfx_bits p) 128)]
                     | A4 _ => []
                     end) ps.

Lemma inAny_v4 ps a : Forall wf_Prefix ps -> inAny ps (A4 a) = in_ranges (v4ranges ps) a.
Proof.
  induction 1 as [|p ps Hp _ IH]; [done|].
  unfold inAny, containsFunc, in_ranges, v4ranges in *. simpl.
  rewrite Contains_range, existsb_app, IH by done.
  destruct (pfx_addr p); simpl; [by rewrite orb_false_r|done].
Qed.

Lemma inAny_v6 ps a : Forall wf_Prefix ps -> inAny ps (A6 a) = in_ranges (v6ranges ps) a.
Proof.
  induction 1 as [|p ps Hp _ IH]; [done|].
  unfold inAny, containsFunc, in_ranges, v6ranges in *. simpl.
  rewrite Contains_range, existsb_app, IH by done.
  destruct (pfx_addr p); simpl; [done|by rewrite orb_false_r].
Qed.

Lemma tables_wf :
  Forall wf_Prefix (ReservedV4 ++ ReservedV6 ++ NAT64Prefixes ++ Liftable ++ NeverLift ++ [v4CompatiblePrefix; sixToFourPrefix]).
Proof. repeat constructor; vm_compute; intuition discriminate. Qed.

(** A byte predicate decided by running it on all 256 values. *)
Lemma byte_forall (f : Z -> bool) :
  forallb f (map Z.of_nat (seq 0 256)) = true -> forall x, 0 <= x < 256 -> f x = true.
Proof.
  rewrite forallb_forall. intros H x Hx. apply H. rewrite in_map_iff.
  exists (Z.to_nat x). rewrite in_seq. lia.
Qed.

Lemma land_fc x : 0 <= x < 256 -> (Z.land x 0xfe =? 0xfc) = in_range 252 253 x.
Proof. intros H. apply eqb_prop. by apply (byte_forall (fun x => Bool.eqb (Z.land x 0xfe =? 0xfc) (in_range 252 253 x))). Qed.
Lemma land_c0 x : 0 <= x < 256 -> (Z.land x 0xc0 =? 0x80) = in_range 128 191 x.
Proof. intros H. apply eqb_prop. by apply (byte_forall (fun x => Bool.eqb (Z.land x 0xc0 =? 0x80) (in_range 128 191 x))). Qed.
Lemma land_e0 x : 0 <= x < 256 -> (Z.land x 0xf0 =? 0xe0) = in_range 224 239 x.
Proof. intros H. apply eqb_prop. by apply (byte_forall (fun x => Bool.eqb (Z.land x 0xf0 =? 0xe0) (in_range 224 239 x))). Qed.
Lemma land_10 x : 0 <= x < 256 -> (Z.land x 0xf0 =? 16) = in_range 16 31 x.
Proof. intros H. apply eqb_prop. by apply (byte_forall (fun x => Bool.eqb (Z.land x 0xf0 =? 16) (in_range 16 31 x))). Qed.

Lemma v4byte_div i a : 0 <= i <= 3 -> v4byte i a = (a / 2 ^ (8 * (3 - i))) mod 256.
Proof. intros H. unfold v4byte. rewrite Z.shiftr_div_pow2 by lia. apply (Z.land_ones _ 8). lia. Qed.
Lemma v6byte_div i a : 0 <= i <= 15 -> v6byte i a = (a / 2 ^ (8 * (15 - i))) mod 256.
Proof. intros H. unfold v6byte. rewrite Z.shiftr_div_pow2 by lia. apply (Z.land_ones _ 8). lia. Qed.
Lemma v4byte_bound i a : 0 <= i <= 3 -> 0 <= v4byte i a < 256.
Proof. intros. rewrite v4byte_div by done. apply Z.mod_pos_bound. lia. Qed.
Lemma v6byte_bound i a : 0 <= i <= 15 -> 0 <= v6byte i a < 256.
Proof. intros. rewrite v6byte_div by done. apply Z.mod_pos_bound. lia. Qed.

(** An address as its leading bytes and the rest. *)
Lemma v4_decomp a : 0 <= a < 2 ^ 32 ->
  exists r, 0 <= r < 2 ^ 8 /\ a = v4byte 0 a * 2 ^ 24 + v4byte 1 a * 2 ^ 16 + v4byte 2 a * 2 ^ 8 + r.
Proof.
  intros Ha. exists (a mod 2 ^ 8). split; [apply Z.mod_pos_bound; lia|].
  rewrite !v4byte_div by lia.
  change (8 * (3 - 0)) with 24. change (8 * (3 - 1)) with 16. change (8 * (3 - 2)) with 8.
  rewrite (Z.mod_small (a / 2 ^ 24) 256) by (split; [apply Z.div_pos; lia|apply Z.div_lt_upper_bound; lia]).
  pose proof (Z.div_mod a (2 ^ 8) ltac:(lia)). pose proof (Z.div_mod (a / 2 ^ 8) 256 ltac:(lia)) as H1.
  pose proof (Z.div_mod (a / 2 ^ 16) 256 ltac:(lia)) as H2.
  rewrite Z.div_div in H1, H2 by lia. change (2 ^ 8 * 256) with (2 ^ 16) in H1.
  change (2 ^ 16 * 256) with (2 ^ 24) in H2. lia.
Qed.

Lemma v6_decomp a : 0 <= a < 2 ^ 128 ->
  exists r, 0 <= r < 2 ^ 112 /\ a = v6byte 0 a * 2 ^ 120 + v6byte 1 a * 2 ^ 112 + r.
Proof.
  intros Ha. exists (a mod 2 ^ 112). split; [apply Z.mod_pos_bound; lia|].
  rewrite !v6byte_div by lia.
  change (8 * (15 - 0)) with 120. change (8 * (15 - 1)) with 112.
  rewrite (Z.mod_small (a / 2 ^ 120) 256) by (split; [apply Z.div_pos; lia|apply Z.div_lt_upper_bound; lia]).
  pose proof (Z.div_mod a (2 ^ 112) ltac:(lia)). pose proof (Z.div_mod (a / 2 ^ 112) 256 ltac:(lia)) as H1.
  rewrite Z.div_div in H1 by lia. change (2 ^ 112 * 256) with (2 ^ 120) in H1. lia.
Qed.

(** A boolean test on the leading bytes of [a] is a range test on [a]. *)
Ltac byte_ranges Ha :=
  rewrite ?land_fc, ?land_c0, ?land_e0, ?land_10 by (first [apply v4byte_bound|apply v6byte_bound]; lia);
  let r := fresh "r" in let Hr := fresh in let He := fresh in
  first [destruct (v4_decomp _ Ha) as (r & Hr & He) | destruct (v6_decomp _ Ha) as (r & Hr & He)];
  match type of He with ?x = _ =>
    pose proof (v4byte_bound 0 x ltac:(lia)); pose proof (v4byte_bound 1 x ltac:(lia));
    pose proof (v4byte_bound 2 x ltac:(lia)); 
    pose proof (v6byte_bound 0 x ltac:(lia)); pose proof (v6byte_bound 1 x ltac:(lia));
    generalize dependent (v4byte 0 x); generalize dependent (v4byte 1 x); generalize dependent (v4byte 2 x);
    generalize dependent (v6byte 0 x); generalize dependent (v6byte 1 x) end;
  intros; subst; unfold in_range; lia.

Lemma b4_loop a : 0 <= a < 2 ^ 32 -> (v4byte 0 a =? 127) = in_range 0x7f000000 0x7fffffff a.
Proof. intros Ha. byte_ranges Ha. Qed.
Lemma b4_ll a : 0 <= a < 2 ^ 32 -> (v4byte 0 a =? 169) && (v4byte 1 a =? 254) = in_range 0xa9fe0000 0xa9feffff a.
Proof. intros Ha. byte_ranges Ha. Qed.
Lemma b4_llm a : 0 <= a < 2 ^ 32 ->
  (v4byte 0 a =? 224) && (v4byte 1 a =? 0) && (v4byte 2 a =? 0) = in_range 0xe0000000 0xe00000ff a.
Proof. intros Ha. byte_ranges Ha. Qed.
Lemma b4_mc a : 0 <= a < 2 ^ 32 -> (Z.land (v4byte 0 a) 0xf0 =? 0xe0) = in_range 0xe0000000 0xefffffff a.
Proof. intros Ha. byte_ranges Ha. Qed.
Lemma b4_10 a : 0 <= a < 2 ^ 32 -> (v4byte 0 a =? 10) = in_range 0x0a000000 0x0affffff a.
Proof. intros Ha. byte_ranges Ha. Qed.
Lemma b4_172 a : 0 <= a < 2 ^ 32 ->
  (v4byte 0 a =? 172) && (Z.land (v4byte 1 a) 0xf0 =? 16) = in_range 0xac100000 0xac1fffff a.
Proof. intros Ha. byte_ranges Ha. Qed.
Lemma b4_192 a : 0 <= a < 2 ^ 32 ->
  (v4byte 0 a =? 192) && (v4byte 1 a =? 168) = in_range 0xc0a80000 0xc0a8ffff a.
Proof. intros Ha. byte_ranges Ha. Qed.
Lemma b6_ll a : 0 <= a < 2 ^ 128 -> (v6byte 0 a =? 0xfe) && (Z.land (v6byte 1 a) 0xc0 =? 0x80)
  = in_range 0xfe800000000000000000000000000000 0xfebfffffffffffffffffffffffffffff a.
Proof. intros Ha. byte_ranges Ha. Qed.
Lemma b6_mc a : 0 <= a < 2 ^ 128 ->
  (v6byte 0 a =? 0xff) = in_range 0xff000000000000000000000000000000 0xffffffffffffffffffffffffffffffff a.
Proof. intros Ha. byte_ranges Ha. Qed.
Lemma b6_ula a : 0 <= a < 2 ^ 128 ->
  (Z.land (v6byte 0 a) 0xfe =? 0xfc) = in_range 0xfc000000000000000000000000000000 0xfdffffffffffffffffffffffffffffff a.
Proof. intros Ha. byte_ranges Ha. Qed.

Definition local4 : list (Z * Z) :=
  [(0, 0); (0x7f000000, 0x7fffffff); (0xa9fe0000, 0xa9feffff); (0xe0000000, 0xefffffff)].
Definition rfc1918 : list (Z * Z) :=
  [(0x0a000000, 0x0affffff); (0xac100000, 0xac1fffff); (0xc0a80000, 0xc0a8ffff)].

Lemma local4_spec a : 0 <= a < 2 ^ 32 ->
  IsUnspecified (IP4 a) || IsLoopback (IP4 a) || IsLinkLocalUnicast (IP4 a)
  || IsLinkLocalMulticast (IP4 a) || IsMulticast (IP4 a) = in_ranges local4 a.
Proof.
  intros Ha. unfold IsUnspecified, IsLoopback, IsLinkLocalUnicast, IsLinkLocalMulticast, IsMulticast, To4.
  rewrite b4_loop, b4_ll, b4_llm, b4_mc by done. unfold in_ranges, local4, in_range. cbn [existsb fst snd]. lia.
Qed.

Lemma IsPrivate4_spec a : 0 <= a < 2 ^ 32 -> IsPrivate (A4 a) = in_ranges rfc1918 a.
Proof.
  intros Ha. unfold IsPrivate. rewrite b4_10, b4_172, b4_192 by done. unfold in_ranges, rfc1918. cbn [existsb fst snd]. by rewrite ?orb_false_r, ?orb_assoc.
Qed.

Definition local6 : list (Z * Z) :=
  [(0, 1); (0xfe800000000000000000000000000000, 0xfebfffffffffffffffffffffffffffff);
   (0xff000000000000000000000000000000, 0xffffffffffffffffffffffffffffffff)].
Definition ula : list (Z * Z) :=
  [(0xfc000000000000000000000000000000, 0xfdffffffffffffffffffffffffffffff)].

(** On a 16-byte address that is not IPv4-mapped. *)
Definition mapped (a : Z) : bool := Z.shiftr a 32 =? mappedPrefix.

Lemma local6_spec a : 0 <= a < 2 ^ 128 -> mapped a = false ->
  IsUnspecified (IP16 a) || IsLoopback (IP16 a) || IsLinkLocalUnicast (IP16 a)
  || IsLinkLocalMulticast (IP16 a) || IsMulticast (IP16 a) = in_ranges local6 a.
Proof.
  intros Ha Hm. unfold IsUnspecified, IsLoopback, IsLinkLocalUnicast, IsLinkLocalMulticast, IsMulticast, To4.
  fold (mapped a). rewrite Hm, b6_ll, b6_mc by done. unfold in_ranges, local6, in_range. cbn [existsb fst snd].
  generalize (Z.land (v6byte 1 a) 15 =? 2). intros t. destruct t; lia.
Qed.

Lemma IsPrivate6_spec a : 0 <= a < 2 ^ 128 -> IsPrivate (A6 a) = in_ranges ula a.
Proof. intros Ha. unfold IsPrivate. rewrite b6_ula by done. unfold in_ranges, ula. cbn [existsb fst snd]. by rewrite ?orb_false_r, ?orb_assoc. Qed.

Lemma firstIn_isSome ps a : match firstIn ps a with Some _ => true | None => false end = inAny ps a.
Proof.
  unfold firstIn, inAny. induction ps as [|p ps IH]; [done|].
  simpl. by destruct (Contains p a).
Qed.

Definition isSomeb {A} (o : option A) : bool := match o with Some _ => true | None => false end.

Lemma PrivateReserved_isSome ip addr : addrOf ip = Some addr ->
  isSomeb (PrivateReserved ip) = IsPrivate addr || inAny ReservedV4 addr || inAny ReservedV6 addr.
Proof.
  intros E. unfold PrivateReserved. rewrite E, <- !firstIn_isSome.
  destruct (IsPrivate addr); [done|]. destruct (firstIn ReservedV4 addr); [done|].
  by destruct (firstIn ReservedV6 addr).
Qed.

(** What [isBlockedIP] answers, with its tests as booleans. *)
Lemma blockedKind_bools ip addr : addrOf ip = Some addr ->
  blockedKind ip =
    if IsUnspecified ip || IsLoopback ip || IsLinkLocalUnicast ip || IsLinkLocalMulticast ip || IsMulticast ip
    then blockLocal
    else if IsPrivate addr || inAny ReservedV4 addr || inAny ReservedV6 addr then
      if negb (inAny NeverLift addr) && inAny Liftable addr then blockPrivate else blockReservedOther
    else if inAny NAT64Prefixes addr then blockNAT64
    else if is6 addr && Contains v4CompatiblePrefix addr then
      if bool_decide (blockedKind (IP4 (low32 (As16 addr))) = blockNone) then blockNone else blockV4Compat
    else blockNone.
Proof.
  intros E. unfold blockedKind. rewrite isBlockedIP_eq. unfold isBlockedIPBody.
  assert ((match ip with IPother [] => true | _ => false end) = false) as ->.
  { destruct ip; [done|done|]. by unfold addrOf in E. }
  destruct (_ || _ || _ || _ || _) eqn:El; [done|].
  rewrite <- (PrivateReserved_isSome ip addr E).
  assert (InLiftable ip = negb (inAny NeverLift addr) && inAny Liftable addr) as ->.
  { unfold InLiftable. rewrite E. by destruct (inAny NeverLift addr). }
  destruct (PrivateReserved ip) as [why|]; cbn [isSomeb]; [by destruct (negb _ && _)|].
  unfold NAT64EmbeddedV4. rewrite E. destruct (inAny NAT64Prefixes addr).
  { destruct (isBlockedIP _) as [k w]. by destruct (bool_decide _). }
  assert (v4CompatibleEmbeddedV4 ip =
    if is6 addr && Contains v4CompatiblePrefix addr then Some (IP4 (low32 (As16 addr))) else None) as ->.
  { unfold v4CompatibleEmbeddedV4, addrOf in *. destruct (AddrFromSlice ip); [|done].
    simpl in E. simplify_eq. by destruct (is6 _), (Contains _ _). }
  destruct (is6 addr && _); [|done].
  destruct (isBlockedIP _) as [k w]. simpl. by repeat case_bool_decide.
Qed.

(** The liftable space of an IPv4 address: RFC 1918 and CGNAT, without the
    metadata endpoint inside CGNAT. *)
Definition liftable4 : list (Z * Z) :=
  [(0x0a000000, 0x0affffff); (0xac100000, 0xac1fffff); (0xc0a80000, 0xc0a8ffff);
   (0x64400000, 0x646464c7); (0x646464c9, 0x647fffff)].
Definition reserved4 : list (Z * Z) := Eval vm_compute in v4ranges ReservedV4.

Definition kind4 (a : Z) : blockKind :=
  if in_ranges local4 a then blockLocal
  else if in_ranges liftable4 a then blockPrivate
  else if in_ranges reserved4 a then blockReservedOther
  else blockNone.

(** ULA without the two metadata endpoints inside it. *)
Definition liftable6 : list (Z * Z) :=
  [(0xfc000000000000000000000000000000, 0xfd000ec1ffffffffffffffffffffffff);
   (0xfd000ec2000000010000000000000000, 0xfd2000ce000000000000000000000253);
   (0xfd2000ce000000000000000000000255, 0xfdffffffffffffffffffffffffffffff)].
Definition reserved6 : list (Z * Z) := Eval vm_compute in (ula ++ v6ranges ReservedV6).
Definition nat64 : list (Z * Z) := Eval vm_compute in v6ranges NAT64Prefixes.

Definition kind6 (a : Z) : blockKind :=
  if mapped a then kind4 (low32 a)
  else if in_ranges local6 a then blockLocal
  else if in_ranges liftable6 a then blockPrivate
  else if in_ranges reserved6 a then blockReservedOther
  else if in_ranges nat64 a then blockNAT64
  else if a <? 2 ^ 32 then if bool_decide (kind4 a = blockNone) then blockNone else blockV4Compat
  else blockNone.

Ltac tables := pose proof tables_wf as Htab; rewrite !Forall_app in Htab;
  destruct Htab as (HR4 & HR6 & HN64 & HL & HNL & HC).

Ltac ranges_lia := unfold in_ranges, in_range; cbn [existsb fst snd]; lia.

Lemma if_cascade {A} (c1 c2 c1' c2' : bool) (x y z : A) :
  c1 && c2 = c1' -> c1 && negb c2 = negb c1' && c2' ->
  (if c1 then if c2 then x else y else z) = if c1' then x else if c2' then y else z.
Proof. by destruct c1, c2, c1', c2'. Qed.

Definition liftRaw4 : list (Z * Z) := Eval vm_compute in v4ranges Liftable.
Definition never4 : list (Z * Z) := Eval vm_compute in v4ranges NeverLift.
Definition liftRaw6 : list (Z * Z) := Eval vm_compute in v6ranges Liftable.
Definition never6 : list (Z * Z) := Eval vm_compute in v6ranges NeverLift.

Lemma v4_tables :
  v4ranges ReservedV4 = reserved4 /\ v4ranges ReservedV6 = [] /\ v4ranges NAT64Prefixes = [] /\
  v4ranges Liftable = liftRaw4 /\ v4ranges NeverLift = never4.
Proof. vm_compute. repeat split. Qed.

Lemma v6_tables :
  v6ranges ReservedV4 = [] /\ v6ranges ReservedV6 = drop 1 reserved6 /\ v6ranges NAT64Prefixes = nat64 /\
  v6ranges Liftable = liftRaw6 /\ v6ranges NeverLift = never6 /\
  v6ranges [v4CompatiblePrefix] = [(0, 2 ^ 32 - 1)].
Proof. vm_compute. repeat split. Qed.

Lemma blockedKind_v4 a : 0 <= a < 2 ^ 32 -> blockedKind (IP4 a) = kind4 a.
Proof.
  intros Ha. rewrite (blockedKind_bools (IP4 a) (A4 a) eq_refl). tables.
  destruct v4_tables as (E1 & E2 & E3 & E4 & E5).
  rewrite local4_spec, IsPrivate4_spec, !inAny_v4, E1, E2, E3, E4, E5 by done.
  change (is6 (A4 a)) with false. change (in_ranges [] a) with false. rewrite orb_false_r, andb_false_l.
  unfold kind4. destruct (in_ranges local4 a); [done|].
  apply if_cascade; unfold rfc1918, reserved4, liftable4, liftRaw4, never4; ranges_lia.
Qed.

Lemma addrOf_16 a : addrOf (IP16 a) = Some (if mapped a then A4 (low32 a) else A6 a).
Proof. reflexivity. Qed.

Lemma v6_priv_ranges a :
  (in_ranges ula a || in_ranges (drop 1 reserved6) a) && (negb (in_ranges never6 a) && in_ranges liftRaw6 a)
    = in_ranges liftable6 a /\
  (in_ranges ula a || in_ranges (drop 1 reserved6) a) && negb (negb (in_ranges never6 a) && in_ranges liftRaw6 a)
    = negb (in_ranges liftable6 a) && in_ranges reserved6 a.
Proof. unfold ula, reserved6, liftable6, liftRaw6, never6, drop. split; ranges_lia. Qed.

Lemma compat_range a : 0 <= a -> Contains v4CompatiblePrefix (A6 a) = (a <? 2 ^ 32).
Proof.
  intros Ha. tables. inversion_clear HC as [|? ? Hc _].
  assert (Contains v4CompatiblePrefix (A6 a) = inAny [v4CompatiblePrefix] (A6 a)) as ->.
  { unfold inAny, containsFunc, existsb. by rewrite orb_false_r. }
  rewrite inAny_v6 by (by constructor). destruct v6_tables as (_ & _ & _ & _ & _ & ->). ranges_lia.
Qed.

Lemma blockedKind_v6 a : 0 <= a < 2 ^ 128 -> mapped a = false ->
  blockedKind (IP16 a) = kind6 a.
Proof.
  intros Ha Hm. assert (E : addrOf (IP16 a) = Some (A6 a)) by (by rewrite addrOf_16, Hm).
  rewrite (blockedKind_bools (IP16 a) (A6 a) E). tables.
  destruct v6_tables as (E1 & E2 & E3 & E4 & E5 & _).
  rewrite local6_spec, IsPrivate6_spec, !inAny_v6, E1, E2, E3, E4, E5, compat_range by (done || lia).
  change (is6 (A6 a)) with true. change (in_ranges [] a) with false. rewrite orb_false_r, andb_true_l.
  unfold kind6. rewrite Hm. destruct (in_ranges local6 a); [done|].
  destruct (v6_priv_ranges a) as [H1 H2]. rewrite (if_cascade _ _ _ _ _ _ _ H1 H2).
  destruct (in_ranges liftable6 a); [done|]. destruct (in_ranges reserved6 a); [done|].
  destruct (in_ranges nat64 a); [done|]. destruct (Z.ltb_spec a (2 ^ 32)); [|done].
  assert (low32 (As16 (A6 a)) = a) as ->; [|by rewrite blockedKind_v4 by lia].
  unfold low32, As16. by rewrite Z.land_ones, Z.mod_small by lia.
Qed.

Lemma mapped_low32 a : 0 <= a < 2 ^ 128 -> 0 <= low32 a < 2 ^ 32.
Proof. intros Ha. unfold low32. rewrite Z.land_ones by lia. apply Z.mod_pos_bound. lia. Qed.

Lemma mapped_as_v4 a : mapped a = true ->
  To4 (IP16 a) = To4 (IP4 (low32 a)) /\ addrOf (IP16 a) = addrOf (IP4 (low32 a)).
Proof. intros Hm. rewrite addrOf_16, Hm. split; [|done]. unfold To4. fold (mapped a). by rewrite Hm. Qed.

Lemma blockedKind_mapped a : 0 <= a < 2 ^ 128 -> mapped a = true ->
  blockedKind (IP16 a) = blockedKind (IP4 (low32 a)).
Proof.
  intros Ha Hm. destruct (mapped_as_v4 a Hm) as [H4 Hadd].
  rewrite (blockedKind_bools (IP16 a) (A4 (low32 a))) by (by rewrite Hadd).
  rewrite (blockedKind_bools (IP4 (low32 a)) (A4 (low32 a)) eq_refl).
  unfold IsUnspecified, IsLoopback, IsLinkLocalUnicast, IsLinkLocalMulticast, IsMulticast.
  by rewrite H4.
Qed.

Definition kindOf (ip : IP) : blockKind :=
  match ip with IP4 a => kind4 a | IP16 a => kind6 a | IPother [] => blockLocal | IPother _ => blockNone end.

Lemma blockedKind_kindOf ip : wf_IP ip -> blockedKind ip = kindOf ip.
Proof.
  destruct ip as [a|a|bs]; simpl; intros Hw.
  - by apply blockedKind_v4.
  - destruct (mapped a) eqn:Hm; [|by apply blockedKind_v6].
    rewrite blockedKind_mapped, blockedKind_v4 by (try done; by apply mapped_low32).
    unfold kind6. by rewrite Hm.
  - by destruct bs.
Qed.

(** The wide (128-bit) spellings of an IPv4 address a request may carry. *)
Definition mappedOf (a : Z) : IP := IP16 (Z.shiftl mappedPrefix 32 + a).
Definition nat64Of (a : Z) : IP := IP16 (0x0064ff9b000000000000000000000000 + a).
Definition compatOf (a : Z) : IP := IP16 a.

Lemma low32_add hi a : 0 <= a < 2 ^ 32 -> low32 (hi * 2 ^ 32 + a) = a.
Proof.
  intros Ha. unfold low32. rewrite Z.land_ones by lia. rewrite Z.add_comm, Z.mod_add by lia.
  by apply Z.mod_small.
Qed.

Lemma shiftr_add hi a : 0 <= a < 2 ^ 32 -> Z.shiftr (hi * 2 ^ 32 + a) 32 = hi.
Proof.
  intros Ha. rewrite Z.shiftr_div_pow2 by lia. rewrite Z.div_add_l by lia.
  rewrite Z.div_small by lia. lia.
Qed.

(** ** Properties *)

(** C38: On every well-formed address the guard's classification is exactly the
    interval table [kindOf]: local, liftable private, other reserved, NAT64,
    IPv4-compatible embedding of a blocked address, or not blocked. *)
Theorem isBlockedIP_classification ip : wf_IP ip -> fst (isBlockedIP ip) = kindOf ip.
Proof. apply blockedKind_kindOf. Qed.

Lemma isBlockedIP_classification_witness :
  fst (isBlockedIP (IP16 0xffffa9fea9fe)) = kindOf (IP16 0xffffa9fea9fe).
Proof. apply isBlockedIP_classification. vm_compute. intuition discriminate. Defined.

(** An address of the one liftable kind lies inside [Liftable], outside every
    metadata endpoint of [NeverLift], and is neither loopback, link-local,
    multicast nor unspecified, so no operator declaration can lift one of those. *)
Theorem liftable_kind_is_safe ip :
  fst (isBlockedIP ip) = blockPrivate ->
  InLiftable ip = true /\
  (forall addr, addrOf ip = Some addr -> inAny NeverLift addr = false) /\
  IsLoopback ip = false /\ IsLinkLocalUnicast ip = false /\ IsLinkLocalMulticast ip = false /\
  IsMulticast ip = false /\ IsUnspecified ip = false.
Proof.
  intros H. destruct (addrOf ip) as [addr|] eqn:E.
  - change (fst (isBlockedIP ip)) with (blockedKind ip) in H.
    rewrite (blockedKind_bools ip addr E) in H.
    destruct (_ || _ || _ || _ || _) eqn:El; [done|]. bool_prop.
    destruct (IsPrivate addr || _ || _); [|repeat (break_match; try done)].
    destruct (negb (inAny NeverLift addr) && inAny Liftable addr) eqn:Eb; [|done]. bool_prop.
    repeat split; try done.
    + unfold InLiftable. rewrite E. assert (inAny NeverLift addr = false) as -> by done. done.
    + by intros ? [= <-].
  - exfalso. destruct ip as [| |[]]; [by unfold addrOf in E|by rewrite addrOf_16 in E|done|done].
Qed.

Lemma liftable_kind_is_safe_witness : InLiftable (IP4 0x0a000001) = true.
Proof. apply (liftable_kind_is_safe (IP4 0x0a000001)). vm_compute. reflexivity. Defined.

(** An IPv4 address the guard blocks is blocked in each of its wide
    spellings: IPv4-mapped (with the same kind), NAT64-embedded and
    IPv4-compatible; the last two are never the liftable kind. *)
Theorem embedded_v4_cannot_smuggle a :
  0 <= a < 2 ^ 32 ->
  fst (isBlockedIP (IP4 a)) <> blockNone ->
  fst (isBlockedIP (mappedOf a)) = fst (isBlockedIP (IP4 a)) /\
  fst (isBlockedIP (nat64Of a)) = blockNAT64 /\
  (fst (isBlockedIP (compatOf a)) = blockV4Compat \/ fst (isBlockedIP (compatOf a)) = blockLocal).
Proof.
  intros Ha. change (fst (isBlockedIP ?x)) with (blockedKind x). intros Hb.
  rewrite blockedKind_v4 in Hb by done.
  assert (Em : mappedOf a = IP16 (mappedPrefix * 2 ^ 32 + a)) by (unfold mappedOf; by rewrite Z.shiftl_mul_pow2).
  assert (Ec : mapped a = false).
  { unfold mapped. rewrite Z.shiftr_div_pow2, Z.div_small by lia. done. }
  assert (En : mapped (0x0064ff9b000000000000000000000000 + a) = false).
  { unfold mapped. change 0x0064ff9b000000000000000000000000 with (0x0064ff9b0000000000000000 * 2 ^ 32).
    by rewrite shiftr_add by done. }
  repeat split.
  - assert (mapped (mappedPrefix * 2 ^ 32 + a) = true) by (unfold mapped; by rewrite shiftr_add by done).
    rewrite Em, blockedKind_mapped, low32_add by (done || (unfold mappedPrefix; lia)). done.
  - unfold nat64Of. rewrite blockedKind_v6 by (done || lia). unfold kind6. rewrite En.
    assert (in_ranges nat64 (0x0064ff9b000000000000000000000000 + a) = true) as -> by (unfold nat64; ranges_lia).
    assert (in_ranges local6 (0x0064ff9b000000000000000000000000 + a) = false) as -> by (unfold local6; ranges_lia).
    assert (in_ranges liftable6 (0x0064ff9b000000000000000000000000 + a) = false) as -> by (unfold liftable6; ranges_lia).
    assert (in_ranges reserved6 (0x0064ff9b000000000000000000000000 + a) = false) as -> by (unfold reserved6; ranges_lia).
    done.
  - unfold compatOf. rewrite blockedKind_v6 by (done || lia). unfold kind6. rewrite Ec.
    destruct (in_ranges local6 a); [by right|left].
    assert (in_ranges liftable6 a = false) as -> by (unfold liftable6; ranges_lia).
    assert (in_ranges reserved6 a = false) as -> by (unfold reserved6; ranges_lia).
    assert (in_ranges nat64 a = false) as -> by (unfold nat64; ranges_lia).
    rewrite (proj2 (Z.ltb_lt a (2 ^ 32))) by lia. by case_bool_decide.
Qed.

Lemma embedded_v4_cannot_smuggle_witness : fst (isBlockedIP (nat64Of 0xa9fea9fe)) = blockNAT64.
Proof. apply embedded_v4_cannot_smuggle; [lia|]. vm_compute. discriminate. Defined.

