(* ===== verification/DomainMatch.v ===== *)
(** * Domain entries: one reading of allowed_domains and denied_domains

    [internal/egress/domainmatch/domainmatch.go]. [Classify] reads a configured
    entry, [CanonHost] the host of a request, [MatchWild] and [MatchWildPort] the
    wildcard match. The egress proxy compiles policies with these functions and
    the composer compares policies with them.

    [entryMatches] is the meaning of an entry on its own: the requests it covers.
    Everything later (the compiled maps of the proxy, the dominance relation of
    the composer) is proved against it. *)
From S2P Require Import Prelude GoStrings NetIP.
Local Open Scope string_scope.
Local Open Scope Z_scope.

Record WildPort := mkWildPort { Suffix : string; Port : Z }.

#[export] Instance WildPort_eq_dec : EqDecision WildPort.
Proof. solve_decision. Defined.

Section DomainMatch.
Context {U : GoUnicode}.

Definition CanonHost (h : string) : string :=
  let h := TrimSuffixDot (ToLower h) in
  match ParseIP h with
  | Some ip => IPString ip
  | None => h
  end.

(** The port qualifier of an entry: only a number in 1..65535 is one; any other
    suffix stays attached to the host. *)
Definition splitEntryPort (d : string) : string * Z :=
  match SplitHostPort d with
  | Some (h, ps) =>
      match Atoi ps with
      | Some n => if (1 <=? n) && (n <=? 65535) then (TrimRightDots h, n) else (d, 0)
      | None => (d, 0)
      end
  | None => (d, 0)
  end.

Definition Classify (d : string) : string * string * Z :=
  let d := ToLower (TrimSpace d) in
  let d := TrimRightDots d in
  if String.eqb d "" then ("", "", 0)
  else
    let '(d, port) := splitEntryPort d in
    match d with
    | String "*" (String "." r) => ("", String "." r, port)
    | _ => (CanonHost d, "", port)
    end.

Definition MatchWild (host : string) (wilds : list string) : bool :=
  containsFunc (fun w => HasSuffix host w) wilds.

Definition MatchWildPort (host : string) (port : Z) (wilds : list WildPort) : bool :=
  containsFunc (fun w => (Port w =? port) && HasSuffix host (Suffix w)) wilds.

(** ** The meaning of one entry *)

(** Whether a request to [host] (already canonical) and [port] falls under the
    entry [d]. A bare entry covers every port. *)
Definition entryMatches (d host : string) (port : Z) : bool :=
  let '(exact, wild, p) := Classify d in
  (if negb (String.eqb wild "") then HasSuffix host wild
   else if negb (String.eqb exact "") then String.eqb host exact
   else false)
  && ((p =? 0) || (p =? port)).

Definition anyEntryMatches (ds : list string) (host : string) (port : Z) : bool :=
  containsFunc (fun d => entryMatches d host port) ds.

Lemma splitEntryPort_range d h n : splitEntryPort d = (h, n) -> 0 <= n <= 65535.
Proof.
  unfold splitEntryPort. intros H. repeat (break_match; simplify_eq); bool_prop; lia.
Qed.

Lemma Classify_port_range d e w p : Classify d = (e, w, p) -> 0 <= p <= 65535.
Proof.
  unfold Classify. destruct (String.eqb _ ""); [intros [= <- <- <-]; lia|].
  destruct (splitEntryPort _) as [h n] eqn:E. apply splitEntryPort_range in E.
  intros H. repeat (break_match; simplify_eq); lia.
Qed.

(** An entry reads as a wildcard or as an exact host, never as both. *)
Lemma Classify_disjoint d e w p : Classify d = (e, w, p) -> e = "" \/ w = "".
Proof.
  unfold Classify. destruct (String.eqb _ ""); [intros [= <- <- <-]; auto|].
  destruct (splitEntryPort _) as [h n]. intros H. repeat (break_match; simplify_eq); auto.
Qed.

(** A wildcard's suffix starts at a label boundary. *)
Lemma Classify_wild_dot d e w p : Classify d = (e, w, p) -> w <> "" -> exists r, w = String "." r.
Proof.
  unfold Classify. destruct (String.eqb _ ""); [by intros [= <- <- <-]|].
  destruct (splitEntryPort _) as [h n]. intros H Hw. repeat (break_match; simplify_eq); eauto.
Qed.

Lemma CanonHost_ip h1 h2 ip :
  ParseIP (TrimSuffixDot (ToLower h1)) = Some ip ->
  ParseIP (TrimSuffixDot (ToLower h2)) = Some ip ->
  CanonHost h1 = CanonHost h2.
Proof. intros H1 H2. unfold CanonHost. by rewrite H1, H2. Qed.

End DomainMatch.
