(* ===== verification/PolicyTypes.v ===== *)
(** * The policy vocabulary

    The data of [internal/types]: [RunPolicySpec] (what a run may do),
    [GovernanceLimits] (what a request may ask), the typed overlays that narrow
    them, credential grants, and the small enumerations with their orders.

    A Go string type keeps its unknown values, so the enumerations are strings
    here too, and each normaliser says what an unknown value means. A Go slice is
    a list (nil and empty are one value, as every reader below treats them) and a
    pointer is an option. A credential grant's raw JSON scope is represented by
    what [json.Unmarshal] reads from it: nothing, an error, or the fields. *)
From S2P Require Import Prelude GoStrings.
Local Open Scope string_scope.
Local Open Scope Z_scope.

(** ** First-use approval *)

Abbreviation FirstUseMode := string (only parsing).
Definition FirstUseAlwaysDeny : string := "always_deny".
Definition FirstUseDenyWithReview : string := "deny_with_review".
Definition FirstUseWaitForReview : string := "wait_for_review".

Definition normalizeFirstUse (m : FirstUseMode) : FirstUseMode :=
  if String.eqb m FirstUseAlwaysDeny || String.eqb m FirstUseDenyWithReview || String.eqb m FirstUseWaitForReview
  then m else FirstUseAlwaysDeny.

Definition raisesApproval (m : FirstUseMode) : bool :=
  let n := normalizeFirstUse m in
  String.eqb n FirstUseDenyWithReview || String.eqb n FirstUseWaitForReview.

(** ** Tools *)

Definition ToolAllow : string := "allow".
Definition ToolHold : string := "hold".
Definition ToolDeny : string := "deny".

Definition ValidToolEffect (e : string) : bool :=
  String.eqb e ToolAllow || String.eqb e ToolHold || String.eqb e ToolDeny.

Record ToolRule := mkToolRule { Tool : string; Effect : string }.

#[export] Instance ToolRule_eq_dec : EqDecision ToolRule.
Proof. solve_decision. Defined.

(** ** Confinement, recording, transfer and autonomy levels *)

Section Ranks.
Context {U : GoUnicode}.

Definition classRank (c : string) : Z :=
  if String.eqb c "CC1" then 1 else if String.eqb c "CC2" then 2 else if String.eqb c "CC3" then 3 else 0.

Definition confinementRank (c : string) : Z := classRank (ToUpper (TrimSpace c)).
End Ranks.

Definition recordingRank (l : string) : Z :=
  if String.eqb l "off" then 1 else if String.eqb l "terminal" then 2
  else if String.eqb l "screen_actions" then 3 else 0.

Definition recordingValid (l : string) : bool :=
  String.eqb l "" || String.eqb l "off" || String.eqb l "terminal" || String.eqb l "screen_actions".

Definition recordingAtLeast (l floor : string) : string :=
  if recordingRank floor >? recordingRank l then floor else l.

Definition TransferAllowed : string := "allowed".
Definition TransferBlocked : string := "blocked".
Definition ValidTransferRule (r : string) : bool :=
  String.eqb r "" || String.eqb r TransferAllowed || String.eqb r TransferBlocked.

(** [cmp.Or]: the first value that is not the zero value. *)
Definition cmpOrS (a b : string) : string := if String.eqb a "" then b else a.
Definition cmpOrZ (a b : Z) : Z := if a =? 0 then b else a.

Record DesktopControls := mkDesktop { PasteIn : string; CopyOut : string; Upload : string; Download : string }.

#[export] Instance DesktopControls_eq_dec : EqDecision DesktopControls.
Proof. solve_decision. Defined.

Definition desktopEffective (d : option DesktopControls) : DesktopControls :=
  let e := default (mkDesktop "" "" "" "") d in
  mkDesktop (cmpOrS (PasteIn e) TransferAllowed) (cmpOrS (CopyOut e) TransferBlocked)
            (cmpOrS (Upload e) TransferAllowed) (cmpOrS (Download e) TransferBlocked).

Definition transferBlock (x y : string) : string :=
  if String.eqb x TransferBlocked || String.eqb y TransferBlocked then TransferBlocked else TransferAllowed.

Definition desktopMeet (d o : option DesktopControls) : DesktopControls :=
  let a := desktopEffective d in
  let b := desktopEffective o in
  mkDesktop (transferBlock (PasteIn a) (PasteIn b)) (transferBlock (CopyOut a) (CopyOut b))
            (transferBlock (Upload a) (Upload b)) (transferBlock (Download a) (Download b)).

Definition autonomyRank (l : string) : Z :=
  if String.eqb l "L0" then 0 else if String.eqb l "L1" then 1
  else if String.eqb l "L2" then 2 else if String.eqb l "L3" then 3 else -1.

Definition autonomyValid (l : string) : bool :=
  String.eqb l "L0" || String.eqb l "L1" || String.eqb l "L2" || String.eqb l "L3".

Record AutonomyRubric := mkRubric {
  EgressOpen : string; EgressReviewed : string; EgressSealed : string;
  SecretsPowerful : string; SecretsBaseline : string; SecretsNone : string;
  ConfinementCC1 : string; ConfinementCC2 : string; ConfinementCC3 : string;
  AgentGuardrailLocks : bool;
}.

#[export] Instance AutonomyRubric_eq_dec : EqDecision AutonomyRubric.
Proof. solve_decision. Defined.

Definition zeroRubric : AutonomyRubric := mkRubric "" "" "" "" "" "" "" "" "" false.

(** The nine levels of a rubric, in the order every reader walks them. *)
Definition rubricLevels (r : AutonomyRubric) : list string :=
  [EgressOpen r; EgressReviewed r; EgressSealed r; SecretsPowerful r; SecretsBaseline r; SecretsNone r;
   ConfinementCC1 r; ConfinementCC2 r; ConfinementCC3 r].

Definition rubricValidate (r : AutonomyRubric) : bool :=
  forallb (fun l => String.eqb l "" || autonomyValid l) (rubricLevels r).

(** ** Placements *)

Definition PlacementRemote : string := "remote".
Definition PlacementLocal : string := "local".
Definition placementValid (p : string) : bool := String.eqb p PlacementRemote || String.eqb p PlacementLocal.
Definition memS (s : string) (l : list string) : bool := containsFunc (String.eqb s) l.
Definition DeniesEveryPlacement (denied : list string) : bool :=
  memS PlacementRemote denied && memS PlacementLocal denied.

(** ** Grants *)

Record Scope := mkScope {
  sc_Host : string; sc_Name : string; sc_File : string; sc_SecretName : string;
  sc_KeySecretRef : string; sc_KnownHostsSecretRef : string;
  sc_Header : string; sc_Format : string; sc_RequireTLS : bool;
  sc_Username : string; sc_Repos : option (list string);
  sc_Access : string; sc_API : bool; sc_Forge : string;
  sc_Permissions : gmap string string;
}.

Inductive RawScope := ScopeEmpty | ScopeBad | ScopeObj (s : Scope).

#[export] Instance Scope_eq_dec : EqDecision Scope.
Proof. solve_decision. Defined.
#[export] Instance RawScope_eq_dec : EqDecision RawScope.
Proof. solve_decision. Defined.

Record GrantSpec := mkGrant {
  Kind : string; GScope : RawScope; TTLSeconds : Z; RequiresApproval : bool;
  OwnerOnly : bool; OwnerOnlyRefs : list string;
}.

#[export] Instance GrantSpec_eq_dec : EqDecision GrantSpec.
Proof. solve_decision. Defined.

(** ** Workspace, inspection, UI and size *)

Record WorkspaceMount := mkMount { Source : string; Target : string; ReadOnly : option bool }.
Definition ReadOnlyOrDefault (m : WorkspaceMount) : bool := default true (ReadOnly m).

Record WorkspaceRepo := mkRepo { Repo : string; RepoTarget : string; Ref : string }.

Record LLMInspectionSpec := mkLLM {
  Mode : string; WorkspaceSecretNames : list string; WorkspaceSecretValues : list string;
  DetectSecrets : bool; DetectSecretPatterns : bool; DetectEntropy : bool; DetectPII : bool;
  DetectorSidecarURL : string; ClassifiedMarkers : list string; ScanAttachments : bool;
  InspectForwardEgress : bool; MaxScanBytes : Z; OnScannerError : string;
  RequireInspectableLLM : bool; InterceptTLS : bool; BlockMinSeverity : string;
}.

Record UIApp := mkUIApp { AppName : string; AppPort : Z; AppPath : string; Inbound : bool; Callers : list string }.
Definition PathOrRoot (a : UIApp) : string := if String.eqb (AppPath a) "" then "/" else AppPath a.

Record ResourceLimits := mkRes { CPUMillis : Z; MemoryMiB : Z; PidsLimit : Z; DiskMiB : Z }.
Definition zeroRes : ResourceLimits := mkRes 0 0 0 0.

Record PushRulesSpec := mkPush {
  DenyPaths : list string; MaxInspectPackMiB : Z; RequireReviewPaths : list string; HoldSeconds : Z;
  DenyNewExecutables : bool; MaxFileSizeMiB : Z; DenyAll : bool;
}.
Definition zeroPush : PushRulesSpec := mkPush [] 0 [] 0 false 0 false.

Definition nonempty {A} (l : list A) : bool := match l with [] => false | _ => true end.

Definition pushIsSet (s : option PushRulesSpec) : bool :=
  match s with
  | None => false
  | Some p => nonempty (DenyPaths p) || nonempty (RequireReviewPaths p) || (MaxInspectPackMiB p >? 0)
              || (MaxFileSizeMiB p >? 0) || DenyNewExecutables p || DenyAll p
  end.

Record HarnessInnerWalls := mkWalls { SandboxMode : string; Approvals : string }.

#[export] Instance WorkspaceMount_eq_dec : EqDecision WorkspaceMount.
Proof. solve_decision. Defined.
#[export] Instance WorkspaceRepo_eq_dec : EqDecision WorkspaceRepo.
Proof. solve_decision. Defined.
#[export] Instance LLMInspectionSpec_eq_dec : EqDecision LLMInspectionSpec.
Proof. solve_decision. Defined.
#[export] Instance UIApp_eq_dec : EqDecision UIApp.
Proof. solve_decision. Defined.
#[export] Instance ResourceLimits_eq_dec : EqDecision ResourceLimits.
Proof. solve_decision. Defined.
#[export] Instance PushRulesSpec_eq_dec : EqDecision PushRulesSpec.
Proof. solve_decision. Defined.
#[export] Instance HarnessInnerWalls_eq_dec : EqDecision HarnessInnerWalls.
Proof. solve_decision. Defined.

(** ** The policy *)

Record RunPolicySpec := mkSpec {
  AllowedDomains : list string; DeniedDomains : list string; AllowAllEgress : bool;
  FirstUseApproval : string; FirstUseHoldSeconds : Z; MaxHolds : Z; AllowedMethods : list string;
  MinConfinementClass : string; EligibleGrants : list GrantSpec; AutoStopAfterSec : Z;
  WorkspaceMounts : list WorkspaceMount; WorkspaceRepos : list WorkspaceRepo;
  LLMInspection : option LLMInspectionSpec; UIApps : list UIApp; Resources : option ResourceLimits;
  ToolRules : list ToolRule; GitPushAnyBranch : bool; PushRules : option PushRulesSpec;
  AzureDevOpsCapabilities : list string; GitHubCapabilities : list string;
  InnerWalls : option HarnessInnerWalls; Desktop : option DesktopControls; Recording : string;
}.

#[export] Instance RunPolicySpec_eq_dec : EqDecision RunPolicySpec.
Proof. solve_decision. Defined.

Definition zeroSpec : RunPolicySpec :=
  mkSpec [] [] false "" 0 0 [] "" [] 0 [] [] None [] None [] false None [] [] None None "".

Record RunLimits := mkRunLimits {
  MaxEndAheadSec : Z; DefaultEndSec : Z; AllowNoEnd : bool; MaxWaitSec : Z; DefaultWaitSec : Z;
  UserChangesLimits : bool; PauseIdleAfterSec : Z;
}.

#[export] Instance RunLimits_eq_dec : EqDecision RunLimits.
Proof. solve_decision. Defined.

Record GovernanceLimits := mkLimits {
  LocalSelfDefinedComponents : bool; DenyTaskModeExec : bool; DenyInteractive : bool; DenyUIApps : bool;
  DenyBackgroundDesktopWatch : bool; MaxConcurrentRuns : Z; DenyUserDrive : bool; DenyMemberDrives : bool;
  DenyKeptMachines : bool; DenyPlacements : list string; AllowedMacOSBases : list string;
  AllowedModels : list string; MaxCPUMillis : Z; MaxMemoryMiB : Z; MaxEphemeralDiskMiB : Z;
  MaxDriveSizeMiB : Z; Rubric : option AutonomyRubric; LRunLimits : RunLimits;
}.

#[export] Instance GovernanceLimits_eq_dec : EqDecision GovernanceLimits.
Proof. solve_decision. Defined.

Definition zeroRunLimits : RunLimits := mkRunLimits 0 0 false 0 0 false 0.
Definition zeroLimits : GovernanceLimits :=
  mkLimits false false false false false 0 false false false [] [] [] 0 0 0 0 None zeroRunLimits.

(** ** Overlays *)

Record ResourcesOverlay := mkResOv {
  ro_CPUMillis : option Z; ro_MemoryMiB : option Z; ro_PidsLimit : option Z; ro_DiskMiB : option Z }.

Record PushRulesOverlay := mkPushOv {
  po_DenyPaths : option (list string); po_MaxInspectPackMiB : option Z;
  po_RequireReviewPaths : option (list string); po_HoldSeconds : option Z;
  po_DenyNewExecutables : option bool; po_MaxFileSizeMiB : option Z; po_DenyAll : option bool }.

Record CeilingOverlay := mkCeilingOverlay {
  o_AllowedDomains : option (list string); o_DeniedDomains : option (list string);
  o_AllowAllEgress : option bool; o_FirstUseApproval : option string;
  o_FirstUseHoldSeconds : option Z; o_MaxHolds : option Z; o_AllowedMethods : option (list string);
  o_MinConfinementClass : option string; o_EligibleGrants : option (list GrantSpec);
  o_AutoStopAfterSec : option Z; o_WorkspaceMounts : option (list WorkspaceMount);
  o_WorkspaceRepos : option (list WorkspaceRepo); o_LLMInspection : option LLMInspectionSpec;
  o_UIApps : option (list UIApp); o_Resources : option ResourcesOverlay;
  o_ToolRules : option (list ToolRule); o_GitPushAnyBranch : option bool;
  o_PushRules : option PushRulesOverlay; o_AzureDevOpsCapabilities : option (list string);
  o_GitHubCapabilities : option (list string); o_InnerWalls : option HarnessInnerWalls;
  o_Desktop : option DesktopControls; o_Recording : option string }.

Record LimitsOverlay := mkLimitsOverlay {
  l_LocalSelfDefinedComponents : option bool; l_DenyTaskModeExec : option bool;
  l_DenyInteractive : option bool; l_DenyUIApps : option bool;
  l_DenyBackgroundDesktopWatch : option bool; l_MaxConcurrentRuns : option Z;
  l_DenyUserDrive : option bool; l_DenyMemberDrives : option bool; l_DenyKeptMachines : option bool;
  l_DenyPlacements : option (list string); l_AllowedMacOSBases : option (list string);
  l_AllowedModels : option (list string); l_MaxCPUMillis : option Z; l_MaxMemoryMiB : option Z;
  l_MaxEphemeralDiskMiB : option Z; l_MaxDriveSizeMiB : option Z; l_Rubric : option AutonomyRubric;
  l_MaxEndAheadSec : option Z; l_DefaultEndSec : option Z; l_AllowNoEnd : option bool;
  l_MaxWaitSec : option Z; l_DefaultWaitSec : option Z; l_UserChangesLimits : option bool;
  l_PauseIdleAfterSec : option Z }.

Definition emptyCeilingOverlay : CeilingOverlay :=
  mkCeilingOverlay None None None None None None None None None None None None None None None None None None
    None None None None None.
Definition emptyLimitsOverlay : LimitsOverlay :=
  mkLimitsOverlay None None None None None None None None None None None None None None None None None None
    None None None None None None.

(** The deployment's default sandbox size ([sizing.EffectiveLimits]), given what
    [sizing.SetDefaultLimits] recorded at boot. *)
Definition EffectiveLimits (cfgCPU cfgMem : Z) : ResourceLimits :=
  mkRes (if cfgCPU >? 0 then cfgCPU else 2000) (if cfgMem >? 0 then cfgMem else 4096) 512 0.

Lemma memS_true s l : memS s l = true <-> s ∈ l.
Proof.
  unfold memS. rewrite containsFunc_true. split.
  - intros (x & Hx & E). by apply String.eqb_eq in E as ->.
  - intros H. exists s. split; [done|]. by apply String.eqb_refl.
Qed.

Lemma memS_false s l : memS s l = false <-> s ∉ l.
Proof. rewrite <- memS_true. by destruct (memS s l). Qed.
