(* ===== verification/GoPath.v ===== *)
(** * Go's UTF-8 decoding and path.Match

    The parts of [unicode/utf8], [path] and [strconv] the push rules use:
    [DecodeRune] and [ValidString], the pattern matcher [pathMatch] (chunks
    between stars, character classes, escapes, the syntax check of the rest of a
    pattern that has already failed), and [ParseUint8], base 8 into 32 bits. *)
From S2P Require Import Prelude GoStrings.
Local Open Scope string_scope.
Local Open Scope Z_scope.

(** ** UTF-8 *)

Definition RuneError : Z := 65533.

Definition cont (lo hi : Z) (c : ascii) : bool := (lo <=? byte_of c) && (byte_of c <=? hi).

(** A continuation byte's payload. *)
Definition low6 (c : ascii) : Z := Z.land (byte_of c) 63.

(** The bounds of the second byte of a multi-byte sequence, and the length of
    the sequence, by its first byte. *)
Definition runeShape (b0 : Z) : option (nat * Z * Z) :=
  if (194 <=? b0) && (b0 <=? 223) then Some (2%nat, 128, 191)
  else if b0 =? 224 then Some (3%nat, 160, 191)
  else if b0 =? 237 then Some (3%nat, 128, 159)
  else if (225 <=? b0) && (b0 <=? 239) then Some (3%nat, 128, 191)
  else if b0 =? 240 then Some (4%nat, 144, 191)
  else if b0 =? 244 then Some (4%nat, 128, 143)
  else if (241 <=? b0) && (b0 <=? 243) then Some (4%nat, 128, 191)
  else None.

(** The first rune of [s], whether it is a valid encoding, and the rest. *)
Definition DecodeRune (s : string) : Z * bool * string :=
  match s with
  | EmptyString => (RuneError, false, EmptyString)
  | String c0 r0 =>
      let b0 := byte_of c0 in
      if b0 <? 128 then (b0, true, r0)
      else
        match runeShape b0, r0 with
        | Some (2%nat, lo, hi), String c1 r1 =>
            if cont lo hi c1 then (Z.land b0 31 * 64 + low6 c1, true, r1) else (RuneError, false, r0)
        | Some (3%nat, lo, hi), String c1 (String c2 r2) =>
            if cont lo hi c1 && cont 128 191 c2
            then (Z.land b0 15 * 4096 + low6 c1 * 64 + low6 c2, true, r2) else (RuneError, false, r0)
        | Some (4%nat, lo, hi), String c1 (String c2 (String c3 r3)) =>
            if cont lo hi c1 && cont 128 191 c2 && cont 128 191 c3
            then (Z.land b0 7 * 262144 + low6 c1 * 4096 + low6 c2 * 64 + low6 c3, true, r3)
            else (RuneError, false, r0)
        | _, _ => (RuneError, false, r0)
        end
  end.

Fixpoint validFrom (fuel : nat) (s : string) : bool :=
  match fuel, s with
  | _, EmptyString => true
  | O, _ => false
  | S fuel', _ => let '(_, ok, r) := DecodeRune s in ok && validFrom fuel' r
  end.
Definition ValidString (s : string) : bool := validFrom (String.length s) s.

(** ** path.Match *)

(** The result of matching one chunk: a malformed pattern, no match, or what is
    left of the name. *)
Inductive chunkResult := BadPattern | NoMatch | Rest (s : string).

Fixpoint dropStars (p : string) : bool * string :=
  match p with
  | String "*" p' => (true, snd (dropStars p'))
  | _ => (false, p)
  end.

Fixpoint scanTo (inrange : bool) (p : string) : string * string :=
  match p with
  | EmptyString => (EmptyString, EmptyString)
  | String c p' =>
      if Ascii.eqb c "\" then
        match p' with
        | String e p'' => let '(a, b) := scanTo inrange p'' in (String c (String e a), b)
        | EmptyString => (String c EmptyString, EmptyString)
        end
      else if Ascii.eqb c "*" && negb inrange then (EmptyString, p)
      else
        let inr := if Ascii.eqb c "[" then true else if Ascii.eqb c "]" then false else inrange in
        let '(a, b) := scanTo inr p' in (String c a, b)
  end.

(** The star before a chunk, the chunk, and the rest of the pattern. *)
Definition scanChunk (p : string) : bool * string * string :=
  let '(star, p') := dropStars p in
  let '(chunk, rest) := scanTo false p' in (star, chunk, rest).

Definition getEsc (chunk : string) : option (Z * string) :=
  let decode (c : string) :=
    let '(r, ok, rest) := DecodeRune c in
    if ok && negb (String.eqb rest "") then Some (r, rest) else None in
  match chunk with
  | EmptyString => None
  | String c chunk' =>
      if Ascii.eqb c "-" || Ascii.eqb c "]" then None
      else if Ascii.eqb c "\" then match chunk' with EmptyString => None | _ => decode chunk' end
      else decode chunk
  end.

(** The ranges of a character class up to its bracket: whether [r] is in one,
    and the chunk after the bracket. *)
Fixpoint classRanges (fuel : nat) (r : Z) (chunk : string) (found : bool) (nrange : nat) : option (bool * string) :=
  match fuel with
  | O => None
  | S fuel' =>
      match chunk, nrange with
      | String "]" c', S _ => Some (found, c')
      | _, _ =>
          match getEsc chunk with
          | None => None
          | Some (lo, c1) =>
              match c1 with
              | String "-" c2 =>
                  match getEsc c2 with
                  | None => None
                  | Some (hi, c3) => classRanges fuel' r c3 (found || ((lo <=? r) && (r <=? hi))) (S nrange)
                  end
              | _ => classRanges fuel' r c1 (found || (lo =? r)) (S nrange)
              end
          end
      end
  end.

Definition tailOf (s : string) : string := match s with String _ r => r | EmptyString => EmptyString end.
Definition restOf (s : string) : string := let '(_, _, r) := DecodeRune s in r.

Fixpoint matchChunkLoop (fuel : nat) (chunk s : string) (failed : bool) : chunkResult :=
  match fuel, chunk with
  | _, EmptyString => if failed then NoMatch else Rest s
  | O, _ => BadPattern
  | S fuel', String c chunk' =>
      let failed := failed || String.eqb s "" in
      let literal (ch : string) :=
        match ch with
        | EmptyString => BadPattern
        | String l ch' =>
            match s with
            | String x s' => if failed then matchChunkLoop fuel' ch' s true
                             else matchChunkLoop fuel' ch' s' (negb (Ascii.eqb l x))
            | EmptyString => matchChunkLoop fuel' ch' s true
            end
        end in
      if Ascii.eqb c "[" then
        let '(r, s') := if failed then (0, s) else (let '(r, _, rest) := DecodeRune s in (r, rest)) in
        let '(negated, ch) := match chunk' with String "^" ch => (true, ch) | _ => (false, chunk') end in
        match classRanges (S (String.length ch)) r ch false 0 with
        | None => BadPattern
        | Some (found, ch') => matchChunkLoop fuel' ch' s' (failed || Bool.eqb found negated)
        end
      else if Ascii.eqb c "?" then
        if failed then matchChunkLoop fuel' chunk' s true
        else matchChunkLoop fuel' chunk' (restOf s) (HasPrefix s "/")
      else if Ascii.eqb c "\" then literal chunk'
      else literal chunk
  end.

Definition matchChunk (chunk s : string) : chunkResult := matchChunkLoop (S (String.length chunk)) chunk s false.

(** Try the chunk after skipping 1, 2, ... bytes of the name, never past a
    slash. *)
Fixpoint skipBytes (chunk name : string) (last : bool) : chunkResult :=
  match name with
  | EmptyString => NoMatch
  | String c name' =>
      if Ascii.eqb c "/" then NoMatch
      else match matchChunk chunk name' with
           | Rest t => if last && negb (String.eqb t "") then skipBytes chunk name' last else Rest t
           | BadPattern => BadPattern
           | NoMatch => skipBytes chunk name' last
           end
  end.

(** The syntax check of what is left of a pattern that has already failed. *)
Fixpoint checkRest (fuel : nat) (pattern : string) : option bool :=
  match fuel, pattern with
  | _, EmptyString => Some false
  | O, _ => None
  | S fuel', _ =>
      let '(_, chunk, rest) := scanChunk pattern in
      match matchChunk chunk "" with
      | BadPattern => None
      | _ => checkRest fuel' rest
      end
  end.

Fixpoint matchLoop (fuel : nat) (pattern name : string) : option bool :=
  match fuel, pattern with
  | _, EmptyString => Some (String.eqb name "")
  | O, _ => None
  | S fuel', _ =>
      let '(star, chunk, rest) := scanChunk pattern in
      if star && String.eqb chunk "" then Some (negb (str_has "/" name))
      else
        let last := String.eqb rest "" in
        let skip := if star then
                      match skipBytes chunk name last with
                      | Rest t => matchLoop fuel' rest t
                      | BadPattern => None
                      | NoMatch => checkRest (String.length rest) rest
                      end
                    else checkRest (String.length rest) rest in
        match matchChunk chunk name with
        | Rest t => if String.eqb t "" || negb last then matchLoop fuel' rest t else skip
        | BadPattern => None
        | NoMatch => skip
        end
  end.

(** [path.Match]: [None] is ErrBadPattern. *)
Definition pathMatch (pattern name : string) : option bool := matchLoop (String.length pattern) pattern name.

Example pathMatch_samples :
  pathMatch "*.go" "main.go" = Some true /\ pathMatch "*.go" "main.rs" = Some false /\
  pathMatch "a[b-d]?" "acz" = Some true /\ pathMatch "a[^b-d]?" "acz" = Some false /\
  pathMatch "a[b" "a[b" = None /\ pathMatch "a*b*c" "axxbyyc" = Some true /\
  pathMatch "\*" "*" = Some true /\ pathMatch "*" "a/b" = Some false.
Proof. by vm_compute. Qed.

(** ** strconv.ParseUint with base 8 and 32 bits *)

Fixpoint octal (acc : Z) (s : string) : option Z :=
  match s with
  | EmptyString => if acc <? 2 ^ 32 then Some acc else None
  | String c r =>
      if (48 <=? byte_of c) && (byte_of c <=? 55) then octal (acc * 8 + (byte_of c - 48)) r else None
  end.
Definition ParseUint8 (s : string) : option Z := if String.eqb s "" then None else octal 0 s.
