(* ===== verification/PushRules.v ===== *)
(** * Push content rules

    [internal/egress/proxy/push_rules.go] with [types.DenyPathSegments] and the
    change predicates of [internal/gitpack/tree.go]: a run's push rules compiled
    once, the glob walk that matches a path against a deny pattern under a budget
    of comparisons, the conservative reading of an entry whose content the pack
    does not carry, and the claims of the three rules over the changes of a push.

    [globMatches] is the meaning of a pattern; the backtracking walk
    [matchSegments] and the position-set walk [matchesBeneath] are proved to
    compute it. *)
From S2P Require Import Prelude GoStrings GoPath PolicyTypes.
Local Open Scope string_scope.
Local Open Scope Z_scope.

(** ** The compiled rules *)

Definition wrap64 (z : Z) : Z := (z + 2 ^ 63) mod 2 ^ 64 - 2 ^ 63.

Lemma wrap64_small z : - 2 ^ 63 <= z < 2 ^ 63 -> wrap64 z = z.
Proof. intros H. unfold wrap64. rewrite Z.mod_small; lia. Qed.

Definition defaultInspectPackMiB : Z := 32.
Definition second : Z := 1000000000.
Definition defaultPushHold : Z := 120 * second.
Definition maxHoldTimeout : Z := 600 * second.
Definition maxGlobOps : Z := Z.shiftl 8 20.

Record pushRuleSet := mkPushRuleSet {
  deny : list (list string); review : list (list string); hold : Z; unreadable : string;
  inspectMax : Z; maxFileBytes : Z; denyNewExec : bool; denyAll : bool;
}.

Section Compile.
Context {U : GoUnicode}.

Definition badSegment (s : string) : bool := String.eqb s "" || String.eqb s "." || String.eqb s "..".

Definition DenyPathSegments (pattern : string) : option (list string) :=
  if negb (ValidString pattern) then None
  else
    let p := match pattern with String "/" r => r | _ => pattern end in
    if negb (String.eqb (TrimSpace p) p) then None
    else
      let p := if HasSuffix p "/" then p ++ "**" else p in
      let segs := splitByte "/" p in
      if containsFunc badSegment segs then None else Some segs.

(** [compile] also records the first entry it cannot read, over both lists. *)
Fixpoint compilePats (unread : string) (pats : list string) : list (list string) * string :=
  match pats with
  | [] => ([], unread)
  | pat :: pats' =>
      match DenyPathSegments pat with
      | None => compilePats (cmpOrS unread pat) pats'
      | Some segs => let '(out, u) := compilePats unread pats' in (segs :: out, u)
      end
  end.

Definition compilePushRules (s : option PushRulesSpec) : option pushRuleSet :=
  if negb (pushIsSet s) then None
  else match s with
  | None => None
  | Some s =>
      let inspect := if MaxInspectPackMiB s >? 0 then wrap64 (Z.shiftl (MaxInspectPackMiB s) 20)
                     else Z.shiftl defaultInspectPackMiB 20 in
      let hold := if HoldSeconds s >? 0 then Z.min (wrap64 (HoldSeconds s * second)) maxHoldTimeout
                  else defaultPushHold in
      let '(den, u1) := compilePats "" (DenyPaths s) in
      let '(rev, u2) := compilePats u1 (RequireReviewPaths s) in
      Some (mkPushRuleSet den rev hold u2 inspect (wrap64 (Z.shiftl (MaxFileSizeMiB s) 20))
              (DenyNewExecutables s) (DenyAll s))
  end.
End Compile.

(** ** Matching a path against a pattern *)

Inductive globResult := Glob (ok : bool) (budget : Z) | GlobBudget.

(** One pattern segment against one path segment; a malformed pattern segment
    is compared literally. *)
Definition segMatches (p seg : string) : bool :=
  match pathMatch p seg with Some ok => ok | None => String.eqb p seg end.

Definition matchSegment (pat : list string) (i : nat) (seg : string) (budget : Z) : globResult :=
  match pat !! i with
  | None => Glob false budget
  | Some p => if budget <=? 0 then GlobBudget else Glob (segMatches p seg) (budget - 1)
  end.

(** Skip the trailing double stars. *)
Fixpoint onlyStars (pat : list string) : bool :=
  match pat with
  | [] => true
  | p :: pat' => String.eqb p "**" && onlyStars pat'
  end.

Fixpoint matchSegmentsLoop (fuel : nat) (pat name : list string) (star : option nat)
    (retry i j : nat) (budget : Z) : globResult :=
  match fuel with
  | O => GlobBudget
  | S fuel' =>
      match name !! j with
      | None => Glob (onlyStars (drop i pat)) budget
      | Some seg =>
          if bool_decide (pat !! i = Some "**") then matchSegmentsLoop fuel' pat name (Some i) j (S i) j budget
          else match matchSegment pat i seg budget with
               | GlobBudget => GlobBudget
               | Glob true b => matchSegmentsLoop fuel' pat name star retry (S i) (S j) b
               | Glob false b =>
                   match star with
                   | None => Glob false b
                   | Some s => matchSegmentsLoop fuel' pat name star (S retry) (S s) (S retry) b
                   end
               end
      end
  end.

(** More steps than the walk can take: each restart moves [retry] on. *)
Definition globFuel (pat name : list string) : nat := (S (length name) * S (length name + length pat))%nat.

Definition matchSegments (pat name : list string) (budget : Z) : globResult :=
  matchSegmentsLoop (globFuel pat name) pat name None 0 0 0 budget.

(** The positions of the pattern reached after the segments read so far. *)
Fixpoint spreadFrom (carry : bool) (pat : list string) (at_ : list bool) : list bool :=
  match at_ with
  | [] => []
  | a :: at' =>
      let a := a || carry in
      a :: match pat with
           | p :: pat' => spreadFrom (a && String.eqb p "**") pat' at'
           | [] => at'
           end
  end.
Definition spreadStars (pat : list string) (at_ : list bool) : list bool := spreadFrom false pat at_.

(** One path segment: the next positions, [carry] being what the previous
    position contributes to this one. *)
Fixpoint stepFrom (carry : bool) (pat : list string) (at_ : list bool) (seg : string) (budget : Z)
    : option (list bool * Z) :=
  match pat, at_ with
  | p :: pat', a :: at' =>
      let r := if negb a then Some (false, false, budget)
               else if String.eqb p "**" then Some (true, false, budget)
               else match matchSegment (p :: pat') 0 seg budget with
                    | GlobBudget => None
                    | Glob ok b => Some (false, ok, b)
                    end in
      match r with
      | None => None
      | Some (here, next, b) =>
          match stepFrom next pat' at' seg b with
          | None => None
          | Some (rest, b') => Some ((carry || here) :: rest, b')
          end
      end
  | _, _ => Some ([carry], budget)
  end.

Fixpoint beneathLoop (pat : list string) (at_ : list bool) (name : list string) (budget : Z) : globResult :=
  match name with
  | [] => Glob (existsb id (take (length pat) at_)) budget
  | seg :: name' =>
      match stepFrom false pat at_ seg budget with
      | None => GlobBudget
      | Some (next, b) => beneathLoop pat (spreadStars pat next) name' b
      end
  end.

Definition matchesBeneath (pat name : list string) (budget : Z) : globResult :=
  beneathLoop pat (spreadStars pat (true :: replicate (length pat) false)) name budget.

(** ** The meaning of a pattern *)

Fixpoint globMatches (pat name : list string) {struct pat} : bool :=
  match pat with
  | [] => match name with [] => true | _ => false end
  | p :: pat' =>
      if String.eqb p "**" then
        (fix any (n : list string) : bool :=
           globMatches pat' n || match n with [] => false | _ :: n' => any n' end) name
      else match name with
           | [] => false
           | s :: name' => segMatches p s && globMatches pat' name'
           end
  end.

Lemma glob_star pat name :
  globMatches ("**" :: pat) name = true <->
  exists k, (k <= length name)%nat /\ globMatches pat (drop k name) = true.
Proof.
  cbn [globMatches]. rewrite String.eqb_refl.
  induction name as [|s name IH].
  - rewrite orb_false_r. split.
    + intros H. by exists 0%nat.
    + intros (k & _ & H). by rewrite drop_nil in H.
  - rewrite orb_true_iff, IH. split.
    + intros [H | (k & Hk & H)]; [by exists 0%nat; split; [lia|] | exists (S k); split; [simpl; lia | done]].
    + intros ([|k] & Hk & H); [by left | right; exists k; split; [simpl in Hk; lia | done]].
Qed.

Lemma glob_seg p pat name :
  p <> "**" ->
  globMatches (p :: pat) name = true <->
  exists s name', name = s :: name' /\ segMatches p s = true /\ globMatches pat name' = true.
Proof.
  intros Hp. cbn [globMatches]. apply String.eqb_neq in Hp as ->.
  destruct name as [|s name']; [split; [done | by intros (? & ? & ? & _)]|].
  rewrite andb_true_iff. split; [intros []; eauto | by intros (? & ? & [= -> ->] & ? & ?)].
Qed.

Lemma glob_nil_name pat : globMatches pat [] = onlyStars pat.
Proof.
  induction pat as [|p pat IH]; [done|]. cbn [globMatches onlyStars].
  destruct (String.eqb p "**"); [by rewrite IH, orb_false_r | done].
Qed.

(** A stretch of the pattern without double stars consumes as many segments. *)
Lemma glob_fixed pat name i n :
  (forall k, i <= k < i + n -> pat !! k <> Some "**")%nat -> (i + n <= length pat)%nat ->
  globMatches (drop i pat) name = true ->
  (n <= length name)%nat /\ globMatches (drop (i + n) pat) (drop n name) = true.
Proof.
  revert i name. induction n as [|n IH]; intros i name Hns Hlen H.
  - rewrite Nat.add_0_r, drop_0. split; [lia | done].
  - destruct (lookup_lt_is_Some_2 pat i) as [p Hp]; [lia|].
    rewrite (drop_S pat p i Hp) in H. apply glob_seg in H as (s & name' & -> & _ & H).
    + destruct (IH (S i) name') as [Hl Hg]; [intros; apply Hns; lia | lia | done |].
      replace (i + S n)%nat with (S i + n)%nat by lia. split; [simpl; lia | done].
    + intros ->. by apply (Hns i ltac:(lia)).
Qed.

(** ** The backtracking walk *)

Section Walk.
Context (pat name : list string).

Abbreviation G i j := (globMatches (drop i pat) (drop j name) = true).

(** What the walk knows in a state: the whole path matches exactly when it
    matches from here or from a later restart of the last double star. *)
Record walkInv (star : option nat) (retry i j : nat) : Prop := {
  wi_i : (i <= length pat)%nat;
  wi_j : (retry <= j <= length name)%nat;
  wi_star : forall s, star = Some s -> (s < i)%nat /\ (i + retry = S s + j)%nat /\
              (forall k, (s < k < i)%nat -> pat !! k <> Some "**");
  wi_eq : G 0 0 <-> G i j \/ exists s r, star = Some s /\ (retry < r <= length name)%nat /\ G (S s) r;
}.

Definition walkMeasure (retry i j : nat) : nat :=
  ((length name - retry) * S (length name + length pat) + ((length name - j) + (length pat - i)))%nat.

Lemma walkInv_init : walkInv None 0 0 0.
Proof. split; [lia | lia | done | naive_solver]. Qed.

(** A restart after the current one also passes through this double star. *)
Lemma walkInv_star star retry i j :
  walkInv star retry i j -> pat !! i = Some "**" -> walkInv (Some i) j (S i) j.
Proof.
  intros [Hi Hj Hs He] Hp. pose proof (lookup_lt_Some _ _ _ Hp). split; [lia | lia | |].
  - intros s [= <-]. split_and!; [lia | lia | intros; lia].
  - rewrite He, (drop_S pat _ i Hp), glob_star. split.
    + intros [(k & Hk & H') | (s & r & -> & Hr & H')].
      * rewrite drop_drop in H'. rewrite length_drop in Hk. destruct k as [|k].
        -- left. by rewrite Nat.add_0_r in H'.
        -- right. exists i, (j + S k)%nat. split_and!; [done | lia | lia | done].
      * destruct (Hs s eq_refl) as (? & ? & Hns).
        apply (glob_fixed _ _ _ (i - S s)) in H' as [Hl H']; [|intros; apply Hns; lia | lia].
        rewrite length_drop in Hl. rewrite drop_drop in H'.
        replace (S s + (i - S s))%nat with i in H' by lia.
        rewrite (drop_S pat _ i Hp), glob_star in H'. destruct H' as (k & Hk & H').
        rewrite length_drop in Hk. rewrite drop_drop in H'.
        right. exists i, (r + (i - S s) + k)%nat. split_and!; [done | lia | lia | done].
    + intros [H' | (s & r & [= <-] & Hr & H')]; left.
      * exists 0%nat. split; [lia | by rewrite drop_0].
      * exists (r - j)%nat. rewrite length_drop, drop_drop. split; [lia|].
        by replace (j + (r - j))%nat with r by lia.
Qed.

Lemma walkInv_match star retry i j p seg :
  walkInv star retry i j -> pat !! i = Some p -> p <> "**" -> name !! j = Some seg ->
  segMatches p seg = true -> walkInv star retry (S i) (S j).
Proof.
  intros [Hi Hj Hs He] Hp Hns Hn Hm.
  pose proof (lookup_lt_Some _ _ _ Hp). pose proof (lookup_lt_Some _ _ _ Hn). split; [lia | lia | |].
  - intros s Es. destruct (Hs s Es) as (? & ? & Hk). split_and!; [lia | lia |].
    intros k ?. destruct (decide (k = i)) as [->|]; [congruence | apply Hk; lia].
  - rewrite He, (drop_S pat _ i Hp), (drop_S name _ j Hn), glob_seg by done.
    split; (intros [H'|H']; [left | by right]).
    + by destruct H' as (? & ? & [= <- <-] & _ & H').
    + by exists seg, (drop (S j) name).
Qed.

(** No match from here: only a later restart is left. *)
Lemma walk_stuck i j seg :
  name !! j = Some seg -> pat !! i <> Some "**" ->
  (forall p, pat !! i = Some p -> segMatches p seg = false) -> ~ G i j.
Proof.
  intros Hn Hns Hm H. rewrite (drop_S name _ j Hn) in H.
  destruct (pat !! i) as [p|] eqn:Hp.
  - rewrite (drop_S pat _ i Hp) in H. apply glob_seg in H as (? & ? & [= <- <-] & H & _); [|congruence].
    rewrite Hm in H; done.
  - apply lookup_ge_None in Hp. rewrite drop_ge in H by done. done.
Qed.

Lemma walkInv_restart s retry i j :
  walkInv (Some s) retry i j -> (j < length name)%nat -> ~ G i j -> walkInv (Some s) (S retry) (S s) (S retry).
Proof.
  intros [Hi Hj Hs He] Hlt Hno. destruct (Hs s eq_refl) as (? & ? & _). split; [lia | lia | |].
  - intros s' [= <-]. split_and!; [lia | lia | intros; lia].
  - rewrite He. split.
    + intros [? | (s' & r & [= <-] & Hr & H')]; [done|].
      destruct (decide (r = S retry)) as [->|]; [by left | right; exists s, r; split_and!; [done | lia | lia | done]].
    + intros [H' | (s' & r & [= <-] & Hr & H')]; right; [exists s, (S retry) | exists s, r];
        split_and!; solve [done | lia].
Qed.

(** At the end of the path only double stars may remain, and no later restart
    can do better: it has fewer segments for the same stretch. *)
Lemma walkInv_end star retry i j :
  walkInv star retry i j -> name !! j = None -> G 0 0 <-> onlyStars (drop i pat) = true.
Proof.
  intros [Hi Hj Hs He] Hn. apply lookup_ge_None in Hn.
  rewrite He, (drop_ge name j) by done. rewrite glob_nil_name. split; [|by left].
  intros [? | (s & r & Es & Hr & H')]; [done|]. destruct (Hs s Es) as (? & ? & Hns).
  apply (glob_fixed _ _ _ (i - S s)) in H' as [Hl _]; [|intros; apply Hns; lia | lia].
  rewrite length_drop in Hl. lia.
Qed.

Lemma matchSegmentsLoop_spec fuel star retry i j budget :
  walkInv star retry i j -> (walkMeasure retry i j < fuel)%nat ->
  match matchSegmentsLoop fuel pat name star retry i j budget with
  | Glob ok b => ok = globMatches pat name /\ b <= budget
  | GlobBudget => budget <= Z.of_nat (walkMeasure retry i j)
  end.
Proof.
  assert (HG : forall b : bool, (G 0 0 <-> b = true) -> b = globMatches pat name).
  { intros b H. rewrite !drop_0 in H. destruct b, (globMatches pat name); naive_solver. }
  revert star retry i j budget.
  induction fuel as [|fuel IH]; intros star retry i j budget Hinv Hf; [lia|]. cbn [matchSegmentsLoop].
  pose proof (wi_i _ _ _ _ Hinv) as Hi. pose proof (wi_j _ _ _ _ Hinv) as Hj.
  destruct (name !! j) as [seg|] eqn:Hn.
  2: { split; [|lia]. by apply HG, (walkInv_end star retry i j). }
  pose proof (lookup_lt_Some _ _ _ Hn) as Hlt.
  destruct (bool_decide _) eqn:Hst.
  { apply bool_decide_eq_true in Hst. pose proof (lookup_lt_Some _ _ _ Hst).
    assert (Hm : (walkMeasure j (S i) j < walkMeasure retry i j)%nat) by (unfold walkMeasure; nia).
    specialize (IH (Some i) j (S i) j budget (walkInv_star _ _ _ _ Hinv Hst) ltac:(lia)).
    destruct (matchSegmentsLoop _ _ _ _ _ _ _ _); [done | lia]. }
  apply bool_decide_eq_false in Hst. unfold matchSegment.
  assert (Hfail : forall b, b <= budget -> budget - 1 <= b -> (forall p, pat !! i = Some p -> segMatches p seg = false) ->
    match (match star with None => Glob false b
           | Some s => matchSegmentsLoop fuel pat name star (S retry) (S s) (S retry) b end) with
    | Glob ok b' => ok = globMatches pat name /\ b' <= budget
    | GlobBudget => budget <= Z.of_nat (walkMeasure retry i j)
    end).
  { intros b Hb Hb' Hm. pose proof (walk_stuck i j seg Hn Hst Hm) as Hno. destruct star as [s|].
    - destruct (wi_star _ _ _ _ Hinv s eq_refl) as (? & ? & _).
      assert (Hw : (walkMeasure (S retry) (S s) (S retry) < walkMeasure retry i j)%nat) by (unfold walkMeasure; nia).
      specialize (IH (Some s) (S retry) (S s) (S retry) b (walkInv_restart _ _ _ _ Hinv Hlt Hno) ltac:(lia)).
      destruct (matchSegmentsLoop _ _ _ _ _ _ _ _); [split; [apply IH | lia] | lia].
    - split; [|done]. apply HG. rewrite (wi_eq _ _ _ _ Hinv). naive_solver. }
  destruct (pat !! i) as [p|] eqn:Hp; [|apply Hfail; [lia | lia | done]].
  destruct (budget <=? 0) eqn:Hb0; [bool_prop; lia|].
  destruct (segMatches p seg) eqn:Hm; [|apply Hfail; [lia | lia | by intros ? [= <-]]].
  pose proof (lookup_lt_Some _ _ _ Hp).
  assert (Hw : (walkMeasure retry (S i) (S j) < walkMeasure retry i j)%nat) by (unfold walkMeasure; nia).
  specialize (IH star retry (S i) (S j) (budget - 1)
    (walkInv_match _ _ _ _ _ _ Hinv Hp ltac:(congruence) Hn Hm) ltac:(lia)).
  destruct (matchSegmentsLoop _ _ _ _ _ _ _ _); [split; [apply IH | lia] | lia].
Qed.

Lemma walkMeasure_init : (walkMeasure 0 0 0 < globFuel pat name)%nat.
Proof. unfold walkMeasure, globFuel. nia. Qed.

Lemma matchSegments_spec budget :
  match matchSegments pat name budget with
  | Glob ok b => ok = globMatches pat name /\ b <= budget
  | GlobBudget => budget < Z.of_nat (globFuel pat name)
  end.
Proof.
  pose proof (matchSegmentsLoop_spec (globFuel pat name) None 0 0 0 budget walkInv_init walkMeasure_init) as H.
  unfold matchSegments. destruct (matchSegmentsLoop _ _ _ _ _ _ _ _); [done|].
  pose proof walkMeasure_init. lia.
Qed.
End Walk.

(** The backtracking walk over the last double star computes exactly the
    declarative meaning of the pattern, and it answers: with a budget of at least
    the bound below it never refuses for budget. *)
Theorem matchSegments_correct pat name budget :
  Z.of_nat (globFuel pat name) <= budget ->
  exists b, matchSegments pat name budget = Glob (globMatches pat name) b.
Proof.
  intros Hb. pose proof (matchSegments_spec pat name budget) as H.
  destruct (matchSegments pat name budget); [destruct H as [-> _]; eauto | lia].
Qed.

Lemma matchSegments_correct_witness :
  exists b, matchSegments [".github"; "**"; "*.yml"] [".github"; "workflows"; "ci"; "a.yml"] maxGlobOps = Glob true b.
Proof.
  destruct (matchSegments_correct [".github"; "**"; "*.yml"] [".github"; "workflows"; "ci"; "a.yml"] maxGlobOps) as [b Hb];
    [by vm_compute|]. exists b. rewrite Hb. vm_compute. reflexivity.
Defined.

(** ** The position set *)

(** Whether [l] can be matched from one of the positions of the set. *)
Fixpoint accepts (pat : list string) (at_ : list bool) (l : list string) : bool :=
  match at_ with
  | [] => false
  | a :: at' => (a && globMatches pat l) || match pat with [] => false | _ :: pat' => accepts pat' at' l end
  end.

(** A reached double star has its successor reached too. *)
Fixpoint starClosed (pat : list string) (at_ : list bool) : Prop :=
  match pat, at_ with
  | p :: pat', a :: at' => (a = true -> p = "**" -> head at' = Some true) /\ starClosed pat' at'
  | _, _ => True
  end.

Lemma glob_star_skip pat l : globMatches pat l = true -> globMatches ("**" :: pat) l = true.
Proof. intros H. apply glob_star. exists 0%nat. split; [lia | by rewrite drop_0]. Qed.

Lemma glob_star_cons pat s l :
  globMatches ("**" :: pat) (s :: l) = globMatches pat (s :: l) || globMatches ("**" :: pat) l.
Proof. cbn [globMatches]. by rewrite String.eqb_refl. Qed.

Lemma length_spreadFrom carry pat at_ : length (spreadFrom carry pat at_) = length at_.
Proof. revert carry pat. induction at_ as [|a at_ IH]; intros carry [|p pat]; simpl; auto. Qed.

Lemma spreadFrom_accepts carry pat at_ l :
  length at_ = S (length pat) ->
  accepts pat (spreadFrom carry pat at_) l = accepts pat at_ l || (carry && globMatches pat l).
Proof.
  revert carry at_. induction pat as [|p pat IH]; intros carry [|a at_] Hl; simpl in Hl; try lia; cbn [spreadFrom accepts].
  - destruct a, carry, (globMatches [] l); done.
  - rewrite IH by lia. destruct (String.eqb_spec p "**") as [->|Hp]; [|destruct a, carry, (globMatches (p :: pat) l), (accepts pat at_ l); done].
    pose proof (glob_star_skip pat l). destruct (globMatches pat l); [rewrite H by done|];
      destruct a, carry, (globMatches ("**" :: pat) l), (accepts pat at_ l); done.
Qed.

Lemma spreadFrom_closed carry pat at_ :
  length at_ = S (length pat) -> starClosed pat (spreadFrom carry pat at_).
Proof.
  revert carry at_. induction pat as [|p pat IH]; intros carry [|a at_] Hl; simpl in Hl; try lia; [done|].
  cbn [spreadFrom starClosed]. split; [|apply IH; lia].
  intros Ha ->. rewrite Ha, String.eqb_refl. destruct at_ as [|b at_]; [simpl in Hl; lia|].
  destruct pat, b; done.
Qed.

Lemma stepFrom_length carry pat at_ seg budget next b :
  length at_ = S (length pat) -> stepFrom carry pat at_ seg budget = Some (next, b) -> length next = S (length pat).
Proof.
  revert carry at_ budget next b.
  induction pat as [|p pat IH]; intros carry [|a at_] budget next b Hl Hs; simpl in Hl; try lia; cbn [stepFrom] in Hs.
  - by simplify_eq.
  - repeat case_match; simplify_eq; simpl; f_equal; eapply IH; try done; lia.
Qed.

Lemma accepts_head pat at_ l : head at_ = Some true -> globMatches pat l = true -> accepts pat at_ l = true.
Proof. destruct at_ as [|a at_]; [done|]. intros [= ->] H. destruct pat; cbn [accepts]; by rewrite H. Qed.

Lemma stepFrom_accepts carry pat at_ seg budget next b l :
  length at_ = S (length pat) -> starClosed pat at_ -> stepFrom carry pat at_ seg budget = Some (next, b) ->
  accepts pat next l = accepts pat at_ (seg :: l) || (carry && globMatches pat l).
Proof.
  revert carry at_ budget next b.
  induction pat as [|p pat IH]; intros carry [|a at_] budget next b Hl Hc Hs; simpl in Hl; try lia; cbn [stepFrom] in Hs.
  { simplify_eq. cbn [accepts globMatches]. by rewrite andb_false_r, !orb_false_r. }
  destruct Hc as [Hhd Hc]. assert (Hl' : length at_ = S (length pat)) by lia.
  assert (Hst : a = true -> p = "**" -> globMatches pat (seg :: l) = true -> accepts pat at_ (seg :: l) = true)
    by (intros; apply accepts_head; auto).
  destruct (negb a) eqn:Ha; [|destruct (String.eqb_spec p "**") as [->|Hp]];
    [..|cbn [matchSegment lookup list_lookup] in Hs; destruct (budget <=? 0); [done|]];
    (destruct (stepFrom _ pat at_ seg _) as [[rest b']|] eqn:E; [|done]); simplify_eq;
    cbn [accepts]; rewrite (IH _ _ _ _ _ Hl' Hc E).
  - apply negb_true_iff in Ha as ->. destruct carry, (globMatches (p :: pat) l), (accepts pat at_ (seg :: l)); done.
  - apply negb_false_iff in Ha as ->. rewrite glob_star_cons.
    specialize (Hst eq_refl eq_refl).
    destruct (globMatches pat (seg :: l)); [rewrite Hst by done|];
      destruct carry, (globMatches ("**" :: pat) l), (accepts pat at_ (seg :: l)); done.
  - apply negb_false_iff in Ha as ->. cbn [globMatches]. apply String.eqb_neq in Hp. rewrite Hp.
    change (globMatches (p :: pat) l) with (globMatches (p :: pat) l).
    destruct carry, (segMatches p seg), (globMatches pat l), (accepts pat at_ (seg :: l)); simpl;
      rewrite ?orb_true_r, ?orb_false_r, ?andb_true_r; try done; by destruct l.
Qed.

(** The set after the last segment accepts what may follow, and a nonempty rest
    is accepted only from a position with a pattern segment left. *)
Lemma beneathLoop_spec pat at_ name budget ok b :
  length at_ = S (length pat) -> starClosed pat at_ -> beneathLoop pat at_ name budget = Glob ok b ->
  exists fin, length fin = S (length pat) /\ ok = existsb id (take (length pat) fin) /\
    forall l, accepts pat fin l = accepts pat at_ (name ++ l).
Proof.
  revert at_ budget. induction name as [|seg name IH]; intros at_ budget Hl Hc H; cbn [beneathLoop] in H.
  - simplify_eq. by exists at_.
  - destruct (stepFrom false pat at_ seg budget) as [[next b']|] eqn:E; [|done].
    pose proof (stepFrom_length _ _ _ _ _ _ _ Hl E) as Hn.
    destruct (IH _ _ ltac:(unfold spreadStars; by rewrite length_spreadFrom) ltac:(by apply spreadFrom_closed) H)
      as (fin & Hf & Hok & Hacc).
    exists fin. split_and!; [done | done |]. intros l. rewrite Hacc. unfold spreadStars.
    rewrite spreadFrom_accepts by done. cbn [andb app].
    rewrite (stepFrom_accepts _ _ _ _ _ _ _ (name ++ l) Hl Hc E). by rewrite !orb_false_r.
Qed.

Lemma accepts_init pat l : accepts pat (true :: replicate (length pat) false) l = globMatches pat l.
Proof.
  assert (Hf : forall q, accepts q (replicate (S (length q)) false) l = false).
  { induction q as [|p q IH]; [done|]. cbn [length]. rewrite replicate_S. cbn [accepts andb orb]. exact IH. }
  destruct pat as [|p pat]; cbn [accepts andb orb length]; [by rewrite orb_false_r|].
  rewrite Hf. by rewrite orb_false_r.
Qed.

Lemma accepts_nonempty pat fin l :
  length fin = S (length pat) -> l <> [] -> accepts pat fin l = true -> existsb id (take (length pat) fin) = true.
Proof.
  revert fin. induction pat as [|p pat IH]; intros [|a fin] Hl Hne H; simpl in Hl; try lia; cbn [accepts] in H.
  - destruct l; [done|]. by rewrite andb_false_r in H.
  - cbn [length take existsb id]. apply orb_true_iff in H as [H|H]; [by apply andb_true_iff in H as [-> _]|].
    rewrite (IH fin) by (done || lia). by rewrite orb_true_r.
Qed.

(** Where every pattern segment can be matched by something, a position short of
    the end accepts some nonempty rest. *)
Definition satisfiable (pat : list string) : Prop :=
  forall p, p ∈ pat -> p <> "**" -> exists s, segMatches p s = true.

Lemma glob_filler pat : satisfiable pat -> pat <> [] -> exists l, l <> [] /\ globMatches pat l = true.
Proof.
  induction pat as [|p pat IH]; intros Hs Hne; [done|].
  assert (Hs' : satisfiable pat) by (intros q Hq; apply Hs; by right).
  destruct (decide (pat = [])) as [->|Hn].
  - destruct (decide (p = "**")) as [->|Hp]; [by exists ["x"]|].
    destruct (Hs p ltac:(left) Hp) as [s E]. exists [s]. split; [done|].
    apply glob_seg; [done|]. by exists s, [].
  - destruct (IH Hs' Hn) as (l & Hl & Hg). destruct (decide (p = "**")) as [->|Hp].
    + exists l. split; [done | by apply glob_star_skip].
    + destruct (Hs p ltac:(left) Hp) as [s E]. exists (s :: l). split; [done|].
      apply glob_seg; [done|]. by exists s, l.
Qed.

Lemma accepts_filler pat fin :
  satisfiable pat -> length fin = S (length pat) -> existsb id (take (length pat) fin) = true ->
  exists l, l <> [] /\ accepts pat fin l = true.
Proof.
  revert fin. induction pat as [|p pat IH]; intros [|a fin] Hs Hl H; simpl in Hl; try lia; [done|].
  cbn [length take existsb id] in H. apply orb_true_iff in H as [H|H].
  - destruct (glob_filler (p :: pat) Hs ltac:(done)) as (l & Hne & Hg). exists l. split; [done|].
    apply accepts_head; [cbn; congruence | done].
  - destruct (IH fin) as (l & Hne & Ha); [intros q Hq; apply Hs; by right | lia | done|].
    exists l. split; [done|]. cbn [accepts]. by rewrite Ha, orb_true_r.
Qed.

Lemma matchesBeneath_accepts pat name budget ok b :
  matchesBeneath pat name budget = Glob ok b ->
  exists fin, length fin = S (length pat) /\ ok = existsb id (take (length pat) fin) /\
    forall l, accepts pat fin l = globMatches pat (name ++ l).
Proof.
  intros H. unfold matchesBeneath in H.
  assert (Hl : length (true :: replicate (length pat) false) = S (length pat)) by (cbn; by rewrite length_replicate).
  apply beneathLoop_spec in H as (fin & Hf & Hok & Ha).
  - exists fin. split_and!; [done..|]. intros l. rewrite Ha. unfold spreadStars.
    rewrite spreadFrom_accepts by done. by rewrite accepts_init, orb_false_r.
  - unfold spreadStars. by rewrite length_spreadFrom.
  - by apply spreadFrom_closed.
Qed.

(** For an entry whose content the pack does not carry, the answer "could
    match something beneath" is never missed, and where every pattern segment can
    match something it is exact. *)
Theorem matchesBeneath_correct pat name budget ok b :
  matchesBeneath pat name budget = Glob ok b ->
  ((exists rest, rest <> [] /\ globMatches pat (name ++ rest) = true) -> ok = true) /\
  (satisfiable pat -> ok = true -> exists rest, rest <> [] /\ globMatches pat (name ++ rest) = true).
Proof.
  intros H. apply matchesBeneath_accepts in H as (fin & Hf & -> & Ha). split.
  - intros (rest & Hne & Hg). apply accepts_nonempty with rest; [done | done | by rewrite Ha].
  - intros Hs Hok. destruct (accepts_filler pat fin Hs Hf Hok) as (l & Hne & Hl).
    exists l. split; [done | by rewrite <- Ha].
Qed.

Lemma matchesBeneath_correct_witness :
  exists b, matchesBeneath [".github"; "**"; "ci.yml"] [".github"; "workflows"] maxGlobOps = Glob true b /\
    exists rest, rest <> [] /\ globMatches [".github"; "**"; "ci.yml"] ([".github"; "workflows"] ++ rest) = true.
Proof.
  destruct (matchesBeneath [".github"; "**"; "ci.yml"] [".github"; "workflows"] maxGlobOps) as [ok b|] eqn:E;
    [|vm_compute in E; discriminate].
  exists b. assert (ok = true) as -> by (vm_compute in E; congruence). split; [reflexivity|].
  destruct (matchesBeneath_correct _ _ _ _ _ E) as [_ H]. apply H; [|reflexivity].
  intros p Hp Hns. exists p. rewrite !elem_of_cons in Hp.
  destruct Hp as [->|[->|[->|Hp]]]; [by vm_compute | congruence | by vm_compute | by apply not_elem_of_nil in Hp].
Defined.

(** ** The claims of the rules over the changes of a push *)

Record Change := mkChange { Path : string; Mode : string; size : Z; OID : string; BaseMode : string }.

Definition modeRegular : Z := 32768.
Definition modeFormat : Z := 61440.
Definition ModeUncarried : string := "40000".
Definition modeGitlink : string := "160000".

Definition Carried (c : Change) : bool := size c >=? 0.

Definition Opaque (c : Change) : bool :=
  match ParseUint8 (Mode c) with
  | None => true
  | Some m => negb (Z.land m modeFormat =? modeRegular)
  end.

Definition IsExecutable (mode : string) : bool :=
  match ParseUint8 mode with
  | None => false
  | Some m => (Z.land m modeFormat =? modeRegular) && negb (Z.land m 64 =? 0)
  end.

Definition shownPath (c : Change) : string :=
  if String.eqb (Mode c) ModeUncarried then Path c ++ "/" else Path c.

(** The root is zero segments, not one empty one. *)
Definition changeSegs (c : Change) : list string :=
  if String.eqb (Path c) "" then [] else splitByte "/" (Path c).

Definition claims (pat : list string) (c : Change) (budget : Z) : globResult :=
  match matchSegments pat (changeSegs c) budget with
  | Glob false b => if Opaque c then matchesBeneath pat (changeSegs c) b else Glob false b
  | r => r
  end.

Fixpoint claimedBy (pats : list (list string)) (c : Change) (budget : Z) : globResult :=
  match pats with
  | [] => Glob false budget
  | pat :: pats' =>
      match claims pat c budget with
      | Glob false b => claimedBy pats' c b
      | r => r
      end
  end.

(** A rule's claim: the carried entries it names outright, and the entries the
    pack does not carry; [None] is the refusal for too much work. *)
Fixpoint matchFrom (pats : list (list string)) (changes : list Change) (budget : Z)
    : option (list string * list Change) :=
  match changes with
  | [] => Some ([], [])
  | c :: changes' =>
      match claimedBy pats c budget with
      | GlobBudget => None
      | Glob ok b =>
          match matchFrom pats changes' b with
          | None => None
          | Some (hits, unknown) =>
              if ok then if Carried c then Some (shownPath c :: hits, unknown) else Some (hits, c :: unknown)
              else Some (hits, unknown)
          end
      end
  end.

Definition matchChanges (pats : list (list string)) (changes : list Change) : option (list string * list Change) :=
  matchFrom pats changes maxGlobOps.

Fixpoint oversize (limit : Z) (changes : list Change) : list string * list Change :=
  match changes with
  | [] => ([], [])
  | c :: changes' =>
      let '(hits, unknown) := oversize limit changes' in
      if String.eqb (Mode c) modeGitlink then (hits, unknown)
      else if negb (Carried c) then (hits, c :: unknown)
      else if size c >? limit
           then ((Path c ++ " (" ++ Itoa (Z.shiftr (size c + (Z.shiftl 1 20 - 1)) 20) ++ " MiB)") :: hits, unknown)
      else (hits, unknown)
  end.

Fixpoint newExecutables (changes : list Change) : list string * list Change :=
  match changes with
  | [] => ([], [])
  | c :: changes' =>
      let '(hits, unknown) := newExecutables changes' in
      if String.eqb (Mode c) ModeUncarried then (hits, c :: unknown)
      else if negb (IsExecutable (Mode c)) then (hits, unknown)
      else if String.eqb (BaseMode c) "" then (hits, c :: unknown)
      else if negb (IsExecutable (BaseMode c)) then (Path c :: hits, unknown)
      else (hits, unknown)
  end.

(** What a pattern claims, by its meaning: the entry itself, or for an entry
    whose content is not in the pack something beneath it. *)
Definition claimable (pat : list string) (c : Change) : Prop :=
  globMatches pat (changeSegs c) = true \/
  (Opaque c = true /\ exists rest, rest <> [] /\ globMatches pat (changeSegs c ++ rest) = true).

Lemma claims_complete pat c budget ok b : claims pat c budget = Glob ok b -> claimable pat c -> ok = true.
Proof.
  unfold claims. pose proof (matchSegments_spec pat (changeSegs c) budget) as Hs.
  destruct (matchSegments pat (changeSegs c) budget) as [[] b1|]; [by intros [= <- <-] | | done].
  destruct Hs as [Hs _]. intros H [Hg | [Ho Hr]]; [congruence|]. rewrite Ho in H.
  apply matchesBeneath_accepts in H as (fin & Hf & -> & Ha). destruct Hr as (rest & Hne & Hg).
  apply accepts_nonempty with rest; [done | done | by rewrite Ha].
Qed.

Lemma claimedBy_complete pats pat c budget ok b :
  claimedBy pats c budget = Glob ok b -> pat ∈ pats -> claimable pat c -> ok = true.
Proof.
  revert budget. induction pats as [|q pats IH]; intros budget H Hp Hc; [by apply not_elem_of_nil in Hp|].
  cbn [claimedBy] in H. destruct (claims q c budget) as [[] b1|] eqn:E; [by simplify_eq | | done].
  apply elem_of_cons in Hp as [->|Hp]; [|by eapply IH].
  by pose proof (claims_complete _ _ _ _ _ E Hc).
Qed.

Lemma matchFrom_complete pats changes budget hits unknown :
  matchFrom pats changes budget = Some (hits, unknown) ->
  forall c pat, c ∈ changes -> pat ∈ pats -> claimable pat c ->
    if Carried c then shownPath c ∈ hits else c ∈ unknown.
Proof.
  revert budget hits unknown. induction changes as [|d changes IH]; intros budget hits unknown H c pat Hc Hp Hm;
    [by apply not_elem_of_nil in Hc|]. cbn [matchFrom] in H.
  destruct (claimedBy pats d budget) as [ok b|] eqn:E; [|done].
  destruct (matchFrom pats changes b) as [[h u]|] eqn:E2; [|done].
  apply elem_of_cons in Hc as [->|Hc].
  - rewrite (claimedBy_complete _ _ _ _ _ _ E Hp Hm) in H. destruct (Carried d); simplify_eq; left.
  - specialize (IH _ _ _ E2 c pat Hc Hp Hm). destruct ok; [|by simplify_eq].
    destruct (Carried d) eqn:Ed, (Carried c); simplify_eq; try done; by right.
Qed.

(** Whatever a stored policy says, the hold a review match waits is at most
    600 seconds, and no rule set at all compiles to no rules. *)
Theorem push_hold_bounded `{U : GoUnicode} s rs :
  compilePushRules s = Some rs -> hold rs <= maxHoldTimeout /\ pushIsSet s = true.
Proof.
  unfold compilePushRules. destruct (pushIsSet s); [|done]. destruct s as [s|]; [|done]. cbn [negb].
  intros H. repeat case_match; simplify_eq; cbn [hold]; (split; [|done]); try lia.
  all: vm_compute; discriminate.
Qed.

Lemma push_hold_bounded_witness :
  exists rs, @compilePushRules asciiTables (Some (mkPush [".github/"] 0 [] 100000 false 0 false)) = Some rs /\
    hold rs <= maxHoldTimeout.
Proof.
  eexists. split; [reflexivity|].
  eapply (@push_hold_bounded asciiTables (Some (mkPush [".github/"] 0 [] 100000 false 0 false))). reflexivity.
Defined.
