(* ===== verification/EgressPolicy.v ===== *)
(** * The compiled egress policy

    [internal/egress/proxy/policy.go] (compilation and the host verdict),
    [exact_host_binding.go] (where a credential may be attached), [port_rule.go],
    [connect_gate.go] (the part of a decision the configuration alone gives),
    [domain_charset.go], [tool_rules.go], and the decision vocabulary of
    [internal/egress].

    The compiled [Policy] is the optimised form: exact entries in hash sets keyed
    by host or by "host:port", wildcards in suffix lists. [specVerdict] reads the
    lists of the specification directly; [evalHost_refines] proves the two equal.
    The evaluator is an interface ([Evaluator]) as in the code; the gate is
    written against it and the builtin engine is an instance. *)
From S2P Require Import Prelude GoStrings NetIP IPGuard DomainMatch PolicyTypes PushRules.
Local Open Scope string_scope.
Local Open Scope Z_scope.

(** ** The decision vocabulary *)

Inductive hostDecision := hostAllow | hostDeny | hostUnknown.
Inductive HostVerdict := VerdictAllow | VerdictDeny | VerdictUnknown.

#[export] Instance hostDecision_eq_dec : EqDecision hostDecision.
Proof. solve_decision. Defined.
#[export] Instance HostVerdict_eq_dec : EqDecision HostVerdict.
Proof. solve_decision. Defined.

Record Request := mkReq { Host : string; RPort : Z; Method : string; RPath : string }.

(** ** The compiled policy *)

(** The four compiled forms of one domain list. *)
Record domainSet := mkDomainSet {
  exactSet : gset string; wildList : list string; exactPortSet : gset string; wildPortList : list WildPort;
}.
Definition emptyDomainSet : domainSet := mkDomainSet ∅ [] ∅ [].

Record Policy := mkPolicy {
  allowed : domainSet; denied : domainSet;
  allowedExactAnyPort : gmap string (gset Z);
  allowedMeth : gset string; firstUse : string; toolRules : gmap string string;
  allowAll : bool; gitPushAnyBranch : bool; pushRules : option pushRuleSet;
}.

Definition hostPortKey (host : string) (port : Z) : string := host ++ ":" ++ Itoa port.

Section Policy.
Context {U : GoUnicode}.

Definition addEntry (s : domainSet) (d : string) : domainSet :=
  let '(exact, wild, port) := Classify d in
  let '(mkDomainSet es ws eps wps) := s in
  if negb (String.eqb wild "") && (port >? 0) then mkDomainSet es ws eps ((wps ++ [mkWildPort wild port])%list)
  else if negb (String.eqb wild "") then mkDomainSet es ((ws ++ [wild])%list) eps wps
  else if negb (String.eqb exact "") && (port >? 0) then mkDomainSet es ws ({[hostPortKey exact port]} ∪ eps) wps
  else if negb (String.eqb exact "") then mkDomainSet ({[exact]} ∪ es) ws eps wps
  else s.

Definition addAnyPort (m : gmap string (gset Z)) (d : string) : gmap string (gset Z) :=
  let '(exact, wild, port) := Classify d in
  if String.eqb wild "" && negb (String.eqb exact "") && (port >? 0)
  then <[exact := {[port]} ∪ default ∅ (m !! exact)]> m
  else m.

Definition addMethod (s : gset string) (m : string) : gset string :=
  let m := ToUpper (TrimSpace m) in
  if String.eqb m "" then s else {[m]} ∪ s.

Definition compileDomains (ds : list string) : domainSet := fold_left addEntry ds emptyDomainSet.

Definition CompilePolicy (spec : RunPolicySpec) : Policy :=
  mkPolicy
    (compileDomains (AllowedDomains spec))
    (compileDomains (DeniedDomains spec))
    (fold_left addAnyPort (AllowedDomains spec) ∅)
    (fold_left addMethod (AllowedMethods spec) ∅)
    (normalizeFirstUse (FirstUseApproval spec))
    (fold_left (fun m r => <[Tool r := Effect r]> m) (ToolRules spec) ∅)
    (AllowAllEgress spec) (GitPushAnyBranch spec) (compilePushRules (PushRules spec)).

Definition ToolEffectFor (p : Policy) (tool : string) : option string :=
  match toolRules p !! tool with
  | Some e => Some e
  | None => toolRules p !! "*"
  end.

(** The lookups a host makes in one compiled list. *)
Definition exactHit (s : domainSet) (host : string) : bool := bool_decide (host ∈ exactSet s).
Definition exactPortHit (s : domainSet) (host : string) (port : Z) : bool :=
  bool_decide (hostPortKey host port ∈ exactPortSet s).

Definition evalHost (p : Policy) (host : string) (port : Z) : hostDecision :=
  let host := CanonHost host in
  if exactHit (denied p) host then hostDeny
  else if exactPortHit (denied p) host port then hostDeny
  else if MatchWild host (wildList (denied p)) || MatchWildPort host port (wildPortList (denied p)) then hostDeny
  else if exactHit (allowed p) host then hostAllow
  else if exactPortHit (allowed p) host port then hostAllow
  else if MatchWild host (wildList (allowed p)) || MatchWildPort host port (wildPortList (allowed p)) then hostAllow
  else if allowAll p then hostAllow
  else hostUnknown.

Definition methodAllowed (p : Policy) (method : string) : bool :=
  if decide (allowedMeth p = ∅) then true else bool_decide (ToUpper method ∈ allowedMeth p).

Definition AllowsLiteralIP (p : Policy) (host : string) (port : Z) : bool :=
  let host := CanonHost host in
  if exactHit (denied p) host then false
  else if exactPortHit (denied p) host port then false
  else if exactHit (allowed p) host then true
  else exactPortHit (allowed p) host port.

Definition ExceedsLiteralTrust (p : Policy) (entry : string) : bool :=
  let '(addr, _, port) := Classify entry in
  match ParseIP addr with
  | None => false
  | Some ip =>
      if negb (bool_decide (blockedKind ip = blockPrivate)) then false
      else if exactHit (allowed p) addr then false
      else if port =? 0 then true
      else negb (exactPortHit (allowed p) addr port)
  end.

Definition AuthoredPortFor (p : Policy) (host : string) (port : Z) : bool :=
  let host := CanonHost host in
  if exactHit (denied p) host then false
  else if exactPortHit (denied p) host port then false
  else if MatchWildPort host port (wildPortList (denied p)) then false
  else if exactPortHit (allowed p) host port then true
  else MatchWildPort host port (wildPortList (allowed p)).

(** ** Where a credential may be attached *)

Definition exactHostDenied (p : Policy) (host : string) : bool :=
  if exactHit (denied p) host then true else MatchWild host (wildList (denied p)).

Definition AllowedExactHost (p : Policy) (host : string) : bool :=
  let host := CanonHost host in
  if exactHostDenied p host then false
  else if exactHit (allowed p) host then true
  else containsFunc
         (fun port => negb (exactPortHit (denied p) host port) && negb (MatchWildPort host port (wildPortList (denied p))))
         (elements (default ∅ (allowedExactAnyPort p !! host))).

Definition AllowedBareExactHost (p : Policy) (host : string) : bool :=
  let host := CanonHost host in
  if exactHostDenied p host then false else exactHit (allowed p) (CanonHost host).

(** ** Entries that can never match *)

Definition ldh (c : ascii) : bool := is_lower c || is_digit c || Ascii.eqb c "-" || Ascii.eqb c ".".
Definition ldhHost (h : string) : bool := str_forall ldh h.

Definition deadCharsetEntry (exact wild : string) : bool :=
  if negb (String.eqb exact "") && negb (bool_decide (is_Some (ParseIP exact))) && negb (ldhHost exact) then true
  else negb (String.eqb wild "") && negb (ldhHost wild).

Definition hasURLByte (s : string) : bool := str_has "/" s || str_has " " s || str_has (ascii_of_nat 9) s.

(** [true] is an entry the matcher can match, [false] the refusal. *)
Definition ValidDomainEntry (d : string) : bool :=
  let '(exact, wild, _) := Classify d in
  if String.eqb exact "" && String.eqb wild "" then false
  else if str_has "*" exact || str_has "*" wild then false
  else if hasURLByte exact || hasURLByte wild then false
  else if HasPrefix exact "[" then false
  else if str_has ":" exact && negb (bool_decide (is_Some (ParseIP exact))) then false
  else if str_has ":" wild then false
  else negb (deadCharsetEntry exact wild).

(** ** The port rule *)

Definition PortRuleOff : string := "off".
Definition PortRuleDryRun : string := "dry_run".
Definition PortRuleOn : string := "on".

Definition ValidPortRule (s : string) : bool :=
  String.eqb s "" || String.eqb s PortRuleOff || String.eqb s PortRuleDryRun || String.eqb s PortRuleOn.

Definition effectivePortRule (vm : bool) (rule : string) : string :=
  if vm then PortRuleOn else if String.eqb rule "" then PortRuleOff else rule.

Definition portRuleRefuses (rule : string) (pol : Policy) (host : string) (port : Z) : bool :=
  if negb (String.eqb rule PortRuleOn) && negb (String.eqb rule PortRuleDryRun) then false
  else negb (port =? 80) && negb (port =? 443) && negb (AuthoredPortFor pol host port).

(** ** The evaluator interface and the gate *)

(** [EvaluateHost] may fail; the gate must treat a failure as a refusal. *)
Class Evaluator (E : Type) := {
  EvaluateHost : E -> Request -> option HostVerdict;
  EvMethodAllowed : E -> string -> bool;
}.

#[export] Instance builtinEvaluator : Evaluator Policy := {
  EvaluateHost p req := Some (match evalHost p (Host req) (RPort req) with
                              | hostDeny => VerdictDeny
                              | hostAllow => VerdictAllow
                              | hostUnknown => VerdictUnknown
                              end);
  EvMethodAllowed := methodAllowed;
}.

Definition ruleSourcePort : string := "policy:port".

(** The refusal's rule source, or the verdict and whether the dry run of the
    port rule would have refused. *)
Inductive connectGate :=
| GateRefused (refusal : string)
| GateOpen (verdict : HostVerdict) (portDryRun : bool).

Definition gateConnect {E} `{Evaluator E} (req : Request) (ev : E) (pol : Policy) (portRule : string) : connectGate :=
  match EvaluateHost ev req with
  | None => GateRefused "policy:evaluator-error"
  | Some VerdictDeny => GateRefused "policy:denied"
  | Some verdict =>
      let refuses := portRuleRefuses portRule pol (Host req) (RPort req) in
      if refuses && String.eqb portRule PortRuleOn then GateRefused ruleSourcePort
      else if negb (EvMethodAllowed ev (Method req)) then GateRefused "policy:method"
      else GateOpen verdict refuses
  end.

Inductive connectOutcome := connectRefuse | connectHold | connectAdmit.

Definition outcome (g : connectGate) (canAsk : bool) : connectOutcome :=
  match g with
  | GateRefused _ => connectRefuse
  | GateOpen VerdictAllow _ => connectAdmit
  | GateOpen VerdictUnknown _ => if canAsk then connectHold else connectRefuse
  | GateOpen VerdictDeny _ => connectRefuse
  end.
End Policy.

(** ** Whose refusal a row records *)

Record Refusal := mkRefusal { By : string; Reason : string }.
Definition RefusedByWardyn : string := "wardyn".

Definition wardynRefusalReasons : list (string * string) :=
  [("policy:denied", "policy_denied"); ("policy:default-deny", "default_deny"); ("policy:method", "method");
   ("policy:port", "port"); ("policy:require-tls", "require_tls"); ("policy:tool-deny", "tool_deny");
   ("approval:denied", "approval_denied"); ("builtin:private-ip", "private_address")].

Definition WardynRefusal (ruleSource : string) : option Refusal :=
  match findFirst (fun kv => String.eqb (fst kv) ruleSource) wardynRefusalReasons with
  | Some (_, reason) => Some (mkRefusal RefusedByWardyn reason)
  | None => if HasPrefix ruleSource "vmnet:" then Some (mkRefusal RefusedByWardyn "vmnet") else None
  end.

Definition PolicyDecided (r : option Refusal) : bool :=
  match r with
  | None => false
  | Some r =>
      if containsFunc (String.eqb (Reason r))
           ["policy_denied"; "default_deny"; "method"; "port"; "require_tls"; "tool_deny"; "approval_denied"]
      then String.eqb (By r) RefusedByWardyn else false
  end.

Definition IsNetworkFault (ruleSource : string) : bool :=
  String.eqb ruleSource "builtin:dial-failed" || String.eqb ruleSource "builtin:tunnel-failed".

(** ** Tool rules *)

Record HarnessToolRules := mkHarnessRules { Harness : string; HDefault : string; HRules : list ToolRule }.

Fixpoint ToolEffectForHarness (sets : list HarnessToolRules) (harness tool : string) : option string :=
  match sets with
  | [] => None
  | s :: sets' =>
      if negb (String.eqb (Harness s) harness) then ToolEffectForHarness sets' harness tool
      else match findFirst (fun r => String.eqb (Tool r) tool) (HRules s) with
           | Some r => Some (Effect r)
           | None => if String.eqb (HDefault s) "" then None else Some (HDefault s)
           end
  end.

Definition harnessToolKey (set : HarnessToolRules) (tool : string) : string :=
  if containsFunc (fun r => String.eqb (Tool r) tool) (HRules set)
  then Harness set ++ ":" ++ tool else Harness set ++ ":*".

Definition effectRank (e : string) : Z :=
  if String.eqb e ToolHold then 1 else if String.eqb e ToolDeny then 2 else 0.

(** The loop of [strictestToolEffect], from the first set on. *)
Fixpoint strictestLoop (all sets : list HarnessToolRules) (tool : string) (first : bool)
    (strictest matched : string) : string * string :=
  match sets with
  | [] => (strictest, matched)
  | s :: sets' =>
      let eff := default ToolHold (ToolEffectForHarness all (Harness s) tool) in
      if first || (effectRank eff >? effectRank strictest)
      then strictestLoop all sets' tool false eff (harnessToolKey s tool)
      else strictestLoop all sets' tool false strictest matched
  end.

Definition strictestToolEffect (sets : list HarnessToolRules) (tool : string) : option (string * string) :=
  let r := strictestLoop sets sets tool true ToolAllow "" in
  if nonempty sets then Some r else None.

(** The credentials the proxy issued, by the digest of the token; [digest] is the
    hex SHA-256 of the presented token. *)
Record harnessCred := mkCred { CHarness : string; SHA256 : string }.

Section Harness.
Context (digest : string -> string).

Definition harnessOf (creds : list harnessCred) (authorization : string) : string :=
  if negb (HasPrefix authorization "Bearer ") then ""
  else
    let tok := String.substring 7 (String.length authorization - 7) authorization in
    if String.eqb tok "" then ""
    else fold_left (fun name c => if String.eqb (digest tok) (SHA256 c) then CHarness c else name) creds "".

Definition toolEffect (p : Policy) (sets : list HarnessToolRules) (creds : list harnessCred)
    (authorization tool : string) : option (string * string) :=
  match sets with
  | [] =>
      match ToolEffectFor p tool with
      | None => None
      | Some eff => Some (eff, if bool_decide (is_Some (toolRules p !! tool)) then tool else "*")
      end
  | _ =>
      let harness := harnessOf creds authorization in
      if String.eqb harness "" then strictestToolEffect sets tool
      else match ToolEffectForHarness sets harness tool with
           | None => None
           | Some eff =>
               Some (eff, fold_left (fun m s => if String.eqb (Harness s) harness then harnessToolKey s tool else m) sets "")
           end
  end.

(** What the route does with a call: an immediate answer, or a human's. *)
Inductive toolAnswer := ToolApproved | ToolDenied | ToolAsk.

Definition decideByToolRules (p : Policy) (sets : list HarnessToolRules) (creds : list harnessCred)
    (authorization tool : string) : toolAnswer :=
  match toolEffect p sets creds authorization tool with
  | None => ToolAsk
  | Some (eff, _) =>
      if String.eqb eff ToolAllow then ToolApproved else if String.eqb eff ToolDeny then ToolDenied else ToolAsk
  end.
End Harness.

(** * Correctness of the compiled policy *)

Lemma Itoa_no_colon n : str_has ":" (Itoa n) = false.
Proof.
  destruct (Z_lt_le_dec n 0) as [H|H]; [|by apply Itoa_no_byte].
  destruct n as [|q|q]; try lia. change (Itoa (Z.neg q)) with ("-" +:+ Itoa (Z.pos q)).
  rewrite str_app_cons, str_has_cons. change (Ascii.eqb ":" "-") with false. by apply Itoa_no_byte.
Qed.

Lemma hostPortKey_inj h1 p1 h2 p2 : hostPortKey h1 p1 = hostPortKey h2 p2 -> h1 = h2 /\ p1 = p2.
Proof.
  unfold hostPortKey. intros H.
  assert (E : forall h p, cutLastByte ":" (h ++ ":" ++ Itoa p) = Some (h, Itoa p))
    by (intros; apply cutLastByte_app, Itoa_no_colon).
  pose proof (E h1 p1) as E1. rewrite H, E in E1. by injection E1 as -> ->%Itoa_inj.
Qed.

Section Refinement.
Context {U : GoUnicode}.

(** What the lists of a specification say of a canonical host and a port, in
    words: deny beats allow, and nothing else is allowed by default. *)
Definition specVerdict (spec : RunPolicySpec) (host : string) (port : Z) : hostDecision :=
  let h := CanonHost host in
  if anyEntryMatches (DeniedDomains spec) h port then hostDeny
  else if anyEntryMatches (AllowedDomains spec) h port || AllowAllEgress spec then hostAllow
  else hostUnknown.

Definition dsMatches (s : domainSet) (host : string) (port : Z) : bool :=
  exactHit s host || exactPortHit s host port || MatchWild host (wildList s) || MatchWildPort host port (wildPortList s).

Lemma containsFunc_snoc {A} (f : A -> bool) l x : containsFunc f (l ++ [x]) = containsFunc f l || f x.
Proof. unfold containsFunc. rewrite existsb_app. cbn. by rewrite orb_false_r. Qed.

Lemma elem_union_decide (x y : string) (X : gset string) :
  bool_decide (x ∈ {[y]} ∪ X) = String.eqb x y || bool_decide (x ∈ X).
Proof.
  destruct (String.eqb_spec x y) as [->|H]; [apply bool_decide_eq_true; set_solver|].
  apply bool_decide_ext. set_solver.
Qed.

Lemma hostPortKey_eqb h1 p1 h2 p2 :
  String.eqb (hostPortKey h1 p1) (hostPortKey h2 p2) = String.eqb h1 h2 && (p1 =? p2).
Proof.
  destruct (String.eqb_spec h1 h2) as [->|Hh], (Z.eqb_spec p1 p2) as [->|Hp]; cbn [andb];
    try apply String.eqb_refl; apply String.eqb_neq; intros [??]%hostPortKey_inj; done.
Qed.

Lemma addEntry_matches s d host port :
  dsMatches (addEntry s d) host port = dsMatches s host port || entryMatches d host port.
Proof.
  unfold addEntry, entryMatches. destruct s as [es ws eps wps].
  destruct (Classify d) as [[exact wild] p] eqn:E. apply Classify_port_range in E.
  assert (Hz : p = 0 \/ (p =? 0 = false /\ p >? 0 = true)) by (rewrite Z.gtb_lt, Z.eqb_neq; lia).
  destruct (String.eqb wild ""), (String.eqb exact ""); cbn [negb andb];
    destruct Hz as [-> | [Hz Hz']]; rewrite ?Hz, ?Hz'; cbn [orb andb Z.gtb Z.compare Z.eqb];
    unfold dsMatches, exactHit, exactPortHit, MatchWild, MatchWildPort;
    cbn [exactSet wildList exactPortSet wildPortList];
    rewrite ?containsFunc_snoc, ?elem_union_decide, ?hostPortKey_eqb; cbn [Port Suffix];
    rewrite ?andb_true_r, ?orb_false_r, ?andb_false_l, ?orb_false_r, ?(Z.eqb_sym port p);
    try rewrite (andb_comm (p =? port));
    repeat (match goal with |- context [bool_decide ?P] => destruct (bool_decide P) end; cbn [orb]; try reflexivity);
    rewrite ?orb_assoc; try reflexivity;
    repeat match goal with |- context [containsFunc ?f ?l] => destruct (containsFunc f l) end;
    rewrite ?orb_true_r, ?orb_false_r; reflexivity.
Qed.

Lemma fold_addEntry_matches ds s host port :
  dsMatches (fold_left addEntry ds s) host port = dsMatches s host port || anyEntryMatches ds host port.
Proof.
  revert s. induction ds as [|d ds IH]; intros s; cbn [fold_left]; [by rewrite orb_false_r|].
  rewrite IH, addEntry_matches. unfold anyEntryMatches. cbn [containsFunc existsb]. by rewrite orb_assoc.
Qed.

Lemma compileDomains_matches ds host port :
  dsMatches (compileDomains ds) host port = anyEntryMatches ds host port.
Proof. unfold compileDomains. by rewrite fold_addEntry_matches. Qed.

Lemma evalHost_dsMatches p host port :
  evalHost p host port =
    if dsMatches (denied p) (CanonHost host) port then hostDeny
    else if dsMatches (allowed p) (CanonHost host) port || allowAll p then hostAllow else hostUnknown.
Proof.
  unfold evalHost, dsMatches. cbv zeta.
  repeat match goal with
         | |- context [exactHit ?s ?h] => destruct (exactHit s h)
         | |- context [exactPortHit ?s ?h ?p] => destruct (exactPortHit s h p)
         | |- context [MatchWild ?h ?l] => destruct (MatchWild h l)
         | |- context [MatchWildPort ?h ?q ?l] => destruct (MatchWildPort h q l)
         | |- context [allowAll p] => destruct (allowAll p)
         end; reflexivity.
Qed.

Lemma evalHost_spec spec host port : evalHost (CompilePolicy spec) host port = specVerdict spec host port.
Proof.
  rewrite evalHost_dsMatches. unfold specVerdict. cbn [CompilePolicy denied allowed allowAll].
  by rewrite !compileDomains_matches.
Qed.

(** C3: the compiled policy decides every request exactly as the lists of the
    specification do: deny if any denied entry covers the canonical host and
    port, else allow if an allowed entry covers it or the run allows everything,
    else unknown. *)
Theorem evalHost_refines spec host port :
  evalHost (CompilePolicy spec) host port = specVerdict spec host port.
Proof. apply evalHost_spec. Qed.

(** ** What each compiled lookup says of the entries *)

Lemma fold_left_elem {A B} (f : B -> A -> B) (Q : B -> Prop) (R : A -> Prop) :
  (forall b a, Q (f b a) <-> Q b \/ R a) ->
  forall l b, Q (fold_left f l b) <-> Q b \/ exists a, a ∈ l /\ R a.
Proof.
  intros Hf l. induction l as [|a l IH]; intros b; cbn [fold_left].
  - split; [by left | intros [?|(? & H & _)]; [done | by apply not_elem_of_nil in H]].
  - rewrite IH, Hf. setoid_rewrite elem_of_cons. naive_solver.
Qed.

Definition isExact (d host : string) (port : Z) : Prop := Classify d = (host, "", port) /\ host <> "".
Definition isWild (d suffix : string) (port : Z) : Prop := exists e, Classify d = (e, suffix, port) /\ suffix <> "".

(** Case analysis on how an entry reads, with its port bare or qualified. *)
Ltac entry_cases d :=
  let E := fresh "E" in
  destruct (Classify d) as [[exact wild] p] eqn:E;
  pose proof (Classify_port_range _ _ _ _ E);
  destruct (Classify_disjoint _ _ _ _ E) as [-> | ->];
  rewrite ?String.eqb_refl; cbn [negb andb];
  try (destruct (String.eqb_spec wild "") as [->|?]); try (destruct (String.eqb_spec exact "") as [->|?]);
  cbn [negb andb]; try (destruct (Z.gtb_spec p 0) as [?|?]); cbn [andb].

Lemma exactHit_compile ds host : exactHit (compileDomains ds) host = true <-> exists d, d ∈ ds /\ isExact d host 0.
Proof.
  unfold exactHit, compileDomains. rewrite bool_decide_eq_true.
  rewrite (fold_left_elem addEntry (fun s => host ∈ exactSet s) (fun d => isExact d host 0)).
  - split; [intros [H|H]; [by apply elem_of_empty in H | done] | by right].
  - intros [es ws eps wps] d. unfold addEntry, isExact. cbn [exactSet].
    entry_cases d; cbn [exactSet]; rewrite ?elem_of_union, ?elem_of_singleton; try (assert (p = 0) as -> by lia);
      split; intros; destruct_and?; destruct_or?; destruct_and?; simplify_eq; auto; try lia; try (by right); try done.
Qed.

Lemma exactPortHit_compile ds host port :
  exactPortHit (compileDomains ds) host port = true <-> 0 < port /\ exists d, d ∈ ds /\ isExact d host port.
Proof.
  unfold exactPortHit, compileDomains. rewrite bool_decide_eq_true.
  rewrite (fold_left_elem addEntry (fun s => hostPortKey host port ∈ exactPortSet s)
             (fun d => 0 < port /\ isExact d host port)).
  - split; [intros [H|(d & ? & ? & ?)]; [by apply elem_of_empty in H | eauto] | intros (? & d & ? & ?); right; eauto].
  - intros [es ws eps wps] d. unfold addEntry, isExact. cbn [exactPortSet].
    entry_cases d; cbn [exactPortSet]; rewrite ?elem_of_union, ?elem_of_singleton;
      split; intros; destruct_and?; destruct_or?; destruct_and?; simplify_eq; auto; try lia; try done.
    match goal with H : hostPortKey _ _ = _ |- _ => apply hostPortKey_inj in H as [-> ->] end. right. split; [lia | done].
Qed.

Lemma anyPort_compile spec host port :
  port ∈ default ∅ (allowedExactAnyPort (CompilePolicy spec) !! host) <->
  0 < port /\ exists d, d ∈ AllowedDomains spec /\ isExact d host port.
Proof.
  cbn [CompilePolicy allowedExactAnyPort].
  rewrite (fold_left_elem addAnyPort (fun m => port ∈ default ∅ (m !! host)) (fun d => 0 < port /\ isExact d host port)).
  - rewrite lookup_empty. cbn [default].
    split; [intros [H|(d & ? & ? & ?)]; [by apply elem_of_empty in H | eauto] | intros (? & d & ? & ?); right; eauto].
  - intros m d. unfold addAnyPort, isExact.
    entry_cases d; try (split; intros; destruct_and?; destruct_or?; destruct_and?; simplify_eq; auto; try lia; done).
    destruct (decide (exact = host)) as [->|Hne].
    + rewrite lookup_insert_eq. cbn [default from_option id]. rewrite elem_of_union, elem_of_singleton.
      split; intros; destruct_and?; destruct_or?; destruct_and?; simplify_eq; auto.
    + rewrite lookup_insert_ne by done.
      split; intros; destruct_and?; destruct_or?; destruct_and?; simplify_eq; auto; try done.
Qed.

Lemma MatchWildPort_compile ds host port :
  MatchWildPort host port (wildPortList (compileDomains ds)) = true <->
  0 < port /\ exists d w, d ∈ ds /\ isWild d w port /\ HasSuffix host w = true.
Proof.
  unfold compileDomains.
  rewrite (fold_left_elem addEntry (fun s => MatchWildPort host port (wildPortList s) = true)
             (fun d => 0 < port /\ exists w, isWild d w port /\ HasSuffix host w = true)).
  - cbn [wildPortList emptyDomainSet]. unfold MatchWildPort. cbn. naive_solver.
  - intros [es ws eps wps] d. unfold addEntry, isWild. cbn [wildPortList].
    entry_cases d; cbn [wildPortList]; unfold MatchWildPort; rewrite ?containsFunc_snoc, ?orb_true_iff; cbn [Port Suffix];
      rewrite ?andb_true_iff, ?Z.eqb_eq;
      split; intros; destruct_and?; destruct_or?; destruct_and?; simplify_eq; try naive_solver lia.
Qed.

Lemma MatchWild_compile ds host :
  MatchWild host (wildList (compileDomains ds)) = true <->
  exists d w, d ∈ ds /\ isWild d w 0 /\ HasSuffix host w = true.
Proof.
  unfold compileDomains.
  rewrite (fold_left_elem addEntry (fun s => MatchWild host (wildList s) = true)
             (fun d => exists w, isWild d w 0 /\ HasSuffix host w = true)).
  - cbn [wildList emptyDomainSet]. unfold MatchWild. cbn. naive_solver.
  - intros [es ws eps wps] d. unfold addEntry, isWild. cbn [wildList].
    entry_cases d; cbn [wildList]; unfold MatchWild; rewrite ?containsFunc_snoc, ?orb_true_iff;
      try (assert (p = 0) as -> by lia);
      split; intros; destruct_and?; destruct_or?; destruct_and?; simplify_eq; try naive_solver lia.
Qed.
End Refinement.

Section PolicyTheorems.
Context {U : GoUnicode}.

Lemma dsMatches_false s host port :
  exactHit s host = false -> exactPortHit s host port = false -> MatchWild host (wildList s) = false ->
  MatchWildPort host port (wildPortList s) = false -> dsMatches s host port = false.
Proof. unfold dsMatches. by intros -> -> -> ->. Qed.

(** No denied entry is qualified with this port. *)
Definition noPortDeny (spec : RunPolicySpec) (port : Z) : Prop :=
  forall d e w q, d ∈ DeniedDomains spec -> Classify d = (e, w, q) -> q <> port.

Lemma noPortDeny_hits spec host port :
  noPortDeny spec port ->
  exactPortHit (compileDomains (DeniedDomains spec)) host port = false /\
  MatchWildPort host port (wildPortList (compileDomains (DeniedDomains spec))) = false.
Proof.
  intros Hn. split.
  - apply not_true_is_false. intros (_ & d & Hd & E & _)%exactPortHit_compile. by eapply Hn.
  - apply not_true_is_false. intros (_ & d & w & Hd & (e & E & _) & _)%MatchWildPort_compile. by eapply Hn.
Qed.

(** A credential binds only to a host that an exact allowlist entry names
    and that the policy lets the sandbox reach: on the entry's own port if it is
    qualified, otherwise on every port no denied entry is qualified with. A
    wildcard, an approval or allow-all never binds one. *)
Theorem credential_host_is_reachable spec host :
  AllowedExactHost (CompilePolicy spec) host = true ->
  exists d port, d ∈ AllowedDomains spec /\ isExact d (CanonHost host) port /\
    (port <> 0 -> evalHost (CompilePolicy spec) host port = hostAllow) /\
    (port = 0 -> forall q, noPortDeny spec q -> evalHost (CompilePolicy spec) host q = hostAllow).
Proof.
  unfold AllowedExactHost, exactHostDenied. cbn [denied allowed CompilePolicy]. intros H.
  destruct (exactHit (compileDomains (DeniedDomains spec)) (CanonHost host)) eqn:D1; [done|].
  destruct (MatchWild _ _) eqn:D2; [done|].
  destruct (exactHit (compileDomains (AllowedDomains spec)) (CanonHost host)) eqn:A1.
  - apply exactHit_compile in A1 as Hd. destruct Hd as (d & Hd & He). exists d, 0. split_and!; [done | done | done |].
    intros _ q Hq. destruct (noPortDeny_hits spec (CanonHost host) q Hq). rewrite evalHost_dsMatches.
    cbn [denied allowed allowAll CompilePolicy]. rewrite dsMatches_false by done. unfold dsMatches. by rewrite A1.
  - apply containsFunc_true in H as (port & Hp & [D3%negb_true_iff D4%negb_true_iff]%andb_true_iff).
    apply elem_of_elements, anyPort_compile in Hp as (Hpos & d & Hd & He). exists d, port.
    split_and!; [done | done | | lia]. intros _. rewrite evalHost_dsMatches.
    cbn [denied allowed allowAll CompilePolicy]. rewrite dsMatches_false by done.
    assert (A2 : exactPortHit (compileDomains (AllowedDomains spec)) (CanonHost host) port = true)
      by (apply exactPortHit_compile; eauto).
    unfold dsMatches. by rewrite A2, orb_true_r.
Qed.

Lemma addMethods_elem ms m :
  m ∈ fold_left addMethod ms (∅ : gset string) <-> exists x, x ∈ ms /\ ToUpper (TrimSpace x) = m /\ m <> "".
Proof.
  rewrite (fold_left_elem addMethod (fun s => m ∈ s) (fun x => ToUpper (TrimSpace x) = m /\ m <> "")).
  - set_solver.
  - intros s x. unfold addMethod. destruct (String.eqb_spec (ToUpper (TrimSpace x)) ""); set_solver.
Qed.

(** The method restriction, on the list: blank entries restrict nothing. *)
Definition specMethod (ms : list string) (method : string) : bool :=
  let live := filter (fun m => ToUpper (TrimSpace m) <> "") ms in
  negb (nonempty live) || containsFunc (fun m => String.eqb (ToUpper (TrimSpace m)) (ToUpper method)) live.

Lemma methodAllowed_spec spec method : methodAllowed (CompilePolicy spec) method = specMethod (AllowedMethods spec) method.
Proof.
  unfold methodAllowed, specMethod. cbn [allowedMeth CompilePolicy].
  set (ms := AllowedMethods spec). set (live := filter (fun m => ToUpper (TrimSpace m) <> "") ms).
  assert (Hl : forall m, m ∈ live <-> m ∈ ms /\ ToUpper (TrimSpace m) <> "").
  { intros m. unfold live. rewrite list_elem_of_filter. naive_solver. }
  destruct (decide _) as [He|He].
  - assert (live = []) as ->; [|done]. apply elem_of_nil_inv. intros m Hm%Hl.
    assert (Hx : ToUpper (TrimSpace m) ∈ fold_left addMethod ms (∅ : gset string))
      by (apply addMethods_elem; exists m; naive_solver). rewrite He in Hx. set_solver.
  - assert (nonempty live = true) as ->.
    { apply set_choose_L in He as [m Hm]. apply addMethods_elem in Hm as (x & Hx & <- & Hne).
      assert (Hin : x ∈ live) by (by apply Hl). by destruct live; [apply not_elem_of_nil in Hin|]. }
    cbn [negb orb]. apply eq_true_iff_eq. rewrite bool_decide_eq_true, containsFunc_true, addMethods_elem.
    setoid_rewrite Hl. setoid_rewrite String.eqb_eq.
    split; [intros (x & Hx & E & Hne); exists x; rewrite E | intros (x & [Hx Hne] & E); exists x; rewrite <- E]; done.
Qed.

(** On the configuration alone a CONNECT is admitted exactly when the lists
    allow the host, the method passes, and, where the port rule is on, the port is
    a web port or one an entry names. *)
Theorem connect_admits_iff spec req portRule canAsk :
  outcome (gateConnect req (CompilePolicy spec) (CompilePolicy spec) portRule) canAsk = connectAdmit <->
  specVerdict spec (Host req) (RPort req) = hostAllow /\
  specMethod (AllowedMethods spec) (Method req) = true /\
  (portRule = PortRuleOn ->
   RPort req = 80 \/ RPort req = 443 \/ AuthoredPortFor (CompilePolicy spec) (Host req) (RPort req) = true).
Proof.
  unfold gateConnect. cbn [EvaluateHost EvMethodAllowed builtinEvaluator]. rewrite evalHost_spec, methodAllowed_spec.
  unfold portRuleRefuses. destruct (String.eqb_spec portRule PortRuleOn) as [->|Hr]; cbn [negb andb].
  - destruct (specVerdict spec (Host req) (RPort req)); cbn [outcome]; try naive_solver;
      destruct (Z.eqb_spec (RPort req) 80), (Z.eqb_spec (RPort req) 443),
        (AuthoredPortFor (CompilePolicy spec) (Host req) (RPort req)), (specMethod (AllowedMethods spec) (Method req));
      cbn [negb andb outcome]; destruct canAsk; cbn [outcome]; naive_solver.
  - rewrite andb_false_r.
    destruct (specVerdict spec (Host req) (RPort req)), (specMethod (AllowedMethods spec) (Method req));
      cbn [negb outcome]; destruct canAsk; cbn [outcome]; naive_solver.
Qed.

(** C39: whatever engine sits behind the interface, the gate fails closed: it
    opens only on a verdict the engine gave that is not a deny, with the method
    passed and the port rule satisfied; an engine error is a refusal. *)
Theorem gate_fails_closed {E} `{Evaluator E} (req : Request) (ev : E) pol portRule v dry :
  gateConnect req ev pol portRule = GateOpen v dry ->
  EvaluateHost ev req = Some v /\ v <> VerdictDeny /\ EvMethodAllowed ev (Method req) = true /\
  (portRule = PortRuleOn -> portRuleRefuses portRule pol (Host req) (RPort req) = false) /\
  dry = portRuleRefuses portRule pol (Host req) (RPort req).
Proof.
  unfold gateConnect. destruct (EvaluateHost ev req) as [[]|]; try done;
    (destruct (String.eqb_spec portRule PortRuleOn) as [->|Hr]; rewrite ?andb_false_r, ?andb_true_r);
    repeat (break_match; try done); intros [= <- <-]; bool_prop; subst; split_and!; done.
Qed.

End PolicyTheorems.

(** ** Witnesses *)

Definition sampleSpec : RunPolicySpec :=
  mkSpec ["api.example.com"; "*.svc.example.com:8443"; "git.example.com:443"] ["evil.svc.example.com"] false "" 0 0
    ["GET"; "connect "] "" [] 0 [] [] None [] None [mkToolRule "Bash" "hold"; mkToolRule "*" "allow"] false None [] []
    None None "".
Definition samplePolicy : Policy := @CompilePolicy asciiTables sampleSpec.

Example sample_verdicts :
  @evalHost asciiTables samplePolicy "API.example.com." 8080 = hostAllow /\
  @evalHost asciiTables samplePolicy "a.svc.example.com" 8443 = hostAllow /\
  @evalHost asciiTables samplePolicy "a.svc.example.com" 443 = hostUnknown /\
  @evalHost asciiTables samplePolicy "evil.svc.example.com" 8443 = hostDeny /\
  @methodAllowed asciiTables samplePolicy "CONNECT" = true /\ @methodAllowed asciiTables samplePolicy "POST" = false.
Proof. by vm_compute. Qed.

Lemma credential_host_is_reachable_witness :
  @AllowedExactHost asciiTables samplePolicy "git.example.com" = true /\
  exists d port, d ∈ AllowedDomains sampleSpec /\
    @isExact asciiTables d (@CanonHost asciiTables "git.example.com") port.
Proof.
  assert (E : @AllowedExactHost asciiTables samplePolicy "git.example.com" = true) by (vm_compute; reflexivity).
  split; [exact E|].
  destruct (@credential_host_is_reachable asciiTables sampleSpec "git.example.com" E) as (d & p & H1 & H2 & _).
  exists d, p. split; [exact H1 | exact H2].
Defined.

Lemma gate_fails_closed_witness :
  let req := mkReq "api.example.com" 443 "GET" "/" in
  @EvaluateHost _ (@builtinEvaluator asciiTables) samplePolicy req = Some VerdictAllow.
Proof.
  assert (E : @gateConnect asciiTables _ (@builtinEvaluator asciiTables) (mkReq "api.example.com" 443 "GET" "/")
                samplePolicy samplePolicy PortRuleOn = GateOpen VerdictAllow false) by (vm_compute; reflexivity).
  exact (proj1 (@gate_fails_closed asciiTables _ (@builtinEvaluator asciiTables) _ _ _ _ _ _ E)).
Defined.

(** * Entries the matcher can match *)

Lemma str_forall_ascii_ldh s : ldhHost s = true -> str_forall is_ascii s = true /\ str_map lower_byte s = s.
Proof.
  unfold ldhHost. induction s as [|c s IH]; [done|]. cbn [str_forall str_map].
  intros [Hc Hs]%andb_true_iff. destruct (IH Hs) as [H1 H2]. rewrite H1, H2.
  assert (Ha : is_ascii c = true /\ lower_byte c = c).
  { revert Hc. clear. destruct c as [[] [] [] [] [] [] [] []]; vm_compute; intros; done. }
  destruct Ha as [-> ->]. done.
Qed.

Definition endsDot (s : string) : bool := HasSuffix s ".".

Lemma endsDot_cons c s : s <> "" -> endsDot (String c s) = endsDot s.
Proof.
  intros Hs. unfold endsDot. cbn [HasSuffix]. destruct (String.eqb_spec (String c s) ".") as [E|]; [|done].
  injection E as -> ->. done.
Qed.

Lemma TrimRightDots_endsDot s : endsDot (TrimRightDots s) = false.
Proof.
  unfold TrimRightDots. induction s as [|c s IH]; [done|]. cbn [trimRightFunc].
  destruct (trimRightFunc (Ascii.eqb ".") s) as [|c' t] eqn:E; [|by rewrite endsDot_cons].
  destruct (Ascii.eqb "." c) eqn:Ec; [done|]. unfold endsDot. cbn [HasSuffix].
  destruct (String.eqb_spec (String c "") ".") as [[= ->]|]; [by rewrite Ascii.eqb_refl in Ec | done].
Qed.

Lemma TrimRightDots_id s : endsDot s = false -> TrimRightDots s = s.
Proof.
  unfold TrimRightDots. induction s as [|c s IH]; [done|]. intros H. cbn [trimRightFunc].
  destruct s as [|c' s].
  - cbn. destruct (Ascii.eqb_spec "." c) as [<-|]; done.
  - rewrite endsDot_cons in H by done. by rewrite IH.
Qed.

Lemma TrimSuffixDot_id s : endsDot s = false -> TrimSuffixDot s = s.
Proof.
  induction s as [|c s IH]; [done|]. intros H. destruct s as [|c' s].
  - destruct c as [[] [] [] [] [] [] [] []]; try done.
  - rewrite endsDot_cons in H by done.
    transitivity (String c (TrimSuffixDot (String c' s))); [|by rewrite IH].
    destruct c as [[] [] [] [] [] [] [] []]; done.
Qed.

Section LiveEntries.
Context {U : GoUnicode}.

Lemma splitEntryPort_endsDot d h p : endsDot d = false -> splitEntryPort d = (h, p) -> endsDot h = false.
Proof.
  unfold splitEntryPort. intros Hd H. repeat (break_match; simplify_eq); try done. apply TrimRightDots_endsDot.
Qed.

Lemma Classify_wild_endsDot d e w p : Classify d = (e, w, p) -> w <> "" -> endsDot w = false.
Proof.
  unfold Classify. destruct (String.eqb _ ""); [by intros [= <- <- <-]|].
  destruct (splitEntryPort _) as [h n] eqn:E. apply splitEntryPort_endsDot in E; [|apply TrimRightDots_endsDot].
  intros H Hw. repeat (break_match; simplify_eq). by rewrite endsDot_cons in E.
Qed.

Lemma CanonHost_ldh h : ldhHost h = true -> endsDot h = false -> ParseIP h = None -> CanonHost h = h.
Proof.
  intros Hl Hd Hip. unfold CanonHost, ToLower. destruct (str_forall_ascii_ldh h Hl) as [-> ->].
  rewrite TrimSuffixDot_id by done. by rewrite Hip.
Qed.

Lemma Classify_exact_shape d e w p :
  Classify d = (e, w, p) -> e <> "" -> exists h, e = CanonHost h /\ endsDot h = false /\ w = "".
Proof.
  unfold Classify. destruct (String.eqb _ ""); [by intros [= <- <- <-]|].
  destruct (splitEntryPort _) as [h n] eqn:E. apply splitEntryPort_endsDot in E; [|apply TrimRightDots_endsDot].
  intros H Hw. repeat (break_match; simplify_eq); eauto.
Qed.

(** A host a request can name: a DNS name in lower-case LDH spelling, or an
    address. *)
Definition wireHost (h : string) : Prop := ldhHost h = true \/ is_Some (ParseIP (TrimSuffixDot (ToLower h))).

Lemma wild_ldh_host w : ldhHost w = true -> endsDot w = false -> (exists r, w = String "." r) ->
  CanonHost (String "x" w) = String "x" w.
Proof.
  intros Hl Hd [r ->]. apply CanonHost_ldh; [by cbn | by rewrite endsDot_cons | ].
  unfold ParseIP, ParseAddr. cbn [addrKind]. unfold parseIPv4. cbn [splitByte].
  destruct (splitByte "." r) as [|a [|b [|c [|? ?]]]]; reflexivity.
Qed.

Lemma CanonHost_live h :
  endsDot h = false -> is_Some (ParseIP (CanonHost h)) \/ ldhHost (CanonHost h) = true ->
  exists host, wireHost host /\ CanonHost host = CanonHost h.
Proof.
  intros Hd H. destruct (ParseIP (TrimSuffixDot (ToLower h))) as [ip|] eqn:Ep.
  { exists h. split; [right; by rewrite Ep | done]. }
  assert (Ec : CanonHost h = ToLower h).
  { unfold CanonHost. rewrite Ep. apply TrimSuffixDot_id. unfold endsDot. by rewrite ToLower_dot. }
  assert (Hd' : endsDot (ToLower h) = false) by (unfold endsDot; by rewrite ToLower_dot).
  rewrite TrimSuffixDot_id in Ep by done. rewrite Ec in *. destruct H as [[? H]|H]; [congruence|].
  exists (ToLower h). split; [by left | by apply CanonHost_ldh].
Qed.

(** An entry the write-time check accepts is live: there is a host a request
    can carry, and a port, that the compiled entry matches. *)
Theorem valid_entry_is_live d :
  ValidDomainEntry d = true ->
  exists host port, wireHost host /\ 0 < port <= 65535 /\ entryMatches d (CanonHost host) port = true.
Proof.
  unfold ValidDomainEntry, entryMatches. destruct (Classify d) as [[e w] p] eqn:E. intros H.
  pose proof (Classify_port_range _ _ _ _ E) as Hp.
  assert (Hport : exists port, 0 < port <= 65535 /\ ((p =? 0) || (p =? port)) = true).
  { destruct (Z.eqb_spec p 0) as [->|]; [by exists 443 | exists p; rewrite Z.eqb_refl; split; [lia | done]]. }
  destruct Hport as (port & Hr & Hm). unfold deadCharsetEntry in H.
  destruct (String.eqb_spec w "") as [->|Hw].
  - destruct (String.eqb_spec e "") as [->|He]; [done|].
    destruct (Classify_exact_shape _ _ _ _ E He) as (h & -> & Hd & _).
    cbn [negb andb orb] in H. rewrite !orb_false_r in H. repeat (case_match; [done|]).
    destruct (CanonHost_live h Hd) as (host & Hw & Hc).
    { destruct (bool_decide (is_Some (ParseIP (CanonHost h)))) eqn:Ep; [left; by apply bool_decide_eq_true in Ep|].
      right. cbn [negb andb] in *. by destruct (ldhHost (CanonHost h)). }
    exists host, port. by rewrite Hc, String.eqb_refl, Hm.
  - cbn [negb andb orb] in H. rewrite !andb_false_r in H. repeat (case_match; [done|]).
    pose proof (Classify_wild_endsDot _ _ _ _ E Hw) as Hd. pose proof (Classify_wild_dot _ _ _ _ E Hw) as Hdot.
    assert (Hl : ldhHost w = true) by (by destruct (ldhHost w)).
    exists (String "x" w), port. rewrite wild_ldh_host, Hm by done.
    split_and!; [left; exact Hl | lia | lia |]. cbn [negb]. rewrite andb_true_r. apply HasSuffix_spec. by exists "x".
Qed.
End LiveEntries.

Lemma valid_entry_is_live_witness :
  @ValidDomainEntry asciiTables "*.Example.com:8443" = true /\
  exists host port, @wireHost asciiTables host /\ 0 < port <= 65535 /\
    @entryMatches asciiTables "*.Example.com:8443" (@CanonHost asciiTables host) port = true.
Proof.
  assert (E : @ValidDomainEntry asciiTables "*.Example.com:8443" = true) by (vm_compute; reflexivity).
  split; [exact E | exact (@valid_entry_is_live asciiTables "*.Example.com:8443" E)].
Defined.

(** * Refusals and tool rules *)

(** Every refusal the gate gives from the policy is attributed to the policy
    and is never counted as a network fault; an engine failure is attributed to
    no one's policy. *)
Theorem gate_refusal_attribution `{U : GoUnicode} {E} `{Evaluator E} (req : Request) (ev : E) pol portRule src :
  gateConnect req ev pol portRule = GateRefused src ->
  IsNetworkFault src = false /\
  (EvaluateHost ev req <> None -> PolicyDecided (WardynRefusal src) = true) /\
  (EvaluateHost ev req = None -> WardynRefusal src = None).
Proof.
  unfold gateConnect. intros Hg. destruct (EvaluateHost ev req) as [[]|]; repeat (break_match; try done);
    simplify_eq; split_and!; done.
Qed.

Lemma gate_refusal_attribution_witness :
  PolicyDecided (WardynRefusal "policy:method") = true.
Proof.
  assert (E : @gateConnect asciiTables _ (@builtinEvaluator asciiTables) (mkReq "api.example.com" 443 "POST" "/")
                samplePolicy samplePolicy PortRuleOff = GateRefused "policy:method") by (vm_compute; reflexivity).
  apply (proj1 (proj2 (@gate_refusal_attribution asciiTables _ (@builtinEvaluator asciiTables) _ _ _ _ _ E))).
  vm_compute. discriminate.
Defined.

Definition harnessEffect (sets : list HarnessToolRules) (s : HarnessToolRules) (tool : string) : string :=
  default ToolHold (ToolEffectForHarness sets (Harness s) tool).

Lemma strictestLoop_max all sets tool first st m :
  let r := strictestLoop all sets tool first st m in
  (first = false -> effectRank st <= effectRank (fst r)) /\
  (forall s, s ∈ sets -> effectRank (harnessEffect all s tool) <= effectRank (fst r)) /\
  (fst r = st \/ exists s, s ∈ sets /\ fst r = harnessEffect all s tool).
Proof.
  cbv zeta. revert first st m. induction sets as [|s sets IH]; intros first st m; cbn [strictestLoop].
  - split_and!; [done | intros s Hs; by apply not_elem_of_nil in Hs | by left].
  - fold (harnessEffect all s tool). destruct (first || _) eqn:E.
    + destruct (IH false (harnessEffect all s tool) (harnessToolKey s tool)) as (H1 & H2 & H3). split_and!.
      * intros ->. cbn in E. apply Z.gtb_lt in E. specialize (H1 eq_refl). lia.
      * intros t [->|Ht]%elem_of_cons; [auto | by apply H2].
      * right. destruct H3 as [->|(t & Ht & ->)]; [exists s | exists t]; (split; [set_solver | done]).
    + destruct (IH false st m) as (H1 & H2 & H3). apply orb_false_elim in E as [-> E].
      rewrite Z.gtb_ltb in E. apply Z.ltb_ge in E. specialize (H1 eq_refl). split_and!; [done | |].
      * intros t [->|Ht]%elem_of_cons; [lia | by apply H2].
      * destruct H3 as [->|(t & Ht & ->)]; [by left | right; exists t; split; [set_solver | done]].
Qed.

Lemma effectRank_deny e : 2 <= effectRank e <-> e = ToolDeny.
Proof.
  unfold effectRank. destruct (String.eqb_spec e ToolHold) as [->|]; [by vm_compute|].
  destruct (String.eqb_spec e ToolDeny); split; intros; try done; lia.
Qed.

(** Under per-harness rules, a call that presents no credential the proxy
    issued is decided by the strictest set: a deny any harness carries denies it,
    and it is approved without a human only if no harness denies or holds the
    tool. *)
Theorem unnamed_call_gets_strictest digest p sets creds auth tool :
  sets <> [] -> harnessOf digest creds auth = "" ->
  ((exists s, s ∈ sets /\ harnessEffect sets s tool = ToolDeny) ->
   decideByToolRules digest p sets creds auth tool = ToolDenied) /\
  (decideByToolRules digest p sets creds auth tool = ToolApproved ->
   forall s, s ∈ sets -> harnessEffect sets s tool <> ToolDeny /\ harnessEffect sets s tool <> ToolHold).
Proof.
  intros Hne Hh. unfold decideByToolRules, toolEffect. destruct sets as [|s0 sets0] eqn:Es; [done|].
  rewrite <- Es in *. rewrite Hh. change (String.eqb "" "") with true. cbn match.
  unfold strictestToolEffect. assert (nonempty sets = true) as -> by (by rewrite Es).
  pose proof (strictestLoop_max sets sets tool true ToolAllow "") as (_ & Hmax & _).
  destruct (strictestLoop sets sets tool true ToolAllow "") as [eff key]. cbn [fst] in Hmax. split.
  - intros (s & Hs & Hd). specialize (Hmax s Hs). rewrite Hd in Hmax.
    assert (eff = ToolDeny) as -> by (apply effectRank_deny; exact Hmax). done.
  - destruct (String.eqb_spec eff ToolAllow) as [->|]; [|by destruct (String.eqb eff ToolDeny)].
    intros _ s Hs. specialize (Hmax s Hs). change (effectRank ToolAllow) with 0 in Hmax.
    split; intros Hx; rewrite Hx in Hmax; by vm_compute in Hmax.
Qed.

Definition sampleSets : list HarnessToolRules :=
  [mkHarnessRules "claude" "allow" []; mkHarnessRules "codex" "allow" [mkToolRule "Bash" "deny"]].

Lemma unnamed_call_gets_strictest_witness :
  decideByToolRules id samplePolicy sampleSets [] "" "Bash" = ToolDenied.
Proof.
  apply (unnamed_call_gets_strictest id samplePolicy sampleSets [] "" "Bash");
    [discriminate | reflexivity |].
  exists (mkHarnessRules "codex" "allow" [mkToolRule "Bash" "deny"]). split; [right; left | reflexivity].
Defined.

(** The last rule that names a tool, as a map built in order keeps it. *)
Fixpoint lastRule (rs : list ToolRule) (tool : string) : option string :=
  match rs with
  | [] => None
  | r :: rs' => match lastRule rs' tool with
                | Some e => Some e
                | None => if String.eqb (Tool r) tool then Some (Effect r) else None
                end
  end.

Lemma toolRules_lookup rs (m : gmap string string) tool :
  fold_left (fun m r => <[Tool r := Effect r]> m) rs m !! tool =
  match lastRule rs tool with Some e => Some e | None => m !! tool end.
Proof.
  revert m. induction rs as [|r rs IH]; intros m; [done|]. cbn [fold_left lastRule]. rewrite IH.
  destruct (lastRule rs tool); [done|]. destruct (String.eqb_spec (Tool r) tool) as [->|Hne];
    [by rewrite lookup_insert_eq | by rewrite lookup_insert_ne].
Qed.

(** A compiled run answers a tool call by the rule that names the tool, then
    by the default rule, and has no opinion without either. *)
Theorem tool_effect_match_order `{U : GoUnicode} spec tool :
  ToolEffectFor (CompilePolicy spec) tool =
  match lastRule (ToolRules spec) tool with
  | Some e => Some e
  | None => lastRule (ToolRules spec) "*"
  end.
Proof.
  unfold ToolEffectFor. cbn [toolRules CompilePolicy]. rewrite !toolRules_lookup, !lookup_empty.
  destruct (lastRule (ToolRules spec) tool); [done|]. by destruct (lastRule (ToolRules spec) "*").
Qed.
