(* ===== verification/EgressTarget.v ===== *)
(** * The dial target of a forward request

    [internal/egress/proxy]: the literal-address guard of step 0
    ([literal_ip_guard.go]), the hard deny of a cluster runner ([hard_deny.go]),
    the resolving guard [vetHostLift]/[VetHost] ([policy.go]), and the one
    decision every forward call shares, [egressTarget] with the upstream bypass,
    the operator's literal trust, the internal-host lift and the clamp on the
    proxy's own networks ([egress_target.go]).

    The resolver is a service: an argument of every definition that resolves. The
    proxy's configuration is the record [Proxy], with the fields these functions
    read. *)
From S2P Require Import Prelude GoStrings NetIP IPGuard DomainMatch PolicyTypes EgressPolicy.
Local Open Scope string_scope.
Local Open Scope Z_scope.

(** A lookup's error text, or its answers. *)
Definition resolver : Type := string -> string + list IP.

(** ** State *)

Record hardDeny := mkHardDeny {
  hdSuffixes : list string; hdNames : gset string; hdIPs : list Addr; hdCIDRs : list Prefix;
}.

Record HardDenyConfig := mkHardDenyConfig { Suffixes : list string; Hosts : list string; CIDRs : list string }.

Record internalHostRule := mkInternalHostRule { ihSuffix : string; ihCIDRs : list Prefix }.
Record InternalHost := mkInternalHost { HostSuffix : string; HostCIDRs : list string }.

(** One bypass entry: a network, or a host suffix. *)
Inductive noProxyRule := NoProxyCIDR (n : Prefix) | NoProxySuffix (s : string).

Record localModel := mkLocalModel { lmHost : string; lmPort : Z; relayed : bool }.

Record Proxy := mkProxy {
  policy : Policy; hardDenySet : option hardDeny; res : resolver; upstream : bool;
  noProxy : list noProxyRule; internalHosts : list internalHostRule;
  exclusionUnknown : bool; controlPlaneIPs : list IP; localSubnets : list Prefix;
  localModels : list localModel;
}.

Record IPGuardResult := mkGuard {
  GIP : option IP; Denied : bool; GReason : string; gkind : blockKind; blocked : option IP;
  Lifted : bool; Unresolved : bool;
}.

Definition deniedWith (reason : string) (k : blockKind) (b : option IP) : IPGuardResult :=
  mkGuard None true reason k b false false.
Definition unresolvedWith (reason : string) : IPGuardResult := mkGuard None true reason blockNone None false true.
Definition admitted (ip : IP) (lifted : bool) : IPGuardResult := mkGuard (Some ip) false "" blockNone None lifted false.

Section Target.
Context {U : GoUnicode}.

Definition dotTrim (h : string) : string := TrimSuffixDot (ToLower h).
Definition spaceDotTrim (h : string) : string := TrimSuffixDot (ToLower (TrimSpace h)).

(** Label suffix: the host itself or a name beneath it. *)
Definition underSuffix (host suffix : string) : bool := String.eqb host suffix || HasSuffix host ("." ++ suffix).

(** ** The hard deny *)

Definition normalizeHost (h : string) : string := TrimRightDots (ToLower (TrimSpace h)).

Fixpoint hdAddSuffixes (ss : list string) : option (list string) :=
  match ss with
  | [] => Some []
  | s :: ss' => let s := normalizeHost s in
                if String.eqb s "" then None
                else match hdAddSuffixes ss' with Some r => Some (s :: r) | None => None end
  end.

(** A zoned literal is kept by the code as an address no request address equals. *)
Fixpoint hdAddHosts (ss : list string) (names : gset string) (ips : list Addr) : option (gset string * list Addr) :=
  match ss with
  | [] => Some (names, ips)
  | s :: ss' =>
      let s := normalizeHost s in
      if String.eqb s "" then None
      else match ParseAddr (TrimBrackets s) with
           | Some (a, "") => hdAddHosts ss' names ((ips ++ [Unmap a])%list)
           | Some (a, _) => hdAddHosts ss' names ips
           | None => hdAddHosts ss' ({[s]} ∪ names) ips
           end
  end.

Fixpoint hdAddCIDRs (ss : list string) : option (list Prefix) :=
  match ss with
  | [] => Some []
  | s :: ss' =>
      match ParsePrefix (TrimSpace s), hdAddCIDRs ss' with
      | Some p, Some r => Some (mkPrefix (maskAddr (pfx_addr p) (pfx_bits p)) (pfx_bits p) :: r)
      | _, _ => None
      end
  end.

(** [None] is the boot error; a configuration with nothing in it is no check. *)
Definition compileHardDeny (c : option HardDenyConfig) : option (option hardDeny) :=
  match c with
  | None => Some None
  | Some (mkHardDenyConfig [] [] []) => Some None
  | Some c =>
      match hdAddSuffixes (Suffixes c), hdAddHosts (Hosts c) ∅ [], hdAddCIDRs (CIDRs c) with
      | Some ss, Some (ns, ips), Some ps => Some (Some (mkHardDeny ss ns ips ps))
      | _, _, _ => None
      end
  end.

Definition hdIP (h : hardDeny) (ip : IP) : bool :=
  match AddrFromSlice ip with
  | None => true
  | Some a => let a := Unmap a in
              containsFunc (fun d => bool_decide (d = a)) (hdIPs h) || containsFunc (fun p => Contains p a) (hdCIDRs h)
  end.

Definition hdName (h : hardDeny) (host : string) : bool :=
  let host := normalizeHost host in
  match ParseIP (TrimBrackets host) with
  | Some ip => hdIP h ip
  | None => bool_decide (host ∈ hdNames h) || containsFunc (underSuffix host) (hdSuffixes h)
  end.

(** A runner without a deny set denies nothing. *)
Definition hardDeniedIP (p : Proxy) (ip : IP) : bool := match hardDenySet p with Some h => hdIP h ip | None => false end.
Definition hardDeniedName (p : Proxy) (host : string) : bool :=
  match hardDenySet p with Some h => hdName h host | None => false end.

Definition hardDenyReason : string := "an in-cluster name or address on this runner".

(** The resolver the guard then uses, or the refusal. *)
Definition hardDenyVet (p : Proxy) (host : string) : resolver + IPGuardResult :=
  match hardDenySet p with
  | None => inl (res p)
  | Some h =>
      if hdName h host then inr (deniedWith hardDenyReason blockHardDeny None)
      else
        let name := normalizeHost host in
        match ParseIP (TrimBrackets name) with
        | Some _ => inl (res p)
        | None =>
            match res p name with
            | inl err => inr (unresolvedWith ("resolve failed: " ++ err))
            | inr [] => inr (unresolvedWith "no addresses")
            | inr ips =>
                match findFirst (hdIP h) ips with
                | Some ip => inr (deniedWith ("blocked address " ++ IPString ip ++ ": an in-cluster address on this runner")
                                    blockHardDeny None)
                | None => inl (fun _ => inr ips)
                end
            end
        end
  end.

(** ** The resolving guard *)

(** What [admitIP] says of one address: admitted (and whether by the lift), or why
    not. *)
Definition admitIP (lift : IP -> bool) (ip : IP) : bool + (string * blockKind) :=
  let '(kind, why) := isBlockedIP ip in
  if bool_decide (kind = blockNone) then inl false
  else if bool_decide (kind = blockPrivate) && lift ip then inl true
  else inr (why, kind).

(** Every answer must be admissible; the first that is not refuses the host. *)
Fixpoint vetAnswers (lift : IP -> bool) (first : IP) (ips : list IP) (anyLifted : bool) : IPGuardResult :=
  match ips with
  | [] => admitted first anyLifted
  | ip :: ips' =>
      match admitIP lift ip with
      | inl lifted => vetAnswers lift first ips' (anyLifted || lifted)
      | inr (why, kind) => deniedWith ("blocked address " ++ IPString ip ++ ": " ++ why) kind (Some ip)
      end
  end.

Definition vetHostLift (host : string) (r : resolver) (lift : IP -> bool) : IPGuardResult :=
  let host := dotTrim host in
  if String.eqb host "" then deniedWith "empty host" blockNone None
  else match ParseIP host with
       | Some ip =>
           match admitIP lift ip with
           | inl lifted => admitted ip lifted
           | inr (why, kind) => deniedWith why kind None
           end
       | None =>
           match r host with
           | inl err => unresolvedWith ("resolve failed: " ++ err)
           | inr [] => unresolvedWith "no addresses"
           | inr (ip :: ips) => vetAnswers lift ip (ip :: ips) false
           end
       end.

Definition VetHost (host : string) (r : resolver) : IPGuardResult := vetHostLift host r (fun _ => false).

(** ** The clamp and the lift *)

Definition onOwnSubnetOrControlPlane (p : Proxy) (ip : IP) : bool :=
  exclusionUnknown p || containsFunc (fun cp => IPEqual cp ip) (controlPlaneIPs p)
  || containsFunc (fun n => NetContains n ip) (localSubnets p).

Definition clampKind (p : Proxy) : blockKind := if exclusionUnknown p then blockExclusionUnknown else blockOwnNetwork.

Fixpoint liftRules (rules : list internalHostRule) (host : string) (ip : IP) : bool :=
  match rules with
  | [] => false
  | r :: rules' =>
      if negb (underSuffix host (ihSuffix r)) then liftRules rules' host ip
      else match ihCIDRs r with
           | [] => true
           | cs => if containsFunc (fun c => NetContains c ip) cs then true else liftRules rules' host ip
           end
  end.

Definition liftInternalHost (p : Proxy) (host : string) (ip : IP) : bool :=
  if onOwnSubnetOrControlPlane p ip then false else liftRules (internalHosts p) host ip.

Definition vetLift (p : Proxy) (host : string) (ip : IP) : bool :=
  if onOwnSubnetOrControlPlane p ip then false else liftInternalHost p (spaceDotTrim host) ip.

(** Whether the clamp was what refused: the address the guard stopped at is a
    private one on the proxy's own networks. *)
Definition clamped (p : Proxy) (host : string) (r : resolver) : bool :=
  let consulted (ip : IP) := bool_decide (blockedKind ip = blockPrivate) && onOwnSubnetOrControlPlane p ip in
  if String.eqb (dotTrim host) "" then false
  else match ParseIP (dotTrim host) with
  | Some ip => consulted ip
  | None => match r (dotTrim host) with
            | inl _ => false
            | inr ips => match findFirst (fun ip => match admitIP (vetLift p host) ip with inl _ => false | inr _ => true end) ips with
                         | Some ip => consulted ip
                         | None => false
                         end
            end
  end.

Definition vetHost (p : Proxy) (host : string) : IPGuardResult :=
  match hardDenyVet p host with
  | inr refused => refused
  | inl r =>
      let guard := vetHostLift host r (vetLift p host) in
      if Denied guard && clamped p host r
      then mkGuard (GIP guard) true (GReason guard) (clampKind p) (blocked guard) (Lifted guard) (Unresolved guard)
      else guard
  end.

(** ** Literal addresses *)

Definition trustsExactLiteralIP (p : Proxy) (ip : IP) (port : Z) : bool :=
  bool_decide (blockedKind ip = blockPrivate) && negb (onOwnSubnetOrControlPlane p ip)
  && AllowsLiteralIP (policy p) (IPString ip) port.

Definition digitIn (base : Z) (c : ascii) : option Z :=
  match hex_val c with Some d => if d <? base then Some d else None | None => None end.

Fixpoint uintOf (base acc : Z) (s : string) : option Z :=
  match s with
  | EmptyString => if acc <? 2 ^ 32 then Some acc else None
  | String c r => match digitIn base c with Some d => uintOf base (acc * base + d) r | None => None end
  end.

Definition inetAtonPart (s : string) : option Z :=
  let '(base, s) := match s with
                    | String "0" (String "x" r) => (16, r)
                    | String "0" (String c r) => (8, String c r)
                    | _ => (10, s)
                    end in
  if String.eqb s "" then None else uintOf base 0 s.

Fixpoint inetAtonParts (ps : list string) : option (list Z) :=
  match ps with
  | [] => Some []
  | p :: ps' => match inetAtonPart p, inetAtonParts ps' with Some v, Some vs => Some (v :: vs) | _, _ => None end
  end.

(** The leading parts, one byte each from the top. *)
Fixpoint leadBytes (vs : list Z) (shift : Z) : option Z :=
  match vs with
  | [] => Some 0
  | v :: vs' => if v >? 255 then None
                else match leadBytes vs' (shift - 8) with Some r => Some (Z.lor (Z.shiftl v shift) r) | None => None end
  end.

Definition nonCanonicalIPv4 (host : string) : option IP :=
  let h := spaceDotTrim host in
  if String.eqb h "" || bool_decide (is_Some (ParseIP h)) then None
  else
    let parts := splitByte "." h in
    if (4 <? Z.of_nat (length parts)) then None
    else match inetAtonParts parts with
         | None => None
         | Some vals =>
             let n := Z.of_nat (length vals) in
             match last vals with
             | None => None
             | Some lst =>
                 if lst >=? Z.shiftl 1 (8 * (5 - n)) then None
                 else match leadBytes (removelast vals) 24 with
                      | None => None
                      | Some a => Some (IP16 (As16 (A4 (Z.lor a lst))))
                      end
             end
         end.

(** The first "%25" of a URI authority read as the zone's "%". *)
Fixpoint unescapeZone (s : string) : string :=
  match s with
  | String "%" (String "2" (String "5" r)) => String "%" r
  | String c r => String c (unescapeZone r)
  | EmptyString => EmptyString
  end.

Definition zonedIPv6Literal (host : string) : option IP :=
  let h := spaceDotTrim host in
  if String.eqb h "" || bool_decide (is_Some (ParseIP h)) then None
  else match ParseAddr (unescapeZone h) with
       | Some (a, String _ _) => Some (match a with A4 x => IP4 x | A6 x => IP16 x end)
       | _ => None
       end.

Definition nonCanonicalLiteralIP (host : string) : option IP :=
  match nonCanonicalIPv4 host with Some ip => Some ip | None => zonedIPv6Literal host end.

(** Step 0: [inr tt] is the denial, [inl (Some ip)] the literal the operator
    typed. *)
Definition literalIPGuard (p : Proxy) (host : string) (port : Z) : option IP + unit :=
  match ParseIP (dotTrim host) with
  | Some ip =>
      if hardDeniedIP p ip then inr tt
      else if negb (bool_decide (blockedKind ip = blockNone)) then
             if negb (trustsExactLiteralIP p ip port) then inr tt else inl (Some ip)
           else inl None
  | None =>
      match nonCanonicalLiteralIP host with
      | Some ip => if negb (bool_decide (blockedKind ip = blockNone)) then inr tt else inl None
      | None => inl None
      end
  end.

(** ** The upstream bypass *)

Definition normalizeNoProxyEntry (raw : string) : string := TrimPrefixDot (spaceDotTrim raw).

Definition lowerAlnum (c : ascii) : bool := is_lower c || is_digit c.

Fixpoint lastByte (s : string) : option ascii :=
  match s with
  | EmptyString => None
  | String c EmptyString => Some c
  | String _ r => lastByte r
  end.

(** The entry's charset: alphanumeric at both ends, at most 253 bytes, and only
    dots and dashes besides. *)
Definition noProxyHostRE (s : string) : bool :=
  match s with
  | EmptyString => false
  | String c _ =>
      lowerAlnum c && match lastByte s with Some l => lowerAlnum l | None => false end
      && str_forall (fun c => lowerAlnum c || Ascii.eqb c "." || Ascii.eqb c "-") s
      && (Z.of_nat (String.length s) <=? 253)
  end.

Definition ValidNoProxyEntry (raw : string) : bool :=
  let e := normalizeNoProxyEntry raw in
  if String.eqb e "" then false
  else match ParseCIDR e with Some _ => true | None => noProxyHostRE e end.

Fixpoint compileNoProxy (entries : list string) : list noProxyRule :=
  match entries with
  | [] => []
  | raw :: entries' =>
      if negb (ValidNoProxyEntry raw) then compileNoProxy entries'
      else let e := normalizeNoProxyEntry raw in
           match ParseCIDR e with
           | Some n => NoProxyCIDR n :: compileNoProxy entries'
           | None => NoProxySuffix e :: compileNoProxy entries'
           end
  end.

Definition noProxyRulesCoverHost (rules : list noProxyRule) (host : string) : bool :=
  let h := spaceDotTrim host in
  if String.eqb h "" then false
  else containsFunc
         (fun r => match r with
                   | NoProxyCIDR n => match ParseIP h with Some ip => NetContains n ip | None => false end
                   | NoProxySuffix s => underSuffix h s
                   end) rules.

Definition bypassUpstream (p : Proxy) (host : string) : bool :=
  if negb (nonempty (noProxy p)) then false else noProxyRulesCoverHost (noProxy p) host.

(** ** The target *)

(** What the transport dials: the vetted address, or a name the upstream proxy
    resolves. *)
Inductive dialTarget := DialIP (ip : IP) (port : Z) | DialName (host : string) (port : Z).

Definition targetString (t : dialTarget) : string :=
  match t with
  | DialIP ip port => JoinHostPort (IPString ip) (Itoa port)
  | DialName host port => JoinHostPort host (Itoa port)
  end.

Inductive targetResult :=
| Target (t : dialTarget) (ruleSource : string)
| HostBlocked (kind : blockKind) (hint : string)
| HostUnresolved.

Definition ruleSourceInternalHost : string := "site-config:internal-host".
Definition ruleSourceEgressRedirect : string := "site-config:egress-redirect".

Definition internalHostsLiftHint (host : string) (block : Prefix) : string :=
  "an operator may lift this guard for " ++ host ++ " with site_config.internal_hosts, scoped to " ++ PrefixString block.

Definition liftHint (p : Proxy) (host : string) (guard : IPGuardResult) : string :=
  let name := spaceDotTrim host in
  match blocked guard with
  | None => ""
  | Some b =>
      if negb (bool_decide (gkind guard = blockPrivate)) || bool_decide (is_Some (ParseIP name))
         || onOwnSubnetOrControlPlane p b then ""
      else match AddrFromSlice b with
           | None => ""
           | Some addr => match findFirst (fun block => Contains block (Unmap addr)) Liftable with
                          | Some block => internalHostsLiftHint name block
                          | None => ""
                          end
           end
  end.

Definition egressTarget (p : Proxy) (host : string) (port : Z) : targetResult :=
  if hardDeniedName p host then HostBlocked blockHardDeny ""
  else
    let literal := match ParseIP (dotTrim host) with
                   | Some ip => if trustsExactLiteralIP p ip port then Some ip else None
                   | None => None
                   end in
    match literal with
    | Some ip => Target (DialIP ip port) ruleSourceEgressRedirect
    | None =>
        let guard := vetHost p host in
        let lifted := if Lifted guard then ruleSourceInternalHost else "" in
        let blockedBy := HostBlocked (gkind guard) (liftHint p host guard) in
        if upstream p && negb (bypassUpstream p host) then
          let forward := if Denied guard && negb (Unresolved guard) then blockedBy
                         else Target (DialName host port) lifted in
          match nonCanonicalLiteralIP host with
          | Some ip => if negb (bool_decide (blockedKind ip = blockNone)) then HostBlocked (blockedKind ip) "" else forward
          | None => forward
          end
        else if Denied guard then
               if Unresolved guard then HostUnresolved else blockedBy
             else match GIP guard with
                  | Some ip => Target (DialIP ip port) lifted
                  | None => HostUnresolved
                  end
    end.

(** ** The configured model gateway *)

Definition onControlPlane (p : Proxy) (ip : IP) : bool :=
  exclusionUnknown p || containsFunc (IPEqual ip) (controlPlaneIPs p).

(** The first host address of one of the proxy's own subnets. *)
Definition firstHost (n : Prefix) : Addr :=
  match maskAddr (pfx_addr n) (pfx_bits n) with A4 x => A4 (x + 1) | A6 x => A6 (x + 1) end.

Definition ownSubnetGateway (p : Proxy) (ip : IP) : bool :=
  if exclusionUnknown p then false
  else match AddrFromSlice ip with
       | None => false
       | Some a => containsFunc (fun n => bool_decide (firstHost n = Unmap a)) (localSubnets p)
       end.

Definition localModelAt (p : Proxy) (host : string) (port : Z) : option localModel :=
  findFirst (fun m => String.eqb (lmHost m) host && (lmPort m =? port)) (localModels p).

Definition gatewayRefused (p : Proxy) (lm : option localModel) (ip : IP) : bool :=
  match lm with
  | Some m =>
      if relayed m && negb (exclusionUnknown p) && containsFunc (IPEqual ip) (controlPlaneIPs p) then GatewayIPRefused ip
      else if ownSubnetGateway p ip && negb (onControlPlane p ip) then GatewayIPRefused ip
      else GatewayIPRefused ip || onOwnSubnetOrControlPlane p ip
  | None => GatewayIPRefused ip || onOwnSubnetOrControlPlane p ip
  end.

(** [None] is the refusal of the operator's own gateway. *)
Definition vetTrustedHost (p : Proxy) (host : string) (port : Z) : option dialTarget :=
  let h := dotTrim host in
  let lm := localModelAt p h port in
  match ParseIP h with
  | Some ip => if gatewayRefused p lm ip then None else Some (DialIP ip port)
  | None =>
      match res p h with
      | inl _ => None
      | inr [] => None
      | inr (ip :: ips) =>
          if containsFunc (gatewayRefused p lm) (ip :: ips) then None else Some (DialIP ip port)
      end
  end.

Definition gatewayTarget (p : Proxy) (host : string) (port : Z) : option dialTarget :=
  if upstream p && negb (bypassUpstream p host) then Some (DialName host port) else vetTrustedHost p host port.

(** ** Compiling the declared internal hosts *)

Fixpoint parseInternalHostCIDRs (raw : list string) : option (list Prefix) :=
  match raw with
  | [] => Some []
  | c :: raw' => match ParseCIDR c, parseInternalHostCIDRs raw' with Some n, Some r => Some (n :: r) | _, _ => None end
  end.

Fixpoint compileInternalHosts (hosts : list InternalHost) : list internalHostRule :=
  match hosts with
  | [] => []
  | h :: hosts' =>
      let suffix := spaceDotTrim (HostSuffix h) in
      if String.eqb suffix "" then compileInternalHosts hosts'
      else match parseInternalHostCIDRs (HostCIDRs h) with
           | None => compileInternalHosts hosts'
           | Some cs => mkInternalHostRule suffix cs :: compileInternalHosts hosts'
           end
  end.
End Target.

(** * What may be dialled *)

Section TargetTheorems.
Context {U : GoUnicode}.

(** An address the guard lets through: public, or private and lifted. *)
Definition admissible (lift : IP -> bool) (ip : IP) : Prop :=
  blockedKind ip = blockNone \/ (blockedKind ip = blockPrivate /\ lift ip = true).

Lemma admit_inl lift ip l :
  admitIP lift ip = inl l -> admissible lift ip /\ (l = true -> blockedKind ip = blockPrivate).
Proof.
  unfold admitIP, admissible, blockedKind. destruct (isBlockedIP ip) as [k why]. cbn [fst].
  repeat case_bool_decide; cbn [andb]; try (destruct (lift ip)); intros [= <-]; (split; [auto | done]).
Qed.

Lemma admit_inr lift ip w k : admitIP lift ip = inr (w, k) -> ~ admissible lift ip.
Proof.
  unfold admitIP, admissible, blockedKind. destruct (isBlockedIP ip) as [k' why]. cbn [fst].
  repeat case_bool_decide; cbn [andb]; try (destruct (lift ip)); intros [= <- <-]; naive_solver.
Qed.

Lemma vetAnswers_spec lift first ips b :
  let g := vetAnswers lift first ips b in
  (Denied g = false -> GIP g = Some first /\ forall ip, ip ∈ ips -> admissible lift ip) /\
  (Denied g = true -> Unresolved g = false /\ exists ip, ip ∈ ips /\ ~ admissible lift ip).
Proof.
  cbv zeta. revert b. induction ips as [|a ips IH]; intros b; cbn [vetAnswers].
  - split; [|done]. intros _. split; [done|]. intros ip Hip. by apply not_elem_of_nil in Hip.
  - destruct (admitIP lift a) as [l|[w k]] eqn:E.
    + apply admit_inl in E as [Ha _]. destruct (IH (b || l)) as [H1 H2]. split.
      * intros Hd. destruct (H1 Hd) as [Hg Hall]. split; [done|]. intros ip [->|Hip]%elem_of_cons; auto.
      * intros Hd. destruct (H2 Hd) as (Hu & ip & Hip & Hn). split; [done|]. exists ip. split; [by right | done].
    + apply admit_inr in E. split; [done|]. intros _. split; [done|]. exists a. split; [by left | done].
Qed.

(** The answers the guard judges for a host: the literal itself, or what the
    resolver gives. *)
Definition answersOf (host : string) (r : resolver) : list IP :=
  match ParseIP (dotTrim host) with
  | Some ip => [ip]
  | None => match r (dotTrim host) with inl _ => [] | inr ips => ips end
  end.

Lemma vetHostLift_spec host r lift :
  let g := vetHostLift host r lift in
  Denied g = false ->
  exists ip, GIP g = Some ip /\ ip ∈ answersOf host r /\ forall a, a ∈ answersOf host r -> admissible lift a.
Proof.
  cbv zeta. unfold vetHostLift, answersOf. destruct (String.eqb (dotTrim host) ""); [done|].
  destruct (ParseIP (dotTrim host)) as [ip|].
  - destruct (admitIP lift ip) as [l|[w k]] eqn:E; [|done]. intros _. exists ip. apply admit_inl in E as [Ha _].
    split_and!; [done | by left |]. intros a [->|Ha']%elem_of_cons; [done | by apply not_elem_of_nil in Ha'].
  - destruct (r (dotTrim host)) as [e|[|ip ips]]; [done..|]. intros Hd.
    destruct (vetAnswers_spec lift ip (ip :: ips) false) as [H1 _]. destruct (H1 Hd) as [Hg Hall].
    exists ip. split_and!; [done | by left | done].
Qed.

Lemma vetHostLift_bad_answer host r lift a :
  a ∈ answersOf host r -> ~ admissible lift a -> Denied (vetHostLift host r lift) = true /\ Unresolved (vetHostLift host r lift) = false.
Proof.
  intros Ha Hn. destruct (Denied (vetHostLift host r lift)) eqn:Ed.
  - split; [done|]. revert Ha Ed. unfold vetHostLift, answersOf. destruct (String.eqb (dotTrim host) ""); [done|].
    destruct (ParseIP (dotTrim host)) as [ip|]; [by destruct (admitIP lift ip) as [|[]]|].
    destruct (r (dotTrim host)) as [e|[|ip ips]]; [intros H; by apply not_elem_of_nil in H..|].
    intros _ Ed. by apply (vetAnswers_spec lift ip (ip :: ips) false).
  - destruct (vetHostLift_spec host r lift Ed) as (_ & _ & _ & H). by apply H in Ha.
Qed.

(** Why a private address was let through: no clamp, and a declared entry whose
    suffix covers the host and whose networks, if any, hold the address. *)
Definition declaredFor (p : Proxy) (host : string) (ip : IP) : Prop :=
  onOwnSubnetOrControlPlane p ip = false /\
  exists r, r ∈ internalHosts p /\ underSuffix (spaceDotTrim host) (ihSuffix r) = true /\
    (ihCIDRs r = [] \/ exists c, c ∈ ihCIDRs r /\ NetContains c ip = true).

Lemma liftRules_spec rules host ip :
  liftRules rules host ip = true <->
  exists r, r ∈ rules /\ underSuffix host (ihSuffix r) = true /\
    (ihCIDRs r = [] \/ exists c, c ∈ ihCIDRs r /\ NetContains c ip = true).
Proof.
  induction rules as [|r rules IH]; cbn [liftRules].
  { split; [done | intros (r & Hr & _); by apply not_elem_of_nil in Hr]. }
  setoid_rewrite elem_of_cons. destruct (underSuffix host (ihSuffix r)) eqn:Eu; cbn [negb].
  - destruct (ihCIDRs r) as [|c cs] eqn:Ec; [split; [intros _; exists r; auto | done]|].
    rewrite <- Ec. destruct (containsFunc _ _) eqn:Ef.
    + split; [intros _; exists r; split_and!; auto; right; by apply containsFunc_true in Ef | done].
    + rewrite IH. split.
      * intros (r' & Hr & H). exists r'. auto.
      * intros (r' & [->|Hr] & Hu & H); [|eauto]. exfalso. destruct H as [H|(c' & Hc & Hn)]; [congruence|].
        by rewrite (proj1 (containsFunc_false _ _) Ef c' Hc) in Hn.
  - rewrite IH. split; [intros (r' & Hr & H); exists r'; auto|].
    intros (r' & [->|Hr] & Hu & H); [congruence | eauto].
Qed.

Lemma vetLift_declared p host ip : vetLift p host ip = true <-> declaredFor p host ip.
Proof.
  unfold vetLift, liftInternalHost, declaredFor. rewrite <- liftRules_spec.
  destruct (onOwnSubnetOrControlPlane p ip); naive_solver.
Qed.

(** The resolver the guard runs on: the proxy's own, or the one lookup the hard
    deny already judged. *)
Lemma hardDenyVet_spec p host r :
  hardDenyVet p host = inl r ->
  match hardDenySet p with
  | None => r = res p
  | Some h =>
      hdName h host = false /\
      match ParseIP (TrimBrackets (normalizeHost host)) with
      | Some _ => r = res p
      | None => exists ips, res p (normalizeHost host) = inr ips /\ (forall n, r n = inr ips) /\
                  forall ip, ip ∈ ips -> hdIP h ip = false
      end
  end.
Proof.
  unfold hardDenyVet. destruct (hardDenySet p) as [h|]; [|by intros [= <-]].
  destruct (hdName h host); [done|]. destruct (ParseIP _); [by intros [= <-]|].
  destruct (res p (normalizeHost host)) as [e|[|ip ips]]; [done..|].
  destruct (findFirst (hdIP h) (ip :: ips)) eqn:Ef; [done|]. intros [= <-].
  split; [done|]. exists (ip :: ips). split_and!; [done | done |]. by apply findFirst_None.
Qed.

Lemma vetHost_admitted p host :
  Denied (vetHost p host) = false ->
  exists r ip, hardDenyVet p host = inl r /\ GIP (vetHost p host) = Some ip /\ ip ∈ answersOf host r /\
    forall a, a ∈ answersOf host r -> admissible (vetLift p host) a.
Proof.
  unfold vetHost. destruct (hardDenyVet p host) as [r|refused] eqn:Eh.
  - destruct (Denied (vetHostLift host r (vetLift p host))) eqn:Ed; cbn [andb].
    + destruct (clamped p host r); cbn [Denied]; congruence.
    + intros _. destruct (vetHostLift_spec host r (vetLift p host) Ed) as (ip & H1 & H2 & H3).
      by exists r, ip.
  - intros Hd. exfalso. revert Eh Hd. unfold hardDenyVet.
    repeat (break_match; try done); intros [= <-]; done.
Qed.

Lemma egressTarget_DialIP p host port ip port' rs :
  egressTarget p host port = Target (DialIP ip port') rs ->
  port' = port /\ hardDeniedName p host = false /\
  ((ParseIP (dotTrim host) = Some ip /\ trustsExactLiteralIP p ip port = true /\ rs = ruleSourceEgressRedirect) \/
   (Denied (vetHost p host) = false /\ GIP (vetHost p host) = Some ip /\ (upstream p && negb (bypassUpstream p host) = false))).
Proof.
  unfold egressTarget. destruct (hardDeniedName p host); [done|].
  destruct (ParseIP (dotTrim host)) as [lit|] eqn:El; [destruct (trustsExactLiteralIP p lit port) eqn:Et|].
  - intros [= <- <- <-]. split_and!; auto.
  - repeat (break_match; try done); intros [= <- <- <-]; auto 10.
  - repeat (break_match; try done); intros [= <- <- <-]; auto 10.
Qed.

Lemma egressTarget_safe p host port ip port' rs :
  egressTarget p host port = Target (DialIP ip port') rs ->
  port' = port /\
  (blockedKind ip = blockNone \/
   (blockedKind ip = blockPrivate /\ onOwnSubnetOrControlPlane p ip = false /\
    ((ParseIP (dotTrim host) = Some ip /\ AllowsLiteralIP (policy p) (IPString ip) port = true) \/
     declaredFor p host ip))).
Proof.
  intros (-> & _ & [(Hl & Ht & _) | (Hd & Hg & _)])%egressTarget_DialIP; (split; [done|]).
  - right. unfold trustsExactLiteralIP in Ht. apply andb_true_iff in Ht as [[Hk Hc]%andb_true_iff Ha].
    apply bool_decide_eq_true in Hk. apply negb_true_iff in Hc. auto.
  - destruct (vetHost_admitted p host Hd) as (r & a & _ & Hg' & Ha & Hall).
    assert (a = ip) as -> by congruence. destruct (Hall ip Ha) as [?|[Hk Hl]]; [by left | right].
    apply vetLift_declared in Hl. split_and!; [done | apply Hl | by right].
Qed.

(** C4: whatever policy, approvals or resolver say, an address this proxy dials
    is a public one, or a private one (RFC 1918, ULA, CGNAT) off the proxy's own
    networks that the operator typed as an exact allowlist entry for that very
    literal, or declared under internal_hosts for that host. Loopback, link-local,
    metadata, multicast and embedded addresses are never dialled. *)
Theorem dialled_address_is_safe p host port ip port' rs :
  egressTarget p host port = Target (DialIP ip port') rs ->
  port' = port /\
  (blockedKind ip = blockNone \/
   (blockedKind ip = blockPrivate /\ onOwnSubnetOrControlPlane p ip = false /\
    ((ParseIP (dotTrim host) = Some ip /\ AllowsLiteralIP (policy p) (IPString ip) port = true) \/
     declaredFor p host ip))).
Proof. apply egressTarget_safe. Qed.

(** One inadmissible answer refuses the host: with a direct dial, if any
    address the name resolves to is neither public nor declared, no address of
    it is dialled, however many public ones it also resolves to. *)
Theorem rebinding_mix_is_refused p host port ips a :
  upstream p = false -> hardDenySet p = None -> ParseIP (dotTrim host) = None -> dotTrim host <> "" ->
  res p (dotTrim host) = inr ips -> a ∈ ips ->
  ~ (blockedKind a = blockNone \/ (blockedKind a = blockPrivate /\ declaredFor p host a)) ->
  exists k hint, egressTarget p host port = HostBlocked k hint.
Proof.
  intros Hup Hhd Hip Hne Hres Ha Hn.
  assert (Hv : hardDenyVet p host = inl (res p)) by (unfold hardDenyVet; by rewrite Hhd).
  assert (Hans : answersOf host (res p) = ips) by (unfold answersOf; by rewrite Hip, Hres).
  destruct (vetHostLift_bad_answer host (res p) (vetLift p host) a) as [Hd Hu].
  { by rewrite Hans. }
  { unfold admissible. by rewrite vetLift_declared. }
  unfold egressTarget, hardDeniedName. rewrite Hhd, Hip, Hup. cbn [andb]. unfold vetHost. rewrite Hv, Hd, Hu. cbn [andb].
  destruct (clamped p host (res p)); cbn [Denied Unresolved]; rewrite ?Hd, ?Hu; eauto.
Qed.

(** The deny set and the guard read the host as the same literal, or both as a
    name. *)
Definition sameReading (host : string) : Prop :=
  ParseIP (TrimBrackets (normalizeHost host)) = ParseIP (dotTrim host).

(** A host as a request line or a URL carries it: ASCII, no white space, no
    square brackets, at most one trailing dot. *)
Definition plainSpelling (host : string) : bool :=
  str_forall (fun c => is_ascii c && negb (is_space c) && negb (Ascii.eqb c "[" || Ascii.eqb c "]")) host &&
  negb (endsDot (dotTrim host)).

Lemma TrimRightDots_suffix s : TrimRightDots (TrimSuffixDot s) = TrimRightDots s.
Proof.
  unfold TrimRightDots. induction s as [|c s IH]; [done|]. destruct s as [|c' s].
  - by destruct c as [[] [] [] [] [] [] [] []].
  - transitivity (trimRightFunc (Ascii.eqb ".") (String c (TrimSuffixDot (String c' s)))).
    + by destruct c as [[] [] [] [] [] [] [] []].
    + change (trimRightFunc (Ascii.eqb ".") (String c (String c' s)))
        with (match trimRightFunc (Ascii.eqb ".") (String c' s) with
              | "" => if Ascii.eqb "." c then "" else String c ""
              | r => String c r
              end). rewrite <- IH. done.
Qed.

Lemma str_forall_suffixDot f s : str_forall f s = true -> str_forall f (TrimSuffixDot s) = true.
Proof.
  induction s as [|c s IH]; [done|]. intros H. pose proof H as [Hc Hs]%andb_prop.
  destruct (decide (String c s = ".")) as [->|Hne]; [done|].
  assert (E : TrimSuffixDot (String c s) = String c (TrimSuffixDot s)).
  { destruct s; [|by destruct c as [[] [] [] [] [] [] [] []]]. by destruct c as [[] [] [] [] [] [] [] []]. }
  rewrite E. cbn [str_forall]. by rewrite Hc, IH.
Qed.

(** A host in plain spelling is read one way. *)
Lemma plainSpelling_same host : plainSpelling host = true -> sameReading host.
Proof.
  unfold plainSpelling, sameReading. intros [Hb He%negb_true_iff]%andb_prop.
  assert (Ha : str_forall is_ascii host = true /\ str_forall (fun c => negb (is_space c)) host = true).
  { split; eapply str_forall_impl; try exact Hb; intros c [[? ?]%andb_prop ?]%andb_prop; done. }
  destruct Ha as [Ha Hs].
  assert (E : normalizeHost host = dotTrim host).
  { unfold normalizeHost, dotTrim, TrimSpace, trimSpaceASCII in *. rewrite Ha, trimLeft_id, trimRight_id by done.
    rewrite <- TrimRightDots_suffix. by apply TrimRightDots_id. }
  assert (Hn : str_forall (fun c => negb (Ascii.eqb c "[" || Ascii.eqb c "]")) (dotTrim host) = true).
  { unfold dotTrim. apply str_forall_suffixDot. unfold ToLower. rewrite Ha. clear -Hb.
    induction host as [|c s IH]; [done|]. cbn [str_forall str_map] in *. apply andb_prop in Hb as [Hc Hs].
    rewrite IH by done. revert Hc. clear. destruct c as [[] [] [] [] [] [] [] []]; vm_compute; done. }
  rewrite E. unfold TrimBrackets. by rewrite trimLeft_id, trimRight_id.
Qed.

Lemma hard_deny_same p h host port ip port' rs :
  hardDenySet p = Some h -> sameReading host ->
  egressTarget p host port = Target (DialIP ip port') rs -> hdIP h ip = false.
Proof.
  intros Hh Hs (-> & Hn & [(Hl & _ & _) | (Hd & Hg & _)])%egressTarget_DialIP.
  - unfold hardDeniedName, hdName in Hn. rewrite Hh, Hs, Hl in Hn. done.
  - destruct (vetHost_admitted p host Hd) as (r & a & Hv & Hg' & Ha & _).
    assert (a = ip) as -> by congruence. apply hardDenyVet_spec in Hv. rewrite Hh, Hs in Hv.
    destruct Hv as [Hname Hv]. unfold answersOf in Ha. destruct (ParseIP (dotTrim host)) as [lit|] eqn:El.
    + apply elem_of_cons in Ha as [->|Ha]; [|by apply not_elem_of_nil in Ha].
      unfold hdName in Hname. rewrite Hs, El in Hname. done.
    + destruct Hv as (ips & _ & Hr & Hall). rewrite Hr in Ha. by apply Hall.
Qed.

(** C5: on a runner with a hard deny, an address of the set is dialled for no host
    in plain spelling (ASCII, no white space, no square brackets, at most one
    trailing dot): not by an exact allowlist entry, not by an internal-host
    declaration, not through the upstream bypass. Nor for any other spelling,
    unless the deny set and the guard read that spelling differently, as they do
    ["[1.1.1.1]"], an address to the one and a name to the other; the guarantee stops
    there, and [hard_deny_bracket_gap] shows that it does. *)
Theorem hard_deny_beats_every_admission p h host port ip port' rs :
  hardDenySet p = Some h ->
  egressTarget p host port = Target (DialIP ip port') rs ->
  hdIP h ip = false \/
  (plainSpelling host = false /\ ParseIP (TrimBrackets (normalizeHost host)) <> ParseIP (dotTrim host)).
Proof.
  intros Hh Ht. destruct (decide (sameReading host)) as [Hs|Hs]; [left; by eapply hard_deny_same|].
  right. split; [|done]. destruct (plainSpelling host) eqn:E; [|done]. by apply plainSpelling_same in E.
Qed.

(** With a corporate upstream, a request is sent on by name only if the guard
    admitted every answer of the name or could not resolve it at all; a blocked
    address in a non-standard spelling is not sent on either. *)
Theorem upstream_name_is_guarded p host port h' port' rs :
  egressTarget p host port = Target (DialName h' port') rs ->
  h' = host /\ port' = port /\ upstream p = true /\ bypassUpstream p host = false /\
  (Unresolved (vetHost p host) = true \/ Denied (vetHost p host) = false) /\
  (forall ip, nonCanonicalLiteralIP host = Some ip -> blockedKind ip = blockNone).
Proof.
  unfold egressTarget. destruct (hardDeniedName p host); [done|].
  destruct (match ParseIP (dotTrim host) with Some ip => _ | None => None end); [done|].
  intros H. destruct (upstream p && negb (bypassUpstream p host)) eqn:Eu; [|exfalso; repeat (break_match; try done)].
  apply andb_true_iff in Eu as [-> ->%negb_true_iff]. assert (Hf : (if Denied (vetHost p host) && negb (Unresolved (vetHost p host))
      then HostBlocked (gkind (vetHost p host)) (liftHint p host (vetHost p host))
      else Target (DialName host port) (if Lifted (vetHost p host) then ruleSourceInternalHost else ""))
      = Target (DialName h' port') rs /\ (forall ip, nonCanonicalLiteralIP host = Some ip -> blockedKind ip = blockNone)).
  { destruct (nonCanonicalLiteralIP host) as [ip|]; [|by split]. case_bool_decide as Hb; cbn [negb] in H; [|done].
    split; [done|]. by intros ? [= <-]. }
  destruct Hf as [Hf Hnc]. destruct (Denied (vetHost p host)), (Unresolved (vetHost p host)); cbn [negb andb] in Hf;
    try done; injection Hf as <- <- <-; auto 10.
Qed.

(** The operator's own model gateway is dialled only at an address that is
    not loopback, link-local, multicast, unspecified or an embedded form of one;
    unless it is a registered local model server it is also off the proxy's own
    networks; and every answer of the name passed the same test. *)
Theorem gateway_dial_is_vetted p host port ip port' :
  vetTrustedHost p host port = Some (DialIP ip port') ->
  port' = port /\ GatewayIPRefused ip = false /\
  (localModelAt p (dotTrim host) port = None -> onOwnSubnetOrControlPlane p ip = false) /\
  forall a, a ∈ answersOf host (res p) -> gatewayRefused p (localModelAt p (dotTrim host) port) a = false.
Proof.
  assert (Hr : forall lm a, gatewayRefused p lm a = false ->
    GatewayIPRefused a = false /\ (lm = None -> onOwnSubnetOrControlPlane p a = false)).
  { intros [m|] a; unfold gatewayRefused; [repeat case_match|]; intros; bool_prop; split; done. }
  unfold vetTrustedHost, answersOf. destruct (ParseIP (dotTrim host)) as [lit|].
  - destruct (gatewayRefused _ _ lit) eqn:E; [done|]. intros [= <- <-]. destruct (Hr _ _ E).
    split_and!; [done..|]. intros a [->|Ha]%elem_of_cons; [done | by apply not_elem_of_nil in Ha].
  - destruct (res p (dotTrim host)) as [e|[|a ips]]; [done..|].
    destruct (containsFunc _ _) eqn:E; [done|]. intros [= <- <-].
    pose proof (proj1 (containsFunc_false _ _) E) as Hall. destruct (Hr _ _ (Hall a ltac:(left))).
    split_and!; done.
Qed.

Lemma parseInternalHostCIDRs_length raw cs : parseInternalHostCIDRs raw = Some cs -> length cs = length raw.
Proof.
  revert cs. induction raw as [|c raw IH]; intros cs; cbn [parseInternalHostCIDRs]; [by intros [= <-]|].
  destruct (ParseCIDR c); [|done]. destruct (parseInternalHostCIDRs raw); [|done]. intros [= <-]. cbn. by rewrite (IH _ eq_refl).
Qed.

(** A declared internal host keeps its scope: a compiled rule that lifts the
    whole liftable range comes from an entry that declared no network; an entry
    with an unreadable network lifts nothing. *)
Theorem internal_host_scope_never_widens hosts r :
  r ∈ compileInternalHosts hosts ->
  exists h, h ∈ hosts /\ ihSuffix r = spaceDotTrim (HostSuffix h) /\ ihSuffix r <> "" /\
    parseInternalHostCIDRs (HostCIDRs h) = Some (ihCIDRs r) /\ (ihCIDRs r = [] -> HostCIDRs h = []).
Proof.
  induction hosts as [|h hosts IH]; cbn [compileInternalHosts]; [intros H; by apply not_elem_of_nil in H|].
  destruct (String.eqb_spec (spaceDotTrim (HostSuffix h)) "") as [|Hs];
    [intros H; destruct (IH H) as (h' & ? & ?); exists h'; split; [by right | done]|].
  destruct (parseInternalHostCIDRs (HostCIDRs h)) as [cs|] eqn:E;
    [|intros H; destruct (IH H) as (h' & ? & ?); exists h'; split; [by right | done]].
  intros [->|H]%elem_of_cons; [|destruct (IH H) as (h' & ? & ?); exists h'; split; [by right | done]].
  exists h. cbn [ihSuffix ihCIDRs]. split_and!; [by left | done | done | done |].
  intros ->. apply parseInternalHostCIDRs_length in E. by destruct (HostCIDRs h).
Qed.
End TargetTheorems.

(** ** Witnesses *)

Definition ip4 (a b c d : Z) : IP := IP16 (As16 (A4 (((a * 256 + b) * 256 + c) * 256 + d))).

Definition sampleResolver : resolver := fun name =>
  if String.eqb name "ok.example" then inr [ip4 93 184 216 34]
  else if String.eqb name "mix.example" then inr [ip4 93 184 216 34; ip4 169 254 169 254]
  else if String.eqb name "db.corp" then inr [ip4 10 2 3 4]
  else if String.eqb name "[1.1.1.1]" then inr [ip4 10 96 0 1]
  else inl "no such host".

Definition sampleDeny : hardDeny := mkHardDeny ["cluster.local"] ∅ [] [MustParsePrefix "10.96.0.0/12"].

Definition sampleProxy (hd : option hardDeny) (up : bool) : Proxy :=
  mkProxy samplePolicy hd sampleResolver up [] [mkInternalHostRule "corp" [MustParsePrefix "10.0.0.0/8"]] false
    [ip4 10 0 0 2] [MustParsePrefix "172.18.0.0/16"] [].

Lemma dialled_address_is_safe_witness :
  @egressTarget asciiTables (sampleProxy None false) "db.corp" 5432 = Target (DialIP (ip4 10 2 3 4) 5432) ruleSourceInternalHost /\
  @declaredFor asciiTables (sampleProxy None false) "db.corp" (ip4 10 2 3 4).
Proof.
  assert (E : @egressTarget asciiTables (sampleProxy None false) "db.corp" 5432
              = Target (DialIP (ip4 10 2 3 4) 5432) ruleSourceInternalHost) by (vm_compute; reflexivity).
  split; [exact E|].
  destruct (@dialled_address_is_safe asciiTables _ _ _ _ _ _ E) as (_ & [H | (_ & _ & [[H _] | H])]).
  - vm_compute in H. discriminate.
  - vm_compute in H. discriminate.
  - exact H.
Defined.

Lemma rebinding_mix_is_refused_witness :
  exists k hint, @egressTarget asciiTables (sampleProxy None false) "mix.example" 443 = HostBlocked k hint.
Proof.
  eapply (@rebinding_mix_is_refused asciiTables (sampleProxy None false) "mix.example" 443 _ (ip4 169 254 169 254)).
  - reflexivity.
  - reflexivity.
  - vm_compute. reflexivity.
  - vm_compute. discriminate.
  - vm_compute. reflexivity.
  - right. left.
  - intros [H|[H _]]; vm_compute in H; discriminate.
Defined.

Lemma hard_deny_beats_every_admission_witness : hdIP sampleDeny (ip4 10 2 3 4) = false.
Proof.
  destruct (@hard_deny_beats_every_admission asciiTables (sampleProxy (Some sampleDeny) false) sampleDeny "db.corp" 5432
           (ip4 10 2 3 4) 5432 ruleSourceInternalHost) as [H|[H _]].
  - reflexivity.
  - vm_compute. reflexivity.
  - exact H.
  - vm_compute in H. discriminate.
Defined.

Lemma upstream_name_is_guarded_witness :
  @egressTarget asciiTables (sampleProxy None true) "ok.example" 443 = Target (DialName "ok.example" 443) "" /\
  @bypassUpstream asciiTables (sampleProxy None true) "ok.example" = false.
Proof.
  assert (E : @egressTarget asciiTables (sampleProxy None true) "ok.example" 443 = Target (DialName "ok.example" 443) "")
    by (vm_compute; reflexivity).
  split; [exact E|]. exact (proj1 (proj2 (proj2 (proj2 (@upstream_name_is_guarded asciiTables _ _ _ _ _ _ E))))).
Defined.

Lemma gateway_dial_is_vetted_witness : GatewayIPRefused (ip4 10 2 3 4) = false.
Proof.
  assert (E : @vetTrustedHost asciiTables (sampleProxy None false) "db.corp" 8000 = Some (DialIP (ip4 10 2 3 4) 8000))
    by (vm_compute; reflexivity).
  exact (proj1 (proj2 (@gateway_dial_is_vetted asciiTables _ _ _ _ _ E))).
Defined.

Lemma internal_host_scope_never_widens_witness :
  @compileInternalHosts asciiTables [mkInternalHost "corp" ["10.0.0.0/8"; "bad"]; mkInternalHost "lab." []]
    = [mkInternalHostRule "lab" []] /\
  exists h, h ∈ [mkInternalHost "corp" ["10.0.0.0/8"; "bad"]; mkInternalHost "lab." []] /\ HostCIDRs h = [].
Proof.
  split; [vm_compute; reflexivity|].
  destruct (@internal_host_scope_never_widens asciiTables
    [mkInternalHost "corp" ["10.0.0.0/8"; "bad"]; mkInternalHost "lab." []] (mkInternalHostRule "lab" [])) as (h & H1 & _ & _ & _ & H2).
  - vm_compute. left.
  - exists h. split; [exact H1 | apply H2; reflexivity].
Defined.

(** A bracketed address literal is read as an address by the deny set, which then
    leaves the lookup to the proxy's resolver, but as a name by the guard: an
    answer in the deny set is not judged by it. The two readings of [sameReading]
    differ here. *)
Lemma hard_deny_bracket_gap :
  @egressTarget asciiTables
    (mkProxy samplePolicy (Some sampleDeny) sampleResolver false [] [mkInternalHostRule "[1.1.1.1]" []] false [] [] [])
    "[1.1.1.1]" 443
    = Target (DialIP (ip4 10 96 0 1) 443) ruleSourceInternalHost /\
  hdIP sampleDeny (ip4 10 96 0 1) = true.
Proof. split; vm_compute; reflexivity. Qed.

(** * Addresses in a non-standard spelling *)

Lemma pretty_N_go_lead (x : N) (s : string) :
  (0 < x)%N -> exists c r, pretty_N_go x s = String c r /\ c <> "0"%char.
Proof.
  revert s. induction (N.lt_wf_0 x) as [x _ IH]; intros s Hx.
  rewrite pretty_N_go_step by lia. destruct (decide (x / 10 = 0)%N) as [E|E].
  - rewrite E, pretty_N_go_0. exists (pretty_N_char (x mod 10)), s. split; [done|].
    assert (x < 10)%N by (apply N.div_small_iff in E; lia). rewrite N.mod_small by done.
    assert (x = 1 \/ x = 2 \/ x = 3 \/ x = 4 \/ x = 5 \/ x = 6 \/ x = 7 \/ x = 8 \/ x = 9)%N as Hn by lia.
    repeat (destruct Hn as [->|Hn]; [done|]). by subst.
  - apply IH; [apply N.div_lt; lia | apply N.neq_0_lt_0; exact E].
Qed.

Lemma Itoa_lead (n : Z) : 0 < n -> exists c r, Itoa n = String c r /\ c <> "0"%char.
Proof.
  intros H. rewrite Itoa_pretty_N by lia. unfold pretty, pretty_N. destruct (decide _); [lia|].
  apply pretty_N_go_lead. lia.
Qed.

Lemma is_digit_shape c : is_digit c = true ->
  is_ascii c = true /\ lower_byte c = c /\ is_space c = false /\ Ascii.eqb c "." = false /\ Ascii.eqb c ":" = false /\
  Ascii.eqb c "%" = false /\ hex_val c = Some (digit_val c) /\ digit_val c < 10.
Proof. destruct c as [[] [] [] [] [] [] [] []]; vm_compute; intros; try done; repeat split. Qed.

Section Decimal.
Context {U : GoUnicode}.

Lemma digits_lower s : str_forall is_digit s = true -> str_forall is_ascii s = true /\ str_map lower_byte s = s.
Proof.
  induction s as [|c s IH]; [done|]. cbn [str_forall str_map].
  intros [(-> & -> & _)%is_digit_shape Hs]%andb_true_iff. destruct (IH Hs) as [-> ->]. done.
Qed.

Lemma digits_endsDot s : str_forall is_digit s = true -> endsDot s = false.
Proof.
  induction s as [|c s IH]; [done|]. cbn [str_forall]. intros [Hc Hs]%andb_true_iff.
  destruct s as [|c' s]; [|rewrite endsDot_cons by done; auto].
  apply is_digit_shape in Hc as (_ & _ & _ & Hd & _). unfold endsDot. cbn [HasSuffix].
  destruct (String.eqb_spec (String c "") ".") as [[= ->]|]; done.
Qed.

Lemma digits_trim s : str_forall is_digit s = true -> trimSpaceASCII s = s.
Proof.
  intros H. unfold trimSpaceASCII.
  assert (Hr : forall t, str_forall is_digit t = true -> trimRightFunc is_space t = t).
  { induction t as [|c t IH]; [done|]. cbn [str_forall trimRightFunc]. intros [Hc Ht]%andb_true_iff. rewrite IH by done.
    apply is_digit_shape in Hc as (_ & _ & -> & _). by destruct t. }
  destruct s as [|c s]; [done|]. cbn [trimLeftFunc]. pose proof H as H'. cbn [str_forall] in H'.
  apply andb_true_iff in H' as [(_ & _ & -> & _)%is_digit_shape _]. by apply Hr.
Qed.

Lemma digits_dotTrim s : str_forall is_digit s = true -> dotTrim s = s /\ spaceDotTrim s = s.
Proof.
  intros H. destruct (digits_lower s H) as [Ha Hl].
  unfold dotTrim, spaceDotTrim, ToLower, TrimSpace. rewrite Ha, digits_trim, Ha, Hl by done.
  by rewrite TrimSuffixDot_id by (by apply digits_endsDot).
Qed.

Lemma digits_no_addr s : str_forall is_digit s = true -> ParseAddr s = None /\ splitByte "." s = [s].
Proof.
  intros H. assert (Hk : addrKind s = None /\ splitByte "." s = [s]).
  { induction s as [|c s IH]; [done|]. cbn [str_forall] in H. apply andb_true_iff in H as [Hc Hs].
    destruct (IH Hs) as [Ek Es]. apply is_digit_shape in Hc as (_ & _ & _ & Hd & Hcol & Hp & _).
    cbn [addrKind splitByte]. rewrite Hd, Hcol, Hp, Ek, Es. done. }
  destruct Hk as [Hk Hs]. split; [|done]. unfold ParseAddr. by rewrite Hk.
Qed.

Lemma uintOf_digits acc s v :
  str_forall is_digit s = true -> digits_val acc s = Some v -> v < 2 ^ 32 -> uintOf 10 acc s = Some v.
Proof.
  revert acc. induction s as [|c s IH]; intros acc; cbn [str_forall digits_val uintOf].
  - intros _ [= <-] Hv. by rewrite (proj2 (Z.ltb_lt _ _) Hv).
  - intros [Hc Hs]%andb_true_iff Hd Hv. rewrite Hc in Hd. unfold digitIn.
    apply is_digit_shape in Hc as (_ & _ & _ & _ & _ & _ & -> & Hlt).
    rewrite (proj2 (Z.ltb_lt _ _) Hlt). by apply IH.
Qed.

Lemma inetAtonPart_Itoa n : 0 <= n < 2 ^ 32 -> inetAtonPart (Itoa n) = Some n.
Proof.
  intros Hn. pose proof (Itoa_digits n ltac:(lia)) as Hd. pose proof (digits_val_Itoa n ltac:(lia)) as Hv.
  assert (Hu : uintOf 10 0 (Itoa n) = Some n) by (apply uintOf_digits; [done | done | lia]).
  unfold inetAtonPart. destruct (decide (n = 0)) as [->|]; [by vm_compute|].
  destruct (Itoa_lead n ltac:(lia)) as (c & r & E & Hc). rewrite E in *.
  destruct c as [[] [] [] [] [] [] [] []]; try exact Hu. done.
Qed.

Lemma blockedKind_as16 a : 0 <= a < 2 ^ 32 -> blockedKind (IP16 (As16 (A4 a))) = blockedKind (IP4 a).
Proof.
  intros Ha. cbn [As16]. rewrite Z.shiftl_mul_pow2 by lia.
  rewrite blockedKind_mapped; [|unfold mappedPrefix; lia | unfold mapped; rewrite shiftr_add by done; apply Z.eqb_refl].
  rewrite low32_add by done. by rewrite blockedKind_v4.
Qed.

(** An IPv4 address written as one decimal number, which the address parser
    refuses and a C resolver accepts, is denied at step 0 whenever the address is
    in a blocked range, and whatever the allowlist says. *)
Theorem decimal_literal_is_denied p a port :
  0 <= a < 2 ^ 32 -> blockedKind (IP4 a) <> blockNone -> literalIPGuard p (Itoa a) port = inr tt.
Proof.
  intros Ha Hb. pose proof (Itoa_digits a ltac:(lia)) as Hd.
  destruct (digits_dotTrim _ Hd) as [E1 E2]. destruct (digits_no_addr _ Hd) as [Ep Es].
  assert (Hip : ParseIP (Itoa a) = None) by (unfold ParseIP; by rewrite Ep).
  assert (Hnc : nonCanonicalLiteralIP (Itoa a) = Some (IP16 (As16 (A4 a)))).
  { unfold nonCanonicalLiteralIP, nonCanonicalIPv4. rewrite E2, Hip, Es.
    destruct (String.eqb_spec (Itoa a) "") as [Hz|_]; [by apply Itoa_nonempty in Hz|].
    cbn [orb bool_decide decide_rel]. rewrite bool_decide_eq_false_2 by (by intros []).
    cbn [length inetAtonParts]. rewrite inetAtonPart_Itoa by done. cbn [last removelast leadBytes length].
    rewrite (proj2 (Z.ltb_ge _ _)) by lia.
    destruct (a >=? _) eqn:Eg; [|done]. rewrite Z.geb_leb in Eg. apply Z.leb_le in Eg.
    change (Z.shiftl 1 (8 * (5 - Z.of_nat 1))) with (2 ^ 32) in Eg. lia. }
  unfold literalIPGuard. rewrite E1, Hip, Hnc, blockedKind_as16 by done. by rewrite bool_decide_eq_false_2.
Qed.
End Decimal.

Lemma decimal_literal_is_denied_witness :
  @literalIPGuard asciiTables (sampleProxy None true) "2130706433" 80 = inr tt.
Proof.
  change "2130706433" with (Itoa 2130706433).
  apply (@decimal_literal_is_denied asciiTables (sampleProxy None true) 2130706433 80); [lia | vm_compute; discriminate].
Defined.
