(* ===== verification/Approvals.v ===== *)
(** * First-use approvals

    [internal/egress/proxy/approvals.go]: the per-run cache of host approvals and
    the sections of [Resolve] and [ResolveWait] that run under its lock. A call
    that leaves the lock for a round trip to the control plane is a pending
    thread; [step] interleaves the sections of any number of requests with the
    control plane's own decisions, so every order the mutex allows is covered.

    Times are nanoseconds; a zero [time.Time] is [None] where the code asks
    [IsZero]. An approval id is a number with 0 for the nil UUID. *)
From S2P Require Import Prelude GoStrings NetIP PolicyTypes.
Local Open Scope string_scope.
Local Open Scope Z_scope.

Inductive approvalState := apNone | apPending | apApproved | apDenied | apCapped | apRefused | apExpired | apStale.

#[export] Instance approvalState_eq_dec : EqDecision approvalState.
Proof. solve_decision. Defined.

Definition Nil : Z := 0.

(** [types.ApprovalScope] and its reading of unknown values. *)
Definition ScopeOnce : string := "once".
Definition ScopeRun : string := "run".
Definition normalizeScope (s : string) : string :=
  if String.eqb s ScopeOnce || String.eqb s ScopeRun || String.eqb s "until" || String.eqb s "always" then s
  else if String.eqb s "" then ScopeRun else ScopeOnce.

Record hostApproval := mkHA {
  state : approvalState; approvalID : Z; lastPoll : Z; scope : string; expiresAt : option Z;
  holdStart : Z; verifiedAt : option Z;
}.

Definition freshEntry : hostApproval := mkHA apNone Nil 0 "" None 0 None.
Definition forget (_ : hostApproval) : hostApproval := freshEntry.

Record resolveResult := mkResult { State : approvalState; ApprovalID : Z }.

Definition sec : Z := 1000000000.
Definition pollInterval : Z := 2 * sec.
Definition approvalTTL : Z := 60 * sec.
Definition maxApprovalStaleness : Z := 2 * approvalTTL.
Definition maxApprovalHosts : nat := 4096.
Definition rejoinGap : Z := sec.
Definition maxHoldTimeout : Z := 600 * sec.
Definition maxHoldsCeiling : Z := 256.
Definition defaultHoldTimeout : Z := 30 * sec.
Definition defaultMaxHolds : Z := 16.

Definition set_state (st : hostApproval) (s : approvalState) : hostApproval :=
  mkHA s (approvalID st) (lastPoll st) (scope st) (expiresAt st) (holdStart st) (verifiedAt st).
Definition set_lastPoll (st : hostApproval) (t : Z) : hostApproval :=
  mkHA (state st) (approvalID st) t (scope st) (expiresAt st) (holdStart st) (verifiedAt st).

(** ** Configuration *)

Record holdConfig := mkHold { holdTimeout : Z; holdCap : Z }.
Definition newHold : holdConfig := mkHold defaultHoldTimeout defaultMaxHolds.

Definition configureHold (c : holdConfig) (timeout maxHolds : Z) : holdConfig :=
  mkHold (if timeout >? 0 then Z.min timeout maxHoldTimeout else holdTimeout c)
         (if maxHolds >? 0 then Z.min maxHolds maxHoldsCeiling else holdCap c).

(** ** The sections under the lock *)

Definition isTerminal (s : approvalState) : bool := bool_decide (s = apApproved) || bool_decide (s = apDenied).

(** Expire a stale grant, report the current one, and spend it if it is for one
    use: the whole entry is cleared. *)
Definition consumeIfOnce (now : Z) (st : hostApproval) : hostApproval * approvalState * Z * bool :=
  let st := match expiresAt st with
            | Some e => if now >? e then freshEntry else st
            | None => st
            end in
  if isTerminal (state st) && String.eqb (normalizeScope (scope st)) ScopeOnce
  then (freshEntry, state st, approvalID st, true)
  else (st, state st, approvalID st, false).

Abbreviation cache := (gmap string hostApproval).

(** What the first section of [Resolve] leaves to do. *)
Inductive resolveNext :=
| Done (r : resolveResult) (consumed : bool)
| NeedRaise
| NeedPoll (id : Z) (cur : approvalState) (prevPoll : Z).

Section Approvals.
Context {U : GoUnicode}.

Definition approvalHostKey (host : string) : string :=
  let h := match SplitHostPort host with Some (h, _) => h | None => host end in
  ToLower (TrimRightDots h).
End Approvals.

Definition resolveBegin (now : Z) (host : string) (m : cache) : cache * resolveNext :=
  let entry := m !! host in
  if bool_decide (entry = None) && bool_decide (maxApprovalHosts <= size m)%nat
  then (m, Done (mkResult apCapped Nil) false)
  else
    let '(st, cur, id, consumed) := consumeIfOnce now (default freshEntry entry) in
    let needRaise := bool_decide (cur = apNone) in
    let st := if needRaise then set_lastPoll (set_state st apPending) now else st in
    let prevPoll := lastPoll st in
    let needPoll := (bool_decide (cur = apPending) && negb (id =? Nil) && (now - lastPoll st >=? pollInterval))
                    || (bool_decide (cur = apApproved) && (now - lastPoll st >=? approvalTTL)) in
    let st := if needPoll then set_lastPoll st now else st in
    let m' := <[host := st]> m in
    if consumed then (m', Done (mkResult cur id) true)
    else match cur with
         | apApproved => if needPoll then (m', NeedPoll id cur prevPoll) else (m', Done (mkResult apApproved id) false)
         | apDenied => (m', Done (mkResult apDenied id) false)
         | apRefused => (m', Done (mkResult apRefused Nil) false)
         | apNone => (m', NeedRaise)
         | _ => if needPoll then (m', NeedPoll id cur prevPoll) else (m', Done (mkResult apPending id) false)
         end.

(** The outcome of a raise: an id, or an error, settled when the control plane
    refused for good. *)
Inductive raiseOutcome := Raised (newID : Z) | RaiseFailed (settled : bool).

Definition raiseDone (now : Z) (host : string) (o : raiseOutcome) (m : cache) : cache * resolveResult :=
  match m !! host with
  | None => (m, mkResult apPending Nil)
  | Some st =>
      match o with
      | RaiseFailed settled =>
          let st := if bool_decide (state st = apPending) && (approvalID st =? Nil)
                    then set_state st (if settled then apRefused else apNone) else st in
          (<[host := st]> m, mkResult (if settled then apRefused else apPending) Nil)
      | Raised newID =>
          let st := if approvalID st =? Nil
                    then mkHA apPending newID now (scope st) (expiresAt st) now (verifiedAt st) else st in
          (<[host := st]> m, mkResult apPending (approvalID st))
      end
  end.

(** The answer of a poll: undecided (or no answer), or the decision. *)
Inductive pollAnswer := Undecided | Decided (s : approvalState) (sc : string) (exp : option Z).

Definition pollDone (now : Z) (host : string) (id : Z) (cur : approvalState) (prevPoll : Z) (a : pollAnswer) (m : cache)
    : cache * resolveResult * bool :=
  match m !! host with
  | None => (m, mkResult apPending Nil, false)
  | Some st =>
      if negb (approvalID st =? id) then (m, mkResult apPending (approvalID st), false)
      else match a with
           | Decided apExpired _ _ => (<[host := forget st]> m, mkResult apExpired id, false)
           | Decided s sc exp =>
               let st := mkHA s (approvalID st) (lastPoll st) sc exp (holdStart st) (Some now) in
               let '(st, s, sid, consumed) := consumeIfOnce now st in (<[host := st]> m, mkResult s sid, consumed)
           | Undecided =>
               let st := if bool_decide (cur = apApproved) then set_lastPoll st prevPoll else st in
               let stale := match verifiedAt st with Some v => now - v >=? maxApprovalStaleness | None => false end in
               if bool_decide (cur = apApproved) && stale then (<[host := forget st]> m, mkResult apStale id, false)
               else let '(st, s, sid, consumed) := consumeIfOnce now st in (<[host := st]> m, mkResult s sid, consumed)
           end
  end.

(** The section of a held request whose poll came back decided. *)
Definition holdDone (now : Z) (host : string) (id : Z) (s : approvalState) (sc : string) (exp : option Z) (m : cache)
    : cache * resolveResult * bool :=
  match m !! host with
  | None => (m, mkResult (if bool_decide (s = apExpired) then apExpired else apPending) id, false)
  | Some st =>
      if negb (approvalID st =? id)
      then (m, mkResult (if bool_decide (s = apExpired) then apExpired else apPending) id, false)
      else if bool_decide (s = apExpired) then (<[host := forget st]> m, mkResult apExpired id, false)
      else let st := mkHA s (approvalID st) now sc exp (holdStart st) (Some now) in
           let '(st, s, sid, consumed) := consumeIfOnce now st in (<[host := st]> m, mkResult s sid, consumed)
  end.

Definition claimRejoin (now : Z) (host : string) (id : Z) (m : cache) : cache * bool :=
  match m !! host with
  | None => (m, false)
  | Some st =>
      if negb (approvalID st =? id) || (now - holdStart st <? rejoinGap) then (m, false)
      else (<[host := mkHA (state st) (approvalID st) (lastPoll st) (scope st) (expiresAt st) now (verifiedAt st)]> m, true)
  end.

Definition ruleSourceApprovalHostCap : string := "approval:host-cap".
Definition approvalPendingReason (s : approvalState) : string :=
  match s with
  | apCapped => ruleSourceApprovalHostCap
  | apRefused => "approval:refused"
  | apExpired => "approval:expired"
  | apStale => "approval:stale"
  | _ => "approval:pending"
  end.

(** [Resolve] as one call with nothing in between: the raise and the poll are
    given by what the control plane answers. *)
Definition Resolve (now now' : Z) (host : string) (raise : raiseOutcome) (poll : Z -> pollAnswer) (m : cache)
    : cache * resolveResult :=
  let '(m, next) := resolveBegin now host m in
  match next with
  | Done r _ => (m, r)
  | NeedRaise => raiseDone now' host raise m
  | NeedPoll id cur prevPoll => let '(m, r, _) := pollDone now' host id cur prevPoll (poll id) m in (m, r)
  end.

(** * The cache under every interleaving *)

Inductive rowState := RowPending | RowDecided (s : approvalState) (sc : string) (exp : option Z).
Record cpRow := mkRow { owner : string; row : rowState }.

Inductive thread :=
| TRaise (host : string)
| TRaised (host : string) (o : raiseOutcome)
| TPoll (host : string) (id : Z) (cur : approvalState) (prevPoll : Z)
| TPolled (host : string) (id : Z) (cur : approvalState) (prevPoll : Z) (a : pollAnswer)
| THold (host : string) (id : Z)
| THeld (host : string) (id : Z) (s : approvalState) (sc : string) (exp : option Z).

(** The cache, the control plane's rows, the calls in flight, and three histories:
    the ids whose one use was served, the ids a human ever approved, and the
    answers given. *)
Record sys := mkSys {
  hosts : cache; rows : gmap Z cpRow; threads : list thread;
  served : list Z; approvedEver : gset Z; results : list (string * resolveResult);
}.
Definition sys0 : sys := mkSys ∅ ∅ [] [] ∅ [].

(** A decision the control plane can record. *)
Definition decision (s : approvalState) : bool :=
  bool_decide (s = apApproved) || bool_decide (s = apDenied) || bool_decide (s = apExpired).

Definition serve (l : list Z) (r : resolveResult) (consumed : bool) : list Z :=
  if consumed && bool_decide (State r = apApproved) then ApprovalID r :: l else l.

Inductive step : sys -> sys -> Prop :=
| s_resolve_done now h m r c m' rs ts sv ev res :
    resolveBegin now h m = (m', Done r c) ->
    step (mkSys m rs ts sv ev res) (mkSys m' rs ts (serve sv r c) ev ((h, r) :: res))
| s_resolve_raise now h m m' rs ts sv ev res :
    resolveBegin now h m = (m', NeedRaise) ->
    step (mkSys m rs ts sv ev res) (mkSys m' rs (TRaise h :: ts) sv ev res)
| s_resolve_poll now h m m' id cur prev rs ts sv ev res :
    resolveBegin now h m = (m', NeedPoll id cur prev) ->
    step (mkSys m rs ts sv ev res) (mkSys m' rs (TPoll h id cur prev :: ts) sv ev res)
| s_raise_fails h settled m rs t1 t2 sv ev res :
    step (mkSys m rs (t1 ++ TRaise h :: t2) sv ev res) (mkSys m rs (t1 ++ TRaised h (RaiseFailed settled) :: t2) sv ev res)
| s_raise_new h id m rs t1 t2 sv ev res :
    rs !! id = None -> id <> Nil ->
    step (mkSys m rs (t1 ++ TRaise h :: t2) sv ev res)
         (mkSys m (<[id := mkRow h RowPending]> rs) (t1 ++ TRaised h (Raised id) :: t2) sv ev res)
| s_raise_dedup h id m rs t1 t2 sv ev res :
    rs !! id = Some (mkRow h RowPending) ->
    step (mkSys m rs (t1 ++ TRaise h :: t2) sv ev res) (mkSys m rs (t1 ++ TRaised h (Raised id) :: t2) sv ev res)
| s_raise_done now h o m m' r rs t1 t2 sv ev res :
    raiseDone now h o m = (m', r) ->
    step (mkSys m rs (t1 ++ TRaised h o :: t2) sv ev res) (mkSys m' rs (t1 ++ t2) sv ev ((h, r) :: res))
| s_poll_silent h id cur prev m rs t1 t2 sv ev res :
    step (mkSys m rs (t1 ++ TPoll h id cur prev :: t2) sv ev res)
         (mkSys m rs (t1 ++ TPolled h id cur prev Undecided :: t2) sv ev res)
| s_poll_answer h id cur prev o s sc exp m rs t1 t2 sv ev res :
    rs !! id = Some (mkRow o (RowDecided s sc exp)) ->
    step (mkSys m rs (t1 ++ TPoll h id cur prev :: t2) sv ev res)
         (mkSys m rs (t1 ++ TPolled h id cur prev (Decided s sc exp) :: t2) sv ev res)
| s_poll_done now h id cur prev a m m' r c rs t1 t2 sv ev res :
    pollDone now h id cur prev a m = (m', r, c) ->
    step (mkSys m rs (t1 ++ TPolled h id cur prev a :: t2) sv ev res)
         (mkSys m' rs (t1 ++ t2) (serve sv r c) ev ((h, r) :: res))
| s_hold h id m rs ts sv ev res :
    id <> Nil -> step (mkSys m rs ts sv ev res) (mkSys m rs (THold h id :: ts) sv ev res)
| s_hold_ends h id m rs t1 t2 sv ev res :
    step (mkSys m rs (t1 ++ THold h id :: t2) sv ev res) (mkSys m rs (t1 ++ t2) sv ev ((h, mkResult apPending id) :: res))
| s_hold_answer h id o s sc exp m rs t1 t2 sv ev res :
    rs !! id = Some (mkRow o (RowDecided s sc exp)) ->
    step (mkSys m rs (t1 ++ THold h id :: t2) sv ev res) (mkSys m rs (t1 ++ THeld h id s sc exp :: t2) sv ev res)
| s_hold_done now h id s sc exp m m' r c rs t1 t2 sv ev res :
    holdDone now h id s sc exp m = (m', r, c) ->
    step (mkSys m rs (t1 ++ THeld h id s sc exp :: t2) sv ev res)
         (mkSys m' rs (t1 ++ t2) (serve sv r c) ev ((h, r) :: res))
| s_rejoin now h id m m' b rs ts sv ev res :
    claimRejoin now h id m = (m', b) ->
    step (mkSys m rs ts sv ev res) (mkSys m' rs ts sv ev res)
| s_decide id o s sc exp m rs ts sv ev res :
    rs !! id = Some (mkRow o RowPending) -> decision s = true ->
    step (mkSys m rs ts sv ev res)
         (mkSys m (<[id := mkRow o (RowDecided s sc exp)]> rs) ts sv
            (if decide (s = apApproved) then {[id]} ∪ ev else ev) res)
| s_revoke id o sc exp s' sc' exp' m rs ts sv ev res :
    rs !! id = Some (mkRow o (RowDecided apApproved sc exp)) -> s' = apDenied \/ s' = apExpired ->
    step (mkSys m rs ts sv ev res) (mkSys m (<[id := mkRow o (RowDecided s' sc' exp')]> rs) ts sv ev res).

Inductive reachable : sys -> Prop :=
| r_init : reachable sys0
| r_step s s' : reachable s -> step s s' -> reachable s'.

(** ** The invariant *)

Definition decidedRow (rs : gmap Z cpRow) (id : Z) : Prop := exists o s sc exp, rs !! id = Some (mkRow o (RowDecided s sc exp)).
Definition ownedBy (rs : gmap Z cpRow) (id : Z) (h : string) : Prop := exists r, rs !! id = Some (mkRow h r).

(** An entry as the sections read it, before the spending rule is applied. *)
Record entryPre (rs : gmap Z cpRow) (ev : gset Z) (sv : list Z) (h : string) (st : hostApproval) : Prop := {
  ep_none : state st = apNone \/ state st = apRefused -> approvalID st = Nil;
  ep_own : approvalID st <> Nil -> ownedBy rs (approvalID st) h /\ approvalID st ∉ sv;
  ep_term : isTerminal (state st) = true -> approvalID st <> Nil /\ decidedRow rs (approvalID st);
  ep_appr : state st = apApproved -> approvalID st ∈ ev;
  ep_shape : state st = apNone \/ state st = apPending \/ state st = apApproved \/ state st = apDenied \/ state st = apRefused;
  ep_exp : isTerminal (state st) = false -> expiresAt st = None;
}.

(** At rest, a decided entry is never for one use. *)
Definition entryOK rs ev sv h st : Prop :=
  entryPre rs ev sv h st /\ (isTerminal (state st) = true -> normalizeScope (scope st) <> ScopeOnce).

Definition raiseHost (t : thread) : option string :=
  match t with TRaise h => Some h | TRaised h _ => Some h | _ => None end.

Definition answerOK (rs : gmap Z cpRow) (ev : gset Z) (id : Z) (s : approvalState) : Prop :=
  decision s = true /\ decidedRow rs id /\ (s = apApproved -> id ∈ ev).

Definition threadOK (rs : gmap Z cpRow) (ev : gset Z) (sv : list Z) (t : thread) : Prop :=
  match t with
  | TRaised h (Raised id) => id <> Nil /\ ownedBy rs id h /\ id ∉ sv
  | TPoll _ id _ _ => id <> Nil
  | TPolled _ id _ _ Undecided => id <> Nil
  | TPolled _ id _ _ (Decided s _ _) => id <> Nil /\ answerOK rs ev id s
  | THold _ id => id <> Nil
  | THeld _ id s _ _ => id <> Nil /\ answerOK rs ev id s
  | _ => True
  end.

Record Inv (s : sys) : Prop := {
  i_entries : forall h st, hosts s !! h = Some st -> entryOK (rows s) (approvedEver s) (served s) h st;
  i_threads : forall t, t ∈ threads s -> threadOK (rows s) (approvedEver s) (served s) t;
  i_claim : forall t h, t ∈ threads s -> raiseHost t = Some h ->
              exists st, hosts s !! h = Some st /\ state st = apPending /\ approvalID st = Nil;
  i_raises : NoDup (omap raiseHost (threads s));
  i_nodup : NoDup (served s);
  i_served : forall id, id ∈ served s -> decidedRow (rows s) id;
  i_rows : forall id o s0 sc exp, rows s !! id = Some (mkRow o (RowDecided s0 sc exp)) ->
             decision s0 = true /\ (s0 = apApproved -> id ∈ approvedEver s);
  i_nil : rows s !! Nil = None;
  i_results : forall h r, (h, r) ∈ results s -> State r = apApproved ->
                ApprovalID r ∈ approvedEver s /\ ownedBy (rows s) (ApprovalID r) h;
  i_size : (size (hosts s) <= maxApprovalHosts)%nat;
}.

Lemma freshEntry_pre rs ev sv h : entryPre rs ev sv h freshEntry.
Proof. split; cbn; auto; try done. Qed.

Lemma freshEntry_ok rs ev sv h : entryOK rs ev sv h freshEntry.
Proof. split; [apply freshEntry_pre | done]. Qed.

(** The spending rule: either the grant was spent and the entry cleared, or what
    is left is at rest. *)
Lemma consume_spec now st st' s id c :
  consumeIfOnce now st = (st', s, id, c) ->
  (c = true /\ st' = freshEntry /\ s = state st /\ id = approvalID st /\ isTerminal (state st) = true /\
   normalizeScope (scope st) = ScopeOnce) \/
  (c = false /\ (st' = st \/ st' = freshEntry) /\ s = state st' /\ id = approvalID st' /\
   (isTerminal (state st') = true -> normalizeScope (scope st') <> ScopeOnce)).
Proof.
  unfold consumeIfOnce.
  assert (Hin : forall st0, (st0 = st \/ st0 = freshEntry) ->
    (if isTerminal (state st0) && String.eqb (normalizeScope (scope st0)) ScopeOnce
     then (freshEntry, state st0, approvalID st0, true) else (st0, state st0, approvalID st0, false)) = (st', s, id, c) ->
    (c = true /\ st' = freshEntry /\ s = state st /\ id = approvalID st /\ isTerminal (state st) = true /\
   normalizeScope (scope st) = ScopeOnce) \/
    (c = false /\ (st' = st \/ st' = freshEntry) /\ s = state st' /\ id = approvalID st' /\
     (isTerminal (state st') = true -> normalizeScope (scope st') <> ScopeOnce))).
  { intros st0 Hst0. destruct (isTerminal (state st0)) eqn:Et; cbn [andb].
    - destruct (String.eqb_spec (normalizeScope (scope st0)) ScopeOnce) as [E|E]; intros [= <- <- <- <-].
      + left. destruct Hst0 as [->| ->]; [auto 10 | done].
      + right. auto 10.
    - intros [= <- <- <- <-]. right. split_and!; auto. congruence. }
  destruct (expiresAt st) as [e|]; [destruct (now >? e)|]; intros H; apply Hin in H; auto.
Qed.

Lemma entryPre_serve rs ev sv h st r c id h0 :
  entryPre rs ev sv h st -> ownedBy rs id h0 -> h0 <> h -> ApprovalID r = id -> entryPre rs ev (serve sv r c) h st.
Proof.
  intros [H1 H2 H3 H4 H5 H6] [ro Hro] Hne Hid. split; auto. intros Hn. destruct (H2 Hn) as [[r0 Hr0] Hni].
  split; [by eexists|]. unfold serve. destruct (c && _); [|done]. rewrite Hid. intros [E|?]%elem_of_cons; [|done].
  rewrite E in Hr0. congruence.
Qed.

Lemma threadOK_serve rs ev sv t r c h0 id :
  threadOK rs ev sv t -> ownedBy rs id h0 -> raiseHost t <> Some h0 -> ApprovalID r = id -> threadOK rs ev (serve sv r c) t.
Proof.
  destruct t as [|h [newID|]| | | |]; try done. cbn [threadOK raiseHost].
  intros (Hn & [ro Hro] & Hni) [ro' Hro'] Hne Hid. split_and!; [done | by eexists|].
  unfold serve. destruct (c && _); [|done]. rewrite Hid. intros [E|?]%elem_of_cons; [|done].
  apply Hne. rewrite E in Hro. congruence.
Qed.

Lemma no_raise_thread s h st t :
  Inv s -> hosts s !! h = Some st -> approvalID st <> Nil -> t ∈ threads s -> raiseHost t <> Some h.
Proof.
  intros HI Hst Hn Ht He. destruct (i_claim s HI t h Ht He) as (st' & Hst' & _ & Hid). congruence.
Qed.

(** What a section may add to the served history: nothing, or the id it spent. *)
Definition servesOK (s : sys) (h : string) (sv' : list Z) : Prop :=
  sv' = served s \/
  exists id, sv' = id :: served s /\ ownedBy (rows s) id h /\ id ∉ served s /\ decidedRow (rows s) id /\
    forall t, t ∈ threads s -> raiseHost t <> Some h.

Lemma servesOK_entry s h sv' h' st :
  servesOK s h sv' -> h <> h' -> entryOK (rows s) (approvedEver s) (served s) h' st ->
  entryOK (rows s) (approvedEver s) sv' h' st.
Proof.
  intros [->|(id & -> & [ro Hro] & _)] Hne [[H1 H2 H3 H4 H5 H6] Ho]; [by split|]. split; [|done]. split; auto.
  intros Hn. destruct (H2 Hn) as [[r0 Hr0] Hni]. split; [by eexists|].
  intros [E|?]%elem_of_cons; [|done]. rewrite E in Hr0. congruence.
Qed.

Lemma servesOK_thread s h sv' t :
  Inv s -> servesOK s h sv' -> t ∈ threads s -> threadOK (rows s) (approvedEver s) sv' t.
Proof.
  intros HI [->|(id & -> & [ro Hro] & _ & _ & Hnr)] Ht; [by apply HI|].
  pose proof (i_threads s HI t Ht) as Hok. specialize (Hnr t Ht).
  destruct t as [|h' [newID|]| | | |]; try done. cbn [threadOK raiseHost] in *.
  destruct Hok as (Hn & [r0 Hr0] & Hni). split_and!; [done | by eexists|].
  intros [E|?]%elem_of_cons; [|done]. rewrite E in Hr0. congruence.
Qed.

(** One entry rewritten, calls in flight kept or ended, at most one new answer. *)
Lemma inv_section s h st' ts' sv' res' :
  Inv s ->
  servesOK s h sv' ->
  entryOK (rows s) (approvedEver s) sv' h st' ->
  (size (<[h := st']> (hosts s)) <= maxApprovalHosts)%nat ->
  (forall t, t ∈ ts' -> (t ∈ threads s /\ (raiseHost t = Some h -> state st' = apPending /\ approvalID st' = Nil)) \/
     (threadOK (rows s) (approvedEver s) sv' t /\
      (raiseHost t = Some h -> state st' = apPending /\ approvalID st' = Nil) /\ (forall h', raiseHost t = Some h' -> h' = h))) ->
  NoDup (omap raiseHost ts') ->
  (res' = results s \/ exists r, res' = (h, r) :: results s /\
     (State r = apApproved -> ApprovalID r ∈ approvedEver s /\ ownedBy (rows s) (ApprovalID r) h)) ->
  Inv (mkSys (<[h := st']> (hosts s)) (rows s) ts' sv' (approvedEver s) res').
Proof.
  intros HI Hsv Hst Hsz Hts Hnd Hres. split; cbn [hosts rows threads served approvedEver results].
  - intros h' st. destruct (decide (h = h')) as [<-|Hne].
    + rewrite lookup_insert_eq. by intros [= <-].
    + rewrite lookup_insert_ne by done. intros Hl. by apply (servesOK_entry s h), HI.
  - intros t Ht. destruct (Hts t Ht) as [[Hin _]|[Hok _]]; [by apply (servesOK_thread s h) | done].
  - intros t h' Ht Hr. destruct (Hts t Ht) as [[Hin Hc]|(_ & Hc & Heq)].
    + destruct (decide (h = h')) as [<-|Hne]; [rewrite lookup_insert_eq; eauto|].
      rewrite lookup_insert_ne by done. by apply (i_claim s HI t).
    + pose proof (Heq h' Hr) as ->. rewrite lookup_insert_eq. eauto.
  - done.
  - destruct Hsv as [->|(id & -> & _ & Hni & _)]; [apply HI | constructor; [done | apply HI]].
  - destruct Hsv as [->|(id & -> & _ & _ & Hd & _)]; [apply HI|].
    intros id' [->|?]%elem_of_cons; [done | by apply HI].
  - apply HI.
  - apply HI.
  - destruct Hres as [->|(r & -> & Hr)]; [apply HI|].
    intros h' r' [[= -> ->]|?]%elem_of_cons; [done | by apply HI].
  - done.
Qed.

(** A section that only answers. *)
Lemma inv_answer s h ts' r :
  Inv s -> (forall t, t ∈ ts' -> t ∈ threads s) -> NoDup (omap raiseHost ts') -> State r <> apApproved ->
  Inv (mkSys (hosts s) (rows s) ts' (served s) (approvedEver s) ((h, r) :: results s)).
Proof.
  intros HI Hts Hnd Hr. split; cbn [hosts rows threads served approvedEver results]; try apply HI; auto.
  - intros t Ht. apply HI, Hts, Ht.
  - intros t h' Ht. apply HI, Hts, Ht.
  - intros h' r' [[= -> ->]|?]%elem_of_cons; [done | by apply HI].
Qed.

(** The spending rule on an entry whose decision was just written or re-read. *)
Lemma consume_serves s now h st st' st1 s1 id c :
  Inv s -> hosts s !! h = Some st -> approvalID st = approvalID st1 ->
  entryPre (rows s) (approvedEver s) (served s) h st1 ->
  consumeIfOnce now st1 = (st', s1, id, c) ->
  let r := mkResult s1 id in
  servesOK s h (serve (served s) r c) /\
  entryOK (rows s) (approvedEver s) (serve (served s) r c) h st' /\
  (State r = apApproved -> ApprovalID r ∈ approvedEver s /\ ownedBy (rows s) (ApprovalID r) h).
Proof.
  intros HI Hst Hid Hpre Hc. cbv zeta. cbn [State ApprovalID].
  destruct (consume_spec _ _ _ _ _ _ Hc) as [(-> & -> & -> & -> & Ht & Hsc)|(-> & Hs & -> & -> & Hns)].
  - destruct (ep_term _ _ _ _ _ Hpre Ht) as [Hn Hd]. destruct (ep_own _ _ _ _ _ Hpre Hn) as [Ho Hni].
    split_and!.
    + unfold serve. cbn [andb State ApprovalID]. case_bool_decide; [right|by left].
      exists (approvalID st1). split_and!; auto. intros t Ht'. eapply no_raise_thread; eauto. congruence.
    + apply freshEntry_ok.
    + intros Ha. split; [by apply (ep_appr _ _ _ _ _ Hpre) | done].
  - change (serve (served s) (mkResult (state st') (approvalID st')) false) with (served s).
    assert (Hp : entryPre (rows s) (approvedEver s) (served s) h st')
      by (destruct Hs as [->| ->]; [done | apply freshEntry_pre]).
    split_and!; [by left | by split |]. intros Ha.
    split; [by apply (ep_appr _ _ _ _ _ Hp)|]. apply (ep_own _ _ _ _ _ Hp).
    apply (ep_term _ _ _ _ _ Hp). by rewrite Ha.
Qed.

Lemma size_update (m : cache) h st st' : m !! h = Some st -> size (<[h := st']> m) = size m.
Proof. intros H. by apply map_size_insert_Some. Qed.

Lemma raises_remove t1 t t2 : NoDup (omap raiseHost (t1 ++ t :: t2)%list) -> NoDup (omap raiseHost (t1 ++ t2)%list).
Proof.
  rewrite !omap_app. cbn. destruct (raiseHost t); [|done].
  rewrite !NoDup_app. intros (H1 & H2 & H3). apply NoDup_cons in H3 as [H3 H4].
  split_and!; [done | | done]. intros x Hx Hx2. apply (H2 x Hx). by right.
Qed.

Lemma raises_replace t1 t t' t2 :
  raiseHost t = raiseHost t' -> omap raiseHost (t1 ++ t :: t2)%list = omap raiseHost (t1 ++ t' :: t2)%list.
Proof. intros H. rewrite !omap_app. cbn. by rewrite H. Qed.

Lemma elem_remove {A} (x t : A) t1 t2 : x ∈ (t1 ++ t2)%list -> x ∈ (t1 ++ t :: t2)%list.
Proof. rewrite !elem_of_app, elem_of_cons. tauto. Qed.

(** The entry of a call in flight on a known id: no raise is under way for it. *)
Lemma inv_known s h st st' sv' ts' r :
  Inv s -> hosts s !! h = Some st -> approvalID st <> Nil -> (forall t, t ∈ ts' -> t ∈ threads s) ->
  NoDup (omap raiseHost ts') -> servesOK s h sv' -> entryOK (rows s) (approvedEver s) sv' h st' ->
  (State r = apApproved -> ApprovalID r ∈ approvedEver s /\ ownedBy (rows s) (ApprovalID r) h) ->
  Inv (mkSys (<[h := st']> (hosts s)) (rows s) ts' sv' (approvedEver s) ((h, r) :: results s)).
Proof.
  intros HI Hst Hn Hts Hnd Hsv Hok Hr. apply inv_section; auto.
  - rewrite (size_update _ _ _ _ Hst). apply HI.
  - intros t Ht. left. split; [auto|]. intros He. exfalso. by eapply (no_raise_thread s h st t); eauto.
  - right. eauto.
Qed.

Lemma entryPre_decided s h st s1 sc exp t lp :
  entryOK (rows s) (approvedEver s) (served s) h st -> approvalID st <> Nil ->
  answerOK (rows s) (approvedEver s) (approvalID st) s1 -> s1 <> apExpired ->
  entryPre (rows s) (approvedEver s) (served s) h (mkHA s1 (approvalID st) lp sc exp (holdStart st) (Some t)).
Proof.
  intros [Hp _] Hn (Hd & Hrow & Hev) Hne. unfold decision in Hd.
  assert (Hs : s1 = apApproved \/ s1 = apDenied) by (destruct s1; try done; auto).
  split; cbn [state approvalID scope]; auto.
  - destruct Hs as [->| ->]; intros [?|?]; done.
  - intros _. by apply (ep_own _ _ _ _ _ Hp).
  - destruct Hs as [->| ->]; auto.
  - by destruct Hs as [->| ->].
Qed.

Lemma inv_pollDone s now h id cur prev a ts' m' r c :
  Inv s -> threadOK (rows s) (approvedEver s) (served s) (TPolled h id cur prev a) ->
  (forall t, t ∈ ts' -> t ∈ threads s) -> NoDup (omap raiseHost ts') ->
  pollDone now h id cur prev a (hosts s) = (m', r, c) ->
  Inv (mkSys m' (rows s) ts' (serve (served s) r c) (approvedEver s) ((h, r) :: results s)).
Proof.
  intros HI Hok Hts Hnd. unfold pollDone. destruct (hosts s !! h) as [st|] eqn:Hst.
  2: { intros [= <- <- <-]. by apply inv_answer. }
  destruct (Z.eqb_spec (approvalID st) id) as [Hid|Hid]; cbn [negb].
  2: { intros [= <- <- <-]. by apply inv_answer. }
  pose proof (i_entries s HI h st Hst) as Hst0. pose proof Hst0 as [Hpre Hns].
  assert (Hn : approvalID st <> Nil) by (rewrite Hid; destruct a; [exact Hok | apply Hok]).
  assert (Hreset : forall r0, State r0 <> apApproved ->
    Inv (mkSys (<[h := freshEntry]> (hosts s)) (rows s) ts' (serve (served s) r0 false) (approvedEver s) ((h, r0) :: results s))).
  { intros r0 Hr0. eapply inv_known; eauto; [by left | apply freshEntry_ok | done]. }
  assert (Hcons : forall st1 st2 s2 id2 c2, approvalID st = approvalID st1 ->
    entryPre (rows s) (approvedEver s) (served s) h st1 -> consumeIfOnce now st1 = (st2, s2, id2, c2) ->
    Inv (mkSys (<[h := st2]> (hosts s)) (rows s) ts' (serve (served s) (mkResult s2 id2) c2) (approvedEver s)
           ((h, mkResult s2 id2) :: results s))).
  { intros st1 st2 s2 id2 c2 He Hp1 Hc.
    destruct (consume_serves s now h st st2 st1 s2 id2 c2 HI Hst He Hp1 Hc) as (H1 & H2 & H3).
    by eapply inv_known. }
  destruct a as [|s1 sc exp].
  - set (st1 := if bool_decide (cur = apApproved) then set_lastPoll st prev else st).
    assert (Hp1 : entryPre (rows s) (approvedEver s) (served s) h st1 /\ approvalID st = approvalID st1).
    { unfold st1. case_bool_decide; [|done]. split; [|done]. by destruct Hpre. }
    destruct Hp1 as [Hp1 He]. destruct (_ && _); [intros [= <- <- <-]; by apply Hreset|].
    destruct (consumeIfOnce now st1) as [[[st2 s2] id2] c2] eqn:Hc. intros [= <- <- <-]. by eapply Hcons.
  - destruct Hok as [_ Hans]. destruct (decide (s1 = apExpired)) as [->|Hne]; [intros [= <- <- <-]; by apply Hreset|].
    rewrite <- Hid in Hans.
    destruct (consumeIfOnce now (mkHA s1 (approvalID st) (lastPoll st) sc exp (holdStart st) (Some now)))
      as [[[st2 s2] id2] c2] eqn:Hc.
    intros H. assert (E : (<[h:=st2]> (hosts s), mkResult s2 id2, c2) = (m', r, c)) by (destruct s1; done || exact H).
    injection E as <- <- <-. eapply Hcons; [|by apply entryPre_decided | exact Hc]. done.
Qed.

Lemma inv_holdDone s now h id s1 sc exp ts' m' r c :
  Inv s -> threadOK (rows s) (approvedEver s) (served s) (THeld h id s1 sc exp) ->
  (forall t, t ∈ ts' -> t ∈ threads s) -> NoDup (omap raiseHost ts') ->
  holdDone now h id s1 sc exp (hosts s) = (m', r, c) ->
  Inv (mkSys m' (rows s) ts' (serve (served s) r c) (approvedEver s) ((h, r) :: results s)).
Proof.
  intros HI [Hidn Hans] Hts Hnd. unfold holdDone.
  assert (Hskip : forall r0, State r0 <> apApproved ->
    Inv (mkSys (hosts s) (rows s) ts' (serve (served s) r0 false) (approvedEver s) ((h, r0) :: results s)))
    by (intros; by apply inv_answer).
  destruct (hosts s !! h) as [st|] eqn:Hst.
  2: { intros [= <- <- <-]. apply Hskip. cbn. by case_bool_decide. }
  destruct (Z.eqb_spec (approvalID st) id) as [Hid|Hid]; cbn [negb].
  2: { intros [= <- <- <-]. apply Hskip. cbn. by case_bool_decide. }
  pose proof (i_entries s HI h st Hst) as Hst0. assert (Hn : approvalID st <> Nil) by congruence.
  case_bool_decide as Hx.
  - intros [= <- <- <-]. eapply inv_known; eauto; [by left | apply freshEntry_ok | done].
  - rewrite <- Hid in Hans.
    destruct (consumeIfOnce now (mkHA s1 (approvalID st) now sc exp (holdStart st) (Some now))) as [[[st2 s2] id2] c2] eqn:Hc.
    intros [= <- <- <-].
    destruct (consume_serves s now h st st2 (mkHA s1 (approvalID st) now sc exp (holdStart st) (Some now)) s2 id2 c2 HI Hst
                eq_refl (entryPre_decided s h st s1 sc exp now now Hst0 Hn Hans Hx) Hc) as (H1 & H2 & H3).
    by eapply inv_known.
Qed.

Lemma entryOK_lastPoll rs ev sv h st t : entryOK rs ev sv h st -> entryOK rs ev sv h (set_lastPoll st t).
Proof. by intros [[] ?]. Qed.

Lemma size_new (m : cache) h st :
  (size m <= maxApprovalHosts)%nat -> ~ (m !! h = None /\ (maxApprovalHosts <= size m)%nat) ->
  (size (<[h := st]> m) <= maxApprovalHosts)%nat.
Proof.
  intros Hs Hn. destruct (m !! h) as [st0|] eqn:E; [by rewrite (size_update _ _ _ _ E)|].
  rewrite map_size_insert_None by done. destruct (decide (maxApprovalHosts <= size m)%nat); [naive_solver | lia].
Qed.

(** The entry after the first section of [Resolve], whichever way it goes on. *)
Lemma inv_resolveBegin s now h m' next :
  Inv s -> resolveBegin now h (hosts s) = (m', next) ->
  match next with
  | Done r c => Inv (mkSys m' (rows s) (threads s) (serve (served s) r c) (approvedEver s) ((h, r) :: results s))
  | NeedRaise => Inv (mkSys m' (rows s) (TRaise h :: threads s) (served s) (approvedEver s) (results s))
  | NeedPoll id cur prev =>
      Inv (mkSys m' (rows s) (TPoll h id cur prev :: threads s) (served s) (approvedEver s) (results s))
  end.
Proof.
  intros HI. unfold resolveBegin. destruct (bool_decide (hosts s !! h = None) && _) eqn:Ecap.
  { intros [= <- <-]. apply inv_answer; [done | done | apply HI | done]. }
  assert (Hsize : forall st, (size (<[h := st]> (hosts s)) <= maxApprovalHosts)%nat).
  { intros st. apply size_new; [apply HI|]. intros [H1 H2].
    rewrite (bool_decide_eq_true_2 _ H1), (bool_decide_eq_true_2 _ H2) in Ecap. done. }
  set (st0 := default freshEntry (hosts s !! h)).
  assert (Hst0 : entryOK (rows s) (approvedEver s) (served s) h st0).
  { unfold st0. destruct (hosts s !! h) eqn:E; cbn; [by apply HI | apply freshEntry_ok]. }
  destruct (consumeIfOnce now st0) as [[[st1 cur] id] consumed] eqn:Hc.
  destruct (consume_spec _ _ _ _ _ _ Hc) as [(-> & -> & -> & -> & Ht & Hsc)|(-> & Hs & -> & -> & Hns)].
  { exfalso. by apply (proj2 Hst0) in Ht. }
  assert (Hst1 : entryOK (rows s) (approvedEver s) (served s) h st1)
    by (destruct Hs as [->| ->]; [done | apply freshEntry_ok]).
  assert (Hpin : forall t, t ∈ threads s -> raiseHost t = Some h -> state st1 = apPending /\ approvalID st1 = Nil).
  { intros t Ht He. destruct (i_claim s HI t h Ht He) as (st & Hl & H1 & H2).
    assert (st0 = st) as E0 by (unfold st0; by rewrite Hl). rewrite E0 in Hc.
    assert (He0 : expiresAt st = None).
    { rewrite <- E0. apply (ep_exp _ _ _ _ _ (proj1 Hst0)). by rewrite E0, H1. }
    unfold consumeIfOnce in Hc. rewrite He0, H1 in Hc. cbn in Hc. injection Hc as <- _ _. done. }
  assert (Hgo : forall st2 ts' r, entryOK (rows s) (approvedEver s) (served s) h st2 ->
    (forall t, t ∈ ts' -> t ∈ threads s \/ (threadOK (rows s) (approvedEver s) (served s) t /\
       (forall h', raiseHost t = Some h' -> h' = h))) ->
    (forall t, t ∈ ts' -> raiseHost t = Some h -> state st2 = apPending /\ approvalID st2 = Nil) ->
    NoDup (omap raiseHost ts') ->
    (r = results s \/ exists r0, r = (h, r0) :: results s /\
       (State r0 = apApproved -> ApprovalID r0 ∈ approvedEver s /\ ownedBy (rows s) (ApprovalID r0) h)) ->
    Inv (mkSys (<[h := st2]> (hosts s)) (rows s) ts' (served s) (approvedEver s) r)).
  { intros st2 ts' r Hok Hts Hcl Hnd Hres. apply inv_section; auto; [by left|].
    intros t Ht. specialize (Hcl t Ht). destruct (Hts t Ht) as [?|[? ?]]; [left | right]; split_and?; auto. }
  destruct (decide (state st1 = apNone)) as [En|En].
  { rewrite En. cbn [bool_decide decide_rel]. rewrite (bool_decide_eq_true_2 (apNone = apNone)) by done.
    intros H. assert (Hid : approvalID st1 = Nil) by (apply (ep_none _ _ _ _ _ (proj1 Hst1)); by left).
    injection H as <- <-. apply Hgo.
    - destruct Hst1 as [[H1 H2 H3 H4 H5 H6] _]. split; [|done]. split; cbn; auto; try done.
      intros _. apply H6. by rewrite En.
    - intros t [->|Ht]%elem_of_cons; [right | by left]. split; [done|]. by intros h' [= <-].
    - intros t _ _. done.
    - cbn. constructor; [|apply HI]. intros (t & Ht & He)%list_elem_of_omap.
      destruct (Hpin t Ht He) as [Hp _]. congruence.
    - by left. }
  rewrite (bool_decide_eq_false_2 _ En). intros H.
  assert (Hnpoll : forall b, entryOK (rows s) (approvedEver s) (served s) h (if b : bool then set_lastPoll st1 now else st1))
    by (intros []; [by apply entryOK_lastPoll | done]).
  assert (Hpin2 : forall (b : bool) t, t ∈ threads s -> raiseHost t = Some h ->
     state (if b then set_lastPoll st1 now else st1) = apPending /\ approvalID (if b then set_lastPoll st1 now else st1) = Nil)
    by (intros [] t Ht He; cbn; eauto).
  assert (Hdone : forall (b : bool) r0,
    (State r0 = apApproved -> ApprovalID r0 ∈ approvedEver s /\ ownedBy (rows s) (ApprovalID r0) h) ->
    Inv (mkSys (<[h := if b then set_lastPoll st1 now else st1]> (hosts s)) (rows s) (threads s)
          (serve (served s) r0 false) (approvedEver s) ((h, r0) :: results s))).
  { intros b r0 Hr0. apply Hgo; [apply Hnpoll | intros; by left | by apply Hpin2 | apply HI | right; eauto]. }
  assert (Hpoll : forall (b : bool) id cur prev, id <> Nil ->
    Inv (mkSys (<[h := if b then set_lastPoll st1 now else st1]> (hosts s)) (rows s) (TPoll h id cur prev :: threads s)
          (served s) (approvedEver s) (results s))).
  { intros b id cur prev Hid. apply Hgo; [apply Hnpoll | | | apply HI | by left].
    - intros t [->|Ht]%elem_of_cons; [by right | by left].
    - intros t [->|Ht]%elem_of_cons; [done | by apply Hpin2]. }
  assert (Happ : state st1 = apApproved -> approvalID st1 ∈ approvedEver s /\ approvalID st1 <> Nil /\ ownedBy (rows s) (approvalID st1) h).
  { intros Ha. destruct Hst1 as [Hp _]. destruct (ep_term _ _ _ _ _ Hp) as [Hn _]; [by rewrite Ha|].
    split_and!; [by apply Hp | done | by apply (ep_own _ _ _ _ _ Hp)]. }
  set (np := _ || _) in H. destruct (state st1) eqn:Es; try done.
  - destruct np eqn:Enp; injection H as <- <-.
    + apply (Hpoll true). intros Hz. unfold np in Enp. rewrite Hz in Enp. cbn in Enp. done.
    + apply (Hdone false). done.
  - destruct np eqn:Enp; injection H as <- <-; [apply (Hpoll true) | apply (Hdone false)]; naive_solver.
  - injection H as <- <-. by apply (Hdone np).
  - exfalso. pose proof (ep_shape _ _ _ _ _ (proj1 Hst1)) as Hsh. rewrite Es in Hsh. by destruct_or! Hsh.
  - injection H as <- <-. by apply (Hdone np).
  - exfalso. pose proof (ep_shape _ _ _ _ _ (proj1 Hst1)) as Hsh. rewrite Es in Hsh. by destruct_or! Hsh.
  - exfalso. pose proof (ep_shape _ _ _ _ _ (proj1 Hst1)) as Hsh. rewrite Es in Hsh. by destruct_or! Hsh.
Qed.

Lemma inv_raiseDone s now h o t1 t2 m' r :
  Inv s -> threads s = (t1 ++ TRaised h o :: t2)%list -> raiseDone now h o (hosts s) = (m', r) ->
  Inv (mkSys m' (rows s) (t1 ++ t2)%list (served s) (approvedEver s) ((h, r) :: results s)).
Proof.
  intros HI Hts. assert (Hin : TRaised h o ∈ threads s) by (rewrite Hts; set_solver).
  destruct (i_claim s HI _ h Hin eq_refl) as (st & Hst & Hp & Hid).
  pose proof (i_entries s HI h st Hst) as [Hpre _]. pose proof (i_threads s HI _ Hin) as Hok.
  pose proof (i_raises s HI) as Hnd. rewrite Hts in Hnd.
  assert (He : expiresAt st = None) by (apply (ep_exp _ _ _ _ _ Hpre); by rewrite Hp).
  assert (Hnone : forall t, t ∈ (t1 ++ t2)%list -> raiseHost t <> Some h).
  { intros t Ht Hr. rewrite omap_app in Hnd. cbn in Hnd. apply NoDup_app in Hnd as (_ & Hd & Hc).
    apply NoDup_cons in Hc as [Hc _]. apply elem_of_app in Ht as [Ht|Ht].
    - apply (Hd h); [apply list_elem_of_omap; eauto | by left].
    - apply Hc, list_elem_of_omap. eauto. }
  assert (Hgo : forall st' r0, entryOK (rows s) (approvedEver s) (served s) h st' -> State r0 <> apApproved ->
    Inv (mkSys (<[h := st']> (hosts s)) (rows s) (t1 ++ t2)%list (served s) (approvedEver s) ((h, r0) :: results s))).
  { intros st' r0 Hst' Hr0. apply inv_section; auto; [by left | | | by eapply raises_remove | right; eexists; split; [done | done]].
    - rewrite (size_update _ _ _ _ Hst). apply HI.
    - intros t Ht. left. split; [rewrite Hts; by apply elem_remove | intros E; by apply Hnone in E]. }
  unfold raiseDone. rewrite Hst, Hp, Hid. cbn. destruct o as [newID|settled]; intros [= <- <-].
  - apply Hgo; [|done]. destruct Hok as (Hn & Ho & Hni). split; [|done]. split; cbn; auto; try done. by intros [?|?].
  - apply Hgo; [|by destruct settled]. split; [|by destruct settled].
    split; cbn; rewrite ?Hid; auto; try (by destruct settled); destruct settled; auto.
Qed.

(** Rows only move forward, and what is known of an approval stays known. *)
Lemma inv_rows s rs' ev' :
  Inv s -> (forall id h, ownedBy (rows s) id h -> ownedBy rs' id h) ->
  (forall id, decidedRow (rows s) id -> decidedRow rs' id) -> approvedEver s ⊆ ev' ->
  (forall id o s0 sc exp, rs' !! id = Some (mkRow o (RowDecided s0 sc exp)) -> decision s0 = true /\ (s0 = apApproved -> id ∈ ev')) ->
  rs' !! Nil = None ->
  Inv (mkSys (hosts s) rs' (threads s) (served s) ev' (results s)).
Proof.
  intros HI Hown Hdec Hev Hrows Hnil. split; cbn [hosts rows threads served approvedEver results]; try apply HI; auto.
  - intros h st Hst. destruct (i_entries s HI h st Hst) as [[H1 H2 H3 H4 H5 H6] Hn]. split; [|done].
    split; auto; intros Hx; [destruct (H2 Hx); auto | destruct (H3 Hx); auto].
  - intros t Ht. pose proof (i_threads s HI t Ht) as Hok.
    assert (Hans : forall id s0, answerOK (rows s) (approvedEver s) id s0 -> answerOK rs' ev' id s0)
      by (intros id s0 (? & ? & ?); split_and!; auto).
    destruct t as [|? []| |? ? ? ? []| |]; cbn in *; destruct_and?; auto.
  - intros id Hid. by apply Hdec, HI.
  - intros h r Hr Ha. destruct (i_results s HI h r Hr Ha). auto.
Qed.

Lemma inv_replace s t t' t1 t2 :
  Inv s -> threads s = (t1 ++ t :: t2)%list -> raiseHost t = raiseHost t' ->
  threadOK (rows s) (approvedEver s) (served s) t' ->
  Inv (mkSys (hosts s) (rows s) (t1 ++ t' :: t2)%list (served s) (approvedEver s) (results s)).
Proof.
  intros HI Hts Hr Hok. assert (Hin : forall x, x ∈ (t1 ++ t' :: t2)%list -> x = t' \/ x ∈ threads s).
  { intros x. rewrite Hts, !elem_of_app, !elem_of_cons. tauto. }
  split; cbn [hosts rows threads served approvedEver results]; try apply HI.
  - intros x [->|Hx]%Hin; [done | by apply HI].
  - intros x h [->|Hx]%Hin Hx'; [|by eapply i_claim]. apply (i_claim s HI t); [rewrite Hts; set_solver | congruence].
  - rewrite <- (raises_replace _ _ _ _ Hr), <- Hts. apply HI.
Qed.

Lemma inv_drop s t t1 t2 h r :
  Inv s -> threads s = (t1 ++ t :: t2)%list -> State r <> apApproved ->
  Inv (mkSys (hosts s) (rows s) (t1 ++ t2)%list (served s) (approvedEver s) ((h, r) :: results s)).
Proof.
  intros HI Hts Hr. apply inv_answer; [done | | | done].
  - intros x Hx. rewrite Hts. by apply elem_remove.
  - apply (raises_remove t1 t). rewrite <- Hts. apply HI.
Qed.

Lemma inv_hold_thread s h id : Inv s -> id <> Nil ->
  Inv (mkSys (hosts s) (rows s) (THold h id :: threads s) (served s) (approvedEver s) (results s)).
Proof.
  intros HI Hid. split; cbn [hosts rows threads served approvedEver results]; try apply HI.
  - intros x [->|Hx]%elem_of_cons; [done | by apply HI].
  - intros x h' [->|Hx]%elem_of_cons Hr; [done | by eapply i_claim].
Qed.

Lemma inv_rejoin s now h id m' b : Inv s -> claimRejoin now h id (hosts s) = (m', b) ->
  Inv (mkSys m' (rows s) (threads s) (served s) (approvedEver s) (results s)).
Proof.
  intros HI. unfold claimRejoin. assert (Hs : s = mkSys (hosts s) (rows s) (threads s) (served s) (approvedEver s) (results s)) by (by destruct s).
  destruct (hosts s !! h) as [st|] eqn:Hst; [|intros [= <- <-]; by rewrite <- Hs].
  destruct (_ || _); intros [= <- <-]; [by rewrite <- Hs|]. apply inv_section; auto.
  - by left.
  - by destruct (i_entries s HI h st Hst) as [[] ?].
  - rewrite (size_update _ _ _ _ Hst). apply HI.
  - intros t Ht. left. split; [done|]. intros He. destruct (i_claim s HI t h Ht He) as (st' & Hst' & ? & ?).
    cbn. by assert (st' = st) as <- by congruence.
  - apply HI.
Qed.

Lemma step_inv s s' : Inv s -> step s s' -> Inv s'.
Proof.
  intros HI Hs. destruct Hs.
  - by apply (inv_resolveBegin _ _ _ _ _ HI) in H.
  - by apply (inv_resolveBegin _ _ _ _ _ HI) in H.
  - by apply (inv_resolveBegin _ _ _ _ _ HI) in H.
  - by eapply (inv_replace (mkSys m rs _ sv ev res) _ (TRaised h (RaiseFailed settled))).
  - assert (Hfresh : id ∉ sv) by (intros Hx; destruct (i_served _ HI id Hx) as (? & ? & ? & ? & Hx'); cbn in Hx'; congruence).
    assert (HI' : Inv (mkSys m (<[id:=mkRow h RowPending]> rs) (t1 ++ TRaise h :: t2)%list sv ev res)).
    { apply (inv_rows _ _ ev HI); cbn.
      - intros id' h' [r Hr]. destruct (decide (id = id')) as [<-|]; [congruence|]. exists r. by rewrite lookup_insert_ne.
      - intros id' (o & s & sc & exp & Hr). destruct (decide (id = id')) as [<-|]; [congruence|].
        exists o, s, sc, exp. by rewrite lookup_insert_ne.
      - done.
      - intros id' o s sc exp. destruct (decide (id = id')) as [<-|]; [by rewrite lookup_insert_eq|].
        rewrite lookup_insert_ne by done. apply (i_rows _ HI).
      - rewrite lookup_insert_ne by done. apply (i_nil _ HI). }
    apply (inv_replace _ (TRaise h) (TRaised h (Raised id)) t1 t2 HI'); [done | done |].
    cbn [threadOK rows approvedEver served]. split_and!; [done | exists RowPending; apply lookup_insert_eq | done].
  - eapply (inv_replace (mkSys m rs _ sv ev res) _ (TRaised h (Raised id))); [done | done | done |]. cbn. split_and!.
    + intros ->. pose proof (i_nil _ HI) as Hn. cbn in Hn. congruence.
    + by eexists.
    + intros Hx. destruct (i_served _ HI id Hx) as (? & ? & ? & ? & Hx'). cbn in Hx'. congruence.
  - by eapply (inv_raiseDone (mkSys m rs _ sv ev res)).
  - eapply (inv_replace (mkSys m rs _ sv ev res) _ (TPolled h id cur prev Undecided)); [done | done | done |].
    apply (i_threads _ HI (TPoll h id cur prev)). cbn. set_solver.
  - eapply (inv_replace (mkSys m rs _ sv ev res) _ (TPolled h id cur prev (Decided s sc exp))); [done | done | done |].
    pose proof (i_threads _ HI (TPoll h id cur prev) ltac:(cbn; set_solver)) as Hid.
    destruct (i_rows _ HI _ _ _ _ _ H) as [Hd Ha].
    split; [exact Hid|]. split_and!; [exact Hd | by eexists _, _, _, _ | exact Ha].
  - pose proof (i_threads _ HI (TPolled h id cur prev a) ltac:(cbn; set_solver)) as Hok.
    eapply (inv_pollDone (mkSys m rs _ sv ev res)); [done | done | | | done]; cbn.
    + intros t. apply elem_remove.
    + eapply raises_remove, (i_raises _ HI).
  - by apply (inv_hold_thread (mkSys m rs ts sv ev res)).
  - by eapply (inv_drop (mkSys m rs _ sv ev res)).
  - eapply (inv_replace (mkSys m rs _ sv ev res) _ (THeld h id s sc exp)); [done | done | done |].
    pose proof (i_threads _ HI (THold h id) ltac:(cbn; set_solver)) as Hid.
    destruct (i_rows _ HI _ _ _ _ _ H) as [Hd Ha].
    split; [exact Hid|]. split_and!; [exact Hd | by eexists _, _, _, _ | exact Ha].
  - pose proof (i_threads _ HI (THeld h id s sc exp) ltac:(cbn; set_solver)) as Hok.
    eapply (inv_holdDone (mkSys m rs _ sv ev res)); [done | done | | | done]; cbn.
    + intros t. apply elem_remove.
    + eapply raises_remove, (i_raises _ HI).
  - by eapply (inv_rejoin (mkSys m rs ts sv ev res)).
  - apply (inv_rows _ _ _ HI); cbn.
    + intros id' h' [r Hr]. destruct (decide (id = id')) as [<-|]; [|exists r; by rewrite lookup_insert_ne].
      exists (RowDecided s sc exp). rewrite lookup_insert_eq. congruence.
    + intros id' (o' & s0 & sc0 & exp0 & Hr). destruct (decide (id = id')) as [<-|]; [congruence|].
      exists o', s0, sc0, exp0. by rewrite lookup_insert_ne.
    + case_decide; set_solver.
    + intros id' o' s0 sc0 exp0. destruct (decide (id = id')) as [<-|].
      * rewrite lookup_insert_eq. intros [= <- <- <- <-]. split; [done|]. intros ->. rewrite decide_True by done. set_solver.
      * rewrite lookup_insert_ne by done. intros Hr. destruct (i_rows _ HI _ _ _ _ _ Hr) as [? Hx]. cbn in Hx.
        split; [done|]. intros ->. specialize (Hx eq_refl). case_decide; set_solver.
    + pose proof (i_nil _ HI) as Hn. cbn in Hn. rewrite lookup_insert_ne; [done|]. intros ->. congruence.
  - apply (inv_rows _ _ _ HI); cbn.
    + intros id' h' [r Hr]. destruct (decide (id = id')) as [<-|]; [|exists r; by rewrite lookup_insert_ne].
      exists (RowDecided s' sc' exp'). rewrite lookup_insert_eq. congruence.
    + intros id' (o' & s0 & sc0 & exp0 & Hr). destruct (decide (id = id')) as [<-|].
      * exists o, s', sc', exp'. by rewrite lookup_insert_eq.
      * exists o', s0, sc0, exp0. by rewrite lookup_insert_ne.
    + done.
    + intros id' o' s0 sc0 exp0. destruct (decide (id = id')) as [<-|].
      * rewrite lookup_insert_eq. intros [= <- <- <- <-]. by destruct H0 as [->| ->].
      * rewrite lookup_insert_ne by done. apply (i_rows _ HI).
    + pose proof (i_nil _ HI) as Hn. cbn in Hn. rewrite lookup_insert_ne; [done|]. intros ->. congruence.
Qed.

Lemma reachable_inv s : reachable s -> Inv s.
Proof.
  induction 1 as [|s s' _ IH Hs]; [|by eapply step_inv].
  split; cbn [hosts rows threads served approvedEver results sys0 omap list_omap].
  - intros h st. by rewrite lookup_empty.
  - intros t Ht. by apply not_elem_of_nil in Ht.
  - intros t h Ht. by apply not_elem_of_nil in Ht.
  - constructor.
  - constructor.
  - intros id Hid. by apply not_elem_of_nil in Hid.
  - intros id o s0 sc exp. by rewrite lookup_empty.
  - apply lookup_empty.
  - intros h r Hr. by apply not_elem_of_nil in Hr.
  - rewrite map_size_empty. lia.
Qed.

(** ** What the interleavings guarantee *)

(** C8: a grant for one use is served at most once, however many requests and
    held connections race for it: no approval id is spent twice, and no decided
    entry for one use is ever left in the cache for the next request. *)
Theorem once_grant_is_served_once s :
  reachable s ->
  NoDup (served s) /\
  forall h st, hosts s !! h = Some st -> state st = apApproved -> normalizeScope (scope st) <> ScopeOnce.
Proof.
  intros HI%reachable_inv. split; [apply HI|]. intros h st Hst Ha.
  destruct (i_entries s HI h st Hst) as [_ Hns]. apply Hns. by rewrite Ha.
Qed.

(** C9: a request is released only by an approval a human approved, and one that
    was asked for that very host: a stale poll, a failed raise or a reset entry
    never turns into an approved answer. *)
Theorem approved_answer_was_decided s h r :
  reachable s -> (h, r) ∈ results s -> State r = apApproved ->
  ApprovalID r ∈ approvedEver s /\ ownedBy (rows s) (ApprovalID r) h.
Proof. intros HI%reachable_inv. apply HI. Qed.

(** The cache never holds more hosts than its cap, and at the cap a new host
    is refused with nothing written and no approval raised. *)
Theorem approval_cache_is_bounded s now h :
  reachable s ->
  (size (hosts s) <= maxApprovalHosts)%nat /\
  (hosts s !! h = None -> size (hosts s) = maxApprovalHosts ->
   resolveBegin now h (hosts s) = (hosts s, Done (mkResult apCapped Nil) false)).
Proof.
  intros HI%reachable_inv. split; [apply HI|]. intros Hn Hs. unfold resolveBegin.
  rewrite (bool_decide_eq_true_2 _ Hn), (bool_decide_eq_true_2 (maxApprovalHosts <= size (hosts s))%nat) by lia. done.
Qed.

(** At most one raise is in flight per host, so a host never gets two
    approval rows for one first use. *)
Theorem one_raise_per_host s h i j t1 t2 :
  reachable s -> threads s !! i = Some t1 -> threads s !! j = Some t2 ->
  raiseHost t1 = Some h -> raiseHost t2 = Some h -> i = j.
Proof.
  intros HI%reachable_inv Hi Hj E1 E2.
  pose proof (i_raises s HI) as Hnd. revert Hnd i j Hi Hj. generalize (threads s).
  induction l as [|t l IH]; intros Hnd i j Hi Hj; [done|]. cbn in Hnd.
  assert (Hl : NoDup (omap raiseHost l)) by (destruct (raiseHost t); [by apply NoDup_cons in Hnd as [_ ?] | done]).
  assert (Hx : forall k x, l !! k = Some x -> raiseHost x = Some h -> raiseHost t <> Some h).
  { intros k x Hk Hr Ht. rewrite Ht in Hnd. apply NoDup_cons in Hnd as [Hni _]. apply Hni.
    apply list_elem_of_omap. exists x. split; [by eapply list_elem_of_lookup_2 | done]. }
  destruct i as [|i], j as [|j]; cbn in Hi, Hj; simplify_eq; try done.
  - exfalso. by eapply Hx.
  - exfalso. by eapply Hx.
  - f_equal. by eapply IH.
Qed.

(** ** A run of the system: one host asked, approved for one use, served *)

Definition demoCache1 : cache := fst (resolveBegin 10 "a.example" ∅).
Definition demoCache2 : cache := fst (raiseDone 20 "a.example" (Raised 1) demoCache1).
Definition demoCache3 : cache := fst (fst (holdDone 30 "a.example" 1 apApproved ScopeOnce None demoCache2)).
Definition demoRow (r : rowState) : gmap Z cpRow := <[1 := mkRow "a.example" r]> ∅.
Definition demoSys : sys :=
  mkSys demoCache3 (<[1 := mkRow "a.example" (RowDecided apApproved ScopeOnce None)]> (demoRow RowPending)) [] [1] ({[1]} ∪ ∅)
    [("a.example", mkResult apApproved 1); ("a.example", mkResult apPending 1)].

Lemma demo_reachable : reachable demoSys.
Proof.
  assert (H1 : reachable (mkSys demoCache1 ∅ [TRaise "a.example"] [] ∅ [])).
  { eapply r_step; [apply r_init|]. apply (s_resolve_raise 10 "a.example" ∅). vm_compute. reflexivity. }
  assert (H2 : reachable (mkSys demoCache1 (demoRow RowPending) [TRaised "a.example" (Raised 1)] [] ∅ [])).
  { eapply r_step; [exact H1|]. apply (s_raise_new "a.example" 1 demoCache1 ∅ [] [] [] ∅ []); [reflexivity | done]. }
  assert (H3 : reachable (mkSys demoCache2 (demoRow RowPending) [] [] ∅ [("a.example", mkResult apPending 1)])).
  { eapply r_step; [exact H2|]. apply (s_raise_done 20 "a.example" (Raised 1) demoCache1 _ _ _ [] []). vm_compute. reflexivity. }
  assert (H4 : reachable (mkSys demoCache2 (demoRow RowPending) [THold "a.example" 1] [] ∅ [("a.example", mkResult apPending 1)])).
  { eapply r_step; [exact H3|]. by apply s_hold. }
  assert (H5 : reachable (mkSys demoCache2 (<[1 := mkRow "a.example" (RowDecided apApproved ScopeOnce None)]> (demoRow RowPending))
                            [THold "a.example" 1] [] ({[1]} ∪ ∅) [("a.example", mkResult apPending 1)])).
  { eapply r_step; [exact H4|]. by apply (s_decide 1 "a.example" apApproved ScopeOnce None). }
  eapply r_step.
  { eapply r_step; [exact H5|]. by apply (s_hold_answer "a.example" 1 "a.example" apApproved ScopeOnce None _ _ [] []). }
  apply (s_hold_done 30 "a.example" 1 apApproved ScopeOnce None demoCache2 demoCache3 (mkResult apApproved 1) true _ [] []). vm_compute. reflexivity.
Qed.

Lemma once_grant_is_served_once_witness : served demoSys = [1] /\ NoDup (served demoSys).
Proof. split; [reflexivity | exact (proj1 (once_grant_is_served_once demoSys demo_reachable))]. Defined.

Lemma approved_answer_was_decided_witness :
  (1 : Z) ∈ approvedEver demoSys /\ ownedBy (rows demoSys) 1 "a.example".
Proof.
  apply (approved_answer_was_decided demoSys "a.example" (mkResult apApproved 1) demo_reachable); [left | reflexivity].
Defined.

Lemma approval_cache_is_bounded_witness : (size (hosts demoSys) <= maxApprovalHosts)%nat.
Proof. exact (proj1 (approval_cache_is_bounded demoSys 0 "b.example" demo_reachable)). Defined.

Definition raisingSys : sys := mkSys demoCache1 ∅ [TRaise "a.example"] [] ∅ [].

Lemma one_raise_per_host_witness :
  threads raisingSys !! 0%nat = Some (TRaise "a.example") /\
  ~ (exists j t, threads raisingSys !! S j = Some t /\ raiseHost t = Some "a.example").
Proof.
  assert (H1 : reachable raisingSys).
  { eapply r_step; [apply r_init|]. apply (s_resolve_raise 10 "a.example" ∅). vm_compute. reflexivity. }
  split; [reflexivity|]. intros (j & t & Hj & Ht).
  discriminate (one_raise_per_host raisingSys "a.example" 0 (S j) (TRaise "a.example") t H1 eq_refl Hj eq_refl Ht).
Defined.

(** ** Staleness and holds *)

(** An approved host that could not be re-checked is served only while its
    last confirmation is younger than two minutes; after that the grant is
    dropped, this request is refused, and the next one asks again. A poll whose
    approval is no longer the host's writes nothing. *)
Theorem unconfirmed_grant_goes_stale now h id prev m st v :
  m !! h = Some st -> approvalID st = id -> state st = apApproved -> expiresAt st = None ->
  normalizeScope (scope st) <> ScopeOnce -> verifiedAt st = Some v ->
  pollDone now h id apApproved prev Undecided m =
    (if now - v <? maxApprovalStaleness
     then (<[h := set_lastPoll st prev]> m, mkResult apApproved id, false)
     else (<[h := freshEntry]> m, mkResult apStale id, false)) /\
  (forall id' a, id' <> id -> pollDone now h id' apApproved prev a m = (m, mkResult apPending id, false)).
Proof.
  intros Hm Hid Hs He Hsc Hv. unfold pollDone. rewrite Hm, Hid. split.
  - rewrite Z.eqb_refl. cbn [negb]. rewrite bool_decide_eq_true_2 by done. cbn [andb verifiedAt set_lastPoll]. rewrite Hv.
    rewrite Z.geb_leb, Z.leb_antisym. destruct (now - v <? maxApprovalStaleness); cbn [negb]; [|done].
    assert (Hc : consumeIfOnce now (set_lastPoll st prev) = (set_lastPoll st prev, apApproved, id, false)).
    { unfold consumeIfOnce. destruct st. cbn in *. subst. cbn. apply String.eqb_neq in Hsc. by rewrite Hsc. }
    by rewrite Hc.
  - intros id' a Hne. apply Z.eqb_neq in Hne. rewrite Z.eqb_sym, Hne. done.
Qed.

Definition demoGrant : hostApproval := mkHA apApproved 7 0 "run" None 0 (Some 0).

Lemma unconfirmed_grant_goes_stale_witness :
  pollDone (200 * sec) "a.example" 7 apApproved 0 Undecided {["a.example" := demoGrant]}
    = (<["a.example" := freshEntry]> {["a.example" := demoGrant]}, mkResult apStale 7, false).
Proof.
  destruct (unconfirmed_grant_goes_stale (200 * sec) "a.example" 7 0 {["a.example" := demoGrant]} demoGrant 0) as [H _];
    [reflexivity | reflexivity | reflexivity | reflexivity | vm_compute; discriminate | reflexivity |].
  rewrite H. vm_compute. reflexivity.
Defined.

(** Whatever a stored policy asks, a hold lasts at most ten minutes and at
    most 256 requests are held at once; unset values keep the defaults. *)
Theorem hold_limits_are_clamped timeout maxHolds :
  let c := configureHold newHold timeout maxHolds in
  0 < holdTimeout c <= maxHoldTimeout /\ 0 < holdCap c <= maxHoldsCeiling /\
  (timeout <= 0 -> holdTimeout c = defaultHoldTimeout) /\ (maxHolds <= 0 -> holdCap c = defaultMaxHolds).
Proof.
  cbv zeta. unfold configureHold, newHold, maxHoldTimeout, maxHoldsCeiling, defaultHoldTimeout, defaultMaxHolds, sec.
  cbn [holdTimeout holdCap]. destruct (Z.gtb_spec timeout 0), (Z.gtb_spec maxHolds 0); lia.
Qed.
