(* ===== verification/PrivateIPMemo.v ===== *)
(** * Decision rows and the memo of private-address refusals

    [DecisionLog] of [internal/egress/egress.go] with the fields the decision
    pipeline writes, and [internal/egress/proxy/private_ip_memo.go]: the bounded
    per-run memo that answers an identical repeat of a private-address refusal and
    counts it, and closes a streak with one summary row.

    Go ranges over the map in any order when it looks for the oldest entry; the
    definition takes the order of [map_to_list], and no theorem depends on which
    of two equally old entries goes. *)
From S2P Require Import Prelude GoStrings IPGuard EgressPolicy.
Local Open Scope string_scope.
Local Open Scope Z_scope.

Inductive Decision := Allow | Deny | Pending.

#[export] Instance Decision_eq_dec : EqDecision Decision.
Proof. solve_decision. Defined.

Record DecisionLog := mkLog {
  LRequest : Request; LTime : Z; LDecision : Decision; RuleSource : string; LApprovalID : option Z;
  Cause : string; Via : string; Repeat : Z; LPortRule : string;
}.

Definition decisionLog (req : Request) (now : Z) (d : Decision) (src : string) : DecisionLog :=
  mkLog req now d src None "" "" 0 "".

(** ** The memo *)

Definition privateIPMemoMax : nat := 64.

Record streak := mkStreak { sreq : Request; repeats : Z; slast : Z; skind : blockKind; shint : string }.

Abbreviation memo := (gmap string streak).

Definition closeStreak (s : streak) : option DecisionLog :=
  if repeats s =? 0 then None
  else Some (mkLog (sreq s) (slast s) Deny "builtin:private-ip" None (shint s) "" (repeats s) "").

(** The oldest entry of the table. *)
Definition older (best : option (string * streak)) (e : string * streak) : option (string * streak) :=
  match best with
  | None => Some e
  | Some b => if slast (snd e) <? slast (snd b) then Some e else best
  end.
Definition oldest (m : memo) : option (string * streak) := fold_left older (map_to_list m) None.

(** [record] opens a streak and returns the row of the one it evicted. *)
Definition record (m : memo) (req : Request) (now : Z) (kind : blockKind) (hint : string) : memo * option DecisionLog :=
  let key := hostPortKey (Host req) (RPort req) in
  match m !! key with
  | Some _ => (m, None)
  | None =>
      let fresh := mkStreak req 0 now kind hint in
      if (privateIPMemoMax <=? size m)%nat then
        match oldest m with
        | Some (k, s) => (<[key := fresh]> (delete k m), closeStreak s)
        | None => (<[key := fresh]> m, None)
        end
      else (<[key := fresh]> m, None)
  end.

Definition hit (m : memo) (host : string) (port now : Z) : memo * bool :=
  let key := hostPortKey host port in
  match m !! key with
  | None => (m, false)
  | Some s => (<[key := mkStreak (sreq s) (repeats s + 1) now (skind s) (shint s)]> m, true)
  end.

Definition memoed (m : memo) (host : string) (port : Z) : bool := bool_decide (is_Some (m !! hostPortKey host port)).

Definition kindOf (m : memo) (host : string) (port : Z) : blockKind * string :=
  match m !! hostPortKey host port with Some s => (skind s, shint s) | None => (blockNone, "") end.

Definition drain (m : memo) : memo * list DecisionLog := (∅, omap (fun e => closeStreak (snd e)) (map_to_list m)).

(** ** Operations in sequence *)

Inductive memoOp :=
| OpRecord (req : Request) (now : Z) (kind : blockKind) (hint : string)
| OpHit (host : string) (port now : Z)
| OpDrain.

(** The memo, the rows written, and how many repeats were answered. *)
Definition memoStep (st : memo * list DecisionLog * Z) (op : memoOp) : memo * list DecisionLog * Z :=
  let '(m, rows, hits) := st in
  match op with
  | OpRecord req now kind hint =>
      let '(m', row) := record m req now kind hint in
      (m', (match row with Some r => [r] | None => [] end ++ rows)%list, hits)
  | OpHit host port now => let '(m', h) := hit m host port now in (m', rows, if h then hits + 1 else hits)
  | OpDrain => let '(m', out) := drain m in (m', (out ++ rows)%list, hits)
  end.

Definition memoRun (ops : list memoOp) : memo * list DecisionLog * Z := fold_left memoStep ops (∅, [], 0).

(** ** Nothing is lost *)

Definition sumRepeats (m : memo) : Z := map_fold (fun _ s acc => repeats s + acc) 0 m.
Definition sumRows (rows : list DecisionLog) : Z := foldr (fun r acc => Repeat r + acc) 0 rows.

Lemma sumRepeats_insert m k s : m !! k = None -> sumRepeats (<[k := s]> m) = repeats s + sumRepeats m.
Proof. intros H. apply (map_fold_insert_L (fun _ s acc => repeats s + acc) 0); [intros; lia | done]. Qed.

Lemma sumRepeats_delete m k s : m !! k = Some s -> sumRepeats m = repeats s + sumRepeats (delete k m).
Proof. intros H. apply (map_fold_delete_L (fun _ s acc => repeats s + acc) 0); [intros; lia | done]. Qed.

Lemma sumRepeats_replace m k s s' :
  m !! k = Some s -> sumRepeats (<[k := s']> m) = sumRepeats m + repeats s' - repeats s.
Proof.
  intros H. rewrite (sumRepeats_delete m k s H). rewrite <- insert_delete_eq.
  rewrite sumRepeats_insert by apply lookup_delete_eq. lia.
Qed.

Lemma sumRows_app a b : sumRows (a ++ b)%list = sumRows a + sumRows b.
Proof. induction a as [|r a IH]; cbn; [done|]. fold (sumRows (a ++ b)%list) (sumRows a). lia. Qed.

Lemma closeStreak_repeat s : sumRows (match closeStreak s with Some r => [r] | None => [] end) = repeats s.
Proof. unfold closeStreak. destruct (Z.eqb_spec (repeats s) 0); cbn; lia. Qed.

Lemma oldest_elem m k s : oldest m = Some (k, s) -> m !! k = Some s.
Proof.
  unfold oldest. rewrite <- elem_of_map_to_list.
  assert (H : forall l b, fold_left older l b = Some (k, s) -> b = Some (k, s) \/ (k, s) ∈ l).
  { induction l as [|e l IH]; intros b Hf; cbn in Hf; [by left|].
    apply IH in Hf as [Hf|Hf]; [|right; by right]. unfold older in Hf. destruct b as [b|]; [destruct (_ <? _)|]; simplify_eq; auto;
      right; left. }
  intros Hf. by apply H in Hf as [?|?].
Qed.

Lemma oldest_Some m : (0 < size m)%nat -> is_Some (oldest m).
Proof.
  unfold oldest. rewrite <- length_map_to_list. destruct (map_to_list m) as [|e l]; cbn; [lia|]. intros _.
  assert (H : forall l b, is_Some (fold_left older l (Some b))).
  { clear. induction l as [|e l IH]; intros b; cbn; [eauto|]. by destruct (_ <? _). }
  apply H.
Qed.

Lemma drain_sum (m : memo) : sumRows (snd (drain m)) = sumRepeats m.
Proof.
  unfold drain, sumRepeats. cbn [snd]. rewrite map_fold_foldr. induction (map_to_list m) as [|[k s] l IH]; [done|].
  set (f := fun e : string * streak => closeStreak e.2) in *.
  change (omap f ((k, s) :: l)) with (match closeStreak s with Some r => r :: omap f l | None => omap f l end).
  pose proof (closeStreak_repeat s) as Hc. cbn [foldr curry fst snd uncurry]. rewrite <- IH.
  destruct (closeStreak s) as [r|]; unfold sumRows in *; cbn [foldr] in *; lia.
Qed.

(** The invariant of a run of the memo: the bound, and every answered repeat is
    either still counted or on a row. *)
Definition memoInv (st : memo * list DecisionLog * Z) : Prop :=
  let '(m, rows, hits) := st in (size m <= privateIPMemoMax)%nat /\ sumRepeats m + sumRows rows = hits.

Lemma memoStep_inv st op : memoInv st -> memoInv (memoStep st op).
Proof.
  destruct st as [[m rows] hits]. intros [Hs Hc]. destruct op as [req now kind hint|host port now|]; cbn [memoStep].
  - unfold record. set (key := hostPortKey (Host req) (RPort req)). destruct (m !! key) as [s0|] eqn:Hk; [done|].
    destruct (Nat.leb_spec privateIPMemoMax (size m)) as [Hfull|Hroom].
    + destruct (oldest_Some m) as [[k s] Ho]; [unfold privateIPMemoMax in *; lia|]. rewrite Ho.
      apply oldest_elem in Ho. assert (Hkd : delete k m !! key = None) by (rewrite lookup_delete_None; auto).
      split.
      * rewrite map_size_insert_None by done. rewrite map_size_delete_Some by eauto. unfold privateIPMemoMax in *. lia.
      * rewrite sumRepeats_insert by done. cbn [repeats]. rewrite sumRows_app.
        rewrite (sumRepeats_delete m k s Ho) in Hc. pose proof (closeStreak_repeat s) as Hr.
        destruct (closeStreak s); rewrite Hr; lia.
    + split; [rewrite map_size_insert_None by done; lia|]. rewrite sumRepeats_insert by done. cbn. fold (sumRows rows). lia.
  - unfold hit. destruct (m !! hostPortKey host port) as [s|] eqn:Hk; [|done]. split.
    + by rewrite map_size_insert_Some.
    + rewrite (sumRepeats_replace _ _ _ _ Hk). cbn. lia.
  - cbn. split; [rewrite map_size_empty; lia|]. rewrite sumRows_app.
    change (sumRepeats ∅) with 0. pose proof (drain_sum m) as Hd. cbn [drain snd] in Hd. rewrite Hd. lia.
Qed.

(** However the sandbox mixes hosts, the memo never holds more than 64
    refusals, and no answered repeat is lost: what is still counted in it and what
    the summary rows carry add up to the repeats answered. *)
Theorem memo_bounded_and_lossless ops :
  let '(m, rows, hits) := memoRun ops in
  (size m <= privateIPMemoMax)%nat /\ sumRepeats m + sumRows rows = hits.
Proof.
  assert (H : forall ops st, memoInv st -> memoInv (fold_left memoStep ops st)).
  { intros l. induction l as [|op l IH]; intros st Hst; [done|]. cbn [fold_left]. by apply IH, memoStep_inv. }
  apply (H ops (∅, [], 0)). split; [rewrite map_size_empty; lia | by vm_compute].
Qed.

Lemma record_then_memoed m req now kind hint :
  memoed (fst (record m req now kind hint)) (Host req) (RPort req) = true.
Proof.
  unfold memoed, record. destruct (m !! hostPortKey (Host req) (RPort req)) eqn:E;
    [cbn; rewrite E; by apply bool_decide_eq_true|].
  destruct (_ <=? _)%nat; [destruct (oldest m) as [[]|]|]; cbn; rewrite lookup_insert_eq; by apply bool_decide_eq_true.
Qed.

Lemma hit_memoed m host port now : snd (hit m host port now) = memoed m host port.
Proof. unfold hit, memoed. destruct (m !! _); done. Qed.
