(* ===== verification/Evaluate.v ===== *)
(** * The decision pipeline

    [Proxy.evaluate] of [internal/egress/proxy/proxy.go], with [splitHostPort],
    [allowLog], the deny-all step of [push_deny_all_forge.go] and
    [localModelHost]: step 0 the literal guard, then the hosts that belong to a
    broker, the configuration gate, the deny-all step, the memo of private-address
    refusals, first-use approval, and last the vetting of the dial target.

    The approval layer is an argument ([approvals], held or not); its own state
    machine is in [Approvals]. The state the pipeline keeps is the memo. *)
From S2P Require Import Prelude GoStrings NetIP IPGuard DomainMatch PolicyTypes PushRules EgressPolicy EgressTarget Approvals PrivateIPMemo.
Local Open Scope string_scope.
Local Open Scope Z_scope.

(** What the deny-all step reads: the code hosts the run names and the hosts a
    door of the run serves, by key, and whether the push rules of the run's base
    or of one of its entries deny every push. *)
Record forgeConfig := mkForgeConfig {
  runForgeKeys : gset string; doorHosts : gset string; baseDenyAll : bool; setsDenyAll : list bool;
}.

(** The parts of the sidecar the pipeline reads besides [Proxy]. *)
Record Sidecar (E : Type) := mkSidecar {
  proxy : Proxy; evaluator : E; portRule : string; mcpHosts : list string; forge : forgeConfig;
  approvals : option (bool -> string -> resolveResult);
  toASCII : string -> option string;
}.
Arguments mkSidecar {E}.
Arguments proxy {E}.
Arguments evaluator {E}.
Arguments portRule {E}.
Arguments mcpHosts {E}.
Arguments forge {E}.
Arguments approvals {E}.
Arguments toASCII {E}.

Definition ruleSourceMCPDirect : string := "brokered:mcp:direct".
Definition ruleSourceLocalModel : string := "brokered:local-model".
Definition ruleSourceGitPushDenyAllForge : string := "brokered:git:push-deny-all-forge".
Definition viaDirect : string := "direct".
Definition resolveBypassedCause : string :=
  "this name is on the upstream proxy's bypass list, so the proxy resolves and dials it itself, and it did not resolve at the proxy".
Definition pushDenyAllForgeRefusal (host : string) : string :=
  "Wardyn refused this connection: this run may not push, and " ++ host ++
  " is a code host Wardyn doesn't broker for this run.".

Definition publicForgeHosts : list string :=
  ["github.com"; "api.github.com"; "uploads.github.com"; "gist.github.com"; "ssh.github.com";
   "dev.azure.com"; "ssh.dev.azure.com"; "vs-ssh.visualstudio.com"].
Definition adoExtensionGallery : string := "marketplace.visualstudio.com".

Record evalOut := mkOut {
  oDecision : Decision; oTarget : option dialTarget; oLog : option DecisionLog;
  oMemo : memo; oEmitted : list DecisionLog; oAsked : bool;
}.

Section Evaluate.
Context {U : GoUnicode} {E : Type} `{Evaluator E}.

(** The single funnel every request host passes: all trailing dots off, and an
    address in its one canonical spelling. *)
Definition splitHostPort (hostport : string) (defaultPort : Z) : string * Z :=
  match SplitHostPort hostport with
  | Some (h, ps) => (CanonHost (TrimRightDots h), match Atoi ps with Some n => n | None => 0 end)
  | None => (CanonHost (TrimRightDots hostport), defaultPort)
  end.

Definition mcpDirectOrigin (s : Sidecar E) (host : string) : bool := containsFunc (fun h => String.eqb h host) (mcpHosts s).

Definition localModelHost (s : Sidecar E) (host : string) : bool :=
  containsFunc (fun m => String.eqb (lmHost m) (dotTrim host)) (localModels (proxy s)).

(** ** Deny-all and the code hosts *)

Definition adoHostedHost (host : string) : bool :=
  let h := ToLower (TrimSuffixDot host) in
  String.eqb h "dev.azure.com" || HasSuffix h ".dev.azure.com" || HasSuffix h ".visualstudio.com".

Definition forgeHostKey (s : Sidecar E) (host : string) : string :=
  let host := match SplitHostPort host with Some (h, _) => h | None => host end in
  let host := CanonHost (TrimRightDots (TrimSpace host)) in
  if str_forall is_ascii host then host
  else match toASCII s host with Some a => TrimRightDots a | None => host end.

Definition pushDenyAllInForce (s : Sidecar E) : bool :=
  match pushRules (policy (proxy s)) with Some rs => PushRules.denyAll rs | None => false end
  || baseDenyAll (forge s) || containsFunc id (setsDenyAll (forge s)).

Definition knownForgeHost (s : Sidecar E) (key : string) : bool :=
  memS key publicForgeHosts || (adoHostedHost key && negb (String.eqb key adoExtensionGallery))
  || bool_decide (key ∈ runForgeKeys (forge s)).

Definition forgeDoorHost (s : Sidecar E) (host : string) : bool := bool_decide (host ∈ doorHosts (forge s)).

Definition raises (s : Sidecar E) : bool :=
  raisesApproval (firstUse (policy (proxy s))) && bool_decide (is_Some (approvals s)).

Definition policyMayAdmit (s : Sidecar E) (v : HostVerdict) : bool :=
  bool_decide (v = VerdictAllow) || (bool_decide (v = VerdictUnknown) && raises s).

Definition pushDenyAllForgeDeny (s : Sidecar E) (host : string) (v : HostVerdict) : bool :=
  if negb (policyMayAdmit s v) || negb (pushDenyAllInForce s) || forgeDoorHost s host then false
  else knownForgeHost s (forgeHostKey s host).

(** ** The rows *)

Definition allowLog (req : Request) (now : Z) (approvalID : Z) : DecisionLog :=
  if approvalID =? Nil then decisionLog req now Allow "policy:allowed"
  else mkLog req now Allow ("approval:" ++ Itoa approvalID) (Some approvalID) "" "" 0 "".

Definition withRule (l : DecisionLog) (src : string) : DecisionLog :=
  mkLog (LRequest l) (LTime l) (LDecision l) src (LApprovalID l) (Cause l) (Via l) (Repeat l) (LPortRule l).
Definition withCause (l : DecisionLog) (via cause : string) : DecisionLog :=
  mkLog (LRequest l) (LTime l) (LDecision l) (RuleSource l) (LApprovalID l) cause via (Repeat l) (LPortRule l).
Definition markPortDryRun (l : DecisionLog) (dry : bool) : DecisionLog :=
  if dry then mkLog (LRequest l) (LTime l) (LDecision l) (RuleSource l) (LApprovalID l) (Cause l) (Via l) (Repeat l) PortRuleDryRun
  else l.

(** ** The pipeline *)

Definition denyOut (req : Request) (now : Z) (src : string) (m : memo) (asked : bool) : evalOut :=
  mkOut Deny None (Some (decisionLog req now Deny src)) m [] asked.

(** Step 4: the target, for a request the policy or an approval let through. *)
Definition vetTarget (s : Sidecar E) (req : Request) (now : Z) (trusted : option IP) (approvalID : Z) (dry asked : bool)
    (m : memo) : evalOut :=
  let host := Host req in let port := RPort req in
  match trusted with
  | Some ip =>
      let log := allowLog req now approvalID in
      let log := if approvalID =? Nil then withRule log ruleSourceEgressRedirect else log in
      mkOut Allow (Some (DialIP ip port)) (Some (markPortDryRun log dry)) m [] asked
  | None =>
      match egressTarget (proxy s) host port with
      | HostUnresolved =>
          let log := decisionLog req now Deny "builtin:resolve-failed" in
          let log := if upstream (proxy s) then withCause log viaDirect resolveBypassedCause else log in
          mkOut Deny None (Some log) m [] asked
      | HostBlocked kind hint =>
          let log := withCause (decisionLog req now Deny "builtin:private-ip") "" hint in
          let '(m', evicted) := record m req now kind hint in
          mkOut Deny None (Some log) m' (match evicted with Some r => [r] | None => [] end) asked
      | Target t ruleSource =>
          let log := allowLog req now approvalID in
          let log := if negb (String.eqb ruleSource "") && (approvalID =? Nil) then withRule log ruleSource else log in
          mkOut Allow (Some t) (Some (markPortDryRun log dry)) m [] asked
      end
  end.

Definition evaluate (s : Sidecar E) (now : Z) (host : string) (port : Z) (method path : string) (m : memo) : evalOut :=
  let req := mkReq host port (ToUpper method) path in
  match literalIPGuard (proxy s) host port with
  | inr _ => denyOut req now "builtin:private-ip" m false
  | inl trusted =>
      if mcpDirectOrigin s host then denyOut req now ruleSourceMCPDirect m false
      else if localModelHost s host then
        mkOut Deny None (Some (withCause (decisionLog req now Deny ruleSourceLocalModel) ""
          "a local model server is reached only on the brokered LLM route")) m [] false
      else
      match gateConnect req (evaluator s) (policy (proxy s)) (portRule s) with
      | GateRefused src => denyOut req now src m false
      | GateOpen verdict dry =>
          if pushDenyAllForgeDeny s host verdict then
            mkOut Deny None (Some (withCause (decisionLog req now Deny ruleSourceGitPushDenyAllForge) ""
              (pushDenyAllForgeRefusal host))) m [] false
          else
          let '(m, repeat) := hit m host port now in
          if repeat then mkOut Deny None None m [] false
          else match verdict with
          | VerdictAllow => vetTarget s req now trusted Nil dry false m
          | VerdictUnknown =>
              match raises s, approvals s with
              | true, Some ask =>
                  let r := ask (String.eqb (firstUse (policy (proxy s))) FirstUseWaitForReview) host in
                  match State r with
                  | apApproved => vetTarget s req now trusted (ApprovalID r) dry true m
                  | apDenied => denyOut req now "approval:denied" m true
                  | st => mkOut Pending None
                            (Some (mkLog req now Pending (approvalPendingReason st)
                                     (if ApprovalID r =? Nil then None else Some (ApprovalID r)) "" "" 0 "")) m [] true
                  end
              | _, _ => denyOut req now "policy:default-deny" m false
              end
          | VerdictDeny => denyOut req now "policy:evaluator-error" m false
          end
      end
  end.
End Evaluate.

(** * What the pipeline guarantees *)

Section EvaluateTheorems.
Context {U : GoUnicode} {E : Type} `{Evaluator E}.

(** How a request the gate opened was let through: by the policy, or by an
    approval the layer answered. *)
Definition released (s : Sidecar E) (host : string) (verdict : HostVerdict) (id : Z) : Prop :=
  (verdict = VerdictAllow /\ id = Nil) \/
  (verdict = VerdictUnknown /\ raises s = true /\
   exists ask wait, approvals s = Some ask /\ State (ask wait host) = apApproved /\ ApprovalID (ask wait host) = id).

(** The stages a request that is not refused has passed. *)
Record admittedBy (s : Sidecar E) (req : Request) (m : memo) (trusted : option IP) (verdict : HostVerdict) (dry : bool) : Prop := {
  ad_literal : literalIPGuard (proxy s) (Host req) (RPort req) = inl trusted;
  ad_mcp : mcpDirectOrigin s (Host req) = false;
  ad_local : localModelHost s (Host req) = false;
  ad_gate : gateConnect req (evaluator s) (policy (proxy s)) (portRule s) = GateOpen verdict dry;
  ad_forge : pushDenyAllForgeDeny s (Host req) verdict = false;
  ad_memo : memoed m (Host req) (RPort req) = false;
}.

Lemma vetTarget_asked (s : Sidecar E) req now t id dry asked m : oAsked (vetTarget s req now t id dry asked m) = asked.
Proof. unfold vetTarget. repeat (break_match; try done). Qed.

Lemma vetTarget_allow (s : Sidecar E) req now t id dry asked m :
  oDecision (vetTarget s req now t id dry asked m) = Allow ->
  exists tg, oTarget (vetTarget s req now t id dry asked m) = Some tg /\
    ((exists ip, t = Some ip /\ tg = DialIP ip (RPort req)) \/
     (t = None /\ exists rs, egressTarget (proxy s) (Host req) (RPort req) = Target tg rs)).
Proof.
  unfold vetTarget. destruct t as [ip|]; [cbn; eauto 10|].
  destruct (egressTarget _ _ _) as [tg rs|k hint|] eqn:Et; cbn; [eauto 10| |done].
  destruct (record _ _ _ _ _). done.
Qed.

(** The outcome of [evaluate] that is not an early refusal came through every
    stage before the target. *)
Lemma evaluate_stages (s : Sidecar E) now host port method path m :
  let req := mkReq host port (ToUpper method) path in
  let o := evaluate s now host port method path m in
  (oDecision o = Deny /\ oTarget o = None /\ oAsked o = false) \/
  exists trusted verdict dry, admittedBy s req m trusted verdict dry /\
    ((exists id asked, released s host verdict id /\ o = vetTarget s req now trusted id dry asked m) \/
     (oTarget o = None /\ oDecision o <> Allow /\ verdict = VerdictUnknown /\ raises s = true)).
Proof.
  cbv zeta. unfold evaluate. set (req := mkReq host port (ToUpper method) path).
  destruct (literalIPGuard (proxy s) host port) as [trusted|] eqn:El; [|by left].
  destruct (mcpDirectOrigin s host) eqn:Em; [by left|].
  destruct (localModelHost s host) eqn:Elm; [by left|].
  destruct (gateConnect req _ _ _) as [src|verdict dry] eqn:Eg; [by left|].
  destruct (pushDenyAllForgeDeny s host verdict) eqn:Ef; [by left|].
  pose proof (hit_memoed m host port now) as Hm. destruct (hit m host port now) as [m1 rep] eqn:Eh. cbn [snd] in Hm.
  destruct rep; [by left|].
  assert (m1 = m) as -> by (revert Eh; unfold hit; destruct (m !! _); by intros [= <-]).
  assert (Had : admittedBy s req m trusted verdict dry) by (split; cbn [Host RPort req]; auto).
  destruct verdict; [| by left |].
  - right. exists trusted, VerdictAllow, dry. split; [done|]. left. exists Nil, false. split; [by left | done].
  - destruct (raises s) eqn:Er; [|by left]. destruct (approvals s) as [ask|] eqn:Ea; [|by left].
    right. exists trusted, VerdictUnknown, dry. split; [done|].
    set (w := String.eqb _ _). destruct (State (ask w host)) eqn:Es; try (right; split_and!; done).
    left. exists (ApprovalID (ask w host)), true. split; [right; split_and!; [done | done | exists ask, w; split_and!; try done] | done].
Qed.

(** C2: an allowed request passed every stage: it is no blocked literal, no
    broker's host, its host and method pass the policy engine, deny-all does not
    claim it, no earlier refusal is memoed; an unknown host was released by an
    approval of that host; and what is dialled is the vetted target. *)
Theorem allow_passes_every_stage (s : Sidecar E) now host port method path m :
  let req := mkReq host port (ToUpper method) path in
  let o := evaluate s now host port method path m in
  oDecision o = Allow ->
  exists trusted verdict dry id tg, admittedBy s req m trusted verdict dry /\ released s host verdict id /\
    oTarget o = Some tg /\
    ((exists ip, trusted = Some ip /\ tg = DialIP ip port) \/
     (trusted = None /\ exists rs, egressTarget (proxy s) host port = Target tg rs)).
Proof.
  cbv zeta. intros Ho. destruct (evaluate_stages s now host port method path m)
    as [[Hd _]|(trusted & verdict & dry & Had & [(id & asked & Hr & Hv)|(_ & Hn & _)])]; [congruence| |done].
  rewrite Hv in *. destruct (vetTarget_allow _ _ _ _ _ _ _ _ Ho) as (tg & Htg & Hsrc).
  by exists trusted, verdict, dry, id, tg.
Qed.

Lemma literalIPGuard_trusted p host port ip :
  literalIPGuard p host port = inl (Some ip) ->
  ParseIP (dotTrim host) = Some ip /\ hardDeniedIP p ip = false /\ trustsExactLiteralIP p ip port = true.
Proof.
  unfold literalIPGuard. destruct (ParseIP (dotTrim host)) as [lit|].
  - destruct (hardDeniedIP p lit) eqn:Eh; [done|]. destruct (negb _); [|done].
    destruct (trustsExactLiteralIP p lit port) eqn:Et; cbn; [|done]. by intros [= <-].
  - destruct (nonCanonicalLiteralIP host); [destruct (negb _)|]; done.
Qed.

(** C1: no request, by any policy, approval or resolver, makes this proxy dial an
    address in a blocked range: the address is public, or a private one off the
    proxy's own networks that the operator declared for that literal or host. *)
Theorem evaluate_never_dials_blocked (s : Sidecar E) now host port method path m ip port' :
  oTarget (evaluate s now host port method path m) = Some (DialIP ip port') ->
  port' = port /\
  (blockedKind ip = blockNone \/
   (blockedKind ip = blockPrivate /\ onOwnSubnetOrControlPlane (proxy s) ip = false /\
    (AllowsLiteralIP (policy (proxy s)) (IPString ip) port = true \/ declaredFor (proxy s) host ip))).
Proof.
  intros Ho. destruct (evaluate_stages s now host port method path m)
    as [(_ & Hn & _)|(trusted & verdict & dry & Had & [(id & asked & Hr & Hv)|(Hn & _)])]; [congruence| |congruence].
  rewrite Hv in Ho. unfold vetTarget in Ho. cbn [Host RPort] in Ho. destruct trusted as [lit|].
  - cbn in Ho. injection Ho as -> <-. split; [done|]. right.
    destruct (literalIPGuard_trusted _ _ _ _ (ad_literal _ _ _ _ _ _ Had)) as (_ & _ & Ht).
    unfold trustsExactLiteralIP in Ht. apply andb_true_iff in Ht as [[Hk Hc]%andb_true_iff Ha].
    apply bool_decide_eq_true in Hk. apply negb_true_iff in Hc. auto.
  - destruct (egressTarget (proxy s) host port) as [tg rs|k hint|] eqn:Et; [|by destruct (record _ _ _ _ _)|done].
    cbn in Ho. injection Ho as ->. apply egressTarget_safe in Et as [-> [Hb|(Hk & Hc & Hd)]]; [by split; [|left]|].
    split; [done|]. right. split_and!; [done | done |]. destruct Hd as [[_ Ha]|Hd]; auto.
Qed.

(** A person is asked only about a request a yes could release: not a blocked
    literal, not a memoed refusal, not a host or method the policy refuses, and
    only where the run's first-use mode asks at all. *)
Theorem asked_only_when_answerable (s : Sidecar E) now host port method path m :
  oAsked (evaluate s now host port method path m) = true ->
  exists trusted dry, admittedBy s (mkReq host port (ToUpper method) path) m trusted VerdictUnknown dry /\ raises s = true.
Proof.
  intros Ha. destruct (evaluate_stages s now host port method path m)
    as [(_ & _ & Hn)|(trusted & verdict & dry & Had & [(id & asked & Hr & Hv)|(_ & _ & -> & Hr)])];
    [congruence | | by exists trusted, dry].
  destruct Hr as [[-> ->]|(-> & Hr & _)]; [|by exists trusted, dry].
  exfalso. revert Ha. unfold evaluate.
  destruct Had as [E1 E2 E3 E4 E5 _]. cbn [Host RPort] in *. rewrite E1, E2, E3, E4, E5.
  destruct (hit m host port now) as [m1 []]; [done|]. by rewrite vetTarget_asked.
Qed.

Lemma vetTarget_memo s req now t id dry asked (m : memo) :
  oMemo (@vetTarget U E s req now t id dry asked m) = m \/
  memoed (oMemo (@vetTarget U E s req now t id dry asked m)) (Host req) (RPort req) = true.
Proof.
  unfold vetTarget. destruct t; [by left|]. destruct (egressTarget _ _ _) as [| |]; [by left | |by left].
  pose proof (record_then_memoed m req now kind hint) as Hr. destruct (record m req now kind hint). by right.
Qed.

(** Once a name was refused for the addresses it resolves to, an identical
    request in the same run is refused from the memo: no second lookup, no second
    row, and nobody is asked. *)
Theorem private_refusal_is_remembered (s : Sidecar E) now now' host port method path m :
  memoed m host port = false ->
  memoed (oMemo (evaluate s now host port method path m)) host port = true ->
  let o := evaluate s now' host port method path (oMemo (evaluate s now host port method path m)) in
  oDecision o = Deny /\ oTarget o = None /\ oLog o = None /\ oAsked o = false.
Proof.
  intros Hno Hyes. cbv zeta.
  assert (Hgate : exists trusted verdict dry, admittedBy s (mkReq host port (ToUpper method) path) m trusted verdict dry).
  { destruct (evaluate_stages s now host port method path m) as [_|(trusted & verdict & dry & Had & _)]; [|eauto].
    revert Hyes. unfold evaluate. 
    destruct (literalIPGuard (proxy s) host port) as [trusted|] eqn:E1; [|cbn; congruence].
    destruct (mcpDirectOrigin s host) eqn:E2; [cbn; congruence|].
    destruct (localModelHost s host) eqn:E3; [cbn; congruence|].
    destruct (gateConnect _ _ _ _) as [src|verdict dry] eqn:E4; [cbn; congruence|].
    destruct (pushDenyAllForgeDeny s host verdict) eqn:E5; [cbn; congruence|].
    intros _. exists trusted, verdict, dry. by split. }
  destruct Hgate as (trusted & verdict & dry & [E1 E2 E3 E4 E5 _]). cbn [Host RPort] in *.
  set (m' := oMemo (evaluate s now host port method path m)) in *.
  unfold evaluate. rewrite E1, E2, E3, E4, E5. pose proof (hit_memoed m' host port now') as Hh.
  destruct (hit m' host port now') as [m2 b]. cbn [snd] in Hh. rewrite Hyes in Hh. by subst b.
Qed.

Lemma trimRightFunc_app_dot h : TrimRightDots (h +:+ ".") = TrimRightDots h.
Proof.
  unfold TrimRightDots. induction h as [|c h IH]; [done|]. rewrite str_app_cons. cbn [trimRightFunc]. by rewrite IH.
Qed.

Fixpoint addDots (n : nat) (h : string) : string := match n with O => h | S n' => addDots n' h +:+ "." end.

(** The root spelling of a name ("evil.example.") and any number of trailing
    dots reach the policy as the same host, so a deny entry cannot be missed by
    adding dots. *)
Theorem trailing_dots_reach_the_same_host host n port :
  str_has ":" host = false ->
  splitHostPort (addDots n host) port = splitHostPort host port.
Proof.
  intros Hh. assert (Hn : forall k, str_has ":" (addDots k host) = false /\
    TrimRightDots (addDots k host) = TrimRightDots host).
  { induction k as [|k [IH1 IH2]]; [done|]. cbn [addDots]. rewrite str_has_app, IH1, trimRightFunc_app_dot. done. }
  assert (Hs : forall k, SplitHostPort (addDots k host) = None).
  { intros k. unfold SplitHostPort. by rewrite (proj2 (cutLastByte_None ":" _) (proj1 (Hn k))). }
  unfold splitHostPort. rewrite Hs. rewrite (Hs 0%nat : SplitHostPort host = None). by rewrite (proj2 (Hn n)).
Qed.
End EvaluateTheorems.

(** ** Witnesses *)

Definition sampleAsk (wait : bool) (host : string) : resolveResult :=
  if String.eqb host "ask.example" then mkResult apApproved 5 else mkResult apPending 9.

Definition samplePolicyAsk : Policy :=
  @CompilePolicy asciiTables (mkSpec ["ok.example"; "db.corp"; "mix.example"] [] false "wait_for_review" 0 0 [] "" [] 0 [] [] None []
    None [] false None [] [] None None "").

Definition sampleSidecar : Sidecar Policy :=
  let p := sampleProxy None false in
  mkSidecar (mkProxy samplePolicyAsk (hardDenySet p) (fun n => if String.eqb n "ask.example" then inr [ip4 8 8 8 8] else sampleResolver n)
              (upstream p) (noProxy p) (internalHosts p) (exclusionUnknown p) (controlPlaneIPs p) (localSubnets p) [])
    samplePolicyAsk PortRuleOff [] (mkForgeConfig ∅ ∅ false []) (Some sampleAsk) (fun _ => None).

Abbreviation sampleEval host m := (@evaluate asciiTables Policy (@builtinEvaluator asciiTables) sampleSidecar 0 host 443 "get" "/" m).

Lemma allow_passes_every_stage_witness :
  oDecision (sampleEval "ok.example" ∅) = Allow /\
  exists tg, oTarget (sampleEval "ok.example" ∅) = Some tg.
Proof.
  assert (E0 : oDecision (sampleEval "ok.example" ∅) = Allow) by (vm_compute; reflexivity).
  split; [exact E0|].
  destruct (@allow_passes_every_stage asciiTables Policy (@builtinEvaluator asciiTables) sampleSidecar 0 "ok.example" 443 "get" "/" ∅ E0)
    as (_ & _ & _ & _ & tg & _ & _ & H & _). exists tg. exact H.
Defined.

Lemma evaluate_never_dials_blocked_witness :
  oTarget (sampleEval "db.corp" ∅) = Some (DialIP (ip4 10 2 3 4) 443) /\
  onOwnSubnetOrControlPlane (proxy sampleSidecar) (ip4 10 2 3 4) = false.
Proof.
  assert (E0 : oTarget (sampleEval "db.corp" ∅) = Some (DialIP (ip4 10 2 3 4) 443)) by (vm_compute; reflexivity).
  split; [exact E0|].
  destruct (@evaluate_never_dials_blocked asciiTables Policy (@builtinEvaluator asciiTables) sampleSidecar 0 "db.corp" 443 "get" "/" ∅
    _ _ E0) as (_ & [H|(_ & H & _)]); [vm_compute in H; discriminate | exact H].
Defined.

Lemma asked_only_when_answerable_witness : @raises Policy sampleSidecar = true.
Proof.
  assert (E0 : oAsked (sampleEval "ask.example" ∅) = true) by (vm_compute; reflexivity).
  destruct (@asked_only_when_answerable asciiTables Policy (@builtinEvaluator asciiTables) sampleSidecar 0 "ask.example" 443 "get" "/" ∅ E0)
    as (_ & _ & _ & H). exact H.
Defined.

Lemma private_refusal_is_remembered_witness :
  oLog (sampleEval "mix.example" (oMemo (sampleEval "mix.example" ∅))) = None.
Proof.
  apply (@private_refusal_is_remembered asciiTables Policy (@builtinEvaluator asciiTables) sampleSidecar 0 0 "mix.example" 443 "get" "/" ∅);
    vm_compute; reflexivity.
Defined.

Lemma trailing_dots_reach_the_same_host_witness :
  @splitHostPort asciiTables "evil.com.." 443 = @splitHostPort asciiTables "evil.com" 443.
Proof. exact (@trailing_dots_reach_the_same_host asciiTables "evil.com" 2 443 eq_refl). Defined.
