(* ===== verification/GoSlices.v ===== *)
(** * Slices: sorting and compaction

    What the composer uses of Go's [slices] and [sort] packages. A list that is
    sorted by a total order of its elements has one result whatever algorithm
    computes it, so insertion sort stands for [slices.Sort]; the theorems below
    use only that sorting and compaction keep exactly the elements. *)
From stdpp Require Export sorting.
From S2P Require Import Prelude.
Local Open Scope string_scope.

Fixpoint insertBy {A} (leb : A -> A -> bool) (x : A) (l : list A) : list A :=
  match l with
  | [] => [x]
  | y :: l' => if leb x y then x :: l else y :: insertBy leb x l'
  end.

Fixpoint sortBy {A} (leb : A -> A -> bool) (l : list A) : list A :=
  match l with
  | [] => []
  | x :: l' => insertBy leb x (sortBy leb l')
  end.

(** Go compares strings bytewise. *)
Definition sortStrings (l : list string) : list string := sortBy String.leb l.

(** [slices.Compact]: drops an element equal to the one before it. *)
Fixpoint compact {A} `{EqDecision A} (l : list A) : list A :=
  match l with
  | [] => []
  | x :: l' =>
      match l' with
      | [] => [x]
      | y :: _ => if decide (x = y) then compact l' else x :: compact l'
      end
  end.

Lemma elem_of_insertBy {A} (leb : A -> A -> bool) x y l : y ∈ insertBy leb x l <-> y = x \/ y ∈ l.
Proof.
  induction l as [|z l IH]; cbn [insertBy]; [by rewrite elem_of_cons|].
  destruct (leb x z); rewrite !elem_of_cons, ?IH, ?elem_of_cons; tauto.
Qed.

Lemma elem_of_sortBy {A} (leb : A -> A -> bool) x l : x ∈ sortBy leb l <-> x ∈ l.
Proof.
  induction l as [|y l IH]; cbn [sortBy]; [done|]. by rewrite elem_of_insertBy, elem_of_cons, IH.
Qed.

Lemma elem_of_compact {A} `{EqDecision A} (x : A) l : x ∈ compact l <-> x ∈ l.
Proof.
  induction l as [|y l IH]; [done|]. cbn [compact]. destruct l as [|z l]; [done|].
  destruct (decide (y = z)) as [->|]; rewrite ?elem_of_cons, IH, ?elem_of_cons; tauto.
Qed.

Lemma elem_of_sortStrings x l : x ∈ sortStrings l <-> x ∈ l.
Proof. apply elem_of_sortBy. Qed.

Lemma elem_of_sortCompact (x : string) l : x ∈ compact (sortStrings l) <-> x ∈ l.
Proof. by rewrite elem_of_compact, elem_of_sortStrings. Qed.

Lemma nil_of_no_elem {A} (l : list A) : (forall x, x ∉ l) -> l = [].
Proof. destruct l as [|x l]; [done|]. intros H. exfalso. apply (H x). left. Qed.

#[export] Hint Rewrite @elem_of_sortBy elem_of_sortStrings @elem_of_compact elem_of_sortCompact : wardyn.

(** ** Sorted results *)

Lemma insertBy_perm {A} (leb : A -> A -> bool) x l : insertBy leb x l ≡ₚ x :: l.
Proof.
  induction l as [|y l IH]; cbn [insertBy]; [done|]. destruct (leb x y); [done|].
  rewrite IH. by constructor.
Qed.

Lemma sortBy_perm {A} (leb : A -> A -> bool) l : sortBy leb l ≡ₚ l.
Proof. induction l as [|x l IH]; cbn [sortBy]; [done|]. by rewrite insertBy_perm, IH. Qed.

Section SortedBy.
Context {A : Type} (leb : A -> A -> bool).
Context (Htotal : forall x y, leb x y = true \/ leb y x = true).
Context (Htrans : forall x y z, leb x y = true -> leb y z = true -> leb x z = true).

Lemma insertBy_sorted x l : StronglySorted leb l -> StronglySorted leb (insertBy leb x l).
Proof.
  induction 1 as [|y l Hl IH Hy]; cbn [insertBy]; [by repeat constructor|].
  destruct (leb x y) eqn:E.
  - constructor; [by constructor|]. constructor; [by rewrite E|].
    eapply Forall_impl; [exact Hy|]. intros z Hz. apply Is_true_true in Hz. apply Is_true_true. by eapply Htrans.
  - constructor; [done|]. apply Forall_forall. intros z [->|Hz]%elem_of_insertBy.
    + destruct (Htotal y x) as [H|H]; [by apply Is_true_true | congruence].
    + by eapply Forall_forall in Hy.
Qed.

Lemma sortBy_sorted l : StronglySorted leb (sortBy leb l).
Proof. induction l; cbn [sortBy]; [constructor | by apply insertBy_sorted]. Qed.

(** Where only equal elements compare both ways, the sorted list is determined by
    the elements. *)
Lemma sortBy_unique l l' :
  (forall x y, x ∈ l -> y ∈ l -> leb x y = true -> leb y x = true -> x = y) ->
  l ≡ₚ l' -> sortBy leb l = sortBy leb l'.
Proof.
  intros Hanti Hp. apply (StronglySorted_unique_strong leb).
  - intros x y Hx Hy Hxy Hyx. rewrite elem_of_sortBy in Hx, Hy. rewrite <- Hp in Hy.
    apply Hanti; [done | done | by apply Is_true_true..].
  - apply sortBy_sorted.
  - apply sortBy_sorted.
  - by rewrite !sortBy_perm.
Qed.
End SortedBy.

Lemma String_leb_trans a b c : String.leb a b = true -> String.leb b c = true -> String.leb a c = true.
Proof.
  rewrite <- !Is_true_true. intros H1 H2. by apply (transitivity (R := String.le) (y := b)).
Qed.

Lemma sortStrings_sorted l : StronglySorted String.leb (sortStrings l).
Proof. apply sortBy_sorted; [apply String.leb_total | apply String_leb_trans]. Qed.

Lemma ltb_leb a b : String.ltb a b = negb (String.leb b a).
Proof. unfold String.ltb, String.leb. rewrite (String.compare_antisym a b). by destruct (String.compare b a). Qed.

Lemma leb_false_trans a b c : String.leb a b = false -> String.leb b c = false -> String.leb a c = false.
Proof.
  intros Hab Hbc. apply not_true_iff_false. intros Hac. destruct (String.leb_total b c) as [H|H]; [congruence|].
  apply not_true_iff_false in Hab. apply Hab. by eapply String_leb_trans.
Qed.
