(* ===== verification/DomEntry.v ===== *)
(** * Composer: domain entries and their order

    [internal/composer/meet_domains.go]: an allowlist or denylist entry as the
    proxy reads it ([domEntry]), its canonical spelling, when one entry covers
    another, the entry two entries share, and the minimal spelling of a list.

    [entMatches] is the set of requests an entry matches; it agrees with
    [DomainMatch.entryMatches], the meaning the compiled policy was proved
    against, so a fact about entries here is a fact about the proxy. *)
From S2P Require Import Prelude GoStrings GoSlices NetIP IPGuard DomainMatch PolicyTypes PushRules EgressPolicy.
Local Open Scope string_scope.
Local Open Scope Z_scope.

Record domEntry := mkDom { d_wild : bool; d_host : string; d_port : Z }.

#[export] Instance domEntry_eq_dec : EqDecision domEntry.
Proof. solve_decision. Defined.

Section DomEntry.
Context {U : GoUnicode}.

Definition parseDomEntry (s : string) : option domEntry :=
  let '(exact, wild, port) := Classify s in
  if negb (String.eqb wild "") then Some (mkDom true wild port)
  else if negb (String.eqb exact "") then Some (mkDom false exact port)
  else None.

(** [domEntry.String]. *)
Definition domString (e : domEntry) : string :=
  let host := if d_wild e then "*" ++ d_host e else d_host e in
  if d_port e =? 0 then host
  else if negb (d_wild e) && str_has ":" host then JoinHostPort host (Itoa (d_port e))
  else host ++ ":" ++ Itoa (d_port e).

Definition covers (e f : domEntry) : bool :=
  if negb (d_port e =? 0) && negb (d_port e =? d_port f) then false
  else if negb (d_wild f) then negb (d_wild e) && String.eqb (d_host e) (d_host f)
  else if d_wild e then MatchWild (d_host f) [d_host e]
  else false.

Definition intersect (e b : domEntry) : option domEntry :=
  let meetHosts (port : Z) : option domEntry :=
    if d_wild e && d_wild b then
      if HasSuffix (d_host e) (d_host b) then Some (mkDom true (d_host e) port)
      else if HasSuffix (d_host b) (d_host e) then Some (mkDom true (d_host b) port)
      else None
    else
      let '(x, y) := if d_wild e then (b, e) else (e, b) in
      if d_wild y || negb (String.eqb (d_host x) (d_host y)) then None
      else Some (mkDom false (d_host x) port) in
  if d_port e =? 0 then meetHosts (d_port b)
  else if negb (d_port b =? 0) && negb (d_port b =? d_port e) then None
  else meetHosts (d_port e).

(** [uniq[e.String()] = e], in order: the last entry of a spelling stays. *)
Definition uniqEntries (es : list domEntry) : gmap string domEntry :=
  fold_left (fun m e => <[domString e := e]> m) es ∅.

Definition hasDominator (all : gmap string domEntry) (name : string) (e : domEntry) : bool :=
  containsFunc (fun nf => negb (String.eqb (fst nf) name) && Bool.eqb (d_wild (snd nf)) (d_wild e) && covers (snd nf) e)
    (map_to_list all).

Definition minimise (es : list domEntry) : list string :=
  let uniq := uniqEntries es in
  sortStrings (map fst (List.filter (fun ne => negb (hasDominator uniq (fst ne) (snd ne))) (map_to_list uniq))).

(** ** The requests an entry matches *)

Definition entMatches (e : domEntry) (host : string) (port : Z) : bool :=
  (if d_wild e then HasSuffix host (d_host e) else String.eqb host (d_host e))
  && ((d_port e =? 0) || (d_port e =? port)).

Lemma entryMatches_parse d host port :
  entryMatches d host port = match parseDomEntry d with Some e => entMatches e host port | None => false end.
Proof.
  unfold entryMatches, parseDomEntry, entMatches. destruct (Classify d) as [[e w] p].
  destruct (String.eqb w ""), (String.eqb e ""); cbn [negb d_wild d_host d_port]; by rewrite ?andb_false_l.
Qed.

Lemma parse_exact d e : parseDomEntry d = Some e -> d_wild e = false -> isExact d (d_host e) (d_port e).
Proof.
  unfold parseDomEntry, isExact. destruct (Classify d) as [[x w] p] eqn:E.
  destruct (String.eqb_spec w "") as [->|]; cbn [negb]; [|by intros [= <-]].
  destruct (String.eqb_spec x "") as [->|]; cbn [negb]; [done|]. by intros [= <-] _.
Qed.

Lemma parse_wild d e : parseDomEntry d = Some e -> d_wild e = true -> isWild d (d_host e) (d_port e).
Proof.
  unfold parseDomEntry, isWild. destruct (Classify d) as [[x w] p] eqn:E.
  destruct (String.eqb_spec w "") as [->|]; cbn [negb]; [by destruct (negb _); intros [= <-]|].
  intros [= <-] _. cbn. eauto.
Qed.

Lemma isExact_parse d h p : isExact d h p -> parseDomEntry d = Some (mkDom false h p).
Proof. intros [E H]. unfold parseDomEntry. rewrite E. cbn. by destruct (String.eqb_spec h ""). Qed.

Lemma isWild_parse d h p : isWild d h p -> parseDomEntry d = Some (mkDom true h p).
Proof. intros (e & E & H). unfold parseDomEntry. rewrite E. by destruct (String.eqb_spec h ""). Qed.

Lemma parse_port_range d e : parseDomEntry d = Some e -> 0 <= d_port e <= 65535.
Proof.
  unfold parseDomEntry. destruct (Classify d) as [[x w] p] eqn:E. apply Classify_port_range in E.
  destruct (negb _); [by intros [= <-]|]. destruct (negb _); [by intros [= <-] | done].
Qed.

(** ** The cover order *)

Lemma covers_spec e f :
  covers e f = true <->
  d_wild e = d_wild f /\ (d_port e = 0 \/ d_port e = d_port f) /\
  (if d_wild e then HasSuffix (d_host f) (d_host e) = true else d_host e = d_host f).
Proof.
  unfold covers, MatchWild. cbn [containsFunc existsb]. rewrite orb_false_r.
  destruct (Z.eqb_spec (d_port e) 0), (Z.eqb_spec (d_port e) (d_port f)), (d_wild e), (d_wild f); cbn [negb andb];
    rewrite ?String.eqb_eq; naive_solver.
Qed.

Lemma covers_refl e : covers e e = true.
Proof. apply covers_spec. split_and!; auto. destruct (d_wild e); [apply HasSuffix_refl | done]. Qed.

Lemma covers_trans e f g : covers e f = true -> covers f g = true -> covers e g = true.
Proof.
  rewrite !covers_spec. intros (H1 & H2 & H3) (H4 & H5 & H6). split_and!; [congruence | destruct H2 as [?| ->]; auto | ].
  rewrite <- H1 in H6. destruct (d_wild e); [by eapply HasSuffix_trans | congruence].
Qed.

(** Every request the covered entry matches, the covering one matches. *)
Lemma covers_matches e f host port :
  covers e f = true -> entMatches f host port = true -> entMatches e host port = true.
Proof.
  rewrite covers_spec. intros (Hw & Hp & Hh) H. unfold entMatches in *. rewrite <- Hw in H.
  apply andb_prop in H as [H1 H2]. apply andb_true_intro. split.
  - destruct (d_wild e); [by eapply HasSuffix_trans|]. by rewrite Hh.
  - destruct Hp as [-> | ->]; done.
Qed.

(** ** The common entry *)

Definition meetPort (p q : Z) : option Z :=
  if p =? 0 then Some q else if negb (q =? 0) && negb (q =? p) then None else Some p.

Lemma intersect_port e b :
  intersect e b = match meetPort (d_port e) (d_port b) with
                  | None => None
                  | Some port =>
                      if d_wild e && d_wild b then
                        if HasSuffix (d_host e) (d_host b) then Some (mkDom true (d_host e) port)
                        else if HasSuffix (d_host b) (d_host e) then Some (mkDom true (d_host b) port) else None
                      else if negb (d_wild e) && negb (d_wild b) && String.eqb (d_host e) (d_host b)
                           then Some (mkDom false (d_host e) port) else None
                  end.
Proof.
  destruct e as [we he pe], b as [wb hb pb]. unfold intersect, meetPort. cbn [d_wild d_host d_port].
  destruct (pe =? 0), (negb (pb =? 0) && negb (pb =? pe)), we, wb; cbn [andb orb negb d_wild d_host d_port]; try reflexivity;
    by destruct (String.eqb he hb).
Qed.

Lemma meetPort_matches p q r port :
  meetPort p q = Some r ->
  ((r =? 0) || (r =? port)) = ((p =? 0) || (p =? port)) && ((q =? 0) || (q =? port)).
Proof.
  unfold meetPort. destruct (Z.eqb_spec p 0) as [->|Hp]; [by intros [= <-]|].
  destruct (Z.eqb_spec q 0) as [->|Hq]; cbn [negb andb]; [intros [= <-]; by rewrite andb_true_r, (proj2 (Z.eqb_neq _ _) Hp)|].
  destruct (Z.eqb_spec q p) as [->|]; cbn [negb]; intros [= <-].
  rewrite (proj2 (Z.eqb_neq _ _) Hp). cbn [orb]. by rewrite andb_diag.
Qed.

Lemma HasSuffix_absorb h a b :
  HasSuffix a b = true -> HasSuffix h a = HasSuffix h a && HasSuffix h b.
Proof.
  intros H. destruct (HasSuffix h a) eqn:E; [|done]. symmetry. by eapply HasSuffix_trans.
Qed.

(** The common entry matches exactly the requests both match. *)
Lemma intersect_matches a b e host port :
  intersect a b = Some e -> entMatches e host port = entMatches a host port && entMatches b host port.
Proof.
  rewrite intersect_port. destruct (meetPort _ _) as [r|] eqn:Er; [|done].
  intros H. unfold entMatches. pose proof (meetPort_matches _ _ _ port Er) as Hp.
  assert (Hh : (if d_wild e then HasSuffix host (d_host e) else String.eqb host (d_host e)) =
               (if d_wild a then HasSuffix host (d_host a) else String.eqb host (d_host a)) &&
               (if d_wild b then HasSuffix host (d_host b) else String.eqb host (d_host b)) /\ d_port e = r).
  { destruct (d_wild a), (d_wild b); cbn [andb negb] in H; try done.
    - destruct (HasSuffix (d_host a) (d_host b)) eqn:E; [injection H as <-; split; [by apply HasSuffix_absorb | done]|].
      destruct (HasSuffix (d_host b) (d_host a)) eqn:E'; [|done]. injection H as <-.
      split; [rewrite andb_comm; by apply HasSuffix_absorb | done].
    - destruct (String.eqb_spec (d_host a) (d_host b)) as [Hab|]; [|done]. injection H as <-. cbn.
      rewrite Hab. split; [by destruct (String.eqb host (d_host b)) | done]. }
  destruct Hh as [-> ->]. rewrite Hp. by rewrite !andb_assoc, <- (andb_assoc (if d_wild a then _ else _)),
    (andb_comm (if d_wild b then _ else _)), !andb_assoc.
Qed.

(** Entries of one kind with no common entry match no common request. *)
Lemma intersect_None a b host port :
  intersect a b = None -> d_wild a = d_wild b -> entMatches a host port = true -> entMatches b host port = true -> False.
Proof.
  rewrite intersect_port. unfold entMatches. intros H Hw [Ha1 Ha2]%andb_prop [Hb1 Hb2]%andb_prop. rewrite Hw in *.
  assert (Hm : is_Some (meetPort (d_port a) (d_port b))).
  { unfold meetPort. destruct (d_port a =? 0) eqn:Ea; [eauto|].
    destruct (d_port b =? 0) eqn:Eb; cbn [negb andb]; [eauto|].
    cbn [orb] in Ha2, Hb2. apply Z.eqb_eq in Ha2, Hb2. rewrite Ha2, Hb2, Z.eqb_refl. cbn. eauto. }
  destruct Hm as [r Hm]. rewrite Hm in H. destruct (d_wild b); cbn [andb negb] in H.
  - destruct (HasSuffix_common _ _ _ Ha1 Hb1) as [E|E]; rewrite E in H; [done|]. by destruct (HasSuffix _ (d_host b)).
  - apply String.eqb_eq in Ha1, Hb1. subst. by rewrite Hb1, String.eqb_refl in H.
Qed.

Lemma intersect_covered a b e : intersect a b = Some e -> covers a e = true /\ covers b e = true.
Proof.
  rewrite intersect_port. unfold meetPort. intros H. rewrite !covers_spec.
  destruct (Z.eqb_spec (d_port a) 0), (Z.eqb_spec (d_port b) 0), (Z.eqb_spec (d_port b) (d_port a));
    cbn [negb andb] in H; try done;
    destruct (d_wild a) eqn:Ea, (d_wild b) eqn:Eb; cbn [negb andb] in H; try done;
    repeat case_match; simplify_eq; cbn [d_wild d_port d_host];
    rewrite ?HasSuffix_refl; try (apply String.eqb_eq in H0); split_and!; auto; congruence.
Qed.

(** ** The canonical spelling reads back *)

(** An entry that is a name or a dotted address: lower-case letters, digits,
    hyphens and dots. (An IPv6 literal is the other kind of host.) *)
Definition nameOK (e : domEntry) : bool :=
  ldhHost (d_host e) && negb (endsDot (d_host e)) && (0 <=? d_port e) && (d_port e <=? 65535) &&
  (if d_wild e then HasPrefix (d_host e) "."
   else negb (String.eqb (d_host e) "") && String.eqb (CanonHost (d_host e)) (d_host e)).

Definition nameEntry (d : string) : bool :=
  match parseDomEntry d with Some e => nameOK e | None => true end.

Definition entryByte (c : ascii) : bool := ldh c || Ascii.eqb c "*" || Ascii.eqb c ":".

Lemma entryByte_plain c : entryByte c = true -> is_ascii c && negb (is_space c) && Ascii.eqb (lower_byte c) c = true.
Proof. destruct c as [[] [] [] [] [] [] [] []]; (done || reflexivity). Qed.

Lemma str_map_id f s : str_forall (fun c => Ascii.eqb (f c) c) s = true -> str_map f s = s.
Proof.
  induction s as [|c s IH]; [done|]. cbn [str_forall str_map]. intros [Hc%Ascii.eqb_eq Hs]%andb_prop. by rewrite Hc, IH.
Qed.

Lemma entryText_plain s : str_forall entryByte s = true -> ToLower (TrimSpace s) = s.
Proof.
  intros H. assert (Ha : str_forall is_ascii s = true /\ str_forall (fun c => negb (is_space c)) s = true /\
                         str_forall (fun c => Ascii.eqb (lower_byte c) c) s = true).
  { split_and!; eapply str_forall_impl; try exact H; intros c Hc;
    apply entryByte_plain in Hc; apply andb_prop in Hc as [[? ?]%andb_prop ?]; assumption. }
  destruct Ha as (Ha & Hs & Hl). unfold TrimSpace, trimSpaceASCII. rewrite Ha, trimLeft_id, trimRight_id by done.
  unfold ToLower. rewrite Ha. by apply str_map_id.
Qed.

Lemma SplitHostPort_plain h p :
  str_has ":" h = false -> str_has "[" h = false -> str_has "]" h = false -> 0 <= p ->
  SplitHostPort (h +:+ ":" +:+ Itoa p) = Some (h, Itoa p).
Proof.
  intros Hc Hl Hr Hp. unfold SplitHostPort.
  change (h +:+ ":" +:+ Itoa p) with (h +:+ String ":" (Itoa p)).
  rewrite cutLastByte_app by (by apply Itoa_no_byte). rewrite Hc.
  assert (Hs : str_has "[" (h +:+ String ":" (Itoa p)) = false /\ str_has "]" (h +:+ String ":" (Itoa p)) = false).
  { rewrite !str_has_app, !str_has_cons, !Itoa_no_byte, Hl, Hr by done. done. }
  destruct Hs as [Hs1 Hs2]. rewrite Hs1, Hs2. cbn [negb andb].
  destruct (h +:+ String ":" (Itoa p)) as [|c s]; [done|]. rewrite str_has_cons in Hs1.
  destruct (Ascii.eqb_spec c "[") as [->|Hne]; [done|]. by destruct c as [[] [] [] [] [] [] [] []].
Qed.


Lemma endsDot_app a b : b <> "" -> endsDot (a +:+ b) = endsDot b.
Proof.
  intros Hb. induction a as [|c a IH]; [by rewrite str_app_nil_l|].
  rewrite str_app_cons, endsDot_cons; [done|]. destruct a; [by rewrite str_app_nil_l | by rewrite str_app_cons].
Qed.

Lemma endsDot_no_dot s : str_has "." s = false -> endsDot s = false.
Proof.
  intros H. destruct (endsDot s) eqn:E; [|done]. apply HasSuffix_spec in E as [p ->].
  rewrite str_has_app in H. by apply orb_false_elim in H as [_ H].
Qed.

Lemma ldhHost_no c h : ldhHost h = true -> ldh c = false -> str_has c h = false.
Proof. apply str_forall_has_not. Qed.

(** The text of an entry before its port. *)
Definition entryBody (e : domEntry) : string := if d_wild e then "*" ++ d_host e else d_host e.

Lemma entryBody_facts e : nameOK e = true ->
  str_forall entryByte (entryBody e) = true /\ endsDot (entryBody e) = false /\ entryBody e <> "" /\
  str_has ":" (entryBody e) = false /\ str_has "[" (entryBody e) = false /\ str_has "]" (entryBody e) = false.
Proof.
  unfold nameOK, entryBody. intros H. repeat (apply andb_prop in H as [H ?]). apply negb_true_iff in H3.
  assert (Hb : str_forall entryByte (d_host e) = true)
    by (eapply str_forall_impl; [|exact H]; intros c Hc; unfold entryByte; by rewrite Hc).
  pose proof (ldhHost_no ":" _ H eq_refl). pose proof (ldhHost_no "[" _ H eq_refl). pose proof (ldhHost_no "]" _ H eq_refl).
  destruct (d_wild e).
  - change ("*" ++ d_host e) with (String "*" (d_host e)). rewrite !str_has_cons, endsDot_cons.
    + by split_and!.
    + by destruct (d_host e).
  - apply andb_prop in H0 as [H0 _]. split_and!; try done. intros E. by rewrite E in H0.
Qed.

Lemma domString_body e : nameOK e = true ->
  domString e = if d_port e =? 0 then entryBody e else entryBody e +:+ ":" +:+ Itoa (d_port e).
Proof.
  intros H. apply entryBody_facts in H as (_ & _ & _ & Hc & _). unfold domString. fold (entryBody e).
  by rewrite Hc, andb_false_r.
Qed.

Lemma splitEntryPort_body e : nameOK e = true -> splitEntryPort (domString e) = (entryBody e, d_port e).
Proof.
  intros H. rewrite domString_body by done. pose proof (entryBody_facts e H) as (_ & Hd & _ & Hc & Hl & Hr).
  unfold nameOK in H. bool_prop. unfold splitEntryPort. destruct (Z.eqb_spec (d_port e) 0) as [->|].
  - unfold SplitHostPort. by rewrite (proj2 (cutLastByte_None _ _) Hc).
  - rewrite SplitHostPort_plain, Atoi_Itoa by (done || lia).
    rewrite (proj2 (Z.leb_le 1 _)), (proj2 (Z.leb_le _ 65535)), TrimRightDots_id by (done || lia). done.
Qed.

Lemma domString_text e : nameOK e = true ->
  str_forall entryByte (domString e) = true /\ endsDot (domString e) = false /\ domString e <> "".
Proof.
  intros H. rewrite domString_body by done. pose proof (entryBody_facts e H) as (Hb & Hd & Hn & _).
  unfold nameOK in H. bool_prop. destruct (Z.eqb_spec (d_port e) 0); [done|].
  assert (Hdig : str_forall entryByte (Itoa (d_port e)) = true).
  { eapply str_forall_impl; [|apply (Itoa_digits (d_port e)); lia]. intros c Hc. unfold entryByte, ldh. rewrite Hc.
    by destruct (is_lower c). }
  split_and!.
  - rewrite !str_forall_app, Hb, Hdig. done.
  - rewrite endsDot_app by done. change (":" +:+ Itoa (d_port e)) with (String ":" (Itoa (d_port e))).
    rewrite endsDot_cons by apply Itoa_nonempty. apply endsDot_no_dot, Itoa_no_byte; [lia | done].
  - destruct (entryBody e); [done|]. by rewrite str_app_cons.
Qed.

Lemma domString_roundtrip e : nameOK e = true -> parseDomEntry (domString e) = Some e.
Proof.
  intros H. destruct (domString_text e H) as (Hb & Hd & Hn). unfold parseDomEntry, Classify.
  rewrite entryText_plain, TrimRightDots_id by done. destruct (String.eqb_spec (domString e) "") as [|_]; [done|].
  rewrite splitEntryPort_body by done. unfold nameOK in H. repeat (apply andb_prop in H as [H ?]).
  destruct e as [w h p]. unfold entryBody. cbn [d_wild d_host d_port] in *. destruct w.
  - apply HasPrefix_spec in H0 as [r ->]. done.
  - apply andb_prop in H0 as [Hne Hcan%String.eqb_eq]. destruct h as [|c h]; [done|].
    assert (Hstar : c <> "*"%char) by (intros ->; by cbn in H).
    destruct c as [[] [] [] [] [] [] [] []]; try done; rewrite Hcan; done.
Qed.

(** ** The minimal spelling *)

Lemma uniqEntries_Some es name e : uniqEntries es !! name = Some e -> e ∈ es /\ domString e = name.
Proof.
  unfold uniqEntries. induction es as [|x es IH] using rev_ind; [cbn [fold_left]; by rewrite lookup_empty|].
  rewrite fold_left_app. cbn [fold_left]. rewrite elem_of_app, list_elem_of_singleton.
  intros [[<- <-]|[_ H]]%lookup_insert_Some; [tauto|]. apply IH in H. tauto.
Qed.

Lemma uniqEntries_elem es e :
  forallb nameOK es = true -> e ∈ es -> uniqEntries es !! domString e = Some e.
Proof.
  unfold uniqEntries. induction es as [|x es IH] using rev_ind; [by intros _ ?%not_elem_of_nil|].
  rewrite forallb_app, fold_left_app, elem_of_app, list_elem_of_singleton. cbn [forallb fold_left].
  intros [H1 H2]%andb_prop He. rewrite andb_true_r in H2.
  assert (Hn : nameOK e = true).
  { destruct He as [He| ->]; [|done]. rewrite forallb_forall in H1. apply H1. by apply list_elem_of_In. }
  destruct (decide (domString x = domString e)) as [E|E].
  - rewrite E, lookup_insert_eq. pose proof (domString_roundtrip _ H2) as Hx. rewrite E, domString_roundtrip in Hx by done.
    congruence.
  - rewrite lookup_insert_ne by done. destruct He as [He| ->]; [by apply IH | done].
Qed.

Lemma minimise_elem es s :
  s ∈ minimise es <->
  exists e, uniqEntries es !! s = Some e /\ hasDominator (uniqEntries es) s e = false.
Proof.
  unfold minimise. rewrite elem_of_sortStrings, list_elem_of_In, in_map_iff.
  split.
  - intros ([n e] & <- & [H1 H2]%filter_In). exists e. apply list_elem_of_In, elem_of_map_to_list in H1.
    split; [done | by apply negb_true_iff].
  - intros (e & H1 & H2). exists (s, e). split; [done|]. apply filter_In.
    split; [by apply list_elem_of_In, elem_of_map_to_list | cbn; by rewrite H2].
Qed.

(** Strict domination shortens the suffix or drops the port. *)
Definition entrySize (e : domEntry) : nat :=
  (2 * String.length (d_host e) + (if Z.eqb (d_port e) 0 then 0 else 1))%nat.

Lemma covers_smaller f e : covers f e = true -> f <> e -> (entrySize f < entrySize e)%nat.
Proof.
  rewrite covers_spec. destruct f as [wf hf pf], e as [we he pe]. unfold entrySize. cbn [d_wild d_host d_port].
  intros (-> & Hp & Hh) Hne.
  assert (Hl : (String.length hf <= String.length he)%nat /\ (String.length hf = String.length he -> hf = he)).
  { destruct we; [|by subst]. apply HasSuffix_spec in Hh as [q ->]. rewrite str_len_app. split; [lia|].
    intros Hz. destruct q; [by rewrite str_app_nil_l | cbn in Hz; lia]. }
  destruct Hl as [Hl1 Hl2]. destruct (decide (String.length hf = String.length he)) as [E|E].
  - rewrite E. specialize (Hl2 E) as ->. destruct Hp as [-> | ->]; [|done]. destruct (Z.eqb_spec pe 0) as [->|]; [done|].
    cbn [Z.eqb]. lia.
  - destruct (pf =? 0), (pe =? 0); lia.
Qed.

(** No entry is lost: each one is covered by an entry the minimal list spells. *)
Lemma minimise_covers es e :
  forallb nameOK es = true -> e ∈ es -> exists f, f ∈ es /\ domString f ∈ minimise es /\ covers f e = true.
Proof.
  intros Hall. induction e as [e IH] using (induction_ltof1 _ entrySize). intros He.
  destruct (hasDominator (uniqEntries es) (domString e) e) eqn:Ed.
  - apply containsFunc_true in Ed as ([n f] & Hf & H). cbn [fst snd] in H.
    apply andb_prop in H as [[Hne _]%andb_prop Hc]. apply elem_of_map_to_list in Hf.
    apply uniqEntries_Some in Hf as [Hf <-].
    assert (Hfe : f <> e) by (intros ->; by rewrite String.eqb_refl in Hne).
    destruct (IH f) as (g & Hg & Hs & Hgc); [by apply covers_smaller | done |].
    exists g. split_and!; try done. by eapply covers_trans.
  - exists e. split_and!; [done | | apply covers_refl]. apply minimise_elem. exists e.
    split; [by apply uniqEntries_elem | done].
Qed.

Lemma minimise_sub es s : s ∈ minimise es -> exists e, e ∈ es /\ s = domString e.
Proof. intros (e & H & _)%minimise_elem. apply uniqEntries_Some in H as [? <-]. eauto. Qed.

End DomEntry.
