(* ===== verification/Grants.v ===== *)
(** * Composer: credential grants

    [internal/types/git_pat_scope.go] (the repository identity of a PAT scope),
    [internal/composer/pat_scope.go] (dominance and meet of PAT scopes),
    [grantbound.go] (which ceiling grant bounds a proposal), [grantwithin.go] (the
    dominance contract) and the grant half of [clamp.go].

    A refusal is a value ([grantRefusal]); a scope that does not decode is
    [ScopeEmpty] or [ScopeBad] and every comparator refuses it. A repository list
    that is absent ([None]) reaches every repository, an empty one reaches none;
    [reaches] is that meaning. *)
From S2P Require Import Prelude GoStrings GoSlices PolicyTypes.
Local Open Scope string_scope.
Local Open Scope Z_scope.

(** ** Repository identity *)

Definition PATAccessRead : string := "read".
Definition PATAccessWrite : string := "write".
Definition PATForgeGeneric : string := "generic".
Definition PATForgeGitLab : string := "gitlab".
Definition PATForgeBitbucketServer : string := "bitbucket_server".
Definition PATForgeGitea : string := "gitea".

(** [strings.Contains(s, "..")]. *)
Fixpoint hasDotDot (s : string) : bool :=
  match s with
  | String "." (String "." _) => true
  | String _ s' => hasDotDot s'
  | "" => false
  end.

(** [strings.CutSuffix]. *)
Definition CutSuffix (s suf : string) : option string :=
  if HasSuffix s suf then Some (String.substring 0 (String.length s - String.length suf) s) else None.

(** [strings.CutPrefix]. *)
Definition CutPrefix (s pre : string) : option string :=
  if HasPrefix s pre then Some (String.substring (String.length pre) (String.length s - String.length pre) s) else None.

Definition badRepoByte (c : ascii) : bool :=
  (byte_of c <? 32) || (byte_of c =? 127) || Ascii.eqb c "#" || Ascii.eqb c "?" || Ascii.eqb c "\".

Definition knownForge (f : string) : bool :=
  String.eqb f "" || String.eqb f PATForgeGeneric || String.eqb f PATForgeGitLab ||
  String.eqb f PATForgeBitbucketServer || String.eqb f PATForgeGitea.

Definition PATRepoKey (forge path : string) : option string :=
  if negb (knownForge forge) then None
  else if String.eqb path "" || hasDotDot path then None
  else if negb (str_forall (fun c => negb (badRepoByte c)) path) then None
  else
    let base := default path (CutSuffix path "/*") in
    if String.eqb base "" || HasSuffix base "/*" then None
    else if containsFunc (fun seg => String.eqb seg "" || String.eqb seg ".") (splitByte "/" base) then None
    else Some path.

Definition PATRepoCovers (entry key : string) : bool :=
  if String.eqb entry key then true
  else match CutSuffix entry "/*" with
       | None => false
       | Some base =>
           if HasSuffix key "/*" then false
           else match CutPrefix key (base ++ "/") with
                | None => false
                | Some rest => negb (String.eqb rest "") && negb (str_has "/" rest)
                end
       end.

(** ** The index *)

Abbreviation patRepoIndex := (gset string).

Definition newPATRepoIndex (forge : string) (l : list string) : patRepoIndex :=
  fold_left (fun ix c => match PATRepoKey forge c with Some k => {[k]} ∪ ix | None => ix end) l ∅.

Definition coveredByWildcard (ix : patRepoIndex) (key : string) : bool :=
  match cutLastByte "/" key with
  | None => false
  | Some (before, _) =>
      if String.eqb before "" || HasSuffix key "/*" then false
      else bool_decide (before ++ "/*" ∈ ix)
  end.

Definition indexCovers (ix : patRepoIndex) (forge entry : string) : bool :=
  match PATRepoKey forge entry with
  | None => false
  | Some key => bool_decide (key ∈ ix) || coveredByWildcard ix key
  end.

Definition patIntersectRepos (forge : string) (a b : list string) : list string :=
  let ia := newPATRepoIndex forge a in
  let ib := newPATRepoIndex forge b in
  let out := (List.filter (indexCovers ib forge) a ++ List.filter (indexCovers ia forge) b)%list in
  let out := compact (sortStrings out) in
  let io := newPATRepoIndex forge out in
  List.filter (fun e => negb (coveredByWildcard io e)) out.

Definition patReposWithin (forge : string) (a b : option (list string)) : bool :=
  match a, b with
  | None, None => true
  | Some la, Some lb =>
      let ib := newPATRepoIndex forge lb in
      negb (containsFunc (fun e => negb (indexCovers ib forge e)) la)
  | _, _ => false
  end.

(** ** What a repository list reaches *)

Definition listReaches (forge : string) (l : list string) (key : string) : Prop :=
  exists e, e ∈ l /\ is_Some (PATRepoKey forge e) /\ PATRepoCovers e key = true.

Definition reaches (forge : string) (l : option (list string)) (key : string) : Prop :=
  match l with None => True | Some l => listReaches forge l key end.

(** A concrete repository: a well-formed key that is no wildcard. *)
Definition concreteRepo (forge key : string) : Prop :=
  PATRepoKey forge key = Some key /\ HasSuffix key "/*" = false.

Lemma substring_prefix a b : String.substring 0 (String.length a) (a +:+ b) = a.
Proof. induction a as [|c a IH]; [by destruct b|]. rewrite str_app_cons. cbn. by rewrite IH. Qed.

Lemma substring_all s : String.substring 0 (String.length s) s = s.
Proof. rewrite <- (str_app_nil_r s) at 2. apply substring_prefix. Qed.

Lemma substring_suffix a b : String.substring (String.length a) (String.length b) (a +:+ b) = b.
Proof. induction a as [|c a IH]; [apply substring_all|]. rewrite str_app_cons. cbn. apply IH. Qed.

Lemma CutSuffix_Some s suf b : CutSuffix s suf = Some b <-> s = b +:+ suf.
Proof.
  unfold CutSuffix. destruct (HasSuffix s suf) eqn:E.
  - apply HasSuffix_spec in E as [p ->]. rewrite str_len_app, Nat.add_sub, substring_prefix.
    split; [by intros [= ->] | by intros ->%str_app_inj_r].
  - split; [done|]. intros ->. assert (HasSuffix (b +:+ suf) suf = true) by (apply HasSuffix_spec; eauto). congruence.
Qed.

Lemma CutPrefix_Some s pre r : CutPrefix s pre = Some r <-> s = pre +:+ r.
Proof.
  unfold CutPrefix. destruct (HasPrefix s pre) eqn:E.
  - apply HasPrefix_spec in E as [p ->]. rewrite str_len_app, (Nat.add_comm (String.length pre)), Nat.add_sub, substring_suffix.
    split; [by intros [= ->] | by intros ->%str_app_inj_l].
  - split; [done|]. intros ->. assert (HasPrefix (pre +:+ r) pre = true) by (apply HasPrefix_spec; eauto). congruence.
Qed.

Lemma PATRepoKey_id forge e k : PATRepoKey forge e = Some k -> k = e.
Proof. unfold PATRepoKey. intros E. repeat (break_match; try discriminate). congruence. Qed.

Lemma elem_of_index forge l k :
  k ∈ newPATRepoIndex forge l <-> k ∈ l /\ is_Some (PATRepoKey forge k).
Proof.
  unfold newPATRepoIndex. induction l as [|x l IH] using rev_ind; [cbn; set_solver|].
  rewrite fold_left_app. cbn [fold_left]. rewrite elem_of_app, list_elem_of_singleton.
  destruct (PATRepoKey forge x) as [y|] eqn:E.
  - pose proof (PATRepoKey_id _ _ _ E) as ->. rewrite elem_of_union, elem_of_singleton, IH. naive_solver.
  - rewrite IH. split; [tauto|]. intros [[?| ->] Hk]; [tauto|]. rewrite E in Hk. by destruct Hk.
Qed.

Lemma splitByte_trailing c a : exists h t, splitByte c (a +:+ String c "") = (h :: t ++ [""])%list.
Proof.
  induction a as [|x a (h & t & E)].
  - rewrite str_app_nil_l. exists "", []. cbn. by rewrite Ascii.eqb_refl.
  - rewrite str_app_cons. cbn [splitByte]. rewrite E. destruct (Ascii.eqb x c); [by exists "", (h :: t)%list | by exists (String x h), t].
Qed.

(** A well-formed key has no empty last segment. *)
Lemma PATRepoKey_no_trailing forge k a : is_Some (PATRepoKey forge k) -> HasSuffix k "/*" = false -> k <> a +:+ "/".
Proof.
  intros [k' E] Hw ->. revert E. unfold PATRepoKey, CutSuffix. rewrite Hw. cbn [default].
  destruct (splitByte_trailing "/" a) as (h & t & Es). change (a +:+ "/") with (a +:+ String "/" "") in *. rewrite Es.
  assert (containsFunc (fun seg => String.eqb seg "" || String.eqb seg ".") (h :: t ++ [""])%list = true) as ->.
  { apply containsFunc_true. exists "". split; [right; apply elem_of_app; right; left | done]. }
  repeat case_match; done.
Qed.

(** A well-formed entry that is a wildcard has a parent. *)
Lemma PATRepoKey_parent forge b : is_Some (PATRepoKey forge (b +:+ "/*")) -> b <> "".
Proof.
  intros [k E] ->. revert E. unfold PATRepoKey. rewrite str_app_nil_l. by destruct (negb (knownForge forge)).
Qed.

Lemma PATRepoCovers_spec entry key :
  PATRepoCovers entry key = true <->
  entry = key \/
  (HasSuffix key "/*" = false /\
   exists base rest, entry = base +:+ "/*" /\ key = base +:+ String "/" rest /\ rest <> "" /\ str_has "/" rest = false).
Proof.
  unfold PATRepoCovers. destruct (String.eqb_spec entry key) as [->|Hne]; [split; [by left | done]|].
  destruct (CutSuffix entry "/*") as [base|] eqn:Eb.
  - apply CutSuffix_Some in Eb as ->. destruct (HasSuffix key "/*"); [split; [done | intros [?|[? _]]; done]|].
    destruct (CutPrefix key (base ++ "/")) as [rest|] eqn:Er.
    + apply CutPrefix_Some in Er as ->. rewrite <- str_app_assoc in *. change ("/" +:+ rest) with (String "/" rest) in *.
      rewrite andb_true_iff, !negb_true_iff, String.eqb_neq. split.
      * intros [? ?]. right. split; [done|]. exists base, rest. done.
      * intros [?|(_ & b & r & ->%str_app_inj_r & Hk & ? & ?)]; [done|]. apply str_app_inj_l in Hk. by injection Hk as <-.
    + split; [done|]. intros [?|(_ & b & r & ->%str_app_inj_r & -> & _)]; [done|].
      assert (CutPrefix (b +:+ String "/" r) (b ++ "/") = Some r); [|congruence].
      apply CutPrefix_Some. by rewrite <- str_app_assoc.
  - split; [done|]. intros [?|(_ & b & r & -> & _)]; [done|].
    assert (CutSuffix (b +:+ "/*") "/*" = Some b) by (by apply CutSuffix_Some). congruence.
Qed.

Lemma coveredByWildcard_spec forge l key :
  is_Some (PATRepoKey forge key) ->
  coveredByWildcard (newPATRepoIndex forge l) key = true <->
  exists e, e ∈ l /\ is_Some (PATRepoKey forge e) /\ e <> key /\ PATRepoCovers e key = true.
Proof.
  intros Hk. unfold coveredByWildcard. split.
  - destruct (cutLastByte "/" key) as [[b r]|] eqn:Ec; [|done].
    destruct (String.eqb_spec b "") as [|Hb]; [done|]. destruct (HasSuffix key "/*") eqn:Hw; [done|]. cbn [orb].
    intros H%bool_decide_eq_true%elem_of_index. destruct H as [Hin Hok]. apply cutLastByte_Some in Ec as [-> Hr].
    exists (b +:+ "/*"). split_and!; [done | done | by intros E; rewrite <- E, (proj2 (HasSuffix_spec _ _)) in Hw; eauto | ].
    apply PATRepoCovers_spec. right. split; [done|]. exists b, r. split_and!; try done.
    intros ->. by apply (PATRepoKey_no_trailing forge (b +:+ "/") b).
  - intros (e & Hin & Hok & Hne & [?|(Hw & b & r & -> & -> & Hr & Hs)]%PATRepoCovers_spec); [done|].
    rewrite cutLastByte_app, Hw by done. destruct (String.eqb_spec b "") as [->|]; [by apply PATRepoKey_parent in Hok|].
    apply bool_decide_eq_true, elem_of_index. done.
Qed.

Lemma indexCovers_spec forge l entry :
  indexCovers (newPATRepoIndex forge l) forge entry = true <->
  is_Some (PATRepoKey forge entry) /\ listReaches forge l entry.
Proof.
  unfold indexCovers, listReaches. destruct (PATRepoKey forge entry) as [k|] eqn:E.
  - pose proof (PATRepoKey_id _ _ _ E) as ->.
    rewrite orb_true_iff, bool_decide_eq_true, elem_of_index, coveredByWildcard_spec by eauto. split.
    + intros [[Hin Hok]|(e & ? & ? & ? & ?)]; (split; [eauto|]); [|eauto].
      exists entry. split_and!; [done | done | apply PATRepoCovers_spec; by left].
    + intros [_ (e & Hin & Hok & Hc)]. destruct (decide (e = entry)) as [->|]; [by left | right; eauto].
  - split; [done | intros [[? ?] _]; done].
Qed.

(** The repository index answers in two lookups exactly what scanning the
    list with the reference predicate answers: a well-formed entry is covered when
    some well-formed entry of the list equals it or is the wildcard of its parent. *)
Theorem repo_index_is_exact forge l entry :
  indexCovers (newPATRepoIndex forge l) forge entry =
  bool_decide (is_Some (PATRepoKey forge entry)) &&
  containsFunc (fun c => bool_decide (is_Some (PATRepoKey forge c)) && PATRepoCovers c entry) l.
Proof.
  apply eq_true_iff_eq. rewrite indexCovers_spec, andb_true_iff, bool_decide_eq_true, containsFunc_true.
  unfold listReaches. setoid_rewrite andb_true_iff. by setoid_rewrite bool_decide_eq_true.
Qed.

(** ** Intersection of repository lists *)

Lemma covers_concrete forge e f key :
  concreteRepo forge key -> PATRepoCovers e key = true -> PATRepoCovers f key = true -> e = key \/ f = key \/ e = f.
Proof.
  intros [_ Hc] [->|(_ & b & r & -> & Hk & _ & Hr)]%PATRepoCovers_spec; [tauto|].
  intros [->|(_ & b' & r' & -> & Hk' & _ & Hr')]%PATRepoCovers_spec; [tauto|]. right; right.
  assert (cutLastByte "/" key = Some (b, r)) by (subst; by apply cutLastByte_app).
  assert (cutLastByte "/" key = Some (b', r')) by (rewrite Hk'; by apply cutLastByte_app). congruence.
Qed.

Lemma covers_wild_concrete e key : PATRepoCovers e key = true -> e <> key -> HasSuffix e "/*" = true.
Proof. intros [->|(_ & b & r & -> & _)]%PATRepoCovers_spec ?; [done|]. apply HasSuffix_spec; eauto. Qed.

Lemma PATRepoCovers_refl e : PATRepoCovers e e = true.
Proof. apply PATRepoCovers_spec. by left. Qed.

Lemma listReaches_self forge l e : e ∈ l -> is_Some (PATRepoKey forge e) -> listReaches forge l e.
Proof. intros. exists e. split_and!; [done | done | apply PATRepoCovers_refl]. Qed.

(** The entries both lists cover, before the covered ones are dropped. *)
Definition sharedEntries (forge : string) (a b : list string) : list string :=
  compact (sortStrings (List.filter (indexCovers (newPATRepoIndex forge b) forge) a ++
                        List.filter (indexCovers (newPATRepoIndex forge a) forge) b)%list).

Lemma elem_of_shared forge a b e :
  e ∈ sharedEntries forge a b <->
  is_Some (PATRepoKey forge e) /\ (e ∈ a /\ listReaches forge b e \/ e ∈ b /\ listReaches forge a e).
Proof.
  unfold sharedEntries. rewrite elem_of_sortCompact, elem_of_app, !list_elem_of_In, !filter_In, <- !list_elem_of_In,
    !indexCovers_spec. tauto.
Qed.

Lemma elem_of_intersect forge a b e :
  e ∈ patIntersectRepos forge a b <->
  e ∈ sharedEntries forge a b /\
  ~ (exists w, w ∈ sharedEntries forge a b /\ is_Some (PATRepoKey forge w) /\ w <> e /\ PATRepoCovers w e = true).
Proof.
  unfold patIntersectRepos. fold (sharedEntries forge a b).
  rewrite list_elem_of_In, filter_In, <- list_elem_of_In, negb_true_iff.
  split; intros [H1 H2]; (split; [done|]); pose proof (proj1 (elem_of_shared _ _ _ _) H1) as [Hk _];
    rewrite <- not_true_iff_false, coveredByWildcard_spec in * by done; done.
Qed.

Lemma shared_reaches forge a b key :
  concreteRepo forge key -> listReaches forge a key -> listReaches forge b key -> listReaches forge (sharedEntries forge a b) key.
Proof.
  intros Hc (e & He & Hke & Hce) (f & Hf & Hkf & Hcf).
  assert (Hself : is_Some (PATRepoKey forge key)) by (destruct Hc as [-> _]; eauto).
  destruct (covers_concrete forge e f key) as [-> | [-> | ->]]; try done.
  - exists key. split_and!; [|done|apply PATRepoCovers_refl]. apply elem_of_shared. split; [done|]. left.
    split; [done|]. exists f. done.
  - exists key. split_and!; [|done|apply PATRepoCovers_refl]. apply elem_of_shared. split; [done|]. right.
    split; [done|]. exists e. done.
  - exists f. split_and!; [|done|done]. apply elem_of_shared. split; [done|]. left. split; [done|]. by apply listReaches_self.
Qed.

Lemma intersect_reaches forge a b key :
  concreteRepo forge key ->
  listReaches forge (patIntersectRepos forge a b) key <-> listReaches forge a key /\ listReaches forge b key.
Proof.
  intros Hc. assert (Hself : is_Some (PATRepoKey forge key)) by (destruct Hc as [-> _]; eauto). split.
  - intros (e & [He _]%elem_of_intersect & Hk & Hcov). apply elem_of_shared in He as [_ H].
    assert (Hside : forall l m, e ∈ l -> listReaches forge m e -> listReaches forge l key /\ listReaches forge m key).
    { intros l m Hl (f & Hf & Hkf & Hcf). split; [by exists e|]. destruct (decide (e = key)) as [->|Hne]; [by exists f|].
      pose proof (covers_wild_concrete _ _ Hcov Hne) as Hw. apply PATRepoCovers_spec in Hcf as [->|[Hx _]]; [by exists e | congruence]. }
    destruct H as [[H1 H2]|[H1 H2]]; destruct (Hside _ _ H1 H2); done.
  - intros [Ha Hb]. destruct (shared_reaches _ _ _ _ Hc Ha Hb) as (e & He & Hk & Hcov).
    assert (Hkeep : forall w, w ∈ sharedEntries forge a b -> is_Some (PATRepoKey forge w) -> HasSuffix w "/*" = true ->
              w ∈ patIntersectRepos forge a b).
    { intros w Hw Hkw Hs. apply elem_of_intersect. split; [done|]. intros (x & _ & _ & Hne & Hx).
      apply PATRepoCovers_spec in Hx as [->|[Hx _]]; congruence. }
    destruct (HasSuffix e "/*") eqn:Es; [exists e; split_and!; [by apply Hkeep | done | done]|].
    assert (e = key) as -> by (destruct (decide (e = key)); [done|]; by rewrite (covers_wild_concrete _ _ Hcov) in Es).
    destruct (coveredByWildcard (newPATRepoIndex forge (sharedEntries forge a b)) key) eqn:Ew.
    + apply coveredByWildcard_spec in Ew as (w & Hw & Hkw & Hne & Hcw); [|done].
      exists w. split_and!; [|done|done]. apply Hkeep; [done | done | by eapply covers_wild_concrete].
    + exists key. split_and!; [|done|done]. apply elem_of_intersect. split; [done|].
      intros Hx. apply coveredByWildcard_spec in Hx; [congruence | done].
Qed.
