(* ===== verification/PushForge.v ===== *)
(** * Pushes: the forge's answers and the verdict of the content rules

    [internal/egress/proxy/push_forge.go] and the broker's half of
    [push_rules.go]: what a push leaves unchanged is read from the forge (the
    commits it builds on are vouched for by a branch the push updates at its
    confirmed tip, or by the default branch; an entry is cleared when one of their
    trees holds the same mode and object at the same path), and [applyPushRules]
    applies the content rules of a run to one receive-pack request, every early
    refusal included.

    The forge's HTTP answers are the fields of [forgeRepo]; an error is the left of
    a sum and carries its text. [settleWalk] stands for the second walk of the pack
    ([gitpack.Result.Settle]), which is given the question "does the forge hold
    this commit". The answers may differ from one rule to the next, so
    [inspectPush] takes a reader per rule; the reader's caches only save reads. *)
From S2P Require Import Prelude GoStrings GoPath PolicyTypes PushRules Grants.
Local Open Scope string_scope.
Local Open Scope Z_scope.
Local Open Scope wardyn_scope.

#[export] Instance Change_eq_dec : EqDecision Change.
Proof. solve_decision. Defined.

(** ** What the forge is asked *)

Record Command := mkCommand { Old : string; New : string; Ref : string }.
Record Result := mkResult { Commands : list Command; Changes : list Change; Bases : list string }.
Record ghTreeEntry := mkTreeEntry { ePath : string; eMode : string; eType : string; eSHA : string }.

Record forgeRepo := mkForge {
  ado : bool;
  branchTip : string -> errOr string;
  containsAt : string -> string -> errOr string;
  repoDefault : errOr string;
  treeEntries : string -> errOr (list ghTreeEntry);
  settleWalk : Result -> (string -> errOr bool) -> errOr Result;
}.

Definition whyChanged : string :=
  "a directory or file above is not what the same path held in the commit this push builds on".
Definition whyNoBase : string :=
  "this push builds on no commit in the history of the default branch or of a branch it updates, so nothing vouches for what it does not carry".
Definition whyNoForgeReader : string :=
  "the broker cannot read this forge's history, so what the push does not carry cannot be compared with the commit it builds on".
Definition whyUnread : string :=
  "the broker could not compare what this push does not carry with the commit it builds on: ".
Definition whyUnsettled : string :=
  "the broker could not ask the forge which commits this push carries it already holds, so every one of them is read as new: ".
Definition whyHeldNoForgeReader : string :=
  "the broker cannot read this forge's history, so it cannot ask whether the forge already holds these commits".
Definition whyHeldUnread : string :=
  "the broker could not ask the forge whether it already holds these commits: ".
Definition whyNotHeld : string :=
  "the forge holds no such commit in the history of the default branch or of a branch this push updates, for: ".
Definition whyForced : string :=
  "this push moves a branch other than forward from the tip it states, so the commit it builds on does not show what the branch loses".
Definition whyHeldForced : string := "this push moves a branch other than forward from the tip it states, for: ".

Definition hexByte (c : ascii) : bool :=
  is_digit c || ((97 <=? byte_of c) && (byte_of c <=? 102)).
Definition isHex (s : string) : bool := negb (String.eqb s "") && str_forall hexByte s.

(** [strings.Trim(s, "0") == ""]. *)
Definition allZero (s : string) : bool := str_forall (Ascii.eqb "0") s.

Definition refNameByte (c : ascii) : bool :=
  negb ((byte_of c <? 32) || (byte_of c =? 127) || str_has c " \^~:?*[").
Definition CheckRefName (ref : string) : bool := negb (hasDotDot ref) && str_forall refNameByte ref.

(** The tip of the branch a command moves, when the forge confirms the old value
    the command states. *)
Definition updatedTip (f : forgeRepo) (c : Command) : errOr string :=
  match CutPrefix (Ref c) "refs/heads/" with
  | None => inr ""
  | Some _ =>
      if negb (isHex (Old c)) || allZero (Old c) || String.eqb (New c) (Old c) || negb (CheckRefName (Ref c))
      then inr ""
      else tip <-! branchTip f (Ref c);
           inr (if String.eqb tip (Old c) then tip else "")
  end.

Definition defaultRoot (f : forgeRepo) (base : string) : errOr string :=
  branch <-! repoDefault f;
  if String.eqb branch ""
  then if ado f then inr "" else inl "reading the repository's default branch answered 200"
  else containsAt f branch base.

(** [vouch]: the root tree of a commit the forge's history holds, or [""]. *)
Fixpoint vouch (f : forgeRepo) (base : string) (cmds : list Command) : errOr string :=
  match cmds with
  | [] => defaultRoot f base
  | c :: cmds' =>
      tip <-! updatedTip f c;
      if String.eqb tip "" then vouch f base cmds'
      else root <-! containsAt f tip base;
           if String.eqb root "" then vouch f base cmds' else inr root
  end.

Definition listing (f : forgeRepo) (tree : string) : errOr (gmap string ghTreeEntry) :=
  entries <-! treeEntries f tree;
  if forallb (fun e => isHex (eSHA e)) entries
  then inr (foldl (fun m e => <[ePath e := e]> m) ∅ entries)
  else inl ("tree " ++ tree ++ " lists an entry with no object id").

Fixpoint walkTree (f : forgeRepo) (e : ghTreeEntry) (segs : list string) : errOr (option ghTreeEntry) :=
  match segs with
  | [] => inr (Some e)
  | seg :: segs' =>
      if negb (String.eqb (eType e) "tree") then inr None
      else entries <-! listing f (eSHA e);
           match entries !! seg with
           | None => inr None
           | Some e' => walkTree f e' segs'
           end
  end.

Definition entryAt (f : forgeRepo) (root path : string) : errOr (option ghTreeEntry) :=
  let e := mkTreeEntry "" "" "tree" root in
  if String.eqb path "" then inr (Some e) else walkTree f e (splitByte "/" path).

(** Whether one of the trees holds an entry at the path that [ok] accepts. *)
Fixpoint atAny (f : forgeRepo) (ok : ghTreeEntry -> bool) (roots : list string) (path : string) : errOr bool :=
  match roots with
  | [] => inr false
  | root :: roots' =>
      e <-! entryAt f root path;
      match e with
      | Some e => if ok e then inr true else atAny f ok roots' path
      | None => atAny f ok roots' path
      end
  end.

Definition sameEntry (c : Change) (e : ghTreeEntry) : bool :=
  String.eqb (eSHA e) (OID c) &&
  ((String.eqb (Mode c) ModeUncarried && String.eqb (eType e) "tree") || String.eqb (Mode c) (eMode e)).

Definition heldAtAny (f : forgeRepo) (roots : list string) (c : Change) : errOr bool :=
  atAny f (sameEntry c) roots (Path c).

Definition executableAtAny (f : forgeRepo) (roots : list string) (c : Change) : errOr bool :=
  if String.eqb (Mode c) ModeUncarried then heldAtAny f roots c
  else atAny f (fun e => IsExecutable (eMode e)) roots (Path c).

Definition forgeClear : Type := forgeRepo -> list string -> Change -> errOr bool.

Definition fastForwards (res : Result) : bool :=
  forallb (fun c => allZero (Old c) || allZero (New c) || memS (Old c) (Bases res)) (Commands res).

Fixpoint vouchedRoots (f : forgeRepo) (cmds : list Command) (bases : list string) : errOr (list string) :=
  match bases with
  | [] => inr []
  | base :: bases' =>
      root <-! vouch f base cmds;
      roots <-! vouchedRoots f cmds bases';
      inr (if String.eqb root "" then roots else root :: roots)
  end.

(** The entries [clear] does not clear; from the first that cannot be read on,
    all of them. *)
Fixpoint notCleared (f : forgeRepo) (clear : forgeClear) (roots : list string) (entries : list Change)
    : list Change * string :=
  match entries with
  | [] => ([], whyChanged)
  | c :: entries' =>
      match clear f roots c with
      | inl e => (entries, whyUnread ++ e)
      | inr held => let '(rest, why) := notCleared f clear roots entries' in
                    (if held then rest else c :: rest, why)
      end
  end.

Definition unchanged (f : option forgeRepo) (entries : list Change) (res : Result) (clear : forgeClear)
    : list Change * string :=
  match f with
  | None => (entries, whyNoForgeReader)
  | Some f =>
      if ado f && negb (fastForwards res) then (entries, whyForced)
      else match vouchedRoots f (Commands res) (Bases res) with
           | inl e => (entries, whyUnread ++ e)
           | inr [] => (entries, whyNoBase)
           | inr roots => notCleared f clear roots entries
           end
  end.

Definition settle (f : option forgeRepo) (res : Result) : Result * string :=
  match f with
  | None => (res, "")
  | Some f =>
      match settleWalk f res (fun c => root <-! vouch f c (Commands res); inr (negb (String.eqb root ""))) with
      | inl e => (res, whyUnsettled ++ e)
      | inr settled => (settled, "")
      end
  end.

Fixpoint heldLoop (f : forgeRepo) (all cmds : list Command) (unheld : list string) : string :=
  match cmds with
  | [] => match unheld with [] => "" | _ => whyNotHeld ++ String.concat ", " unheld end
  | c :: cmds' =>
      if allZero (New c) then heldLoop f all cmds' unheld
      else match vouch f (New c) all with
           | inl e => whyHeldUnread ++ e
           | inr root =>
               let unheld' := if String.eqb root "" then (unheld ++ [Ref c])%list else unheld in
               if ado f && negb (allZero (Old c)) && negb (String.eqb root "")
               then match containsAt f (New c) (Old c) with
                    | inl e => whyHeldUnread ++ e
                    | inr forward => if String.eqb forward "" then whyHeldForced ++ Ref c
                                     else heldLoop f all cmds' unheld'
                    end
               else heldLoop f all cmds' unheld'
           end
  end.

(** Why the forge does not already hold every commit [cmds] set a ref to, or [""]. *)
Definition heldCommits (f : option forgeRepo) (cmds : list Command) : string :=
  match f with None => whyHeldNoForgeReader | Some f => heldLoop f cmds cmds [] end.

(** ** The rules on one push *)

Abbreviation claim := (list Change -> option (list string * list Change)) (only parsing).

(** One rule's claim over an inspected push: what it names outright, and what it
    does not know and the forge could not clear. [None] is a claim that failed. *)
Definition claimedEntries (cl : claim) (clear : forgeClear) (res : Result) (forge : option forgeRepo)
    : option (list string * list Change * string) :=
  match cl (Changes res) with
  | None => None
  | Some ([], []) => Some ([], [], "")
  | Some (hits, unknown) =>
      let '(res, why) := settle forge res in
      if negb (String.eqb why "") then Some (hits, unknown, why)
      else match cl (Changes res) with
           | None => None
           | Some ([], (_ :: _) as unk) =>
               let '(rest, why) := unchanged forge unk res clear in Some ([], rest, why)
           | Some (hits, _) => Some (hits, [], why)
           end
  end.

Definition matchedPaths (pats : list (list string)) (res : Result) (forge : option forgeRepo)
    : option (list string * string) :=
  match pats with
  | [] => Some ([], "")
  | _ => match claimedEntries (matchChanges pats) heldAtAny res forge with
         | None => None
         | Some (hits, rest, why) => Some ((hits ++ map shownPath rest)%list, why)
         end
  end.

Inductive pushVerdict :=
| PushRefused (ruleSource : string)
| PushReview (paths : list string) (unresolved : bool)
| PushPasses.

Definition ruleSourceGitRules : string := "brokered:git:push-rules".
Definition ruleSourceGitPackBig : string := "brokered:git:push-too-large".
Definition ruleSourceGitPackBlind : string := "brokered:git:push-uninspectable".
Definition ruleSourceGitPushDenyAll : string := "brokered:git:push-deny-all".
Definition ruleSourceGitPushEntry : string := "brokered:git:push-entry-underivable".

(** [strings.EqualFold(s, "identity")]: no rune outside ASCII folds to one of its
    letters. *)
Definition isIdentity (s : string) : bool := String.eqb (str_map lower_byte s) "identity".

Definition nonIdentityEncoding (encs : list string) : bool :=
  match encs with
  | [] => false
  | [e] => negb (String.eqb e "") && negb (isIdentity e)
  | _ => true
  end.

(** Reading the body under the scan budget, and [gitpack.Inspect] of it. *)
Inductive bodyRead := BodyBusy | BodyFailed | BodyRead (len : Z).
Inductive inspection :=
| InspectTooLarge
| InspectMissing (cmds : option (list Command))
| InspectFailed
| Inspected (res : Result).

Record pushRequest := mkPushRequest {
  encodings : list string; body : bodyRead; slotFree : bool; inspect : inspection;
}.

(** The rules a forge may be asked to clear entries for. *)
Inductive pushRule := RuleNoObjects | RuleDenyPaths | RuleMaxFileSize | RuleNewExecutables | RuleReviewPaths.

(** A rule whose claim names anything refuses; a claim that fails is refused as
    uninspectable ([refuseLargeFiles], [refuseNewExecutables]). *)
Definition refusedBy (r : option (list string * list Change * string)) (next : pushVerdict) : pushVerdict :=
  match r with
  | None => PushRefused ruleSourceGitPackBlind
  | Some ([], [], _) => next
  | Some _ => PushRefused ruleSourceGitRules
  end.

Definition refuseLargeFiles (limit : Z) (res : Result) (forge : option forgeRepo) (next : pushVerdict) : pushVerdict :=
  refusedBy (claimedEntries (fun cs => Some (oversize limit cs)) heldAtAny res forge) next.

Definition refuseNewExecutables (res : Result) (forge : option forgeRepo) (next : pushVerdict) : pushVerdict :=
  refusedBy (claimedEntries (fun cs => Some (newExecutables cs)) executableAtAny res forge) next.

(** What the rules judge of a request, or the refusal that comes before them. *)
Definition readPush (rs : pushRuleSet) (req : pushRequest) (forge : pushRule -> option forgeRepo)
    : pushVerdict + Result :=
  if negb (String.eqb (unreadable rs) "") || nonIdentityEncoding (encodings req)
  then inl (PushRefused ruleSourceGitPackBlind)
  else match body req with
  | BodyBusy | BodyFailed => inl (PushRefused ruleSourceGitPackBlind)
  | BodyRead len =>
      if len >? inspectMax rs then inl (PushRefused ruleSourceGitPackBig)
      else if negb (slotFree req) then inl (PushRefused ruleSourceGitPackBlind)
      else match inspect req with
           | InspectTooLarge => inl (PushRefused ruleSourceGitPackBig)
           | InspectMissing None => inl (PushRefused ruleSourceGitPackBlind)
           | InspectMissing (Some cmds) =>
               if String.eqb (heldCommits (forge RuleNoObjects) cmds) "" then inr (mkResult cmds [] [])
               else inl (PushRefused ruleSourceGitPackBlind)
           | InspectFailed => inl (PushRefused ruleSourceGitPackBlind)
           | Inspected res => inr res
           end
  end.

Definition reviewPush (rs : pushRuleSet) (res : Result) (forge : option forgeRepo) : pushVerdict :=
  match matchedPaths (review rs) res forge with
  | None => PushRefused ruleSourceGitPackBlind
  | Some ([], _) => PushPasses
  | Some (ps, why) => PushReview ps (negb (String.eqb why "") && negb (String.eqb why whyChanged))
  end.

(** The rules in the order the broker applies them: a deny_paths match, the size
    limit, new executables, and then what the review rules hold. *)
Definition judgePush (rs : pushRuleSet) (res : Result) (forge : pushRule -> option forgeRepo) : pushVerdict :=
  match matchedPaths (deny rs) res (forge RuleDenyPaths) with
  | None => PushRefused ruleSourceGitPackBlind
  | Some (_ :: _, _) => PushRefused ruleSourceGitRules
  | Some ([], _) =>
      let held := reviewPush rs res (forge RuleReviewPaths) in
      let exec := if denyNewExec rs then refuseNewExecutables res (forge RuleNewExecutables) held else held in
      if maxFileBytes rs >? 0 then refuseLargeFiles (maxFileBytes rs) res (forge RuleMaxFileSize) exec else exec
  end.

Definition inspectPush (rs : pushRuleSet) (req : pushRequest) (forge : pushRule -> option forgeRepo) : pushVerdict :=
  match readPush rs req forge with inl v => v | inr res => judgePush rs res forge end.

Definition applyPushRules (entryErr : string) (rules : option pushRuleSet) (req : pushRequest)
    (forge : pushRule -> option forgeRepo) : pushVerdict :=
  if negb (String.eqb entryErr "") then PushRefused ruleSourceGitPushEntry
  else match rules with
       | None => PushPasses
       | Some rs => if denyAll rs then PushRefused ruleSourceGitPushDenyAll else inspectPush rs req forge
       end.

(** ** What a push that passes carries *)

(** The trees a forge vouches for, one per base it found in a branch's history. *)
Definition vouchedFor (f : forgeRepo) (res : Result) (roots : list string) : Prop :=
  roots <> [] /\
  forall root, root ∈ roots -> root <> "" /\ exists base, base ∈ Bases res /\ vouch f base (Commands res) = inr root.

(** The forge answers for an entry that a rule is about ([P]): once the history it
    already holds is taken out of the push, no entry of the same path, mode, size
    and object that the rule is about is left, or one is and trees the forge
    vouches for clear it. *)
Definition sameChange (c d : Change) : Prop := Path c = Path d /\ Mode c = Mode d /\ size c = size d /\ OID c = OID d.

Definition clearedBy (P : Change -> Prop) (clear : forgeClear) (forge : option forgeRepo) (res : Result) (c : Change) : Prop :=
  exists f settled, forge = Some f /\ settle forge res = (settled, "") /\
    forall d, d ∈ Changes settled -> sameChange d c -> P d ->
    exists roots, vouchedFor f settled roots /\ clear f roots d = inr true.

(** A claim misses nothing of [P]: an entry of [P] is either named, or unknown. *)
Definition completeFor (cl : claim) (P : Change -> Prop) : Prop :=
  forall cs hits unknown, cl cs = Some (hits, unknown) -> forall c, c ∈ cs -> P c -> hits <> [] \/ c ∈ unknown.

Definition tooLarge (limit : Z) (c : Change) : Prop :=
  Mode c <> modeGitlink /\ (Carried c = true -> limit < size c).

Definition newlyExecutable (c : Change) : Prop :=
  Mode c = ModeUncarried \/ (IsExecutable (Mode c) = true /\ IsExecutable (BaseMode c) = false).

Lemma completeFor_impl cl (P Q : Change -> Prop) : (forall c, P c -> Q c) -> completeFor cl Q -> completeFor cl P.
Proof. intros H Hc cs hits unknown E c Hin HP. by eapply Hc; [..|apply H]. Qed.

Lemma matchChanges_complete pats : completeFor (matchChanges pats) (fun c => exists pat, pat ∈ pats /\ claimable pat c).
Proof.
  intros cs hits unknown H c Hc (pat & Hp & Hm).
  pose proof (matchFrom_complete _ _ _ _ _ H c pat Hc Hp Hm) as Hin.
  destruct (Carried c); [left; intros ->; by apply not_elem_of_nil in Hin | by right].
Qed.

Lemma oversize_complete limit : completeFor (fun cs => Some (oversize limit cs)) (tooLarge limit).
Proof.
  intros cs. induction cs as [|d cs IH]; intros hits unknown H c Hc [Hm Hs]; [by apply not_elem_of_nil in Hc|].
  apply (inj Some) in H. cbn [oversize] in H. destruct (oversize limit cs) as [h u] eqn:E.
  apply elem_of_cons in Hc as [->|Hc].
  - apply String.eqb_neq in Hm. rewrite Hm in H. destruct (Carried d); cbn [negb] in H.
    + specialize (Hs eq_refl). replace (size d >? limit) with true in H by lia. left. by apply pair_equal_spec in H as [<- _].
    + right. injection H as _ <-. left.
  - destruct (IH h u eq_refl c Hc (conj Hm Hs)) as [Hh|Hu].
    + left. repeat case_match; by simplify_eq.
    + right. repeat case_match; simplify_eq; try done; by right.
Qed.

Lemma newExecutables_complete : completeFor (fun cs => Some (newExecutables cs)) newlyExecutable.
Proof.
  intros cs. induction cs as [|d cs IH]; intros hits unknown H c Hc Hn; [by apply not_elem_of_nil in Hc|].
  injection H as H. cbn [newExecutables] in H. destruct (newExecutables cs) as [h u] eqn:E.
  apply elem_of_cons in Hc as [->|Hc].
  - destruct (String.eqb_spec (Mode d) ModeUncarried) as [Hu|Hu]; [right; injection H as _ <-; left|].
    destruct Hn as [?|[Hx Hb]]; [done|]. rewrite Hx, Hb in H. cbn [negb] in H.
    destruct (String.eqb (BaseMode d) ""); injection H as <- <-; [right; left | by left].
  - destruct (IH h u eq_refl c Hc Hn) as [Hh|Hu].
    + left. repeat case_match; by simplify_eq.
    + right. repeat case_match; simplify_eq; try done; by right.
Qed.

Lemma vouchedRoots_spec f cmds bases roots :
  vouchedRoots f cmds bases = inr roots ->
  forall root, root ∈ roots -> root <> "" /\ exists base, base ∈ bases /\ vouch f base cmds = inr root.
Proof.
  revert roots. induction bases as [|b bases IH]; intros roots H root Hr; cbn [vouchedRoots] in H.
  - injection H as <-. by apply not_elem_of_nil in Hr.
  - destruct (vouch f b cmds) as [|r] eqn:Ev; [done|]. cbn [ebind] in H.
    destruct (vouchedRoots f cmds bases) as [|rs]; [done|]. cbn [ebind] in H. injection H as <-.
    destruct (String.eqb_spec r "") as [->|Hne];
      [|apply elem_of_cons in Hr as [->|Hr]; [split; [done|]; exists b; split; [left | done]|]].
    all: destruct (IH rs eq_refl root Hr) as (? & b' & ? & ?); split; [done|]; exists b'; split; [by right | done].
Qed.

Lemma notCleared_nil f clear roots entries why :
  notCleared f clear roots entries = ([], why) -> forall c, c ∈ entries -> clear f roots c = inr true.
Proof.
  revert why. induction entries as [|d entries IH]; intros why H c Hc; [by apply not_elem_of_nil in Hc|].
  cbn [notCleared] in H. destruct (clear f roots d) as [|[]] eqn:Ed; [done | |].
  - destruct (notCleared f clear roots entries) as [rest w] eqn:En. injection H as -> ->.
    apply elem_of_cons in Hc as [->|Hc]; [done | by eapply IH].
  - by destruct (notCleared f clear roots entries).
Qed.

Lemma unchanged_nil forge entries res clear why c :
  unchanged forge entries res clear = ([], why) -> c ∈ entries ->
  exists f roots, forge = Some f /\ vouchedFor f res roots /\ clear f roots c = inr true.
Proof.
  intros H Hc. destruct forge as [f|]; cbn [unchanged] in H; [|injection H as -> _; by apply not_elem_of_nil in Hc].
  destruct (ado f && negb (fastForwards res)); [injection H as -> _; by apply not_elem_of_nil in Hc|].
  destruct (vouchedRoots f (Commands res) (Bases res)) as [|[|r roots]] eqn:Ev;
    [injection H as -> _; by apply not_elem_of_nil in Hc..|].
  exists f, (r :: roots). split_and!; [done | split; [done | by apply vouchedRoots_spec] |].
  by eapply notCleared_nil.
Qed.

(** A claim that ends with nothing named and nothing left: the forge answered for
    every entry it covers. *)
Lemma claimedEntries_clear cl clear res forge why P :
  completeFor cl P -> claimedEntries cl clear res forge = Some ([], [], why) ->
  forall c, c ∈ Changes res -> P c -> clearedBy P clear forge res c.
Proof.
  intros Hcl H c Hc HP. unfold claimedEntries in H.
  destruct (cl (Changes res)) as [[hits unknown]|] eqn:E; [|done].
  assert (Hu : hits <> [] \/ unknown <> []).
  { destruct (Hcl _ _ _ E c Hc HP) as [?|Hin]; [by left | right; intros ->; by apply not_elem_of_nil in Hin]. }
  destruct (settle forge res) as [res' w] eqn:Es.
  assert (H' : (if negb (String.eqb w "") then Some (hits, unknown, w)
               else match cl (Changes res') with
                    | None => None
                    | Some ([], (_ :: _) as unk) =>
                        let '(rest, why) := unchanged forge unk res' clear in Some ([], rest, why)
                    | Some (hits, _) => Some (hits, [], w)
                    end) = Some ([], [], why)) by (destruct hits, unknown; naive_solver).
  clear H. destruct (String.eqb_spec w "") as [->|Hw]; cbn [negb] in H'; [|destruct Hu; by simplify_eq].
  destruct (cl (Changes res')) as [[h u]|] eqn:E'; [|done].
  assert (Hleft : forall d, d ∈ Changes res' -> P d ->
    exists f roots, forge = Some f /\ vouchedFor f res' roots /\ clear f roots d = inr true).
  { intros d Hin Pd. destruct (Hcl _ _ _ E' d Hin Pd) as [Hh|Hcu]; [destruct h; [done | by simplify_eq]|].
    destruct h as [|x h]; [|by simplify_eq]. destruct u as [|y u]; [by apply not_elem_of_nil in Hcu|].
    destruct (unchanged forge (y :: u) res' clear) as [rest w] eqn:Eu. injection H' as -> ->.
    exact (unchanged_nil _ _ _ _ _ _ Eu Hcu). }
  destruct forge as [f|].
  - exists f, res'. split_and!; [done..|]. intros d Hin _ Pd. destruct (Hleft d Hin Pd) as (f' & roots & [= <-] & ?). eauto.
  - exfalso. cbn in Es. injection Es as <-. destruct (Hleft c Hc HP) as (f & roots & ? & _). done.
Qed.

Lemma refusedBy_passes r next v : refusedBy r next = v -> (forall s, v <> PushRefused s) ->
  exists why, r = Some ([], [], why) /\ next = v.
Proof. intros <- Hv. destruct r as [[[[|h hits] [|u rest]] why]|]; cbn in *; eauto; by edestruct Hv. Qed.

(** A verdict that is no refusal is not one of the early refusals. *)
Local Ltac refused H := exfalso; eapply H; reflexivity.

(** What a push that is not refused leaves. *)
Lemma passed_push_is_answered entryErr rs req forge :
  (forall s, applyPushRules entryErr (Some rs) req forge <> PushRefused s) ->
  entryErr = "" /\ denyAll rs = false /\ unreadable rs = "" /\
  exists res, readPush rs req forge = inr res /\
    forall c, c ∈ Changes res ->
      (forall pat, pat ∈ deny rs -> claimable pat c -> clearedBy (claimable pat) heldAtAny (forge RuleDenyPaths) res c) /\
      (0 < maxFileBytes rs -> tooLarge (maxFileBytes rs) c -> clearedBy (tooLarge (maxFileBytes rs)) heldAtAny (forge RuleMaxFileSize) res c) /\
      (denyNewExec rs = true -> newlyExecutable c -> clearedBy newlyExecutable executableAtAny (forge RuleNewExecutables) res c).
Proof.
  intros H. unfold applyPushRules in H. destruct (String.eqb_spec entryErr "") as [->|]; cbn [negb] in H; [|refused H].
  destruct (denyAll rs); [refused H|]. unfold inspectPush in H.
  destruct (readPush rs req forge) as [v|res] eqn:Er.
  { exfalso. unfold readPush in Er. repeat case_match; simplify_eq; refused H. }
  assert (Hu : unreadable rs = "").
  { revert Er. unfold readPush. destruct (String.eqb_spec (unreadable rs) ""); [done|]. by cbn. }
  split_and!; [done.. | exists res; split; [done|]].
  unfold judgePush in H. destruct (matchedPaths (deny rs) res (forge RuleDenyPaths)) as [[[|] why]|] eqn:Ed;
    [|refused H..].
  cbv zeta in H. set (held := reviewPush rs res _) in H.
  intros c Hc. split_and!.
  - intros pat Hp Hm. unfold matchedPaths in Ed. destruct (deny rs) as [|q pats] eqn:Eq; [by apply not_elem_of_nil in Hp|].
    destruct (claimedEntries _ _ _ _) as [[[[|h hits] [|r rest]] w]|] eqn:Ec; try done.
    eapply claimedEntries_clear; [|exact Ec|done|done].
    eapply completeFor_impl; [|apply (matchChanges_complete (q :: pats))]. intros d Hd. by exists pat.
  - intros Hl Ht. replace (maxFileBytes rs >? 0) with true in H by lia. unfold refuseLargeFiles in H.
    destruct (refusedBy_passes _ _ _ eq_refl H) as (w & Ec & _).
    eapply claimedEntries_clear; [apply oversize_complete | exact Ec | done..].
  - intros Hx Hn. rewrite Hx in H.
    assert (He : forall s, refuseNewExecutables res (forge RuleNewExecutables) held <> PushRefused s).
    { destruct (maxFileBytes rs >? 0); [|done]. unfold refuseLargeFiles in H.
      destruct (refusedBy_passes _ _ _ eq_refl H) as (w & _ & Hnext). by rewrite Hnext. }
    destruct (refusedBy_passes _ _ _ eq_refl He) as (w & Ec & _).
    eapply claimedEntries_clear; [apply newExecutables_complete | exact Ec | done..].
Qed.

(** C10: whatever the request and whatever the forge answers, a push that passes
    the rules, or is held for review, was read whole, and every entry of it that a
    deny pattern claims (itself, or something beneath an entry whose content is not
    in the pack), that is over the size limit or of unknown size, or that is a new
    executable, was answered for by the forge: taken out with history it already
    holds, or cleared against the tree of a commit in a branch's history. On a lane
    with no forge to read there is therefore no such entry. *)
Theorem denied_push_never_passes entryErr rs req forge :
  (forall s, applyPushRules entryErr (Some rs) req forge <> PushRefused s) ->
  entryErr = "" /\ denyAll rs = false /\ unreadable rs = "" /\
  exists res, readPush rs req forge = inr res /\
    forall c, c ∈ Changes res ->
      (forall pat, pat ∈ deny rs -> claimable pat c -> clearedBy (claimable pat) heldAtAny (forge RuleDenyPaths) res c) /\
      (0 < maxFileBytes rs -> tooLarge (maxFileBytes rs) c -> clearedBy (tooLarge (maxFileBytes rs)) heldAtAny (forge RuleMaxFileSize) res c) /\
      (denyNewExec rs = true -> newlyExecutable c -> clearedBy newlyExecutable executableAtAny (forge RuleNewExecutables) res c).
Proof. apply passed_push_is_answered. Qed.

Definition sampleRules : pushRuleSet := mkPushRuleSet [[".github"; "**"]] [] 0 "" 1024 100 true false.
Definition mainGo : Change := mkChange "src/main.go" "100644" 12 "aa" "100644".
Definition runSh : Change := mkChange "run.sh" "100755" 12 "bb" "".
Definition ciYml : Change := mkChange ".github" "40000" (-1) "cc" "".
Definition sampleReq : pushRequest :=
  mkPushRequest [] (BodyRead 200) true
    (Inspected (mkResult [mkCommand "d0" "d1" "refs/heads/topic"] [ciYml; runSh; mainGo] ["d0"])).
Definition sampleForge : forgeRepo :=
  mkForge false (fun _ => inr "d0") (fun _ base => inr (if String.eqb base "d0" then "ee" else "")) (inr "main")
    (fun _ => inr [mkTreeEntry ".github" "040000" "tree" "cc"; mkTreeEntry "run.sh" "100755" "blob" "b0"])
    (fun res _ => inr res).

(** The uncarried [.github] is the tree the base holds, and [run.sh] was
    executable there: the push passes, and each is answered for. *)
Lemma denied_push_never_passes_witness :
  applyPushRules "" (Some sampleRules) sampleReq (fun _ => Some sampleForge) = PushPasses /\
  exists res, readPush sampleRules sampleReq (fun _ => Some sampleForge) = inr res /\
    clearedBy (claimable [".github"; "**"]) heldAtAny (Some sampleForge) res ciYml /\
    clearedBy newlyExecutable executableAtAny (Some sampleForge) res runSh.
Proof.
  assert (E : applyPushRules "" (Some sampleRules) sampleReq (fun _ => Some sampleForge) = PushPasses)
    by (vm_compute; reflexivity).
  split; [exact E|].
  destruct (denied_push_never_passes "" sampleRules sampleReq (fun _ => Some sampleForge)) as (_ & _ & _ & res & Hr & H).
  { intros s Hs. rewrite E in Hs. discriminate. }
  exists res. assert (Hc : Changes res = [ciYml; runSh; mainGo]) by (vm_compute in Hr; injection Hr as <-; reflexivity).
  split_and!; [done | |].
  - destruct (H ciYml) as (Hd & _); [rewrite Hc; left|].
    apply (Hd [".github"; "**"]); [left|]. left. vm_compute. reflexivity.
  - destruct (H runSh) as (_ & _ & Hx); [rewrite Hc; right; left|].
    apply Hx; [reflexivity|]. right. split; vm_compute; reflexivity.
Defined.

(** A push with no forge to read fails on the same content. *)
Example blind_lane_refuses :
  applyPushRules "" (Some sampleRules) sampleReq (fun _ => None) = PushRefused ruleSourceGitRules.
Proof. vm_compute. reflexivity. Qed.
