(* ===== verification/GrantBounds.v ===== *)
(** * Composer: which grants a ceiling permits

    [internal/composer/pat_scope.go] (dominance and meet of PAT scopes over the
    four axes), [grantbound.go] (pairing identity), [grantwithin.go]
    ([GrantWithin], the one dominance contract) and the grant half of [clamp.go]
    ([clampGrants], [clampGitHubScope], [GitHubScopeWithin]).

    An error is the constructor naming the axis that refused. [PATScopeMeet]
    returns the warnings it appends; the other warnings of the clamp are texts
    beside the result and are left out. Where Go ranges over a permission map to
    find a refusal, the entry it names is the first of some order. *)
From S2P Require Import Prelude GoStrings GoSlices PolicyTypes Grants.
Local Open Scope string_scope.
Local Open Scope Z_scope.

Definition GrantGitHubToken : string := "github_token".
Definition GrantCloudSTS : string := "cloud_sts".
Definition GrantAPIKey : string := "api_key".
Definition GrantGitPAT : string := "git_pat".
Definition GrantSSHKey : string := "ssh_key".
Definition GrantEnvSecret : string := "env_secret".
Definition GrantFileSecret : string := "file_secret".

Definition maxGrantTTLSeconds : Z := 3600.

Definition normalizeClampTTL (ttl : Z) : Z :=
  if (ttl <=? 0) || (ttl >? maxGrantTTLSeconds) then maxGrantTTLSeconds else ttl.

(** The text Go's [%q] prints of a string with nothing to escape. *)
Definition quoted (s : string) : string := String (ascii_of_nat 34) (s ++ String (ascii_of_nat 34) "").

Record GitPATScope := mkPAT {
  p_Host : string; p_SecretName : string; p_Username : string; p_Repos : option (list string);
  p_Access : string; p_API : bool; p_Forge : string;
}.

(** [json.Unmarshal] into a [GitPATScope], and [json.Marshal] of one. *)
Definition unmarshalPAT (r : RawScope) : option GitPATScope :=
  match r with
  | ScopeObj s => Some (mkPAT (sc_Host s) (sc_SecretName s) (sc_Username s) (sc_Repos s) (sc_Access s) (sc_API s) (sc_Forge s))
  | _ => None
  end.
Definition marshalPAT (p : GitPATScope) : RawScope :=
  ScopeObj (mkScope (p_Host p) "" "" (p_SecretName p) "" "" "" "" false (p_Username p) (p_Repos p)
              (p_Access p) (p_API p) (p_Forge p) ∅).

Section GrantBounds.
Context {U : GoUnicode}.

Definition normalizeAccess (a : string) : string :=
  let a := ToLower (TrimSpace a) in
  if String.eqb a "" || String.eqb a PATAccessWrite then PATAccessWrite else PATAccessRead.
Definition normalizeForge (f : string) : string :=
  let f := ToLower (TrimSpace f) in
  if String.eqb f PATForgeGitLab || String.eqb f PATForgeBitbucketServer || String.eqb f PATForgeGitea
  then f else PATForgeGeneric.

Definition NormalizePAT (s : GitPATScope) : GitPATScope :=
  mkPAT (p_Host s) (p_SecretName s) (p_Username s) (p_Repos s) (normalizeAccess (p_Access s)) (p_API s)
    (normalizeForge (p_Forge s)).

Definition DecodeGitPATScope (r : RawScope) : option GitPATScope :=
  match unmarshalPAT r with
  | None => None
  | Some sc => if String.eqb (p_Host sc) "" || String.eqb (p_SecretName sc) "" then None else Some (NormalizePAT sc)
  end.

Definition patForgeConstrained (cg : GitPATScope) : bool := bool_decide (is_Some (p_Repos cg)) || p_API cg.
Definition patAccessRank (a : string) : Z := if String.eqb a PATAccessRead then 1 else 2.

(** ** Dominance of PAT scopes *)

Inductive patRefusal :=
| PATUndecodable | PATCeilingUndecodable | PATForgeDiffers | PATReposOmitted | PATRepoOutside (e : string)
| PATAccessAbove | PATAPIAbove.

Definition PATScopeWithin (proposed ceiling : RawScope) : option patRefusal :=
  match DecodeGitPATScope proposed, DecodeGitPATScope ceiling with
  | None, _ => Some PATUndecodable
  | _, None => Some PATCeilingUndecodable
  | Some g, Some cg =>
      let repos :=
        match p_Repos cg with
        | None => None
        | Some cr =>
            match p_Repos g with
            | None => Some PATReposOmitted
            | Some gr =>
                let ix := newPATRepoIndex (p_Forge g) cr in
                PATRepoOutside <$> findFirst (fun e => negb (indexCovers ix (p_Forge g) e)) gr
            end
        end in
      if patForgeConstrained cg && negb (String.eqb (p_Forge g) (p_Forge cg)) then Some PATForgeDiffers
      else match repos with
           | Some r => Some r
           | None =>
               if patAccessRank (p_Access g) >? patAccessRank (p_Access cg) then Some PATAccessAbove
               else if p_API g && negb (p_API cg) then Some PATAPIAbove
               else None
           end
  end.

(** ** Meet of PAT scopes *)

(** One bound met into the repositories so far. *)
Definition meetRepos1 (forge : string) (repos cr : option (list string)) : option (list string) :=
  match cr with
  | None => repos
  | Some cr => match repos with None => Some (sortStrings cr) | Some r => Some (patIntersectRepos forge r cr) end
  end.

(** The loop over the bounding scopes: the repositories, whether a bound set
    them, the access and the api flag so far; [inr] is the drop. *)
Fixpoint patMeetLoop (s : GitPATScope) (bounds : list RawScope) (repos : option (list string)) (set : bool)
    (access : string) (api : bool) : (option (list string) * bool * string * bool) + string :=
  match bounds with
  | [] => inl (repos, set, access, api)
  | b :: bounds' =>
      match DecodeGitPATScope b with
      | None => inr "a deployment ceiling's git_pat scope is not decodable"
      | Some cg =>
          if patForgeConstrained cg && negb (String.eqb (p_Forge cg) (p_Forge s))
          then inr ("its forge " ++ quoted (p_Forge s) ++ " differs from the deployment ceiling's "
                    ++ quoted (p_Forge cg) ++ ", which sets repos or api")
          else
            let set := set || bool_decide (is_Some (p_Repos cg)) in
            let repos := meetRepos1 (p_Forge s) repos (p_Repos cg) in
            let access := if patAccessRank (p_Access cg) <? patAccessRank access then p_Access cg else access in
            patMeetLoop s bounds' repos set access (api && p_API cg)
      end
  end.

Definition patDrop (why : string) : list string * option RawScope := (["dropped git_pat grant: " ++ why], None).

(** The warnings appended, and the scope when the grant is kept. *)
Definition PATScopeMeet (g : RawScope) (bounds : list RawScope) : list string * option RawScope :=
  match unmarshalPAT g, DecodeGitPATScope g with
  | Some raw, Some s =>
      let authoredEmpty := bool_decide (p_Repos s = Some []) in
      match patMeetLoop s bounds (p_Repos s) false (p_Access s) (p_API s) with
      | inr why => patDrop why
      | inl (repos, set, access, api) =>
          if bool_decide (repos = Some []) && negb authoredEmpty
          then patDrop "no repository is left after intersecting its repos with the deployment ceiling's"
          else
            let cutRepos := set && negb (patReposWithin (p_Forge s) (p_Repos s) repos) in
            let cutAccess := negb (String.eqb access (p_Access s)) in
            let cutAPI := negb (Bool.eqb api (p_API s)) in
            let notes :=
              ((if cutRepos then ["git_pat grant: repos narrowed to the operator scope"] else []) ++
               (if cutAccess then ["git_pat grant: access clamped " +:+ p_Access s +:+ "→" +:+ access] else []) ++
               (if cutAPI then ["git_pat grant: api disabled (operator policy)"] else []))%list in
            let out := mkPAT (p_Host raw) (p_SecretName raw) (p_Username raw)
                         (if cutRepos then repos else p_Repos raw) (if cutAccess then access else p_Access raw)
                         (if cutAPI then api else p_API raw) (p_Forge raw) in
            if nonempty notes then (notes, Some (marshalPAT out)) else ([], Some g)
      end
  | _, _ => patDrop "its scope is not decodable"
  end.

(** ** Pairing identity *)

Record grantPairing := mkPairing {
  pr_host : string; pr_secretRef : string; pr_knownHostsRef : string;
  pr_header : string; pr_format : string; pr_requireTLS : bool;
}.

Definition emptyPairing : grantPairing := mkPairing "" "" "" "" "" false.

Definition apiKeyHeader (h : string) : string :=
  if String.eqb (TrimSpace h) "" then "authorization" else ToLower (TrimSpace h).
Definition apiKeyFormat (f : string) : string := if String.eqb f "" then "Bearer %s" else f.

(** The pairing, whether the kind names a stored secret, and whether the scope
    decoded into a usable pairing. *)
Definition grantPairingOf (g : GrantSpec) : grantPairing * bool * bool :=
  let obj := match GScope g with ScopeObj s => Some s | _ => None end in
  let need (k : Scope -> bool) (mk : Scope -> grantPairing) :=
    match obj with
    | Some s => if k s then (mk s, true, true) else (emptyPairing, true, false)
    | None => (emptyPairing, true, false)
    end in
  let ne s := negb (String.eqb s "") in
  if String.eqb (Kind g) GrantAPIKey then
    need (fun s => ne (sc_Host s) && ne (sc_SecretName s))
      (fun s => mkPairing (sc_Host s) (sc_SecretName s) "" (apiKeyHeader (sc_Header s)) (apiKeyFormat (sc_Format s)) (sc_RequireTLS s))
  else if String.eqb (Kind g) GrantGitPAT then
    match DecodeGitPATScope (GScope g) with
    | None => (emptyPairing, true, false)
    | Some pat => (mkPairing (p_Host pat) (p_SecretName pat) "" "" "" false, true, true)
    end
  else if String.eqb (Kind g) GrantSSHKey then
    need (fun s => ne (sc_Host s) && ne (sc_KeySecretRef s))
      (fun s => mkPairing (sc_Host s) (sc_KeySecretRef s) (sc_KnownHostsSecretRef s) "" "" false)
  else if String.eqb (Kind g) GrantEnvSecret then
    need (fun s => ne (sc_Name s) && ne (sc_SecretName s)) (fun s => mkPairing (sc_Name s) (sc_SecretName s) "" "" "" false)
  else if String.eqb (Kind g) GrantFileSecret then
    need (fun s => ne (sc_File s) && ne (sc_SecretName s)) (fun s => mkPairing (sc_File s) (sc_SecretName s) "" "" "" false)
  else (emptyPairing, false, true).

Definition pairingHost (h : string) : string := ToLower (TrimSuffixDot (TrimSpace h)).

Definition samePairing (a b : grantPairing) : bool :=
  String.eqb (pr_secretRef a) (pr_secretRef b) && String.eqb (pairingHost (pr_host a)) (pairingHost (pr_host b)) &&
  String.eqb (pr_knownHostsRef a) (pr_knownHostsRef b) && String.eqb (pr_header a) (pr_header b) &&
  String.eqb (pr_format a) (pr_format b) && Bool.eqb (pr_requireTLS a) (pr_requireTLS b).

(** The ceiling grant names the same stored secret in the same place. *)
Definition pairsWith (want : grantPairing) (cg : GrantSpec) : bool :=
  let '(got, covered, ok) := grantPairingOf cg in covered && ok && samePairing got want.

Definition PairingInCeiling (g : GrantSpec) (ceiling : list GrantSpec) : bool :=
  let '(want, covered, ok) := grantPairingOf g in
  if negb covered || negb ok then false
  else containsFunc (fun cg => String.eqb (Kind cg) (Kind g) && pairsWith want cg) ceiling.

Definition ceilingGrantsBounding (g : GrantSpec) (ceiling : list GrantSpec) : list GrantSpec :=
  let sameKind := List.filter (fun cg => String.eqb (Kind cg) (Kind g)) ceiling in
  if (length sameKind <=? 1)%nat then sameKind
  else
    let '(want, covered, ok) := grantPairingOf g in
    if negb covered || negb ok then sameKind
    else match findFirst (pairsWith want) sameKind with
         | Some cg => [cg]
         | None => sameKind
         end.

Definition CeilingGrantsCovering (g : GrantSpec) (ceiling : list GrantSpec) : list GrantSpec :=
  let '(want, covered, ok) := grantPairingOf g in
  List.filter (fun cg =>
    if negb (String.eqb (Kind cg) (Kind g)) then false
    else if negb covered then true
    else if negb ok then false
    else pairsWith want cg) ceiling.

(** The indices of the first two grants of one kind that name one pairing. *)
Definition DuplicatePairing (grants : list GrantSpec) : option (nat * nat) :=
  let dup (i j : nat) : bool :=
    match grants !! i, grants !! j with
    | Some prior, Some g =>
        let '(want, covered, ok) := grantPairingOf g in
        covered && ok && String.eqb (Kind prior) (Kind g) && pairsWith want prior
    | _, _ => false
    end in
  findFirst (fun ij => dup (fst ij) (snd ij))
    (concat (map (fun j => map (fun i => (i, j)) (seq 0 j)) (seq 0 (length grants)))).

(** ** GitHub token scopes *)

Definition foldKey (x : string) : string := ToLower (TrimSpace x).
Definition memKey (x : string) (l : list string) : bool := memS (foldKey x) (map foldKey l).

Definition permRank (level : string) : Z :=
  let l := foldKey level in
  if String.eqb l "admin" then 3 else if String.eqb l "write" then 2 else if String.eqb l "read" then 1 else 0.

(** The repositories and permissions [json.Unmarshal] reads; [None] is an error. *)
Definition ghScope (r : RawScope) : option (list string * gmap string string) :=
  match r with ScopeObj s => Some (default [] (sc_Repos s), sc_Permissions s) | _ => None end.

(** An absent scope is read as the empty one before any decode. *)
Definition ghScopeOrEmpty (r : RawScope) : option (list string * gmap string string) :=
  match r with ScopeEmpty => Some ([], ∅) | _ => ghScope r end.

Inductive ghRefusal := GHUndecodable | GHCeilingUndecodable | GHRepo (r : string) | GHPermission (p : string).

Definition permWithin (c : gmap string string) (pl : string * string) : bool :=
  match c !! fst pl with
  | None => false
  | Some cl => permRank (snd pl) <=? permRank cl
  end.

Definition GitHubScopeWithin (proposed ceiling : RawScope) : option ghRefusal :=
  match ghScopeOrEmpty proposed, ghScopeOrEmpty ceiling with
  | None, _ => Some GHUndecodable
  | _, None => Some GHCeilingUndecodable
  | Some (pr, pp), Some (cr, cp) =>
      match findFirst (fun r => negb (memKey r cr)) pr with
      | Some r => Some (GHRepo r)
      | None => GHPermission ∘ fst <$> findFirst (fun pl => negb (permWithin cp pl)) (map_to_list pp)
      end
  end.

(** A scope that does not decode leaves the zero value. *)
Definition clampGitHubScope (proposed ceiling : RawScope) : RawScope :=
  let '(pr, pp) := default ([], ∅) (ghScope proposed) in
  let '(cr, cp) := default ([], ∅) (ghScope ceiling) in
  let kept := List.filter (fun r => memKey r cr) pr in
  let perms := map_imap (fun perm lvl =>
                 match cp !! perm with
                 | None => None
                 | Some cl => Some (if permRank lvl >? permRank cl then cl else lvl)
                 end) pp in
  ScopeObj (mkScope "" "" "" "" "" "" "" "" false "" (match kept with [] => None | _ => Some kept end) "" false "" perms).

(** ** The dominance contract *)

Definition knownKind (k : string) : bool :=
  memS k [GrantAPIKey; GrantGitPAT; GrantSSHKey; GrantEnvSecret; GrantFileSecret; GrantGitHubToken; GrantCloudSTS].

Inductive grantRefusal :=
| UnknownKind | InvalidScope | PairingNotInCeiling | KindNotInCeiling
| StripsApproval | StripsOwnerOnly | TTLAbove | GitHubOutside (r : ghRefusal) | PATOutside (r : patRefusal).

(** [grantBoundFailure]: how far the grant got. *)
Definition boundRank (r : grantRefusal) : Z :=
  match r with
  | StripsOwnerOnly => 1 | TTLAbove => 2 | GitHubOutside _ => 3 | PATOutside _ => 4 | _ => 0
  end.

(** One ceiling grant against the proposal: [None] is dominance on every axis. *)
Definition boundFailure (g cg : GrantSpec) : option grantRefusal :=
  if RequiresApproval cg && negb (RequiresApproval g) then Some StripsApproval
  else if OwnerOnly cg && negb (OwnerOnly g) then Some StripsOwnerOnly
  else if normalizeClampTTL (TTLSeconds g) >? normalizeClampTTL (TTLSeconds cg) then Some TTLAbove
  else
    match (if String.eqb (Kind g) GrantGitHubToken then GitHubScopeWithin (GScope g) (GScope cg) else None) with
    | Some r => Some (GitHubOutside r)
    | None => PATOutside <$> (if String.eqb (Kind g) GrantGitPAT then PATScopeWithin (GScope g) (GScope cg) else None)
    end.

Fixpoint boundLoop (g : GrantSpec) (covering : list GrantSpec) (worst : option grantRefusal) : option grantRefusal :=
  match covering with
  | [] => worst
  | cg :: covering' =>
      match boundFailure g cg with
      | None => None
      | Some r =>
          boundLoop g covering'
            (match worst with
             | None => Some r
             | Some w => if boundRank r >=? boundRank w then Some r else Some w
             end)
      end
  end.

Definition GrantWithin (g : GrantSpec) (ceiling : list GrantSpec) : option grantRefusal :=
  if negb (knownKind (Kind g)) then Some UnknownKind
  else
    let '(_, covered, ok) := grantPairingOf g in
    if negb ok then Some InvalidScope
    else match CeilingGrantsCovering g ceiling with
         | [] => if covered && containsFunc (fun cg => String.eqb (Kind cg) (Kind g)) ceiling
                 then Some PairingNotInCeiling else Some KindNotInCeiling
         | covering => boundLoop g covering None
         end.

(** ** The clamp *)

Definition grantDominatedBy (g cg : GrantSpec) : bool :=
  if RequiresApproval cg && negb (RequiresApproval g) then false
  else if normalizeClampTTL (TTLSeconds g) >? normalizeClampTTL (TTLSeconds cg) then false
  else if String.eqb (Kind g) GrantGitHubToken && bool_decide (is_Some (GitHubScopeWithin (GScope g) (GScope cg))) then false
  else if String.eqb (Kind g) GrantGitPAT && bool_decide (is_Some (PATScopeWithin (GScope g) (GScope cg))) then false
  else true.

(** The ceiling grants the clamp bounds one proposal by. *)
Definition clampBounds (g : GrantSpec) (ceiling : list GrantSpec) : list GrantSpec :=
  match CeilingGrantsCovering g ceiling with
  | [] => ceilingGrantsBounding g ceiling
  | bounds => match findFirst (grantDominatedBy g) bounds with Some cg => [cg] | None => bounds end
  end.

Definition setScope (g : GrantSpec) (s : RawScope) : GrantSpec :=
  mkGrant (Kind g) s (TTLSeconds g) (RequiresApproval g) (OwnerOnly g) (OwnerOnlyRefs g).

(** The scope meet of one proposal; [None] drops the grant. *)
Definition clampScope (g : GrantSpec) (bounds : list GrantSpec) : option GrantSpec :=
  let g := if String.eqb (Kind g) GrantGitHubToken
           then setScope g (fold_left (fun s cg => clampGitHubScope s (GScope cg)) bounds (GScope g)) else g in
  if String.eqb (Kind g) GrantGitPAT
  then match snd (PATScopeMeet (GScope g) (map GScope bounds)) with
       | None => None
       | Some s => Some (setScope g s)
       end
  else Some g.

Definition ttlCap (bounds : list GrantSpec) : Z :=
  fold_left (fun m cg => if (TTLSeconds cg >? 0) && (TTLSeconds cg <? m) then TTLSeconds cg else m) bounds maxGrantTTLSeconds.

Definition clampGrant (g : GrantSpec) (ceiling : list GrantSpec) : option GrantSpec :=
  match clampBounds g ceiling with
  | [] => None
  | bounds =>
      match clampScope g bounds with
      | None => None
      | Some g' =>
          let cap := ttlCap bounds in
          Some (mkGrant (Kind g') (GScope g')
                  (if (TTLSeconds g' <=? 0) || (TTLSeconds g' >? cap) then cap else TTLSeconds g')
                  (RequiresApproval g' || containsFunc RequiresApproval bounds)
                  (OwnerOnly g' || containsFunc OwnerOnly bounds) (OwnerOnlyRefs g'))
      end
  end.

Definition clampGrants (grants ceiling : list GrantSpec) : list GrantSpec :=
  omap (fun g => clampGrant g ceiling) grants.

(** ** Facts of the selection *)

Lemma covering_kind g ceiling cg : cg ∈ CeilingGrantsCovering g ceiling -> cg ∈ ceiling /\ Kind cg = Kind g.
Proof.
  unfold CeilingGrantsCovering. destruct (grantPairingOf g) as [[want covered] ok].
  rewrite list_elem_of_In, filter_In, <- list_elem_of_In. intros [Hin H]. split; [done|].
  destruct (String.eqb_spec (Kind cg) (Kind g)); [done | by cbn in H].
Qed.

Lemma bounding_kind g ceiling cg : cg ∈ ceilingGrantsBounding g ceiling -> cg ∈ ceiling /\ Kind cg = Kind g.
Proof.
  unfold ceilingGrantsBounding. intros H.
  assert (Hk : cg ∈ List.filter (fun cg => String.eqb (Kind cg) (Kind g)) ceiling).
  { destruct (_ <=? _)%nat; [done|]. destruct (grantPairingOf g) as [[want covered] ok]. destruct (negb covered || negb ok); [done|].
    destruct (findFirst _ _) as [x|] eqn:E; [|done]. apply list_elem_of_singleton in H as ->. by apply findFirst_Some in E as [? _]. }
  apply list_elem_of_In, filter_In in Hk as [H1 H2]. split; [by apply list_elem_of_In | by apply String.eqb_eq].
Qed.

Lemma clampBounds_kind g ceiling cg : cg ∈ clampBounds g ceiling -> cg ∈ ceiling /\ Kind cg = Kind g.
Proof.
  unfold clampBounds. destruct (CeilingGrantsCovering g ceiling) as [|c cs] eqn:E; [apply bounding_kind|].
  rewrite <- E. destruct (findFirst _ _) as [x|] eqn:Ef.
  - intros ->%list_elem_of_singleton. apply findFirst_Some in Ef as [Hx _]. by apply covering_kind.
  - apply covering_kind.
Qed.

(** What one ceiling grant must share with a proposal to be its candidate. *)
Definition sameIdentity (g cg : GrantSpec) : bool :=
  let '(want, covered, ok) := grantPairingOf g in
  String.eqb (Kind cg) (Kind g) && (negb covered || (ok && pairsWith want cg)).

Lemma elem_of_covering g ceiling cg :
  cg ∈ CeilingGrantsCovering g ceiling <-> cg ∈ ceiling /\ sameIdentity g cg = true.
Proof.
  unfold CeilingGrantsCovering, sameIdentity. destruct (grantPairingOf g) as [[want covered] ok].
  rewrite list_elem_of_In, filter_In, <- list_elem_of_In.
  destruct (String.eqb (Kind cg) (Kind g)), covered, ok; cbn [negb andb orb]; tauto.
Qed.

Lemma boundLoop_None g covering worst :
  boundLoop g covering worst = None <->
  (covering = [] /\ worst = None) \/ exists cg, cg ∈ covering /\ boundFailure g cg = None.
Proof.
  revert worst. induction covering as [|cg cs IH]; intros worst; cbn [boundLoop].
  - split; [intros ->; by left | intros [[_ ->]|(? & H & _)]; [done | by apply not_elem_of_nil in H]].
  - destruct (boundFailure g cg) as [r|] eqn:E.
    + rewrite IH. setoid_rewrite elem_of_cons. split.
      * intros [[_ Hw]|(x & ? & ?)]; [|right; eauto]. exfalso. destruct worst; [by destruct (boundRank _ >=? _)|done].
      * intros [[? _]|(x & [->|?] & ?)]; [done | congruence | right; eauto].
    + split; [|done]. intros _. right. exists cg. split; [left | done].
Qed.

Lemma GrantWithin_None g ceiling :
  GrantWithin g ceiling = None <->
  knownKind (Kind g) = true /\ (grantPairingOf g).2 = true /\
  exists cg, cg ∈ ceiling /\ sameIdentity g cg = true /\ boundFailure g cg = None.
Proof.
  unfold GrantWithin. destruct (knownKind (Kind g)) eqn:Ek; cbn [negb]; [|naive_solver].
  destruct (grantPairingOf g) as [[want covered] ok] eqn:Ep. cbn [snd]. destruct ok; cbn [negb]; [|naive_solver].
  assert (Hiff : forall worst, boundLoop g (CeilingGrantsCovering g ceiling) worst = None <->
     (CeilingGrantsCovering g ceiling = [] /\ worst = None) \/
     exists cg, cg ∈ ceiling /\ sameIdentity g cg = true /\ boundFailure g cg = None).
  { intros worst. rewrite boundLoop_None. setoid_rewrite elem_of_covering. naive_solver. }
  destruct (CeilingGrantsCovering g ceiling) as [|c cs] eqn:Ec.
  - split; [by destruct (_ && _)|]. intros (_ & _ & cg & H1 & H2 & _).
    assert (H : cg ∈ CeilingGrantsCovering g ceiling) by (by apply elem_of_covering). rewrite Ec in H. by apply not_elem_of_nil in H.
  - rewrite Hiff. split; [intros [[? _]|?]; done | tauto].
Qed.

Lemma GrantWithin_dominator g ceiling :
  GrantWithin g ceiling = None -> exists cg, cg ∈ ceiling /\ sameIdentity g cg = true /\ boundFailure g cg = None.
Proof. rewrite GrantWithin_None. tauto. Qed.

(** A grant is within a ceiling exactly when its kind is known, its scope
    names a usable identity, and one single ceiling grant of that identity
    dominates it on every axis at once: approval, owner-only, normalised lifetime,
    GitHub scope and PAT scope. *)
Theorem grant_within_iff_one_dominator g ceiling :
  GrantWithin g ceiling = None <->
  knownKind (Kind g) = true /\ (grantPairingOf g).2 = true /\
  exists cg, cg ∈ ceiling /\ sameIdentity g cg = true /\ boundFailure g cg = None.
Proof. apply GrantWithin_None. Qed.

(** ** The PAT meet never widens *)

(** [x] reaches no more than [y] on any axis, at the forge [x] names. *)
Definition patBelow (x y : RawScope) : Prop :=
  exists s c, DecodeGitPATScope x = Some s /\ DecodeGitPATScope y = Some c /\
    (patForgeConstrained c = true -> p_Forge s = p_Forge c) /\
    (forall key, concreteRepo (p_Forge s) key ->
       reaches (p_Forge s) (p_Repos s) key -> reaches (p_Forge s) (p_Repos c) key) /\
    patAccessRank (p_Access s) <= patAccessRank (p_Access c) /\
    (p_API s = true -> p_API c = true).

Lemma listReaches_mono forge (l m : list string) key :
  concreteRepo forge key -> (forall e, e ∈ l -> listReaches forge m e \/ e ∈ m) ->
  listReaches forge l key -> listReaches forge m key.
Proof.
  intros Hc Hsub (e & He & Hk & Hcov). destruct (Hsub e He) as [(f & Hf & Hkf & Hcf)|Hm]; [|by exists e].
  destruct (decide (e = key)) as [->|Hne]; [by exists f|].
  pose proof (covers_wild_concrete _ _ Hcov Hne) as Hw. apply PATRepoCovers_spec in Hcf as [->|[Hx _]]; [by exists e | congruence].
Qed.

Lemma patReposWithin_reaches forge a b key :
  concreteRepo forge key -> patReposWithin forge a b = true -> reaches forge a key -> reaches forge b key.
Proof.
  intros Hc. destruct a as [a|], b as [b|]; cbn [patReposWithin reaches]; try done.
  intros H%negb_true_iff. rewrite containsFunc_false in H. apply listReaches_mono; [done|].
  intros e [_ He]%H%negb_false_iff%indexCovers_spec. by left.
Qed.

Lemma meetRepos1_reaches forge repos cr key :
  concreteRepo forge key -> reaches forge (meetRepos1 forge repos cr) key -> reaches forge repos key /\ reaches forge cr key.
Proof.
  intros Hc. destruct cr as [cr|], repos as [r|]; cbn [meetRepos1 reaches]; try tauto.
  - by rewrite intersect_reaches.
  - intros H. split; [done|]. eapply listReaches_mono; [done| |exact H]. intros e He. right. by apply elem_of_sortStrings.
Qed.

Definition normalAccess (a : string) : Prop := a = PATAccessRead \/ a = PATAccessWrite.

Lemma normalizeAccess_normal a : normalAccess (normalizeAccess a).
Proof. unfold normalizeAccess. destruct (_ || _); [by right | by left]. Qed.

Lemma normalizeAccess_id a : normalAccess a -> normalizeAccess a = a.
Proof. intros [-> | ->]; reflexivity. Qed.

Lemma Decode_normal r s : DecodeGitPATScope r = Some s -> normalAccess (p_Access s).
Proof.
  unfold DecodeGitPATScope. destruct (unmarshalPAT r) as [sc|]; [|done]. destruct (_ || _); [done|].
  intros [= <-]. apply normalizeAccess_normal.
Qed.

(** One step of the loop: what it keeps below the bound and below its input. *)
Lemma patMeetLoop_spec s bounds : forall repos set access api repos' set' access' api',
  normalAccess access ->
  patMeetLoop s bounds repos set access api = inl (repos', set', access', api') ->
  normalAccess access' /\ patAccessRank access' <= patAccessRank access /\ (api' = true -> api = true) /\
  (set' = false -> repos' = repos /\ set = false) /\
  (forall key, concreteRepo (p_Forge s) key -> reaches (p_Forge s) repos' key -> reaches (p_Forge s) repos key) /\
  (forall b, b ∈ bounds -> exists cg, DecodeGitPATScope b = Some cg /\
     (patForgeConstrained cg = true -> p_Forge s = p_Forge cg) /\
     (forall key, concreteRepo (p_Forge s) key -> reaches (p_Forge s) repos' key -> reaches (p_Forge s) (p_Repos cg) key) /\
     patAccessRank access' <= patAccessRank (p_Access cg) /\ (api' = true -> p_API cg = true)).
Proof.
  induction bounds as [|b bounds IH]; intros repos set access api repos' set' access' api' Hn; cbn [patMeetLoop].
  - intros [= <- <- <- <-]. split_and!; try done; try lia. by intros b ?%not_elem_of_nil.
  - destruct (DecodeGitPATScope b) as [cg|] eqn:Ed; [|done]. destruct (patForgeConstrained cg && _) eqn:Ef; [done|].
    intros Hl. apply IH in Hl; [|destruct (_ <? _); [by eapply Decode_normal | done]].
    destruct Hl as (H1 & H2 & H3 & H4 & H5 & H6).
    assert (Hrank : patAccessRank access' <= patAccessRank access /\ patAccessRank access' <= patAccessRank (p_Access cg))
      by (destruct (Z.ltb_spec (patAccessRank (p_Access cg)) (patAccessRank access)); lia).
    assert (Hapi : api' = true -> api = true /\ p_API cg = true) by (intros Ha; by apply andb_prop, H3).
    assert (Hre : forall key, concreteRepo (p_Forge s) key -> reaches (p_Forge s) repos' key ->
               reaches (p_Forge s) repos key /\ reaches (p_Forge s) (p_Repos cg) key).
    { intros key Hc Hk. apply meetRepos1_reaches; [done|]. by apply H5. }
    split_and!; [done | lia | by intros [? ?]%Hapi | | by intros; apply Hre |].
    + intros Hf. destruct (H4 Hf) as [-> [-> Hno]%orb_false_elim]. split; [|done].
      destruct (p_Repos cg); [by apply bool_decide_eq_false in Hno; destruct Hno | done].
    + intros b' [->|Hb]%elem_of_cons; [|by apply H6]. exists cg. split_and!; [done | | by intros; apply Hre | lia | by intros [? ?]%Hapi].
      intros Hfc. rewrite Hfc in Ef. cbn [andb] in Ef. apply negb_false_iff, String.eqb_eq in Ef. done.
Qed.

(** What the meet returns decodes to the met values, written out or unchanged. *)
Lemma PATScopeMeet_inv g bounds warns out :
  PATScopeMeet g bounds = (warns, Some out) ->
  exists s t repos set access api,
    DecodeGitPATScope g = Some s /\ DecodeGitPATScope out = Some t /\
    patMeetLoop s bounds (p_Repos s) false (p_Access s) (p_API s) = inl (repos, set, access, api) /\
    p_Forge t = p_Forge s /\ p_Host t = p_Host s /\ p_SecretName t = p_SecretName s /\
    p_Access t = access /\ p_API t = api /\
    (p_Repos t = repos \/ p_Repos t = p_Repos s /\ (set = false \/ patReposWithin (p_Forge s) (p_Repos s) repos = true)).
Proof.
  unfold PATScopeMeet. destruct (unmarshalPAT g) as [raw|] eqn:Eu; [|done].
  destruct (DecodeGitPATScope g) as [s|] eqn:Ed; [|done]. pose proof (Decode_normal _ _ Ed) as Hn.
  assert (Hs : s = NormalizePAT raw /\ String.eqb (p_Host raw) "" || String.eqb (p_SecretName raw) "" = false).
  { unfold DecodeGitPATScope in Ed. rewrite Eu in Ed. destruct (_ || _); [done|]. by injection Ed. }
  destruct Hs as [Hs Hh]. destruct (patMeetLoop _ _ _ _ _ _) as [[[[repos set] access] api]|why] eqn:El; [|done].
  destruct (bool_decide (repos = Some []) && _); [done|].
  pose proof (patMeetLoop_spec _ _ _ _ _ _ _ _ _ _ Hn El) as (Hna & _).
  set (cr := set && _). set (ca := negb (String.eqb access _)). set (cp := negb (Bool.eqb api _)).
  destruct (nonempty _) eqn:En.
  - intros [= <- <-]. eexists s, _, repos, set, access, api.
    unfold DecodeGitPATScope, marshalPAT. cbn [unmarshalPAT sc_Host sc_SecretName sc_Username sc_Repos sc_Access sc_API sc_Forge p_Host p_SecretName p_Username p_Repos p_Access p_API p_Forge].
    rewrite Hh. split_and!; try done; rewrite ?Hs; cbn [NormalizePAT p_Host p_SecretName p_Repos p_Access p_API p_Forge]; try done.
    + unfold ca. destruct (String.eqb_spec access (p_Access s)) as [->|]; cbn [negb]; [by rewrite Hs | by apply normalizeAccess_id].
    + unfold cp. destruct (Bool.eqb api (p_API s)) eqn:Eb; cbn [negb]; [apply eqb_prop in Eb; by rewrite Eb, Hs | done].
    + unfold cr. destruct set; cbn [andb]; [|right; by (split; [|left])].
      destruct (patReposWithin _ _ _) eqn:Ew; cbn [negb]; [right | by left]. split; [done|]. right. by rewrite Hs in Ew.
  - intros [= <- <-]. exists s, s, repos, set, access, api.
    assert (Hno : cr = false /\ ca = false /\ cp = false) by (by destruct cr, ca, cp).
    destruct Hno as (Hcr & Hca & Hcp). split_and!; try done.
    + unfold ca in Hca. apply negb_false_iff, String.eqb_eq in Hca. done.
    + unfold cp in Hcp. apply negb_false_iff, eqb_prop in Hcp. done.
    + right. split; [done|]. unfold cr in Hcr. destruct set; [right | by left]. by apply negb_false_iff in Hcr.
Qed.

Lemma PATScopeMeet_below g bounds warns out :
  PATScopeMeet g bounds = (warns, Some out) -> patBelow out g /\ forall b, b ∈ bounds -> patBelow out b.
Proof.
  intros (s & t & repos & set & access & api & Eg & Eo & El & Hf & _ & _ & Ha & Hp & Hr)%PATScopeMeet_inv.
  pose proof (patMeetLoop_spec _ _ _ _ _ _ _ _ _ _ (Decode_normal _ _ Eg) El) as (_ & H2 & H3 & H4 & H5 & H6).
  assert (Hre : forall key, concreteRepo (p_Forge s) key -> reaches (p_Forge s) (p_Repos t) key -> reaches (p_Forge s) repos key).
  { intros key Hc Hk. destruct Hr as [<-|[E [Hset|Hw]]]; [done | | ]; rewrite E in Hk.
    - by destruct (H4 Hset) as [-> _].
    - by eapply patReposWithin_reaches. }
  unfold patBelow. rewrite <- Hf in *. split.
  - exists t, s. split_and!; try done; [by intros; apply H5, Hre | by rewrite Ha | by rewrite Hp].
  - intros b Hb. destruct (H6 b Hb) as (cg & Ec & Hfc & Hrc & Hac & Hpc).
    exists t, cg. split_and!; try done; [by intros; apply Hrc, Hre | by rewrite Ha | by rewrite Hp].
Qed.

(** The meet of a PAT scope with its bounding ceiling scopes never widens:
    when the grant is kept, the scope reaches no repository, no access level, no
    API and no other forge beyond the proposal or beyond any single bound. *)
Theorem pat_meet_never_widens g bounds warns out :
  PATScopeMeet g bounds = (warns, Some out) ->
  patBelow out g /\ forall b, b ∈ bounds -> patBelow out b.
Proof. apply PATScopeMeet_below. Qed.

(** ** The clamp bounds every grant it keeps *)

(** No repository and no permission level of [x] beyond [y]; an unreadable scope
    grants nothing. *)
Definition ghBelow (x y : RawScope) : Prop :=
  let '(xr, xp) := default ([], ∅) (ghScope x) in
  let '(yr, yp) := default ([], ∅) (ghScope y) in
  (forall r, r ∈ xr -> memKey r yr = true) /\
  (forall p l, xp !! p = Some l -> exists cl, yp !! p = Some cl /\ permRank l <= permRank cl).

Lemma memKey_true x l : memKey x l = true <-> exists y, y ∈ l /\ foldKey y = foldKey x.
Proof.
  unfold memKey. rewrite memS_true, list_elem_of_In, in_map_iff. setoid_rewrite <- list_elem_of_In. naive_solver.
Qed.

Lemma ghBelow_trans x y z : ghBelow x y -> ghBelow y z -> ghBelow x z.
Proof.
  unfold ghBelow. destruct (default ([], ∅) (ghScope x)) as [xr xp], (default ([], ∅) (ghScope y)) as [yr yp],
    (default ([], ∅) (ghScope z)) as [zr zp]. intros [H1 H2] [H3 H4]. split.
  - intros r (r' & Hr' & E)%H1%memKey_true. apply H3 in Hr' as (w & Hw & E')%memKey_true. apply memKey_true.
    exists w. split; [done | congruence].
  - intros p l (cl & Hc & Hl)%H2. apply H4 in Hc as (dl & Hd & ?). exists dl. split; [done | lia].
Qed.

Lemma ghBelow_refl x : ghBelow x x.
Proof.
  unfold ghBelow. destruct (default ([], ∅) (ghScope x)) as [xr xp]. split.
  - intros r Hr. apply memKey_true. eauto.
  - intros p l Hl. exists l. split; [done | lia].
Qed.

Lemma clampGitHubScope_below p c : ghBelow (clampGitHubScope p c) p /\ ghBelow (clampGitHubScope p c) c.
Proof.
  unfold ghBelow, clampGitHubScope. destruct (default ([], ∅) (ghScope p)) as [pr pp], (default ([], ∅) (ghScope c)) as [cr cp].
  cbn [ghScope default sc_Repos sc_Permissions from_option id].
  assert (Hrep : forall r, r ∈ default [] (match List.filter (fun r => memKey r cr) pr with
                                            | [] => None | _ => Some (List.filter (fun r => memKey r cr) pr) end) ->
            r ∈ pr /\ memKey r cr = true).
  { intros r Hr. destruct (List.filter (fun r => memKey r cr) pr) as [|k ks] eqn:E; [by apply not_elem_of_nil in Hr|].
    cbn [default from_option id] in Hr. rewrite <- E in Hr. apply list_elem_of_In, filter_In in Hr as [? ?].
    split; [by apply list_elem_of_In | done]. }
  assert (Hperm : forall q l, map_imap (fun perm lvl => match cp !! perm with
              | None => None | Some cl => Some (if permRank lvl >? permRank cl then cl else lvl) end) pp !! q = Some l ->
            exists pl cl, pp !! q = Some pl /\ cp !! q = Some cl /\ permRank l <= permRank pl /\ permRank l <= permRank cl).
  { intros q l. rewrite map_lookup_imap. destruct (pp !! q) as [pl|]; cbn [mbind option_bind]; [|done].
    destruct (cp !! q) as [cl|]; [|done]. intros [= <-]. exists pl, cl. split_and!; try done;
      destruct (Z.gtb_spec (permRank pl) (permRank cl)); lia. }
  split; split.
  - intros r [Hr _]%Hrep. apply memKey_true. eauto.
  - intros q l (pl & cl & ? & ? & ? & ?)%Hperm. eauto.
  - by intros r [_ Hr]%Hrep.
  - intros q l (pl & cl & ? & ? & ? & ?)%Hperm. eauto.
Qed.

Lemma clampGitHub_fold bounds s :
  ghBelow (fold_left (fun s cg => clampGitHubScope s (GScope cg)) bounds s) s /\
  forall cg, cg ∈ bounds -> ghBelow (fold_left (fun s cg => clampGitHubScope s (GScope cg)) bounds s) (GScope cg).
Proof.
  revert s. induction bounds as [|b bounds IH]; intros s; cbn [fold_left].
  - split; [apply ghBelow_refl | by intros cg ?%not_elem_of_nil].
  - destruct (IH (clampGitHubScope s (GScope b))) as [H1 H2]. destruct (clampGitHubScope_below s (GScope b)) as [H3 H4]. split.
    + by eapply ghBelow_trans.
    + intros cg [->|Hcg]%elem_of_cons; [by eapply ghBelow_trans | by apply H2].
Qed.

Lemma ttlCap_bounds bounds :
  0 < ttlCap bounds <= maxGrantTTLSeconds /\ forall cg, cg ∈ bounds -> ttlCap bounds <= normalizeClampTTL (TTLSeconds cg).
Proof.
  unfold ttlCap. assert (H : forall l m, 0 < m <= maxGrantTTLSeconds ->
    let r := fold_left (fun m cg => if (TTLSeconds cg >? 0) && (TTLSeconds cg <? m) then TTLSeconds cg else m) l m in
    0 < r <= m /\ forall cg, cg ∈ l -> r <= normalizeClampTTL (TTLSeconds cg)).
  { induction l as [|x l IH]; intros m Hm; cbn [fold_left].
    - split; [lia | by intros ? ?%not_elem_of_nil].
    - set (m' := if (TTLSeconds x >? 0) && (TTLSeconds x <? m) then TTLSeconds x else m).
      assert (Hm' : 0 < m' <= m /\ m' <= normalizeClampTTL (TTLSeconds x)).
      { unfold m', normalizeClampTTL. destruct (Z.gtb_spec (TTLSeconds x) 0), (Z.ltb_spec (TTLSeconds x) m),
          (Z.leb_spec (TTLSeconds x) 0), (Z.gtb_spec (TTLSeconds x) maxGrantTTLSeconds); cbn [andb orb]; lia. }
      destruct (IH m') as [H1 H2]; [lia|]. split; [lia|]. intros cg [->|Hc]%elem_of_cons; [lia | by apply H2]. }
  destruct (H bounds maxGrantTTLSeconds) as [H1 H2]; [unfold maxGrantTTLSeconds; lia|]. split; [lia | done].
Qed.

Lemma clampScope_facts g bounds g' :
  clampScope g bounds = Some g' ->
  Kind g' = Kind g /\ TTLSeconds g' = TTLSeconds g /\ RequiresApproval g' = RequiresApproval g /\ OwnerOnly g' = OwnerOnly g /\
  (Kind g = GrantGitHubToken -> forall cg, cg ∈ bounds -> ghBelow (GScope g') (GScope cg)) /\
  (Kind g = GrantGitPAT -> forall cg, cg ∈ bounds -> patBelow (GScope g') (GScope cg)).
Proof.
  unfold clampScope. destruct (String.eqb_spec (Kind g) GrantGitHubToken) as [Hk|Hk].
  - cbn [Kind setScope]. rewrite Hk. cbn. intros [= <-]. cbn. split_and!; try done. intros _ cg Hcg. by apply clampGitHub_fold.
  - destruct (String.eqb_spec (Kind g) GrantGitPAT) as [Hp|Hp]; [|intros [= <-]; by split_and!].
    destruct (PATScopeMeet _ _) as [w [out|]] eqn:E; cbn [snd]; [|done]. intros [= <-]. split_and!; try done.
    intros _ cg Hcg. apply PATScopeMeet_below in E as [_ E]. apply E. apply list_elem_of_In, in_map_iff.
    exists cg. split; [done | by apply list_elem_of_In].
Qed.

(** Every grant the clamp keeps is bounded by ceiling grants of its own kind,
    at least one of them, and by each of those on every axis: it needs approval
    and is owner-only wherever the bound is, its lifetime is positive and no longer
    than the bound's, and its GitHub or PAT scope reaches nothing beyond the
    bound's. *)
Theorem clamped_grant_is_bounded g ceiling g' :
  clampGrant g ceiling = Some g' ->
  Kind g' = Kind g /\ clampBounds g ceiling <> [] /\
  forall cg, cg ∈ clampBounds g ceiling ->
    cg ∈ ceiling /\ Kind cg = Kind g /\
    (RequiresApproval cg = true -> RequiresApproval g' = true) /\ (OwnerOnly cg = true -> OwnerOnly g' = true) /\
    0 < TTLSeconds g' <= normalizeClampTTL (TTLSeconds cg) /\
    (Kind g = GrantGitHubToken -> ghBelow (GScope g') (GScope cg)) /\
    (Kind g = GrantGitPAT -> patBelow (GScope g') (GScope cg)).
Proof.
  unfold clampGrant. destruct (clampBounds g ceiling) as [|b bs] eqn:Eb; [done|].
  destruct (clampScope g (b :: bs)) as [h|] eqn:Es; [|done]. intros [= <-].
  apply clampScope_facts in Es as (Hk & Ht & Ha & Ho & Hg & Hp). cbn [Kind GScope TTLSeconds RequiresApproval OwnerOnly].
  split; [done|]. split; [done|]. intros cg Hcg.
  assert (Hsel : cg ∈ clampBounds g ceiling) by (by rewrite Eb). apply clampBounds_kind in Hsel as [Hin Hkind].
  destruct (ttlCap_bounds (b :: bs)) as [Hc1 Hc2]. specialize (Hc2 cg Hcg).
  split_and!; try done.
  - intros E. apply orb_true_iff. right. apply (containsFunc_true RequiresApproval (b :: bs)). eauto.
  - intros E. apply orb_true_iff. right. apply (containsFunc_true OwnerOnly (b :: bs)). eauto.
  - destruct (Z.leb_spec (TTLSeconds h) 0), (Z.gtb_spec (TTLSeconds h) (ttlCap (b :: bs))); cbn [orb]; lia.
  - destruct (Z.leb_spec (TTLSeconds h) 0), (Z.gtb_spec (TTLSeconds h) (ttlCap (b :: bs))); cbn [orb]; lia.
  - intros; by apply Hg.
  - intros; by apply Hp.
Qed.
End GrantBounds.

(** ** Samples *)

Definition samplePAT (repos : option (list string)) (access : string) : RawScope :=
  marshalPAT (mkPAT "git.corp.example" "pat" "" repos access false "gitlab").

Definition samplePATGrant (repos : option (list string)) (access : string) (ttl : Z) (appr : bool) : GrantSpec :=
  mkGrant GrantGitPAT (samplePAT repos access) ttl appr false [].

(** A wildcard proposal under a list and a read-only bound is cut on both axes. *)
Example sample_pat_meet :
  @PATScopeMeet asciiTables (samplePAT (Some ["team/*"; "ops/db"]) "") [samplePAT (Some ["team/app"; "team/web"]) "write"; samplePAT None "read"] =
  (["git_pat grant: repos narrowed to the operator scope"; "git_pat grant: access clamped write→read"],
   Some (samplePAT (Some ["team/app"; "team/web"]) "read")).
Proof. vm_compute. reflexivity. Qed.

Lemma pat_meet_never_widens_witness :
  @patBelow asciiTables (samplePAT (Some ["team/app"; "team/web"]) "read") (samplePAT (Some ["team/*"; "ops/db"]) "") /\
  forall b, b ∈ [samplePAT (Some ["team/app"; "team/web"]) "write"; samplePAT None "read"] ->
    @patBelow asciiTables (samplePAT (Some ["team/app"; "team/web"]) "read") b.
Proof.
  apply (@pat_meet_never_widens asciiTables (samplePAT (Some ["team/*"; "ops/db"]) "")
           [samplePAT (Some ["team/app"; "team/web"]) "write"; samplePAT None "read"]
           ["git_pat grant: repos narrowed to the operator scope"; "git_pat grant: access clamped write→read"]).
  vm_compute. reflexivity.
Defined.

Lemma clamped_grant_is_bounded_witness :
  Kind (samplePATGrant (Some ["team/app"]) "" 300 true) = GrantGitPAT /\
  @clampBounds asciiTables (samplePATGrant (Some ["team/app"; "x/y"]) "" 0 false) [samplePATGrant (Some ["team/*"]) "" 300 true] <> [] /\
  forall cg, cg ∈ @clampBounds asciiTables (samplePATGrant (Some ["team/app"; "x/y"]) "" 0 false) [samplePATGrant (Some ["team/*"]) "" 300 true] ->
    0 < TTLSeconds (samplePATGrant (Some ["team/app"]) "" 300 true) <= normalizeClampTTL (TTLSeconds cg).
Proof.
  destruct (@clamped_grant_is_bounded asciiTables (samplePATGrant (Some ["team/app"; "x/y"]) "" 0 false)
              [samplePATGrant (Some ["team/*"]) "" 300 true] (samplePATGrant (Some ["team/app"]) "" 300 true)) as (H1 & H2 & H3).
  - vm_compute. reflexivity.
  - split; [exact H1|]. split; [exact H2|]. intros cg Hcg. destruct (H3 cg Hcg) as (_ & _ & _ & _ & H & _). exact H.
Defined.

(** Two ceiling grants of one identity that differ in [owner_only] alone. *)
Definition stsGrant (ownerOnly : bool) : GrantSpec := mkGrant GrantCloudSTS ScopeEmpty 300 false ownerOnly [].

(** The clamp asks fewer questions than the dominance contract: [owner_only]
    is not one of them. A grant the contract accepts unchanged comes out of the
    clamp changed, and whether it does depends on the order of the ceiling list,
    where the comments promise an unchanged grant whichever one is picked. *)
Theorem permitted_grant_changed_by_clamp `{U : GoUnicode} :
  let g := stsGrant false in
  GrantWithin g [stsGrant true; stsGrant false] = None /\
  clampGrants [g] [stsGrant true; stsGrant false] = [stsGrant true] /\
  clampGrants [g] [stsGrant false; stsGrant true] = [g].
Proof. split_and!; reflexivity. Qed.
