(* ===== verification/Leq.v ===== *)
(** * Composer: when one policy is at most as permissive as another

    [internal/composer/leq.go] and [leq_fallback.go], with the normalisers they
    share with the overlay meet ([meet.go], [meet_domains.go], [meet_push.go],
    [meet_posture.go]) and the ranks of [clamp.go]. A change [Leq] proves
    narrowing skips second-person approval, so a false [true] is a silent
    widening: the theorems state what a [true] guarantees of the policy the proxy
    compiles.

    [eff] is the deployment's default sandbox size ([sizing.EffectiveLimits]).
    [sameJSON] compares two inspection settings by their encoding, which for valid
    UTF-8 text is equality of the fields. *)
From S2P Require Import Prelude GoStrings GoSlices NetIP IPGuard DomainMatch PolicyTypes PushRules EgressPolicy DomEntry Grants GrantBounds.
Local Open Scope string_scope.
Local Open Scope Z_scope.

(** ** Bounds where a value at or below zero is none *)

Definition looser (o b : Z) : bool := if b <=? 0 then false else (o <=? 0) || (o >? b).
Definition notLooser (a b : Z) : bool := negb (looser a b).
Definition tightest (a b : Z) : Z := if a <=? 0 then Z.max b 0 else if b <=? 0 then a else Z.min a b.

Definition normSize (def x : Z) : Z := if x <=? 0 then def else x.
Definition leqSize (a b def : Z) : bool := notLooser (normSize def a) (normSize def b).

(** ** Normalisers *)

Definition defaultFirstUseHoldSec : Z := 30.
Definition maxHoldSec : Z := 600.
Definition defaultHolds : Z := 16.
Definition holdsCeiling : Z := 256.
Definition defaultPackMiB : Z := 32.
Definition defaultPushHoldSec : Z := 120.

Definition normFirstUseHold (x : Z) : Z := if x <=? 0 then defaultFirstUseHoldSec else Z.min x maxHoldSec.
Definition normMaxHolds (x : Z) : Z := if x <=? 0 then defaultHolds else Z.min x holdsCeiling.
Definition normPushHold (x : Z) : Z := if x <=? 0 then defaultPushHoldSec else Z.min x maxHoldSec.

Definition firstUseApprovalRank (m : string) : Z :=
  let n := normalizeFirstUse m in
  if String.eqb n FirstUseAlwaysDeny then 3 else if String.eqb n FirstUseDenyWithReview then 2 else 1.

Definition toolStrictness (e : string) : Z :=
  if String.eqb e ToolDeny then 2 else if String.eqb e ToolHold then 1 else 0.

Definition toolEffects (rules : list ToolRule) : gmap string string :=
  fold_left (fun m r => <[Tool r := Effect r]> m) rules ∅.

Definition effectFor (rules : gmap string string) (tool : string) : string :=
  match rules !! tool with
  | Some e => e
  | None => default ToolHold (rules !! "*")
  end.

Definition capStrings (l : list string) : list string := compact (sortStrings l).

Section Leq.
Context {U : GoUnicode} (eff : ResourceLimits).

Definition normMethods (l : list string) : list string :=
  compact (sortStrings (List.filter (fun s => negb (String.eqb s "")) (map (fun s => ToUpper (TrimSpace s)) l))).

(** ** Egress *)

Definition parsedEntries (l : list string) : list domEntry := omap parseDomEntry l.

Definition leqAllowedDomains (a b : list string) : bool :=
  let base := parsedEntries b in
  forallb (fun s => match parseDomEntry s with
                    | None => false
                    | Some e => containsFunc (fun f => covers f e) base
                    end) a.

Definition rawText (s : string) : string := ToLower (TrimSpace s).
Definition unreadable (l : list string) : list string :=
  map rawText (List.filter (fun s => match parseDomEntry s with None => true | Some _ => false end) l).

Definition leqDeniedDomains (a b : list string) : bool :=
  let held := parsedEntries a in
  let raw := unreadable a in
  forallb (fun s => match parseDomEntry s with
                    | Some f => containsFunc (fun e => covers e f) held
                    | None => String.eqb (rawText s) "" || memS (rawText s) raw
                    end) b.

Definition subsetS (a b : list string) : bool := negb (containsFunc (fun s => negb (memS s b)) a).
Definition leqSubsetWhenSet (a b : list string) : bool :=
  if negb (nonempty b) then true else nonempty a && subsetS a b.
Definition leqCapabilities (a b : list string) : bool :=
  if negb (nonempty b) then negb (nonempty a) else leqSubsetWhenSet a b.

Definition leqEgress (a b : RunPolicySpec) : bool :=
  if AllowAllEgress a && negb (AllowAllEgress b) then false
  else if (firstUseApprovalRank (FirstUseApproval a) <? firstUseApprovalRank (FirstUseApproval b))
          || (normFirstUseHold (FirstUseHoldSeconds a) >? normFirstUseHold (FirstUseHoldSeconds b))
          || (normMaxHolds (MaxHolds a) >? normMaxHolds (MaxHolds b)) then false
  else leqAllowedDomains (AllowedDomains a) (AllowedDomains b)
       && leqDeniedDomains (DeniedDomains a) (DeniedDomains b)
       && leqSubsetWhenSet (normMethods (AllowedMethods a)) (normMethods (AllowedMethods b)).

(** ** Posture *)

Definition leqDesktop (a b : option DesktopControls) : bool :=
  let x := desktopEffective a in
  let y := desktopEffective b in
  let opens p q := String.eqb p TransferAllowed && String.eqb q TransferBlocked in
  negb (opens (PasteIn x) (PasteIn y)) && negb (opens (CopyOut x) (CopyOut y))
  && negb (opens (Upload x) (Upload y)) && negb (opens (Download x) (Download y)).

Definition sameMount (x m : WorkspaceMount) : bool := String.eqb (Source x) (Source m) && String.eqb (Target x) (Target m).

Definition leqMounts (a b : list WorkspaceMount) : bool :=
  forallb (fun m => match findFirst (fun x => sameMount x m) b with
                    | None => false
                    | Some x => negb (ReadOnlyOrDefault x && negb (ReadOnlyOrDefault m))
                    end) a.

Definition leqWorkspaceRepos (a b : list WorkspaceRepo) : bool :=
  negb (containsFunc (fun r => negb (bool_decide (r ∈ b))) a).

Definition sameJSON (a b : LLMInspectionSpec) : bool := bool_decide (a = b).

Definition leqLLMInspection (a b : option LLMInspectionSpec) : bool :=
  match b, a with
  | None, None => true
  | None, Some x => String.eqb (TrimSpace (DetectorSidecarURL x)) ""
  | Some _, None => false
  | Some y, Some x => sameJSON x y
  end.

Definition leqUIApps (a b : list UIApp) : bool :=
  if negb (nonempty a) && nonempty b then false
  else forallb (fun app => containsFunc (fun x =>
         String.eqb (AppName x) (AppName app) && (AppPort x =? AppPort app) && String.eqb (PathOrRoot x) (PathOrRoot app) &&
         (negb (Inbound app) || (Inbound x && subsetS (Callers app) (Callers x)))) b) a.

Definition leqResources (a b : option ResourceLimits) : bool :=
  let ra := default zeroRes a in
  let rb := default zeroRes b in
  leqSize (CPUMillis ra) (CPUMillis rb) (CPUMillis eff) && leqSize (MemoryMiB ra) (MemoryMiB rb) (MemoryMiB eff)
  && leqSize (PidsLimit ra) (PidsLimit rb) (PidsLimit eff) && leqSize (DiskMiB ra) (DiskMiB rb) 0.

Definition leqToolRules (a b : list ToolRule) : bool :=
  let ea := toolEffects a in
  let eb := toolEffects b in
  let check tool := toolStrictness (effectFor ea tool) >=? toolStrictness (effectFor eb tool) in
  check "*" && forallb (fun kv => check (fst kv)) (map_to_list ea) && forallb (fun kv => check (fst kv)) (map_to_list eb).

Definition leqInnerWalls (a b : option HarnessInnerWalls) : bool :=
  match b with
  | None => true
  | Some y =>
      let x := default (mkWalls "" "") a in
      (String.eqb (SandboxMode y) "" || String.eqb (SandboxMode x) (SandboxMode y))
      && (String.eqb (PolicyTypes.Approvals y) "" || String.eqb (PolicyTypes.Approvals x) (PolicyTypes.Approvals y))
  end.

Definition leqPosture (a b : RunPolicySpec) : bool :=
  if (confinementRank (MinConfinementClass a) <? confinementRank (MinConfinementClass b))
     || negb (notLooser (AutoStopAfterSec a) (AutoStopAfterSec b))
     || (GitPushAnyBranch a && negb (GitPushAnyBranch b))
     || negb (leqCapabilities (capStrings (AzureDevOpsCapabilities a)) (capStrings (AzureDevOpsCapabilities b)))
     || negb (leqCapabilities (capStrings (GitHubCapabilities a)) (capStrings (GitHubCapabilities b))) then false
  else if containsFunc (fun g => bool_decide (is_Some (GrantWithin g (EligibleGrants b)))) (EligibleGrants a) then false
  else leqMounts (WorkspaceMounts a) (WorkspaceMounts b)
       && leqWorkspaceRepos (WorkspaceRepos a) (WorkspaceRepos b)
       && leqLLMInspection (LLMInspection a) (LLMInspection b)
       && leqUIApps (UIApps a) (UIApps b)
       && leqResources (Resources a) (Resources b)
       && leqToolRules (ToolRules a) (ToolRules b)
       && leqInnerWalls (InnerWalls a) (InnerWalls b)
       && leqDesktop (Desktop a) (Desktop b)
       && (recordingRank (Recording a) >=? recordingRank (Recording b)).

(** ** Push rules *)

Definition containsAll (have want : list string) : bool := subsetS want have.

Definition packCap (p : PushRulesSpec) : Z :=
  if negb (pushIsSet (Some p)) then 0
  else if MaxInspectPackMiB p >? 0 then MaxInspectPackMiB p else defaultPackMiB.

Definition leqPush (a b : option PushRulesSpec) : bool :=
  let pa := default zeroPush a in
  let pb := default zeroPush b in
  containsAll (DenyPaths pa) (DenyPaths pb) && containsAll (RequireReviewPaths pa) (RequireReviewPaths pb)
  && (DenyNewExecutables pa || negb (DenyNewExecutables pb)) && (DenyAll pa || negb (DenyAll pb))
  && notLooser (MaxFileSizeMiB pa) (MaxFileSizeMiB pb)
  && (normPushHold (HoldSeconds pa) <=? normPushHold (HoldSeconds pb))
  && notLooser (packCap pa) (packCap pb).

(** ** Limits *)

Definition rubricCaps (r : option AutonomyRubric) : list string :=
  match r with None => repeat "" 9 | Some r => rubricLevels r end.

Definition leqRubric (a b : option AutonomyRubric) : bool :=
  let locks r := match r with Some r => AgentGuardrailLocks r | None => false end in
  if locks b && negb (locks a) then false
  else forallb (fun p => String.eqb (snd p) "" ||
                         negb (String.eqb (fst p) "" || (autonomyRank (fst p) >? autonomyRank (snd p))))
         (combine (rubricCaps a) (rubricCaps b)).

(** An allow list where empty means any. *)
Definition leqAllowList (a b : list string) : bool :=
  negb (nonempty b && (negb (nonempty a) || negb (subsetS a b))).

Definition leqLimits (a b : GovernanceLimits) : bool :=
  if LocalSelfDefinedComponents a && negb (LocalSelfDefinedComponents b) then false
  else if containsFunc (fun p => snd p && negb (fst p))
            [(DenyTaskModeExec a, DenyTaskModeExec b); (DenyInteractive a, DenyInteractive b); (DenyUIApps a, DenyUIApps b);
             (DenyUserDrive a, DenyUserDrive b); (DenyMemberDrives a, DenyMemberDrives b); (DenyKeptMachines a, DenyKeptMachines b);
             (DenyBackgroundDesktopWatch a, DenyBackgroundDesktopWatch b)] then false
  else if negb (subsetS (DenyPlacements b) (DenyPlacements a)) then false
  else if negb (leqAllowList (AllowedMacOSBases a) (AllowedMacOSBases b)) then false
  else if negb (leqAllowList (AllowedModels a) (AllowedModels b)) then false
  else if containsFunc (fun p => negb (notLooser (fst p) (snd p)))
            [(MaxConcurrentRuns a, MaxConcurrentRuns b); (MaxCPUMillis a, MaxCPUMillis b); (MaxMemoryMiB a, MaxMemoryMiB b);
             (MaxEphemeralDiskMiB a, MaxEphemeralDiskMiB b); (MaxDriveSizeMiB a, MaxDriveSizeMiB b)] then false
  else leqRubric (Rubric a) (Rubric b).

Definition leqRunLimits (a b : GovernanceLimits) : bool :=
  let x := LRunLimits a in
  let y := LRunLimits b in
  notLooser (MaxEndAheadSec x) (MaxEndAheadSec y) && notLooser (MaxWaitSec x) (MaxWaitSec y)
  && notLooser (PauseIdleAfterSec x) (PauseIdleAfterSec y)
  && (negb (AllowNoEnd x) || AllowNoEnd y) && (negb (UserChangesLimits x) || UserChangesLimits y)
  && notLooser (cmpOrZ (DefaultEndSec x) (MaxEndAheadSec x)) (cmpOrZ (DefaultEndSec y) (MaxEndAheadSec y))
  && notLooser (cmpOrZ (DefaultWaitSec x) (MaxWaitSec x)) (cmpOrZ (DefaultWaitSec y) (MaxWaitSec y)).

(** The fields no rule covers must be equal; the rules cover every field. *)
Definition withoutCeilingRules (s : RunPolicySpec) : RunPolicySpec := zeroSpec.
Definition withoutLimitRules (l : GovernanceLimits) : GovernanceLimits := zeroLimits.
Definition equalOutsideCeilingRules (a b : RunPolicySpec) : bool :=
  bool_decide (withoutCeilingRules a = withoutCeilingRules b).
Definition equalOutsideLimitRules (a b : GovernanceLimits) : bool :=
  bool_decide (withoutLimitRules a = withoutLimitRules b).

Definition Leq (a b : RunPolicySpec) (la lb : GovernanceLimits) : bool :=
  leqEgress a b && leqPosture a b && leqPush (PushRules a) (PushRules b) && leqLimits la lb && leqRunLimits la lb
  && equalOutsideCeilingRules a b && equalOutsideLimitRules la lb.
End Leq.
