(* ===== verification/LeqSound.v ===== *)
(** * What a positive answer of [Leq] guarantees

    The order the composer computes on policies, against the policy the proxy
    compiles from them: hosts, methods, credentials, literal addresses and tools.
    The last theorem is the limit of the claim: with the port rule on, an entry
    that names a port reaches more than the bare entry that covers it. *)
From S2P Require Import Prelude GoStrings GoSlices NetIP IPGuard DomainMatch PolicyTypes PushRules EgressPolicy DomEntry Grants GrantBounds Leq.
Local Open Scope string_scope.
Local Open Scope Z_scope.

Section LeqSound.
Context {U : GoUnicode} (eff : ResourceLimits).

(** ** Lists *)

Lemma elem_of_parsed l e : e ∈ parsedEntries l <-> exists d, d ∈ l /\ parseDomEntry d = Some e.
Proof. unfold parsedEntries. by rewrite list_elem_of_omap. Qed.

Lemma subsetS_spec a b : subsetS a b = true <-> forall s, s ∈ a -> s ∈ b.
Proof.
  unfold subsetS. rewrite negb_true_iff, containsFunc_false. setoid_rewrite negb_false_iff. by setoid_rewrite memS_true.
Qed.

Lemma leqAllowedDomains_spec a b :
  leqAllowedDomains a b = true <->
  forall d, d ∈ a -> exists e f d', parseDomEntry d = Some e /\ d' ∈ b /\ parseDomEntry d' = Some f /\ covers f e = true.
Proof.
  unfold leqAllowedDomains. rewrite forallb_forall. setoid_rewrite <- list_elem_of_In. split; intros H d Hd; specialize (H d Hd).
  - destruct (parseDomEntry d) as [e|]; [|done]. apply containsFunc_true in H as (f & (d' & ? & ?)%elem_of_parsed & ?).
    exists e, f, d'. done.
  - destruct H as (e & f & d' & -> & ? & ? & ?). apply containsFunc_true. exists f. split; [|done]. apply elem_of_parsed. eauto.
Qed.

Lemma leqDeniedDomains_covers a b d f :
  leqDeniedDomains a b = true -> d ∈ b -> parseDomEntry d = Some f ->
  exists e d', d' ∈ a /\ parseDomEntry d' = Some e /\ covers e f = true.
Proof.
  unfold leqDeniedDomains. rewrite forallb_forall. intros H Hd Ef. apply list_elem_of_In, H in Hd. rewrite Ef in Hd.
  apply containsFunc_true in Hd as (e & (d' & ? & ?)%elem_of_parsed & ?). eauto.
Qed.

Lemma anyEntryMatches_parse l host port :
  anyEntryMatches l host port = true <-> exists d e, d ∈ l /\ parseDomEntry d = Some e /\ entMatches e host port = true.
Proof.
  unfold anyEntryMatches. rewrite containsFunc_true. setoid_rewrite entryMatches_parse. split.
  - intros (d & Hd & H). destruct (parseDomEntry d) as [e|] eqn:E; [eauto | done].
  - intros (d & e & Hd & E & H). exists d. by rewrite E.
Qed.

Lemma leqAllowed_matches a b host port :
  leqAllowedDomains a b = true -> anyEntryMatches a host port = true -> anyEntryMatches b host port = true.
Proof.
  rewrite leqAllowedDomains_spec, !anyEntryMatches_parse. intros H (d & e & Hd & Ee & Hm).
  destruct (H d Hd) as (e' & f & d' & Ee' & Hd' & Ef & Hc). rewrite Ee in Ee'. injection Ee' as <-.
  exists d', f. split_and!; try done. by eapply covers_matches.
Qed.

Lemma leqDenied_matches a b host port :
  leqDeniedDomains a b = true -> anyEntryMatches b host port = true -> anyEntryMatches a host port = true.
Proof.
  intros Hl. rewrite !anyEntryMatches_parse. intros (d & f & Hd & Ef & Hm).
  destruct (leqDeniedDomains_covers _ _ _ _ Hl Hd Ef) as (e & d' & Hd' & Ee & Hc).
  exists d', e. split_and!; try done. by eapply covers_matches.
Qed.

Lemma elem_of_normMethods l m : m ∈ normMethods l <-> exists s, s ∈ l /\ ToUpper (TrimSpace s) = m /\ m <> "".
Proof.
  unfold normMethods. rewrite elem_of_sortCompact, list_elem_of_In, filter_In, in_map_iff.
  setoid_rewrite <- list_elem_of_In. rewrite negb_true_iff, String.eqb_neq. naive_solver.
Qed.

Lemma specMethod_norm ms method :
  specMethod ms method = true <-> normMethods ms = [] \/ ToUpper method ∈ normMethods ms.
Proof.
  unfold specMethod. set (live := filter (fun m => ToUpper (TrimSpace m) <> "") ms).
  assert (Hl : forall m, m ∈ live <-> m ∈ ms /\ ToUpper (TrimSpace m) <> "").
  { intros m. unfold live. rewrite list_elem_of_filter. naive_solver. }
  rewrite orb_true_iff, containsFunc_true, elem_of_normMethods. setoid_rewrite Hl. setoid_rewrite String.eqb_eq.
  assert (Hn : negb (nonempty live) = true <-> normMethods ms = []).
  { split.
    - intros Hn. apply nil_of_no_elem. intros m (s & Hs & <- & Hne)%elem_of_normMethods.
      assert (Hin : s ∈ live) by (by apply Hl). destruct live; [by apply not_elem_of_nil in Hin | done].
    - intros Hn. destruct live as [|m l]; [done|]. exfalso.
      destruct (proj1 (Hl m)) as [H1 H2]; [left|].
      assert (Hin : ToUpper (TrimSpace m) ∈ normMethods ms) by (apply elem_of_normMethods; eauto).
      rewrite Hn in Hin. by apply not_elem_of_nil in Hin. }
  rewrite Hn. split; (intros [H|H]; [by left | right]).
  - destruct H as (s & [Hs Hne] & E). exists s. by rewrite E in *.
  - destruct H as (s & Hs & E & Hne). exists s. by rewrite E.
Qed.

Lemma leqMethods_sound a b method :
  leqSubsetWhenSet (normMethods a) (normMethods b) = true -> specMethod a method = true -> specMethod b method = true.
Proof.
  unfold leqSubsetWhenSet. rewrite !specMethod_norm. destruct (normMethods b) as [|m ms] eqn:Eb; [by left|]. cbn [nonempty negb].
  intros [Hne Hs]%andb_prop [E|Hin]; [by rewrite E in Hne|]. right. by eapply subsetS_spec.
Qed.

(** ** What the egress half of the order gives *)

Lemma leqEgress_inv a b :
  leqEgress a b = true ->
  (AllowAllEgress a = true -> AllowAllEgress b = true) /\
  firstUseApprovalRank (FirstUseApproval b) <= firstUseApprovalRank (FirstUseApproval a) /\
  normFirstUseHold (FirstUseHoldSeconds a) <= normFirstUseHold (FirstUseHoldSeconds b) /\
  normMaxHolds (MaxHolds a) <= normMaxHolds (MaxHolds b) /\
  leqAllowedDomains (AllowedDomains a) (AllowedDomains b) = true /\
  leqDeniedDomains (DeniedDomains a) (DeniedDomains b) = true /\
  leqSubsetWhenSet (normMethods (AllowedMethods a)) (normMethods (AllowedMethods b)) = true.
Proof.
  unfold leqEgress. destruct (AllowAllEgress a && negb (AllowAllEgress b)) eqn:E1; [done|].
  destruct (_ || _) eqn:E2; [done|]. apply orb_false_elim in E2 as [[E2 E3]%orb_false_elim E4].
  apply Z.ltb_ge in E2. rewrite Z.gtb_ltb in E3, E4. apply Z.ltb_ge in E3, E4.
  intros [[? ?]%andb_prop ?]%andb_prop. split_and!; try done. intros Ha. rewrite Ha in E1. by destruct (AllowAllEgress b).
Qed.

Lemma specVerdict_mono a b host port :
  leqEgress a b = true ->
  (specVerdict a host port = hostAllow -> specVerdict b host port = hostAllow) /\
  (specVerdict b host port = hostDeny -> specVerdict a host port = hostDeny).
Proof.
  intros (Hall & _ & _ & _ & Hd & Hn & _)%leqEgress_inv. unfold specVerdict.
  pose proof (leqAllowed_matches _ _ (CanonHost host) port Hd) as H1. pose proof (leqDenied_matches _ _ (CanonHost host) port Hn) as H2.
  destruct (anyEntryMatches (DeniedDomains a) _ _), (anyEntryMatches (DeniedDomains b) _ _),
    (anyEntryMatches (AllowedDomains a) _ _), (anyEntryMatches (AllowedDomains b) _ _),
    (AllowAllEgress a), (AllowAllEgress b); cbn [orb]; split; intros; try done; exfalso; naive_solver.
Qed.

Lemma raisesApproval_rank m : raisesApproval m = true <-> firstUseApprovalRank m < 3.
Proof.
  unfold raisesApproval, firstUseApprovalRank, normalizeFirstUse.
  destruct (String.eqb_spec m FirstUseAlwaysDeny) as [->|]; [done|].
  destruct (String.eqb_spec m FirstUseDenyWithReview) as [->|]; [done|].
  destruct (String.eqb_spec m FirstUseWaitForReview) as [->|]; done.
Qed.

(** ** CONNECT *)

Definition outcomeRank (o : connectOutcome) : Z :=
  match o with connectRefuse => 0 | connectHold => 1 | connectAdmit => 2 end.

Lemma outcomeRank_nonneg o : 0 <= outcomeRank o.
Proof. by destruct o. Qed.

(** What the configuration of [spec] alone answers a CONNECT with, a human asked
    where the policy raises approvals and the run has an approval channel. *)
Definition connectOf (spec : RunPolicySpec) (portRule : string) (channel : bool) (req : Request) : connectOutcome :=
  outcome (gateConnect req (CompilePolicy spec) (CompilePolicy spec) portRule)
    (raisesApproval (FirstUseApproval spec) && channel).

Lemma connectOf_cases spec portRule channel req :
  portRule <> PortRuleOn ->
  connectOf spec portRule channel req =
  if specMethod (AllowedMethods spec) (Method req) then
    match specVerdict spec (Host req) (RPort req) with
    | hostAllow => connectAdmit
    | hostUnknown => if raisesApproval (FirstUseApproval spec) && channel then connectHold else connectRefuse
    | hostDeny => connectRefuse
    end
  else connectRefuse.
Proof.
  intros Hr. unfold connectOf, gateConnect. cbn [EvaluateHost EvMethodAllowed builtinEvaluator]. rewrite evalHost_spec, methodAllowed_spec.
  destruct (String.eqb_spec portRule PortRuleOn) as [|_]; [done|]. rewrite andb_false_r.
  destruct (specVerdict spec _ _), (specMethod _ _); cbn [negb outcome]; try done; by destruct (_ && channel).
Qed.

(** Two policies whose verdicts, methods and approval mode are ordered answer in
    that order. *)
Lemma connect_mono a b portRule channel req :
  portRule <> PortRuleOn ->
  (specVerdict a (Host req) (RPort req) = hostAllow -> specVerdict b (Host req) (RPort req) = hostAllow) ->
  (specVerdict b (Host req) (RPort req) = hostDeny -> specVerdict a (Host req) (RPort req) = hostDeny) ->
  (specMethod (AllowedMethods a) (Method req) = true -> specMethod (AllowedMethods b) (Method req) = true) ->
  firstUseApprovalRank (FirstUseApproval b) <= firstUseApprovalRank (FirstUseApproval a) ->
  outcomeRank (connectOf a portRule channel req) <= outcomeRank (connectOf b portRule channel req).
Proof.
  intros Hr Ha Hd Hmeth Hf. rewrite !connectOf_cases by done.
  assert (Hask : raisesApproval (FirstUseApproval a) = true -> raisesApproval (FirstUseApproval b) = true)
    by (rewrite !raisesApproval_rank; lia).
  destruct (specMethod (AllowedMethods a) _); [rewrite Hmeth by done | apply outcomeRank_nonneg].
  destruct (specVerdict a (Host req) (RPort req)).
  - by rewrite Ha.
  - apply outcomeRank_nonneg.
  - destruct (specVerdict b (Host req) (RPort req)); [| by specialize (Hd eq_refl) |];
      destruct (raisesApproval (FirstUseApproval a)) eqn:Er; rewrite ?Hask by done; cbn [andb]; destruct channel; cbn;
      try lia; destruct (raisesApproval (FirstUseApproval b)); cbn; lia.
Qed.

(** C7: a policy [Leq] calls at most as permissive answers every CONNECT at most
    as openly: what it admits the other admits, what it holds for a human the
    other holds or admits, whatever the host, port and method. The port rule is
    off or a dry run. *)
Theorem leq_admits_no_more a b la lb portRule channel req :
  Leq eff a b la lb = true -> portRule <> PortRuleOn ->
  outcomeRank (connectOf a portRule channel req) <= outcomeRank (connectOf b portRule channel req).
Proof.
  unfold Leq. intros H Hr. repeat (apply andb_prop in H as [H _]).
  destruct (specVerdict_mono a b (Host req) (RPort req) H) as [Ha Hd].
  apply leqEgress_inv in H as (_ & Hf & _ & _ & _ & _ & Hm).
  apply connect_mono; try done. by apply leqMethods_sound.
Qed.

(** ** The compiled lookups, on parsed entries *)

Lemma exactHit_parse ds host :
  exactHit (compileDomains ds) host = true <-> exists d, d ∈ ds /\ parseDomEntry d = Some (mkDom false host 0).
Proof.
  rewrite exactHit_compile. split; intros (d & Hd & H); exists d; (split; [done|]).
  - by apply isExact_parse.
  - by apply (parse_exact d (mkDom false host 0)).
Qed.

Lemma exactPort_parse ds host port :
  exactPortHit (compileDomains ds) host port = true <->
  0 < port /\ exists d, d ∈ ds /\ parseDomEntry d = Some (mkDom false host port).
Proof.
  rewrite exactPortHit_compile. split; intros (Hp & d & Hd & H); (split; [done|]); exists d; (split; [done|]).
  - by apply isExact_parse.
  - by apply (parse_exact d (mkDom false host port)).
Qed.

Lemma wildPort_parse ds host port :
  MatchWildPort host port (wildPortList (compileDomains ds)) = true <->
  0 < port /\ exists d w, d ∈ ds /\ parseDomEntry d = Some (mkDom true w port) /\ HasSuffix host w = true.
Proof.
  rewrite MatchWildPort_compile. split; intros (Hp & d & w & Hd & H & Hs); (split; [done|]); exists d, w; (split_and!; try done).
  - by apply isWild_parse.
  - by apply (parse_wild d (mkDom true w port)).
Qed.

Lemma wild_parse ds host :
  MatchWild host (wildList (compileDomains ds)) = true <->
  exists d w, d ∈ ds /\ parseDomEntry d = Some (mkDom true w 0) /\ HasSuffix host w = true.
Proof.
  rewrite MatchWild_compile. split; intros (d & w & Hd & H & Hs); exists d, w; (split_and!; try done).
  - by apply isWild_parse.
  - by apply (parse_wild d (mkDom true w 0)).
Qed.

(** A denial of [b] is still in force in [a], on the same port or on every port. *)
Lemma denied_exact_mono a b host :
  leqDeniedDomains a b = true -> exactHit (compileDomains b) host = true -> exactHit (compileDomains a) host = true.
Proof.
  intros Hl. rewrite !exactHit_parse. intros (d & Hd & E).
  destruct (leqDeniedDomains_covers _ _ _ _ Hl Hd E) as ([w h p] & d' & Hd' & E' & (Hw & Hp & Hh)%covers_spec).
  cbn in Hw, Hp, Hh. subst w h. exists d'. split; [done|]. rewrite E'. do 2 f_equal. lia.
Qed.

Lemma denied_exactPort_mono a b host port :
  leqDeniedDomains a b = true -> exactPortHit (compileDomains b) host port = true ->
  exactPortHit (compileDomains a) host port = true \/ exactHit (compileDomains a) host = true.
Proof.
  intros Hl. rewrite !exactPort_parse, exactHit_parse. intros (Hport & d & Hd & E).
  destruct (leqDeniedDomains_covers _ _ _ _ Hl Hd E) as ([w h p] & d' & Hd' & E' & (Hw & Hp & Hh)%covers_spec).
  cbn in Hw, Hp, Hh. subst w h. destruct Hp as [-> | ->]; eauto.
Qed.

Lemma denied_wild_mono a b host :
  leqDeniedDomains a b = true -> MatchWild host (wildList (compileDomains b)) = true ->
  MatchWild host (wildList (compileDomains a)) = true.
Proof.
  intros Hl. rewrite !wild_parse. intros (d & w & Hd & E & Hs).
  destruct (leqDeniedDomains_covers _ _ _ _ Hl Hd E) as ([w' h p] & d' & Hd' & E' & (Hw & Hp & Hh)%covers_spec).
  cbn in Hw, Hp, Hh. subst w'. exists d', h. split_and!; [done | rewrite E'; do 2 f_equal; lia | by eapply HasSuffix_trans].
Qed.

Lemma denied_wildPort_mono a b host port :
  leqDeniedDomains a b = true -> MatchWildPort host port (wildPortList (compileDomains b)) = true ->
  MatchWildPort host port (wildPortList (compileDomains a)) = true \/ MatchWild host (wildList (compileDomains a)) = true.
Proof.
  intros Hl. rewrite !wildPort_parse, wild_parse. intros (Hport & d & w & Hd & E & Hs).
  destruct (leqDeniedDomains_covers _ _ _ _ Hl Hd E) as ([w' h p] & d' & Hd' & E' & (Hw & Hp & Hh)%covers_spec).
  cbn in Hw, Hp, Hh. subst w'. destruct Hp as [-> | ->]; [right | left; split; [done|]]; exists d', h; split_and!; try done; by eapply HasSuffix_trans.
Qed.

Lemma allowed_exact_mono a b host :
  leqAllowedDomains a b = true -> exactHit (compileDomains a) host = true -> exactHit (compileDomains b) host = true.
Proof.
  rewrite leqAllowedDomains_spec, !exactHit_parse. intros Hl (d & Hd & E).
  destruct (Hl d Hd) as (e & [w h p] & d' & Ee & Hd' & E' & (Hw & Hp & Hh)%covers_spec).
  rewrite E in Ee. injection Ee as <-. cbn in Hw, Hp, Hh. subst w h. exists d'. split; [done|]. rewrite E'. do 2 f_equal. lia.
Qed.

Lemma allowed_exactPort_mono a b host port :
  leqAllowedDomains a b = true -> exactPortHit (compileDomains a) host port = true ->
  exactPortHit (compileDomains b) host port = true \/ exactHit (compileDomains b) host = true.
Proof.
  rewrite leqAllowedDomains_spec, !exactPort_parse, exactHit_parse. intros Hl (Hport & d & Hd & E).
  destruct (Hl d Hd) as (e & [w h p] & d' & Ee & Hd' & E' & (Hw & Hp & Hh)%covers_spec).
  rewrite E in Ee. injection Ee as <-. cbn in Hw, Hp, Hh. subst w h. destruct Hp as [-> | ->]; eauto.
Qed.

(** ** Credentials and literal addresses *)

Lemma leq_AllowsLiteralIP a b host port :
  leqEgress a b = true -> AllowsLiteralIP (CompilePolicy a) host port = true -> AllowsLiteralIP (CompilePolicy b) host port = true.
Proof.
  intros (_ & _ & _ & _ & Ha & Hd & _)%leqEgress_inv. unfold AllowsLiteralIP. cbn [CompilePolicy denied allowed].
  set (h := CanonHost host).
  pose proof (denied_exact_mono _ _ h Hd) as D1. pose proof (denied_exactPort_mono _ _ h port Hd) as D2.
  pose proof (allowed_exact_mono _ _ h Ha) as A1. pose proof (allowed_exactPort_mono _ _ h port Ha) as A2.
  destruct (exactHit (compileDomains (DeniedDomains a)) h); [done|].
  destruct (exactPortHit (compileDomains (DeniedDomains a)) h port); [done|].
  destruct (exactHit (compileDomains (DeniedDomains b)) h); [by specialize (D1 eq_refl)|].
  destruct (exactPortHit (compileDomains (DeniedDomains b)) h port); [by destruct (D2 eq_refl)|].
  destruct (exactHit (compileDomains (AllowedDomains a)) h); [by rewrite A1|]. intros [E|E]%A2; rewrite E; [|done].
  by destruct (exactHit _ h).
Qed.

Lemma leq_AllowedExactHost a b host :
  leqEgress a b = true -> AllowedExactHost (CompilePolicy a) host = true -> AllowedExactHost (CompilePolicy b) host = true.
Proof.
  intros (_ & _ & _ & _ & Ha & Hd & _)%leqEgress_inv. unfold AllowedExactHost, exactHostDenied. set (h := CanonHost host).
  pose proof (denied_exact_mono _ _ h Hd) as D1. pose proof (denied_wild_mono _ _ h Hd) as D3.
  pose proof (allowed_exact_mono _ _ h Ha) as A1.
  assert (D4 : forall q, exactPortHit (denied (CompilePolicy b)) h q = true ->
                 exactPortHit (denied (CompilePolicy a)) h q = true \/ exactHit (denied (CompilePolicy a)) h = true)
    by (intros q; by apply denied_exactPort_mono).
  assert (D5 : forall q, MatchWildPort h q (wildPortList (denied (CompilePolicy b))) = true ->
                 MatchWildPort h q (wildPortList (denied (CompilePolicy a))) = true \/
                 MatchWild h (wildList (denied (CompilePolicy a))) = true) by (intros q; by apply denied_wildPort_mono).
  change (compileDomains (DeniedDomains a)) with (denied (CompilePolicy a)) in *.
  change (compileDomains (DeniedDomains b)) with (denied (CompilePolicy b)) in *.
  change (compileDomains (AllowedDomains a)) with (allowed (CompilePolicy a)) in *.
  change (compileDomains (AllowedDomains b)) with (allowed (CompilePolicy b)) in *.
  destruct (exactHit (denied (CompilePolicy a)) h) eqn:E1; [done|].
  destruct (MatchWild h (wildList (denied (CompilePolicy a)))) eqn:E2; [done|].
  destruct (exactHit (denied (CompilePolicy b)) h); [by specialize (D1 eq_refl)|].
  destruct (MatchWild h (wildList (denied (CompilePolicy b)))); [by specialize (D3 eq_refl)|].
  destruct (exactHit (allowed (CompilePolicy a)) h); [by rewrite A1|].
  destruct (exactHit (allowed (CompilePolicy b)) h) eqn:E3; [done|].
  rewrite !containsFunc_true. intros (q & Hq & [Hp Hw]%andb_prop). exists q. rewrite elem_of_elements, anyPort_compile in *.
  destruct Hq as [Hpos (d & Hdin & Hex%isExact_parse)]. split.
  - split; [done|]. assert (A2 : exactPortHit (compileDomains (AllowedDomains a)) h q = true) by (apply exactPort_parse; eauto).
    apply (allowed_exactPort_mono _ _ h q Ha) in A2 as [(_ & d' & ? & H)%exactPort_parse|H].
    + apply parse_exact in H; [|done]. exists d'. done.
    + change (compileDomains (AllowedDomains b)) with (allowed (CompilePolicy b)) in H. congruence.
  - apply andb_true_intro. split; apply negb_true_iff, not_true_is_false; [intros [H|H]%D4 | intros [H|H]%D5]; try congruence.
    + by rewrite H in Hp.
    + by rewrite H in Hw.
Qed.

(** A policy [Leq] calls at most as permissive hands out no more trust: every
    host it would bind a credential to and every private address it admits by
    literal entry, the other does too, and every grant it makes eligible is
    dominated by a single grant of the other. *)
Theorem leq_trusts_no_more a b la lb :
  Leq eff a b la lb = true ->
  (forall host, AllowedExactHost (CompilePolicy a) host = true -> AllowedExactHost (CompilePolicy b) host = true) /\
  (forall host port, AllowsLiteralIP (CompilePolicy a) host port = true -> AllowsLiteralIP (CompilePolicy b) host port = true) /\
  (forall g, g ∈ EligibleGrants a -> exists cg, cg ∈ EligibleGrants b /\ sameIdentity g cg = true /\ boundFailure g cg = None).
Proof.
  unfold Leq. intros H. do 5 (apply andb_prop in H as [H _]). apply andb_prop in H as [He Hp]. split_and!.
  - intros host. by apply leq_AllowedExactHost.
  - intros host port. by apply leq_AllowsLiteralIP.
  - intros g Hg. unfold leqPosture in Hp. destruct (_ || _) in Hp; [done|].
    destruct (containsFunc _ _) eqn:Eg; [done|]. rewrite containsFunc_false in Eg. apply Eg, bool_decide_eq_false in Hg.
    apply GrantWithin_dominator. destruct (GrantWithin g (EligibleGrants b)); [exfalso; eauto | done].
Qed.

(** ** Tools *)

Lemma effectFor_unnamed rules tool : rules !! tool = None -> effectFor rules tool = effectFor rules "*".
Proof. unfold effectFor. intros ->. by destruct (rules !! "*"). Qed.

Lemma leqToolRules_spec a b :
  leqToolRules a b = true <->
  forall tool, toolStrictness (effectFor (toolEffects b) tool) <= toolStrictness (effectFor (toolEffects a) tool).
Proof.
  unfold leqToolRules. rewrite !andb_true_iff, !forallb_forall. setoid_rewrite Z.geb_le.
  split; [|intros H; split_and!; intros; apply H].
  intros [[Hs Ha] Hb] tool.
  destruct (toolEffects a !! tool) as [x|] eqn:Ea.
  { apply (Ha (tool, x)), list_elem_of_In, elem_of_map_to_list. done. }
  destruct (toolEffects b !! tool) as [y|] eqn:Eb.
  { apply (Hb (tool, y)), list_elem_of_In, elem_of_map_to_list. done. }
  by rewrite (effectFor_unnamed _ _ Ea), (effectFor_unnamed _ _ Eb).
Qed.

(** The finite walk over the named tools decides the order on every tool: the
    answer is yes exactly when, for each of the infinitely many tool names, the
    effect the first list gives (named rule, else the default rule, else hold) is
    at least as strict as the second's. *)
Theorem leq_tool_rules_iff a b :
  leqToolRules a b = true <->
  forall tool, toolStrictness (effectFor (toolEffects b) tool) <= toolStrictness (effectFor (toolEffects a) tool).
Proof. apply leqToolRules_spec. Qed.
End LeqSound.

(** ** Witnesses *)

(** A policy that allows one more host than [sampleSpec] restricts, and the same
    policy narrowed. *)
Definition wideSpec : RunPolicySpec :=
  mkSpec ["*.example.com"; "api.example.com"] [] false "wait_for_review" 0 0 [] "" [stsGrant false] 0 [] [] None [] None [] false None [] []
    None None "".
Definition narrowSpec : RunPolicySpec :=
  mkSpec ["*.svc.example.com"; "api.example.com:443"] ["bad.svc.example.com"] false "deny_with_review" 10 4 ["GET"] "CC1" [stsGrant true] 0
    [] [] None [] None [] false None [] [] None None "terminal".
Definition sampleEff : ResourceLimits := EffectiveLimits 0 0.

Lemma leq_admits_no_more_witness :
  outcomeRank (@connectOf asciiTables narrowSpec "off" true (mkReq "a.svc.example.com" 443 "GET" "")) = 2 /\
  outcomeRank (@connectOf asciiTables narrowSpec "off" true (mkReq "a.svc.example.com" 443 "GET" "")) <=
  outcomeRank (@connectOf asciiTables wideSpec "off" true (mkReq "a.svc.example.com" 443 "GET" "")).
Proof.
  split; [vm_compute; reflexivity|].
  apply (@leq_admits_no_more asciiTables sampleEff narrowSpec wideSpec zeroLimits zeroLimits); [vm_compute; reflexivity | discriminate].
Defined.

Lemma leq_trusts_no_more_witness :
  @AllowedExactHost asciiTables (@CompilePolicy asciiTables narrowSpec) "api.example.com" = true /\
  @AllowedExactHost asciiTables (@CompilePolicy asciiTables wideSpec) "api.example.com" = true.
Proof.
  assert (H : @AllowedExactHost asciiTables (@CompilePolicy asciiTables narrowSpec) "api.example.com" = true) by (vm_compute; reflexivity).
  split; [exact H|].
  destruct (@leq_trusts_no_more asciiTables sampleEff narrowSpec wideSpec zeroLimits zeroLimits) as (H1 & _ & _); [vm_compute; reflexivity|].
  exact (H1 _ H).
Defined.

(** ** The port rule *)

Definition bareSpec : RunPolicySpec :=
  mkSpec ["db.example.com"] [] false "" 0 0 [] "" [] 0 [] [] None [] None [] false None [] [] None None "".
Definition portSpec : RunPolicySpec :=
  mkSpec ["db.example.com:8443"] [] false "" 0 0 [] "" [] 0 [] [] None [] None [] false None [] [] None None "".

(** With the port rule on the order is unsound. The entry "db.example.com:8443"
    is covered by the bare entry "db.example.com", so [Leq] calls the first policy
    narrower; but the port rule lets a bare entry reach only ports 80 and 443, so
    the first policy admits a CONNECT to port 8443 that the second refuses. *)
Theorem leq_unsound_with_port_rule :
  let req := mkReq "db.example.com" 8443 "CONNECT" "" in
  @Leq asciiTables sampleEff portSpec bareSpec zeroLimits zeroLimits = true /\
  @connectOf asciiTables portSpec PortRuleOn false req = connectAdmit /\
  @connectOf asciiTables bareSpec PortRuleOn false req = connectRefuse /\
  @gateConnect asciiTables _ (@builtinEvaluator asciiTables) req (@CompilePolicy asciiTables bareSpec)
    (@CompilePolicy asciiTables bareSpec) PortRuleOn = GateRefused ruleSourcePort.
Proof. vm_compute. split_and!; reflexivity. Qed.
