(* ===== verification/Meet.v ===== *)
(** * Composer: an overlay narrows a ceiling

    [internal/composer/meet.go], [meet_domains.go], [meet_posture.go],
    [meet_push.go], [meet_limits.go], [run_limits.go] and [meet_walls.go], with
    the two list checks of [internal/types] the presence check calls.

    The Go code runs every rule on one [meeter], which records the first refusal
    and, on a resolve, a warning per widening. Here a rule returns the new value of
    its field and the events it records, in the order the code records them
    ([W]): [EvFail] is [fail], [EvWiden] is [widen]. [firstFail] reads the events
    as the writer does ([strict], a widening is a refusal) or as a resolve does.
    The texts of the messages are left out; the reason and the field are kept. *)
From S2P Require Import Prelude GoStrings GoSlices NetIP IPGuard DomainMatch GoPath PolicyTypes PushRules EgressPolicy DomEntry Grants GrantBounds Leq.
Local Open Scope string_scope.
Local Open Scope Z_scope.

Definition ReasonOverlayInvalid : string := "governance_overlay_invalid".
Definition ReasonOverlayUnsatisfiable : string := "governance_overlay_unsatisfiable".

Record Authority := mkAuthority { Ceiling : RunPolicySpec; Limits : GovernanceLimits }.
Record Overlay := mkOverlay { OvCeiling : CeilingOverlay; OvLimits : LimitsOverlay }.
Record OverlayError := mkOverlayError { ErrReason : string; ErrField : string }.

Inductive event := EvFail (reason field : string) | EvWiden (field : string).

Definition W (A : Type) : Type := A * list event.
Definition wret {A} (x : A) : W A := (x, []).
Definition wbind {A B} (m : W A) (k : A -> W B) : W B :=
  let '(x, e1) := m in let '(y, e2) := k x in (y, (e1 ++ e2)%list).
Notation "x <-- m ;; k" := (wbind m (fun x => k)) (at level 100, m at next level, right associativity) : wardyn_scope.
Local Open Scope wardyn_scope.

Definition widenIf (widens : bool) (field : string) : list event := if widens then [EvWiden field] else [].
Definition failIf (fails : bool) (reason field : string) : list event := if fails then [EvFail reason field] else [].

(** A field the overlay does not name is the base's. *)
Definition named {A B} (o : option A) (base : B) (rule : A -> W B) : W B :=
  match o with None => wret base | Some v => rule v end.

Section Meet.
Context {U : GoUnicode} (eff : ResourceLimits).

(** ** Network reach *)

Definition uncoveredBy (base : list domEntry) (s : string) : bool :=
  match parseDomEntry s with
  | Some e => negb (containsFunc (fun b => covers b e) base)
  | None => true
  end.

Definition meetEntries (base over : list domEntry) : list domEntry :=
  concat (map (fun b => omap (intersect b) over) base).

Definition meetAllowedDomains (base ov : list string) : W (list string) :=
  let b := parsedEntries base in
  (minimise (meetEntries b (parsedEntries ov)), widenIf (containsFunc (uncoveredBy b) ov) "allowed_domains").

Definition deniedSpelling (s : string) : option string :=
  match parseDomEntry s with
  | Some e => Some (domString e)
  | None => if String.eqb (rawText s) "" then None else Some (rawText s)
  end.
Definition unionDenied (a b : list string) : list string := compact (sortStrings (omap deniedSpelling (a ++ b)%list)).

Definition meetFirstUse (base v : string) : W string :=
  let b := normalizeFirstUse base in
  let v := normalizeFirstUse v in
  ((if firstUseApprovalRank v >? firstUseApprovalRank b then v else b),
   widenIf (firstUseApprovalRank v <? firstUseApprovalRank b) "first_use_approval").

(** A bound met after both sides are normalised. *)
Definition meetNorm (norm : Z -> Z) (field : string) (base v : Z) : W Z :=
  (Z.min (norm base) (norm v), widenIf (norm v >? norm base) field).

Definition meetFlagAnd (field : string) (base v : bool) : W bool := (base && v, widenIf (v && negb base) field).

(** Lists where empty reads as everything: a disjoint pair is a refusal. *)
Definition both (base ov : list string) : list string := List.filter (fun s => memS s base) ov.
Definition meetAllowList (field : string) (base ov : list string) : list event :=
  let b := both base ov in
  match b with
  | [] => [EvFail ReasonOverlayUnsatisfiable field]
  | _ => widenIf (length b <? length ov)%nat field
  end.

Definition meetMethods (base ov : list string) : W (list string) :=
  let b := normMethods base in
  if negb (nonempty b) then (ov, [])
  else (both b ov, meetAllowList "allowed_methods" b ov).

Definition meetEgress (o : CeilingOverlay) (c : RunPolicySpec) : W RunPolicySpec :=
  ad <-- named (o_AllowedDomains o) (AllowedDomains c) (meetAllowedDomains (AllowedDomains c)) ;;
  dd <-- named (o_DeniedDomains o) (DeniedDomains c) (fun v => wret (unionDenied (DeniedDomains c) v)) ;;
  al <-- named (o_AllowAllEgress o) (AllowAllEgress c) (meetFlagAnd "allow_all_egress" (AllowAllEgress c)) ;;
  fu <-- named (o_FirstUseApproval o) (FirstUseApproval c) (meetFirstUse (FirstUseApproval c)) ;;
  fh <-- named (o_FirstUseHoldSeconds o) (FirstUseHoldSeconds c) (meetNorm normFirstUseHold "first_use_hold_seconds" (FirstUseHoldSeconds c)) ;;
  mh <-- named (o_MaxHolds o) (MaxHolds c) (meetNorm normMaxHolds "max_holds" (MaxHolds c)) ;;
  me <-- named (o_AllowedMethods o) (AllowedMethods c) (fun v => meetMethods (AllowedMethods c) (normMethods v)) ;;
  wret (mkSpec ad dd al fu fh mh me (MinConfinementClass c) (EligibleGrants c) (AutoStopAfterSec c) (WorkspaceMounts c)
          (WorkspaceRepos c) (LLMInspection c) (UIApps c) (Resources c) (ToolRules c) (GitPushAnyBranch c) (PushRules c)
          (AzureDevOpsCapabilities c) (GitHubCapabilities c) (InnerWalls c) (Desktop c) (Recording c)).

(** ** Posture *)

Definition meetConfinement (base v : string) : W string :=
  let br := confinementRank base in
  let vr := confinementRank v in
  if vr >? br then wret (ToUpper (TrimSpace v)) else (base, widenIf (vr <? br) "min_confinement_class").

Definition autoStopMeet (a b : Z) : Z := if (a <=? 0) && (b <=? 0) then Z.min a b else tightest a b.

Definition mountKey (m : WorkspaceMount) : string * string := (Source m, Target m).
Definition mountSpelling (m : WorkspaceMount) : string := Source m ++ String (ascii_of_nat 0) (Target m).

Fixpoint meetMountsLoop (base ov : list WorkspaceMount) (seen : list (string * string)) : W (list WorkspaceMount) :=
  match ov with
  | [] => wret []
  | o :: ov' =>
      match findFirst (fun b => sameMount b o) base with
      | None => let '(l, ev) := meetMountsLoop base ov' seen in (l, EvWiden "workspace_mounts" :: ev)
      | Some b =>
          let w := widenIf (ReadOnlyOrDefault b && negb (ReadOnlyOrDefault o)) "workspace_mounts" in
          if bool_decide (mountKey o ∈ seen)
          then let '(l, ev) := meetMountsLoop base ov' seen in (l, (w ++ ev)%list)
          else let '(l, ev) := meetMountsLoop base ov' (mountKey o :: seen) in
               (mkMount (Source o) (Target o) (Some (ReadOnlyOrDefault b || ReadOnlyOrDefault o)) :: l, (w ++ ev)%list)
      end
  end.

Definition meetMounts (base ov : list WorkspaceMount) : W (list WorkspaceMount) :=
  l <-- meetMountsLoop base ov [] ;;
  wret (sortBy (fun a b => String.leb (mountSpelling a) (mountSpelling b)) l).

Definition repoSpelling (r : WorkspaceRepo) : string :=
  Repo r ++ String (ascii_of_nat 0) (RepoTarget r ++ String (ascii_of_nat 0) (Ref r)).

Fixpoint meetReposLoop (base ov out : list WorkspaceRepo) : W (list WorkspaceRepo) :=
  match ov with
  | [] => wret out
  | o :: ov' =>
      if negb (bool_decide (o ∈ base))
      then let '(l, ev) := meetReposLoop base ov' out in (l, EvWiden "workspace_repos" :: ev)
      else meetReposLoop base ov' (if bool_decide (o ∈ out) then out else (out ++ [o])%list)
  end.

Definition meetRepos (base ov : list WorkspaceRepo) : W (list WorkspaceRepo) :=
  l <-- meetReposLoop base ov [] ;;
  wret (sortBy (fun a b => String.leb (repoSpelling a) (repoSpelling b)) l).

Definition meetLLM (base : option LLMInspectionSpec) (o : LLMInspectionSpec) : W (option LLMInspectionSpec) :=
  match base with
  | None => wret (Some o)
  | Some b => (Some b, failIf (negb (sameJSON b o)) ReasonOverlayInvalid "llm_inspection")
  end.

(** One UI app of the overlay against the base's app of its name and port. *)
Definition meetUIApp (b o : UIApp) : W UIApp :=
  let inbound := Inbound b && Inbound o in
  let extra := List.filter (fun x => negb (memS x (Callers b))) (Callers o) in
  (mkUIApp (AppName o) (AppPort o) (AppPath b) inbound
     (if inbound then List.filter (fun x => memS x (Callers b)) (Callers o) else []),
   (widenIf (Inbound o && negb (Inbound b)) "ui_apps" ++ widenIf (inbound && nonempty extra) "ui_apps")%list).

Definition sameApp (x y : UIApp) : bool := String.eqb (AppName x) (AppName y) && (AppPort x =? AppPort y).

Fixpoint meetUIAppsLoop (base ov out : list UIApp) : W (list UIApp) :=
  match ov with
  | [] => wret out
  | o :: ov' =>
      let skip := let '(l, ev) := meetUIAppsLoop base ov' out in (l, EvWiden "ui_apps" :: ev) in
      match findFirst (fun b => sameApp b o) base with
      | None => skip
      | Some b =>
          if negb (String.eqb (PathOrRoot b) (PathOrRoot o)) then skip
          else
            let '(app, w) := meetUIApp b o in
            let '(l, ev) := meetUIAppsLoop base ov' (if containsFunc (fun x => sameApp x app) out then out else (out ++ [app])%list) in
            (l, (w ++ ev)%list)
      end
  end.

Definition appLe (a b : UIApp) : bool :=
  if String.eqb (AppName a) (AppName b) then AppPort a <=? AppPort b else String.leb (AppName a) (AppName b).

(** The list, and whether the composed limits deny UI apps. *)
Definition meetUIApps (base ov : list UIApp) : W (list UIApp * bool) :=
  if negb (nonempty ov) && nonempty base then wret (base, true)
  else
    let '(l, ev) := meetUIAppsLoop base ov [] in
    ((sortBy appLe l, false), (ev ++ failIf (nonempty base && negb (nonempty l)) ReasonOverlayUnsatisfiable "ui_apps")%list).

Definition meetSize (field : string) (base : Z) (ov : option Z) (def : Z) : W Z :=
  named ov base (fun v =>
    let b := normSize def base in
    let v := normSize def v in
    (tightest b v, widenIf (looser v b) field)).

Definition meetResources (base : option ResourceLimits) (o : ResourcesOverlay) : W (option ResourceLimits) :=
  let r := default zeroRes base in
  cpu <-- meetSize "resources.cpu_millis" (CPUMillis r) (ro_CPUMillis o) (CPUMillis eff) ;;
  mem <-- meetSize "resources.memory_mib" (MemoryMiB r) (ro_MemoryMiB o) (MemoryMiB eff) ;;
  pids <-- meetSize "resources.pids_limit" (PidsLimit r) (ro_PidsLimit o) (PidsLimit eff) ;;
  disk <-- meetSize "resources.disk_mib" (DiskMiB r) (ro_DiskMiB o) 0 ;;
  let res := mkRes cpu mem pids disk in
  wret (if decide (res = zeroRes) then None else Some res).

Definition meetEffect (b o : gmap string string) (t : string) : string :=
  let be := effectFor b t in
  let oe := effectFor o t in
  if toolStrictness oe >? toolStrictness be then oe else be.

Definition meetToolRules (base ov : list ToolRule) : W (list ToolRule) :=
  if negb (nonempty base) && negb (nonempty ov) then wret []
  else
    let b := toolEffects base in
    let o := toolEffects ov in
    let tools := elements ({["*"]} ∪ dom b ∪ dom o : gset string) in
    (sortBy (fun x y => String.leb (Tool x) (Tool y)) (map (fun t => mkToolRule t (meetEffect b o t)) tools),
     concat (map (fun t => widenIf (toolStrictness (effectFor o t) <? toolStrictness (effectFor b t)) "tool_rules") tools)).

(** [None] keeps the base's list. *)
Definition meetCapabilities (field : string) (base want : list string) : W (option (list string)) :=
  if negb (nonempty base) then (None, [EvWiden field])
  else (Some (both base want), meetAllowList field base want).

Definition meetCaps (field : string) (base want : list string) : W (list string) :=
  r <-- meetCapabilities field (capStrings base) (capStrings want) ;;
  wret (default base r).

Definition meetInnerWall (field base over : string) : W string :=
  if String.eqb over "" then wret base
  else if String.eqb base "" then wret over
  else (base, failIf (negb (String.eqb base over)) ReasonOverlayInvalid field).

Definition meetInnerWalls (base : option HarnessInnerWalls) (o : HarnessInnerWalls) : W (option HarnessInnerWalls) :=
  let b := default (mkWalls "" "") base in
  s <-- meetInnerWall "harness_inner_walls.sandbox_mode" (SandboxMode b) (SandboxMode o) ;;
  a <-- meetInnerWall "harness_inner_walls.approvals" (PolicyTypes.Approvals b) (PolicyTypes.Approvals o) ;;
  wret (if decide (mkWalls s a = mkWalls "" "") then base else Some (mkWalls s a)).

Definition meetDesktop (base : option DesktopControls) (o : DesktopControls) : W (option DesktopControls) :=
  (Some (desktopMeet base (Some o)), widenIf (negb (leqDesktop (Some o) base)) "desktop").

Definition meetRecording (base v : string) : W string :=
  (recordingAtLeast base v, widenIf (recordingRank v <? recordingRank base) "recording").

(** The ceiling, and whether a rule denied UI apps. *)
Definition meetPosture (o : CeilingOverlay) (c : RunPolicySpec) : W (RunPolicySpec * bool) :=
  cc <-- named (o_MinConfinementClass o) (MinConfinementClass c) (meetConfinement (MinConfinementClass c)) ;;
  eg <-- named (o_EligibleGrants o) (EligibleGrants c) wret ;;
  st <-- named (o_AutoStopAfterSec o) (AutoStopAfterSec c)
           (fun v => (autoStopMeet (AutoStopAfterSec c) v, widenIf (looser v (AutoStopAfterSec c)) "auto_stop_after_sec")) ;;
  wm <-- named (o_WorkspaceMounts o) (WorkspaceMounts c) (meetMounts (WorkspaceMounts c)) ;;
  wr <-- named (o_WorkspaceRepos o) (WorkspaceRepos c) (meetRepos (WorkspaceRepos c)) ;;
  li <-- named (o_LLMInspection o) (LLMInspection c) (meetLLM (LLMInspection c)) ;;
  ui <-- named (o_UIApps o) (UIApps c, false) (meetUIApps (UIApps c)) ;;
  re <-- named (o_Resources o) (Resources c) (meetResources (Resources c)) ;;
  tr <-- named (o_ToolRules o) (ToolRules c) (meetToolRules (ToolRules c)) ;;
  gp <-- named (o_GitPushAnyBranch o) (GitPushAnyBranch c) (meetFlagAnd "git_push_any_branch" (GitPushAnyBranch c)) ;;
  ac <-- named (o_AzureDevOpsCapabilities o) (AzureDevOpsCapabilities c) (meetCaps "azure_devops_capabilities" (AzureDevOpsCapabilities c)) ;;
  iw <-- named (o_InnerWalls o) (InnerWalls c) (meetInnerWalls (InnerWalls c)) ;;
  de <-- named (o_Desktop o) (Desktop c) (meetDesktop (Desktop c)) ;;
  rc <-- named (o_Recording o) (Recording c) (meetRecording (Recording c)) ;;
  gc <-- named (o_GitHubCapabilities o) (GitHubCapabilities c) (meetCaps "github_capabilities" (GitHubCapabilities c)) ;;
  wret (mkSpec (AllowedDomains c) (DeniedDomains c) (AllowAllEgress c) (FirstUseApproval c) (FirstUseHoldSeconds c) (MaxHolds c)
          (AllowedMethods c) cc eg st wm wr li (fst ui) re tr gp (PushRules c) ac gc iw de rc, snd ui).

(** ** Push rules *)

(** [unionPaths]: exact spelling, first occurrence kept, sorted. *)
Definition unionPaths (a b : list string) : list string :=
  sortStrings (fold_left (fun out s => if memS s out then out else (out ++ [s])%list) (a ++ b)%list []).

Definition meetPack (base : PushRulesSpec) (v : Z) (activeBase active : bool) : W Z :=
  let b := if activeBase then (if MaxInspectPackMiB base >? 0 then MaxInspectPackMiB base else defaultPackMiB) else 0 in
  let v := if (v <=? 0) && active then defaultPackMiB else v in
  (tightest b v, widenIf (looser v b) "push_rules.max_inspect_pack_mib").

Definition meetPush (base : option PushRulesSpec) (o : PushRulesOverlay) : W (option PushRulesSpec) :=
  let r := default zeroPush base in
  let activeBase := pushIsSet (Some r) in
  let dp := match po_DenyPaths o with None => DenyPaths r | Some v => unionPaths (DenyPaths r) v end in
  let rp := match po_RequireReviewPaths o with None => RequireReviewPaths r | Some v => unionPaths (RequireReviewPaths r) v end in
  let ne := match po_DenyNewExecutables o with None => DenyNewExecutables r | Some v => DenyNewExecutables r || v end in
  let da := match po_DenyAll o with None => DenyAll r | Some v => DenyAll r || v end in
  fs <-- named (po_MaxFileSizeMiB o) (MaxFileSizeMiB r)
           (fun v => (tightest (MaxFileSizeMiB r) v, widenIf (looser v (MaxFileSizeMiB r)) "push_rules.max_file_size_mib")) ;;
  hs <-- named (po_HoldSeconds o) (HoldSeconds r) (meetNorm normPushHold "push_rules.hold_seconds" (HoldSeconds r)) ;;
  let res := mkPush dp (MaxInspectPackMiB r) rp hs ne fs da in
  let active := pushIsSet (Some res) || match po_MaxInspectPackMiB o with Some v => v >? 0 | None => false end in
  pk <-- named (po_MaxInspectPackMiB o) (MaxInspectPackMiB r) (fun v => meetPack res v activeBase active) ;;
  let pk := if active && (pk <=? 0) then defaultPackMiB else pk in
  let res := mkPush dp pk rp hs ne fs da in
  wret (if pushIsSet (Some res) || (hs >? 0) || ne then Some res else None).

(** ** Limits *)

Definition TighterSec (a b : Z) : Z := if (a =? 0) || ((b >? 0) && (b <? a)) then b else a.

Definition TightenRunLimits (captured profile : RunLimits) : RunLimits :=
  mkRunLimits (TighterSec (MaxEndAheadSec captured) (MaxEndAheadSec profile)) (DefaultEndSec captured)
    (AllowNoEnd captured && AllowNoEnd profile) (TighterSec (MaxWaitSec captured) (MaxWaitSec profile))
    (DefaultWaitSec captured) (UserChangesLimits captured && UserChangesLimits profile)
    (TighterSec (PauseIdleAfterSec captured) (PauseIdleAfterSec profile)).

Definition derefInt (p : option Z) : Z := default 0 p.
Definition derefBool (p : option bool) : bool := default false p.

Definition clampDefault (def resMax : Z) : Z :=
  if (resMax >? 0) && ((def =? 0) || (def >? resMax)) then resMax else def.

Definition meetDefault (field : string) (baseDef baseMax : Z) (ov : option Z) (resMax : Z) : W Z :=
  match ov with
  | None => wret (clampDefault baseDef resMax)
  | Some v =>
      let b := cmpOrZ baseDef baseMax in
      let v := cmpOrZ v resMax in
      (clampDefault (tightest b v) resMax, widenIf (looser v b) field)
  end.

Definition namesRunLimits (o : LimitsOverlay) : bool :=
  bool_decide (is_Some (l_MaxEndAheadSec o)) || bool_decide (is_Some (l_DefaultEndSec o)) ||
  bool_decide (is_Some (l_AllowNoEnd o)) || bool_decide (is_Some (l_MaxWaitSec o)) ||
  bool_decide (is_Some (l_DefaultWaitSec o)) || bool_decide (is_Some (l_UserChangesLimits o)) ||
  bool_decide (is_Some (l_PauseIdleAfterSec o)).

Definition looserThan (o : option Z) (b : Z) : bool := match o with Some v => looser v b | None => false end.

Definition meetRunLimits (o : LimitsOverlay) (base : RunLimits) : W RunLimits :=
  if negb (namesRunLimits o) then wret base
  else
    let ov := mkRunLimits (derefInt (l_MaxEndAheadSec o)) 0 (default true (l_AllowNoEnd o)) (derefInt (l_MaxWaitSec o)) 0
                (default true (l_UserChangesLimits o)) (derefInt (l_PauseIdleAfterSec o)) in
    let got := TightenRunLimits base ov in
    let w := (widenIf (looserThan (l_MaxEndAheadSec o) (MaxEndAheadSec base)) "max_end_ahead_sec" ++
              widenIf (looserThan (l_MaxWaitSec o) (MaxWaitSec base)) "max_wait_sec" ++
              widenIf (looserThan (l_PauseIdleAfterSec o) (PauseIdleAfterSec base)) "pause_idle_after_sec" ++
              widenIf (derefBool (l_AllowNoEnd o) && negb (AllowNoEnd base)) "allow_no_end" ++
              widenIf (derefBool (l_UserChangesLimits o) && negb (UserChangesLimits base)) "user_changes_limits")%list in
    noted <-- (tt, w) ;;
    de <-- meetDefault "default_end_sec" (DefaultEndSec base) (MaxEndAheadSec base) (l_DefaultEndSec o) (MaxEndAheadSec got) ;;
    dw <-- meetDefault "default_wait_sec" (DefaultWaitSec base) (MaxWaitSec base) (l_DefaultWaitSec o) (MaxWaitSec got) ;;
    wret (mkRunLimits (MaxEndAheadSec got) de (AllowNoEnd got) (MaxWaitSec got) dw (UserChangesLimits got) (PauseIdleAfterSec got)).

Definition meetLevel (name base ov : string) : W string :=
  if String.eqb ov "" then wret base
  else if String.eqb base "" || (autonomyRank ov <? autonomyRank base) then wret ov
  else (base, widenIf (autonomyRank ov >? autonomyRank base) ("autonomy_rubric." ++ name)).

Definition meetRubric (base : option AutonomyRubric) (o : AutonomyRubric) : W (option AutonomyRubric) :=
  let b := default zeroRubric base in
  eo <-- meetLevel "egress_open" (EgressOpen b) (EgressOpen o) ;;
  er <-- meetLevel "egress_reviewed" (EgressReviewed b) (EgressReviewed o) ;;
  es <-- meetLevel "egress_sealed" (EgressSealed b) (EgressSealed o) ;;
  sp <-- meetLevel "secrets_powerful" (SecretsPowerful b) (SecretsPowerful o) ;;
  sb <-- meetLevel "secrets_baseline" (SecretsBaseline b) (SecretsBaseline o) ;;
  sn <-- meetLevel "secrets_none" (SecretsNone b) (SecretsNone o) ;;
  c1 <-- meetLevel "confinement_cc1" (ConfinementCC1 b) (ConfinementCC1 o) ;;
  c2 <-- meetLevel "confinement_cc2" (ConfinementCC2 b) (ConfinementCC2 o) ;;
  c3 <-- meetLevel "confinement_cc3" (ConfinementCC3 b) (ConfinementCC3 o) ;;
  let r := mkRubric eo er es sp sb sn c1 c2 c3 (AgentGuardrailLocks b || AgentGuardrailLocks o) in
  wret (if decide (r = zeroRubric) then None else Some r).

Definition unionPlacements (base ov : list string) : list string :=
  List.filter (fun p => memS p base || memS p ov) [PlacementRemote; PlacementLocal].

(** [meetMacOSBases] and [meetAllowedModels]: lists where empty means any. *)
Definition meetNames (field : string) (base ov : list string) : W (list string) :=
  if negb (nonempty ov) then wret base
  else if negb (nonempty base) then wret ov
  else (both base ov, meetAllowList field base ov).

Definition meetBound (field : string) (base : Z) (ov : option Z) : W Z :=
  named ov base (fun v => (tightest base v, widenIf (looser v base) field)).

Definition orFlag (base : bool) (ov : option bool) : bool := match ov with None => base | Some v => base || v end.

(** [denyUI] is the denial a posture rule added. *)
Definition meetLimits (o : LimitsOverlay) (l : GovernanceLimits) (denyUI : bool) : W GovernanceLimits :=
  ls <-- named (l_LocalSelfDefinedComponents o) (LocalSelfDefinedComponents l)
           (meetFlagAnd "local_self_defined_components" (LocalSelfDefinedComponents l)) ;;
  let dp := match l_DenyPlacements o with None => DenyPlacements l | Some v => unionPlacements (DenyPlacements l) v end in
  mb <-- named (l_AllowedMacOSBases o) (AllowedMacOSBases l) (meetNames "allowed_macos_bases" (AllowedMacOSBases l)) ;;
  am <-- named (l_AllowedModels o) (AllowedModels l) (meetNames "allowed_models" (AllowedModels l)) ;;
  cr <-- meetBound "max_concurrent_runs" (MaxConcurrentRuns l) (l_MaxConcurrentRuns o) ;;
  cm <-- meetBound "max_cpu_millis" (MaxCPUMillis l) (l_MaxCPUMillis o) ;;
  mm <-- meetBound "max_memory_mib" (MaxMemoryMiB l) (l_MaxMemoryMiB o) ;;
  ed <-- meetBound "max_ephemeral_disk_mib" (MaxEphemeralDiskMiB l) (l_MaxEphemeralDiskMiB o) ;;
  ds <-- meetBound "max_drive_size_mib" (MaxDriveSizeMiB l) (l_MaxDriveSizeMiB o) ;;
  ru <-- named (l_Rubric o) (Rubric l) (meetRubric (Rubric l)) ;;
  rl <-- meetRunLimits o (LRunLimits l) ;;
  wret (mkLimits ls (orFlag (DenyTaskModeExec l) (l_DenyTaskModeExec o)) (orFlag (DenyInteractive l) (l_DenyInteractive o))
          (orFlag (DenyUIApps l || denyUI) (l_DenyUIApps o)) (orFlag (DenyBackgroundDesktopWatch l) (l_DenyBackgroundDesktopWatch o))
          cr (orFlag (DenyUserDrive l) (l_DenyUserDrive o)) (orFlag (DenyMemberDrives l) (l_DenyMemberDrives o))
          (orFlag (DenyKeptMachines l) (l_DenyKeptMachines o)) dp mb am cm mm ed ds ru rl).

(** ** What an overlay may say at all *)

Definition MacOSStandardBase : string := "Standard".
Definition baseNameByte (c : ascii) : bool :=
  is_lower c || is_digit c || Ascii.eqb c "." || Ascii.eqb c "_" || Ascii.eqb c "-".
Definition ValidMacOSBaseName (name : string) : bool :=
  String.eqb name MacOSStandardBase ||
  match name with
  | String c r => (is_lower c || is_digit c) && str_forall baseNameByte r && (String.length r <=? 63)%nat
  | "" => false
  end.

(** The runes of a string, invalid bytes as the replacement rune. *)
Fixpoint runesFrom (fuel : nat) (s : string) : list Z :=
  match fuel, s with
  | _, "" => []
  | O, _ => []
  | S fuel', _ => let '(r, _, rest) := DecodeRune s in r :: runesFrom fuel' rest
  end.
Definition runes (s : string) : list Z := runesFrom (String.length s) s.
Definition isControl (r : Z) : bool := (r <? 32) || ((127 <=? r) && (r <=? 159)).

Definition MaxAllowedModels : Z := 200.
Definition MaxAllowedModelLen : Z := 200.

Fixpoint validModels (l seen : list string) : bool :=
  match l with
  | [] => true
  | m :: l' =>
      if String.eqb m "" || negb (String.eqb (TrimSpace m) m) || containsFunc isControl (runes m) || negb (ValidString m)
         || (Z.of_nat (length (runes m)) >? MaxAllowedModelLen) || memS m seen then false
      else validModels l' (m :: seen)
  end.
Definition ValidAllowedModels (l : list string) : bool :=
  if Z.of_nat (length l) >? MaxAllowedModels then false else validModels l [].

Definition validInnerWalls (w : HarnessInnerWalls) : bool :=
  memS (SandboxMode w) [""; "off"; "workspace-write"; "read-only"] &&
  memS (PolicyTypes.Approvals w) [""; "harness"; "wardyn"; "none"].

Definition MaxAllowedDomainsPerSpec : Z := 256.

Definition invalidIf (b : bool) (field : string) : list event := failIf b ReasonOverlayInvalid field.
Definition ifNamed {A} (o : option A) (f : A -> list event) : list event := match o with None => [] | Some v => f v end.

Fixpoint toolRuleEvents (rs : list ToolRule) (seen : list string) : list event :=
  match rs with
  | [] => []
  | r :: rs' =>
      (invalidIf (negb (ValidToolEffect (Effect r))) "tool_rules" ++ widenIf (memS (Tool r) seen) "tool_rules" ++
       toolRuleEvents rs' (Tool r :: seen))%list
  end.

Definition negative (p : string * option Z) : list event :=
  invalidIf (match snd p with Some v => v <? 0 | None => false end) (fst p).

Definition validateNonNegative (c : CeilingOverlay) (l : LimitsOverlay) : list event :=
  concat (map negative
    ([("first_use_hold_seconds", o_FirstUseHoldSeconds c); ("max_holds", o_MaxHolds c);
      ("max_concurrent_runs", l_MaxConcurrentRuns l); ("max_cpu_millis", l_MaxCPUMillis l);
      ("max_memory_mib", l_MaxMemoryMiB l); ("max_ephemeral_disk_mib", l_MaxEphemeralDiskMiB l);
      ("max_drive_size_mib", l_MaxDriveSizeMiB l); ("max_end_ahead_sec", l_MaxEndAheadSec l);
      ("default_end_sec", l_DefaultEndSec l); ("max_wait_sec", l_MaxWaitSec l);
      ("default_wait_sec", l_DefaultWaitSec l); ("pause_idle_after_sec", l_PauseIdleAfterSec l)] ++
     match o_Resources c with
     | None => []
     | Some r => [("resources.cpu_millis", ro_CPUMillis r); ("resources.memory_mib", ro_MemoryMiB r);
                  ("resources.pids_limit", ro_PidsLimit r); ("resources.disk_mib", ro_DiskMiB r)]
     end ++
     match o_PushRules c with
     | None => []
     | Some p => [("push_rules.max_inspect_pack_mib", po_MaxInspectPackMiB p); ("push_rules.hold_seconds", po_HoldSeconds p);
                  ("push_rules.max_file_size_mib", po_MaxFileSizeMiB p)]
     end)%list).

Definition validatePresence (ov : Overlay) : list event :=
  let c := OvCeiling ov in
  let l := OvLimits ov in
  (ifNamed (o_AllowedMethods c) (fun v => invalidIf (negb (nonempty (normMethods v))) "allowed_methods") ++
   ifNamed (o_AllowedDomains c) (fun v => invalidIf (Z.of_nat (length v) >? MaxAllowedDomainsPerSpec) "allowed_domains") ++
   ifNamed (o_AzureDevOpsCapabilities c) (fun v => invalidIf (negb (nonempty v)) "azure_devops_capabilities") ++
   ifNamed (o_GitHubCapabilities c) (fun v => invalidIf (negb (nonempty v)) "github_capabilities") ++
   ifNamed (o_LLMInspection c) (fun v => invalidIf (nonempty (WorkspaceSecretValues v)) "llm_inspection.workspace_secret_values") ++
   ifNamed (o_ToolRules c) (fun v => toolRuleEvents v []) ++
   ifNamed (o_Recording c) (fun v => invalidIf (String.eqb v "" || negb (recordingValid v)) "recording") ++
   ifNamed (o_InnerWalls c) (fun v => invalidIf (negb (validInnerWalls v)) "harness_inner_walls") ++
   ifNamed (o_Desktop c) (fun d => invalidIf (negb (ValidTransferRule (PasteIn d) && ValidTransferRule (CopyOut d) &&
                                                      ValidTransferRule (Upload d) && ValidTransferRule (Download d))) "desktop") ++
   validateNonNegative c l ++
   ifNamed (l_DenyPlacements l) (fun ps => concat (map (fun p => invalidIf (negb (placementValid p)) "deny_placements") ps)) ++
   ifNamed (l_AllowedMacOSBases l) (fun ns => concat (map (fun n => invalidIf (negb (ValidMacOSBaseName n)) "allowed_macos_bases") ns)) ++
   ifNamed (l_AllowedModels l) (fun ms => invalidIf (negb (ValidAllowedModels ms)) "allowed_models") ++
   ifNamed (l_Rubric l) (fun r => invalidIf (negb (rubricValidate r)) "autonomy_rubric"))%list.

(** ** The last door *)

Definition checkResult (l : GovernanceLimits) : list event :=
  let r := LRunLimits l in
  let un b field := failIf b ReasonOverlayUnsatisfiable field in
  (un (containsFunc (fun x => x <? 0)
         [DefaultEndSec r; DefaultWaitSec r; MaxEndAheadSec r; MaxWaitSec r; PauseIdleAfterSec r; MaxConcurrentRuns l;
          MaxCPUMillis l; MaxMemoryMiB l; MaxEphemeralDiskMiB l; MaxDriveSizeMiB l]) "limits" ++
   un ((MaxEndAheadSec r >? 0) && (DefaultEndSec r >? MaxEndAheadSec r)) "limits.default_end_sec" ++
   un ((MaxWaitSec r >? 0) && (DefaultWaitSec r >? MaxWaitSec r)) "limits.default_wait_sec" ++
   un (DeniesEveryPlacement (DenyPlacements l)) "limits.deny_placements" ++
   un (match Rubric l with Some ru => negb (rubricValidate ru) | None => false end) "limits.autonomy_rubric")%list.

(** ** Composition *)

Definition setPush (c : RunPolicySpec) (p : option PushRulesSpec) : RunPolicySpec :=
  mkSpec (AllowedDomains c) (DeniedDomains c) (AllowAllEgress c) (FirstUseApproval c) (FirstUseHoldSeconds c) (MaxHolds c)
    (AllowedMethods c) (MinConfinementClass c) (EligibleGrants c) (AutoStopAfterSec c) (WorkspaceMounts c) (WorkspaceRepos c)
    (LLMInspection c) (UIApps c) (Resources c) (ToolRules c) (GitPushAnyBranch c) p (AzureDevOpsCapabilities c)
    (GitHubCapabilities c) (InnerWalls c) (Desktop c) (Recording c).

(** Every rule, after the presence check passed. *)
Definition meetAll (base : Authority) (ov : Overlay) : W Authority :=
  c1 <-- meetEgress (OvCeiling ov) (Ceiling base) ;;
  c2 <-- meetPosture (OvCeiling ov) c1 ;;
  pr <-- named (o_PushRules (OvCeiling ov)) (PushRules (fst c2)) (meetPush (PushRules (fst c2))) ;;
  l <-- meetLimits (OvLimits ov) (Limits base) (snd c2) ;;
  checked <-- (tt, checkResult l) ;;
  wret (mkAuthority (setPush (fst c2) pr) l).

(** The first refusal among the events; a widening is one when [strict]. *)
Fixpoint firstFail (strict : bool) (evs : list event) : option OverlayError :=
  match evs with
  | [] => None
  | EvFail r f :: _ => Some (mkOverlayError r f)
  | EvWiden f :: evs' => if strict then Some (mkOverlayError ReasonOverlayInvalid f) else firstFail strict evs'
  end.

Definition warnings (evs : list event) : list string :=
  omap (fun e => match e with EvWiden f => Some f | EvFail _ _ => None end) evs.

(** [meeter.run]: the result, its warnings and its refusal. *)
Definition run (strict : bool) (base : Authority) (ov : Overlay) : Authority * list string * option OverlayError :=
  let pre := validatePresence ov in
  match firstFail strict pre with
  | Some e => (base, warnings pre, Some e)
  | None => let '(out, evs) := meetAll base ov in (out, warnings (pre ++ evs)%list, firstFail strict (pre ++ evs)%list)
  end.

Definition ApplyOverlay (base : Authority) (ov : Overlay) : (Authority * list string) + OverlayError :=
  match run false base ov with
  | (_, _, Some e) => inr e
  | (out, warns, None) => inl (out, warns)
  end.

Definition ValidateOverlay (base : Authority) (ov : Overlay) : option OverlayError := snd (run true base ov).

(** A person's walls laid over a policy. *)
Definition setAllowed (c : RunPolicySpec) (ad : list string) : RunPolicySpec :=
  mkSpec ad (DeniedDomains c) (AllowAllEgress c) (FirstUseApproval c) (FirstUseHoldSeconds c) (MaxHolds c)
    (AllowedMethods c) (MinConfinementClass c) (EligibleGrants c) (AutoStopAfterSec c) (WorkspaceMounts c) (WorkspaceRepos c)
    (LLMInspection c) (UIApps c) (Resources c) (ToolRules c) (GitPushAnyBranch c) (PushRules c) (AzureDevOpsCapabilities c)
    (GitHubCapabilities c) (InnerWalls c) (Desktop c) (Recording c).

Definition MeetWalls (spec : RunPolicySpec) (ov : CeilingOverlay) : RunPolicySpec + OverlayError :=
  let base := match AllowAllEgress spec, o_AllowedDomains ov with
              | true, Some l => setAllowed spec (AllowedDomains spec ++ l)%list
              | _, _ => spec
              end in
  match ApplyOverlay (mkAuthority base zeroLimits) (mkOverlay ov emptyLimitsOverlay) with
  | inl (out, _) => inl (Ceiling out)
  | inr e => inr e
  end.
End Meet.
