(* ===== verification/MeetSound.v ===== *)
(** * An overlay can only narrow: the ceiling

    Field by field, the composed ceiling is at most as permissive as its base in
    the order of [Leq]; what a write accepts, a resolve applies without a warning;
    the composed allowlist admits exactly the requests both lists allow. *)
From S2P Require Import Prelude GoStrings GoSlices NetIP IPGuard DomainMatch GoPath PolicyTypes PushRules EgressPolicy DomEntry Grants GrantBounds Leq LeqSound Meet.
Local Open Scope string_scope.
Local Open Scope Z_scope.
Local Open Scope wardyn_scope.

(** ** Events *)

Lemma wbind_fst {A B} (m : W A) (k : A -> W B) : fst (wbind m k) = fst (k (fst m)).
Proof. unfold wbind. destruct m as [x e]. cbn. by destruct (k x). Qed.

Lemma wbind_snd {A B} (m : W A) (k : A -> W B) : snd (wbind m k) = (snd m ++ snd (k (fst m)))%list.
Proof. unfold wbind. destruct m as [x e]. cbn. by destruct (k x). Qed.

Definition noFail (evs : list event) : Prop := firstFail false evs = None.

Lemma noFail_app a b : noFail (a ++ b)%list <-> noFail a /\ noFail b.
Proof. unfold noFail. induction a as [|[r f|f] a IH]; cbn; [tauto | split; [done | intros [? _]; done] | done]. Qed.

Lemma noFail_failIf b r f : noFail (failIf b r f) <-> b = false.
Proof. unfold noFail, failIf. destruct b; cbn; done. Qed.

Lemma firstFail_strict evs : firstFail true evs = None <-> evs = [].
Proof. destruct evs as [|[r f|f] evs]; cbn; done. Qed.

Lemma clean_events evs : noFail evs -> warnings evs = [] -> evs = [].
Proof. unfold noFail, warnings. destruct evs as [|[r f|f] evs]; cbn; done. Qed.

Section MeetSound.
Context {U : GoUnicode} (eff : ResourceLimits).

(** The two readings of one overlay agree: a write accepts an overlay exactly
    when a resolve applies it with no warning at all. *)
Theorem validate_iff_applies_cleanly base ov :
  ValidateOverlay eff base ov = None <-> exists out, ApplyOverlay eff base ov = inl (out, []).
Proof.
  unfold ValidateOverlay, ApplyOverlay, run. destruct (meetAll eff base ov) as [out evs] eqn:Em. split.
  - destruct (firstFail true (validatePresence ov)) eqn:E1; [done|]. apply firstFail_strict in E1 as ->.
    cbn [firstFail app snd]. intros ->%firstFail_strict. cbn. eauto.
  - intros [o H]. destruct (firstFail false (validatePresence ov)) eqn:E1; [done|].
    destruct (firstFail false (validatePresence ov ++ evs)%list) eqn:E2; [done|]. injection H as <- Hw.
    pose proof (clean_events _ E2 Hw) as Hnil. apply app_nil in Hnil as [-> ->]. done.
Qed.

(** ** Bounds *)

Lemma looser_false o b : looser o b = false <-> b <= 0 \/ (0 < o <= b).
Proof.
  unfold looser. destruct (Z.leb_spec b 0); [split; [lia | done]|].
  destruct (Z.leb_spec o 0), (Z.gtb_spec o b); cbn [orb]; split; intros; try done; lia.
Qed.

Lemma notLooser_spec a b : notLooser a b = true <-> b <= 0 \/ (0 < a <= b).
Proof. unfold notLooser. rewrite negb_true_iff. apply looser_false. Qed.

Lemma notLooser_refl a : notLooser a a = true.
Proof. apply notLooser_spec. lia. Qed.

Lemma tightest_notLooser b v : notLooser (tightest b v) b = true.
Proof. apply notLooser_spec. unfold tightest. destruct (Z.leb_spec b 0), (Z.leb_spec v 0); lia. Qed.

Lemma meetBound_notLooser f b ov : notLooser (fst (meetBound f b ov)) b = true.
Proof. destruct ov; [apply tightest_notLooser | apply notLooser_refl]. Qed.

Lemma autoStopMeet_notLooser b v : notLooser (autoStopMeet b v) b = true.
Proof.
  unfold autoStopMeet. destruct (Z.leb_spec b 0); cbn [andb]; [apply notLooser_spec; by left | apply tightest_notLooser].
Qed.

Lemma meetSize_leq f b ov def : leqSize (fst (meetSize f b ov def)) b def = true.
Proof.
  unfold leqSize. destruct ov as [v|]; [|apply notLooser_refl]. cbn [meetSize named fst].
  apply notLooser_spec. unfold normSize, tightest. destruct (Z.leb_spec b 0), (Z.leb_spec v 0); repeat case_match; bool_prop; lia.
Qed.

Lemma meetNorm_le norm f b v lo hi :
  0 < lo <= hi -> (forall x, lo <= x <= hi -> norm x = x) -> (forall x, lo <= norm x <= hi) ->
  norm (fst (meetNorm norm f b v)) <= norm b.
Proof. intros H1 H2 H3. cbn. pose proof (H3 b). pose proof (H3 v). rewrite H2; lia. Qed.

Lemma normFirstUseHold_range x : 1 <= normFirstUseHold x <= 600 /\ (1 <= x <= 600 -> normFirstUseHold x = x).
Proof. unfold normFirstUseHold, defaultFirstUseHoldSec, maxHoldSec. destruct (Z.leb_spec x 0); lia. Qed.
Lemma normMaxHolds_range x : 1 <= normMaxHolds x <= 256 /\ (1 <= x <= 256 -> normMaxHolds x = x).
Proof. unfold normMaxHolds, defaultHolds, holdsCeiling. destruct (Z.leb_spec x 0); lia. Qed.
Lemma normPushHold_range x : 1 <= normPushHold x <= 600 /\ (1 <= x <= 600 -> normPushHold x = x).
Proof. unfold normPushHold, defaultPushHoldSec, maxHoldSec. destruct (Z.leb_spec x 0); lia. Qed.

Lemma firstUseHold_meet f b o : normFirstUseHold (fst (named o b (meetNorm normFirstUseHold f b))) <= normFirstUseHold b.
Proof.
  destruct o as [v|]; cbn [named fst wret]; [|lia]. apply (meetNorm_le _ _ _ _ 1 600); [lia | |]; intros x; apply normFirstUseHold_range.
Qed.
Lemma maxHolds_meet f b o : normMaxHolds (fst (named o b (meetNorm normMaxHolds f b))) <= normMaxHolds b.
Proof.
  destruct o as [v|]; cbn [named fst wret]; [|lia]. apply (meetNorm_le _ _ _ _ 1 256); [lia | |]; intros x; apply normMaxHolds_range.
Qed.
Lemma pushHold_meet f b o : normPushHold (fst (named o b (meetNorm normPushHold f b))) <= normPushHold b.
Proof.
  destruct o as [v|]; cbn [named fst wret]; [|lia]. apply (meetNorm_le _ _ _ _ 1 600); [lia | |]; intros x; apply normPushHold_range.
Qed.

(** ** Domains *)

(** Every entry reads, and is a name or a dotted address. *)
Definition readableName (d : string) : bool := match parseDomEntry d with Some e => nameOK e | None => false end.

Lemma elem_of_meetEntries base over e :
  e ∈ meetEntries base over <-> exists b o, b ∈ base /\ o ∈ over /\ intersect b o = Some e.
Proof.
  unfold meetEntries. rewrite list_elem_of_In, in_concat. setoid_rewrite in_map_iff. split.
  - intros (l & (b & <- & Hb) & He). apply list_elem_of_In, list_elem_of_omap in He as (o & Ho & E).
    exists b, o. split_and!; [by apply list_elem_of_In | done | done].
  - intros (b & o & Hb & Ho & E). eexists. split; [exists b; split; [done | by apply list_elem_of_In]|].
    apply list_elem_of_In, list_elem_of_omap. eauto.
Qed.

Lemma intersect_nameOK b o e : nameOK b = true -> nameOK o = true -> intersect b o = Some e -> nameOK e = true.
Proof.
  rewrite intersect_port. unfold meetPort. intros Hb Ho H.
  assert (Hhost : forall w h p, nameOK (mkDom w h p) = true -> forall q, 0 <= q <= 65535 -> nameOK (mkDom w h q) = true).
  { unfold nameOK. cbn [d_host d_port d_wild]. intros w h p Hn q Hq. repeat (apply andb_prop in Hn as [Hn ?]).
    rewrite (proj2 (Z.leb_le 0 q)), (proj2 (Z.leb_le q 65535)) by lia. by repeat (apply andb_true_intro; split). }
  assert (Hp : forall x, nameOK x = true -> 0 <= d_port x <= 65535) by (unfold nameOK; intros x Hx; bool_prop; lia).
  pose proof (Hp b Hb). pose proof (Hp o Ho). destruct b as [wb hb pb], o as [wo ho po]. cbn [d_wild d_host d_port] in *.
  destruct (pb =? 0), (negb (po =? 0) && negb (po =? pb)); try done;
    (destruct wb, wo; cbn [andb negb] in H; try done; repeat case_match; simplify_eq; by eapply Hhost).
Qed.

Lemma parsed_nameOK l : forallb nameEntry l = true -> forall e, e ∈ parsedEntries l -> nameOK e = true.
Proof.
  rewrite forallb_forall. intros H e (d & Hd & E)%elem_of_parsed. apply list_elem_of_In, H in Hd.
  unfold nameEntry in Hd. by rewrite E in Hd.
Qed.

Lemma readable_nameEntry l : forallb readableName l = true -> forallb nameEntry l = true.
Proof.
  rewrite !forallb_forall. intros H d Hd%H. unfold readableName, nameEntry in *. by destruct (parseDomEntry d).
Qed.

Lemma meetEntries_nameOK base ov :
  forallb nameEntry base = true -> forallb nameEntry ov = true ->
  forallb nameOK (meetEntries (parsedEntries base) (parsedEntries ov)) = true.
Proof.
  intros Hb Ho. apply forallb_forall. intros e (b & o & H1 & H2 & H3)%list_elem_of_In%elem_of_meetEntries.
  eapply intersect_nameOK; [by eapply (parsed_nameOK base) | by eapply (parsed_nameOK ov) | done].
Qed.

Lemma minimise_parse es s : forallb nameOK es = true -> s ∈ minimise es -> exists e, e ∈ es /\ parseDomEntry s = Some e.
Proof.
  intros Hn (e & He & ->)%minimise_sub. exists e. split; [done|]. apply domString_roundtrip.
  rewrite forallb_forall in Hn. by apply Hn, list_elem_of_In.
Qed.

Lemma meetAllowedDomains_leq base ov :
  forallb nameEntry base = true -> forallb nameEntry ov = true ->
  leqAllowedDomains (fst (meetAllowedDomains base ov)) base = true.
Proof.
  intros Hb Ho. apply leqAllowedDomains_spec. intros d Hd. cbn [meetAllowedDomains fst] in Hd.
  apply minimise_parse in Hd as (e & He & Ed); [|by apply meetEntries_nameOK].
  apply elem_of_meetEntries in He as (b & o & (d' & ? & ?)%elem_of_parsed & _ & Hi). apply intersect_covered in Hi as [Hc _].
  exists e, b, d'. done.
Qed.

Lemma leqAllowed_refl l : forallb readableName l = true -> leqAllowedDomains l l = true.
Proof.
  rewrite forallb_forall. intros H. apply leqAllowedDomains_spec. intros d Hd. pose proof (H d) as Hr. unfold readableName in Hr.
  destruct (parseDomEntry d) as [e|] eqn:E; [|exfalso; by specialize (Hr (proj1 (list_elem_of_In _ _) Hd))].
  exists e, e, d. split_and!; try done. apply covers_refl.
Qed.

Lemma leqDenied_intro a b :
  forallb readableName b = true -> (forall d e, d ∈ b -> parseDomEntry d = Some e -> exists d', d' ∈ a /\ parseDomEntry d' = Some e) ->
  leqDeniedDomains a b = true.
Proof.
  intros Hr H. unfold leqDeniedDomains. apply forallb_forall. intros d Hd. rewrite forallb_forall in Hr. pose proof (Hr d Hd) as Hrd.
  unfold readableName in Hrd. destruct (parseDomEntry d) as [e|] eqn:E; [|done]. apply containsFunc_true. exists e.
  split; [|apply covers_refl]. apply elem_of_parsed. eapply H; [by apply list_elem_of_In | done].
Qed.

Lemma unionDenied_leq base ov : forallb readableName base = true -> leqDeniedDomains (unionDenied base ov) base = true.
Proof.
  intros Hr. apply leqDenied_intro; [done|]. intros d e Hd E. exists (domString e). split.
  - unfold unionDenied. apply elem_of_sortCompact, list_elem_of_omap. exists d. split; [apply elem_of_app; by left|].
    unfold deniedSpelling. by rewrite E.
  - apply domString_roundtrip. rewrite forallb_forall in Hr. apply list_elem_of_In, Hr in Hd. unfold readableName in Hd. by rewrite E in Hd.
Qed.

Lemma leqDenied_refl l : forallb readableName l = true -> leqDeniedDomains l l = true.
Proof. intros H. apply leqDenied_intro; [done|]. eauto. Qed.

Lemma meetAllowed_matches base ov host port :
  forallb nameEntry base = true -> forallb nameEntry ov = true ->
  anyEntryMatches (fst (meetAllowedDomains base ov)) host port = true <->
  exists b o, b ∈ parsedEntries base /\ o ∈ parsedEntries ov /\ d_wild b = d_wild o /\
    entMatches b host port = true /\ entMatches o host port = true.
Proof.
  intros Hb Ho. rewrite anyEntryMatches_parse. cbn [meetAllowedDomains fst]. pose proof (meetEntries_nameOK _ _ Hb Ho) as Hn. split.
  - intros (d & e & Hd & E & Hm). apply minimise_parse in Hd as (e' & He & E'); [|done]. rewrite E in E'. injection E' as <-.
    apply elem_of_meetEntries in He as (b & o & ? & ? & Hi). exists b, o. pose proof (intersect_matches _ _ _ host port Hi) as Hx.
    rewrite Hm in Hx. symmetry in Hx. apply andb_prop in Hx as [? ?]. split_and!; try done.
    apply intersect_covered in Hi as [(-> & _)%covers_spec (-> & _)%covers_spec]. done.
  - intros (b & o & Hbi & Hoi & Hw & Hmb & Hmo). destruct (intersect b o) as [e|] eqn:Ei.
    2:{ exfalso. by eapply intersect_None. }
    assert (He : e ∈ meetEntries (parsedEntries base) (parsedEntries ov)) by (apply elem_of_meetEntries; eauto).
    destruct (minimise_covers _ _ Hn He) as (f & Hf & Hs & Hc). exists (domString f), f. split_and!; [done | |].
    + apply domString_roundtrip. rewrite forallb_forall in Hn. by apply Hn, list_elem_of_In.
    + eapply covers_matches; [done|]. by rewrite (intersect_matches _ _ _ host port Ei), Hmb, Hmo.
Qed.

(** The composed allowlist admits exactly the requests an entry of the base
    and an entry of the overlay of the same kind (two names, or two wildcards)
    both match: nothing is added and, after entries covered by others are dropped
    and the rest spelled canonically, nothing is lost. *)
Theorem overlay_allowlist_is_exact base ov host port :
  forallb nameEntry base = true -> forallb nameEntry ov = true ->
  anyEntryMatches (fst (meetAllowedDomains base ov)) host port = true <->
  exists b o, b ∈ parsedEntries base /\ o ∈ parsedEntries ov /\ d_wild b = d_wild o /\
    entMatches b host port = true /\ entMatches o host port = true.
Proof. apply meetAllowed_matches. Qed.

(** ** Methods *)

Lemma trimLeft_map f g s : (forall c, f (g c) = f c) -> trimLeftFunc f (str_map g s) = str_map g (trimLeftFunc f s).
Proof. intros H. induction s as [|c s IH]; [done|]. cbn. rewrite H. by destruct (f c). Qed.

Lemma trimRight_map f g s : (forall c, f (g c) = f c) -> trimRightFunc f (str_map g s) = str_map g (trimRightFunc f s).
Proof.
  intros H. induction s as [|c s IH]; [done|]. cbn. rewrite H, IH. destruct (trimRightFunc f s); cbn; [by destruct (f c) | done].
Qed.

Lemma trimRight_idem f s : trimRightFunc f (trimRightFunc f s) = trimRightFunc f s.
Proof.
  induction s as [|c s IH]; [done|]. cbn. destruct (trimRightFunc f s) as [|c' s'] eqn:E.
  - destruct (f c) eqn:Ef; [done|]. cbn. by rewrite Ef.
  - cbn in IH |- *. by rewrite IH.
Qed.

Lemma trim_idem f s : trimLeftFunc f (trimRightFunc f (trimLeftFunc f s)) = trimRightFunc f (trimLeftFunc f s).
Proof.
  induction s as [|c s IH]; [done|]. cbn [trimLeftFunc]. destruct (f c) eqn:Ef; [done|].
  cbn [trimRightFunc]. rewrite Ef. destruct (trimRightFunc f s); cbn; by rewrite Ef.
Qed.

Lemma str_forall_trimLeft f g s : str_forall g s = true -> str_forall g (trimLeftFunc f s) = true.
Proof. induction s as [|c s IH]; [done|]. cbn. intros [Hc Hs]%andb_prop. destruct (f c); [by apply IH | cbn; by rewrite Hc, Hs]. Qed.

Lemma str_forall_trimRight f g s : str_forall g s = true -> str_forall g (trimRightFunc f s) = true.
Proof.
  induction s as [|c s IH]; [done|]. cbn. intros [Hc Hs]%andb_prop. specialize (IH Hs).
  destruct (trimRightFunc f s); [destruct (f c); cbn; by rewrite ?Hc | cbn in *; by rewrite Hc, IH].
Qed.

Lemma upper_ascii c : is_ascii c = true -> is_ascii (upper_byte c) = true /\ upper_byte (upper_byte c) = upper_byte c.
Proof. destruct c as [[] [] [] [] [] [] [] []]; (done || by intros _). Qed.

Lemma upper_space c : is_space (upper_byte c) = is_space c.
Proof. by destruct c as [[] [] [] [] [] [] [] []]. Qed.

Lemma str_map_upper s : str_forall is_ascii s = true ->
  str_forall is_ascii (str_map upper_byte s) = true /\ str_map upper_byte (str_map upper_byte s) = str_map upper_byte s.
Proof.
  induction s as [|c s IH]; [done|]. cbn. intros [Hc Hs]%andb_prop. apply upper_ascii in Hc as [-> ->].
  destruct (IH Hs) as [-> ->]. done.
Qed.

Lemma method_idem s : str_forall is_ascii s = true ->
  ToUpper (TrimSpace (ToUpper (TrimSpace s))) = ToUpper (TrimSpace s).
Proof.
  intros Ha. unfold TrimSpace at 2 3. rewrite Ha. set (t := trimSpaceASCII s).
  assert (Ht : str_forall is_ascii t = true) by (by apply str_forall_trimRight, str_forall_trimLeft).
  unfold ToUpper at 2 3. rewrite Ht. destruct (str_map_upper t Ht) as [Hm1 Hm2].
  unfold TrimSpace. rewrite Hm1. unfold trimSpaceASCII. rewrite trimLeft_map, trimRight_map by apply upper_space.
  unfold t, trimSpaceASCII. rewrite trim_idem, trimRight_idem. fold (trimSpaceASCII s). fold t. unfold ToUpper. by rewrite Hm1.
Qed.

Lemma normMethods_idem l m : forallb (str_forall is_ascii) l = true -> m ∈ normMethods l -> ToUpper (TrimSpace m) = m.
Proof.
  rewrite forallb_forall. intros H (s & Hs & <- & _)%elem_of_normMethods. apply method_idem, H. by apply list_elem_of_In.
Qed.

Lemma elem_of_both base ov s : s ∈ both base ov <-> s ∈ ov /\ s ∈ base.
Proof. unfold both. rewrite list_elem_of_In, filter_In, <- list_elem_of_In, memS_true. tauto. Qed.

Lemma meetAllowList_both f base ov : noFail (meetAllowList f base ov) -> both base ov <> [].
Proof. unfold meetAllowList, noFail. by destruct (both base ov). Qed.

Lemma leqSubset_refl l : leqSubsetWhenSet l l = true.
Proof. unfold leqSubsetWhenSet. destruct l as [|x l]; [done|]. cbn [nonempty negb andb]. by apply subsetS_spec. Qed.

Lemma nonempty_elem {A} (l : list A) x : x ∈ l -> nonempty l = true.
Proof. by destruct l; [intros ?%not_elem_of_nil|]. Qed.

Lemma leqSubset_intro a b : (exists s, s ∈ a) -> (forall s, s ∈ a -> s ∈ b) -> leqSubsetWhenSet a b = true.
Proof.
  intros [s Hs] H. unfold leqSubsetWhenSet. rewrite (nonempty_elem _ _ Hs), (nonempty_elem b s) by auto. cbn. by apply subsetS_spec.
Qed.

Lemma meetMethods_leq base ov :
  forallb (str_forall is_ascii) ov = true -> noFail (snd (meetMethods base (normMethods ov))) ->
  leqSubsetWhenSet (normMethods (fst (meetMethods base (normMethods ov)))) (normMethods base) = true.
Proof.
  intros Ha. unfold meetMethods. destruct (nonempty (normMethods base)) eqn:E; cbn [negb fst snd].
  2:{ intros _. unfold leqSubsetWhenSet. by rewrite E. }
  intros Hn%meetAllowList_both. apply leqSubset_intro.
  - destruct (both _ _) as [|m l] eqn:Eb; [done|]. assert (Hm : m ∈ both (normMethods base) (normMethods ov)) by (rewrite Eb; left).
    rewrite <- Eb. exists m. apply elem_of_normMethods. exists m. split; [done|]. apply elem_of_both in Hm as [Hm _].
    split; [by eapply normMethods_idem | by apply elem_of_normMethods in Hm as (_ & _ & _ & ?)].
  - intros m (x & [Hx1 Hx2]%elem_of_both & <- & _)%elem_of_normMethods. by rewrite (normMethods_idem ov).
Qed.

(** ** Egress *)

Lemma meetFirstUse_rank base o :
  firstUseApprovalRank base <= firstUseApprovalRank (fst (named o base (meetFirstUse base))).
Proof.
  destruct o as [v|]; cbn [named fst wret meetFirstUse]; [|lia].
  assert (H : forall m, firstUseApprovalRank (normalizeFirstUse m) = firstUseApprovalRank m).
  { intros m. assert (E : normalizeFirstUse (normalizeFirstUse m) = normalizeFirstUse m);
      [|unfold firstUseApprovalRank; by rewrite E].
    unfold normalizeFirstUse at 2 3. destruct (String.eqb m FirstUseAlwaysDeny || _ || _) eqn:E; [|done].
    unfold normalizeFirstUse. by rewrite E. }
  destruct (Z.gtb_spec (firstUseApprovalRank (normalizeFirstUse v)) (firstUseApprovalRank (normalizeFirstUse base))); rewrite !H in *; lia.
Qed.

(** What the theorems ask of an overlay: its allowlist entries are names, its
    methods are ASCII, and it adds no detector sidecar. *)
Definition plainOverlay (o : CeilingOverlay) : bool :=
  forallb nameEntry (default [] (o_AllowedDomains o)) && forallb (str_forall is_ascii) (default [] (o_AllowedMethods o)) &&
  match o_LLMInspection o with Some l => String.eqb (TrimSpace (DetectorSidecarURL l)) "" | None => true end.

(** What they ask of the base: every domain entry reads as a name, and no two
    mounts share a source and target. *)
Definition plainCeiling (c : RunPolicySpec) : bool :=
  forallb readableName (AllowedDomains c) && forallb readableName (DeniedDomains c) &&
  bool_decide (NoDup (map mountKey (WorkspaceMounts c))).

Lemma meetEgress_leq o c :
  plainCeiling c = true -> plainOverlay o = true -> noFail (snd (meetEgress o c)) ->
  leqEgress (fst (meetEgress o c)) c = true.
Proof.
  intros [[Hca Hcd]%andb_prop _]%andb_prop [[Ho1 Ho2]%andb_prop _]%andb_prop. unfold meetEgress.
  rewrite !wbind_fst, !wbind_snd, !noFail_app. cbn [fst snd wret].
  intros (_ & _ & _ & _ & _ & _ & Hm & _). unfold leqEgress.
  cbn [AllowAllEgress FirstUseApproval FirstUseHoldSeconds MaxHolds AllowedDomains DeniedDomains AllowedMethods].
  pose proof (meetFirstUse_rank (FirstUseApproval c) (o_FirstUseApproval o)).
  pose proof (firstUseHold_meet "first_use_hold_seconds" (FirstUseHoldSeconds c) (o_FirstUseHoldSeconds o)).
  pose proof (maxHolds_meet "max_holds" (MaxHolds c) (o_MaxHolds o)).
  rewrite (proj2 (Z.ltb_ge _ _)) by done. rewrite !Z.gtb_ltb, !(proj2 (Z.ltb_ge _ _)) by done. cbn [orb].
  assert (fst (named (o_AllowAllEgress o) (AllowAllEgress c) (meetFlagAnd "allow_all_egress" (AllowAllEgress c))) && negb (AllowAllEgress c) = false) as ->
    by (destruct (o_AllowAllEgress o) as [[]|], (AllowAllEgress c); done).
  repeat (apply andb_true_intro; split).
  - destruct (o_AllowedDomains o) as [l|]; cbn [named default] in *; [|by apply leqAllowed_refl].
    apply meetAllowedDomains_leq; [by apply readable_nameEntry | done].
  - destruct (o_DeniedDomains o) as [l|]; cbn [named fst wret]; [by apply unionDenied_leq | by apply leqDenied_refl].
  - destruct (o_AllowedMethods o) as [l|]; cbn [named default] in *; [by apply meetMethods_leq | apply leqSubset_refl].
Qed.


(** ** Posture *)

Lemma sameMount_key x m : sameMount x m = true <-> mountKey x = mountKey m.
Proof. unfold sameMount, mountKey. rewrite andb_true_iff, !String.eqb_eq. split; [intros [-> ->]; done | by intros [= -> ->]]. Qed.

Lemma leqMounts_refl l : NoDup (map mountKey l) -> leqMounts l l = true.
Proof.
  intros Hd. unfold leqMounts. apply forallb_forall. intros m Hm%list_elem_of_In.
  destruct (findFirst (fun x => sameMount x m) l) as [x|] eqn:E.
  - apply findFirst_Some in E as [Hx Hk%sameMount_key].
    assert (x = m) as ->; [|by destruct (ReadOnlyOrDefault m)].
    apply list_elem_of_lookup in Hx as [i Hi], Hm as [j Hj].
    assert (i = j) as ->; [|congruence].
    apply (NoDup_lookup (map mountKey l) i j (mountKey x)); [done | |]; rewrite list_lookup_fmap, ?Hi, ?Hj; cbn; congruence.
  - exfalso. eapply findFirst_None in E; [|exact Hm]. assert (sameMount m m = true) by (by apply sameMount_key). congruence.
Qed.

Lemma meetMountsLoop_spec base ov seen m :
  m ∈ fst (meetMountsLoop base ov seen) ->
  exists b, findFirst (fun x => sameMount x m) base = Some b /\ (ReadOnlyOrDefault b = true -> ReadOnlyOrDefault m = true).
Proof.
  revert seen. induction ov as [|o ov IH]; intros seen; cbn [meetMountsLoop]; [by intros ?%not_elem_of_nil|].
  destruct (findFirst (fun b => sameMount b o) base) as [b|] eqn:Ef.
  - destruct (bool_decide _).
    + specialize (IH seen). destruct (meetMountsLoop base ov seen). done.
    + specialize (IH (mountKey o :: seen)). destruct (meetMountsLoop base ov (mountKey o :: seen)) as [l ev]. cbn [fst] in *.
      intros [->|Hm]%elem_of_cons; [|by apply IH]. exists b. split; [done|].
      unfold ReadOnlyOrDefault at 2. cbn [ReadOnly default from_option id]. intros ->. done.
  - specialize (IH seen). destruct (meetMountsLoop base ov seen). done.
Qed.

Lemma meetMounts_leq base ov : leqMounts (fst (meetMounts base ov)) base = true.
Proof.
  unfold leqMounts, meetMounts. rewrite wbind_fst. cbn [wret fst]. apply forallb_forall. intros m Hm%list_elem_of_In%elem_of_sortBy.
  apply meetMountsLoop_spec in Hm as (b & -> & H). destruct (ReadOnlyOrDefault b); [by rewrite H | done].
Qed.

Lemma meetReposLoop_spec base ov out r : r ∈ fst (meetReposLoop base ov out) -> r ∈ out \/ r ∈ base.
Proof.
  revert out. induction ov as [|o ov IH]; intros out; cbn [meetReposLoop]; [by left|].
  destruct (bool_decide (o ∈ base)) eqn:E; cbn [negb].
  - intros [H|H]%IH; [|by right]. destruct (bool_decide (o ∈ out)); [by left|].
    apply elem_of_app in H as [H| ->%list_elem_of_singleton]; [by left | right; by apply bool_decide_eq_true in E].
  - specialize (IH out). destruct (meetReposLoop base ov out). done.
Qed.

Lemma leqRepos_intro a b : (forall r, r ∈ a -> r ∈ b) -> leqWorkspaceRepos a b = true.
Proof.
  intros H. unfold leqWorkspaceRepos. apply negb_true_iff, containsFunc_false. intros r Hr%H. by apply negb_false_iff, bool_decide_eq_true.
Qed.

Lemma meetRepos_leq base ov : leqWorkspaceRepos (fst (meetRepos base ov)) base = true.
Proof.
  apply leqRepos_intro. unfold meetRepos. rewrite wbind_fst. cbn [wret fst]. intros r Hr%elem_of_sortBy.
  apply meetReposLoop_spec in Hr as [?%not_elem_of_nil|?]; done.
Qed.

Lemma meetLLM_leq base o :
  match o with Some l => String.eqb (TrimSpace (DetectorSidecarURL l)) "" | None => true end = true ->
  leqLLMInspection (fst (named o base (meetLLM base))) base = true.
Proof.
  intros H. destruct o as [l|], base as [b|]; cbn [named meetLLM fst wret leqLLMInspection]; try done; by apply bool_decide_eq_true.
Qed.

(** One app is within a list. *)
Definition appWithin (app : UIApp) (b : list UIApp) : bool :=
  containsFunc (fun x =>
    String.eqb (AppName x) (AppName app) && (AppPort x =? AppPort app) && String.eqb (PathOrRoot x) (PathOrRoot app) &&
    (negb (Inbound app) || (Inbound x && subsetS (Callers app) (Callers x)))) b.

Lemma leqUIApps_intro a b : (b <> [] -> a <> []) -> (forall x, x ∈ a -> appWithin x b = true) -> leqUIApps a b = true.
Proof.
  intros Hne H. unfold leqUIApps. replace (negb (nonempty a) && nonempty b) with false by (destruct a, b; cbn in *; naive_solver).
  apply forallb_forall. intros x Hx%list_elem_of_In. by apply H.
Qed.

Lemma appWithin_self x l : x ∈ l -> appWithin x l = true.
Proof.
  intros Hx. apply containsFunc_true. exists x. split; [done|]. rewrite !String.eqb_refl, Z.eqb_refl. cbn [andb].
  destruct (Inbound x); cbn [negb orb andb]; [by apply subsetS_spec | done].
Qed.

Lemma meetUIAppsLoop_spec base ov out x :
  x ∈ fst (meetUIAppsLoop base ov out) -> x ∈ out \/ appWithin x base = true.
Proof.
  revert out. induction ov as [|o ov IH]; intros out; cbn [meetUIAppsLoop]; [by left|].
  assert (Hskip : x ∈ fst (let '(l, ev) := meetUIAppsLoop base ov out in (l, EvWiden "ui_apps" :: ev)) -> x ∈ out \/ appWithin x base = true).
  { specialize (IH out). by destruct (meetUIAppsLoop base ov out). }
  destruct (findFirst (fun b => sameApp b o) base) as [b|] eqn:Ef; [|done].
  destruct (String.eqb_spec (PathOrRoot b) (PathOrRoot o)) as [Hp|Hp]; cbn [negb]; [|done].
  destruct (meetUIApp b o) as [app w] eqn:Ea. set (out' := if containsFunc _ out then out else (out ++ [app])%list).
  specialize (IH out'). destruct (meetUIAppsLoop base ov out') as [l ev]. cbn [fst] in *. intros [H|H]%IH; [|by right].
  unfold out' in H. destruct (containsFunc _ out); [by left|]. apply elem_of_app in H as [H| ->%list_elem_of_singleton]; [by left | right].
  apply findFirst_Some in Ef as [Hb Hs]. unfold sameApp in Hs. apply andb_prop in Hs as [Hn Hpt].
  injection Ea as <- _. apply containsFunc_true. exists b. split; [done|].
  cbn [AppName AppPort AppPath Inbound Callers]. unfold PathOrRoot at 2. cbn [AppPath]. fold (PathOrRoot b). rewrite Hn, Hpt, String.eqb_refl. cbn [andb].
  destruct (Inbound b), (Inbound o); cbn [andb negb orb]; try done. apply subsetS_spec. intros c Hc.
  apply list_elem_of_In, filter_In in Hc as [_ Hc]. by apply memS_true.
Qed.

Lemma sortBy_nil {A} (leb : A -> A -> bool) l : sortBy leb l = [] -> l = [].
Proof.
  intros H. apply nil_of_no_elem. intros x Hx. apply (elem_of_sortBy leb) in Hx. rewrite H in Hx. by apply not_elem_of_nil in Hx.
Qed.

Lemma meetUIApps_leq base ov :
  noFail (snd (meetUIApps base ov)) -> leqUIApps (fst (fst (meetUIApps base ov))) base = true.
Proof.
  unfold meetUIApps. destruct (negb (nonempty ov) && nonempty base); cbn [fst snd wret].
  { intros _. apply leqUIApps_intro; [done|]. intros x. apply appWithin_self. }
  pose proof (meetUIAppsLoop_spec base ov []) as Hspec. destruct (meetUIAppsLoop base ov []) as [l ev]. cbn [fst snd] in *.
  rewrite noFail_app, noFail_failIf. intros [_ Hf]. apply leqUIApps_intro.
  - intros Hb Hl%sortBy_nil. subst l. destruct base; done.
  - intros x Hx%elem_of_sortBy. apply Hspec in Hx as [?%not_elem_of_nil|?]; done.
Qed.

Lemma meetResources_leq base o : leqResources eff (fst (meetResources eff base o)) base = true.
Proof.
  unfold meetResources. rewrite !wbind_fst. cbn [fst wret]. set (r := mkRes _ _ _ _).
  assert (Hr : default zeroRes (if decide (r = zeroRes) then None else Some r) = r) by (destruct (decide (r = zeroRes)); [done | done]).
  unfold leqResources. rewrite Hr. unfold r. cbn [CPUMillis MemoryMiB PidsLimit DiskMiB].
  repeat (apply andb_true_intro; split); apply meetSize_leq.
Qed.

Lemma leqResources_refl r : leqResources eff r r = true.
Proof. unfold leqResources, leqSize. repeat (apply andb_true_intro; split); apply notLooser_refl. Qed.

(** ** Tools *)

Lemma toolEffects_fun (f : string -> string) rs t :
  (forall r, r ∈ rs -> Effect r = f (Tool r)) ->
  toolEffects rs !! t = if bool_decide (t ∈ map Tool rs) then Some (f t) else None.
Proof.
  unfold toolEffects. induction rs as [|r rs IH] using rev_ind; intros H; [cbn [fold_left]; by rewrite lookup_empty|].
  rewrite fold_left_app. cbn [fold_left]. rewrite map_app.
  assert (Hr : Effect r = f (Tool r)) by (apply H, elem_of_app; right; by apply list_elem_of_singleton).
  destruct (decide (Tool r = t)) as [<-|Hne].
  - rewrite lookup_insert_eq, bool_decide_eq_true_2, Hr; [done|]. apply elem_of_app. right. cbn. left.
  - rewrite lookup_insert_ne, IH by (done || (intros r' Hr'; apply H, elem_of_app; by left)).
    destruct (bool_decide (t ∈ map Tool rs)) eqn:E; symmetry.
    + rewrite bool_decide_eq_true_2; [done|]. apply bool_decide_eq_true in E. apply elem_of_app. by left.
    + rewrite bool_decide_eq_false_2; [done|]. apply bool_decide_eq_false in E. cbn. rewrite elem_of_app, list_elem_of_singleton. naive_solver.
Qed.

Lemma meetEffect_unnamed b o t :
  t ∉ (dom b : gset string) -> t ∉ (dom o : gset string) -> meetEffect b o t = meetEffect b o "*".
Proof. intros Hb%not_elem_of_dom Ho%not_elem_of_dom. unfold meetEffect. by rewrite !(effectFor_unnamed _ t). Qed.

Lemma meetToolRules_effect base ov t :
  nonempty base || nonempty ov = true ->
  effectFor (toolEffects (fst (meetToolRules base ov))) t = meetEffect (toolEffects base) (toolEffects ov) t.
Proof.
  intros Hne. unfold meetToolRules. replace (negb (nonempty base) && negb (nonempty ov)) with false
    by (destruct (nonempty base), (nonempty ov); done).
  cbn [fst]. set (b := toolEffects base). set (o := toolEffects ov). set (tools := elements _).
  set (rs := sortBy _ _).
  assert (Hmem : forall r, r ∈ rs <-> exists t, t ∈ tools /\ r = mkToolRule t (meetEffect b o t)).
  { intros r. unfold rs. rewrite elem_of_sortBy, list_elem_of_In, in_map_iff. setoid_rewrite <- list_elem_of_In. naive_solver. }
  assert (Hlook : forall t, toolEffects rs !! t = if bool_decide (t ∈ map Tool rs) then Some (meetEffect b o t) else None).
  { intros x. apply (toolEffects_fun (meetEffect b o)). intros r (y & _ & ->)%Hmem. done. }
  assert (Htools : forall x, x ∈ map Tool rs <-> x ∈ tools).
  { intros x. rewrite list_elem_of_In, in_map_iff. setoid_rewrite <- list_elem_of_In. setoid_rewrite Hmem. split.
    - intros (r & <- & y & Hy & ->). done.
    - intros Hx. exists (mkToolRule x (meetEffect b o x)). eauto. }
  assert (Hin : forall x, x ∈ tools <-> x = "*" \/ x ∈ (dom b : gset string) \/ x ∈ (dom o : gset string)).
  { intros x. unfold tools. rewrite elem_of_elements. set_solver. }
  assert (Hstar : toolEffects rs !! "*" = Some (meetEffect b o "*")).
  { rewrite Hlook, bool_decide_eq_true_2; [done|]. apply Htools, Hin. by left. }
  unfold effectFor at 1. rewrite Hlook. destruct (bool_decide (t ∈ map Tool rs)) eqn:E; [done|].
  rewrite Hstar. apply bool_decide_eq_false in E. rewrite Htools, Hin in E. cbn. symmetry. apply meetEffect_unnamed; tauto.
Qed.

Lemma meetEffect_strict b o t :
  toolStrictness (meetEffect b o t) = Z.max (toolStrictness (effectFor b t)) (toolStrictness (effectFor o t)).
Proof.
  unfold meetEffect. destruct (Z.gtb_spec (toolStrictness (effectFor o t)) (toolStrictness (effectFor b t))); lia.
Qed.

(** Composed tool rules give every tool, named or not, the stricter of the two
    effects (named rule, else the default rule, else hold) the base and the overlay
    give it. *)
Theorem overlay_tools_take_stricter base ov tool :
  nonempty base || nonempty ov = true ->
  toolStrictness (effectFor (toolEffects (fst (meetToolRules base ov))) tool) =
  Z.max (toolStrictness (effectFor (toolEffects base) tool)) (toolStrictness (effectFor (toolEffects ov) tool)).
Proof. intros H. rewrite meetToolRules_effect by done. apply meetEffect_strict. Qed.

Lemma meetToolRules_leq base ov : leqToolRules (fst (meetToolRules base ov)) base = true.
Proof.
  apply leqToolRules_spec. intros t. destruct (nonempty base || nonempty ov) eqn:E.
  - rewrite meetToolRules_effect, meetEffect_strict by done. lia.
  - destruct base, ov; try done.
Qed.

(** ** The remaining posture fields *)

Lemma leqCapabilities_refl l : leqCapabilities l l = true.
Proof. unfold leqCapabilities. destruct (nonempty l) eqn:E; [apply leqSubset_refl | done]. Qed.

Lemma meetCaps_leq f base want :
  noFail (snd (meetCaps f base want)) -> leqCapabilities (capStrings (fst (meetCaps f base want))) (capStrings base) = true.
Proof.
  unfold meetCaps, meetCapabilities. rewrite wbind_fst, wbind_snd. destruct (nonempty (capStrings base)) eqn:E; cbn [negb fst snd wret default].
  2:{ intros _. apply leqCapabilities_refl. }
  rewrite app_nil_r. intros Hn%meetAllowList_both. cbn [from_option id]. unfold leqCapabilities. rewrite E. cbn [negb].
  apply leqSubset_intro.
  - destruct (both _ _) as [|m l]; [done|]. exists m. apply elem_of_sortCompact. left.
  - intros x Hx. apply (proj1 (elem_of_sortCompact _ _)) in Hx. by apply elem_of_both in Hx as [_ ?].
Qed.

Lemma meetInnerWall_keeps f base over : base <> "" -> fst (meetInnerWall f base over) = base.
Proof. intros H. unfold meetInnerWall. destruct (String.eqb over ""); [done|]. by destruct (String.eqb_spec base ""). Qed.

Lemma meetInnerWalls_leq base o : leqInnerWalls (fst (meetInnerWalls base o)) base = true.
Proof.
  destruct base as [b|]; [|done]. unfold meetInnerWalls. rewrite !wbind_fst. cbn [fst wret default from_option id leqInnerWalls].
  set (s := fst (meetInnerWall _ _ _)). set (a := fst (meetInnerWall _ (PolicyTypes.Approvals b) _)).
  assert (Hs : SandboxMode b <> "" -> s = SandboxMode b) by (apply meetInnerWall_keeps).
  assert (Ha : PolicyTypes.Approvals b <> "" -> a = PolicyTypes.Approvals b) by (apply meetInnerWall_keeps).
  assert (Hx : default (mkWalls "" "") (if decide (mkWalls s a = mkWalls "" "") then Some b else Some (mkWalls s a)) = mkWalls s a \/
               b = mkWalls "" "").
  { destruct (decide _) as [[= Es Ea]|]; [right | by left]. destruct b as [sb ab]. cbn in Hs, Ha. f_equal.
    - destruct (decide (sb = "")); [done|]. specialize (Hs n). congruence.
    - destruct (decide (ab = "")); [done|]. specialize (Ha n). congruence. }
  destruct Hx as [-> | ->]; [|done]. cbn [SandboxMode PolicyTypes.Approvals].
  destruct (String.eqb_spec (SandboxMode b) ""), (String.eqb_spec (PolicyTypes.Approvals b) ""); cbn [orb andb]; rewrite ?Hs, ?Ha, ?String.eqb_refl by done; done.
Qed.

Lemma leqInnerWalls_refl w : leqInnerWalls w w = true.
Proof. destruct w as [w|]; [|done]. cbn. by rewrite !String.eqb_refl, !orb_true_r. Qed.

Lemma leqDesktop_refl d : leqDesktop d d = true.
Proof.
  unfold leqDesktop. destruct (desktopEffective d) as [p c u w]. cbn [PasteIn CopyOut Upload Download].
  assert (H : forall x, negb (String.eqb x TransferAllowed && String.eqb x TransferBlocked) = true).
  { intros x. destruct (String.eqb_spec x TransferAllowed) as [->|]; done. }
  by rewrite !H.
Qed.

Lemma meetDesktop_leq base o : leqDesktop (fst (meetDesktop base o)) base = true.
Proof.
  unfold leqDesktop, meetDesktop, desktopMeet. cbn [fst].
  destruct (desktopEffective base) as [p c u w], (desktopEffective (Some o)) as [p' c' u' w'].
  unfold desktopEffective. cbn [default from_option id PasteIn CopyOut Upload Download].
  assert (H : forall d x y, negb (String.eqb (cmpOrS (transferBlock x y) d) TransferAllowed && String.eqb x TransferBlocked) = true).
  { intros d x y. unfold transferBlock. by destruct (String.eqb x TransferBlocked), (String.eqb y TransferBlocked). }
  by rewrite !H.
Qed.

Lemma meetRecording_rank base o : recordingRank base <= recordingRank (fst (named o base (meetRecording base))).
Proof.
  destruct o as [v|]; cbn [named fst wret meetRecording]; [|lia]. unfold recordingAtLeast.
  destruct (Z.gtb_spec (recordingRank v) (recordingRank base)); lia.
Qed.

Lemma meetConfinement_rank base o : confinementRank base <= confinementRank (fst (named o base (meetConfinement base))).
Proof.
  destruct o as [v|]; cbn [named fst wret]; [|lia]. unfold meetConfinement.
  destruct (Z.gtb_spec (confinementRank v) (confinementRank base)) as [H|]; cbn [fst wret]; [|lia].
  enough (confinementRank (ToUpper (TrimSpace v)) = confinementRank v) by lia.
  unfold confinementRank in *. assert (H0 : forall c, 0 <= classRank c) by (intros c; unfold classRank; repeat case_match; lia).
  pose proof (H0 (ToUpper (TrimSpace base))). assert (Hpos : 0 < classRank (ToUpper (TrimSpace v))) by lia.
  unfold classRank in Hpos.
  destruct (String.eqb_spec (ToUpper (TrimSpace v)) "CC1") as [->|]; [done|].
  destruct (String.eqb_spec (ToUpper (TrimSpace v)) "CC2") as [->|]; [done|].
  destruct (String.eqb_spec (ToUpper (TrimSpace v)) "CC3") as [->|]; [done | lia].
Qed.

Lemma meetPosture_leq o c :
  NoDup (map mountKey (WorkspaceMounts c)) -> plainOverlay o = true -> noFail (snd (meetPosture eff o c)) ->
  (forall g, g ∈ EligibleGrants (fst (fst (meetPosture eff o c))) -> GrantWithin g (EligibleGrants c) = None) ->
  leqPosture eff (fst (fst (meetPosture eff o c))) c = true.
Proof.
  intros Hmt [_ Hllm]%andb_prop. unfold meetPosture.
  rewrite !wbind_fst, !wbind_snd, !noFail_app. cbn [fst snd wret].
  intros (_ & _ & _ & _ & _ & _ & Hui & _ & _ & _ & Hac & _ & _ & _ & Hgc & _) Hg. unfold leqPosture.
  cbn [MinConfinementClass AutoStopAfterSec GitPushAnyBranch AzureDevOpsCapabilities GitHubCapabilities EligibleGrants WorkspaceMounts
       WorkspaceRepos LLMInspection UIApps Resources ToolRules InnerWalls Desktop Recording] in *.
  pose proof (meetConfinement_rank (MinConfinementClass c) (o_MinConfinementClass o)).
  rewrite (proj2 (Z.ltb_ge _ _)) by done. cbn [orb].
  assert (notLooser (fst (named (o_AutoStopAfterSec o) (AutoStopAfterSec c) (fun v => (autoStopMeet (AutoStopAfterSec c) v,
            widenIf (looser v (AutoStopAfterSec c)) "auto_stop_after_sec")))) (AutoStopAfterSec c) = true) as ->
    by (destruct (o_AutoStopAfterSec o); [apply autoStopMeet_notLooser | apply notLooser_refl]).
  assert (fst (named (o_GitPushAnyBranch o) (GitPushAnyBranch c) (meetFlagAnd "git_push_any_branch" (GitPushAnyBranch c))) &&
          negb (GitPushAnyBranch c) = false) as -> by (destruct (o_GitPushAnyBranch o) as [[]|], (GitPushAnyBranch c); done).
  assert (leqCapabilities (capStrings (fst (named (o_AzureDevOpsCapabilities o) (AzureDevOpsCapabilities c)
            (meetCaps "azure_devops_capabilities" (AzureDevOpsCapabilities c))))) (capStrings (AzureDevOpsCapabilities c)) = true) as ->
    by (destruct (o_AzureDevOpsCapabilities o); [by apply meetCaps_leq | apply leqCapabilities_refl]).
  assert (leqCapabilities (capStrings (fst (named (o_GitHubCapabilities o) (GitHubCapabilities c)
            (meetCaps "github_capabilities" (GitHubCapabilities c))))) (capStrings (GitHubCapabilities c)) = true) as ->
    by (destruct (o_GitHubCapabilities o); [by apply meetCaps_leq | apply leqCapabilities_refl]).
  cbn [negb orb].
  match goal with |- context [containsFunc ?f ?l] => replace (containsFunc f l) with false end.
  2:{ symmetry. apply containsFunc_false. intros g Hin. rewrite Hg by done. by apply bool_decide_eq_false_2; intros [? ?]. }
  rewrite !andb_true_iff. split_and!.
  - destruct (o_WorkspaceMounts o); [apply meetMounts_leq | by apply leqMounts_refl].
  - destruct (o_WorkspaceRepos o); [apply meetRepos_leq | by apply leqRepos_intro].
  - by apply meetLLM_leq.
  - destruct (o_UIApps o) as [l|]; [by apply meetUIApps_leq|]. apply leqUIApps_intro; [done | intros x; apply appWithin_self].
  - destruct (o_Resources o); [apply meetResources_leq | apply leqResources_refl].
  - destruct (o_ToolRules o); [apply meetToolRules_leq | apply leqToolRules_spec; intros t; cbn [named wret fst]; lia].
  - destruct (o_InnerWalls o); [apply meetInnerWalls_leq | apply leqInnerWalls_refl].
  - destruct (o_Desktop o); [apply meetDesktop_leq | apply leqDesktop_refl].
  - apply Z.geb_le, meetRecording_rank.
Qed.

(** ** Push rules *)

Lemma elem_of_unionPaths a b s : s ∈ unionPaths a b <-> s ∈ a \/ s ∈ b.
Proof.
  unfold unionPaths. rewrite elem_of_sortStrings.
  rewrite (fold_left_elem (fun out s => if memS s out then out else (out ++ [s])%list) (fun l => s ∈ l) (fun x => x = s)).
  - split; [intros [?%not_elem_of_nil|(x & [?|?]%elem_of_app & ->)] | intros Hs; right; exists s; split; [by apply elem_of_app|]]; tauto.
  - intros l x. destruct (memS x l) eqn:E; [apply memS_true in E; naive_solver|]. rewrite elem_of_app, list_elem_of_singleton. naive_solver.
Qed.

Lemma paths_kept o base :
  containsAll (match o with None => base | Some v => unionPaths base v end) base = true.
Proof. apply subsetS_spec. intros s Hs. destruct o; [apply elem_of_unionPaths; by left | done]. Qed.

Lemma pushIsSet_spec p :
  pushIsSet (Some p) = true <->
  DenyPaths p <> [] \/ RequireReviewPaths p <> [] \/ 0 < MaxInspectPackMiB p \/ 0 < MaxFileSizeMiB p \/ DenyNewExecutables p = true \/ DenyAll p = true.
Proof.
  unfold pushIsSet. rewrite !orb_true_iff, !Z.gtb_lt. destruct (DenyPaths p), (RequireReviewPaths p); cbn [nonempty]; naive_solver.
Qed.

Lemma packCap_active p : pushIsSet (Some p) = true -> packCap p = if MaxInspectPackMiB p >? 0 then MaxInspectPackMiB p else 32.
Proof. unfold packCap. by intros ->. Qed.

Lemma containsAll_nonempty have want : containsAll have want = true -> want <> [] -> have <> [].
Proof.
  unfold containsAll. rewrite subsetS_spec. intros H Hw ->. destruct want as [|x l]; [done|].
  specialize (H x ltac:(left)). by apply not_elem_of_nil in H.
Qed.

(** A composed rule that keeps every axis of the base is set wherever the base's is. *)
Lemma pushIsSet_mono p r :
  containsAll (DenyPaths p) (DenyPaths r) = true -> containsAll (RequireReviewPaths p) (RequireReviewPaths r) = true ->
  (DenyNewExecutables r = true -> DenyNewExecutables p = true) -> (DenyAll r = true -> DenyAll p = true) ->
  notLooser (MaxFileSizeMiB p) (MaxFileSizeMiB r) = true -> (0 < MaxInspectPackMiB r -> 0 < MaxInspectPackMiB p) ->
  pushIsSet (Some r) = true -> pushIsSet (Some p) = true.
Proof.
  intros H1 H2 H3 H4 H5%notLooser_spec H6. rewrite !pushIsSet_spec.
  intros [H|[H|[H|[H|[H|H]]]]]; [left | right; left | do 2 right; left | do 3 right; left | do 4 right; left | do 5 right];
    try (by eapply containsAll_nonempty); try lia; auto.
Qed.

(** Both sides inspect: the composed pack cap is positive and at most the base's. *)
Lemma meetPack_cap f r base v :
  pushIsSet (Some r) = true -> MaxInspectPackMiB base = MaxInspectPackMiB r ->
  0 < fst (meetPack base v true f) <= packCap r \/ (v <= 0 /\ f = false).
Proof.
  intros Hs Hp. unfold meetPack. cbn [fst]. rewrite packCap_active, Hp by done. unfold defaultPackMiB, tightest.
  destruct f; [|destruct (Z.leb_spec v 0); [right; lia|]]; left;
    destruct (Z.gtb_spec (MaxInspectPackMiB r) 0), (Z.leb_spec v 0); cbn [andb]; repeat case_match; bool_prop; lia.
Qed.

Lemma leqPush_intro pa pb :
  containsAll (DenyPaths pa) (DenyPaths pb) = true -> containsAll (RequireReviewPaths pa) (RequireReviewPaths pb) = true ->
  (DenyNewExecutables pb = true -> DenyNewExecutables pa = true) -> (DenyAll pb = true -> DenyAll pa = true) ->
  notLooser (MaxFileSizeMiB pa) (MaxFileSizeMiB pb) = true -> normPushHold (HoldSeconds pa) <= normPushHold (HoldSeconds pb) ->
  (pushIsSet (Some pb) = true -> 0 < packCap pa <= packCap pb) ->
  forall a b, default zeroPush a = pa -> default zeroPush b = pb -> leqPush a b = true.
Proof.
  intros H1 H2 H3 H4 H5 H6 H7 a b Ea Eb. unfold leqPush. rewrite Ea, Eb, H1, H2, H5, (proj2 (Z.leb_le _ _) H6). cbn [andb]. rewrite !andb_true_r.
  assert (Hc : notLooser (packCap pa) (packCap pb) = true).
  { apply notLooser_spec. destruct (pushIsSet (Some pb)) eqn:E; [right; by apply H7|]. left. unfold packCap. by rewrite E. }
  rewrite Hc. destruct (DenyNewExecutables pa), (DenyNewExecutables pb), (DenyAll pa), (DenyAll pb); cbn; naive_solver.
Qed.

Lemma leqPush_refl b : leqPush b b = true.
Proof.
  eapply leqPush_intro; try reflexivity; try (by apply subsetS_spec); try done; try lia; [apply notLooser_refl|].
  intros H. rewrite packCap_active by done. destruct (Z.gtb_spec (MaxInspectPackMiB (default zeroPush b)) 0); lia.
Qed.

Lemma meetPush_leq base o : leqPush (fst (meetPush base o)) base = true.
Proof.
  unfold meetPush. rewrite !wbind_fst. cbn [fst wret]. set (r := default zeroPush base).
  set (dp := match po_DenyPaths o with None => _ | Some _ => _ end). set (rp := match po_RequireReviewPaths o with None => _ | Some _ => _ end).
  set (ne := match po_DenyNewExecutables o with None => _ | Some _ => _ end). set (da := match po_DenyAll o with None => _ | Some _ => _ end).
  set (fs := fst (named (po_MaxFileSizeMiB o) _ _)). set (hs := fst (named (po_HoldSeconds o) _ _)).
  set (active := pushIsSet (Some (mkPush dp (MaxInspectPackMiB r) rp hs ne fs da)) || _). set (pk0 := fst (named (po_MaxInspectPackMiB o) _ _)).
  set (pk := if active && (pk0 <=? 0) then defaultPackMiB else pk0). set (res := mkPush dp pk rp hs ne fs da).
  assert (F1 : containsAll dp (DenyPaths r) = true) by apply paths_kept.
  assert (F2 : containsAll rp (RequireReviewPaths r) = true) by apply paths_kept.
  assert (F3 : DenyNewExecutables r = true -> ne = true) by (intros H; unfold ne; destruct (po_DenyNewExecutables o); by rewrite ?H).
  assert (F4 : DenyAll r = true -> da = true) by (intros H; unfold da; destruct (po_DenyAll o); by rewrite ?H).
  assert (F5 : notLooser fs (MaxFileSizeMiB r) = true)
    by (unfold fs; destruct (po_MaxFileSizeMiB o); [apply tightest_notLooser | apply notLooser_refl]).
  assert (F6 : normPushHold hs <= normPushHold (HoldSeconds r)) by apply pushHold_meet.
  assert (F7 : pushIsSet (Some r) = true -> 0 < pk <= packCap r).
  { intros Hs. assert (Ha : active = true).
    { unfold active. assert (pushIsSet (Some (mkPush dp (MaxInspectPackMiB r) rp hs ne fs da)) = true) as ->; [|done].
      apply (pushIsSet_mono _ r); auto. }
    unfold pk. rewrite Ha. cbn [andb]. unfold pk0. destruct (po_MaxInspectPackMiB o) as [v|]; cbn [named fst wret].
    - rewrite Hs, Ha. destruct (meetPack_cap true r (mkPush dp (MaxInspectPackMiB r) rp hs ne fs da) v Hs eq_refl) as [H|[_ ?]]; [|done].
      destruct (Z.leb_spec (fst (meetPack (mkPush dp (MaxInspectPackMiB r) rp hs ne fs da) v true true)) 0); lia.
    - rewrite packCap_active by done. unfold defaultPackMiB.
      destruct (Z.leb_spec (MaxInspectPackMiB r) 0), (Z.gtb_spec (MaxInspectPackMiB r) 0); lia. }
  assert (F8 : pushIsSet (Some r) = true -> pushIsSet (Some res) = true).
  { intros Hs. apply pushIsSet_spec. cbn. destruct (F7 Hs). tauto. }
  destruct (pushIsSet (Some res) || (hs >? 0) || ne) eqn:Ef.
  - eapply (leqPush_intro res r); try done. intros Hs. rewrite packCap_active by auto. cbn [res MaxInspectPackMiB].
    destruct (F7 Hs). destruct (Z.gtb_spec pk 0); lia.
  - apply orb_false_elim in Ef as [[Ef Eh]%orb_false_elim En]. rewrite Z.gtb_ltb in Eh. apply Z.ltb_ge in Eh.
    assert (Hr : pushIsSet (Some r) = false) by (destruct (pushIsSet (Some r)); [by rewrite F8 in Ef | done]).
    assert (Hz : DenyPaths r = [] /\ RequireReviewPaths r = [] /\ DenyNewExecutables r = false /\ DenyAll r = false /\ MaxFileSizeMiB r <= 0).
    { unfold pushIsSet in Hr. apply orb_false_elim in Hr as [[[[[? ?]%orb_false_elim _]%orb_false_elim Hm]%orb_false_elim ?]%orb_false_elim ?].
      rewrite Z.gtb_ltb in Hm. apply Z.ltb_ge in Hm. by destruct (DenyPaths r), (RequireReviewPaths r). }
    destruct Hz as (Z1 & Z2 & Z3 & Z4 & Z5).
    eapply (leqPush_intro zeroPush r); try done; rewrite ?Z1, ?Z2, ?Z3, ?Z4; try done.
    + apply notLooser_spec. by left.
    + etrans; [|exact F6]. unfold normPushHold. destruct (Z.leb_spec hs 0); [done | lia].
    + by rewrite Hr.
Qed.
End MeetSound.
