(* ===== verification/MeetWhole.v ===== *)
(** * An overlay can only narrow: the limits and the whole authority

    The limits of a composed authority are at most as permissive as the base's,
    and with the ceiling rules of [MeetSound] the whole composition is below its
    base in the order of [Leq]. With [LeqSound] that is a statement about the
    proxy: a run under a composed profile reaches nothing its base would not. *)
From S2P Require Import Prelude GoStrings GoSlices NetIP IPGuard DomainMatch GoPath PolicyTypes PushRules EgressPolicy DomEntry Grants GrantBounds Leq LeqSound Meet MeetSound.
Local Open Scope string_scope.
Local Open Scope Z_scope.
Local Open Scope wardyn_scope.

Section MeetWhole.
Context {U : GoUnicode} (eff : ResourceLimits).

(** ** Limits *)

Lemma TighterSec_notLooser a b : notLooser (TighterSec a b) a = true.
Proof.
  apply notLooser_spec. unfold TighterSec. destruct (Z.eqb_spec a 0), (Z.gtb_spec b 0), (Z.ltb_spec b a); cbn [orb andb]; lia.
Qed.

Lemma meetDefault_notLooser f baseDef baseMax ov ovMax :
  let resMax := TighterSec baseMax ovMax in
  notLooser (cmpOrZ (fst (meetDefault f baseDef baseMax ov resMax)) resMax) (cmpOrZ baseDef baseMax) = true.
Proof.
  intros resMax. pose proof (TighterSec_notLooser baseMax ovMax) as Hm. fold resMax in Hm. apply notLooser_spec in Hm.
  apply notLooser_spec. unfold meetDefault. destruct ov as [v|]; cbn [fst wret]; unfold clampDefault, cmpOrZ, tightest in *.
  - destruct (Z.eqb_spec baseDef 0), (Z.eqb_spec v 0); repeat case_match; bool_prop; destruct_or?; bool_prop; lia.
  - destruct (Z.eqb_spec baseDef 0); repeat case_match; bool_prop; destruct_or?; bool_prop; lia.
Qed.

Lemma leqRunLimits_refl l : leqRunLimits l l = true.
Proof.
  unfold leqRunLimits. rewrite !notLooser_refl. destruct (AllowNoEnd (LRunLimits l)), (UserChangesLimits (LRunLimits l)); done.
Qed.

Lemma meetRunLimits_leq o l out :
  LRunLimits out = fst (meetRunLimits o (LRunLimits l)) -> leqRunLimits out l = true.
Proof.
  unfold meetRunLimits. destruct (negb (namesRunLimits o)); cbn [fst wret].
  { intros E. pose proof (leqRunLimits_refl l) as H. unfold leqRunLimits in *. by rewrite E. }
  rewrite !wbind_fst. cbn [fst wret]. intros E. unfold leqRunLimits. rewrite E.
  cbn [MaxEndAheadSec MaxWaitSec PauseIdleAfterSec AllowNoEnd UserChangesLimits DefaultEndSec DefaultWaitSec TightenRunLimits].
  rewrite !TighterSec_notLooser, !meetDefault_notLooser. cbn [andb].
  destruct (AllowNoEnd (LRunLimits l)), (UserChangesLimits (LRunLimits l)), (l_AllowNoEnd o) as [[]|], (l_UserChangesLimits o) as [[]|]; done.
Qed.

(** One level of a rubric against the base's. *)
Definition levelLeq (p : string * string) : bool :=
  String.eqb (snd p) "" || negb (String.eqb (fst p) "" || (autonomyRank (fst p) >? autonomyRank (snd p))).

Lemma levelLeq_refl x : levelLeq (x, x) = true.
Proof. unfold levelLeq. cbn. destruct (String.eqb x ""); [done|]. cbn. destruct (Z.gtb_spec (autonomyRank x) (autonomyRank x)); [lia | done]. Qed.

Lemma meetLevel_leq n b o : levelLeq (fst (meetLevel n b o), b) = true.
Proof.
  unfold meetLevel. destruct (String.eqb_spec o "") as [->|Ho]; [apply levelLeq_refl|].
  destruct (String.eqb_spec b "") as [->|Hb]; [done|]. cbn [orb].
  destruct (Z.ltb_spec (autonomyRank o) (autonomyRank b)); [|apply levelLeq_refl]. unfold levelLeq. cbn [fst snd wret].
  destruct (String.eqb_spec b ""), (String.eqb_spec o ""); try done. cbn [orb].
  destruct (Z.gtb_spec (autonomyRank o) (autonomyRank b)); [lia | done].
Qed.

Lemma leqRubric_levels a b :
  (match b with Some r => AgentGuardrailLocks r | None => false end = true -> match a with Some r => AgentGuardrailLocks r | None => false end = true) ->
  forallb levelLeq (combine (rubricCaps a) (rubricCaps b)) = true -> leqRubric a b = true.
Proof.
  intros H1 H2. unfold leqRubric. destruct (match b with Some r => _ | None => _ end); [rewrite H1 by done|]; cbn [andb negb]; exact H2.
Qed.

Lemma leqRubric_refl r : leqRubric r r = true.
Proof.
  apply leqRubric_levels; [done|]. apply forallb_forall. intros [x y] Hxy.
  assert (x = y) as ->; [|apply levelLeq_refl]. revert Hxy. generalize (rubricCaps r). clear.
  induction l as [|z l IH]; cbn; [done|]. intros [[= <- <-]|?]; [done | auto].
Qed.

Lemma rubricCaps_default r : rubricCaps r = rubricLevels (default zeroRubric r).
Proof. by destruct r. Qed.

Lemma meetRubric_leq base o : leqRubric (fst (meetRubric base o)) base = true.
Proof.
  unfold meetRubric. rewrite !wbind_fst. cbn [fst wret]. set (r := mkRubric _ _ _ _ _ _ _ _ _ _).
  assert (Hr : default zeroRubric (if decide (r = zeroRubric) then None else Some r) = r) by (by destruct (decide (r = zeroRubric))).
  apply leqRubric_levels.
  - intros Hb. assert (Hl : AgentGuardrailLocks r = true) by (destruct base; [unfold r; cbn; by rewrite Hb | done]).
    destruct (decide (r = zeroRubric)) as [E|]; [by rewrite E in Hl | done].
  - rewrite !rubricCaps_default, Hr. unfold r, rubricLevels.
    cbn [combine forallb EgressOpen EgressReviewed EgressSealed SecretsPowerful SecretsBaseline SecretsNone ConfinementCC1 ConfinementCC2 ConfinementCC3].
    by rewrite !meetLevel_leq.
Qed.

Lemma leqAllowList_intro a b : (b <> [] -> a <> [] /\ forall s, s ∈ a -> s ∈ b) -> leqAllowList a b = true.
Proof.
  intros H. unfold leqAllowList. destruct b as [|x b]; [done|]. destruct H as [Ha Hs]; [done|].
  rewrite (proj2 (subsetS_spec a (x :: b)) Hs). by destruct a.
Qed.

Lemma meetNames_leq f base ov : noFail (snd (meetNames f base ov)) -> leqAllowList (fst (meetNames f base ov)) base = true.
Proof.
  unfold meetNames. destruct (nonempty ov) eqn:Eo; cbn [negb fst snd wret]; [|intros _; apply leqAllowList_intro; done].
  destruct (nonempty base) eqn:Eb; cbn [negb fst snd wret].
  - intros Hn%meetAllowList_both. apply leqAllowList_intro. intros _. split; [done|]. by intros s [_ ?]%elem_of_both.
  - intros _. apply leqAllowList_intro. by destruct base.
Qed.

Lemma named_leqAllowList f base o :
  noFail (snd (named o base (meetNames f base))) -> leqAllowList (fst (named o base (meetNames f base))) base = true.
Proof. destruct o; [apply meetNames_leq | intros _; by apply leqAllowList_intro]. Qed.

Lemma orFlag_keeps b o : b = true -> orFlag b o = true.
Proof. by intros ->; destruct o. Qed.

Lemma placements_kept base o :
  forallb placementValid base = true ->
  subsetS base (match o with None => base | Some v => unionPlacements base v end) = true.
Proof.
  intros Hv. apply subsetS_spec. intros p Hp. destruct o as [v|]; [|done]. rewrite forallb_forall in Hv.
  pose proof (Hv p (proj1 (list_elem_of_In _ _) Hp)) as Hval. unfold unionPlacements. apply list_elem_of_In, filter_In.
  split; [|by rewrite (proj2 (memS_true p base) Hp)].
  unfold placementValid in Hval. apply orb_prop in Hval as [->%String.eqb_eq| ->%String.eqb_eq]; [by left | by right; left].
Qed.

Lemma meetLimits_leq o l dui :
  forallb placementValid (DenyPlacements l) = true -> noFail (snd (meetLimits o l dui)) ->
  leqLimits (fst (meetLimits o l dui)) l = true /\ leqRunLimits (fst (meetLimits o l dui)) l = true.
Proof.
  intros Hv. unfold meetLimits. rewrite !wbind_fst, !wbind_snd, !noFail_app. cbn [fst snd wret].
  intros (_ & Hmb & Ham & _). split; [|by eapply meetRunLimits_leq]. unfold leqLimits.
  cbn [LocalSelfDefinedComponents DenyTaskModeExec DenyInteractive DenyUIApps DenyUserDrive DenyMemberDrives DenyKeptMachines
       DenyBackgroundDesktopWatch DenyPlacements AllowedMacOSBases AllowedModels MaxConcurrentRuns MaxCPUMillis MaxMemoryMiB
       MaxEphemeralDiskMiB MaxDriveSizeMiB Rubric].
  assert (fst (named (l_LocalSelfDefinedComponents o) (LocalSelfDefinedComponents l)
            (meetFlagAnd "local_self_defined_components" (LocalSelfDefinedComponents l))) && negb (LocalSelfDefinedComponents l) = false) as ->
    by (destruct (l_LocalSelfDefinedComponents o) as [[]|], (LocalSelfDefinedComponents l); done).
  match goal with |- context [containsFunc (fun p : bool * bool => _) ?ps] => assert (containsFunc (fun p => snd p && negb (fst p)) ps = false) as -> end.
  { assert (Hor : forall b ov, b && negb (orFlag b ov) = false) by (intros [] [[]|]; done).
    assert (Hor2 : forall b c ov, b && negb (orFlag (b || c) ov) = false) by (intros [] [] [[]|]; done).
    cbn [containsFunc existsb fst snd]. by rewrite !Hor, Hor2. }
  rewrite placements_kept, !named_leqAllowList by done. cbn [negb].
  match goal with |- context [containsFunc (fun p : Z * Z => _) ?ps] => assert (containsFunc (fun p => negb (notLooser (fst p) (snd p))) ps = false) as -> end.
  { cbn [containsFunc existsb fst snd]. by rewrite !meetBound_notLooser. }
  destruct (l_Rubric o); [apply meetRubric_leq | apply leqRubric_refl].
Qed.

(** ** The whole composition *)

Lemma ApplyOverlay_inv base ov out w :
  ApplyOverlay eff base ov = inl (out, w) -> out = fst (meetAll eff base ov) /\ noFail (snd (meetAll eff base ov)).
Proof.
  unfold ApplyOverlay, run. destruct (firstFail false (validatePresence ov)) eqn:E1; [done|].
  destruct (meetAll eff base ov) as [o evs]. destruct (firstFail false (validatePresence ov ++ evs)%list) eqn:E2; [done|].
  intros [= <- _]. split; [done|]. by apply noFail_app in E2 as [_ ?].
Qed.

Lemma meetPosture_egress o c :
  let x := fst (fst (meetPosture eff o c)) in
  AllowedDomains x = AllowedDomains c /\ DeniedDomains x = DeniedDomains c /\ AllowAllEgress x = AllowAllEgress c /\
  FirstUseApproval x = FirstUseApproval c /\ FirstUseHoldSeconds x = FirstUseHoldSeconds c /\ MaxHolds x = MaxHolds c /\
  AllowedMethods x = AllowedMethods c /\ PushRules x = PushRules c.
Proof. unfold meetPosture. rewrite !wbind_fst. cbn [fst wret]. done. Qed.

(** The egress rules leave the posture of the base alone. *)
Lemma meetEgress_posture o c x :
  leqPosture eff x (fst (meetEgress o c)) = leqPosture eff x c /\ PushRules (fst (meetEgress o c)) = PushRules c /\
  EligibleGrants (fst (meetEgress o c)) = EligibleGrants c /\ WorkspaceMounts (fst (meetEgress o c)) = WorkspaceMounts c.
Proof. unfold meetEgress. rewrite !wbind_fst. cbn [fst wret]. done. Qed.

Lemma leqEgress_ext a a' c :
  AllowedDomains a = AllowedDomains a' -> DeniedDomains a = DeniedDomains a' -> AllowAllEgress a = AllowAllEgress a' ->
  FirstUseApproval a = FirstUseApproval a' -> FirstUseHoldSeconds a = FirstUseHoldSeconds a' -> MaxHolds a = MaxHolds a' ->
  AllowedMethods a = AllowedMethods a' -> leqEgress a c = leqEgress a' c.
Proof. unfold leqEgress. by intros -> -> -> -> -> -> ->. Qed.

Lemma overlay_leq base ov out w :
  ApplyOverlay eff base ov = inl (out, w) ->
  plainCeiling (Ceiling base) = true -> plainOverlay (OvCeiling ov) = true ->
  forallb placementValid (DenyPlacements (Limits base)) = true ->
  (forall g, g ∈ EligibleGrants (Ceiling out) -> GrantWithin g (EligibleGrants (Ceiling base)) = None) ->
  Leq eff (Ceiling out) (Ceiling base) (Limits out) (Limits base) = true.
Proof.
  intros [-> Hnf]%ApplyOverlay_inv Hc Ho Hp. unfold meetAll in *. rewrite !wbind_snd, !noFail_app in Hnf.
  destruct Hnf as (N1 & N2 & _ & N4 & _). rewrite !wbind_fst in *. cbn [fst snd wret Ceiling Limits] in *.
  set (o := OvCeiling ov) in *. set (c := Ceiling base) in *.
  destruct (meetEgress_posture o c zeroSpec) as (_ & Epr & Eeg & Emt).
  set (c1 := fst (meetEgress o c)) in *. set (x := fst (meetPosture eff o c1)) in *.
  destruct (meetPosture_egress o c1) as (X1 & X2 & X3 & X4 & X5 & X6 & X7 & X8). fold x in X1, X2, X3, X4, X5, X6, X7, X8.
  change (EligibleGrants (setPush (fst x) ?p)) with (EligibleGrants (fst x)). intros Hg.
  assert (He : leqEgress (fst x) c = true).
  { rewrite (leqEgress_ext (fst x) c1) by done. by apply meetEgress_leq. }
  assert (Hpo : leqPosture eff (fst x) c = true).
  { destruct (meetEgress_posture o c (fst x)) as [<- _]. fold c1. apply meetPosture_leq; try done; [rewrite Emt; by apply andb_prop in Hc as [_ ?%bool_decide_eq_true] | by rewrite Eeg]. }
  destruct (meetLimits_leq (OvLimits ov) (Limits base) (snd x) Hp N4) as [Hl Hr].
  unfold Leq. change (leqEgress (setPush (fst x) _) c) with (leqEgress (fst x) c).
  change (leqPosture eff (setPush (fst x) _) c) with (leqPosture eff (fst x) c). rewrite He, Hpo. cbn [setPush PushRules].
  assert (leqPush (fst (named (o_PushRules o) (PushRules (fst x)) (meetPush (PushRules (fst x))))) (PushRules c) = true) as ->.
  { rewrite X8, Epr. destruct (o_PushRules o); [apply meetPush_leq | apply leqPush_refl]. }
  rewrite Hl, Hr. done.
Qed.

(** C6: a composed profile is at most as permissive as its base, under these
    conditions. When a resolve composes an overlay onto a base, the result is below
    the base in the order of [Leq] on every field of the ceiling and of the limits,
    provided that
    - the base's domain entries all read, as names and not as IPv6 literals, and its
      mounts are distinct by source and target;
    - the overlay's allowlist entries that read are names, its methods are ASCII, and
      it adds no detector sidecar;
    - the base denies only placements there are;
    - the grants of the result are inside the base's.
    Without the condition on the sidecar or the one on the grants the law fails
    ([composition_not_always_below]). *)
Theorem overlay_only_narrows base ov out w :
  ApplyOverlay eff base ov = inl (out, w) ->
  plainCeiling (Ceiling base) = true -> plainOverlay (OvCeiling ov) = true ->
  forallb placementValid (DenyPlacements (Limits base)) = true ->
  (forall g, g ∈ EligibleGrants (Ceiling out) -> GrantWithin g (EligibleGrants (Ceiling base)) = None) ->
  Leq eff (Ceiling out) (Ceiling base) (Limits out) (Limits base) = true.
Proof. apply overlay_leq. Qed.

(** ** A person's walls *)

Lemma meetAll_egress base ov :
  let x := Ceiling (fst (meetAll eff base ov)) in
  AllowedDomains x = fst (named (o_AllowedDomains (OvCeiling ov)) (AllowedDomains (Ceiling base)) (meetAllowedDomains (AllowedDomains (Ceiling base)))) /\
  AllowAllEgress x = fst (named (o_AllowAllEgress (OvCeiling ov)) (AllowAllEgress (Ceiling base))
                            (meetFlagAnd "allow_all_egress" (AllowAllEgress (Ceiling base)))).
Proof.
  unfold meetAll. rewrite !wbind_fst. cbn [fst wret Ceiling setPush AllowedDomains AllowAllEgress].
  destruct (meetPosture_egress (OvCeiling ov) (fst (meetEgress (OvCeiling ov) (Ceiling base)))) as (-> & _ & -> & _).
  unfold meetEgress. rewrite !wbind_fst. done.
Qed.

(** An open policy meets a person's allowlist as that allowlist: when the walls
    turn open egress off and name sites, the run under them reaches exactly the
    requests an entry of the walls matches and no denied entry does, whatever the
    policy's own list said. *)
Theorem walls_close_an_open_policy spec ov l out host port :
  MeetWalls eff spec ov = inl out -> AllowAllEgress spec = true ->
  o_AllowedDomains ov = Some l -> o_AllowAllEgress ov = Some false ->
  forallb nameEntry (AllowedDomains spec) = true -> forallb nameEntry l = true ->
  evalHost (CompilePolicy out) host port = hostAllow <->
  anyEntryMatches (DeniedDomains out) (CanonHost host) port = false /\ anyEntryMatches l (CanonHost host) port = true.
Proof.
  unfold MeetWalls. intros H Hall Hl Hoff Hs Hn. rewrite Hall, Hl in H.
  destruct (ApplyOverlay eff _ _) as [[a w]|e] eqn:Ea; [|done]. injection H as <-.
  apply ApplyOverlay_inv in Ea as [-> _].
  destruct (meetAll_egress (mkAuthority (setAllowed spec (AllowedDomains spec ++ l)%list) zeroLimits) (mkOverlay ov emptyLimitsOverlay)) as [E1 E2].
  cbn [OvCeiling Ceiling] in E1, E2. rewrite Hl in E1. rewrite Hoff in E2. cbn [named setAllowed AllowedDomains AllowAllEgress] in E1, E2.
  rewrite evalHost_spec. unfold specVerdict. rewrite E1, E2. cbn [meetFlagAnd fst]. rewrite andb_false_r, orb_false_r.
  set (host' := CanonHost host).
  assert (Hm : anyEntryMatches (fst (meetAllowedDomains (AllowedDomains spec ++ l)%list l)) host' port = anyEntryMatches l host' port).
  { apply eq_true_iff_eq. rewrite meetAllowed_matches by (rewrite ?forallb_app, ?Hs; done). rewrite anyEntryMatches_parse. split.
    - intros (b & o & _ & (d & Hd & E)%elem_of_parsed & _ & _ & Hm). eauto.
    - intros (d & e & Hd & E & Hm). exists e, e. split_and!; try done; apply elem_of_parsed; exists d; (split; [|done]); [|done].
      apply elem_of_app. by right. }
  rewrite Hm. destruct (anyEntryMatches (DeniedDomains _) _ _), (anyEntryMatches l _ _); split; intros; destruct_and?; done.
Qed.
End MeetWhole.

(** ** Witnesses *)

Definition baseAuthority : Authority :=
  mkAuthority
    (mkSpec ["*.example.com"; "api.example.com"; "db.example.com:5432"] ["bad.example.com"] false "wait_for_review" 0 0 ["GET"; "POST"] ""
       [stsGrant false] 3600 [] [] None [] None [mkToolRule "Bash" "hold"; mkToolRule "*" "allow"] false None [] [] None None "")
    zeroLimits.

Definition sampleOverlay : Overlay :=
  mkOverlay
    (mkCeilingOverlay (Some ["*.svc.example.com:443"; "api.example.com"; "other.test"]) (Some ["*.old.svc.example.com"]) None
       (Some "deny_with_review") (Some 10) None (Some [" get"]) (Some "cc2") None (Some 600) None None None None None
       (Some [mkToolRule "Web" "deny"]) None None None None None None (Some "terminal"))
    (mkLimitsOverlay None None None None None (Some 2) None None None (Some ["local"]) None None None None None None None None None None
       None None None None).

Definition composed : Authority :=
  mkAuthority
    (mkSpec ["*.svc.example.com:443"; "api.example.com"] ["*.old.svc.example.com"; "bad.example.com"] false "deny_with_review" 10 0 ["GET"] "CC2"
       [stsGrant false] 600 [] [] None [] None [mkToolRule "*" "hold"; mkToolRule "Bash" "hold"; mkToolRule "Web" "deny"] false None [] [] None None
       "terminal")
    (mkLimits false false false false false 2 false false false ["local"] [] [] 0 0 0 0 None zeroRunLimits).

(** The overlay is applied; the site and the tools the base does not permit are
    dropped with a warning. *)
Example sample_compose :
  @ApplyOverlay asciiTables sampleEff baseAuthority sampleOverlay = inl (composed, ["allowed_domains"]).
Proof. vm_compute. reflexivity. Qed.

Lemma overlay_only_narrows_witness :
  @Leq asciiTables sampleEff (Ceiling composed) (Ceiling baseAuthority) (Limits composed) (Limits baseAuthority) = true.
Proof.
  apply (@overlay_only_narrows asciiTables sampleEff baseAuthority sampleOverlay composed ["allowed_domains"]).
  - vm_compute. reflexivity.
  - vm_compute. reflexivity.
  - vm_compute. reflexivity.
  - vm_compute. reflexivity.
  - intros g Hg. apply list_elem_of_singleton in Hg. subst g. vm_compute. reflexivity.
Defined.

Definition openSpec : RunPolicySpec :=
  mkSpec ["api.example.com"] ["bad.example.com"] true "" 0 0 [] "" [] 0 [] [] None [] None [] false None [] [] None None "".
Definition sampleWalls : CeilingOverlay :=
  mkCeilingOverlay (Some ["*.example.com"; "docs.test"]) None (Some false) None None None None None None None None None None None None None None
    None None None None None None.
Definition walledSpec : RunPolicySpec :=
  mkSpec ["*.example.com"; "docs.test"] ["bad.example.com"] false "" 0 0 [] "" [] 0 [] [] None [] None [] false None [] [] None None "".

Lemma walls_close_an_open_policy_witness :
  @evalHost asciiTables (@CompilePolicy asciiTables walledSpec) "docs.test" 443 = hostAllow <->
  @anyEntryMatches asciiTables (DeniedDomains walledSpec) (@CanonHost asciiTables "docs.test") 443 = false /\
  @anyEntryMatches asciiTables ["*.example.com"; "docs.test"] (@CanonHost asciiTables "docs.test") 443 = true.
Proof.
  apply (@walls_close_an_open_policy asciiTables sampleEff openSpec sampleWalls ["*.example.com"; "docs.test"] walledSpec);
    vm_compute; reflexivity.
Defined.

Lemma overlay_allowlist_is_exact_witness :
  @anyEntryMatches asciiTables (fst (@meetAllowedDomains asciiTables ["*.example.com"; "a.test"] ["*.svc.example.com:443"; "b.test"])) "x.svc.example.com" 443 = true <->
  exists b o, b ∈ @parsedEntries asciiTables ["*.example.com"; "a.test"] /\ o ∈ @parsedEntries asciiTables ["*.svc.example.com:443"; "b.test"] /\
    d_wild b = d_wild o /\ entMatches b "x.svc.example.com" 443 = true /\ entMatches o "x.svc.example.com" 443 = true.
Proof. apply (@overlay_allowlist_is_exact asciiTables); vm_compute; reflexivity. Defined.

Lemma overlay_tools_take_stricter_witness :
  toolStrictness (effectFor (toolEffects (fst (meetToolRules [mkToolRule "*" "allow"] [mkToolRule "Web" "deny"]))) "Bash") = 1.
Proof. exact (overlay_tools_take_stricter [mkToolRule "*" "allow"] [mkToolRule "Web" "deny"] "Bash" eq_refl). Defined.

(** ** Where the stated law does not hold *)

Definition grantOverlay : Overlay :=
  mkOverlay (mkCeilingOverlay None None None None None None None None (Some [stsGrant false]) None None None None None None None None None
               None None None None None) emptyLimitsOverlay.
Definition sidecarSpec : LLMInspectionSpec :=
  mkLLM "alert" [] [] true false false false "https://scan.example.com" [] false false 0 "" false false "".
Definition sidecarOverlay : Overlay :=
  mkOverlay (mkCeilingOverlay None None None None None None None None None None None None (Some sidecarSpec) None None None None None
               None None None None None) emptyLimitsOverlay.

(** The order does not contain every composition. An overlay may name a grant
    its base does not carry, or a detector sidecar its base does not: the write
    accepts it, the resolve applies it without a warning, and the result is not
    below the base in [Leq]. The law stated beside [Leq] holds only with both set
    aside. *)
Theorem composition_not_always_below :
  (exists out, @ApplyOverlay asciiTables sampleEff (mkAuthority zeroSpec zeroLimits) grantOverlay = inl (out, []) /\
     @Leq asciiTables sampleEff (Ceiling out) zeroSpec (Limits out) zeroLimits = false) /\
  (exists out, @ApplyOverlay asciiTables sampleEff (mkAuthority zeroSpec zeroLimits) sidecarOverlay = inl (out, []) /\
     @Leq asciiTables sampleEff (Ceiling out) zeroSpec (Limits out) zeroLimits = false).
Proof. split; eexists; (split; [vm_compute; reflexivity | vm_compute; reflexivity]). Qed.
