(* ===== verification/AckCursor.v ===== *)
(** * The acknowledged cursor of an ordered row stream

    [internal/ackcursor/ackcursor.go]: at-least-once delivery of an ordered,
    hash-chained stream of rows. [Step] delivers the next batch and moves the
    position past what the receiver acknowledged; a row at the position that is
    gone or changed starts the stream over.

    The row source, the sink and the durable store are the interfaces of the Go
    package: their answers to one step are the fields of [stepEnv], and what the
    package documents of them is assumed in the sections below. A failed write to
    the store may or may not have landed. *)
From S2P Require Import Prelude.
Local Open Scope string_scope.
Local Open Scope Z_scope.
Local Open Scope list_scope.

Record Pos := mkPos { Seq : Z; Hash : string }.
#[export] Instance Pos_eq_dec : EqDecision Pos.
Proof. solve_decision. Defined.

Definition zeroPos : Pos := mkPos 0 "".

Section Cursor.
Context {T : Type}.
Variable Key : T -> Pos.
Variable Batch : nat.

Inductive setOutcome := SetOK | SetFailed (err : string) (landed : bool).

(** What the source, the sink and the store answer during one step. *)
Record stepEnv := mkEnv {
  After : Z -> nat -> errOr (list T);
  Deliver : list T -> errOr Z;
  Set' : Pos -> setOutcome;
}.

(** The position in memory and the durable one. *)
Record Cursor := mkCursor { pos : Pos; durable : Pos }.

Definition Load (c : Cursor) : Cursor := mkCursor (durable c) (durable c).

(** One step: the cursor after it, its result (whether the batch was full), and
    the batch the receiver acknowledged with the sequence it answered. *)
Record stepOut := mkOut { oCursor : Cursor; oResult : errOr bool; oAcked : option (list T * Z) }.

Definition store (e : stepEnv) (c : Cursor) (p : Pos) : Cursor * option string :=
  match Set' e p with
  | SetOK => (mkCursor p p, None)
  | SetFailed err landed => (mkCursor (pos c) (if landed then p else durable c), Some err)
  end.

Definition rowHash (rows : list T) (next : Z) : string :=
  match findFirst (fun r => Seq (Key r) =? next) rows with Some r => Hash (Key r) | None => "" end.

(** The rows read; [inl] is an early return. *)
Definition readRows (e : stepEnv) (c : Cursor) : (Cursor * string) + (Cursor * list T) :=
  let fromStart c := match After e 0 Batch with inl err => inl (c, err) | inr rows => inr (c, rows) end in
  if 0 <? Seq (pos c) then
    match After e (Seq (pos c) - 1) (S Batch) with
    | inl err => inl (c, err)
    | inr (r :: rows) =>
        if bool_decide (Key r = pos c) then inr (c, rows)
        else match store e c zeroPos with
             | (c', Some err) => inl (c', err)
             | (c', None) => fromStart c'
             end
    | inr [] =>
        match store e c zeroPos with
        | (c', Some err) => inl (c', err)
        | (c', None) => fromStart c'
        end
    end
  else if Seq (pos c) =? 0 then fromStart c else inr (c, []).

Definition nextSeq (c : Cursor) (rows : list T) (ack : Z) : Z :=
  match last rows with
  | None => Seq (pos c)
  | Some r => Z.max (Seq (pos c)) (Z.min ack (Seq (Key r)))
  end.

Definition Step (e : stepEnv) (c : Cursor) : stepOut :=
  match readRows e c with
  | inl (c', err) => mkOut c' (inl err) None
  | inr (c', rows) =>
      match Deliver e rows with
      | inl err => mkOut c' (inl err) None
      | inr ack =>
          let next := nextSeq c' rows ack in
          let more := (length rows =? Batch)%nat in
          if next =? Seq (pos c') then mkOut c' (inr more) (Some (rows, ack))
          else match store e c' (mkPos next (rowHash rows next)) with
               | (c'', Some err) => mkOut c'' (inl err) (Some (rows, ack))
               | (c'', None) => mkOut c'' (inr more) (Some (rows, ack))
               end
      end
  end.

(** The rows a step's receiver acknowledged. *)
Definition ackedBy (o : stepOut) : list T :=
  match oAcked o with
  | None => []
  | Some (rows, ack) => List.filter (fun r => Seq (Key r) <=? ack) rows
  end.

(** ** At-least-once delivery *)

(** The tables the stream may hold: ascending positive sequences, a hash on every
    row, and a chain: two tables that hold the same row (sequence and hash) hold
    the same rows up to it. *)
Definition ascending (t : list T) : Prop :=
  forall i j r s, t !! i = Some r -> t !! j = Some s -> (i < j)%nat -> Seq (Key r) < Seq (Key s).

Definition rowOK (r : T) : Prop := 0 < Seq (Key r) /\ Hash (Key r) <> "".

Record chained (valid : list T -> Prop) : Prop := mkChained {
  ch_asc : forall t, valid t -> ascending t;
  ch_row : forall t r, valid t -> r ∈ t -> rowOK r;
  ch_chain : forall t t' r r' x, valid t -> valid t' -> r ∈ t -> r' ∈ t' -> Key r = Key r' ->
    x ∈ t' -> Seq (Key x) <= Seq (Key r) -> x ∈ t;
}.

(** What [Source] documents: at most [limit] rows, the first ones after [seq]. *)
Definition rowsAfter (t : list T) (seq : Z) : list T := List.filter (fun r => seq <? Seq (Key r)) t.

Definition reads (t : list T) (e : stepEnv) : Prop :=
  forall seq limit rows, After e seq limit = inr rows ->
    rows `prefix_of` rowsAfter t seq /\ (length rows <= limit)%nat.

(** A run: tables come and go as the chain allows, the process restarts, and
    steps are taken against the table of the moment. [acked] is every row a
    receiver ever acknowledged. *)
Inductive run (valid : list T -> Prop) : Cursor -> list T -> Prop :=
| run_start : run valid (mkCursor zeroPos zeroPos) []
| run_load c acked : run valid c acked -> run valid (Load c) acked
| run_step c acked t e : run valid c acked -> valid t -> reads t e ->
    run valid (oCursor (Step e c)) (ackedBy (Step e c) ++ acked).

Definition covered (valid : list T -> Prop) (acked : list T) (p : Pos) : Prop :=
  forall t x, valid t -> (exists r, r ∈ t /\ Key r = p) -> x ∈ t -> Seq (Key x) <= Seq p -> x ∈ acked.

(** The rows read are an initial segment of what follows [seq]. *)
Definition initSeg (t : list T) (seq : Z) (rows : list T) : Prop :=
  (forall x, x ∈ rows -> x ∈ t /\ seq < Seq (Key x)) /\
  (forall x y, y ∈ rows -> x ∈ t -> seq < Seq (Key x) -> Seq (Key x) <= Seq (Key y) -> x ∈ rows).

Lemma elem_of_rowsAfter t seq x : x ∈ rowsAfter t seq <-> x ∈ t /\ seq < Seq (Key x).
Proof. unfold rowsAfter. rewrite list_elem_of_In, filter_In, <- list_elem_of_In, Z.ltb_lt. done. Qed.

Lemma ascending_cons r t : ascending (r :: t) <-> ascending t /\ forall x, x ∈ t -> Seq (Key r) < Seq (Key x).
Proof.
  split.
  - intros H. split.
    + intros i j a b Ha Hb Hij. apply (H (S i) (S j) a b); [done | done | lia].
    + intros x [j Hj]%list_elem_of_lookup. apply (H 0%nat (S j) r x); [done | done | lia].
  - intros [Ht Hr] [|i] [|j] a b Ha Hb Hij; simplify_eq/=; try lia.
    + apply Hr. by eapply list_elem_of_lookup_2.
    + apply (Ht i j); [done | done | lia].
Qed.

Lemma ascending_rowsAfter t seq : ascending t -> ascending (rowsAfter t seq).
Proof.
  induction t as [|r t IH]; [done|]. intros [Ht Hr]%ascending_cons. cbn [rowsAfter List.filter].
  fold (rowsAfter t seq). destruct (seq <? Seq (Key r)); [|by apply IH].
  apply ascending_cons. split; [by apply IH|]. intros x [Hx _]%elem_of_rowsAfter. by apply Hr.
Qed.

Lemma ascending_prefix rows t : rows `prefix_of` t -> ascending t -> ascending rows.
Proof.
  intros [k ->] H i j a b Ha Hb. apply H; by apply lookup_app_l_Some.
Qed.

Lemma prefix_initSeg t seq rows : ascending t -> rows `prefix_of` rowsAfter t seq -> initSeg t seq rows.
Proof.
  intros Ht [k Hk]. pose proof (ascending_rowsAfter t seq Ht) as Ha. rewrite Hk in Ha. split.
  - intros x Hx. apply elem_of_rowsAfter. rewrite Hk. by apply elem_of_app; left.
  - intros x y Hy Hx Hs Hle. assert (Hin : x ∈ rows ++ k) by (rewrite <- Hk; by apply elem_of_rowsAfter).
    apply elem_of_app in Hin as [?|Hin]; [done|].
    apply list_elem_of_lookup in Hy as [j Hj]. apply list_elem_of_lookup in Hin as [i Hi].
    assert (Seq (Key y) < Seq (Key x)); [|lia].
    apply (Ha j (length rows + i)%nat); [by apply lookup_app_l_Some | | apply lookup_lt_Some in Hj; lia].
    rewrite lookup_app_r by lia. by replace (length rows + i - length rows)%nat with i by lia.
Qed.

Lemma initSeg_tail t r rows :
  initSeg t (Seq (Key r) - 1) (r :: rows) -> ascending (r :: rows) -> initSeg t (Seq (Key r)) rows.
Proof.
  intros [H1 H2] [_ Hr]%ascending_cons. split.
  - intros x Hx. split; [apply H1; by right | by apply Hr].
  - intros x y Hy Hx Hs Hle. specialize (H2 x y ltac:(by right) Hx ltac:(lia) Hle).
    apply elem_of_cons in H2 as [->|?]; [lia | done].
Qed.

Section Delivery.
Context (valid : list T -> Prop) (Hch : chained valid).

Lemma covered_zero acked : covered valid acked zeroPos.
Proof.
  intros t x Ht (r & Hr & Hk). destruct (ch_row _ Hch t r Ht Hr) as [H _]. rewrite Hk in H. done.
Qed.

Lemma covered_mono acked acked' p : covered valid acked p -> covered valid (acked' ++ acked) p.
Proof. intros H t x Ht Hr Hx Hs. apply elem_of_app. right. by eapply H. Qed.

(** What both positions of a cursor promise. *)
Definition safe (acked : list T) (c : Cursor) : Prop := covered valid acked (pos c) /\ covered valid acked (durable c).

Lemma store_safe acked e c p c' o :
  store e c p = (c', o) -> safe acked c -> covered valid acked p -> safe acked c' /\ (o = None -> pos c' = p).
Proof.
  unfold store. intros H [Hp Hd] Hn. destruct (Set' e p) as [|err []]; simplify_eq; by repeat split.
Qed.

Lemma fromStart_spec t e acked (c : Cursor) :
  valid t -> reads t e -> pos c = zeroPos -> safe acked c ->
  match After e 0 Batch with
  | inl _ => True
  | inr rows => initSeg t (Seq (pos c)) rows /\ forall x, x ∈ t -> Seq (Key x) <= Seq (pos c) -> x ∈ acked
  end.
Proof.
  intros Ht Hrd Hz Hs. destruct (After e 0 Batch) as [|rows] eqn:E; [done|]. rewrite Hz. split.
  - apply prefix_initSeg; [by apply (ch_asc _ Hch) | by eapply Hrd].
  - intros x Hx Hle. destruct (ch_row _ Hch t x Ht Hx) as [H _]. cbn in Hle. lia.
Qed.

Lemma readRows_spec t e c acked :
  valid t -> reads t e -> safe acked c ->
  match readRows e c with
  | inl (c', _) => safe acked c'
  | inr (c', rows) => safe acked c' /\
      (rows = [] \/ (initSeg t (Seq (pos c')) rows /\ forall x, x ∈ t -> Seq (Key x) <= Seq (pos c') -> x ∈ acked))
  end.
Proof.
  intros Ht Hrd Hs. unfold readRows.
  assert (Hreset : match (match store e c zeroPos with
                          | (c', Some err) => inl (c', err)
                          | (c', None) => match After e 0 Batch with inl err => inl (c', err) | inr rows => inr (c', rows) end
                          end : (Cursor * string) + (Cursor * list T)) with
                   | inl (c', _) => safe acked c'
                   | inr (c', rows) => safe acked c' /\ (rows = [] \/ (initSeg t (Seq (pos c')) rows /\
                       forall x, x ∈ t -> Seq (Key x) <= Seq (pos c') -> x ∈ acked))
                   end).
  { destruct (store e c zeroPos) as [c' o] eqn:E. destruct (store_safe acked _ _ _ _ _ E Hs (covered_zero acked)) as [Hs' Hp].
    destruct o as [err|]; [done|]. pose proof (fromStart_spec t e acked c' Ht Hrd (Hp eq_refl) Hs') as H.
    destruct (After e 0 Batch) as [|rows]; [done|]. split; [done | by right]. }
  destruct (0 <? Seq (pos c)) eqn:E0.
  - destruct (After e (Seq (pos c) - 1) (S Batch)) as [err|[|r rows]] eqn:EA; [done | exact Hreset|].
    destruct (bool_decide (Key r = pos c)) eqn:Ek; [|exact Hreset]. apply bool_decide_eq_true in Ek.
    split; [done|]. right. destruct (Hrd _ _ _ EA) as [Hpre _].
    pose proof (prefix_initSeg t _ _ (ch_asc _ Hch t Ht) Hpre) as Hseg. rewrite <- Ek in Hseg |- *. split.
    + apply initSeg_tail; [done|]. eapply ascending_prefix; [exact Hpre|]. apply ascending_rowsAfter. by apply (ch_asc _ Hch).
    + intros x Hx Hle. destruct Hs as [Hp _]. rewrite Ek in Hle. apply (Hp t x Ht); [|done | done].
      exists r. split; [|done]. apply Hseg. left.
  - destruct (Seq (pos c) =? 0) eqn:E1; [|by split; [|left]].
    pose proof (fromStart_spec t e acked c Ht Hrd) as H. destruct (After e 0 Batch) as [|rows] eqn:EA; [done|].
    split; [done|]. right. split.
    + apply Z.eqb_eq in E1. rewrite E1. apply prefix_initSeg; [by apply (ch_asc _ Hch) | by eapply Hrd].
    + intros x Hx Hle. destruct (ch_row _ Hch t x Ht Hx) as [? _]. lia.
Qed.

Lemma findFirst_hash rows next h :
  rowHash rows next = h -> h <> "" -> exists r, r ∈ rows /\ Key r = mkPos next h.
Proof.
  unfold rowHash. intros H Hne. destruct (findFirst _ rows) as [r|] eqn:E; [|congruence].
  apply findFirst_Some in E as [Hr Hs%Z.eqb_eq]. exists r. split; [done|].
  destruct (Key r) as [s h']. cbn in *. by subst.
Qed.

Lemma step_safe t e c acked :
  valid t -> reads t e -> safe acked c -> safe (ackedBy (Step e c) ++ acked) (oCursor (Step e c)).
Proof.
  intros Ht Hrd Hs. pose proof (readRows_spec t e c acked Ht Hrd Hs) as Hr. unfold Step.
  destruct (readRows e c) as [[c' err]|[c' rows]]; [done|]. destruct Hr as [Hs' Hrows].
  destruct (Deliver e rows) as [err|ack]; [done|]. cbn zeta.
  assert (Hmono : forall l, safe (l ++ acked) c') by (intros l; destruct Hs'; split; by apply covered_mono).
  destruct (nextSeq c' rows ack =? Seq (pos c')) eqn:En; [apply Hmono|]. apply Z.eqb_neq in En.
  assert (Hnew : covered valid (ackedBy (mkOut c' (inr true) (Some (rows, ack))) ++ acked)
                   (mkPos (nextSeq c' rows ack) (rowHash rows (nextSeq c' rows ack)))).
  { unfold nextSeq in *. destruct (last rows) as [rl|] eqn:El; [|lia].
    destruct Hrows as [->|[Hseg Hlow]]; [done|].
    intros t' x Ht' (r0 & Hr0 & Hk0) Hx Hle. cbn [Seq] in Hle.
    destruct (ch_row _ Hch t' r0 Ht' Hr0) as [_ Hne]. rewrite Hk0 in Hne. cbn [Hash] in Hne.
    destruct (findFirst_hash _ _ _ eq_refl Hne) as (rp & Hrp & Hkp).
    destruct Hseg as [Hin Hcl]. destruct (Hin rp Hrp) as [Hrpt _].
    assert (Hxt : x ∈ t).
    { eapply (ch_chain _ Hch t t' rp r0 x); [done.. | congruence | done | rewrite Hkp; exact Hle]. }
    apply elem_of_app. destruct (decide (Seq (Key x) <= Seq (pos c'))) as [Hlo|Hhi]; [right; by apply Hlow|].
    left. cbn [ackedBy oAcked]. apply list_elem_of_In, filter_In. split; [|lia].
    apply list_elem_of_In. apply (Hcl x rp); [done | done | lia | rewrite Hkp; exact Hle]. }
  destruct (store e c' _) as [c'' o] eqn:Es.
  destruct (store_safe _ _ _ _ _ _ Es (Hmono _) Hnew) as [H _]. by destruct o.
Qed.

Lemma run_safe c acked : run valid c acked -> safe acked c.
Proof.
  induction 1 as [|c acked _ [_ Hd] | c acked t e _ Hs Ht Hrd].
  - split; apply covered_zero.
  - by split.
  - by eapply step_safe.
Qed.

(** At-least-once delivery, over any run with failures, restarts, resets of
    the table and writes of the position that fail but land: while the table still
    holds the row at the cursor's position (in memory or durable), every row up to
    it was acknowledged by the receiver. *)
Theorem delivered_at_least_once c acked t x :
  run valid c acked -> valid t -> x ∈ t ->
  (exists r, r ∈ t /\ (Key r = pos c \/ Key r = durable c) /\ Seq (Key x) <= Seq (Key r)) -> x ∈ acked.
Proof.
  intros [Hp Hd]%run_safe Ht Hx (r & Hr & [Hk|Hk] & Hle); rewrite Hk in Hle;
    [apply (Hp t x Ht) | apply (Hd t x Ht)]; eauto.
Qed.
End Delivery.

(** ** Progress

    One table that stays as it is, a source that returns as many rows as it may, a
    sink that acknowledges the last row of its batch and a store that works. *)
Section Progress.
Context (t : list T) (Hasc : ascending t) (Hok : forall r, r ∈ t -> rowOK r) (Hbatch : (0 < Batch)%nat).
Variable idle : Z.

Definition lastAck (rows : list T) : Z := match last rows with Some r => Seq (Key r) | None => idle end.

Definition workingEnv : stepEnv :=
  mkEnv (fun seq limit => inr (take limit (rowsAfter t seq))) (fun rows => inr (lastAck rows)) (fun _ => SetOK).

(** [n] steps in a row: the cursor after them and the rows acknowledged, in
    order. *)
Fixpoint drive (e : stepEnv) (n : nat) (c : Cursor) : Cursor * list T :=
  match n with
  | O => (c, [])
  | S n' => let o := Step e c in let '(c', l) := drive e n' (oCursor o) in (c', ackedBy o ++ l)
  end.

(** The position after the first [k] rows of the table. *)
Definition posAt (k : nat) : Pos :=
  match k with
  | O => zeroPos
  | S i => match t !! i with Some r => Key r | None => zeroPos end
  end.

Lemma rowsAfter_all l seq : (forall x, x ∈ l -> seq < Seq (Key x)) -> rowsAfter l seq = l.
Proof.
  induction l as [|r l IH]; intros H; [done|]. cbn [rowsAfter List.filter]. fold (rowsAfter l seq).
  rewrite (proj2 (Z.ltb_lt seq (Seq (Key r)))) by (apply H; left). f_equal. apply IH. intros x Hx. apply H. by right.
Qed.

Lemma rowsAfter_drop (k : nat) seq :
  (forall i r, t !! i = Some r -> (i < k)%nat -> Seq (Key r) <= seq) ->
  (forall i r, t !! i = Some r -> (k <= i)%nat -> seq < Seq (Key r)) -> rowsAfter t seq = drop k t.
Proof.
  clear. revert k. induction t as [|r l IH]; intros k Hlo Hhi; [by destruct k|].
  destruct k as [|k]; cbn [drop].
  - apply rowsAfter_all. intros x [i Hi]%list_elem_of_lookup. apply (Hhi i x Hi). lia.
  - cbn [rowsAfter List.filter]. fold (rowsAfter l seq). specialize (Hlo 0%nat r eq_refl ltac:(lia)) as H0.
    rewrite (proj2 (Z.ltb_ge seq (Seq (Key r)))) by lia. apply IH.
    + intros i x Hi Hk. apply (Hlo (S i) x Hi). lia.
    + intros i x Hi Hk. apply (Hhi (S i) x Hi). lia.
Qed.

Lemma row_le i j r s : t !! i = Some r -> t !! j = Some s -> (i <= j)%nat -> Seq (Key r) <= Seq (Key s).
Proof.
  intros Hi Hj Hij. destruct (decide (i = j)) as [->|]; [simplify_eq; lia|].
  specialize (Hasc i j r s Hi Hj ltac:(lia)). lia.
Qed.

Lemma row_pos i r : t !! i = Some r -> 0 < Seq (Key r).
Proof. intros H. apply Hok. by eapply list_elem_of_lookup_2. Qed.

Lemma rowsAfter_row i r : t !! i = Some r -> rowsAfter t (Seq (Key r) - 1) = drop i t.
Proof.
  intros Hi. apply rowsAfter_drop; intros j x Hj Hji.
  - specialize (Hasc j i x r Hj Hi Hji). lia.
  - pose proof (row_le i j r x Hi Hj Hji). lia.
Qed.

Lemma rowsAfter_zero : rowsAfter t 0 = t.
Proof. apply rowsAfter_all. intros x Hx. by apply Hok. Qed.

(** The tail of a step, once the rows from the [k]th on were read. *)
Lemma findFirst_last rows r :
  ascending rows -> last rows = Some r -> findFirst (fun x => Seq (Key x) =? Seq (Key r)) rows = Some r.
Proof.
  induction rows as [|a rows IH]; [done|]. intros [Ha Hlt]%ascending_cons Hl. cbn [findFirst].
  destruct rows as [|b rows]; [cbn in Hl; simplify_eq; by rewrite Z.eqb_refl|].
  rewrite last_cons_cons in Hl. specialize (Hlt r (last_Some_elem_of _ _ Hl)).
  rewrite (proj2 (Z.eqb_neq (Seq (Key a)) (Seq (Key r)))) by lia. by apply IH.
Qed.

Lemma ascending_drop (k : nat) : ascending (drop k t).
Proof. intros i j a b. rewrite !lookup_drop. intros Ha Hb Hij. apply (Hasc (k + i)%nat (k + j)%nat); [done | done | lia]. Qed.

Lemma filter_le_last rows r :
  ascending rows -> last rows = Some r -> List.filter (fun x => Seq (Key x) <=? Seq (Key r)) rows = rows.
Proof.
  induction rows as [|a rows IH]; [done|]. intros [Ha Hlt]%ascending_cons Hl. cbn [List.filter].
  destruct rows as [|b rows]; [cbn in Hl; simplify_eq; by rewrite Z.leb_refl|].
  rewrite last_cons_cons in Hl. specialize (Hlt r (last_Some_elem_of _ _ Hl)).
  rewrite (proj2 (Z.leb_le (Seq (Key a)) (Seq (Key r)))) by lia. f_equal. by apply IH.
Qed.

Lemma last_posAt k rows r : rows = take Batch (drop k t) -> last rows = Some r -> posAt (k + length rows) = Key r.
Proof.
  intros Hr Hl. rewrite last_lookup in Hl.
  assert (Hn : (0 < length rows)%nat) by (destruct rows; [done | cbn; lia]).
  destruct (length rows) as [|m] eqn:Em; [lia|]. rewrite Nat.add_succ_r. cbn [posAt Nat.pred] in *.
  subst rows. rewrite lookup_take_lt, lookup_drop in Hl by (rewrite length_take in Em; lia). by rewrite Hl.
Qed.

Lemma posAt_lt k rows r : rows = take Batch (drop k t) -> r ∈ rows -> Seq (posAt k) < Seq (Key r).
Proof.
  intros -> [i Hi]%list_elem_of_lookup. apply lookup_take_Some in Hi as [Hi _]. rewrite lookup_drop in Hi.
  destruct k as [|k]; [by eapply row_pos|]. cbn [posAt].
  destruct (t !! k) as [s|] eqn:E; [|cbn; by eapply row_pos]. apply (Hasc k (S k + i)%nat s r E Hi). lia.
Qed.

Lemma readRows_at k p :
  (k <= length t)%nat -> (p = posAt k \/ (k = 0%nat /\ 0 < Seq p /\ forall r, r ∈ t -> Key r <> p)) ->
  readRows workingEnv (mkCursor p p) = inr (mkCursor (posAt k) (posAt k), take Batch (drop k t)).
Proof.
  intros Hk [->|(-> & Hp & Hno)].
  - destruct k as [|i]; [unfold readRows; cbn; by rewrite rowsAfter_zero, drop_0|].
    destruct (lookup_lt_is_Some_2 t i ltac:(lia)) as [r Hr]. unfold readRows. cbn [posAt pos durable workingEnv After].
    rewrite Hr. rewrite (proj2 (Z.ltb_lt 0 (Seq (Key r)))) by (by eapply row_pos).
    rewrite (rowsAfter_row i r Hr), (drop_S t r i Hr). cbn [take]. by rewrite bool_decide_true.
  - unfold readRows. cbn [pos durable workingEnv After]. rewrite (proj2 (Z.ltb_lt 0 (Seq p))) by done.
    cbn [store Set' posAt drop]. rewrite rowsAfter_zero.
    destruct (take (S Batch) (rowsAfter t (Seq p - 1))) as [|r l] eqn:E; [done|].
    rewrite bool_decide_false; [done|]. apply Hno.
    assert (Hin : r ∈ take (S Batch) (rowsAfter t (Seq p - 1))) by (rewrite E; left).
    apply list_elem_of_lookup in Hin as (i & Hi). apply lookup_take_Some in Hi as [Hi%list_elem_of_lookup_2 _].
    by apply elem_of_rowsAfter in Hi as [Hi _].
Qed.

Lemma step_at k p :
  (k <= length t)%nat -> (p = posAt k \/ (k = 0%nat /\ 0 < Seq p /\ forall r, r ∈ t -> Key r <> p)) ->
  let rows := take Batch (drop k t) in let q := posAt (k + length rows) in
  oCursor (Step workingEnv (mkCursor p p)) = mkCursor q q /\ ackedBy (Step workingEnv (mkCursor p p)) = rows.
Proof.
  intros Hk Hp rows q. unfold Step. rewrite (readRows_at k p Hk Hp). fold rows. cbn [workingEnv Deliver].
  assert (Hra : ascending rows) by (eapply ascending_prefix; [apply prefix_take | apply ascending_drop]).
  unfold nextSeq, lastAck, q. cbn [pos]. destruct (last rows) as [r|] eqn:El.
  - pose proof (posAt_lt k rows r eq_refl (last_Some_elem_of _ _ El)) as Hlt.
    rewrite Z.min_id, Z.max_r by lia. rewrite (proj2 (Z.eqb_neq _ _)) by lia.
    unfold store, rowHash. rewrite (findFirst_last rows r Hra El). cbn [workingEnv Set' ackedBy oAcked oCursor].
    rewrite (last_posAt k rows r eq_refl El), (filter_le_last rows r Hra El). by destruct (Key r).
  - apply last_None in El. rewrite El, Z.eqb_refl, Nat.add_0_r. done.
Qed.

Lemma drive_at n k p :
  (k <= length t)%nat -> (length t - k < n)%nat ->
  (p = posAt k \/ (k = 0%nat /\ 0 < Seq p /\ forall r, r ∈ t -> Key r <> p)) ->
  drive workingEnv n (mkCursor p p) = (mkCursor (posAt (length t)) (posAt (length t)), drop k t).
Proof.
  revert k p. induction n as [|n IH]; intros k p Hk Hn Hp; [lia|]. cbn [drive].
  destruct (step_at k p Hk Hp) as [Hc Ha]. rewrite Hc, Ha. set (rows := take Batch (drop k t)) in *.
  assert (Hlen : length rows = (Batch `min` (length t - k))%nat) by (unfold rows; by rewrite length_take, length_drop).
  destruct n as [|n'].
  - assert (Hkl : k = length t) by lia. cbn [drive].
    rewrite Hlen, Hkl, Nat.sub_diag, Nat.min_0_r, Nat.add_0_r.
    unfold rows. by rewrite Hkl, drop_all, take_nil.
  - rewrite (IH (k + length rows)%nat); [|lia|lia|by left]. f_equal.
    rewrite <- (take_drop Batch (drop k t)) at 1. fold rows. f_equal. rewrite drop_drop.
    destruct (Nat.le_ge_cases Batch (length t - k)); [f_equal; lia|].
    rewrite !drop_ge; [done | lia | lia].
Qed.

(** Liveness of the cursor: with the receiver answering, more steps than the
    table has rows bring the position, in memory and durable, to the last row,
    whatever position was loaded, and every row after the loaded position is
    acknowledged exactly once and in order; a position that names no row of the
    table starts over and every row is delivered. *)
Theorem cursor_reaches_the_end n k p :
  (length t < n)%nat -> (k <= length t)%nat ->
  (p = posAt k \/ (k = 0%nat /\ 0 < Seq p /\ forall r, r ∈ t -> Key r <> p)) ->
  drive workingEnv n (mkCursor p p) = (mkCursor (posAt (length t)) (posAt (length t)), drop k t).
Proof. intros Hn Hk. apply drive_at; lia. Qed.
End Progress.
End Cursor.

(** ** A concrete stream: three rows, whose tables are its prefixes. *)
Definition demoRows : list Pos := [mkPos 1 "a"; mkPos 2 "b"; mkPos 3 "c"].
Definition demoValid (t : list Pos) : Prop := t `prefix_of` demoRows.

Lemma demoRows_ascending : ascending id demoRows.
Proof. repeat (apply ascending_cons; split; [|intros x Hx; repeat (apply elem_of_cons in Hx as [->|Hx]; [cbn; lia|]); by apply not_elem_of_nil in Hx]). by intros i. Qed.

Lemma demoRows_ok r : r ∈ demoRows -> rowOK id r.
Proof. intros Hr. repeat (apply elem_of_cons in Hr as [->|Hr]; [by split|]). by apply not_elem_of_nil in Hr. Qed.

Lemma demo_chained : chained id demoValid.
Proof.
  assert (Hin : forall t (x : Pos), demoValid t -> x ∈ t -> x ∈ demoRows) by (intros t x [k ->] Hx; apply elem_of_app; by left).
  split.
  - intros t Ht. eapply ascending_prefix; [exact Ht | exact demoRows_ascending].
  - intros t r Ht Hr. by eapply demoRows_ok, Hin.
  - intros t t' r r' x Ht Ht' Hr Hr' Hk Hx Hle. cbn in Hk, Hle. subst r'.
    apply list_elem_of_lookup in Hr as [i Hi]. apply list_elem_of_lookup in Hx as [j Hj].
    destruct Ht as [k Hk], Ht' as [k' Hk'].
    assert (Hi' : demoRows !! i = Some r) by (rewrite Hk; by apply lookup_app_l_Some).
    assert (Hj' : demoRows !! j = Some x) by (rewrite Hk'; by apply lookup_app_l_Some).
    destruct (decide (i < j)%nat) as [Hij|Hij].
    + specialize (demoRows_ascending i j r x Hi' Hj' Hij) as H. cbn in H. lia.
    + apply lookup_lt_Some in Hi. rewrite Hk, lookup_app_l in Hj' by lia. by eapply list_elem_of_lookup_2.
Qed.

Definition demoEnv := workingEnv (T := Pos) id demoRows 0.

Lemma delivered_at_least_once_witness :
  run id 2 demoValid (mkCursor (mkPos 2 "b") (mkPos 2 "b")) [mkPos 1 "a"; mkPos 2 "b"] /\
  mkPos 1 "a" ∈ [mkPos 1 "a"; mkPos 2 "b"].
Proof.
  assert (Hrun : run id 2 demoValid (mkCursor (mkPos 2 "b") (mkPos 2 "b")) [mkPos 1 "a"; mkPos 2 "b"]).
  { apply (run_step id 2 demoValid (mkCursor zeroPos zeroPos) [] demoRows demoEnv); [apply run_start | by exists []|].
    intros seq limit rows [= <-]. split; [apply prefix_take | rewrite length_take; lia]. }
  split; [exact Hrun|].
  apply (delivered_at_least_once id 2 demoValid demo_chained _ _ demoRows _ Hrun); [by exists [] | by left|].
  exists (mkPos 2 "b"). split; [by right; left | split; [by left | cbn; lia]].
Defined.

Lemma cursor_reaches_the_end_witness :
  drive id 2 demoEnv 4 (mkCursor (mkPos 1 "a") (mkPos 1 "a")) =
    (mkCursor (mkPos 3 "c") (mkPos 3 "c"), [mkPos 2 "b"; mkPos 3 "c"]).
Proof.
  apply (cursor_reaches_the_end id 2 demoRows demoRows_ascending demoRows_ok ltac:(lia) 0 4 1); [cbn; lia.. | by left].
Defined.

(** A position the table does not hold starts over. *)
Example reset_starts_over :
  Step id 2 demoEnv (mkCursor (mkPos 2 "x") (mkPos 2 "x")) =
    mkOut (mkCursor (mkPos 2 "b") (mkPos 2 "b")) (inr true) (Some ([mkPos 1 "a"; mkPos 2 "b"], 2)).
Proof. reflexivity. Qed.

(** An acknowledged sequence that is no row of the batch is stored without a
    hash, and the next step starts over. *)
Example gap_ack_restarts :
  let e := mkEnv (After demoEnv) (fun _ => inr 2) (Set' demoEnv) in
  let e0 := mkEnv (fun seq limit => inr (take limit (rowsAfter id [mkPos 1 "a"; mkPos 3 "c"] seq))) (Deliver e) (Set' demoEnv) in
  let c := oCursor (Step id 2 e0 (mkCursor zeroPos zeroPos)) in
  pos c = mkPos 2 "" /\ oAcked (Step id 2 demoEnv c) = Some ([mkPos 1 "a"; mkPos 2 "b"], 2).
Proof. by split. Qed.
