(* ===== verification/PoolLimits.v ===== *)
(** * The effective limits of a run

    [internal/runnerpool/limits.go] over the pool types of
    [internal/types/runner_pool_limits.go]: the CPU, memory, main drive, lifetime
    and idle stop of a run are folded from the limits of its pool, of the person's
    governance, of the deployment and of the candidate runners, the strictest of
    each field.

    A pointer is an [option]; a refusal keeps its reason and what it names; an
    error of [Effective] keeps its cause but not its text. *)
From S2P Require Import Prelude GoStrings GoSlices PolicyTypes.
Local Open Scope string_scope.
Local Open Scope Z_scope.
Local Open Scope list_scope.

(** ** Pool limits as stored *)

Definition RunnerPoolRunBackground : string := "background".
Definition RunnerPoolRunInteractive : string := "interactive".
Definition runTypeValid (t : string) : bool :=
  String.eqb t RunnerPoolRunBackground || String.eqb t RunnerPoolRunInteractive.

Definition RunnerPoolCPUMillisMax : Z := 1000000.
Definition RunnerPoolMemoryMiBMax : Z := Z.shiftl 16 20.
Definition RunnerPoolDiskMiBMax : Z := Z.shiftl 16 20.
Definition MaxInt32 : Z := 2147483647.
Definition RunnerPoolSecondsMax : Z := MaxInt32.

Record RunnerPoolAmount := mkAmount { am_Default : Z; am_Cap : Z }.
Record RunnerPoolDuration := mkDuration { DefaultSec : Z; MaxSec : Z; Unlimited : bool }.

(** The checks of the write path; [true] is no error. *)
Definition amountValidate (bound : Z) (a : RunnerPoolAmount) : bool :=
  negb ((am_Default a <? 1) || (am_Cap a <? 1)) && negb (am_Cap a >? bound) && negb (am_Default a >? am_Cap a).

Definition validateSet {A} (f : A -> bool) (o : option A) : bool := match o with None => true | Some a => f a end.

Definition validateDisk (o : option RunnerPoolAmount) : bool :=
  validateSet (fun a => amountValidate RunnerPoolDiskMiBMax a &&
                        (am_Default a mod 1024 =? 0) && (am_Cap a mod 1024 =? 0)) o.

Definition durationValidate (d : RunnerPoolDuration) : bool :=
  negb (Unlimited d && negb (MaxSec d =? 0)) && negb (negb (Unlimited d) && (MaxSec d <? 1)) &&
  negb ((MaxSec d >? RunnerPoolSecondsMax) || (DefaultSec d >? RunnerPoolSecondsMax)) &&
  negb (DefaultSec d <? 0) && negb (negb (Unlimited d) && (DefaultSec d <? 1)) &&
  negb (negb (Unlimited d) && (DefaultSec d >? MaxSec d)).

Record RunnerPoolBackgroundLimits := mkBgLimits {
  bg_CPUMillis : option RunnerPoolAmount; bg_MemoryMiB : option RunnerPoolAmount;
  bg_DiskMiB : option RunnerPoolAmount; bg_Lifetime : option RunnerPoolDuration }.

Record RunnerPoolInteractiveLimits := mkIaLimits {
  ia_CPUMillis : option RunnerPoolAmount; ia_MemoryMiB : option RunnerPoolAmount;
  ia_DiskMiB : option RunnerPoolAmount; ia_Lifetime : option RunnerPoolDuration;
  ia_Idle : option RunnerPoolDuration }.

Record RunnerPoolLimits := mkPoolLimits {
  Background : option RunnerPoolBackgroundLimits; Interactive : option RunnerPoolInteractiveLimits;
  Barriers : list string; pl_MaxConcurrentRuns : option Z }.

Definition validateBackground (b : RunnerPoolBackgroundLimits) : bool :=
  validateSet (amountValidate RunnerPoolCPUMillisMax) (bg_CPUMillis b) &&
  validateSet (amountValidate RunnerPoolMemoryMiBMax) (bg_MemoryMiB b) &&
  validateDisk (bg_DiskMiB b) && validateSet durationValidate (bg_Lifetime b).

Definition validateInteractive (i : RunnerPoolInteractiveLimits) : bool :=
  validateSet (amountValidate RunnerPoolCPUMillisMax) (ia_CPUMillis i) &&
  validateSet (amountValidate RunnerPoolMemoryMiBMax) (ia_MemoryMiB i) &&
  validateDisk (ia_DiskMiB i) && validateSet durationValidate (ia_Lifetime i) &&
  validateSet durationValidate (ia_Idle i) &&
  negb (match ia_Lifetime i with Some d => Unlimited d && (DefaultSec d <? 1) | None => false end).

Fixpoint validateBarriers (seen : list string) (l : list string) : bool :=
  match l with
  | [] => true
  | c :: l' => negb (classRank c =? 0) && negb (memS c seen) && validateBarriers (c :: seen) l'
  end.

Definition poolLimitsValidate (l : RunnerPoolLimits) : bool :=
  negb (match Background l, Interactive l with None, None => true | _, _ => false end) &&
  validateSet validateBackground (Background l) && validateSet validateInteractive (Interactive l) &&
  validateBarriers [] (Barriers l) &&
  negb (match pl_MaxConcurrentRuns l with Some n => (n <? 1) || (n >? MaxInt32) | None => false end).

Definition AllowsRunType (l : RunnerPoolLimits) (t : string) : bool :=
  if String.eqb t RunnerPoolRunBackground then match Background l with Some _ => true | None => false end
  else if String.eqb t RunnerPoolRunInteractive then match Interactive l with Some _ => true | None => false end
  else false.

Definition AllowsBarrier (l : RunnerPoolLimits) (c : string) : bool :=
  match Barriers l with [] => true | _ => memS c (Barriers l) end.

Definition RunnerPoolActive : string := "active".
Definition RunnerPoolDisabled : string := "disabled".
Definition RunnerPoolDeleted : string := "deleted".

(** The fields of [types.RunnerPool] the package reads. *)
Record RunnerPool := mkPool {
  ID : string; Name : string; PScope : string; State : string; Revision : Z; Limits : option RunnerPoolLimits }.

(** ** Sources *)

Definition LimitSourcePool : string := "pool".
Definition LimitSourceGovernance : string := "governance".
Definition LimitSourceDeployment : string := "deployment".
Definition LimitSourceRunner : string := "runner".

Record Bound := mkBound { Max : option Z; Default : option Z }.
Definition noBound : Bound := mkBound None None.

Record SourceLimits := mkSource {
  LSource : string; sl_CPUMillis : Bound; sl_MemoryMiB : Bound; sl_DiskMiB : Bound; LifetimeSec : Bound;
  IdleSec : Bound; ConcurrentRuns : option Z; NoEnd : option bool }.

Definition emptySource (s : string) : SourceLimits :=
  mkSource s noBound noBound noBound noBound noBound None None.

Definition sourceRank (s : string) : option Z :=
  if String.eqb s LimitSourcePool then Some 0
  else if String.eqb s LimitSourceGovernance then Some 1
  else if String.eqb s LimitSourceRunner then Some 2
  else if String.eqb s LimitSourceDeployment then Some 3 else None.

(** A Go map read of an absent key is the zero value. *)
Definition rankOf (s : SourceLimits) : Z := default 0 (sourceRank (LSource s)).
Definition rankLeb (a b : SourceLimits) : bool := rankOf a <=? rankOf b.

(** ** The fold *)

Inductive LimitAmount := Amount (v : Z) | NoLimit.

Record EffectiveLimit := mkEffLimit {
  el_Default : LimitAmount; el_Cap : LimitAmount; DefaultSource : string; CapSource : string }.

Record ConcurrencyBound := mkConc { cb_Source : string; cb_Max : Z }.

Record EffectiveRunLimits := mkEffRun {
  RunType : string; el_CPUMillis : EffectiveLimit; el_MemoryMiB : EffectiveLimit; el_DiskMiB : EffectiveLimit;
  Lifetime : EffectiveLimit; LifetimeSpan : EffectiveLimit; LifetimeLease : EffectiveLimit;
  NoEndAllowed : bool; Idle : option EffectiveLimit; Concurrency : list ConcurrencyBound }.

Inductive limitErr :=
| ErrRunType (t : string) | ErrUnknownSource (s : string) | ErrDeployments (n : nat) | ErrRepeated
| ErrBounds.

(** What the loop of [foldField] carries: [capV], [out.CapSource], [defV],
    [defSource]. *)
Record foldAcc := mkAcc { capV : option Z; capSource : string; defV : option Z; defSource : string }.

Definition badBound (b : Bound) : bool :=
  match Max b with Some m => m <? 1 | None => false end ||
  match Default b with Some d => d <? 1 | None => false end.

Definition foldStep (a : foldAcc) (s : SourceLimits) (b : Bound) : foldAcc :=
  let '(cv, cs) :=
    match Max b, capV a with
    | Some m, None => (Some m, LSource s)
    | Some m, Some c => if m <? c then (Some m, LSource s) else (capV a, capSource a)
    | None, _ => (capV a, capSource a)
    end in
  let '(dv, ds) :=
    match Default b, defV a with
    | Some d, None => (Some d, LSource s)
    | Some d, Some c =>
        if negb (String.eqb (LSource s) LimitSourceDeployment) && (d <? c) then (Some d, LSource s)
        else (defV a, defSource a)
    | None, _ => (defV a, defSource a)
    end in
  mkAcc cv cs dv ds.

Fixpoint foldLoop (pick : SourceLimits -> Bound) (a : foldAcc) (l : list SourceLimits) : option foldAcc :=
  match l with
  | [] => Some a
  | s :: l' => if badBound (pick s) then None else foldLoop pick (foldStep a s (pick s)) l'
  end.

Definition finish (a : foldAcc) : EffectiveLimit :=
  let cap := match capV a with None => NoLimit | Some c => Amount c end in
  match defV a, capV a with
  | Some d, None => mkEffLimit (Amount d) cap (defSource a) (capSource a)
  | Some d, Some c => if d <=? c then mkEffLimit (Amount d) cap (defSource a) (capSource a)
                      else mkEffLimit (Amount c) cap (capSource a) (capSource a)
  | None, Some c => mkEffLimit (Amount c) cap (capSource a) (capSource a)
  | None, None => mkEffLimit NoLimit cap "" (capSource a)
  end.

Definition foldField (ordered : list SourceLimits) (pick : SourceLimits -> Bound) : option EffectiveLimit :=
  option_map finish (foldLoop pick (mkAcc None "" None "") ordered).

Definition lifetimeOf (s : SourceLimits) (lease : bool) : Bound :=
  if Bool.eqb (String.eqb (LSource s) LimitSourceGovernance) lease then LifetimeSec s else noBound.

Definition allowsNoEnd (s : SourceLimits) : bool :=
  match NoEnd s with
  | Some b => b
  | None => match Max (LifetimeSec s) with None => true | Some _ => false end
  end.

Fixpoint concurrency (l : list SourceLimits) : option (list ConcurrencyBound) :=
  match l with
  | [] => Some []
  | s :: l' =>
      match ConcurrentRuns s with
      | None => concurrency l'
      | Some n => if n <? 1 then None else option_map (cons (mkConc (LSource s) n)) (concurrency l')
      end
  end.

Definition countSource (src : string) (l : list SourceLimits) : nat :=
  length (List.filter (fun s => String.eqb (LSource s) src) l).

(** What the caller's sources must be before anything is folded. *)
Definition checkSources (sources : list SourceLimits) : option limitErr :=
  match findFirst (fun s => match sourceRank (LSource s) with None => true | Some _ => false end) sources with
  | Some s => Some (ErrUnknownSource (LSource s))
  | None =>
      let n := countSource LimitSourceDeployment sources in
      if negb (Nat.eqb n 1) then Some (ErrDeployments n)
      else if existsb (fun s => Nat.ltb 1 (countSource (LSource s) sources)) sources then Some ErrRepeated
      else None
  end.

Definition foldSources (runType : string) (ordered : list SourceLimits) : option EffectiveRunLimits :=
  cpu ← foldField ordered sl_CPUMillis;
  mem ← foldField ordered sl_MemoryMiB;
  disk ← foldField ordered sl_DiskMiB;
  life ← foldField ordered LifetimeSec;
  span ← foldField ordered (fun s => lifetimeOf s false);
  lease ← foldField ordered (fun s => lifetimeOf s true);
  idle ← (if String.eqb runType RunnerPoolRunInteractive then option_map Some (foldField ordered IdleSec) else Some None);
  conc ← concurrency ordered;
  Some (mkEffRun runType cpu mem disk life span lease (forallb allowsNoEnd ordered) idle conc).

Definition Effective (runType : string) (sources : list SourceLimits) : limitErr + EffectiveRunLimits :=
  if negb (runTypeValid runType) then inl (ErrRunType runType)
  else match checkSources sources with
       | Some e => inl e
       | None => match foldSources runType (sortBy rankLeb sources) with
                 | None => inl ErrBounds
                 | Some out => inr out
                 end
       end.

(** [EffectiveLimit.Apply]: a request's value against the limit. *)
Definition Apply (l : EffectiveLimit) (asked : Z) : LimitAmount * bool :=
  if asked <=? 0 then (el_Default l, false)
  else match el_Cap l with
       | NoLimit => (Amount asked, false)
       | Amount c => if asked <=? c then (Amount asked, false) else (Amount c, true)
       end.

(** ** The sources *)

Definition positive (n : Z) : option Z := if n >? 0 then Some n else None.

(** [types.EphemeralProvider]: the organisation's main-drive default and
    maximum. *)
Record EphemeralProvider := mkEph { DefaultDiskMiB : Z; MaxDiskMiB : Z }.

Definition DeploymentSource (defaults : ResourceLimits) (eph : EphemeralProvider) (maxAgeSec concurrentRuns : Z)
  : option SourceLimits :=
  if (CPUMillis defaults <? 1) || (MemoryMiB defaults <? 1) || (DefaultDiskMiB eph <? 0) || (MaxDiskMiB eph <? 0)
     || (maxAgeSec <? 0) || (concurrentRuns <? 0) then None
  else Some (mkSource LimitSourceDeployment
    (mkBound (Some RunnerPoolCPUMillisMax) (Some (CPUMillis defaults)))
    (mkBound (Some RunnerPoolMemoryMiBMax) (Some (MemoryMiB defaults)))
    (mkBound (positive (MaxDiskMiB eph)) (positive (DefaultDiskMiB eph)))
    (mkBound (if maxAgeSec >? 0 then Some maxAgeSec else None) None) noBound
    (if concurrentRuns >? 0 then Some concurrentRuns else None) None).

Definition InteractiveDefaultLifetimeSec : Z := 24 * 60 * 60.

Definition WithInteractiveLifetimeDefault (d : SourceLimits) (runType : string) : SourceLimits :=
  if String.eqb runType RunnerPoolRunInteractive && match Default (LifetimeSec d) with None => true | Some _ => false end
  then mkSource (LSource d) (sl_CPUMillis d) (sl_MemoryMiB d) (sl_DiskMiB d)
         (mkBound (Max (LifetimeSec d)) (Some InteractiveDefaultLifetimeSec)) (IdleSec d) (ConcurrentRuns d) (NoEnd d)
  else d.

(** The reasons this package's selection gives. *)
Inductive Reason :=
| ReasonRequired | ReasonNotFound | ReasonUnavailable | ReasonDefaultUnavailable
| ReasonRunTypeMissing | ReasonRunTypeNotAllowed | ReasonBarrierNotAllowed.

Record Refusal := mkRefusal {
  rf_Reason : Reason; rf_Source : string; rf_Name : string; rf_RunType : string; rf_Barrier : string;
  rf_Allowed : list string }.

Definition amountBound (a : option RunnerPoolAmount) : Bound :=
  match a with None => noBound | Some a => mkBound (Some (am_Cap a)) (Some (am_Default a)) end.

Definition durationBound (d : option RunnerPoolDuration) : Bound :=
  match d with
  | None => noBound
  | Some d => mkBound (if Unlimited d then None else Some (MaxSec d))
                      (if DefaultSec d >? 0 then Some (DefaultSec d) else None)
  end.

Definition PoolSource (p : RunnerPool) (runType : string) : SourceLimits * option Refusal :=
  let out := emptySource LimitSourcePool in
  match Limits p with
  | None => (out, None)
  | Some l =>
      if String.eqb runType "" then (out, Some (mkRefusal ReasonRunTypeMissing "" (Name p) "" "" []))
      else if negb (AllowsRunType l runType)
      then (out, Some (mkRefusal ReasonRunTypeNotAllowed "" (Name p) runType "" []))
      else if String.eqb runType RunnerPoolRunBackground then
        match Background l with
        | Some b => (mkSource LimitSourcePool (amountBound (bg_CPUMillis b)) (amountBound (bg_MemoryMiB b))
                       (amountBound (bg_DiskMiB b)) (durationBound (bg_Lifetime b)) noBound (pl_MaxConcurrentRuns l) None, None)
        | None => (out, None)
        end
      else
        match Interactive l with
        | Some i => (mkSource LimitSourcePool (amountBound (ia_CPUMillis i)) (amountBound (ia_MemoryMiB i))
                       (amountBound (ia_DiskMiB i)) (durationBound (ia_Lifetime i)) (durationBound (ia_Idle i))
                       (pl_MaxConcurrentRuns l) None, None)
        | None => (out, None)
        end
  end.

Definition CheckBarrier (p : RunnerPool) (barrier : string) : option Refusal :=
  match Limits p with
  | None => None
  | Some l => if AllowsBarrier l barrier then None
              else Some (mkRefusal ReasonBarrierNotAllowed "" (Name p) "" barrier (Barriers l))
  end.

Record Wait := mkWait { w_Pool : string; w_Max : Z }.

Definition AtCapacity (p : RunnerPool) (running : Z) : option Wait :=
  match Limits p with
  | None => None
  | Some l => match pl_MaxConcurrentRuns l with
              | None => None
              | Some m => if running <? m then None else Some (mkWait (Name p) m)
              end
  end.

Definition MemberCap (ceiling profileMax untouched : Z) : Z :=
  let size := if ceiling <? 1 then profileMax else if profileMax >? 0 then Z.min ceiling profileMax else ceiling in
  Z.max size untouched.

Definition CapKnobCeiling : string := "ceiling".
Definition CapKnobLimits : string := "limits".
Definition CapKnobBaseline : string := "baseline".

Definition MemberCapKnob (ceiling profileMax capped : Z) : string :=
  let size := MemberCap ceiling profileMax 0 in
  if capped >? size then CapKnobBaseline
  else if (capped <? size) || (size <? 1) then ""
  else if (ceiling >=? 1) && ((profileMax <? 1) || (ceiling <=? profileMax)) then CapKnobCeiling
  else CapKnobLimits.

Definition lowerPositive (a b : Z) : option Z :=
  if (a >? 0) && (b >? 0) then Some (Z.min a b) else if a >? 0 then Some a else positive b.

Definition GovernanceSource (l : GovernanceLimits) (ceiling untouched deploymentDefault : ResourceLimits)
  : option SourceLimits :=
  if (CPUMillis deploymentDefault <? 1) || (MemoryMiB deploymentDefault <? 1) then None
  else
    let rl := LRunLimits l in
    let noEnd := AllowNoEnd rl && UserChangesLimits rl in
    let lifeMax := if MaxEndAheadSec rl >? 0 then Some (MaxEndAheadSec rl)
                   else if negb noEnd then Some RunnerPoolSecondsMax else None in
    Some (mkSource LimitSourceGovernance
      (mkBound (Some (MemberCap (CPUMillis ceiling) (MaxCPUMillis l)
                        (cmpOrZ (CPUMillis untouched) (CPUMillis deploymentDefault)))) None)
      (mkBound (Some (MemberCap (MemoryMiB ceiling) (MaxMemoryMiB l)
                        (cmpOrZ (MemoryMiB untouched) (MemoryMiB deploymentDefault)))) None)
      (mkBound (lowerPositive (MaxEphemeralDiskMiB l) (DiskMiB ceiling)) None)
      (mkBound lifeMax (positive (cmpOrZ (DefaultEndSec rl) (MaxEndAheadSec rl)))) noBound
      (positive (MaxConcurrentRuns l)) (Some noEnd)).

Record RunnerCapacity := mkCap { rc_CPUMillis : Z; rc_MemoryMiB : Z; rc_DiskMiB : Z }.

Definition capCompare (c b : RunnerCapacity) : comparison :=
  match rc_CPUMillis c ?= rc_CPUMillis b with
  | Eq => match rc_MemoryMiB c ?= rc_MemoryMiB b with Eq => rc_DiskMiB c ?= rc_DiskMiB b | o => o end
  | o => o
  end.

Fixpoint bestCapacity (best : RunnerCapacity) (l : list RunnerCapacity) : option RunnerCapacity :=
  match l with
  | [] => Some best
  | c :: l' =>
      if (rc_CPUMillis c <? 1) || (rc_MemoryMiB c <? 1) || (rc_DiskMiB c <? 1) then None
      else bestCapacity (match capCompare c best with Gt => c | _ => best end) l'
  end.

Definition RunnerCapacitySource (candidates : list RunnerCapacity) : option SourceLimits :=
  match candidates with
  | [] => None
  | c0 :: _ =>
      best ← bestCapacity c0 candidates;
      let clamp v := mkBound (Some (Z.min v MaxInt32)) None in
      Some (mkSource LimitSourceRunner (clamp (rc_CPUMillis best)) (clamp (rc_MemoryMiB best))
              (clamp (rc_DiskMiB best)) noBound noBound None None)
  end.

(** ** What the fold must give

    The strictest maximum of a field and the default a request that asks for
    nothing gets, as minima over the sources in whatever order they come. *)

Definition omin (a b : option Z) : option Z :=
  match a, b with
  | Some x, Some y => Some (Z.min x y)
  | Some x, None => Some x
  | None, _ => b
  end.

Definition minOf {A} (f : A -> option Z) (l : list A) : option Z := foldr (fun x acc => omin (f x) acc) None l.

Definition named (s : SourceLimits) : bool := negb (String.eqb (LSource s) LimitSourceDeployment).

Definition specCap (pick : SourceLimits -> Bound) (l : list SourceLimits) : option Z :=
  minOf (fun s => Max (pick s)) l.

(** The lowest default a source other than the deployment names, else the
    deployment's. *)
Definition specDefault (pick : SourceLimits -> Bound) (l : list SourceLimits) : option Z :=
  match minOf (fun s => Default (pick s)) (List.filter named l) with
  | Some d => Some d
  | None => minOf (fun s => Default (pick s)) l
  end.

Definition amountOf (o : option Z) : LimitAmount := match o with Some v => Amount v | None => NoLimit end.

Record fieldSpec (sources : list SourceLimits) (pick : SourceLimits -> Bound) (lim : EffectiveLimit) : Prop := mkFieldSpec {
  fs_cap : el_Cap lim = amountOf (specCap pick sources);
  fs_default : el_Default lim = amountOf (omin (specDefault pick sources) (specCap pick sources));
  fs_source : forall c, specCap pick sources = Some c ->
    exists s, s ∈ sources /\ Max (pick s) = Some c /\ CapSource lim = LSource s /\
      forall s', s' ∈ sources -> Max (pick s') = Some c -> rankOf s <= rankOf s';
}.

Lemma omin_assoc a b c : omin a (omin b c) = omin (omin a b) c.
Proof. destruct a, b, c; cbn; try done. f_equal. lia. Qed.

Lemma omin_comm a b : omin a b = omin b a.
Proof. destruct a, b; cbn; try done. f_equal. lia. Qed.

Lemma omin_none_r a : omin a None = a.
Proof. by destruct a. Qed.

Lemma minOf_perm {A} (f : A -> option Z) l l' : l ≡ₚ l' -> minOf f l = minOf f l'.
Proof.
  unfold minOf. induction 1 as [|x l l' _ IH | x y l | l l' l'' _ IH1 _ IH2]; cbn; [done | by rewrite IH | | congruence].
  by rewrite !omin_assoc, (omin_comm (f y)).
Qed.

Lemma minOf_cons {A} (f : A -> option Z) x l : minOf f (x :: l) = omin (f x) (minOf f l).
Proof. done. Qed.

Lemma minOf_None {A} (f : A -> option Z) l : minOf f l = None -> forall x, x ∈ l -> f x = None.
Proof.
  induction l as [|y l IH]; intros H x Hx; [by apply not_elem_of_nil in Hx|]. rewrite minOf_cons in H.
  destruct (f y) eqn:Ey, (minOf f l); cbn in H; try done. apply elem_of_cons in Hx as [->|Hx]; auto.
Qed.

Lemma minOf_app {A} (f : A -> option Z) l l' : minOf f (l ++ l') = omin (minOf f l) (minOf f l').
Proof. induction l as [|x l IH]; [done|]. cbn [app]. by rewrite !minOf_cons, IH, omin_assoc. Qed.

Lemma minOf_Some {A} (f : A -> option Z) l c :
  minOf f l = Some c -> (exists x, x ∈ l /\ f x = Some c) /\ forall x v, x ∈ l -> f x = Some v -> c <= v.
Proof.
  revert c. induction l as [|y l IH]; [done|]. intros c. rewrite minOf_cons.
  destruct (f y) as [v|] eqn:Ey, (minOf f l) as [m|] eqn:Em; cbn; intros [= <-].
  - destruct (IH _ eq_refl) as [(x & Hx & Hf) Hlo]. split.
    + destruct (Z.le_ge_cases v m); [exists y; rewrite Z.min_l by lia; split; [left | done] |
        exists x; rewrite Z.min_r by lia; split; [by right | done]].
    + intros z w [->|Hz]%elem_of_cons Hw; [simplify_eq; lia|]. specialize (Hlo z w Hz Hw). lia.
  - split; [exists y; split; [left | done]|]. intros z w [->|Hz]%elem_of_cons Hw; [simplify_eq; lia|].
    by rewrite (minOf_None f l Em z Hz) in Hw.
  - destruct (IH _ eq_refl) as [(x & Hx & Hf) Hlo]. split; [exists x; split; [by right | done]|].
    intros z w [->|Hz]%elem_of_cons Hw; [congruence|]. by eapply Hlo.
Qed.

(** *** The loop computes it *)

Lemma foldLoop_Some pick a l r :
  foldLoop pick a l = Some r -> forall s, s ∈ l -> badBound (pick s) = false.
Proof.
  revert a. induction l as [|s l IH]; intros a H x Hx; [by apply not_elem_of_nil in Hx|]. cbn [foldLoop] in H.
  destruct (badBound (pick s)) eqn:E; [done|]. apply elem_of_cons in Hx as [->|Hx]; [done | by eapply IH].
Qed.

Lemma foldLoop_total pick a l :
  (forall s, s ∈ l -> badBound (pick s) = false) -> is_Some (foldLoop pick a l).
Proof.
  revert a. induction l as [|s l IH]; intros a H; cbn [foldLoop]; [eauto|].
  rewrite (H s) by left. apply IH. intros x Hx. apply H. by right.
Qed.

Lemma foldLoop_app pick a l l' :
  foldLoop pick a (l ++ l') = match foldLoop pick a l with Some b => foldLoop pick b l' | None => None end.
Proof.
  revert a. induction l as [|s l IH]; intros a; cbn [foldLoop app]; [done|]. destruct (badBound (pick s)); [done | apply IH].
Qed.

Lemma foldStep_cap a s b : capV (foldStep a s b) = omin (capV a) (Max b).
Proof.
  unfold foldStep. destruct (Max b) as [m|], (capV a) as [c|], (Default b) as [d|], (defV a) as [e|];
    repeat break_goal; cbn in *; simplify_eq; bool_prop; f_equal; try lia.
Qed.

Lemma foldStep_def a s b :
  defV (foldStep a s b) =
    if named s then omin (defV a) (Default b) else match defV a with Some d => Some d | None => Default b end.
Proof.
  unfold foldStep, named. destruct (Max b) as [m|], (capV a) as [c|], (Default b) as [d|], (defV a) as [e|];
    repeat break_goal; cbn in *; simplify_eq; bool_prop; f_equal; try lia; try congruence.
Qed.

Lemma foldStep_capSource a s b :
  capSource (foldStep a s b) =
    match Max b, capV a with
    | Some m, Some c => if m <? c then LSource s else capSource a
    | Some m, None => LSource s
    | None, _ => capSource a
    end.
Proof.
  unfold foldStep. destruct (Max b) as [m|], (capV a) as [c|], (Default b) as [d|], (defV a) as [e|];
    repeat break_goal; cbn in *; simplify_eq; congruence.
Qed.

Lemma foldLoop_cap pick a l r : foldLoop pick a l = Some r -> capV r = omin (capV a) (specCap pick l).
Proof.
  unfold specCap. revert a. induction l as [|s l IH]; intros a; cbn [foldLoop].
  - intros [= <-]. by rewrite omin_none_r.
  - destruct (badBound (pick s)); [done|]. intros H. by rewrite (IH _ H), foldStep_cap, minOf_cons, omin_assoc.
Qed.

Lemma foldLoop_named pick a l r :
  (forall s, s ∈ l -> named s = true) -> foldLoop pick a l = Some r ->
  defV r = omin (defV a) (minOf (fun s => Default (pick s)) l).
Proof.
  revert a. induction l as [|s l IH]; intros a Hn; cbn [foldLoop].
  - intros [= <-]. by rewrite omin_none_r.
  - destruct (badBound (pick s)); [done|]. intros H.
    rewrite (IH _ (fun x Hx => Hn x ltac:(by right)) H), foldStep_def, (Hn s) by left. by rewrite minOf_cons, omin_assoc.
Qed.

Definition hasMax (pick : SourceLimits -> Bound) (c : Z) (s : SourceLimits) : bool := bool_decide (Max (pick s) = Some c).

Lemma foldLoop_capSource pick a l r c :
  foldLoop pick a l = Some r -> capV r = Some c ->
  (capV a = Some c /\ capSource r = capSource a) \/
  (capV a <> Some c /\ exists s, findFirst (hasMax pick c) l = Some s /\ capSource r = LSource s).
Proof.
  revert a. induction l as [|s l IH]; intros a; cbn [foldLoop findFirst].
  - intros [= <-] Hc. by left.
  - destruct (badBound (pick s)); [done|]. intros H Hc. pose proof (foldLoop_cap _ _ _ _ H) as Hm.
    rewrite Hc, foldStep_cap in Hm. destruct (IH _ H Hc) as [[Ha Hs]|[Ha (x & Hf & Hs)]];
      rewrite foldStep_cap in Ha; rewrite ?foldStep_capSource in Hs; unfold hasMax at 1.
    + destruct (Max (pick s)) as [m|] eqn:Em, (capV a) as [b|] eqn:Eb; cbn in Ha; simplify_eq; [| |by left].
      * destruct (m <? b) eqn:Elt; bool_prop.
        -- right. split; [injection; lia|]. rewrite Z.min_r by lia. rewrite bool_decide_true by done. eauto.
        -- left. rewrite Z.min_l by lia. done.
      * right. split; [done|]. rewrite bool_decide_true by done. eauto.
    + right. split; [|destruct (bool_decide_reflect (Max (pick s) = Some c)) as [E|E]; [|by eauto]].
      * intros Hac. rewrite Hac in Ha, Hm. destruct (Max (pick s)) as [m|]; [|done].
        apply Ha. cbn in Hm |- *. destruct (specCap pick l); cbn in Hm; injection Hm; intros; f_equal; lia.
      * exfalso. apply Ha. rewrite E. rewrite E in Hm. destruct (capV a) as [b|]; [|done].
        cbn in Hm |- *. destruct (specCap pick l); cbn in Hm; injection Hm; intros; f_equal; lia.
Qed.

(** *** The order of the sources *)

Lemma rankLeb_total x y : rankLeb x y = true \/ rankLeb y x = true.
Proof. unfold rankLeb. rewrite !Z.leb_le. lia. Qed.

Lemma rankLeb_trans x y z : rankLeb x y = true -> rankLeb y z = true -> rankLeb x z = true.
Proof. unfold rankLeb. rewrite !Z.leb_le. lia. Qed.

Lemma countSource_perm src l l' : l ≡ₚ l' -> countSource src l = countSource src l'.
Proof.
  unfold countSource. induction 1 as [|x l l' _ IH | x y l | l l' l'' _ IH1 _ IH2]; cbn; [done | | | congruence].
  - destruct (String.eqb (LSource x) src); cbn; congruence.
  - by destruct (String.eqb (LSource x) src), (String.eqb (LSource y) src).
Qed.

Lemma countSource_app src l l' : countSource src (l ++ l') = (countSource src l + countSource src l')%nat.
Proof. unfold countSource. by rewrite List.filter_app, length_app. Qed.

Lemma countSource_pos src l s : s ∈ l -> LSource s = src -> (1 <= countSource src l)%nat.
Proof.
  intros (l1 & l2 & ->)%list_elem_of_split <-. rewrite countSource_app. unfold countSource at 2. cbn.
  rewrite String.eqb_refl. cbn. lia.
Qed.

Lemma countSource_elem src l : (1 <= countSource src l)%nat -> exists s, s ∈ l /\ LSource s = src.
Proof.
  unfold countSource. induction l as [|x l IH]; cbn; [lia|].
  destruct (String.eqb_spec (LSource x) src) as [E|E].
  - intros _. exists x. split; [left | done].
  - intros H. destruct (IH H) as (s & Hs & Hn). exists s. split; [by right | done].
Qed.

(** What [checkSources] accepts. *)
Record goodSources (l : list SourceLimits) : Prop := mkGood {
  gs_known : forall s, s ∈ l -> sourceRank (LSource s) <> None;
  gs_dep : countSource LimitSourceDeployment l = 1%nat;
  gs_once : forall s, s ∈ l -> countSource (LSource s) l = 1%nat;
}.

Lemma checkSources_spec l : checkSources l = None <-> goodSources l.
Proof.
  unfold checkSources. destruct (findFirst _ l) as [s|] eqn:E.
  - apply findFirst_Some in E as [Hs Hf]. split; [done|]. intros [Hk _ _]. specialize (Hk s Hs).
    destruct (sourceRank (LSource s)); done.
  - rewrite findFirst_None in E. destruct (Nat.eqb_spec (countSource LimitSourceDeployment l) 1) as [Ed|Ed]; cbn [negb].
    + destruct (existsb _ l) eqn:Ex.
      * split; [done|]. intros [_ _ H]. apply existsb_exists in Ex as (s & Hs & Hlt). apply list_elem_of_In in Hs.
        rewrite (H s Hs) in Hlt. done.
      * split; [|done]. intros _. split; [|done|].
        -- intros s Hs H. specialize (E s Hs). by rewrite H in E.
        -- intros s Hs. pose proof (countSource_pos _ l s Hs eq_refl).
           destruct (Nat.ltb 1 (countSource (LSource s) l)) eqn:Eb; [|apply Nat.ltb_ge in Eb; lia].
           rewrite <- not_true_iff_false in Ex. exfalso. apply Ex, existsb_exists. exists s.
           by rewrite <- list_elem_of_In.
    + split; [done | by intros [_ H _]].
Qed.

Lemma goodSources_perm l l' : l ≡ₚ l' -> goodSources l -> goodSources l'.
Proof.
  intros Hp [Hk Hd Ho]. split.
  - intros s Hs. rewrite <- Hp in Hs. by apply Hk.
  - by rewrite <- (countSource_perm _ _ _ Hp).
  - intros s Hs. rewrite <- Hp in Hs. rewrite <- (countSource_perm _ _ _ Hp). by apply Ho.
Qed.

Lemma sourceRank_inj a b r : sourceRank a = Some r -> sourceRank b = Some r -> a = b.
Proof.
  unfold sourceRank. intros Ha Hb.
  repeat match goal with H : context [String.eqb ?x ?y] |- _ => destruct (String.eqb_spec x y) end; congruence.
Qed.

Lemma sourceRank_le s r : sourceRank s = Some r -> r <= 3.
Proof. unfold sourceRank. repeat destruct (String.eqb _ _); intros [= <-]; lia. Qed.

Lemma rankOf_known s : sourceRank (LSource s) <> None -> sourceRank (LSource s) = Some (rankOf s).
Proof. unfold rankOf. by destruct (sourceRank (LSource s)). Qed.

(** The sources of an accepted call differ in rank. *)
Lemma good_rank_inj l x y : goodSources l -> x ∈ l -> y ∈ l -> rankOf x = rankOf y -> x = y.
Proof.
  intros [Hk _ Ho] Hx Hy Hr.
  assert (Hs : LSource x = LSource y).
  { eapply sourceRank_inj; [apply rankOf_known, Hk, Hx|]. rewrite Hr. apply rankOf_known, Hk, Hy. }
  apply list_elem_of_split in Hx as (l1 & l2 & ->). specialize (Ho x ltac:(set_solver)).
  rewrite countSource_app in Ho. change (x :: l2) with ([x] ++ l2) in Ho. rewrite countSource_app in Ho.
  assert (H1 : countSource (LSource x) [x] = 1%nat) by (unfold countSource; cbn; by rewrite String.eqb_refl).
  rewrite H1 in Ho. apply elem_of_app in Hy as [Hy|[->|Hy]%elem_of_cons]; [|done|].
  - pose proof (countSource_pos (LSource x) l1 y Hy (eq_sym Hs)). lia.
  - pose proof (countSource_pos (LSource x) l2 y Hy (eq_sym Hs)). lia.
Qed.

Lemma sorted_perm l : sortBy rankLeb l ≡ₚ l.
Proof. apply sortBy_perm. Qed.

Lemma sorted_rank l : StronglySorted rankLeb (sortBy rankLeb l).
Proof. apply sortBy_sorted; [apply rankLeb_total | apply rankLeb_trans]. Qed.

(** The deployment sorts last. *)
Lemma deployment_last l :
  goodSources l -> exists l1 d, sortBy rankLeb l = l1 ++ [d] /\ named d = false /\ forall s, s ∈ l1 -> named s = true.
Proof.
  intros Hg. pose proof (goodSources_perm _ _ (symmetry (sorted_perm l)) Hg) as [Hk Hd Ho].
  pose proof (sorted_rank l) as Hs. set (o := sortBy rankLeb l) in *.
  destruct (countSource_elem LimitSourceDeployment o ltac:(lia)) as (d & Hin & Hsrc).
  pose proof (Ho d Hin) as H1. apply list_elem_of_split in Hin as (l1 & l2 & E). rewrite E in *.
  assert (Hone : forall s, s ∈ l1 ++ l2 -> LSource s <> LimitSourceDeployment).
  { intros s Hin Hsd. pose proof (countSource_pos _ _ s Hin Hsd) as Hc.
    rewrite Hsrc, countSource_app in H1. change (d :: l2) with ([d] ++ l2) in H1. rewrite countSource_app in H1.
    rewrite countSource_app in Hc. assert (countSource LimitSourceDeployment [d] = 1%nat) by (unfold countSource; cbn; by rewrite Hsrc).
    lia. }
  assert (l2 = []) as ->.
  { apply nil_of_no_elem. intros s Hin. apply (Hone s); [set_solver|].
    apply StronglySorted_app_1_r in Hs. apply StronglySorted_inv in Hs as [_ Hall].
    rewrite Forall_forall in Hall. specialize (Hall s Hin). apply Is_true_true in Hall. unfold rankLeb in Hall.
    apply Z.leb_le in Hall. pose proof (rankOf_known s (Hk s ltac:(set_solver))) as Hr.
    pose proof (sourceRank_le _ _ Hr). assert (rankOf d = 3) by (unfold rankOf; by rewrite Hsrc).
    eapply sourceRank_inj; [exact Hr|]. replace (rankOf s) with 3 by lia. done. }
  exists l1, d. split_and!; [done | by unfold named; rewrite Hsrc|].
  intros s Hin. unfold named. apply negb_true_iff, String.eqb_neq, Hone. set_solver.
Qed.

Lemma filter_named_all l : (forall s, s ∈ l -> named s = true) -> List.filter named l = l.
Proof.
  induction l as [|x l IH]; intros H; cbn; [done|]. rewrite (H x) by left. f_equal. apply IH. intros s Hs. apply H. by right.
Qed.

Lemma filter_perm {A} (f : A -> bool) l l' : l ≡ₚ l' -> List.filter f l ≡ₚ List.filter f l'.
Proof.
  induction 1 as [|x l l' _ IH | x y l | l l' l'' _ IH1 _ IH2]; cbn; [done | by destruct (f x); [constructor|] | | by etrans].
  destruct (f x), (f y); try done. by constructor.
Qed.

Lemma specDefault_perm pick l l' : l ≡ₚ l' -> specDefault pick l = specDefault pick l'.
Proof. intros H. unfold specDefault. by rewrite (minOf_perm _ _ _ H), (minOf_perm _ _ _ (filter_perm named _ _ H)). Qed.

Lemma findFirst_sorted pick c o s s' :
  StronglySorted rankLeb o -> findFirst (hasMax pick c) o = Some s -> s' ∈ o -> Max (pick s') = Some c -> rankOf s <= rankOf s'.
Proof.
  induction 1 as [|x o Ho IH Hx]; [done|]. cbn [findFirst]. destruct (hasMax pick c x) eqn:E; intros H Hin Hm.
  - simplify_eq. apply elem_of_cons in Hin as [->|Hin]; [lia|]. rewrite Forall_forall in Hx.
    specialize (Hx s' Hin). apply Is_true_true in Hx. by apply Z.leb_le.
  - apply elem_of_cons in Hin as [->|Hin]; [|by apply IH]. unfold hasMax in E. by rewrite Hm, bool_decide_true in E.
Qed.

Lemma foldField_spec l pick lim :
  goodSources l -> foldField (sortBy rankLeb l) pick = Some lim -> fieldSpec l pick lim.
Proof.
  intros Hg. unfold foldField. destruct (foldLoop _ _ _) as [r|] eqn:E; [|done]. intros [= <-].
  pose proof (foldLoop_cap _ _ _ _ E) as Hc. cbn [capV omin] in Hc. unfold specCap in Hc.
  rewrite (minOf_perm _ _ _ (sorted_perm l)) in Hc. fold (specCap pick l) in Hc.
  assert (Hd : defV r = specDefault pick l).
  { rewrite <- (specDefault_perm pick _ _ (sorted_perm l)). destruct (deployment_last l Hg) as (l1 & d & Eo & Hnd & Hn).
    rewrite Eo in *. rewrite foldLoop_app in E. destruct (foldLoop pick _ l1) as [b|] eqn:E1; [|done].
    pose proof (foldLoop_named _ _ _ _ Hn E1) as Hb. cbn [defV omin] in Hb. cbn [foldLoop] in E.
    destruct (badBound (pick d)); [done|]. injection E as <-. rewrite foldStep_def, Hnd, Hb. unfold specDefault.
    rewrite List.filter_app, (filter_named_all l1 Hn). cbn [List.filter]. rewrite Hnd, app_nil_r, minOf_app.
    destruct (minOf _ l1); [done|]. cbn. by rewrite omin_none_r. }
  split.
  - unfold finish. rewrite Hc. destruct (defV r), (specCap pick l); repeat break_goal; done.
  - unfold finish. rewrite Hc, Hd. destruct (specDefault pick l) as [d|], (specCap pick l) as [c|]; cbn; try done.
    destruct (d <=? c) eqn:El; cbn; bool_prop; f_equal; lia.
  - intros c Hcap. rewrite Hcap in Hc. destruct (foldLoop_capSource _ _ _ _ c E Hc) as [[H _]|[_ (s & Hf & Hs)]]; [done|].
    pose proof (findFirst_Some _ _ _ Hf) as [Hin Hm]. unfold hasMax in Hm. bool_prop.
    exists s. split_and!; [by rewrite (sorted_perm l) in Hin | done | |].
    + unfold finish. rewrite Hc. by destruct (defV r); repeat break_goal.
    + intros s' Hs' Hm'. eapply findFirst_sorted; [apply sorted_rank | exact Hf | by rewrite (sorted_perm l) | done].
Qed.

(** ** The theorems on [Effective] *)

Lemma effective_inv rt l out :
  Effective rt l = inr out -> runTypeValid rt = true /\ goodSources l /\ foldSources rt (sortBy rankLeb l) = Some out.
Proof.
  unfold Effective. destruct (runTypeValid rt); [|done]. cbn [negb]. destruct (checkSources l) eqn:Ec; [done|].
  apply checkSources_spec in Ec. destruct (foldSources rt _) eqn:Ef; [|done]. intros [= ->]. done.
Qed.

Lemma foldSources_inv rt o out :
  foldSources rt o = Some out ->
  foldField o sl_CPUMillis = Some (el_CPUMillis out) /\ foldField o sl_MemoryMiB = Some (el_MemoryMiB out) /\
  foldField o sl_DiskMiB = Some (el_DiskMiB out) /\ foldField o LifetimeSec = Some (Lifetime out) /\
  foldField o (fun s => lifetimeOf s false) = Some (LifetimeSpan out) /\
  foldField o (fun s => lifetimeOf s true) = Some (LifetimeLease out) /\
  (if String.eqb rt RunnerPoolRunInteractive then exists i, Idle out = Some i /\ foldField o IdleSec = Some i
   else Idle out = None) /\
  concurrency o = Some (Concurrency out) /\ NoEndAllowed out = forallb allowsNoEnd o /\ RunType out = rt.
Proof.
  unfold foldSources. intros H.
  repeat (let x := fresh in let E := fresh in apply bind_Some in H as (x & E & H)).
  simplify_eq. cbn. split_and!; try done.
  destruct (String.eqb rt RunnerPoolRunInteractive); [|by simplify_eq].
  destruct (foldField o IdleSec) as [i|]; [|done]. simplify_option_eq. eauto.
Qed.

Lemma forallb_perm {A} (f : A -> bool) l l' : l ≡ₚ l' -> forallb f l = forallb f l'.
Proof.
  induction 1 as [|x l l' _ IH | x y l | l l' l'' _ IH1 _ IH2]; cbn; [done | by rewrite IH | | congruence].
  by destruct (f x), (f y).
Qed.

(** When [Effective] answers, every field (CPU, memory, main drive, lifetime,
    its span and lease, and the idle stop of an interactive run) has the lowest
    maximum any source sets as its cap, named after the most specific source that
    sets it; its default is the lowest default a source other than the deployment
    names, else the deployment's, never above the cap; and a run may have no end
    only if every source allows it. *)
Theorem effective_is_strictest rt l out :
  Effective rt l = inr out ->
  fieldSpec l sl_CPUMillis (el_CPUMillis out) /\ fieldSpec l sl_MemoryMiB (el_MemoryMiB out) /\
  fieldSpec l sl_DiskMiB (el_DiskMiB out) /\ fieldSpec l LifetimeSec (Lifetime out) /\
  fieldSpec l (fun s => lifetimeOf s false) (LifetimeSpan out) /\
  fieldSpec l (fun s => lifetimeOf s true) (LifetimeLease out) /\
  (forall i, Idle out = Some i -> fieldSpec l IdleSec i) /\
  (NoEndAllowed out = true <-> forall s, s ∈ l -> allowsNoEnd s = true).
Proof.
  intros (_ & Hg & Hf)%effective_inv. apply foldSources_inv in Hf as (H1 & H2 & H3 & H4 & H5 & H6 & H7 & _ & H9 & _).
  split_and!; try (by apply foldField_spec).
  - intros i Hi. destruct (String.eqb rt RunnerPoolRunInteractive); [|congruence].
    destruct H7 as (i' & Hi' & H7). simplify_eq. by apply foldField_spec.
  - rewrite H9, (forallb_perm _ _ _ (sorted_perm l)), forallb_forall. split; intros H s Hs; apply H; by apply list_elem_of_In.
Qed.

(** The order in which the caller lists the sources is irrelevant. *)
Theorem effective_order_irrelevant rt l l' out : l ≡ₚ l' -> Effective rt l = inr out -> Effective rt l' = inr out.
Proof.
  intros Hp (Hv & Hg & Hf)%effective_inv. unfold Effective. rewrite Hv. cbn [negb].
  pose proof (goodSources_perm _ _ Hp Hg) as Hg'. apply checkSources_spec in Hg'. rewrite Hg'.
  rewrite <- (sortBy_unique rankLeb rankLeb_total rankLeb_trans l l'); [by rewrite Hf| |done].
  intros x y Hx Hy H1 H2. apply (good_rank_inj l); [done..|].
  unfold rankLeb in *. apply Z.leb_le in H1, H2. lia.
Qed.

(** *** When it answers *)

Record positiveSource (s : SourceLimits) : Prop := mkPositive {
  ps_cpu : badBound (sl_CPUMillis s) = false; ps_mem : badBound (sl_MemoryMiB s) = false;
  ps_disk : badBound (sl_DiskMiB s) = false; ps_life : badBound (LifetimeSec s) = false;
  ps_idle : badBound (IdleSec s) = false;
  ps_conc : forall n, ConcurrentRuns s = Some n -> 1 <= n;
}.

Lemma foldField_total o pick : (forall s, s ∈ o -> badBound (pick s) = false) -> is_Some (foldField o pick).
Proof. intros H. unfold foldField. destruct (foldLoop_total pick (mkAcc None "" None "") o H) as [r ->]. cbn. eauto. Qed.

Lemma concurrency_total o : (forall s n, s ∈ o -> ConcurrentRuns s = Some n -> 1 <= n) -> is_Some (concurrency o).
Proof.
  induction o as [|s o IH]; intros H; cbn; [eauto|].
  destruct IH as [r Hr]; [intros x n Hx; apply H; by right|]. rewrite Hr.
  destruct (ConcurrentRuns s) as [n|] eqn:E; [|eauto].
  rewrite (proj2 (Z.ltb_ge n 1)); [cbn; eauto | apply (H s n); [left | done]].
Qed.

Lemma effective_total rt l :
  runTypeValid rt = true -> goodSources l -> (forall s, s ∈ l -> positiveSource s) -> exists out, Effective rt l = inr out.
Proof.
  intros Hv Hg Hp. unfold Effective. rewrite Hv. cbn [negb]. rewrite (proj2 (checkSources_spec l) Hg).
  assert (Ho : forall s, s ∈ sortBy rankLeb l -> positiveSource s) by (intros s Hs; apply Hp; by rewrite (sorted_perm l) in Hs).
  assert (Hf : forall pick, (forall s, positiveSource s -> badBound (pick s) = false) ->
                 is_Some (foldField (sortBy rankLeb l) pick)) by (intros pick H; apply foldField_total; auto).
  destruct (Hf sl_CPUMillis) as [? E1]; [by intros s []|]. destruct (Hf sl_MemoryMiB) as [? E2]; [by intros s []|].
  destruct (Hf sl_DiskMiB) as [? E3]; [by intros s []|]. destruct (Hf LifetimeSec) as [? E4]; [by intros s []|].
  destruct (Hf (fun s => lifetimeOf s false)) as [? E5]; [intros s []; unfold lifetimeOf; by destruct (Bool.eqb _ _)|].
  destruct (Hf (fun s => lifetimeOf s true)) as [? E6]; [intros s []; unfold lifetimeOf; by destruct (Bool.eqb _ _)|].
  destruct (Hf IdleSec) as [? E7]; [by intros s []|].
  destruct (concurrency_total (sortBy rankLeb l)) as [? E8]; [intros s n Hs; by apply (Ho s Hs)|].
  unfold foldSources. rewrite E1, E2, E3, E4, E5, E6, E7, E8. cbn.
  destruct (String.eqb rt RunnerPoolRunInteractive); cbn; eauto.
Qed.

Definition okBound (b : Bound) : Prop := (forall m, Max b = Some m -> 1 <= m) /\ (forall d, Default b = Some d -> 1 <= d).

Lemma okBound_good b : okBound b -> badBound b = false.
Proof.
  intros [Hm Hd]. unfold badBound. apply orb_false_iff. split.
  - destruct (Max b) as [m|]; [|done]. apply Z.ltb_ge. auto.
  - destruct (Default b) as [d|]; [|done]. apply Z.ltb_ge. auto.
Qed.

Lemma okBound_none : okBound noBound.
Proof. by split. Qed.

Lemma positive_ok n m : positive n = Some m -> 1 <= m.
Proof. unfold positive. destruct (n >? 0) eqn:E; [|done]. intros [= <-]. apply Z.gtb_lt in E. lia. Qed.

Lemma amountBound_ok bound a : validateSet (amountValidate bound) a = true -> okBound (amountBound a).
Proof.
  destruct a as [a|]; [|intros; apply okBound_none]. cbn. unfold amountValidate. intros H. bool_prop.
  split; cbn; intros ? [= <-]; lia.
Qed.

Lemma diskBound_ok a : validateDisk a = true -> okBound (amountBound a).
Proof.
  intros H. apply (amountBound_ok RunnerPoolDiskMiBMax). destruct a as [a|]; [|done]. cbn in *. by bool_prop.
Qed.

Lemma durationBound_ok d : validateSet durationValidate d = true -> okBound (durationBound d).
Proof.
  destruct d as [d|]; [|intros; apply okBound_none]. cbn. unfold durationValidate. intros H.
  split; cbn; intros m.
  - destruct (Unlimited d); [done|]. intros [= <-]. cbn in H. bool_prop. lia.
  - destruct (DefaultSec d >? 0) eqn:E; [|done]. intros [= <-]. apply Z.gtb_lt in E. lia.
Qed.

#[local] Hint Resolve okBound_good okBound_none amountBound_ok diskBound_ok durationBound_ok positive_ok : core.

Lemma poolSource_positive p rt l :
  Limits p = Some l -> poolLimitsValidate l = true -> positiveSource (PoolSource p rt).1.
Proof.
  intros Hl Hv. unfold PoolSource. rewrite Hl. unfold poolLimitsValidate in Hv. bool_prop.
  assert (Hempty : positiveSource (emptySource LimitSourcePool)) by (by split).
  assert (Hconc : forall n, pl_MaxConcurrentRuns l = Some n -> 1 <= n).
  { intros n Hn. rewrite Hn in *. bool_prop. lia. }
  destruct (String.eqb rt ""); [done|]. destruct (AllowsRunType l rt); [|done]. cbn [negb].
  destruct (String.eqb rt RunnerPoolRunBackground).
  - destruct (Background l) as [b|]; [|done]. cbn in *. unfold validateBackground in *. bool_prop. split; cbn; eauto.
  - destruct (Interactive l) as [i|]; [|done]. cbn in *. unfold validateInteractive in *. bool_prop. split; cbn; eauto.
Qed.

Lemma deploymentSource_positive defaults eph age conc d rt :
  DeploymentSource defaults eph age conc = Some d ->
  positiveSource (WithInteractiveLifetimeDefault d rt) /\ LSource (WithInteractiveLifetimeDefault d rt) = LimitSourceDeployment.
Proof.
  unfold DeploymentSource. destruct (_ || _ || _ || _ || _ || _) eqn:E; [done|]. bool_prop. intros [= <-].
  unfold WithInteractiveLifetimeDefault. cbn [Default LifetimeSec]. rewrite andb_true_r.
  assert (Hage : forall dflt, (forall x, dflt = Some x -> 1 <= x) ->
            okBound (mkBound (if age >? 0 then Some age else None) dflt)).
  { intros dflt Hd. split; [|done]. cbn. intros m. destruct (age >? 0) eqn:Ea; [|done]. intros [= <-]. apply Z.gtb_lt in Ea. lia. }
  assert (Hconc : forall n, (if conc >? 0 then Some conc else None) = Some n -> 1 <= n).
  { intros n. destruct (conc >? 0) eqn:Ec; [|done]. intros [= <-]. apply Z.gtb_lt in Ec. lia. }
  assert (Hcap : forall c v, 1 <= c -> 1 <= v -> badBound (mkBound (Some c) (Some v)) = false).
  { intros c v Hc Hv. apply okBound_good. split; by intros ? [= <-]. }
  assert (Hdisk : badBound (mkBound (positive (MaxDiskMiB eph)) (positive (DefaultDiskMiB eph))) = false)
    by (apply okBound_good; split; cbn; eauto).
  destruct (String.eqb rt RunnerPoolRunInteractive); (split; [split|]; cbn [sl_CPUMillis sl_MemoryMiB sl_DiskMiB LifetimeSec IdleSec ConcurrentRuns LSource]; try done; try (apply Hcap; [done | lia])).
  - apply okBound_good, Hage. intros x [= <-]. done.
  - by apply okBound_good, Hage.
Qed.

Lemma governanceSource_positive l ceiling untouched dd g :
  0 <= CPUMillis untouched -> 0 <= MemoryMiB untouched -> GovernanceSource l ceiling untouched dd = Some g ->
  positiveSource g /\ LSource g = LimitSourceGovernance.
Proof.
  intros Hc Hm. unfold GovernanceSource. destruct (_ || _) eqn:E; [done|]. bool_prop. intros [= <-].
  assert (Hcap : forall a b u v, 0 <= u -> 1 <= v -> okBound (mkBound (Some (MemberCap a b (cmpOrZ u v))) None)).
  { intros a b u v Hu Hv. split; [|done]. cbn. intros m [= <-]. unfold MemberCap, cmpOrZ. destruct (u =? 0) eqn:Eu; bool_prop; lia. }
  assert (Hlow : forall a b, okBound (mkBound (lowerPositive a b) None)).
  { intros a b. split; [|done]. cbn. unfold lowerPositive. intros m.
    destruct (a >? 0) eqn:Ea, (b >? 0) eqn:Eb; cbn [andb]; rewrite ?Z.gtb_lt in *; try (intros [= <-]; lia); by apply positive_ok. }
  split; [|done]. split; cbn [sl_CPUMillis sl_MemoryMiB sl_DiskMiB LifetimeSec IdleSec ConcurrentRuns];
    try (apply okBound_good); try (by apply Hcap); eauto.
  split; cbn; [|eauto]. intros m. destruct (_ >? 0) eqn:Ea; [intros [= <-]; apply Z.gtb_lt in Ea; lia|].
  destruct (_ && _); [done|]. by intros [= <-].
Qed.

Lemma bestCapacity_spec best l b :
  bestCapacity best l = Some b ->
  (b = best \/ b ∈ l) /\
  (forall c, c ∈ l -> 1 <= rc_CPUMillis c /\ 1 <= rc_MemoryMiB c /\ 1 <= rc_DiskMiB c).
Proof.
  revert best. induction l as [|c l IH]; intros best; cbn [bestCapacity].
  - intros [= <-]. split; [by left|]. intros c Hc. by apply not_elem_of_nil in Hc.
  - destruct (_ || _ || _) eqn:E; [done|]. bool_prop. intros Hrec. apply IH in Hrec as [Hb Hl]. split.
    + destruct (capCompare c best); destruct Hb as [->|Hb]; rewrite elem_of_cons; auto.
    + intros x [->|Hx]%elem_of_cons; [lia | auto].
Qed.

(** The runner's cap is one candidate's own limit, whole. *)
Lemma runnerSource_spec cands r :
  RunnerCapacitySource cands = Some r ->
  positiveSource r /\ LSource r = LimitSourceRunner /\
  exists b, b ∈ cands /\ Max (sl_CPUMillis r) = Some (Z.min (rc_CPUMillis b) MaxInt32) /\
    Max (sl_MemoryMiB r) = Some (Z.min (rc_MemoryMiB b) MaxInt32) /\
    Max (sl_DiskMiB r) = Some (Z.min (rc_DiskMiB b) MaxInt32).
Proof.
  unfold RunnerCapacitySource. destruct cands as [|c0 l] eqn:El; [done|]. intros (b & Hb & H)%bind_Some.
  injection H as <-. apply bestCapacity_spec in Hb as [Hin Hpos].
  assert (Hin' : b ∈ c0 :: l) by (destruct Hin as [->|?]; [left | done]). specialize (Hpos b Hin').
  split_and!; [|done | exists b; done].
  split; cbn; try done; apply okBound_good; split; cbn; try done; intros m [= <-]; unfold MaxInt32; lia.
Qed.

Lemma goodSources_nodup l :
  (forall s, s ∈ l -> sourceRank (LSource s) <> None) -> NoDup (LSource <$> l) ->
  (exists d, d ∈ l /\ LSource d = LimitSourceDeployment) -> goodSources l.
Proof.
  intros Hk Hn (d & Hd & Hs).
  assert (Hone : forall s, s ∈ l -> countSource (LSource s) l = 1%nat).
  { intros s Hin. apply list_elem_of_split in Hin as (l1 & l2 & ->). rewrite fmap_app, fmap_cons in Hn.
    apply NoDup_app in Hn as (_ & Hdis & Hn2). apply NoDup_cons in Hn2 as [Hni _].
    rewrite countSource_app. change (s :: l2) with ([s] ++ l2). rewrite countSource_app.
    assert (Hz : forall k, (forall x, x ∈ k -> LSource x <> LSource s) -> countSource (LSource s) k = 0%nat).
    { intros k Hx. destruct (countSource (LSource s) k) as [|n] eqn:E; [done|].
      destruct (countSource_elem (LSource s) k ltac:(lia)) as (x & Hxk & Hxs). by apply Hx in Hxk. }
    rewrite (Hz l1), (Hz l2).
    - unfold countSource. cbn. by rewrite String.eqb_refl.
    - intros x Hx E. apply Hni. rewrite <- E. by apply list_elem_of_fmap_2.
    - intros x Hx E. apply (Hdis (LSource x)); [by apply list_elem_of_fmap_2 | rewrite E; left]. }
  split; [done | | done]. rewrite <- Hs. by apply Hone.
Qed.

Lemma finite_cap pick l w m :
  w ∈ l -> Max (pick w) = Some m -> (forall s, positiveSource s -> badBound (pick s) = false) ->
  (forall s, s ∈ l -> positiveSource s) -> exists c, amountOf (specCap pick l) = Amount c /\ 1 <= c <= m.
Proof.
  intros Hin Hm Hgood Hp. destruct (specCap pick l) as [c|] eqn:E; [|pose proof (minOf_None _ _ E w Hin); congruence].
  exists c. split; [done|]. destruct (minOf_Some _ _ _ E) as [(s & Hs & Hsc) Hlo]. split; [|exact (Hlo w m Hin Hm)].
  specialize (Hgood s (Hp s Hs)). unfold badBound in Hgood. rewrite Hsc in Hgood. by bool_prop.
Qed.

(** *** The sources of one run, composed *)

Section RunSources.
Context (defaults : ResourceLimits) (eph : EphemeralProvider) (age conc : Z) (d : SourceLimits).
Context (Hd : DeploymentSource defaults eph age conc = Some d).
Context (p : RunnerPool) (rt : string) (Hrt : runTypeValid rt = true).
Context (Hpool : forall l, Limits p = Some l -> poolLimitsValidate l = true).
Context (gov : option SourceLimits) (Hgov : forall g, gov = Some g -> exists l c u,
  0 <= CPUMillis u /\ 0 <= MemoryMiB u /\ GovernanceSource l c u defaults = Some g).
Context (runner : option SourceLimits) (Hrunner : forall r, runner = Some r -> exists cands, RunnerCapacitySource cands = Some r).

(** The sources in the order the server appends them ([buildLimitSources]), for a run
    with a pool. Where [PoolSource] refuses the run the server answers that refusal and
    folds nothing; the list then stands for the fold with an empty pool source. *)
Definition runSources : list SourceLimits :=
  WithInteractiveLifetimeDefault d rt :: (PoolSource p rt).1 :: option_list gov ++ option_list runner.

Lemma poolSource_name : LSource (PoolSource p rt).1 = LimitSourcePool.
Proof. unfold PoolSource. by repeat break_goal. Qed.

Lemma runSources_ok : goodSources runSources /\ forall s, s ∈ runSources -> positiveSource s.
Proof.
  destruct (deploymentSource_positive _ _ _ _ _ rt Hd) as [Hdp Hds].
  assert (Hpp : positiveSource (PoolSource p rt).1).
  { destruct (Limits p) as [l|] eqn:E; [by eapply poolSource_positive; eauto|]. unfold PoolSource. rewrite E. by split. }
  pose proof poolSource_name as Hps. unfold runSources.
  assert (Hg : forall g, gov = Some g -> positiveSource g /\ LSource g = LimitSourceGovernance).
  { intros g Hg. destruct (Hgov g Hg) as (l & c & u & H1 & H2 & H3). by eapply governanceSource_positive. }
  assert (Hr : forall r, runner = Some r -> positiveSource r /\ LSource r = LimitSourceRunner).
  { intros r Hr. destruct (Hrunner r Hr) as (cands & Hc). apply runnerSource_spec in Hc as (? & ? & _). done. }
  destruct gov as [g|]; [destruct (Hg g eq_refl) as [Hgp Hgs]|]; (destruct runner as [r|]; [destruct (Hr r eq_refl) as [Hrp Hrs]|]);
    unfold option_list; cbn [option_rect app]; (split; [apply goodSources_nodup|]).
  all: try (intros s Hs; repeat (apply elem_of_cons in Hs as [->|Hs]; [congruence || (rewrite ?Hps, ?Hgs, ?Hrs, ?Hds; done)|]); by apply not_elem_of_nil in Hs).
  all: try (intros s Hs; repeat (apply elem_of_cons in Hs as [->|Hs]; [done|]); by apply not_elem_of_nil in Hs).
  all: try (exists (WithInteractiveLifetimeDefault d rt); split; [set_solver | done]).
  all: rewrite ?fmap_cons, ?fmap_nil, ?Hps, ?Hgs, ?Hrs, ?Hds; apply (bool_decide_unpack _); by vm_compute.
Qed.

(** C40: with a pool whose limits passed the write-time check, the sources the
    server builds always fold: [Effective] answers, CPU and memory are bounded by
    a finite cap of at least 1 within the request contract, and an interactive
    run's default end is finite. *)
Theorem run_limits_always_fold :
  exists out, Effective rt runSources = inr out /\
    (exists c, el_Cap (el_CPUMillis out) = Amount c /\ 1 <= c <= RunnerPoolCPUMillisMax) /\
    (exists c, el_Cap (el_MemoryMiB out) = Amount c /\ 1 <= c <= RunnerPoolMemoryMiBMax) /\
    (rt = RunnerPoolRunInteractive -> exists e, el_Default (Lifetime out) = Amount e).
Proof.
  destruct runSources_ok as [Hg Hp]. destruct (effective_total rt runSources Hrt Hg Hp) as [out Ho].
  exists out. split; [done|]. apply effective_inv in Ho as (_ & _ & Hf).
  apply foldSources_inv in Hf as (H1 & H2 & _ & H4 & _).
  apply (foldField_spec _ _ _ Hg) in H1 as [Hc1 _ _], H2 as [Hc2 _ _], H4 as [_ Hd4 _].
  set (w := WithInteractiveLifetimeDefault d rt) in *.
  assert (Hin : w ∈ runSources) by (unfold runSources; set_solver).
  assert (Hw : Max (sl_CPUMillis w) = Some RunnerPoolCPUMillisMax /\ Max (sl_MemoryMiB w) = Some RunnerPoolMemoryMiBMax /\
    (rt = RunnerPoolRunInteractive -> Default (LifetimeSec w) = Some InteractiveDefaultLifetimeSec)).
  { unfold DeploymentSource in Hd. destruct (_ || _ || _ || _ || _ || _); [done|]. injection Hd as <-. unfold w, WithInteractiveLifetimeDefault.
    destruct (String.eqb_spec rt RunnerPoolRunInteractive); by split_and!. }
  destruct Hw as (Hw1 & Hw2 & Hw3). split_and!.
  - rewrite Hc1. apply (finite_cap sl_CPUMillis runSources w); [done | done | by intros s [] | done].
  - rewrite Hc2. apply (finite_cap sl_MemoryMiB runSources w); [done | done | by intros s [] | done].
  - intros Hi. specialize (Hw3 Hi). destruct (specDefault LifetimeSec runSources) as [e|] eqn:E.
    + destruct (specCap LifetimeSec runSources); cbn in Hd4; eauto.
    + unfold specDefault in E. destruct (minOf _ (List.filter named _)); [done|].
      pose proof (minOf_None _ _ E w Hin). congruence.
Qed.
End RunSources.

(** *** Requests against the limits *)

Lemma apply_within l pick lim s m asked :
  fieldSpec l pick lim -> s ∈ l -> Max (pick s) = Some m -> exists v, (Apply lim asked).1 = Amount v /\ v <= m.
Proof.
  intros [Hc Hd _] Hs Hm. destruct (specCap pick l) as [c|] eqn:E; [|pose proof (minOf_None _ _ E s Hs); congruence].
  destruct (minOf_Some _ _ _ E) as [_ Hlo]. specialize (Hlo s m Hs Hm). cbn [amountOf] in Hc.
  unfold Apply. destruct (asked <=? 0).
  - rewrite Hd. destruct (specDefault pick l) as [d|]; cbn [omin amountOf fst]; eexists; (split; [done | lia]).
  - rewrite Hc. destruct (asked <=? c) eqn:Ea; bool_prop; cbn; eexists; (split; [done | lia]).
Qed.

(** What a run is given is within every source, whatever the request asks for:
    CPU, memory and main drive never exceed the maximum of any source that sets
    one, and a positive request no source bounds below is granted unchanged. *)
Theorem applied_size_within_every_source rt l out s asked :
  Effective rt l = inr out -> s ∈ l ->
  (forall m, Max (sl_CPUMillis s) = Some m -> exists v, (Apply (el_CPUMillis out) asked).1 = Amount v /\ v <= m) /\
  (forall m, Max (sl_MemoryMiB s) = Some m -> exists v, (Apply (el_MemoryMiB out) asked).1 = Amount v /\ v <= m) /\
  (forall m, Max (sl_DiskMiB s) = Some m -> exists v, (Apply (el_DiskMiB out) asked).1 = Amount v /\ v <= m) /\
  (0 < asked -> (forall s' m, s' ∈ l -> Max (sl_CPUMillis s') = Some m -> asked <= m) ->
     Apply (el_CPUMillis out) asked = (Amount asked, false)).
Proof.
  intros (_ & Hg & Hf)%effective_inv Hs. apply foldSources_inv in Hf as (H1 & H2 & H3 & _).
  apply (foldField_spec _ _ _ Hg) in H1, H2, H3. split_and!; intros; [by eapply apply_within..|].
  unfold Apply. rewrite (proj2 (Z.leb_gt asked 0)) by done. destruct H1 as [Hc _ _]. rewrite Hc.
  destruct (specCap sl_CPUMillis l) as [c|] eqn:E; [|done]. destruct (minOf_Some _ _ _ E) as [(x & Hx & Hxc) _].
  cbn [amountOf]. rewrite (proj2 (Z.leb_le asked c)) by eauto. done.
Qed.

(** The member cap is never below what the run already gets, never above it
    unless the ceiling or the profile says so, and [MemberCapKnob] names the input
    the cap came from. *)
Theorem member_cap_names_its_source ceiling profileMax untouched :
  1 <= untouched ->
  let c := MemberCap ceiling profileMax untouched in
  untouched <= c /\
  ((MemberCapKnob ceiling profileMax c = CapKnobBaseline /\ c = untouched) \/
   (MemberCapKnob ceiling profileMax c = CapKnobCeiling /\ c = ceiling /\ (1 <= profileMax -> ceiling <= profileMax)) \/
   (MemberCapKnob ceiling profileMax c = CapKnobLimits /\ c = profileMax /\ (1 <= ceiling -> profileMax < ceiling))).
Proof.
  intros Hu. unfold MemberCapKnob, MemberCap. cbn zeta. rewrite !Z.gtb_ltb, !Z.geb_leb.
  destruct (Z.ltb_spec ceiling 1), (Z.ltb_spec 0 profileMax);
    repeat match goal with
    | |- context [(?a <? ?b)] => destruct (Z.ltb_spec a b)
    | |- context [(?a <=? ?b)] => destruct (Z.leb_spec a b)
    end; cbn [andb orb]; (split; [lia|]);
    first [lia | left; split; [done | lia] | right; left; split_and!; [done | lia | lia] | right; right; split_and!; [done | lia | lia]].
Qed.

(** ** A concrete pool, person and deployment *)

Definition sampleLimits : RunnerPoolLimits :=
  mkPoolLimits (Some (mkBgLimits (Some (mkAmount 2000 8000)) None (Some (mkAmount 10240 20480)) (Some (mkDuration 3600 7200 false))))
    (Some (mkIaLimits (Some (mkAmount 1000 4000)) None None (Some (mkDuration 600 0 true)) (Some (mkDuration 300 900 false))))
    ["CC2"; "CC3"] (Some 4).
Definition samplePool : RunnerPool := mkPool "p1" "fast" "organization" RunnerPoolActive 1 (Some sampleLimits).
Definition sampleDefaults : ResourceLimits := EffectiveLimits 0 0.
Definition sampleDeployment : SourceLimits :=
  default (emptySource "") (DeploymentSource sampleDefaults (mkEph 0 51200) 86400 0).
Definition sampleGovernance : SourceLimits :=
  default (emptySource "")
    (GovernanceSource (mkLimits false false false false false 2 false false false [] [] [] 6000 0 0 0 None
       (mkRunLimits 5400 0 false 0 0 false 0)) zeroRes zeroRes sampleDefaults).
Definition sampleRunner : SourceLimits :=
  default (emptySource "") (RunnerCapacitySource [mkCap 4000 8192 40960; mkCap 8000 4096 20480]).
Definition sampleSources : list SourceLimits :=
  [sampleDeployment; sampleRunner; sampleGovernance; (PoolSource samplePool RunnerPoolRunBackground).1].

Example sample_limits :
  match Effective RunnerPoolRunBackground sampleSources with
  | inr o => (el_CPUMillis o, el_MemoryMiB o, el_DiskMiB o, Lifetime o, NoEndAllowed o, Concurrency o)
  | inl _ => (mkEffLimit NoLimit NoLimit "" "", mkEffLimit NoLimit NoLimit "" "", mkEffLimit NoLimit NoLimit "" "",
              mkEffLimit NoLimit NoLimit "" "", false, [])
  end =
  (mkEffLimit (Amount 2000) (Amount 6000) "pool" "governance", mkEffLimit (Amount 4096) (Amount 4096) "deployment" "governance",
   mkEffLimit (Amount 10240) (Amount 20480) "pool" "pool", mkEffLimit (Amount 3600) (Amount 5400) "pool" "governance",
   false, [mkConc "pool" 4; mkConc "governance" 2]).
Proof. reflexivity. Qed.

Lemma effective_is_strictest_witness :
  exists out, Effective RunnerPoolRunBackground sampleSources = inr out /\ fieldSpec sampleSources sl_CPUMillis (el_CPUMillis out).
Proof.
  destruct (Effective RunnerPoolRunBackground sampleSources) as [e|out] eqn:E; [vm_compute in E; discriminate|].
  exists out. split; [reflexivity|]. apply (effective_is_strictest _ _ _ E).
Defined.

Lemma effective_order_irrelevant_witness :
  Effective RunnerPoolRunBackground (reverse sampleSources) = Effective RunnerPoolRunBackground sampleSources.
Proof.
  destruct (Effective RunnerPoolRunBackground sampleSources) as [e|out] eqn:E; [vm_compute in E; discriminate|].
  apply (effective_order_irrelevant _ sampleSources); [symmetry; apply reverse_Permutation | exact E].
Defined.

Lemma run_limits_always_fold_witness :
  exists out, Effective RunnerPoolRunInteractive
      (runSources sampleDeployment samplePool RunnerPoolRunInteractive (Some sampleGovernance) (Some sampleRunner)) = inr out /\
    exists e, el_Default (Lifetime out) = Amount e.
Proof.
  destruct (run_limits_always_fold sampleDefaults (mkEph 0 51200) 86400 0 sampleDeployment eq_refl samplePool
    RunnerPoolRunInteractive eq_refl) with (gov := Some sampleGovernance) (runner := Some sampleRunner) as (out & H & _ & _ & Hi).
  - intros l [= <-]. reflexivity.
  - intros g [= <-]. do 2 eexists. exists zeroRes. split_and!; [cbn; lia | cbn; lia | reflexivity].
  - intros r [= <-]. exists [mkCap 4000 8192 40960; mkCap 8000 4096 20480]. reflexivity.
  - exists out. split; [exact H | exact (Hi eq_refl)].
Defined.

Lemma applied_size_within_every_source_witness :
  exists out v, Effective RunnerPoolRunBackground sampleSources = inr out /\
    (Apply (el_CPUMillis out) 7000).1 = Amount v /\ v <= 6000.
Proof.
  destruct (Effective RunnerPoolRunBackground sampleSources) as [e|out] eqn:E; [vm_compute in E; discriminate|].
  destruct (applied_size_within_every_source _ _ _ sampleGovernance 7000 E) as [H _]; [by right; right; left|].
  destruct (H 6000 eq_refl) as (v & Hv & Hle). exists out, v. done.
Defined.

Lemma member_cap_names_its_source_witness :
  MemberCap 4000 3000 2000 = 3000 /\ MemberCapKnob 4000 3000 3000 = CapKnobLimits /\ 2000 <= MemberCap 4000 3000 2000.
Proof. split_and!; [reflexivity | reflexivity | apply (member_cap_names_its_source 4000 3000 2000); lia]. Defined.

(** A source given twice, or no deployment source, is an error, not a guess. *)
Example dropped_deployment_refused :
  Effective RunnerPoolRunBackground [sampleRunner] = inl (ErrDeployments 0) /\
  Effective RunnerPoolRunBackground (sampleRunner :: sampleSources) = inl ErrRepeated.
Proof. split; reflexivity. Qed.
