(* ===== verification/PoolChoice.v ===== *)
(** * Choosing a pool, a barrier and a runner

    The rest of [internal/runnerpool]: [resolve.go] (which pool), [barrier.go]
    (which confinement class), [candidates.go] (which runners a person may use),
    [select.go] (the rendezvous choice among them), [fit.go] with
    [internal/types/runner_limits.go] (whether a run fits on one). SHA-256 is a
    parameter of the rendezvous score. *)
From S2P Require Import Prelude GoStrings GoSlices PolicyTypes PushRules PoolLimits.
Local Open Scope string_scope.
Local Open Scope Z_scope.
Local Open Scope list_scope.

(** ** The pool *)

Definition RunnerPoolSelectedExplicit : string := "explicit".
Definition RunnerPoolSelectedPersonal : string := "personal_default".
Definition RunnerPoolSelectedOrg : string := "organisation_default".

Record ResolvedRunnerPool := mkResolved {
  rp_ID : string; rp_Name : string; rp_Scope : string; rp_Revision : Z; Selection : string }.

Definition find (permitted : list RunnerPool) (id : string) : option RunnerPool :=
  findFirst (fun p => String.eqb (ID p) id && negb (String.eqb (State p) RunnerPoolDeleted)) permitted.

Definition resolved (p : RunnerPool) (sel : string) : ResolvedRunnerPool :=
  mkResolved (ID p) (Name p) (PScope p) (Revision p) sel.

Definition refuse (r : Reason) (source name : string) : Refusal := mkRefusal r source name "" "" [].

Definition resolveExplicit (permitted : list RunnerPool) (id : string) : Refusal + ResolvedRunnerPool :=
  match find permitted id with
  | None => inl (refuse ReasonNotFound "" "")
  | Some pool => if negb (String.eqb (State pool) RunnerPoolActive) then inl (refuse ReasonUnavailable "" (Name pool))
                 else inr (resolved pool RunnerPoolSelectedExplicit)
  end.

(** The arguments are the request's pool and the two saved defaults. *)
Definition Resolve (permitted : list RunnerPool) (choice personal org : option string) : Refusal + ResolvedRunnerPool :=
  match choice with
  | Some id => resolveExplicit permitted id
  | None =>
      let '(source, id) := match personal with
                           | Some i => (RunnerPoolSelectedPersonal, Some i)
                           | None => (RunnerPoolSelectedOrg, org)
                           end in
      match id with
      | None => inl (refuse ReasonRequired "" "")
      | Some i =>
          match find permitted i with
          | None => inl (refuse ReasonDefaultUnavailable source "")
          | Some pool => if negb (String.eqb (State pool) RunnerPoolActive) then inl (refuse ReasonDefaultUnavailable source "")
                         else inr (resolved pool source)
          end
      end
  end.

(** The pool a request names: its own, else the person's default, else the
    organisation's. *)
Definition wanted (choice personal org : option string) : option (string * string) :=
  match choice, personal, org with
  | Some i, _, _ => Some (i, RunnerPoolSelectedExplicit)
  | None, Some i, _ => Some (i, RunnerPoolSelectedPersonal)
  | None, None, Some i => Some (i, RunnerPoolSelectedOrg)
  | None, None, None => None
  end.

(** No pool is ever substituted: a request resolves exactly when the one pool
    it names (its own choice, else the person's default, else the organisation's)
    is, first of that id and not a tombstone, in the catalogue and active, and it
    resolves to that pool; otherwise it is refused. *)
Theorem resolve_never_substitutes permitted choice personal org r :
  Resolve permitted choice personal org = inr r <->
  exists id sel p, wanted choice personal org = Some (id, sel) /\ find permitted id = Some p /\
    State p = RunnerPoolActive /\ r = resolved p sel /\ p ∈ permitted /\ rp_ID r = id.
Proof.
  assert (Hcore : forall id sel ref,
    match find permitted id with
    | None => inl ref
    | Some pool => if negb (String.eqb (State pool) RunnerPoolActive) then inl (refuse (rf_Reason ref) (rf_Source ref) (Name pool))
                   else inr (resolved pool sel)
    end = inr r <-> exists p, find permitted id = Some p /\ State p = RunnerPoolActive /\ r = resolved p sel /\ p ∈ permitted /\ rp_ID r = id).
  { intros id sel ref. destruct (find permitted id) as [p|] eqn:E; [|split; [done | by intros (p & ? & _)]].
    pose proof (findFirst_Some _ _ _ E) as [Hin Hf]. apply andb_prop in Hf as [Hid _]. apply String.eqb_eq in Hid.
    destruct (String.eqb_spec (State p) RunnerPoolActive) as [Ea|Ea]; cbn [negb].
    - split; [intros [= <-]; by exists p | intros (q & ? & _ & -> & _); by simplify_eq].
    - split; [done | intros (q & ? & ? & _); by simplify_eq]. }
  unfold Resolve, resolveExplicit, wanted.
  destruct choice as [i|]; [|destruct personal as [i|]; [|destruct org as [i|]]].
  - specialize (Hcore i RunnerPoolSelectedExplicit (refuse ReasonNotFound "" "")).
    destruct (find permitted i) as [p|] eqn:E; [|naive_solver].
    destruct (String.eqb (State p) RunnerPoolActive); cbn [negb] in *; naive_solver.
  - specialize (Hcore i RunnerPoolSelectedPersonal (refuse ReasonDefaultUnavailable "" "")).
    destruct (find permitted i) as [p|] eqn:E; [|naive_solver].
    destruct (String.eqb (State p) RunnerPoolActive); cbn [negb] in *; naive_solver.
  - specialize (Hcore i RunnerPoolSelectedOrg (refuse ReasonDefaultUnavailable "" "")).
    destruct (find permitted i) as [p|] eqn:E; [|naive_solver].
    destruct (String.eqb (State p) RunnerPoolActive); cbn [negb] in *; naive_solver.
  - naive_solver.
Qed.

(** ** The barrier *)

Inductive BarrierReason :=
| BarrierBelowFloor | BarrierPolicyFloor | BarrierAccessFloor | BarrierPoolNotAllowed | BarrierUnknown | BarrierNotOffered.

Record BarrierFacts := mkFacts {
  bf_Limits : option RunnerPoolLimits; Known : bool; Offered : list string; Floor : string; PolicyFloor : string;
  AccessFloor : bool; Org : string; KVMMissing : bool }.

Record BarrierOption := mkOption {
  Class : string; Available' : bool; IsDefault : bool; bo_DefaultSource : string; ReasonCode : option BarrierReason;
  ReasonDetail : string; bo_Floor : string }.

Definition below (c floor : string) : bool := negb (String.eqb floor "") && (classRank c <? classRank floor).

Definition reason (f : BarrierFacts) (c : string) : option BarrierReason * string :=
  if below c (Floor f) then (Some BarrierBelowFloor, Floor f)
  else if below c (PolicyFloor f) then (Some BarrierPolicyFloor, PolicyFloor f)
  else if AccessFloor f && below c "CC3" then (Some BarrierAccessFloor, "CC3")
  else if match bf_Limits f with Some l => negb (AllowsBarrier l c) | None => false end then (Some BarrierPoolNotAllowed, "")
  else if negb (Known f) then (Some BarrierUnknown, "")
  else if negb (memS c (Offered f)) then (Some BarrierNotOffered, "")
  else (None, "").

Definition barrierOption (f : BarrierFacts) (c : string) : BarrierOption :=
  let '(r, fl) := reason f c in
  mkOption c (match r with None => true | Some _ => false end) false "" r
    (match r with Some BarrierNotOffered => if String.eqb c "CC3" && KVMMissing f then "kvm_missing" else "" | _ => "" end) fl.

Definition markDefault (source : string) (o : BarrierOption) : BarrierOption :=
  mkOption (Class o) (Available' o) true source (ReasonCode o) (ReasonDetail o) (bo_Floor o).

(** Mark the first option the predicate accepts, if any. *)
Fixpoint markFirst (ok : BarrierOption -> bool) (source : string) (l : list BarrierOption) : option (list BarrierOption) :=
  match l with
  | [] => None
  | o :: l' => if ok o then Some (markDefault source o :: l') else option_map (cons o) (markFirst ok source l')
  end.

Definition BarrierOptions (f : BarrierFacts) : list BarrierOption :=
  let out := map (barrierOption f) ["CC1"; "CC2"; "CC3"] in
  match markFirst (fun o => String.eqb (Class o) (Org f) && Available' o) "organisation" out with
  | Some out' => out'
  | None => match markFirst Available' "server" (rev out) with Some r => rev r | None => out end
  end.

(** The class may be used at all. *)
Definition usable (f : BarrierFacts) (c : string) : Prop :=
  (Floor f <> "" -> classRank (Floor f) <= classRank c) /\
  (PolicyFloor f <> "" -> classRank (PolicyFloor f) <= classRank c) /\
  (AccessFloor f = true -> 3 <= classRank c) /\
  (forall l, bf_Limits f = Some l -> AllowsBarrier l c = true) /\ Known f = true /\ c ∈ Offered f.

Lemma below_false c floor : below c floor = false <-> (floor <> "" -> classRank floor <= classRank c).
Proof.
  unfold below. rewrite andb_false_iff, negb_false_iff, String.eqb_eq, Z.ltb_ge.
  destruct (decide (floor = "")); naive_solver.
Qed.

Lemma reason_None f c : (reason f c).1 = None <-> usable f c.
Proof.
  unfold reason, usable. rewrite <- (below_false c (Floor f)), <- (below_false c (PolicyFloor f)).
  assert (Ha : AccessFloor f && below c "CC3" = false <-> (AccessFloor f = true -> 3 <= classRank c)).
  { rewrite andb_false_iff, below_false. cbn. destruct (AccessFloor f); naive_solver. }
  assert (Hl : match bf_Limits f with Some l => negb (AllowsBarrier l c) | None => false end = false <->
               (forall l, bf_Limits f = Some l -> AllowsBarrier l c = true)).
  { destruct (bf_Limits f) as [l|]; [|done]. rewrite negb_false_iff. split; [by intros H ? [= <-] | auto]. }
  rewrite <- Ha, <- Hl, <- memS_true.
  destruct (below c (Floor f)), (below c (PolicyFloor f)), (AccessFloor f && below c "CC3"),
    (match bf_Limits f with Some l => _ | None => _ end), (Known f), (memS c (Offered f)); cbn; tauto || (split; [done | intros; exfalso; intuition discriminate]).
Qed.

Lemma barrierOption_available f c : Available' (barrierOption f c) = true <-> usable f c.
Proof. rewrite <- reason_None. unfold barrierOption. destruct (reason f c) as [[r|] fl]; done. Qed.

Lemma barrierOption_class f c : Class (barrierOption f c) = c /\ IsDefault (barrierOption f c) = false.
Proof. unfold barrierOption. by destruct (reason f c). Qed.

(** The class an untouched run gets. *)
Definition defaultBarrier (l : list BarrierOption) : option string :=
  option_map Class (findFirst IsDefault l).

Definition classes : list string := ["CC1"; "CC2"; "CC3"].

(** The barrier an untouched run gets is usable: at or above every floor,
    allowed by the pool and offered by a known runner. It is the organisation's
    default whenever that is usable and otherwise the strongest usable class, and
    there is none only when no class is usable. *)
Theorem default_barrier_is_strongest_usable f :
  match defaultBarrier (BarrierOptions f) with
  | None => forall c, c ∈ classes -> ~ usable f c
  | Some c => c ∈ classes /\ usable f c /\
      (Org f ∈ classes -> usable f (Org f) -> c = Org f) /\
      (c <> Org f -> forall c', c' ∈ classes -> usable f c' -> classRank c' <= classRank c)
  end.
Proof.
  assert (Hcl : forall P : string -> Prop, P "CC1" -> P "CC2" -> P "CC3" -> forall c, c ∈ classes -> P c).
  { intros P H1 H2 H3 c Hc. repeat (apply elem_of_cons in Hc as [->|Hc]; [done|]). by apply not_elem_of_nil in Hc. }
  unfold BarrierOptions. cbn [map rev app].
  pose proof (barrierOption_available f "CC1") as U1. destruct (barrierOption_class f "CC1") as [C1 D1].
  pose proof (barrierOption_available f "CC2") as U2. destruct (barrierOption_class f "CC2") as [C2 D2].
  pose proof (barrierOption_available f "CC3") as U3. destruct (barrierOption_class f "CC3") as [C3 D3].
  destruct (barrierOption f "CC1") as [k1 a1 d1 s1 r1 t1 f1], (barrierOption f "CC2") as [k2 a2 d2 s2 r2 t2 f2],
    (barrierOption f "CC3") as [k3 a3 d3 s3 r3 t3 f3]. cbn [Class Available' IsDefault] in *. subst.
  cbn [markFirst Class Available'].
  assert (V1 : if a1 then usable f "CC1" else ~ usable f "CC1") by (destruct a1; [by apply U1 | by intros ?%U1]).
  assert (V2 : if a2 then usable f "CC2" else ~ usable f "CC2") by (destruct a2; [by apply U2 | by intros ?%U2]).
  assert (V3 : if a3 then usable f "CC3" else ~ usable f "CC3") by (destruct a3; [by apply U3 | by intros ?%U3]).
  clear U1 U2 U3.
  destruct (String.eqb_spec "CC1" (Org f)) as [E1|E1], (String.eqb_spec "CC2" (Org f)) as [E2|E2],
    (String.eqb_spec "CC3" (Org f)) as [E3|E3], a1, a2, a3; try congruence;
    cbn [andb option_map rev app defaultBarrier findFirst markDefault IsDefault Class Available'].
  all: try (split_and!; [set_solver | done | intros Ho Hu | intros Hne]).
  all: try congruence.
  all: try (refine (Hcl (fun c' => usable f c' -> classRank c' <= _) _ _ _); cbn; intros; lia || done).
  all: try (by refine (Hcl (fun c' => ~ usable f c') _ _ _)).
  all: exfalso; (rewrite <- E1 in Hu; done) || (rewrite <- E2 in Hu; done) || (rewrite <- E3 in Hu; done) ||
    (unfold classes in Ho; rewrite !elem_of_cons, elem_of_nil in Ho; intuition congruence).
Qed.

(** ** The candidates *)

Definition RunnerClaimed : string := "claimed".
Definition RunnerOwnerOrg : string := "org".

(** The fields of [types.Runner] and of [types.RunnerPoolMember] read here. *)
Record Runner := mkRunner { rn_ID : string; Owner : string; OwnerKind : string; rn_State : string }.
Record RunnerPoolMember := mkMember { RunnerID : option string }.

(** The members whose runner is in the set, each once, in the order met. *)
Fixpoint collect (owned : string -> bool) (out : list string) (members : list RunnerPoolMember) : list string :=
  match members with
  | [] => out
  | m :: ms =>
      match RunnerID m with
      | Some id => if owned id && negb (memS id out) then collect owned (out ++ [id]) ms else collect owned out ms
      | None => collect owned out ms
      end
  end.

Definition ownedBy (ok : Runner -> bool) (runners : list Runner) (id : string) : bool :=
  containsFunc (fun r => ok r && String.eqb (rn_ID r) id) runners.

Definition ownRunner (principal : string) (r : Runner) : bool :=
  String.eqb (Owner r) principal && negb (String.eqb (OwnerKind r) RunnerOwnerOrg) && String.eqb (rn_State r) RunnerClaimed.

Definition orgRunner (r : Runner) : bool :=
  String.eqb (OwnerKind r) RunnerOwnerOrg && String.eqb (Owner r) "" && String.eqb (rn_State r) RunnerClaimed.

Definition OwnRunnerCandidates (principal : string) (members : list RunnerPoolMember) (runners : list Runner) : list string :=
  if String.eqb principal "" then []
  else sortStrings (collect (ownedBy (ownRunner principal) runners) [] members).

Definition OrgRunnerCandidates (members : list RunnerPoolMember) (runners : list Runner) : list string :=
  sortStrings (collect (ownedBy orgRunner runners) [] members).

Lemma collect_spec owned out ms :
  (forall x, x ∈ collect owned out ms <-> x ∈ out \/ (owned x = true /\ mkMember (Some x) ∈ ms)) /\
  (NoDup out -> NoDup (collect owned out ms)).
Proof.
  assert (Hc : forall x id l, mkMember (Some x) ∈ mkMember (Some id) :: l <-> x = id \/ mkMember (Some x) ∈ l).
  { intros x id l. rewrite elem_of_cons. split; intros [H|H]; [left; congruence | by right | left; congruence | by right]. }
  revert out. induction ms as [|[[id|]] ms IH]; intros out; cbn [collect RunnerID].
  - split; [|done]. intros x. rewrite elem_of_nil. tauto.
  - destruct (owned id) eqn:Eo; cbn [andb]; [destruct (memS id out) eqn:Em; cbn [negb]|].
    + apply memS_true in Em. destruct (IH out) as [He Hn]. split; [|done]. intros x. rewrite He, Hc.
      split; [tauto|]. intros [?|[? [->|?]]]; tauto.
    + apply memS_false in Em. destruct (IH (out ++ [id])) as [He Hn]. split.
      * intros x. rewrite He, elem_of_app, list_elem_of_singleton, Hc. split; [|tauto].
        intros [[?| ->]|[? ?]]; tauto.
      * intros H. apply Hn, NoDup_app. split_and!; [done | set_solver | apply NoDup_singleton].
    + destruct (IH out) as [He Hn]. split; [|done]. intros x. rewrite He, Hc. split; [tauto|].
      intros [?|[? [->|?]]]; [tauto | congruence | tauto].
  - destruct (IH out) as [He Hn]. split; [|done]. intros x. rewrite He, elem_of_cons.
    split; intros [?|[? Hin]]; [tauto | tauto | tauto|]. right. split; [done|]. by destruct Hin as [[=]|?].
Qed.

Lemma ownedBy_true ok runners id : ownedBy ok runners id = true <-> exists r, r ∈ runners /\ ok r = true /\ rn_ID r = id.
Proof.
  unfold ownedBy. rewrite containsFunc_true. split.
  - intros (r & Hr & H). apply andb_prop in H as [H1 H2]. apply String.eqb_eq in H2. eauto.
  - intros (r & Hr & H1 & <-). exists r. by rewrite H1, String.eqb_refl.
Qed.

Lemma candidates_spec owned members :
  let l := sortStrings (collect owned [] members) in
  (forall x, x ∈ l <-> owned x = true /\ mkMember (Some x) ∈ members) /\ NoDup l /\ StronglySorted String.leb l.
Proof.
  destruct (collect_spec owned [] members) as [He Hn]. cbn zeta. split_and!.
  - intros x. rewrite elem_of_sortStrings, He, elem_of_nil. tauto.
  - unfold sortStrings. rewrite sortBy_perm. apply Hn, NoDup_nil_2.
  - apply sortStrings_sorted.
Qed.

(** A person's candidates are exactly the pool's members that are claimed
    runners of that very person and not an organisation's, each once and in one
    order; a person without a name has none. No runner is a candidate both for a
    person and for the organisation. *)
Theorem candidates_are_own_runners principal members runners :
  (forall x, x ∈ OwnRunnerCandidates principal members runners <->
     principal <> "" /\ mkMember (Some x) ∈ members /\
     exists r, r ∈ runners /\ rn_ID r = x /\ Owner r = principal /\ OwnerKind r <> RunnerOwnerOrg /\ rn_State r = RunnerClaimed) /\
  NoDup (OwnRunnerCandidates principal members runners) /\
  StronglySorted String.leb (OwnRunnerCandidates principal members runners) /\
  ((forall r r', r ∈ runners -> r' ∈ runners -> rn_ID r = rn_ID r' -> r = r') ->
   forall x, x ∈ OwnRunnerCandidates principal members runners -> x ∉ OrgRunnerCandidates members runners).
Proof.
  destruct (candidates_spec (ownedBy (ownRunner principal) runners) members) as (He & Hn & Hs).
  assert (Hown : forall x, x ∈ OwnRunnerCandidates principal members runners <->
     principal <> "" /\ mkMember (Some x) ∈ members /\
     exists r, r ∈ runners /\ rn_ID r = x /\ Owner r = principal /\ OwnerKind r <> RunnerOwnerOrg /\ rn_State r = RunnerClaimed).
  { intros x. unfold OwnRunnerCandidates. destruct (String.eqb_spec principal "") as [->|Hp].
    - rewrite elem_of_nil. naive_solver.
    - rewrite He, ownedBy_true. unfold ownRunner. split.
      + intros [(r & Hr & Hok & Hid) Hm]. bool_prop. repeat match goal with H : String.eqb _ _ = true |- _ => apply String.eqb_eq in H end.
        split_and!; [done..|]. exists r. split_and!; try done. by apply String.eqb_neq.
      + intros (_ & Hm & r & Hr & Hid & Ho & Hk & Hst). split; [|done]. exists r. split_and!; [done | | done].
        rewrite Ho, Hst, (proj2 (String.eqb_neq (OwnerKind r) RunnerOwnerOrg) Hk), !String.eqb_refl. done. }
  split; [exact Hown|]. split; [|split].
  - unfold OwnRunnerCandidates. destruct (String.eqb principal ""); [apply NoDup_nil_2 | done].
  - unfold OwnRunnerCandidates. destruct (String.eqb principal ""); [constructor | done].
  - intros Huniq x Hx Hx'. apply Hown in Hx as (_ & _ & r & Hr & Hid & _ & Hk & _).
    destruct (candidates_spec (ownedBy orgRunner runners) members) as (He' & _ & _).
    apply He' in Hx' as [(r' & Hr' & Hok & Hid')%ownedBy_true _].
    rewrite (Huniq r r' Hr Hr' ltac:(congruence)) in Hk. unfold orgRunner in Hok. bool_prop. by apply Hk, String.eqb_eq.
Qed.

(** ** The rendezvous *)

Section Select.
Context (Sum256 : string -> string).

Definition selectionDomain : string := "wardyn/runner-pool-selection/v1".

(** [binary.BigEndian.AppendUint32] of a length. *)
Definition be32 (n : nat) : string :=
  let b k := ascii_of_N (Z.to_N (Z.shiftr (Z.of_nat n) k mod 256)) in
  String (b 24) (String (b 16) (String (b 8) (String (b 0) ""))).

Definition encodeFields (l : list string) : string :=
  foldr (fun f acc => String.app (be32 (String.length f)) (String.app f acc)) "" l.

Definition selectionScore (pool run target : string) : string :=
  Sum256 (encodeFields [selectionDomain; pool; run; target]).

Definition selectStep (pool run : string) (best : string * string) (id : string) : string * string :=
  let score := selectionScore pool run id in
  if String.eqb best.1 "" || negb (String.leb score best.2) || (String.eqb score best.2 && String.ltb id best.1)
  then (id, score) else best.

Definition Select (pool run : string) (eligible : list string) : string :=
  (foldl (selectStep pool run) ("", "") eligible).1.

Definition beats (pool run a b : string) : Prop :=
  String.leb (selectionScore pool run a) (selectionScore pool run b) = false \/
  (selectionScore pool run a = selectionScore pool run b /\ String.ltb a b = true).

Lemma beats_trans pool run a b c : beats pool run a b -> beats pool run b c -> beats pool run a c.
Proof.
  unfold beats. rewrite !ltb_leb. intros [H1|[E1 H1]] [H2|[E2 H2]].
  - left. by eapply leb_false_trans.
  - left. congruence.
  - left. congruence.
  - right. split; [congruence|]. rewrite negb_true_iff in *. by eapply leb_false_trans.
Qed.

Lemma beats_asym pool run a b : beats pool run a b -> ~ beats pool run b a.
Proof.
  assert (Hrefl : forall s, String.leb s s = true) by (intros s; by destruct (String.leb_total s s)).
  intros H1 H2. destruct (beats_trans _ _ _ _ _ H1 H2) as [H|[_ H]]; [|rewrite ltb_leb in H]; rewrite Hrefl in H; done.
Qed.

Lemma beats_total pool run a b : a = b \/ beats pool run a b \/ beats pool run b a.
Proof.
  unfold beats. rewrite !ltb_leb. set (x := selectionScore pool run a). set (y := selectionScore pool run b).
  destruct (String.leb x y) eqn:E1; [|tauto]. destruct (String.leb y x) eqn:E2; [|tauto].
  rewrite (String.leb_antisym _ _ E1 E2).
  destruct (String.leb a b) eqn:E3, (String.leb b a) eqn:E4; [left; by apply String.leb_antisym | tauto..|].
  destruct (String.leb_total a b); congruence.
Qed.

Lemma selectStep_spec pool run b id :
  b <> "" ->
  exists w, selectStep pool run (b, selectionScore pool run b) id = (w, selectionScore pool run w) /\
    ((w = id /\ beats pool run id b) \/ (w = b /\ (id = b \/ beats pool run b id))).
Proof.
  intros Hb. unfold selectStep. cbn [fst snd]. rewrite (proj2 (String.eqb_neq b "") Hb). cbn [orb].
  destruct (_ || _) eqn:E.
  - exists id. split; [done|]. left. split; [done|]. unfold beats. bool_prop. destruct E as [E|E]; bool_prop; [by left | right].
    split; [by apply String.eqb_eq | done].
  - exists b. split; [done|]. right. split; [done|]. destruct (beats_total pool run id b) as [?|[H|?]]; [tauto | | tauto].
    exfalso. bool_prop. destruct H as [H|[Hs Hlt]]; [congruence|]. rewrite Hs, String.eqb_refl, Hlt in *. done.
Qed.

Lemma select_loop pool run l :
  "" ∉ l -> l <> [] ->
  exists w, foldl (selectStep pool run) ("", "") l = (w, selectionScore pool run w) /\ w ∈ l /\
    forall x, x ∈ l -> x = w \/ beats pool run w x.
Proof.
  induction l as [|id l IH] using rev_ind; [done|]. intros Hne _. rewrite foldl_snoc.
  rewrite elem_of_app, list_elem_of_singleton in Hne. destruct l as [|a l'] eqn:El.
  - exists id. split_and!; [done | left|]. intros x [->|Hx]%elem_of_cons; [by left | by apply not_elem_of_nil in Hx].
  - rewrite <- El in *. destruct IH as (w & -> & Hw & Hall); [tauto | by rewrite El|].
    destruct (selectStep_spec pool run w id) as (w' & -> & Hw'); [intros ->; tauto|].
    exists w'. split; [done|]. destruct Hw' as [[-> Hb]|[-> Hb]].
    + split; [set_solver|]. intros x [Hx|Hx%list_elem_of_singleton]%elem_of_app; [|by left].
      right. destruct (Hall x Hx) as [->|?]; [done | by eapply beats_trans].
    + split; [set_solver|]. intros x [Hx|Hx%list_elem_of_singleton]%elem_of_app; [auto|]. subst x. tauto.
Qed.

Lemma select_winner pool run l :
  "" ∉ l -> l <> [] -> Select pool run l ∈ l /\ forall x, x ∈ l -> x = Select pool run l \/ beats pool run (Select pool run l) x.
Proof. intros Hne Hl. unfold Select. destruct (select_loop pool run l Hne Hl) as (w & -> & H1 & H2). done. Qed.

(** The choice of a runner is a function of the set of eligible targets, and
    stable: it is one of them, it does not depend on their order or on repeats,
    and any smaller set that still holds the winner chooses the same winner, so
    losing another target moves no run. *)
Theorem select_is_stable pool run l l' :
  "" ∉ l -> l <> [] -> (forall x, x ∈ l' -> x ∈ l) -> Select pool run l ∈ l' ->
  Select pool run l ∈ l /\ Select pool run l' = Select pool run l.
Proof.
  intros Hne Hl Hsub Hin. destruct (select_winner pool run l Hne Hl) as [Hw Hall]. split; [done|].
  destruct (select_winner pool run l') as [Hw' Hall']; [auto | by intros ->; apply not_elem_of_nil in Hin|].
  destruct (Hall _ (Hsub _ Hw')) as [H|H]; [done|]. destruct (Hall' _ Hin) as [H'|H']; [done|].
  by apply beats_asym in H.
Qed.

(** *** The score's encoding is unambiguous *)

Lemma be32_length n : String.length (be32 n) = 4%nat.
Proof. done. Qed.

Lemma String_cons_inv a b s t : String a s = String b t -> a = b /\ s = t.
Proof. by intros [= -> ->]. Qed.

Lemma be32_inj n m : Z.of_nat n < 2 ^ 32 -> Z.of_nat m < 2 ^ 32 -> be32 n = be32 m -> n = m.
Proof.
  assert (Hb : forall k, Z.of_nat k < 2 ^ 32 ->
    Z.of_nat k = Z.shiftr (Z.of_nat k) 24 mod 256 * 2 ^ 24 + Z.shiftr (Z.of_nat k) 16 mod 256 * 2 ^ 16 +
                 Z.shiftr (Z.of_nat k) 8 mod 256 * 2 ^ 8 + Z.shiftr (Z.of_nat k) 0 mod 256).
  { intros k Hk. rewrite !Z.shiftr_div_pow2 by lia. set (z := Z.of_nat k) in *. assert (0 <= z) by lia.
    change (2 ^ 24) with 16777216. change (2 ^ 16) with 65536. change (2 ^ 8) with 256. change (2 ^ 0) with 1.
    change (2 ^ 32) with 4294967296 in Hk. Z.div_mod_to_equations. lia. }
  assert (Ha : forall a b, ascii_of_N (Z.to_N (a mod 256)) = ascii_of_N (Z.to_N (b mod 256)) -> a mod 256 = b mod 256).
  { intros a b H. apply (f_equal N_of_ascii) in H. pose proof (Z.mod_pos_bound a 256). pose proof (Z.mod_pos_bound b 256).
    rewrite !N_ascii_embedding in H by lia. lia. }
  intros Hn Hm H. unfold be32 in H.
  apply String_cons_inv in H as [H1 H]. apply String_cons_inv in H as [H2 H].
  apply String_cons_inv in H as [H3 H]. apply String_cons_inv in H as [H4 _].
  apply Ha in H1, H2, H3, H4. pose proof (Hb n Hn). pose proof (Hb m Hm). lia.
Qed.

Lemma app_inj_len a b a' b' :
  String.length a = String.length a' -> String.app a b = String.app a' b' -> a = a' /\ b = b'.
Proof.
  revert a'. induction a as [|c a IH]; intros [|c' a']; cbn; [done | done | done|].
  intros [= Hl] [= -> H]. destruct (IH a' Hl H) as [-> ->]. done.
Qed.

(** The buffer the rendezvous hashes determines its fields: the length-prefixed
    encoding is injective on every list of fields shorter than 4 GiB. *)
Theorem selection_encoding_injective l l' :
  Forall (fun f => Z.of_nat (String.length f) < 2 ^ 32) l -> Forall (fun f => Z.of_nat (String.length f) < 2 ^ 32) l' ->
  encodeFields l = encodeFields l' -> l = l'.
Proof.
  intros Hl. revert l'. induction Hl as [|f l Hf _ IH]; intros m Hm; destruct Hm as [|f' l' Hf' Hl'];
    cbn [encodeFields foldr]; try done.
  intros H. apply app_inj_len in H as [He H]; [|by rewrite !be32_length]. apply be32_inj in He; [|done | done].
  apply app_inj_len in H as [-> H]; [|done]. f_equal. by apply IH.
Qed.
End Select.

(** ** Fitting a run on a runner *)

Record RunnerAmounts := mkAmounts { ra_CPUMillis : Z; ra_MemoryMiB : Z; ra_DiskMiB : Z }.
Record RunnerLimits := mkRLimits { RunsAtOnce : Z; Total : RunnerAmounts; PerRun : RunnerAmounts }.
(** [MacOSVMRuns] is not read here. *)
Record RunnerTally := mkTally { Runs : Z; rt_CPUMillis : Z; rt_MemoryMiB : Z; rt_DiskMiB : Z }.

Definition RunnerCPUMillisMin : Z := 1000.
Definition RunnerDiskStepMiB : Z := 1024.

Definition amountsValidate (a : RunnerAmounts) : bool :=
  negb ((ra_CPUMillis a <? RunnerCPUMillisMin) || (ra_CPUMillis a >? RunnerPoolCPUMillisMax)) &&
  negb ((ra_MemoryMiB a <? 1) || (ra_MemoryMiB a >? RunnerPoolMemoryMiBMax)) &&
  negb ((ra_DiskMiB a <? RunnerDiskStepMiB) || (ra_DiskMiB a >? RunnerPoolDiskMiBMax)
        || negb (Z.rem (ra_DiskMiB a) RunnerDiskStepMiB =? 0)).

Definition runnerLimitsValidate (maxRuns : Z) (l : RunnerLimits) : bool :=
  negb ((RunsAtOnce l <? 1) || (RunsAtOnce l >? maxRuns)) && amountsValidate (Total l) && amountsValidate (PerRun l) &&
  negb ((ra_CPUMillis (PerRun l) >? ra_CPUMillis (Total l)) || (ra_MemoryMiB (PerRun l) >? ra_MemoryMiB (Total l))
        || (ra_DiskMiB (PerRun l) >? ra_DiskMiB (Total l))).

Definition PerRunShare (total : RunnerAmounts) (runsAtOnce : Z) : RunnerAmounts :=
  let runs := Z.max 1 runsAtOnce in
  let share v least step := Z.min v (Z.max least (Z.quot (Z.quot v runs) step * step)) in
  mkAmounts (share (ra_CPUMillis total) RunnerCPUMillisMin 1) (share (ra_MemoryMiB total) 1024 1)
            (share (ra_DiskMiB total) RunnerDiskStepMiB RunnerDiskStepMiB).

Definition ProposeRunnerLimits (measured : RunnerAmounts) (runsAtOnce : Z) : RunnerLimits :=
  let runs := Z.max 1 runsAtOnce in
  let half v least step := if v <=? 0 then 0 else Z.max least (Z.quot (Z.quot v 2) step * step) in
  let total := mkAmounts (half (ra_CPUMillis measured) RunnerCPUMillisMin 1) (half (ra_MemoryMiB measured) 1 1)
                         (half (ra_DiskMiB measured) RunnerDiskStepMiB RunnerDiskStepMiB) in
  mkRLimits runs total (PerRunShare total runs).

Inductive Fit := FitOK | FitUnset | FitTooBig | FitNoRoom.

Definition Fits (l : option RunnerLimits) (inUse : RunnerTally) (need : RunnerAmounts) : Fit :=
  match l with
  | None => FitUnset
  | Some l =>
      if (ra_CPUMillis need >? ra_CPUMillis (PerRun l)) || (ra_MemoryMiB need >? ra_MemoryMiB (PerRun l))
         || (ra_DiskMiB need >? ra_DiskMiB (PerRun l)) then FitTooBig
      else if (Runs inUse >=? RunsAtOnce l) || (wrap64 (rt_CPUMillis inUse + ra_CPUMillis need) >? ra_CPUMillis (Total l))
              || (wrap64 (rt_MemoryMiB inUse + ra_MemoryMiB need) >? ra_MemoryMiB (Total l))
              || (wrap64 (rt_DiskMiB inUse + ra_DiskMiB need) >? ra_DiskMiB (Total l)) then FitNoRoom
      else FitOK
  end.

Definition Available (l : option RunnerLimits) (inUse : RunnerTally) (online : bool) : RunnerTally :=
  match l with
  | None => mkTally 0 0 0 0
  | Some l =>
      if negb online then mkTally 0 0 0 0
      else mkTally (Z.max 0 (wrap64 (RunsAtOnce l - Runs inUse))) (Z.max 0 (wrap64 (ra_CPUMillis (Total l) - rt_CPUMillis inUse)))
             (Z.max 0 (wrap64 (ra_MemoryMiB (Total l) - rt_MemoryMiB inUse)))
             (Z.max 0 (wrap64 (ra_DiskMiB (Total l) - rt_DiskMiB inUse)))
  end.

(** *** A runner under admissions and ends *)

Definition sumOf (f : RunnerAmounts -> Z) (l : list RunnerAmounts) : Z := foldr (fun a s => f a + s) 0 l.

(** What the runs on a runner hold. *)
Definition tally (held : list RunnerAmounts) : RunnerTally :=
  mkTally (Z.of_nat (length held)) (sumOf ra_CPUMillis held) (sumOf ra_MemoryMiB held) (sumOf ra_DiskMiB held).

Definition nonneg (a : RunnerAmounts) : Prop := 0 <= ra_CPUMillis a /\ 0 <= ra_MemoryMiB a /\ 0 <= ra_DiskMiB a.

(** The runs a runner with limits [l] can come to hold: each is admitted only on
    [FitOK] for what is held at that moment, and any may end. *)
Inductive holds (l : RunnerLimits) : list RunnerAmounts -> Prop :=
| holds_none : holds l []
| holds_admit held need : holds l held -> nonneg need -> Fits (Some l) (tally held) need = FitOK -> holds l (need :: held)
| holds_end held held' need : holds l held -> held ≡ₚ need :: held' -> holds l held'.

Lemma sumOf_perm f l l' : l ≡ₚ l' -> sumOf f l = sumOf f l'.
Proof. unfold sumOf. induction 1; cbn; lia. Qed.

Lemma sumOf_nonneg f l : Forall (fun a => 0 <= f a) l -> 0 <= sumOf f l.
Proof. unfold sumOf. induction 1; cbn; lia. Qed.

Lemma sums_nonneg l :
  Forall nonneg l -> 0 <= sumOf ra_CPUMillis l /\ 0 <= sumOf ra_MemoryMiB l /\ 0 <= sumOf ra_DiskMiB l.
Proof. intros H. split_and!; apply sumOf_nonneg; (eapply Forall_impl; [exact H | by intros a (? & ? & ?)]). Qed.

Definition within (l : RunnerLimits) (held : list RunnerAmounts) : Prop :=
  Forall nonneg held /\ Z.of_nat (length held) <= RunsAtOnce l /\ sumOf ra_CPUMillis held <= ra_CPUMillis (Total l) /\
  sumOf ra_MemoryMiB held <= ra_MemoryMiB (Total l) /\ sumOf ra_DiskMiB held <= ra_DiskMiB (Total l).

Lemma fits_ok l t need :
  Fits (Some l) t need = FitOK ->
  ra_CPUMillis need <= ra_CPUMillis (PerRun l) /\ ra_MemoryMiB need <= ra_MemoryMiB (PerRun l) /\
  ra_DiskMiB need <= ra_DiskMiB (PerRun l) /\ Runs t < RunsAtOnce l /\
  wrap64 (rt_CPUMillis t + ra_CPUMillis need) <= ra_CPUMillis (Total l) /\
  wrap64 (rt_MemoryMiB t + ra_MemoryMiB need) <= ra_MemoryMiB (Total l) /\
  wrap64 (rt_DiskMiB t + ra_DiskMiB need) <= ra_DiskMiB (Total l).
Proof.
  unfold Fits. rewrite !Z.gtb_ltb, Z.geb_leb. destruct (_ || _ || _) eqn:E1; [done|]. destruct (_ || _ || _ || _) eqn:E2; [done|].
  intros _. bool_prop. split_and!; done.
Qed.

Lemma validate_bounds maxRuns l :
  runnerLimitsValidate maxRuns l = true ->
  1 <= RunsAtOnce l <= maxRuns /\
  0 < ra_CPUMillis (PerRun l) <= ra_CPUMillis (Total l) /\ ra_CPUMillis (Total l) <= 1000000 /\
  0 < ra_MemoryMiB (PerRun l) <= ra_MemoryMiB (Total l) /\ ra_MemoryMiB (Total l) <= 16777216 /\
  0 < ra_DiskMiB (PerRun l) <= ra_DiskMiB (Total l) /\ ra_DiskMiB (Total l) <= 16777216.
Proof.
  unfold runnerLimitsValidate, amountsValidate. rewrite !Z.gtb_ltb. intros H. bool_prop.
  change RunnerPoolCPUMillisMax with 1000000 in *. change RunnerPoolMemoryMiBMax with 16777216 in *.
  change RunnerPoolDiskMiBMax with 16777216 in *. unfold RunnerCPUMillisMin, RunnerDiskStepMiB in *. lia.
Qed.

Lemma holds_within maxRuns l held : runnerLimitsValidate maxRuns l = true -> holds l held -> within l held.
Proof.
  intros Hv%validate_bounds. induction 1 as [|held need _ (Hf & Hn & Hc & Hm & Hd) Hneg Hfit | held held' need _ IH Hp].
  - unfold within. cbn. split_and!; [constructor | lia..].
  - apply fits_ok in Hfit as (H1 & H2 & H3 & H4 & H5 & H6 & H7). destruct Hneg as (N1 & N2 & N3).
    destruct (sums_nonneg held Hf) as (? & ? & ?).
    unfold tally in *. cbn [rt_CPUMillis rt_MemoryMiB rt_DiskMiB Runs] in *.
    rewrite wrap64_small in H5, H6, H7 by lia.
    unfold within. cbn [sumOf foldr length]. fold (sumOf ra_CPUMillis held) (sumOf ra_MemoryMiB held) (sumOf ra_DiskMiB held).
    split_and!; [constructor; [by split_and! | done] | lia..].
  - destruct IH as (Hf & Hn & Hc & Hm & Hd). rewrite Hp in Hf. apply Forall_cons in Hf as [(N1 & N2 & N3) Hf].
    rewrite (Permutation_length Hp) in Hn. rewrite (sumOf_perm _ _ _ Hp) in Hc. rewrite (sumOf_perm _ _ _ Hp) in Hm.
    rewrite (sumOf_perm _ _ _ Hp) in Hd. cbn in Hn, Hc, Hm, Hd.
    unfold within, sumOf in *. split_and!; [done | lia..].
Qed.

(** However runs come and go, a runner whose limits passed the write-time check
    never holds more runs, CPU, memory or disk than its limits, and what is shown
    as available is exactly what is left of each total. *)
Theorem runner_never_overcommits maxRuns l held :
  runnerLimitsValidate maxRuns l = true -> maxRuns <= MaxInt32 -> holds l held ->
  within l held /\
  Available (Some l) (tally held) true =
    mkTally (RunsAtOnce l - Z.of_nat (length held)) (ra_CPUMillis (Total l) - sumOf ra_CPUMillis held)
      (ra_MemoryMiB (Total l) - sumOf ra_MemoryMiB held) (ra_DiskMiB (Total l) - sumOf ra_DiskMiB held).
Proof.
  intros Hv Hmax H. pose proof (holds_within _ _ _ Hv H) as Hw. apply validate_bounds in Hv. split; [done|].
  destruct Hw as (Hf & Hn & Hc & Hm & Hd). unfold MaxInt32 in Hmax.
  destruct (sums_nonneg held Hf) as (? & ? & ?).
  cbn [Available negb tally Runs rt_CPUMillis rt_MemoryMiB rt_DiskMiB].
  rewrite !wrap64_small by lia. f_equal; lia.
Qed.

Lemma half_bounds v least step max :
  0 < v <= 2 * max -> 0 < step -> 0 <= least <= max -> (step | least) ->
  let h := Z.max least (Z.quot (Z.quot v 2) step * step) in least <= h <= max /\ (step | h).
Proof.
  intros Hv Hs Hl Hdiv. cbn zeta. rewrite (Z.quot_div_nonneg v 2), Z.quot_div_nonneg by (try apply Z.div_pos; lia).
  assert (Hle : v / 2 / step * step <= max) by (Z.div_mod_to_equations; nia).
  split; [lia|]. destruct (Z.max_spec least (v / 2 / step * step)) as [[_ ->]|[_ ->]]; [apply Z.divide_factor_r | done].
Qed.

Lemma share_bounds v least step runs :
  0 <= v -> 1 <= runs -> 0 < step -> 0 < least -> (step | least) -> (step | v) ->
  let h := Z.min v (Z.max least (Z.quot (Z.quot v runs) step * step)) in Z.min v least <= h <= v /\ (step | h).
Proof.
  intros Hv Hr Hs Hl Hdl Hdv. cbn zeta. split; [lia|].
  destruct (Z.min_spec v (Z.max least (Z.quot (Z.quot v runs) step * step))) as [[_ ->]|[_ ->]]; [done|].
  destruct (Z.max_spec least (Z.quot (Z.quot v runs) step * step)) as [[_ ->]|[_ ->]]; [apply Z.divide_factor_r | done].
Qed.

Lemma amountsValidate_intro a :
  1000 <= ra_CPUMillis a <= 1000000 -> 1 <= ra_MemoryMiB a <= 16777216 -> 1024 <= ra_DiskMiB a <= 16777216 ->
  (1024 | ra_DiskMiB a) -> amountsValidate a = true.
Proof.
  intros Hc Hm Hd Hdiv. unfold amountsValidate. rewrite !Z.gtb_ltb.
  change RunnerPoolCPUMillisMax with 1000000. change RunnerPoolMemoryMiBMax with 16777216.
  change RunnerPoolDiskMiBMax with 16777216. unfold RunnerCPUMillisMin, RunnerDiskStepMiB.
  rewrite (proj2 (Z.rem_divide (ra_DiskMiB a) 1024 ltac:(lia)) Hdiv), Z.eqb_refl.
  repeat match goal with |- context [(?x <? ?y)] => rewrite (proj2 (Z.ltb_ge x y)) by lia end. done.
Qed.

(** The limits setup proposes for a measured computer pass the write-time
    check: every amount measured, Runs at once within the ceiling and the measures
    within twice the contract's bounds. *)
Theorem proposed_limits_are_valid maxRuns measured runs :
  1 <= runs <= maxRuns -> 0 < ra_CPUMillis measured <= 2 * RunnerPoolCPUMillisMax ->
  0 < ra_MemoryMiB measured <= 2 * RunnerPoolMemoryMiBMax -> 0 < ra_DiskMiB measured <= 2 * RunnerPoolDiskMiBMax ->
  runnerLimitsValidate maxRuns (ProposeRunnerLimits measured runs) = true.
Proof.
  change RunnerPoolCPUMillisMax with 1000000. change RunnerPoolMemoryMiBMax with 16777216. change RunnerPoolDiskMiBMax with 16777216.
  intros Hr Hc Hm Hd. unfold ProposeRunnerLimits, PerRunShare, RunnerCPUMillisMin, RunnerDiskStepMiB. cbn zeta.
  cbn [ra_CPUMillis ra_MemoryMiB ra_DiskMiB]. rewrite (Z.max_r 1 runs) by lia. rewrite (Z.max_r 1 runs) by lia.
  rewrite !(proj2 (Z.leb_gt _ 0)) by lia.
  destruct (half_bounds _ 1000 1 1000000 Hc ltac:(lia) ltac:(lia) (Z.divide_1_l _)) as [Bc _].
  destruct (half_bounds _ 1 1 16777216 Hm ltac:(lia) ltac:(lia) (Z.divide_1_l _)) as [Bm _].
  destruct (half_bounds _ 1024 1024 16777216 Hd ltac:(lia) ltac:(lia) (Z.divide_refl _)) as [Bd Dd].
  set (tc := Z.max 1000 _) in *. set (tm := Z.max 1 _) in *. set (td := Z.max 1024 _) in *.
  destruct (share_bounds tc 1000 1 runs ltac:(lia) ltac:(lia) ltac:(lia) ltac:(lia) (Z.divide_1_l _) (Z.divide_1_l _)) as [Sc _].
  destruct (share_bounds tm 1024 1 runs ltac:(lia) ltac:(lia) ltac:(lia) ltac:(lia) (Z.divide_1_l _) (Z.divide_1_l _)) as [Sm _].
  destruct (share_bounds td 1024 1024 runs ltac:(lia) ltac:(lia) ltac:(lia) ltac:(lia) (Z.divide_refl _) Dd) as [Sd SDd].
  set (sc := Z.min tc _) in *. set (sm := Z.min tm _) in *. set (sd := Z.min td _) in *.
  unfold runnerLimitsValidate. cbn [RunsAtOnce Total PerRun ra_CPUMillis ra_MemoryMiB ra_DiskMiB]. rewrite !Z.gtb_ltb.
  rewrite !amountsValidate_intro by (cbn; try lia; assumption).
  repeat match goal with |- context [(?x <? ?y)] => rewrite (proj2 (Z.ltb_ge x y)) by lia end. done.
Qed.

(** A run cut to its effective limits fits some candidate whole: with the
    runner source built from the candidates' per-run limits, one candidate takes
    the applied CPU, memory and disk at once, whatever the request asked for. *)
Theorem applied_size_fits_a_candidate rt l out cands r ac am ad :
  RunnerCapacitySource cands = Some r -> r ∈ l -> Effective rt l = inr out ->
  exists b vc vm vd, b ∈ cands /\
    (Apply (el_CPUMillis out) ac).1 = Amount vc /\ (Apply (el_MemoryMiB out) am).1 = Amount vm /\
    (Apply (el_DiskMiB out) ad).1 = Amount vd /\
    forall rl inUse, PerRun rl = mkAmounts (rc_CPUMillis b) (rc_MemoryMiB b) (rc_DiskMiB b) ->
      Fits (Some rl) inUse (mkAmounts vc vm vd) = FitOK \/ Fits (Some rl) inUse (mkAmounts vc vm vd) = FitNoRoom.
Proof.
  intros Hr Hin (_ & Hg & Hf)%effective_inv. apply foldSources_inv in Hf as (H1 & H2 & H3 & _).
  apply (foldField_spec _ _ _ Hg) in H1, H2, H3. apply runnerSource_spec in Hr as (_ & _ & b & Hb & Mc & Mm & Md).
  destruct (apply_within _ _ _ _ _ ac H1 Hin Mc) as (vc & Ec & Lc).
  destruct (apply_within _ _ _ _ _ am H2 Hin Mm) as (vm & Em & Lm).
  destruct (apply_within _ _ _ _ _ ad H3 Hin Md) as (vd & Ed & Ld).
  exists b, vc, vm, vd. split_and!; [done..|]. intros rl inUse Hp. unfold Fits. rewrite Hp, !Z.gtb_ltb.
  cbn [ra_CPUMillis ra_MemoryMiB ra_DiskMiB].
  rewrite (proj2 (Z.ltb_ge (rc_CPUMillis b) vc)), (proj2 (Z.ltb_ge (rc_MemoryMiB b) vm)), (proj2 (Z.ltb_ge (rc_DiskMiB b) vd)) by lia.
  cbn [orb]. destruct (_ || _ || _ || _); auto.
Qed.

(** ** Concrete runners *)

Lemma select_is_stable_witness :
  Select id "pool" "run" ["b"; "a"; "c"] = Select id "pool" "run" ["c"; "b"] /\ "" ∉ ["b"; "a"; "c"].
Proof.
  assert (Hne : "" ∉ ["b"; "a"; "c"]) by (intros H; repeat (apply elem_of_cons in H as [H|H]; [done|]); by apply not_elem_of_nil in H).
  split; [|exact Hne]. symmetry. apply (select_is_stable id "pool" "run" ["b"; "a"; "c"] ["c"; "b"]); [exact Hne | done | |].
  - intros x Hx. set_solver.
  - vm_compute. apply list_elem_of_here.
Defined.

Lemma selection_encoding_injective_witness :
  encodeFields ["a"; "bc"] = encodeFields ["a"; "bc"] /\ (["a"; "bc"] = ["a"; "bc"]).
Proof.
  split; [reflexivity|]. apply selection_encoding_injective; [repeat constructor.. | reflexivity].
Defined.

Definition sampleRunnerLimits : RunnerLimits := mkRLimits 2 (mkAmounts 4000 8192 20480) (mkAmounts 3000 4096 10240).

Lemma runner_never_overcommits_witness :
  holds sampleRunnerLimits [mkAmounts 3000 4096 10240] /\ within sampleRunnerLimits [mkAmounts 3000 4096 10240].
Proof.
  assert (H : holds sampleRunnerLimits [mkAmounts 3000 4096 10240]).
  { apply holds_admit; [apply holds_none | unfold nonneg; cbn; lia | reflexivity]. }
  split; [exact H|]. apply (runner_never_overcommits 32 sampleRunnerLimits _ eq_refl); [unfold MaxInt32; lia | exact H].
Defined.

Lemma proposed_limits_are_valid_witness :
  runnerLimitsValidate 32 (ProposeRunnerLimits (mkAmounts 16000 32768 512000) 4) = true.
Proof. apply (proposed_limits_are_valid 32 (mkAmounts 16000 32768 512000) 4); (split; vm_compute; congruence). Defined.

Lemma applied_size_fits_a_candidate_witness :
  exists vc, match Effective RunnerPoolRunBackground sampleSources with
             | inr out => (Apply (el_CPUMillis out) 7000).1 = Amount vc
             | inl _ => False
             end.
Proof.
  destruct (Effective RunnerPoolRunBackground sampleSources) as [e|out] eqn:E; [vm_compute in E; discriminate|].
  destruct (applied_size_fits_a_candidate _ _ _ [mkCap 4000 8192 40960; mkCap 8000 4096 20480] sampleRunner 7000 0 0
    eq_refl ltac:(by right; left) E) as (b & vc & vm & vd & _ & H & _). exists vc. exact H.
Defined.

(** A second run of that size waits, a bigger one never fits. *)
Example sample_fits :
  Fits (Some sampleRunnerLimits) (tally [mkAmounts 3000 4096 10240]) (mkAmounts 3000 4096 10240) = FitNoRoom /\
  Fits (Some sampleRunnerLimits) (tally []) (mkAmounts 4000 4096 10240) = FitTooBig /\
  Fits None (tally []) (mkAmounts 1 1 1) = FitUnset.
Proof. split_and!; reflexivity. Qed.
