(* ===== verification/Clamp.v ===== *)
(** * Composer: the clamp

    [internal/composer/clamp.go] outside its grant half (which is [GrantBounds]):
    [clamp] tightens a proposed run policy to the operator's ceiling, field by
    field, with a warning for each cut; [CapResources], [MemberDefault],
    [CapDiskMiB] and the two confinement helpers beside it.

    A step returns the new value of its field and its warnings, which keep what
    the message prints and leave out its words; the warnings of [clampGrants] are
    not carried. [cloneProposal] only copies memory, so it has no counterpart.
    [eff] is [sizing.EffectiveLimits] and [hostnameOf] is the host [url.Parse]
    reads in the detector's address, empty when it reads none. *)
From S2P Require Import Prelude GoStrings GoSlices NetIP IPGuard DomainMatch PolicyTypes PushRules EgressPolicy DomEntry Grants GrantBounds Leq Meet PoolLimits.
Local Open Scope string_scope.
Local Open Scope Z_scope.
Local Open Scope list_scope.

Inductive warning :=
| WConfinement (from to : string) | WAllowAllEgress | WPushAnyBranch | WInnerWall (field to : string)
| WDesktop | WRecording (from to : string) | WTool (tool from to : string) | WDomains (dropped : list string)
| WFirstUse (from to : string) | WFirstUseHold (from to : Z) | WMaxHolds (from to : Z)
| WInspection (mode : string) | WInspectionDropped | WMethods (dropped : list string) | WMethodsRestricted
| WAppsDropped (apps : list (string * Z)) | WAppsInbound (apps : list (string * Z)) | WAppsCallers (apps : list (string * Z))
| WResourcesCapped | WAutoStop (to : Z) | WMounts (n : nat) | WPushInherited | WPushPack (to : Z) | WPushFile (to : Z).

Definition warned (A : Type) : Type := A * list warning.
Definition thenWarn {A B} (m : warned A) (k : A -> warned B) : warned B :=
  let '(x, w1) := m in let '(y, w2) := k x in (y, w1 ++ w2).
Notation "x <~ m ;; k" := (thenWarn m (fun x => k)) (at level 100, m at next level, right associativity) : wardyn_scope.
Local Open Scope wardyn_scope.

Section Clamp.
Context {U : GoUnicode} (eff : ResourceLimits) (hostnameOf : string -> string).

(** ** Confinement *)

Definition EffectiveConfinementFloor (policyMin floor cap : string) : string :=
  let floor := if (confinementRank cap >? 0) && (confinementRank floor >? confinementRank cap) then cap else floor in
  if confinementRank floor >? confinementRank policyMin then floor else policyMin.

Definition clampConfinement (proposed ceiling : string) : warned string :=
  if (confinementRank ceiling >? 0) && (confinementRank proposed <? confinementRank ceiling)
  then (ceiling, [WConfinement proposed ceiling]) else (proposed, []).

Definition ClampRunConfinement (runClass floor : string) : string * bool :=
  if (confinementRank floor >? 0) && (confinementRank runClass <? confinementRank floor) then (floor, true)
  else (runClass, false).

(** ** Switches, inner walls, desktop, recording *)

Definition clampSwitch (proposed ceiling : bool) (w : warning) : warned bool :=
  if proposed && negb ceiling then (false, [w]) else (proposed, []).

Definition clampInnerWall (field proposed ceiling : string) : warned string :=
  if String.eqb ceiling "" || String.eqb proposed ceiling then (proposed, [])
  else (ceiling, if String.eqb proposed "" then [] else [WInnerWall field ceiling]).

Definition clampInnerWalls (out ceiling : option HarnessInnerWalls) : warned (option HarnessInnerWalls) :=
  match ceiling with
  | None => (out, [])
  | Some c =>
      let p := default (mkWalls "" "") out in
      sm <~ clampInnerWall "harness_inner_walls.sandbox_mode" (SandboxMode p) (SandboxMode c) ;;
      ap <~ clampInnerWall "harness_inner_walls.approvals" (PolicyTypes.Approvals p) (PolicyTypes.Approvals c) ;;
      (if bool_decide (mkWalls sm ap = mkWalls "" "") then out else Some (mkWalls sm ap), [])
  end.

Definition clampDesktop (out ceiling : option DesktopControls) : warned (option DesktopControls) :=
  match out, ceiling with
  | None, Some c => (Some c, [])
  | _, _ => if leqDesktop out ceiling then (out, []) else (Some (desktopMeet out ceiling), [WDesktop])
  end.

Definition clampRecording (out ceiling : string) : warned string :=
  let raised := recordingAtLeast out ceiling in
  (raised, if negb (String.eqb raised out) && negb (String.eqb out "") then [WRecording out raised] else []).

(** ** Tools *)

Fixpoint ceilingToolEffectLoop (def : string) (rules : list ToolRule) (tool : string) : string :=
  match rules with
  | [] => def
  | r :: rs => if String.eqb (Tool r) tool then Effect r
               else ceilingToolEffectLoop (if String.eqb (Tool r) "*" then Effect r else def) rs tool
  end.

Definition ceilingToolEffect (ceiling : list ToolRule) (tool : string) : string :=
  ceilingToolEffectLoop ToolHold ceiling tool.

Definition raiseTool (ceiling : list ToolRule) (r : ToolRule) : warned ToolRule :=
  let floor := ceilingToolEffect ceiling (Tool r) in
  if toolStrictness (Effect r) <? toolStrictness floor
  then (mkToolRule (Tool r) floor, [WTool (Tool r) (Effect r) floor]) else (r, []).

Definition clampToolRules (out ceiling : list ToolRule) : warned (list ToolRule) :=
  match out with
  | [] => (ceiling, [])
  | _ =>
      let raised := map (raiseTool ceiling) out in
      (map fst raised ++ List.filter (fun r => negb (memS (Tool r) (map Tool out))) ceiling, concat (map snd raised))
  end.

(** ** Domains *)

(** [toSet] reads its keys folded, so membership is [memKey]; [partition] with
    that test. *)
Definition keptIn (allowed xs : list string) : list string := List.filter (fun x => memKey x allowed) xs.
Definition droppedFrom (allowed xs : list string) : list string := List.filter (fun x => negb (memKey x allowed)) xs.

Definition union (a b : list string) : list string :=
  sortStrings (fold_left (fun out x => if memKey x out then out else out ++ [x]) b a).

Definition clampAllowed (out ceiling : list string) (ceilingAllowAll : bool) : warned (list string) :=
  if ceilingAllowAll then (out, [])
  else if nonempty (droppedFrom ceiling out) then (keptIn ceiling out, [WDomains (droppedFrom ceiling out)]) else (out, []).

Definition clampDenied (out ceiling : list string) : list string := if nonempty ceiling then union out ceiling else out.

(** ** First use *)

Definition clampFirstUse (out ceiling : string) : warned string :=
  let e := normalizeFirstUse out in
  let c := normalizeFirstUse ceiling in
  if firstUseApprovalRank c >? firstUseApprovalRank e then (c, [WFirstUse e c]) else (e, []).

Definition clampHold (norm : Z -> Z) (w : Z -> Z -> warning) (out ceiling : Z) : warned Z :=
  if norm out >? norm ceiling then (norm ceiling, [w (norm out) (norm ceiling)]) else (out, []).

(** ** Inspection *)

Definition clampInspection (out ceiling : option LLMInspectionSpec) : warned (option LLMInspectionSpec) :=
  match ceiling with
  | Some c =>
      (Some (mkLLM (PolicyTypes.Mode c) (WorkspaceSecretNames c) [] (DetectSecrets c) (DetectSecretPatterns c) (DetectEntropy c)
               (DetectPII c) (DetectorSidecarURL c) (ClassifiedMarkers c) (ScanAttachments c) (InspectForwardEgress c)
               (MaxScanBytes c) (OnScannerError c) (RequireInspectableLLM c) (InterceptTLS c) (BlockMinSeverity c)),
       [WInspection (PolicyTypes.Mode c)])
  | None => match out with Some _ => (None, [WInspectionDropped]) | None => (None, []) end
  end.

(** The host the inspection adds to the allowlist. *)
Definition sidecarHost (ceiling : option LLMInspectionSpec) : string :=
  match ceiling with Some c => hostnameOf (TrimSpace (DetectorSidecarURL c)) | None => "" end.

Definition withSidecar (allowAll : bool) (ceiling : option LLMInspectionSpec) (allowed : list string) : list string :=
  if negb allowAll && negb (String.eqb (sidecarHost ceiling) "") then union allowed [sidecarHost ceiling] else allowed.

(** ** Methods *)

Definition keepMethods (out ceiling : list string) : warned (list string) :=
  if nonempty (droppedFrom ceiling out) then (keptIn ceiling out, [WMethods (droppedFrom ceiling out)]) else (out, []).

Definition clampMethods (out ceiling : list string) : warned (list string) :=
  if negb (nonempty ceiling) then (out, [])
  else
    kept <~ keepMethods out ceiling ;;
    (if nonempty (normMethods kept) then (kept, []) else (ceiling, [WMethodsRestricted])).

(** ** UI apps *)

Inductive appVerdict := AppDropped | AppKept (a : UIApp) | AppUninbound (a : UIApp) | AppUncalled (a : UIApp).

Definition clampUIApp (ceiling : list UIApp) (a : UIApp) : appVerdict :=
  match findFirst (fun c => String.eqb (AppName c) (AppName a) && (AppPort c =? AppPort a)) ceiling with
  | None => AppDropped
  | Some c =>
      if Inbound a && negb (Inbound c) then AppUninbound (mkUIApp (AppName a) (AppPort a) (AppPath a) false [])
      else if Inbound a then
        let allowed := List.filter (fun x => memS x (Callers c)) (Callers a) in
        if Nat.eqb (length allowed) (length (Callers a)) then AppKept a
        else AppUncalled (mkUIApp (AppName a) (AppPort a) (AppPath a) true allowed)
      else AppKept a
  end.

Definition appOf (v : appVerdict) : option UIApp :=
  match v with AppDropped => None | AppKept a | AppUninbound a | AppUncalled a => Some a end.

Definition appNames (f : appVerdict -> bool) (ceiling proposed : list UIApp) : list (string * Z) :=
  map (fun a => (AppName a, AppPort a)) (List.filter (fun a => f (clampUIApp ceiling a)) proposed).

Definition clampUIApps (proposed ceiling : list UIApp) : warned (list UIApp) :=
  if negb (nonempty ceiling) || negb (nonempty proposed) then (proposed, [])
  else
    let d := appNames (fun v => match v with AppDropped => true | _ => false end) ceiling proposed in
    let i := appNames (fun v => match v with AppUninbound _ => true | _ => false end) ceiling proposed in
    let c := appNames (fun v => match v with AppUncalled _ => true | _ => false end) ceiling proposed in
    (omap (fun a => appOf (clampUIApp ceiling a)) proposed,
     (if nonempty d then [WAppsDropped d] else []) ++ (if nonempty i then [WAppsInbound i] else [])
     ++ (if nonempty c then [WAppsCallers c] else [])).

(** ** Resources *)

Definition CapDiskMiB (disk ceil : Z) : Z := if (disk >? 0) && (ceil >? 0) && (ceil <? disk) then ceil else disk.

Definition lowerTo (out ceil : Z) : Z := if ceil >? 0 then Z.min out ceil else out.

Definition MemberDefault (deployment : ResourceLimits) (ceiling : option ResourceLimits) : ResourceLimits :=
  let cpu := cmpOrZ (CPUMillis deployment) (CPUMillis eff) in
  let mem := cmpOrZ (MemoryMiB deployment) (MemoryMiB eff) in
  match ceiling with
  | None => mkRes cpu mem 0 0
  | Some c => mkRes (lowerTo cpu (CPUMillis c)) (lowerTo mem (MemoryMiB c)) 0 0
  end.

(** The bounds of the resource step and what it fills an unset field with. *)
Definition resourceCaps (ceiling : option ResourceLimits) (limits : GovernanceLimits) (size untouched : ResourceLimits)
  : ResourceLimits :=
  let own := default zeroRes ceiling in
  mkRes (MemberCap (CPUMillis size) (MaxCPUMillis limits) (CPUMillis untouched))
        (MemberCap (MemoryMiB size) (MaxMemoryMiB limits) (MemoryMiB untouched))
        (match ceiling with None => PidsLimit eff | Some c => cmpOrZ (PidsLimit c) (PidsLimit eff) end) (DiskMiB own).

Definition resourceFill (ceiling : option ResourceLimits) (caps : ResourceLimits) : ResourceLimits :=
  let own := default zeroRes ceiling in
  mkRes (Z.min (cmpOrZ (CPUMillis own) (CPUMillis eff)) (CPUMillis caps))
        (Z.min (cmpOrZ (MemoryMiB own) (MemoryMiB eff)) (MemoryMiB caps)) (PidsLimit caps) (DiskMiB caps).

Definition capField (proposed ceil fill : Z) : Z * bool :=
  if ceil <=? 0 then (proposed, false)
  else if proposed >? ceil then (ceil, true) else if proposed <=? 0 then (fill, false) else (proposed, false).

Definition clampResources (out ceiling : option ResourceLimits) (limits : GovernanceLimits) (size untouched : ResourceLimits)
  (warnSize : bool) : warned (option ResourceLimits) :=
  let caps := resourceCaps ceiling limits size untouched in
  let fill := resourceFill ceiling caps in
  let cr := default zeroRes out in
  let '(cpu, cutC) := capField (CPUMillis cr) (CPUMillis caps) (CPUMillis fill) in
  let '(mem, cutM) := capField (MemoryMiB cr) (MemoryMiB caps) (MemoryMiB fill) in
  let '(pids, cutP) := capField (PidsLimit cr) (PidsLimit caps) (PidsLimit fill) in
  let '(disk, cutD) := capField (DiskMiB cr) (DiskMiB caps) (DiskMiB fill) in
  let disk' := CapDiskMiB disk (MaxEphemeralDiskMiB limits) in
  let new := mkRes cpu mem pids disk' in
  (match out with Some b => if bool_decide (new = b) then Some b else Some new | None => Some new end,
   if (warnSize && (cutC || cutM)) || cutP || cutD || negb (disk' =? disk) then [WResourcesCapped] else []).

Definition capBound (field profileMax floor def : Z) : Z :=
  let c := MemberCap 0 profileMax floor in
  if (profileMax >? 0) && (cmpOrZ field def >? c) then c else field.

Definition CapResources (r : option ResourceLimits) (limits : GovernanceLimits) (floor : ResourceLimits)
  : option ResourceLimits * bool :=
  if (MaxCPUMillis limits <=? 0) && (MaxMemoryMiB limits <=? 0) then (r, false)
  else
    let out := default zeroRes r in
    let new := mkRes (capBound (CPUMillis out) (MaxCPUMillis limits) (CPUMillis floor) (CPUMillis eff))
                     (capBound (MemoryMiB out) (MaxMemoryMiB limits) (MemoryMiB floor) (MemoryMiB eff))
                     (PidsLimit out) (DiskMiB out) in
    match r with
    | None => if bool_decide (new = zeroRes) then (None, false) else (Some new, true)
    | Some b => if (CPUMillis new =? CPUMillis b) && (MemoryMiB new =? MemoryMiB b) then (r, false) else (Some new, true)
    end.

(** ** Auto stop and push rules *)

Definition clampAutoStop (out ceiling : Z) : warned Z :=
  if (ceiling >? 0) && ((out <=? 0) || (out >? ceiling)) then (ceiling, [WAutoStop ceiling]) else (out, []).

Definition capPush (merged ceil : Z) (w : warning) : warned Z :=
  if (ceil >? 0) && ((merged <=? 0) || (merged >? ceil)) then (ceil, [w]) else (merged, []).

Definition clampPushRules (out ceiling : option PushRulesSpec) : warned (option PushRulesSpec) :=
  if negb (pushIsSet ceiling) then (out, [])
  else
    let c := default zeroPush ceiling in
    match out with
    | None => (Some c, [WPushInherited])
    | Some m =>
        let deny := if nonempty (DenyPaths c) then unionPaths (DenyPaths m) (DenyPaths c) else DenyPaths m in
        let review := if nonempty (RequireReviewPaths c) then unionPaths (RequireReviewPaths m) (RequireReviewPaths c)
                      else RequireReviewPaths m in
        pack <~ capPush (MaxInspectPackMiB m) (MaxInspectPackMiB c) (WPushPack (MaxInspectPackMiB c)) ;;
        file <~ capPush (MaxFileSizeMiB m) (MaxFileSizeMiB c) (WPushFile (MaxFileSizeMiB c)) ;;
        let hold := if (HoldSeconds c >? 0) && ((HoldSeconds m <=? 0) || (HoldSeconds m >? HoldSeconds c))
                    then HoldSeconds c else HoldSeconds m in
        (Some (mkPush deny pack review hold (DenyNewExecutables m || DenyNewExecutables c) file (DenyAll m || DenyAll c)), [])
    end.

(** ** The clamp *)

Definition clamp (p c : RunPolicySpec) (limits : GovernanceLimits) (size untouched : ResourceLimits) (warnSize : bool)
  : warned RunPolicySpec :=
  cc <~ clampConfinement (MinConfinementClass p) (MinConfinementClass c) ;;
  aa <~ clampSwitch (AllowAllEgress p) (AllowAllEgress c) WAllowAllEgress ;;
  ab <~ clampSwitch (GitPushAnyBranch p) (GitPushAnyBranch c) WPushAnyBranch ;;
  iw <~ clampInnerWalls (InnerWalls p) (InnerWalls c) ;;
  de <~ clampDesktop (Desktop p) (Desktop c) ;;
  rc <~ clampRecording (Recording p) (Recording c) ;;
  tr <~ clampToolRules (ToolRules p) (ToolRules c) ;;
  ad <~ clampAllowed (AllowedDomains p) (AllowedDomains c) (AllowAllEgress c) ;;
  let dd := clampDenied (DeniedDomains p) (DeniedDomains c) in
  fu <~ clampFirstUse (FirstUseApproval p) (FirstUseApproval c) ;;
  fh <~ clampHold normFirstUseHold WFirstUseHold (FirstUseHoldSeconds p) (FirstUseHoldSeconds c) ;;
  mh <~ clampHold normMaxHolds WMaxHolds (MaxHolds p) (MaxHolds c) ;;
  li <~ clampInspection (LLMInspection p) (LLMInspection c) ;;
  let ad := withSidecar aa (LLMInspection c) ad in
  am <~ clampMethods (AllowedMethods p) (AllowedMethods c) ;;
  ui <~ clampUIApps (UIApps p) (UIApps c) ;;
  let eg := clampGrants (EligibleGrants p) (EligibleGrants c) in
  re <~ clampResources (Resources p) (Resources c) limits size untouched warnSize ;;
  st <~ clampAutoStop (AutoStopAfterSec p) (AutoStopAfterSec c) ;;
  wm <~ (match WorkspaceMounts p with [] => ([], []) | l => ([], [WMounts (length l)]) end) ;;
  pr <~ clampPushRules (PushRules p) (PushRules c) ;;
  (mkSpec ad dd aa fu fh mh am cc eg st wm (WorkspaceRepos p) li ui re tr ab pr (AzureDevOpsCapabilities p)
     (GitHubCapabilities p) iw de rc, []).

Definition Clamp (proposed ceiling : RunPolicySpec) (limits : GovernanceLimits) : warned RunPolicySpec :=
  let size := match Resources ceiling with Some r => mkRes (CPUMillis r) (MemoryMiB r) 0 0 | None => zeroRes end in
  clamp proposed ceiling limits size (MemberDefault zeroRes (Resources ceiling)) true.

Definition ClampMember (proposed ceiling : RunPolicySpec) (limits : GovernanceLimits) (size memberDefault : ResourceLimits)
  : warned RunPolicySpec :=
  clamp proposed ceiling limits size memberDefault false.
End Clamp.
