(* ===== verification/ClampSound.v ===== *)
(** * What the clamp guarantees

    Against the proxy: a clamped policy answers every CONNECT at most as openly as
    the ceiling. Against the run: its tools, posture, size and push rules are at
    least as strict as the ceiling's. Where the code does not give what its
    comments say, a counterexample is evaluated. *)
From S2P Require Import Prelude GoStrings GoSlices NetIP IPGuard DomainMatch PolicyTypes PushRules EgressPolicy DomEntry Grants GrantBounds Leq LeqSound Meet MeetSound PoolLimits Clamp.
Local Open Scope string_scope.
Local Open Scope Z_scope.
Local Open Scope list_scope.

Section ClampSound.
Context {U : GoUnicode} (eff : ResourceLimits) (hostnameOf : string -> string).

Lemma thenWarn_fst {A B} (m : warned A) (k : A -> warned B) : fst (thenWarn m k) = fst (k (fst m)).
Proof. unfold thenWarn. destruct m as [x w]. cbn. by destruct (k x). Qed.

(** The clamped policy, field by field. *)
Lemma clamp_fields p c limits size untouched ws :
  fst (clamp eff hostnameOf p c limits size untouched ws) =
  let aa := fst (clampSwitch (AllowAllEgress p) (AllowAllEgress c) WAllowAllEgress) in
  mkSpec (withSidecar hostnameOf aa (LLMInspection c) (fst (clampAllowed (AllowedDomains p) (AllowedDomains c) (AllowAllEgress c))))
    (clampDenied (DeniedDomains p) (DeniedDomains c)) aa (fst (clampFirstUse (FirstUseApproval p) (FirstUseApproval c)))
    (fst (clampHold normFirstUseHold WFirstUseHold (FirstUseHoldSeconds p) (FirstUseHoldSeconds c)))
    (fst (clampHold normMaxHolds WMaxHolds (MaxHolds p) (MaxHolds c)))
    (fst (clampMethods (AllowedMethods p) (AllowedMethods c)))
    (fst (clampConfinement (MinConfinementClass p) (MinConfinementClass c)))
    (clampGrants (EligibleGrants p) (EligibleGrants c)) (fst (clampAutoStop (AutoStopAfterSec p) (AutoStopAfterSec c)))
    [] (WorkspaceRepos p) (fst (clampInspection (LLMInspection p) (LLMInspection c)))
    (fst (clampUIApps (UIApps p) (UIApps c)))
    (fst (clampResources eff (Resources p) (Resources c) limits size untouched ws))
    (fst (clampToolRules (ToolRules p) (ToolRules c)))
    (fst (clampSwitch (GitPushAnyBranch p) (GitPushAnyBranch c) WPushAnyBranch))
    (fst (clampPushRules (PushRules p) (PushRules c))) (AzureDevOpsCapabilities p) (GitHubCapabilities p)
    (fst (clampInnerWalls (InnerWalls p) (InnerWalls c))) (fst (clampDesktop (Desktop p) (Desktop c)))
    (fst (clampRecording (Recording p) (Recording c))).
Proof. unfold clamp. rewrite !thenWarn_fst. cbn [fst]. by destruct (WorkspaceMounts p). Qed.

(** ** Domains *)

Lemma Classify_fold x y : foldKey x = foldKey y -> Classify x = Classify y.
Proof. unfold foldKey, Classify. by intros ->. Qed.

Lemma entryMatches_fold x y host port : foldKey x = foldKey y -> entryMatches x host port = entryMatches y host port.
Proof. intros H. unfold entryMatches. by rewrite (Classify_fold x y H). Qed.

Lemma any_fold a b host port :
  (forall x, x ∈ a -> memKey x b = true) -> anyEntryMatches a host port = true -> anyEntryMatches b host port = true.
Proof.
  intros H. unfold anyEntryMatches. rewrite !containsFunc_true. intros (x & Hx & Hm).
  apply H, memKey_true in Hx as (y & Hy & Hk). exists y. split; [done|]. by rewrite (entryMatches_fold y x).
Qed.

Lemma union_elem a b x : x ∈ union a b -> x ∈ a \/ x ∈ b.
Proof.
  unfold union. rewrite elem_of_sortStrings. revert a. induction b as [|y b IH]; intros a; cbn [fold_left]; [by left|].
  intros H. apply IH in H as [H|H]; [|right; by right]. destruct (memKey y a); [by left|].
  apply elem_of_app in H as [?|H%list_elem_of_singleton]; [by left | right; subst; left].
Qed.

Lemma union_covers a b x : x ∈ a \/ x ∈ b -> memKey x (union a b) = true.
Proof.
  assert (Hmono : forall l m y, memKey y l = true -> (forall z, z ∈ l -> z ∈ m) -> memKey y m = true).
  { intros l m y. rewrite !memKey_true. intros (z & Hz & Hk) H. eauto. }
  assert (Hloop : forall b a, (forall y, y ∈ a -> y ∈ fold_left (fun out x => if memKey x out then out else out ++ [x]) b a) /\
    (forall y, y ∈ b -> memKey y (fold_left (fun out x => if memKey x out then out else out ++ [x]) b a) = true)).
  { clear. intros b. induction b as [|y b IH]; intros a; cbn [fold_left]; [split; [done | by intros y Hy%not_elem_of_nil]|].
    destruct (IH (if memKey y a then a else a ++ [y])) as [H1 H2]. split.
    - intros z Hz. apply H1. destruct (memKey y a); [done | apply elem_of_app; by left].
    - intros z [->|Hz]%elem_of_cons; [|by apply H2]. destruct (memKey y a) eqn:E.
      + apply memKey_true in E as (w & Hw & Hk). apply memKey_true. eauto.
      + apply memKey_true. exists y. split; [|done]. apply H1, elem_of_app. right. left. }
  destruct (Hloop b a) as [H1 H2]. intros [Hx|Hx].
  - apply memKey_true. exists x. split; [|done]. apply elem_of_sortStrings. by apply H1.
  - eapply Hmono; [by apply H2|]. intros z Hz. unfold union. by rewrite elem_of_sortStrings.
Qed.

Lemma nonempty_false {A} (l : list A) : nonempty l = false -> l = [].
Proof. by destruct l. Qed.

Lemma droppedFrom_nil allowed xs : nonempty (droppedFrom allowed xs) = false -> forall x, x ∈ xs -> memKey x allowed = true.
Proof.
  intros H%nonempty_false x Hx. destruct (memKey x allowed) eqn:E; [done|]. exfalso.
  assert (Hin : x ∈ droppedFrom allowed xs) by (apply list_elem_of_In, filter_In; rewrite <- list_elem_of_In, E; done).
  rewrite H in Hin. by apply not_elem_of_nil in Hin.
Qed.

Lemma clampAllowed_within out ceiling x : x ∈ fst (clampAllowed out ceiling false) -> memKey x ceiling = true.
Proof.
  unfold clampAllowed. destruct (nonempty (droppedFrom ceiling out)) eqn:E; cbn [fst].
  - intros Hx. apply list_elem_of_In, filter_In in Hx. apply Hx.
  - by apply droppedFrom_nil.
Qed.

(** The detector's host is one the ceiling lets the run reach, as the write path
    of the ceiling demands. *)
Definition sidecarReachable (c : RunPolicySpec) : Prop :=
  AllowAllEgress c = true \/ sidecarHost hostnameOf (LLMInspection c) = "" \/
  memKey (sidecarHost hostnameOf (LLMInspection c)) (AllowedDomains c) = true.

Lemma clamp_allowed_matches p c aa host port :
  AllowAllEgress c = false -> sidecarReachable c ->
  anyEntryMatches (withSidecar hostnameOf aa (LLMInspection c) (fst (clampAllowed (AllowedDomains p) (AllowedDomains c) false))) host port = true ->
  anyEntryMatches (AllowedDomains c) host port = true.
Proof.
  intros Hc [H|Hs]; [congruence|]. apply any_fold. intros x. unfold withSidecar.
  destruct (negb aa && negb _) eqn:E; [|apply clampAllowed_within].
  intros [Hx|Hx%list_elem_of_singleton]%union_elem; [by eapply clampAllowed_within|]. subst x.
  bool_prop. destruct Hs as [Hs|Hs]; [|done]. by rewrite Hs in *.
Qed.

Lemma clamp_denied_matches p c host port :
  anyEntryMatches (DeniedDomains c) host port = true ->
  anyEntryMatches (clampDenied (DeniedDomains p) (DeniedDomains c)) host port = true.
Proof.
  apply any_fold. intros x Hx. unfold clampDenied. destruct (nonempty (DeniedDomains c)) eqn:E.
  - apply union_covers. by right.
  - apply nonempty_false in E. rewrite E in Hx. by apply not_elem_of_nil in Hx.
Qed.

(** ** Methods and first use *)

Lemma upper_of_lower s : str_forall is_ascii s = true -> str_map upper_byte (str_map lower_byte s) = str_map upper_byte s.
Proof.
  induction s as [|c s IH]; [done|]. cbn. intros [Hc Hs]%andb_prop. rewrite (IH Hs). f_equal.
  destruct c as [[] [] [] [] [] [] [] []]; (done || by cbn in Hc).
Qed.

Lemma foldKey_upper x y :
  str_forall is_ascii x = true -> str_forall is_ascii y = true -> foldKey x = foldKey y ->
  ToUpper (TrimSpace x) = ToUpper (TrimSpace y).
Proof.
  intros Hx Hy. unfold foldKey, TrimSpace, ToLower, ToUpper. rewrite Hx, Hy. unfold trimSpaceASCII.
  assert (H : forall s, str_forall is_ascii s = true -> str_forall is_ascii (trimRightFunc is_space (trimLeftFunc is_space s)) = true)
    by (intros s Hs; by apply str_forall_trimRight, str_forall_trimLeft).
  rewrite !H by done. intros E. rewrite <- (upper_of_lower (trimRightFunc _ (trimLeftFunc _ x))) by (by apply H).
  by rewrite E, upper_of_lower by (by apply H).
Qed.

Definition asciiList (l : list string) : Prop := forall x, x ∈ l -> str_forall is_ascii x = true.

Lemma clampMethods_leq out ceiling :
  asciiList out -> asciiList ceiling ->
  leqSubsetWhenSet (normMethods (fst (clampMethods out ceiling))) (normMethods ceiling) = true.
Proof.
  intros Ho Hc. unfold clampMethods. destruct (nonempty ceiling) eqn:En; cbn [negb].
  2:{ apply nonempty_false in En. subst. done. }
  rewrite thenWarn_fst. cbv beta.
  set (kept := (keepMethods out ceiling).1).
  assert (Hk : forall x, x ∈ kept -> x ∈ out /\ memKey x ceiling = true).
  { intros x. unfold kept, keepMethods. destruct (nonempty (droppedFrom ceiling out)) eqn:E; cbn [fst].
    - intros Hx. apply list_elem_of_In, filter_In in Hx. by rewrite <- list_elem_of_In in Hx.
    - intros Hx. split; [done | by eapply droppedFrom_nil]. }
  destruct (nonempty (normMethods kept)) eqn:Ek; cbn [fst]; [|apply leqSubset_refl].
  apply leqSubset_intro; [destruct (normMethods kept) as [|m l]; [done | exists m; left]|].
  intros m (x & Hx & <- & Hne)%elem_of_normMethods. destruct (Hk x Hx) as [Hxo (y & Hy & Hf)%memKey_true].
  apply elem_of_normMethods. exists y. split_and!; [done | apply foldKey_upper; auto | done].
Qed.

Lemma rank_normalize m : firstUseApprovalRank (normalizeFirstUse m) = firstUseApprovalRank m.
Proof.
  assert (E : normalizeFirstUse (normalizeFirstUse m) = normalizeFirstUse m);
    [|unfold firstUseApprovalRank; by rewrite E].
  unfold normalizeFirstUse at 2 3. destruct (String.eqb m FirstUseAlwaysDeny || _ || _) eqn:E; [|done].
  unfold normalizeFirstUse. by rewrite E.
Qed.

Lemma clampFirstUse_rank out ceiling :
  firstUseApprovalRank ceiling <= firstUseApprovalRank (fst (clampFirstUse out ceiling)) /\
  firstUseApprovalRank out <= firstUseApprovalRank (fst (clampFirstUse out ceiling)).
Proof.
  unfold clampFirstUse. rewrite !rank_normalize.
  destruct (Z.gtb_spec (firstUseApprovalRank ceiling) (firstUseApprovalRank out)); cbn [fst]; rewrite rank_normalize; lia.
Qed.

(** What the clamp hands to a run answers every CONNECT at most as openly as
    the ceiling, whatever was proposed: what it admits the ceiling admits, what it
    holds for a human the ceiling holds or admits. The port rule is off or a dry
    run, method names are ASCII, and the ceiling reaches its own detector. *)
Theorem clamped_admits_no_more p c limits size untouched ws portRule channel req :
  portRule <> PortRuleOn -> sidecarReachable c -> asciiList (AllowedMethods p) -> asciiList (AllowedMethods c) ->
  outcomeRank (connectOf (fst (clamp eff hostnameOf p c limits size untouched ws)) portRule channel req) <=
  outcomeRank (connectOf c portRule channel req).
Proof.
  intros Hr Hs Hpm Hcm. rewrite clamp_fields. cbn zeta. apply connect_mono; [done | | | |];
    cbn [AllowedMethods FirstUseApproval]; [| | | by apply clampFirstUse_rank].
  - unfold specVerdict. cbn [DeniedDomains AllowedDomains AllowAllEgress].
    pose proof (clamp_denied_matches p c (CanonHost (Host req)) (RPort req)) as Hd.
    destruct (anyEntryMatches (DeniedDomains c) _ _); [by rewrite Hd|].
    destruct (anyEntryMatches (clampDenied _ _) _ _); [done|].
    destruct (AllowAllEgress c) eqn:Ec; [by rewrite orb_true_r|].
    destruct (anyEntryMatches (withSidecar _ _ _ _) _ _) eqn:Ea; [by rewrite (clamp_allowed_matches p c _ _ _ Ec Hs Ea)|].
    unfold clampSwitch. by destruct (AllowAllEgress p).
  - unfold specVerdict. cbn [DeniedDomains AllowedDomains AllowAllEgress].
    pose proof (clamp_denied_matches p c (CanonHost (Host req)) (RPort req)) as Hd.
    destruct (anyEntryMatches (DeniedDomains c) _ _); [by rewrite Hd|]. by destruct (_ || _).
  - apply leqMethods_sound. by apply clampMethods_leq.
Qed.

(** ** Tools *)

Lemma toolEffects_snoc l r : toolEffects (l ++ [r]) = <[Tool r := Effect r]> (toolEffects l).
Proof. unfold toolEffects. by rewrite fold_left_app. Qed.

Lemma toolEffects_Some l t e : toolEffects l !! t = Some e -> mkToolRule t e ∈ l.
Proof.
  induction l as [|r l IH] using rev_ind; [done|]. rewrite toolEffects_snoc. intros H.
  destruct (decide (Tool r = t)) as [<-|Hne].
  - rewrite lookup_insert_eq in H. simplify_eq. apply elem_of_app. right. destruct r. left.
  - rewrite lookup_insert_ne in H by done. apply elem_of_app. left. by apply IH.
Qed.

Lemma toolEffects_None l t : toolEffects l !! t = None -> forall r, r ∈ l -> Tool r <> t.
Proof.
  induction l as [|r l IH] using rev_ind; [by intros _ r Hr%not_elem_of_nil|]. rewrite toolEffects_snoc.
  intros [H Hne]%lookup_insert_None x [Hx|Hx%list_elem_of_singleton]%elem_of_app; [by apply IH | by subst].
Qed.

Definition namedOnce (l : list ToolRule) : Prop := NoDup (map Tool l).

Lemma namedOnce_same l a b : namedOnce l -> a ∈ l -> b ∈ l -> Tool a = Tool b -> a = b.
Proof.
  unfold namedOnce. induction l as [|x l IH]; intros Hn Ha Hb Hab; [by apply not_elem_of_nil in Ha|].
  cbn [map] in Hn. apply NoDup_cons in Hn as [Hx Hn]. rewrite !elem_of_cons in Ha, Hb.
  destruct Ha as [->|Ha], Hb as [->|Hb]; [done | | | by apply IH]; exfalso; apply Hx;
    [rewrite Hab | rewrite <- Hab]; by apply list_elem_of_In, in_map, list_elem_of_In.
Qed.

Lemma ceilingToolEffectLoop_spec def l t :
  namedOnce l ->
  ceilingToolEffectLoop def l t =
    match findFirst (fun r => String.eqb (Tool r) t) l with
    | Some r => Effect r
    | None => match findFirst (fun r => String.eqb (Tool r) "*") l with Some r => Effect r | None => def end
    end.
Proof.
  revert def. induction l as [|x l IH]; intros def Hn; cbn [ceilingToolEffectLoop findFirst]; [done|].
  unfold namedOnce in Hn. cbn [map] in Hn. apply NoDup_cons in Hn as [Hx Hn].
  destruct (String.eqb (Tool x) t); [done|]. rewrite IH by done.
  destruct (findFirst (fun r => String.eqb (Tool r) t) l); [done|].
  destruct (String.eqb_spec (Tool x) "*") as [E|E]; [|done].
  destruct (findFirst (fun r => String.eqb (Tool r) "*") l) as [y|] eqn:Ey; [|done].
  apply findFirst_Some in Ey as [Hy Hy2%String.eqb_eq]. exfalso. apply Hx. rewrite E, <- Hy2.
  by apply list_elem_of_In, in_map, list_elem_of_In.
Qed.

Lemma findFirst_tool l t :
  namedOnce l -> option_map Effect (findFirst (fun r => String.eqb (Tool r) t) l) = toolEffects l !! t.
Proof.
  intros Hn. destruct (findFirst _ l) as [r|] eqn:E.
  - apply findFirst_Some in E as [Hr Ht%String.eqb_eq]. cbn.
    destruct (toolEffects l !! t) as [e|] eqn:Ee; [|by apply (toolEffects_None _ _ Ee) in Hr].
    apply toolEffects_Some in Ee. rewrite (namedOnce_same l r (mkToolRule t e) Hn Hr Ee Ht). done.
  - destruct (toolEffects l !! t) as [e|] eqn:Ee; [|done]. apply toolEffects_Some in Ee.
    rewrite findFirst_None in E. specialize (E _ Ee). cbn in E. by rewrite String.eqb_refl in E.
Qed.

(** On rules that name each tool once, the clamp's reading is the proxy's. *)
Lemma ceilingToolEffect_effectFor l t : namedOnce l -> ceilingToolEffect l t = effectFor (toolEffects l) t.
Proof.
  intros Hn. unfold ceilingToolEffect, effectFor. rewrite ceilingToolEffectLoop_spec, <- !(findFirst_tool l) by done.
  destruct (findFirst _ l); [done|]. cbn. by destruct (findFirst _ l).
Qed.

Lemma raiseTool_spec ceiling r :
  Tool (fst (raiseTool ceiling r)) = Tool r /\
  toolStrictness (Effect (fst (raiseTool ceiling r))) =
    Z.max (toolStrictness (Effect r)) (toolStrictness (ceilingToolEffect ceiling (Tool r))).
Proof. unfold raiseTool. destruct (Z.ltb_spec (toolStrictness (Effect r)) (toolStrictness (ceilingToolEffect ceiling (Tool r)))); cbn; lia || (split; [done | lia]). Qed.

Lemma clampTools_elem out ceiling r :
  namedOnce ceiling -> r ∈ fst (clampToolRules out ceiling) ->
  toolStrictness (effectFor (toolEffects ceiling) (Tool r)) <= toolStrictness (Effect r).
Proof.
  intros Hn Hr. rewrite <- ceilingToolEffect_effectFor by done.
  assert (Hc : r ∈ ceiling -> ceilingToolEffect ceiling (Tool r) = Effect r).
  { intros Hin. rewrite ceilingToolEffect_effectFor by done. unfold effectFor.
    destruct (toolEffects ceiling !! Tool r) as [e|] eqn:E; [|by apply (toolEffects_None _ _ E) in Hin].
    apply toolEffects_Some in E. by rewrite (namedOnce_same ceiling r _ Hn Hin E eq_refl). }
  unfold clampToolRules in Hr. destruct out as [|o out'] eqn:Eo; [rewrite Hc by done; lia|]. rewrite <- Eo in Hr.
  cbn [fst] in Hr. apply elem_of_app in Hr as [Hr|Hr].
  - rewrite map_map in Hr. apply list_elem_of_In, in_map_iff in Hr as (x & <- & _).
    destruct (raiseTool_spec ceiling x) as [-> ->]. lia.
  - apply list_elem_of_In, filter_In in Hr as [Hr _]. rewrite Hc by (by apply list_elem_of_In). lia.
Qed.

Lemma clampTools_names out ceiling t :
  (exists r, r ∈ ceiling /\ Tool r = t) -> exists r, r ∈ fst (clampToolRules out ceiling) /\ Tool r = t.
Proof.
  intros (r & Hr & <-). unfold clampToolRules. destruct out as [|o out'] eqn:Eo; [by eauto|]. rewrite <- Eo. cbn [fst].
  destruct (memS (Tool r) (map Tool out)) eqn:Em.
  - apply memS_true, list_elem_of_In, in_map_iff in Em as (x & Hx & Hin). exists (fst (raiseTool ceiling x)).
    split; [|rewrite <- Hx; apply raiseTool_spec]. apply elem_of_app. left. rewrite map_map. by apply list_elem_of_In, in_map_iff; eauto.
  - exists r. split; [|done]. apply elem_of_app. right. apply list_elem_of_In, filter_In. rewrite Em. by rewrite <- list_elem_of_In.
Qed.

Lemma clamped_tools p c : namedOnce c -> leqToolRules (fst (clampToolRules p c)) c = true.
Proof.
  intros Hn. apply leqToolRules_spec.
  assert (Hsome : forall t e, toolEffects (fst (clampToolRules p c)) !! t = Some e ->
            toolStrictness (effectFor (toolEffects c) t) <= toolStrictness e).
  { intros t e H%toolEffects_Some. by apply (clampTools_elem p c _ Hn) in H. }
  assert (Hnone : forall t, toolEffects (fst (clampToolRules p c)) !! t = None -> toolEffects c !! t = None).
  { intros t H. destruct (toolEffects c !! t) as [e|] eqn:E; [|done]. apply toolEffects_Some in E.
    destruct (clampTools_names p c t) as (r & Hr & Ht); [by eauto|]. by apply (toolEffects_None _ _ H) in Hr. }
  intros t. destruct (toolEffects (fst (clampToolRules p c)) !! t) as [e|] eqn:E.
  { unfold effectFor at 2. rewrite E. by apply Hsome. }
  rewrite (effectFor_unnamed _ _ E), (effectFor_unnamed _ _ (Hnone t E)). unfold effectFor at 2.
  destruct (toolEffects (fst (clampToolRules p c)) !! "*") as [e|] eqn:Es; [by apply Hsome|].
  unfold effectFor. by rewrite (Hnone _ Es).
Qed.

(** ** Posture *)

Lemma clampConfinement_rank p c : confinementRank c <= confinementRank (fst (clampConfinement p c)).
Proof.
  unfold clampConfinement. destruct (Z.gtb_spec (confinementRank c) 0), (Z.ltb_spec (confinementRank p) (confinementRank c));
    cbn [andb fst]; try lia. assert (0 <= confinementRank p); [|lia].
  unfold confinementRank, classRank. by repeat destruct (String.eqb _ _).
Qed.

Lemma clampInnerWall_spec f p c : c <> "" -> fst (clampInnerWall f p c) = c.
Proof.
  intros Hc. unfold clampInnerWall. rewrite (proj2 (String.eqb_neq c "") Hc). cbn [orb].
  by destruct (String.eqb_spec p c).
Qed.

Lemma clampInnerWalls_leq p c : leqInnerWalls (fst (clampInnerWalls p c)) c = true.
Proof.
  destruct c as [c|]; [|done]. unfold clampInnerWalls, leqInnerWalls. rewrite !thenWarn_fst. cbn [fst].
  set (sm := fst (clampInnerWall _ (SandboxMode _) _)). set (ap := fst (clampInnerWall _ (PolicyTypes.Approvals _) _)).
  assert (Hsm : SandboxMode c = "" \/ sm = SandboxMode c).
  { destruct (decide (SandboxMode c = "")); [by left | right; by apply clampInnerWall_spec]. }
  assert (Hap : PolicyTypes.Approvals c = "" \/ ap = PolicyTypes.Approvals c).
  { destruct (decide (PolicyTypes.Approvals c = "")); [by left | right; by apply clampInnerWall_spec]. }
  destruct (bool_decide (mkWalls sm ap = mkWalls "" "")) eqn:E.
  - bool_prop. injection E as E1 E2. rewrite E1 in Hsm. rewrite E2 in Hap.
    assert (SandboxMode c = "") as -> by (destruct Hsm; congruence).
    assert (PolicyTypes.Approvals c = "") as -> by (destruct Hap; congruence). done.
  - cbn [default]. destruct Hsm as [->|Hs], Hap as [->|Ha]; cbn; rewrite ?Hs, ?Ha, ?String.eqb_refl, ?orb_true_r; done.
Qed.

Lemma cmpOrS_nonempty a b : a <> "" -> cmpOrS a b = a.
Proof. intros H. unfold cmpOrS. by rewrite (proj2 (String.eqb_neq a "") H). Qed.

Lemma meetDesktop_below a b : leqDesktop (Some (desktopMeet a b)) b = true.
Proof.
  unfold leqDesktop. set (y := desktopEffective b).
  assert (Ht : forall s t d, cmpOrS (transferBlock s t) d = transferBlock s t) by (intros s t d; unfold transferBlock; by destruct (_ || _)).
  assert (Hb : forall s t, negb (String.eqb (transferBlock s t) TransferAllowed && String.eqb t TransferBlocked) = true).
  { intros s t. unfold transferBlock. by destruct (String.eqb t TransferBlocked); rewrite ?orb_true_r, ?andb_false_r. }
  unfold desktopMeet. fold y. set (x := desktopEffective a). unfold desktopEffective.
  cbn -[transferBlock cmpOrS String.eqb negb]. by rewrite !Ht, !Hb.
Qed.

Lemma clampDesktop_leq p c : leqDesktop (fst (clampDesktop p c)) c = true.
Proof.
  unfold clampDesktop. destruct p as [p|], c as [c|]; try apply leqDesktop_refl;
    match goal with |- context [if ?b then _ else _] => destruct b eqn:E end; cbn [fst]; (exact E || apply meetDesktop_below).
Qed.

Lemma clampRecording_rank p c :
  recordingRank c <= recordingRank (fst (clampRecording p c)) /\ recordingRank p <= recordingRank (fst (clampRecording p c)).
Proof. cbn. unfold recordingAtLeast. destruct (Z.gtb_spec (recordingRank c) (recordingRank p)); lia. Qed.

Lemma clampAutoStop_notLooser p c : notLooser (fst (clampAutoStop p c)) c = true.
Proof.
  apply notLooser_spec. unfold clampAutoStop. destruct (Z.gtb_spec c 0); cbn [andb]; [|by left].
  destruct (Z.leb_spec p 0), (Z.gtb_spec p c); cbn; lia.
Qed.

Lemma clampHold_norm norm w p c lo hi :
  (forall x, lo <= norm x <= hi) -> (forall x, lo <= x <= hi -> norm x = x) -> norm (fst (clampHold norm w p c)) <= norm c.
Proof.
  intros Hr Hid. unfold clampHold. destruct (Z.gtb_spec (norm p) (norm c)); cbn [fst]; [|lia].
  rewrite (Hid (norm c)); [lia | apply Hr].
Qed.

Lemma clampUIApps_within p c a :
  c <> [] -> a ∈ fst (clampUIApps p c) ->
  exists x, x ∈ c /\ AppName x = AppName a /\ AppPort x = AppPort a /\
    (Inbound a = true -> Inbound x = true /\ forall s, s ∈ Callers a -> s ∈ Callers x).
Proof.
  intros Hc. unfold clampUIApps. assert (Hn : nonempty c = true) by (by destruct c). rewrite Hn. cbn [negb orb].
  destruct (nonempty p) eqn:Ep; cbn [negb fst]; [|apply nonempty_false in Ep; subst; by intros Ha%not_elem_of_nil].
  intros (b & Hb & Hk)%list_elem_of_omap. unfold clampUIApp in Hk.
  destruct (findFirst _ c) as [x|] eqn:Ef; [|done]. apply findFirst_Some in Ef as [Hx Hm]. bool_prop.
  repeat match goal with H : String.eqb _ _ = true |- _ => apply String.eqb_eq in H end.
  exists x. split; [done|].
  destruct (Inbound b) eqn:Eb, (Inbound x) eqn:Ex; cbn [andb negb] in Hk.
  - destruct (Nat.eqb_spec (length (List.filter (fun y => memS y (Callers x)) (Callers b))) (length (Callers b))) as [El|El];
      cbn [appOf] in Hk; injection Hk as <-; split_and!; try done; intros _; split; try done; intros s Hs.
    + destruct (memS s (Callers x)) eqn:Es; [by apply memS_true|]. exfalso.
      apply (Nat.lt_irrefl (length (Callers b))). rewrite <- El at 1. apply list_elem_of_split in Hs as (l1 & l2 & ->).
      rewrite List.filter_app. cbn [List.filter]. rewrite Es, !length_app. cbn [length].
      pose proof (filter_length_le (fun y => memS y (Callers x)) l1). pose proof (filter_length_le (fun y => memS y (Callers x)) l2). lia.
    + cbn [Callers] in Hs. apply list_elem_of_In, filter_In in Hs as [_ Hs]. by apply memS_true.
  - cbn [appOf] in Hk. injection Hk as <-. split_and!; done.
  - cbn [appOf] in Hk. injection Hk as <-. rewrite Eb. split_and!; done.
  - cbn [appOf] in Hk. injection Hk as <-. rewrite Eb. split_and!; done.
Qed.

Record pushBounded (out ceiling : option PushRulesSpec) : Prop := mkPushBounded {
  pb_deny : forall s, s ∈ DenyPaths (default zeroPush ceiling) -> s ∈ DenyPaths (default zeroPush out);
  pb_review : forall s, s ∈ RequireReviewPaths (default zeroPush ceiling) -> s ∈ RequireReviewPaths (default zeroPush out);
  pb_exec : DenyNewExecutables (default zeroPush ceiling) = true -> DenyNewExecutables (default zeroPush out) = true;
  pb_all : DenyAll (default zeroPush ceiling) = true -> DenyAll (default zeroPush out) = true;
  pb_file : notLooser (MaxFileSizeMiB (default zeroPush out)) (MaxFileSizeMiB (default zeroPush ceiling)) = true;
  pb_pack : notLooser (MaxInspectPackMiB (default zeroPush out)) (MaxInspectPackMiB (default zeroPush ceiling)) = true;
}.

Lemma capPush_notLooser m c w : notLooser (fst (capPush m c w)) c = true.
Proof.
  apply notLooser_spec. unfold capPush. destruct (Z.gtb_spec c 0); cbn [andb]; [|by left].
  destruct (Z.leb_spec m 0), (Z.gtb_spec m c); cbn; lia.
Qed.

Lemma clampPush_bounded p c : pushBounded (fst (clampPushRules p c)) c.
Proof.
  unfold clampPushRules. destruct (pushIsSet c) eqn:E; cbn [negb].
  - destruct c as [c|]; [|done]. destruct p as [m|].
    + rewrite !thenWarn_fst. split; cbn [fst from_option id option_rect DenyPaths RequireReviewPaths DenyNewExecutables DenyAll MaxFileSizeMiB MaxInspectPackMiB].
      * intros s Hs. destruct (DenyPaths c) as [|x l] eqn:Ed; [by apply not_elem_of_nil in Hs|]. cbn [nonempty].
        apply elem_of_unionPaths. by right.
      * intros s Hs. destruct (RequireReviewPaths c) as [|x l] eqn:Ed; [by apply not_elem_of_nil in Hs|]. cbn [nonempty].
        apply elem_of_unionPaths. by right.
      * intros ->. by rewrite orb_true_r.
      * intros ->. by rewrite orb_true_r.
      * apply capPush_notLooser.
      * apply capPush_notLooser.
    + split; cbn; try done; apply notLooser_refl.
  - destruct c as [c|]; [|split; cbn; try done; try (by intros s Hs%not_elem_of_nil); by apply notLooser_spec; left].
    cbn [pushIsSet] in E. rewrite !orb_false_iff in E. destruct E as [[[[[E1 E2] E3] E4] E5] E6].
    apply nonempty_false in E1, E2. rewrite Z.gtb_ltb in E3, E4. apply Z.ltb_ge in E3, E4.
    split; cbn [from_option id option_rect fst].
    + rewrite E1. by intros s Hs%not_elem_of_nil.
    + rewrite E2. by intros s Hs%not_elem_of_nil.
    + by rewrite E5.
    + by rewrite E6.
    + apply notLooser_spec. by left.
    + apply notLooser_spec. by left.
Qed.

(** Whatever was proposed, the clamped policy is at least as strict as the
    ceiling on every posture field: confinement, push branches, inner walls,
    desktop, recording, tool effects, mounts, auto stop, hold knobs, push rules,
    UI apps, and each grant it keeps is bounded by ceiling grants of its kind. *)
Theorem clamped_posture_is_bounded p c limits size untouched ws :
  namedOnce (ToolRules c) ->
  let out := fst (clamp eff hostnameOf p c limits size untouched ws) in
  confinementRank (MinConfinementClass c) <= confinementRank (MinConfinementClass out) /\
  (GitPushAnyBranch out = true -> GitPushAnyBranch c = true) /\
  leqInnerWalls (InnerWalls out) (InnerWalls c) = true /\
  leqDesktop (Desktop out) (Desktop c) = true /\
  recordingRank (Recording c) <= recordingRank (Recording out) /\
  leqToolRules (ToolRules out) (ToolRules c) = true /\
  WorkspaceMounts out = [] /\
  notLooser (AutoStopAfterSec out) (AutoStopAfterSec c) = true /\
  normFirstUseHold (FirstUseHoldSeconds out) <= normFirstUseHold (FirstUseHoldSeconds c) /\
  normMaxHolds (MaxHolds out) <= normMaxHolds (MaxHolds c) /\
  pushBounded (PushRules out) (PushRules c) /\
  (UIApps c <> [] -> forall a, a ∈ UIApps out -> exists x, x ∈ UIApps c /\ AppName x = AppName a /\ AppPort x = AppPort a /\
     (Inbound a = true -> Inbound x = true /\ forall s, s ∈ Callers a -> s ∈ Callers x)) /\
  (forall g, g ∈ EligibleGrants out -> exists g0 cg, g0 ∈ EligibleGrants p /\
     clampGrant g0 (EligibleGrants c) = Some g /\ cg ∈ EligibleGrants c /\ Kind cg = Kind g0).
Proof.
  intros Hn. rewrite clamp_fields. cbn zeta. cbn [MinConfinementClass GitPushAnyBranch InnerWalls Desktop Recording ToolRules
    WorkspaceMounts AutoStopAfterSec FirstUseHoldSeconds MaxHolds PushRules UIApps EligibleGrants]. split_and!.
  - apply clampConfinement_rank.
  - unfold clampSwitch. by destruct (GitPushAnyBranch p), (GitPushAnyBranch c).
  - apply clampInnerWalls_leq.
  - apply clampDesktop_leq.
  - apply clampRecording_rank.
  - by apply clamped_tools.
  - done.
  - apply clampAutoStop_notLooser.
  - apply (clampHold_norm _ _ _ _ 1 600); apply normFirstUseHold_range.
  - apply (clampHold_norm _ _ _ _ 1 256); apply normMaxHolds_range.
  - apply clampPush_bounded.
  - intros Hc a Ha. by eapply clampUIApps_within.
  - intros g Hg. unfold clampGrants in Hg. apply list_elem_of_omap in Hg as (g0 & Hg0 & Hk). exists g0.
    assert (Hne : exists cg, cg ∈ clampBounds g0 (EligibleGrants c)).
    { unfold clampGrant in Hk. destruct (clampBounds g0 (EligibleGrants c)) as [|cg l]; [done | exists cg; left]. }
    destruct Hne as (cg & Hcg). apply clampBounds_kind in Hcg as [Hcg Hkind]. eauto.
Qed.

(** ** Size *)

Lemma capField_spec proposed ceil fill :
  0 < ceil -> 0 < fill <= ceil ->
  0 < fst (capField proposed ceil fill) <= ceil /\ (0 < proposed <= ceil -> fst (capField proposed ceil fill) = proposed).
Proof.
  intros Hc Hf. unfold capField. rewrite Z.gtb_ltb. destruct (Z.leb_spec ceil 0), (Z.ltb_spec ceil proposed), (Z.leb_spec proposed 0); cbn; lia.
Qed.

Lemma capField_disk proposed ceil : 0 < ceil -> fst (capField proposed ceil ceil) <= ceil.
Proof. intros Hc. unfold capField. rewrite Z.gtb_ltb. destruct (Z.leb_spec ceil 0), (Z.ltb_spec ceil proposed), (Z.leb_spec proposed 0); cbn; lia. Qed.

Lemma capDisk_spec d ceil : CapDiskMiB d ceil <= d /\ (0 < ceil -> CapDiskMiB d ceil <= Z.max ceil 0 \/ CapDiskMiB d ceil <= 0).
Proof. unfold CapDiskMiB. rewrite !Z.gtb_ltb. destruct (Z.ltb_spec 0 d), (Z.ltb_spec 0 ceil), (Z.ltb_spec ceil d); cbn; lia. Qed.

Lemma resources_of out ceiling limits size untouched ws :
  let caps := resourceCaps eff ceiling limits size untouched in
  let fill := resourceFill eff ceiling caps in
  let cr := default zeroRes out in
  fst (clampResources eff out ceiling limits size untouched ws) =
  Some (mkRes (fst (capField (CPUMillis cr) (CPUMillis caps) (CPUMillis fill)))
              (fst (capField (MemoryMiB cr) (MemoryMiB caps) (MemoryMiB fill)))
              (fst (capField (PidsLimit cr) (PidsLimit caps) (PidsLimit fill)))
              (CapDiskMiB (fst (capField (DiskMiB cr) (DiskMiB caps) (DiskMiB fill))) (MaxEphemeralDiskMiB limits))).
Proof.
  cbn zeta. unfold clampResources.
  destruct (capField (CPUMillis _) _ _) as [cpu c1], (capField (MemoryMiB _) _ _) as [mem c2],
    (capField (PidsLimit _) _ _) as [pids c3], (capField (DiskMiB _) _ _) as [disk c4]. cbn [fst].
  destruct out as [b|]; [|done]. by destruct (bool_decide_reflect (mkRes cpu mem pids (CapDiskMiB disk (MaxEphemeralDiskMiB limits)) = b)) as [->|].
Qed.

Definition nonnegSize (r : option ResourceLimits) : Prop :=
  forall c, r = Some c -> 0 <= CPUMillis c /\ 0 <= MemoryMiB c /\ 0 <= PidsLimit c.

(** A clamped policy always names a positive size within the member cap: CPU
    and memory lie between 1 and [MemberCap], processes within the ceiling's or the
    platform's bound, the disk within the ceiling's and the profile's, and a
    positive request within the cap is kept as asked. *)
Theorem clamped_size_is_bounded p c limits size untouched ws :
  1 <= CPUMillis eff -> 1 <= MemoryMiB eff -> 1 <= PidsLimit eff -> nonnegSize (Resources c) ->
  1 <= CPUMillis untouched -> 1 <= MemoryMiB untouched ->
  let capC := MemberCap (CPUMillis size) (MaxCPUMillis limits) (CPUMillis untouched) in
  let capM := MemberCap (MemoryMiB size) (MaxMemoryMiB limits) (MemoryMiB untouched) in
  exists r, Resources (fst (clamp eff hostnameOf p c limits size untouched ws)) = Some r /\
    1 <= CPUMillis r <= capC /\ 1 <= MemoryMiB r <= capM /\ 1 <= PidsLimit r /\
    (forall own, Resources c = Some own -> 0 < DiskMiB own -> DiskMiB r <= DiskMiB own) /\
    (0 < MaxEphemeralDiskMiB limits -> DiskMiB r <= MaxEphemeralDiskMiB limits) /\
    (forall q, Resources p = Some q -> 0 < CPUMillis q <= capC -> CPUMillis r = CPUMillis q) /\
    (forall q, Resources p = Some q -> 0 < MemoryMiB q <= capM -> MemoryMiB r = MemoryMiB q).
Proof.
  intros He1 He2 He3 Hn Hu1 Hu2 capC capM. rewrite clamp_fields. cbn zeta. cbn [Resources]. rewrite resources_of. cbn zeta.
  set (caps := resourceCaps eff (Resources c) limits size untouched). set (fill := resourceFill eff (Resources c) caps).
  assert (HcC : CPUMillis caps = capC) by done. assert (HcM : MemoryMiB caps = capM) by done.
  assert (1 <= capC) by (unfold capC, MemberCap; lia). assert (1 <= capM) by (unfold capM, MemberCap; lia).
  assert (Hor : forall a b, 0 <= a -> 1 <= b -> 1 <= cmpOrZ a b) by (intros a b ? ?; unfold cmpOrZ; destruct (Z.eqb_spec a 0); lia).
  assert (HfC : 0 < CPUMillis fill <= capC).
  { unfold fill, resourceFill. cbn [CPUMillis]. rewrite HcC. destruct (Resources c) as [o|] eqn:Ec; cbn [from_option id].
    - destruct (Hn o eq_refl) as (? & ? & ?). specialize (Hor (CPUMillis o) (CPUMillis eff)). cbn. lia.
    - specialize (Hor 0 (CPUMillis eff)). cbn [zeroRes CPUMillis]. lia. }
  assert (HfM : 0 < MemoryMiB fill <= capM).
  { unfold fill, resourceFill. cbn [MemoryMiB]. rewrite HcM. destruct (Resources c) as [o|] eqn:Ec; cbn [from_option id].
    - destruct (Hn o eq_refl) as (? & ? & ?). specialize (Hor (MemoryMiB o) (MemoryMiB eff)). cbn. lia.
    - specialize (Hor 0 (MemoryMiB eff)). cbn [zeroRes MemoryMiB]. lia. }
  assert (HcP : 1 <= PidsLimit caps).
  { unfold caps, resourceCaps. cbn [PidsLimit]. destruct (Resources c) as [o|]; [|done].
    destruct (Hn o eq_refl) as (? & ? & ?). auto. }
  set (cr := default zeroRes (Resources p)).
  destruct (capField_spec (CPUMillis cr) (CPUMillis caps) (CPUMillis fill)) as [BC KC]; [lia..|].
  destruct (capField_spec (MemoryMiB cr) (MemoryMiB caps) (MemoryMiB fill)) as [BM KM]; [lia..|].
  destruct (capField_spec (PidsLimit cr) (PidsLimit caps) (PidsLimit fill)) as [BP _]; [lia | change (PidsLimit fill) with (PidsLimit caps); lia|].
  eexists. split; [reflexivity|]. cbn [CPUMillis MemoryMiB PidsLimit DiskMiB]. split_and!; try lia.
  - intros own Ho Hd. destruct (capDisk_spec (fst (capField (DiskMiB cr) (DiskMiB caps) (DiskMiB fill))) (MaxEphemeralDiskMiB limits)) as [Hle _].
    change (DiskMiB fill) with (DiskMiB caps) in *. assert (Hdc : DiskMiB caps = DiskMiB own) by (unfold caps, resourceCaps; rewrite Ho; done).
    rewrite Hdc in *. pose proof (capField_disk (DiskMiB cr) (DiskMiB own) Hd). lia.
  - intros Hm. destruct (capDisk_spec (fst (capField (DiskMiB cr) (DiskMiB caps) (DiskMiB fill))) (MaxEphemeralDiskMiB limits)) as [_ H2].
    specialize (H2 Hm). lia.
  - intros q Hq Hr. assert (Hcr : cr = q) by (unfold cr; by rewrite Hq). rewrite <- Hcr in Hr |- *. apply KC. by rewrite HcC.
  - intros q Hq Hr. assert (Hcr : cr = q) by (unfold cr; by rewrite Hq). rewrite <- Hcr in Hr |- *. apply KM. by rewrite HcM.
Qed.
End ClampSound.

(** ** Where the clamp differs from its comments *)

(** The clamp can loosen a proposal: under a ceiling that allows one tool by
    name, a proposal that denies every tool comes out allowing that tool, because
    the ceiling's own rule is carried into the result. *)
Theorem clamp_loosens_a_stricter_proposal :
  let proposal := [mkToolRule "*" ToolDeny] in
  let ceiling := [mkToolRule "Bash" ToolAllow] in
  let out := fst (clampToolRules proposal ceiling) in
  effectFor (toolEffects proposal) "Bash" = ToolDeny /\ effectFor (toolEffects out) "Bash" = ToolAllow.
Proof. split; reflexivity. Qed.

(** Push rules whose inspection limit is left to its default can be raised by a
    proposal: the clamp caps only a limit the ceiling writes. *)
Example clamp_raises_default_pack_limit :
  let ceiling := mkPush ["ci.yml"] 0 [] 0 false 0 false in
  let proposal := mkPush [] 512 [] 0 false 0 false in
  packCap ceiling = 32 /\
  option_map packCap (fst (clampPushRules (Some proposal) (Some ceiling))) = Some 512 /\
  leqPush (fst (clampPushRules (Some proposal) (Some ceiling))) (Some ceiling) = false.
Proof. split_and!; reflexivity. Qed.

(** ** Concrete clamps *)

Definition clampCeiling : RunPolicySpec :=
  mkSpec ["api.example.com"; "*.internal.example"] ["evil.example.com"] false FirstUseDenyWithReview 0 0 ["GET"; "POST"] "CC2"
    [] 3600 [] [] None [] (Some (mkRes 4000 8192 0 20480)) [mkToolRule "*" ToolHold; mkToolRule "Bash" ToolDeny] false
    (Some (mkPush ["secrets/**"] 16 [] 0 true 10 false)) [] [] None None "terminal".

Definition clampProposal : RunPolicySpec :=
  mkSpec ["API.example.com"; "other.com"] [] true FirstUseWaitForReview 0 0 ["get"; "DELETE"] "CC1"
    [] 0 [mkMount "/etc" "/x" None] [] None [] (Some (mkRes 9000 1024 0 0)) [mkToolRule "*" ToolAllow] true None [] [] None None "".

Example clamp_sample :
  let out := fst (Clamp (U := asciiTables) sampleEff (fun _ => "") clampProposal clampCeiling zeroLimits) in
  (AllowedDomains out, AllowAllEgress out, FirstUseApproval out, AllowedMethods out, MinConfinementClass out) =
    (["API.example.com"], false, FirstUseDenyWithReview, ["get"], "CC2") /\
  (Resources out, ToolRules out, GitPushAnyBranch out, Recording out, WorkspaceMounts out) =
    (Some (mkRes 4000 1024 512 20480), [mkToolRule "*" ToolHold; mkToolRule "Bash" ToolDeny], false, "terminal", []).
Proof. split; reflexivity. Qed.

Lemma clamped_admits_no_more_witness :
  outcomeRank (connectOf (U := asciiTables) (fst (clamp (U := asciiTables) sampleEff (fun _ => "") clampProposal clampCeiling zeroLimits zeroRes zeroRes true))
      PortRuleOff true (mkReq "other.com" 443 "CONNECT" "")) <=
  outcomeRank (connectOf (U := asciiTables) clampCeiling PortRuleOff true (mkReq "other.com" 443 "CONNECT" "")).
Proof.
  apply (@clamped_admits_no_more asciiTables sampleEff (fun _ => "")); [done | by right; left | |];
    intros x Hx; repeat (apply elem_of_cons in Hx as [->|Hx]; [reflexivity|]); by apply not_elem_of_nil in Hx.
Defined.

Lemma clamped_posture_is_bounded_witness :
  leqToolRules (ToolRules (fst (clamp (U := asciiTables) sampleEff (fun _ => "") clampProposal clampCeiling zeroLimits zeroRes zeroRes true)))
    (ToolRules clampCeiling) = true.
Proof.
  destruct (@clamped_posture_is_bounded asciiTables sampleEff (fun _ => "") clampProposal clampCeiling zeroLimits zeroRes zeroRes true)
    as (_ & _ & _ & _ & _ & H & _); [|exact H].
  unfold namedOnce. apply (bool_decide_unpack _). vm_compute. exact I.
Defined.

Lemma clamped_size_is_bounded_witness :
  exists r, Resources (fst (clamp (U := asciiTables) sampleEff (fun _ => "") clampProposal clampCeiling zeroLimits
      (mkRes 4000 8192 0 0) (mkRes 2000 4096 0 0) true)) = Some r /\ 1 <= CPUMillis r <= 4000.
Proof.
  destruct (@clamped_size_is_bounded asciiTables sampleEff (fun _ => "") clampProposal clampCeiling zeroLimits
    (mkRes 4000 8192 0 0) (mkRes 2000 4096 0 0) true) as (r & Hr & Hc & _); try (cbn; lia).
  - intros c [= <-]. cbn. lia.
  - exists r. split; [exact Hr | exact Hc].
Defined.
