(* ===== verification/Risk.v ===== *)
(** * Composer: risk, required confinement and autonomy

    [internal/composer/risk.go] and [autonomy.go], with the permission clamp the
    GitHub minter applies ([internal/broker/scope.go]). The grade is a function of
    the policy alone, the confinement floor and the autonomy posture read the same
    predicates, and the autonomy level is folded from the profile's rubric.

    A graded item keeps its field, level and cited invariant; its value and
    rationale are text for the reader and are left out. *)
From S2P Require Import Prelude GoStrings GoSlices NetIP DomainMatch PolicyTypes PushRules Grants GrantBounds Leq LeqSound.
Local Open Scope string_scope.
Local Open Scope Z_scope.
Local Open Scope list_scope.

(** ** Levels *)

Inductive RiskLevel := RiskLow | RiskMedium | RiskHigh.
Definition riskRank (l : RiskLevel) : Z := match l with RiskHigh => 3 | RiskMedium => 2 | RiskLow => 1 end.

Record RiskItem := mkRisk { rk_Field : string; rk_Level : RiskLevel; InvariantRef : string }.

(** ** The baseline *)

Definition safeBaselineDomains : list string :=
  ["api.anthropic.com"; "api.openai.com"; "generativelanguage.googleapis.com"; "github.com"; "api.github.com";
   "codeload.github.com"; "objects.githubusercontent.com"; "registry.npmjs.org"; "registry.yarnpkg.com"; "pypi.org";
   "files.pythonhosted.org"; "proxy.golang.org"; "sum.golang.org"; "repo.maven.apache.org"; "repo1.maven.org";
   "plugins.gradle.org"; "services.gradle.org"; "crates.io"; "static.crates.io"; "index.crates.io"; "rubygems.org";
   "repo.packagist.org"; "api.nuget.org"; "hex.pm"; "pub.dev"].

Record Baseline := mkBaseline { Hosts : list string; Suffixes : list string }.

Section Risk.
Context {U : GoUnicode}.

Definition baselineHas (b : Baseline) (host : string) : bool :=
  if str_has "*" host then false
  else let '(h, _, _) := Classify host in memS h safeBaselineDomains || memS h (Hosts b) || memS h (Suffixes b).

Definition beyond (b : Baseline) (domains : list string) : list string :=
  sortStrings (List.filter (fun d => negb (baselineHas b d)) domains).

(** ** Grants *)

Definition isWriteLevel (level : string) : bool := let l := ToLower level in String.eqb l "write" || String.eqb l "admin".

Definition githubWritePerms (scope : RawScope) : list string :=
  match scope with
  | ScopeObj s => sortStrings (map (fun pl => (fst pl ++ ":" ++ ToLower (snd pl))%string)
                                 (List.filter (fun pl => isWriteLevel (snd pl)) (map_to_list (sc_Permissions s))))
  | _ => []
  end.

Definition grantIsWriteCapable (g : GrantSpec) : bool :=
  if String.eqb (Kind g) GrantGitHubToken then nonempty (githubWritePerms (GScope g)) else String.eqb (Kind g) GrantCloudSTS.

Definition apiKeyToNonBaselineHost (b : Baseline) (g : GrantSpec) : bool :=
  if negb (String.eqb (Kind g) GrantAPIKey) then false
  else match GScope g with
       | ScopeObj s => let host := ToLower (TrimSpace (sc_Host s)) in negb (String.eqb host "") && negb (baselineHas b host)
       | _ => false
       end.

Definition RequiredConfinementFloor (spec : RunPolicySpec) (b : Baseline) : string :=
  if existsb (fun g => grantIsWriteCapable g || apiKeyToNonBaselineHost b g) (EligibleGrants spec) then "CC3" else "".

Definition pushRulesUnenforceable (grants : list GrantSpec) : bool :=
  existsb (fun g => String.eqb (Kind g) GrantSSHKey) grants &&
  negb (existsb (fun g => String.eqb (Kind g) GrantGitHubToken || String.eqb (Kind g) GrantGitPAT) grants).

Definition patHost (g : GrantSpec) : option string :=
  if negb (String.eqb (Kind g) GrantGitPAT) then None
  else match GScope g with
       | ScopeObj s => let h := ToLower (TrimRightDots (TrimSpace (sc_Host s))) in
                       if negb (String.eqb h "") && negb (String.eqb h "github.com") then Some h else None
       | _ => None
       end.

Definition nonGitHubPATHosts (grants : list GrantSpec) : list string := compact (sortStrings (omap patHost grants)).

(** ** The grade *)

Definition gradeConfinement (spec : RunPolicySpec) : list RiskItem :=
  let c := ToUpper (TrimSpace (MinConfinementClass spec)) in
  [mkRisk "min_confinement_class"
     (if String.eqb c "CC1" then RiskHigh else if String.eqb c "CC3" then RiskLow else RiskMedium) "5"].

Definition gradeEgress (b : Baseline) (spec : RunPolicySpec) : list RiskItem :=
  (if AllowAllEgress spec then [mkRisk "allow_all_egress" RiskHigh "3"]
   else if nonempty (beyond b (AllowedDomains spec)) then [mkRisk "allowed_domains" RiskMedium "3"]
   else if nonempty (AllowedDomains spec) then [mkRisk "allowed_domains" RiskLow "3"] else []) ++
  (if negb (AllowAllEgress spec) && nonempty (AllowedDomains spec)
   then [mkRisk "first_use_approval" (if raisesApproval (FirstUseApproval spec) then RiskLow else RiskMedium) "3"] else []).

Definition gradeGrant (i : nat) (g : GrantSpec) : list RiskItem :=
  let field := ("eligible_grants[" ++ Itoa (Z.of_nat i) ++ "]")%string in
  let k x := String.eqb (Kind g) x in
  (if k GrantGitHubToken then [mkRisk field (if nonempty (githubWritePerms (GScope g)) then RiskHigh else RiskMedium) "2"]
   else if k GrantAPIKey then [mkRisk field RiskMedium "1"]
   else if k GrantCloudSTS then [mkRisk field RiskHigh "5"]
   else if k GrantGitPAT || k GrantSSHKey || k GrantEnvSecret || k GrantFileSecret then [mkRisk field RiskHigh "2"]
   else [mkRisk field RiskMedium ""]) ++
  (if negb (RequiresApproval g) && grantIsWriteCapable g then [mkRisk (field ++ ".requires_approval")%string RiskHigh "2"]
   else if RequiresApproval g then [mkRisk (field ++ ".requires_approval")%string RiskLow "2"] else []).

Definition gradeMount (i : nat) (m : WorkspaceMount) : list RiskItem :=
  [mkRisk ("workspace_mounts[" ++ Itoa (Z.of_nat i) ++ "]")%string (if ReadOnlyOrDefault m then RiskLow else RiskHigh) "1"].

Definition gradePush (spec : RunPolicySpec) : list RiskItem :=
  (if GitPushAnyBranch spec then [mkRisk "git_push_any_branch" RiskHigh "2"] else []) ++
  (if pushIsSet (PushRules spec) && pushRulesUnenforceable (EligibleGrants spec) then [mkRisk "push_rules" RiskMedium "2"] else []) ++
  (match PushRules spec with
   | Some p => if nonempty (DenyPaths p) then map (fun _ => mkRisk "push_rules" RiskMedium "2") (nonGitHubPATHosts (EligibleGrants spec)) else []
   | None => []
   end).

Definition gradeAutoStop (interactive : bool) (spec : RunPolicySpec) : list RiskItem :=
  if AutoStopAfterSec spec <=? 0 then
    [if interactive then mkRisk "auto_stop_after_sec" RiskLow "" else mkRisk "auto_stop_after_sec" RiskHigh "6"]
  else [].

Definition riskLeb (a b : RiskItem) : bool := riskRank (rk_Level b) <=? riskRank (rk_Level a).

(** The items before the stable sort, in the order they are added. *)
Definition gradeItems (b : Baseline) (interactive : bool) (spec : RunPolicySpec) : list RiskItem :=
  gradeConfinement spec ++ gradeEgress b spec ++ concat (imap gradeGrant (EligibleGrants spec)) ++
  concat (imap gradeMount (WorkspaceMounts spec)) ++ gradePush spec ++ gradeAutoStop interactive spec.

Definition Grade (b : Baseline) (interactive : bool) (spec : RunPolicySpec) : list RiskItem :=
  sortBy riskLeb (gradeItems b interactive spec).

Fixpoint overall (max : RiskLevel) (items : list RiskItem) : RiskLevel :=
  match items with
  | [] => max
  | it :: l => overall (if riskRank (rk_Level it) >? riskRank max then rk_Level it else max) l
  end.
Definition OverallLevel (items : list RiskItem) : RiskLevel := overall RiskLow items.

(** ** The minter's clamp *)

Definition githubPermissionCeiling : list (string * string) :=
  [("contents", "write"); ("pull_requests", "write"); ("metadata", "read")].

Definition permissionRank (l : string) : option Z :=
  if String.eqb l "read" then Some 1 else if String.eqb l "write" then Some 2 else if String.eqb l "admin" then Some 3 else None.

Definition minLevel (a b : string) : string :=
  let '(ra, a) := match permissionRank a with Some r => (r, a) | None => (1, "read") end in
  let '(rb, b) := match permissionRank b with Some r => (r, b) | None => (1, "read") end in
  if ra <=? rb then a else b.

Definition clampGitHubPermissions (requested : gmap string string) : gmap string string :=
  fold_left (fun out pl => match requested !! fst pl with None => out | Some req => <[fst pl := minLevel req (snd pl)]> out end)
    githubPermissionCeiling {[ "metadata" := "read" ]}.

Definition defaultMaxTTL : Z := 3600 * second.
Definition ttlFor (g : GrantSpec) : Z :=
  if TTLSeconds g <=? 0 then defaultMaxTTL
  else if TTLSeconds g >? Z.quot defaultMaxTTL second then defaultMaxTTL else TTLSeconds g * second.

(** ** Autonomy *)

Record AutonomyPosture := mkPosture { PEgress : string; PSecrets : string; PConfinement : string }.

Definition autonomyEgress (spec : RunPolicySpec) (b : Baseline) : string :=
  if AllowAllEgress spec || nonempty (beyond b (AllowedDomains spec)) then "open"
  else if raisesApproval (FirstUseApproval spec) then "reviewed" else "sealed".

Definition powerfulGrant (b : Baseline) (g : GrantSpec) : bool :=
  grantIsWriteCapable g || apiKeyToNonBaselineHost b g || String.eqb (Kind g) GrantGitPAT || String.eqb (Kind g) GrantSSHKey
  || String.eqb (Kind g) GrantEnvSecret || String.eqb (Kind g) GrantFileSecret.

Definition autonomySecrets (spec : RunPolicySpec) (b : Baseline) : string :=
  if negb (nonempty (EligibleGrants spec)) then "none"
  else if existsb (powerfulGrant b) (EligibleGrants spec) then "powerful" else "baseline".

Definition autonomyConfinement (enforced : string) : string := if String.eqb enforced "" then "CC1" else enforced.

Definition AutonomyPostureOf (spec : RunPolicySpec) (enforced : string) (b : Baseline) : AutonomyPosture :=
  mkPosture (autonomyEgress spec b) (autonomySecrets spec b) (autonomyConfinement enforced).

Definition applicableAutonomyCaps (r : AutonomyRubric) (p : AutonomyPosture) : list (string * string) :=
  (if String.eqb (PEgress p) "open" then [("egress_open", EgressOpen r)]
   else if String.eqb (PEgress p) "reviewed" then [("egress_reviewed", EgressReviewed r)]
   else if String.eqb (PEgress p) "sealed" then [("egress_sealed", EgressSealed r)] else []) ++
  (if String.eqb (PSecrets p) "powerful" then [("secrets_powerful", SecretsPowerful r)]
   else if String.eqb (PSecrets p) "baseline" then [("secrets_baseline", SecretsBaseline r)]
   else if String.eqb (PSecrets p) "none" then [("secrets_none", SecretsNone r)] else []) ++
  (if String.eqb (PConfinement p) "CC1" then [("confinement_cc1", ConfinementCC1 r)]
   else if String.eqb (PConfinement p) "CC2" then [("confinement_cc2", ConfinementCC2 r)]
   else if String.eqb (PConfinement p) "CC3" then [("confinement_cc3", ConfinementCC3 r)] else []).

Definition foldCap (acc : string * list string) (c : string * string) : string * list string :=
  let '(level, boundBy) := acc in
  let '(field, l) := c in
  if String.eqb l "" then acc
  else if negb (nonempty boundBy) || (autonomyRank l <? autonomyRank level) then (l, [field])
  else if autonomyRank l =? autonomyRank level then (level, boundBy ++ [field]) else acc.

Definition FoldAutonomy (r : AutonomyRubric) (p : AutonomyPosture) : string * list string :=
  fold_left foldCap (applicableAutonomyCaps r p) ("", []).
End Risk.

(** ** The autonomy fold *)

Definition setCap (c : string * string) : bool := negb (String.eqb (snd c) "").
Definition tiedAt (k : Z) (c : string * string) : bool := autonomyRank (snd c) =? k.

Record foldedTo (caps : list (string * string)) (level : string) (boundBy : list string) : Prop := mkFolded {
  fo_none : caps = [] -> level = "" /\ boundBy = [];
  fo_attained : caps <> [] -> exists c, c ∈ caps /\ snd c = level;
  fo_least : forall c, c ∈ caps -> autonomyRank level <= autonomyRank (snd c);
  fo_bound : boundBy = map fst (List.filter (tiedAt (autonomyRank level)) caps);
}.

Lemma filter_all_false {A} (f : A -> bool) l : (forall x, x ∈ l -> f x = false) -> List.filter f l = [].
Proof. induction l as [|x l IH]; intros H; cbn; [done|]. rewrite (H x) by left. apply IH. intros y Hy. apply H. by right. Qed.

Lemma foldCap_spec l :
  let '(level, boundBy) := fold_left foldCap l ("", []) in foldedTo (List.filter setCap l) level boundBy.
Proof.
  induction l as [|c l IH] using rev_ind; [split; try done; by intros c Hc%not_elem_of_nil|].
  rewrite fold_left_app, List.filter_app. cbn [fold_left List.filter].
  destruct (fold_left foldCap l ("", [])) as [level bb]. destruct IH as [Hn Ha Hl Hb]. destruct c as [field lv]. unfold foldCap, setCap at 2. cbn [snd].
  destruct (String.eqb_spec lv "") as [->|Hlv]; cbn [negb]; [rewrite app_nil_r; by split|].
  set (caps := List.filter setCap l) in *.
  assert (Hne : caps ++ [(field, lv)] <> []) by (by destruct caps).
  destruct (decide (caps = [])) as [Ec|Ec].
  { destruct (Hn Ec) as [-> ->]. rewrite Ec. cbn [nonempty negb orb app]. split; [done | exists (field, lv); split; [left | done] | |].
    - intros x [->|Hx]%elem_of_cons; [done | by apply not_elem_of_nil in Hx].
    - cbn. unfold tiedAt. cbn. by rewrite Z.eqb_refl. }
  destruct (Ha Ec) as (c0 & Hc0 & E0).
  assert (Hbb : nonempty bb = true).
  { rewrite Hb. destruct (map fst (List.filter (tiedAt (autonomyRank level)) caps)) eqn:Em; [|done]. exfalso.
    apply map_eq_nil in Em. assert (Hin : c0 ∈ List.filter (tiedAt (autonomyRank level)) caps).
    { apply list_elem_of_In, filter_In. split; [by apply list_elem_of_In|]. unfold tiedAt. by rewrite E0, Z.eqb_refl. }
    rewrite Em in Hin. by apply not_elem_of_nil in Hin. }
  rewrite Hbb. cbn [negb orb].
  destruct (Z.ltb_spec (autonomyRank lv) (autonomyRank level)) as [Hlt|Hge].
  - split; [done | exists (field, lv); split; [apply elem_of_app; right; left | done] | |].
    + intros x [Hx|Hx%list_elem_of_singleton]%elem_of_app; [specialize (Hl x Hx); lia | by subst].
    + rewrite List.filter_app, map_app, filter_all_false; [cbn; unfold tiedAt; cbn; by rewrite Z.eqb_refl|].
      intros x Hx. unfold tiedAt. apply Z.eqb_neq. specialize (Hl x Hx). lia.
  - destruct (Z.eqb_spec (autonomyRank lv) (autonomyRank level)) as [Heq|Hneq].
    + split; [done | exists c0; split; [apply elem_of_app; by left | done] | |].
      * intros x [Hx|Hx%list_elem_of_singleton]%elem_of_app; [by apply Hl | subst; cbn; lia].
      * rewrite List.filter_app, map_app, <- Hb. cbn. unfold tiedAt. cbn. by rewrite Heq, Z.eqb_refl.
    + split; [done | exists c0; split; [apply elem_of_app; by left | done] | |].
      * intros x [Hx|Hx%list_elem_of_singleton]%elem_of_app; [by apply Hl | subst; cbn; lia].
      * rewrite List.filter_app, map_app, <- Hb. cbn. unfold tiedAt. cbn.
        rewrite (proj2 (Z.eqb_neq _ _) Hneq). by rewrite app_nil_r.
Qed.

(** The level a rubric gives a posture is the lowest of the caps the posture
    selects, an unset cap binding nothing; [boundBy] names exactly the fields tied
    at that level, in field order, and is empty exactly when nothing binds. *)
Theorem fold_autonomy_is_minimum r p :
  let '(level, boundBy) := FoldAutonomy r p in foldedTo (List.filter setCap (applicableAutonomyCaps r p)) level boundBy.
Proof. apply foldCap_spec. Qed.

(** Which field of the rubric a posture reads, as a function of the rubric. *)
Lemma caps_pointwise a b p :
  leqRubric (Some a) (Some b) = true ->
  Forall2 (fun x y => fst x = fst y /\ (snd y = "" \/ (snd x <> "" /\ autonomyRank (snd x) <= autonomyRank (snd y))))
    (applicableAutonomyCaps a p) (applicableAutonomyCaps b p).
Proof.
  intros H. unfold leqRubric in H. destruct (_ && _); [done|]. cbn [rubricCaps rubricLevels combine forallb fst snd] in H.
  assert (Hp : forall x y, String.eqb y "" || negb (String.eqb x "" || (autonomyRank x >? autonomyRank y)) = true ->
            y = "" \/ (x <> "" /\ autonomyRank x <= autonomyRank y)).
  { intros x y. rewrite Z.gtb_ltb. destruct (String.eqb_spec y ""); [by left|]. destruct (String.eqb_spec x ""); [done|].
    cbn. intros E. bool_prop. by right. }
  repeat (apply andb_prop in H as [? H]). unfold applicableAutonomyCaps.
  assert (Hone : forall n x y, String.eqb y "" || negb (String.eqb x "" || (autonomyRank x >? autonomyRank y)) = true ->
    Forall2 (fun u v : string * string => fst u = fst v /\ (snd v = "" \/ (snd u <> "" /\ autonomyRank (snd u) <= autonomyRank (snd v)))) [(n, x)] [(n, y)]).
  { intros n x y E. constructor; [|constructor]. split; [done | by apply Hp]. }
  apply Forall2_app; [|apply Forall2_app].
  - destruct (String.eqb (PEgress p) "open"), (String.eqb (PEgress p) "reviewed"), (String.eqb (PEgress p) "sealed");
      (by apply Hone) || constructor.
  - destruct (String.eqb (PSecrets p) "powerful"), (String.eqb (PSecrets p) "baseline"), (String.eqb (PSecrets p) "none");
      (by apply Hone) || constructor.
  - destruct (String.eqb (PConfinement p) "CC1"), (String.eqb (PConfinement p) "CC2"), (String.eqb (PConfinement p) "CC3");
      (by apply Hone) || constructor.
Qed.

(** A rubric that an overlay may put in place of another (at most as
    permissive in every cell, as the composer compares them) never gives a run a
    higher autonomy level, whatever the run's posture. *)
Theorem tighter_rubric_never_raises_autonomy a b p :
  leqRubric (Some a) (Some b) = true -> fst (FoldAutonomy b p) <> "" ->
  fst (FoldAutonomy a p) <> "" /\ autonomyRank (fst (FoldAutonomy a p)) <= autonomyRank (fst (FoldAutonomy b p)).
Proof.
  intros Hle Hb. pose proof (caps_pointwise a b p Hle) as Hpw. unfold FoldAutonomy in *.
  pose proof (foldCap_spec (applicableAutonomyCaps a p)) as Fa. pose proof (foldCap_spec (applicableAutonomyCaps b p)) as Fb.
  destruct (fold_left foldCap (applicableAutonomyCaps a p) ("", [])) as [la ba].
  destruct (fold_left foldCap (applicableAutonomyCaps b p) ("", [])) as [lb bb]. cbn [fst] in *.
  destruct Fa as [_ Aa La _], Fb as [Nb Ab _ _].
  destruct (Ab ltac:(intros E; by apply Hb, Nb)) as (c & Hc & <-). apply list_elem_of_In, filter_In in Hc as [Hc Hs].
  apply list_elem_of_In, list_elem_of_lookup in Hc as [i Hi].
  destruct (Forall2_lookup_r _ _ _ _ _ Hpw Hi) as (x & Hx & _ & Hcase).
  unfold setCap in Hs. bool_prop. apply String.eqb_neq in Hs. destruct Hcase as [?|[Hxn Hxr]]; [done|].
  assert (Hin : x ∈ List.filter setCap (applicableAutonomyCaps a p)).
  { apply list_elem_of_In, filter_In. split; [by eapply list_elem_of_In, list_elem_of_lookup_2|].
    unfold setCap. by apply negb_true_iff, String.eqb_neq. }
  split; [|specialize (La x Hin); lia].
  destruct (Aa ltac:(intros E; rewrite E in Hin; by apply not_elem_of_nil in Hin)) as (y & Hy & <-).
  apply list_elem_of_In, filter_In in Hy as [_ Hy]. unfold setCap in Hy. bool_prop. by apply String.eqb_neq.
Qed.

(** ** What is graded and what is minted *)

Section Graded.
Context {U : GoUnicode}.

Lemma minLevel_read a : permissionRank a <> Some 2 -> permissionRank a <> Some 3 -> minLevel a "write" = "read" /\ minLevel a "read" = "read".
Proof.
  unfold minLevel, permissionRank. cbn.
  destruct (String.eqb_spec a "read") as [->|]; [done|]. destruct (String.eqb a "write"); [done|]. by destruct (String.eqb a "admin").
Qed.

Lemma githubWritePerms_nil s :
  githubWritePerms (ScopeObj s) = [] -> forall perm lvl, sc_Permissions s !! perm = Some lvl -> isWriteLevel lvl = false.
Proof.
  cbn [githubWritePerms]. intros H perm lvl Hl. destruct (isWriteLevel lvl) eqn:E; [|done]. exfalso.
  assert (Hin : (perm ++ ":" ++ ToLower lvl)%string ∈ githubWritePerms (ScopeObj s)).
  { cbn [githubWritePerms]. apply elem_of_sortStrings, list_elem_of_In, in_map_iff. exists (perm, lvl). split; [done|].
    apply filter_In. split; [|done]. by apply list_elem_of_In, elem_of_map_to_list. }
  cbn [githubWritePerms] in Hin. rewrite H in Hin. by apply not_elem_of_nil in Hin.
Qed.

Lemma clampPerms_spec requested perm lvl :
  clampGitHubPermissions requested !! perm = Some lvl ->
  (perm = "metadata" /\ lvl = "read") \/
  exists req max, requested !! perm = Some req /\ (perm, max) ∈ githubPermissionCeiling /\ lvl = minLevel req max.
Proof.
  unfold clampGitHubPermissions, githubPermissionCeiling. cbn [fold_left fst snd].
  assert (Hstep : forall (out : gmap string string) p m, (p, m) ∈ githubPermissionCeiling ->
    (forall k v, out !! k = Some v -> (k = "metadata" /\ v = "read") \/
       exists req max, requested !! k = Some req /\ (k, max) ∈ githubPermissionCeiling /\ v = minLevel req max) ->
    forall k v, match requested !! p with None => out | Some req => <[p := minLevel req m]> out end !! k = Some v ->
      (k = "metadata" /\ v = "read") \/
       exists req max, requested !! k = Some req /\ (k, max) ∈ githubPermissionCeiling /\ v = minLevel req max).
  { intros out p m Hin Hout k v. destruct (requested !! p) as [req|] eqn:E; [|apply Hout].
    intros [[<- <-]|[_ H]]%lookup_insert_Some; [right; by exists req, m | by apply Hout]. }
  revert perm lvl. apply Hstep; [by right; right; left|]. apply Hstep; [by right; left|]. apply Hstep; [by left|].
  intros k v [<- <-]%lookup_singleton_Some. by left.
Qed.

(** A GitHub grant the grade calls read-only mints a read-only token: when no
    permission of the grant reads as write or admin, every permission the minter
    asks for is read; and no grant ever mints a permission outside the minter's
    ceiling or above write. *)
Theorem readonly_grade_mints_readonly g s perm lvl :
  Kind g = GrantGitHubToken -> GScope g = ScopeObj s -> clampGitHubPermissions (sc_Permissions s) !! perm = Some lvl ->
  (exists max, (perm, max) ∈ githubPermissionCeiling) /\ (lvl = "read" \/ lvl = "write") /\
  (grantIsWriteCapable g = false -> lvl = "read").
Proof.
  intros Hk Hs Hl. apply clampPerms_spec in Hl as [[-> ->]|(req & max & Hreq & Hin & ->)].
  { split_and!; [exists "read"; by right; right; left | by left | done]. }
  split; [by exists max|].
  assert (Hmax : max = "write" \/ max = "read").
  { repeat (apply elem_of_cons in Hin as [[= _ ->]|Hin]; [by auto|]). by apply not_elem_of_nil in Hin. }
  assert (Hbound : minLevel req max = "read" \/ minLevel req max = "write").
  { unfold minLevel. destruct (permissionRank req) as [r|] eqn:Er; [|destruct Hmax as [-> | ->]; by left].
    unfold permissionRank in Er. destruct (String.eqb_spec req "read") as [->|]; [injection Er as <-; destruct Hmax as [-> | ->]; by left|].
    destruct (String.eqb_spec req "write") as [->|]; [injection Er as <-; destruct Hmax as [-> | ->]; [by right | by left]|].
    destruct (String.eqb_spec req "admin") as [->|]; [injection Er as <-; destruct Hmax as [-> | ->]; [by right | by left] | done]. }
  split; [exact Hbound|]. intros Hw. unfold grantIsWriteCapable in Hw. rewrite Hk, Hs in Hw. cbn [String.eqb] in Hw.
  assert (Hw' : githubWritePerms (ScopeObj s) = []) by (destruct (githubWritePerms (ScopeObj s)); [done | by cbn in Hw]).
  pose proof (githubWritePerms_nil s Hw' _ _ Hreq) as Hf.
  destruct (minLevel_read req) as [H1 H2]; [| |destruct Hmax as [-> | ->]; done];
    intros Er; unfold permissionRank in Er; destruct (String.eqb req "read"); try done;
    destruct (String.eqb_spec req "write") as [->|]; try done; destruct (String.eqb_spec req "admin") as [->|]; done.
Qed.

Lemma overall_ge max items : riskRank max <= riskRank (overall max items) /\
  forall it, it ∈ items -> riskRank (rk_Level it) <= riskRank (overall max items).
Proof.
  revert max. induction items as [|x l IH]; intros max; cbn [overall]; [split; [lia | by intros it Hit%not_elem_of_nil]|].
  destruct (IH (if riskRank (rk_Level x) >? riskRank max then rk_Level x else max)) as [H1 H2].
  destruct (Z.gtb_spec (riskRank (rk_Level x)) (riskRank max)); (split; [lia|]);
    intros it [->|Hit]%elem_of_cons; auto; lia.
Qed.

Lemma overall_high items it : it ∈ items -> rk_Level it = RiskHigh -> OverallLevel items = RiskHigh.
Proof.
  intros Hin Hh. destruct (overall_ge RiskLow items) as [_ H]. specialize (H it Hin). rewrite Hh in H.
  unfold OverallLevel. destruct (overall RiskLow items); cbn in H; [lia | lia | done].
Qed.

(** The floor, the posture and the grade agree: a policy whose grants require
    the strongest confinement has the powerful secrets posture, and when a grant
    that needs it can write, the overall grade is high. *)
Theorem floor_posture_and_grade_agree spec b interactive :
  (RequiredConfinementFloor spec b = "CC3" -> autonomySecrets spec b = "powerful") /\
  (forall g, g ∈ EligibleGrants spec -> grantIsWriteCapable g = true ->
     RequiredConfinementFloor spec b = "CC3" /\ OverallLevel (Grade b interactive spec) = RiskHigh).
Proof.
  split.
  - unfold RequiredConfinementFloor, autonomySecrets. destruct (existsb _ _) eqn:E; [|done]. intros _.
    apply existsb_exists in E as (g & Hg & Hp).
    assert (Hn : nonempty (EligibleGrants spec) = true) by (by destruct (EligibleGrants spec)). rewrite Hn. cbn [negb].
    replace (existsb (powerfulGrant b) (EligibleGrants spec)) with true; [done|]. symmetry. apply existsb_exists.
    exists g. split; [done|]. unfold powerfulGrant. by rewrite Hp.
  - intros g Hg Hw. split.
    + unfold RequiredConfinementFloor. replace (existsb _ _) with true; [done|]. symmetry. apply existsb_exists. exists g.
      rewrite Hw. by apply list_elem_of_In in Hg.
    + apply list_elem_of_lookup in Hg as [i Hi]. apply (overall_high _ (mkRisk ("eligible_grants[" ++ Itoa (Z.of_nat i) ++ "]")%string RiskHigh
        (if String.eqb (Kind g) GrantGitHubToken then "2" else "5"))); [|done].
      unfold Grade, gradeItems. rewrite elem_of_sortBy, !elem_of_app. right. right. left.
      apply list_elem_of_In, in_concat. exists (gradeGrant i g). split.
      * apply list_elem_of_In, elem_of_lookup_imap. eauto.
      * apply in_app_iff. left. unfold grantIsWriteCapable in Hw. destruct (String.eqb_spec (Kind g) GrantGitHubToken) as [E|E].
        -- rewrite Hw. by left.
        -- apply String.eqb_eq in Hw. rewrite Hw. by left.
Qed.

(** The grade lists its items riskiest first. *)
Theorem grade_is_sorted b interactive spec : StronglySorted riskLeb (Grade b interactive spec).
Proof.
  apply sortBy_sorted; unfold riskLeb; [intros x y | intros x y z]; rewrite !Z.leb_le; lia.
Qed.
End Graded.

(** ** Concrete values *)

Definition sampleRubric : AutonomyRubric := mkRubric "L1" "L2" "L3" "L1" "L2" "" "L0" "L1" "L3" false.

Example fold_sample :
  FoldAutonomy sampleRubric (mkPosture "open" "powerful" "CC2") = ("L1", ["egress_open"; "secrets_powerful"; "confinement_cc2"]) /\
  FoldAutonomy zeroRubric (mkPosture "open" "powerful" "CC2") = ("", []).
Proof. split; reflexivity. Qed.

Lemma tighter_rubric_never_raises_autonomy_witness :
  autonomyRank (fst (FoldAutonomy sampleRubric (mkPosture "sealed" "none" "CC3"))) <=
  autonomyRank (fst (FoldAutonomy (mkRubric "L2" "L2" "L3" "L2" "L2" "" "L1" "L1" "L3" false) (mkPosture "sealed" "none" "CC3"))).
Proof.
  apply (tighter_rubric_never_raises_autonomy sampleRubric (mkRubric "L2" "L2" "L3" "L2" "L2" "" "L1" "L1" "L3" false)); [reflexivity | done].
Defined.

Definition readGrant : GrantSpec :=
  mkGrant GrantGitHubToken (ScopeObj (mkScope "" "" "" "" "" "" "" "" false "" (Some ["o/r"]) "" false ""
    (<["contents" := "read"]> {[ "pull_requests" := "Read" ]}))) 600 false false [].

Lemma readonly_grade_mints_readonly_witness :
  grantIsWriteCapable (U := asciiTables) readGrant = false /\
  exists lvl, clampGitHubPermissions (<["contents" := "read"]> {[ "pull_requests" := "Read" ]}) !! "pull_requests" = Some lvl /\ lvl = "read".
Proof.
  split; [reflexivity|]. eexists. split; [reflexivity|].
  eapply (@readonly_grade_mints_readonly asciiTables readGrant _ "pull_requests"); [reflexivity | reflexivity | reflexivity | reflexivity].
Defined.
