(* ===== verification/GitWire.v ===== *)
(** * The wire format of a push

    [internal/gitpack/pack.go], the parts that read bytes: the pkt-line command
    section of a receive-pack request, the capability list, the variable-length
    integers of a pack, and git's delta instructions.

    A [[]byte] is a list of bytes and a Go [string] a [string]; lengths and sizes
    are [Z]. An error is the left of a sum and keeps the class a caller can ask
    for ([ErrUninspectable], [ErrTooLarge], [ErrTooDeep], [MissingObjectError]) and
    the fixed part of its text. A loop that is not structural takes the length of
    its input as fuel; that this is enough is proved ([commandLoop_fuel],
    [skipLoop_fuel], [deltaLoop_fuel]), so [OutOfFuel] is no result of the code.

    Against an encoder written from git's format, a command section and a delta
    are read back as what was encoded. *)
From S2P Require Import Prelude GoStrings GoPath PolicyTypes PushRules PushForge.
Local Open Scope string_scope.
Local Open Scope Z_scope.
Local Open Scope wardyn_scope.
Local Open Scope list_scope.

Notation Bytes := (list ascii).
Notation str := String.string_of_list_ascii.
Notation bytes := String.list_ascii_of_string.

(** ** Errors *)

Inductive gitErr :=
| Malformed (what : string)
| Uninspectable (what : string)
| TooLarge (what : string)
| TooDeep
| MissingObject (refs : list string) (cmds : list Command)
| Internal (what : string)
| HeldFailed (err : string)
| OutOfFuel.

Definition gres (A : Type) : Type := gitErr + A.
Definition gbind {A B} (m : gres A) (k : A -> gres B) : gres B :=
  match m with inl e => inl e | inr x => k x end.
Notation "x <-? m ; k" := (gbind m (fun x => k)) (at level 100, m at next level, right associativity) : wardyn_scope.
Notation "'let?' p := m 'in' k" := (gbind m (fun x => match x with p => k end))
  (at level 200, p pattern, m at level 200, right associativity) : wardyn_scope.

(** ** The ceilings *)

Definition maxCommandSection : Z := Z.shiftl 64 10.
Definition maxObjects : Z := 200000.
Definition maxObjectBytes : Z := Z.shiftl 32 20.
Definition maxInflatedBytes : Z := Z.shiftl 128 20.
Definition maxVarintBytes : Z := 10.

Definition blen (b : Bytes) : Z := Z.of_nat (length b).

(** ** Hexadecimal *)

Definition hexVal (c : ascii) : option Z :=
  if is_digit c then Some (byte_of c - 48)
  else if (97 <=? byte_of c) && (byte_of c <=? 102) then Some (byte_of c - 87)
  else if (65 <=? byte_of c) && (byte_of c <=? 70) then Some (byte_of c - 55)
  else None.

(** [strconv.ParseUint(s, 16, 16)] of four bytes, and [hex.DecodeString] as a
    test: an even number of hexadecimal digits, in either case. *)
Fixpoint parseHex (acc : Z) (b : Bytes) : option Z :=
  match b with
  | [] => Some acc
  | c :: b' => match hexVal c with Some d => parseHex (acc * 16 + d) b' | None => None end
  end.

Definition isHexDigit (c : ascii) : bool := match hexVal c with Some _ => true | None => false end.
Definition isHex (s : string) : bool :=
  negb (String.eqb s "") && Nat.even (String.length s) && str_forall isHexDigit s.

Definition isZeroOID (oid : string) : bool := negb (String.eqb oid "") && str_forall (Ascii.eqb "0") oid.

Definition chr (z : Z) : ascii := ascii_of_N (Z.to_N z).
Definition hexDigit (d : Z) : ascii := chr (if d <? 10 then 48 + d else 87 + d).

(** [hex.EncodeToString]. *)
Fixpoint EncodeToString (b : Bytes) : string :=
  match b with
  | [] => ""
  | c :: b' => String (hexDigit (Z.shiftr (byte_of c) 4)) (String (hexDigit (Z.land (byte_of c) 15)) (EncodeToString b'))
  end.

(** ** The command section *)

Definition NL : ascii := "010".
Definition NUL : ascii := "000".

(** [strings.TrimSuffix(s, "\n")]. *)
Fixpoint trimNL (s : string) : string :=
  match s with
  | "" => ""
  | String c "" => if Ascii.eqb c NL then "" else s
  | String c s' => String c (trimNL s')
  end.

(** [None] is a line to skip. *)
Definition parseCommand (line : string) : gres (option Command) :=
  if HasPrefix line "shallow " then inr None
  else
    match cutByte " " line with
    | Some (old, r) =>
        match cutByte " " r with
        | Some (new, ref) =>
            if String.eqb ref "" || negb (isHex old) || negb (isHex new)
            then inl (Malformed "unsupported receive-pack command")
            else inr (Some (mkCommand old new ref))
        | None => inl (Malformed "unsupported receive-pack command")
        end
    | None => inl (Malformed "unsupported receive-pack command")
    end.

Definition pktLen (body : Bytes) : gres Z :=
  if blen body <? 4 then inl (Malformed "truncated pkt-line length")
  else match parseHex 0 (take 4 body) with
       | None => inl (Malformed "malformed pkt-line length")
       | Some n => inr n
       end.

(** The line of a pkt, and what the capability list of the first one leaves of
    it. *)
Definition cutCaps (cmds : list Command) (caps line : string) : string * string :=
  if String.eqb caps "" && match cmds with [] => true | _ => false end then
    match cutByte NUL line with
    | Some (payload, c) => (payload, trimNL c)
    | None => (line, caps)
    end
  else (line, caps).

Fixpoint commandLoop (fuel : nat) (read : Z) (cmds : list Command) (caps : string) (body : Bytes)
    : gres (list Command * string * Bytes) :=
  match fuel with
  | O => inl OutOfFuel
  | S fuel =>
      n <-? pktLen body;
      if n =? 0 then inr (cmds, caps, drop 4 body)
      else if (n <? 5) || (blen body <? n) then inl (Malformed "unexpected pkt-line length in the command section")
      else if maxCommandSection <? read + n then inl (Malformed "command section exceeds the ceiling")
      else
        let line := str (take (Z.to_nat n - 4) (drop 4 body)) in
        let '(line, caps) := cutCaps cmds caps line in
        oc <-? parseCommand (trimNL line);
        commandLoop fuel (read + n) (match oc with Some c => cmds ++ [c] | None => cmds end) caps (drop (Z.to_nat n) body)
  end.

Definition readCommandSection (body : Bytes) : gres (list Command * string * Bytes) :=
  commandLoop (S (length body)) 0 [] "" body.

Fixpoint skipLoop (fuel : nat) (read : Z) (body : Bytes) : gres Bytes :=
  match fuel with
  | O => inl OutOfFuel
  | S fuel =>
      n <-? pktLen body;
      if n =? 0 then inr (drop 4 body)
      else if (n <? 5) || (blen body <? n) then inl (Malformed "unexpected pkt-line length")
      else if maxCommandSection <? read + n then inl (Malformed "section exceeds the ceiling")
      else skipLoop fuel (read + n) (drop (Z.to_nat n) body)
  end.

Definition skipPktSection (body : Bytes) : gres Bytes := skipLoop (S (length body)) 0 body.

(** ** The capability list *)

(** [unicode.IsSpace]. *)
Definition isSpaceRune (r : Z) : bool :=
  ((9 <=? r) && (r <=? 13)) || (r =? 32) || (r =? 133) || (r =? 160) || (r =? 5760) || ((8192 <=? r) && (r <=? 8202))
  || (r =? 8232) || (r =? 8233) || (r =? 8239) || (r =? 8287) || (r =? 12288).

(** [strings.Fields]: the runs of runes that are not space. [cur] is the field
    being read. *)
Fixpoint fieldsFrom (fuel : nat) (cur s : string) : list string :=
  match fuel with
  | O => []
  | S fuel =>
      match s with
      | "" => if String.eqb cur "" then [] else [cur]
      | _ =>
          let '(r, _, rest) := DecodeRune s in
          if isSpaceRune r
          then (if String.eqb cur "" then [] else [cur]) ++ fieldsFrom fuel "" rest
          else fieldsFrom fuel (cur +:+ String.substring 0 (String.length s - String.length rest) s) rest
      end
  end.

Definition Fields (s : string) : list string := fieldsFrom (S (String.length s)) "" s.

Record hashFormat := mkFormat { fname : string; fsize : nat }.
Definition sha1Format : hashFormat := mkFormat "sha1" 20.
Definition sha256Format : hashFormat := mkFormat "sha256" 32.

Fixpoint formatIn (fields : list string) : gres hashFormat :=
  match fields with
  | [] => inr sha1Format
  | c :: fs =>
      if HasPrefix c "object-format=" then
        let v := String.substring 14 (String.length c - 14) c in
        if String.eqb v (fname sha1Format) then inr sha1Format
        else if String.eqb v (fname sha256Format) then inr sha256Format
        else inl (Malformed "unsupported object-format")
      else formatIn fs
  end.

Definition objectFormat (caps : string) : gres hashFormat := formatIn (Fields caps).

(** ** Integers of a pack *)

(** The header loop: [b] is the byte just read, [n] how many were. [int64]
    arithmetic wraps. *)
Fixpoint headerLoop (fuel : nat) (b size shift n : Z) (r : Bytes) : gres (Z * Bytes) :=
  if Z.land b 128 =? 0 then inr (size, r)
  else
    match fuel with
    | O => inl OutOfFuel
    | S fuel =>
        if n >=? maxVarintBytes then inl (Malformed "object header size is not a sane varint")
        else
          match r with
          | [] => inl (Malformed "truncated object header")
          | c :: r =>
              let size := wrap64 (Z.lor size (Z.shiftl (Z.land (byte_of c) 127) shift)) in
              if (size <? 0) || (size >? maxObjectBytes)
              then inl (TooLarge "an object header declares more than the ceiling")
              else headerLoop fuel (byte_of c) size (shift + 7) (n + 1) r
          end
    end.

Definition header (r : Bytes) : gres (Z * Z * Bytes) :=
  match r with
  | [] => inl (Malformed "truncated object header")
  | c :: r =>
      let? (size, r) := headerLoop 10 (byte_of c) (Z.land (byte_of c) 15) 4 1 r in
      inr (Z.land (Z.shiftr (byte_of c) 4) 7, size, r)
  end.

(** [packSize] is the length of the whole pack the reader walks. *)
Fixpoint offsetLoop (fuel : nat) (packSize b off n : Z) (r : Bytes) : gres (Z * Bytes) :=
  if Z.land b 128 =? 0 then inr (off, r)
  else
    match fuel with
    | O => inl OutOfFuel
    | S fuel =>
        if n >=? maxVarintBytes then inl (Malformed "delta offset is not a sane varint")
        else
          match r with
          | [] => inl (Malformed "truncated delta offset")
          | c :: r =>
              let off := wrap64 (Z.lor (Z.shiftl (off + 1) 7) (Z.land (byte_of c) 127)) in
              if (off <? 0) || (off >? packSize) then inl (Malformed "delta offset runs off the pack")
              else offsetLoop fuel packSize (byte_of c) off (n + 1) r
          end
    end.

Definition offsetEncoding (packSize : Z) (r : Bytes) : gres (Z * Bytes) :=
  match r with
  | [] => inl (Malformed "truncated delta offset")
  | c :: r => offsetLoop 10 packSize (byte_of c) (Z.land (byte_of c) 127) 1 r
  end.

(** [binary.ReadUvarint]; [n] is how many bytes may still be read. *)
Fixpoint uvarint (n : nat) (x s : Z) (r : Bytes) : option (Z * Bytes) :=
  match n, r with
  | S n, c :: r =>
      let b := byte_of c in
      if b <? 128 then if Nat.eqb n 0 && (1 <? b) then None else Some (Z.lor x (Z.shiftl b s), r)
      else uvarint n (Z.lor x (Z.shiftl (Z.land b 127) s)) (s + 7) r
  | _, _ => None
  end.

Definition ReadUvarint (r : Bytes) : option (Z * Bytes) := uvarint 10 0 0 r.

(** ** Deltas *)

(** The bytes of a copy operand that the opcode says are present: [bit] is the
    opcode bit of byte [i], and [n] bytes are left. *)
Fixpoint operand (n : nat) (op bit i acc : Z) (r : Bytes) : option (Z * Bytes) :=
  match n with
  | O => Some (acc, r)
  | S n =>
      if Z.land op bit =? 0 then operand n op (Z.shiftl bit 1) (i + 1) acc r
      else match r with
           | [] => None
           | c :: r => operand n op (Z.shiftl bit 1) (i + 1) (Z.lor acc (Z.shiftl (byte_of c) (8 * i))) r
           end
  end.

Definition copyFromBase (r : Bytes) (op : Z) (base out : Bytes) : gres (Bytes * Bytes) :=
  match operand 4 op 1 0 0 r with
  | None => inl (Malformed "truncated copy offset")
  | Some (offset, r) =>
      match operand 3 op 16 0 0 r with
      | None => inl (Malformed "truncated copy size")
      | Some (size, r) =>
          let size := if size =? 0 then 65536 else size in
          let stop := (offset + size) mod 2 ^ 64 in
          if (stop <? offset) || (stop >? blen base) then inl (Malformed "copies past its base")
          else inr (out ++ take (Z.to_nat size) (drop (Z.to_nat offset) base), r)
      end
  end.

(** One instruction. *)
Definition instruction (r : Bytes) (op : Z) (base out : Bytes) : gres (Bytes * Bytes) :=
  if negb (Z.land op 128 =? 0) then copyFromBase r op base out
  else if negb (op =? 0) then
    if blen r <? op then inl (Malformed "insert is truncated")
    else inr (out ++ take (Z.to_nat op) r, drop (Z.to_nat op) r)
  else inl (Malformed "instruction 0 is reserved").

Fixpoint deltaLoop (fuel : nat) (base : Bytes) (want : Z) (out r : Bytes) : gres Bytes :=
  match r with
  | [] => inr out
  | c :: r =>
      match fuel with
      | O => inl OutOfFuel
      | S fuel =>
          let? (out, r) := instruction r (byte_of c) base out in
          if blen out >? want then inl (Malformed "produced more than the bytes it declared")
          else deltaLoop fuel base want out r
      end
  end.

Definition applyDelta (base delta : Bytes) : gres Bytes :=
  match ReadUvarint delta with
  | None => inl (Malformed "unreadable base size")
  | Some (baseSize, r) =>
      if negb (baseSize =? blen base) then inl (Malformed "declares another base size")
      else
        match ReadUvarint r with
        | None => inl (Malformed "unreadable result size")
        | Some (want, r) =>
            if want >? maxObjectBytes then inl (TooLarge "declares a result past the ceiling")
            else
              out <-? deltaLoop (length r) base want [] r;
              if negb (blen out =? want) then inl (Malformed "declared another result size") else inr out
        end
  end.

(** ** The loops end *)

Lemma gbind_inr {A B} (m : gres A) (k : A -> gres B) y : gbind m k = inr y -> exists x, m = inr x /\ k x = inr y.
Proof. destruct m as [e|x]; cbn; [discriminate|]. eauto. Qed.

(** A result the code can give: neither the fuel's error nor one it calls
    internal. *)
Definition fueled {A} (m : gres A) : Prop :=
  match m with inl OutOfFuel | inl (Internal _) => False | _ => True end.

Lemma fueled_bind {A B} (m : gres A) (k : A -> gres B) :
  fueled m -> (forall x, m = inr x -> fueled (k x)) -> fueled (gbind m k).
Proof. intros Hm Hk. destruct m as [e|x]; [exact Hm|]. by apply Hk. Qed.

Create HintDb gitfuel.
#[export] Hint Resolve fueled_bind : gitfuel.

Lemma fueled_pktLen body : fueled (pktLen body).
Proof. unfold pktLen. repeat case_match; exact I. Qed.

Lemma fueled_parseCommand line : fueled (parseCommand line).
Proof. unfold parseCommand. repeat case_match; exact I. Qed.

#[export] Hint Resolve fueled_pktLen fueled_parseCommand : gitfuel.

Lemma pkt_consumes n (body : Bytes) fuel :
  (n <? 5) || (blen body <? n) = false -> (length body < S fuel)%nat -> (length (drop (Z.to_nat n) body) < fuel)%nat.
Proof. unfold blen. intros H Hf. bool_prop. rewrite length_drop. lia. Qed.

Lemma commandLoop_fuel fuel read cmds caps body :
  (length body < fuel)%nat -> fueled (commandLoop fuel read cmds caps body).
Proof.
  revert read cmds caps body. induction fuel as [|fuel IH]; intros read cmds caps body Hf; [lia|]. cbn [commandLoop].
  apply fueled_bind; [auto with gitfuel|]. intros n _.
  destruct (n =? 0); [exact I|]. destruct (_ || _) eqn:Hn; [exact I|]. destruct (maxCommandSection <? _); [exact I|].
  destruct (cutCaps _ _ _) as [line caps'].
  apply fueled_bind; [auto with gitfuel|]. intros oc _. apply IH. by apply pkt_consumes.
Qed.

Lemma skipLoop_fuel fuel read body : (length body < fuel)%nat -> fueled (skipLoop fuel read body).
Proof.
  revert read body. induction fuel as [|fuel IH]; intros read body Hf; [lia|]. cbn [skipLoop].
  apply fueled_bind; [auto with gitfuel|]. intros n _.
  destruct (n =? 0); [exact I|]. destruct (_ || _) eqn:Hn; [exact I|]. destruct (maxCommandSection <? _); [exact I|].
  apply IH. by apply pkt_consumes.
Qed.

Lemma headerLoop_fuel fuel b size shift n r :
  n <= 10 -> 11 <= n + Z.of_nat fuel -> fueled (headerLoop fuel b size shift n r).
Proof.
  revert b size shift n r. induction fuel as [|fuel IH]; intros b size shift n r Hn Hf; [lia|]. cbn [headerLoop].
  destruct (Z.land b 128 =? 0); [exact I|]. unfold maxVarintBytes.
  destruct (n >=? 10) eqn:Hge; [exact I|]. destruct r; [exact I|]. destruct (_ || _); [exact I|].
  bool_prop. apply IH; lia.
Qed.

Lemma offsetLoop_fuel fuel size b off n r :
  n <= 10 -> 11 <= n + Z.of_nat fuel -> fueled (offsetLoop fuel size b off n r).
Proof.
  revert b off n r. induction fuel as [|fuel IH]; intros b off n r Hn Hf; [lia|]. cbn [offsetLoop].
  destruct (Z.land b 128 =? 0); [exact I|]. unfold maxVarintBytes.
  destruct (n >=? 10) eqn:Hge; [exact I|]. destruct r; [exact I|]. destruct (_ || _); [exact I|].
  bool_prop. apply IH; lia.
Qed.

Lemma operand_rest n op bit i acc r v r' : operand n op bit i acc r = Some (v, r') -> exists k, r' = drop k r.
Proof.
  revert bit i acc r. induction n as [|n IH]; intros bit i acc r; cbn [operand].
  - intros [= <- <-]. by exists 0%nat.
  - destruct (Z.land op bit =? 0); [apply IH|]. destruct r as [|c r]; [discriminate|].
    intros H. destruct (IH _ _ _ _ H) as [k ->]. by exists (S k).
Qed.

(** What one copy does: its result, and that it only moves forward in the
    instructions. *)
Lemma copyFromBase_inv r op base out out' r' :
  copyFromBase r op base out = inr (out', r') ->
  (exists off n, out' = out ++ take n (drop off base)) /\ exists k, r' = drop k r.
Proof.
  unfold copyFromBase. destruct (operand 4 _ _ _ _ r) as [[off r1]|] eqn:H1; [|discriminate].
  destruct (operand 3 _ _ _ _ r1) as [[sz r2]|] eqn:H2; [|discriminate].
  destruct (_ || _); [discriminate|]. intros [= <- <-]. split; [eauto|].
  destruct (operand_rest _ _ _ _ _ _ _ _ H1) as [k1 ->]. destruct (operand_rest _ _ _ _ _ _ _ _ H2) as [k2 ->].
  exists (k1 + k2)%nat. by rewrite drop_drop.
Qed.

Lemma fueled_copyFromBase r op base out : fueled (copyFromBase r op base out).
Proof. unfold copyFromBase. repeat case_match; exact I. Qed.

Lemma in_take {A} n (l : list A) c : c ∈ take n l -> c ∈ l.
Proof. intros H. rewrite <- (take_drop n l). apply elem_of_app. by left. Qed.

Lemma in_drop {A} n (l : list A) c : c ∈ drop n l -> c ∈ l.
Proof. intros H. rewrite <- (take_drop n l). apply elem_of_app. by right. Qed.

Lemma instruction_inv r op base out out' r' :
  instruction r op base out = inr (out', r') ->
  (exists chunk, out' = out ++ chunk /\ forall c, c ∈ chunk -> c ∈ base \/ c ∈ r) /\ exists k, r' = drop k r.
Proof.
  unfold instruction. destruct (negb (Z.land op 128 =? 0)).
  - intros H. destruct (copyFromBase_inv _ _ _ _ _ _ H) as ((off & n & ->) & ?). split; [|done].
    eexists; split; [done|]. intros c Hc. left. by eapply in_drop, in_take.
  - destruct (negb (op =? 0)); [|discriminate]. destruct (_ <? _); [discriminate|]. intros [= <- <-]. split; [|eauto].
    eexists; split; [done|]. intros c Hc. right. by eapply in_take.
Qed.

Lemma fueled_instruction r op base out : fueled (instruction r op base out).
Proof. unfold instruction. repeat case_match; try exact I. apply fueled_copyFromBase. Qed.
#[export] Hint Resolve fueled_instruction : gitfuel.

Lemma deltaLoop_eq fuel base want out c r :
  deltaLoop (S fuel) base want out (c :: r) =
  let? (out, r) := instruction r (byte_of c) base out in
  if blen out >? want then inl (Malformed "produced more than the bytes it declared") else deltaLoop fuel base want out r.
Proof. reflexivity. Qed.

Lemma deltaLoop_fuel fuel base want out r : (length r <= fuel)%nat -> fueled (deltaLoop fuel base want out r).
Proof.
  revert out r. induction fuel as [|fuel IH]; intros out [|c r] Hf; try exact I; cbn in Hf; [lia|].
  rewrite deltaLoop_eq. apply fueled_bind; [auto with gitfuel|]. intros [out' r'] Hi.
  destruct (instruction_inv _ _ _ _ _ _ Hi) as (_ & k & ->).
  destruct (_ >? _); [exact I|]. apply IH. rewrite length_drop. lia.
Qed.

Lemma fueled_applyDelta base delta : fueled (applyDelta base delta).
Proof.
  unfold applyDelta. repeat case_match; try exact I. apply fueled_bind; [by apply deltaLoop_fuel|].
  intros out _. case_match; exact I.
Qed.

(** ** A command section is read back as it was written *)

Definition hex4 (n : Z) : Bytes :=
  [hexDigit (n / 4096 mod 16); hexDigit (n / 256 mod 16); hexDigit (n / 16 mod 16); hexDigit (n mod 16)].
Definition pkt (s : string) : Bytes := hex4 (Z.of_nat (String.length s) + 4) ++ bytes s.
Definition flushPkt : Bytes := bytes "0000".
Definition commandLine (c : Command) : string := Old c +:+ String " " (New c +:+ String " " (Ref c)).

(** The lines of a section: the shallow lines, then the commands, the first of
    which carries the capabilities, each with the line ending [eol]. *)
Definition sectionLines (eol : string) (shallow : list string) (c : Command) (cs : list Command) (caps : string) : list string :=
  map (fun oid => "shallow " +:+ oid +:+ eol) shallow
  ++ (commandLine c +:+ String NUL (caps +:+ eol)) :: map (fun d => commandLine d +:+ eol) cs.
Definition encodeLines (lines : list string) : Bytes := concat (map pkt lines) ++ flushPkt.

Definition lineBytes (lines : list string) : Z := foldr (fun s n => Z.of_nat (String.length s) + 4 + n) 0 lines.

Definition endsNL (s : string) : bool := HasSuffix s (String NL "").
Record goodCommand (c : Command) : Prop := mkGoodCommand {
  gcOld : isHex (Old c) = true; gcNew : isHex (New c) = true; gcRef : Ref c <> "";
  gcNul : str_has NUL (Ref c) = false; gcEnd : endsNL (Ref c) = false }.

Lemma bytes_length s : length (bytes s) = String.length s.
Proof. induction s; cbn; congruence. Qed.

Lemma cutByte_app c a b : str_has c a = false -> cutByte c (a +:+ String c b) = Some (a, b).
Proof.
  induction a as [|x a IH]; intros H.
  - rewrite str_app_nil_l. cbn [cutByte]. by rewrite Ascii.eqb_refl.
  - rewrite str_has_cons in H. bool_prop. rewrite str_app_cons. cbn [cutByte]. destruct (Ascii.eqb x c); [done|].
    by rewrite IH.
Qed.

Lemma cutByte_none c a : str_has c a = false -> cutByte c a = None.
Proof.
  induction a as [|x a IH]; intros H; [done|]. rewrite str_has_cons in H. bool_prop. cbn [cutByte].
  destruct (Ascii.eqb x c); [done|]. by rewrite IH.
Qed.

Lemma isHex_no_byte s c : isHex s = true -> isHexDigit c = false -> str_has c s = false.
Proof. unfold isHex. intros H Hc. bool_prop. by eapply str_forall_has_not. Qed.

Lemma trimNL_nl s : trimNL (s +:+ String NL "") = s.
Proof.
  induction s as [|c s IH]; [reflexivity|]. rewrite str_app_cons. cbn [trimNL].
  destruct (s +:+ String NL "") eqn:E; [destruct s; discriminate|]. by rewrite IH.
Qed.

Lemma trimNL_app p s : s <> "" -> trimNL (p +:+ s) = p +:+ trimNL s.
Proof.
  intros Hs. induction p as [|c p IH]; [done|]. rewrite !str_app_cons. cbn [trimNL].
  destruct (p +:+ s) eqn:E; [by destruct p, s|]. by rewrite IH.
Qed.

Lemma trimNL_id s : endsNL s = false -> trimNL s = s.
Proof.
  induction s as [|c s IH]; [done|]. intros H. cbn [trimNL]. destruct s as [|d s].
  - unfold endsNL in H. destruct (Ascii.eqb c NL) eqn:E; [|done]. apply Ascii.eqb_eq in E as ->. vm_compute in H. discriminate.
  - rewrite IH; [done|]. apply not_true_is_false. intros Hs. apply HasSuffix_spec in Hs as [p Hp].
    apply not_true_iff_false in H. apply H. apply HasSuffix_spec. exists (String c p). by rewrite str_app_cons, <- Hp.
Qed.

(** A line ending is nothing or a newline. *)
Definition lineEnd (eol : string) : Prop := eol = "" \/ eol = String NL "".

Lemma trimNL_eol eol s : lineEnd eol -> endsNL s = false -> trimNL (s +:+ eol) = s.
Proof. intros [-> | ->] H; [rewrite str_app_nil_r; by apply trimNL_id | apply trimNL_nl]. Qed.

Lemma endsNL_app s t : t <> "" -> endsNL t = false -> endsNL (s +:+ t) = false.
Proof.
  intros Ht H. apply not_true_is_false. intros Hs. apply not_true_iff_false in H. apply H. unfold endsNL in *.
  apply HasSuffix_spec in Hs as [p Hp].
  destruct (HasSuffix_common (s +:+ t) t (String NL "")) as [E|E]; [apply HasSuffix_spec; eauto..|done|].
  destruct t as [|a [|b t]]; [done| |].
  - apply HasSuffix_spec in E as [q Hq]. destruct q as [|? q]; [|destruct q; discriminate]. cbn in Hq. rewrite Hq. apply HasSuffix_refl.
  - apply HasSuffix_spec in E as [q Hq]. exfalso. apply (f_equal String.length) in Hq. rewrite str_len_app in Hq. cbn in Hq. lia.
Qed.

Lemma parseCommand_line c : goodCommand c -> parseCommand (commandLine c) = inr (Some c).
Proof.
  intros [Ho Hn Hr Hnul Hend]. unfold parseCommand, commandLine.
  assert (HasPrefix (Old c +:+ String " " (New c +:+ String " " (Ref c))) "shallow " = false) as ->.
  { apply not_true_is_false. intros Hp. apply HasPrefix_spec in Hp as [r Hp].
    pose proof (isHex_no_byte (Old c) "s" Ho eq_refl) as Hs.
    destruct (Old c) as [|x o]; [done|]. rewrite str_app_cons in Hp. cbn in Hp.
    injection Hp as -> _. cbn in Hs. done. }
  rewrite cutByte_app by (by eapply isHex_no_byte). rewrite cutByte_app by (by eapply isHex_no_byte).
  rewrite Ho, Hn. destruct (String.eqb_spec (Ref c) ""); [done|]. cbn. by destruct c.
Qed.

Lemma hexVal_hexDigit d : 0 <= d < 16 -> hexVal (hexDigit d) = Some d.
Proof.
  intros Hd. assert (H : Forall (fun n => hexVal (hexDigit (Z.of_nat n)) = Some (Z.of_nat n)) (seq 0 16)) by (repeat constructor).
  rewrite Forall_forall in H. rewrite <- (Z2Nat.id d) by lia. apply H. apply elem_of_seq. lia.
Qed.

Lemma parseHex_hex4 n : 0 <= n < 65536 -> parseHex 0 (hex4 n) = Some n.
Proof.
  intros Hn. unfold hex4. cbn [parseHex]. rewrite !hexVal_hexDigit by (apply Z.mod_pos_bound; lia). f_equal. Z.to_euclidean_division_equations. lia.
Qed.

Definition pktFits (s : string) : Prop := Z.of_nat (String.length s) + 4 <= 65520.

Lemma pktLen_pkt s rest : pktFits s -> pktLen (pkt s ++ rest) = inr (Z.of_nat (String.length s) + 4).
Proof.
  intros Hs. unfold pktLen. assert (blen (pkt s ++ rest) <? 4 = false) as ->.
  { apply Z.ltb_ge. unfold blen, pkt. rewrite !length_app. cbn [hex4 length]. lia. }
  assert (take 4 (pkt s ++ rest) = hex4 (Z.of_nat (String.length s) + 4)) as -> by reflexivity.
  unfold pktFits in Hs. by rewrite parseHex_hex4 by lia.
Qed.

Lemma pkt_length s : length (pkt s) = (String.length s + 4)%nat.
Proof. unfold pkt. rewrite length_app, bytes_length. cbn. lia. Qed.

(** One turn of the loop on a well-formed pkt. *)
Lemma commandLoop_pkt fuel read cmds caps s rest :
  pktFits s -> s <> "" -> read + (Z.of_nat (String.length s) + 4) <= maxCommandSection ->
  commandLoop (S fuel) read cmds caps (pkt s ++ rest) =
  (let '(line, caps) := cutCaps cmds caps s in
   oc <-? parseCommand (trimNL line);
   commandLoop fuel (read + (Z.of_nat (String.length s) + 4)) (match oc with Some c => cmds ++ [c] | None => cmds end) caps rest).
Proof.
  intros Hs Hne Hr. cbn [commandLoop]. rewrite pktLen_pkt by done. cbn [gbind].
  assert (Hpos : (0 < String.length s)%nat) by (destruct s; [done | cbn; lia]).
  set (n := Z.of_nat (String.length s) + 4) in *.
  assert (n =? 0 = false) as -> by (apply Z.eqb_neq; lia).
  assert ((n <? 5) || (blen (pkt s ++ rest) <? n) = false) as ->.
  { apply orb_false_iff. split; apply Z.ltb_ge; [lia|]. unfold blen. rewrite length_app, pkt_length. lia. }
  assert (maxCommandSection <? read + n = false) as -> by (apply Z.ltb_ge; lia).
  assert (Z.to_nat n = length (pkt s)) as Hn by (rewrite pkt_length; lia).
  assert (drop (Z.to_nat n) (pkt s ++ rest) = rest) as -> by (rewrite Hn; apply drop_app_length).
  assert (str (take (Z.to_nat n - 4) (drop 4 (pkt s ++ rest))) = s) as ->; [|done].
  change (drop 4 (pkt s ++ rest)) with (bytes s ++ rest).
  rewrite take_app_length' by (rewrite bytes_length; lia). apply String.string_of_list_ascii_of_string.
Qed.

Lemma commandLoop_flush fuel read cmds caps rest :
  commandLoop (S fuel) read cmds caps (flushPkt ++ rest) = inr (cmds, caps, rest).
Proof.
  cbn [commandLoop]. assert (pktLen (flushPkt ++ rest) = inr 0) as ->; [|reflexivity].
  unfold pktLen. assert (blen (flushPkt ++ rest) <? 4 = false) as ->; [|reflexivity].
  apply Z.ltb_ge. unfold blen. rewrite length_app. cbn. lia.
Qed.

Lemma commandLine_ne c s : commandLine c +:+ s <> "".
Proof. unfold commandLine. destruct (Old c); discriminate. Qed.

Lemma commandLine_end c : goodCommand c -> endsNL (commandLine c) = false.
Proof.
  intros [_ _ Hr _ He]. unfold commandLine.
  change (String " " (New c +:+ String " " (Ref c))) with (" " +:+ (New c +:+ (" " +:+ Ref c))).
  rewrite !str_app_assoc. by apply endsNL_app.
Qed.

Lemma lineBytes_nonneg l : 0 <= lineBytes l.
Proof. induction l as [|s l IH]; [done|]. unfold lineBytes in *. cbn [foldr]. lia. Qed.

Section CommandSection.
Context (eol : string) (Heol : lineEnd eol) (rest : Bytes).

(** After the first command the capabilities are settled. *)
Lemma read_commands cs : Forall goodCommand cs -> Forall (fun d => pktFits (commandLine d +:+ eol)) cs ->
  forall fuel read cmds caps, (length cs < fuel)%nat -> cmds <> [] ->
  read + lineBytes (map (fun d => commandLine d +:+ eol) cs) <= maxCommandSection ->
  commandLoop fuel read cmds caps (concat (map pkt (map (fun d => commandLine d +:+ eol) cs)) ++ flushPkt ++ rest)
  = inr (cmds ++ cs, caps, rest).
Proof.
  induction cs as [|c cs IH]; intros Hg Hfit fuel read cmds caps Hf Hne Hb.
  - destruct fuel as [|fuel]; [cbn in Hf; lia|]. cbn [map concat app]. rewrite commandLoop_flush. by rewrite app_nil_r.
  - apply Forall_cons in Hg as [Hc Hg]. apply Forall_cons in Hfit as [Hfc Hfit]. destruct fuel as [|fuel]; [cbn in Hf; lia|].
    cbn [map concat lineBytes foldr] in Hb |- *. rewrite <- app_assoc.
    assert (0 <= lineBytes (map (fun d => commandLine d +:+ eol) cs)) by apply lineBytes_nonneg.
    rewrite commandLoop_pkt; [|done|apply commandLine_ne|unfold lineBytes in *; lia].
    assert (cutCaps cmds caps (commandLine c +:+ eol) = (commandLine c +:+ eol, caps)) as ->.
    { unfold cutCaps. destruct cmds; [done|]. by rewrite andb_false_r. }
    rewrite trimNL_eol by (done || by apply commandLine_end). rewrite parseCommand_line by done. cbn [gbind].
    rewrite IH; [by rewrite <- app_assoc | done | done | cbn in Hf; lia | by destruct cmds | unfold lineBytes in *; lia].
Qed.

Lemma cutByte_shallow oid : str_has NUL oid = false -> str_has NUL ("shallow " +:+ oid +:+ eol) = false.
Proof. intros H. rewrite !str_has_app, H. by destruct Heol as [-> | ->]. Qed.

Lemma read_first fuel read caps c cs : goodCommand c -> Forall goodCommand cs -> endsNL caps = false ->
  Forall pktFits (sectionLines eol [] c cs caps) -> (S (length cs) < fuel)%nat ->
  read + lineBytes (sectionLines eol [] c cs caps) <= maxCommandSection ->
  commandLoop fuel read [] "" (encodeLines (sectionLines eol [] c cs caps) ++ rest) = inr (c :: cs, caps, rest).
Proof.
  intros Hc Hcs Hcaps Hfit Hf Hb. destruct fuel as [|fuel]; [lia|]. unfold encodeLines, sectionLines in *. cbn [map app concat] in *.
  apply Forall_cons in Hfit as [Hf0 Hfit]. cbn [lineBytes foldr] in Hb.
  assert (0 <= lineBytes (map (fun d => commandLine d +:+ eol) cs)) by apply lineBytes_nonneg.
  rewrite <- !app_assoc. rewrite commandLoop_pkt; [|done|apply commandLine_ne|unfold lineBytes in *; lia].
  assert (Hnul : str_has NUL (commandLine c) = false).
  { destruct Hc as [Ho Hn _ Hnul _]. unfold commandLine. rewrite str_has_app, str_has_cons, str_has_app, str_has_cons.
    by rewrite (isHex_no_byte _ NUL Ho eq_refl), (isHex_no_byte _ NUL Hn eq_refl), Hnul. }
  unfold cutCaps. rewrite cutByte_app by done. change (String.eqb "" "" && true) with true.
  rewrite trimNL_eol by done. cbv beta iota. rewrite trimNL_id by (by apply commandLine_end). rewrite parseCommand_line by done. cbn [gbind app].
  rewrite read_commands; [done | done | exact (proj1 (List.Forall_map _ _ _) Hfit) | lia | done | unfold lineBytes in *; lia].
Qed.

Lemma read_shallow fuel read caps shallow c cs : goodCommand c -> Forall goodCommand cs -> endsNL caps = false ->
  Forall (fun oid => str_has NUL oid = false) shallow ->
  Forall pktFits (sectionLines eol shallow c cs caps) -> (length shallow + S (length cs) < fuel)%nat ->
  read + lineBytes (sectionLines eol shallow c cs caps) <= maxCommandSection ->
  commandLoop fuel read [] "" (encodeLines (sectionLines eol shallow c cs caps) ++ rest) = inr (c :: cs, caps, rest).
Proof.
  revert fuel read. induction shallow as [|oid shallow IH]; intros fuel read Hc Hcs Hcaps Hsh Hfit Hf Hb.
  - by apply read_first.
  - apply Forall_cons in Hsh as [Ho Hsh]. destruct fuel as [|fuel]; [lia|].
    change (sectionLines eol (oid :: shallow) c cs caps) with
      (("shallow " +:+ oid +:+ eol) :: sectionLines eol shallow c cs caps) in *.
    apply Forall_cons in Hfit as [Hf0 Hfit]. cbn [lineBytes foldr] in Hb. fold (lineBytes (sectionLines eol shallow c cs caps)) in Hb.
    assert (0 <= lineBytes (sectionLines eol shallow c cs caps)) by apply lineBytes_nonneg.
    unfold encodeLines. cbn [map concat]. rewrite <- !app_assoc. rewrite commandLoop_pkt; [|done|discriminate|lia].
    unfold cutCaps. rewrite cutByte_none by (by apply cutByte_shallow). change (String.eqb "" "" && true) with true. cbv beta iota.
    assert (parseCommand (trimNL ("shallow " +:+ oid +:+ eol)) = inr None) as ->.
    { unfold parseCommand. assert (HasPrefix (trimNL ("shallow " +:+ oid +:+ eol)) "shallow " = true) as ->; [|done].
      destruct Heol as [-> | ->].
      - rewrite str_app_nil_r. destruct (decide (oid = "")) as [->|Hne]; [done|].
        rewrite trimNL_app by done. apply HasPrefix_spec. eauto.
      - rewrite str_app_assoc, trimNL_nl. apply HasPrefix_spec. eauto. }
    cbn [gbind]. rewrite app_assoc. apply IH; try done; cbn in Hf; lia.
Qed.
End CommandSection.

(** A command section written as git writes it (optional shallow lines, then
    the ref updates, capabilities on the first, with or without line ends) is
    read back as exactly those updates, capabilities and remaining bytes. *)
Theorem command_section_roundtrip eol shallow c cs caps rest
  (Heol : lineEnd eol) (Hsh : Forall (fun oid => str_has NUL oid = false) shallow)
  (Hcs : Forall goodCommand (c :: cs)) (Hcaps : endsNL caps = false)
  (Hfit : Forall pktFits (sectionLines eol shallow c cs caps))
  (Hsize : lineBytes (sectionLines eol shallow c cs caps) <= maxCommandSection) :
  readCommandSection (encodeLines (sectionLines eol shallow c cs caps) ++ rest) = inr (c :: cs, caps, rest).
Proof.
  apply Forall_cons in Hcs as [Hc Hcs]. apply read_shallow; try done.
  assert (H : forall l, (length l <= length (encodeLines l))%nat).
  { intros l. unfold encodeLines. rewrite length_app. cut (length l <= length (concat (map pkt l)))%nat; [cbn; lia|].
    induction l as [|s l IH]; cbn [map concat length]; [lia|]. rewrite length_app, pkt_length. lia. }
  specialize (H (sectionLines eol shallow c cs caps)). rewrite length_app.
  unfold sectionLines in H at 1. rewrite length_app in H. cbn [length] in H. rewrite !length_map in H. lia.
Qed.

Definition sampleCommand : Command :=
  mkCommand "0000000000000000000000000000000000000000" "8f14e45fceea167a5a36dedd4bea2543" "refs/heads/main".
Lemma sampleCommand_good : goodCommand sampleCommand.
Proof. by constructor. Qed.

Lemma command_section_roundtrip_witness :
  readCommandSection (encodeLines (sectionLines (String NL "") ["8f14e45f"] sampleCommand [sampleCommand] " report-status object-format=sha1")
    ++ bytes "PACK") = inr ([sampleCommand; sampleCommand], " report-status object-format=sha1", bytes "PACK").
Proof.
  apply command_section_roundtrip.
  - by right.
  - by repeat constructor.
  - repeat constructor; apply sampleCommand_good.
  - reflexivity.
  - repeat constructor; unfold pktFits; vm_compute; discriminate.
  - vm_compute; discriminate.
Defined.

(** ** A delta replays what was encoded *)

Lemma lor_split k v : 0 <= k -> Z.lor (v mod 2 ^ k) (Z.shiftl (v / 2 ^ k) k) = v.
Proof.
  intros Hk. rewrite <- Z.land_ones, <- Z.shiftr_div_pow2 by done. apply Z.bits_inj'. intros j Hj.
  rewrite Z.lor_spec, Z.land_spec.
  destruct (Z.lt_ge_cases j k).
  - rewrite Z.ones_spec_low, Z.shiftl_spec_low by lia. by rewrite andb_true_r, orb_false_r.
  - rewrite Z.ones_spec_high, Z.shiftl_spec_high, Z.shiftr_spec by lia.
    rewrite andb_false_r, orb_false_l. f_equal. lia.
Qed.

(** The lowest [k] bits, then the rest, shifted into an accumulator. *)
Lemma lor_step x v s k : 0 <= s -> 0 <= k ->
  Z.lor (Z.lor x (Z.shiftl (v mod 2 ^ k) s)) (Z.shiftl (v / 2 ^ k) (s + k)) = Z.lor x (Z.shiftl v s).
Proof.
  intros Hs Hk. rewrite <- (lor_split k v Hk) at 3. rewrite Z.shiftl_lor, Z.shiftl_shiftl by done.
  by rewrite <- Z.lor_assoc, (Z.add_comm k s).
Qed.

Lemma byte_of_chr z : 0 <= z < 256 -> byte_of (chr z) = z.
Proof. intros Hz. unfold byte_of, chr. rewrite N_ascii_embedding by lia. lia. Qed.

Fixpoint putUvarint (n : nat) (v : Z) : Bytes :=
  match n with
  | O => []
  | S n => if v <? 128 then [chr v] else chr (v mod 128 + 128) :: putUvarint n (v / 128)
  end.

Lemma uvarint_put n m x s v r : (0 < m)%nat -> (0 < n)%nat -> 0 <= s -> 0 <= v < 2 ^ (7 * Z.of_nat n) ->
  uvarint (n + m) x s (putUvarint n v ++ r) = Some (Z.lor x (Z.shiftl v s), r).
Proof.
  intros Hm. revert x s v. induction n as [|n IH]; intros x s v Hn Hs Hv; [lia|]. cbn [putUvarint Nat.add uvarint].
  destruct (Z.ltb_spec v 128) as [Hlt|Hge].
  - cbn [app]. rewrite byte_of_chr by lia. assert (v <? 128 = true) as -> by (apply Z.ltb_lt; lia).
    assert (Nat.eqb (n + m) 0 = false) as -> by (apply Nat.eqb_neq; lia). done.
  - cbn [app]. pose proof (Z.mod_pos_bound v 128). rewrite byte_of_chr by lia.
    assert (v mod 128 + 128 <? 128 = false) as -> by (apply Z.ltb_ge; lia).
    replace (Z.land (v mod 128 + 128) 127) with (v mod 2 ^ 7).
    2: { change 127 with (Z.ones 7). rewrite Z.land_ones by lia. change (2 ^ 7) with 128. Z.to_euclidean_division_equations. lia. }
    rewrite IH; [by rewrite lor_step by lia| | lia |].
    + destruct n; [|lia]. change (2 ^ (7 * Z.of_nat 1)) with 128 in Hv. lia.
    + split; [apply Z.div_pos; lia|]. apply Z.div_lt_upper_bound; [lia|].
      replace (7 * Z.of_nat (S n)) with (7 + 7 * Z.of_nat n) in Hv by lia. rewrite Z.pow_add_r in Hv by lia. lia.
Qed.

Lemma ReadUvarint_put v r : 0 <= v < 2 ^ 63 -> ReadUvarint (putUvarint 9 v ++ r) = Some (v, r).
Proof. intros Hv. unfold ReadUvarint. rewrite (uvarint_put 9 1) by (done || lia). by rewrite Z.shiftl_0_r. Qed.

Inductive instr := Copy (off size : Z) | Insert (chunk : Bytes).

Definition instrOut (base : Bytes) (i : instr) : Bytes :=
  match i with Copy off size => take (Z.to_nat size) (drop (Z.to_nat off) base) | Insert chunk => chunk end.

Definition wfInstr (base : Bytes) (i : instr) : Prop :=
  match i with
  | Copy off size => 0 <= off < 2 ^ 32 /\ 1 <= size < 2 ^ 24 /\ off + size <= blen base
  | Insert chunk => 1 <= blen chunk <= 127
  end.

(** Byte [i] of a number, and the nonzero ones in order: git leaves the others
    out and clears their opcode bits. *)
Definition byteAt (v : Z) (i : Z) : Z := v / 2 ^ (8 * i) mod 256.
Fixpoint present (n : nat) (v : Z) : Bytes :=
  match n with
  | O => []
  | S n => (if v mod 256 =? 0 then [] else [chr (v mod 256)]) ++ present n (v / 256)
  end.
Definition opBit (v i bit : Z) : Z := if byteAt v i =? 0 then 0 else bit.
Definition copyOp (off size : Z) : Z :=
  128 + opBit off 0 1 + opBit off 1 2 + opBit off 2 4 + opBit off 3 8 + opBit size 0 16 + opBit size 1 32 + opBit size 2 64.

Definition encodeInstr (i : instr) : Bytes :=
  match i with
  | Copy off size => chr (copyOp off size) :: present 4 off ++ present 3 size
  | Insert chunk => chr (blen chunk) :: chunk
  end.

Definition encodeDelta (base : Bytes) (l : list instr) : Bytes :=
  putUvarint 9 (blen base) ++ putUvarint 9 (blen (concat (map (instrOut base) l))) ++ concat (map encodeInstr l).

(** The opcode's bits say which bytes follow. *)
Fixpoint agrees (n : nat) (op bit v : Z) : Prop :=
  match n with
  | O => True
  | S n => (Z.land op bit =? 0) = (v mod 256 =? 0) /\ agrees n op (Z.shiftl bit 1) (v / 256)
  end.

Lemma operand_present n op bit i acc v r : 0 <= i -> 0 <= v < 2 ^ (8 * Z.of_nat n) -> agrees n op bit v ->
  operand n op bit i acc (present n v ++ r) = Some (Z.lor acc (Z.shiftl v (8 * i)), r).
Proof.
  revert bit i acc v. induction n as [|n IH]; intros bit i acc v Hi Hv Ha.
  - change (2 ^ (8 * Z.of_nat 0)) with 1 in Hv. assert (v = 0) as -> by lia. cbn. by rewrite Z.shiftl_0_l, Z.lor_0_r.
  - destruct Ha as [H0 Ha]. cbn [operand present]. rewrite H0.
    assert (Hd : 0 <= v / 256 < 2 ^ (8 * Z.of_nat n)).
    { split; [apply Z.div_pos; lia|]. apply Z.div_lt_upper_bound; [lia|].
      replace (8 * Z.of_nat (S n)) with (8 + 8 * Z.of_nat n) in Hv by lia. rewrite Z.pow_add_r in Hv by lia. lia. }
    pose proof (lor_step acc v (8 * i) 8) as Hstep. change (2 ^ 8) with 256 in Hstep.
    replace (8 * i + 8) with (8 * (i + 1)) in Hstep by lia.
    destruct (Z.eqb_spec (v mod 256) 0) as [E|E].
    + cbn [app]. rewrite IH by (done || lia). rewrite <- Hstep by lia. by rewrite E, Z.shiftl_0_l, Z.lor_0_r.
    + cbn [app]. rewrite byte_of_chr by (pose proof (Z.mod_pos_bound v 256); lia). rewrite IH by (done || lia).
      by rewrite Hstep by lia.
Qed.

Lemma opcode_bits (b0 b1 b2 b3 b4 b5 b6 : bool) :
  let bit (b : bool) (v : Z) := if b then 0 else v in
  let op := 128 + bit b0 1 + bit b1 2 + bit b2 4 + bit b3 8 + bit b4 16 + bit b5 32 + bit b6 64 in
  (0 <= op < 256 /\ Z.land op 128 =? 0 = false) /\
  ((Z.land op 1 =? 0) = b0 /\ (Z.land op 2 =? 0) = b1 /\ (Z.land op 4 =? 0) = b2 /\ (Z.land op 8 =? 0) = b3) /\
  ((Z.land op 16 =? 0) = b4 /\ (Z.land op 32 =? 0) = b5 /\ (Z.land op 64 =? 0) = b6).
Proof. destruct b0, b1, b2, b3, b4, b5, b6; vm_compute; split_and!; congruence. Qed.

Lemma byteAt_0 v : byteAt v 0 = v mod 256.
Proof. unfold byteAt. by rewrite Z.div_1_r. Qed.
Lemma byteAt_1 v : byteAt v 1 = v / 256 mod 256.
Proof. reflexivity. Qed.
Lemma byteAt_2 v : byteAt v 2 = v / 256 / 256 mod 256.
Proof. unfold byteAt. by rewrite Z.div_div by lia. Qed.
Lemma byteAt_3 v : byteAt v 3 = v / 256 / 256 / 256 mod 256.
Proof. unfold byteAt. by rewrite !Z.div_div by lia. Qed.

Lemma copyOp_agrees off size :
  (0 <= copyOp off size < 256 /\ Z.land (copyOp off size) 128 =? 0 = false)
  /\ agrees 4 (copyOp off size) 1 off /\ agrees 3 (copyOp off size) 16 size.
Proof.
  pose proof (opcode_bits (byteAt off 0 =? 0) (byteAt off 1 =? 0) (byteAt off 2 =? 0) (byteAt off 3 =? 0)
                (byteAt size 0 =? 0) (byteAt size 1 =? 0) (byteAt size 2 =? 0)) as H.
  cbv zeta in H. unfold copyOp, opBit.
  set (op := 128 + _ + _ + _ + _ + _ + _ + _) in *.
  destruct H as (Hop & (H0 & H1 & H2 & H3) & H4 & H5 & H6). split; [done|].
  rewrite byteAt_0 in H0, H4. rewrite byteAt_1 in H1, H5. rewrite byteAt_2 in H2, H6. rewrite byteAt_3 in H3.
  cbn [agrees]. change (Z.shiftl (Z.shiftl (Z.shiftl 1 1) 1) 1) with 8. change (Z.shiftl (Z.shiftl 1 1) 1) with 4.
  change (Z.shiftl 1 1) with 2. change (Z.shiftl (Z.shiftl 16 1) 1) with 64. change (Z.shiftl 16 1) with 32. done.
Qed.

Lemma copy_instruction base off size out r : wfInstr base (Copy off size) ->
  copyFromBase (present 4 off ++ present 3 size ++ r) (copyOp off size) base out = inr (out ++ instrOut base (Copy off size), r).
Proof.
  intros (Hoff & Hsize & Hin). destruct (copyOp_agrees off size) as (_ & Ha & Hb). unfold copyFromBase.
  rewrite operand_present by (done || lia). rewrite operand_present by (done || lia).
  rewrite !Z.shiftl_0_r, !Z.lor_0_l. assert (size =? 0 = false) as -> by (apply Z.eqb_neq; lia).
  rewrite Z.mod_small by lia.
  assert ((off + size <? off) || (off + size >? blen base) = false) as ->; [|done].
  apply orb_false_iff. split; [apply Z.ltb_ge; lia|]. rewrite Z.gtb_ltb. apply Z.ltb_ge. lia.
Qed.

Lemma one_instruction base i out r : wfInstr base i ->
  exists c e, encodeInstr i = c :: e /\ instruction (e ++ r) (byte_of c) base out = inr (out ++ instrOut base i, r).
Proof.
  intros Hi. destruct i as [off size|chunk]; cbn [encodeInstr]; eexists _, _; (split; [reflexivity|]); unfold instruction.
  - destruct (copyOp_agrees off size) as ((Hr & Hbit) & _ & _). rewrite byte_of_chr by done. rewrite Hbit. cbn [negb].
    rewrite <- app_assoc. by apply copy_instruction.
  - cbn [wfInstr] in Hi. rewrite byte_of_chr by lia.
    assert (Z.land (blen chunk) 128 =? 0 = true) as ->.
    { assert (H : Forall (fun n => Z.land (Z.of_nat n) 128 =? 0 = true) (seq 0 128)) by (vm_compute; repeat constructor).
      rewrite Forall_forall in H. unfold blen. apply H. apply elem_of_seq. unfold blen in Hi. lia. }
    assert (blen chunk =? 0 = false) as -> by (apply Z.eqb_neq; lia). cbn [negb].
    assert (blen (chunk ++ r) <? blen chunk = false) as ->.
    { apply Z.ltb_ge. unfold blen. rewrite length_app. lia. }
    assert (Z.to_nat (blen chunk) = length chunk) as -> by (unfold blen; lia).
    by rewrite take_app_length, drop_app_length.
Qed.

Lemma deltaLoop_replays base want l : Forall (wfInstr base) l ->
  forall fuel out, (length (concat (map encodeInstr l)) <= fuel)%nat ->
  blen (out ++ concat (map (instrOut base) l)) <= want ->
  deltaLoop fuel base want out (concat (map encodeInstr l)) = inr (out ++ concat (map (instrOut base) l)).
Proof.
  induction l as [|i l IH]; intros Hwf fuel out Hf Hw; cbn [map concat] in *.
  - destruct fuel; cbn [deltaLoop]; by rewrite app_nil_r.
  - apply Forall_cons in Hwf as [Hi Hwf].
    destruct (one_instruction base i out (concat (map encodeInstr l)) Hi) as (c & e & He & Hr).
    rewrite He in *. cbn [app length] in *. destruct fuel as [|fuel]; [lia|]. rewrite deltaLoop_eq, Hr. cbn [gbind].
    rewrite app_assoc in Hw |- *.
    assert (blen (out ++ instrOut base i) >? want = false) as ->.
    { rewrite Z.gtb_ltb. apply Z.ltb_ge. unfold blen in *. rewrite length_app in Hw. lia. }
    apply IH; [done| |done]. rewrite length_app in Hf. lia.
Qed.

(** A delta encoded from copy and insert instructions, with the operand bytes
    that are zero left out as git does, replays to exactly what the instructions
    mean, for any base and any result within the size ceiling. *)
Theorem delta_roundtrip base l
  (Hwf : Forall (wfInstr base) l) (Hbase : blen base < 2 ^ 63)
  (Hsize : blen (concat (map (instrOut base) l)) <= maxObjectBytes) :
  applyDelta base (encodeDelta base l) = inr (concat (map (instrOut base) l)).
Proof.
  unfold applyDelta, encodeDelta. assert (Hmax : maxObjectBytes < 2 ^ 63) by done.
  set (out := concat (map (instrOut base) l)) in *.
  assert (0 <= blen base /\ 0 <= blen out) as [? ?] by (unfold blen; lia).
  rewrite ReadUvarint_put by lia. rewrite Z.eqb_refl. cbn [negb]. rewrite ReadUvarint_put by lia.
  assert (blen out >? maxObjectBytes = false) as -> by (rewrite Z.gtb_ltb; apply Z.ltb_ge; lia).
  rewrite (deltaLoop_replays base (blen out) l Hwf) by (done || (cbn [app]; fold out; lia)).
  cbn [gbind app]. fold out. by rewrite Z.eqb_refl.
Qed.

Lemma delta_roundtrip_witness :
  applyDelta (bytes "hello world") (encodeDelta (bytes "hello world") [Copy 6 5; Insert (bytes ", "); Copy 0 5])
  = inr (bytes "world, hello").
Proof.
  change (bytes "world, hello") with (concat (map (instrOut (bytes "hello world")) [Copy 6 5; Insert (bytes ", "); Copy 0 5])).
  apply delta_roundtrip; [|vm_compute; reflexivity|vm_compute; discriminate].
  repeat constructor; vm_compute; congruence.
Defined.

(** ** Bounds *)

Lemma deltaLoop_bytes fuel base want out r out' :
  deltaLoop fuel base want out r = inr out' -> forall c, c ∈ out' -> c ∈ out \/ c ∈ base \/ c ∈ r.
Proof.
  revert out r. induction fuel as [|fuel IH]; intros out [|x r]; cbn [deltaLoop]; try (intros [= <-]; tauto).
  intros H c Hc. apply gbind_inr in H as ([out1 r1] & Hi & H). destruct (_ >? _); [discriminate|].
  destruct (instruction_inv _ _ _ _ _ _ Hi) as ((chunk & -> & Hch) & k & ->).
  destruct (IH _ _ H c Hc) as [Ho|[?|Hr]]; [|tauto|].
  - apply elem_of_app in Ho as [?|Ho]; [tauto|]. destruct (Hch c Ho); [tauto|]. right; right. by right.
  - right; right; right. by eapply in_drop.
Qed.

Lemma uvarint_nonneg n x s r v r' : 0 <= x -> uvarint n x s r = Some (v, r') -> 0 <= v.
Proof.
  revert x s r. induction n as [|n IH]; intros x s [|c r] Hx; cbn [uvarint]; try discriminate.
  assert (0 <= byte_of c) by (unfold byte_of; lia).
  destruct (byte_of c <? 128).
  - destruct (_ && _); [discriminate|]. intros [= <- <-]. apply Z.lor_nonneg. split; [done|]. by apply Z.shiftl_nonneg.
  - apply IH. apply Z.lor_nonneg. split; [done|]. apply Z.shiftl_nonneg. apply Z.land_nonneg. by left.
Qed.

Lemma applyDelta_bound base delta out : applyDelta base delta = inr out -> blen out <= maxObjectBytes.
Proof.
  unfold applyDelta. destruct (ReadUvarint delta) as [[bs r]|]; [|discriminate]. destruct (negb _); [discriminate|].
  destruct (ReadUvarint r) as [[want r']|]; [|discriminate]. destruct (want >? _) eqn:Hw; [discriminate|].
  intros H. apply gbind_inr in H as (o & _ & H). destruct (negb _) eqn:E; [discriminate|]. injection H as <-.
  bool_prop. lia.
Qed.

Lemma headerLoop_bound fuel b size shift n r sz r' :
  0 <= size <= maxObjectBytes -> headerLoop fuel b size shift n r = inr (sz, r') -> 0 <= sz <= maxObjectBytes.
Proof.
  revert b size shift n r. induction fuel as [|fuel IH]; intros b size shift n r Hs; cbn [headerLoop];
    (destruct (Z.land b 128 =? 0); [intros [= <- <-]; done|]); [discriminate|].
  destruct (_ >=? _); [discriminate|]. destruct r as [|c r]; [discriminate|].
  destruct (_ || _) eqn:E; [discriminate|]. apply IH. bool_prop. lia.
Qed.

Lemma header_bound r typ size r' : header r = inr (typ, size, r') -> 0 <= size <= maxObjectBytes.
Proof.
  unfold header. destruct r as [|c r]; [discriminate|]. intros H. apply gbind_inr in H as ([sz r1] & Hl & H).
  injection H as <- <- <-. eapply headerLoop_bound; [|exact Hl]. split; [apply Z.land_nonneg; by right|].
  change 15 with (Z.ones 4). rewrite Z.land_ones by lia. pose proof (Z.mod_pos_bound (byte_of c) (2 ^ 4)).
  unfold maxObjectBytes. change (Z.shiftl 32 20) with 33554432. lia.
Qed.
