(* ===== verification/GitTree.v ===== *)
(** * Trees, commits and the change set of a push

    [internal/gitpack/tree.go]: the objects of a parsed pack ([index]) are read as
    trees, commits and tags, and the walk over every commit the pack carries
    gives the paths the push introduces.

    The walker's state is a record with the code's fields; the maps keyed by text
    ([walked], [diffed]) keep the code's keys, the path prefix and the object ids
    joined by NUL bytes. [walk], [walkEntries] and [diff] recurse on the levels
    left beneath [maxTreeDepth]: [depth] in the code is [maxTreeDepth + 1] less the
    levels, so no level left is exactly [depth > maxTreeDepth], where the code
    returns [ErrTooDeep]. *)
From S2P Require Import Prelude GoStrings GoPath PolicyTypes GoSlices PushRules PushForge GitWire.
Local Open Scope string_scope.
Local Open Scope Z_scope.
Local Open Scope wardyn_scope.
Local Open Scope list_scope.

(** ** The parsed pack *)

Inductive objectType := objCommit | objTree | objBlob | objTag.
#[export] Instance objectType_eq_dec : EqDecision objectType.
Proof. solve_decision. Defined.

Definition label (t : objectType) : string :=
  match t with objCommit => "commit" | objTree => "tree" | objBlob => "blob" | objTag => "tag" end.

Record object := mkObject { typ : objectType; osize : Z; data : Bytes }.
Record index := mkIndex { format : hashFormat; byOID : gmap string object }.

Definition blobSize (i : index) (oid : string) : Z :=
  match byOID i !! oid with
  | Some o => if bool_decide (typ o = objBlob) then osize o else -1
  | None => -1
  end.

(** ** Trees *)

Definition maxChanges : Z := 200000.
Definition maxTreeDepth : nat := 64.
Definition maxTreeNodes : Z := 1000000.
Definition maxEntryNameBytes : Z := 4096.
Definition maxPathBytes : Z := Z.shiftl 64 20.
Definition ModeAbsent : string := "0".
Definition modeTree : Z := 16384.

Record treeEntry := mkEntry { mode : string; name : string; oid : string }.

Definition isTree (e : treeEntry) : bool :=
  match ParseUint8 (mode e) with Some m => Z.land m modeFormat =? modeTree | None => false end.

(** [bytes.IndexByte], as the bytes before and after. *)
Fixpoint cutB (c : ascii) (b : Bytes) : option (Bytes * Bytes) :=
  match b with
  | [] => None
  | x :: b' =>
      if Ascii.eqb x c then Some ([], b')
      else match cutB c b' with Some (u, v) => Some (x :: u, v) | None => None end
  end.

Definition checkEntry (mode name : string) : option gitErr :=
  if match ParseUint8 mode with None => true | Some _ => false end || (6 <? Z.of_nat (String.length mode))
  then Some (Malformed "tree entry has a bad mode")
  else if maxEntryNameBytes <? Z.of_nat (String.length name) then Some (TooLarge "a tree entry name is too long")
  else if String.eqb name "" || String.eqb name "." || String.eqb name ".." || str_has "/" name
  then Some (Malformed "tree entry names a bad path component")
  else None.

(** The count made before anything is kept; a malformed tail ends it. *)
Fixpoint countEntries (fuel : nat) (hashLen : nat) (rest : Bytes) : Z :=
  match fuel, rest with
  | S fuel, _ :: _ =>
      match cutB NUL rest with
      | Some (_, after) => if (length after <? hashLen)%nat then 0 else 1 + countEntries fuel hashLen (drop hashLen after)
      | None => 0
      end
  | _, _ => 0
  end.

Fixpoint parseEntries (fuel : nat) (hashLen : nat) (d : Bytes) : gres (list treeEntry) :=
  match d with
  | [] => inr []
  | _ =>
      match fuel with
      | O => inl OutOfFuel
      | S fuel =>
          match cutB " " d with
          | None | Some ([], _) => inl (Malformed "tree entry has no mode")
          | Some (m, rest) =>
              match cutB NUL rest with
              | None => inl (Malformed "tree entry has no name terminator")
              | Some (n, rest) =>
                  if (length rest <? hashLen)%nat then inl (Malformed "tree entry is truncated at its object id")
                  else
                    match checkEntry (str m) (str n) with
                    | Some e => inl e
                    | None =>
                        es <-? parseEntries fuel hashLen (drop hashLen rest);
                        inr (mkEntry (str m) (str n) (EncodeToString (take hashLen rest)) :: es)
                    end
              end
          end
      end
  end.

Definition parseTree (d : Bytes) (hashLen : nat) (limit : Z) : gres (list treeEntry) :=
  if countEntries (length d) hashLen d >? limit then inl (TooLarge "the push walks too many tree entries")
  else parseEntries (length d) hashLen d.

(** [None] when the pack does not carry the tree. *)
Definition tree (i : index) (oid : string) (limit : Z) : gres (option (list treeEntry)) :=
  match byOID i !! oid with
  | None => inr None
  | Some o =>
      if bool_decide (typ o = objTree)
      then es <-? parseTree (data o) (fsize (format i)) limit; inr (Some es)
      else inl (Malformed "an object is not the tree that was expected")
  end.

(** ** Commits and tags *)

Record commitInfo := mkCommit { ctree : string; parents : list string }.

(** [strings.Cut(string(data), "\n\n")], the part before. *)
Fixpoint headersOf (s : string) : string :=
  match s with
  | String c s' =>
      match s' with
      | String d _ => if Ascii.eqb c NL && Ascii.eqb d NL then "" else String c (headersOf s')
      | "" => s
      end
  | "" => ""
  end.

Definition validOID (hashLen : nat) (val : string) : bool :=
  Nat.eqb (String.length val) (hashLen * 2) && isHex val.

Fixpoint commitHeaders (hashLen : nat) (c : commitInfo) (inParentBlock : bool) (lines : list string) : gres commitInfo :=
  match lines with
  | [] => inr c
  | line :: lines =>
      match cutByte " " line with
      | None => commitHeaders hashLen c false lines
      | Some (key, val) =>
          if String.eqb key "tree" then
            if negb (String.eqb (ctree c) "") then inl (Uninspectable "the commit object carries more than one tree header")
            else if negb (validOID hashLen val) then inl (Malformed "commit header is not an object id of this format")
            else commitHeaders hashLen (mkCommit val (parents c)) inParentBlock lines
          else if String.eqb key "parent" then
            if negb inParentBlock then inl (Uninspectable "the commit object carries a parent header git would not read")
            else if negb (validOID hashLen val) then inl (Malformed "commit header is not an object id of this format")
            else commitHeaders hashLen (mkCommit (ctree c) (parents c ++ [val])) inParentBlock lines
          else commitHeaders hashLen c false lines
      end
  end.

Definition parseCommit (d : Bytes) (hashLen : nat) : gres commitInfo :=
  c <-? commitHeaders hashLen (mkCommit "" []) true (splitByte NL (headersOf (str d)));
  if String.eqb (ctree c) "" then inl (Malformed "commit object has no tree header") else inr c.

(** [strings.CutPrefix(line, "object ")] on the first line that has it. *)
Fixpoint firstObject (lines : list string) : option string :=
  match lines with
  | [] => None
  | line :: lines =>
      if HasPrefix line "object " then Some (String.substring 7 (String.length line - 7) line) else firstObject lines
  end.

(** [None] is the code's [false]. *)
Definition tagTarget (d : Bytes) (hashLen : nat) : option string :=
  match firstObject (splitByte NL (headersOf (str d))) with
  | Some val => if validOID hashLen val then Some val else None
  | None => None
  end.

Inductive peelResult := Peeled (oid : string) | PeelAbsent | PeelOther.
Definition maxPeel : nat := 8.

Fixpoint peelLoop (n : nat) (i : index) (oid : string) : peelResult :=
  match n with
  | O => PeelOther
  | S n =>
      match byOID i !! oid with
      | None => PeelAbsent
      | Some o =>
          match typ o with
          | objCommit => Peeled oid
          | objTag => match tagTarget (data o) (fsize (format i)) with Some oid => peelLoop n i oid | None => PeelOther end
          | _ => PeelOther
          end
      end
  end.

Definition peel (i : index) (oid : string) : peelResult := peelLoop maxPeel i oid.

(** The refs whose target is missing, or the refusal of the first target that is
    no commit. *)
Fixpoint uncovered (i : index) (cmds : list Command) : gres (list string) :=
  match cmds with
  | [] => inr []
  | c :: cmds =>
      if isZeroOID (New c) then uncovered i cmds
      else match peel i (New c) with
           | PeelOther => inl (Uninspectable "a ref is set to an object the pack does not carry as a commit")
           | PeelAbsent => refs <-? uncovered i cmds; inr (Ref c :: refs)
           | Peeled _ => uncovered i cmds
           end
  end.

Definition coverCommands (i : index) (cmds : list Command) : option gitErr :=
  match uncovered i cmds with
  | inl e => Some e
  | inr [] => None
  | inr refs => Some (MissingObject refs [])
  end.

(** ** The walker *)

Notation ekey := (string * string * Z * string)%type.

(** The whole entry but its [BaseMode]. *)
Definition changeKey (c : Change) : ekey := (Path c, Mode c, size c, OID c).

Record walker := mkWalker {
  seen : gmap ekey nat; walked : gset string; diffed : gset string; nodes : Z; pathBytes : Z;
  out : list Change; bases : gset string }.

Definition newWalker : walker := mkWalker ∅ ∅ ∅ 0 0 [] ∅.

Definition charge (w : walker) (n : Z) : gres walker :=
  let nodes := nodes w + n in
  if nodes >? maxTreeNodes then inl (TooLarge "the push walks too many tree entries")
  else inr (mkWalker (seen w) (walked w) (diffed w) nodes (pathBytes w) (out w) (bases w)).

Definition keep (w : walker) (n : Z) : gres walker :=
  let b := pathBytes w + n in
  if b >? maxPathBytes then inl (TooLarge "the push's paths are too long together")
  else inr (mkWalker (seen w) (walked w) (diffed w) (nodes w) b (out w) (bases w)).

Definition markWalked (w : walker) (key : string) : walker :=
  mkWalker (seen w) ({[key]} ∪ walked w) (diffed w) (nodes w) (pathBytes w) (out w) (bases w).
Definition markDiffed (w : walker) (key : string) : walker :=
  mkWalker (seen w) (walked w) ({[key]} ∪ diffed w) (nodes w) (pathBytes w) (out w) (bases w).
Definition addBase (w : walker) (p : string) : walker :=
  mkWalker (seen w) (walked w) (diffed w) (nodes w) (pathBytes w) (out w) ({[p]} ∪ bases w).

Definition newerBase (a b : string) : string :=
  if String.eqb a b then a
  else if negb (String.eqb a "") && negb (IsExecutable a) then a
  else if negb (String.eqb b "") && negb (IsExecutable b) then b
  else "".

Definition setBase (b : string) (c : Change) : Change := mkChange (Path c) (Mode c) (size c) (OID c) (newerBase (BaseMode c) b).

Definition record (w : walker) (c : Change) : gres walker :=
  match seen w !! changeKey c with
  | Some i => inr (mkWalker (seen w) (walked w) (diffed w) (nodes w) (pathBytes w) (alter (setBase (BaseMode c)) i (out w)) (bases w))
  | None =>
      if Z.of_nat (length (out w)) >=? maxChanges then inl (TooLarge "the push touches too many paths")
      else
        w <-? keep w (Z.of_nat (String.length (Path c)));
        inr (mkWalker (<[changeKey c := length (out w)]> (seen w)) (walked w) (diffed w) (nodes w) (pathBytes w) (out w ++ [c]) (bases w))
  end.

Section Walk.
Context (i : index).

Definition wtree (w : walker) (oid : string) : gres (option (list treeEntry)) := tree i oid (maxTreeNodes - nodes w).

Definition leaf (w : walker) (path : string) (e : treeEntry) (base : string) : gres walker :=
  record w (mkChange path (mode e) (blobSize i (oid e)) (oid e) base).

(** [strings.TrimSuffix(prefix, "/")]. *)
Definition trimSlash (s : string) : string :=
  if HasSuffix s "/" then String.substring 0 (String.length s - 1) s else s.

Definition uncarried (w : walker) (prefix oid : string) : gres walker :=
  record w (mkChange (trimSlash prefix) ModeUncarried (-1) oid "").

Fixpoint eachEntry (step : treeEntry -> walker -> gres walker) (entries : list treeEntry) (w : walker) : gres walker :=
  match entries with
  | [] => inr w
  | e :: entries => w <-? step e w; eachEntry step entries w
  end.

Definition walkKey (prefix oid : string) : string := prefix +:+ String NUL oid.
Definition diffKey (prefix oldOID newOID : string) : string := prefix +:+ String NUL (oldOID +:+ String NUL newOID).

(** [walk], with the walk of the entries as an argument. *)
Definition walkWith (entriesOf : string -> list treeEntry -> string -> walker -> gres walker)
    (prefix oid base : string) (w : walker) : gres walker :=
  let key := walkKey prefix oid in
  if bool_decide (key ∈ walked w) then inr w
  else
    es <-? wtree w oid;
    match es with
    | None => uncarried w prefix oid
    | Some entries =>
        w <-? keep w (Z.of_nat (String.length key));
        entriesOf prefix entries base (markWalked w key)
    end.

Fixpoint walkEntries (levels : nat) (prefix : string) (entries : list treeEntry) (base : string) (w : walker) : gres walker :=
  match levels with
  | O => inl TooDeep
  | S levels =>
      w <-? charge w (Z.of_nat (length entries));
      eachEntry (fun e w =>
        let path := prefix +:+ name e in
        if isTree e then walkWith (walkEntries levels) (path +:+ "/") (oid e) base w
        else leaf w path e base) entries w
  end.

Definition walk (levels : nat) : string -> string -> string -> walker -> gres walker := walkWith (walkEntries levels).

(** The parent's entries by name; of two with one name the last counts. *)
Definition byName (prev : list treeEntry) : gmap string treeEntry := foldl (fun m e => <[name e := e]> m) ∅ prev.

Definition sameEntry (before : option treeEntry) (e : treeEntry) : bool :=
  match before with Some b => String.eqb (mode b) (mode e) && String.eqb (oid b) (oid e) | None => false end.

Definition baseOf (before : option treeEntry) : string := match before with Some b => mode b | None => ModeAbsent end.

Fixpoint diff (levels : nat) (prefix oldOID newOID : string) (w : walker) : gres walker :=
  if String.eqb oldOID newOID then inr w
  else
    let key := diffKey prefix oldOID newOID in
    if bool_decide (key ∈ diffed w) then inr w
    else
      w <-? keep w (Z.of_nat (String.length key));
      let w := markDiffed w key in
      match levels with
      | O => inl TooDeep
      | S levels' =>
          onext <-? wtree w newOID;
          match onext with
          | None => uncarried w prefix newOID
          | Some next =>
              oprev <-? wtree w oldOID;
              match oprev with
              | None => walkEntries levels prefix next "" w
              | Some prev =>
                  w <-? charge w (Z.of_nat (length prev) + Z.of_nat (length next));
                  eachEntry (fun e w =>
                    let before := byName prev !! name e in
                    let path := prefix +:+ name e in
                    if sameEntry before e then inr w
                    else if negb (isTree e) then leaf w path e (baseOf before)
                    else
                      match before with
                      | Some b =>
                          if isTree b then diff levels' (path +:+ "/") (oid b) (oid e) w
                          else walk levels' (path +:+ "/") (oid e) ModeAbsent w
                      | None => walk levels' (path +:+ "/") (oid e) ModeAbsent w
                      end) next w
              end
          end
      end.

(** ** One commit, and all of them *)

Context (held : string -> bool).

(** The levels of a walk that starts at depth 0. *)
Definition allLevels : nat := S maxTreeDepth.

Fixpoint eachParent (c : commitInfo) (ps : list string) (w : walker) (diffed : bool) : gres (walker * bool) :=
  match ps with
  | [] => inr (w, diffed)
  | p :: ps =>
      let w := if match byOID i !! p with None => true | Some _ => false end || held p then addBase w p else w in
      match byOID i !! p with
      | Some o =>
          if bool_decide (typ o = objCommit) then
            parent <-? parseCommit (data o) (fsize (format i));
            w <-? diff allLevels "" (ctree parent) (ctree c) w;
            eachParent c ps w true
          else eachParent c ps w diffed
      | None => eachParent c ps w diffed
      end
  end.

Definition introduced (c : commitInfo) (w : walker) : gres walker :=
  let? (w, diffed) := eachParent c (parents c) w false in
  if diffed then inr w else walk allLevels "" (ctree c) "" w.

Fixpoint eachCommit (oids : list string) (w : walker) : gres walker :=
  match oids with
  | [] => inr w
  | k :: oids =>
      match byOID i !! k with
      | Some o =>
          if negb (bool_decide (typ o = objCommit)) || held k then eachCommit oids w
          else
            c <-? parseCommit (data o) (fsize (format i));
            w <-? introduced c w;
            eachCommit oids w
      | None => eachCommit oids w
      end
  end.

Definition sortedOIDs : list string := sortStrings (map fst (map_to_list (byOID i))).

(** [cmp.Or] of the four comparisons. *)
Definition changeLeb (a b : Change) : bool :=
  match String.compare (Path a) (Path b) with
  | Lt => true | Gt => false
  | Eq => match String.compare (Mode a) (Mode b) with
          | Lt => true | Gt => false
          | Eq => match (size a) ?= (size b) with
                  | Lt => true | Gt => false
                  | Eq => String.leb (OID a) (OID b)
                  end
          end
  end.

Definition changes : gres (list Change * list string) :=
  w <-? eachCommit sortedOIDs newWalker;
  inr (sortBy changeLeb (out w), sortStrings (elements (bases w))).
End Walk.
