(* ===== verification/GitWalk.v ===== *)
(** * What the walk of a push reports

    The change set of [GitTree.v] against a definition with no memo, budget or
    order: the leaves of a tree ([leafAt]: files, links and submodules at their
    path, and one opaque entry for a directory the pack does not carry), and what
    one tree introduces over another ([newAt]). The walk reports exactly what the
    commits of the pack introduce; nothing of a pushed tree is left out unless a
    parent's tree holds it at the same path; and an entry keeps an executable base
    only when every parent it is compared with had it executable.

    The memos are the difficulty: a skipped subtree must already be complete.
    Keys are marked before the subtree is walked, so an unfinished key is always
    one of an enclosing directory, with a shorter prefix ([completeFrom]). *)
From S2P Require Import Prelude GoStrings GoPath PolicyTypes GoSlices PushRules PushForge GitWire GitTree.
Local Open Scope string_scope.
Local Open Scope Z_scope.
Local Open Scope wardyn_scope.
Local Open Scope list_scope.

Section Spec.
Context (i : index).

Definition treeAt (o : string) : option (list treeEntry) :=
  match byOID i !! o with
  | Some ob =>
      if bool_decide (typ ob = objTree) then
        match parseEntries (length (data ob)) (fsize (format i)) (data ob) with inr es => Some es | inl _ => None end
      else None
  | None => None
  end.

Inductive leafAt : string -> string -> ekey -> Prop :=
| leaf_uncarried prefix o : byOID i !! o = None -> leafAt prefix o (trimSlash prefix, ModeUncarried, -1, o)
| leaf_here prefix o es e : treeAt o = Some es -> e ∈ es -> isTree e = false ->
    leafAt prefix o (prefix +:+ name e, mode e, blobSize i (oid e), oid e)
| leaf_below prefix o es e k : treeAt o = Some es -> e ∈ es -> isTree e = true ->
    leafAt (prefix +:+ name e +:+ "/") (oid e) k -> leafAt prefix o k.

(** [newAt prefix old new k b]: the tree [new] introduces the entry [k] over [old],
    whose mode there is [b]. *)
Inductive newAt : string -> string -> string -> ekey -> string -> Prop :=
| new_uncarried prefix old new : old <> new -> byOID i !! new = None ->
    newAt prefix old new (trimSlash prefix, ModeUncarried, -1, new) ""
| new_whole prefix old new es k : old <> new -> treeAt new = Some es -> treeAt old = None ->
    leafAt prefix new k -> newAt prefix old new k ""
| new_leaf prefix old new next prev e : old <> new -> treeAt new = Some next -> treeAt old = Some prev -> e ∈ next ->
    sameEntry (byName prev !! name e) e = false -> isTree e = false ->
    newAt prefix old new (prefix +:+ name e, mode e, blobSize i (oid e), oid e) (baseOf (byName prev !! name e))
| new_dir prefix old new next prev e b k base : old <> new -> treeAt new = Some next -> treeAt old = Some prev -> e ∈ next ->
    sameEntry (byName prev !! name e) e = false -> isTree e = true -> byName prev !! name e = Some b -> isTree b = true ->
    newAt (prefix +:+ name e +:+ "/") (oid b) (oid e) k base -> newAt prefix old new k base
| new_added prefix old new next prev e k : old <> new -> treeAt new = Some next -> treeAt old = Some prev -> e ∈ next ->
    sameEntry (byName prev !! name e) e = false -> isTree e = true ->
    (forall b, byName prev !! name e = Some b -> isTree b = false) ->
    leafAt (prefix +:+ name e +:+ "/") (oid e) k -> newAt prefix old new k ModeAbsent.

(** ** The state of the walk *)

Record wfW (w : walker) : Prop := mkWfW {
  wf_seen : forall k n, seen w !! k = Some n -> exists c, out w !! n = Some c /\ changeKey c = k;
  wf_out : forall n c, out w !! n = Some c -> seen w !! changeKey c = Some n }.

(** The entry is reported, with an executable base only if [b] is one. *)
Definition recorded (w : walker) (k : ekey) (b : string) : Prop :=
  exists c, c ∈ out w /\ changeKey c = k /\ (IsExecutable (BaseMode c) = true -> IsExecutable b = true).

Definition reported (w : walker) (k : ekey) : Prop := exists c, c ∈ out w /\ changeKey c = k.

Definition noNul (s : string) : Prop := str_has NUL s = false.

Definition walkDone (w : walker) (prefix o : string) : Prop := forall k b, leafAt prefix o k -> recorded w k b.
Definition diffDone (w : walker) (prefix old new : string) : Prop := forall k b, newAt prefix old new k b -> recorded w k b.

(** Every memo key whose prefix has at least [l] bytes is finished. *)
Definition completeFrom (l : nat) (w : walker) : Prop :=
  (forall prefix o, noNul prefix -> noNul o -> (l <= String.length prefix)%nat ->
     walkKey prefix o ∈ walked w -> walkDone w prefix o) /\
  (forall prefix old new, noNul prefix -> noNul old -> noNul new -> (l <= String.length prefix)%nat ->
     diffKey prefix old new ∈ diffed w -> diffDone w prefix old new).

(** A step of the walk from [w] to [w']: reports stay, the state stays
    well-formed, what is added is in [S], and every new key is finished and has a
    prefix of at least [l] bytes. *)
Record grows (l : nat) (S : ekey -> Prop) (w w' : walker) : Prop := mkGrows {
  g_wf : wfW w';
  g_mono : forall k b, recorded w k b -> recorded w' k b;
  g_from : forall k, reported w' k -> reported w k \/ S k;
  g_bases : bases w' = bases w;
  g_walked : forall prefix o, noNul prefix -> noNul o -> walkKey prefix o ∈ walked w' ->
    walkKey prefix o ∈ walked w \/ (l <= String.length prefix)%nat /\ walkDone w' prefix o;
  g_diffed : forall prefix old new, noNul prefix -> noNul old -> noNul new -> diffKey prefix old new ∈ diffed w' ->
    diffKey prefix old new ∈ diffed w \/ (l <= String.length prefix)%nat /\ diffDone w' prefix old new }.

Lemma grows_refl l S w : wfW w -> grows l S w w.
Proof. intros. by constructor; eauto. Qed.

Lemma walkDone_mono l S w w' prefix o : grows l S w w' -> walkDone w prefix o -> walkDone w' prefix o.
Proof. intros Hg H k b Hk. by apply (g_mono _ _ _ _ Hg), H. Qed.
Lemma diffDone_mono l S w w' prefix old new : grows l S w w' -> diffDone w prefix old new -> diffDone w' prefix old new.
Proof. intros Hg H k b Hk. by apply (g_mono _ _ _ _ Hg), H. Qed.

Lemma grows_trans l S w1 w2 w3 : grows l S w1 w2 -> grows l S w2 w3 -> grows l S w1 w3.
Proof.
  intros H12 H23. constructor.
  - exact (g_wf _ _ _ _ H23).
  - intros k b H. by apply (g_mono _ _ _ _ H23), (g_mono _ _ _ _ H12).
  - intros k H. destruct (g_from _ _ _ _ H23 _ H) as [H'|?]; [|by right]. exact (g_from _ _ _ _ H12 _ H').
  - by rewrite (g_bases _ _ _ _ H23), (g_bases _ _ _ _ H12).
  - intros p o Hp Ho H. destruct (g_walked _ _ _ _ H23 _ _ Hp Ho H) as [H'|?]; [|by right].
    destruct (g_walked _ _ _ _ H12 _ _ Hp Ho H') as [?|[? Hd]]; [by left|]. right. split; [done|]. by eapply walkDone_mono.
  - intros p o n Hp Ho Hn H. destruct (g_diffed _ _ _ _ H23 _ _ _ Hp Ho Hn H) as [H'|?]; [|by right].
    destruct (g_diffed _ _ _ _ H12 _ _ _ Hp Ho Hn H') as [?|[? Hd]]; [by left|]. right. split; [done|]. by eapply diffDone_mono.
Qed.

Lemma grows_weaken l l' (S S' : ekey -> Prop) w w' :
  (l' <= l)%nat -> (forall k, S k -> S' k) -> grows l S w w' -> grows l' S' w w'.
Proof.
  intros Hl HS H. constructor; [apply H|apply H| |apply H| |].
  - intros k Hk. destruct (g_from _ _ _ _ H k Hk); auto.
  - intros p o Hp Ho Hk. destruct (g_walked _ _ _ _ H p o Hp Ho Hk) as [?|[? ?]]; [by left|]. right. split; [lia|done].
  - intros p o n Hp Ho Hn Hk. destruct (g_diffed _ _ _ _ H p o n Hp Ho Hn Hk) as [?|[? ?]]; [by left|]. right. split; [lia|done].
Qed.

Lemma completeFrom_grows l S w w' : grows l S w w' -> completeFrom l w -> completeFrom l w'.
Proof.
  intros Hg [Hw Hd]. split.
  - intros p o Hp Ho Hl Hk. destruct (g_walked _ _ _ _ Hg p o Hp Ho Hk) as [Hk'|[_ ?]]; [|done].
    eapply walkDone_mono; [exact Hg|]. by apply Hw.
  - intros p o n Hp Ho Hn Hl Hk. destruct (g_diffed _ _ _ _ Hg p o n Hp Ho Hn Hk) as [Hk'|[_ ?]]; [|done].
    eapply diffDone_mono; [exact Hg|]. by apply Hd.
Qed.

Lemma completeFrom_weaken l l' w : (l <= l')%nat -> completeFrom l w -> completeFrom l' w.
Proof. intros Hl [Hw Hd]. split; intros; [apply Hw | apply Hd]; done || lia. Qed.

(** ** Keys *)

Lemma noNul_app a b : noNul (a +:+ b) <-> noNul a /\ noNul b.
Proof. unfold noNul. rewrite str_has_app. by rewrite orb_false_iff. Qed.

Lemma cut_inj a b c d : noNul a -> noNul c -> a +:+ String NUL b = c +:+ String NUL d -> a = c /\ b = d.
Proof.
  intros Ha Hc H. pose proof (cutByte_app NUL a b Ha) as H1. pose proof (cutByte_app NUL c d Hc) as H2.
  rewrite H in H1. rewrite H1 in H2. by injection H2.
Qed.

Lemma walkKey_inj p o p' o' : noNul p -> noNul p' -> walkKey p o = walkKey p' o' -> p = p' /\ o = o'.
Proof. apply cut_inj. Qed.

Lemma diffKey_inj p o n p' o' n' : noNul p -> noNul p' -> noNul o -> noNul o' ->
  diffKey p o n = diffKey p' o' n' -> p = p' /\ o = o' /\ n = n'.
Proof. intros Hp Hp' Ho Ho' H. apply cut_inj in H as [-> H]; [|done..]. by apply cut_inj in H as [-> ->]. Qed.

Lemma newerBase_exec a b : IsExecutable (newerBase a b) = true -> IsExecutable a = true /\ IsExecutable b = true.
Proof.
  unfold newerBase. destruct (String.eqb_spec a b) as [->|_]; [done|].
  destruct (negb (String.eqb a "") && negb (IsExecutable a)) eqn:Ha.
  { bool_prop. destruct (IsExecutable a); done. }
  destruct (negb (String.eqb b "") && negb (IsExecutable b)) eqn:Hb; [|done].
  bool_prop. destruct (IsExecutable b); done.
Qed.

(** ** The single steps *)

(** Only counters moved. *)
Record counted (w w' : walker) : Prop := mkCounted {
  c_seen : seen w' = seen w; c_out : out w' = out w; c_walked : walked w' = walked w; c_diffed : diffed w' = diffed w;
  c_bases : bases w' = bases w }.

Lemma charge_counted w n w' : charge w n = inr w' -> counted w w'.
Proof. unfold charge. destruct (_ >? _); [discriminate|]. by intros [= <-]. Qed.
Lemma keep_counted w n w' : keep w n = inr w' -> counted w w'.
Proof. unfold keep. destruct (_ >? _); [discriminate|]. by intros [= <-]. Qed.

Lemma wfW_same w w' : seen w' = seen w -> out w' = out w -> wfW w -> wfW w'.
Proof. intros Hs Ho [H1 H2]. constructor; rewrite Hs, Ho; done. Qed.

Lemma recorded_same w w' k b : out w' = out w -> recorded w k b -> recorded w' k b.
Proof. unfold recorded. by intros ->. Qed.

Lemma counted_grows l S w w' : counted w w' -> wfW w -> grows l S w w'.
Proof.
  intros [Hs Ho Hw Hd Hb] Hwf. constructor; [by eapply wfW_same| | |done| |].
  - intros k b. by apply recorded_same.
  - intros k Hk. left. unfold reported in *. by rewrite <- Ho.
  - intros p o _ _ H. left. by rewrite <- Hw.
  - intros p o n _ _ _ H. left. by rewrite <- Hd.
Qed.

Lemma completeFrom_counted l w w' : counted w w' -> completeFrom l w -> completeFrom l w'.
Proof.
  intros [Hs Ho Hw Hd Hb] [Hcw Hcd]. split.
  - intros p o Hp Hn Hl Hk k b Hkb. rewrite Hw in Hk. eapply recorded_same; [exact Ho|]. exact (Hcw p o Hp Hn Hl Hk k b Hkb).
  - intros p o n Hp Hn Hn' Hl Hk k b Hkb. rewrite Hd in Hk. eapply recorded_same; [exact Ho|]. exact (Hcd p o n Hp Hn Hn' Hl Hk k b Hkb).
Qed.

Lemma changeKey_setBase b c : changeKey (setBase b c) = changeKey c.
Proof. reflexivity. Qed.

(** Merging a base into one entry keeps what is known of every entry. *)
Lemma alter_recorded n b (l : list Change) k b' :
  (exists c, c ∈ l /\ changeKey c = k /\ (IsExecutable (BaseMode c) = true -> IsExecutable b' = true)) ->
  exists c, c ∈ alter (setBase b) n l /\ changeKey c = k /\ (IsExecutable (BaseMode c) = true -> IsExecutable b' = true).
Proof.
  intros (c & Hc & Hk & He). apply list_elem_of_lookup_1 in Hc as [m Hm].
  destruct (decide (m = n)) as [->|Hne].
  - exists (setBase b c). split_and!; [|done|].
    + apply (list_elem_of_lookup_2 _ n). by rewrite list_lookup_alter_eq, Hm.
    + intros H. apply newerBase_exec in H as [? _]. by apply He.
  - exists c. split_and!; [|done..]. apply (list_elem_of_lookup_2 _ m). by rewrite list_lookup_alter_ne.
Qed.

Lemma alter_lookup n b (l : list Change) m c : alter (setBase b) n l !! m = Some c -> exists c', l !! m = Some c' /\ changeKey c = changeKey c'.
Proof.
  destruct (decide (n = m)) as [->|Hne].
  - rewrite list_lookup_alter_eq. destruct (l !! m) as [c'|]; [|done]. cbn. intros [= <-]. eauto.
  - rewrite list_lookup_alter_ne by done. eauto.
Qed.

Lemma record_grows l w c w' : record w c = inr w' -> wfW w ->
  grows l (eq (changeKey c)) w w' /\ recorded w' (changeKey c) (BaseMode c).
Proof.
  intros H [Hseen Hout]. unfold record in H. destruct (seen w !! changeKey c) as [n|] eqn:Hs.
  - injection H as <-. destruct (Hseen _ _ Hs) as (c0 & Hc0 & Hk0). split.
    + constructor; cbn; [| | |done|by left|by left].
      * constructor; cbn.
        -- intros k m Hm. destruct (Hseen _ _ Hm) as (c' & Hc' & Hk'). destruct (decide (n = m)) as [<-|Hne].
           ++ exists (setBase (BaseMode c) c'). by rewrite list_lookup_alter_eq, Hc'.
           ++ exists c'. by rewrite list_lookup_alter_ne.
        -- intros m c' Hm. destruct (alter_lookup _ _ _ _ _ Hm) as (c1 & H1 & ->). by apply Hout.
      * intros k b. apply alter_recorded.
      * intros k (c1 & H1 & <-). left. apply list_elem_of_lookup_1 in H1 as [m Hm].
        destruct (alter_lookup _ _ _ _ _ Hm) as (c2 & H2 & ->). exists c2. split; [|done]. by eapply list_elem_of_lookup_2.
    + exists (setBase (BaseMode c) c0). cbn. split_and!; [|by rewrite changeKey_setBase|].
      * apply (list_elem_of_lookup_2 _ n). by rewrite list_lookup_alter_eq, Hc0.
      * intros He. by apply newerBase_exec in He as [_ ?].
  - destruct (_ >=? _); [discriminate|]. apply gbind_inr in H as (w1 & Hk & H). apply keep_counted in Hk as [Hs1 Ho1 Hw1 Hd1 Hb1].
    injection H as <-. rewrite Hs1, Ho1, Hw1, Hd1, Hb1. split.
    + constructor; cbn; [| | |done|by left|by left].
      * constructor; cbn.
        -- intros k m Hm. destruct (decide (k = changeKey c)) as [->|Hne].
           ++ rewrite lookup_insert_eq in Hm. injection Hm as <-. exists c. split; [|done]. by apply list_lookup_middle.
           ++ rewrite lookup_insert_ne in Hm by done. destruct (Hseen _ _ Hm) as (c' & Hc' & Hk'). exists c'.
              split; [|done]. by apply lookup_app_l_Some.
        -- intros m c' Hm. apply lookup_app_Some in Hm as [Hm|[Hge Hm]].
           ++ rewrite lookup_insert_ne; [by apply Hout|]. intros Heq. rewrite Heq, (Hout _ _ Hm) in Hs. done.
           ++ apply list_lookup_singleton_Some in Hm as [Hm ->]. rewrite lookup_insert_eq. f_equal. lia.
      * intros k b (c' & Hc' & ?). exists c'. split; [|done]. apply elem_of_app. by left.
      * intros k (c' & Hc' & <-). apply elem_of_app in Hc' as [Hc'|Hc']; [left; by exists c'|].
        apply list_elem_of_singleton in Hc' as ->. by right.
    + exists c. split_and!; [|done..]. apply elem_of_app. right. by apply list_elem_of_singleton.
Qed.

(** ** Trees and their entries *)

Lemma wtree_inv w o r : wtree i w o = inr r ->
  match r with Some es => treeAt o = Some es | None => byOID i !! o = None end.
Proof.
  unfold wtree, tree, treeAt. destruct (byOID i !! o) as [ob|]; [|by intros [= <-]].
  case_bool_decide; [|discriminate]. intros H'. apply gbind_inr in H' as (es & Hp & H'). injection H' as <-.
  unfold parseTree in Hp. destruct (_ >? _); [discriminate|]. by rewrite Hp.
Qed.

Lemma treeAt_carried o es : treeAt o = Some es -> byOID i !! o <> None.
Proof. unfold treeAt. by destruct (byOID i !! o). Qed.

Lemma treeAt_absent o : byOID i !! o = None -> treeAt o = None.
Proof. unfold treeAt. by intros ->. Qed.

Lemma cutB_noNul b u v : cutB NUL b = Some (u, v) -> noNul (str u).
Proof.
  revert u. induction b as [|x b IH]; intros u; cbn [cutB]; [discriminate|].
  destruct (Ascii.eqb x NUL) eqn:E; [by intros [= <- <-]|].
  destruct (cutB NUL b) as [[u' v']|]; [|discriminate]. intros [= <- <-]. cbn [String.string_of_list_ascii].
  unfold noNul. rewrite str_has_cons, E. by apply IH.
Qed.

Lemma hexDigit_not_nul d : 0 <= d < 16 -> Ascii.eqb (hexDigit d) NUL = false.
Proof.
  intros Hd. assert (H : Forall (fun n => Ascii.eqb (hexDigit (Z.of_nat n)) NUL = false) (seq 0 16)) by (vm_compute; repeat constructor).
  rewrite Forall_forall in H. rewrite <- (Z2Nat.id d) by lia. apply H. apply elem_of_seq. lia.
Qed.

Lemma byte_of_range c : 0 <= byte_of c < 256.
Proof. unfold byte_of. pose proof (N_ascii_bounded c). lia. Qed.

Lemma EncodeToString_noNul b : noNul (EncodeToString b).
Proof.
  induction b as [|c b IH]; [done|]. cbn [EncodeToString]. unfold noNul. rewrite !str_has_cons.
  pose proof (byte_of_range c). rewrite !hexDigit_not_nul; [done| |].
  - change 15 with (Z.ones 4). rewrite Z.land_ones by lia. apply Z.mod_pos_bound. lia.
  - rewrite Z.shiftr_div_pow2 by lia. change (2 ^ 4) with 16. split; [apply Z.div_pos; lia|]. apply Z.div_lt_upper_bound; lia.
Qed.

Lemma parseEntries_noNul fuel h d es e : parseEntries fuel h d = inr es -> e ∈ es -> noNul (name e) /\ noNul (oid e).
Proof.
  revert d es. induction fuel as [|fuel IH]; intros [|x d] es; cbn [parseEntries]; try discriminate;
    try (intros [= <-] H; by apply not_elem_of_nil in H).
  destruct (cutB " " (x :: d)) as [[[|y m] rest]|]; try discriminate.
  destruct (cutB NUL rest) as [[n rest']|] eqn:Hn; [|discriminate]. destruct (_ <? _)%nat; [discriminate|].
  destruct (checkEntry _ _); [discriminate|]. intros H. apply gbind_inr in H as (es' & Hp & H). injection H as <-.
  intros H. apply elem_of_cons in H as [->|He]; [|by eapply IH]. cbn. split; [by eapply cutB_noNul | apply EncodeToString_noNul].
Qed.

Lemma treeAt_noNul o es e : treeAt o = Some es -> e ∈ es -> noNul (name e) /\ noNul (oid e).
Proof.
  unfold treeAt. destruct (byOID i !! o) as [ob|]; [|discriminate]. case_bool_decide; [|discriminate].
  destruct (parseEntries _ _ _) eqn:Hp; [discriminate|]. intros [= ->]. by eapply parseEntries_noNul.
Qed.

(** What one entry of a tree contributes. *)
Definition entryLeaf (prefix : string) (e : treeEntry) (k : ekey) : Prop :=
  if isTree e then leafAt (prefix +:+ name e +:+ "/") (oid e) k
  else k = (prefix +:+ name e, mode e, blobSize i (oid e), oid e).

Lemma leafAt_entries prefix o es k : treeAt o = Some es -> (leafAt prefix o k <-> exists e, e ∈ es /\ entryLeaf prefix e k).
Proof.
  intros Hes. unfold entryLeaf. split.
  - inversion 1 as [? ? Hn|? ? es' e Hes' He Ht|? ? es' e ? Hes' He Ht Hb]; subst.
    + by apply treeAt_carried in Hes.
    + rewrite Hes in Hes'. injection Hes' as <-. exists e. by rewrite Ht.
    + rewrite Hes in Hes'. injection Hes' as <-. exists e. by rewrite Ht.
  - intros (e & He & Hk). destruct (isTree e) eqn:Ht; [by eapply leaf_below|]. subst k. by eapply leaf_here.
Qed.

Lemma leafAt_absent prefix o k : byOID i !! o = None -> leafAt prefix o k <-> k = (trimSlash prefix, ModeUncarried, -1, o).
Proof.
  intros Hn. split; [|intros ->; by constructor].
  inversion 1 as [|? ? es e Hes|? ? es e ? Hes]; subst; [done|by apply treeAt_carried in Hes..].
Qed.

(** A pass over entries: each entry's step grows the state and ends with its part
    done. *)
Lemma eachEntry_ok l S (step : treeEntry -> walker -> gres walker) (P : treeEntry -> walker -> Prop) es :
  (forall e w w', e ∈ es -> step e w = inr w' -> wfW w -> completeFrom l w -> grows l S w w' /\ P e w') ->
  (forall e w w', grows l S w w' -> P e w -> P e w') ->
  forall w w', eachEntry step es w = inr w' -> wfW w -> completeFrom l w ->
  grows l S w w' /\ forall e, e ∈ es -> P e w'.
Proof.
  induction es as [|e es IH]; intros Hstep Hmono w w' H Hwf Hc; cbn [eachEntry] in H.
  - injection H as <-. split; [by apply grows_refl|]. intros e He. by apply not_elem_of_nil in He.
  - apply gbind_inr in H as (w1 & H1 & H). destruct (Hstep e w w1 ltac:(left) H1 Hwf Hc) as [Hg HP].
    destruct (IH (fun e w w' He => Hstep e w w' (list_elem_of_further _ _ _ He)) Hmono w1 w' H (g_wf _ _ _ _ Hg)
                (completeFrom_grows _ _ _ _ Hg Hc)) as [Hg' HP'].
    split; [by eapply grows_trans|]. intros d Hd. apply elem_of_cons in Hd as [->|Hd]; [by eapply Hmono | by apply HP'].
Qed.

(** The prefix of a directory's entries is longer than the directory's. *)
Lemma child_prefix prefix n : (String.length prefix < String.length (prefix +:+ n +:+ "/"))%nat.
Proof. rewrite !str_len_app. cbn. lia. Qed.

(** What a walk of a tree achieves. *)
Definition walkSpec (f : string -> list treeEntry -> string -> walker -> gres walker) : Prop :=
  forall prefix es o base w w', f prefix es base w = inr w' -> wfW w -> noNul prefix -> treeAt o = Some es ->
  completeFrom (S (String.length prefix)) w -> IsExecutable base = false ->
  grows (S (String.length prefix)) (leafAt prefix o) w w' /\ walkDone w' prefix o.

Lemma uncarried_ok l w prefix o w' : uncarried w prefix o = inr w' -> wfW w -> byOID i !! o = None ->
  grows l (leafAt prefix o) w w' /\ walkDone w' prefix o.
Proof.
  intros H Hwf Hn. destruct (record_grows l _ _ _ H Hwf) as [Hg (c & Hc & Hk & He)]. split.
  - eapply grows_weaken; [done| |exact Hg]. intros k <-. by constructor.
  - intros k b Hl. apply leafAt_absent in Hl as ->; [|done]. exists c. split_and!; [done..|]. intros Hx. by apply He in Hx.
Qed.

(** A fresh memo key, finished. *)
Lemma mark_walk w w1 w' q o S : counted w w1 -> noNul q -> noNul o ->
  grows (Datatypes.S (String.length q)) S (markWalked w1 (walkKey q o)) w' -> walkDone w' q o ->
  grows (String.length q) S w w'.
Proof.
  intros [Hs Ho Hw Hd Hb] Hq Hno Hg Hdone. constructor.
  - exact (g_wf _ _ _ _ Hg).
  - intros k b Hk. apply (g_mono _ _ _ _ Hg). by eapply recorded_same.
  - intros k Hk. destruct (g_from _ _ _ _ Hg k Hk) as [(c & Hc & ?)|?]; [|by right]. left. exists c. cbn in Hc. by rewrite Ho in Hc.
  - by rewrite (g_bases _ _ _ _ Hg).
  - intros p o' Hp Ho' Hk. destruct (g_walked _ _ _ _ Hg p o' Hp Ho' Hk) as [Hk'|[? ?]]; [|right; split; [lia|done]].
    cbn in Hk'. apply elem_of_union in Hk' as [Hk'|Hk']; [|left; by rewrite <- Hw].
    apply elem_of_singleton in Hk'. apply walkKey_inj in Hk' as [-> ->]; [|done..]. by right.
  - intros p o' n Hp Ho' Hn Hk. destruct (g_diffed _ _ _ _ Hg p o' n Hp Ho' Hn Hk) as [Hk'|[? ?]]; [|right; split; [lia|done]].
    left. cbn in Hk'. by rewrite <- Hd.
Qed.

Lemma mark_walk_complete w w1 q o : counted w w1 -> noNul q -> noNul o -> completeFrom (String.length q) w ->
  completeFrom (S (String.length q)) (markWalked w1 (walkKey q o)).
Proof.
  intros Hc Hq Hno H. apply (completeFrom_counted _ _ _ Hc) in H as [Hw Hd]. split.
  - intros p o' Hp Ho' Hl Hk. cbn in Hk. apply elem_of_union in Hk as [Hk|Hk].
    + apply elem_of_singleton in Hk. apply walkKey_inj in Hk as [-> ->]; [lia|done..].
    + exact (Hw p o' Hp Ho' ltac:(lia) Hk).
  - intros p o' n Hp Ho' Hn Hl Hk. exact (Hd p o' n Hp Ho' Hn ltac:(lia) Hk).
Qed.

Lemma walkWith_ok f q o base w w' : walkSpec f -> walkWith i f q o base w = inr w' -> wfW w -> noNul q -> noNul o ->
  completeFrom (String.length q) w -> IsExecutable base = false ->
  grows (String.length q) (leafAt q o) w w' /\ walkDone w' q o.
Proof.
  intros Hf H Hwf Hq Hno Hc Hb. unfold walkWith in H. case_bool_decide as Hk.
  - injection H as <-. split; [by apply grows_refl|]. by apply (proj1 Hc).
  - apply gbind_inr in H as ([es|] & Ht & H); apply wtree_inv in Ht.
    + apply gbind_inr in H as (w1 & Hkeep & H). apply keep_counted in Hkeep.
      assert (Hwf1 : wfW (markWalked w1 (walkKey q o))) by (eapply (wfW_same w); [apply Hkeep..|done]).
      destruct (Hf _ _ o _ _ _ H Hwf1 Hq Ht (mark_walk_complete _ _ _ _ Hkeep Hq Hno Hc) Hb) as [Hg Hd].
      split; [|done]. by eapply mark_walk.
    + by apply uncarried_ok.
Qed.

Lemma walkEntries_ok levels : walkSpec (walkEntries i levels).
Proof.
  induction levels as [|levels IH]; intros prefix es o base w w' H Hwf Hp Hes Hc Hb; cbn [walkEntries] in H; [discriminate|].
  apply gbind_inr in H as (w1 & Hch & H). apply charge_counted in Hch.
  pose proof (counted_grows (S (String.length prefix)) (leafAt prefix o) _ _ Hch Hwf) as Hg0.
  pose proof (completeFrom_counted _ _ _ Hch Hc) as Hc1.
  apply (eachEntry_ok (S (String.length prefix)) (leafAt prefix o) _ (fun e w => forall k b, entryLeaf prefix e k -> recorded w k b)) in H
    as [Hg Hall]; [|..|exact (g_wf _ _ _ _ Hg0)|done].
  - split; [by eapply grows_trans|]. intros k b Hk. apply (leafAt_entries _ _ _ _ Hes) in Hk as (e & He & Hk). by eapply Hall.
  - intros e w2 w3 He Hstep Hwf2 Hc2. destruct (treeAt_noNul _ _ _ Hes He) as [Hn Ho]. unfold entryLeaf.
    destruct (isTree e) eqn:Ht.
    + rewrite <- str_app_assoc in Hstep. pose proof (child_prefix prefix (name e)) as Hlt.
      destruct (walkWith_ok _ _ _ _ _ _ IH Hstep Hwf2) as [Hg2 Hd2]; [by rewrite !noNul_app| done| | done|].
      { eapply completeFrom_weaken; [|exact Hc2]. lia. }
      split; [|exact Hd2]. eapply grows_weaken; [| |exact Hg2]; [lia|]. intros k Hk. by eapply leaf_below.
    + destruct (record_grows (S (String.length prefix)) _ _ _ Hstep Hwf2) as [Hg2 (c & Hcin & Hk & He')]. split.
      * eapply grows_weaken; [done| |exact Hg2]. intros k <-. by eapply leaf_here.
      * intros k b ->. exists c. split_and!; [done..|]. intros Hx. apply He' in Hx. cbn in Hx. congruence.
  - intros e w2 w3 Hg2 HP k b Hk. apply (g_mono _ _ _ _ Hg2). by apply HP.
Qed.

(** ** Comparisons *)

Lemma byName_in prev n b : byName prev !! n = Some b -> b ∈ prev /\ name b = n.
Proof.
  unfold byName. assert (H : forall m : gmap string treeEntry, foldl (fun m e => <[name e := e]> m) m prev !! n = Some b -> m !! n = Some b \/ b ∈ prev /\ name b = n).
  { induction prev as [|e prev IH]; intros m H; [by left|]. cbn [foldl] in H. destruct (IH _ H) as [Hm|[? ?]].
    - destruct (decide (name e = n)) as [<-|Hne].
      + rewrite lookup_insert_eq in Hm. injection Hm as ->. right. split; [left | done].
      + rewrite lookup_insert_ne in Hm by done. by left.
    - right. split; [by right | done]. }
  intros Hb. destruct (H _ Hb) as [Hm|?]; [|done]. by rewrite lookup_empty in Hm.
Qed.

(** What one entry of the new tree contributes. *)
Definition entryNew (prefix : string) (prev : list treeEntry) (e : treeEntry) (k : ekey) (b : string) : Prop :=
  let before := byName prev !! name e in
  let below := prefix +:+ name e +:+ "/" in
  sameEntry before e = false /\
  if isTree e then
    match before with
    | Some p => if isTree p then newAt below (oid p) (oid e) k b else leafAt below (oid e) k /\ b = ModeAbsent
    | None => leafAt below (oid e) k /\ b = ModeAbsent
    end
  else k = (prefix +:+ name e, mode e, blobSize i (oid e), oid e) /\ b = baseOf before.

Lemma newAt_entries prefix old new next prev k b : old <> new -> treeAt new = Some next -> treeAt old = Some prev ->
  newAt prefix old new k b <-> exists e, e ∈ next /\ entryNew prefix prev e k b.
Proof.
  intros Hne Hnew Hold. unfold entryNew. cbv zeta. split.
  - inversion 1 as [? ? ? ? Habs|? ? ? ? ? ? ? Habs|? ? ? next' prev' e ? H1 H2 He Hs Ht|? ? ? next' prev' e p ? ? ? H1 H2 He Hs Ht Hp Htp Hr|
      ? ? ? next' prev' e ? ? H1 H2 He Hs Ht Hp Hl]; subst.
    + by apply treeAt_carried in Hnew.
    + by rewrite Hold in Habs.
    + rewrite Hnew in H1. rewrite Hold in H2. simplify_eq. exists e. by rewrite Hs, Ht.
    + rewrite Hnew in H1. rewrite Hold in H2. simplify_eq. exists e. by rewrite Hs, Ht, Hp, Htp.
    + rewrite Hnew in H1. rewrite Hold in H2. simplify_eq. exists e. rewrite Hs, Ht. split_and!; [done..|].
      destruct (byName prev' !! name e) as [p|]; [|done]. by rewrite (Hp p eq_refl).
  - intros (e & He & Hs & Hk). destruct (isTree e) eqn:Ht.
    + destruct (byName prev !! name e) as [p|] eqn:Hp; [destruct (isTree p) eqn:Htp|].
      * eapply new_dir; [done..| |done|exact Hp|done|done]. by rewrite Hp.
      * destruct Hk as [Hk ->]. eapply new_added; [done..| |done| |done]; rewrite Hp; [done|]. intros p' [= <-]. done.
      * destruct Hk as [Hk ->]. eapply new_added; [done..| |done| |done]; by rewrite Hp.
    + destruct Hk as [-> ->]. by eapply new_leaf.
Qed.

Lemma mark_diff w w1 w' q old new S : counted w w1 -> noNul q -> noNul old ->
  grows (Datatypes.S (String.length q)) S (markDiffed w1 (diffKey q old new)) w' -> diffDone w' q old new ->
  grows (String.length q) S w w'.
Proof.
  intros [Hs Ho Hw Hd Hb] Hq Hno Hg Hdone. constructor.
  - exact (g_wf _ _ _ _ Hg).
  - intros k b Hk. apply (g_mono _ _ _ _ Hg). by eapply recorded_same.
  - intros k Hk. destruct (g_from _ _ _ _ Hg k Hk) as [(c & Hc & ?)|?]; [|by right]. left. exists c. cbn in Hc. by rewrite Ho in Hc.
  - by rewrite (g_bases _ _ _ _ Hg).
  - intros p o' Hp Ho' Hk. destruct (g_walked _ _ _ _ Hg p o' Hp Ho' Hk) as [Hk'|[? ?]]; [|right; split; [lia|done]].
    left. cbn in Hk'. by rewrite <- Hw.
  - intros p o' n Hp Ho' Hn Hk. destruct (g_diffed _ _ _ _ Hg p o' n Hp Ho' Hn Hk) as [Hk'|[? ?]]; [|right; split; [lia|done]].
    cbn in Hk'. apply elem_of_union in Hk' as [Hk'|Hk']; [|left; by rewrite <- Hd].
    apply elem_of_singleton in Hk'. apply diffKey_inj in Hk' as (-> & -> & ->); [|done..]. by right.
Qed.

Lemma mark_diff_complete w w1 q old new : counted w w1 -> noNul q -> noNul old -> completeFrom (String.length q) w ->
  completeFrom (S (String.length q)) (markDiffed w1 (diffKey q old new)).
Proof.
  intros Hc Hq Hno H. apply (completeFrom_counted _ _ _ Hc) in H as [Hw Hd]. split.
  - intros p o' Hp Ho' Hl Hk. exact (Hw p o' Hp Ho' ltac:(lia) Hk).
  - intros p o' n Hp Ho' Hn Hl Hk. cbn in Hk. apply elem_of_union in Hk as [Hk|Hk].
    + apply elem_of_singleton in Hk. apply diffKey_inj in Hk as (-> & -> & ->); [lia|done..].
    + exact (Hd p o' n Hp Ho' Hn ltac:(lia) Hk).
Qed.

(** What a comparison achieves. *)
Definition diffSpec (f : string -> string -> string -> walker -> gres walker) : Prop :=
  forall prefix old new w w', f prefix old new w = inr w' -> wfW w -> noNul prefix -> noNul old -> noNul new ->
  completeFrom (String.length prefix) w ->
  grows (String.length prefix) (fun k => exists b, newAt prefix old new k b) w w' /\ diffDone w' prefix old new.

Lemma newAt_same prefix o k b : ~ newAt prefix o o k b.
Proof. by inversion 1. Qed.

(** Against a tree the pack lacks, or of one it lacks, everything is new. *)
Lemma newAt_whole prefix old new k b : byOID i !! new = None \/ byOID i !! old = None -> newAt prefix old new k b -> leafAt prefix new k.
Proof.
  assert (Hc : forall o es, treeAt o = Some es -> byOID i !! o = None -> False) by (intros o es H; by apply treeAt_carried in H).
  intros Hor H. inversion H; subst; [by constructor|done|..]; exfalso; destruct Hor; eauto.
Qed.

(** One entry of the new tree. *)
Definition diffStep (rec : string -> string -> string -> walker -> gres walker)
    (wrec : string -> string -> string -> walker -> gres walker)
    (prefix : string) (prev : list treeEntry) (e : treeEntry) (w : walker) : gres walker :=
  let before := byName prev !! name e in
  let path := prefix +:+ name e in
  if sameEntry before e then inr w
  else if negb (isTree e) then leaf i w path e (baseOf before)
  else
    match before with
    | Some b =>
        if isTree b then rec (path +:+ "/") (oid b) (oid e) w
        else wrec (path +:+ "/") (oid e) ModeAbsent w
    | None => wrec (path +:+ "/") (oid e) ModeAbsent w
    end.

Lemma diffStep_ok levels prefix old new next prev e w w' :
  diffSpec (diff i levels) -> diffStep (diff i levels) (walk i levels) prefix prev e w = inr w' ->
  wfW w -> completeFrom (S (String.length prefix)) w -> noNul prefix ->
  old <> new -> treeAt new = Some next -> treeAt old = Some prev -> e ∈ next ->
  grows (S (String.length prefix)) (fun k => exists b, newAt prefix old new k b) w w' /\
  forall k b, entryNew prefix prev e k b -> recorded w' k b.
Proof.
  intros Hdiff H Hwf Hc Hp Hne Hnew Hold He. unfold diffStep in H. unfold entryNew. cbv zeta in H |- *.
  destruct (treeAt_noNul _ _ _ Hnew He) as [Hn Ho]. pose proof (child_prefix prefix (name e)) as Hlt.
  assert (Hin : forall k b, entryNew prefix prev e k b -> exists b, newAt prefix old new k b).
  { intros k b Hk. exists b. apply (newAt_entries _ _ _ _ _ _ _ Hne Hnew Hold). eauto. }
  unfold entryNew in Hin. cbv zeta in Hin.
  assert (Hc' : completeFrom (String.length (prefix +:+ name e +:+ "/")) w) by (eapply completeFrom_weaken; [|exact Hc]; lia).
  assert (Hp' : noNul (prefix +:+ name e +:+ "/")) by (by rewrite !noNul_app).
  destruct (sameEntry _ e) eqn:Hs; [injection H as <-; split; [by apply grows_refl|]; by intros k b [? _]|].
  rewrite <- str_app_assoc in H. destruct (isTree e) eqn:Ht; cbn [negb] in H.
  - assert (Hadd : (forall k, leafAt (prefix +:+ name e +:+ "/") (oid e) k -> exists b, newAt prefix old new k b) ->
      walk i levels (prefix +:+ name e +:+ "/") (oid e) ModeAbsent w = inr w' ->
      grows (S (String.length prefix)) (fun k => exists b, newAt prefix old new k b) w w' /\
      walkDone w' (prefix +:+ name e +:+ "/") (oid e)).
    { intros Hl Hw. destruct (walkWith_ok _ _ _ _ _ _ (walkEntries_ok levels) Hw Hwf Hp' Ho Hc' eq_refl) as [Hg Hd].
      split; [|done]. eapply grows_weaken; [| |exact Hg]; [lia|done]. }
    destruct (byName prev !! name e) as [p|] eqn:Hb; [destruct (isTree p) eqn:Htp|].
    + destruct (byName_in _ _ _ Hb) as [Hpin _]. destruct (treeAt_noNul _ _ _ Hold Hpin) as [_ Hop].
      destruct (Hdiff _ _ _ _ _ H Hwf Hp' Hop Ho Hc') as [Hg Hd]. split; [|intros k b [_ Hk]; by apply Hd].
      eapply grows_weaken; [| |exact Hg]; [lia|]. intros k [b Hk]. by eapply Hin.
    + destruct (Hadd) as [Hg Hd]; [intros k Hk; by eapply (Hin k ModeAbsent)|done|]. split; [done|]. intros k b [_ [Hk ->]]. by apply Hd.
    + destruct (Hadd) as [Hg Hd]; [intros k Hk; by eapply (Hin k ModeAbsent)|done|]. split; [done|]. intros k b [_ [Hk ->]]. by apply Hd.
  - destruct (record_grows (S (String.length prefix)) _ _ _ H Hwf) as [Hg Hr]. split.
    + eapply grows_weaken; [exact (le_n _)| |exact Hg]. intros k <-. by eapply (Hin _ (baseOf (byName prev !! name e))).
    + intros k b [_ [-> ->]]. exact Hr.
Qed.

Lemma diff_ok levels : diffSpec (diff i levels).
Proof.
  induction levels as [|levels IH]; intros prefix old new w w' H Hwf Hp Hold Hnew Hc; cbn [diff] in H.
  all: destruct (String.eqb_spec old new) as [->|Hne];
    [injection H as <-; split; [by apply grows_refl|]; intros k b Hk; by apply newAt_same in Hk|].
  all: case_bool_decide as Hk; [injection H as <-; split; [by apply grows_refl|]; by apply (proj2 Hc)|].
  all: apply gbind_inr in H as (w1 & Hkeep & H); apply keep_counted in Hkeep.
  1: discriminate.
  assert (Hwf1 : wfW (markDiffed w1 (diffKey prefix old new))) by (eapply (wfW_same w); [apply Hkeep..|done]).
  pose proof (mark_diff_complete _ _ _ _ new Hkeep Hp Hold Hc) as Hc1.
  apply gbind_inr in H as ([next|] & Ht & H); apply wtree_inv in Ht.
  2: { destruct (uncarried_ok (S (String.length prefix)) _ _ _ _ H Hwf1 Ht) as [Hg Hd].
       assert (Hdone : diffDone w' prefix old new).
       { intros k b Hk'. apply Hd. eapply newAt_whole; [|exact Hk']. by left. }
       split; [|done]. apply (mark_diff _ _ _ _ _ new _ Hkeep Hp Hold); [|done]. eapply grows_weaken; [done| |exact Hg].
       intros k Hl. apply leafAt_absent in Hl as ->; [|done]. eexists. by constructor. }
  apply gbind_inr in H as ([prev|] & Hto & H); apply wtree_inv in Hto.
  2: { destruct (walkEntries_ok _ _ _ new _ _ _ H Hwf1 Hp Ht Hc1 eq_refl) as [Hg Hd].
       assert (Hdone : diffDone w' prefix old new).
       { intros k b Hk'. apply Hd. eapply newAt_whole; [|exact Hk']. by right. }
       split; [|done]. apply (mark_diff _ _ _ _ _ new _ Hkeep Hp Hold); [|done]. eapply grows_weaken; [done| |exact Hg].
       intros k Hl. eexists. eapply new_whole; [done..|by apply treeAt_absent|done]. }
  apply gbind_inr in H as (w2 & Hch & H). apply charge_counted in Hch.
  pose proof (counted_grows (S (String.length prefix)) (fun k => exists b, newAt prefix old new k b) _ _ Hch Hwf1) as Hg0.
  apply (eachEntry_ok (S (String.length prefix)) (fun k => exists b, newAt prefix old new k b) (diffStep (diff i levels) (walk i levels) prefix prev)
    (fun e w => forall k b, entryNew prefix prev e k b -> recorded w k b)) in H as [Hg Hall];
    [|..|exact (g_wf _ _ _ _ Hg0)|by eapply completeFrom_counted].
  - assert (Hdone : diffDone w' prefix old new).
    { intros k b Hk'. apply (newAt_entries _ _ _ _ _ _ _ Hne Ht Hto) in Hk' as (e & He & Hk'). by eapply Hall. }
    split; [|done]. apply (mark_diff _ _ _ _ _ new _ Hkeep Hp Hold); [|done]. by eapply grows_trans.
  - intros e w3 w4 He Hstep Hwf3 Hc3. by eapply diffStep_ok.
  - intros e w3 w4 Hg3 HP k b Hk'. apply (g_mono _ _ _ _ Hg3). by apply HP.
Qed.

(** ** Commits *)

Context (held : string -> bool).

Definition commitAt (o : string) (c : commitInfo) : Prop :=
  exists ob, byOID i !! o = Some ob /\ typ ob = objCommit /\ parseCommit (data ob) (fsize (format i)) = inr c.

(** A commit the walk reads. *)
Definition newCommit (c : commitInfo) : Prop := exists o, commitAt o c /\ held o = false.

(** A parent the pack carries as a commit. *)
Definition carriedParent (c pc : commitInfo) : Prop := exists p, p ∈ parents c /\ commitAt p pc.

(** What a commit introduces: what it adds over a parent the pack carries, or its
    whole tree when the pack carries none. *)
Definition introducedBy (c : commitInfo) (k : ekey) (b : string) : Prop :=
  (exists pc, carriedParent c pc /\ newAt "" (ctree pc) (ctree c) k b) \/
  (forall p ob, p ∈ parents c -> byOID i !! p = Some ob -> typ ob <> objCommit) /\ leafAt "" (ctree c) k /\ b = "".

Definition baseFor (c : commitInfo) (p : string) : Prop := p ∈ parents c /\ (byOID i !! p = None \/ held p = true).

Record commitGrows (S : ekey -> Prop) (B : string -> Prop) (w w' : walker) : Prop := mkCommitGrows {
  cg_wf : wfW w'; cg_complete : completeFrom 0 w';
  cg_mono : forall k b, recorded w k b -> recorded w' k b;
  cg_from : forall k, reported w' k -> reported w k \/ S k;
  cg_bases : forall p, p ∈ bases w' <-> p ∈ bases w \/ B p }.

Lemma commitGrows_grows S w w' : grows 0 S w w' -> completeFrom 0 w -> commitGrows S (fun _ => False) w w'.
Proof.
  intros Hg Hc. constructor; [apply Hg | by eapply completeFrom_grows | apply Hg | apply Hg |].
  intros p. rewrite (g_bases _ _ _ _ Hg). tauto.
Qed.

Lemma commitGrows_refl w : wfW w -> completeFrom 0 w -> commitGrows (fun _ => False) (fun _ => False) w w.
Proof. intros. constructor; try done; tauto. Qed.

Lemma commitGrows_trans S S' B B' w1 w2 w3 : commitGrows S B w1 w2 -> commitGrows S' B' w2 w3 ->
  commitGrows (fun k => S k \/ S' k) (fun p => B p \/ B' p) w1 w3.
Proof.
  intros H1 H2. constructor; [apply H2 | apply H2 | | |].
  - intros k b H. by apply (cg_mono _ _ _ _ H2), (cg_mono _ _ _ _ H1).
  - intros k H. destruct (cg_from _ _ _ _ H2 _ H) as [H'|?]; [|tauto]. destruct (cg_from _ _ _ _ H1 _ H'); tauto.
  - intros p. rewrite (cg_bases _ _ _ _ H2), (cg_bases _ _ _ _ H1). tauto.
Qed.

Lemma commitGrows_iff (S S' : ekey -> Prop) (B B' : string -> Prop) w w' :
  (forall k, S k -> S' k) -> (forall p, B p <-> B' p) -> commitGrows S B w w' -> commitGrows S' B' w w'.
Proof.
  intros HS HB H. constructor; [apply H | apply H | apply H | |].
  - intros k Hk. destruct (cg_from _ _ _ _ H k Hk); auto.
  - intros p. rewrite (cg_bases _ _ _ _ H), HB. done.
Qed.

Lemma commitGrows_addBase w p : wfW w -> completeFrom 0 w -> commitGrows (fun _ => False) (eq p) w (addBase w p).
Proof.
  intros Hwf [Hw Hd]. constructor.
  - by apply (wfW_same w).
  - split; [exact Hw | exact Hd].
  - intros k b. by apply recorded_same.
  - intros k H. by left.
  - intros q. cbn. rewrite elem_of_union, elem_of_singleton. naive_solver.
Qed.

Lemma isHex_noNul s : isHex s = true -> noNul s.
Proof. intros H. by apply (isHex_no_byte s NUL H). Qed.

Lemma commitHeaders_tree h lines c blk c' : commitHeaders h c blk lines = inr c' -> noNul (ctree c) -> noNul (ctree c').
Proof.
  revert c blk. induction lines as [|line lines IH]; intros c blk; cbn [commitHeaders]; [by intros [= <-]|].
  destruct (cutByte " " line) as [[key val]|]; [|apply IH].
  destruct (String.eqb key "tree"); [|destruct (String.eqb key "parent"); [|apply IH]].
  - destruct (negb _); [discriminate|]. destruct (negb (validOID h val)) eqn:Hv; [discriminate|].
    intros H _. eapply IH; [exact H|]. cbn. unfold validOID in Hv. bool_prop. by apply isHex_noNul.
  - destruct (negb _); [discriminate|]. destruct (negb _); [discriminate|]. intros H Hc. by eapply IH.
Qed.

Lemma parseCommit_tree d h c : parseCommit d h = inr c -> noNul (ctree c).
Proof.
  unfold parseCommit. intros H. apply gbind_inr in H as (c' & Hc & H). destruct (String.eqb _ _); [discriminate|].
  injection H as <-. by eapply commitHeaders_tree.
Qed.

(** The parents: each carried one is compared, and those the pack lacks, or that
    are held, are bases. *)
Lemma eachParent_ok c ps w d w' d' : eachParent i held c ps w d = inr (w', d') -> wfW w -> completeFrom 0 w -> noNul (ctree c) ->
  commitGrows (fun k => exists p pc b, p ∈ ps /\ commitAt p pc /\ newAt "" (ctree pc) (ctree c) k b)
    (fun p => p ∈ ps /\ (byOID i !! p = None \/ held p = true)) w w' /\
  (forall p pc, p ∈ ps -> commitAt p pc -> diffDone w' "" (ctree pc) (ctree c)) /\
  (d' = true <-> d = true \/ exists p ob, p ∈ ps /\ byOID i !! p = Some ob /\ typ ob = objCommit).
Proof.
  revert w d. induction ps as [|p ps IH]; intros w d H Hwf Hc Hno; cbn [eachParent] in H.
  { injection H as <- <-. split_and!.
    - eapply commitGrows_iff; [| |by apply commitGrows_refl]; [done|]. intros p. split; [done|]. intros [Hp _]. by apply not_elem_of_nil in Hp.
    - intros p pc Hp. by apply not_elem_of_nil in Hp.
    - split; [by left|]. intros [?|(p & ob & Hp & _)]; [done|by apply not_elem_of_nil in Hp]. }
  set (w0 := if _ || _ then addBase w p else w) in H.
  assert (H0 : commitGrows (fun _ => False) (fun q => q = p /\ (byOID i !! p = None \/ held p = true)) w w0).
  { unfold w0. destruct (match byOID i !! p with None => true | Some _ => false end || held p) eqn:E.
    - eapply commitGrows_iff; [| |by apply commitGrows_addBase]; [done|]. intros q.
      assert (byOID i !! p = None \/ held p = true) by (destruct (byOID i !! p); [right|left]; done).
      split; [intros ->; done | by intros [-> _]].
    - eapply commitGrows_iff; [| |by apply commitGrows_refl]; [done|]. intros q. split; [done|].
      intros [-> Hor]. apply orb_false_iff in E as [E1 E2]. destruct (byOID i !! p); [|done]. destruct Hor; congruence. }
  clearbody w0.
  (* the rest of the parents, after the state [w1] with this one dealt with *)
  assert (Hrest : forall w1 d1 S1, commitGrows S1 (fun _ => False) w0 w1 -> eachParent i held c ps w1 d1 = inr (w', d') ->
    (forall k, S1 k -> exists pc b, commitAt p pc /\ newAt "" (ctree pc) (ctree c) k b) ->
    (forall pc, commitAt p pc -> diffDone w1 "" (ctree pc) (ctree c)) ->
    (d1 = true <-> d = true \/ exists ob, byOID i !! p = Some ob /\ typ ob = objCommit) ->
    commitGrows (fun k => exists q pc b, q ∈ p :: ps /\ commitAt q pc /\ newAt "" (ctree pc) (ctree c) k b)
      (fun q => q ∈ p :: ps /\ (byOID i !! q = None \/ held q = true)) w w' /\
    (forall q pc, q ∈ p :: ps -> commitAt q pc -> diffDone w' "" (ctree pc) (ctree c)) /\
    (d' = true <-> d = true \/ exists q ob, q ∈ p :: ps /\ byOID i !! q = Some ob /\ typ ob = objCommit)).
  { intros w1 d1 S1 H1 Hr HS Hdone Hd1.
    destruct (IH w1 d1 Hr (cg_wf _ _ _ _ H1) (cg_complete _ _ _ _ H1) Hno) as (Hg & Hall & Hd'). split_and!.
    - eapply commitGrows_iff; [| |exact (commitGrows_trans _ _ _ _ _ _ _ H0 (commitGrows_trans _ _ _ _ _ _ _ H1 Hg))].
      + intros k [[]|[Hk|(q & pc & b & Hq & Hk)]].
        * destruct (HS k Hk) as (pc & b & Hk'). exists p, pc, b. split; [left|done].
        * exists q, pc, b. split; [by right|done].
      + intros q. rewrite elem_of_cons. split; [intros [[-> ?]|[[]|[? ?]]]; tauto|]. intros [[->|?] ?]; tauto.
    - intros q pc Hq Hpc. apply elem_of_cons in Hq as [->|Hq]; [|by eapply Hall].
      intros k b Hk. apply (cg_mono _ _ _ _ Hg). by apply (Hdone pc Hpc).
    - rewrite Hd', Hd1. split.
      + intros [[?|(ob & ? & ?)]|(q & ob & Hq & ? & ?)]; [by left|right; exists p, ob|right; exists q, ob]; (split; [|done]); [left|by right].
      + intros [?|(q & ob & Hq & ? & ?)]; [tauto|]. apply elem_of_cons in Hq as [->|Hq]; [left; right; eauto|right; eauto]. }
  pose proof (cg_wf _ _ _ _ H0) as Hwf0. pose proof (cg_complete _ _ _ _ H0) as Hc0.
  destruct (byOID i !! p) as [ob|] eqn:Hp.
  - case_bool_decide as Ht.
    + apply gbind_inr in H as (pc & Hpc & H). apply gbind_inr in H as (w1 & Hd & H).
      assert (Hat : commitAt p pc) by (exists ob; done).
      destruct (diff_ok _ _ _ _ _ _ Hd Hwf0 eq_refl (parseCommit_tree _ _ _ Hpc) Hno Hc0) as [Hg Hdone].
      eapply (Hrest w1 true _ (commitGrows_grows _ _ _ Hg Hc0) H).
      * intros k [b Hk]. by exists pc, b.
      * intros pc' (ob' & Hob' & _ & Hpc'). rewrite Hp in Hob'. injection Hob' as <-. rewrite Hpc in Hpc'. by injection Hpc' as <-.
      * split; [|done]. intros _. right. by exists ob.
    + eapply (Hrest w0 d _ (commitGrows_refl _ Hwf0 Hc0) H); [done| |].
      * intros pc (ob' & Hob' & Ht' & _). rewrite Hp in Hob'. injection Hob' as <-. done.
      * split; [by left|]. intros [?|(ob' & [= <-] & ?)]; done.
  - eapply (Hrest w0 d _ (commitGrows_refl _ Hwf0 Hc0) H); [done| |].
    + intros pc (ob' & Hob' & _). by rewrite Hp in Hob'.
    + split; [by left|]. intros [?|(ob' & ? & ?)]; done.
Qed.

Lemma introduced_ok c w w' : introduced i held c w = inr w' -> wfW w -> completeFrom 0 w -> noNul (ctree c) ->
  commitGrows (fun k => exists b, introducedBy c k b) (baseFor c) w w' /\ forall k b, introducedBy c k b -> recorded w' k b.
Proof.
  intros H Hwf Hc Hno. unfold introduced in H. apply gbind_inr in H as ([w1 d] & Hp & H).
  destruct (eachParent_ok _ _ _ _ _ _ Hp Hwf Hc Hno) as (Hg & Hall & Hd). destruct d.
  - injection H as <-. destruct (proj1 Hd eq_refl) as [?|(p & ob & Hpin & Hob & Ht)]; [done|]. split.
    + eapply commitGrows_iff; [| |exact Hg]; [|done]. intros k (q & pc & b & Hq & Hpc & Hk). exists b. left. exists pc. split; [by exists q|done].
    + intros k b [(pc & (q & Hq & Hpc) & Hk)|(Hnone & _)]; [by eapply Hall|]. exfalso. by eapply Hnone.
  - assert (Hnone : forall p ob, p ∈ parents c -> byOID i !! p = Some ob -> typ ob <> objCommit).
    { intros p ob Hpin Hob Ht. assert (false = true); [|done]. apply Hd. right. eauto. }
    destruct (walkWith_ok _ _ _ _ _ _ (walkEntries_ok allLevels) H (cg_wf _ _ _ _ Hg) eq_refl Hno (cg_complete _ _ _ _ Hg) eq_refl)
      as [Hgw Hdone]. split.
    + eapply commitGrows_iff; [| |exact (commitGrows_trans _ _ _ _ _ _ _ Hg (commitGrows_grows _ _ _ Hgw (cg_complete _ _ _ _ Hg)))].
      * intros k [(p & pc & b & Hpin & (ob & Hob & Ht & _) & _)|Hk]; [exfalso; by eapply Hnone|]. exists "". right. done.
      * intros p. unfold baseFor. tauto.
    + intros k b [(pc & (q & Hq & ob & Hob & Ht & _) & Hk)|(_ & Hk & ->)]; [exfalso; by eapply Hnone | by apply Hdone].
Qed.

Definition amongNew (oids : list string) (c : commitInfo) : Prop := exists o, o ∈ oids /\ commitAt o c /\ held o = false.

Lemma eachCommit_ok oids w w' : eachCommit i held oids w = inr w' -> wfW w -> completeFrom 0 w ->
  commitGrows (fun k => exists c b, amongNew oids c /\ introducedBy c k b) (fun p => exists c, amongNew oids c /\ baseFor c p) w w' /\
  forall c k b, amongNew oids c -> introducedBy c k b -> recorded w' k b.
Proof.
  revert w. induction oids as [|o oids IH]; intros w H Hwf Hc; cbn [eachCommit] in H.
  { injection H as <-. split.
    - eapply commitGrows_iff; [| |by apply commitGrows_refl]; [done|]. intros p. split; [done|].
      intros (c & (o & Ho & _) & _). by apply not_elem_of_nil in Ho.
    - intros c k b (o & Ho & _). by apply not_elem_of_nil in Ho. }
  assert (Hskip : eachCommit i held oids w = inr w' -> (forall c, amongNew (o :: oids) c <-> amongNew oids c) ->
    commitGrows (fun k => exists c b, amongNew (o :: oids) c /\ introducedBy c k b)
      (fun p => exists c, amongNew (o :: oids) c /\ baseFor c p) w w' /\
    forall c k b, amongNew (o :: oids) c -> introducedBy c k b -> recorded w' k b).
  { intros H1 Heq. destruct (IH w H1 Hwf Hc) as [Hg Hall]. split.
    - eapply commitGrows_iff; [| |exact Hg]; [by setoid_rewrite Heq|]. intros p. by setoid_rewrite Heq.
    - intros c k b Hn. apply Hall. by apply Heq. }
  assert (Hcons : forall c, amongNew (o :: oids) c <-> (commitAt o c /\ held o = false) \/ amongNew oids c).
  { intros c. unfold amongNew. setoid_rewrite elem_of_cons. naive_solver. }
  destruct (byOID i !! o) as [ob|] eqn:Ho.
  2: { apply Hskip; [done|]. intros c. rewrite Hcons. split; [|by right]. intros [[(ob & Hob & _) _]|?]; [|done]. by rewrite Ho in Hob. }
  destruct (negb (bool_decide (typ ob = objCommit)) || held o) eqn:E.
  - apply Hskip; [done|]. intros c. rewrite Hcons. split; [|by right]. intros [[(ob' & Hob & Ht & _) Hh]|?]; [|done].
    rewrite Ho in Hob. injection Hob as <-. rewrite bool_decide_eq_true_2 in E by done. rewrite Hh in E. done.
  - apply orb_false_iff in E as [E1 E2]. apply negb_false_iff, bool_decide_eq_true in E1.
    apply gbind_inr in H as (c & Hpc & H). apply gbind_inr in H as (w1 & Hi & H).
    destruct (introduced_ok _ _ _ Hi Hwf Hc (parseCommit_tree _ _ _ Hpc)) as [Hg Hall].
    destruct (IH w1 H (cg_wf _ _ _ _ Hg) (cg_complete _ _ _ _ Hg)) as [Hg' Hall'].
    assert (Hthis : forall d, commitAt o d -> d = c).
    { intros d (ob' & Hob & _ & Hd). rewrite Ho in Hob. injection Hob as <-. rewrite Hpc in Hd. by injection Hd. }
    assert (Hat : commitAt o c) by (by exists ob).
    split.
    + eapply commitGrows_iff; [| |exact (commitGrows_trans _ _ _ _ _ _ _ Hg Hg')].
      * intros k [[b Hk]|(d & b & Hd & Hk)]; [exists c, b|exists d, b]; rewrite Hcons; tauto.
      * intros p. split; [intros [Hp|(d & Hd & Hp)]; [exists c|exists d]; rewrite Hcons; tauto|].
        intros (d & Hd & Hp). apply Hcons in Hd as [[Hd _]|Hd]; [left; by rewrite <- (Hthis d Hd)|right; eauto].
    + intros d k b Hd Hk. apply Hcons in Hd as [[Hd _]|Hd]; [|by eapply Hall'].
      rewrite (Hthis d Hd) in Hk. apply (cg_mono _ _ _ _ Hg'). by apply Hall.
Qed.

Lemma sortedOIDs_all o : o ∈ sortedOIDs i <-> is_Some (byOID i !! o).
Proof.
  unfold sortedOIDs. rewrite elem_of_sortStrings, list_elem_of_fmap. split.
  - intros ([k v] & -> & Hin). exists v. by apply elem_of_map_to_list in Hin.
  - intros [v Hv]. exists (o, v). split; [done|]. by apply elem_of_map_to_list.
Qed.

Lemma amongNew_all c : amongNew (sortedOIDs i) c <-> newCommit c.
Proof.
  unfold amongNew, newCommit. split; [intros (o & _ & ?); eauto|]. intros (o & Hat & Hh). exists o. split_and!; [|done..].
  apply sortedOIDs_all. destruct Hat as (ob & -> & _). by eexists.
Qed.

Lemma newWalker_ok : wfW newWalker /\ completeFrom 0 newWalker.
Proof. split; constructor; cbn; intros; [by rewrite lookup_empty in * | done | set_solver..]. Qed.

(** What the walk over all commits leaves. *)
Lemma walk_all w : eachCommit i held (sortedOIDs i) newWalker = inr w ->
  wfW w /\ (forall k, reported w k <-> exists c b, newCommit c /\ introducedBy c k b) /\
  (forall c k b, newCommit c -> introducedBy c k b -> recorded w k b) /\
  (forall p, p ∈ bases w <-> exists c, newCommit c /\ baseFor c p).
Proof.
  intros H. destruct newWalker_ok as [Hwf Hc]. destruct (eachCommit_ok _ _ _ H Hwf Hc) as [Hg Hall].
  setoid_rewrite amongNew_all in Hall.
  split_and!; [apply Hg | | done |].
  - intros k. split.
    + intros Hk. destruct (cg_from _ _ _ _ Hg k Hk) as [(c & Hcin & _)|(c & b & Hn & Hk')]; [by apply not_elem_of_nil in Hcin|].
      exists c, b. by rewrite <- amongNew_all.
    + intros (c & b & Hn & Hk). destruct (Hall c k b Hn Hk) as (x & Hx & Hkey & _). by exists x.
  - intros p. rewrite (cg_bases _ _ _ _ Hg). setoid_rewrite amongNew_all. set_solver.
Qed.

(** Nothing of the new tree is left out but what the old one holds. *)
Lemma entry_covers prefix old new next prev e k : old <> new -> treeAt new = Some next -> treeAt old = Some prev -> e ∈ next ->
  entryLeaf prefix e k ->
  (forall p, isTree e = true -> p ∈ prev -> name p = name e -> isTree p = true ->
     (exists b, newAt (prefix +:+ name e +:+ "/") (oid p) (oid e) k b) \/ leafAt (prefix +:+ name e +:+ "/") (oid p) k) ->
  (exists b, newAt prefix old new k b) \/ leafAt prefix old k.
Proof.
  intros Hne Hnew Hold He Hk IH. destruct (sameEntry (byName prev !! name e) e) eqn:Hs.
  { destruct (byName prev !! name e) as [p|] eqn:Hp; [|done]. destruct (byName_in _ _ _ Hp) as [Hpin Hn].
    cbn in Hs. apply andb_true_iff in Hs as [Hm%String.eqb_eq Ho%String.eqb_eq]. right. apply (leafAt_entries _ _ _ _ Hold).
    exists p. split; [done|]. unfold entryLeaf, isTree in *. by rewrite Hm, Ho, Hn. }
  assert (Hent : forall b, entryNew prefix prev e k b -> exists b, newAt prefix old new k b).
  { intros b Hb. exists b. apply (newAt_entries _ _ _ _ _ _ _ Hne Hnew Hold). eauto. }
  unfold entryNew in Hent. rewrite Hs in Hent. unfold entryLeaf in Hk. destruct (isTree e) eqn:Ht.
  - destruct (byName prev !! name e) as [p|] eqn:Hp; [destruct (isTree p) eqn:Htp|].
    + destruct (byName_in _ _ _ Hp) as [Hpin Hn]. destruct (IH p eq_refl Hpin Hn Htp) as [[b Hb]|Hl]; [left; by eapply Hent|].
      right. apply (leafAt_entries _ _ _ _ Hold). exists p. split; [done|]. unfold entryLeaf. by rewrite Htp, Hn.
    + left. by eapply (Hent ModeAbsent).
    + left. by eapply (Hent ModeAbsent).
  - left. by eapply Hent.
Qed.

Lemma newAt_covers prefix old new k : leafAt prefix new k -> (exists b, newAt prefix old new k b) \/ leafAt prefix old k.
Proof.
  intros Hk. revert old. induction Hk as [prefix o Hn|prefix o es e Hes He Ht|prefix o es e k Hes He Ht Hk IH]; intros old;
    (destruct (decide (old = o)) as [->|Hne]; [right; by econstructor|]).
  - left. eexists. by constructor.
  - destruct (treeAt old) as [prev|] eqn:Hold; [|left; eexists; eapply new_whole; [done..|by eapply leaf_here]].
    eapply entry_covers; [done..| |].
    + unfold entryLeaf. by rewrite Ht.
    + intros p Ht'. congruence.
  - destruct (treeAt old) as [prev|] eqn:Hold; [|left; eexists; eapply new_whole; [done..|by eapply leaf_below]].
    eapply entry_covers; [done..| |].
    + unfold entryLeaf. by rewrite Ht.
    + intros p _ _ _ _. apply IH.
Qed.
(** ** Which parents are carried *)

Lemma commitAt_unique o c d : commitAt o c -> commitAt o d -> c = d.
Proof. intros (x & Hx & _ & Hc) (y & Hy & _ & Hd). congruence. Qed.

Lemma commitAt_dec o : (exists c, commitAt o c) \/ forall c, ~ commitAt o c.
Proof.
  destruct (byOID i !! o) as [ob|] eqn:Ho; [|right; intros c (x & Hx & _); congruence].
  destruct (decide (typ ob = objCommit)) as [Ht|Ht]; [|right; intros c (x & Hx & Hty & _); congruence].
  destruct (parseCommit (data ob) (fsize (format i))) as [e|c] eqn:Hp; [right; intros c (x & Hx & _ & Hc); congruence|].
  left. exists c. by exists ob.
Qed.

(** A walk that ends has read every carried parent. *)
Lemma eachParent_reads c ps w d r : eachParent i held c ps w d = inr r ->
  forall p ob, p ∈ ps -> byOID i !! p = Some ob -> typ ob = objCommit -> exists pc, commitAt p pc.
Proof.
  revert w d. induction ps as [|q ps IH]; intros w d H p ob Hp Hob Ht; [by apply not_elem_of_nil in Hp|]. cbn [eachParent] in H.
  set (w0 := if _ || _ then _ else _) in H. clearbody w0. apply elem_of_cons in Hp as [->|Hp].
  - rewrite Hob, bool_decide_eq_true_2 in H by done. apply gbind_inr in H as (pc & Hpc & _). exists pc. by exists ob.
  - destruct (byOID i !! q) as [oq|]; [|by eapply IH]. case_bool_decide; [|by eapply IH].
    apply gbind_inr in H as (pc & _ & H). apply gbind_inr in H as (w1 & _ & H). by eapply IH.
Qed.

Lemma eachCommit_reads oids w w' : eachCommit i held oids w = inr w' ->
  forall c p ob, amongNew oids c -> p ∈ parents c -> byOID i !! p = Some ob -> typ ob = objCommit -> exists pc, commitAt p pc.
Proof.
  revert w. induction oids as [|o oids IH]; intros w H c p ob (o' & Ho' & Hat & Hh) Hp Hob Ht; [by apply not_elem_of_nil in Ho'|].
  assert (Hrec : forall w1, eachCommit i held oids w1 = inr w' -> o' ∈ oids -> exists pc, commitAt p pc).
  { intros w1 H1 Hin. eapply (IH w1 H1 c); [|done..]. by exists o'. }
  cbn [eachCommit] in H. apply elem_of_cons in Ho' as [->|Ho'].
  - destruct Hat as (ob' & Hob' & Ht' & Hc). rewrite Hob', Hh, bool_decide_eq_true_2 in H by done. cbn in H.
    rewrite Hc in H. cbn [gbind] in H. apply gbind_inr in H as (w1 & Hi & _). unfold introduced in Hi.
    apply gbind_inr in Hi as (r & Hr & _). by eapply eachParent_reads.
  - destruct (byOID i !! o) as [oo|]; [|by eapply Hrec]. destruct (_ || _); [by eapply Hrec|].
    apply gbind_inr in H as (c' & _ & H). apply gbind_inr in H as (w1 & _ & H). by eapply Hrec.
Qed.

(** Either no parent is carried as a commit, or one is. *)
Lemma parents_split w c : eachCommit i held (sortedOIDs i) newWalker = inr w -> newCommit c ->
  (forall p ob, p ∈ parents c -> byOID i !! p = Some ob -> typ ob <> objCommit) \/ exists pc, carriedParent c pc.
Proof.
  intros Hw Hc. apply amongNew_all in Hc.
  assert (H : forall l : list string, (forall p, p ∈ l -> p ∈ parents c) ->
    (forall p ob, p ∈ l -> byOID i !! p = Some ob -> typ ob <> objCommit) \/ exists pc, carriedParent c pc).
  { induction l as [|p l IH]; intros Hl; [left; intros p ob Hp; by apply not_elem_of_nil in Hp|].
    destruct (commitAt_dec p) as [[pc Hpc]|Hno]; [right; exists pc, p; split; [apply Hl; left|done]|].
    destruct IH as [IH|?]; [intros q Hq; apply Hl; by right| |by right]. left. intros q ob Hq Hob Ht.
    apply elem_of_cons in Hq as [->|Hq]; [|by eapply IH].
    destruct (eachCommit_reads _ _ _ Hw c p ob Hc (Hl p ltac:(left)) Hob Ht) as [pc Hpc]. by eapply Hno. }
  by apply H.
Qed.

(** An entry of a commit is new over some carried parent, or all of them hold it. *)
Lemma new_or_held c k : leafAt "" (ctree c) k ->
  (exists pc b, carriedParent c pc /\ newAt "" (ctree pc) (ctree c) k b) \/
  forall pc, carriedParent c pc -> leafAt "" (ctree pc) k.
Proof.
  intros Hk. assert (H : forall l : list string, (forall p, p ∈ l -> p ∈ parents c) ->
    (exists pc b, carriedParent c pc /\ newAt "" (ctree pc) (ctree c) k b) \/
    forall p pc, p ∈ l -> commitAt p pc -> leafAt "" (ctree pc) k).
  { induction l as [|p l IH]; intros Hl; [right; intros p pc Hp; by apply not_elem_of_nil in Hp|].
    destruct IH as [?|IH]; [intros q Hq; apply Hl; by right|by left|].
    destruct (commitAt_dec p) as [[pc Hpc]|Hno].
    - destruct (newAt_covers "" (ctree pc) (ctree c) k Hk) as [[b Hb]|Hl'].
      + left. exists pc, b. split; [|done]. exists p. split; [apply Hl; left|done].
      + right. intros q qc Hq Hqc. apply elem_of_cons in Hq as [->|Hq]; [|by eapply IH].
        by rewrite (commitAt_unique _ _ _ Hqc Hpc).
    - right. intros q qc Hq Hqc. apply elem_of_cons in Hq as [->|Hq]; [by apply Hno in Hqc|by eapply IH]. }
  destruct (H (parents c)) as [?|Hall]; [done|by left|]. right. intros pc (p & Hp & Hpc). by eapply Hall.
Qed.
End Spec.

(** ** The order of the change set *)

Lemma String_compare_refl a : String.compare a a = Eq.
Proof. pose proof (String.compare_antisym a a) as H. by destruct (String.compare a a). Qed.

Lemma String_lt_trans a b c : String.compare a b = Lt -> String.compare b c = Lt -> String.compare a c = Lt.
Proof.
  intros H1 H2. assert (H : String.leb a c = true).
  { apply (String_leb_trans a b c); unfold String.leb; [by rewrite H1 | by rewrite H2]. }
  unfold String.leb in H. destruct (String.compare a c) eqn:E; [|done..].
  apply String.compare_eq_iff in E as ->. rewrite String.compare_antisym, H1 in H2. done.
Qed.

Lemma changeLeb_total a b : changeLeb a b = true \/ changeLeb b a = true.
Proof.
  unfold changeLeb. rewrite (String.compare_antisym (Path b)), (String.compare_antisym (Mode b)), (Z.compare_antisym (size a)).
  destruct (String.compare (Path a) (Path b)), (String.compare (Mode a) (Mode b)), (size a ?= size b); cbn; try tauto.
  apply String.leb_total.
Qed.

Lemma changeLeb_trans a b c : changeLeb a b = true -> changeLeb b c = true -> changeLeb a c = true.
Proof.
  unfold changeLeb.
  destruct (String.compare (Path a) (Path b)) eqn:P1, (String.compare (Path b) (Path c)) eqn:P2; try done;
    try (rewrite (String_lt_trans _ _ _ P1 P2); done);
    repeat match goal with H : String.compare _ _ = Eq |- _ => apply String.compare_eq_iff in H; rewrite ?H in *; clear H end;
    try (rewrite ?P1, ?P2; done).
  rewrite String_compare_refl.
  destruct (String.compare (Mode a) (Mode b)) eqn:M1, (String.compare (Mode b) (Mode c)) eqn:M2; try done;
    try (rewrite (String_lt_trans _ _ _ M1 M2); done);
    repeat match goal with H : String.compare _ _ = Eq |- _ => apply String.compare_eq_iff in H; rewrite ?H in *; clear H end;
    try (rewrite ?M1, ?M2; done).
  rewrite String_compare_refl.
  destruct (Z.compare_spec (size a) (size b)), (Z.compare_spec (size b) (size c)), (Z.compare_spec (size a) (size c)); try done; try lia.
  apply String_leb_trans.
Qed.

Lemma keys_nodup w : wfW w -> NoDup (map changeKey (out w)).
Proof.
  intros [_ H]. apply NoDup_alt. intros n m k Hn Hm.
  apply list_lookup_fmap_Some in Hn as (c & -> & Hc). apply list_lookup_fmap_Some in Hm as (d & Hk & Hd).
  apply H in Hc. apply H in Hd. rewrite <- Hk in Hd. rewrite Hc in Hd. by injection Hd.
Qed.

(** The change set, against the definition. *)
Lemma exact_changes i held outs bs : changes i held = inr (outs, bs) ->
  (forall k, (exists x, x ∈ outs /\ changeKey x = k) <-> exists c b, newCommit i held c /\ introducedBy i c k b) /\
  NoDup (map changeKey outs) /\ StronglySorted changeLeb outs /\
  (forall p, p ∈ bs <-> exists c, newCommit i held c /\ baseFor i held c p).
Proof.
  intros H.  unfold changes in H. apply gbind_inr in H as (w & Hw & H). injection H as <- <-.
  destruct (walk_all i held w Hw) as (Hwf & Hrep & _ & Hb). split_and!.
  - intros k. rewrite <- Hrep. unfold reported. by setoid_rewrite elem_of_sortBy.
  - rewrite sortBy_perm. by apply keys_nodup.
  - apply sortBy_sorted; [apply changeLeb_total | apply changeLeb_trans].
  - intros p. by rewrite elem_of_sortStrings, elem_of_elements, Hb.
Qed.

(** C35: the change set of a push is exactly what its commits introduce: an entry is
    reported if and only if some commit the pack carries (and the caller does not
    call held) adds it over a carried parent, or holds it when no parent is
    carried; each once, in order; and the bases are exactly the parents that are
    not carried or are held. Memos, order and budgets do not show. *)
Theorem changes_exact i held outs bs (H : changes i held = inr (outs, bs)) :
  (forall k, (exists x, x ∈ outs /\ changeKey x = k) <-> exists c b, newCommit i held c /\ introducedBy i c k b) /\
  NoDup (map changeKey outs) /\ StronglySorted changeLeb outs /\
  (forall p, p ∈ bs <-> exists c, newCommit i held c /\ baseFor i held c p).
Proof. by apply exact_changes. Qed.

(** Reported, or held by every carried parent. *)
Lemma reported_or_held i held outs bs c k : changes i held = inr (outs, bs) -> newCommit i held c -> leafAt i "" (ctree c) k ->
  (exists x, x ∈ outs /\ changeKey x = k) \/
  (exists pc, carriedParent i c pc) /\ forall pc, carriedParent i c pc -> leafAt i "" (ctree pc) k.
Proof.
  intros H Hc Hk. unfold changes in H. apply gbind_inr in H as (w & Hw & H). injection H as <- <-.
  destruct (walk_all i held w Hw) as (_ & _ & Hall & _). setoid_rewrite elem_of_sortBy.
  assert (Hrec : forall b, introducedBy i c k b -> exists x, x ∈ out w /\ changeKey x = k).
  { intros b Hb. destruct (Hall c k b Hc Hb) as (x & Hx & Hkey & _). eauto. }
  destruct (parents_split i held w c Hw Hc) as [Hnone|(pc & Hpc)]; [left; apply (Hrec ""); right; done|].
  destruct (new_or_held i c k Hk) as [(pc' & b & Hpc' & Hb)|Hin]; [left; apply (Hrec b); left; eauto|]. right. split; eauto.
Qed.

(** A push is never under-reported: every file, link, submodule or uncarried
    directory of the tree of a commit the push brings is in the change set, unless
    some parent of the commit is carried and every carried parent's tree holds
    that very entry (same path, mode and object). *)
Theorem nothing_pushed_is_left_out i held outs bs c k
  (H : changes i held = inr (outs, bs)) (Hc : newCommit i held c) (Hk : leafAt i "" (ctree c) k) :
  (exists x, x ∈ outs /\ changeKey x = k) \/
  (exists pc, carriedParent i c pc) /\ forall pc, carriedParent i c pc -> leafAt i "" (ctree pc) k.
Proof. by eapply reported_or_held. Qed.

(** An entry keeps an executable [BaseMode], which spares it the rule about new
    executables, only when every commit that introduces it does so over a parent
    whose entry there was executable: a skipped or repeated walk cannot launder
    one. *)
Theorem executable_base_is_unanimous i held outs bs x c b
  (H : changes i held = inr (outs, bs)) (Hx : x ∈ outs) (He : IsExecutable (BaseMode x) = true)
  (Hc : newCommit i held c) (Hi : introducedBy i c (changeKey x) b) : IsExecutable b = true.
Proof.
  unfold changes in H. apply gbind_inr in H as (w & Hw & H). injection H as <- <-.
  destruct (walk_all i held w Hw) as (Hwf & _ & Hall & _). rewrite elem_of_sortBy in Hx.
  destruct (Hall c _ b Hc Hi) as (y & Hy & Hkey & Hb). assert (y = x) as ->; [|by apply Hb].
  apply list_elem_of_lookup_1 in Hx as [n Hn]. apply list_elem_of_lookup_1 in Hy as [m Hm].
  pose proof (wf_out _ Hwf _ _ Hn) as Hn'. pose proof (wf_out _ Hwf _ _ Hm) as Hm'. rewrite Hkey, Hn' in Hm'.
  injection Hm' as ->. congruence.
Qed.

(** ** A concrete pack: a first commit with one file, and a second that adds an
    executable and then makes the file one. *)

Definition id20 (c : ascii) : Bytes := repeat c 20.
Definition oidOf (c : ascii) : string := EncodeToString (id20 c).
Definition treeLine (m n : string) (c : ascii) : Bytes := bytes (m +:+ " " +:+ n) ++ NUL :: id20 c.
Definition commitBytes (t : ascii) (ps : list ascii) : Bytes :=
  bytes ("tree " +:+ oidOf t +:+ String NL "") ++ concat (map (fun p => bytes ("parent " +:+ oidOf p +:+ String NL "")) ps)
  ++ bytes ("author a" +:+ String NL (String NL "message")).

Definition obj (t : objectType) (d : Bytes) : object := mkObject t (blen d) d.
Definition sampleIndex : index := mkIndex sha1Format (list_to_map [
  (oidOf "a", mkObject objBlob 5 []); (oidOf "b", mkObject objBlob 9 []);
  (oidOf "1", obj objTree (treeLine "100755" "run" "a"));
  (oidOf "2", obj objTree (treeLine "100755" "run" "b" ++ treeLine "40000" "vendor" "9"));
  (oidOf "c", obj objCommit (commitBytes "1" ["8"]));
  (oidOf "d", obj objCommit (commitBytes "2" ["c"]))]%char).

Definition noneHeld (o : string) : bool := false.
Definition heldFirst (o : string) : bool := String.eqb o (oidOf "c").
Definition sampleSecond : commitInfo := mkCommit (oidOf "2") [oidOf "c"].

(** With the first commit held, the push is the second commit's changes. *)
Definition sampleChanges : list Change :=
  [mkChange "run" "100755" 9 (oidOf "b") "100755"; mkChange "vendor" "40000" (-1) (oidOf "9") ""].

Lemma sample_changes : changes sampleIndex heldFirst = inr (sampleChanges, [oidOf "c"]).
Proof. vm_compute. reflexivity. Qed.

Lemma sample_second_new : newCommit sampleIndex heldFirst sampleSecond.
Proof. exists (oidOf "d"). split; [exists (obj objCommit (commitBytes "2" ["c"%char])); split_and!; by vm_compute | by vm_compute]. Qed.

Lemma changes_exact_witness :
  changes sampleIndex heldFirst = inr (sampleChanges, [oidOf "c"]) /\
  exists c b, newCommit sampleIndex heldFirst c /\ introducedBy sampleIndex c ("vendor", "40000", -1, oidOf "9") b.
Proof.
  split; [exact sample_changes|]. apply (proj1 (changes_exact _ _ _ _ sample_changes)).
  exists (mkChange "vendor" "40000" (-1) (oidOf "9") ""). split; [right; left|reflexivity].
Defined.

Lemma sample_leaf : leafAt sampleIndex "" (oidOf "2") ("vendor", "40000", -1, oidOf "9").
Proof.
  eapply (leaf_below _ "" _ _ (mkEntry "40000" "vendor" (oidOf "9"))); [by vm_compute|right; left|by vm_compute|].
  change ("vendor", "40000", -1, oidOf "9") with (trimSlash ("" +:+ "vendor" +:+ "/"), ModeUncarried, -1, oidOf "9").
  constructor. by vm_compute.
Qed.

Lemma nothing_pushed_is_left_out_witness :
  (exists x, x ∈ sampleChanges /\ changeKey x = ("vendor", "40000", -1, oidOf "9")) \/
  (exists pc, carriedParent sampleIndex sampleSecond pc) /\
  forall pc, carriedParent sampleIndex sampleSecond pc -> leafAt sampleIndex "" (ctree pc) ("vendor", "40000", -1, oidOf "9").
Proof.
  apply (nothing_pushed_is_left_out sampleIndex heldFirst sampleChanges [oidOf "c"] sampleSecond).
  - exact sample_changes.
  - exact sample_second_new.
  - exact sample_leaf.
Defined.

Definition sampleFirst : commitInfo := mkCommit (oidOf "1") [oidOf "8"].

Lemma sample_introduced : introducedBy sampleIndex sampleSecond ("run", "100755", 9, oidOf "b") "100755".
Proof.
  left. exists sampleFirst. split.
  - exists (oidOf "c"). split; [left|]. exists (obj objCommit (commitBytes "1" ["8"%char])); split_and!; by vm_compute.
  - apply (new_leaf sampleIndex "" (oidOf "1") (oidOf "2") [mkEntry "100755" "run" (oidOf "b"); mkEntry "40000" "vendor" (oidOf "9")]
      [mkEntry "100755" "run" (oidOf "a")] (mkEntry "100755" "run" (oidOf "b"))); [by vm_compute..|left|by vm_compute|by vm_compute].
Qed.

Lemma executable_base_is_unanimous_witness : IsExecutable "100755" = true.
Proof.
  apply (executable_base_is_unanimous sampleIndex heldFirst sampleChanges [oidOf "c"]
           (mkChange "run" "100755" 9 (oidOf "b") "100755") sampleSecond "100755").
  - exact sample_changes.
  - left.
  - reflexivity.
  - exact sample_second_new.
  - exact sample_introduced.
Defined.
