(* ===== verification/GitPack.v ===== *)
(** * Packfiles

    [internal/gitpack/pack.go], the packfile: [packReader] reads the objects one
    after the other, files each under the id computed from its own bytes and
    replays the deltas once their base is known, whether it comes before or after
    them; [Inspect] is the whole inspection of a receive-pack request.

    Two parts of Go's standard library are parameters: [zlib], what the stream at
    the reader's position inflates to, how many bytes it takes and whether it ends
    cleanly, and [Sum], the digest of a format. The theorems that need it assume
    that a digest has the format's width.

    The worklist of [settle] is a stack, its top first; its fuel is the number of
    deltas seen, and [GitPackSound.inspection_always_answers] shows that this is enough. *)
From S2P Require Import Prelude GoStrings GoPath PolicyTypes GoSlices PushRules PushForge GitWire GitTree GitWalk.
Local Open Scope string_scope.
Local Open Scope Z_scope.
Local Open Scope wardyn_scope.
Local Open Scope list_scope.

(** What a zlib reader at some position gives: no stream at all, or bytes, with
    the input it used, and a clean end or an error after them. *)
Inductive zstream := ZBad | ZStream (inflates : Bytes) (used : nat) (clean : bool).

Record pendingDelta := mkPending { poff : Z; pbaseOID : string; pbaseOff : Z; pdelta : Bytes }.

Record packReader := mkReader {
  br : Bytes; bsize : Z; idx : index; inflated : Z; atOffset : gmap Z string; pending : list pendingDelta;
  waitOID : gmap string (list nat); waitOff : gmap Z (list nat) }.

Section Pack.
Context (zlib : Bytes -> zstream) (Sum : hashFormat -> Bytes -> Bytes).

(** The id git gives an object: the digest of its header and its bytes. *)
Definition hashOf (f : hashFormat) (t : objectType) (d : Bytes) : string :=
  EncodeToString (Sum f (bytes (label t +:+ " " +:+ Itoa (blen d)) ++ NUL :: d)).

Definition put (i : index) (t : objectType) (d : Bytes) : index * string :=
  let k := hashOf (format i) t d in
  match byOID i !! k with
  | Some _ => (i, k)
  | None => (mkIndex (format i) (<[k := mkObject t (blen d) d]> (byOID i)), k)
  end.

Definition dropContent (o : object) : object :=
  if bool_decide (typ o = objBlob) then mkObject (typ o) (osize o) [] else o.
Definition dropBlobContent (i : index) : index := mkIndex (format i) (dropContent <$> byOID i).

(** ** The reader's fields *)

Definition setBr (p : packReader) (b : Bytes) : packReader :=
  mkReader b (bsize p) (idx p) (inflated p) (atOffset p) (pending p) (waitOID p) (waitOff p).
Definition setOffset (p : packReader) (off : Z) (oid : string) : packReader :=
  mkReader (br p) (bsize p) (idx p) (inflated p) (<[off := oid]> (atOffset p)) (pending p) (waitOID p) (waitOff p).
Definition setIdx (p : packReader) (i : index) : packReader :=
  mkReader (br p) (bsize p) i (inflated p) (atOffset p) (pending p) (waitOID p) (waitOff p).
Definition spendDelta (p : packReader) (n : nat) : packReader :=
  mkReader (br p) (bsize p) (idx p) (inflated p) (atOffset p)
    (alter (fun d => mkPending (poff d) (pbaseOID d) (pbaseOff d) []) n (pending p)) (waitOID p) (waitOff p).

Definition pos (p : packReader) : Z := bsize p - blen (br p).

Definition pcharge (p : packReader) (n : Z) : gres packReader :=
  let total := inflated p + n in
  if total >? maxInflatedBytes then inl (TooLarge "the pack inflates past the ceiling")
  else inr (mkReader (br p) (bsize p) (idx p) total (atOffset p) (pending p) (waitOID p) (waitOff p)).

Definition inflate (p : packReader) (declared : Z) : gres (Bytes * packReader) :=
  if declared >? maxObjectBytes then inl (TooLarge "an object declares more than the ceiling")
  else
    p <-? pcharge p declared;
    match zlib (br p) with
    | ZBad => inl (Malformed "an object does not open a zlib stream")
    | ZStream d used clean =>
        if blen d <? declared then inl (Malformed "an object inflates to less than it declared")
        else if blen d >? declared then inl (Malformed "an object inflates past what it declared")
        else if negb clean then inl (Malformed "an object does not inflate")
        else inr (d, setBr p (drop used (br p)))
    end.

(** ** Deltas *)

Definition park (p : packReader) (d : pendingDelta) : packReader :=
  let n := length (pending p) in
  if pbaseOff d >=? 0 then
    mkReader (br p) (bsize p) (idx p) (inflated p) (atOffset p) (pending p ++ [d]) (waitOID p)
      (<[pbaseOff d := default [] (waitOff p !! pbaseOff d) ++ [n]]> (waitOff p))
  else
    mkReader (br p) (bsize p) (idx p) (inflated p) (atOffset p) (pending p ++ [d])
      (<[pbaseOID d := default [] (waitOID p !! pbaseOID d) ++ [n]]> (waitOID p)) (waitOff p).

(** The id of the object a delta needs, once it is resolved. *)
Definition baseOID (p : packReader) (d : pendingDelta) : option string :=
  if pbaseOff d >=? 0 then
    let k := default "" (atOffset p !! pbaseOff d) in if String.eqb k "" then None else Some k
  else match byOID (idx p) !! pbaseOID d with Some _ => Some (pbaseOID d) | None => None end.

Definition take (p : packReader) (off : Z) (k : string) : list nat * packReader :=
  (default [] (waitOff p !! off) ++ default [] (waitOID p !! k),
   mkReader (br p) (bsize p) (idx p) (inflated p) (atOffset p) (pending p) (delete k (waitOID p)) (delete off (waitOff p))).

Fixpoint settleLoop (fuel : nat) (p : packReader) (work : list nat) : gres packReader :=
  match work with
  | [] => inr p
  | n :: work =>
      match fuel, pending p !! n with
      | O, _ => inl OutOfFuel
      | _, None => inl (Internal "no such delta")
      | S fuel, Some d =>
          match baseOID p d with
          | None => inl (Internal "a delta was woken without its base")
          | Some base =>
              let b := default (mkObject objCommit 0 []) (byOID (idx p) !! base) in
              out <-? applyDelta (data b) (pdelta d);
              p <-? pcharge (spendDelta p n) (blen out);
              let '(i, resolved) := put (idx p) (typ b) out in
              let p := setOffset (setIdx p i) (poff d) resolved in
              let '(more, p) := take p (poff d) resolved in
              settleLoop fuel p (rev more ++ work)
          end
      end
  end.

Definition settle (p : packReader) (off : Z) (k : string) : gres packReader :=
  let p := if off >=? 0 then setOffset p off k else p in
  let '(work, p) := take p off k in
  settleLoop (length (pending p)) p (rev work).

(** ** Objects *)

Definition wireType (t : Z) : option objectType :=
  if t =? 1 then Some objCommit else if t =? 2 then Some objTree
  else if t =? 3 then Some objBlob else if t =? 4 then Some objTag else None.

(** [case objOfsDelta]. *)
Definition ofsDelta (p : packReader) (off size : Z) : gres packReader :=
  let? (back, r) := offsetEncoding (bsize p) (br p) in
  let p := setBr p r in
  let base := off - back in
  if (back <=? 0) || (base <? 12) || match atOffset p !! base with None => true | Some _ => false end
  then inl (Malformed "a delta names a base where no object begins")
  else
    let? (d, p) := inflate p size in
    let p := park p (mkPending off "" base d) in
    let k := default "" (atOffset p !! base) in
    if String.eqb k "" then inr p else settle p base k.

(** [case objRefDelta]. *)
Definition refDelta (p : packReader) (off size : Z) : gres packReader :=
  let w := fsize (format (idx p)) in
  if (length (br p) <? w)%nat then inl (Malformed "truncated delta base id")
  else
    let k := EncodeToString (firstn w (br p)) in
    let? (d, p) := inflate (setBr p (drop w (br p))) size in
    let p := park p (mkPending off k (-1) d) in
    match byOID (idx p) !! k with
    | Some _ => settle p (-1) k
    | None => inr p
    end.

(** [packReader.object]. *)
Definition readObject (p : packReader) : gres packReader :=
  let off := pos p in
  let p := setOffset p off "" in
  let? (t, size, r) := header (br p) in
  let p := setBr p r in
  match wireType t with
  | Some t =>
      let? (d, p) := inflate p size in
      let '(i, k) := put (idx p) t d in
      settle (setIdx p i) off k
  | None =>
      if t =? 6 then ofsDelta p off size
      else if t =? 7 then refDelta p off size
      else inl (Malformed "unknown object type")
  end.

Fixpoint readObjects (n : nat) (p : packReader) : gres packReader :=
  match n with
  | O => inr p
  | S n => p <-? readObject p; readObjects n p
  end.

Definition unresolved (p : packReader) : option gitErr :=
  if negb (bool_decide (waitOID p = ∅)) then Some (Uninspectable "a delta needs a base object that is not in the pack")
  else if negb (bool_decide (waitOff p = ∅)) then Some (Uninspectable "a delta needs an object that never resolved")
  else None.

(** [binary.BigEndian.Uint32]. *)
Definition uint32 (b : Bytes) : Z := foldl (fun acc c => acc * 256 + byte_of c) 0 (firstn 4 b).

Definition newReader (body : Bytes) (f : hashFormat) : packReader :=
  mkReader (drop 12 body) (blen body) (mkIndex f ∅) 0 ∅ [] ∅ ∅.

(** Every object of the pack, read and resolved. *)
Definition readPack (pack : Bytes) (f : hashFormat) : gres packReader :=
  if blen pack <? 12 + Z.of_nat (fsize f) then inl (Malformed "packfile is shorter than its own header and trailer")
  else if negb (String.eqb (str (firstn 4 pack)) "PACK") then inl (Malformed "expected a packfile")
  else if negb (uint32 (drop 4 pack) =? 2) then inl (Malformed "unsupported pack version")
  else
    let cut := (length pack - fsize f)%nat in
    let body := firstn cut pack in
    if negb (bool_decide (Sum f body = drop cut pack)) then inl (Malformed "packfile checksum")
    else
      let count := uint32 (drop 8 pack) in
      if count >? maxObjects then inl (TooLarge "the pack claims too many objects")
      else
        p <-? readObjects (Z.to_nat count) (newReader body f);
        if negb (length (br p) =? 0)%nat then inl (Malformed "bytes follow the pack's objects")
        else match unresolved p with Some e => inl e | None => inr p end.

Definition parsePack (pack : Bytes) (f : hashFormat) : gres index :=
  p <-? readPack pack f; inr (dropBlobContent (idx p)).

(** ** The inspection *)

(** [Result], with the index that [Settle] reads again. *)
Record inspected := mkInspected { iFormat : string; iResult : Result; iIndex : option index }.

(** A push with no pack: fine when it only deletes refs. *)
Definition inspectNoPack (f : hashFormat) (cmds : list Command) : gres inspected :=
  match map Ref (List.filter (fun c => negb (isZeroOID (New c))) cmds) with
  | [] => inr (mkInspected (fname f) (mkResult cmds [] []) None)
  | missing => inl (MissingObject missing cmds)
  end.

(** A pack of no objects adds the commands to a [MissingObjectError]. *)
Definition withCommands (i : index) (cmds : list Command) (e : gitErr) : gitErr :=
  match e with
  | MissingObject refs c => MissingObject refs (if bool_decide (byOID i = ∅) then cmds else c)
  | _ => e
  end.

Definition Inspect (body : Bytes) : gres inspected :=
  let? (cmds, caps, rest) := readCommandSection body in
  f <-? objectFormat caps;
  rest <-? (if memS "push-options" (Fields caps) then skipPktSection rest else inr rest);
  if (length rest =? 0)%nat then inspectNoPack f cmds
  else
    i <-? parsePack rest f;
    match coverCommands i cmds with
    | Some e => inl (withCommands i cmds e)
    | None =>
        let? (cs, bs) := changes i (fun _ => false) in
        inr (mkInspected (fname f) (mkResult cmds cs bs) (Some i))
    end.
End Pack.
