(* ===== verification/GitPackSound.v ===== *)
(** * What a parsed pack holds

    The invariant of the reader of [GitPack.v] and what it gives: every object is
    filed under the digest of its own bytes, the inflated sizes stay within the
    budget, every header of a pack that parses is resolved to an object, and the
    deltas are never woken without their base, nor does the worklist outrun its
    fuel. Then the inspection as a whole. *)
From S2P Require Import Prelude GoStrings GoPath PolicyTypes GoSlices PushRules PushForge GitWire GitTree GitWalk GitPack.
Local Open Scope string_scope.
Local Open Scope Z_scope.
Local Open Scope wardyn_scope.
Local Open Scope list_scope.

Section Sound.
Context (zlib : Bytes -> zstream) (Sum : hashFormat -> Bytes -> Bytes).
Context (Hsum : forall f b, length (Sum f b) = fsize f).
Context (f : hashFormat) (Hf : (0 < fsize f)%nat).

Lemma hashOf_ne t d : hashOf Sum f t d <> "".
Proof.
  unfold hashOf. set (b := Sum f _). assert (Hb : (0 < length b)%nat) by (unfold b; rewrite Hsum; lia).
  clearbody b. destruct b; [cbn in Hb; lia|discriminate].
Qed.

(** The inflated size of all objects together. *)
Definition total (m : gmap string object) : Z := map_fold (fun _ o s => osize o + s) 0 m.

Lemma total_insert m k o : m !! k = None -> total (<[k := o]> m) = osize o + total m.
Proof. intros H. unfold total. rewrite map_fold_insert_L; [done| |done]. intros. lia. Qed.

Definition waiting (p : packReader) (n : nat) : Prop :=
  (exists b l, waitOff p !! b = Some l /\ n ∈ l) \/ exists k l, waitOID p !! k = Some l /\ n ∈ l.

(** The base a delta needs is resolved. *)
Definition ready (p : packReader) (d : pendingDelta) : Prop :=
  if pbaseOff d >=? 0 then exists k, atOffset p !! pbaseOff d = Some k /\ k <> "" /\ is_Some (byOID (idx p) !! k)
  else is_Some (byOID (idx p) !! pbaseOID d).

(** The invariant of the reader with the deltas of [work] woken. [X] and [Y] are
    the offsets and ids whose waiters are about to be woken, [cur] the object
    being read. *)
Record packInv (X : Z -> Prop) (Y : string -> Prop) (cur : option Z) (p : packReader) (work : list nat) : Prop := mkPackInv {
  pi_format : format (idx p) = f;
  pi_pos : blen (br p) + 12 <= bsize p;
  pi_addr : forall k o, byOID (idx p) !! k = Some o ->
    k = hashOf Sum f (typ o) (data o) /\ osize o = blen (data o) /\ blen (data o) <= maxObjectBytes;
  pi_budget : total (byOID (idx p)) <= inflated p <= maxInflatedBytes;
  pi_offs : forall off k, atOffset p !! off = Some k -> k = "" \/ is_Some (byOID (idx p) !! k);
  pi_waitOff : forall b l, waitOff p !! b = Some l ->
    0 <= b /\ NoDup l /\ (forall n, n ∈ l -> exists d, pending p !! n = Some d /\ pbaseOff d = b) /\ (X b \/ atOffset p !! b = Some "");
  pi_waitOID : forall k l, waitOID p !! k = Some l ->
    NoDup l /\ (forall n, n ∈ l -> exists d, pending p !! n = Some d /\ pbaseOff d = -1 /\ pbaseOID d = k) /\
    (Y k \/ byOID (idx p) !! k = None);
  pi_work : forall n, n ∈ work -> ~ waiting p n /\ exists d, pending p !! n = Some d /\ ready p d;
  pi_nodup : NoDup work;
  pi_owed : forall off, atOffset p !! off = Some "" -> cur = Some off \/
    exists n d, (n ∈ work \/ waiting p n) /\ pending p !! n = Some d /\ poff d = off }.

Definition nowhere {A} (_ : A) : Prop := False.

(** The invariant between objects. *)
Definition calm (p : packReader) : Prop := packInv nowhere nowhere None p [].

Lemma newReader_calm body : 12 <= blen body -> calm (newReader body f).
Proof.
  intros Hb. constructor; cbn; try done; try (intros; by rewrite lookup_empty in * ).
  - unfold blen in *. rewrite length_drop. lia.
  - intros n Hn. by apply not_elem_of_nil in Hn.
  - constructor.
Qed.

Lemma waiting_lt X Y cur p work n : packInv X Y cur p work -> waiting p n -> (n < length (pending p))%nat.
Proof.
  intros H [(b & l & Hl & Hn)|(k & l & Hl & Hn)].
  - destruct (pi_waitOff _ _ _ _ _ H _ _ Hl) as (_ & _ & Hd & _). destruct (Hd n Hn) as (d & Hp & _). by eapply lookup_lt_Some.
  - destruct (pi_waitOID _ _ _ _ _ H _ _ Hl) as (_ & Hd & _). destruct (Hd n Hn) as (d & Hp & _). by eapply lookup_lt_Some.
Qed.

(** ** Waking *)

Lemma elem_of_reverse_iff {A} (x : A) l : x ∈ rev l <-> x ∈ l.
Proof. by rewrite !list_elem_of_In, <- in_rev. Qed.

Lemma in_rev_list {A} (x : A) l : x ∈ rev l -> x ∈ l.
Proof. apply elem_of_reverse_iff. Qed.

(** Where a delta waits says what it waits for. *)
Lemma waitOff_base X Y cur p work b l n : packInv X Y cur p work -> waitOff p !! b = Some l -> n ∈ l ->
  exists d, pending p !! n = Some d /\ pbaseOff d = b /\ 0 <= b.
Proof. intros H Hl Hn. destruct (pi_waitOff _ _ _ _ _ H _ _ Hl) as (? & _ & Hd & _). destruct (Hd n Hn) as (d & ? & ?). eauto. Qed.

Lemma waitOID_base X Y cur p work k l n : packInv X Y cur p work -> waitOID p !! k = Some l -> n ∈ l ->
  exists d, pending p !! n = Some d /\ pbaseOff d = -1 /\ pbaseOID d = k.
Proof. intros H Hl Hn. destruct (pi_waitOID _ _ _ _ _ H _ _ Hl) as (_ & Hd & _). by apply Hd. Qed.

Ltac waitFacts H :=
  repeat match goal with
  | Hl : waitOff _ !! _ = Some ?l, Hn : ?n ∈ ?l |- _ => destruct (waitOff_base _ _ _ _ _ _ _ _ H Hl Hn) as (? & ? & ? & ?); clear Hn
  | Hl : waitOID _ !! _ = Some ?l, Hn : ?n ∈ ?l |- _ => destruct (waitOID_base _ _ _ _ _ _ _ _ H Hl Hn) as (? & ? & ? & ?); clear Hn
  end; simplify_eq; try lia.

Lemma elem_of_waitList {K} `{Countable K} (m : gmap K (list nat)) k n : n ∈ default [] (m !! k) -> exists l, m !! k = Some l /\ n ∈ l.
Proof. destruct (m !! k) as [l|]; cbn; [eauto|]. intros Hn. by apply not_elem_of_nil in Hn. Qed.

Lemma take_more X Y cur p work off k more p' : packInv X Y cur p work -> take p off k = (more, p') ->
  NoDup more /\ (forall n, n ∈ more -> waiting p n /\ ~ waiting p' n) /\
  (forall n, waiting p n <-> waiting p' n \/ n ∈ more).
Proof.
  intros H Ht. unfold take in Ht. injection Ht as <- <-.
  set (p' := mkReader _ _ _ _ _ _ _ _).
  assert (Hin : forall n, n ∈ default [] (waitOff p !! off) ++ default [] (waitOID p !! k) ->
    (exists l, waitOff p !! off = Some l /\ n ∈ l) \/ exists l, waitOID p !! k = Some l /\ n ∈ l).
  { intros n [Hn|Hn]%elem_of_app; apply elem_of_waitList in Hn; tauto. }
  split_and!.
  - apply NoDup_app. split_and!.
    + destruct (waitOff p !! off) as [l|] eqn:E; [|constructor]. by apply (pi_waitOff _ _ _ _ _ H _ _ E).
    + intros n H1 H2. apply elem_of_waitList in H1 as (l1 & ? & ?). apply elem_of_waitList in H2 as (l2 & ? & ?). waitFacts H.
    + destruct (waitOID p !! k) as [l|] eqn:E; [|constructor]. by apply (pi_waitOID _ _ _ _ _ H _ _ E).
  - intros n Hn. split; [destruct (Hin n Hn) as [(l & ? & ?)|(l & ? & ?)]; [left|right]; eauto|].
    intros [(b & l & Hl & Hnl)|(q & l & Hl & Hnl)]; cbn in Hl; apply lookup_delete_Some in Hl as [Hne Hl];
      destruct (Hin n Hn) as [(l' & ? & ?)|(l' & ? & ?)]; waitFacts H.
  - intros n. split.
    + intros [(b & l & Hl & Hnl)|(q & l & Hl & Hnl)].
      * destruct (decide (b = off)) as [->|Hne]; [right; apply elem_of_app; left; by rewrite Hl|].
        left. left. exists b, l. split; [|done]. cbn. by rewrite lookup_delete_ne.
      * destruct (decide (q = k)) as [->|Hne]; [right; apply elem_of_app; right; by rewrite Hl|].
        left. right. exists q, l. split; [|done]. cbn. by rewrite lookup_delete_ne.
    + intros [[(b & l & Hl & Hnl)|(q & l & Hl & Hnl)]|Hn].
      * cbn in Hl. apply lookup_delete_Some in Hl as [_ Hl]. left. eauto.
      * cbn in Hl. apply lookup_delete_Some in Hl as [_ Hl]. right. eauto.
      * destruct (Hin n Hn) as [(l & ? & ?)|(l & ? & ?)]; [left|right]; eauto.
Qed.

(** The waiters taken for a resolved object are ready. *)
Lemma take_ready X Y cur p work off k more p' n : packInv X Y cur p work -> take p off k = (more, p') ->
  (0 <= off -> atOffset p !! off = Some k) -> k <> "" -> is_Some (byOID (idx p) !! k) ->
  n ∈ more -> exists d, pending p !! n = Some d /\ ready p d.
Proof.
  intros H Ht Hat Hk Hin Hn. unfold take in Ht. injection Ht as <- _. apply elem_of_app in Hn as [Hn|Hn];
    apply elem_of_waitList in Hn as (l & Hl & Hn).
  - destruct (waitOff_base _ _ _ _ _ _ _ _ H Hl Hn) as (d & Hd & Hb & H0). exists d. split; [done|]. unfold ready.
    rewrite Hb. assert (off >=? 0 = true) as -> by (apply Z.geb_le; lia). exists k. eauto.
  - destruct (waitOID_base _ _ _ _ _ _ _ _ H Hl Hn) as (d & Hd & Hb & Hb'). exists d. split; [done|]. unfold ready.
    rewrite Hb, Hb'. done.
Qed.

Lemma take_inv X Y p work off k more p' :
  packInv X Y None p work -> (forall b, X b -> b = off) -> (forall q, Y q -> q = k) ->
  (0 <= off -> atOffset p !! off = Some k) -> k <> "" -> is_Some (byOID (idx p) !! k) ->
  take p off k = (more, p') -> packInv nowhere nowhere None p' (rev more ++ work).
Proof.
  intros H HX HY Hat Hk Hin Ht. destruct (take_more _ _ _ _ _ _ _ _ _ H Ht) as (Hnd & Hmore & Hiff).
  assert (Hready : forall n, n ∈ more -> exists d, pending p !! n = Some d /\ ready p d).
  { intros n. by eapply take_ready. }
  destruct H as [Hfm Hpos Haddr Hbud Hoffs Hwo Hwi Hwork Hndw Howed]. unfold take in Ht. injection Ht as Em <-.
  constructor; cbn; try done.
  - intros b l [Hne Hl]%lookup_delete_Some. destruct (Hwo b l Hl) as (? & ? & ? & [Hb|?]); [|tauto]. by apply HX in Hb.
  - intros q l [Hne Hl]%lookup_delete_Some. destruct (Hwi q l Hl) as (? & ? & [Hq|?]); [|tauto]. by apply HY in Hq.
  - intros n [Hn%in_rev_list|Hn]%elem_of_app; [split; [exact (proj2 (Hmore n Hn))|exact (Hready n Hn)]|].
    destruct (Hwork n Hn) as [Hnw ?]. split; [|done]. intros Hw. apply Hnw, Hiff. by left.
  - apply NoDup_app. split_and!; [by apply NoDup_ListNoDup, NoDup_rev, NoDup_ListNoDup| |done].
    intros n Hn%in_rev_list Hw. destruct (Hwork n Hw) as [Hnw _]. exact (Hnw (proj1 (Hmore n Hn))).
  - intros o Ho. destruct (Howed o Ho) as [?|(n & d & Hn & ?)]; [done|]. right. exists n, d. split; [|done].
    rewrite elem_of_app, elem_of_reverse_iff. destruct Hn as [?|Hn]; [tauto|]. apply Hiff in Hn. tauto.
Qed.

(** ** The single steps *)

Lemma ready_mono p p' d : (forall k, is_Some (byOID (idx p) !! k) -> is_Some (byOID (idx p') !! k)) ->
  (forall off k, atOffset p !! off = Some k -> k <> "" -> exists k', atOffset p' !! off = Some k' /\ k' <> "" /\
     (is_Some (byOID (idx p) !! k) -> is_Some (byOID (idx p') !! k'))) ->
  ready p d -> ready p' d.
Proof.
  intros Hi Ho. unfold ready. destruct (pbaseOff d >=? 0); [|apply Hi].
  intros (k & Hk & Hne & Hin). destruct (Ho _ _ Hk Hne) as (k' & ? & ? & Hin'). exists k'. auto.
Qed.

Lemma packInv_weaken (X X' : Z -> Prop) (Y Y' : string -> Prop) cur p work :
  (forall b, X b -> X' b \/ atOffset p !! b = Some "") -> (forall q, Y q -> Y' q \/ byOID (idx p) !! q = None) ->
  packInv X Y cur p work -> packInv X' Y' cur p work.
Proof.
  intros HX HY [? ? ? ? ? Hwo Hwi ? ? ?]. constructor; try done.
  - intros b l Hl. destruct (Hwo b l Hl) as (? & ? & ? & [Hb|?]); [|tauto]. apply HX in Hb. tauto.
  - intros q l Hl. destruct (Hwi q l Hl) as (? & ? & [Hq|?]); [|tauto]. apply HY in Hq. tauto.
Qed.

Lemma fueled_pcharge p n : fueled (pcharge p n).
Proof. unfold pcharge. by destruct (_ >? _). Qed.

Lemma pcharge_inv X Y cur p n p' work : pcharge p n = inr p' -> 0 <= n -> packInv X Y cur p work ->
  packInv X Y cur p' work /\ total (byOID (idx p')) + n <= inflated p' /\ br p' = br p /\ bsize p' = bsize p /\
  atOffset p' = atOffset p /\ idx p' = idx p /\ pending p' = pending p /\ waitOff p' = waitOff p /\ waitOID p' = waitOID p.
Proof.
  unfold pcharge. destruct (_ >? _) eqn:E; [discriminate|]. intros [= <-] Hn [? ? ? [? ?] ? ? ? ? ? ?]. cbn. bool_prop.
  split_and!; try done; [|lia]. constructor; cbn; try done. lia.
Qed.

Lemma setBr_inv X Y cur p b work : blen b <= blen (br p) -> packInv X Y cur p work -> packInv X Y cur (setBr p b) work.
Proof. intros Hb []. constructor; try done. cbn. lia. Qed.

Lemma put_inv X Y cur p t d i k work : put Sum (idx p) t d = (i, k) -> blen d <= maxObjectBytes ->
  total (byOID (idx p)) + blen d <= inflated p -> packInv X Y cur p work ->
  packInv X (fun q => Y q \/ q = k) cur (setIdx p i) work /\ k <> "" /\ is_Some (byOID i !! k).
Proof.
  intros Hput Hmax Htot [Hfm Hpos Haddr [Hb1 Hb2] Hoffs Hwo Hwi Hwork Hnd Howed].
  assert (Hne : k <> "").
  { unfold put in Hput. destruct (byOID (idx p) !! _); injection Hput as _ <-; rewrite Hfm; apply hashOf_ne. }
  assert (Hmono : forall q, is_Some (byOID (idx p) !! q) -> is_Some (byOID i !! q)).
  { intros q Hq. unfold put in Hput. destruct (byOID (idx p) !! hashOf Sum (format (idx p)) t d) eqn:E; injection Hput as <- _; [done|]. cbn.
    destruct (decide (hashOf Sum (format (idx p)) t d = q)) as [->|?]; [rewrite lookup_insert_eq; by eexists|by rewrite lookup_insert_ne]. }
  assert (Hother : forall q, q <> k -> byOID i !! q = byOID (idx p) !! q).
  { intros q Hq. unfold put in Hput. destruct (byOID (idx p) !! hashOf Sum (format (idx p)) t d); injection Hput as <- <-; [done|]. cbn. by rewrite lookup_insert_ne. }
  split_and!; [|done|].
  - constructor; cbn; try done.
    + unfold put in Hput. by destruct (byOID (idx p) !! _); injection Hput as <- _.
    + unfold put in Hput. destruct (byOID (idx p) !! _); injection Hput as <- <-; [apply Haddr|]. cbn. intros q o [[<- <-]|[_ Hq]]%lookup_insert_Some; [|by apply Haddr].
      cbn. by rewrite Hfm.
    + unfold put in Hput. destruct (byOID (idx p) !! _) eqn:E; injection Hput as <- <-; [lia|]. cbn. rewrite total_insert by done. cbn. lia.
    + intros off q Hq. destruct (Hoffs off q Hq); [by left|]. right. by apply Hmono.
    + intros q l Hl. destruct (Hwi q l Hl) as (? & ? & Hor). split_and!; [done..|].
      destruct (decide (q = k)) as [->|Hqk]; [tauto|]. rewrite Hother by done. tauto.
    + intros n Hn. destruct (Hwork n Hn) as [? (x & Hx & Hr)]. split; [done|]. exists x. split; [done|].
      eapply ready_mono; [| |exact Hr]; [done|]. cbn. intros off q Hq Hqne. eauto.
  - unfold put in Hput. destruct (byOID (idx p) !! _) eqn:E; injection Hput as <- <-; [by rewrite E; eexists|]. cbn. rewrite lookup_insert_eq. by eexists.
Qed.

Lemma setOffset_inv X Y cur p off k work : packInv X Y cur p work -> cur = None \/ cur = Some off -> k <> "" ->
  is_Some (byOID (idx p) !! k) -> packInv (fun b => X b \/ b = off) Y None (setOffset p off k) work.
Proof.
  intros [Hfm Hpos Haddr Hbud Hoffs Hwo Hwi Hwork Hnd Howed] Hcur Hk Hin. constructor; cbn; try done.
  - intros o q [[_ <-]|[_ Hq]]%lookup_insert_Some; [by right | by eapply Hoffs].
  - intros b l Hl. destruct (Hwo b l Hl) as (? & ? & ? & Hor). split_and!; [done..|].
    destruct (decide (b = off)) as [->|Hne]; [tauto|]. rewrite lookup_insert_ne by done. tauto.
  - intros n Hn. destruct (Hwork n Hn) as [? (x & Hx & Hr)]. split; [done|]. exists x. split; [done|].
    eapply ready_mono; [| |exact Hr]; [done|]. cbn. intros o q Hq Hqne.
    destruct (decide (off = o)) as [->|Hne]; [exists k; by rewrite lookup_insert_eq | exists q; by rewrite lookup_insert_ne].
  - intros o [[_ ?]|[Hne Ho]]%lookup_insert_Some; [done|]. destruct (Howed o Ho) as [->|?]; [|by right].
    destruct Hcur as [?|[= ->]]; done.
Qed.

Lemma setOffset_begin p off : calm p -> packInv nowhere nowhere (Some off) (setOffset p off "") [].
Proof.
  intros [Hfm Hpos Haddr Hbud Hoffs Hwo Hwi Hwork Hnd Howed]. constructor; cbn; try done.
  - intros o q [[_ <-]|[_ Hq]]%lookup_insert_Some; [by left | by eapply Hoffs].
  - intros b l Hl. destruct (Hwo b l Hl) as (? & ? & ? & [[]|?]). split_and!; [done..|]. right.
    destruct (decide (off = b)) as [->|Hne]; [by rewrite lookup_insert_eq | by rewrite lookup_insert_ne].
  - intros n Hn. by apply not_elem_of_nil in Hn.
  - intros o [[<- _]|[_ Ho]]%lookup_insert_Some; [by left|]. destruct (Howed o Ho) as [?|?]; [done|by right].
Qed.

(** A new delta at the end of [pending], parked on one list. *)
Lemma parked_list (l : list nat) (ps : list pendingDelta) d (P : pendingDelta -> Prop) :
  NoDup l -> (forall n, n ∈ l -> exists x, ps !! n = Some x /\ P x) -> P d ->
  NoDup (l ++ [length ps]) /\ forall n, n ∈ l ++ [length ps] -> exists x, (ps ++ [d]) !! n = Some x /\ P x.
Proof.
  intros Hnd Hl Hd. split.
  - apply NoDup_app. split_and!; [done| |apply NoDup_singleton]. intros n Hn Hn'. apply list_elem_of_singleton in Hn' as ->.
    destruct (Hl _ Hn) as (x & Hx & _). apply lookup_lt_Some in Hx. lia.
  - intros n Hn. apply elem_of_app in Hn as [Hn|Hn].
    + destruct (Hl n Hn) as (x & Hx & ?). exists x. split; [|done]. by apply lookup_app_l_Some.
    + apply list_elem_of_singleton in Hn as ->. exists d. split; [|done]. by apply list_lookup_middle.
Qed.

Lemma waitList_ok {K} `{Countable K} (m : gmap K (list nat)) k (ps : list pendingDelta) (P : pendingDelta -> Prop) :
  (forall l, m !! k = Some l -> NoDup l /\ forall n, n ∈ l -> exists x, ps !! n = Some x /\ P x) ->
  NoDup (default [] (m !! k)) /\ forall n, n ∈ default [] (m !! k) -> exists x, ps !! n = Some x /\ P x.
Proof.
  intros Hm. destruct (m !! k) as [l|]; [by apply Hm|]. split; [constructor|]. intros n Hn. by apply not_elem_of_nil in Hn.
Qed.

Lemma park_off_inv p off base d : packInv nowhere nowhere (Some off) p [] -> 0 <= base ->
  packInv (eq base) nowhere None (park p (mkPending off "" base d)) [].
Proof.
  intros [Hfm Hpos Haddr Hbud Hoffs Hwo Hwi Hwork Hnd Howed] Hb. unfold park. cbn [pbaseOff].
  assert (base >=? 0 = true) as -> by (apply Z.geb_le; lia).
  destruct (waitList_ok (waitOff p) base (pending p) (fun x => pbaseOff x = base)) as [Hn1 Hn2].
  { intros l Hl. destruct (Hwo _ _ Hl) as (_ & ? & ? & _). done. }
  destruct (parked_list _ _ (mkPending off "" base d) (fun x => pbaseOff x = base) Hn1 Hn2 eq_refl) as [Hl1 Hl2].
  set (p' := mkReader _ _ _ _ _ _ _ _).
  assert (Hw : forall n, waiting p n -> waiting p' n).
  { intros n [(b & l & Hl & Hn)|?]; [|by right]. left. destruct (decide (base = b)) as [<-|Hne].
    - eexists base, _. cbn. rewrite lookup_insert_eq. split; [done|]. rewrite Hl. apply elem_of_app. by left.
    - exists b, l. cbn. by rewrite lookup_insert_ne. }
  constructor; cbn; try done.
  - intros b l [[<- <-]|[Hne Hl]]%lookup_insert_Some; [split_and!; [done..|by left]|].
    destruct (Hwo b l Hl) as (? & ? & Hx & [[]|?]). split_and!; [done..| |by right].
    intros n Hn. destruct (Hx n Hn) as (x & ? & ?). exists x. split; [by apply lookup_app_l_Some|done].
  - intros k l Hl. destruct (Hwi k l Hl) as (? & Hx & [[]|?]). split_and!; [done| |by right].
    intros n Hn. destruct (Hx n Hn) as (x & ? & ?). exists x. split; [by apply lookup_app_l_Some|done].
  - intros n Hn. by apply not_elem_of_nil in Hn.
  - intros o Ho. right. destruct (Howed o Ho) as [[= <-]|(n & x & [Hn|Hn] & Hx & ?)].
    + eexists (length (pending p)), _. split; [right|split; [by apply list_lookup_middle|done]].
      left. eexists base, _. cbn. rewrite lookup_insert_eq. split; [done|]. apply elem_of_app. right. by apply list_elem_of_singleton.
    + by apply not_elem_of_nil in Hn.
    + exists n, x. split_and!; [right; by apply Hw|by apply lookup_app_l_Some|done].
Qed.

Lemma park_ref_inv p off k d : packInv nowhere nowhere (Some off) p [] ->
  packInv nowhere (eq k) None (park p (mkPending off k (-1) d)) [].
Proof.
  intros [Hfm Hpos Haddr Hbud Hoffs Hwo Hwi Hwork Hnd Howed]. unfold park. cbn [pbaseOff pbaseOID Z.geb Z.compare].
  destruct (waitList_ok (waitOID p) k (pending p) (fun x => pbaseOff x = -1 /\ pbaseOID x = k)) as [Hn1 Hn2].
  { intros l Hl. destruct (Hwi _ _ Hl) as (? & ? & _). done. }
  destruct (parked_list _ _ (mkPending off k (-1) d) (fun x => pbaseOff x = -1 /\ pbaseOID x = k) Hn1 Hn2 (conj eq_refl eq_refl)) as [Hl1 Hl2].
  set (p' := mkReader _ _ _ _ _ _ _ _).
  assert (Hw : forall n, waiting p n -> waiting p' n).
  { intros n [?|(q & l & Hl & Hn)]; [by left|]. right. destruct (decide (k = q)) as [<-|Hne].
    - eexists k, _. cbn. rewrite lookup_insert_eq. split; [done|]. rewrite Hl. apply elem_of_app. by left.
    - exists q, l. cbn. by rewrite lookup_insert_ne. }
  constructor; cbn; try done.
  - intros b l Hl. destruct (Hwo b l Hl) as (? & ? & Hx & [[]|?]). split_and!; [done..| |by right].
    intros n Hn. destruct (Hx n Hn) as (x & ? & ?). exists x. split; [by apply lookup_app_l_Some|done].
  - intros q l [[<- <-]|[Hne Hl]]%lookup_insert_Some; [split_and!; [done..|by left]|].
    destruct (Hwi q l Hl) as (? & Hx & [[]|?]). split_and!; [done| |by right].
    intros n Hn. destruct (Hx n Hn) as (x & ? & ?). exists x. split; [by apply lookup_app_l_Some|done].
  - intros n Hn. by apply not_elem_of_nil in Hn.
  - intros o Ho. right. destruct (Howed o Ho) as [[= <-]|(n & x & [Hn|Hn] & Hx & ?)].
    + eexists (length (pending p)), _. split; [right|split; [by apply list_lookup_middle|done]].
      right. eexists k, _. cbn. rewrite lookup_insert_eq. split; [done|]. apply elem_of_app. right. by apply list_elem_of_singleton.
    + by apply not_elem_of_nil in Hn.
    + exists n, x. split_and!; [right; by apply Hw|by apply lookup_app_l_Some|done].
Qed.

(** ** The worklist *)

Lemma spend_lookup p n m d : pending p !! m = Some d ->
  exists d', pending (spendDelta p n) !! m = Some d' /\ poff d' = poff d /\ pbaseOff d' = pbaseOff d /\ pbaseOID d' = pbaseOID d.
Proof.
  intros Hd. cbn. rewrite list_lookup_alter. case_decide as E; [subst; rewrite Hd; cbn; eauto|eauto].
Qed.

(** A woken delta leaves the worklist with the object it stands for still owed. *)
Lemma spend_inv p n d work : packInv nowhere nowhere None p (n :: work) -> pending p !! n = Some d ->
  packInv nowhere nowhere (Some (poff d)) (spendDelta p n) work /\ ~ waiting (spendDelta p n) n /\ n ∉ work.
Proof.
  intros [Hfm Hpos Haddr Hbud Hoffs Hwo Hwi Hwork Hnd Howed] Hd. apply NoDup_cons in Hnd as [Hni Hnd].
  split_and!; [|destruct (Hwork n ltac:(left)) as [Hnw _]; exact Hnw|done].
  assert (Hpend : forall m (P : pendingDelta -> Prop), (forall x y, poff x = poff y -> pbaseOff x = pbaseOff y -> pbaseOID x = pbaseOID y -> P y -> P x) ->
    (exists x, pending p !! m = Some x /\ P x) -> exists x, pending (spendDelta p n) !! m = Some x /\ P x).
  { intros m P HP (x & Hx & Px). destruct (spend_lookup p n m x Hx) as (x' & ? & ? & ? & ?). exists x'. split; [done|]. by eapply HP. }
  constructor; try done.
  - intros b l Hl. destruct (Hwo b l Hl) as (? & ? & Hx & Hor). split_and!; [done..| |done].
    intros m Hm. apply Hpend; [congruence|]. by apply Hx.
  - intros q l Hl. destruct (Hwi q l Hl) as (? & Hx & Hor). split_and!; [done| |done].
    intros m Hm. destruct (Hx m Hm) as (x & ? & ? & ?). apply (Hpend m (fun x => pbaseOff x = -1 /\ pbaseOID x = q)); [|eauto].
    intros x1 y1 _ -> ->. done.
  - intros m Hm. destruct (Hwork m ltac:(by right)) as [Hnw Hr]. split; [exact Hnw|]. apply (Hpend m (ready p)); [|done].
    intros x y _ E1 E2. unfold ready. by rewrite E1, E2.
  - intros o Ho. destruct (Howed o Ho) as [?|(m & x & Hm & Hx & Hxo)]; [done|].
    destruct (decide (m = n)) as [->|Hne].
    + left. rewrite Hd in Hx. injection Hx as <-. by rewrite Hxo.
    + right. destruct (spend_lookup p n m x Hx) as (x' & Hx' & Ho' & _). exists m, x'. split_and!; [|done|congruence].
      destruct Hm as [Hm|Hm]; [left; apply elem_of_cons in Hm as [?|?]; done|right; exact Hm].
Qed.

Lemma ready_base p d : ready p d -> exists k o, baseOID p d = Some k /\ byOID (idx p) !! k = Some o.
Proof.
  unfold ready, baseOID. destruct (pbaseOff d >=? 0).
  - intros (k & Hk & Hne & o & Ho). exists k, o. rewrite Hk. cbn [default from_option id option_rect].
    destruct (String.eqb_spec k ""); done.
  - intros [o Ho]. exists (pbaseOID d), o. by rewrite Ho.
Qed.

Lemma bounded_nodup (l : list nat) n : NoDup l -> (forall x, x ∈ l -> (x < n)%nat) -> (length l <= n)%nat.
Proof.
  intros Hnd Hlt. rewrite <- (length_seq n 0). apply submseteq_length, NoDup_submseteq; [done|].
  intros x Hx. apply elem_of_seq. specialize (Hlt x Hx). lia.
Qed.

(** One turn: the popped delta is resolved, and what waited for it is pushed. *)
Lemma settle_turn p n work d k o out p1 i r more p3 :
  packInv nowhere nowhere None p (n :: work) -> pending p !! n = Some d -> byOID (idx p) !! k = Some o ->
  applyDelta (data o) (pdelta d) = inr out -> pcharge (spendDelta p n) (blen out) = inr p1 ->
  put Sum (idx p1) (typ o) out = (i, r) -> take (setOffset (setIdx p1 i) (poff d) r) (poff d) r = (more, p3) ->
  packInv nowhere nowhere None p3 (rev more ++ work) /\ length (pending p3) = length (pending p) /\
  br p3 = br p /\ bsize p3 = bsize p /\
  (forall m, waiting p3 m -> waiting p m) /\ (forall m, m ∈ more -> waiting p m) /\ n ∉ work /\ ~ waiting p n.
Proof.
  intros H Hd Ho Hdelta Hch Hput Htake.
  destruct (spend_inv _ _ _ _ H Hd) as (H1 & Hnw & Hni).
  destruct (pcharge_inv _ _ _ _ _ _ _ Hch ltac:(unfold blen; lia) H1) as (H2 & Htot & Ebr & Ebs & Eat & Eidx & Epend & Ewo & Ewi).
  destruct (put_inv _ _ _ _ _ _ _ _ _ Hput (applyDelta_bound _ _ _ Hdelta) Htot H2) as (H3 & Hne & Hin).
  pose proof (setOffset_inv _ _ _ _ (poff d) r _ H3 (or_intror eq_refl) Hne Hin) as H4.
  destruct (take_more _ _ _ _ _ _ _ _ _ H4 Htake) as (_ & Hmore & Hiff).
  assert (Hwait : forall m, waiting (setOffset (setIdx p1 i) (poff d) r) m <-> waiting p m).
  { intros m. unfold waiting. cbn. by rewrite Ewo, Ewi. }
  assert (H5 : packInv nowhere nowhere None p3 (rev more ++ work)).
  { eapply take_inv; [exact H4|..|exact Htake]; cbn; try done.
    - by intros b [[]|?].
    - by intros q [[]|?].
    - intros _. by rewrite lookup_insert_eq. }
  assert (Hsame : pending p3 = pending p1 /\ br p3 = br p1 /\ bsize p3 = bsize p1).
  { unfold take in Htake. by injection Htake as _ <-. }
  destruct Hsame as (-> & -> & ->). rewrite Epend, Ebr, Ebs. split_and!; try done.
  - apply length_alter.
  - intros m Hm. apply Hwait, Hiff. by left.
  - intros m Hm. apply Hwait. by apply Hmore.
Qed.

Lemma settleLoop_ok fuel p work D : packInv nowhere nowhere None p work -> NoDup (D ++ work) ->
  (forall n, n ∈ D -> (n < length (pending p))%nat /\ ~ waiting p n) -> (length (pending p) <= length D + fuel)%nat ->
  fueled (settleLoop Sum fuel p work) /\
  forall p', settleLoop Sum fuel p work = inr p' -> calm p' /\ br p' = br p /\ bsize p' = bsize p.
Proof.
  revert p work D. induction fuel as [|fuel IH]; intros p [|n work] D H Hnd HD Hlen; cbn [settleLoop].
  1,3: split; [done|]; intros p' [= <-]; done.
  all: destruct (pi_work _ _ _ _ _ H n ltac:(left)) as (Hnw & d & Hd & Hr).
  { exfalso. assert (length (D ++ n :: work) <= length (pending p))%nat; [|rewrite length_app in *; cbn in *; lia].
    apply bounded_nodup; [done|]. intros x Hx. apply elem_of_app in Hx as [Hx|Hx]; [by apply HD|].
    destruct (pi_work _ _ _ _ _ H x Hx) as (_ & y & Hy & _). by eapply lookup_lt_Some. }
  rewrite Hd. destruct (ready_base _ _ Hr) as (k & o & Hk & Ho). rewrite Hk, Ho. cbn [default from_option id option_rect].
  destruct (applyDelta (data o) (pdelta d)) as [e|out] eqn:Hdelta; cbn [gbind].
  { split; [|discriminate]. pose proof (fueled_applyDelta (data o) (pdelta d)) as Hfu. by rewrite Hdelta in Hfu. }
  destruct (pcharge (spendDelta p n) (blen out)) as [e|p1] eqn:Hch; cbn [gbind].
  { split; [|discriminate]. pose proof (fueled_pcharge (spendDelta p n) (blen out)) as Hfu. by rewrite Hch in Hfu. }
  destruct (put Sum (idx p1) (typ o) out) as [i r] eqn:Hput. destruct (take _ (poff d) r) as [more p3] eqn:Htake.
  destruct (settle_turn _ _ _ _ _ _ _ _ _ _ _ _ H Hd Ho Hdelta Hch Hput Htake) as (H3 & Hlen3 & Hbr & Hbs & Hw & Hm & Hni & _).
  destruct (IH p3 (rev more ++ work) (n :: D) H3) as [Hfu Hres].
  - apply NoDup_app in Hnd as (HndD & Hdis & Hndw). cbn. apply NoDup_cons. split.
    + rewrite !elem_of_app. intros [HnD|[Hnm|?]]; [by apply (Hdis n HnD); left| |done].
      apply Hnw, Hm. by apply in_rev_list.
    + apply NoDup_app. split_and!; [done| |exact (pi_nodup _ _ _ _ _ H3)]. intros x HxD Hx. apply elem_of_app in Hx as [Hx|Hx].
      * apply (HD x HxD). apply Hm. by apply in_rev_list.
      * apply (Hdis x HxD). by right.
  - intros x Hx. rewrite Hlen3. apply elem_of_cons in Hx as [->|Hx].
    + split; [by eapply lookup_lt_Some|]. intros ?. by apply Hnw, Hw.
    + destruct (HD x Hx) as [? Hnx]. split; [done|]. intros ?. by apply Hnx, Hw.
  - rewrite Hlen3. cbn. lia.
  - split; [done|]. intros p' Hp'. destruct (Hres p' Hp') as (? & -> & ->). done.
Qed.

Lemma settle_ok X Y cur p off k : packInv X Y cur p [] -> (forall b, X b -> b = off) -> (forall q, Y q -> q = k) ->
  k <> "" -> is_Some (byOID (idx p) !! k) -> (0 <= off /\ (cur = None \/ cur = Some off) \/ off = -1 /\ cur = None) ->
  fueled (settle Sum p off k) /\ forall p', settle Sum p off k = inr p' -> calm p' /\ br p' = br p /\ bsize p' = bsize p.
Proof.
  intros H HX HY Hk Hin Hoff. unfold settle.
  set (p0 := if off >=? 0 then setOffset p off k else p). destruct (take p0 off k) as [work p1] eqn:Ht.
  assert (H0 : packInv (fun b => X b \/ b = off) Y None p0 [] /\ (0 <= off -> atOffset p0 !! off = Some k) /\
    is_Some (byOID (idx p0) !! k) /\ br p0 = br p /\ bsize p0 = bsize p).
  { unfold p0. destruct Hoff as [[H0 Hc]|[-> ->]].
    - assert (off >=? 0 = true) as -> by (apply Z.geb_le; lia). split_and!; try done; [by eapply setOffset_inv|].
      intros _. cbn. by rewrite lookup_insert_eq.
    - cbn. split_and!; try done. eapply packInv_weaken; [| |exact H]; intros ? ?; left; [left|]; done. }
  destruct H0 as (H0 & Hat & Hin0 & Hbr & Hbs).
  assert (H1 : packInv nowhere nowhere None p1 (rev work)).
  { rewrite <- (app_nil_r (rev work)). eapply take_inv; [exact H0|..|exact Ht]; try done. by intros b [?%HX|?]. }
  destruct (settleLoop_ok (length (pending p1)) p1 (rev work) [] H1) as [Hfu Hres]; [exact (pi_nodup _ _ _ _ _ H1)| |cbn; lia|].
  { intros n Hn. by apply not_elem_of_nil in Hn. }
  split; [done|]. intros p' Hp'. destruct (Hres p' Hp') as (? & -> & ->). unfold take in Ht. injection Ht as _ <-. done.
Qed.

(** ** Objects *)

Lemma inflate_ok X Y cur p n work : 0 <= n -> packInv X Y cur p work ->
  fueled (inflate zlib p n) /\
  forall d p', inflate zlib p n = inr (d, p') ->
    packInv X Y cur p' work /\ blen d <= maxObjectBytes /\ total (byOID (idx p')) + blen d <= inflated p' /\
    atOffset p' = atOffset p /\ idx p' = idx p.
Proof.
  intros Hn H. unfold inflate. destruct (_ >? _) eqn:Hmax; [split; [exact I|discriminate]|].
  destruct (pcharge p n) as [e|p1] eqn:Hch; cbn [gbind].
  { split; [|discriminate]. pose proof (fueled_pcharge p n) as Hfu. by rewrite Hch in Hfu. }
  destruct (pcharge_inv _ _ _ _ _ _ _ Hch Hn H) as (H1 & Htot & _ & _ & Eat & Eidx & _).
  destruct (zlib (br p1)) as [|d used clean]; [split; [exact I|discriminate]|].
  destruct (blen d <? n) eqn:Hlo; [split; [exact I|discriminate]|]. destruct (blen d >? n) eqn:Hhi; [split; [exact I|discriminate]|].
  destruct (negb clean); [split; [exact I|discriminate]|]. split; [exact I|]. intros d' p' [= <- <-]. bool_prop.
  assert (blen d = n) by lia. split_and!; try done; [|lia|cbn in *; lia].
  apply setBr_inv; [|done]. unfold blen. rewrite length_drop. lia.
Qed.

Lemma headerLoop_rest fuel b size shift n r sz r' : headerLoop fuel b size shift n r = inr (sz, r') -> blen r' <= blen r.
Proof.
  revert b size shift n r. induction fuel as [|fuel IH]; intros b size shift n r; cbn [headerLoop];
    (destruct (Z.land b 128 =? 0); [intros [= <- <-]; lia|]); [discriminate|].
  destruct (_ >=? _); [discriminate|]. destruct r as [|c r]; [discriminate|]. destruct (_ || _); [discriminate|].
  intros H%IH. unfold blen in *. cbn. lia.
Qed.

Lemma header_rest r t size r' : header r = inr (t, size, r') -> blen r' <= blen r.
Proof.
  unfold header. destruct r as [|c r]; [discriminate|]. intros H. apply gbind_inr in H as ([sz r1] & Hl & H).
  injection H as <- <- <-. apply headerLoop_rest in Hl. unfold blen in *. cbn. lia.
Qed.

Lemma fueled_header r : fueled (header r).
Proof. unfold header. destruct r as [|c r]; [exact I|]. apply fueled_bind; [apply headerLoop_fuel; lia|]. intros [sz r1] _. exact I. Qed.

Lemma offsetLoop_rest fuel n b off k r v r' : offsetLoop fuel n b off k r = inr (v, r') -> blen r' <= blen r.
Proof.
  revert b off k r. induction fuel as [|fuel IH]; intros b off k r; cbn [offsetLoop];
    (destruct (Z.land b 128 =? 0); [intros [= <- <-]; lia|]); [discriminate|].
  destruct (_ >=? _); [discriminate|]. destruct r as [|c r]; [discriminate|]. destruct (_ || _); [discriminate|].
  intros H%IH. unfold blen in *. cbn. lia.
Qed.

Lemma offsetEncoding_rest n r v r' : offsetEncoding n r = inr (v, r') -> blen r' <= blen r.
Proof.
  unfold offsetEncoding. destruct r as [|c r]; [discriminate|]. intros H%offsetLoop_rest. unfold blen in *. cbn. lia.
Qed.

Lemma fueled_offsetEncoding n r : fueled (offsetEncoding n r).
Proof. unfold offsetEncoding. destruct r as [|c r]; [exact I|]. apply offsetLoop_fuel; lia. Qed.

(** A reading step keeps the invariant and gives no internal error. *)
Definition stepOK (m : gres packReader) : Prop := fueled m /\ forall p, m = inr p -> calm p.

Lemma stepOK_bind {A} (m : gres A) (k : A -> gres packReader) : fueled m -> (forall x, m = inr x -> stepOK (k x)) -> stepOK (gbind m k).
Proof. intros Hm Hk. destruct m as [e|x]; [split; [exact Hm|discriminate]|]. by apply Hk. Qed.

Lemma stepOK_settle X Y cur p off k : packInv X Y cur p [] -> (forall b, X b -> b = off) -> (forall q, Y q -> q = k) ->
  k <> "" -> is_Some (byOID (idx p) !! k) -> (0 <= off /\ (cur = None \/ cur = Some off) \/ off = -1 /\ cur = None) ->
  stepOK (settle Sum p off k).
Proof. intros H HX HY Hk Hin Hoff. destruct (settle_ok _ _ _ _ _ _ H HX HY Hk Hin Hoff) as [? Hr]. split; [done|]. intros p' Hp'. by apply Hr. Qed.

Lemma ofsDelta_ok p off size : packInv nowhere nowhere (Some off) p [] -> 0 <= size -> stepOK (ofsDelta zlib Sum p off size).
Proof.
  intros H Hs. unfold ofsDelta. apply stepOK_bind; [apply fueled_offsetEncoding|]. intros [back r] Hr.
  apply offsetEncoding_rest in Hr. destruct (_ || _) eqn:E; [split; [exact I|discriminate]|].
  apply orb_false_iff in E as [E Ebegun]. apply orb_false_iff in E as [_ E12]. apply Z.ltb_ge in E12.
  set (base := off - back) in *. cbn in Ebegun. destruct (atOffset p !! base) as [k0|] eqn:Hk0; [|done].
  destruct (inflate_ok _ _ _ (setBr p r) size [] Hs (setBr_inv _ _ _ _ _ _ Hr H)) as [Hfu Hinf].
  apply stepOK_bind; [done|]. intros [d p1] Hd. destruct (Hinf d p1 Hd) as (H1 & _ & _ & Eat & Eidx). cbn in Eat, Eidx.
  pose proof (park_off_inv p1 off base d H1 ltac:(lia)) as H2. set (p2 := park p1 _) in *.
  assert (Hat2 : atOffset p2 !! base = Some k0). { unfold p2, park. destruct (_ >=? _); cbn; by rewrite Eat. }
  rewrite Hat2. cbn [default from_option id option_rect]. destruct (String.eqb_spec k0 "") as [->|Hne].
  - split; [exact I|]. intros p' [= <-]. eapply packInv_weaken; [| |exact H2]; [intros b <-; by right|by left].
  - eapply stepOK_settle; [exact H2|by intros b <-|done|done| |left; split; [lia|by left]].
    destruct (pi_offs _ _ _ _ _ H2 _ _ Hat2); done.
Qed.

Lemma refDelta_ok p off size : packInv nowhere nowhere (Some off) p [] -> 0 <= size -> stepOK (refDelta zlib Sum p off size).
Proof.
  intros H Hs. unfold refDelta. destruct (_ <? _)%nat eqn:El; [split; [exact I|discriminate]|]. apply Nat.ltb_ge in El.
  set (k := EncodeToString _). assert (Hk : k <> "").
  { unfold k. rewrite (pi_format _ _ _ _ _ H) in *. destruct (br p) as [|c b]; [cbn in El; lia|]. destruct (fsize f); [lia|discriminate]. }
  destruct (inflate_ok nowhere nowhere (Some off) (setBr p (drop (fsize (format (idx p))) (br p))) size [] Hs) as [Hfu Hinf].
  { apply setBr_inv; [|exact H]. unfold blen. rewrite length_drop. lia. }
  apply stepOK_bind; [done|]. intros [d p1] Hd. destruct (Hinf d p1 Hd) as (H1 & _ & _ & Eat & Eidx).
  pose proof (park_ref_inv p1 off k d H1) as H2. set (p2 := park p1 _) in *.
  destruct (byOID (idx p2) !! k) as [o|] eqn:Hk2.
  - eapply stepOK_settle; [exact H2|done|by intros q <-|done|by rewrite Hk2; eexists|by right].
  - split; [exact I|]. intros p' [= <-]. eapply packInv_weaken; [| |exact H2]; [by left|intros q <-; by right].
Qed.

Lemma readObject_ok p : calm p -> stepOK (readObject zlib Sum p).
Proof.
  intros H. unfold readObject. pose proof (setOffset_begin p (pos p) H) as H0.
  assert (Hpos : 0 <= pos p) by (pose proof (pi_pos _ _ _ _ _ H); unfold pos; lia).
  set (off := pos p) in *. apply stepOK_bind; [apply fueled_header|]. intros [[t size] r] Hh.
  pose proof (header_bound _ _ _ _ Hh) as [Hsize _]. apply header_rest in Hh.
  pose proof (setBr_inv _ _ _ _ _ _ Hh H0) as H1. set (p1 := setBr _ r) in *.
  destruct (wireType t) as [ty|].
  - destruct (inflate_ok _ _ _ p1 size [] Hsize H1) as [Hfu Hinf]. apply stepOK_bind; [done|]. intros [d p2] Hd.
    destruct (Hinf d p2 Hd) as (H2 & Hmax & Htot & Eat & Eidx). destruct (put Sum (idx p2) ty d) as [i k] eqn:Hput.
    destruct (put_inv _ _ _ _ _ _ _ _ _ Hput Hmax Htot H2) as (H3 & Hk & Hin).
    eapply stepOK_settle; [exact H3|done|by intros q [[]|?]|done|done|]. left. split; [done|by right].
  - destruct (t =? 6); [by apply ofsDelta_ok|]. destruct (t =? 7); [by apply refDelta_ok|]. split; [exact I|discriminate].
Qed.

Lemma readObjects_ok n p : calm p -> stepOK (readObjects zlib Sum n p).
Proof.
  revert p. induction n as [|n IH]; intros p H; cbn [readObjects]; [split; [exact I|]; by intros p' [= <-]|].
  destruct (readObject_ok p H) as [Hfu Hr]. apply stepOK_bind; [done|]. intros p1 Hp1. by apply IH, Hr.
Qed.

Lemma readPack_ok pack : fueled (readPack zlib Sum pack f) /\
  forall p, readPack zlib Sum pack f = inr p -> calm p /\ br p = [] /\ waitOID p = ∅ /\ waitOff p = ∅.
Proof.
  unfold readPack. destruct (_ <? _) eqn:Hlen; [split; [exact I|discriminate]|].
  destruct (negb _); [split; [exact I|discriminate]|]. destruct (negb _); [split; [exact I|discriminate]|].
  destruct (negb _); [split; [exact I|discriminate]|]. destruct (_ >? _); [split; [exact I|discriminate]|].
  set (body := firstn _ pack). assert (Hb : 12 <= blen body).
  { unfold body, blen in *. rewrite length_firstn. bool_prop. lia. }
  destruct (readObjects_ok (Z.to_nat (uint32 (drop 8 pack))) _ (newReader_calm body Hb)) as [Hfu Hr].
  destruct (readObjects _ _ _ _) as [e|p] eqn:E; cbn [gbind]; [split; [exact Hfu|discriminate]|].
  destruct (length (br p)) eqn:Hbr; cbn [Nat.eqb negb]; [|split; [exact I|discriminate]]. unfold unresolved.
  destruct (bool_decide (waitOID p = ∅)) eqn:Hw1; cbn [negb]; [|split; [exact I|discriminate]].
  destruct (bool_decide (waitOff p = ∅)) eqn:Hw2; cbn [negb]; [|split; [exact I|discriminate]].
  split; [exact I|]. intros p' [= <-]. apply bool_decide_eq_true in Hw1, Hw2. split_and!; [by apply Hr| |done..].
  by apply nil_length_inv.
Qed.

(** With nothing left waiting, every header is resolved. *)
Lemma calm_resolved p off k : calm p -> waitOID p = ∅ -> waitOff p = ∅ -> atOffset p !! off = Some k -> is_Some (byOID (idx p) !! k).
Proof.
  intros H H1 H2 Hk. destruct (pi_offs _ _ _ _ _ H _ _ Hk) as [->|?]; [|done]. exfalso.
  destruct (pi_owed _ _ _ _ _ H _ Hk) as [?|(n & d & [Hn|[(b & l & Hl & _)|(q & l & Hl & _)]] & _)]; [done|by apply not_elem_of_nil in Hn|..].
  - by rewrite H2, lookup_empty in Hl.
  - by rewrite H1, lookup_empty in Hl.
Qed.

Lemma parsePack_inv pack i : parsePack zlib Sum pack f = inr i ->
  exists p, readPack zlib Sum pack f = inr p /\ i = dropBlobContent (idx p) /\ calm p.
Proof.
  unfold parsePack. intros H. apply gbind_inr in H as (p & Hp & H). injection H as <-. exists p. split_and!; [done..|].
  by apply (proj2 (readPack_ok pack)).
Qed.

Lemma total_drop (m : gmap string object) : total (dropContent <$> m) = total m.
Proof.
  induction m as [|k o m Hk IH] using map_ind; [by rewrite fmap_empty|].
  rewrite fmap_insert, !total_insert, IH by (try rewrite lookup_fmap; by rewrite ?Hk). unfold dropContent. by case_bool_decide.
Qed.

Lemma fueled_parsePack pack : fueled (parsePack zlib Sum pack f).
Proof. unfold parsePack. apply fueled_bind; [apply readPack_ok|]. intros p _. exact I. Qed.

(** The objects of a parsed pack are filed under ids computed from their own
    bytes: whatever the pack asserts, an id of the index is the digest of the type
    and content it stands for (a blob's content is released after the parse, its
    size kept), delta results included. *)
Theorem pack_is_content_addressed pack i k o
  (H : parsePack zlib Sum pack f = inr i) (Hk : byOID i !! k = Some o) :
  exists d, k = hashOf Sum f (typ o) d /\ osize o = blen d /\ blen d <= maxObjectBytes /\ (typ o <> objBlob -> data o = d).
Proof.
  destruct (parsePack_inv _ _ H) as (p & _ & -> & Hc). cbn in Hk. rewrite lookup_fmap in Hk.
  destruct (byOID (idx p) !! k) as [o'|] eqn:Ho; [|done]. injection Hk as <-.
  destruct (pi_addr _ _ _ _ _ Hc _ _ Ho) as (Hid & Hsz & Hmax). exists (data o').
  unfold dropContent. case_bool_decide as Ht; cbn; split_and!; done.
Qed.

(** C37: a parsed pack stays within the memory budget: its objects together, deltas
    replayed, inflate to at most [maxInflatedBytes], and each to at most
    [maxObjectBytes]. *)
Theorem pack_within_budget pack i (H : parsePack zlib Sum pack f = inr i) :
  total (byOID i) <= maxInflatedBytes /\ forall k o, byOID i !! k = Some o -> 0 <= osize o <= maxObjectBytes.
Proof.
  destruct (parsePack_inv _ _ H) as (p & _ & -> & Hc). cbn. rewrite total_drop. split.
  - pose proof (pi_budget _ _ _ _ _ Hc). lia.
  - intros k o Hk. rewrite lookup_fmap in Hk. destruct (byOID (idx p) !! k) as [o'|] eqn:Ho; [|done]. injection Hk as <-.
    destruct (pi_addr _ _ _ _ _ Hc _ _ Ho) as (_ & Hsz & Hmax). unfold dropContent.
    assert (0 <= osize o') by (rewrite Hsz; unfold blen; lia). case_bool_decide; cbn; lia.
Qed.

(** A pack that parses is resolved whole: every offset at which an object
    header was read stands for an object of the index, no delta is left waiting
    for its base, and no byte is left over. *)
Theorem every_header_is_resolved pack p (H : readPack zlib Sum pack f = inr p) :
  (forall off k, atOffset p !! off = Some k -> is_Some (byOID (idx p) !! k)) /\ (forall n, ~ waiting p n) /\ br p = [].
Proof.
  destruct (proj2 (readPack_ok pack) p H) as (Hc & Hbr & Hw1 & Hw2). split_and!; [|intros n|done].
  - intros off k Hk. by eapply calm_resolved.
  - unfold waiting. rewrite Hw1, Hw2. intros [(b & l & Hl & _)|(q & l & Hl & _)]; by rewrite lookup_empty in Hl.
Qed.
End Sound.

(** ** The walk ends *)

Lemma cutB_length c b u v : cutB c b = Some (u, v) -> (length v < length b)%nat.
Proof.
  revert u. induction b as [|x b IH]; intros u; cbn [cutB]; [discriminate|]. destruct (Ascii.eqb x c); [intros [= <- <-]; cbn; lia|].
  destruct (cutB c b) as [[u' v']|]; [|discriminate]. intros [= <- <-]. specialize (IH u' eq_refl). cbn. lia.
Qed.

Lemma fueled_parseEntries fuel h d : (length d <= fuel)%nat -> fueled (parseEntries fuel h d).
Proof.
  revert d. induction fuel as [|fuel IH]; intros [|x d] Hf; cbn [parseEntries]; try exact I; [cbn in Hf; lia|].
  destruct (cutB " " (x :: d)) as [[[|y m] rest]|] eqn:E1; try exact I.
  destruct (cutB NUL rest) as [[n rest']|] eqn:E2; [|exact I]. destruct (_ <? _)%nat; [exact I|].
  destruct (checkEntry _ _) as [e|] eqn:E3.
  - unfold checkEntry in E3. repeat case_match; simplify_eq; exact I.
  - apply fueled_bind; [|intros; exact I]. apply IH. apply cutB_length in E1, E2. rewrite length_drop. cbn in *. lia.
Qed.

Section Ends.
Context (i : index).

Lemma fueled_wtree w o : fueled (wtree i w o).
Proof.
  unfold wtree, tree. destruct (byOID i !! o); [|exact I]. case_bool_decide; [|exact I].
  apply fueled_bind; [|intros; exact I]. unfold parseTree. destruct (_ >? _); [exact I|]. by apply fueled_parseEntries.
Qed.

Lemma fueled_record w c : fueled (record w c).
Proof.
  unfold record. destruct (seen w !! changeKey c); [exact I|]. destruct (_ >=? _); [exact I|].
  apply fueled_bind; [unfold keep; by destruct (_ >? _)|intros; exact I].
Qed.

Lemma fueled_keep w n : fueled (keep w n).
Proof. unfold keep. by destruct (_ >? _). Qed.
Lemma fueled_charge w n : fueled (charge w n).
Proof. unfold charge. by destruct (_ >? _). Qed.

Lemma fueled_eachEntry step es w : (forall e w, fueled (step e w)) -> fueled (eachEntry step es w).
Proof.
  intros Hs. revert w. induction es as [|e es IH]; intros w; cbn [eachEntry]; [exact I|]. apply fueled_bind; [apply Hs|]. intros w' _. apply IH.
Qed.

Lemma fueled_walkWith g q o b w : (forall q es b w, fueled (g q es b w)) -> fueled (walkWith i g q o b w).
Proof.
  intros Hg. unfold walkWith. case_bool_decide; [exact I|]. apply fueled_bind; [apply fueled_wtree|]. intros [es|] _; [|apply fueled_record].
  apply fueled_bind; [apply fueled_keep|]. intros; apply Hg.
Qed.

Lemma fueled_walkEntries levels q es b w : fueled (walkEntries i levels q es b w).
Proof.
  revert q es b w. induction levels as [|levels IH]; intros q es b w; cbn [walkEntries]; [exact I|].
  apply fueled_bind; [apply fueled_charge|]. intros w' _. apply fueled_eachEntry. intros e w1.
  destruct (isTree e); [by apply fueled_walkWith | apply fueled_record].
Qed.

Lemma fueled_diff levels q old new w : fueled (diff i levels q old new w).
Proof.
  revert q old new w. induction levels as [|levels IH]; intros q old new w; cbn [diff]; (destruct (String.eqb old new); [exact I|]);
    (case_bool_decide; [exact I|]); (apply fueled_bind; [apply fueled_keep|]); intros w1 _; [exact I|].
  apply fueled_bind; [apply fueled_wtree|]. intros [next|] _; [|apply fueled_record].
  apply fueled_bind; [apply fueled_wtree|]. intros [prev|] _; [|apply fueled_walkEntries].
  apply fueled_bind; [apply fueled_charge|]. intros w2 _. apply fueled_eachEntry. intros e w3.
  pose proof (fun q o b w => fueled_walkWith _ q o b w (fueled_walkEntries levels)) as Hw.
  repeat case_match; try exact I; try apply IH; try apply Hw; apply fueled_record.
Qed.

Lemma fueled_parseCommit d h : fueled (parseCommit d h).
Proof.
  unfold parseCommit. apply fueled_bind; [|intros c _; by destruct (String.eqb _ _)].
  generalize (splitByte NL (headersOf (str d))) as l, (mkCommit "" []) as c, true as b.
  induction l as [|line l IH]; intros c b; cbn [commitHeaders]; [exact I|]. repeat case_match; try exact I; apply IH.
Qed.

Lemma fueled_changes held : fueled (changes i held).
Proof.
  unfold changes. apply fueled_bind; [|intros; exact I]. generalize (sortedOIDs i) as l, newWalker as w.
  induction l as [|k l IH]; intros w; cbn [eachCommit]; [exact I|]. destruct (byOID i !! k) as [o|]; [|apply IH].
  destruct (_ || _); [apply IH|]. apply fueled_bind; [apply fueled_parseCommit|]. intros c _.
  apply fueled_bind; [|intros; apply IH]. unfold introduced. apply fueled_bind.
  - generalize (parents c) as ps, false as d. intros ps. revert w. induction ps as [|p ps IHp]; intros w d; cbn [eachParent]; [exact I|].
    destruct (byOID i !! p) as [op|]; [|apply IHp]. case_bool_decide; [|apply IHp].
    apply fueled_bind; [apply fueled_parseCommit|]. intros pc _. apply fueled_bind; [apply fueled_diff|]. intros w1 _. apply IHp.
  - intros [w1 d] _. destruct d; [exact I|]. apply fueled_walkWith. apply fueled_walkEntries.
Qed.

Lemma fueled_uncovered cmds : fueled (uncovered i cmds).
Proof.
  induction cmds as [|c cmds IH]; cbn [uncovered]; [exact I|]. destruct (isZeroOID (New c)); [done|].
  destruct (peel i (New c)); [done| |exact I]. apply fueled_bind; [done|]. intros; exact I.
Qed.
End Ends.

(** ** The inspection *)

Lemma formatIn_size l g : formatIn l = inr g -> (0 < fsize g)%nat.
Proof.
  induction l as [|c l IH]; cbn [formatIn]; [intros [= <-]; cbn; lia|]. destruct (HasPrefix c _); [|done].
  cbv zeta. destruct (String.eqb _ _); [intros [= <-]; cbn; lia|]. destruct (String.eqb _ _); [intros [= <-]; cbn; lia|discriminate].
Qed.

Lemma fueled_formatIn l : fueled (formatIn l).
Proof. induction l as [|c l IH]; cbn [formatIn]; [exact I|]. repeat case_match; try exact I. done. Qed.

(** A walk that ends has read every commit it does not hold. *)
Lemma eachCommit_commits i held oids w w' k o : eachCommit i held oids w = inr w' -> k ∈ oids -> byOID i !! k = Some o ->
  typ o = objCommit -> held k = false -> exists c, commitAt i k c.
Proof.
  revert w. induction oids as [|q oids IH]; intros w H Hk Ho Ht Hh; [by apply not_elem_of_nil in Hk|]. cbn [eachCommit] in H.
  apply elem_of_cons in Hk as [->|Hk].
  - rewrite Ho, Hh, bool_decide_eq_true_2 in H by done. cbn in H. apply gbind_inr in H as (c & Hc & _). exists c. by exists o.
  - destruct (byOID i !! q); [|by eapply IH]. destruct (_ || _); [by eapply IH|].
    apply gbind_inr in H as (c & _ & H). apply gbind_inr in H as (w1 & _ & H). by eapply IH.
Qed.

Lemma changes_commits i held outs bs k o : changes i held = inr (outs, bs) -> byOID i !! k = Some o ->
  typ o = objCommit -> held k = false -> exists c, commitAt i k c.
Proof.
  unfold changes. intros H Ho Ht Hh. apply gbind_inr in H as (w & Hw & _). eapply eachCommit_commits; [exact Hw| |done..].
  apply sortedOIDs_all. by eexists.
Qed.

Lemma peelLoop_commit n i k c : peelLoop n i k = Peeled c -> exists o, byOID i !! c = Some o /\ typ o = objCommit.
Proof.
  revert k. induction n as [|n IH]; intros k; cbn [peelLoop]; [discriminate|]. destruct (byOID i !! k) as [o|] eqn:Ho; [|discriminate].
  destruct (typ o) eqn:Ht; try discriminate; [intros [= <-]; eauto|]. destruct (tagTarget _ _); [apply IH|discriminate].
Qed.

Lemma uncovered_nil i cmds c : uncovered i cmds = inr [] -> c ∈ cmds -> isZeroOID (New c) = false -> exists k, peel i (New c) = Peeled k.
Proof.
  induction cmds as [|d cmds IH]; intros H Hc Hz; [by apply not_elem_of_nil in Hc|]. cbn [uncovered] in H.
  apply elem_of_cons in Hc as [->|Hc].
  - rewrite Hz in H. destruct (peel i (New d)) as [k| |]; [eauto| |discriminate]. apply gbind_inr in H as (? & _ & ?). done.
  - destruct (isZeroOID (New d)); [by apply IH|]. destruct (peel i (New d)); [by apply IH| |discriminate].
    apply gbind_inr in H as (? & _ & ?). done.
Qed.

Section Inspection.
Context (zlib : Bytes -> zstream) (Sum : hashFormat -> Bytes -> Bytes).
Context (Hsum : forall f b, length (Sum f b) = fsize f).

(** C36: the inspection of a push always ends with an answer the code can give: for
    every request body, every loop (command section, push options, objects, delta
    worklist, tree walk) ends within its bound, and the error the code calls
    internal, a delta woken without its base, is never reached. *)
Theorem inspection_always_answers body : fueled (Inspect zlib Sum body).
Proof.
  unfold Inspect. apply fueled_bind; [apply commandLoop_fuel; lia|]. intros [[cmds caps] rest] _.
  apply fueled_bind; [apply fueled_formatIn|]. intros g Hg. apply formatIn_size in Hg.
  apply fueled_bind; [destruct (memS _ _); [apply skipLoop_fuel; lia|exact I]|]. intros rest' _.
  destruct (length rest' =? 0)%nat; [unfold inspectNoPack; by case_match|].
  apply fueled_bind; [by apply fueled_parsePack|]. intros i _. unfold coverCommands.
  pose proof (fueled_uncovered i cmds) as Hu. destruct (uncovered i cmds) as [e|[|r refs]].
  - destruct e; exact Hu.
  - apply fueled_bind; [apply fueled_changes|]. intros [cs bs] _. exact I.
  - exact I.
Qed.

Lemma Inspect_inv body r : Inspect zlib Sum body = inr r ->
  match iIndex r with
  | None => forall c, c ∈ Commands (iResult r) -> isZeroOID (New c) = true
  | Some i =>
      uncovered i (Commands (iResult r)) = inr [] /\ changes i (fun _ => false) = inr (Changes (iResult r), Bases (iResult r))
  end.
Proof.
  unfold Inspect. intros H. apply gbind_inr in H as ([[cmds caps] rest] & _ & H). apply gbind_inr in H as (g & _ & H).
  apply gbind_inr in H as (rest' & _ & H). destruct (length rest' =? 0)%nat.
  - unfold inspectNoPack in H. destruct (map Ref _) eqn:E; [|discriminate]. injection H as <-. cbn. intros c Hc.
    destruct (isZeroOID (New c)) eqn:Hz; [done|]. exfalso.
    assert (Hin : c ∈ List.filter (fun c => negb (isZeroOID (New c))) cmds).
    { apply list_elem_of_In, List.filter_In. rewrite Hz. split; [by apply list_elem_of_In|done]. }
    apply map_eq_nil in E. rewrite E in Hin. by apply not_elem_of_nil in Hin.
  - apply gbind_inr in H as (i & _ & H). unfold coverCommands in H. destruct (uncovered i cmds) as [e|[|x refs]] eqn:Hu; [discriminate| |discriminate].
    apply gbind_inr in H as ([cs bs] & Hch & H). injection H as <-. done.
Qed.

(** What the inspection of a request gives for one of its commands. *)
Lemma inspect_reads_whole body r c
  (H : Inspect zlib Sum body = inr r) (Hc : c ∈ Commands (iResult r)) (Hz : isZeroOID (New c) = false) :
  exists i k ci, iIndex r = Some i /\ peel i (New c) = Peeled k /\ commitAt i k ci /\
  forall e, leafAt i "" (ctree ci) e ->
    (exists x, x ∈ Changes (iResult r) /\ changeKey x = e) \/
    (exists pc, carriedParent i ci pc) /\ forall pc, carriedParent i ci pc -> leafAt i "" (ctree pc) e.
Proof.
  apply Inspect_inv in H. destruct (iIndex r) as [i|]; [|rewrite (H c Hc) in Hz; discriminate]. destruct H as [Hu Hch].
  destruct (uncovered_nil i _ c Hu Hc Hz) as [k Hk]. destruct (peelLoop_commit _ _ _ _ Hk) as (o & Ho & Ht).
  destruct (changes_commits _ _ _ _ _ _ Hch Ho Ht eq_refl) as [ci Hci]. exists i, k, ci. split_and!; [done..|]. intros e He.
  assert (Hn : newCommit i (fun _ => false) ci) by (exists k; done).
  by eapply reported_or_held.
Qed.

(** A push that is inspected is read whole: every ref it sets, other than by
    deleting it, is set to a commit (through at most [maxPeel] tags) that the pack
    carries, and every entry of that commit's tree is in the reported changes
    unless every parent the pack carries, of which there is at least one, holds
    the very same entry. *)
Theorem inspected_push_is_read_whole body r c
  (H : Inspect zlib Sum body = inr r) (Hc : c ∈ Commands (iResult r)) (Hz : isZeroOID (New c) = false) :
  exists i k ci, iIndex r = Some i /\ peel i (New c) = Peeled k /\ commitAt i k ci /\
  forall e, leafAt i "" (ctree ci) e ->
    (exists x, x ∈ Changes (iResult r) /\ changeKey x = e) \/
    (exists pc, carriedParent i ci pc) /\ forall pc, carriedParent i ci pc -> leafAt i "" (ctree pc) e.
Proof. by eapply inspect_reads_whole. Qed.
End Inspection.

(** ** A concrete push

    Two stand-ins that can be evaluated: a "compression" that prefixes a length
    byte, and a digest of the right width. *)

Definition demoZlib (b : Bytes) : zstream :=
  match b with
  | [] => ZBad
  | c :: r => let n := Z.to_nat (byte_of c) in if (length r <? n)%nat then ZBad else ZStream (firstn n r) (S n) true
  end.
Definition demoDigest (b : Bytes) : Z := foldl (fun acc c => (acc * 31 + byte_of c + 7) mod 65521) 1 b.
Definition demoSum (g : hashFormat) (b : Bytes) : Bytes := repeat (chr (demoDigest b mod 256)) (fsize g).
Lemma demoSum_length g b : length (demoSum g b) = fsize g.
Proof. apply repeat_length. Qed.

Definition packed (t : Z) (base d : Bytes) : Bytes :=
  [chr (128 + t * 16 + blen d mod 16); chr (blen d / 16)] ++ base ++ chr (blen d) :: d.
Definition be4 (n : Z) : Bytes := [chr 0; chr 0; chr 0; chr n].
Definition demoID (t : objectType) (d : Bytes) : Bytes := demoSum sha1Format (bytes (label t +:+ " " +:+ Itoa (blen d)) ++ NUL :: d).
Definition demoOld : Bytes := bytes "hello world".
Definition demoNew : Bytes := bytes "world, hello".
Definition demoDelta : Bytes := encodeDelta demoOld [Copy 6 5; Insert (bytes ", "); Copy 0 5].
Definition demoTree : Bytes := bytes "100644 a" ++ NUL :: demoID objBlob demoOld ++ bytes "100755 run" ++ NUL :: demoID objBlob demoNew.
Definition demoCommit : Bytes := bytes ("tree " +:+ EncodeToString (demoID objTree demoTree) +:+ String NL (String NL "first")).
(** The delta comes before its base. *)
Definition demoBody : Bytes :=
  bytes "PACK" ++ be4 2 ++ be4 4
  ++ packed 7 (demoID objBlob demoOld) demoDelta ++ packed 3 [] demoOld ++ packed 2 [] demoTree ++ packed 1 [] demoCommit.
Definition demoPack : Bytes := demoBody ++ demoSum sha1Format demoBody.
Definition demoCommand : Command :=
  mkCommand "0000000000000000000000000000000000000000" (EncodeToString (demoID objCommit demoCommit)) "refs/heads/main".
Definition demoRequest : Bytes := encodeLines (sectionLines "" [] demoCommand [] "report-status") ++ demoPack.

Definition okOr {A} (m : gres A) (dflt : A) : A := match m with inr x => x | inl _ => dflt end.
Definition isOK {A} (m : gres A) : bool := match m with inr _ => true | inl _ => false end.
Lemma okOr_eq {A} (m : gres A) dflt : isOK m = true -> m = inr (okOr m dflt).
Proof. by destruct m. Qed.

Definition demoIndex : index := okOr (parsePack demoZlib demoSum demoPack sha1Format) (mkIndex sha1Format ∅).
Lemma demo_parses : parsePack demoZlib demoSum demoPack sha1Format = inr demoIndex.
Proof. apply okOr_eq. by vm_compute. Qed.

Lemma pack_is_content_addressed_witness :
  byOID demoIndex !! EncodeToString (demoID objBlob demoNew) = Some (mkObject objBlob 12 []) /\
  exists d, EncodeToString (demoID objBlob demoNew) = hashOf demoSum sha1Format objBlob d /\ 12 = blen d /\ blen d <= maxObjectBytes
    /\ (objBlob <> objBlob -> [] = d).
Proof.
  split; [by vm_compute|].
  apply (pack_is_content_addressed demoZlib demoSum demoSum_length sha1Format ltac:(vm_compute; lia) demoPack demoIndex
           (EncodeToString (demoID objBlob demoNew)) (mkObject objBlob 12 []) demo_parses).
  by vm_compute.
Defined.

Lemma pack_within_budget_witness : total (byOID demoIndex) <= maxInflatedBytes.
Proof.
  exact (proj1 (pack_within_budget demoZlib demoSum demoSum_length sha1Format ltac:(vm_compute; lia) demoPack demoIndex demo_parses)).
Defined.

Definition demoReader : packReader := okOr (readPack demoZlib demoSum demoPack sha1Format) (newReader [] sha1Format).
Lemma demo_reads : readPack demoZlib demoSum demoPack sha1Format = inr demoReader.
Proof. apply okOr_eq. by vm_compute. Qed.

Lemma every_header_is_resolved_witness :
  atOffset demoReader !! 12 = Some (EncodeToString (demoID objBlob demoNew)) /\
  is_Some (byOID (idx demoReader) !! EncodeToString (demoID objBlob demoNew)).
Proof.
  assert (H : atOffset demoReader !! 12 = Some (EncodeToString (demoID objBlob demoNew))) by (by vm_compute). split; [exact H|].
  exact (proj1 (every_header_is_resolved demoZlib demoSum demoSum_length sha1Format ltac:(vm_compute; lia) demoPack demoReader demo_reads) _ _ H).
Defined.

Definition demoResult : inspected := okOr (Inspect demoZlib demoSum demoRequest) (mkInspected "" (mkResult [] [] []) None).
Lemma demo_inspects : Inspect demoZlib demoSum demoRequest = inr demoResult.
Proof. apply okOr_eq. by vm_compute. Qed.

Example demo_changes : map changeKey (Changes (iResult demoResult)) =
  [("a", "100644", 11, EncodeToString (demoID objBlob demoOld)); ("run", "100755", 12, EncodeToString (demoID objBlob demoNew))].
Proof. by vm_compute. Qed.

Lemma inspection_always_answers_witness : fueled (Inspect demoZlib demoSum demoRequest).
Proof. exact (inspection_always_answers demoZlib demoSum demoSum_length demoRequest). Defined.

Lemma inspected_push_is_read_whole_witness :
  exists i k ci, iIndex demoResult = Some i /\ peel i (New demoCommand) = Peeled k /\ commitAt i k ci /\
  forall e, leafAt i "" (ctree ci) e ->
    (exists x, x ∈ Changes (iResult demoResult) /\ changeKey x = e) \/
    (exists pc, carriedParent i ci pc) /\ forall pc, carriedParent i ci pc -> leafAt i "" (ctree pc) e.
Proof.
  apply (inspected_push_is_read_whole demoZlib demoSum demoRequest demoResult demoCommand demo_inspects); [|by vm_compute].
  assert (E : Commands (iResult demoResult) = [demoCommand]) by (by vm_compute). rewrite E. left.
Defined.
