(* ===== verification/GitSettle.v ===== *)
(** * Taking out the history the forge already holds

    [Result.Settle] of [internal/gitpack/tree.go]: the commits of the pack are
    classified as held or new by asking [held] of as few of them as possible, and
    the change set is walked again with the held ones left out.

    The maps are finite maps; the stack of [spread] has its top first. The loops'
    fuel is what they can push at most (the edges between carried commits), and
    [settle_ends] shows that it is enough. [held] is asked at most once per commit, so
    a function stands for it. *)
From S2P Require Import Prelude GoStrings GoPath PolicyTypes GoSlices PushRules PushForge GitWire GitTree GitWalk GitPack GitPackSound.
Local Open Scope string_scope.
Local Open Scope Z_scope.
Local Open Scope wardyn_scope.
Local Open Scope list_scope.

Notation edges := (gmap string (list string)).

Definition next (m : edges) (c : string) : list string := default [] (m !! c).
Definition addEdge (m : edges) (a b : string) : edges := <[a := next m a ++ [b]]> m.

Section Settle.
Context (i : index).

(** The carried parents and children of every commit. *)
Definition linkParent (c : string) (g : edges * edges) (p : string) : edges * edges :=
  match byOID i !! p with
  | Some o => if bool_decide (typ o = objCommit) then (addEdge (fst g) c p, addEdge (snd g) p c) else g
  | None => g
  end.

Fixpoint links (oids : list string) (commits : list string) (g : edges * edges) : gres (list string * (edges * edges)) :=
  match oids with
  | [] => inr (commits, g)
  | k :: oids =>
      match byOID i !! k with
      | Some o =>
          if bool_decide (typ o = objCommit) then
            c <-? parseCommit (data o) (fsize (format i));
            links oids (commits ++ [k]) (foldl (linkParent k) g (parents c))
          else links oids commits g
      | None => links oids commits g
      end
  end.

Definition classified (v : bool) (ih : gmap string bool) (c : string) : bool :=
  match ih !! c with Some was => negb was || v | None => false end.

Fixpoint spreadLoop (fuel : nat) (v : bool) (m : edges) (stack : list string) (ih : gmap string bool) : gres (gmap string bool) :=
  match stack with
  | [] => inr ih
  | c :: stack =>
      match fuel with
      | O => inl OutOfFuel
      | S fuel =>
          if classified v ih c then spreadLoop fuel v m stack ih
          else spreadLoop fuel v m (rev (next m c) ++ stack) (<[c := v]> ih)
      end
  end.

(** How many edges there are, over the commits [cs]. *)
Definition edgeCount (cs : list string) (m : edges) : nat := sum_list_with (fun c => length (next m c)) cs.

Section Ask.
Context (held : string -> errOr bool) (commits : list string) (down up : edges).

Definition spread (from : string) (v : bool) (ih : gmap string bool) : gres (gmap string bool) :=
  let m := if v then down else up in
  spreadLoop (S (edgeCount commits m)) v m [from] ih.

Definition ask (c : string) (ih : gmap string bool) : gres (bool * gmap string bool) :=
  match ih !! c with
  | Some v => inr (v, ih)
  | None =>
      match held c with
      | inl e => inl (HeldFailed e)
      | inr v => ih <-? spread c v ih; inr (default false (ih !! c), ih)
      end
  end.

Definition tips : list string := List.filter (fun c => match next up c with [] => true | _ => false end) commits.
Definition roots : list string := List.filter (fun c => match next down c with [] => true | _ => false end) commits.

Fixpoint askAll (cs : list string) (ih : gmap string bool) : gres (gmap string bool) :=
  match cs with
  | [] => inr ih
  | c :: cs => let? (_, ih) := ask c ih in askAll cs ih
  end.

(** The parents asked of one commit; those found new are queued. *)
Fixpoint askParents (ps : list string) (ih : gmap string bool) : gres (list string * gmap string bool) :=
  match ps with
  | [] => inr ([], ih)
  | p :: ps =>
      let? (v, ih) := ask p ih in
      let? (q, ih) := askParents ps ih in
      inr (if v then q else p :: q, ih)
  end.

Fixpoint queueLoop (fuel : nat) (queue : list string) (walked : gset string) (ih : gmap string bool) : gres (gmap string bool) :=
  match queue with
  | [] => inr ih
  | c :: queue =>
      match fuel with
      | O => inl OutOfFuel
      | S fuel =>
          if bool_decide (c ∈ walked) then queueLoop fuel queue walked ih
          else
            let? (q, ih) := askParents (next down c) ih in
            queueLoop fuel (queue ++ q) ({[c]} ∪ walked) ih
      end
  end.

Definition classify : gres (gmap string bool) :=
  ih <-? askAll roots (foldl (fun m c => <[c := false]> m) ∅ tips);
  queueLoop (length tips + edgeCount commits down) tips ∅ ih.
End Ask.

Definition heldIn (ih : gmap string bool) (c : string) : bool := default false (ih !! c).

Definition settleIndex (held : string -> errOr bool) : gres (gmap string bool * (list Change * list string)) :=
  let? (commits, (down, up)) := links (sortedOIDs i) [] (∅, ∅) in
  ih <-? classify held commits down up;
  out <-? changes i (heldIn ih);
  inr (ih, out).
End Settle.

Definition Settle (r : inspected) (held : string -> errOr bool) : gres inspected :=
  match iIndex r with
  | None => inr r
  | Some i =>
      let? (ih, out) := settleIndex i held in
      inr (mkInspected (iFormat r) (mkResult (Commands (iResult r)) (fst out) (snd out)) (iIndex r))
  end.

(** ** The edges between carried commits *)

Section Links.
Context (i : index).

Definition carriedEdge (c p : string) : Prop :=
  exists ci ob, commitAt i c ci /\ p ∈ parents ci /\ byOID i !! p = Some ob /\ typ ob = objCommit.

Definition isCommit (k : string) : bool :=
  match byOID i !! k with Some o => bool_decide (typ o = objCommit) | None => false end.

Lemma next_addEdge m a b c x : x ∈ next (addEdge m a b) c <-> x ∈ next m c \/ (c = a /\ x = b).
Proof.
  unfold addEdge, next. destruct (decide (a = c)) as [->|Hne].
  - rewrite lookup_insert_eq. cbn. rewrite elem_of_app, list_elem_of_singleton. tauto.
  - rewrite lookup_insert_ne by done. split; [by left|]. intros [?|[? _]]; [done|congruence].
Qed.

Lemma linkParents_spec k ps g : let g' := foldl (linkParent i k) g ps in
  (forall c p, p ∈ next (fst g') c <-> p ∈ next (fst g) c \/ (c = k /\ p ∈ ps /\ isCommit p = true)) /\
  (forall c p, c ∈ next (snd g') p <-> c ∈ next (snd g) p \/ (c = k /\ p ∈ ps /\ isCommit p = true)).
Proof.
  cbv zeta. revert g. induction ps as [|q ps IH]; intros g; cbn [foldl].
  { split; intros c p; (split; [by left|]); intros [?|(_ & Hp & _)]; try done; by apply not_elem_of_nil in Hp. }
  destruct (IH (linkParent i k g q)) as [H1 H2].
  assert (Hq : (forall c p, p ∈ next (fst (linkParent i k g q)) c <-> p ∈ next (fst g) c \/ (c = k /\ p = q /\ isCommit p = true)) /\
    (forall c p, c ∈ next (snd (linkParent i k g q)) p <-> c ∈ next (snd g) p \/ (c = k /\ p = q /\ isCommit p = true))).
  { unfold linkParent, isCommit. destruct (byOID i !! q) as [o|] eqn:Hoq; [destruct (bool_decide (typ o = objCommit)) eqn:Ht|]; cbn [fst snd].
    - split; intros c p; rewrite next_addEdge; (split; [intros [?|[-> ->]]; [by left|right]|]).
      1,3: by rewrite Hoq.
      all: intros [?|(-> & -> & _)]; [by left|by right].
    - split; intros c p; (split; [by left|]); intros [?|(_ & -> & E)]; [done| |done|]; rewrite Hoq in E; congruence.
    - split; intros c p; (split; [by left|]); intros [?|(_ & -> & E)]; [done| |done|]; by rewrite Hoq in E. }
  destruct Hq as [Hq1 Hq2]. split; intros c p.
  - rewrite H1, Hq1, elem_of_cons. naive_solver.
  - rewrite H2, Hq2, elem_of_cons. naive_solver.
Qed.

Lemma isCommit_true k : isCommit k = true <-> exists o, byOID i !! k = Some o /\ typ o = objCommit.
Proof.
  unfold isCommit. destruct (byOID i !! k) as [o|]; [|split; [done|by intros (? & ? & _)]].
  rewrite bool_decide_eq_true. split; [eauto|]. by intros (o' & [= <-] & ?).
Qed.

Lemma carriedEdge_iff c p ci : commitAt i c ci -> carriedEdge c p <-> p ∈ parents ci /\ isCommit p = true.
Proof.
  intros Hc. rewrite isCommit_true. split.
  - intros (ci' & ob & Hc' & Hp & ?). rewrite (commitAt_unique _ _ _ _ Hc Hc'). eauto.
  - intros (Hp & ob & ? & ?). exists ci, ob. done.
Qed.

Lemma links_spec oids cs g cs' g' : links i oids cs g = inr (cs', g') ->
  cs' = cs ++ List.filter isCommit oids /\
  (forall c p, p ∈ next (fst g') c <-> p ∈ next (fst g) c \/ (c ∈ oids /\ carriedEdge c p)) /\
  (forall c p, c ∈ next (snd g') p <-> c ∈ next (snd g) p \/ (c ∈ oids /\ carriedEdge c p)).
Proof.
  revert cs g. induction oids as [|k oids IH]; intros cs g H; cbn [links] in H.
  { injection H as <- <-. split; [by rewrite app_nil_r|].
    split; intros c p; (split; [by left|]); intros [?|[Hc _]]; try done; by apply not_elem_of_nil in Hc. }
  cbn [List.filter]. unfold isCommit at 1. destruct (byOID i !! k) as [o|] eqn:Ho; [destruct (bool_decide (typ o = objCommit)) eqn:Ht|].
  - apply gbind_inr in H as (ci & Hci & H). destruct (IH _ _ H) as (-> & H1 & H2). split; [by rewrite <- app_assoc|].
    apply bool_decide_eq_true in Ht. assert (Hat : commitAt i k ci) by (by exists o).
    destruct (linkParents_spec k (parents ci) g) as [L1 L2]. split; intros c p.
    + rewrite H1, L1, elem_of_cons. pose proof (carriedEdge_iff k p ci Hat). naive_solver.
    + rewrite H2, L2, elem_of_cons. pose proof (carriedEdge_iff k p ci Hat). naive_solver.
  - destruct (IH _ _ H) as (-> & H1 & H2). split; [done|]. apply bool_decide_eq_false in Ht.
    assert (Hno : forall p, ~ carriedEdge k p) by (intros p (ci & _ & (ob & Hob & ? & _) & _); congruence).
    split; intros c p; [rewrite H1|rewrite H2]; rewrite elem_of_cons; split; (intros [?|[? ?]]; [by left|right]); naive_solver.
  - destruct (IH _ _ H) as (-> & H1 & H2). split; [done|].
    assert (Hno : forall p, ~ carriedEdge k p) by (intros p (ci & _ & (ob & Hob & _ & _) & _); congruence).
    split; intros c p; [rewrite H1|rewrite H2]; rewrite elem_of_cons; split; (intros [?|[? ?]]; [by left|right]); naive_solver.
Qed.
End Links.

(** ** The classification *)

Section Classify.
Context (held : string -> errOr bool) (commits : list string) (down up : edges).
Context (Hsym : forall c p, p ∈ next down c <-> c ∈ next up p).
Context (Hnd : NoDup commits).
Context (Hdown : forall c, c ∉ commits -> next down c = []) (Hup : forall c, c ∉ commits -> next up c = []).

Definition parentOf (c p : string) : Prop := p ∈ next down c.

(** A commit in the history of one the caller holds. *)
Definition vouchedHistory (c : string) : Prop := exists d, held d = inr true /\ rtc parentOf d c.

Record heldInv (ih : gmap string bool) (stackT stackF : list string) : Prop := mkHeldInv {
  hi_true : forall c, ih !! c = Some true -> vouchedHistory c;
  hi_false : forall c d, ih !! c = Some false -> parentOf d c -> ih !! d = Some false \/ d ∈ stackF;
  hi_down : forall c p, ih !! c = Some true -> parentOf c p -> is_Some (ih !! p) \/ p ∈ stackT }.

(** A pass of [spread] downwards over the commits held. *)
Lemma spread_true fuel stack ih ih' : spreadLoop fuel true down stack ih = inr ih' ->
  heldInv ih stack [] -> (forall c, c ∈ stack -> vouchedHistory c) ->
  heldInv ih' [] [] /\ (forall c b, ih !! c = Some b -> ih' !! c = Some b).
Proof.
  revert stack ih. induction fuel as [|fuel IH]; intros [|c stack] ih H [HT HF HD] Hst; cbn [spreadLoop] in H; try discriminate;
    try (injection H as <-; done).
  unfold classified in H. destruct (ih !! c) as [was|] eqn:Hc.
  - rewrite orb_true_r in H. eapply IH; [exact H| |intros x Hx; apply Hst; by right]. constructor; [done|done|].
    intros x p Hx Hp. destruct (HD x p Hx Hp) as [?|Hin]; [by left|]. apply elem_of_cons in Hin as [->|?]; [left; by eexists|by right].
  - destruct (IH _ _ H) as [H1 H2].
    + constructor.
      * intros x [[<- _]|[_ Hx]]%lookup_insert_Some; [apply Hst; left|by apply HT].
      * intros x d [[_ ?]|[Hne Hx]]%lookup_insert_Some Hd; [done|]. destruct (HF x d Hx Hd) as [Hf|Hin]; [|by apply not_elem_of_nil in Hin].
        left. rewrite lookup_insert_ne; [done|congruence].
      * intros x p [[<- _]|[Hne Hx]]%lookup_insert_Some Hp.
        -- right. apply elem_of_app. left. by apply elem_of_reverse_iff.
        -- destruct (decide (c = p)) as [->|Hcp]; [left; rewrite lookup_insert_eq; by eexists|]. rewrite lookup_insert_ne by done.
           destruct (HD x p Hx Hp) as [?|Hin]; [by left|]. apply elem_of_cons in Hin as [->|?]; [done|]. right. apply elem_of_app. by right.
    + intros x [Hx%in_rev_list|Hx]%elem_of_app; [|apply Hst; by right]. destruct (Hst c ltac:(left)) as (d & Hd & Hr). exists d.
      split; [done|]. eapply rtc_r; [exact Hr|exact Hx].
    + split; [done|]. intros x b Hx. apply H2. rewrite lookup_insert_ne; [done|congruence].
Qed.

(** A pass upwards over the commits found new. *)
Lemma spread_false fuel stack ih ih' : spreadLoop fuel false up stack ih = inr ih' -> heldInv ih [] stack ->
  heldInv ih' [] [] /\ (forall c, ih !! c = Some false -> ih' !! c = Some false).
Proof.
  revert stack ih. induction fuel as [|fuel IH]; intros [|c stack] ih H [HT HF HD]; cbn [spreadLoop] in H; try discriminate;
    try (injection H as <-; done).
  destruct (classified false ih c) eqn:Hc.
  - eapply IH; [exact H|]. constructor; [done| |done]. intros x d Hx Hd. destruct (HF x d Hx Hd) as [?|Hin]; [by left|].
    apply elem_of_cons in Hin as [->|?]; [left|by right]. unfold classified in Hc. destruct (ih !! c) as [[]|]; done.
  - destruct (IH _ _ H) as [H1 H2].
    + constructor.
      * intros x [[_ ?]|[_ Hx]]%lookup_insert_Some; [done|by apply HT].
      * intros x d [[<- _]|[Hne Hx]]%lookup_insert_Some Hd.
        -- right. apply elem_of_app. left. apply elem_of_reverse_iff. by apply Hsym.
        -- destruct (decide (c = d)) as [->|Hcd]; [left; by rewrite lookup_insert_eq|]. rewrite lookup_insert_ne by done.
           destruct (HF x d Hx Hd) as [?|Hin]; [by left|]. apply elem_of_cons in Hin as [->|?]; [done|]. right. apply elem_of_app. by right.
      * intros x p [[_ ?]|[Hne Hx]]%lookup_insert_Some Hp; [done|]. left. destruct (HD x p Hx Hp) as [Hs|Hin]; [|by apply not_elem_of_nil in Hin].
        destruct (decide (c = p)) as [->|Hcp]; [rewrite lookup_insert_eq; by eexists|by rewrite lookup_insert_ne].
    + split; [done|]. intros x Hx. apply H2. destruct (decide (c = x)) as [->|?]; [by rewrite lookup_insert_eq|by rewrite lookup_insert_ne].
Qed.

(** Asking keeps the classification sound and never turns new into held. *)
Definition keepsNew (ih ih' : gmap string bool) : Prop := forall c, ih !! c = Some false -> ih' !! c = Some false.

Lemma ask_inv c ih v ih' : ask held commits down up c ih = inr (v, ih') -> heldInv ih [] [] -> heldInv ih' [] [] /\ keepsNew ih ih'.
Proof.
  unfold ask. destruct (ih !! c) as [b|] eqn:Hc; [intros [= <- <-] H; split; [done|by intros x]|].
  destruct (held c) as [e|b] eqn:Hh; [discriminate|]. intros H [HT HF HD]. apply gbind_inr in H as (ih1 & Hs & H). injection H as _ <-.
  unfold spread in Hs. destruct b.
  - destruct (spread_true _ _ _ _ Hs) as [? Hk]; [constructor; [done|done|]| |split; [done|intros x; apply Hk]].
    + intros x p Hx Hp. destruct (HD x p Hx Hp) as [?|Hin]; [by left|by apply not_elem_of_nil in Hin].
    + intros x ->%list_elem_of_singleton. exists c. split; [done|apply rtc_refl].
  - destruct (spread_false _ _ _ _ Hs) as [? Hk]; [|by split]. constructor; [done| |done].
    intros x d Hx Hd. destruct (HF x d Hx Hd) as [?|Hin]; [by left|by apply not_elem_of_nil in Hin].
Qed.

(** What a sequence of questions leaves. *)
Definition asked (ih ih' : gmap string bool) : Prop := heldInv ih [] [] -> heldInv ih' [] [] /\ keepsNew ih ih'.

Lemma asked_refl ih : asked ih ih.
Proof. intros H. split; [done|by intros x]. Qed.
Lemma asked_trans a b c : asked a b -> asked b c -> asked a c.
Proof. intros H1 H2 Ha. destruct (H1 Ha) as [Hb K1]. destruct (H2 Hb) as [Hc K2]. split; [done|]. intros x Hx. by apply K2, K1. Qed.

Lemma askAll_inv cs ih ih' : askAll held commits down up cs ih = inr ih' -> asked ih ih'.
Proof.
  revert ih. induction cs as [|c cs IH]; intros ih H; cbn [askAll] in H; [injection H as <-; apply asked_refl|].
  apply gbind_inr in H as ([v ih1] & Ha & H). eapply asked_trans; [intros Hi; by eapply ask_inv|by eapply IH].
Qed.

Lemma askParents_inv ps ih q ih' : askParents held commits down up ps ih = inr (q, ih') -> asked ih ih' /\ (length q <= length ps)%nat.
Proof.
  revert ih q. induction ps as [|p ps IH]; intros ih q H; cbn [askParents] in H; [injection H as <- <-; split; [apply asked_refl|cbn; lia]|].
  apply gbind_inr in H as ([v ih1] & Ha & H). apply gbind_inr in H as ([q1 ih2] & Hp & H). injection H as <- <-.
  destruct (IH _ _ Hp) as [H1 H2]. split; [eapply asked_trans; [intros Hi; by eapply ask_inv|done]|]. destruct v; cbn; lia.
Qed.

Lemma queueLoop_inv fuel queue walked ih ih' : queueLoop held commits down up fuel queue walked ih = inr ih' -> asked ih ih'.
Proof.
  revert queue walked ih. induction fuel as [|fuel IH]; intros [|c queue] walked ih H; cbn [queueLoop] in H; try discriminate;
    try (injection H as <-; apply asked_refl).
  case_bool_decide; [by eapply IH|]. apply gbind_inr in H as ([q ih1] & Hp & H).
  eapply asked_trans; [exact (proj1 (askParents_inv _ _ _ _ Hp))|by eapply IH].
Qed.

(** The tips are new to begin with. *)
Lemma tips_false l (ih : gmap string bool) c : foldl (fun m c => <[c := false]> m) ih l !! c = Some false <-> c ∈ l \/ ih !! c = Some false.
Proof.
  revert ih. induction l as [|d l IH]; intros ih; cbn [foldl]; [split; [by right|]; intros [H|?]; [by apply not_elem_of_nil in H|done]|].
  rewrite IH, elem_of_cons. destruct (decide (d = c)) as [->|Hne]; [rewrite lookup_insert_eq|rewrite lookup_insert_ne by done]; naive_solver.
Qed.

Lemma tips_not_true l (ih : gmap string bool) c : foldl (fun m c => <[c := false]> m) ih l !! c = Some true -> ih !! c = Some true.
Proof.
  revert ih. induction l as [|d l IH]; intros ih; cbn [foldl]; [done|]. intros H%IH. apply lookup_insert_Some in H as [[_ ?]|[_ ?]]; done.
Qed.

Lemma elem_of_tips c : c ∈ tips commits up <-> c ∈ commits /\ next up c = [].
Proof.
  unfold tips. rewrite list_elem_of_In, List.filter_In, <- list_elem_of_In. destruct (next up c); naive_solver.
Qed.

Lemma classify_inv ih : classify held commits down up = inr ih ->
  heldInv ih [] [] /\ forall c, c ∈ commits -> next up c = [] -> ih !! c = Some false.
Proof.
  unfold classify. intros H. apply gbind_inr in H as (ih1 & Ha & Hq). set (ih0 := foldl _ ∅ _) in Ha.
  assert (H0 : heldInv ih0 [] []).
  { constructor.
    - intros c Hc%tips_not_true. by rewrite lookup_empty in Hc.
    - intros c d Hc Hd. exfalso. apply tips_false in Hc as [Hc|Hc]; [|by rewrite lookup_empty in Hc].
      apply elem_of_tips in Hc as [_ Hn]. apply Hsym in Hd. rewrite Hn in Hd. by apply not_elem_of_nil in Hd.
    - intros c p Hc%tips_not_true. by rewrite lookup_empty in Hc. }
  destruct (asked_trans _ _ _ (askAll_inv _ _ _ Ha) (queueLoop_inv _ _ _ _ _ Hq) H0) as [Hinv Hkeep]. split; [done|].
  intros c Hc Hn. apply Hkeep. apply tips_false. left. by apply elem_of_tips.
Qed.

(** The held commits are closed under parents. *)
Lemma held_closed ih c p : heldInv ih [] [] -> ih !! c = Some true -> parentOf c p -> ih !! p = Some true.
Proof.
  intros [HT HF HD] Hc Hp. destruct (HD c p Hc Hp) as [[[|] Hb]|Hin]; [done| |by apply not_elem_of_nil in Hin].
  destruct (HF p c Hb Hp) as [Hf|Hin]; [congruence|by apply not_elem_of_nil in Hin].
Qed.

(** ** The loops end *)

(** The edges out of commits not yet classified. *)
Definition leftover (v : bool) (m : edges) (ih : gmap string bool) (cs : list string) : nat :=
  sum_list_with (fun c => if classified v ih c then 0%nat else length (next m c)) cs.

Lemma leftover_le v m ih cs : (leftover v m ih cs <= edgeCount cs m)%nat.
Proof. induction cs as [|c cs IH]; [done|]. unfold leftover, edgeCount in *. cbn. destruct (classified v ih c); lia. Qed.

Lemma leftover_same v m ih c b cs : c ∉ cs -> leftover v m (<[c := b]> ih) cs = leftover v m ih cs.
Proof.
  induction cs as [|d cs IH]; intros Hc; [done|]. apply not_elem_of_cons in Hc as [Hne Hc]. unfold leftover in *. cbn.
  rewrite (IH Hc). unfold classified. by rewrite lookup_insert_ne.
Qed.

Lemma leftover_insert v m ih c cs : NoDup cs -> (c ∉ cs -> next m c = []) -> classified v ih c = false ->
  (leftover v m (<[c := v]> ih) cs + length (next m c) <= leftover v m ih cs)%nat.
Proof.
  intros Hn Hout Hc. destruct (decide (c ∈ cs)) as [Hin|Hni]; [|rewrite leftover_same, (Hout Hni) by done; cbn; lia].
  clear Hout. induction cs as [|d cs IH]; [by apply not_elem_of_nil in Hin|]. apply NoDup_cons in Hn as [Hd Hn]. unfold leftover in *. cbn.
  apply elem_of_cons in Hin as [->|Hin].
  - rewrite Hc. fold (leftover v m (<[d := v]> ih) cs). rewrite leftover_same by done. unfold leftover.
    assert (classified v (<[d := v]> ih) d = true) as -> by (unfold classified; rewrite lookup_insert_eq; by destruct v). lia.
  - specialize (IH Hn Hin). assert (Hne : c <> d) by congruence.
    assert (classified v (<[c := v]> ih) d = classified v ih d) as -> by (unfold classified; by rewrite lookup_insert_ne).
    destruct (classified v ih d); lia.
Qed.

Lemma fueled_spreadLoop fuel v m stack ih : (forall c, c ∉ commits -> next m c = []) ->
  (length stack + leftover v m ih commits <= fuel)%nat -> fueled (spreadLoop fuel v m stack ih).
Proof.
  intros Hm. revert stack ih. induction fuel as [|fuel IH]; intros [|c stack] ih Hf; cbn [spreadLoop]; try exact I; [cbn in Hf; lia|].
  destruct (classified v ih c) eqn:Hc; [apply IH; cbn in Hf; lia|]. apply IH.
  pose proof (leftover_insert v m ih c commits Hnd (Hm c) Hc). rewrite length_app, length_rev. cbn in Hf. lia.
Qed.

Lemma fueled_ask c ih : fueled (ask held commits down up c ih).
Proof.
  unfold ask. destruct (ih !! c); [exact I|]. destruct (held c) as [e|v]; [exact I|]. apply fueled_bind; [|intros; exact I].
  unfold spread. apply fueled_spreadLoop; [by destruct v|]. pose proof (leftover_le v (if v then down else up) ih commits). cbn. lia.
Qed.

Lemma fueled_askAll cs ih : fueled (askAll held commits down up cs ih).
Proof.
  revert ih. induction cs as [|c cs IH]; intros ih; cbn [askAll]; [exact I|]. apply fueled_bind; [apply fueled_ask|]. intros [v ih1] _. apply IH.
Qed.

Lemma fueled_askParents ps ih : fueled (askParents held commits down up ps ih).
Proof.
  revert ih. induction ps as [|p ps IH]; intros ih; cbn [askParents]; [exact I|]. apply fueled_bind; [apply fueled_ask|]. intros [v ih1] _.
  apply fueled_bind; [apply IH|]. intros [q ih2] _. exact I.
Qed.

(** The edges out of commits not yet walked; a walked commit is marked as
    classified in [marks], so the bound is the same. *)
Lemma fueled_queueLoop fuel queue walked marks ih : (forall c, c ∈ walked <-> classified true marks c = true) ->
  (length queue + leftover true down marks commits <= fuel)%nat -> fueled (queueLoop held commits down up fuel queue walked ih).
Proof.
  revert queue walked marks ih. induction fuel as [|fuel IH]; intros [|c queue] walked marks ih Hw Hf; cbn [queueLoop]; try exact I; [cbn in Hf; lia|].
  case_bool_decide as Hc; [eapply IH; [exact Hw|cbn in Hf; lia]|]. apply fueled_bind; [apply fueled_askParents|]. intros [q ih1] Hq.
  apply askParents_inv in Hq as [_ Hlen]. assert (Hcl : classified true marks c = false) by (apply not_true_is_false; by rewrite <- Hw).
  apply (IH _ _ (<[c := true]> marks)).
  - intros x. rewrite elem_of_union, elem_of_singleton, Hw. unfold classified. destruct (decide (c = x)) as [->|Hne].
    + rewrite lookup_insert_eq. cbn. tauto.
    + rewrite lookup_insert_ne by done. naive_solver.
  - pose proof (leftover_insert true down marks c commits Hnd (Hdown c) Hcl). rewrite length_app. cbn in Hf. lia.
Qed.

Lemma fueled_classify : fueled (classify held commits down up).
Proof.
  unfold classify. apply fueled_bind; [apply fueled_askAll|]. intros ih _. apply (fueled_queueLoop _ _ _ ∅).
  - intros c. unfold classified. rewrite lookup_empty. set_solver.
  - pose proof (leftover_le true down ∅ commits). lia.
Qed.
End Classify.

(** ** The settled answer *)

Section Settled.
Context (i : index) (held : string -> errOr bool).

Lemma sortedOIDs_nodup : NoDup (sortedOIDs i).
Proof. unfold sortedOIDs, sortStrings. rewrite sortBy_perm. apply NoDup_fst_map_to_list. Qed.

(** What the links are, for the classification. *)
Lemma links_ok cs down up : links i (sortedOIDs i) [] (∅, ∅) = inr (cs, (down, up)) ->
  (forall c p, p ∈ next down c <-> carriedEdge i c p) /\ (forall c p, c ∈ next up p <-> carriedEdge i c p) /\
  NoDup cs /\ (forall c, c ∈ cs <-> isCommit i c = true) /\
  (forall c, c ∉ cs -> next down c = []) /\ (forall c, c ∉ cs -> next up c = []).
Proof.
  intros H. destruct (links_spec i _ _ _ _ _ H) as (-> & H1 & H2). cbn [app fst snd] in *.
  assert (Hem : forall c, next ∅ c = []) by (intros c; unfold next; by rewrite lookup_empty).
  assert (Hsrc : forall c p, carriedEdge i c p -> c ∈ sortedOIDs i).
  { intros c p (ci & ob & (o & Ho & _) & _). apply sortedOIDs_all. by eexists. }
  assert (Hin : forall c, c ∈ List.filter (isCommit i) (sortedOIDs i) <-> isCommit i c = true).
  { intros c. rewrite list_elem_of_In, List.filter_In, <- list_elem_of_In. split; [tauto|]. intros Hc. split; [|done].
    apply isCommit_true in Hc as (o & Ho & _). apply sortedOIDs_all. by eexists. }
  assert (E1 : forall c p, p ∈ next down c <-> carriedEdge i c p).
  { intros c p. rewrite H1, Hem. split; [intros [Hx|[_ ?]]; [by apply not_elem_of_nil in Hx|done]|]. intros He. right. split; [by eapply Hsrc|done]. }
  assert (E2 : forall c p, c ∈ next up p <-> carriedEdge i c p).
  { intros c p. rewrite H2, Hem. split; [intros [Hx|[_ ?]]; [by apply not_elem_of_nil in Hx|done]|]. intros He. right. split; [by eapply Hsrc|done]. }
  split_and!; [done|done| |done| |].
  - apply NoDup_ListNoDup, List.NoDup_filter, NoDup_ListNoDup, sortedOIDs_nodup.
  - intros c Hc. apply nil_of_no_elem. intros p Hp. apply Hc, Hin. apply E1 in Hp as (ci & ob & (o & ? & ? & _) & _). apply isCommit_true. eauto.
  - intros p Hp. apply nil_of_no_elem. intros c Hc. apply Hp, Hin. apply E2 in Hc as (ci & ob & _ & _ & ? & ?). apply isCommit_true. eauto.
Qed.

Lemma fueled_links oids cs g : fueled (links i oids cs g).
Proof.
  revert cs g. induction oids as [|k oids IH]; intros cs g; cbn [links]; [exact I|]. destruct (byOID i !! k) as [o|]; [|apply IH].
  case_bool_decide; [|apply IH]. apply fueled_bind; [apply fueled_parseCommit|]. intros c _. apply IH.
Qed.

Lemma settle_ends : fueled (settleIndex i held).
Proof.
  unfold settleIndex. apply fueled_bind; [apply fueled_links|]. intros [cs [down up]] Hl.
  destruct (links_ok _ _ _ Hl) as (E1 & E2 & Hnd & _ & Hd & Hu). apply fueled_bind.
  - apply fueled_classify; try done. intros c p. by rewrite E1, E2.
  - intros ih _. apply fueled_bind; [apply fueled_changes|]. intros; exact I.
Qed.

(** The facts of a settled push. *)
Lemma settled_facts r out : settleIndex i held = inr (r, out) ->
  changes i (heldIn r) = inr out /\
  (forall c, heldIn r c = true -> exists d, held d = inr true /\ rtc (carriedEdge i) d c) /\
  (forall c p, heldIn r c = true -> carriedEdge i c p -> heldIn r p = true) /\
  (forall c, isCommit i c = true -> (forall d, ~ carriedEdge i d c) -> heldIn r c = false).
Proof.
  intros H.  unfold settleIndex in H. apply gbind_inr in H as ([cs [down up]] & Hl & H). apply gbind_inr in H as (ih & Hc & H).
  apply gbind_inr in H as (o & Ho & H). injection H as <- <-.
  destruct (links_ok _ _ _ Hl) as (E1 & E2 & Hnd & Hcs & Hd & Hu).
  assert (Hsym : forall c p, p ∈ next down c <-> c ∈ next up p) by (intros c p; by rewrite E1, E2).
  destruct (classify_inv held cs down up Hsym ih Hc) as [Hinv Htips].
  assert (Hheld : forall c, heldIn ih c = true <-> ih !! c = Some true).
  { intros c. unfold heldIn. destruct (ih !! c) as [[]|]; cbn; split; congruence. }
  split_and!; [done|..].
  - intros c Hct%Hheld. destruct (hi_true _ _ _ _ _ Hinv c Hct) as (d & Hdt & Hr). exists d. split; [done|].
    clear -E1 Hr. induction Hr as [x|x y z Hxy Hyz IH]; [apply rtc_refl|]. eapply rtc_l; [|exact IH]. by apply E1.
  - intros c p Hct%Hheld He. apply Hheld. eapply held_closed; [exact Hinv|exact Hct|]. by apply E1.
  - intros c Hcc Hno. apply not_true_iff_false. intros Ht%Hheld. rewrite (Htips c) in Ht; [done|by apply Hcs|].
    apply nil_of_no_elem. intros d Hdd. apply (Hno d). by apply E2.
Qed.

(** What [Settle] leaves out is history the caller holds: a commit is taken as
    held only when the caller holds it or a carried descendant of it; the held
    commits are closed under carried parents, so no commit is held whose ancestor
    is new; a commit that no carried commit builds on, such as the push's new tip,
    is never held; and the changes are those of the commits left, exactly. *)
Theorem settled_history_is_vouched r out
  (H : settleIndex i held = inr (r, out)) :
  changes i (heldIn r) = inr out /\
  (forall c, heldIn r c = true -> exists d, held d = inr true /\ rtc (carriedEdge i) d c) /\
  (forall c p, heldIn r c = true -> carriedEdge i c p -> heldIn r p = true) /\
  (forall c, isCommit i c = true -> (forall d, ~ carriedEdge i d c) -> heldIn r c = false).
Proof. by apply settled_facts. Qed.
End Settled.

(** On the sample pack, with the first commit held by the forge. *)
Definition forgeHolds (o : string) : errOr bool := inr (heldFirst o).
Definition sampleSettled : gmap string bool * (list Change * list string) := okOr (settleIndex sampleIndex forgeHolds) (∅, ([], [])).

Lemma settled_history_is_vouched_witness :
  settleIndex sampleIndex forgeHolds = inr (sampleSettled.1, sampleSettled.2) /\
  heldIn sampleSettled.1 (oidOf "c") = true /\ heldIn sampleSettled.1 (oidOf "d") = false /\
  changes sampleIndex (heldIn sampleSettled.1) = inr sampleSettled.2 /\
  (exists d, forgeHolds d = inr true /\ rtc (carriedEdge sampleIndex) d (oidOf "c")).
Proof.
  assert (E : settleIndex sampleIndex forgeHolds = inr (sampleSettled.1, sampleSettled.2)).
  { rewrite <- surjective_pairing. apply okOr_eq. by vm_compute. }
  assert (Hc : heldIn sampleSettled.1 (oidOf "c") = true) by (by vm_compute).
  destruct (settled_history_is_vouched sampleIndex forgeHolds _ _ E) as (Hch & Hv & _).
  split_and!; [exact E|exact Hc|by vm_compute|exact Hch|exact (Hv _ Hc)].
Defined.
