(* ===== verification/GitPush.v ===== *)
(** * The content rules on a push, end to end

    The broker's rules of [PushForge.v] over the inspection of [GitPack.v] and the
    settled history of [GitSettle.v]: what [inspectPush] makes of the error of
    [gitpack.Inspect], the forge's reader with [Result.Settle] as its second walk,
    and what follows for a push that is not refused. *)
From S2P Require Import Prelude GoStrings GoPath PolicyTypes GoSlices PushRules PushForge GitWire GitTree GitWalk GitPack GitPackSound GitSettle.
Local Open Scope string_scope.
Local Open Scope Z_scope.
Local Open Scope wardyn_scope.
Local Open Scope list_scope.

(** The broker's reading of [gitpack.Inspect]'s answer. *)
Definition inspectionOf (m : gres inspected) : inspection :=
  match m with
  | inl (TooLarge _) | inl TooDeep => InspectTooLarge
  | inl (MissingObject _ []) => InspectMissing None
  | inl (MissingObject _ cmds) => InspectMissing (Some cmds)
  | inl _ => InspectFailed
  | inr r => Inspected (iResult r)
  end.

Definition errText (e : gitErr) : string :=
  match e with
  | Malformed w | Uninspectable w | TooLarge w | Internal w | HeldFailed w => w
  | TooDeep => "trees nested too deep"
  | MissingObject _ _ => "missing objects"
  | OutOfFuel => ""
  end.

(** A forge whose second walk is [Settle] of the push at hand. *)
Definition withSettle (r : inspected) (f : forgeRepo) : forgeRepo :=
  mkForge (ado f) (branchTip f) (containsAt f) (repoDefault f) (treeEntries f)
    (fun _ held => match Settle r held with inl e => inl (errText e) | inr r' => inr (iResult r') end).

(** ** The entries that settle *)

Lemma sameChange_key c d : PushForge.sameChange c d <-> changeKey c = changeKey d.
Proof. unfold PushForge.sameChange, changeKey. split; [intros (-> & -> & -> & ->); done | intros [=]; done]. Qed.

Lemma claimable_key pat c d : changeKey c = changeKey d -> claimable pat c -> claimable pat d.
Proof.
  intros E%sameChange_key. destruct E as (Ep & Em & _). unfold claimable, changeSegs, Opaque. by rewrite Ep, Em.
Qed.

(** What [settle] leaves of an inspected push. *)
Lemma settle_inv r i f settled : iIndex r = Some i -> PushForge.settle (Some (withSettle r f)) (iResult r) = (settled, "") ->
  whyUnsettled <> "" ->
  exists ih, changes i (heldIn ih) = inr (Changes settled, Bases settled) /\
  forall c, heldIn ih c = true -> exists d root, rtc (carriedEdge i) d c /\ root <> "" /\ vouch (withSettle r f) d (Commands (iResult r)) = inr root.
Proof.
  intros Hi Hs Hne. unfold PushForge.settle in Hs. cbn [settleWalk withSettle] in Hs. set (held := fun c => ebind _ _) in Hs.
  destruct (Settle r held) as [e|r'] eqn:Hset.
  { injection Hs as _ Hw. exfalso. apply (f_equal String.length) in Hw. rewrite str_len_app in Hw. cbn in Hw. lia. }
  injection Hs as <-. unfold Settle in Hset. rewrite Hi in Hset. apply gbind_inr in Hset as ([ih out] & Hix & H). injection H as <-.
  pose proof (settled_facts i held ih out Hix) as (Hch & Hv & _). exists ih. cbn. split; [by destruct out|].
  intros c Hc. destruct (Hv c Hc) as (d & Hd & Hr). unfold held in Hd.
  destruct (vouch (withSettle r f) d (Commands (iResult r))) as [e|root] eqn:Ev; [discriminate|]. cbn in Hd. injection Hd as Hd.
  exists d, root. split_and!; [done| |done]. intros ->. done.
Qed.

(** The entry is gone from what is left: every commit that introduces it is in
    history the forge vouches for. *)
Definition inHeldHistory (r : inspected) (i : index) (f : forgeRepo) (k : ekey) : Prop :=
  forall o co b, commitAt i o co -> introducedBy i co k b ->
  exists d root, rtc (carriedEdge i) d o /\ root <> "" /\ vouch (withSettle r f) d (Commands (iResult r)) = inr root.

Lemma settled_out r i f settled k : iIndex r = Some i -> PushForge.settle (Some (withSettle r f)) (iResult r) = (settled, "") ->
  (forall x, x ∈ Changes settled -> changeKey x <> k) -> inHeldHistory r i f k.
Proof.
  intros Hi Hs Hno o co b Hco Hin. destruct (settle_inv r i f settled Hi Hs ltac:(done)) as (ih & Hch & Hv).
  destruct (heldIn ih o) eqn:Hh; [by apply Hv|]. exfalso.
  destruct (exact_changes _ _ _ _ Hch) as [Hex _]. destruct (proj2 (Hex k)) as (x & Hx & Hk); [|by eapply Hno].
  exists co, b. split; [by exists o|done].
Qed.

(** ** A push that is not refused *)

Section Push.
Context (zlib : Bytes -> zstream) (Sum : hashFormat -> Bytes -> Bytes).

(** How the forge answered for an entry a deny pattern claims. *)
Definition answeredFor (r : inspected) (i : index) (f : forgeRepo) (x : Change) : Prop :=
  inHeldHistory r i f (changeKey x) \/
  exists settled d roots, d ∈ Changes settled /\ changeKey d = changeKey x /\
    vouchedFor (withSettle r f) settled roots /\ heldAtAny (withSettle r f) roots d = inr true.

Lemma cleared_answered r i f x pat : iIndex r = Some i -> claimable pat x ->
  clearedBy (claimable pat) heldAtAny (Some (withSettle r f)) (iResult r) x -> answeredFor r i f x.
Proof.
  intros Hi Hx (f' & settled & [= <-] & Hs & Hcl).
  destruct (decide (Exists (fun d => changeKey d = changeKey x) (Changes settled))) as [Hex|Hno].
  - apply Exists_exists in Hex as (d & Hd & Hk). right.
    destruct (Hcl d Hd) as (roots & ? & ?); [by apply sameChange_key|by eapply claimable_key|]. exists settled, d, roots. done.
  - left. eapply settled_out; [done..|]. intros d Hd Hk. apply Hno. apply Exists_exists. eauto.
Qed.

(** C34: from the bytes of a push to the verdict: when a push whose body inspects is
    not refused by the content rules, every entry of the tree of every commit a
    ref is set to is held by all the parents the pack carries, or is among the
    reported changes, and then each deny pattern that claims it was answered for
    by the forge: each commit that brings the entry is in history the forge
    vouches for, or a tree the forge vouches for holds the same entry. Without a
    forge to ask, no reported entry matches a deny pattern. *)
Theorem denied_content_needs_the_forge entryErr rs req forge body r fo c
  (Hreq : inspect req = inspectionOf (Inspect zlib Sum body)) (Hr : Inspect zlib Sum body = inr r)
  (Hforge : forge RuleDenyPaths = option_map (withSettle r) fo)
  (Hpass : forall s, applyPushRules entryErr (Some rs) req forge <> PushRefused s)
  (Hc : c ∈ Commands (iResult r)) (Hz : isZeroOID (New c) = false) :
  exists i k ci, iIndex r = Some i /\ peel i (New c) = Peeled k /\ commitAt i k ci /\
  forall e, leafAt i "" (ctree ci) e ->
    (exists pc, carriedParent i ci pc) /\ (forall pc, carriedParent i ci pc -> leafAt i "" (ctree pc) e) \/
    exists x, x ∈ Changes (iResult r) /\ changeKey x = e /\
      forall pat, pat ∈ deny rs -> claimable pat x -> exists f, fo = Some f /\ answeredFor r i f x.
Proof.
  destruct (inspect_reads_whole zlib Sum body r c Hr Hc Hz) as (i & k & ci & Hi & Hk & Hci & Hall).
  exists i, k, ci. split_and!; [done..|]. intros e He. destruct (Hall e He) as [(x & Hx & Hxe)|?]; [|by left]. right.
  exists x. split_and!; [done..|]. intros pat Hpat Hcl.
  destruct (passed_push_is_answered entryErr rs req forge Hpass) as (_ & _ & _ & res & Hread & Hans).
  assert (res = iResult r) as ->.
  { unfold readPush in Hread. rewrite Hreq, Hr in Hread. cbn [inspectionOf] in Hread. by repeat case_match; simplify_eq. }
  destruct (Hans x Hx) as (Hd & _). specialize (Hd pat Hpat Hcl). rewrite Hforge in Hd.
  destruct fo as [f|]; [|destruct Hd as (f & ? & ? & _); done]. exists f. split; [done|]. by eapply cleared_answered.
Qed.
End Push.

(** A push on a parent the pack does not carry, with a [.github] tree it does not
    carry either: the forge holds that tree at that parent. *)
Definition parentID : string := oidOf "9".
Definition nextTree : Bytes := treeLine "40000" ".github" "7" ++ bytes "100644 a" ++ NUL :: demoID objBlob demoOld.
Definition nextCommit : Bytes :=
  bytes ("tree " +:+ EncodeToString (demoID objTree nextTree) +:+ String NL "" +:+ "parent " +:+ parentID +:+ String NL (String NL "second")).
Definition nextBody : Bytes :=
  bytes "PACK" ++ be4 2 ++ be4 3 ++ packed 3 [] demoOld ++ packed 2 [] nextTree ++ packed 1 [] nextCommit.
Definition nextCommand : Command := mkCommand parentID (EncodeToString (demoID objCommit nextCommit)) "refs/heads/main".
Definition nextRequest : Bytes :=
  encodeLines (sectionLines "" [] nextCommand [] "report-status") ++ nextBody ++ demoSum sha1Format nextBody.
Definition nextResult : inspected := okOr (Inspect demoZlib demoSum nextRequest) (mkInspected "" (mkResult [] [] []) None).
Lemma next_inspects : Inspect demoZlib demoSum nextRequest = inr nextResult.
Proof. apply okOr_eq. by vm_compute. Qed.

Definition holdingForge : forgeRepo :=
  mkForge false (fun _ => inr parentID) (fun _ base => inr (if String.eqb base parentID then "ee" else "")) (inr "main")
    (fun _ => inr [mkTreeEntry ".github" "040000" "tree" (oidOf "7")]) (fun res _ => inr res).
Definition githubRules : pushRuleSet := mkPushRuleSet [[".github"; "**"]] [] 0 "" 1024 0 false false.
Definition nextReq : pushRequest := mkPushRequest [] (BodyRead 200) true (inspectionOf (Inspect demoZlib demoSum nextRequest)).
Definition nextForge (_ : pushRule) : option forgeRepo := Some (withSettle nextResult holdingForge).

Lemma denied_content_needs_the_forge_witness :
  applyPushRules "" (Some githubRules) nextReq nextForge = PushPasses /\
  exists i k ci, iIndex nextResult = Some i /\ peel i (New nextCommand) = Peeled k /\ commitAt i k ci /\
  forall e, leafAt i "" (ctree ci) e ->
    (exists pc, carriedParent i ci pc) /\ (forall pc, carriedParent i ci pc -> leafAt i "" (ctree pc) e) \/
    exists x, x ∈ Changes (iResult nextResult) /\ changeKey x = e /\
      forall pat, pat ∈ deny githubRules -> claimable pat x -> exists f, Some holdingForge = Some f /\ answeredFor nextResult i f x.
Proof.
  assert (E : applyPushRules "" (Some githubRules) nextReq nextForge = PushPasses) by (by vm_compute). split; [exact E|].
  apply (denied_content_needs_the_forge demoZlib demoSum "" githubRules nextReq nextForge nextRequest nextResult (Some holdingForge) nextCommand).
  - reflexivity.
  - exact next_inspects.
  - reflexivity.
  - intros s Hs. rewrite E in Hs. discriminate.
  - assert (Ec : Commands (iResult nextResult) = [nextCommand]) by (by vm_compute). rewrite Ec. left.
  - by vm_compute.
Defined.

(** With the forge holding another object there, the push is refused. *)
Definition otherForge : forgeRepo :=
  mkForge false (fun _ => inr parentID) (fun _ base => inr (if String.eqb base parentID then "ee" else "")) (inr "main")
    (fun _ => inr [mkTreeEntry ".github" "040000" "tree" (oidOf "6")]) (fun res _ => inr res).
Example changed_content_is_refused :
  applyPushRules "" (Some githubRules) nextReq (fun _ => Some (withSettle nextResult otherForge)) = PushRefused ruleSourceGitRules.
Proof. by vm_compute. Qed.
