(* ===== verification/CanonNumber.v ===== *)
(** * One spelling per JSON number

    [canonicalNumber] of [approval.go], which the approval service uses so that
    value-equal scopes are stored and hashed alike, and its meaning: it keeps the
    number's value, and two numbers get the same spelling exactly when their values
    are equal. *)
From S2P Require Import Prelude GoStrings Grants.
From Stdlib Require Import QArith Qpower.
Local Open Scope string_scope.
Local Open Scope Z_scope.

(** ** The code *)

Definition isZero : ascii -> bool := Ascii.eqb "0".
Definition slen (s : string) : Z := Z.of_nat (String.length s).

(** [strings.Repeat("0", n)]. *)
Fixpoint zeros (n : nat) : string := match n with O => "" | S n => String "0" (zeros n) end.

(** [s[:n]] and [s[n:]], for [n] within the string. *)
Fixpoint strTake (n : nat) (s : string) : string :=
  match n, s with S n, String c s => String c (strTake n s) | _, _ => "" end.
Fixpoint strDrop (n : nat) (s : string) : string :=
  match n, s with S n, String _ s => strDrop n s | _, _ => s end.

(** The digits, laid out: the last [switch]. *)
Definition layout (digits : string) (q : Z) : string :=
  let point := slen digits + q in
  if (0 <=? q) && (q <=? 20) then digits +:+ zeros (Z.to_nat q)
  else if (q <? 0) && (point >? 0) then strTake (Z.to_nat point) digits +:+ "." +:+ strDrop (Z.to_nat point) digits
  else if (q <? 0) && (point >? -20) then "0." +:+ zeros (Z.to_nat (- point)) +:+ digits
  else
    let rest := strDrop 1 digits in
    strTake 1 digits +:+ (if String.eqb rest "" then "" else "." +:+ rest) +:+ "e" +:+ Itoa (point - 1).

(** The body after the exponent was read. *)
Definition spell (neg : bool) (mant : string) (exp : Z) : string :=
  let '(whole, frac) := match cutByte "." mant with Some p => p | None => (mant, "") end in
  let digits := trimLeftFunc isZero (whole +:+ frac) in
  if String.eqb digits "" then "0"
  else
    let kept := trimRightFunc isZero digits in
    let q := exp - slen frac + (slen digits - slen kept) in
    let out := layout kept q in
    if neg then "-" +:+ out else out.

Definition maxExp : Z := Z.shiftl 1 40.

Definition canonicalNumber (n : string) : string :=
  let neg := HasPrefix n "-" in
  let body := if neg then strDrop 1 n else n in
  match (match cutByte "e" body with Some p => Some p | None => cutByte "E" body end) with
  | None => spell neg body 0
  | Some (mant, expPart) =>
      match Atoi expPart with
      | None => n
      | Some e => if (e >? maxExp) || (e <? - maxExp) then n else spell neg mant e
      end
  end.

Example canon_examples :
  map canonicalNumber ["1.0"; "1"; "10e-1"; "-0.0e7"; "1e21"; "123E2"; "0.00012"; "-1.50"; "12e-30"; "0"; "1e99999999999999999999"]
  = ["1"; "1"; "1"; "0"; "1e21"; "12300"; "0.00012"; "-1.5"; "1.2e-29"; "0"; "1e99999999999999999999"].
Proof. reflexivity. Qed.

(** ** What a number is *)

Fixpoint dnum (acc : Z) (s : string) : Z := match s with "" => acc | String c s => dnum (acc * 10 + digit_val c) s end.
Definition digitsOf (s : string) : Prop := str_forall is_digit s = true.

(** The fraction and exponent of a JSON number, as text. *)
Inductive fracText : string -> string -> Prop :=
| noFrac : fracText "" ""
| someFrac f : digitsOf f -> fracText ("." +:+ f) f.
Inductive expText : string -> Z -> Prop :=
| noExp : expText "" 0
| someExp e sign ds : e = "e" \/ e = "E" -> sign = "" \/ sign = "+" \/ sign = "-" -> ds <> "" -> digitsOf ds ->
    expText (e +:+ sign +:+ ds) (if String.eqb sign "-" then - dnum 0 ds else dnum 0 ds).

(** [jsonNumber n m e]: the text [n] is a JSON number (leading zeros allowed) of
    value [m * 10^e]; the exponent as written is [x]. *)
Inductive jsonNumber : string -> Z -> Z -> Z -> Prop :=
| mkNumber neg whole ft frac et x : whole <> "" -> digitsOf whole -> fracText ft frac -> expText et x ->
    jsonNumber ((if (neg : bool) then "-" else "") +:+ whole +:+ ft +:+ et)
      (if neg then - dnum 0 (whole +:+ frac) else dnum 0 (whole +:+ frac)) (x - slen frac) x.

Definition decimal (m e : Z) : Q := (inject_Z m * (10 # 1) ^ e)%Q.

(** ** Digits *)

Lemma slen_app a b : slen (a +:+ b) = slen a + slen b.
Proof. unfold slen. rewrite str_len_app. lia. Qed.
Lemma slen_nonneg s : 0 <= slen s.
Proof. unfold slen. lia. Qed.
Lemma slen_cons c s : slen (String c s) = 1 + slen s.
Proof. unfold slen. cbn. lia. Qed.
Lemma slen_zeros n : slen (zeros n) = Z.of_nat n.
Proof. induction n as [|n IH]; [done|]. cbn [zeros]. rewrite slen_cons, IH. lia. Qed.

Lemma digit_val_range c : is_digit c = true -> 0 <= digit_val c <= 9.
Proof. unfold is_digit, digit_val. intros [H1 H2]%andb_prop. lia. Qed.

Lemma dnum_acc s acc : dnum acc s = acc * 10 ^ slen s + dnum 0 s.
Proof.
  revert acc. induction s as [|c s IH]; intros acc; cbn [dnum]; [unfold slen; cbn; lia|].
  rewrite IH, (IH (0 * 10 + digit_val c)). rewrite slen_cons. rewrite Z.pow_add_r by (unfold slen; lia). rewrite Z.pow_1_r. ring.
Qed.

Lemma dnum_app a b : dnum 0 (a +:+ b) = dnum 0 a * 10 ^ slen b + dnum 0 b.
Proof.
  induction a as [|c a IH]; [done|]. change (String c a +:+ b) with (String c (a +:+ b)). cbn [dnum].
  rewrite dnum_acc, IH, (dnum_acc a (0 * 10 + _)), slen_app, Z.pow_add_r by apply slen_nonneg. ring.
Qed.

Lemma dnum_zeros n : dnum 0 (zeros n) = 0.
Proof. by induction n. Qed.

Lemma dnum_bound s : digitsOf s -> 0 <= dnum 0 s < 10 ^ slen s.
Proof.
  unfold digitsOf. induction s as [|c s IH]; [done|]. cbn [str_forall dnum]. intros [Hc Hs]%andb_prop.
  rewrite dnum_acc, slen_cons, Z.pow_add_r by (unfold slen; lia). specialize (IH Hs). apply digit_val_range in Hc.
  change (10 ^ 1) with 10. nia.
Qed.

Lemma digits_val_dnum s acc : digitsOf s -> digits_val acc s = Some (dnum acc s).
Proof. unfold digitsOf. revert acc. induction s as [|c s IH]; intros acc; [done|]. cbn. intros [-> Hs]%andb_prop. by apply IH. Qed.

Lemma zeros_digits n : digitsOf (zeros n).
Proof. by induction n. Qed.
Lemma digits_app a b : digitsOf a -> digitsOf b -> digitsOf (a +:+ b).
Proof. unfold digitsOf. intros Ha Hb. by rewrite str_forall_app, Ha, Hb. Qed.

(** Leading zeros do not count; trailing ones are a power of ten. *)
Lemma trimLeft_spec s : exists n, s = zeros n +:+ trimLeftFunc isZero s.
Proof.
  induction s as [|c s IH]; [by exists 0%nat|]. cbn [trimLeftFunc]. destruct (isZero c) eqn:Hc; [|by exists 0%nat].
  destruct IH as [n Hn]. exists (S n). unfold isZero in Hc. apply Ascii.eqb_eq in Hc as <-. cbn [zeros]. rewrite str_app_cons. by rewrite <- Hn.
Qed.

Lemma trimRight_spec s : exists n, s = trimRightFunc isZero s +:+ zeros n.
Proof.
  induction s as [|c s [n Hn]]; [by exists 0%nat|]. cbn [trimRightFunc]. destruct (trimRightFunc isZero s) as [|d r] eqn:Ht.
  - destruct (isZero c) eqn:Hc; exists (if isZero c then S n else n).
    + rewrite Hc. unfold isZero in Hc. apply Ascii.eqb_eq in Hc as <-. rewrite Hn. done.
    + rewrite Hc. rewrite Hn at 1. done.
  - exists n. rewrite str_app_cons. by rewrite <- Hn.
Qed.

(** Neither end of the kept digits is a zero. *)
Fixpoint lastOf (d : ascii) (s : string) : ascii := match s with "" => d | String c s => lastOf c s end.
Record normal (s : string) : Prop := mkNormal {
  nm_digits : digitsOf s; nm_head : exists c r, s = String c r /\ isZero c = false; nm_last : isZero (lastOf "0" s) = false }.

Lemma trimLeft_head s : match trimLeftFunc isZero s with "" => True | String c _ => isZero c = false end.
Proof. induction s as [|c s IH]; [done|]. cbn. destruct (isZero c) eqn:E; [done|]. done. Qed.

Lemma trimRight_last s : match trimRightFunc isZero s with "" => True | t => isZero (lastOf "0" t) = false end.
Proof.
  induction s as [|c s IH]; [done|]. cbn [trimRightFunc]. destruct (trimRightFunc isZero s) as [|d r]; [|done].
  by destruct (isZero c) eqn:E.
Qed.

Lemma digits_suffix a b : digitsOf (a +:+ b) -> digitsOf a /\ digitsOf b.
Proof. unfold digitsOf. rewrite str_forall_app. by intros [-> ->]%andb_prop. Qed.

(** The significant digits of [s]: what trimming leaves. *)
Lemma significant s (digits := trimLeftFunc isZero s) (kept := trimRightFunc isZero digits) : digitsOf s ->
  if String.eqb digits "" then dnum 0 s = 0
  else normal kept /\ 0 <= slen digits - slen kept /\ dnum 0 s = dnum 0 kept * 10 ^ (slen digits - slen kept).
Proof.
  intros Hs. destruct (trimLeft_spec s) as [n Hn]. fold digits in Hn. destruct (trimRight_spec digits) as [k Hk]. fold kept in Hk.
  pose proof (trimLeft_head s) as Hh. fold digits in Hh. pose proof (trimRight_last digits) as Hl. fold kept in Hl.
  clearbody kept. clearbody digits.
  destruct (String.eqb_spec digits "") as [E|Hne]; [rewrite Hn, E, str_app_nil_r; apply dnum_zeros|].
  assert (Hd : digitsOf digits) by (rewrite Hn in Hs; by apply digits_suffix in Hs as [_ ?]).
  assert (Hlen : slen digits - slen kept = Z.of_nat k) by (rewrite Hk at 1; rewrite slen_app, slen_zeros; lia).
  rewrite Hlen. split_and!; [|lia|].
  - assert (Hkd : digitsOf kept) by (rewrite Hk in Hd; by apply digits_suffix in Hd as [? _]).
    destruct digits as [|c r]; [done|]. destruct kept as [|c' r'].
    + destruct k; [done|]. cbn in Hk. injection Hk as -> _. done.
    + cbn in Hk. injection Hk as <- _. constructor; [done|eauto|done].
  - rewrite Hn, dnum_app, dnum_zeros. rewrite Hk at 2. rewrite dnum_app, dnum_zeros, slen_zeros. lia.
Qed.

(** ** Normal digit strings are determined by their value *)

Lemma dnum_last s d : dnum (digit_val d) s mod 10 = digit_val (lastOf d s) mod 10.
Proof.
  assert (H : forall s acc d, acc mod 10 = digit_val d mod 10 -> dnum acc s mod 10 = digit_val (lastOf d s) mod 10); [|by apply H].
  clear. induction s as [|c s IH]; intros acc d H; [done|]. cbn. apply IH. rewrite Z.add_mod, Z.mul_mod, Z.mod_same by lia.
  rewrite Z.mul_0_r, Z.mod_0_l by lia. rewrite Z.add_0_l. by rewrite Z.mod_mod.
Qed.

Lemma digit_nonzero c : is_digit c = true -> isZero c = false -> 1 <= digit_val c <= 9.
Proof.
  intros Hd Hz. pose proof (digit_val_range c Hd). destruct (decide (digit_val c = 0)) as [E|]; [|lia]. exfalso.
  unfold digit_val, byte_of in E. assert (N_of_ascii c = 48%N) as E' by lia. apply (f_equal ascii_of_N) in E'.
  rewrite ascii_N_embedding in E'. subst c. done.
Qed.

Lemma lastOf_digit s d : is_digit d = true -> digitsOf s -> is_digit (lastOf d s) = true.
Proof. unfold digitsOf. revert d. induction s as [|c s IH]; intros d Hd; [done|]. cbn. intros [Hc Hs]%andb_prop. by apply IH. Qed.

Lemma normal_bounds s : normal s -> 10 ^ (slen s - 1) <= dnum 0 s < 10 ^ slen s /\ dnum 0 s mod 10 <> 0.
Proof.
  intros [Hd (c & r & -> & Hc) Hl]. assert (Hc' : is_digit c = true) by (unfold digitsOf in Hd; cbn in Hd; by apply andb_prop in Hd as [? _]).
  split_and!; [|by apply dnum_bound|].
  - cbn [dnum]. rewrite dnum_acc, slen_cons. apply digit_nonzero in Hc; [|done]. replace (1 + slen r - 1) with (slen r) by lia.
    assert (0 <= dnum 0 r) by (apply dnum_bound; unfold digitsOf in *; cbn in Hd; by apply andb_prop in Hd as [_ ?]).
    assert (0 < 10 ^ slen r) by (apply Z.pow_pos_nonneg; [lia|apply slen_nonneg]). nia.
  - change (dnum 0 (String c r)) with (dnum (digit_val "0") (String c r)). rewrite dnum_last.
    pose proof (lastOf_digit (String c r) "0" eq_refl Hd) as Hld. pose proof (digit_nonzero _ Hld Hl). rewrite Z.mod_small; lia.
Qed.

Lemma dnum_inj a b : digitsOf a -> digitsOf b -> slen a = slen b -> dnum 0 a = dnum 0 b -> a = b.
Proof.
  revert b. induction a as [|c a IH]; intros [|d b] Ha Hb Hlen Hv; [done|unfold slen in Hlen; cbn in Hlen; lia..|].
  rewrite !slen_cons in Hlen. cbn [dnum] in Hv. rewrite !(dnum_acc _ (0 * 10 + _)) in Hv. assert (Hl : slen a = slen b) by lia. rewrite Hl in Hv.
  unfold digitsOf in Ha, Hb. cbn in Ha, Hb. apply andb_prop in Ha as [Hc Ha], Hb as [Hd Hb].
  pose proof (dnum_bound a Ha) as Ba. pose proof (dnum_bound b Hb) as Bb. rewrite Hl in Ba.
  assert (Hcd : digit_val c = digit_val d).
  { destruct (Z.lt_trichotomy (digit_val c) (digit_val d)) as [?|[?|?]]; [nia|done|nia]. }
  f_equal; [|apply IH; try done; nia].
  unfold digit_val, byte_of in Hcd. rewrite <- (ascii_N_embedding c), <- (ascii_N_embedding d). f_equal. lia.
Qed.

(** ** Values *)

Lemma ten_neq0 : ~ (10 # 1 == 0)%Q.
Proof. done. Qed.

Lemma ten_pow k : 0 <= k -> ((10 # 1) ^ k == inject_Z (10 ^ k))%Q.
Proof. intros Hk. change (10 # 1)%Q with (inject_Z 10). symmetry. by apply Zpower_Qpower. Qed.

Lemma decimal_shift m e k : 0 <= k -> (decimal (m * 10 ^ k) e == decimal m (e + k))%Q.
Proof.
  intros Hk. unfold decimal. rewrite (Qpower_plus _ _ _ ten_neq0), inject_Z_mult, (ten_pow k Hk). ring.
Qed.

Lemma decimal_inj m n e : (decimal m e == decimal n e)%Q -> m = n.
Proof.
  unfold decimal. intros H. apply Qmult_inj_r in H; [|apply Qpower_not_0, ten_neq0]. apply (proj1 (inject_Z_injective m n)), H.
Qed.

(** A mantissa not divisible by ten fixes the exponent. *)
Lemma decimal_normal m n e f : m mod 10 <> 0 -> n mod 10 <> 0 -> (decimal m e == decimal n f)%Q -> e = f /\ m = n.
Proof.
  assert (H : forall m n e f, m mod 10 <> 0 -> (decimal m e == decimal n f)%Q -> ~ e < f).
  { intros a b x y Ha He Hlt. apply Ha. replace y with (x + (y - x)) in He by lia.
    rewrite <- decimal_shift in He by lia. apply decimal_inj in He as ->.
    replace (y - x) with (1 + (y - x - 1)) by lia. rewrite Z.pow_add_r by lia. change (10 ^ 1) with 10.
    replace (b * (10 * 10 ^ (y - x - 1))) with ((b * 10 ^ (y - x - 1)) * 10) by ring. apply Z.mod_mul. lia. }
  intros Hm Hn He. assert (e = f) as ->; [|by split; [|apply decimal_inj in He]].
  pose proof (H m n e f Hm He). symmetry in He. pose proof (H n m f e Hn He). lia.
Qed.

(** ** The layout keeps the value *)

Lemma number_intro neg whole ft frac et x n m e : whole <> "" -> digitsOf whole -> fracText ft frac -> expText et x ->
  n = (if (neg : bool) then "-" else "") +:+ whole +:+ ft +:+ et ->
  m = (if neg then - dnum 0 (whole +:+ frac) else dnum 0 (whole +:+ frac)) -> e = x - slen frac -> jsonNumber n m e x.
Proof. intros ? ? ? ? -> -> ->. by constructor. Qed.

Lemma take_drop n s : strTake n s +:+ strDrop n s = s.
Proof. revert s. induction n as [|n IH]; intros [|c s]; try done. cbn. rewrite str_app_cons. by rewrite IH. Qed.
Lemma slen_take k s : (k <= String.length s)%nat -> slen (strTake k s) = Z.of_nat k.
Proof. revert s. induction k as [|k IH]; intros [|c s] Hk; cbn in Hk; try done; [lia|]. cbn [strTake]. rewrite slen_cons, IH by lia. lia. Qed.
Lemma slen_drop k s : (k <= String.length s)%nat -> slen (strDrop k s) = slen s - Z.of_nat k.
Proof. intros Hk. rewrite <- (take_drop k s) at 2. rewrite slen_app, slen_take by done. lia. Qed.
Lemma slen_pos s : 0 < slen s <-> s <> "".
Proof. destruct s; [done|]. rewrite slen_cons. pose proof (slen_nonneg s). split; [done|lia]. Qed.

Lemma expText_Itoa z : expText ("e" +:+ Itoa z) z.
Proof.
  assert (G : forall p, 0 <= p -> dnum 0 (Itoa p) = p).
  { intros p Hp. pose proof (digits_val_Itoa p Hp) as E. rewrite digits_val_dnum in E by (by apply Itoa_digits). congruence. }
  destruct (Z_le_gt_dec 0 z) as [Hz|Hz].
  - pose proof (someExp "e" "" (Itoa z) ltac:(by left) ltac:(by left) (Itoa_nonempty z) (Itoa_digits z Hz)) as H. cbn in H.
    by rewrite G in H.
  - destruct z as [|p|p]; [lia|lia|]. change (Itoa (Zneg p)) with ("-" +:+ Itoa (Zpos p)).
    pose proof (someExp "e" "-" (Itoa (Zpos p)) ltac:(by left) ltac:(by right; right) (Itoa_nonempty _) (Itoa_digits (Zpos p) ltac:(lia))) as H.
    rewrite G in H by lia. exact H.
Qed.

Lemma layout_spec neg d q : normal d ->
  exists m e x, jsonNumber ((if (neg : bool) then "-" else "") +:+ layout d q) m e x /\
    (decimal m e == decimal (if neg then - dnum 0 d else dnum 0 d) q)%Q.
Proof.
  intros Hn. pose proof (nm_digits _ Hn) as Hd. destruct (nm_head _ Hn) as (c & r & Ed & _).
  assert (Hpos : 0 < slen d) by (rewrite Ed; apply slen_pos; done).
  assert (Hsame : forall m k e, 0 <= k -> (decimal (if neg then - (m * 10 ^ k) else m * 10 ^ k) e == decimal (if neg then - m else m) (e + k))%Q).
  { intros m k e Hk. rewrite <- decimal_shift by done. destruct neg; [|done]. by rewrite Z.mul_opp_l. }
  unfold layout. set (point := slen d + q). destruct ((0 <=? q) && (q <=? 20)) eqn:E1.
  - apply andb_prop in E1 as [E1%Z.leb_le _]. eexists _, _, 0. split.
    + eapply (number_intro neg (d +:+ zeros (Z.to_nat q)) "" "" "" 0); try reflexivity;
        [by rewrite Ed|apply digits_app; [done|apply zeros_digits]|constructor|constructor|by rewrite !str_app_nil_r].
    + rewrite str_app_nil_r, dnum_app, dnum_zeros, slen_zeros, Z2Nat.id, Z.add_0_r by lia. change (0 - slen "") with 0.
      by rewrite Hsame by done.
  - clear E1. destruct ((q <? 0) && (point >? 0)) eqn:E2.
    { apply andb_prop in E2 as [E2%Z.ltb_lt E3]. apply Z.gtb_lt in E3.
      assert (Hp : (Z.to_nat point <= String.length d)%nat) by (unfold slen in *; lia).
      pose proof (take_drop (Z.to_nat point) d) as Htd. pose proof Hd as Hd2. rewrite <- Htd in Hd2. apply digits_suffix in Hd2 as [Ht Hr].
      eexists _, _, 0. split.
      - eapply (number_intro neg (strTake (Z.to_nat point) d) ("." +:+ strDrop (Z.to_nat point) d) (strDrop (Z.to_nat point) d) "" 0); try reflexivity; try done;
          [apply slen_pos; rewrite slen_take by done; lia|by constructor|constructor|by rewrite !str_app_nil_r].
      - rewrite Htd. replace (0 - slen (strDrop (Z.to_nat point) d)) with q; [done|]. rewrite slen_drop by done. lia. }
    destruct ((q <? 0) && (point >? -20)) eqn:E3.
    { apply andb_prop in E3 as [E3%Z.ltb_lt _]. rewrite (proj2 (Z.ltb_lt q 0) E3) in E2. cbn in E2. rewrite Z.gtb_ltb in E2. apply Z.ltb_ge in E2.
      eexists _, _, 0. split.
      - eapply (number_intro neg "0" ("." +:+ zeros (Z.to_nat (- point)) +:+ d) (zeros (Z.to_nat (- point)) +:+ d) "" 0); try reflexivity; try done;
          [constructor; apply digits_app; [apply zeros_digits|done]|constructor|by rewrite !str_app_nil_r].
      - rewrite slen_app, slen_zeros, Z2Nat.id by lia. replace (0 - (- point + slen d)) with q by lia.
        change ("0" +:+ zeros (Z.to_nat (- point)) +:+ d) with (zeros (S (Z.to_nat (- point))) +:+ d). by rewrite dnum_app, dnum_zeros. }
    clear E2 E3. pose proof (take_drop 1 d) as Htd. pose proof Hd as Hd2. rewrite <- Htd in Hd2. apply digits_suffix in Hd2 as [Ht Hr].
    assert (H1 : (1 <= String.length d)%nat) by (unfold slen in *; lia).
    eexists _, _, (point - 1). split.
    + eapply (number_intro neg (strTake 1 d) (if String.eqb (strDrop 1 d) "" then "" else "." +:+ strDrop 1 d) (strDrop 1 d)
                ("e" +:+ Itoa (point - 1)) (point - 1)); try reflexivity; try done.
      * apply slen_pos. rewrite slen_take by done. lia.
      * destruct (String.eqb_spec (strDrop 1 d) "") as [->|]; by constructor.
      * apply expText_Itoa.
    + rewrite Htd. replace (point - 1 - slen (strDrop 1 d)) with q; [done|]. rewrite slen_drop by done. lia.
Qed.

(** ** Reading a number *)

Lemma cutByte_lacks c s : str_has c s = false -> cutByte c s = None.
Proof. induction s as [|x s IH]; [done|]. rewrite str_has_cons. cbn [cutByte]. destruct (Ascii.eqb x c); [done|]. intros H. by rewrite IH. Qed.
Lemma cutByte_at c a b : str_has c a = false -> cutByte c (a +:+ String c b) = Some (a, b).
Proof.
  induction a as [|x a IH]; [rewrite str_app_nil_l; cbn [cutByte]; by rewrite Ascii.eqb_refl|]. rewrite str_has_cons, str_app_cons. cbn [cutByte].
  destruct (Ascii.eqb x c); [done|]. intros H. by rewrite IH.
Qed.

Lemma digits_lack c s : digitsOf s -> is_digit c = false -> str_has c s = false.
Proof. intros Hs Hc. by apply (str_forall_has_not is_digit). Qed.

Lemma fracText_lack c ft frac : fracText ft frac -> is_digit c = false -> c <> "."%char -> str_has c ft = false.
Proof.
  intros [|f Hf] Hc Hd; [done|]. change ("." +:+ f) with (String "." f). rewrite str_has_cons, (digits_lack c f Hf Hc).
  by destruct (Ascii.eqb_spec "." c) as [<-|].
Qed.

Lemma fracText_digits ft frac : fracText ft frac -> digitsOf frac.
Proof. by intros []. Qed.

Lemma spell_parts neg whole ft frac x : digitsOf whole -> fracText ft frac ->
  spell neg (whole +:+ ft) x =
  let digits := trimLeftFunc isZero (whole +:+ frac) in
  if String.eqb digits "" then "0"
  else (if neg then "-" else "") +:+ layout (trimRightFunc isZero digits) (x - slen frac + (slen digits - slen (trimRightFunc isZero digits))).
Proof.
  intros Hw Hf. unfold spell. assert (Hc : (match cutByte "." (whole +:+ ft) with Some p => p | None => (whole +:+ ft, "") end) = (whole, frac)).
  { destruct Hf as [|f Hf]; [rewrite str_app_nil_r, cutByte_lacks by (by apply digits_lack); done|].
    change ("." +:+ f) with (String "." f). by rewrite cutByte_at by (by apply digits_lack). }
  rewrite Hc. cbn zeta. destruct (String.eqb _ ""); [done|]. by destruct neg.
Qed.

Lemma Atoi_signed sign ds (v := if String.eqb sign "-" then - dnum 0 ds else dnum 0 ds) :
  sign = "" \/ sign = "+" \/ sign = "-" -> ds <> "" -> digitsOf ds ->
  Atoi (sign +:+ ds) = if (- 2 ^ 63 <=? v) && (v <? 2 ^ 63) then Some v else None.
Proof.
  intros Hs Hne Hd. unfold Atoi, v. destruct Hs as [-> | [-> | ->]].
  - rewrite str_app_nil_l. destruct ds as [|c r]; [done|]. pose proof Hd as Hd'. unfold digitsOf in Hd'. cbn in Hd'. apply andb_prop in Hd' as [Hc _].
    destruct (Ascii.eqb_spec c "-") as [->|Hm]; [done|]. destruct (Ascii.eqb_spec c "+") as [->|Hpl]; [done|].
    assert (E : (match String c r with String "-" r0 => (true, r0) | String "+" r0 => (false, r0) | _ => (false, String c r) end) = (false, String c r)).
    { clear -Hm Hpl. destruct c as [[] [] [] [] [] [] [] []]; try reflexivity; congruence. }
    rewrite E. by rewrite (digits_val_dnum (String c r) 0) by done.
  - destruct ds as [|c r]; [done|]. change ("+" +:+ String c r) with (String "+" (String c r)). cbn -[digits_val dnum Z.pow].
    by rewrite (digits_val_dnum (String c r) 0) by done.
  - destruct ds as [|c r]; [done|]. change ("-" +:+ String c r) with (String "-" (String c r)). cbn -[digits_val dnum Z.pow].
    by rewrite (digits_val_dnum (String c r) 0) by done.
Qed.

Lemma Atoi_exp sign ds (v := if String.eqb sign "-" then - dnum 0 ds else dnum 0 ds) : sign = "" \/ sign = "+" \/ sign = "-" -> ds <> "" -> digitsOf ds ->
  Z.abs v <= maxExp -> Atoi (sign +:+ ds) = Some v.
Proof.
  intros Hs Hne Hd Hb. rewrite Atoi_signed by done. fold v. change maxExp with 1099511627776 in Hb.
  rewrite (proj2 (Z.leb_le _ _)), (proj2 (Z.ltb_lt _ _)) by lia. done.
Qed.

(** What the code reads off a number: its sign, its mantissa and its exponent's
    text. *)
Definition signOf (n : string) : bool := HasPrefix n "-".
Definition cutExp (body : string) : option (string * string) :=
  match cutByte "e" body with Some p => Some p | None => cutByte "E" body end.
Inductive expPart : string -> option string -> Z -> Prop :=
| absent : expPart "" None 0
| present e sign ds : e = "e" \/ e = "E" -> sign = "" \/ sign = "+" \/ sign = "-" -> ds <> "" -> digitsOf ds ->
    expPart (e +:+ sign +:+ ds) (Some (sign +:+ ds)) (if String.eqb sign "-" then - dnum 0 ds else dnum 0 ds).

Lemma number_read (neg : bool) whole ft frac et x (n := (if neg then "-" else "") +:+ whole +:+ ft +:+ et) :
  whole <> "" -> digitsOf whole -> fracText ft frac -> expText et x ->
  signOf n = neg /\ exists t, expPart et t x /\
    cutExp (if neg then strDrop 1 n else n) = match t with Some t => Some (whole +:+ ft, t) | None => None end /\
    (t = None -> (if neg then strDrop 1 n else n) = whole +:+ ft).
Proof.
  intros Hne Hw Hf He. split.
  { unfold signOf, n. destruct neg; [apply HasPrefix_spec; eauto|]. destruct (HasPrefix _ _) eqn:E; [|done]. exfalso. apply HasPrefix_spec in E as [r' E].
    destruct whole as [|c r]; [done|]. unfold digitsOf in Hw. cbn in Hw. apply andb_prop in Hw as [Hc _].
    rewrite str_app_nil_l, !str_app_cons in E. injection E as -> _. done. }
  assert (Hbody : (if neg then strDrop 1 n else n) = (whole +:+ ft) +:+ et).
  { unfold n. destruct neg; rewrite ?str_app_cons, ?str_app_nil_l; cbn [strDrop]; by rewrite str_app_assoc. }
  rewrite Hbody. clear Hbody n.
  assert (Hlack : forall c, is_digit c = false -> c <> "."%char -> str_has c (whole +:+ ft) = false).
  { intros c Hc Hd. by rewrite str_has_app, (digits_lack c whole Hw Hc), (fracText_lack c ft frac Hf Hc Hd). }
  unfold cutExp. destruct He as [|e sign ds Hchar Hsign Hds Hdd].
  { exists None. rewrite str_app_nil_r, !cutByte_lacks by (by apply Hlack). split_and!; [constructor|done|done]. }
  exists (Some (sign +:+ ds)). split_and!; [by constructor| |done].
  destruct Hchar as [-> | ->].
  - change ("e" +:+ sign +:+ ds) with (String "e" (sign +:+ ds)). by rewrite cutByte_at by (by apply Hlack).
  - rewrite cutByte_lacks; [change ("E" +:+ sign +:+ ds) with (String "E" (sign +:+ ds)); by rewrite cutByte_at by (by apply Hlack)|].
    rewrite !str_has_app, <- (str_has_app _ whole), Hlack by done. rewrite (digits_lack "e" ds Hdd) by done. by destruct Hsign as [->|[-> | ->]].
Qed.

(** On a number whose exponent is in range, the code spells its parts. *)
Lemma canonical_parts (neg : bool) whole ft frac et x : whole <> "" -> digitsOf whole -> fracText ft frac -> expText et x -> Z.abs x <= maxExp ->
  canonicalNumber ((if neg then "-" else "") +:+ whole +:+ ft +:+ et) = spell neg (whole +:+ ft) x.
Proof.
  intros Hne Hw Hf He Hx. destruct (number_read neg whole ft frac et x Hne Hw Hf He) as (Hsgn & t & Ht & Hcut & Hb).
  unfold canonicalNumber. fold (signOf ((if neg then "-" else "") +:+ whole +:+ ft +:+ et)). rewrite Hsgn.
  fold (cutExp (if neg then strDrop 1 ((if neg then "-" else "") +:+ whole +:+ ft +:+ et) else (if neg then "-" else "") +:+ whole +:+ ft +:+ et)).
  rewrite Hcut. destruct Ht as [|e sign ds Hchar Hsign Hds Hdd]; [by rewrite Hb|].
  rewrite Atoi_exp by done. set (v := if String.eqb sign "-" then _ else _) in *.
  rewrite Z.gtb_ltb. rewrite (proj2 (Z.ltb_ge _ _)) by lia. rewrite (proj2 (Z.ltb_ge _ _)) by lia. done.
Qed.

(** A number whose exponent is out of range is left as it is. *)
Lemma canonical_wide n m e x : jsonNumber n m e x -> maxExp < Z.abs x -> canonicalNumber n = n.
Proof.
  intros [neg whole ft frac et y Hne Hw Hf He] Hx. destruct (number_read neg whole ft frac et y Hne Hw Hf He) as (Hsgn & t & Ht & Hcut & _).
  unfold canonicalNumber. set (n' := (if neg then "-" else "") +:+ whole +:+ ft +:+ et) in *. fold (signOf n'). rewrite Hsgn.
  fold (cutExp (if neg then strDrop 1 n' else n')). rewrite Hcut. change maxExp with 1099511627776 in *.
  destruct Ht as [|ec sign ds Hchar Hsign Hds Hdd]; [cbn in Hx; lia|]. rewrite Atoi_signed by done. set (v := if String.eqb sign "-" then _ else _) in *.
  destruct (_ && _); [|done]. rewrite Z.gtb_ltb. destruct (Z.ltb_spec 1099511627776 v); [done|]. by rewrite (proj2 (Z.ltb_lt _ _)) by lia.
Qed.

(** A number's text has one value. *)
Lemma sign_unique s1 s2 d1 d2 : (s1 = "" \/ s1 = "+" \/ s1 = "-") -> (s2 = "" \/ s2 = "+" \/ s2 = "-") -> d1 <> "" -> digitsOf d1 -> d2 <> "" -> digitsOf d2 ->
  s1 +:+ d1 = s2 +:+ d2 -> s1 = s2 /\ d1 = d2.
Proof.
  intros H1 H2 N1 D1 N2 D2 E. destruct d1 as [|c1 r1]; [done|]. destruct d2 as [|c2 r2]; [done|]. unfold digitsOf in D1, D2. cbn in D1, D2.
  destruct H1 as [->|[-> | ->]], H2 as [->|[-> | ->]]; rewrite ?str_app_cons, ?str_app_nil_l in E; injection E as ?; subst; try done.
Qed.

Lemma jsonNumber_det n m e x m' e' x' : jsonNumber n m e x -> jsonNumber n m' e' x' -> m = m' /\ e = e' /\ x = x'.
Proof.
  intros H H'. destruct H as [neg whole ft frac et x Hne Hw Hf He]. inversion H' as [neg' whole' ft' frac' et' y Hne' Hw' Hf' He' En Em Ee Ey]. subst.
  destruct (number_read neg whole ft frac et x Hne Hw Hf He) as (Hsgn & t & Ht & Hcut & Hb).
  destruct (number_read neg' whole' ft' frac' et' x' Hne' Hw' Hf' He') as (Hsgn' & t' & Ht' & Hcut' & Hb').
  rewrite En in Hsgn', Hcut', Hb'. rewrite Hsgn in Hsgn'. subst neg'. rewrite Hcut in Hcut'. clear Hcut Hsgn En H'.
  assert (Hmant : whole +:+ ft = whole' +:+ ft' /\ t = t').
  { destruct t, t'; simplify_eq; [done|]. split; [|done]. by rewrite <- Hb, <- Hb'. }
  destruct Hmant as [Hm <-].
  assert (Hx : x = x').
  { destruct Ht as [|? ? ? _ Hs N D]; inversion Ht' as [|? ? ? _ Hs' N' D']; subst; [done|].
    destruct (sign_unique _ _ _ _ Hs' Hs N' D' N D ltac:(done)) as [-> ->]. done. }
  subst x'. assert (whole = whole' /\ frac = frac') as [<- <-]; [|done].
  assert (Hdot : forall w f fr, digitsOf w -> fracText f fr ->
    (match cutByte "." (w +:+ f) with Some p => p | None => (w +:+ f, "") end) = (w, fr)).
  { clear. intros w f fr Hw Hf. destruct Hf as [|f Hf]; [rewrite str_app_nil_r, cutByte_lacks by (by apply digits_lack); done|].
    change ("." +:+ f) with (String "." f). by rewrite cutByte_at by (by apply digits_lack). }
  pose proof (Hdot _ _ _ Hw Hf) as E1. pose proof (Hdot _ _ _ Hw' Hf') as E2. rewrite Hm, E2 in E1. by injection E1.
Qed.

(** ** The theorems *)

Definition signed (neg : bool) (z : Z) : Z := if neg then - z else z.

(** Zero, or the layout of its significant digits. *)
Lemma canonical_form n m e x : jsonNumber n m e x -> Z.abs x <= maxExp ->
  (m = 0 /\ canonicalNumber n = "0") \/
  exists neg d q, normal d /\ canonicalNumber n = (if (neg : bool) then "-" else "") +:+ layout d q /\
    (decimal m e == decimal (signed neg (dnum 0 d)) q)%Q.
Proof.
  intros [neg whole ft frac et y Hne Hw Hf He] Hx. rewrite (canonical_parts neg whole ft frac et y) by done.
  rewrite (spell_parts neg whole ft frac y) by done. cbn zeta.
  pose proof (significant (whole +:+ frac) (digits_app _ _ Hw (fracText_digits _ _ Hf))) as Hs.
  destruct (String.eqb (trimLeftFunc isZero (whole +:+ frac)) "").
  - left. rewrite Hs. by destruct neg.
  - destruct Hs as (Hn & Hk & Hv). right. eexists neg, _, _. split_and!; [exact Hn|done|]. rewrite Hv.
    set (d := dnum 0 _). set (k := slen _ - slen _) in *. unfold signed. rewrite <- decimal_shift by done. destruct neg; [|done]. by rewrite Z.mul_opp_l.
Qed.

Lemma canonical_value n m e x : jsonNumber n m e x -> Z.abs x <= maxExp ->
  exists m' e' x', jsonNumber (canonicalNumber n) m' e' x' /\ (decimal m' e' == decimal m e)%Q.
Proof.
  intros Hn Hx. destruct (canonical_form n m e x Hn Hx) as [[-> ->]|(neg & d & q & Hd & -> & Hv)].
  - exists 0, 0, 0. split; [|unfold decimal; change (inject_Z 0) with 0%Q; ring].
    by apply (number_intro false "0" "" "" "" 0); try constructor.
  - destruct (layout_spec neg d q Hd) as (m' & e' & x' & Hj & Hv'). exists m', e', x'. split; [done|]. by rewrite Hv', Hv.
Qed.

Lemma signed_mod neg z : 0 < z -> z mod 10 <> 0 -> signed neg z mod 10 <> 0.
Proof.
  intros Hp H. destruct neg; [|done]. unfold signed. intros E. apply H. apply Z.mod_opp_l_z in E; [|lia]. by rewrite Z.opp_involutive in E.
Qed.

Lemma normal_pos d : normal d -> 0 < dnum 0 d.
Proof.
  intros Hn. destruct (normal_bounds d Hn) as [[H _] _]. destruct (nm_head _ Hn) as (c & r & -> & _).
  assert (0 < 10 ^ (slen (String c r) - 1)) by (apply Z.pow_pos_nonneg; [lia|rewrite slen_cons; pose proof (slen_nonneg r); lia]). lia.
Qed.

(** Equal values, one form. *)
Lemma form_unique neg neg' d d' q q' : normal d -> normal d' ->
  (decimal (signed neg (dnum 0 d)) q == decimal (signed neg' (dnum 0 d')) q')%Q -> neg = neg' /\ d = d' /\ q = q'.
Proof.
  intros Hd Hd' E. pose proof (normal_pos _ Hd) as P. pose proof (normal_pos _ Hd') as P'.
  destruct (normal_bounds d Hd) as [B M]. destruct (normal_bounds d' Hd') as [B' M'].
  destruct (decimal_normal _ _ _ _ (signed_mod neg _ P M) (signed_mod neg' _ P' M') E) as [-> Ez].
  assert (neg = neg' /\ dnum 0 d = dnum 0 d') as [-> Ev] by (destruct neg, neg'; cbn in Ez; split; try done; lia).
  split_and!; [done| |done]. apply dnum_inj; [apply Hd|apply Hd'| |done]. rewrite Ev in B.
  assert (Hmono : forall a b, 0 < a -> 0 < b -> 10 ^ (a - 1) < 10 ^ b -> a <= b).
  { intros a b Ha Hb Hlt. apply Z.pow_lt_mono_r_iff in Hlt; lia. }
  destruct (nm_head _ Hd) as (c & r & Ed & _), (nm_head _ Hd') as (c' & r' & Ed' & _).
  assert (0 < slen d /\ 0 < slen d') as [L L'] by (rewrite Ed, Ed', !slen_cons; pose proof (slen_nonneg r); pose proof (slen_nonneg r'); lia).
  pose proof (Hmono (slen d) (slen d') L L' ltac:(lia)). pose proof (Hmono (slen d') (slen d) L' L ltac:(lia)). lia.
Qed.

Lemma zero_not_form neg d q m e : normal d -> m = 0 -> ~ (decimal m e == decimal (signed neg (dnum 0 d)) q)%Q.
Proof.
  intros Hd -> E. pose proof (normal_pos _ Hd) as P. unfold decimal in E at 1. change (inject_Z 0) with 0%Q in E. rewrite Qmult_0_l in E.
  assert (E' : (decimal 0 q == decimal (signed neg (dnum 0 d)) q)%Q) by (rewrite <- E; unfold decimal; change (inject_Z 0) with 0%Q; ring).
  apply decimal_inj in E'. destruct neg; cbn in E'; lia.
Qed.

Lemma spelling_iff a b ma ea xa mb eb xb :
  jsonNumber a ma ea xa -> jsonNumber b mb eb xb -> Z.abs xa <= maxExp -> Z.abs xb <= maxExp ->
  (canonicalNumber a = canonicalNumber b <-> (decimal ma ea == decimal mb eb)%Q).
Proof.
  intros Ha Hb Xa Xb. split.
  - intros E. destruct (canonical_value _ _ _ _ Ha Xa) as (m & e & x & Hc & <-). destruct (canonical_value _ _ _ _ Hb Xb) as (m' & e' & x' & Hc' & <-).
    rewrite <- E in Hc'. by destruct (jsonNumber_det _ _ _ _ _ _ _ Hc Hc') as (-> & -> & _).
  - intros E. destruct (canonical_form _ _ _ _ Ha Xa) as [[Za ->]|(n1 & d1 & q1 & D1 & -> & V1)];
      destruct (canonical_form _ _ _ _ Hb Xb) as [[Zb ->]|(n2 & d2 & q2 & D2 & -> & V2)]; [done|exfalso..|].
    + apply (zero_not_form n2 d2 q2 ma ea D2 Za). by rewrite E.
    + apply (zero_not_form n1 d1 q1 mb eb D1 Zb). by rewrite <- E.
    + destruct (form_unique n1 n2 d1 d2 q1 q2 D1 D2) as (-> & -> & ->); [by rewrite <- V1, <- V2|done].
Qed.

Lemma canonical_idem n m e x : jsonNumber n m e x -> canonicalNumber (canonicalNumber n) = canonicalNumber n.
Proof.
  intros Hn. destruct (Z_le_gt_dec (Z.abs x) maxExp) as [Hx|Hx].
  - destruct (canonical_value n m e x Hn Hx) as (m' & e' & x' & Hc & Hv). destruct (Z_le_gt_dec (Z.abs x') maxExp) as [Hx'|Hx'].
    + by apply (spelling_iff _ _ _ _ _ _ _ _ Hc Hn).
    + apply (canonical_wide _ _ _ _ Hc). lia.
  - by rewrite !(canonical_wide n m e x Hn) by lia.
Qed.

(** [canonicalNumber] is one spelling per value: on JSON numbers whose written
    exponents are within the range the code computes with, the spelling is again a
    number of the same value, and two numbers are spelled alike exactly when their
    values, as exact rationals, are equal. *)
Theorem canonical_spelling_iff_value a b ma ea xa mb eb xb :
  jsonNumber a ma ea xa -> jsonNumber b mb eb xb -> Z.abs xa <= maxExp -> Z.abs xb <= maxExp ->
  (exists m e x, jsonNumber (canonicalNumber a) m e x /\ (decimal m e == decimal ma ea)%Q) /\
  (canonicalNumber a = canonicalNumber b <-> (decimal ma ea == decimal mb eb)%Q).
Proof. intros Ha Hb Xa Xb. split; [by eapply canonical_value|by eapply spelling_iff]. Qed.

Lemma canonical_spelling_iff_value_witness :
  jsonNumber "10e-1" 10 (-1) (-1) /\ jsonNumber "1.0" 10 (-1) 0 /\ (decimal 10 (-1) == decimal 10 (-1))%Q /\ canonicalNumber "10e-1" = canonicalNumber "1.0".
Proof.
  assert (Ha : jsonNumber "10e-1" 10 (-1) (-1)).
  { apply (number_intro false "10" "" "" "e-1" (-1)); try done; [constructor|].
    exact (someExp "e" "-" "1" (or_introl eq_refl) (or_intror (or_intror eq_refl)) ltac:(done) eq_refl). }
  assert (Hb : jsonNumber "1.0" 10 (-1) 0) by (by apply (number_intro false "1" ".0" "0" "" 0); try done; [exact (someFrac "0" eq_refl)|constructor]).
  split_and!; [exact Ha|exact Hb|done|].
  apply (proj2 (canonical_spelling_iff_value "10e-1" "1.0" 10 (-1) (-1) 10 (-1) 0 Ha Hb ltac:(done) ltac:(done))). reflexivity.
Defined.
