(* ===== verification/GoJSON.v ===== *)
(** * encoding/json, as the approval service uses it

    The scanner and decoder of [json.Valid] and [json.Decoder] with [UseNumber]
    (numbers kept as text), the decoding into [any] (an object is a map: the last
    of equal keys stands), and [json.Marshal] of such a value, with its sorted keys
    and its escapes. A parsed object keeps its members in order, duplicates
    included, which is what decoding into a struct reads.

    The parser's fuel counts calls: two per byte are enough. The nesting limit is
    a parameter of the parser, [maxNestingDepth] in the library. *)
From S2P Require Import Prelude GoStrings GoPath Grants CanonNumber.
Local Open Scope string_scope.
Local Open Scope Z_scope.
Local Open Scope wardyn_scope.

Unset Elimination Schemes.
Inductive json := JNull | JBool (b : bool) | JNum (n : string) | JStr (s : string)
  | JArr (l : list json) | JObj (m : list (string * json)).
Set Elimination Schemes.

Section JsonInd.
Context (P : json -> Prop).
Context (Pnull : P JNull) (Pbool : forall b, P (JBool b)) (Pnum : forall n, P (JNum n)) (Pstr : forall s, P (JStr s)).
Context (Parr : forall l, Forall P l -> P (JArr l)) (Pobj : forall m, Forall (fun kv => P (snd kv)) m -> P (JObj m)).
Fixpoint json_ind (v : json) : P v :=
  match v with
  | JNull => Pnull | JBool b => Pbool b | JNum n => Pnum n | JStr s => Pstr s
  | JArr l => Parr l ((fix go (l : list json) : Forall P l :=
      match l with [] => Forall_nil_2 P | x :: l => Forall_cons_2 P x l (json_ind x) (go l) end) l)
  | JObj m => Pobj m ((fix go (m : list (string * json)) : Forall (fun kv => P (snd kv)) m :=
      match m with [] => Forall_nil_2 _ | kv :: m => Forall_cons_2 _ kv m (json_ind (snd kv)) (go m) end) m)
  end.
End JsonInd.

(** ** Bytes *)

Definition dquote : ascii := "034".
Definition bslash : ascii := "092".
Definition chrOf (z : Z) : ascii := ascii_of_N (Z.to_N z).
Definition ofBytes (l : list Z) : string := foldr (fun z s => String (chrOf z) s) "" l.

Definition isWS (c : ascii) : bool := let b := byte_of c in (b =? 32) || (b =? 9) || (b =? 10) || (b =? 13).
Definition skipWS : string -> string := trimLeftFunc isWS.

(** The next byte, whether it is [c]. *)
Definition expect (c : ascii) (s : string) : option string :=
  match s with String x r => if Ascii.eqb x c then Some r else None | "" => None end.

Fixpoint expectAll (w s : string) : option string :=
  match w with "" => Some s | String c w => match expect c s with Some r => expectAll w r | None => None end end.

(** ** Numbers *)

Fixpoint scanDigits (s : string) : string * string :=
  match s with
  | String c r => if is_digit c then let '(d, r') := scanDigits r in (String c d, r') else ("", s)
  | "" => ("", "")
  end.

Definition digits1 (s : string) : option (string * string) :=
  let '(d, r) := scanDigits s in if String.eqb d "" then None else Some (d, r).

Definition scanInt (s : string) : option (string * string) :=
  match s with
  | String c r => if Ascii.eqb c "0" then Some ("0", r) else digits1 s
  | "" => None
  end.

Definition scanFrac (s : string) : option (string * string) :=
  match expect "." s with
  | Some r => match digits1 r with Some (d, r') => Some (String "." d, r') | None => None end
  | None => Some ("", s)
  end.

Definition scanSign (s : string) : string * string :=
  match s with
  | String c r => if Ascii.eqb c "+" || Ascii.eqb c "-" then (String c "", r) else ("", s)
  | "" => ("", s)
  end.

Definition scanExp (s : string) : option (string * string) :=
  match s with
  | String c r =>
      if Ascii.eqb c "e" || Ascii.eqb c "E" then
        let '(sg, r1) := scanSign r in
        match digits1 r1 with Some (d, r2) => Some (String c (sg +:+ d), r2) | None => None end
      else Some ("", s)
  | "" => Some ("", "")
  end.

Definition scanNumber (s : string) : option (string * string) :=
  let '(sg, s0) := match expect "-" s with Some r => ("-", r) | None => ("", s) end in
  match scanInt s0 with
  | None => None
  | Some (w, s1) =>
      match scanFrac s1 with
      | None => None
      | Some (f, s2) => match scanExp s2 with Some (e, s3) => Some (sg +:+ w +:+ f +:+ e, s3) | None => None end
      end
  end.

(** ** Strings *)

(** [utf8.AppendRune]; a surrogate or a value out of range becomes U+FFFD. *)
Definition encodeRune (r : Z) : string :=
  if r <? 128 then ofBytes [r]
  else if r <? 2048 then ofBytes [192 + r / 64; 128 + r mod 64]
  else if ((55296 <=? r) && (r <=? 57343)) || (r >? 1114111) then ofBytes [239; 191; 189]
  else if r <? 65536 then ofBytes [224 + r / 4096; 128 + r / 64 mod 64; 128 + r mod 64]
  else ofBytes [240 + r / 262144; 128 + r / 4096 mod 64; 128 + r / 64 mod 64; 128 + r mod 64].

Definition hexDigitVal (c : ascii) : option Z :=
  let b := byte_of c in
  if is_digit c then Some (b - 48)
  else if (97 <=? b) && (b <=? 102) then Some (b - 87)
  else if (65 <=? b) && (b <=? 70) then Some (b - 55)
  else None.

Fixpoint hexRun (n : nat) (acc : Z) (s : string) : option (Z * string) :=
  match n, s with
  | O, _ => Some (acc, s)
  | S n, String c r => match hexDigitVal c with Some d => hexRun n (acc * 16 + d) r | None => None end
  | S _, "" => None
  end.

(** [getu4]: a [\u] escape at the head of [s]. *)
Definition getu4 (s : string) : option (Z * string) :=
  match expect bslash s with
  | Some r => match expect "u" r with Some r => hexRun 4 0 r | None => None end
  | None => None
  end.

Definition isSurrogate (r : Z) : bool := (55296 <=? r) && (r <=? 57343).

(** A [\u] escape, a surrogate pair being two of them; a lone surrogate is U+FFFD. *)
Definition unicodeEscape (s : string) : option (string * string) :=
  match hexRun 4 0 s with
  | None => None
  | Some (rr, r) =>
      if isSurrogate rr then
        match getu4 r with
        | Some (rr1, r1) =>
            if (rr <? 56320) && (56320 <=? rr1) && (rr1 <=? 57343)
            then Some (encodeRune ((rr - 55296) * 1024 + (rr1 - 56320) + 65536), r1)
            else Some (encodeRune RuneError, r)
        | None => Some (encodeRune RuneError, r)
        end
      else Some (encodeRune rr, r)
  end.

Definition simpleEscape (c : ascii) : option ascii :=
  if Ascii.eqb c dquote || Ascii.eqb c bslash || Ascii.eqb c "/" then Some c
  else if Ascii.eqb c "b" then Some "008"%char else if Ascii.eqb c "f" then Some "012"%char
  else if Ascii.eqb c "n" then Some "010"%char else if Ascii.eqb c "r" then Some "013"%char
  else if Ascii.eqb c "t" then Some "009"%char else None.

(** What is left of [s] before [rest], a suffix of it. *)
Definition upTo (s rest : string) : string := strTake (String.length s - String.length rest) s.

(** The text of a string literal after its opening quote, decoded. *)
Fixpoint scanString (fuel : nat) (s : string) : option (string * string) :=
  match fuel, s with
  | S fuel, String c r =>
      let put '(out, r1) := match scanString fuel r1 with Some (t, r2) => Some (out +:+ t, r2) | None => None end in
      if Ascii.eqb c dquote then Some ("", r)
      else if byte_of c <? 32 then None
      else if Ascii.eqb c bslash then
        match r with
        | "" => None
        | String e r1 =>
            if Ascii.eqb e "u" then match unicodeEscape r1 with Some p => put p | None => None end
            else match simpleEscape e with Some x => put (String x "", r1) | None => None end
        end
      else let '(_, ok, r1) := DecodeRune s in put (if ok then upTo s r1 else encodeRune RuneError, r1)
  | _, _ => None
  end.

(** ** Values *)

Definition literals : list (string * json) := [("true", JBool true); ("false", JBool false); ("null", JNull)].

Fixpoint literal (l : list (string * json)) (s : string) : option (json * string) :=
  match l with
  | [] => None
  | (w, v) :: l => match expectAll w s with Some r => Some (v, r) | None => literal l s end
  end.

Section Parser.
Context (maxDepth : Z).

Fixpoint parseValue (fuel : nat) (depth : Z) (s0 : string) {struct fuel} : option (json * string) :=
  match fuel with
  | O => None
  | S fuel =>
      let s := skipWS s0 in
      match s with
      | "" => None
      | String c r =>
          if Ascii.eqb c dquote then
            match scanString (S (String.length r)) r with Some (t, r1) => Some (JStr t, r1) | None => None end
          else if Ascii.eqb c "[" then
            if depth >=? maxDepth then None
            else match expect "]" (skipWS r) with
                 | Some r1 => Some (JArr [], r1)
                 | None => match parseElems fuel (depth + 1) r with Some (l, r1) => Some (JArr l, r1) | None => None end
                 end
          else if Ascii.eqb c "{" then
            if depth >=? maxDepth then None
            else match expect "}" (skipWS r) with
                 | Some r1 => Some (JObj [], r1)
                 | None => match parseMembers fuel (depth + 1) r with Some (l, r1) => Some (JObj l, r1) | None => None end
                 end
          else if Ascii.eqb c "-" || is_digit c then
            match scanNumber s with Some (n, r1) => Some (JNum n, r1) | None => None end
          else literal literals s
      end
  end
with parseElems (fuel : nat) (depth : Z) (s : string) {struct fuel} : option (list json * string) :=
  match fuel with
  | O => None
  | S fuel =>
      match parseValue fuel depth s with
      | None => None
      | Some (v, r) =>
          match expect "]" (skipWS r) with
          | Some r1 => Some ([v], r1)
          | None =>
              match expect "," (skipWS r) with
              | Some r1 => match parseElems fuel depth r1 with Some (l, r2) => Some (v :: l, r2) | None => None end
              | None => None
              end
          end
      end
  end
with parseMembers (fuel : nat) (depth : Z) (s : string) {struct fuel} : option (list (string * json) * string) :=
  match fuel with
  | O => None
  | S fuel =>
      match expect dquote (skipWS s) with
      | None => None
      | Some k0 =>
          match scanString (S (String.length k0)) k0 with
          | None => None
          | Some (k, r0) =>
              match expect ":" (skipWS r0) with
              | None => None
              | Some r1 =>
                  match parseValue fuel depth r1 with
                  | None => None
                  | Some (v, r) =>
                      match expect "}" (skipWS r) with
                      | Some r2 => Some ([(k, v)], r2)
                      | None =>
                          match expect "," (skipWS r) with
                          | Some r2 => match parseMembers fuel depth r2 with Some (l, r3) => Some ((k, v) :: l, r3) | None => None end
                          | None => None
                          end
                      end
                  end
              end
          end
      end
  end.

Definition parse (s : string) : option json :=
  match parseValue (2 * String.length s + 1) 0 s with
  | Some (v, r) => if String.eqb (skipWS r) "" then Some v else None
  | None => None
  end.
End Parser.

Definition maxNestingDepth : Z := 10000.
Definition decode (s : string) : option json := parse maxNestingDepth s.
Definition Valid (s : string) : bool := match decode s with Some _ => true | None => false end.

(** ** Decoding into [any] *)

(** A map kept as the sorted list [Marshal] writes. *)
Fixpoint putKey (k : string) (v : json) (m : list (string * json)) : list (string * json) :=
  match m with
  | [] => [(k, v)]
  | (k', v') :: m' =>
      match String.compare k k' with
      | Eq => (k, v) :: m'
      | Lt => (k, v) :: m
      | Gt => (k', v') :: putKey k v m'
      end
  end.

Fixpoint toAny (v : json) : json :=
  match v with
  | JArr l => JArr (map toAny l)
  | JObj m => JObj (foldl (fun acc kv => putKey (fst kv) (snd kv) acc) [] (map (fun kv => (fst kv, toAny (snd kv))) m))
  | _ => v
  end.

(** ** [json.Marshal] *)

Definition hexLow (d : Z) : ascii := if d <? 10 then chrOf (48 + d) else chrOf (87 + d).
Definition uEscape (z : Z) : string :=
  String bslash (String "u" (String (hexLow (z / 4096)) (String (hexLow (z / 256 mod 16)) (String (hexLow (z / 16 mod 16)) (String (hexLow (z mod 16)) ""))))).

(** [htmlSafeSet]. *)
Definition htmlSafe (c : ascii) : bool :=
  let b := byte_of c in
  (32 <=? b) && (b <? 128) && negb (Ascii.eqb c dquote || Ascii.eqb c bslash || Ascii.eqb c "<" || Ascii.eqb c ">" || Ascii.eqb c "&").

Definition escapeByte (c : ascii) : string :=
  if Ascii.eqb c bslash || Ascii.eqb c dquote then String bslash (String c "")
  else if Ascii.eqb c "008" then "\b" else if Ascii.eqb c "012" then "\f" else if Ascii.eqb c "010" then "\n"
  else if Ascii.eqb c "013" then "\r" else if Ascii.eqb c "009" then "\t"
  else uEscape (byte_of c).

Fixpoint escapeFrom (fuel : nat) (s : string) : string :=
  match fuel, s with
  | S fuel, String c r =>
      if byte_of c <? 128 then (if htmlSafe c then String c "" else escapeByte c) +:+ escapeFrom fuel r
      else
        let '(rr, ok, r1) := DecodeRune s in
        (if negb ok then uEscape RuneError else if (rr =? 8232) || (rr =? 8233) then uEscape rr else upTo s r1) +:+ escapeFrom fuel r1
  | _, _ => ""
  end.

Definition quote (s : string) : string := String dquote (escapeFrom (String.length s) s +:+ String dquote "").

Fixpoint join (sep : string) (l : list string) : string :=
  match l with [] => "" | [x] => x | x :: l => x +:+ sep +:+ join sep l end.

Fixpoint Marshal (v : json) : string :=
  match v with
  | JNull => "null"
  | JBool b => if b then "true" else "false"
  | JNum n => n
  | JStr s => quote s
  | JArr l => "[" +:+ join "," (map Marshal l) +:+ "]"
  | JObj m => "{" +:+ join "," (map (fun kv => quote (fst kv) +:+ ":" +:+ Marshal (snd kv)) m) +:+ "}"
  end.
