(* ===== verification/GoJSONSound.v ===== *)
(** * Round trips of [encoding/json]

    What the scanner accepts, that [json.Marshal] is read back as the value it was
    made from, and that decoding yields values [Marshal] writes without loss. *)
From S2P Require Import Prelude GoStrings GoPath Grants CanonNumber GoJSON.
Local Open Scope string_scope.
Local Open Scope Z_scope.

(** ** Runes *)

(** [a] is the encoding of the rune [rr]. *)
Definition rune (a : string) (rr : Z) : Prop := a <> "" /\ forall t, DecodeRune (a +:+ t) = (rr, true, t).

Lemma strTake_app a b : strTake (String.length a) (a +:+ b) = a.
Proof. induction a as [|c a IH]; [by destruct b|]. rewrite str_app_cons. cbn. by rewrite IH. Qed.

Lemma upTo_app a r : upTo (a +:+ r) r = a.
Proof. unfold upTo. rewrite str_len_app. replace (String.length a + String.length r - String.length r)%nat with (String.length a) by lia. apply strTake_app. Qed.

Lemma decode_ok s rr r : DecodeRune s = (rr, true, r) -> exists a, s = a +:+ r /\ rune a rr.
Proof.
  unfold DecodeRune. destruct s as [|c0 r0]; [done|]. cbn zeta. destruct (byte_of c0 <? 128) eqn:E0.
  { intros [= <- <-]. exists (String c0 ""). split; [done|]. split; [done|]. intros t. unfold DecodeRune. rewrite str_app_cons, str_app_nil_l. cbn zeta. by rewrite E0. }
  destruct (runeShape (byte_of c0)) as [[[n lo] hi]|] eqn:E1; [|done].
  assert (Hhead : forall a t, DecodeRune (String c0 a +:+ t) = 
    match Some (n, lo, hi), a +:+ t with
    | Some (2%nat, lo, hi), String c1 r1 => if cont lo hi c1 then (Z.land (byte_of c0) 31 * 64 + low6 c1, true, r1) else (RuneError, false, a +:+ t)
    | Some (3%nat, lo, hi), String c1 (String c2 r2) =>
        if cont lo hi c1 && cont 128 191 c2 then (Z.land (byte_of c0) 15 * 4096 + low6 c1 * 64 + low6 c2, true, r2) else (RuneError, false, a +:+ t)
    | Some (4%nat, lo, hi), String c1 (String c2 (String c3 r3)) =>
        if cont lo hi c1 && cont 128 191 c2 && cont 128 191 c3
        then (Z.land (byte_of c0) 7 * 262144 + low6 c1 * 4096 + low6 c2 * 64 + low6 c3, true, r3) else (RuneError, false, a +:+ t)
    | _, _ => (RuneError, false, a +:+ t)
    end).
  { intros a t. rewrite str_app_cons. unfold DecodeRune. cbn zeta. by rewrite E0, E1. }
  destruct n as [|[|[|[|[|n]]]]]; try done; destruct r0 as [|c1 r1]; try done.
  - destruct (cont lo hi c1) eqn:E2; intros [= <- <-]. exists (String c0 (String c1 "")). split; [done|]. split; [done|]. intros t.
    rewrite Hhead. change (String c1 "" +:+ t) with (String c1 t). cbn match. by rewrite E2.
  - destruct r1 as [|c2 r2]; [done|]. destruct (cont lo hi c1 && cont 128 191 c2) eqn:E2; intros [= <- <-].
    exists (String c0 (String c1 (String c2 ""))). split; [done|]. split; [done|]. intros t.
    rewrite Hhead. change (String c1 (String c2 "") +:+ t) with (String c1 (String c2 t)). cbn match. by rewrite E2.
  - destruct r1 as [|c2 r2]; [done|]. destruct r2 as [|c3 r3]; [done|]. destruct (cont lo hi c1 && cont 128 191 c2 && cont 128 191 c3) eqn:E2; intros [= <- <-].
    exists (String c0 (String c1 (String c2 (String c3 "")))). split; [done|]. split; [done|]. intros t.
    rewrite Hhead. change (String c1 (String c2 (String c3 "")) +:+ t) with (String c1 (String c2 (String c3 t))). cbn match. by rewrite E2.
Qed.

(** Strings of whole runes. *)
Inductive utf8 : string -> Prop :=
| utf8_nil : utf8 ""
| utf8_cons a rr t : rune a rr -> utf8 t -> utf8 (a +:+ t).

Lemma valid_utf8 s : ValidString s = true -> utf8 s.
Proof.
  unfold ValidString. generalize (String.length s) as n. intros n. revert s. induction n as [|n IH]; intros s H.
  { destruct s; [constructor|done]. }
  destruct s as [|c s]; [constructor|]. cbn [validFrom] in H. destruct (DecodeRune (String c s)) as [[rr ok] r] eqn:E.
  apply andb_prop in H as [-> H]. apply decode_ok in E as (a & -> & Ha). econstructor; [done|by apply IH].
Qed.

Lemma utf8_app a b : utf8 a -> utf8 b -> utf8 (a +:+ b).
Proof. induction 1 as [|a rr t Ha Ht IH]; intros Hb; [done|]. rewrite <- str_app_assoc. econstructor; [done|by apply IH]. Qed.

Lemma utf8_rune a rr : rune a rr -> utf8 a.
Proof. intros H. rewrite <- (str_app_nil_r a). econstructor; [done|constructor]. Qed.

(** A byte at the head of a rune is the whole rune when it is ASCII. *)
Lemma rune_ascii c r rr : rune (String c r) rr -> byte_of c <? 128 = true -> r = "" /\ rr = byte_of c.
Proof.
  intros [_ H] E. specialize (H ""). rewrite str_app_nil_r in H. unfold DecodeRune in H. rewrite E in H. by injection H as -> ->.
Qed.

(** ** String literals *)

Lemma rune_shorter s rr ok r c t : s = String c t -> DecodeRune s = (rr, ok, r) -> (String.length r <= String.length t)%nat.
Proof.
  intros -> H. destruct ok.
  - apply decode_ok in H as (a & E & Ha & _). destruct a as [|x a]; [done|]. rewrite str_app_cons in E. injection E as -> ->. rewrite str_len_app. lia.
  - unfold DecodeRune in H. cbn zeta in H. repeat case_match; simplify_eq; cbn; lia.
Qed.

Lemma hexRun_shorter n acc s z r : hexRun n acc s = Some (z, r) -> String.length s = (n + String.length r)%nat.
Proof.
  revert acc s. induction n as [|n IH]; intros acc s H; cbn in H; [by injection H as _ <-|]. destruct s as [|c s]; [done|].
  destruct (hexDigitVal c); [|done]. apply IH in H. cbn. lia.
Qed.

Lemma unicodeEscape_shorter s out r : unicodeEscape s = Some (out, r) -> (String.length r <= String.length s)%nat.
Proof.
  unfold unicodeEscape. destruct (hexRun 4 0 s) as [[rr r0]|] eqn:E; [|done]. apply hexRun_shorter in E.
  destruct (isSurrogate rr); [|intros [= _ <-]; lia]. unfold getu4. destruct (expect bslash r0) as [r1|] eqn:E1; [|intros [= _ <-]; lia].
  destruct (expect "u" r1) as [r2|] eqn:E2; [|intros [= _ <-]; lia]. destruct (hexRun 4 0 r2) as [[rr1 r3]|] eqn:E3; [|intros [= _ <-]; lia].
  apply hexRun_shorter in E3. unfold expect in E1, E2. destruct r0; [done|]. destruct r1; [repeat case_match; done|].
  assert (String.length r2 <= String.length r0)%nat by (repeat case_match; simplify_eq; cbn in *; lia).
  destruct (_ && _); intros [= _ <-]; cbn in *; lia.
Qed.

(** Fuel past the text's length makes no difference. *)
Lemma scanString_fuel f f' s : (String.length s < f)%nat -> (String.length s < f')%nat -> scanString f s = scanString f' s.
Proof.
  revert f' s. induction f as [|f IH]; intros [|f'] s Hf Hf'; try lia. destruct s as [|c r]; [done|]. cbn [scanString]. cbn in Hf, Hf'.
  destruct (Ascii.eqb c dquote); [done|]. destruct (byte_of c <? 32); [done|]. destruct (Ascii.eqb c bslash).
  - destruct r as [|e r1]; [done|]. cbn in Hf, Hf'. destruct (Ascii.eqb e "u").
    + destruct (unicodeEscape r1) as [[out r2]|] eqn:E; [|done]. apply unicodeEscape_shorter in E. by rewrite (IH f' r2) by lia.
    + destruct (simpleEscape e); [|done]. by rewrite (IH f' r1) by lia.
  - destruct (DecodeRune (String c r)) as [[rr ok] r1] eqn:E. apply (rune_shorter _ _ _ _ c r) in E; [|done]. by rewrite (IH f' r1) by lia.
Qed.

Definition readsBack (esc out : string) : Prop := forall f t, (0 < f)%nat ->
  scanString (S f) (esc +:+ t) = match scanString f t with Some (u, r) => Some (out +:+ u, r) | None => None end.

Ltac each_byte c := destruct c as [[] [] [] [] [] [] [] []].

Lemma escapeByte_back c : byte_of c <? 128 = true -> htmlSafe c = false -> readsBack (escapeByte c) (String c "").
Proof.
  intros H1 H2 f t _. each_byte c; try discriminate H1; try discriminate H2; reflexivity.
Qed.

Lemma safe_back c : byte_of c <? 128 = true -> htmlSafe c = true -> readsBack (String c "") (String c "").
Proof.
  intros H1 H2 f t _. rewrite str_app_cons, str_app_nil_l. cbn [scanString]. unfold htmlSafe in H2.
  apply andb_prop in H2 as [[H2 _]%andb_prop H3]. apply negb_true_iff in H3. rewrite !orb_false_iff in H3. destruct H3 as [[[[-> ->] _] _] _].
  apply Z.leb_le in H2. rewrite (proj2 (Z.ltb_ge _ _)) by lia. unfold DecodeRune. rewrite H1. cbn match.
  change (String c t) with (String c "" +:+ t). by rewrite upTo_app.
Qed.

Lemma wide_back a rr : rune a rr -> (forall c r, a = String c r -> byte_of c <? 128 = false) -> readsBack a a.
Proof.
  intros [Hne Ha] Hw f t _. destruct a as [|c r]; [done|]. specialize (Hw c r eq_refl). rewrite str_app_cons. cbn [scanString].
  apply Z.ltb_ge in Hw. assert (Ascii.eqb c dquote = false) as ->; [|assert (Ascii.eqb c bslash = false) as ->].
  { apply Ascii.eqb_neq. intros ->. vm_compute in Hw. done. }
  { apply Ascii.eqb_neq. intros ->. vm_compute in Hw. done. }
  rewrite (proj2 (Z.ltb_ge _ _)) by lia. rewrite <- str_app_cons, Ha. by rewrite upTo_app.
Qed.

(** U+2028 and U+2029 have one encoding. *)
Lemma land_ones_mod b k : 0 <= k -> Z.land b (Z.ones k) = b mod 2 ^ k.
Proof. apply Z.land_ones. Qed.

Lemma byte_chr b : 0 <= b < 256 -> forall c, byte_of c = b -> c = chrOf b.
Proof. intros _ c <-. unfold chrOf, byte_of. rewrite N2Z.id. by rewrite ascii_N_embedding. Qed.

Lemma byte_range c : 0 <= byte_of c < 256.
Proof. unfold byte_of. pose proof (N_ascii_bounded c). lia. Qed.

Lemma cont_bounds lo hi c : cont lo hi c = true -> lo <= byte_of c <= hi.
Proof. unfold cont. intros [H1 H2]%andb_prop. lia. Qed.

Lemma low6_mod c : low6 c = byte_of c mod 64.
Proof. unfold low6. change 63 with (Z.ones 6). by rewrite Z.land_ones. Qed.

Lemma separator_bytes a rr : rune a rr -> rr = 8232 \/ rr = 8233 -> a = ofBytes [226; 128; rr - 8064].
Proof.
  intros [Hne Ha] Hrr. specialize (Ha ""). rewrite str_app_nil_r in Ha. unfold DecodeRune in Ha. destruct a as [|c0 r0]; [done|]. cbn zeta in Ha.
  pose proof (byte_range c0) as B0. destruct (byte_of c0 <? 128) eqn:E0; [injection Ha as <- _; apply Z.ltb_lt in E0; lia|].
  pose proof (byte_chr _ B0 c0 eq_refl) as Ec0. unfold runeShape in Ha.
  change 31 with (Z.ones 5) in Ha. change 15 with (Z.ones 4) in Ha. change 7 with (Z.ones 3) in Ha.
  rewrite !Z.land_ones in Ha by lia. change (2 ^ 5) with 32 in Ha. change (2 ^ 4) with 16 in Ha. change (2 ^ 3) with 8 in Ha.
  repeat (case_match; try done); simplify_eq;
    repeat match goal with H : (_ && _)%bool = true |- _ => apply andb_prop in H as [? ?] | H : cont _ _ _ = true |- _ => apply cont_bounds in H end;
    rewrite ?low6_mod in *; bool_prop;
    try (exfalso; Z.to_euclidean_division_equations; lia).
  set (v := _ + _ - 8064). assert (byte_of c0 = 226 /\ byte_of a = 128 /\ byte_of a0 = v) as (E1 & E2 & E3)
    by (unfold v; Z.to_euclidean_division_equations; lia).
  cbn [ofBytes foldr]. pose proof (byte_range a0). rewrite (byte_chr 226 ltac:(lia) _ E1), (byte_chr 128 ltac:(lia) _ E2), (byte_chr v ltac:(lia) _ E3). done.
Qed.

Lemma separator_back rr : rr = 8232 \/ rr = 8233 -> readsBack (uEscape rr) (ofBytes [226; 128; rr - 8064]).
Proof. intros [-> | ->] f t _; reflexivity. Qed.

(** ** A quoted string is read back *)

Lemma escape_back n s : utf8 s -> (String.length s <= n)%nat -> forall f rest, (String.length s < f)%nat ->
  scanString f (escapeFrom n s +:+ String dquote rest) = Some (s, rest).
Proof.
  intros Hs. revert n. induction Hs as [|a rr t Ha Ht IH]; intros n Hn f rest Hf.
  { destruct f; [lia|]. destruct n; cbn [escapeFrom]; rewrite str_app_nil_l; done. }
  destruct a as [|c r]; [by destruct Ha|]. rewrite str_app_cons in Hn, Hf |- *. cbn in Hn, Hf. rewrite str_len_app in Hn, Hf.
  destruct n as [|n]; [lia|]. destruct f as [|f]; [lia|]. cbn [escapeFrom].
  assert (Hstep : forall esc, readsBack esc (String c r) ->
    scanString (S f) ((esc +:+ escapeFrom n t) +:+ String dquote rest) = Some (String c r +:+ t, rest)).
  { intros esc Hb. rewrite <- str_app_assoc, Hb by lia. by rewrite IH by lia. }
  rewrite str_app_cons in Hstep. destruct (byte_of c <? 128) eqn:Hc.
  - destruct (rune_ascii c r rr Ha Hc) as [-> _]. rewrite str_app_nil_l in *. apply Hstep.
    destruct (htmlSafe c) eqn:Hh; [by apply safe_back|by apply escapeByte_back].
  - rewrite <- str_app_cons, (proj2 Ha). cbn [negb]. rewrite str_app_cons. apply Hstep. destruct ((rr =? 8232) || (rr =? 8233)) eqn:Esep.
    + rewrite (separator_bytes _ _ Ha) by lia. apply separator_back. lia.
    + rewrite <- str_app_cons, upTo_app. apply (wide_back _ rr Ha). by intros ? ? [= <- <-].
Qed.

Lemma escape_len n s : utf8 s -> (String.length s <= n)%nat -> (String.length s <= String.length (escapeFrom n s))%nat.
Proof.
  intros Hs. revert n. induction Hs as [|a rr t Ha Ht IH]; intros n Hn; [cbn; lia|].
  destruct a as [|c r]; [by destruct Ha|]. rewrite str_app_cons in Hn |- *. cbn in Hn. rewrite str_len_app in Hn. destruct n as [|n]; [lia|]. cbn [escapeFrom].
  destruct (byte_of c <? 128) eqn:Hc.
  - destruct (rune_ascii c r rr Ha Hc) as [-> _]. rewrite str_app_nil_l, str_len_app in *. specialize (IH n ltac:(cbn in Hn; lia)). cbn.
    assert (1 <= String.length (if htmlSafe c then String c "" else escapeByte c))%nat; [|lia].
    destruct (htmlSafe c); [cbn; lia|]. unfold escapeByte. repeat case_match; cbn; lia.
  - rewrite <- str_app_cons, (proj2 Ha). cbn [negb]. rewrite !str_len_app. specialize (IH n ltac:(cbn in Hn; lia)).
    assert (String.length (String c r) <= String.length (if ((rr =? 8232) || (rr =? 8233))%Z then uEscape rr else upTo (String c r +:+ t) t))%nat; [|lia].
    destruct ((rr =? 8232) || (rr =? 8233)) eqn:Esep; [|by rewrite upTo_app]. rewrite (separator_bytes _ _ Ha) by lia. cbn. lia.
Qed.

Lemma quote_back s rest : utf8 s -> exists r, quote s +:+ rest = String dquote r /\ scanString (S (String.length r)) r = Some (s, rest).
Proof.
  intros Hs. eexists. unfold quote. rewrite str_app_cons, <- str_app_assoc. split; [done|]. rewrite str_app_cons, str_app_nil_l.
  apply escape_back; [done|lia|]. rewrite str_len_app. cbn. pose proof (escape_len _ _ Hs (le_n _)). lia.
Qed.

(** ** Numbers *)

Definition headNot (f : ascii -> bool) (s : string) : Prop := match s with "" => True | String c _ => f c = false end.
Definition numChar (c : ascii) : bool :=
  is_digit c || Ascii.eqb c "." || Ascii.eqb c "e" || Ascii.eqb c "E" || Ascii.eqb c "+" || Ascii.eqb c "-".

Inductive intText : string -> Prop :=
| int0 : intText "0"
| intN c ds : is_digit c = true -> isZero c = false -> digitsOf ds -> intText (String c ds).
Inductive fracTok : string -> Prop :=
| frac0 : fracTok ""
| fracN f : f <> "" -> digitsOf f -> fracTok ("." +:+ f).

(** A number as the grammar has it. *)
Inductive numTok : string -> Prop :=
| mkTok neg w ft et x : intText w -> fracTok ft -> expText et x -> numTok ((if (neg : bool) then "-" else "") +:+ w +:+ ft +:+ et).

Lemma expect_spec c s r : expect c s = Some r <-> s = String c r.
Proof.
  unfold expect. destruct s as [|x s]; [done|]. destruct (Ascii.eqb_spec x c) as [->|Hne]; split; intros H; try done; [by injection H as -> | by injection H as -> | by injection H].
Qed.

Lemma scanDigits_inv s d r : scanDigits s = (d, r) -> s = d +:+ r /\ digitsOf d /\ headNot is_digit r.
Proof.
  revert d r. induction s as [|c s IH]; intros d r H; cbn in H; [by injection H as <- <-|]. destruct (is_digit c) eqn:E; [|by injection H as <- <-].
  destruct (scanDigits s) as [d' r'] eqn:Es. injection H as <- <-. destruct (IH _ _ eq_refl) as (-> & Hd & Hr). split_and!; [done| |done].
  unfold digitsOf. cbn. by rewrite E.
Qed.

Lemma scanDigits_app d r : digitsOf d -> headNot is_digit r -> scanDigits (d +:+ r) = (d, r).
Proof.
  unfold digitsOf. induction d as [|c d IH]; intros Hd Hr; [rewrite str_app_nil_l; destruct r as [|c r]; [done|]; cbn in Hr |- *; by rewrite Hr|].
  cbn in Hd. apply andb_prop in Hd as [Hc Hd]. rewrite str_app_cons. cbn. by rewrite Hc, IH.
Qed.

Lemma digits1_app d r : d <> "" -> digitsOf d -> headNot is_digit r -> digits1 (d +:+ r) = Some (d, r).
Proof. intros Hne Hd Hr. unfold digits1. rewrite scanDigits_app by done. by destruct (String.eqb_spec d ""). Qed.

Lemma digits1_inv s d r : digits1 s = Some (d, r) -> s = d +:+ r /\ d <> "" /\ digitsOf d /\ headNot is_digit r.
Proof.
  unfold digits1. destruct (scanDigits s) as [d' r'] eqn:E. destruct (String.eqb_spec d' ""); [done|]. intros [= <- <-].
  apply scanDigits_inv in E as (? & ? & ?). done.
Qed.

Lemma numEnd_head r : headNot numChar r -> headNot is_digit r /\ expect "." r = None /\ (forall c s, r = String c s -> Ascii.eqb c "e" || Ascii.eqb c "E" = false).
Proof.
  destruct r as [|c s]; [done|]. cbn. unfold numChar. rewrite !orb_false_iff. intros (((((H1 & H2) & H3) & H4) & _) & _). split_and!; [done| |].
  - by rewrite H2.
  - intros ? ? [= <- <-]. by rewrite H3, H4.
Qed.

Lemma expText_head et x rest : expText et x -> headNot numChar rest -> headNot is_digit (et +:+ rest) /\ expect "." (et +:+ rest) = None.
Proof.
  intros [|e sg ds He Hs Hne Hd] Hr; [rewrite str_app_nil_l; by apply numEnd_head in Hr as (? & ? & _)|]. by destruct He as [-> | ->].
Qed.

Lemma scanExp_tok et x rest : expText et x -> headNot numChar rest -> scanExp (et +:+ rest) = Some (et, rest).
Proof.
  intros [|e sg ds He Hs Hne Hd] Hr.
  - rewrite str_app_nil_l. destruct (numEnd_head rest Hr) as (_ & _ & H). destruct rest as [|c r]; [done|]. cbn. by rewrite (H c r eq_refl).
  - destruct (numEnd_head rest Hr) as (H1 & _). assert (E : scanSign ((sg +:+ ds) +:+ rest) = (sg, ds +:+ rest)).
    { rewrite <- str_app_assoc. destruct ds as [|c ds]; [done|]. unfold digitsOf in Hd. cbn in Hd. apply andb_prop in Hd as [Hc _].
      destruct Hs as [-> | [-> | ->]]; [|done..]. rewrite str_app_nil_l, str_app_cons. unfold scanSign.
      destruct (Ascii.eqb_spec c "+") as [->|]; [done|]. by destruct (Ascii.eqb_spec c "-") as [->|]. }
    destruct He as [-> | ->]; rewrite !str_app_cons; rewrite ?str_app_nil_l; unfold scanExp; cbn [Ascii.eqb orb]; cbn -[scanSign digits1];
      rewrite E, digits1_app by done; done.
Qed.

Lemma scan_tok n rest : numTok n -> headNot numChar rest -> scanNumber (n +:+ rest) = Some (n, rest).
Proof.
  intros [neg w ft et x Hw Hf He] Hr. destruct (expText_head et x rest He Hr) as [H1 H2]. unfold scanNumber.
  assert (Hsg : match expect "-" (((if neg then "-" else "") +:+ w +:+ ft +:+ et) +:+ rest) with Some r => ("-", r)
                | None => ("", ((if neg then "-" else "") +:+ w +:+ ft +:+ et) +:+ rest) end = ((if neg then "-" else ""), w +:+ ft +:+ et +:+ rest)).
  { rewrite <- !str_app_assoc. destruct neg; [done|]. rewrite str_app_nil_l. destruct Hw as [|c ds Hc _ _]; [done|]. rewrite str_app_cons. cbn.
    destruct (Ascii.eqb_spec c "-") as [->|]; done. }
  rewrite Hsg. assert (Hft : headNot is_digit (ft +:+ et +:+ rest)) by (destruct Hf; [by rewrite str_app_nil_l|done]).
  assert (Hint : scanInt (w +:+ ft +:+ et +:+ rest) = Some (w, ft +:+ et +:+ rest)).
  { destruct Hw as [|c ds Hc Hz Hds]; [done|]. rewrite str_app_cons. unfold scanInt. unfold isZero in Hz. rewrite (Ascii.eqb_sym c), Hz.
    rewrite <- str_app_cons. apply digits1_app; [done|unfold digitsOf; cbn; by rewrite Hc|done]. }
  rewrite Hint. assert (Hfr : scanFrac (ft +:+ et +:+ rest) = Some (ft, et +:+ rest)).
  { unfold scanFrac. destruct Hf as [|f Hne Hd]; [rewrite str_app_nil_l; by rewrite H2|].
    rewrite <- str_app_assoc. change ("." +:+ f +:+ et +:+ rest) with (String "." (f +:+ et +:+ rest)).
    assert (expect "." (String "." (f +:+ et +:+ rest)) = Some (f +:+ et +:+ rest)) as -> by (by apply expect_spec).
    by rewrite digits1_app. }
  rewrite Hfr. by rewrite (scanExp_tok et x rest).
Qed.

Lemma scanExp_inv s e r : scanExp s = Some (e, r) -> s = e +:+ r /\ exists x, expText e x.
Proof.
  unfold scanExp. destruct s as [|c s]; [intros [= <- <-]; split; [done|]; eexists; constructor|].
  destruct (Ascii.eqb c "e" || Ascii.eqb c "E") eqn:E; [|intros [= <- <-]; split; [done|]; eexists; constructor].
  assert (Hsg : forall sg r1, scanSign s = (sg, r1) -> s = sg +:+ r1 /\ (sg = "" \/ sg = "+" \/ sg = "-")).
  { unfold scanSign. destruct s as [|d s]; [intros ? ? [= <- <-]; eauto|]. intros sg r1. destruct (Ascii.eqb_spec d "+") as [->|]; [intros [= <- <-]; eauto|].
    destruct (Ascii.eqb_spec d "-") as [->|]; intros [= <- <-]; eauto. }
  destruct (scanSign s) as [sg r1]. destruct (Hsg _ _ eq_refl) as [-> Hs]. destruct (digits1 r1) as [[d r2]|] eqn:Ed; [|done]. intros [= <- <-].
  apply digits1_inv in Ed as (-> & Hne & Hd & _). split; [by rewrite str_app_cons, str_app_assoc|]. eexists. change (String c (sg +:+ d)) with (String c "" +:+ sg +:+ d).
  apply someExp; [|done..]. apply orb_prop in E as [->%Ascii.eqb_eq | ->%Ascii.eqb_eq]; [by left|by right].
Qed.

Lemma scan_inv s n r : scanNumber s = Some (n, r) -> numTok n /\ s = n +:+ r.
Proof.
  unfold scanNumber. destruct (match expect "-" s with Some r0 => ("-", r0) | None => ("", s) end) as [sg s0] eqn:Esg.
  assert (exists neg : bool, sg = (if neg then "-" else "") /\ s = sg +:+ s0) as (neg & -> & ->).
  { destruct (expect "-" s) as [r0|] eqn:E; injection Esg as <- <-; [apply expect_spec in E as ->; by exists true|by exists false]. }
  destruct (scanInt s0) as [[w s1]|] eqn:Ei; [|done]. destruct (scanFrac s1) as [[f s2]|] eqn:Ef; [|done]. destruct (scanExp s2) as [[e s3]|] eqn:Ee; [|done].
  intros [= <- <-]. apply scanExp_inv in Ee as [-> [x He]].
  assert (s1 = f +:+ e +:+ s3 /\ fracTok f) as [-> Hf].
  { unfold scanFrac in Ef. destruct (expect "." s1) as [r0|] eqn:E; [|injection Ef as <- <-; split; [done|constructor]]. apply expect_spec in E as ->.
    destruct (digits1 r0) as [[d r1]|] eqn:Ed; [|done]. injection Ef as <- <-. apply digits1_inv in Ed as (-> & ? & ? & _). split; [done|].
    change (String "." d) with ("." +:+ d). by constructor. }
  assert (s0 = w +:+ f +:+ e +:+ s3 /\ intText w) as [-> Hw].
  { unfold scanInt in Ei. destruct s0 as [|c r0]; [done|]. destruct (Ascii.eqb_spec c "0") as [->|Hz]; [injection Ei as <- <-; split; [done|constructor]|].
    apply digits1_inv in Ei as (E & Hne & Hd & _). split; [done|]. destruct w as [|c' w]; [done|]. rewrite str_app_cons in E. injection E as -> ->.
    unfold digitsOf in Hd. cbn in Hd. apply andb_prop in Hd as [Hc Hd]. constructor; [done| |done]. unfold isZero. apply Ascii.eqb_neq. congruence. }
  split; [by econstructor|]. by rewrite <- !str_app_assoc.
Qed.

(** What a number token denotes, and its canonical spelling is one again. *)
Lemma tok_number n : numTok n -> exists m e x, jsonNumber n m e x.
Proof.
  intros [neg w ft et x Hw Hf He].
  assert (w <> "" /\ digitsOf w) as [Hne Hd] by (destruct Hw as [|c ds Hc _ Hds]; split; try done; unfold digitsOf; cbn; by rewrite Hc).
  assert (exists frac, fracText ft frac) as [frac Hft] by (destruct Hf as [|f _ Hfd]; eexists; by constructor). eexists _, _, x. by econstructor.
Qed.

Lemma layout_tok (neg : bool) d q : normal d -> numTok ((if neg then "-" else "") +:+ layout d q).
Proof.
  intros Hn. pose proof (nm_digits _ Hn) as Hd. destruct (nm_head _ Hn) as (c & r & Ed & Hc).
  assert (Hcr : is_digit c = true /\ digitsOf r) by (rewrite Ed in Hd; unfold digitsOf in *; cbn in Hd; by apply andb_prop in Hd).
  destruct Hcr as [Hcd Hr]. assert (Hint : forall w, digitsOf w -> intText (String c w)) by (intros; by constructor).
  assert (Hpre : forall k, (0 < k)%nat -> exists w, strTake k d = String c w /\ digitsOf w /\ digitsOf (strDrop k d)).
  { intros [|k] Hk; [lia|]. rewrite Ed. cbn. pose proof (take_drop k r) as Htd. rewrite <- Htd in Hr. apply digits_suffix in Hr as [? ?]. eauto. }
  unfold layout. set (point := slen d + q). destruct ((0 <=? q) && (q <=? 20)) eqn:E1.
  { rewrite <- (str_app_nil_r (d +:+ _)). apply (mkTok neg (d +:+ zeros (Z.to_nat q)) "" "" 0); try constructor.
    rewrite Ed, str_app_cons. apply Hint, digits_app; [done|apply zeros_digits]. }
  destruct ((q <? 0) && (point >? 0)) eqn:E2.
  { assert (Hp : 0 < point) by lia. destruct (Hpre (Z.to_nat point) ltac:(lia)) as (w & -> & Hw & Hdr).
    rewrite <- (str_app_nil_r (String c w +:+ _)), <- str_app_assoc. apply (mkTok neg _ ("." +:+ _) "" 0); [by apply Hint| |constructor].
    constructor; [|done]. apply slen_pos. rewrite slen_drop; unfold slen in *; lia. }
  destruct ((q <? 0) && (point >? -20)) eqn:E3.
  { change ("0." +:+ ?x) with ("0" +:+ "." +:+ x). rewrite <- (str_app_nil_r ("0" +:+ _)), <- str_app_assoc.
    apply (mkTok neg "0" ("." +:+ _) "" 0); [constructor| |constructor]. constructor; [|apply digits_app; [apply zeros_digits|done]].
    rewrite Ed. by destruct (zeros (Z.to_nat (- point))). }
  rewrite Ed. cbn [strTake strDrop]. apply (mkTok neg (String c "") _ _ (point - 1)); [by apply Hint| |apply expText_Itoa].
  destruct (String.eqb_spec r ""); by constructor.
Qed.

Lemma canonical_tok n : numTok n -> numTok (canonicalNumber n).
Proof.
  intros Hn. destruct (tok_number n Hn) as (m & e & x & Hj). destruct (Z_le_gt_dec (Z.abs x) maxExp) as [Hx|Hx].
  - destruct (canonical_form n m e x Hj Hx) as [[_ ->]|(neg & d & q & Hd & -> & _)]; [|by apply layout_tok].
    apply (mkTok false "0" "" "" 0); constructor.
  - by rewrite (canonical_wide n m e x Hj) by lia.
Qed.

(** ** Values *)

(** A value [Marshal] writes without loss. *)
Inductive wf : json -> Prop :=
| wf_null : wf JNull
| wf_bool b : wf (JBool b)
| wf_num n : numTok n -> wf (JNum n)
| wf_str s : utf8 s -> wf (JStr s)
| wf_arr l : Forall wf l -> wf (JArr l)
| wf_obj m : Forall (fun kv => utf8 (fst kv) /\ wf (snd kv)) m -> wf (JObj m).

(** How deep a value nests. *)
Fixpoint nest (v : json) : Z :=
  match v with
  | JArr l => 1 + foldr (fun x d => Z.max (nest x) d) 0 l
  | JObj m => 1 + foldr (fun kv d => Z.max (nest (snd kv)) d) 0 m
  | _ => 0
  end.

Definition opens (c : ascii) : bool := negb (isWS c || Ascii.eqb c "]" || Ascii.eqb c "}" || Ascii.eqb c ",").

Lemma digit_opens c : is_digit c = true -> opens c = true.
Proof. intros H. each_byte c; (discriminate H || reflexivity). Qed.

Lemma Marshal_head v : wf v -> exists c r, Marshal v = String c r /\ opens c = true.
Proof.
  intros [| [] | n [neg w ft et x Hw _ _] | s | l | m]; cbn [Marshal]; try (by eexists _, _).
  destruct neg; [by eexists _, _|]. rewrite str_app_nil_l. destruct Hw as [|c ds Hc _ _]; [by eexists _, _|].
  eexists _, _. rewrite str_app_cons. split; [done|]. by apply digit_opens.
Qed.

Lemma skipWS_opens c r : opens c = true -> skipWS (String c r) = String c r.
Proof. unfold opens, skipWS. rewrite negb_true_iff, !orb_false_iff. intros [[[H _] _] _]. cbn. by rewrite H. Qed.

Lemma expect_opens d c r : opens c = true -> d = "]"%char \/ d = "}"%char \/ d = ","%char -> expect d (skipWS (String c r)) = None.
Proof.
  intros Ho Hd. rewrite skipWS_opens by done. unfold opens in Ho. rewrite negb_true_iff, !orb_false_iff in Ho. destruct Ho as [[[_ H1] H2] H3].
  unfold expect. by destruct Hd as [-> | [-> | ->]]; rewrite ?H1, ?H2, ?H3.
Qed.

(** The value that follows, and what may come after it. *)
Definition ends (rest : string) : Prop := headNot numChar rest.

Section RoundTrip.
Context (lim : Z).

Definition valueBack (v : json) : Prop := forall fuel depth rest, ends rest -> (2 * String.length (Marshal v) < fuel)%nat -> depth + nest v <= lim ->
  parseValue lim fuel depth (Marshal v +:+ rest) = Some (v, rest).

Lemma number_back n : numTok n -> valueBack (JNum n).
Proof.
  intros Hn fuel depth rest He Hf _. cbn [Marshal] in *. destruct fuel as [|fuel]; [lia|].
  destruct (Marshal_head (JNum n) ltac:(by constructor)) as (c & r & Em & Ho). cbn [Marshal] in Em.
  pose proof (scan_tok n rest Hn He) as Hs. cbn [parseValue]. rewrite Em, str_app_cons in *. rewrite skipWS_opens by done.
  assert (Hc : Ascii.eqb c "-" || is_digit c = true).
  { clear -Hn. inversion Hn as [neg w ft et x Hw _ _ En]. destruct neg; [by injection En as <-|]. rewrite str_app_nil_l in En.
    destruct Hw as [|d ds Hd _ _]; [by injection En as <-|]. rewrite str_app_cons in En. injection En as -> _. rewrite Hd. by rewrite orb_true_r. }
  assert (Ascii.eqb c dquote = false /\ Ascii.eqb c "[" = false /\ Ascii.eqb c "{" = false) as (-> & -> & ->)
    by (clear -Hc; each_byte c; try discriminate Hc; done).
  rewrite Hc, Hs. done.
Qed.

Lemma string_back s : utf8 s -> valueBack (JStr s).
Proof.
  intros Hs fuel depth rest _ Hf _. cbn [Marshal] in *. destruct fuel as [|fuel]; [lia|]. destruct (quote_back s rest Hs) as (r & -> & Hr).
  cbn [parseValue]. change (skipWS (String dquote r)) with (String dquote r). cbn match. change (Ascii.eqb dquote dquote) with true. cbn match. by rewrite Hr.
Qed.

Lemma expect_head c r : expect c (String c r) = Some r.
Proof. by apply expect_spec. Qed.

Lemma elems_back l : l <> [] -> Forall valueBack l -> Forall wf l -> forall fuel depth rest,
  (2 * String.length (join "," (map Marshal l)) + 1 < fuel)%nat -> depth + foldr (fun x d => Z.max (nest x) d) 0 l <= lim ->
  parseElems lim fuel depth (join "," (map Marshal l) +:+ String "]" rest) = Some (l, rest).
Proof.
  intros Hne Hb Hw. induction l as [|v l IH]; [done|]. apply Forall_cons in Hb as [Hv Hb], Hw as [Wv Ww]. intros fuel depth rest Hf Hd.
  destruct fuel as [|fuel]; [lia|]. cbn [foldr] in Hd. cbn [parseElems]. destruct l as [|w l].
  - cbn [map join] in *. rewrite Hv by (done || lia). change (skipWS (String "]" rest)) with (String "]" rest). by rewrite expect_head.
  - cbn [map] in *. set (tl := join "," (Marshal w :: map Marshal l)) in *.
    change (join "," (Marshal v :: Marshal w :: map Marshal l)) with (Marshal v +:+ "," +:+ tl) in *. rewrite !str_len_app in Hf. cbn [String.length] in Hf.
    rewrite <- str_app_assoc, Hv by (done || lia). rewrite <- str_app_assoc. change ("," +:+ tl +:+ String "]" rest) with (String "," (tl +:+ String "]" rest)).
    change (skipWS (String "," ?x)) with (String "," x). rewrite expect_head. change (expect "]" (String "," ?x)) with (@None string). cbn match.
    unfold tl in *. rewrite IH; [done..| |]; try done; [lia|]. cbn [foldr] in *. lia.
Qed.

Lemma members_back m : m <> [] -> Forall (fun kv => valueBack (snd kv)) m -> Forall (fun kv => utf8 (fst kv) /\ wf (snd kv)) m -> forall fuel depth rest,
  (2 * String.length (join "," (map (fun kv => quote (fst kv) +:+ ":" +:+ Marshal (snd kv)) m)) + 1 < fuel)%nat ->
  depth + foldr (fun kv d => Z.max (nest (snd kv)) d) 0 m <= lim ->
  parseMembers lim fuel depth (join "," (map (fun kv => quote (fst kv) +:+ ":" +:+ Marshal (snd kv)) m) +:+ String "}" rest) = Some (m, rest).
Proof.
  intros Hne Hb Hw. induction m as [|[k v] m IH]; [done|]. apply Forall_cons in Hb as [Hv Hb], Hw as [[Wk Wv] Ww]. cbn [fst snd] in *. intros fuel depth rest Hf Hd.
  destruct fuel as [|fuel]; [lia|]. cbn [foldr] in Hd. cbn [parseMembers map fst snd] in *. destruct m as [|[k' w] m].
  - cbn [map join] in *. rewrite <- str_app_assoc. destruct (quote_back k ((":" +:+ Marshal v) +:+ String "}" rest) Wk) as (r & Eq & Hr). rewrite Eq.
    change (skipWS (String dquote r)) with (String dquote r). rewrite expect_head, Hr. rewrite <- str_app_assoc.
    change (":" +:+ Marshal v +:+ String "}" rest) with (String ":" (Marshal v +:+ String "}" rest)). change (skipWS (String ":" ?x)) with (String ":" x). rewrite expect_head.
    rewrite !str_len_app in Hf. cbn [String.length snd] in *. rewrite Hv by (done || lia). change (skipWS (String "}" rest)) with (String "}" rest). by rewrite expect_head.
  - cbn [map fst snd] in *. set (tl := join "," ((quote k' +:+ ":" +:+ Marshal w) :: map (fun kv => quote (fst kv) +:+ ":" +:+ Marshal (snd kv)) m)) in *.
    change (join "," ((quote k +:+ ":" +:+ Marshal v) :: (quote k' +:+ ":" +:+ Marshal w) :: map (fun kv => quote (fst kv) +:+ ":" +:+ Marshal (snd kv)) m))
      with ((quote k +:+ ":" +:+ Marshal v) +:+ "," +:+ tl) in *. rewrite !str_len_app in Hf. cbn [String.length] in Hf.
    rewrite <- !str_app_assoc. destruct (quote_back k (":" +:+ Marshal v +:+ "," +:+ tl +:+ String "}" rest) Wk) as (r & Eq & Hr). rewrite Eq.
    change (skipWS (String dquote r)) with (String dquote r). rewrite expect_head, Hr.
    change (":" +:+ ?x) with (String ":" x). change (skipWS (String ":" ?x)) with (String ":" x). rewrite expect_head.
    rewrite Hv by (done || (cbn in *; lia)). change ("," +:+ tl +:+ String "}" rest) with (String "," (tl +:+ String "}" rest)).
    change (skipWS (String "," ?x)) with (String "," x). rewrite expect_head. change (expect "}" (String "," ?x)) with (@None string). cbn match.
    unfold tl in *. rewrite IH; [done..| |]; try done; [lia|]. cbn [foldr snd] in *. lia.
Qed.

Lemma nest_nonneg v : 0 <= nest v.
Proof.
  induction v as [| | | |l Hl|m Hm]; cbn; try lia.
  - induction Hl; cbn; lia.
  - induction Hm; cbn; lia.
Qed.

Lemma foldr_nest_nonneg {A} (f : A -> Z) (l : list A) : 0 <= foldr (fun x d => Z.max (f x) d) 0 l.
Proof. induction l; cbn; lia. Qed.

Lemma value_back v : wf v -> valueBack v.
Proof.
  induction v as [|b|n|s|l IH|m IH]; intros Hw; inversion Hw; subst.
  - intros [|fuel] depth rest _ Hf _; [lia|]. done.
  - intros [|fuel] depth rest _ Hf _; [lia|]. by destruct b.
  - by apply number_back.
  - by apply string_back.
  - intros [|fuel] depth rest _ Hf Hd; [lia|]. cbn [Marshal nest] in *. rewrite !str_len_app in Hf. cbn [String.length] in Hf.
    pose proof (foldr_nest_nonneg nest l). rewrite <- !str_app_assoc. change ("[" +:+ ?x) with (String "[" x). cbn [parseValue].
    change (skipWS (String "[" ?x)) with (String "[" x). cbn match. rewrite (Z.geb_leb depth), (proj2 (Z.leb_gt _ _)) by lia.
    destruct l as [|v l]; [cbn [map join]; rewrite str_app_nil_l; change ("]" +:+ rest) with (String "]" rest);
      change (skipWS (String "]" rest)) with (String "]" rest); by rewrite expect_head|].
    assert (Hhead : expect "]" (skipWS (join "," (map Marshal (v :: l)) +:+ "]" +:+ rest)) = None).
    { inversion H0 as [|? ? Hv _]; subst. destruct (Marshal_head v Hv) as (c & r & Em & Ho). destruct l; cbn [map join]; rewrite Em, ?str_app_cons; (apply expect_opens; [done|by left]). }
    rewrite Hhead. change ("]" +:+ rest) with (String "]" rest). rewrite elems_back; [done|done| |done|lia|lia].
    clear -IH H0. induction IH as [|? ? Hx _ IH']; constructor; apply Forall_cons in H0 as [? ?]; auto.
  - intros [|fuel] depth rest _ Hf Hd; [lia|]. cbn [Marshal nest] in *. rewrite !str_len_app in Hf. cbn [String.length] in Hf.
    pose proof (foldr_nest_nonneg (fun kv => nest (snd kv)) m). rewrite <- !str_app_assoc. change ("{" +:+ ?x) with (String "{" x). cbn [parseValue].
    change (skipWS (String "{" ?x)) with (String "{" x). cbn match. rewrite (Z.geb_leb depth), (proj2 (Z.leb_gt _ _)) by lia.
    destruct m as [|kv m]; [cbn [map join]; rewrite str_app_nil_l; change ("}" +:+ rest) with (String "}" rest);
      change (skipWS (String "}" rest)) with (String "}" rest); by rewrite expect_head|].
    assert (Hhead : expect "}" (skipWS (join "," (map (fun kv => quote (fst kv) +:+ ":" +:+ Marshal (snd kv)) (kv :: m)) +:+ "}" +:+ rest)) = None).
    { destruct m; cbn [map join]; unfold quote; rewrite ?str_app_cons; (apply expect_opens; [done|by right; left]). }
    rewrite Hhead. change ("}" +:+ rest) with (String "}" rest). rewrite members_back; [done|done| |done|lia|lia].
    clear -IH H0. induction IH as [|? ? Hx _ IH']; constructor; apply Forall_cons in H0 as [[? ?] ?]; auto.
Qed.
End RoundTrip.

(** What [Marshal] writes is read back as the value it was made from. *)
Lemma parse_Marshal v : wf v -> forall lim, nest v <= lim -> parse lim (Marshal v) = Some v.
Proof.
  intros Hw lim Hl. unfold parse. pose proof (value_back lim v Hw (2 * String.length (Marshal v) + 1)%nat 0 "" I ltac:(lia) ltac:(lia)) as E.
  rewrite str_app_nil_r in E. by rewrite E.
Qed.

Lemma Marshal_inj v w : wf v -> wf w -> Marshal v = Marshal w -> v = w.
Proof.
  intros Hv Hw E. pose proof (parse_Marshal v Hv (Z.max (nest v) (nest w)) ltac:(lia)) as E1.
  rewrite E, (parse_Marshal w Hw) in E1 by lia. congruence.
Qed.

(** ** What is decoded can be written *)

Lemma byte_chrOf z : 0 <= z < 256 -> byte_of (chrOf z) = z.
Proof. intros H. unfold byte_of, chrOf. rewrite N_ascii_embedding by lia. lia. Qed.

Lemma decode2 b0 b1 t : 194 <= b0 <= 223 -> 128 <= b1 <= 191 -> exists rr, DecodeRune (ofBytes [b0; b1] +:+ t) = (rr, true, t).
Proof.
  intros H0 H1. eexists. cbn [ofBytes foldr]. rewrite !str_app_cons, str_app_nil_l. unfold DecodeRune. rewrite !byte_chrOf by lia.
  rewrite (proj2 (Z.ltb_ge _ _)) by lia. unfold runeShape. rewrite (proj2 (Z.leb_le 194 b0)), (proj2 (Z.leb_le b0 223)) by lia. cbn [andb].
  unfold cont. rewrite byte_chrOf by lia. rewrite (proj2 (Z.leb_le 128 b1)), (proj2 (Z.leb_le b1 191)) by lia. done.
Qed.

Lemma decode3 b0 b1 b2 t : 224 <= b0 <= 239 -> 128 <= b1 <= 191 -> 128 <= b2 <= 191 -> (b0 = 224 -> 160 <= b1) -> (b0 = 237 -> b1 <= 159) ->
  exists rr, DecodeRune (ofBytes [b0; b1; b2] +:+ t) = (rr, true, t).
Proof.
  intros H0 H1 H2 Hl Hs. assert (Hsh : exists lo hi, runeShape b0 = Some (3%nat, lo, hi) /\ lo <= b1 <= hi).
  { unfold runeShape. rewrite (proj2 (Z.leb_gt b0 223)), andb_false_r by lia. destruct (Z.eqb_spec b0 224); [eexists _, _; split; [done|lia]|].
    destruct (Z.eqb_spec b0 237); [eexists _, _; split; [done|lia]|]. rewrite (proj2 (Z.leb_le 225 b0)), (proj2 (Z.leb_le b0 239)) by lia. eexists _, _. split; [done|lia]. }
  destruct Hsh as (lo & hi & Esh & Hb). eexists. cbn [ofBytes foldr]. rewrite !str_app_cons, str_app_nil_l. unfold DecodeRune. rewrite !byte_chrOf by lia.
  rewrite (proj2 (Z.ltb_ge _ _)), Esh by lia. unfold cont. rewrite !byte_chrOf by lia.
  rewrite (proj2 (Z.leb_le lo b1)), (proj2 (Z.leb_le b1 hi)), (proj2 (Z.leb_le 128 b2)), (proj2 (Z.leb_le b2 191)) by lia. done.
Qed.

Lemma decode4 b0 b1 b2 b3 t : 240 <= b0 <= 244 -> 128 <= b1 <= 191 -> 128 <= b2 <= 191 -> 128 <= b3 <= 191 -> (b0 = 240 -> 144 <= b1) -> (b0 = 244 -> b1 <= 143) ->
  exists rr, DecodeRune (ofBytes [b0; b1; b2; b3] +:+ t) = (rr, true, t).
Proof.
  intros H0 H1 H2 H3 Hl Hs. assert (Hsh : exists lo hi, runeShape b0 = Some (4%nat, lo, hi) /\ lo <= b1 <= hi).
  { unfold runeShape. rewrite (proj2 (Z.leb_gt b0 223)), (proj2 (Z.leb_gt b0 239)), !andb_false_r by lia.
    rewrite (proj2 (Z.eqb_neq b0 224)), (proj2 (Z.eqb_neq b0 237)) by lia. destruct (Z.eqb_spec b0 240); [eexists _, _; split; [done|lia]|].
    destruct (Z.eqb_spec b0 244); [eexists _, _; split; [done|lia]|]. rewrite (proj2 (Z.leb_le 241 b0)), (proj2 (Z.leb_le b0 243)) by lia. eexists _, _. split; [done|lia]. }
  destruct Hsh as (lo & hi & Esh & Hb). eexists. cbn [ofBytes foldr]. rewrite !str_app_cons, str_app_nil_l. unfold DecodeRune. rewrite !byte_chrOf by lia.
  rewrite (proj2 (Z.ltb_ge _ _)), Esh by lia. unfold cont. rewrite !byte_chrOf by lia.
  rewrite (proj2 (Z.leb_le lo b1)), (proj2 (Z.leb_le b1 hi)), (proj2 (Z.leb_le 128 b2)), (proj2 (Z.leb_le b2 191)), (proj2 (Z.leb_le 128 b3)), (proj2 (Z.leb_le b3 191)) by lia. done.
Qed.

Lemma utf8_encode r : 0 <= r -> utf8 (encodeRune r).
Proof.
  assert (Hone : forall a, a <> "" -> (forall t, exists rr, DecodeRune (a +:+ t) = (rr, true, t)) -> utf8 a).
  { intros a Hne Ha. destruct (Ha "") as [rr Hrr]. rewrite str_app_nil_r in Hrr. destruct (decode_ok _ _ _ Hrr) as (b & E & Hb).
    rewrite str_app_nil_r in E. subst b. by apply (utf8_rune _ rr). }
  intros Hr. apply Hone; unfold encodeRune.
  { repeat case_match; done. }
  intros t. destruct (Z.ltb_spec r 128).
  { eexists. cbn [ofBytes foldr]. rewrite str_app_cons, str_app_nil_l. unfold DecodeRune. rewrite byte_chrOf by lia. by rewrite (proj2 (Z.ltb_lt _ _)) by lia. }
  destruct (Z.ltb_spec r 2048); [apply decode2; Z.to_euclidean_division_equations; lia|].
  destruct (_ || _) eqn:E; [apply decode3; lia|]. apply orb_false_iff in E as [E1 E2].
  destruct (Z.ltb_spec r 65536); [apply decode3|apply decode4]; Z.to_euclidean_division_equations; lia.
Qed.

Lemma utf8_ascii c : byte_of c < 128 -> utf8 (String c "").
Proof.
  intros H. assert (E : String c "" = encodeRune (byte_of c)).
  { unfold encodeRune. rewrite (proj2 (Z.ltb_lt _ _)) by done. cbn. by rewrite <- (byte_chr _ (byte_range c) c eq_refl). }
  rewrite E. apply utf8_encode. apply byte_range.
Qed.

Lemma hexRun_nonneg n acc s z r : hexRun n acc s = Some (z, r) -> 0 <= acc -> 0 <= z.
Proof.
  revert acc s. induction n as [|n IH]; intros acc s H Ha; cbn in H; [by injection H as <- _|]. destruct s as [|c s]; [done|].
  destruct (hexDigitVal c) as [d|] eqn:E; [|done]. apply IH in H; [done|]. assert (0 <= d); [|lia].
  unfold hexDigitVal, is_digit in E. repeat case_match; simplify_eq; bool_prop; lia.
Qed.

Lemma unicodeEscape_utf8 s out r : unicodeEscape s = Some (out, r) -> utf8 out.
Proof.
  unfold unicodeEscape. destruct (hexRun 4 0 s) as [[rr r0]|] eqn:E; [|done]. apply hexRun_nonneg in E; [|lia]. destruct (isSurrogate rr) eqn:Es.
  - destruct (getu4 r0) as [[rr1 r1]|] eqn:E1; [|intros [= <- _]; by apply utf8_encode]. destruct (_ && _ && _) eqn:Eb; intros [= <- _]; apply utf8_encode; [|done].
    unfold isSurrogate in Es. bool_prop. lia.
  - intros [= <- _]. by apply utf8_encode.
Qed.

Lemma simpleEscape_ascii c x : simpleEscape c = Some x -> byte_of x < 128.
Proof. intros H. each_byte c; try discriminate H; vm_compute in H; injection H as <-; vm_compute; reflexivity. Qed.

Lemma scanString_utf8 f s t r : scanString f s = Some (t, r) -> utf8 t.
Proof.
  revert s t r. induction f as [|f IH]; intros s t r H; [done|]. destruct s as [|c s]; [done|]. cbn [scanString] in H.
  destruct (Ascii.eqb c dquote); [injection H as <- _; constructor|]. destruct (byte_of c <? 32); [done|].
  assert (Hput : forall out r1, utf8 out -> match scanString f r1 with Some (t, r2) => Some (out +:+ t, r2) | None => None end = Some (t, r) -> utf8 t).
  { intros out r1 Ho E. destruct (scanString f r1) as [[u r2]|] eqn:Es; [|done]. injection E as <- _. apply utf8_app; [done|by eapply IH]. }
  destruct (Ascii.eqb c bslash).
  - destruct s as [|e r1]; [done|]. destruct (Ascii.eqb e "u").
    + destruct (unicodeEscape r1) as [[out r2]|] eqn:E; [|done]. eapply Hput, H. by eapply unicodeEscape_utf8.
    + destruct (simpleEscape e) as [x|] eqn:E; [|done]. eapply Hput, H. apply utf8_ascii. by eapply simpleEscape_ascii.
  - destruct (DecodeRune (String c s)) as [[rr ok] r1] eqn:E. eapply Hput, H. destruct ok; [|by apply utf8_encode].
    apply decode_ok in E as (a & -> & Ha). rewrite upTo_app. by eapply utf8_rune.
Qed.

Lemma literal_wf s v r : literal literals s = Some (v, r) -> wf v.
Proof. unfold literals. cbn [literal]. repeat case_match; intros [= <- <-]; constructor. Qed.

Lemma parse_wf lim fuel :
  (forall d s v r, parseValue lim fuel d s = Some (v, r) -> wf v) /\
  (forall d s l r, parseElems lim fuel d s = Some (l, r) -> Forall wf l) /\
  (forall d s m r, parseMembers lim fuel d s = Some (m, r) -> Forall (fun kv => utf8 (fst kv) /\ wf (snd kv)) m).
Proof.
  induction fuel as [|fuel (IHv & IHe & IHm)]; [done|]. split_and!; intros d s x r H.
  - cbn [parseValue] in H. destruct (skipWS s) as [|c r0] eqn:Es; [done|]. destruct (Ascii.eqb c dquote).
    { destruct (scanString _ _) as [[t r1]|] eqn:E; [|done]. injection H as <- _. constructor. by eapply scanString_utf8. }
    destruct (Ascii.eqb c "[").
    { destruct (d >=? lim); [done|]. destruct (expect "]" _); [injection H as <- _; by constructor|]. destruct (parseElems _ _ _ _) as [[l r1]|] eqn:E; [|done].
      injection H as <- _. constructor. by eapply IHe. }
    destruct (Ascii.eqb c "{").
    { destruct (d >=? lim); [done|]. destruct (expect "}" _); [injection H as <- _; by constructor|]. destruct (parseMembers _ _ _ _) as [[l r1]|] eqn:E; [|done].
      injection H as <- _. constructor. by eapply IHm. }
    destruct (Ascii.eqb c "-" || is_digit c); [|by eapply literal_wf].
    destruct (scanNumber _) as [[n r1]|] eqn:E; [|done]. injection H as <- _. constructor. by apply scan_inv in E as [? _].
  - cbn [parseElems] in H. destruct (parseValue _ _ _ _) as [[v r0]|] eqn:E; [|done]. apply IHv in E.
    destruct (expect "]" _); [injection H as <- _; by constructor|]. destruct (expect "," _); [|done].
    destruct (parseElems _ _ _ _) as [[l r1]|] eqn:El; [|done]. injection H as <- _. constructor; [done|by eapply IHe].
  - cbn [parseMembers] in H. destruct (expect dquote _) as [k0|]; [|done]. destruct (scanString _ k0) as [[k r0]|] eqn:Ek; [|done].
    apply scanString_utf8 in Ek. destruct (expect ":" _); [|done]. destruct (parseValue _ _ _ _) as [[v r1]|] eqn:E; [|done]. apply IHv in E.
    destruct (expect "}" _); [injection H as <- _; by repeat constructor|]. destruct (expect "," _); [|done].
    destruct (parseMembers _ _ _ _) as [[m r2]|] eqn:Em; [|done]. injection H as <- _. constructor; [done|by eapply IHm].
Qed.

Lemma decode_wf s v : decode s = Some v -> wf v.
Proof.
  unfold decode, parse. destruct (parseValue _ _ _ _) as [[w r]|] eqn:E; [|done]. case_match; [|done]. intros [= <-]. by apply parse_wf in E.
Qed.

Lemma putKey_wf k v m : utf8 k -> wf v -> Forall (fun kv => utf8 (fst kv) /\ wf (snd kv)) m -> Forall (fun kv => utf8 (fst kv) /\ wf (snd kv)) (putKey k v m).
Proof.
  intros Hk Hv. induction m as [|[k' v'] m IH]; intros Hm; cbn [putKey]; [by repeat constructor|]. apply Forall_cons in Hm as [H1 Hm].
  destruct (String.compare k k'); repeat (constructor; try done); auto.
Qed.

Lemma toAny_wf v : wf v -> wf (toAny v).
Proof.
  induction v as [| | | |l IH|m IH]; intros Hw; try done; inversion Hw as [| | | |? Hl|? Hm]; subst; cbn [toAny]; constructor.
  - clear Hw. induction Hl; constructor; apply Forall_cons in IH as [? ?]; auto.
  - assert (Hacc : forall acc, Forall (fun kv => utf8 (fst kv) /\ wf (snd kv)) acc ->
      Forall (fun kv => utf8 (fst kv) /\ wf (snd kv)) (foldl (fun acc kv => putKey (fst kv) (snd kv) acc) acc (map (fun kv => (fst kv, toAny (snd kv))) m))); [|by apply Hacc].
    clear Hw. induction Hm as [|[k v] m [Hk Hv] Hm' IH']; intros acc Ha; [done|]. apply Forall_cons in IH as [Hx IH]. cbn. apply IH'; [done|].
    apply putKey_wf; auto.
Qed.
