(* ===== verification/ApprovalScope.v ===== *)
(** * The scope of an approval

    [approval.go] and [hold.go] of [src/internal/approval]: the canonical spelling
    of a requested scope, the text its deduplication hash covers, the fields other
    code reads out of it, how a row is counted, and how long it holds its sandbox.

    A requested scope is JSON text. Identifiers are their canonical texts; times
    and durations are nanoseconds, the zero time is 0. [uuid.Parse] (package
    github.com/google/uuid) and the digest are parameters. *)
From S2P Require Import Prelude GoStrings GoPath GoSlices Grants PushRules CanonNumber GoJSON.
Local Open Scope string_scope.
Local Open Scope Z_scope.
Local Open Scope list_scope.

(** ** Rows *)

Inductive ApprovalKind :=
| ApprovalCredential | ApprovalEgressDomain | ApprovalToolCall | ApprovalCredentialReauth | ApprovalPushContent | ApprovalHumanTakeover.
Inductive ApprovalState := ApprovalPending | ApprovalApproved | ApprovalDenied | ApprovalExpired | ApprovalCancelled.

#[export] Instance ApprovalKind_eq : EqDecision ApprovalKind.
Proof. solve_decision. Defined.
#[export] Instance ApprovalState_eq : EqDecision ApprovalState.
Proof. solve_decision. Defined.

Definition kindText (k : ApprovalKind) : string :=
  match k with
  | ApprovalCredential => "credential" | ApprovalEgressDomain => "egress_domain" | ApprovalToolCall => "tool_call"
  | ApprovalCredentialReauth => "credential_reauth" | ApprovalPushContent => "push_content" | ApprovalHumanTakeover => "human_takeover"
  end.

Record ApprovalRequest := mkApproval {
  ID : string; RunID : string; GrantID : option string; aKind : ApprovalKind; RequestedScope : string; aState : ApprovalState;
  RequestedAt : Z; DecidedAt : option Z; DecidedBy : string; MintedJTI : string; aReason : string;
  DecisionScope : string; DecisionExpiresAt : option Z; ExpiresAt : option Z; LastRejoinedAt : option Z;
  TakeoverHolder : string; HandedBackAt : option Z;
}.

(** ** One spelling of a scope *)

(** A string literal after its opening quote, its closing one included. *)
Fixpoint copyLit (s : string) : string * string :=
  match s with
  | "" => ("", "")
  | String c r =>
      if Ascii.eqb c dquote then (String c "", r)
      else if Ascii.eqb c bslash then
        match r with
        | "" => (s, "")
        | String e r' => let '(a, b) := copyLit r' in (String c (String e a), b)
        end
      else let '(a, b) := copyLit r in (String c a, b)
  end.

(** The bytes a number may be made of. *)
Definition numByte (c : ascii) : bool := str_has c "+-.eE0123456789".

Fixpoint numberRun (s : string) : string * string :=
  match s with
  | String c r => if numByte c then let '(a, b) := numberRun r in (String c a, b) else ("", s)
  | "" => ("", "")
  end.

Fixpoint rewriteFrom (fuel : nat) (s : string) : string :=
  match fuel, s with
  | S fuel, String c r =>
      if Ascii.eqb c dquote then let '(lit, r') := copyLit r in String c (lit +:+ rewriteFrom fuel r')
      else if Ascii.eqb c "-" || is_digit c then let '(n, r') := numberRun s in canonicalNumber n +:+ rewriteFrom fuel r'
      else String c (rewriteFrom fuel r)
  | _, _ => ""
  end.

Definition rewriteNumbers (s : string) : string := rewriteFrom (String.length s) s.
Definition canonicalScope (scope : string) : string := if Valid scope then rewriteNumbers scope else scope.

Fixpoint canonicalNumbers (v : json) : json :=
  match v with
  | JNum n => JNum (canonicalNumber n)
  | JArr l => JArr (map canonicalNumbers l)
  | JObj m => JObj (map (fun kv => (fst kv, canonicalNumbers (snd kv))) m)
  | _ => v
  end.

(** What [scopeHash] digests. *)
Definition scopeNorm (scope : string) : string :=
  Marshal (match decode scope with Some v => canonicalNumbers (toAny v) | None => JStr scope end).
Definition scopeText (run : string) (k : ApprovalKind) (scope : string) : string :=
  run +:+ "|" +:+ kindText k +:+ "|" +:+ scopeNorm scope.

(** ** Fields of a scope, decoded into a struct *)

(** [foldName]: ASCII letters by their upper case; the two other letters that fold
    to ASCII ones are the long s and the Kelvin sign. *)
Fixpoint foldName (s : string) : string :=
  match s with
  | String "197" (String "191" r) => String "S" (foldName r)
  | String "226" (String "132" (String "170" r)) => String "K" (foldName r)
  | String c r => String (upper_byte c) (foldName r)
  | "" => ""
  end.

Definition names (field key : string) : bool := String.eqb key field || String.eqb (foldName key) (foldName field).

(** A string field and an [int] field take the last value of their type; [null]
    leaves a field alone, and any other value is an error that does not stop the
    decoding. *)
Inductive decoded (A : Type) := Keep | Set_ (a : A) | Mismatch.
Arguments Keep {A}. Arguments Set_ {A}. Arguments Mismatch {A}.

Definition asString (v : json) : decoded string :=
  match v with JStr s => Set_ s | JNull => Keep | _ => Mismatch end.
Definition asInt (v : json) : decoded Z :=
  match v with JNum n => match Atoi n with Some z => Set_ z | None => Mismatch end | JNull => Keep | _ => Mismatch end.

Definition members (scope : string) : option (list (string * json)) :=
  match decode scope with Some (JObj m) => Some m | Some JNull => Some [] | _ => None end.

Definition fieldOf {A} (read : json -> decoded A) (zero : A) (field : string) (m : list (string * json)) : A :=
  foldl (fun acc kv => if names field (fst kv) then match read (snd kv) with Set_ a => a | _ => acc end else acc) zero m.
Definition fieldFails {A} (read : json -> decoded A) (field : string) (m : list (string * json)) : bool :=
  existsb (fun kv => names field (fst kv) && match read (snd kv) with Mismatch => true | _ => false end) m.

Definition stringField (field scope : string) : string := fieldOf asString "" field (default [] (members scope)).

Section Rows.
Context (uuidParse : string -> option string).
Definition nilUUID : string := "00000000-0000-0000-0000-000000000000".

Definition asUUID (v : json) : decoded string :=
  match v with JStr s => match uuidParse s with Some u => Set_ u | None => Mismatch end | JNull => Keep | _ => Mismatch end.

Definition TallyToolCallADO : string := "tool_call:azure_devops".
Definition TallyReauthAWSSSO : string := "credential_reauth:aws_sso".
Definition TallyReauthADOSignIn : string := "credential_reauth:azure_devops_signin".
Definition TallyReauthADOConsent : string := "credential_reauth:azure_devops_consent".

Definition TallyKey (ap : ApprovalRequest) : string :=
  let bare := kindText (aKind ap) in
  match members (RequestedScope ap) with
  | None => bare
  | Some m =>
      if fieldFails asString "lane" m || fieldFails asString "mechanism" m || fieldFails asString "credential_source" m || fieldFails asUUID "grant_id" m
      then bare
      else
        let lane := fieldOf asString "" "lane" m in
        let mechanism := fieldOf asString "" "mechanism" m in
        let source := fieldOf asString "" "credential_source" m in
        let grant := fieldOf asUUID nilUUID "grant_id" m in
        match aKind ap with
        | ApprovalToolCall =>
            match GrantID ap with
            | Some g => if negb (String.eqb g nilUUID) && String.eqb lane "azure_devops" && String.eqb grant g then TallyToolCallADO else bare
            | None => bare
            end
        | ApprovalCredentialReauth =>
            if String.eqb lane "azure_devops" && String.eqb mechanism "entra_signin" then TallyReauthADOSignIn
            else if String.eqb lane "azure_devops" && String.eqb mechanism "entra_consent" then TallyReauthADOConsent
            else if String.eqb lane "" && negb (String.eqb source "") then TallyReauthAWSSSO
            else bare
        | _ => bare
        end
  end.

(** ** Holds *)

Definition HoldWindowEgress : Z := 30 * second.
Definition HoldWindowADOCapability : Z := 240 * second.
Definition HoldWindowPush : Z := 600 * second.

Definition approvalMode (ap : ApprovalRequest) : string := stringField "mode" (RequestedScope ap).

Definition egressHoldWindow (ap : ApprovalRequest) : Z :=
  let secs := fieldOf asInt 0 "hold_seconds" (default [] (members (RequestedScope ap))) in
  let w := wrap64 (secs * second) in
  if (secs >=? 1) && (w <=? HoldWindowPush) then w else HoldWindowEgress.

Definition holdStart (ap : ApprovalRequest) : Z :=
  match LastRejoinedAt ap with Some t => if t >? RequestedAt ap then t else RequestedAt ap | None => RequestedAt ap end.

Definition boundedHold (start now window : Z) : bool * Z := (now <? start + window, start + window).

Definition Hold (ap : ApprovalRequest) (now : Z) : bool * Z :=
  if negb (bool_decide (aState ap = ApprovalPending)) then (false, 0)
  else if String.eqb (TallyKey ap) TallyToolCallADO then boundedHold (holdStart ap) now HoldWindowADOCapability
  else match aKind ap with
       | ApprovalToolCall | ApprovalCredentialReauth | ApprovalHumanTakeover => (true, 0)
       | ApprovalPushContent => boundedHold (holdStart ap) now HoldWindowPush
       | _ => if negb (String.eqb (approvalMode ap) "wait_for_review") then (false, 0)
              else boundedHold (holdStart ap) now (egressHoldWindow ap)
       end.
End Rows.
