(* ===== verification/ScopeSound.v ===== *)
(** * What the approval service deduplicates by

    The rewriting of a scope's numbers, done on its text, is the rewriting of the
    numbers of its value; and the text [scopeHash] digests is the run, the kind and
    that value, nothing more and nothing less. *)
From S2P Require Import Prelude GoStrings GoPath GoSlices Grants PushRules CanonNumber GoJSON GoJSONSound ApprovalScope.
Local Open Scope string_scope.
Local Open Scope Z_scope.
Local Open Scope list_scope.

(** ** The parser's progress and fuel *)

Lemma skipWS_len s : (String.length (skipWS s) <= String.length s)%nat.
Proof. unfold skipWS. induction s as [|c s IH]; [done|]. cbn. destruct (isWS c); cbn; lia. Qed.

Lemma expect_len c s r : expect c s = Some r -> String.length s = S (String.length r).
Proof. by intros ->%expect_spec. Qed.

Lemma scanString_len f s t r : scanString f s = Some (t, r) -> (String.length r < String.length s)%nat.
Proof.
  revert s t r. induction f as [|f IH]; intros s t r H; [done|]. destruct s as [|c s]; [done|]. cbn [scanString] in H. cbn [String.length].
  destruct (Ascii.eqb c dquote); [injection H as _ <-; lia|]. destruct (byte_of c <? 32); [done|].
  assert (Hput : forall out r1, (String.length r1 <= String.length s)%nat ->
    match scanString f r1 with Some (t, r2) => Some (out +:+ t, r2) | None => None end = Some (t, r) -> (String.length r < S (String.length s))%nat).
  { intros out r1 Hl E. destruct (scanString f r1) as [[u r2]|] eqn:Es; [|done]. injection E as _ <-. apply IH in Es. lia. }
  destruct (Ascii.eqb c bslash).
  - destruct s as [|e r1]; [done|]. cbn [String.length] in *. destruct (Ascii.eqb e "u").
    + destruct (unicodeEscape r1) as [[out r2]|] eqn:E; [|done]. eapply Hput, H. apply unicodeEscape_shorter in E. lia.
    + destruct (simpleEscape e) as [x|]; [|done]. eapply Hput, H. lia.
  - destruct (DecodeRune (String c s)) as [[rr ok] r1] eqn:E. eapply Hput, H. by eapply rune_shorter.
Qed.

Lemma numTok_nonempty n : numTok n -> n <> "".
Proof. intros [neg w ft et x Hw _ _]. destruct neg; [done|]. by destruct Hw. Qed.

Lemma literal_len s v r : literal literals s = Some (v, r) -> (String.length r < String.length s)%nat.
Proof.
  assert (H : forall w s r, expectAll w s = Some r -> (String.length r + String.length w = String.length s)%nat).
  { induction w as [|c w IH]; intros s0 r0 E; cbn in E; [injection E as ->; cbn; lia|]. destruct (expect c s0) eqn:Ex; [|done].
    apply expect_len in Ex. apply IH in E. cbn. lia. }
  unfold literals. cbn [literal]. repeat case_match; intros [= <- <-]; match goal with E : expectAll _ _ = Some _ |- _ => apply H in E; cbn in E; lia end.
Qed.

Lemma parse_len lim fuel :
  (forall d s v r, parseValue lim fuel d s = Some (v, r) -> (String.length r < String.length s)%nat) /\
  (forall d s l r, parseElems lim fuel d s = Some (l, r) -> (String.length r < String.length s)%nat) /\
  (forall d s m r, parseMembers lim fuel d s = Some (m, r) -> (String.length r < String.length s)%nat).
Proof.
  induction fuel as [|fuel (IHv & IHe & IHm)]; [done|]. split_and!; intros d s x r H.
  - cbn [parseValue] in H. pose proof (skipWS_len s) as Hs. destruct (skipWS s) as [|c r0] eqn:Es; [done|]. cbn [String.length] in Hs.
    destruct (Ascii.eqb c dquote).
    { destruct (scanString _ _) as [[t r1]|] eqn:E; [|done]. injection H as _ <-. apply scanString_len in E. lia. }
    destruct (Ascii.eqb c "[").
    { destruct (d >=? lim); [done|]. destruct (expect "]" _) eqn:Ex; [injection H as _ <-; apply expect_len in Ex; pose proof (skipWS_len r0); lia|].
      destruct (parseElems _ _ _ _) as [[l r1]|] eqn:E; [|done]. injection H as _ <-. apply IHe in E. lia. }
    destruct (Ascii.eqb c "{").
    { destruct (d >=? lim); [done|]. destruct (expect "}" _) eqn:Ex; [injection H as _ <-; apply expect_len in Ex; pose proof (skipWS_len r0); lia|].
      destruct (parseMembers _ _ _ _) as [[l r1]|] eqn:E; [|done]. injection H as _ <-. apply IHm in E. lia. }
    destruct (Ascii.eqb c "-" || is_digit c).
    + destruct (scanNumber _) as [[n r1]|] eqn:E; [|done]. injection H as _ <-. apply scan_inv in E as [Hn E].
      apply (f_equal String.length) in E. rewrite str_len_app in E. apply numTok_nonempty in Hn. destruct n; [done|]. cbn in E. lia.
    + apply literal_len in H. cbn in H. lia.
  - cbn [parseElems] in H. destruct (parseValue _ _ _ _) as [[v r0]|] eqn:E; [|done]. apply IHv in E. pose proof (skipWS_len r0).
    destruct (expect "]" _) eqn:Ex; [injection H as _ <-; apply expect_len in Ex; lia|]. destruct (expect "," _) eqn:Ec; [|done]. apply expect_len in Ec.
    destruct (parseElems _ _ _ _) as [[l r1]|] eqn:El; [|done]. injection H as _ <-. apply IHe in El. lia.
  - cbn [parseMembers] in H. destruct (expect dquote _) as [k0|] eqn:Eq; [|done]. apply expect_len in Eq. pose proof (skipWS_len s).
    destruct (scanString _ k0) as [[k r0]|] eqn:Ek; [|done]. apply scanString_len in Ek. destruct (expect ":" _) eqn:Ec; [|done]. apply expect_len in Ec. pose proof (skipWS_len r0).
    destruct (parseValue _ _ _ _) as [[v r1]|] eqn:E; [|done]. apply IHv in E. pose proof (skipWS_len r1).
    destruct (expect "}" _) eqn:Ex; [injection H as _ <-; apply expect_len in Ex; lia|]. destruct (expect "," _) eqn:Ecm; [|done]. apply expect_len in Ecm.
    destruct (parseMembers _ _ _ _) as [[m r2]|] eqn:Em; [|done]. injection H as _ <-. apply IHm in Em. lia.
Qed.

(** ** Literals and runs, as the rewriting copies them *)

(** Bytes that are neither a quote nor a backslash are copied one by one. *)
Definition plain (c : ascii) : bool := negb (Ascii.eqb c dquote || Ascii.eqb c bslash).

Lemma copyLit_plain a s : str_forall plain a = true -> copyLit (a +:+ s) = let '(x, y) := copyLit s in (a +:+ x, y).
Proof.
  induction a as [|c a IH]; intros H; [rewrite !str_app_nil_l; destruct (copyLit s); by rewrite str_app_nil_l|]. cbn in H. apply andb_prop in H as [Hc H].
  rewrite str_app_cons. cbn [copyLit]. unfold plain in Hc. apply negb_true_iff, orb_false_iff in Hc as [-> ->]. rewrite IH by done.
  destruct (copyLit s). by rewrite str_app_cons.
Qed.

(** A multi-byte rune has no ASCII byte. *)
Lemma rune_wide a rr : rune a rr -> (1 < String.length a)%nat -> str_forall (fun c => 128 <=? byte_of c) a = true.
Proof.
  intros [Hne Ha] Hl. specialize (Ha ""). rewrite str_app_nil_r in Ha. unfold DecodeRune in Ha. destruct a as [|c0 r0]; [done|]. cbn zeta in Ha.
  cbn [String.length] in Hl. destruct (Z.ltb_spec (byte_of c0) 128) as [_|E0]; [injection Ha as _ ->; cbn in Hl; lia|].
  assert (Hlo : forall n lo hi, runeShape (byte_of c0) = Some (n, lo, hi) -> 128 <= lo).
  { intros n lo hi. unfold runeShape. repeat case_match; intros [= <- <- <-]; lia. }
  destruct (runeShape (byte_of c0)) as [[[n lo] hi]|]; [|done]. specialize (Hlo _ _ _ eq_refl).
  repeat (case_match; try done); simplify_eq;
    repeat match goal with H : (_ && _)%bool = true |- _ => apply andb_prop in H as [? ?] | H : cont _ _ _ = true |- _ => apply cont_bounds in H end;
    cbn [str_forall]; rewrite !(proj2 (Z.leb_le _ _)) by lia; done.
Qed.

Lemma wide_plain a : str_forall (fun c => 128 <=? byte_of c) a = true -> str_forall plain a = true.
Proof. apply str_forall_impl. intros c H. each_byte c; (discriminate H || reflexivity). Qed.

(** A prefix without a quote ends before the first quote. *)
Lemma before_quote q z a b : q +:+ z = a +:+ String dquote b -> str_forall (fun c => negb (Ascii.eqb c dquote)) q = true -> exists a', a = q +:+ a'.
Proof.
  revert a. induction q as [|c q IH]; intros a E H; [by exists a|]. cbn in H. apply andb_prop in H as [Hc H]. rewrite str_app_cons in E.
  destruct a as [|x a]; [rewrite str_app_nil_l in E; injection E as -> _; done|]. rewrite str_app_cons in E. injection E as -> E.
  destruct (IH a E H) as [a' ->]. exists a'. by rewrite str_app_cons.
Qed.

Lemma plain_no_quote a : str_forall plain a = true -> str_forall (fun c => negb (Ascii.eqb c dquote)) a = true.
Proof. apply str_forall_impl. intros c. unfold plain. rewrite negb_orb. by intros [? _]%andb_prop. Qed.

Lemma hexRun_local n acc s z r : hexRun n acc s = Some (z, r) ->
  exists p, s = p +:+ r /\ str_forall plain p = true /\ forall r', hexRun n acc (p +:+ r') = Some (z, r').
Proof.
  revert acc s. induction n as [|n IH]; intros acc s H; cbn in H; [injection H as <- <-; exists ""; done|]. destruct s as [|c s]; [done|].
  destruct (hexDigitVal c) as [d|] eqn:E; [|done]. apply IH in H as (p & -> & Hp & Hr). exists (String c p). split_and!; [done| |].
  - cbn. rewrite Hp, andb_true_r. clear -E. each_byte c; (discriminate E || reflexivity).
  - intros r'. rewrite str_app_cons. cbn. by rewrite E.
Qed.

Lemma getu4_local s z r : getu4 s = Some (z, r) ->
  exists p, s = p +:+ r /\ str_forall (fun c => negb (Ascii.eqb c dquote)) p = true /\ (forall r', getu4 (p +:+ r') = Some (z, r')) /\
    forall r', copyLit (p +:+ r') = let '(x, y) := copyLit r' in (p +:+ x, y).
Proof.
  unfold getu4. destruct (expect bslash s) as [s1|] eqn:E1; [|done]. destruct (expect "u" s1) as [s2|] eqn:E2; [|done]. apply expect_spec in E1 as ->, E2 as ->.
  intros (p & -> & Hp & Hr)%hexRun_local. exists (String bslash (String "u" p)). split_and!; [done| | |].
  - cbn. by apply plain_no_quote.
  - intros r'. rewrite !str_app_cons. rewrite !expect_head. apply Hr.
  - intros r'. rewrite !str_app_cons. change (copyLit (String bslash (String "u" (p +:+ r')))) with (let '(a, b) := copyLit (p +:+ r') in (String bslash (String "u" a), b)).
    rewrite copyLit_plain by done. destruct (copyLit r'). by rewrite !str_app_cons.
Qed.

(** A text whose reading stops before the quote [raw] ends at. *)
Definition localAt (raw : string) (read : string -> option (string * string)) (out p : string) : Prop :=
  forall r', read (p +:+ raw +:+ String dquote r') = Some (out, raw +:+ String dquote r').

Lemma unicodeEscape_local s out r raw b : unicodeEscape s = Some (out, r) -> r = raw +:+ String dquote b ->
  exists p, s = p +:+ r /\ localAt raw unicodeEscape out p /\ forall r', copyLit (p +:+ r') = let '(x, y) := copyLit r' in (p +:+ x, y).
Proof.
  unfold unicodeEscape at 1. destruct (hexRun 4 0 s) as [[rr r0]|] eqn:E; [|done]. apply hexRun_local in E as (p & -> & Hp & Hr). intros H Er.
  assert (Hkeep : r0 = r -> out = encodeRune (if isSurrogate rr then RuneError else rr) ->
    (forall r', match getu4 (raw +:+ String dquote r') with
      | Some (rr1, _) => negb ((rr <? 56320) && (56320 <=? rr1) && (rr1 <=? 57343)) | None => true end = true \/ isSurrogate rr = false) ->
    exists p0, p +:+ r0 = p0 +:+ r /\ localAt raw unicodeEscape out p0 /\ forall r', copyLit (p0 +:+ r') = let '(x, y) := copyLit r' in (p0 +:+ x, y)).
  { intros -> -> Hg. exists p. split_and!; [done| |intros; by apply copyLit_plain]. intros r'. unfold unicodeEscape. rewrite Hr.
    destruct (isSurrogate rr) eqn:Es; [|done]. destruct (Hg r') as [Hg'|]; [|congruence]. destruct (getu4 (raw +:+ _)) as [[rr1 z]|]; [|done].
    apply negb_true_iff in Hg'. by rewrite Hg'. }
  destruct (isSurrogate rr) eqn:Es.
  2: { injection H as <- <-. apply Hkeep; [done|done|by right]. }
  destruct (getu4 r0) as [[rr1 r1]|] eqn:Eg.
  - destruct (_ && _ && _) eqn:Eb; injection H as <- <-.
    + apply getu4_local in Eg as (q & -> & _ & Hq & Hc). exists (p +:+ q). split_and!; [by rewrite str_app_assoc| |].
      * intros r'. rewrite <- str_app_assoc. unfold unicodeEscape. by rewrite Hr, Es, Hq, Eb.
      * intros r'. rewrite <- str_app_assoc, copyLit_plain, Hc by done. destruct (copyLit r'). by rewrite str_app_assoc.
    + apply Hkeep; [done|done|]. intros r'. left. destruct (getu4 (raw +:+ String dquote r')) as [[rr1' z]|] eqn:Eg'; [|done].
      apply getu4_local in Eg' as (q & Eq & Hnq & Hq & _). symmetry in Eq. destruct (before_quote _ _ _ _ Eq Hnq) as [a' ->].
      rewrite Er, <- str_app_assoc, Hq in Eg. injection Eg as -> _. by rewrite Eb.
  - injection H as <- <-. apply Hkeep; [done|done|]. intros r'. left.
    destruct (getu4 (raw +:+ String dquote r')) as [[rr1' z]|] eqn:Eg'; [|done].
    apply getu4_local in Eg' as (q & Eq & Hnq & Hq & _). symmetry in Eq. destruct (before_quote _ _ _ _ Eq Hnq) as [a' ->].
    rewrite Er, <- str_app_assoc, Hq in Eg. done.
Qed.

Lemma decode_bad c s rr r : DecodeRune (String c s) = (rr, false, r) -> r = s /\ byte_of c <? 128 = false.
Proof. unfold DecodeRune. cbn zeta. repeat case_match; intros [= <- <-]; done. Qed.

(** A literal: its raw text up to the closing quote, which reads the same and is
    copied the same whatever follows. *)
Lemma literal_local f s t r : scanString f s = Some (t, r) ->
  exists raw, s = raw +:+ String dquote r /\
    (forall r', copyLit (raw +:+ String dquote r') = (raw +:+ String dquote "", r')) /\
    (forall r' g, (String.length (raw +:+ String dquote r') < g)%nat -> scanString g (raw +:+ String dquote r') = Some (t, r')).
Proof.
  revert s t r. induction f as [|f IH]; intros s t r H; [done|]. destruct s as [|c s]; [done|]. cbn [scanString] in H.
  destruct (Ascii.eqb c dquote) eqn:Eq.
  { injection H as <- <-. apply Ascii.eqb_eq in Eq as ->. exists "". split_and!; [done|done|]. intros r' [|g] Hg; [lia|]. done. }
  destruct (byte_of c <? 32) eqn:Ectl; [done|].
  assert (Hput : forall out r1, match scanString f r1 with Some (t, r2) => Some (out +:+ t, r2) | None => None end = Some (t, r) ->
    exists raw1 t1, t = out +:+ t1 /\ r1 = raw1 +:+ String dquote r /\ (forall r', copyLit (raw1 +:+ String dquote r') = (raw1 +:+ String dquote "", r')) /\
      (forall r' g, (String.length (raw1 +:+ String dquote r') < g)%nat -> scanString g (raw1 +:+ String dquote r') = Some (t1, r'))).
  { intros out r1 E. destruct (scanString f r1) as [[u r2]|] eqn:Es; [|done]. injection E as <- ->. destruct (IH _ _ _ Es) as (raw1 & ? & ? & ?). by exists raw1, u. }
  destruct (Ascii.eqb c bslash) eqn:Eb.
  - apply Ascii.eqb_eq in Eb as ->. destruct s as [|e r1]; [done|]. destruct (Ascii.eqb e "u") eqn:Eu.
    + apply Ascii.eqb_eq in Eu as ->. destruct (unicodeEscape r1) as [[out r2]|] eqn:E; [|done].
      destruct (Hput _ _ H) as (raw1 & t1 & -> & Er & Hc & Hs). destruct (unicodeEscape_local _ _ _ _ _ E Er) as (p & -> & Hp & Hcp).
      exists (String bslash (String "u" (p +:+ raw1))). split_and!.
      * rewrite Er. by rewrite !str_app_cons, str_app_assoc.
      * intros r'. rewrite !str_app_cons, <- !str_app_assoc. change (copyLit (String bslash (String "u" ?x))) with (let '(a, b) := copyLit x in (String bslash (String "u" a), b)).
        by rewrite Hcp, Hc.
      * intros r' [|g] Hg; [lia|]. rewrite !str_app_cons, <- str_app_assoc in Hg |- *. cbn [scanString]. change (Ascii.eqb bslash dquote) with false.
        change (byte_of bslash <? 32) with false. change (Ascii.eqb bslash bslash) with true. change (Ascii.eqb "u" "u") with true. cbn match.
        rewrite (Hp r'). rewrite Hs; [done|]. cbn in Hg. rewrite str_len_app in Hg. lia.
    + destruct (simpleEscape e) as [x|] eqn:E; [|done]. destruct (Hput _ _ H) as (raw1 & t1 & -> & -> & Hc & Hs).
      exists (String bslash (String e raw1)). split_and!; [done| |].
      * intros r'. rewrite !str_app_cons. change (copyLit (String bslash (String e ?x))) with (let '(a, b) := copyLit x in (String bslash (String e a), b)). by rewrite Hc.
      * intros r' [|g] Hg; [lia|]. rewrite !str_app_cons in Hg |- *. cbn [scanString]. change (Ascii.eqb bslash dquote) with false.
        change (byte_of bslash <? 32) with false. change (Ascii.eqb bslash bslash) with true. cbn match. rewrite Eu, E. rewrite Hs; [done|]. cbn in Hg. lia.
  - assert (Hplain : plain c = true) by (unfold plain; by rewrite Eq, Eb).
    destruct (DecodeRune (String c s)) as [[rr ok] r1] eqn:E. destruct (Hput _ _ H) as (raw1 & t1 & -> & -> & Hc & Hs). destruct ok.
    + apply decode_ok in E as (a & Ea & Ha). rewrite Ea, upTo_app. destruct a as [|c' a]; [by destruct Ha|]. rewrite str_app_cons in Ea. injection Ea as <- ->.
      assert (Hpl : str_forall plain (String c a) = true).
      { destruct a; [cbn; by rewrite Hplain|]. apply wide_plain, (rune_wide _ rr); [done|cbn; lia]. }
      exists (String c a +:+ raw1). split_and!; [by rewrite <- str_app_assoc| |].
      * intros r'. rewrite <- str_app_assoc, copyLit_plain, Hc by done. by rewrite str_app_assoc.
      * intros r' [|g] Hg; [lia|]. rewrite <- str_app_assoc in Hg |- *. rewrite str_app_cons in Hg |- *. cbn [scanString]. rewrite Eq, Ectl, Eb.
        rewrite <- str_app_cons, (proj2 Ha), upTo_app. rewrite Hs; [done|]. cbn in Hg. rewrite str_len_app in Hg. lia.
    + destruct (decode_bad _ _ _ _ E) as [<- Hw]. exists (String c raw1). split_and!; [done| |].
      * intros r'. rewrite str_app_cons. change (String c ?x) with (String c "" +:+ x). rewrite copyLit_plain, Hc by (cbn; by rewrite Hplain). done.
      * intros r' [|g] Hg; [lia|]. rewrite str_app_cons in Hg |- *. cbn [scanString]. rewrite Eq, Ectl, Eb.
        destruct (DecodeRune (String c (raw1 +:+ String dquote r'))) as [[rr' ok'] z] eqn:E'. destruct ok'.
        { exfalso. apply decode_ok in E' as (a & Ea & Ha). destruct a as [|c' a]; [by destruct Ha|]. pose proof Ea as Ea'. rewrite str_app_cons in Ea'. injection Ea' as <- Ez.
          assert (Hpl : str_forall plain (String c a) = true).
          { destruct a; [cbn; by rewrite Hplain|]. apply wide_plain, (rune_wide _ rr'); [done|cbn; lia]. }
          symmetry in Ez. apply before_quote in Ez as [a' ->]; [|apply plain_no_quote; cbn in Hpl; by apply andb_prop in Hpl as [_ ?]].
          rewrite <- str_app_assoc, <- str_app_cons, (proj2 Ha) in E. done. }
        destruct (decode_bad _ _ _ _ E') as [-> _]. rewrite Hs; [done|]. cbn in Hg. lia.
Qed.

(** ** The rewriting, token by token *)

Lemma numByte_numChar c : numByte c = numChar c.
Proof. each_byte c; reflexivity. Qed.

Lemma copyLit_len s : (String.length (snd (copyLit s)) <= String.length s)%nat.
Proof.
  assert (H : forall n s, (String.length s <= n)%nat -> (String.length (snd (copyLit s)) <= String.length s)%nat); [|by eapply H].
  clear. induction n as [|n IH]; intros [|c s] Hs; cbn in Hs; try (cbn; lia). cbn [copyLit]. destruct (Ascii.eqb c dquote); [cbn; lia|].
  destruct (Ascii.eqb c bslash); [destruct s as [|e s]; [cbn; lia|]; cbn in Hs; specialize (IH s ltac:(lia)); destruct (copyLit s); cbn in *; lia|].
  specialize (IH s ltac:(lia)). destruct (copyLit s). cbn in *. lia.
Qed.

Lemma numberRun_len s : (String.length (snd (numberRun s)) <= String.length s)%nat.
Proof. induction s as [|c s IH]; [done|]. cbn [numberRun]. destruct (numByte c); [|cbn; lia]. destruct (numberRun s). cbn in *. lia. Qed.

Lemma rewriteFrom_fuel f f' s : (String.length s <= f)%nat -> (String.length s <= f')%nat -> rewriteFrom f s = rewriteFrom f' s.
Proof.
  revert f' s. induction f as [|f IH]; intros [|f'] [|c s] Hf Hf'; try done; [cbn in Hf; lia|cbn in Hf'; lia|]. cbn in Hf, Hf'. cbn [rewriteFrom].
  destruct (Ascii.eqb c dquote).
  { pose proof (copyLit_len s). destruct (copyLit s) as [lit r]. cbn in H. by rewrite (IH f' r) by lia. }
  destruct (Ascii.eqb c "-" || is_digit c) eqn:E; [|by rewrite (IH f' s) by lia]. cbn [numberRun].
  assert (numByte c = true) as -> by (clear -E; each_byte c; (discriminate E || reflexivity)).
  pose proof (numberRun_len s). destruct (numberRun s) as [n r]. cbn in H. by rewrite (IH f' r) by lia.
Qed.

(** A byte that starts neither a literal nor a number. *)
Definition neutral (c : ascii) : bool := negb (Ascii.eqb c dquote || Ascii.eqb c "-" || is_digit c).

Lemma rw_neutral c s : neutral c = true -> rewriteNumbers (String c s) = String c (rewriteNumbers s).
Proof.
  unfold neutral, rewriteNumbers. rewrite negb_true_iff, !orb_false_iff. intros [[H1 H2] H3]. cbn [String.length rewriteFrom]. by rewrite H1, H2, H3.
Qed.

Lemma rw_literal raw r : copyLit (raw +:+ String dquote r) = (raw +:+ String dquote "", r) ->
  rewriteNumbers (String dquote (raw +:+ String dquote r)) = String dquote (raw +:+ String dquote (rewriteNumbers r)).
Proof.
  intros H. unfold rewriteNumbers. cbn [String.length rewriteFrom]. change (Ascii.eqb dquote dquote) with true. cbn match. rewrite H.
  rewrite <- str_app_assoc, str_app_cons, str_app_nil_l. do 3 f_equal. apply rewriteFrom_fuel; [|lia]. rewrite str_len_app. cbn. lia.
Qed.

Lemma numberRun_app n r : str_forall numByte n = true -> headNot numByte r -> numberRun (n +:+ r) = (n, r).
Proof.
  induction n as [|c n IH]; intros Hn Hr; [rewrite str_app_nil_l; destruct r as [|c r]; [done|]; cbn in Hr |- *; by rewrite Hr|].
  cbn in Hn. apply andb_prop in Hn as [Hc Hn]. rewrite str_app_cons. cbn [numberRun]. by rewrite Hc, IH.
Qed.

Lemma digits_numBytes s : digitsOf s -> str_forall numByte s = true.
Proof. apply str_forall_impl. intros c H. each_byte c; (discriminate H || reflexivity). Qed.

Lemma numTok_numBytes n : numTok n -> str_forall numByte n = true.
Proof.
  intros [neg w ft et x Hw Hf He]. rewrite !str_forall_app.
  assert (str_forall numByte w = true) as -> by (destruct Hw as [|c ds Hc _ Hds]; [done|]; apply digits_numBytes; unfold digitsOf; cbn; by rewrite Hc).
  assert (str_forall numByte ft = true) as -> by (destruct Hf as [|f _ Hfd]; [done|]; rewrite str_forall_app, (digits_numBytes f); done).
  assert (str_forall numByte et = true) as -> by (destruct He as [|e sg ds He' Hs _ Hd]; [done|]; rewrite !str_forall_app, (digits_numBytes ds) by done;
    destruct He' as [-> | ->], Hs as [-> | [-> | ->]]; done). by destruct neg.
Qed.

Lemma headNot_numByte r : headNot numChar r <-> headNot numByte r.
Proof. destruct r as [|c r]; [done|]. cbn. by rewrite numByte_numChar. Qed.

Lemma numTok_head n : numTok n -> exists c r, n = String c r /\ Ascii.eqb c "-" || is_digit c = true /\ neutral c = false /\ Ascii.eqb c dquote = false.
Proof.
  intros [neg w ft et x Hw _ _]. destruct neg; [by eexists _, _|]. destruct Hw as [|c ds Hc _ _]; [by eexists _, _|]. eexists _, _.
  rewrite str_app_nil_l, str_app_cons. split; [done|]. unfold neutral. rewrite Hc, !orb_true_r. split_and!; [done|done|]. clear -Hc. each_byte c; (discriminate Hc || reflexivity).
Qed.

Lemma rw_number n r : numTok n -> headNot numChar r -> rewriteNumbers (n +:+ r) = canonicalNumber n +:+ rewriteNumbers r.
Proof.
  intros Hn Hr. destruct (numTok_head n Hn) as (c & s & En & Hc & _ & Hq). pose proof (numberRun_app n r (numTok_numBytes n Hn) (proj1 (headNot_numByte r) Hr)) as Hrun.
  unfold rewriteNumbers. rewrite En, str_app_cons in *. cbn [String.length rewriteFrom]. rewrite Hq, Hc, Hrun. f_equal.
  apply rewriteFrom_fuel; [|lia]. rewrite str_len_app. lia.
Qed.

Lemma rw_nil : rewriteNumbers "" = "".
Proof. done. Qed.

(** White space and the expected bytes come through. *)
Lemma isWS_neutral c : isWS c = true -> neutral c = true.
Proof. intros H. each_byte c; (discriminate H || reflexivity). Qed.

Lemma numTok_opens n : numTok n -> exists c r, n = String c r /\ opens c = true.
Proof. intros Hn. apply (Marshal_head (JNum n)). by constructor. Qed.

Lemma rw_skip s : skipWS (rewriteNumbers s) = skipWS (rewriteNumbers (skipWS s)).
Proof.
  unfold skipWS. induction s as [|c s IH]; [done|]. cbn [trimLeftFunc]. destruct (isWS c) eqn:Ec; [|done].
  rewrite rw_neutral by (by apply isWS_neutral). cbn [trimLeftFunc]. by rewrite Ec.
Qed.

Lemma rw_expect c s r : neutral c = true -> isWS c = false -> expect c (skipWS s) = Some r -> skipWS (rewriteNumbers s) = String c (rewriteNumbers r).
Proof. intros Hn Hw H%expect_spec. rewrite rw_skip, H, rw_neutral by done. unfold skipWS. cbn. by rewrite Hw. Qed.

Lemma ends_expect c s r : numChar c = false -> expect c (skipWS s) = Some r -> ends s.
Proof.
  intros Hc H%expect_spec. unfold ends. destruct s as [|x s]; [done|]. unfold skipWS in H. cbn in H |- *.
  destruct (isWS x) eqn:Ex; [clear -Ex; each_byte x; (discriminate Ex || reflexivity)|]. by injection H as -> _.
Qed.

Lemma literals_rw s v r : literal literals s = Some (v, r) -> literal literals (rewriteNumbers s) = Some (v, rewriteNumbers r) /\ canonicalNumbers v = v.
Proof.
  assert (Hneutral : forall w s, str_forall neutral w = true -> rewriteNumbers (w +:+ s) = w +:+ rewriteNumbers s).
  { induction w as [|c w IH]; intros x Hw; [done|]. cbn in Hw. apply andb_prop in Hw as [Hc Hw]. rewrite !str_app_cons, rw_neutral by done. by rewrite IH. }
  assert (Hall : forall w s r, expectAll w s = Some r -> s = w +:+ r).
  { induction w as [|c w IH]; intros x y E; cbn in E; [injection E as ->; by rewrite str_app_nil_l|]. destruct (expect c x) eqn:Ex; [|done].
    apply expect_spec in Ex as ->. rewrite str_app_cons. by rewrite (IH _ _ E). }
  assert (Hhit : forall w x, expectAll w (w +:+ x) = Some x).
  { induction w as [|c w IH]; intros x; [done|]. rewrite str_app_cons. cbn. rewrite Ascii.eqb_refl. apply IH. }
  unfold literals. cbn [literal].
  destruct (expectAll "true" s) eqn:E1; [intros [= <- <-]; apply Hall in E1 as ->; by rewrite Hneutral, Hhit|].
  destruct (expectAll "false" s) eqn:E2; [intros [= <- <-]; apply Hall in E2 as ->; by rewrite Hneutral, Hhit|].
  destruct (expectAll "null" s) eqn:E3; [intros [= <- <-]; apply Hall in E3 as ->; by rewrite Hneutral, Hhit|done].
Qed.

Lemma skipWS_head s c r : skipWS s = String c r -> isWS c = false.
Proof. unfold skipWS. induction s as [|y s IH]; [done|]. cbn. destruct (isWS y) eqn:Ey; [done|]. by intros [= <- _]. Qed.

Lemma skipWS_idem s : skipWS (skipWS s) = skipWS s.
Proof. destruct (skipWS s) as [|c r] eqn:E; [done|]. apply skipWS_head in E. unfold skipWS. cbn. by rewrite E. Qed.

(** Where a value starts. *)
Lemma value_opens lim f d s v r : parseValue lim f d s = Some (v, r) -> exists c x, skipWS s = String c x /\ opens c = true.
Proof.
  destruct f as [|f]; [done|]. cbn [parseValue]. destruct (skipWS s) as [|c x] eqn:Es; [done|]. intros H. exists c, x. split; [done|].
  pose proof (skipWS_head _ _ _ Es) as Hw.
  unfold opens. rewrite Hw. cbn [orb]. rewrite negb_true_iff, !orb_false_iff.
  split_and!; apply Ascii.eqb_neq; intros ->; vm_compute in H; discriminate H.
Qed.

(** ** The rewriting commutes with decoding *)

Section Rewrite.
Context (lim : Z).
Notation rw := rewriteNumbers.

Definition rwValue (f : nat) : Prop := forall d s v r, parseValue lim f d s = Some (v, r) -> ends r ->
  forall g, (2 * String.length (rw s) < g)%nat -> parseValue lim g d (rw s) = Some (canonicalNumbers v, rw r).
Definition rwElems (f : nat) : Prop := forall d s l r, parseElems lim f d s = Some (l, r) ->
  forall g, (2 * String.length (rw s) + 1 < g)%nat -> parseElems lim g d (rw s) = Some (map canonicalNumbers l, rw r).
Definition rwMembers (f : nat) : Prop := forall d s m r, parseMembers lim f d s = Some (m, r) ->
  forall g, (2 * String.length (rw s) + 1 < g)%nat -> parseMembers lim g d (rw s) = Some (map (fun kv => (fst kv, canonicalNumbers (snd kv))) m, rw r).

Lemma elems_step f : rwValue f -> rwElems f -> rwElems (S f).
Proof.
  intros IHv IHe d s l r H [|g] Hg; [lia|]. cbn [parseElems] in H |- *. destruct (parseValue lim f d s) as [[v r0]|] eqn:E; [|done].
  destruct (expect "]" (skipWS r0)) as [r1|] eqn:Ex.
  - injection H as <- <-. rewrite (IHv _ _ _ _ E (ends_expect "]" _ _ eq_refl Ex) g) by lia. by rewrite (rw_expect "]" _ _ eq_refl eq_refl Ex), expect_head.
  - destruct (expect "," (skipWS r0)) as [r1|] eqn:Ec; [|done]. destruct (parseElems lim f d r1) as [[l' r2]|] eqn:El; [|done]. injection H as <- <-.
    pose proof (IHv _ _ _ _ E (ends_expect "," _ _ eq_refl Ec) g ltac:(lia)) as Hv. rewrite Hv. apply parse_len in Hv.
    pose proof (rw_expect "," _ _ eq_refl eq_refl Ec) as Hr. rewrite Hr, expect_head. change (expect "]" (String "," ?x)) with (@None string). cbn match.
    pose proof (skipWS_len (rw r0)) as Hl. rewrite Hr in Hl. cbn in Hl. rewrite (IHe _ _ _ _ El g) by lia. done.
Qed.

Lemma members_step f : rwValue f -> rwMembers f -> rwMembers (S f).
Proof.
  intros IHv IHm d s m r H [|g] Hg; [lia|]. cbn [parseMembers] in H |- *. destruct (expect dquote (skipWS s)) as [k0|] eqn:Eq; [|done].
  destruct (scanString (S (String.length k0)) k0) as [[k r0]|] eqn:Ek; [|done]. destruct (literal_local _ _ _ _ Ek) as (raw & -> & Hc & Hs).
  assert (Hsk : skipWS (rw s) = String dquote (raw +:+ String dquote (rw r0))).
  { apply expect_spec in Eq. rewrite rw_skip, Eq, rw_literal by apply Hc. done. }
  pose proof (skipWS_len (rw s)) as Hl. rewrite Hsk in Hl |- *. rewrite expect_head, Hs by lia. cbn [String.length] in Hl. rewrite str_len_app in Hl. cbn [String.length] in Hl.
  destruct (expect ":" (skipWS r0)) as [r1|] eqn:Ec; [|done]. pose proof (rw_expect ":" _ _ eq_refl eq_refl Ec) as Hr1. rewrite Hr1, expect_head.
  pose proof (skipWS_len (rw r0)) as Hl0. rewrite Hr1 in Hl0. cbn [String.length] in Hl0.
  destruct (parseValue lim f d r1) as [[v r2]|] eqn:E; [|done]. destruct (expect "}" (skipWS r2)) as [r3|] eqn:Ex.
  - injection H as <- <-. rewrite (IHv _ _ _ _ E (ends_expect "}" _ _ eq_refl Ex) g) by lia. by rewrite (rw_expect "}" _ _ eq_refl eq_refl Ex), expect_head.
  - destruct (expect "," (skipWS r2)) as [r3|] eqn:Ecm; [|done]. destruct (parseMembers lim f d r3) as [[m' r4]|] eqn:Em; [|done]. injection H as <- <-.
    pose proof (IHv _ _ _ _ E (ends_expect "," _ _ eq_refl Ecm) g ltac:(lia)) as Hv. rewrite Hv. apply parse_len in Hv.
    pose proof (rw_expect "," _ _ eq_refl eq_refl Ecm) as Hr3. rewrite Hr3, expect_head. change (expect "}" (String "," ?x)) with (@None string). cbn match.
    pose proof (skipWS_len (rw r2)) as Hl2. rewrite Hr3 in Hl2. cbn in Hl2. rewrite (IHm _ _ _ _ Em g) by lia. done.
Qed.

Lemma elems_opens g d s l r c : parseElems lim g d s = Some (l, r) -> c = "]"%char \/ c = "}"%char \/ c = ","%char -> expect c (skipWS s) = None.
Proof.
  destruct g as [|g]; [done|]. cbn [parseElems]. destruct (parseValue lim g d s) as [[v r0]|] eqn:E; [|done]. intros _ Hc.
  destruct (value_opens _ _ _ _ _ _ E) as (x & y & Es & Ho). pose proof (expect_opens c x y Ho Hc) as H. rewrite <- Es in H.
  by rewrite skipWS_idem in H.
Qed.

Lemma members_opens g d s m r : parseMembers lim g d s = Some (m, r) -> expect "}" (skipWS s) = None.
Proof.
  destruct g as [|g]; [done|]. cbn [parseMembers]. destruct (expect dquote (skipWS s)) as [k|] eqn:E; [|done]. apply expect_spec in E as ->. done.
Qed.

Lemma value_step f : rwElems f -> rwMembers f -> rwValue (S f).
Proof.
  intros IHe IHm d s v r H He [|g] Hg; [lia|]. cbn [parseValue] in H |- *. rewrite rw_skip. destruct (skipWS s) as [|c r0] eqn:Es; [done|].
  assert (Hlen : (String.length (skipWS (rw (String c r0))) <= String.length (rw s))%nat) by (rewrite <- Es, <- rw_skip; apply skipWS_len).
  destruct (Ascii.eqb c dquote) eqn:Eq.
  { apply Ascii.eqb_eq in Eq as ->. destruct (scanString (S (String.length r0)) r0) as [[t r1]|] eqn:E; [|done]. injection H as <- <-.
    destruct (literal_local _ _ _ _ E) as (raw & -> & Hc & Hs). rewrite rw_literal by apply Hc.
    change (skipWS (String dquote ?x)) with (String dquote x). cbn match. change (Ascii.eqb dquote dquote) with true. cbn match. by rewrite Hs by lia. }
  destruct (Ascii.eqb c "[") eqn:Eb.
  { apply Ascii.eqb_eq in Eb as ->. rewrite rw_neutral in Hlen |- * by done. change (skipWS (String "[" ?x)) with (String "[" x) in *. cbn match. cbn [String.length] in Hlen.
    change (Ascii.eqb "[" dquote) with false. change (Ascii.eqb "[" "[") with true. cbn match. destruct (d >=? lim); [done|].
    destruct (expect "]" (skipWS r0)) as [r1|] eqn:Ex; [injection H as <- <-; by rewrite (rw_expect "]" _ _ eq_refl eq_refl Ex), expect_head|].
    destruct (parseElems lim f (d + 1) r0) as [[l r1]|] eqn:E; [|done]. injection H as <- <-. pose proof (IHe _ _ _ _ E g ltac:(lia)) as Hn.
    rewrite (elems_opens _ _ _ _ _ "]" Hn) by (by left). by rewrite Hn. }
  destruct (Ascii.eqb c "{") eqn:Ec.
  { apply Ascii.eqb_eq in Ec as ->. rewrite rw_neutral in Hlen |- * by done. change (skipWS (String "{" ?x)) with (String "{" x) in *. cbn match. cbn [String.length] in Hlen.
    change (Ascii.eqb "{" dquote) with false. change (Ascii.eqb "{" "[") with false. change (Ascii.eqb "{" "{") with true. cbn match. destruct (d >=? lim); [done|].
    destruct (expect "}" (skipWS r0)) as [r1|] eqn:Ex; [injection H as <- <-; by rewrite (rw_expect "}" _ _ eq_refl eq_refl Ex), expect_head|].
    destruct (parseMembers lim f (d + 1) r0) as [[l r1]|] eqn:E; [|done]. injection H as <- <-. pose proof (IHm _ _ _ _ E g ltac:(lia)) as Hn.
    rewrite (members_opens _ _ _ _ _ Hn). by rewrite Hn. }
  destruct (Ascii.eqb c "-" || is_digit c) eqn:En.
  { destruct (scanNumber (String c r0)) as [[n r1]|] eqn:E; [|done]. injection H as <- <-. apply scan_inv in E as [Hn ->].
    rewrite rw_number by done. pose proof (canonical_tok n Hn) as Hn'. assert (Hend : headNot numChar (rw r1)).
    { destruct r1 as [|x y]; [done|]. cbn in He. destruct (neutral x) eqn:Ex; [by rewrite rw_neutral|].
      destruct (Ascii.eqb_spec x dquote) as [->|Hx]; [|exfalso; clear -He Ex Hx; each_byte x; try discriminate He; try discriminate Ex; by apply Hx].
      unfold rewriteNumbers. cbn [String.length rewriteFrom]. change (Ascii.eqb dquote dquote) with true. cbn match. by destruct (copyLit y). }
    destruct (numTok_head _ Hn') as (c' & t & Et & Hc' & _ & Hq'). destruct (numTok_opens _ Hn') as (c'' & t' & Et' & Ho). rewrite Et in Et'. injection Et' as <- <-.
    pose proof (scan_tok _ (rw r1) Hn' Hend) as Hscan. cbn [canonicalNumbers].
    rewrite Et, str_app_cons in Hscan |- *. rewrite skipWS_opens by done. rewrite Hq'.
    assert (Ascii.eqb c' "[" = false /\ Ascii.eqb c' "{" = false) as [-> ->] by (clear -Hc'; each_byte c'; try discriminate Hc'; done).
    by rewrite Hc', Hscan. }
  destruct (literals_rw _ _ _ H) as [Hl ->]. assert (neutral c = true) by (unfold neutral; by rewrite Eq, <- orb_assoc, En).
  rewrite rw_neutral in Hl |- * by done. assert (Hws : isWS c = false) by (eapply skipWS_head; exact Es).
  unfold skipWS. cbn [trimLeftFunc]. rewrite Hws, Eq, Eb, Ec, En. exact Hl.
Qed.

Lemma rewrite_parse f : rwValue f /\ rwElems f /\ rwMembers f.
Proof.
  induction f as [|f (IHv & IHe & IHm)]; [split_and!; intros ? ? ? ? H; discriminate H|].
  split_and!; [by apply value_step|by apply elems_step|by apply members_step].
Qed.
End Rewrite.

Lemma decode_rewrite s v : decode s = Some v -> decode (rewriteNumbers s) = Some (canonicalNumbers v).
Proof.
  unfold decode, parse. destruct (parseValue _ _ _ s) as [[w r]|] eqn:E; [|done]. destruct (String.eqb_spec (skipWS r) "") as [Er|]; [|done]. intros [= <-].
  assert (He : ends r).
  { destruct r as [|x r]; [done|]. unfold skipWS in Er. cbn in Er |- *. destruct (isWS x) eqn:Ex; [clear -Ex; each_byte x; (discriminate Ex || reflexivity)|done]. }
  destruct (rewrite_parse maxNestingDepth (2 * String.length s + 1)) as (Hv & _). rewrite (Hv _ _ _ _ E He) by lia.
  rewrite rw_skip, Er. done.
Qed.

(** ** The deduplication key *)

Lemma canonicalNumbers_wf v : wf v -> wf (canonicalNumbers v).
Proof.
  induction v as [| |n| |l IH|m IH]; intros Hw; inversion Hw as [| |? Hn| |? Hl|? Hm]; subst; cbn [canonicalNumbers]; constructor; try done.
  - by apply canonical_tok.
  - clear Hw. induction Hl; constructor; apply Forall_cons in IH as [? ?]; auto.
  - clear Hw. induction Hm as [|[k v] m [Hk Hv] Hm' IH']; cbn; constructor; apply Forall_cons in IH as [? ?]; auto.
Qed.

Lemma canonicalNumbers_idem v : wf v -> canonicalNumbers (canonicalNumbers v) = canonicalNumbers v.
Proof.
  induction v as [| |n| |l IH|m IH]; intros Hw; inversion Hw as [| |? Hn| |? Hl|? Hm]; subst; cbn [canonicalNumbers]; f_equal.
  - destruct (tok_number n Hn) as (? & ? & ? & Hj). by eapply canonical_idem.
  - clear Hw. induction Hl; [done|]. apply Forall_cons in IH as [? ?]. cbn. f_equal; auto.
  - clear Hw. induction Hm as [|[k v] m [Hk Hv] Hm' IH']; [done|]. apply Forall_cons in IH as [? ?]. cbn in *. f_equal; [f_equal|]; auto.
Qed.

Notation canonMembers := (map (fun kv : string * json => (fst kv, canonicalNumbers (snd kv)))).

Lemma canon_putKey k v m : canonMembers (putKey k v m) = putKey k (canonicalNumbers v) (canonMembers m).
Proof. induction m as [|[k' v'] m IH]; [done|]. cbn. destruct (String.compare k k'); cbn; [done..|]. by rewrite IH. Qed.

Lemma canon_toAny v : canonicalNumbers (toAny v) = toAny (canonicalNumbers v).
Proof.
  induction v as [| | | |l IH|m IH]; try done; cbn [toAny canonicalNumbers]; f_equal.
  - induction IH; [done|]. cbn. by f_equal.
  - assert (H : forall acc, canonMembers (foldl (fun acc kv => putKey (fst kv) (snd kv) acc) acc (map (fun kv => (fst kv, toAny (snd kv))) m)) =
      foldl (fun acc kv => putKey (fst kv) (snd kv) acc) (canonMembers acc) (map (fun kv => (fst kv, toAny (snd kv))) (canonMembers m))); [|apply H].
    induction IH as [|[k v] m Hv _ IH]; intros acc; [done|]. cbn in *. by rewrite IH, canon_putKey, Hv.
Qed.

(** The value a scope stands for: its last members, its numbers by value. *)
Definition scopeValue (scope : string) : option json := option_map (fun v => canonicalNumbers (toAny v)) (decode scope).

Lemma kindText_bar k : str_has "|" (kindText k) = false.
Proof. by destruct k. Qed.
Lemma kindText_inj k k' : kindText k = kindText k' -> k = k'.
Proof. by destruct k, k'. Qed.

Lemma canonicalScope_value s : scopeValue (canonicalScope s) = scopeValue s.
Proof.
  unfold canonicalScope, Valid. destruct (decode s) as [v|] eqn:E; [|done]. unfold scopeValue. rewrite E, (decode_rewrite s v E). cbn. f_equal.
  rewrite <- canon_toAny. apply canonicalNumbers_idem, toAny_wf. by eapply decode_wf.
Qed.

Lemma scopeText_value s : Valid s = true -> exists v, wf v /\ scopeValue s = Some v /\ scopeNorm s = Marshal v.
Proof.
  unfold Valid, scopeValue, scopeNorm. destruct (decode s) as [v|] eqn:E; [|done]. intros _. eexists. split_and!; [|done|done].
  apply canonicalNumbers_wf, toAny_wf. by eapply decode_wf.
Qed.

Lemma canonicalScope_valid s : Valid s = true -> Valid (canonicalScope s) = true.
Proof. intros H. unfold canonicalScope. rewrite H. unfold Valid in *. destruct (decode s) as [v|] eqn:E; [|done]. by rewrite (decode_rewrite s v E). Qed.

Lemma scopeText_iff r1 r2 k1 k2 s1 s2 : String.length r1 = String.length r2 -> Valid s1 = true -> Valid s2 = true ->
  scopeText r1 k1 s1 = scopeText r2 k2 s2 <-> r1 = r2 /\ k1 = k2 /\ scopeValue s1 = scopeValue s2.
Proof.
  intros Hl H1 H2. destruct (scopeText_value s1 H1) as (v1 & W1 & V1 & N1). destruct (scopeText_value s2 H2) as (v2 & W2 & V2 & N2).
  unfold scopeText. rewrite N1, N2, V1, V2. split; [|by intros (-> & -> & [= ->])].
  intros E. destruct (str_app_len_inj _ _ _ _ Hl E) as [-> E2]. change ("|" +:+ ?x) with (String "|" x) in E2. injection E2 as E2.
  change ("|" +:+ Marshal v1) with (String "|" (Marshal v1)) in E2. change ("|" +:+ Marshal v2) with (String "|" (Marshal v2)) in E2.
  pose proof (cutByte_at "|" (kindText k1) (Marshal v1) (kindText_bar k1)) as C1. pose proof (cutByte_at "|" (kindText k2) (Marshal v2) (kindText_bar k2)) as C2.
  rewrite E2, C2 in C1. injection C1 as Ek Em. apply kindText_inj in Ek. split_and!; [done..|]. f_equal. by apply Marshal_inj.
Qed.

(** C33: the approval service deduplicates by value: the text its hash digests is
    the same for two raises exactly when the run, the kind and the value of the
    requested scope are the same, whatever the order or repetition of members, the
    escapes and white space, or the spelling of numbers; and the spelling the
    insert carries has the same value and digests to the same text. *)
Theorem dedup_key_is_the_value r1 r2 k1 k2 s1 s2 :
  String.length r1 = String.length r2 -> Valid s1 = true -> Valid s2 = true ->
  (scopeText r1 k1 s1 = scopeText r2 k2 s2 <-> r1 = r2 /\ k1 = k2 /\ scopeValue s1 = scopeValue s2) /\
  scopeValue (canonicalScope s1) = scopeValue s1 /\ scopeText r1 k1 (canonicalScope s1) = scopeText r1 k1 s1.
Proof.
  intros Hl H1 H2. split_and!; [by apply scopeText_iff|apply canonicalScope_value|].
  apply scopeText_iff; [done|by apply canonicalScope_valid|done|]. split_and!; [done..|apply canonicalScope_value].
Qed.

(** Single quotes for double ones, to write scopes down. *)
Definition q (s : string) : string := str_map (fun c => if Ascii.eqb c "'" then dquote else c) s.
Definition scopeA : string := q "{'host': 'a.example', 'port': 443.0, 'n': [1e1, true]}".
Definition scopeB : string := q "{'n':[10,true],'port':1,'port':443,'host':'\u0061.example'}".

Lemma dedup_key_is_the_value_witness :
  scopeText "run" ApprovalEgressDomain scopeA = scopeText "run" ApprovalEgressDomain scopeB /\
  canonicalScope scopeA = q "{'host': 'a.example', 'port': 443, 'n': [10, true]}" /\
  scopeText "run" ApprovalEgressDomain scopeA <> scopeText "run" ApprovalToolCall scopeA.
Proof.
  split_and!; [|by vm_compute|].
  - apply (proj1 (dedup_key_is_the_value "run" "run" ApprovalEgressDomain ApprovalEgressDomain scopeA scopeB eq_refl ltac:(by vm_compute) ltac:(by vm_compute))).
    split; [done|]. split; [done|by vm_compute].
  - intros E. apply (proj1 (dedup_key_is_the_value "run" "run" ApprovalEgressDomain ApprovalToolCall scopeA scopeA eq_refl ltac:(by vm_compute) ltac:(by vm_compute))) in E.
    by destruct E as (_ & ? & _).
Defined.
