(* ===== verification/ApprovalStore.v ===== *)
(** * The approvals table

    The writes of the control plane to the approvals table ([store.go],
    [store_approval_rejoin.go], [store_approvals_for_runs.go],
    [store_approval_once.go], [store_approval_takeover.go], [store_reauth.go] of
    [src/internal/store]), each one SQL statement, as functions on the table; and
    what holds of the table under any sequence of them.

    [jsonb] is the text Postgres gives back for a JSON text it was given, if it
    takes it; the partial unique index compares that text. The expiry of a row is
    computed on read from its run's wait and end. *)
From S2P Require Import Prelude GoStrings GoPath GoSlices Grants PushRules CanonNumber GoJSON GoJSONSound ApprovalScope ScopeSound.
Local Open Scope string_scope.
Local Open Scope Z_scope.
Local Open Scope list_scope.

Inductive storeErr := ErrNotFound | ErrAlreadyDecided | ErrDuplicatePending | ErrTakeoverNotHolder | StoreErr (what : string).

(** A run's wait budget in seconds and its end. *)
Record runTimes := mkTimes { waitBudgetSec : Z; endsAt : option Z }.
Record store := mkStore { approvals : gmap string ApprovalRequest; agentRuns : gmap string runTimes }.

Record ApprovalDecision := mkDecision { dState : ApprovalState; dBy : string; dReason : string; dScope : string; dExpires : option Z; dPolicy : option string }.

Definition least (a b : option Z) : option Z :=
  match a, b with Some x, Some y => Some (Z.min x y) | Some x, None => Some x | None, y => y end.

(** [approvalExpiresAtSQL]. *)
Definition expiresOf (s : store) (a : ApprovalRequest) : option Z :=
  match agentRuns s !! RunID a with
  | None => None
  | Some t => least (if waitBudgetSec t =? 0 then None else Some (RequestedAt a + waitBudgetSec t * second)) (endsAt t)
  end.

Definition withExpires (a : ApprovalRequest) (e : option Z) : ApprovalRequest :=
  mkApproval (ID a) (RunID a) (GrantID a) (aKind a) (RequestedScope a) (aState a) (RequestedAt a) (DecidedAt a) (DecidedBy a) (MintedJTI a) (aReason a)
    (DecisionScope a) (DecisionExpiresAt a) e (LastRejoinedAt a) (TakeoverHolder a) (HandedBackAt a).
Definition readRow (s : store) (a : ApprovalRequest) : ApprovalRequest := withExpires a (expiresOf s a).

Definition setRow (s : store) (a : ApprovalRequest) : store := mkStore (<[ID a := a]> (approvals s)) (agentRuns s).
Definition pending (a : ApprovalRequest) : bool := bool_decide (aState a = ApprovalPending).

(** What Postgres promises of a [jsonb] column: it gives back a text of the value
    it was given, and one text per decoded value. *)
Class Jsonb (jsonb : string -> option string) : Prop := {
  jsonb_value : forall s t, jsonb s = Some t -> Valid t = true /\ scopeValue t = scopeValue s;
  jsonb_same : forall s s' v v' t t', decode s = Some v -> decode s' = Some v' -> toAny v = toAny v' -> jsonb s = Some t -> jsonb s' = Some t' -> t = t';
}.

Section Table.
Context (jsonb : string -> option string).

(** ** The statements *)

(** The two partial unique indexes: on (run, kind, sha256 of the scope as stored),
    the digest taken as free of collisions, and on the grant of a credential
    request. *)
Definition clash (a b : ApprovalRequest) : bool :=
  pending a && pending b && bool_decide (aKind a = aKind b) &&
  match aKind a with
  | ApprovalCredential => match GrantID a, GrantID b with Some g, Some h => String.eqb g h | _, _ => false end
  | _ => String.eqb (RunID a) (RunID b) && String.eqb (RequestedScope a) (RequestedScope b)
  end.

Definition conflicts (s : store) (a : ApprovalRequest) : bool :=
  bool_decide (is_Some (approvals s !! ID a)) || existsb (fun kb => clash a (snd kb)) (map_to_list (approvals s)).

(** The row an insert writes: the decision columns at their defaults. *)
Definition inserted (a : ApprovalRequest) (scope : string) : ApprovalRequest :=
  mkApproval (ID a) (RunID a) (GrantID a) (aKind a) scope (aState a) (RequestedAt a) (DecidedAt a) (DecidedBy a) (MintedJTI a) (aReason a)
    "" None None None "" None.

(** [json.Marshal] of a raw message; the empty text stands for an absent one. *)
Definition marshalRaw (s : string) : option string :=
  if String.eqb s "" then Some "null" else if Valid s then Some s else None.

Definition CreateApproval (a : ApprovalRequest) (s : store) : (storeErr + ApprovalRequest) * store :=
  match marshalRaw (RequestedScope a) with
  | None => (inl (StoreErr "marshal approval scope"), s)
  | Some text =>
      match jsonb text with
      | None => (inl (StoreErr "invalid jsonb"), s)
      | Some scope =>
          let row := inserted a scope in
          if conflicts s row then (inl ErrDuplicatePending, s)
          else let s' := setRow s row in (inr (readRow s' row), s')
      end
  end.

Definition GetApproval (id : string) (s : store) : storeErr + ApprovalRequest :=
  match approvals s !! id with Some a => inr (readRow s a) | None => inl ErrNotFound end.

Definition decided (a : ApprovalRequest) (d : ApprovalDecision) (at_ : Z) : ApprovalRequest :=
  mkApproval (ID a) (RunID a) (GrantID a) (aKind a) (RequestedScope a) (dState d) (RequestedAt a) (Some at_) (dBy d) (MintedJTI a) (dReason d)
    (dScope d) (dExpires d) (ExpiresAt a) (LastRejoinedAt a) (TakeoverHolder a) (HandedBackAt a).

(** A person's decision lands on a row that has not expired; the sweeper's and the
    cascade's land on any PENDING row. *)
Definition mayDecide (s : store) (a : ApprovalRequest) (d : ApprovalDecision) (at_ : Z) : bool :=
  pending a &&
  (((bool_decide (dState d = ApprovalExpired) || bool_decide (dState d = ApprovalCancelled)) && String.eqb (dBy d) "system")
   || match expiresOf s a with Some e => e >? at_ | None => true end).

Definition DecideApproval (id : string) (d : ApprovalDecision) (at_ : Z) (s : store) : (storeErr + ApprovalRequest) * store :=
  match approvals s !! id with
  | None => (inl ErrNotFound, s)
  | Some a =>
      if mayDecide s a d at_ then let s' := setRow s (decided a d at_) in (inr (readRow s' (decided a d at_)), s')
      else (inl ErrAlreadyDecided, s)
  end.

Definition rejoined (a : ApprovalRequest) (at_ : Z) : ApprovalRequest :=
  mkApproval (ID a) (RunID a) (GrantID a) (aKind a) (RequestedScope a) (aState a) (RequestedAt a) (DecidedAt a) (DecidedBy a) (MintedJTI a) (aReason a)
    (DecisionScope a) (DecisionExpiresAt a) (ExpiresAt a) (Some at_) (TakeoverHolder a) (HandedBackAt a).

Definition StampApprovalRejoin (id run : string) (k : ApprovalKind) (at_ : Z) (s : store) : option ApprovalRequest * store :=
  match approvals s !! id with
  | Some a =>
      if String.eqb (RunID a) run && bool_decide (aKind a = k) && pending a
      then let s' := setRow s (rejoined a at_) in (Some (readRow s' (rejoined a at_)), s') else (None, s)
  | None => (None, s)
  end.

Definition resolvedBy (a : ApprovalRequest) (d : ApprovalDecision) (at_ : Z) : ApprovalRequest :=
  mkApproval (ID a) (RunID a) (GrantID a) (aKind a) (RequestedScope a) (dState d) (RequestedAt a) (Some at_) (dBy d) (MintedJTI a) (dReason d)
    (DecisionScope a) (DecisionExpiresAt a) (ExpiresAt a) (LastRejoinedAt a) (TakeoverHolder a) (HandedBackAt a).

Definition ResolveReauthApproval (id : string) (d : ApprovalDecision) (at_ : Z) (s : store) : (storeErr + ApprovalRequest) * store :=
  match approvals s !! id with
  | Some a =>
      if pending a && bool_decide (aKind a = ApprovalCredentialReauth)
      then let s' := setRow s (resolvedBy a d at_) in (inr (readRow s' (resolvedBy a d at_)), s') else (inl ErrAlreadyDecided, s)
  | None => (inl ErrAlreadyDecided, s)
  end.

Definition minted (a : ApprovalRequest) (jti : string) : ApprovalRequest :=
  mkApproval (ID a) (RunID a) (GrantID a) (aKind a) (RequestedScope a) (aState a) (RequestedAt a) (DecidedAt a) (DecidedBy a) jti (aReason a)
    (DecisionScope a) (DecisionExpiresAt a) (ExpiresAt a) (LastRejoinedAt a) (TakeoverHolder a) (HandedBackAt a).

Definition SpendApprovalOnce (id jti : string) (s : store) : (storeErr + bool) * store :=
  if String.eqb jti "" then (inl (StoreErr "an empty jti would leave the approval unspent"), s)
  else match approvals s !! id with
       | Some a =>
           if String.eqb (MintedJTI a) "" && bool_decide (aState a = ApprovalApproved) && bool_decide (aKind a = ApprovalToolCall)
              && String.eqb (DecisionScope a) "once" && match GrantID a with Some _ => true | None => false end
           then (inr true, setRow s (minted a jti)) else (inr false, s)
       | None => (inr false, s)
       end.

Definition takenBy (a : ApprovalRequest) (holder : string) (at_ : Z) : ApprovalRequest :=
  mkApproval (ID a) (RunID a) (GrantID a) (aKind a) (RequestedScope a) ApprovalApproved (RequestedAt a)
    (if pending a then Some at_ else DecidedAt a) (if pending a then holder else DecidedBy a) (MintedJTI a) (aReason a)
    (DecisionScope a) (DecisionExpiresAt a) (ExpiresAt a) (LastRejoinedAt a) holder (HandedBackAt a).

Definition openTakeover (a : ApprovalRequest) : bool :=
  bool_decide (aKind a = ApprovalHumanTakeover) && bool_decide (aState a = ApprovalApproved) && bool_decide (HandedBackAt a = None).

Definition TakeOverApproval (id holder : string) (at_ : Z) (s : store) : (storeErr + (ApprovalRequest * string)) * store :=
  match approvals s !! id with
  | None => (inl ErrNotFound, s)
  | Some a =>
      if bool_decide (aKind a = ApprovalHumanTakeover) && negb (String.eqb (TakeoverHolder a) holder) && (pending a || openTakeover a)
      then let s' := setRow s (takenBy a holder at_) in (inr (readRow s' (takenBy a holder at_), TakeoverHolder a), s')
      else (inl ErrAlreadyDecided, s)
  end.

Definition handedBack (a : ApprovalRequest) (at_ : Z) : ApprovalRequest :=
  mkApproval (ID a) (RunID a) (GrantID a) (aKind a) (RequestedScope a) (aState a) (RequestedAt a) (DecidedAt a) (DecidedBy a) (MintedJTI a) (aReason a)
    (DecisionScope a) (DecisionExpiresAt a) (ExpiresAt a) (LastRejoinedAt a) (TakeoverHolder a) (Some at_).

Definition HandBackApproval (id holder : string) (at_ : Z) (s : store) : (storeErr + ApprovalRequest) * store :=
  match approvals s !! id with
  | None => (inl ErrNotFound, s)
  | Some a =>
      if openTakeover a
      then if String.eqb (TakeoverHolder a) holder
           then let s' := setRow s (handedBack a at_) in (inr (readRow s' (handedBack a at_)), s') else (inl ErrTakeoverNotHolder, s)
      else (inl ErrAlreadyDecided, s)
  end.

(** The reads. *)
Definition ListPendingApprovalsForRuns (run : string) (s : store) : list ApprovalRequest :=
  map (fun kv => readRow s (snd kv)) (List.filter (fun kv => pending (snd kv) && String.eqb (RunID (snd kv)) run) (map_to_list (approvals s))).

Definition stale (s : store) (now cutoff : Z) (a : ApprovalRequest) : bool :=
  pending a && ((RequestedAt a <=? cutoff) || match expiresOf s a with Some e => e <=? now | None => false end).

Definition rowIDLeb (a b : ApprovalRequest) : bool := String.leb (ID a) (ID b).

Definition ListExpiredPendingApprovals (now cutoff : Z) (after : string) (limit : nat) (s : store) : list ApprovalRequest :=
  firstn limit (map (readRow s) (sortBy rowIDLeb
    (List.filter (fun a => stale s now cutoff a && String.ltb after (ID a)) (map snd (map_to_list (approvals s)))))).

(** ** Any sequence of them *)

(** The broker's own insert, of a credential request; [requested_at] defaults to the
    database's clock. *)
Definition credentialRow (id run grant scope : string) (at_ : Z) : ApprovalRequest :=
  mkApproval id run (Some grant) ApprovalCredential scope ApprovalPending at_ None "" "" "" "" None None None "" None.

Definition insertCredentialApproval (id run grant scope : string) (at_ : Z) (s : store) : store :=
  match jsonb scope with
  | None => s
  | Some text => let row := credentialRow id run grant text at_ in if conflicts s row then s else setRow s row
  end.

(** The broker's burn of an approval: [minted_jti] is written once. *)
Definition mintApproval (id jti : string) (s : store) : bool * store :=
  match approvals s !! id with
  | Some a => if String.eqb (MintedJTI a) "" then (true, setRow s (minted a jti)) else (false, s)
  | None => (false, s)
  end.

Definition terminal (st : ApprovalState) : Prop := st <> ApprovalPending.

(** A row nobody decided. *)
Definition undecided (a : ApprovalRequest) : Prop :=
  DecidedAt a = None /\ DecidedBy a = "" /\ aReason a = "" /\ DecisionScope a = "" /\ DecisionExpiresAt a = None.

Inductive act : store -> store -> Prop :=
| act_create a x s : aState a = ApprovalPending -> undecided a -> RequestedScope a = canonicalScope x -> act s (snd (CreateApproval a s))
| act_credential id run grant scope at_ s : act s (insertCredentialApproval id run grant scope at_ s)
| act_decide id d at_ s : terminal (dState d) -> act s (snd (DecideApproval id d at_ s))
| act_rejoin id run k at_ s : act s (snd (StampApprovalRejoin id run k at_ s))
| act_reauth id d at_ s : terminal (dState d) -> act s (snd (ResolveReauthApproval id d at_ s))
| act_spend id jti s : act s (snd (SpendApprovalOnce id jti s))
| act_mint id jti s : jti <> "" -> act s (snd (mintApproval id jti s))
| act_takeover id holder at_ s : act s (snd (TakeOverApproval id holder at_ s))
| act_handback id holder at_ s : act s (snd (HandBackApproval id holder at_ s))
| act_runs rs s : act s (mkStore (approvals s) rs).

(** ** Rows only move forward *)

Record forward (a b : ApprovalRequest) : Prop := mkForward {
  fw_same : ID b = ID a /\ RunID b = RunID a /\ GrantID b = GrantID a /\ aKind b = aKind a /\ RequestedScope b = RequestedScope a /\ RequestedAt b = RequestedAt a;
  fw_final : terminal (aState a) -> aState b = aState a /\ DecidedAt b = DecidedAt a /\ DecidedBy b = DecidedBy a /\ aReason b = aReason a /\
    DecisionScope b = DecisionScope a /\ DecisionExpiresAt b = DecisionExpiresAt a;
  fw_minted : MintedJTI a <> "" -> MintedJTI b = MintedJTI a;
  fw_handed : terminal (aState a) -> HandedBackAt a <> None -> HandedBackAt b = HandedBackAt a /\ TakeoverHolder b = TakeoverHolder a;
}.

#[export] Instance forward_preorder : PreOrder forward.
Proof.
  split.
  - intros a. by constructor.
  - intros a b c [(? & ? & ? & ? & ? & ?) F1 M1 B1] [(? & ? & ? & ? & ? & ?) F2 M2 B2]. constructor.
    + repeat split; congruence.
    + intros T. destruct (F1 T) as (E & ? & ? & ? & ? & ?). destruct F2 as (? & ? & ? & ? & ? & ?); [by unfold terminal in *; rewrite E|]. repeat split; congruence.
    + intros T. rewrite M2; [by apply M1|]. by rewrite M1.
    + intros T N. destruct (F1 T) as (Es & _). destruct (B1 T N) as [E ?]. destruct B2 as [? ?]; [by unfold terminal in *; rewrite Es|by rewrite E|]. split; congruence.
Qed.

Definition keyed (s : store) : Prop := forall k a, approvals s !! k = Some a -> ID a = k.

(** What a statement does to the table: nothing, a change of one row forward, or
    one fresh row. *)
Inductive effect (s : store) : store -> Prop :=
| eff_none rs : effect s (mkStore (approvals s) rs)
| eff_row id a b : approvals s !! id = Some a -> forward a b -> (pending b = true -> pending a = true /\ (undecided a -> undecided b)) -> effect s (setRow s b)
| eff_new a : approvals s !! ID a = None -> existsb (fun kb => clash a (snd kb)) (map_to_list (approvals s)) = false ->
    aState a = ApprovalPending -> undecided a -> (aKind a <> ApprovalCredential -> exists x, Valid (canonicalScope x) = true /\ jsonb (canonicalScope x) = Some (RequestedScope a)) ->
    effect s (setRow s a).

Lemma eff_same s : effect s s.
Proof. destruct s as [m rs]. apply (eff_none (mkStore m rs)). Qed.

Lemma pending_false a : terminal (aState a) -> pending a = false.
Proof. intros H. by apply bool_decide_eq_false. Qed.

Lemma forward_pending a b : pending a = true -> MintedJTI b = MintedJTI a ->
  (ID b = ID a /\ RunID b = RunID a /\ GrantID b = GrantID a /\ aKind b = aKind a /\ RequestedScope b = RequestedScope a /\ RequestedAt b = RequestedAt a) -> forward a b.
Proof. intros Hp HM Hs. apply bool_decide_eq_true in Hp. constructor; [done|intros T; by destruct T|done|intros T; by destruct T]. Qed.

Lemma marshalRaw_canonical a x text scope : RequestedScope a = canonicalScope x -> marshalRaw (RequestedScope a) = Some text -> jsonb text = Some scope ->
  exists y, Valid (canonicalScope y) = true /\ jsonb (canonicalScope y) = Some scope.
Proof.
  intros Hx Hm Hj. unfold marshalRaw in Hm. destruct (String.eqb_spec (RequestedScope a) "") as [_|_]; [injection Hm as <-; by exists "null"|].
  destruct (Valid (RequestedScope a)) eqn:Hv; [|done]. injection Hm as <-. exists x. by rewrite <- Hx.
Qed.

Lemma act_effect s s' : act s s' -> effect s s'.
Proof.
  intros H. destruct H as [a x s Hs Hu Hx|id run grant scope at_ s|id d at_ s Hd|id run k at_ s|id d at_ s Hd|id jti s|id jti s Hj|id holder at_ s|id holder at_ s|rs s].
  - unfold CreateApproval. destruct (marshalRaw (RequestedScope a)) as [text|] eqn:Hv; [|apply eff_same]. destruct (jsonb text) as [scope|] eqn:Hj; [|apply eff_same].
    destruct (conflicts s (inserted a scope)) eqn:Hc; [apply eff_same|].
    unfold conflicts in Hc. apply orb_false_iff in Hc as [Hn Hc]. apply bool_decide_eq_false, eq_None_not_Some in Hn. cbn [snd].
    destruct Hu as (? & ? & ? & ? & ?). apply eff_new; try done. intros _. by eapply marshalRaw_canonical.
  - unfold insertCredentialApproval. destruct (jsonb _) as [text|]; [|apply eff_same]. destruct (conflicts s (credentialRow id run grant text at_)) eqn:Hc; [apply eff_same|].
    unfold conflicts in Hc. apply orb_false_iff in Hc as [Hn Hc]. apply bool_decide_eq_false, eq_None_not_Some in Hn. by apply eff_new.
  - unfold DecideApproval. destruct (approvals s !! id) as [a|] eqn:Ha; [|apply eff_same]. destruct (mayDecide s a d at_) eqn:Hm; [|apply eff_same].
    apply andb_prop in Hm as [Hp _]. cbn [snd]. eapply eff_row; [exact Ha|by apply forward_pending|]. unfold decided, pending at 1. cbn. by rewrite (bool_decide_eq_false_2 _ Hd).
  - unfold StampApprovalRejoin. destruct (approvals s !! id) as [a|] eqn:Ha; [|apply eff_same]. destruct (_ && pending a) eqn:Hm; [|apply eff_same].
    apply andb_prop in Hm as [_ Hp]. eapply eff_row; [exact Ha|by apply forward_pending|done].
  - unfold ResolveReauthApproval. destruct (approvals s !! id) as [a|] eqn:Ha; [|apply eff_same]. destruct (_ && _) eqn:Hm; [|apply eff_same].
    apply andb_prop in Hm as [Hp _]. eapply eff_row; [exact Ha|by apply forward_pending|]. unfold resolvedBy, pending at 1. cbn. by rewrite (bool_decide_eq_false_2 _ Hd).
  - unfold SpendApprovalOnce. destruct (String.eqb jti ""); [apply eff_same|]. destruct (approvals s !! id) as [a|] eqn:Ha; [|apply eff_same].
    destruct (String.eqb_spec (MintedJTI a) "") as [Hm|]; [|apply eff_same]. cbn [andb]. destruct (_ && _); [|apply eff_same].
    eapply eff_row; [exact Ha| |done]. constructor; done.
  - unfold mintApproval. destruct (approvals s !! id) as [a|] eqn:Ha; [|apply eff_same]. destruct (String.eqb_spec (MintedJTI a) "") as [Hm|]; [|apply eff_same].
    eapply eff_row; [exact Ha| |done]. constructor; try done.
  - unfold TakeOverApproval. destruct (approvals s !! id) as [a|] eqn:Ha; [|apply eff_same]. destruct (_ && _) eqn:Hm; [|apply eff_same].
    apply andb_prop in Hm as [_ Hm]. eapply eff_row; [exact Ha| |by unfold takenBy, pending at 1]. unfold takenBy.
    assert (Hopen : terminal (aState a) -> openTakeover a = true) by (intros T; by rewrite (pending_false _ T) in Hm).
    unfold openTakeover in Hopen. constructor; cbn; [done| |done|].
    + intros T. rewrite (pending_false _ T). specialize (Hopen T). bool_prop. done.
    + intros T N. specialize (Hopen T). bool_prop. done.
  - unfold HandBackApproval. destruct (approvals s !! id) as [a|] eqn:Ha; [|apply eff_same]. destruct (openTakeover a) eqn:Ho; [|apply eff_same].
    destruct (String.eqb _ _); [|apply eff_same]. unfold openTakeover in Ho. eapply eff_row; [exact Ha| |done]. constructor; cbn; try done.
    intros _ N. bool_prop. done.
  - apply eff_none.
Qed.

(** The table's invariant. *)
Record tableOK (s : store) : Prop := mkTable {
  tb_keyed : keyed s;
  tb_unique : forall k l a b, approvals s !! k = Some a -> approvals s !! l = Some b -> clash a b = true -> k = l;
  tb_open : forall k a, approvals s !! k = Some a -> aState a = ApprovalPending -> undecided a;
  tb_scopes : forall k a, approvals s !! k = Some a -> aKind a <> ApprovalCredential -> exists x, Valid (canonicalScope x) = true /\ jsonb (canonicalScope x) = Some (RequestedScope a);
}.

Lemma clash_sym a b : clash a b = clash b a.
Proof.
  unfold clash. rewrite (andb_comm (pending a)), (bool_decide_ext (aKind a = aKind b) (aKind b = aKind a)) by done.
  destruct (bool_decide_reflect (aKind b = aKind a)) as [E|]; [|by rewrite !andb_false_r]. rewrite E. f_equal.
  destruct (aKind a); try (by rewrite (String.eqb_sym (RunID a)), (String.eqb_sym (RequestedScope a))).
  destruct (GrantID a), (GrantID b); try done. apply String.eqb_sym.
Qed.

Lemma clash_text a b : aState a = ApprovalPending -> aState b = ApprovalPending -> aKind a = aKind b -> aKind b <> ApprovalCredential -> RunID a = RunID b ->
  RequestedScope a = RequestedScope b -> clash a b = true.
Proof.
  intros Pa Pb Ek Hne Er Es. unfold clash, pending. rewrite Pa, Pb, Ek, Er, Es, !bool_decide_eq_true_2, !String.eqb_refl by done. by destruct (aKind b).
Qed.

Lemma clash_forward a a' b : forward a a' -> (pending a' = true -> pending a = true /\ (undecided a -> undecided a')) -> clash a' b = true -> clash a b = true.
Proof.
  intros [(_ & Er & Eg & Ek & Es & _) _ _ _] Hp. unfold clash. rewrite Er, Eg, Ek, Es. intros H. apply andb_prop in H as [H ->].
  apply andb_prop in H as [H ->]. apply andb_prop in H as [H ->]. by rewrite (proj1 (Hp H)).
Qed.

Lemma effect_ok s s' : tableOK s -> effect s s' -> tableOK s'.
Proof.
  intros [Hk Hu Ho Hs] [rs|id a b Ha Hf Hp|a Hn Hc Hst Hun Hsc]; [by constructor|..]; constructor; unfold keyed, setRow; cbn.
  - pose proof (Hk _ _ Ha) as Eid. intros k c. rewrite lookup_insert_Some. intros [[<- <-]|[_ H]]; [done|by apply Hk].
  - pose proof (Hk _ _ Ha) as Eid. destruct (fw_same _ _ Hf) as (Eb & _). rewrite Eb, Eid. intros k l c d Hc Hd Hcl.
    rewrite lookup_insert_Some in Hc, Hd. destruct Hc as [[<- <-]|[Hne Hc]], Hd as [[<- <-]|[Hne' Hd]]; [done| | |by apply (Hu k l c d)].
    + eapply Hu; [exact Ha|exact Hd|by eapply clash_forward].
    + symmetry. eapply Hu; [exact Ha|exact Hc|]. eapply clash_forward; [done|done|]. by rewrite clash_sym.
  - intros k c. rewrite lookup_insert_Some. intros [[<- <-]|[_ H]]; [|by apply (Ho k)]. intros Hb.
    destruct Hp as [Hp Hd]; [by apply bool_decide_eq_true|]. apply bool_decide_eq_true in Hp. by apply Hd, (Ho id).
  - destruct (fw_same _ _ Hf) as (_ & _ & _ & Ek & Es & _). intros k c. rewrite lookup_insert_Some. intros [[<- <-]|[_ H]]; [|by apply (Hs k)].
    rewrite Ek, Es. by apply (Hs id).
  - intros k c. rewrite lookup_insert_Some. intros [[<- <-]|[_ H]]; [done|by apply Hk].
  - assert (Hno : forall l b, approvals s !! l = Some b -> clash a b = false).
    { intros l b Hb. destruct (clash a b) eqn:E; [|done]. rewrite <- Hc. symmetry. apply existsb_exists. exists (l, b). split; [|done].
      by apply list_elem_of_In, elem_of_map_to_list. }
    intros k l c d Hcc Hd Hcl. rewrite lookup_insert_Some in Hcc, Hd. destruct Hcc as [[<- <-]|[Hne Hcc]], Hd as [[<- <-]|[Hne' Hd]]; [done| | |by apply (Hu k l c d)].
    + by rewrite (Hno _ _ Hd) in Hcl.
    + rewrite clash_sym in Hcl. by rewrite (Hno _ _ Hcc) in Hcl.
  - intros k c. rewrite lookup_insert_Some. intros [[<- <-]|[_ H]]; [done|by apply (Ho k)].
  - intros k c. rewrite lookup_insert_Some. intros [[<- <-]|[_ H]]; [done|by apply (Hs k)].
Qed.

Lemma acts_ok s s' : tableOK s -> rtc act s s' -> tableOK s'.
Proof. intros Hs H. induction H as [|x y z Hxy _ IH]; [done|]. apply IH. eapply effect_ok; [done|by apply act_effect]. Qed.

Lemma effect_forward s s' id a : keyed s -> effect s s' -> approvals s !! id = Some a -> exists b, approvals s' !! id = Some b /\ forward a b.
Proof.
  intros Hk [rs|id' c b Hc Hf _|b Hn _ _ _ _] Ha; cbn.
  - exists a. split; [done|reflexivity].
  - pose proof (Hk _ _ Hc) as Eid. destruct (fw_same _ _ Hf) as (Eb & _). rewrite Eb, Eid. destruct (decide (id' = id)) as [->|Hne].
    + exists b. rewrite lookup_insert_eq. split; [done|]. by simplify_eq.
    + exists a. rewrite lookup_insert_ne by done. split; [done|reflexivity].
  - exists a. rewrite lookup_insert_ne; [split; [done|reflexivity]|]. intros E. rewrite E in Hn. congruence.
Qed.

Lemma acts_forward s s' id a : tableOK s -> rtc act s s' -> approvals s !! id = Some a -> exists b, approvals s' !! id = Some b /\ forward a b.
Proof.
  intros Hs H. revert a. induction H as [x|x y z Hxy Hyz IH]; intros a Ha; [exists a; split; [done|reflexivity]|].
  apply act_effect in Hxy. destruct (effect_forward _ _ _ _ (tb_keyed _ Hs) Hxy Ha) as (b & Hb & Hf).
  destruct (IH (effect_ok _ _ Hs Hxy) b Hb) as (c & Hc & Hf'). exists c. split; [done|by transitivity b].
Qed.

Lemma decisions_final_row s s' id a : tableOK s -> rtc act s s' -> approvals s !! id = Some a -> terminal (aState a) ->
  exists b, approvals s' !! id = Some b /\ aState b = aState a /\ DecidedBy b = DecidedBy a /\ aReason b = aReason a /\ DecisionScope b = DecisionScope a.
Proof.
  intros Hs Hr Ha Ht. destruct (acts_forward _ _ _ _ Hs Hr Ha) as (b & Hb & [_ Hf _ _]). destruct (Hf Ht) as (? & _ & ? & ? & ? & _). by exists b.
Qed.

(** A decided approval is final: whatever statements run afterwards, in whatever
    order, the row is still there, with the same state, decider, reason, scope and
    expiry, for the same run, grant, kind and requested scope; and every further
    decision is refused as already decided and leaves the table as it was. *)
Theorem decisions_are_final s s' id a :
  tableOK s -> rtc act s s' -> approvals s !! id = Some a -> aState a <> ApprovalPending ->
  (exists b, approvals s' !! id = Some b /\ RunID b = RunID a /\ GrantID b = GrantID a /\ aKind b = aKind a /\ RequestedScope b = RequestedScope a /\
     aState b = aState a /\ DecidedAt b = DecidedAt a /\ DecidedBy b = DecidedBy a /\ aReason b = aReason a /\
     DecisionScope b = DecisionScope a /\ DecisionExpiresAt b = DecisionExpiresAt a) /\
  (forall d at_, DecideApproval id d at_ s' = (inl ErrAlreadyDecided, s')) /\
  (forall d at_, ResolveReauthApproval id d at_ s' = (inl ErrAlreadyDecided, s')).
Proof.
  intros Hs Hr Ha Ht. destruct (acts_forward _ _ _ _ Hs Hr Ha) as (b & Hb & [Hsame Hfin _ _]). specialize (Hfin Ht).
  destruct Hsame as (_ & ? & ? & ? & ? & _). destruct Hfin as (Est & ? & ? & ? & ? & ?).
  assert (Hp : pending b = false) by (apply pending_false; unfold terminal; congruence). split_and!; [by exists b| |]; intros d at_.
  - unfold DecideApproval, mayDecide. by rewrite Hb, Hp.
  - unfold ResolveReauthApproval. by rewrite Hb, Hp.
Qed.

(** The rows of a scope by value: the index on the stored text is one on values. *)
Lemma stored_text_value `{!Jsonb jsonb} x y t u :
  Valid (canonicalScope x) = true -> Valid (canonicalScope y) = true -> jsonb (canonicalScope x) = Some t -> jsonb (canonicalScope y) = Some u ->
  scopeValue t = scopeValue u -> t = u.
Proof.
  assert (Hd : forall z, Valid (canonicalScope z) = true -> exists v, decode (canonicalScope z) = Some v /\ scopeValue (canonicalScope z) = Some (toAny v)).
  { intros z Hz. unfold canonicalScope, scopeValue in *. destruct (Valid z) eqn:Vz; [|congruence]. unfold Valid in Vz. destruct (decode z) as [v|] eqn:Dz; [|done].
    exists (canonicalNumbers v). rewrite (decode_rewrite _ _ Dz). split; [done|]. cbn. f_equal. rewrite <- canon_toAny.
    apply canonicalNumbers_idem, toAny_wf. by eapply decode_wf. }
  intros Hx Hy Jx Jy E. destruct (Hd x Hx) as (v & Dv & Sv), (Hd y Hy) as (w & Dw & Sw).
  destruct (jsonb_value _ _ Jx) as [_ E1], (jsonb_value _ _ Jy) as [_ E2]. apply (jsonb_same _ _ _ _ _ _ Dv Dw); [congruence|done..].
Qed.

(** At most one PENDING row per (run, kind, value of the requested scope), and
    one PENDING credential request per grant, whatever statements ran and in
    whatever order, raced inserts included: the index compares stored texts, and
    the texts the service stores are equal exactly when their values are. *)
Theorem one_pending_row_per_request `{!Jsonb jsonb} s s' k l a b :
  tableOK s -> rtc act s s' -> approvals s' !! k = Some a -> approvals s' !! l = Some b ->
  aState a = ApprovalPending -> aState b = ApprovalPending -> aKind a = aKind b ->
  match aKind a with
  | ApprovalCredential => GrantID a <> None /\ GrantID a = GrantID b
  | _ => RunID a = RunID b /\ scopeValue (RequestedScope a) = scopeValue (RequestedScope b)
  end -> k = l.
Proof.
  intros Hs Hr Ha Hb Pa Pb Ek Hm. pose proof (acts_ok _ _ Hs Hr) as [_ Hu _ Hsc]. eapply Hu; [exact Ha|exact Hb|]. rewrite Ek in Hm.
  destruct (decide (aKind b = ApprovalCredential)) as [E|Hne].
  - unfold clash, pending. rewrite E in *. rewrite Pa, Pb, Ek, !bool_decide_eq_true_2 by done. cbn [andb].
    destruct Hm as [Hn Hg]. rewrite <- Hg. destruct (GrantID a); [apply String.eqb_refl|done].
  - assert (RunID a = RunID b /\ scopeValue (RequestedScope a) = scopeValue (RequestedScope b)) as [Er Ev] by (destruct (aKind b); done).
    destruct (Hsc _ _ Ha ltac:(congruence)) as (x & Vx & Jx), (Hsc _ _ Hb Hne) as (y & Vy & Jy).
    apply clash_text; try done. exact (stored_text_value x y _ _ Vx Vy Jx Jy Ev).
Qed.

(** A one-shot approval is spent once: after a spend that took it, no later
    spend and no later mint takes it again, whatever runs between, and its row
    keeps the token it was spent on. *)
Theorem spent_exactly_once s s1 s2 id jti :
  tableOK s -> SpendApprovalOnce id jti s = (inr true, s1) -> rtc act s1 s2 ->
  (exists b, approvals s2 !! id = Some b /\ MintedJTI b = jti /\ aState b = ApprovalApproved /\ DecisionScope b = "once") /\
  (forall jti', jti' <> "" -> SpendApprovalOnce id jti' s2 = (inr false, s2)) /\
  (forall jti', mintApproval id jti' s2 = (false, s2)).
Proof.
  intros Hs Hsp Hr. assert (H1 : tableOK s1).
  { replace s1 with (snd (SpendApprovalOnce id jti s)) by (by rewrite Hsp). eapply acts_ok; [done|]. apply rtc_once. constructor. }
  unfold SpendApprovalOnce in Hsp. destruct (String.eqb_spec jti "") as [|Hj]; [done|]. destruct (approvals s !! id) as [a|] eqn:Ha; [|done].
  destruct (_ && _) eqn:Hc; [|done]. injection Hsp as <-. bool_prop. repeat match goal with H : String.eqb _ _ = true |- _ => apply String.eqb_eq in H end.
  pose proof (tb_keyed _ Hs _ _ Ha) as Eid.
  assert (Hrow : approvals (setRow s (minted a jti)) !! id = Some (minted a jti)) by (rewrite <- Eid; apply lookup_insert_eq).
  destruct (acts_forward _ _ _ _ H1 Hr Hrow) as (b & Hb & [_ Hfin Hm _]). cbn in *. specialize (Hm Hj).
  assert (Ht : terminal (aState a)) by (unfold terminal; congruence). destruct (Hfin Ht) as (? & _ & _ & _ & ? & _).
  split_and!; [exists b; split_and!; congruence| |].
  - intros j Hne. unfold SpendApprovalOnce. rewrite Hb, Hm, (proj2 (String.eqb_neq j "")), (proj2 (String.eqb_neq jti "")) by done. done.
  - intros j. unfold mintApproval. by rewrite Hb, Hm, (proj2 (String.eqb_neq jti "")).
Qed.
End Table.

(** ** An instance, and the theorems at work *)

(** A column that stores the decoded value with its members sorted. *)
Definition sortedJsonb (s : string) : option string :=
  match decode s with
  | Some v => let t := Marshal (toAny v) in if Valid t && String.eqb (scopeNorm t) (scopeNorm s) then Some t else None
  | None => None
  end.

#[export] Instance sortedJsonb_ok : Jsonb sortedJsonb.
Proof.
  split; unfold sortedJsonb.
  - intros s t H. destruct (decode s) as [v|] eqn:E; [|done]. cbn zeta in H. destruct (Valid (Marshal (toAny v)) && _) eqn:Hv; [|done]. injection H as <-.
    apply andb_prop in Hv as [Hv Hn]. apply String.eqb_eq in Hn. split; [done|].
    destruct (scopeText_value _ Hv) as (x & Wx & -> & Nx). destruct (scopeText_value s) as (y & Wy & -> & Ny); [unfold Valid; by rewrite E|].
    f_equal. apply Marshal_inj; congruence.
  - intros s s' v v' t t' E E' Ev. rewrite E, E', Ev. cbn zeta. destruct (_ && _); [|done]. intros [= <-]. destruct (_ && _); [|done]. by intros [= <-].
Qed.

Definition noRows : store := mkStore ∅ ∅.
Definition rowOf (id : string) (k : ApprovalKind) (g : option string) (scope : string) : ApprovalRequest :=
  mkApproval id "run" g k scope ApprovalPending 0 None "" "" "" "" None None None "" None.

Lemma rowOf_undecided id k g scope : undecided (rowOf id k g scope).
Proof. by split_and!. Qed.

Lemma noRows_ok jsonb : tableOK jsonb noRows.
Proof.
  assert (E : forall k, approvals noRows !! k = None) by (intros k; apply lookup_empty).
  constructor; [intros k a|intros k l a b|intros k a|intros k a]; by rewrite E.
Qed.

Definition approveOnce : ApprovalDecision := mkDecision ApprovalApproved "ana" "ok" "once" None None.
Definition raised (a : ApprovalRequest) (s : store) : store := snd (CreateApproval sortedJsonb a s).

Definition toolRow : ApprovalRequest := rowOf "a1" ApprovalToolCall (Some "g1") "{}".
Definition asked : store := raised toolRow noRows.
Definition answered : store := snd (DecideApproval "a1" approveOnce 5 asked).
Definition spent : store := snd (SpendApprovalOnce "a1" "j1" answered).

Lemma answered_acts : rtc (act sortedJsonb) noRows answered.
Proof. eapply rtc_l; [exact (act_create sortedJsonb toolRow "{}" noRows eq_refl (rowOf_undecided _ _ _ _) eq_refl)|]. apply rtc_once. by apply act_decide. Qed.

Lemma decisions_are_final_witness :
  DecideApproval "a1" (mkDecision ApprovalDenied "bob" "" "" None None) 9 spent = (inl ErrAlreadyDecided, spent).
Proof.
  apply (decisions_are_final sortedJsonb answered spent "a1" (decided toolRow approveOnce 5)).
  - apply (acts_ok _ _ _ (noRows_ok _) answered_acts).
  - apply rtc_once, act_spend.
  - by vm_compute.
  - by vm_compute.
Defined.

Lemma spent_exactly_once_witness : SpendApprovalOnce "a1" "j2" spent = (inr false, spent) /\ mintApproval "a1" "j2" spent = (false, spent).
Proof.
  destruct (spent_exactly_once sortedJsonb answered spent spent "a1" "j1") as (_ & H1 & H2).
  - apply (acts_ok _ _ _ (noRows_ok _) answered_acts).
  - by vm_compute.
  - apply rtc_refl.
  - split; [by apply H1|apply H2].
Defined.

(** Two raises of one host, spelled apart: the second is refused by the index. *)
Definition hostRow (id scope : string) : ApprovalRequest := rowOf id ApprovalEgressDomain None (canonicalScope scope).
Lemma raise_act id scope s : act sortedJsonb s (raised (hostRow id scope) s).
Proof. apply (act_create _ _ scope); [done|apply rowOf_undecided|done]. Qed.
Definition firstRaise : store := raised (hostRow "b1" scopeA) noRows.
Definition bothRaised : store := raised (hostRow "b2" scopeB) firstRaise.
Definition firstRow : ApprovalRequest := inserted (hostRow "b1" scopeA) (default "" (sortedJsonb (canonicalScope scopeA))).

Lemma one_pending_row_per_request_witness :
  fst (CreateApproval sortedJsonb (hostRow "b2" scopeB) firstRaise) = inl ErrDuplicatePending /\
  forall l b, approvals bothRaised !! l = Some b -> aState b = ApprovalPending -> aKind b = ApprovalEgressDomain -> RunID b = "run" ->
    scopeValue (RequestedScope b) = scopeValue scopeB -> "b1" = l.
Proof.
  split; [by vm_compute|]. intros l b Hb Hp Hk Hrun Hv.
  assert (Hr : rtc (act sortedJsonb) noRows bothRaised).
  { eapply rtc_l; [apply raise_act|apply rtc_once, raise_act]. }
  assert (Hl : approvals bothRaised !! "b1" = Some firstRow) by (by vm_compute).
  assert (Hs : scopeValue (RequestedScope firstRow) = scopeValue scopeB) by (by vm_compute).
  apply (one_pending_row_per_request sortedJsonb noRows bothRaised "b1" l firstRow b (noRows_ok _) Hr Hl Hb eq_refl Hp (eq_sym Hk)).
  change (aKind firstRow) with ApprovalEgressDomain. cbn match. rewrite Hrun, Hv. split; [reflexivity|exact Hs].
Defined.
