(* ===== verification/ApprovalFSM.v ===== *)
(** * The approval service

    [approval.go] of [src/internal/approval]: raising a request (deduplicated by
    value), deciding it, the expiry sweep, the early expiry of one row and the
    cancellation of a run's open rows, each with its audit trail.

    Every call to the store is one step. Before it, other processes may have run
    any statements of their own ([env], from the tick of the step); the call itself
    may fail before the statement ran or after it landed ([fault]). The clock, the
    fresh identifiers, [uuid.Parse], the digest and Postgres's [jsonb] are
    parameters. *)
From S2P Require Import Prelude GoStrings GoPath GoSlices Grants PushRules CanonNumber GoJSON GoJSONSound ApprovalScope ScopeSound ApprovalStore.
Local Open Scope string_scope.
Local Open Scope Z_scope.
Local Open Scope list_scope.

(** ** Audit events *)

Inductive ActorType := ActorHuman | ActorSystem | ActorAgent.

Inductive datum := DText (s : string) | DTime (t : option Z) | DCount (n : Z) | DTally (m : gmap string Z).

Record AuditEvent := mkEvent {
  evTime : Z; evRun : string; evActorType : ActorType; evActor : string; evAction : string; evTarget : string; evOutcome : string;
  evData : list (string * datum);
}.

(** ** Calls *)

Inductive outcome := Delivered | LostBefore (e : string) | LostAfter (e : string).

(** The table, the step, the events recorded, and those whose write failed, which
    are logged. *)
Record world := mkWorld { db : store; ticks : nat; trail : list AuditEvent; unrecorded : list AuditEvent }.
Definition M (A : Type) : Type := world -> A * world.
Definition ret {A} (a : A) : M A := fun w => (a, w).
Definition bind {A B} (m : M A) (k : A -> M B) : M B := fun w => let '(a, w') := m w in k a w'.
Declare Scope fsm_scope.
Notation "x <-- m ;; k" := (bind m (fun x => k)) (at level 100, m at next level, right associativity) : fsm_scope.
Local Open Scope fsm_scope.

Inductive svcErr := AlreadyDecided | SvcErr (op id : string) (e : storeErr).

Definition storeText (e : storeErr) : string :=
  match e with
  | ErrNotFound => "store: not found" | ErrAlreadyDecided => "approval already decided" | ErrDuplicatePending => "duplicate pending approval"
  | ErrTakeoverNotHolder => "store: takeover is held by someone else" | StoreErr what => what
  end.
(** [Error()] of a wrapped failure. *)
Definition errorText (e : svcErr) : string :=
  match e with AlreadyDecided => storeText ErrAlreadyDecided | SvcErr op id e => "approval: " +:+ op +:+ " " +:+ id +:+ ": " +:+ storeText e end.

Definition tallyAdd (k : string) (m : gmap string Z) : gmap string Z := <[k := default 0 (m !! k) + 1]> m.

Section Service.
Context (jsonb : string -> option string) (uuidParse : string -> option string) (digest : string -> string).
Context (env : nat -> store -> store) (fault : nat -> outcome) (clock : nat -> Z) (freshID : nat -> string).

Definition call {A} (stmt : store -> (storeErr + A) * store) : M (storeErr + A) := fun w =>
  let s := env (ticks w) (db w) in
  let at_ s' := mkWorld s' (S (ticks w)) (trail w) (unrecorded w) in
  match fault (ticks w) with
  | Delivered => let '(r, s') := stmt s in (r, at_ s')
  | LostBefore e => (inl (StoreErr e), at_ s)
  | LostAfter e => (inl (StoreErr e), at_ (snd (stmt s)))
  end.

Definition now : M Z := fun w => (clock (ticks w), mkWorld (db w) (S (ticks w)) (trail w) (unrecorded w)).
Definition newID : M string := fun w => (freshID (ticks w), mkWorld (db w) (S (ticks w)) (trail w) (unrecorded w)).

(** [Record], and [audit.LogWriteFailure] where it fails. *)
Definition record (ev : AuditEvent) : M unit := fun w =>
  let n := S (ticks w) in
  match fault (ticks w) with
  | Delivered => (tt, mkWorld (db w) n (trail w ++ [ev]) (unrecorded w))
  | _ => (tt, mkWorld (db w) n (trail w) (unrecorded w ++ [ev]))
  end.

(** ** Raising *)

Definition scopeHash (run : string) (k : ApprovalKind) (scope : string) : string := digest (scopeText run k scope).

Definition withScope (a : ApprovalRequest) (scope : string) : ApprovalRequest :=
  mkApproval (ID a) (RunID a) (GrantID a) (aKind a) scope (aState a) (RequestedAt a) (DecidedAt a) (DecidedBy a) (MintedJTI a) (aReason a)
    (DecisionScope a) (DecisionExpiresAt a) (ExpiresAt a) (LastRejoinedAt a) (TakeoverHolder a) (HandedBackAt a).

(** The fields normalised before a raise is stored. *)
Definition fresh (a : ApprovalRequest) (id : string) (at_ : Z) : ApprovalRequest :=
  mkApproval id (RunID a) (GrantID a) (aKind a) (RequestedScope a) ApprovalPending at_ None "" "" ""
    "" None (ExpiresAt a) (LastRejoinedAt a) (TakeoverHolder a) (HandedBackAt a).

Definition sameRequest (req : ApprovalRequest) (hash : string) (a : ApprovalRequest) : bool :=
  String.eqb (RunID a) (RunID req) && bool_decide (aKind a = aKind req) && String.eqb (scopeHash (RunID a) (aKind a) (RequestedScope a)) hash.

Definition findPendingDup (req : ApprovalRequest) (hash : string) : M (svcErr + option ApprovalRequest) :=
  r <-- call (fun s => (inr (ListPendingApprovalsForRuns (RunID req) s), s)) ;;
  ret match r with
      | inl e => inl (SvcErr "list pending for dedup" (RunID req) e)
      | inr l => inr (findFirst (sameRequest req hash) l)
      end.

Definition Rejoin (id run : string) (k : ApprovalKind) : M (svcErr + option ApprovalRequest) :=
  at_ <-- now ;;
  r <-- call (fun s => let '(o, s') := StampApprovalRejoin id run k at_ s in (inr o, s')) ;;
  ret match r with inl e => inl (SvcErr "stamp rejoin" id e) | inr o => inr o end.

Definition RequestApproval (req0 : ApprovalRequest) : M (svcErr + ApprovalRequest) :=
  let req := withScope req0 (canonicalScope (RequestedScope req0)) in
  let hash := scopeHash (RunID req) (aKind req) (RequestedScope req) in
  dup <-- findPendingDup req hash ;;
  match dup with
  | inl e => ret (inl e)
  | inr (Some existing) =>
      rj <-- Rejoin (ID existing) (RunID existing) (aKind existing) ;;
      ret (inr match rj with inr (Some r) => r | _ => existing end)
  | inr None =>
      id <-- (if String.eqb (ID req) nilUUID then newID else ret (ID req)) ;;
      at_ <-- now ;;
      let row := fresh req id at_ in
      created <-- call (CreateApproval jsonb row) ;;
      match created with
      | inr c => ret (inr c)
      | inl ErrDuplicatePending =>
          again <-- findPendingDup row hash ;;
          ret match again with
              | inl e => inl e
              | inr (Some x) => inr x
              | inr None => inl (SvcErr "create" id ErrDuplicatePending)
              end
      | inl e => ret (inl (SvcErr "create" id e))
      end
  end.

(** ** Deciding *)

Definition requestedScopeHost (scope : string) : string :=
  match members scope with
  | Some m => if fieldFails asString "host" m then "" else fieldOf asString "" "host" m
  | None => ""
  end.

Definition stateText (st : ApprovalState) : string :=
  match st with
  | ApprovalPending => "PENDING" | ApprovalApproved => "APPROVED" | ApprovalDenied => "DENIED"
  | ApprovalExpired => "EXPIRED" | ApprovalCancelled => "CANCELLED"
  end.

(** The store reads its own clock before the update. *)
Definition decideCall (id : string) (d : ApprovalDecision) : M (storeErr + ApprovalRequest) :=
  at_ <-- now ;; call (DecideApproval id d at_).

Definition decideData (id : string) (d : ApprovalDecision) (result : ApprovalRequest) : list (string * datum) :=
  [("approval_id", DText id); ("decision", DText (stateText (dState d))); ("reason", DText (dReason d))] ++
  (let host := requestedScopeHost (RequestedScope result) in if String.eqb host "" then [] else [("host", DText host)]) ++
  [("decision_scope", DText (dScope d))] ++
  match dExpires d with Some t => [("decision_expires_at", DTime (Some t))] | None => [] end ++
  match dPolicy d with Some p => [("policy", DText p)] | None => [] end.

Definition Decide (id : string) (by_ : ActorType) (d : ApprovalDecision) : M (svcErr + ApprovalRequest) :=
  r <-- decideCall id d ;;
  match r with
  | inl ErrAlreadyDecided => ret (inl AlreadyDecided)
  | inl e => ret (inl (SvcErr "decide" id e))
  | inr result =>
      t <-- now ;;
      _ <-- record (mkEvent t (RunID result) by_ (dBy d) "approval.decide" id "success" (decideData id d result)) ;;
      ret (inr result)
  end.

(** ** Expiry *)

Definition bySystem (st : ApprovalState) (reason : string) : ApprovalDecision := mkDecision st "system" reason "" None None.

Definition expireOne (ap : ApprovalRequest) (cutoff : Z) : M (bool * list svcErr) :=
  r <-- decideCall (ID ap) (bySystem ApprovalExpired "stale") ;;
  match r with
  | inl ErrAlreadyDecided => ret (false, [])
  | inl e => ret (false, [SvcErr "expire" (ID ap) e])
  | inr _ =>
      t <-- now ;;
      _ <-- record (mkEvent t (RunID ap) ActorSystem "wardyn/approval-sweeper" "approval.expire" (ID ap) "success"
        [("approval_id", DText (ID ap)); ("cutoff", DTime (Some cutoff)); ("expires_at", DTime (ExpiresAt ap))]) ;;
      ret (true, [])
  end.

Definition expireBatch : nat := 256.

(** What a sweep has done so far: the rows moved, by key, and the failures. *)
Record tally := mkTally { moved : Z; byKind : gmap string Z; failures : list svcErr }.

Fixpoint expireRows (batch : list ApprovalRequest) (cutoff : Z) (acc : tally) : M tally :=
  match batch with
  | [] => ret acc
  | ap :: batch =>
      r <-- expireOne ap cutoff ;;
      expireRows batch cutoff
        (if fst r then mkTally (moved acc + 1) (tallyAdd (TallyKey uuidParse ap) (byKind acc)) (failures acc ++ snd r)
         else mkTally (moved acc) (byKind acc) (failures acc ++ snd r))
  end.

(** The pages of a sweep; [None] when the fuel runs out. *)
Fixpoint expirePages (fuel : nat) (at_ cutoff : Z) (after : string) (acc : tally) : M (option tally) :=
  match fuel with
  | O => ret None
  | S fuel =>
      r <-- call (fun s => (inr (ListExpiredPendingApprovals at_ cutoff after expireBatch s), s)) ;;
      match r with
      | inl e => ret (Some (mkTally (moved acc) (byKind acc) (failures acc ++ [SvcErr "list for expiry" after e])))
      | inr batch =>
          acc' <-- expireRows batch cutoff acc ;;
          if (length batch <? expireBatch)%nat then ret (Some acc')
          else match last batch with
               | Some ap => expirePages fuel at_ cutoff (ID ap) acc'
               | None => ret (Some acc')
               end
      end
  end.

Definition ExpireStaleByKind (fuel : nat) (olderThan : Z) : M (option tally) :=
  at_ <-- now ;; expirePages fuel at_ (at_ - olderThan) nilUUID (mkTally 0 ∅ []).

Definition ExpireStale (fuel : nat) (olderThan : Z) : M (option (Z * list svcErr)) :=
  r <-- ExpireStaleByKind fuel olderThan ;; ret (option_map (fun t => (moved t, failures t)) r).

Definition ExpireOne (id actor reason : string) : M (option svcErr) :=
  r <-- decideCall id (bySystem ApprovalExpired reason) ;;
  match r with
  | inl ErrAlreadyDecided => ret None
  | inl e => ret (Some (SvcErr "expire" id e))
  | inr result =>
      t <-- now ;;
      _ <-- record (mkEvent t (RunID result) ActorAgent actor "approval.expire" id "success" [("approval_id", DText id); ("reason", DText reason)]) ;;
      ret None
  end.

(** ** Cancellation *)

Definition recordCancelled (run reason : string) (acc : tally) (failure : option svcErr) : M unit :=
  if moved acc =? 0 then ret tt
  else
    t <-- now ;;
    record (mkEvent t run ActorSystem "wardyn/approval-cancel" "approval.cancel" run
      (match failure with Some _ => "failure" | None => "success" end)
      ([("run_id", DText run); ("reason", DText reason); ("count", DCount (moved acc)); ("by_kind", DTally (byKind acc))] ++
       match failure with Some e => [("error", DText (errorText e))] | None => [] end)).

Fixpoint cancelRows (rows : list ApprovalRequest) (run reason : string) (acc : tally) : M (gmap string Z * option svcErr) :=
  match rows with
  | [] => _ <-- recordCancelled run reason acc None ;; ret (byKind acc, None)
  | ap :: rows =>
      if negb (String.eqb (RunID ap) run) then cancelRows rows run reason acc
      else
        r <-- decideCall (ID ap) (bySystem ApprovalCancelled reason) ;;
        match r with
        | inl ErrAlreadyDecided => cancelRows rows run reason acc
        | inl e =>
            let err := SvcErr "cancel" (ID ap) e in
            _ <-- recordCancelled run reason acc (Some err) ;; ret (byKind acc, Some err)
        | inr _ => cancelRows rows run reason (mkTally (moved acc + 1) (tallyAdd (TallyKey uuidParse ap) (byKind acc)) (failures acc))
        end
  end.

Definition CancelForRun (run reason : string) : M (gmap string Z * option svcErr) :=
  r <-- call (fun s => (inr (ListPendingApprovalsForRuns run s), s)) ;;
  match r with
  | inl e => ret (∅, Some (SvcErr "list for cancel" run e))
  | inr l => cancelRows l run reason (mkTally 0 ∅ [])
  end.
End Service.
