(* ===== verification/FSMSound.v ===== *)
(** * What the approval service guarantees

    Theorems on [ApprovalFSM.v], with any interference by other processes between
    the calls and any call failing before or after its statement ran. *)
From S2P Require Import Prelude GoStrings GoPath GoSlices Grants PushRules CanonNumber GoJSON GoJSONSound ApprovalScope ScopeSound ApprovalStore ApprovalFSM.
Local Open Scope string_scope.
Local Open Scope Z_scope.
Local Open Scope list_scope.

Create HintDb fsm.

Section Sound.
Context (jsonb : string -> option string) (uuidParse : string -> option string).
Context (env : nat -> store -> store) (fault : nat -> outcome) (clock : nat -> Z).
Context (Henv : forall n s, rtc (act jsonb) s (env n s)).

Notation acts := (rtc (act jsonb)).
Notation callE := (call env fault).

(** ** Every operation is a sequence of statements *)

Definition runs {A} (m : M A) : Prop := forall w, acts (db w) (db (snd (m w))).

Lemma runs_ret {A} (a : A) : runs (ret a).
Proof. intros w. apply rtc_refl. Qed.
Lemma runs_bind {A B} (m : M A) (k : A -> M B) : runs m -> (forall a, runs (k a)) -> runs (bind m k).
Proof. intros Hm Hk w. unfold bind. specialize (Hm w). destruct (m w) as [a w']. etransitivity; [exact Hm|apply Hk]. Qed.
Lemma runs_now : runs (now clock).
Proof. intros w. apply rtc_refl. Qed.
Lemma runs_record ev : runs (record fault ev).
Proof. intros w. unfold record. destruct (fault _); apply rtc_refl. Qed.

Lemma runs_call {A} (stmt : store -> (storeErr + A) * store) : (forall s, acts s (snd (stmt s))) -> runs (callE stmt).
Proof.
  intros Hs w. unfold call. specialize (Hs (env (ticks w) (db w))). destruct (fault (ticks w)); cbn [snd db].
  - destruct (stmt _) as [r s']. cbn in *. etransitivity; [apply Henv|exact Hs].
  - apply Henv.
  - etransitivity; [apply Henv|exact Hs].
Qed.

Lemma acts_trans s1 s2 s3 : acts s1 s2 -> acts s2 s3 -> acts s1 s3.
Proof. intros; by etransitivity. Qed.

(** A call: what the others did, then the statement or a failure. *)
Lemma call_inv {A} (stmt : store -> (storeErr + A) * store) w r w' : callE stmt w = (r, w') ->
  exists s, acts (db w) s /\ trail w' = trail w /\ unrecorded w' = unrecorded w /\
    ((r, db w') = stmt s \/ exists e, r = inl (StoreErr e) /\ (db w' = s \/ db w' = snd (stmt s))).
Proof.
  unfold call. intros H. exists (env (ticks w) (db w)). split; [apply Henv|]. destruct (fault (ticks w)) as [|e|e].
  - destruct (stmt _) as [x s'] eqn:E. injection H as <- <-. cbn. tauto.
  - injection H as <- <-. cbn. split_and!; [done..|]. right. exists e. auto.
  - injection H as <- <-. cbn. split_and!; [done..|]. right. exists e. auto.
Qed.

Lemma acts_create a x s : aState a = ApprovalPending -> undecided a -> RequestedScope a = canonicalScope x -> acts s (snd (CreateApproval jsonb a s)).
Proof. intros. apply rtc_once. by eapply act_create. Qed.
Lemma acts_decide id d at_ s : terminal (dState d) -> acts s (snd (DecideApproval id d at_ s)).
Proof. intros. by apply rtc_once, act_decide. Qed.
Lemma acts_rejoin id run k at_ s : acts s (snd (StampApprovalRejoin id run k at_ s)).
Proof. apply rtc_once, act_rejoin. Qed.

Lemma runs_decideCall id d : terminal (dState d) -> runs (decideCall env fault clock id d).
Proof. intros Hd. apply runs_bind; [apply runs_now|]. intros at_. apply runs_call. intros s. by apply acts_decide. Qed.
Lemma runs_Rejoin id run k : runs (Rejoin env fault clock id run k).
Proof.
  apply runs_bind; [apply runs_now|]. intros at_. apply runs_bind; [|intros; apply runs_ret]. apply runs_call. intros s.
  pose proof (acts_rejoin id run k at_ s) as H. by destruct (StampApprovalRejoin _ _ _ _ s).
Qed.

Lemma fresh_undecided a id at_ : undecided (fresh a id at_).
Proof. by split_and!. Qed.

Lemma runs_expireOne ap cutoff : runs (expireOne env fault clock ap cutoff).
Proof.
  apply runs_bind; [by apply runs_decideCall|]. intros [[]|r]; try apply runs_ret. apply runs_bind; [apply runs_now|]. intros t.
  apply runs_bind; [apply runs_record|]. intros _. apply runs_ret.
Qed.

Lemma runs_expireRows batch cutoff acc : runs (expireRows uuidParse env fault clock batch cutoff acc).
Proof. revert acc. induction batch as [|ap batch IH]; intros acc; [apply runs_ret|]. apply runs_bind; [apply runs_expireOne|]. intros r. apply IH. Qed.

Lemma runs_recordCancelled run reason acc failure : runs (recordCancelled fault clock run reason acc failure).
Proof. unfold recordCancelled. destruct (_ =? _); [apply runs_ret|]. apply runs_bind; [apply runs_now|]. intros t. apply runs_record. Qed.

Lemma runs_cancelRows rows run reason acc : runs (cancelRows uuidParse env fault clock rows run reason acc).
Proof.
  revert acc. induction rows as [|ap rows IH]; intros acc; cbn [cancelRows].
  - apply runs_bind; [apply runs_recordCancelled|]. intros _. apply runs_ret.
  - destruct (negb _); [apply IH|]. apply runs_bind; [by apply runs_decideCall|]. intros [[]|r]; try apply IH;
      (apply runs_bind; [apply runs_recordCancelled|]; intros _; apply runs_ret).
Qed.

(** ** The trail *)

(** The events of a stretch: recorded, or logged as lost. *)
Definition logged (w w' : world) (evs : list AuditEvent) : Prop :=
  exists kept lost, trail w' = trail w ++ kept /\ unrecorded w' = unrecorded w ++ lost /\ kept ++ lost ≡ₚ evs.

Lemma logged_none w w' : trail w' = trail w -> unrecorded w' = unrecorded w -> logged w w' [].
Proof. intros Ht Hu. exists [], []. by rewrite !app_nil_r. Qed.

Lemma logged_trans w1 w2 w3 l l' : logged w1 w2 l -> logged w2 w3 l' -> logged w1 w3 (l ++ l').
Proof.
  intros (k & x & Ht & Hu & Hp) (k' & x' & Ht' & Hu' & Hp'). exists (k ++ k'), (x ++ x'). rewrite Ht', Ht, Hu', Hu, !app_assoc. split_and!; [done..|].
  rewrite <- Hp, <- Hp'. solve_Permutation.
Qed.

Lemma record_logged ev w x w' : record fault ev w = (x, w') -> db w' = db w /\ logged w w' [ev].
Proof.
  unfold record. intros H. destruct (fault _); injection H as <- <-; (split; [done|]).
  - by exists [ev], []; rewrite app_nil_r.
  - by exists [], [ev]; rewrite app_nil_r.
  - by exists [], [ev]; rewrite app_nil_r.
Qed.

(** An event stamped with the clock and recorded. *)
Lemma record_inv {B} (f : Z -> AuditEvent) (b : B) w r w' :
  bind (now clock) (fun t => bind (record fault (f t)) (fun _ => ret b)) w = (r, w') -> r = b /\ db w' = db w /\ exists t, logged w w' [f t].
Proof.
  unfold bind, now, ret. destruct (record _ _ _) as [x w2] eqn:E. intros [= <- <-]. apply record_logged in E as [Edb L]. split_and!; [done..|]. eexists. exact L.
Qed.

(** ** Deciding *)

(** A system decision that the store answered leaves the row decided. *)
Lemma decideCall_inv id d w r w' : decideCall env fault clock id d w = (r, w') ->
  exists s at_, acts (db w) s /\ trail w' = trail w /\ unrecorded w' = unrecorded w /\
    ((r, db w') = DecideApproval id d at_ s \/ exists e, r = inl (StoreErr e) /\ (db w' = s \/ db w' = snd (DecideApproval id d at_ s))).
Proof.
  unfold decideCall, bind, now. intros H. apply call_inv in H as (s & Hs & Ht & Hu & H). cbn in *. eauto 7.
Qed.

Lemma decide_landed id d at_ s r s' : keyed s -> DecideApproval id d at_ s = (inr r, s') ->
  exists a, approvals s !! id = Some a /\ pending a = true /\ approvals s' !! id = Some (decided a d at_) /\ r = readRow s' (decided a d at_).
Proof.
  intros Hk. unfold DecideApproval. destruct (approvals s !! id) as [a|] eqn:Ha; [|done]. destruct (mayDecide s a d at_) eqn:Hm; [|done].
  intros [= <- <-]. exists a. apply andb_prop in Hm as [Hp _]. split_and!; [done..| |done]. unfold setRow. cbn. change (ID (decided a d at_)) with (ID a).
  rewrite (Hk _ _ Ha). apply lookup_insert_eq.
Qed.

Lemma decideData_decision id d a : ("decision", DText (stateText (dState d))) ∈ decideData id d a.
Proof. unfold decideData. right. left. Qed.

(** C12: at most one decision lands on an approval. A decision that succeeded is the
    row's state, decider, reason and scope, and one audit event, recorded or logged
    as lost, names the row, the decider as the kind of actor that decided, and the
    state; and after anything else has run, no further decision succeeds. *)
Theorem one_decision_lands id by_ d w r w1 w2 by2 d2 :
  tableOK jsonb (db w) -> dState d <> ApprovalPending -> Decide env fault clock id by_ d w = (inr r, w1) ->
  rtc (act jsonb) (db w1) (db w2) ->
  (exists b, approvals (db w2) !! id = Some b /\ aState b = dState d /\ DecidedBy b = dBy d /\ aReason b = dReason d /\ DecisionScope b = dScope d) /\
  (exists ev, logged w w1 [ev] /\ evActorType ev = by_ /\ evActor ev = dBy d /\ evTarget ev = id /\ evRun ev = RunID r /\
     ("decision", DText (stateText (dState d))) ∈ evData ev) /\
  (forall r2 w3, Decide env fault clock id by2 d2 w2 <> (inr r2, w3)).
Proof.
  intros Hok Hd H Hrest. unfold Decide, bind in H. destruct (decideCall _ _ _ _ _ w) as [x wm] eqn:E.
  apply decideCall_inv in E as (s & at_ & Hs & Ht & Hu & E). destruct x as [[]|res]; try done. cbn in H.
  destruct E as [E|(e & E & _)]; [|done]. symmetry in E. pose proof (acts_ok _ _ _ Hok Hs) as Hoks.
  destruct (decide_landed _ _ _ _ _ _ (tb_keyed _ _ Hoks) E) as (a & Ha & _ & Hb & Hres).
  apply (record_inv (fun t => mkEvent t _ by_ (dBy d) _ id _ (decideData id d res))) in H as ([= ->] & Edb & t & Hlog).
  rewrite Edb in Hrest. pose proof (logged_trans _ _ _ _ _ (logged_none _ _ Ht Hu) Hlog) as Hev. cbn [app] in Hev.
  assert (Hokm : tableOK jsonb (db wm)) by (eapply acts_ok; [exact Hoks|]; replace (db wm) with (snd (DecideApproval id d at_ s)) by (by rewrite E); by apply acts_decide).
  destruct (decisions_final_row _ _ _ _ _ Hokm Hrest Hb Hd) as (b & Hb2 & Hst & Hby & Hre & Hsc). split_and!; [by exists b| |].
  { eexists. split; [exact Hev|]. split_and!; [done..|apply decideData_decision]. }
  intros r2 w3 H2. unfold Decide, bind in H2. destruct (decideCall _ _ _ _ _ w2) as [x wn] eqn:E2.
  apply decideCall_inv in E2 as (s2 & at2 & Hs2 & _ & _ & E2). destruct x as [[]|res2]; try done. destruct E2 as [E2|(e & E2 & _)]; [|done].
  symmetry in E2. pose proof (acts_ok _ _ _ Hokm Hrest) as Hok2. pose proof (acts_ok _ _ _ Hok2 Hs2) as Hok3.
  destruct (decide_landed _ _ _ _ _ _ (tb_keyed _ _ Hok3) E2) as (c & Hc & Hp & _).
  destruct (acts_forward _ _ _ _ _ Hok2 Hs2 Hb2) as (c' & Hc' & [_ Hf _ _]). rewrite Hc in Hc'. injection Hc' as <-.
  destruct Hf as (Hst2 & _); [unfold terminal; cbn in Hst; congruence|]. apply bool_decide_eq_true in Hp. cbn in Hst. congruence.
Qed.

(** ** Raising *)

Section Raise.
Context (digest : string -> string) (freshID : nat -> string) `{!Jsonb jsonb} `{!Inj eq eq digest}.
Notation request := (RequestApproval jsonb digest env fault clock freshID).

(** A row of the request: same run and kind, a scope of the same value, and open. *)
Record answers (req a : ApprovalRequest) : Prop := mkAnswers {
  an_state : aState a = ApprovalPending;
  an_run : RunID a = RunID req;
  an_kind : aKind a = aKind req;
  an_scope : scopeValue (RequestedScope a) = scopeValue (RequestedScope req);
}.

Lemma list_pending_inv run s x : keyed s -> x ∈ ListPendingApprovalsForRuns run s ->
  exists a, approvals s !! ID x = Some a /\ aState a = ApprovalPending /\ RunID a = run /\ x = readRow s a.
Proof.
  unfold ListPendingApprovalsForRuns. intros Hk. rewrite list_elem_of_fmap. intros ([k a] & -> & Hx).
  apply list_elem_of_In, filter_In in Hx as [Hin Hf]. apply list_elem_of_In, elem_of_map_to_list in Hin. cbn in *.
  apply andb_prop in Hf as [Hp Hr]. apply bool_decide_eq_true in Hp. apply String.eqb_eq in Hr. exists a. rewrite (Hk _ _ Hin). done.
Qed.

Lemma runs_findPendingDup req hash : runs (findPendingDup digest env fault req hash).
Proof. apply runs_bind; [apply runs_call; intros s; apply rtc_refl|]. intros r. apply runs_ret. Qed.

Lemma found_inv req req0 hash w x w' : tableOK jsonb (db w) -> Valid (RequestedScope req0) = true -> aKind req0 <> ApprovalCredential ->
  RunID req = RunID req0 -> aKind req = aKind req0 -> hash = scopeHash digest (RunID req0) (aKind req0) (canonicalScope (RequestedScope req0)) ->
  findPendingDup digest env fault req hash w = (inr (Some x), w') ->
  exists a, acts (db w) (db w') /\ approvals (db w') !! ID x = Some a /\ answers req0 a /\ x = readRow (db w') a.
Proof.
  intros Hok Hv Hk Er Ek -> H. unfold findPendingDup, bind in H. destruct (call _ _ _ w) as [r wm] eqn:E. apply call_inv in E as (s & Hs & _ & _ & E).
  destruct E as [[= -> Edb]|(e & -> & _)]; [|done]. injection H as H <-. rewrite Edb. pose proof (acts_ok _ _ _ Hok Hs) as Hoks.
  apply findFirst_Some in H as [Hin Hsame]. destruct (list_pending_inv _ _ _ (tb_keyed _ _ Hoks) Hin) as (a & Ha & Hp & Hrun & Hx).
  exists a. split_and!; [done|done| |done]. apply andb_prop in Hsame as [Hsame Hh]. apply andb_prop in Hsame as [_ Hkind]. apply bool_decide_eq_true in Hkind.
  apply String.eqb_eq, (inj digest) in Hh. rewrite Hx in Hh, Hkind. cbn in Hh, Hkind.
  destruct (tb_scopes _ _ Hoks _ _ Ha ltac:(congruence)) as (y & Vy & Jy). destruct (jsonb_value _ _ Jy) as [Va _].
  assert (Ea : RunID a = RunID req0) by congruence.
  apply scopeText_iff in Hh; [|by rewrite Ea|done|by apply canonicalScope_valid]. destruct Hh as (_ & _ & Hsv). rewrite canonicalScope_value in Hsv.
  constructor; congruence.
Qed.

Lemma rejoin_inv id run k w r w' : tableOK jsonb (db w) -> Rejoin env fault clock id run k w = (inr (Some r), w') ->
  exists s a at_, acts (db w) s /\ approvals s !! id = Some a /\ aState a = ApprovalPending /\ approvals (db w') !! id = Some (rejoined a at_) /\ r = readRow (db w') (rejoined a at_).
Proof.
  intros Hok H. unfold Rejoin, bind, now in H. cbn in H. destruct (call _ _ _ _) as [x wm] eqn:E. apply call_inv in E as (s & Hs & _ & _ & E). cbn in Hs.
  destruct E as [E|(e & -> & _)]; [|done]. destruct x as [?|o]; [done|]. injection H as -> <-. unfold StampApprovalRejoin in E.
  destruct (approvals s !! id) as [a|] eqn:Ha; [|done]. destruct (_ && pending a) eqn:Hc; [|done]. injection E as -> Edb. rewrite Edb.
  apply andb_prop in Hc as [_ Hp]. apply bool_decide_eq_true in Hp. exists s, a, (clock (ticks w)). split_and!; try done.
  unfold setRow. cbn. rewrite (tb_keyed _ _ (acts_ok _ _ _ Hok Hs) _ _ Ha). apply lookup_insert_eq.
Qed.

Lemma create_inv req id at_ s c s' : Valid (RequestedScope req) = true ->
  CreateApproval jsonb (fresh (withScope req (canonicalScope (RequestedScope req))) id at_) s = (inr c, s') ->
  exists a, approvals s' !! ID c = Some a /\ answers req a /\ c = readRow s' a.
Proof.
  intros Hv. unfold CreateApproval, marshalRaw. cbn [RequestedScope fresh withScope]. pose proof (canonicalScope_valid _ Hv) as Hv'. rewrite Hv'.
  destruct (String.eqb_spec (canonicalScope (RequestedScope req)) "") as [E|_]; [by rewrite E in Hv'|].
  destruct (jsonb _) as [t|] eqn:Hj; [|done]. destruct (conflicts _ _); [done|]. intros [= <- <-]. eexists. split_and!; [apply lookup_insert_eq| |done].
  destruct (jsonb_value _ _ Hj) as [_ Hs]. rewrite canonicalScope_value in Hs. by constructor.
Qed.

(** What a raise that succeeded saw: an open row of the request in the table at some
    point of it. *)
Lemma request_seen req w r w' : tableOK jsonb (db w) -> Valid (RequestedScope req) = true -> aKind req <> ApprovalCredential ->
  request req w = (inr r, w') ->
  exists s a e, acts (db w) s /\ acts s (db w') /\ approvals s !! ID r = Some a /\ answers req a /\ r = withExpires a e.
Proof.
  intros Hok Hv Hk H. unfold RequestApproval, bind in H. set (req1 := withScope req _) in H. set (hash := scopeHash _ _ _ _) in H.
  destruct (findPendingDup _ _ _ req1 hash w) as [dup w1] eqn:E. pose proof (runs_findPendingDup req1 hash w) as R1. rewrite E in R1. cbn in R1.
  destruct dup as [?|[x|]]; [done| |].
  - destruct (found_inv req1 req hash w x w1 Hok Hv Hk eq_refl eq_refl eq_refl E) as (a & _ & Ha & Han & ->).
    destruct (Rejoin _ _ _ _ _ _ w1) as [rj w2] eqn:Ej. pose proof (runs_Rejoin (ID (readRow (db w1) a)) (RunID (readRow (db w1) a)) (aKind (readRow (db w1) a)) w1) as R2.
    rewrite Ej in R2. cbn in R2. injection H as <- <-. destruct rj as [?|[r|]]; try (by exists (db w1), a, (expiresOf (db w1) a)).
    pose proof (acts_ok _ _ _ Hok R1) as Hok1. destruct (rejoin_inv _ _ _ _ _ _ Hok1 Ej) as (s & b & at_ & Hs & Hb & Hpb & Hb' & ->).
    destruct (acts_forward _ _ _ _ _ Hok1 Hs Ha) as (b0 & Hb0 & Hf). rewrite Hb in Hb0. injection Hb0 as <-. destruct (fw_same _ _ Hf) as (Ei & Er & _ & Ek & Es & _).
    pose proof (tb_keyed _ _ (acts_ok _ _ _ Hok1 Hs) _ _ Hb) as Eid.
    exists (db w2), (rejoined b at_), (expiresOf (db w2) (rejoined b at_)). split_and!; [by etransitivity|apply rtc_refl| | |done].
    + cbn. rewrite Eid. exact Hb'.
    + destruct Han. constructor; cbn; congruence.
  - destruct ((if String.eqb (ID req1) nilUUID then newID freshID else ret (ID req1)) w1) as [id w2] eqn:Ei.
    assert (Edb2 : db w2 = db w1) by (destruct (String.eqb _ _); injection Ei as <- <-; done). cbn [now] in H.
    destruct (call _ _ _ _) as [created w3] eqn:Ec in H. apply call_inv in Ec as (s & Hs & _ & _ & Ec). cbn [db] in Hs. rewrite Edb2 in Hs.
    set (row := fresh req1 id _) in Ec, H.
    assert (R3 : forall t, acts t (snd (CreateApproval jsonb row t))) by (intros t; apply (acts_create row (RequestedScope req)); done).
    destruct Ec as [Ec|(e & -> & _)]; [|done]. pose proof (R3 s) as R3'. rewrite <- Ec in R3'. cbn in R3'.
    assert (R : acts (db w) (db w3)) by (etransitivity; [exact R1|]; by etransitivity). destruct created as [[]|c]; try done.
    + destruct (findPendingDup _ _ _ row hash w3) as [again w4] eqn:E4. destruct again as [?|[x|]]; try done. injection H as <- <-.
      pose proof (acts_ok _ _ _ Hok R) as Hok3.
      destruct (found_inv row req hash w3 x w4 Hok3 Hv Hk eq_refl eq_refl eq_refl E4) as (a & R4 & Ha & Han & ->).
      exists (db w4), a, (expiresOf (db w4) a). split_and!; [by etransitivity|apply rtc_refl|done..].
    + injection H as <- <-. symmetry in Ec. destruct (create_inv _ _ _ _ _ _ Hv Ec) as (a & Ha & Han & ->).
      exists (db w3), a, (expiresOf (db w3) a). split_and!; [done|apply rtc_refl|done..].
Qed.

(** A raise that succeeds answers an open request: the row it returns is
    PENDING, for the run and the kind asked about, with a scope of the same value
    and no decision of any sort on it, whatever decision the caller pre-seeded; and
    the table holds that row, for the same request, when the call returns. *)
Theorem raise_returns_an_open_row req w r w' :
  tableOK jsonb (db w) -> Valid (RequestedScope req) = true -> aKind req <> ApprovalCredential -> request req w = (inr r, w') ->
  aState r = ApprovalPending /\ RunID r = RunID req /\ aKind r = aKind req /\ scopeValue (RequestedScope r) = scopeValue (RequestedScope req) /\
  DecidedAt r = None /\ DecidedBy r = "" /\ aReason r = "" /\ DecisionScope r = "" /\ DecisionExpiresAt r = None /\
  exists b, approvals (db w') !! ID r = Some b /\ RunID b = RunID req /\ aKind b = aKind req /\ RequestedScope b = RequestedScope r.
Proof.
  intros Hok Hv Hk H. destruct (request_seen _ _ _ _ Hok Hv Hk H) as (s & a & e & R1 & R2 & Ha & [Hst Hr Hkd Hsc] & ->). cbn in Ha.
  pose proof (acts_ok _ _ _ Hok R1) as Hoks. destruct (tb_open _ _ Hoks _ _ Ha Hst) as (? & ? & ? & ? & ?).
  destruct (acts_forward _ _ _ _ _ Hoks R2 Ha) as (b & Hb & Hf). destruct (fw_same _ _ Hf) as (_ & Er & _ & Ek & Es & _).
  cbn. split_and!; try done. exists b. split_and!; [done|congruence..].
Qed.

(** C11: raises of one request meet on one row: if two raises of the same run, kind
    and scope value both succeed, with anything running before, between and during
    them, and the first one's row is still open when the second returns, then the
    second returned that same row. *)
Theorem equal_raises_meet req1 req2 w1 r1 w2 w3 r2 w4 a :
  tableOK jsonb (db w1) -> Valid (RequestedScope req1) = true -> Valid (RequestedScope req2) = true -> aKind req1 <> ApprovalCredential ->
  RunID req1 = RunID req2 -> aKind req1 = aKind req2 -> scopeValue (RequestedScope req1) = scopeValue (RequestedScope req2) ->
  request req1 w1 = (inr r1, w2) -> rtc (act jsonb) (db w2) (db w3) -> request req2 w3 = (inr r2, w4) ->
  approvals (db w4) !! ID r1 = Some a -> aState a = ApprovalPending -> ID r2 = ID r1.
Proof.
  intros Hok V1 V2 Hk Er Ek Es H1 Hm H2 Ha Hp. destruct (request_seen _ _ _ _ Hok V1 Hk H1) as (s1 & a1 & e1 & A1 & A2 & L1 & [P1 R1 K1 S1] & ->).
  pose proof (acts_ok _ _ _ Hok A1) as Oks1. pose proof (acts_ok _ _ _ Oks1 A2) as Ok2. pose proof (acts_ok _ _ _ Ok2 Hm) as Ok3.
  destruct (request_seen _ _ _ _ Ok3 V2 ltac:(congruence) H2) as (s2 & a2 & e2 & B1 & B2 & L2 & [P2 R2 K2 S2] & ->). cbn in *.
  pose proof (acts_ok _ _ _ Ok3 B1) as Oks2.
  destruct (acts_forward _ _ _ _ _ Oks1 (acts_trans _ _ _ A2 (acts_trans _ _ _ Hm B1)) L1) as (b & Lb & Fb).
  destruct (acts_forward _ _ _ _ _ Oks2 B2 Lb) as (c & Lc & [_ Hfin _ _]). rewrite Ha in Lc. injection Lc as <-.
  assert (Pb : aState b = ApprovalPending).
  { destruct (decide (aState b = ApprovalPending)) as [|Hn]; [done|]. destruct (Hfin Hn) as (E & _). congruence. }
  destruct (fw_same _ _ Fb) as (_ & Fr & _ & Fk & Fs & _).
  assert (E : clash a2 b = true -> ID a2 = ID a1) by (intros; by eapply (tb_unique _ _ Oks2)).
  apply E. clear E. destruct (tb_scopes _ _ Oks2 _ _ L2 ltac:(congruence)) as (x & Vx & Jx), (tb_scopes _ _ Oks2 _ _ Lb ltac:(congruence)) as (y & Vy & Jy).
  apply clash_text; try congruence. apply (stored_text_value jsonb x y _ _ Vx Vy Jx Jy). congruence.
Qed.
End Raise.

(** ** Sweeping *)

Definition total (m : gmap string Z) : Z := map_fold (fun _ v acc => v + acc) 0 m.

Lemma tally_insert k v m : m !! k = None -> total (<[k := v]> m) = v + total m.
Proof. intros H. unfold total. apply map_fold_insert_L; [intros; lia|done]. Qed.

Lemma total_add k m : total (tallyAdd k m) = total m + 1.
Proof.
  unfold tallyAdd. destruct (m !! k) as [v|] eqn:E; cbn [default]; [|rewrite tally_insert by done; lia].
  assert (E1 : total m = v + total (delete k m)) by (rewrite <- (insert_delete_id m k v E) at 1; apply tally_insert, lookup_delete_eq).
  rewrite <- insert_delete_eq, tally_insert by apply lookup_delete_eq. unfold id. lia.
Qed.

(** What a stretch of a sweep did: one event per row it moved, counted, each of a
    row that was open, is EXPIRED now, and is moved once. *)
Definition progress (st : ApprovalState) (w : world) (n : Z) (m : gmap string Z) (w' : world) (n' : Z) (m' : gmap string Z) (ids : list string) : Prop :=
  acts (db w) (db w') /\ n' = n + Z.of_nat (length ids) /\ total m' = total m + Z.of_nat (length ids) /\ NoDup ids /\
  (forall id, id ∈ ids -> (exists b, approvals (db w') !! id = Some b /\ aState b = st) /\
     forall a, approvals (db w) !! id = Some a -> aState a = ApprovalPending).

Lemma progress_refl st w w' n m : acts (db w) (db w') -> progress st w n m w' n m [].
Proof. intros H. split_and!; [done|cbn; lia..|constructor|]. intros id Hid. by apply not_elem_of_nil in Hid. Qed.

Lemma progress_trans st w1 n1 m1 w2 n2 m2 w3 n3 m3 l l' : terminal st -> tableOK jsonb (db w1) ->
  progress st w1 n1 m1 w2 n2 m2 l -> progress st w2 n2 m2 w3 n3 m3 l' -> progress st w1 n1 m1 w3 n3 m3 (l ++ l').
Proof.
  intros Hst Hok (A & N & T & D & R) (A' & N' & T' & D' & R'). pose proof (acts_ok _ _ _ Hok A) as Hok2.
  split_and!; [by eapply acts_trans|rewrite length_app; lia..| |].
  - apply NoDup_app. split_and!; [done| |done]. intros id Hid Hid'. destruct (R id Hid) as ((b & Hb & Hs) & _), (R' id Hid') as (_ & Ho).
    specialize (Ho _ Hb). unfold terminal in Hst. congruence.
  - intros id [Hid|Hid]%elem_of_app.
    + destruct (R id Hid) as ((b & Hb & Hs) & Ho). split; [|done]. destruct (decisions_final_row _ _ _ _ _ Hok2 A' Hb) as (c & Hc & E & _); [by rewrite Hs|].
      exists c. split; congruence.
    + destruct (R' id Hid) as (He & Ho). split; [done|]. intros a Ha. destruct (decide (aState a = ApprovalPending)) as [|Hn]; [done|].
      destruct (decisions_final_row _ _ _ _ _ Hok A Ha Hn) as (c & Hc & E & _). specialize (Ho _ Hc). congruence.
Qed.

(** A system decision: the row moved; it was decided already; or the call failed. *)
Lemma systemDecide id st reason w r w' : terminal st -> st = ApprovalExpired \/ st = ApprovalCancelled -> tableOK jsonb (db w) ->
  decideCall env fault clock id (bySystem st reason) w = (r, w') -> acts (db w) (db w') /\ logged w w' [] /\
  match r with
  | inr _ => (exists b, approvals (db w') !! id = Some b /\ aState b = st /\ aReason b = reason) /\
             forall a, approvals (db w) !! id = Some a -> aState a = ApprovalPending
  | inl ErrAlreadyDecided => exists b, approvals (db w') !! id = Some b /\ aState b <> ApprovalPending
  | inl ErrNotFound => approvals (db w) !! id = None
  | inl _ => True
  end.
Proof.
  intros Ht Hsys Hok H. pose proof (runs_decideCall id (bySystem st reason) Ht w) as R. rewrite H in R. cbn in R. split; [done|].
  apply decideCall_inv in H as (s & at_ & Hs & Htr & Hun & H). split; [by apply logged_none|]. pose proof (acts_ok _ _ _ Hok Hs) as Hoks.
  destruct H as [H|(e & -> & _)]; [|done]. symmetry in H. destruct r as [e|res].
  - unfold DecideApproval in H. destruct (approvals s !! id) as [a|] eqn:Ha.
    + destruct (mayDecide s a _ at_) eqn:Hm; [done|]. injection H as <- <-. exists a. split; [done|]. intros Hp. unfold mayDecide, pending in Hm.
      rewrite Hp in Hm. cbn in Hm. by destruct Hsys as [-> | ->].
    + injection H as <- _. destruct (approvals (db w) !! id) as [a|] eqn:Ha'; [|done]. destruct (acts_forward _ _ _ _ _ Hok Hs Ha') as (b & Hb & _). congruence.
  - destruct (decide_landed _ _ _ _ _ _ (tb_keyed _ _ Hoks) H) as (a & Ha & Hp & Hb & _). split; [eexists; split; [exact Hb|done]|].
    intros a0 Ha0. apply bool_decide_eq_true in Hp. destruct (decide (aState a0 = ApprovalPending)) as [|Hn]; [done|].
    destruct (decisions_final_row _ _ _ _ _ Hok Hs Ha0 Hn) as (c & Hc & E & _). congruence.
Qed.

Definition expiry (ev : AuditEvent) : Prop := evAction ev = "approval.expire" /\ evActorType ev = ActorSystem.

Definition settled (id : string) (w' : world) (errs : list svcErr) : Prop :=
  (exists b, approvals (db w') !! id = Some b /\ aState b <> ApprovalPending) \/ exists e, SvcErr "expire" id e ∈ errs.

Lemma expireOne_inv ap cutoff w r w' : tableOK jsonb (db w) -> is_Some (approvals (db w) !! ID ap) -> expireOne env fault clock ap cutoff w = (r, w') ->
  acts (db w) (db w') /\ settled (ID ap) w' (snd r) /\
  if fst r then (exists ev, logged w w' [ev] /\ evTarget ev = ID ap /\ expiry ev) /\ (exists b, approvals (db w') !! ID ap = Some b /\ aState b = ApprovalExpired) /\
                forall a, approvals (db w) !! ID ap = Some a -> aState a = ApprovalPending
  else logged w w' [].
Proof.
  intros Hok [a Ha] H. unfold expireOne, bind at 1 in H. destruct (decideCall _ _ _ _ _ w) as [x wm] eqn:E.
  apply systemDecide in E as (A & L & E); [|done|by left|done]. destruct x as [e|res].
  - assert (r = (false, match e with ErrAlreadyDecided => [] | _ => [SvcErr "expire" (ID ap) e] end) /\ w' = wm) as [-> ->] by (destruct e; injection H as <- <-; done).
    cbn. split_and!; [done| |done]. destruct e; try (right; eexists; by left). by left.
  - apply (record_inv (fun t => mkEvent t _ ActorSystem _ "approval.expire" (ID ap) _ _)) in H as (-> & Edb & t & Hlog). cbn. rewrite Edb.
    destruct E as ((b & Hb & Hst & _) & Ho). split_and!; [done| | | |done].
    + left. exists b. rewrite Edb. split; [done|]. by rewrite Hst.
    + eexists. split; [exact (logged_trans _ _ _ _ _ L Hlog)|]. by split.
    + by exists b.
Qed.

Definition swept (w : world) (acc : tally) (w' : world) (acc' : tally) : Prop :=
  exists evs, logged w w' evs /\ Forall expiry evs /\ failures acc ⊆ failures acc' /\
    progress ApprovalExpired w (moved acc) (byKind acc) w' (moved acc') (byKind acc') (map evTarget evs).

Lemma swept_refl w w' acc : acts (db w) (db w') -> logged w w' [] -> swept w acc w' acc.
Proof. intros A L. exists []. split_and!; [done|constructor|done|by apply progress_refl]. Qed.

Lemma swept_trans w1 acc1 w2 acc2 w3 acc3 : tableOK jsonb (db w1) -> swept w1 acc1 w2 acc2 -> swept w2 acc2 w3 acc3 -> swept w1 acc1 w3 acc3.
Proof.
  intros Hok (l & L & F & S & P) (l' & L' & F' & S' & P'). exists (l ++ l').
  split_and!; [by eapply logged_trans|by apply Forall_app|set_solver|]. rewrite map_app. by eapply progress_trans.
Qed.

Lemma swept_acts w acc w' acc' : swept w acc w' acc' -> acts (db w) (db w').
Proof. by intros (evs & _ & _ & _ & A & _). Qed.

Lemma settled_mono id w errs w' errs' : tableOK jsonb (db w) -> acts (db w) (db w') -> errs ⊆ errs' -> settled id w errs -> settled id w' errs'.
Proof.
  intros Hok A S [(b & Hb & Hn)|(e & He)]; [left|right; exists e; by apply S].
  destruct (decisions_final_row _ _ _ _ _ Hok A Hb Hn) as (c & Hc & E & _). exists c. split; [done|congruence].
Qed.

Lemma expireRows_inv batch cutoff acc w acc' w' : tableOK jsonb (db w) -> (forall ap, ap ∈ batch -> is_Some (approvals (db w) !! ID ap)) ->
  expireRows uuidParse env fault clock batch cutoff acc w = (acc', w') ->
  swept w acc w' acc' /\ forall ap, ap ∈ batch -> settled (ID ap) w' (failures acc').
Proof.
  revert acc w. induction batch as [|ap batch IH]; intros acc w Hok Hrows H.
  { injection H as <- <-. split; [apply swept_refl; [apply rtc_refl|by apply logged_none]|]. intros ap Hap. by apply not_elem_of_nil in Hap. }
  cbn [expireRows] in H. unfold bind in H. destruct (expireOne _ _ _ ap cutoff w) as [[ok errs] wm] eqn:E.
  apply expireOne_inv in E as (A & Hset & E); [|done|apply Hrows; left]. cbn [fst snd] in *. set (acc1 := if ok then _ else _) in H.
  assert (Hf : errs ⊆ failures acc1) by (unfold acc1; destruct ok; cbn; set_solver). assert (Hs1 : swept w acc wm acc1).
  { unfold acc1. destruct ok.
    - destruct E as ((ev & L & Et & He) & (b & Hb & Hst) & Ho). exists [ev]. split_and!; [done|by constructor|cbn; set_solver|]. cbn [map]. rewrite Et. cbn [moved byKind].
      split_and!; [done|cbn; lia|rewrite total_add; cbn; lia|apply NoDup_singleton|]. intros id ->%list_elem_of_singleton. split; [by exists b|done].
    - exists []. split_and!; [done|constructor|cbn; set_solver|]. by apply progress_refl. }
  pose proof (acts_ok _ _ _ Hok A) as Hokm. apply IH in H as [Hs2 Hall]; [|done|].
  - split; [by eapply swept_trans|]. intros ap' [->|Hap]%elem_of_cons; [|by apply Hall]. eapply settled_mono; [exact Hokm|by eapply swept_acts| |exact Hset].
    destruct Hs2 as (_ & _ & _ & S & _). set_solver.
  - intros ap' Hap. destruct (Hrows ap' ltac:(by right)) as [a Ha]. destruct (acts_forward _ _ _ _ _ Hok A Ha) as (b & Hb & _). by exists b.
Qed.

(** A page: rows of the table as the call found it. *)
Lemma read_inv {A} (f : store -> A) w r w' : callE (fun s => (inr (f s), s)) w = (r, w') ->
  db w' = env (ticks w) (db w) /\ logged w w' [] /\ (r = inr (f (db w')) \/ exists e, r = inl (StoreErr e)).
Proof.
  unfold call. intros H. destruct (fault _); injection H as <- <-; cbn; (split_and!; [done|by apply logged_none|eauto]).
Qed.

Lemma page_row at_ cutoff after n s x : keyed s -> x ∈ ListExpiredPendingApprovals at_ cutoff after n s ->
  exists a, approvals s !! ID x = Some a /\ String.ltb after (ID x) = true.
Proof.
  unfold ListExpiredPendingApprovals. intros Hk Hx. apply elem_of_take in Hx as (i & Hx & _). apply list_elem_of_lookup_2, list_elem_of_fmap in Hx.
  destruct Hx as (a & -> & Ha). rewrite elem_of_sortBy in Ha. apply list_elem_of_In, filter_In in Ha as [Hin Hf].
  apply in_map_iff in Hin as ([k b] & <- & Hin). apply list_elem_of_In, elem_of_map_to_list in Hin. cbn in *. apply andb_prop in Hf as [_ Hl].
  exists b. by rewrite (Hk _ _ Hin) in *.
Qed.

Lemma pages_swept fuel at_ cutoff after acc w acc' w' : tableOK jsonb (db w) ->
  expirePages uuidParse env fault clock fuel at_ cutoff after acc w = (Some acc', w') -> swept w acc w' acc'.
Proof.
  revert after acc w. induction fuel as [|fuel IH]; intros after acc w Hok H; [done|]. cbn [expirePages] in H. unfold bind in H.
  destruct (call _ _ _ w) as [r wm] eqn:E. apply read_inv in E as (Edb & L & Er). assert (A : acts (db w) (db wm)) by (rewrite Edb; apply Henv).
  pose proof (swept_refl w wm acc A L) as S1. pose proof (acts_ok _ _ _ Hok A) as Hokm. destruct Er as [-> |(e & ->)].
  - destruct (expireRows _ _ _ _ _ _ _ wm) as [acc1 w1] eqn:E1. apply expireRows_inv in E1 as [S2 _]; [|done|].
    + pose proof (swept_trans _ _ _ _ _ _ Hok S1 S2) as S3. pose proof (acts_ok _ _ _ Hok (swept_acts _ _ _ _ S3)) as Hok1.
      destruct (_ <? _)%nat; [by injection H as <- <-|]. destruct (last _) as [ap|]; [|by injection H as <- <-]. eapply swept_trans; [done|exact S3|by eapply IH].
    + intros ap Hap. destruct (page_row _ _ _ _ _ _ (tb_keyed _ _ Hokm) Hap) as (a & Ha & _). by exists a.
  - injection H as <- <-. destruct S1 as (evs & ? & ? & _ & ?). exists evs. split_and!; [done|done|cbn; set_solver|done].
Qed.

(** The sweep's books are true: the count it returns, the tallies by kind and
    the audit events, recorded or logged as lost, all stand for the same rows, each
    of them open before, EXPIRED now, moved once and named by one event of the
    system actor. *)
Theorem sweep_books_are_true fuel olderThan w t w' :
  tableOK jsonb (db w) -> ExpireStaleByKind uuidParse env fault clock fuel olderThan w = (Some t, w') ->
  exists evs, logged w w' evs /\ Forall (fun ev => evAction ev = "approval.expire" /\ evActorType ev = ActorSystem) evs /\
    moved t = Z.of_nat (length evs) /\ total (byKind t) = Z.of_nat (length evs) /\ NoDup (map evTarget evs) /\
    forall ev, ev ∈ evs -> (exists b, approvals (db w') !! evTarget ev = Some b /\ aState b = ApprovalExpired) /\
      forall a, approvals (db w) !! evTarget ev = Some a -> aState a = ApprovalPending.
Proof.
  intros Hok H. unfold ExpireStaleByKind, bind, now in H. cbn in H. set (at_ := clock (ticks w)) in H.
  apply pages_swept in H; [|exact Hok]. destruct H as (evs & L & F & _ & _ & N & T & D & R). cbn in N, T.
  rewrite length_map in N, T. exists evs. split_and!; [done|done|lia|unfold total in *; rewrite T, map_fold_empty; lia|done|].
  intros ev Hev. apply R. apply list_elem_of_In, in_map, list_elem_of_In. done.
Qed.

(** An overdue row is on its page, or after it. *)
Lemma take_sorted {A} (leb : A -> A -> bool) (l : list A) n x : StronglySorted leb l -> x ∈ l ->
  x ∈ take n l \/ (length (take n l) = n /\ forall y, y ∈ take n l -> leb y x = true).
Proof.
  intros Hs. revert n. induction Hs as [|y l Hs IH Hy]; intros n Hx; [by apply not_elem_of_nil in Hx|]. destruct n as [|n]; [right; split; [done|]; intros z Hz; by apply not_elem_of_nil in Hz|].
  apply elem_of_cons in Hx as [->|Hx]; [left; left|]. cbn. destruct (IH n Hx) as [H|[E H]]; [left; by right|]. right. split; [by rewrite E|].
  intros z [->|Hz]%elem_of_cons; [|by apply H]. eapply Forall_forall in Hy; [|exact Hx]. by apply Is_true_true.
Qed.

Lemma page_complete at_ cutoff after n s id a : keyed s -> approvals s !! id = Some a -> stale s at_ cutoff a = true -> String.ltb after id = true ->
  let page := ListExpiredPendingApprovals at_ cutoff after n s in
  (exists x, x ∈ page /\ ID x = id) \/ (length page = n /\ forall y, y ∈ page -> String.ltb (ID y) id = true).
Proof.
  intros Hk Ha Hst Hl page. pose proof (Hk _ _ Ha) as Eid. set (l := sortBy rowIDLeb (List.filter (fun a => stale s at_ cutoff a && String.ltb after (ID a)) (map snd (map_to_list (approvals s))))).
  assert (Hp : page = map (readRow s) (take n l)) by (unfold page, ListExpiredPendingApprovals; rewrite firstn_map; done).
  assert (Hin : a ∈ l).
  { unfold l. rewrite elem_of_sortBy. apply list_elem_of_In, filter_In. rewrite Hst, Eid, Hl. split; [|done].
    apply in_map_iff. exists (id, a). split; [done|]. by apply list_elem_of_In, elem_of_map_to_list. }
  assert (Hsort : StronglySorted rowIDLeb l) by (apply sortBy_sorted; unfold rowIDLeb; [intros; apply String.leb_total|intros; by eapply String_leb_trans]).
  destruct (take_sorted rowIDLeb l n a Hsort Hin) as [H|[E H]].
  - left. exists (readRow s a). rewrite Hp. split; [|done]. apply list_elem_of_In, in_map, list_elem_of_In. done.
  - destruct (existsb (fun y => String.eqb (ID y) id) page) eqn:Ex.
    + left. apply existsb_exists in Ex as (y & Hy & Ey). apply String.eqb_eq in Ey. exists y. split; [by apply list_elem_of_In|done].
    + right. rewrite Hp, length_map. split; [done|]. intros y Hy. rewrite <- Hp in Hy.
      assert (Hne : String.eqb (ID y) id = false).
      { destruct (String.eqb (ID y) id) eqn:E2; [|done]. rewrite <- Ex. symmetry. apply existsb_exists. exists y. split; [by apply list_elem_of_In|done]. }
      rewrite Hp in Hy. apply list_elem_of_fmap in Hy as (b & -> & Hb). cbn in *. specialize (H b Hb). unfold rowIDLeb in H. rewrite Eid in H.
      rewrite ltb_leb, negb_true_iff. destruct (String.leb id (ID b)) eqn:E2; [|done]. apply String.eqb_neq in Hne. destruct Hne. by apply String.leb_antisym.
Qed.

Lemma filter_after_le after x (U : list string) : String.ltb after x = true ->
  (length (List.filter (String.ltb x) U) <= length (List.filter (String.ltb after) U))%nat.
Proof.
  intros Hl. induction U as [|y U IH]; cbn; [done|]. destruct (String.ltb x y) eqn:E1, (String.ltb after y) eqn:E2; cbn; try lia.
  rewrite ltb_leb in *. rewrite negb_true_iff in *. rewrite negb_false_iff in E2. pose proof (leb_false_trans _ _ _ E1 Hl). congruence.
Qed.

Lemma filter_after_lt x after (U : list string) : x ∈ U -> String.ltb after x = true ->
  (length (List.filter (String.ltb x) U) < length (List.filter (String.ltb after) U))%nat.
Proof.
  intros Hx Hl. pose proof (filter_after_le after x) as Hle. induction U as [|y U IH]; [by apply not_elem_of_nil in Hx|]. cbn. apply elem_of_cons in Hx as [<-|Hx].
  - rewrite Hl. assert (String.ltb x x = false) as -> by (rewrite ltb_leb; destruct (String.leb_total x x) as [->| ->]; done). cbn. specialize (Hle U Hl). lia.
  - specialize (IH Hx). specialize (Hle [y] Hl). cbn in Hle. destruct (String.ltb x y), (String.ltb after y); cbn in *; lia.
Qed.

(** What the others and the system's own decisions keep, a sweep keeps. *)
Section Keep.
Context (Q : store -> Prop) (Qenv : forall n s, Q s -> Q (env n s)).
Context (Qdecide : forall id st reason at_ s, Q s -> terminal st -> Q (snd (DecideApproval id (bySystem st reason) at_ s))).

Lemma keep_decideCall id st reason w : terminal st -> Q (db w) -> Q (db (snd (decideCall env fault clock id (bySystem st reason) w))).
Proof.
  intros Ht H. unfold decideCall, bind, now, call. cbn. set (n := S (ticks w)). pose proof (Qenv n _ H) as Hs.
  destruct (fault n); cbn; [|done|by apply Qdecide]. pose proof (Qdecide id st reason (clock (ticks w)) _ Hs Ht) as Hd. by destruct (DecideApproval _ _ _ _).
Qed.

Lemma keep_expireOne ap cutoff w : Q (db w) -> Q (db (snd (expireOne env fault clock ap cutoff w))).
Proof.
  intros H. unfold expireOne, bind at 1. pose proof (keep_decideCall (ID ap) ApprovalExpired "stale" w ltac:(done) H) as Hd.
  destruct (decideCall _ _ _ _ _ w) as [[e|r] wm]; [by destruct e|]. destruct (bind _ _ wm) as [x w'] eqn:E.
  apply (record_inv (fun t => mkEvent t _ _ _ _ _ _ _)) in E as (_ & E & _). cbn in *. by rewrite E.
Qed.

Lemma keep_expireRows batch cutoff acc w : Q (db w) -> Q (db (snd (expireRows uuidParse env fault clock batch cutoff acc w))).
Proof.
  revert acc w. induction batch as [|ap batch IH]; intros acc w H; [done|]. cbn [expireRows]. unfold bind.
  pose proof (keep_expireOne ap cutoff w H) as Ho. destruct (expireOne _ _ _ _ _ w) as [r wm]. by apply IH.
Qed.


Section Overdue.
Context (id : string) (at_ cutoff : Z).
Context (Qok : forall s, Q s -> tableOK jsonb s) (Qrow : forall s, Q s -> is_Some (approvals s !! id)).
Context (Qstale : forall s a, Q s -> approvals s !! id = Some a -> aState a = ApprovalPending -> stale s at_ cutoff a = true).

Definition listFailed (errs : list svcErr) : Prop := exists after e, SvcErr "list for expiry" after e ∈ errs.

Lemma pages_settle fuel after acc w acc' w' : Q (db w) -> String.ltb after id = true ->
  expirePages uuidParse env fault clock fuel at_ cutoff after acc w = (Some acc', w') -> settled id w' (failures acc') \/ listFailed (failures acc').
Proof.
  revert after acc w. induction fuel as [|fuel IH]; intros after acc w HQ Hl H; [done|]. pose proof (Qok _ HQ) as Hok. cbn [expirePages] in H. unfold bind in H.
  destruct (call _ _ _ w) as [r wm] eqn:E. apply read_inv in E as (Edb & _ & Er). assert (HQm : Q (db wm)) by (rewrite Edb; by apply Qenv).
  destruct Er as [-> |(e & ->)]; [|injection H as <- <-; right; exists after, (StoreErr e); cbn; set_solver]. set (page := ListExpiredPendingApprovals _ _ _ _ _) in H.
  pose proof (Qok _ HQm) as Hokm. pose proof (keep_expireRows page cutoff acc wm HQm) as HQ1. destruct (expireRows _ _ _ _ _ _ _ wm) as [acc1 w1] eqn:E1. cbn in HQ1.
  apply expireRows_inv in E1 as [S2 Hset]; [|done|intros ap Hap; destruct (page_row _ _ _ _ _ _ (tb_keyed _ _ Hokm) Hap) as (c & Hc & _); by exists c].
  assert (Hrest : settled id w1 (failures acc1) -> settled id w' (failures acc')).
  { destruct (_ <? _)%nat; [by injection H as <- <-|]. destruct (last _) as [ap|]; [|by injection H as <- <-]. apply pages_swept in H; [|by apply Qok].
    apply settled_mono; [by apply Qok|by eapply swept_acts|]. by destruct H as (_ & _ & _ & S & _). }
  destruct (Qrow _ HQm) as [a Ha]. destruct (decide (aState a = ApprovalPending)) as [Hp|Hn].
  - destruct (page_complete at_ cutoff after expireBatch _ id a (tb_keyed _ _ Hokm) Ha (Qstale _ _ HQm Ha Hp) Hl) as [(x & Hx & <-)|[El Hall]]; [left; by apply Hrest, Hset|].
    fold page in El, Hall. rewrite El, Nat.ltb_irrefl in H. destruct (last page) as [ap|] eqn:Elast; [|by apply last_None in Elast; rewrite Elast in El].
    eapply IH; [exact HQ1| |exact H]. apply Hall. by apply last_Some_elem_of.
  - left. apply Hrest, (settled_mono _ wm []); [done|by eapply swept_acts|set_solver|]. left. by exists a.
Qed.
End Overdue.

(** The pages end: their rows are taken from identifiers [U], each page past the one
    before. *)
Lemma pages_end (U : list string) fuel at_ cutoff after acc w : (forall s, Q s -> tableOK jsonb s) -> (forall s k, Q s -> is_Some (approvals s !! k) -> k ∈ U) ->
  Q (db w) -> (length (List.filter (String.ltb after) U) < fuel)%nat -> exists acc' w', expirePages uuidParse env fault clock fuel at_ cutoff after acc w = (Some acc', w').
Proof.
  intros Qok QU. revert after acc w. induction fuel as [|fuel IH]; intros after acc w HQ Hf; [lia|]. cbn [expirePages]. unfold bind.
  destruct (call _ _ _ w) as [r wm] eqn:E. apply read_inv in E as (Edb & _ & Er). assert (HQm : Q (db wm)) by (rewrite Edb; by apply Qenv).
  destruct Er as [-> |(e & ->)]; [|by eexists _, _]. set (page := ListExpiredPendingApprovals _ _ _ _ _).
  pose proof (keep_expireRows page cutoff acc wm HQm) as HQ1. destruct (expireRows _ _ _ _ _ _ _ wm) as [acc1 w1] eqn:E1. cbn in HQ1.
  destruct (_ <? _)%nat; [by eexists _, _|]. destruct (last page) as [ap|] eqn:El; [|by eexists _, _]. apply last_Some_elem_of in El.
  destruct (page_row _ _ _ _ _ _ (tb_keyed _ _ (Qok _ HQm)) El) as (a & Ha & Hlt). apply IH; [done|].
  eapply Nat.lt_le_trans; [|apply Nat.lt_succ_r, Hf]. apply (filter_after_lt (ID ap)); [by apply (QU _ _ HQm); exists a|done].
Qed.
End Keep.

Lemma decide_runs id d at_ s : agentRuns (snd (DecideApproval id d at_ s)) = agentRuns s.
Proof. unfold DecideApproval. destruct (_ !! _); [|done]. by destruct (mayDecide _ _ _ _). Qed.

Lemma decide_rows id d at_ s k : keyed s -> is_Some (approvals (snd (DecideApproval id d at_ s)) !! k) -> is_Some (approvals s !! k).
Proof.
  unfold DecideApproval. destruct (approvals s !! id) as [a|] eqn:E; [|done]. destruct (mayDecide _ _ _ _); [|done]. intros Hk. cbn.
  rewrite (Hk _ _ E). intros [b Hb]. apply lookup_insert_Some in Hb as [[<- _]|[_ H]]; by eexists.
Qed.

(** Row [id] is due at [at_] however the store changes: past the ceiling, or past its
    own expiry while its own run's times are left alone. *)
Definition dueAt (at_ olderThan : Z) (s : store) (a : ApprovalRequest) : Prop :=
  RequestedAt a <= at_ - olderThan \/
  ((exists e, expiresOf s a = Some e /\ e <= at_) /\ forall n s', agentRuns (env n s') !! RunID a = agentRuns s' !! RunID a).

Lemma sweep_settles fuel olderThan w t w' id a :
  tableOK jsonb (db w) -> approvals (db w) !! id = Some a -> String.ltb nilUUID id = true -> dueAt (clock (ticks w)) olderThan (db w) a ->
  ExpireStaleByKind uuidParse env fault clock fuel olderThan w = (Some t, w') -> settled id w' (failures t) \/ listFailed (failures t).
Proof.
  intros Hok Ha Hid Hdue H. unfold ExpireStaleByKind, bind, now in H. cbn in H. set (at_ := clock (ticks w)) in *. set (rs := agentRuns (db w) !! RunID a).
  set (Q := fun s => acts (db w) s /\ (RequestedAt a <= at_ - olderThan \/ ((exists e, expiresOf (db w) a = Some e /\ e <= at_) /\ agentRuns s !! RunID a = rs))).
  assert (HQ0 : Q (db w)) by (split; [apply rtc_refl|]; destruct Hdue as [?|[? _]]; auto).
  eapply (pages_settle Q) with (w := mkWorld (db w) _ _ _); [..|exact HQ0|exact Hid|exact H].
  - intros n s [A D]. split; [by eapply acts_trans|]. destruct D as [D|[De Dr]]; [by left|]. destruct Hdue as [?|[_ Hr]]; [by left|]. right. by rewrite Hr.
  - intros id' st reason at' s [A D] Ht. split; [eapply acts_trans; [exact A|by apply acts_decide]|]. by rewrite decide_runs.
  - intros s [A _]. by eapply acts_ok.
  - intros s [A _]. destruct (acts_forward _ _ _ _ _ Hok A Ha) as (b & Hb & _). by exists b.
  - intros s b [A D] Hb Hp. destruct (acts_forward _ _ _ _ _ Hok A Ha) as (b' & Hb' & Hf). rewrite Hb in Hb'. injection Hb' as <-.
    destruct (fw_same _ _ Hf) as (_ & Er & _ & _ & _ & Eq). unfold stale, pending, expiresOf. rewrite Hp, Eq, Er. cbn [andb bool_decide].
    destruct D as [D|[(e & He & Hle) Dr]]; [by rewrite (proj2 (Z.leb_le _ _) D)|]. rewrite Dr. unfold expiresOf in He. fold rs in He. rewrite He.
    rewrite (proj2 (Z.leb_le _ _) Hle). apply orb_true_r.
Qed.

(** The sweep ends: however the table changes between its pages, as long as its
    identifiers are of some finite set (as UUIDs are), there are at most as many
    pages as identifiers, and one more. *)
Lemma sweep_ends U olderThan w :
  tableOK jsonb (db w) -> (forall k, is_Some (approvals (db w) !! k) -> k ∈ U) ->
  (forall n s, (forall k, is_Some (approvals s !! k) -> k ∈ U) -> forall k, is_Some (approvals (env n s) !! k) -> k ∈ U) ->
  exists t w', ExpireStaleByKind uuidParse env fault clock (S (length U)) olderThan w = (Some t, w').
Proof.
  intros Hok HU Henv'. unfold ExpireStaleByKind, bind, now. cbn beta iota zeta.
  set (Q := fun s => acts (db w) s /\ forall k, is_Some (approvals s !! k) -> k ∈ U). eapply (pages_end Q) with (U := U).
  - intros n s [A D]. split; [by eapply acts_trans|]. by apply Henv'.
  - intros id st reason at_ s [A D] Ht. split; [eapply acts_trans; [exact A|by apply acts_decide]|]. intros k Hk. apply D. eapply decide_rows; [|exact Hk].
    by eapply tb_keyed, acts_ok.
  - intros s [A _]. by eapply acts_ok.
  - intros s k [_ D]. apply D.
  - split; [apply rtc_refl|done].
  - apply Nat.lt_succ_r. clear. induction U as [|x U IH]; cbn; [done|]. destruct (String.ltb _ x); cbn; lia.
Qed.

(** C13: the sweep ends and strands nothing. Whatever else acts on the table between
    its calls and whichever of its calls fail, as long as the table's identifiers
    are of some finite set (as UUIDs are), the sweep reads at most one page per
    identifier and one more, and returns. Then every row, other than one with the nil
    identifier, that was past the deployment's ceiling when the sweep started, or past
    its own expiry while nobody changes its run's times meanwhile, is no longer open,
    unless its own expiry call failed or a page could not be read, which the sweep
    reports: a failure on one row leaves no other row behind. *)
Theorem sweep_strands_nothing U olderThan w :
  tableOK jsonb (db w) -> (forall k, is_Some (approvals (db w) !! k) -> k ∈ U) ->
  (forall n s, (forall k, is_Some (approvals s !! k) -> k ∈ U) -> forall k, is_Some (approvals (env n s) !! k) -> k ∈ U) ->
  exists t w', ExpireStaleByKind uuidParse env fault clock (S (length U)) olderThan w = (Some t, w') /\
  forall id a, approvals (db w) !! id = Some a -> String.ltb nilUUID id = true ->
  RequestedAt a <= clock (ticks w) - olderThan \/
    ((exists e, expiresOf (db w) a = Some e /\ e <= clock (ticks w)) /\
     forall n s, agentRuns (env n s) !! RunID a = agentRuns s !! RunID a) ->
  (exists b, approvals (db w') !! id = Some b /\ aState b <> ApprovalPending) \/
  (exists e, SvcErr "expire" id e ∈ failures t) \/ (exists after e, SvcErr "list for expiry" after e ∈ failures t).
Proof.
  intros Hok HU Henv'. destruct (sweep_ends U olderThan w Hok HU Henv') as (t & w' & H). exists t, w'. split; [done|].
  intros id a Ha Hid Hdue. destruct (sweep_settles _ _ _ _ _ id a Hok Ha Hid Hdue H) as [[?|?]|?]; eauto.
Qed.

(** ** Cancelling *)

Definition cancellation (run : string) (n : Z) (m : gmap string Z) (err : option svcErr) (ev : AuditEvent) : Prop :=
  evAction ev = "approval.cancel" /\ evTarget ev = run /\ evOutcome ev = (match err with Some _ => "failure" | None => "success" end) /\
  ("count", DCount n) ∈ evData ev /\ ("by_kind", DTally m) ∈ evData ev.

Lemma recordCancelled_inv run reason acc err w x w' : recordCancelled fault clock run reason acc err w = (x, w') ->
  db w' = db w /\ if moved acc =? 0 then logged w w' [] else exists ev, logged w w' [ev] /\ cancellation run (moved acc) (byKind acc) err ev.
Proof.
  unfold recordCancelled. destruct (moved acc =? 0); intros H; [injection H as <- <-; split; [done|by apply logged_none]|].
  unfold bind, now in H. apply record_logged in H as [Edb L]. split; [done|]. eexists. split; [exact L|]. split_and!; try done; cbn; set_solver.
Qed.

Definition closed (id : string) (w : world) : Prop := exists b, approvals (db w) !! id = Some b /\ aState b <> ApprovalPending.

Lemma closed_mono id w w' : tableOK jsonb (db w) -> acts (db w) (db w') -> closed id w -> closed id w'.
Proof. intros Hok A (b & Hb & Hn). destruct (decisions_final_row _ _ _ _ _ Hok A Hb Hn) as (c & Hc & E & _). exists c. split; [done|congruence]. Qed.

Lemma logged_nil w1 w2 w3 l : logged w1 w2 [] -> logged w2 w3 l -> logged w1 w3 l.
Proof. intros L L'. exact (logged_trans _ _ _ _ _ L L'). Qed.

Definition cancelDone (run : string) (rows : list ApprovalRequest) (acc : tally) (w : world) (m : gmap string Z) (err : option svcErr) (w' : world) : Prop :=
  exists n ids, progress ApprovalCancelled w (moved acc) (byKind acc) w' n m ids /\
    (if n =? 0 then logged w w' [] else exists ev, logged w w' [ev] /\ cancellation run n m err ev) /\
    (err = None -> forall ap, ap ∈ rows -> RunID ap = run -> closed (ID ap) w').

Lemma cancelRows_inv rows run reason acc w m err w' : tableOK jsonb (db w) -> (forall ap, ap ∈ rows -> is_Some (approvals (db w) !! ID ap)) ->
  cancelRows uuidParse env fault clock rows run reason acc w = ((m, err), w') ->
  cancelDone run rows acc w m err w'.
Proof.
  revert acc w. induction rows as [|ap rows IH]; intros acc w Hok Hrows H; cbn [cancelRows] in H.
  { unfold bind in H. destruct (recordCancelled _ _ _ _ _ _ w) as [x w2] eqn:E. injection H as <- <- <-. apply recordCancelled_inv in E as [Edb L].
    exists (moved acc), []. split_and!; [apply progress_refl; rewrite Edb; apply rtc_refl|done|]. intros _ ap Hap. by apply not_elem_of_nil in Hap. }
  assert (Hrest : forall w2, acts (db w) (db w2) -> forall ap, ap ∈ rows -> is_Some (approvals (db w2) !! ID ap)).
  { intros w2 A ap' Hap. destruct (Hrows ap' ltac:(by right)) as [a Ha]. destruct (acts_forward _ _ _ _ _ Hok A Ha) as (b & Hb & _). by exists b. }
  destruct (String.eqb_spec (RunID ap) run) as [Er|Hne]; cbn [negb] in H.
  2:{ apply IH in H as (n & ids & P & B & C); [|done|apply Hrest, rtc_refl]. exists n, ids. split_and!; [done..|]. intros He ap' [->|Hap]%elem_of_cons; [done|by apply C]. }
  unfold bind in H. destruct (decideCall _ _ _ _ _ w) as [r wm] eqn:E. apply systemDecide in E as (A & L & E); [|done|by right|done]. pose proof (acts_ok _ _ _ Hok A) as Hokm.
  assert (Hstop : forall e, (let (_, w'0) := recordCancelled fault clock run reason acc (Some e) wm in ret (byKind acc, Some e) w'0) = ((m, err), w') ->
    cancelDone run (ap :: rows) acc w m err w').
  { intros e H0. destruct (recordCancelled _ _ _ _ _ _ wm) as [x w2] eqn:E2. injection H0 as <- <- <-. apply recordCancelled_inv in E2 as [Edb L2]. exists (moved acc), [].
    split_and!; [apply progress_refl; by rewrite Edb| |done]. destruct (_ =? 0); [by eapply logged_nil|]. destruct L2 as (ev & L2 & C). exists ev. split; [by eapply logged_nil|done]. }
  assert (Hgo : forall acc1 ids1, closed (ID ap) wm -> progress ApprovalCancelled w (moved acc) (byKind acc) wm (moved acc1) (byKind acc1) ids1 ->
    cancelRows uuidParse env fault clock rows run reason acc1 wm = ((m, err), w') ->
    cancelDone run (ap :: rows) acc w m err w').
  { intros acc1 ids1 Hcl P1 H0. apply IH in H0 as (n & ids & P & B & C); [|done|by apply Hrest]. exists n, (ids1 ++ ids). split_and!; [by eapply progress_trans| |].
    - destruct (_ =? 0); [by eapply logged_nil|]. destruct B as (ev & L2 & B). exists ev. split; [by eapply logged_nil|done].
    - intros He ap' [->|Hap]%elem_of_cons Hr; [|by apply C]. eapply closed_mono; [exact Hokm|apply P|done]. }
  destruct r as [e|res].
  - destruct e; try (by eapply Hstop; exact H). eapply (Hgo acc []); [done|by apply progress_refl|exact H].
  - destruct E as ((b & Hb & Hst & _) & Ho). eapply (Hgo _ [ID ap]); [exists b; split; [done|by rewrite Hst]| |exact H]. cbn.
    split_and!; [done|cbn; lia|rewrite total_add; cbn; lia|apply NoDup_singleton|]. intros id ->%list_elem_of_singleton. split; [by exists b|done].
Qed.

Lemma list_pending_complete run s id a : approvals s !! id = Some a -> aState a = ApprovalPending -> RunID a = run -> readRow s a ∈ ListPendingApprovalsForRuns run s.
Proof.
  intros Ha Hp Hr. unfold ListPendingApprovalsForRuns. apply list_elem_of_In, in_map_iff. exists (id, a). split; [done|]. apply filter_In.
  split; [by apply list_elem_of_In, elem_of_map_to_list|]. cbn. unfold pending. by rewrite Hp, Hr, String.eqb_refl.
Qed.

(** The end of a run closes its requests and says so truly: where
    [CancelForRun] reports no error, no request the run had when it was called is
    still open; and in every case the rows it moved were open and are CANCELLED,
    once each, the tally it returns counts exactly those, and one audit event
    carries that count and that tally, with outcome failure exactly where an error
    is returned, or none at all where nothing moved. *)
Theorem cancel_closes_the_run run reason w m err w' :
  tableOK jsonb (db w) -> CancelForRun uuidParse env fault clock run reason w = ((m, err), w') ->
  (err = None -> forall id a, approvals (db w) !! id = Some a -> RunID a = run -> exists b, approvals (db w') !! id = Some b /\ aState b <> ApprovalPending) /\
  exists ids, NoDup ids /\ total m = Z.of_nat (length ids) /\
    (forall id, id ∈ ids -> (exists b, approvals (db w') !! id = Some b /\ aState b = ApprovalCancelled) /\
       forall a, approvals (db w) !! id = Some a -> aState a = ApprovalPending) /\
    match ids with
    | [] => logged w w' []
    | _ => exists ev, logged w w' [ev] /\ evAction ev = "approval.cancel" /\ evTarget ev = run /\
        evOutcome ev = (match err with Some _ => "failure" | None => "success" end) /\
        ("count", DCount (Z.of_nat (length ids))) ∈ evData ev /\ ("by_kind", DTally m) ∈ evData ev
    end.
Proof.
  intros Hok H. unfold CancelForRun, bind in H. destruct (call _ _ _ w) as [r wm] eqn:E. apply read_inv in E as (Edb & L & Er).
  assert (A : acts (db w) (db wm)) by (rewrite Edb; apply Henv). pose proof (acts_ok _ _ _ Hok A) as Hokm. destruct Er as [-> |(e & ->)].
  2:{ injection H as <- <- <-. split; [done|]. exists []. split_and!; [constructor|done| |done]. intros id Hid. by apply not_elem_of_nil in Hid. }
  apply cancelRows_inv in H as (n & ids & P & B & C); [|done|intros ap Hap; destruct (list_pending_inv _ _ _ (tb_keyed _ _ Hokm) Hap) as (c & Hc & _); by exists c].
  pose proof (progress_trans ApprovalCancelled _ _ _ _ _ _ _ _ _ _ _ ltac:(done) Hok (progress_refl ApprovalCancelled w wm _ _ A) P) as (A' & N & T & D & R). cbn in N, T. split.
  - intros He id a Ha Hr. destruct (acts_forward _ _ _ _ _ Hok A Ha) as (b & Hb & Hf). destruct (fw_same _ _ Hf) as (Ei & Erun & _). pose proof (tb_keyed _ _ Hok _ _ Ha) as Eid.
    destruct (decide (aState b = ApprovalPending)) as [Hp|Hn]; [|apply (closed_mono id wm); [done|apply P|by exists b]].
    rewrite <- Eid, <- Ei. apply (C He (readRow (db wm) b)); [by eapply list_pending_complete, eq_trans|cbn; congruence].
  - exists ids. split_and!; [done|unfold total in *; rewrite T, map_fold_empty; lia|done|]. destruct ids as [|x ids].
    + assert (n = 0) as -> by (cbn in N; lia). cbn in B. by eapply logged_nil.
    + rewrite N in B. rewrite (proj2 (Z.eqb_neq _ 0)) in B by (cbn; lia). destruct B as (ev & L2 & B1 & B2 & B3 & B4 & B5). exists ev. split; [by eapply logged_nil|]. by split_and!.
Qed.
End Sound.

(** ** The theorems at work

    A deployment where nobody else runs and no call fails, except the ones a
    witness says otherwise of. *)

Definition alone (n : nat) (s : store) : store := s.
Definition delivered (n : nat) : outcome := Delivered.
Definition wall (n : nat) : Z := 1000 + Z.of_nat n.
Definition ids (n : nat) : string := "a1".
Definition noParse (s : string) : option string := None.

Lemma alone_acts jsonb n s : rtc (act jsonb) s (alone n s).
Proof. apply rtc_refl. Qed.

Definition start : world := mkWorld noRows 0 [] [].
Definition askHost (id scope : string) : ApprovalRequest :=
  mkApproval id "run" None ApprovalEgressDomain scope ApprovalApproved 0 (Some 3) "mallory" "j" "mine" "always" (Some 9) None None "" None.
Definition raise (req : ApprovalRequest) : M (svcErr + ApprovalRequest) := RequestApproval sortedJsonb id alone delivered wall ids req.

Definition afterFirst : world := snd (raise (askHost "b1" scopeA) start).
Definition afterSecond : world := snd (raise (askHost "b2" scopeB) afterFirst).
Definition noRow : ApprovalRequest := rowOf "" ApprovalToolCall None "".
Definition row1 : ApprovalRequest := match fst (raise (askHost "b1" scopeA) start) with inr r => r | inl _ => noRow end.
Definition row2 : ApprovalRequest := match fst (raise (askHost "b2" scopeB) afterFirst) with inr r => r | inl _ => noRow end.

Lemma first_raise : raise (askHost "b1" scopeA) start = (inr row1, afterFirst).
Proof. by vm_compute. Qed.
Lemma second_raise : raise (askHost "b2" scopeB) afterFirst = (inr row2, afterSecond).
Proof. by vm_compute. Qed.

Lemma raise_returns_an_open_row_witness : aState row1 = ApprovalPending /\ DecidedBy row1 = "" /\ DecisionScope row1 = "".
Proof.
  destruct (raise_returns_an_open_row sortedJsonb alone delivered wall (alone_acts _) id ids (askHost "b1" scopeA) start row1 afterFirst) as (H1 & _ & _ & _ & _ & H2 & _ & H3 & _).
  - apply noRows_ok.
  - by vm_compute.
  - done.
  - exact first_raise.
  - split_and!; assumption.
Defined.

Lemma equal_raises_meet_witness : ID row2 = "b1".
Proof.
  change "b1" with (ID (askHost "b1" scopeA)). assert (E : ID row1 = "b1") by (by vm_compute). rewrite <- E.
  eapply (equal_raises_meet sortedJsonb alone delivered wall (alone_acts _) id ids (askHost "b1" scopeA) (askHost "b2" scopeB) start row1 afterFirst afterFirst row2 afterSecond).
  - apply noRows_ok.
  - by vm_compute.
  - by vm_compute.
  - done.
  - done.
  - done.
  - by vm_compute.
  - exact first_raise.
  - apply rtc_refl.
  - exact second_raise.
  - vm_compute. reflexivity.
  - by vm_compute.
Defined.

Definition denyIt : ApprovalDecision := mkDecision ApprovalDenied "bob" "no" "" None None.
Definition afterDecision : world := snd (Decide alone delivered wall "b1" ActorHuman denyIt afterFirst).
Definition rowDecided : ApprovalRequest := match fst (Decide alone delivered wall "b1" ActorHuman denyIt afterFirst) with inr r => r | inl _ => noRow end.

Lemma afterFirst_ok : tableOK sortedJsonb (db afterFirst).
Proof.
  apply (acts_ok _ noRows); [apply noRows_ok|]. apply rtc_once.
  apply (act_create sortedJsonb (fresh (withScope (askHost "b1" scopeA) (canonicalScope scopeA)) "b1" 1001) scopeA noRows); [done|apply fresh_undecided|done].
Qed.

Lemma one_decision_lands_witness :
  aState rowDecided = ApprovalDenied /\ forall r w, Decide alone delivered wall "b1" ActorSystem approveOnce afterDecision <> (inr r, w).
Proof.
  split; [by vm_compute|].
  apply (one_decision_lands sortedJsonb alone delivered wall (alone_acts _) "b1" ActorHuman denyIt afterFirst rowDecided afterDecision afterDecision ActorSystem approveOnce).
  - exact afterFirst_ok.
  - done.
  - by vm_compute.
  - apply rtc_refl.
Defined.

(** A sweep ten nanoseconds back, at 1000 and some: the row is past it. *)
Definition aged : world := mkWorld (db afterFirst) 50 [] [].
Definition sweep (fault : nat -> outcome) : option tally * world := ExpireStaleByKind noParse alone fault wall 2 10 aged.
Definition sweepTally (fault : nat -> outcome) : tally := match fst (sweep fault) with Some t => t | None => mkTally 0 ∅ [] end.

Lemma sweep_books_are_true_witness : moved (sweepTally delivered) = 1 /\ total (byKind (sweepTally delivered)) = 1.
Proof.
  destruct (sweep_books_are_true sortedJsonb noParse alone delivered wall (alone_acts _) 2 10 aged (sweepTally delivered) (snd (sweep delivered))) as (evs & _ & _ & H1 & H2 & _).
  - exact afterFirst_ok.
  - by vm_compute.
  - assert (E : moved (sweepTally delivered) = 1) by (by vm_compute). rewrite H2, <- H1. by split.
Defined.

(** The expiry call fails: the row is reported. *)
Definition failing (n : nat) : outcome := if Nat.eqb n 53 then LostBefore "timeout" else Delivered.

Lemma sweep_strands_nothing_witness :
  exists t w', ExpireStaleByKind noParse alone failing wall 2 10 aged = (Some t, w') /\
  ((exists b, approvals (db w') !! "b1" = Some b /\ aState b <> ApprovalPending) \/
   (exists e, SvcErr "expire" "b1" e ∈ failures t) \/ (exists after e, SvcErr "list for expiry" after e ∈ failures t)).
Proof.
  destruct (sweep_strands_nothing sortedJsonb noParse alone failing wall (alone_acts _) ["b1"] 10 aged) as (t & w' & E & H).
  - exact afterFirst_ok.
  - intros k Hk. assert (E : approvals (db aged) = {[ "b1" := withExpires row1 None ]}) by (by vm_compute). rewrite E in Hk.
    destruct Hk as [x Hx]. apply lookup_singleton_Some in Hx as [<- _]. left.
  - intros n s Hs. exact Hs.
  - exists t, w'. split; [exact E|]. apply (H "b1" (withExpires row1 None)).
    + by vm_compute.
    + by vm_compute.
    + left. by vm_compute.
Defined.

Lemma cancel_closes_the_run_witness :
  let r := CancelForRun noParse alone delivered wall "run" "killed" aged in
  snd (fst r) = None /\ exists b, approvals (db (snd r)) !! "b1" = Some b /\ aState b <> ApprovalPending.
Proof.
  intros r. assert (E : snd (fst r) = None) by (by vm_compute). split; [exact E|].
  destruct (cancel_closes_the_run sortedJsonb noParse alone delivered wall (alone_acts _) "run" "killed" aged (fst (fst r)) (snd (fst r)) (snd r)) as [H _].
  - exact afterFirst_ok.
  - subst r. by destruct (CancelForRun _ _ _ _ _ _ _) as [[? ?] ?].
  - apply (H E "b1" (withExpires row1 None)); by vm_compute.
Defined.
