(* ===== verification/ApprovalRaise.v ===== *)
(** * What a sandbox can put in a request

    The lane of a scope, which a sandbox may not name ([scopeNamesLane] of
    [src/internal/api/internal.go]), against what the service reads out of the
    stored row ([TallyKey]); and how long a row holds its sandbox ([hold.go]). *)
From S2P Require Import Prelude GoStrings GoPath GoSlices Grants PushRules CanonNumber GoJSON GoJSONSound ApprovalScope ScopeSound ApprovalStore ApprovalFSM FSMSound.
Local Open Scope string_scope.
Local Open Scope Z_scope.
Local Open Scope list_scope.

(** The keys of an object; any other value has none. *)
Definition topKeys (scope : string) : list string := map fst (default [] (members scope)).
Definition scopeNamesLane (scope : string) : bool := existsb (fun k => equalFold k "lane") (topKeys scope).

(** ** Keys of equal scopes *)

Definition keysOf (v : json) : list string := match v with JObj m => map fst m | _ => [] end.

Lemma putKey_keys k v m x : x ∈ map fst (putKey k v m) <-> x = k \/ x ∈ map fst m.
Proof.
  induction m as [|[k' v'] m IH]; cbn; [rewrite elem_of_cons; done|]. destruct (String.compare k k') eqn:E; cbn; rewrite !elem_of_cons; [|tauto|rewrite IH; tauto].
  apply String.compare_eq_iff in E as ->. tauto.
Qed.

Lemma toAny_keys v x : x ∈ keysOf (toAny v) <-> x ∈ keysOf v.
Proof.
  destruct v as [| | | | |m]; try done. cbn [toAny keysOf].
  assert (H : forall acc, x ∈ map fst (foldl (fun acc kv => putKey (fst kv) (snd kv) acc) acc (map (fun kv => (fst kv, toAny (snd kv))) m)) <-> x ∈ map fst m \/ x ∈ map fst acc).
  { induction m as [|[k v] m IH]; intros acc; cbn; [set_solver|]. rewrite IH, putKey_keys, elem_of_cons. tauto. }
  rewrite H. cbn. set_solver.
Qed.

Lemma canon_keys v : keysOf (canonicalNumbers v) = keysOf v.
Proof. destruct v as [| | | | |m]; try done. cbn. rewrite map_map. done. Qed.

Lemma topKeys_value s t x : scopeValue s = scopeValue t -> x ∈ topKeys s -> x ∈ topKeys t.
Proof.
  assert (E : forall u, topKeys u = match decode u with Some v => keysOf v | None => [] end).
  { intros u. unfold topKeys, members. destruct (decode u) as [[]|]; done. }
  rewrite !E. unfold scopeValue. destruct (decode s) as [v|]; [|intros _ H; by apply not_elem_of_nil in H]. destruct (decode t) as [u|]; [|done]. intros [= H].
  rewrite <- (toAny_keys v), <- (toAny_keys u), <- (canon_keys (toAny v)), <- (canon_keys (toAny u)), H. done.
Qed.

Lemma namesLane_value s t : scopeValue s = scopeValue t -> scopeNamesLane t = false -> scopeNamesLane s = false.
Proof.
  intros Ev Ht. destruct (scopeNamesLane s) eqn:Es; [|done]. apply existsb_exists in Es as (k & Hk & He). rewrite <- Ht. symmetry. apply existsb_exists.
  exists k. split; [|done]. apply list_elem_of_In. eapply topKeys_value; [exact Ev|]. by apply list_elem_of_In.
Qed.

(** ** Names *)

Lemma foldName_cases c r : foldName (String c r) = String (upper_byte c) (foldName r) \/
  (exists r', foldName (String c r) = String "S" r') \/ (exists r', foldName (String c r) = String "K" r').
Proof.
  destruct r as [|c1 r1]; [left; each_byte c; reflexivity|]. destruct (Ascii.eqb_spec c "197") as [->|H1].
  - each_byte c1; (left; reflexivity) || (right; left; eexists; reflexivity).
  - destruct (Ascii.eqb_spec c "226") as [->|H2]; [|left; each_byte c; (reflexivity || congruence)].
    destruct (Ascii.eqb_spec c1 "132") as [->|H3]; [|left; each_byte c1; (reflexivity || congruence)].
    destruct r1 as [|c2 r2]; [left; reflexivity|]. each_byte c2; (left; reflexivity) || (right; right; eexists; reflexivity).
Qed.

Lemma foldName_upper k t : foldName k = t -> str_has "S" t = false -> str_has "K" t = false -> str_map upper_byte k = t.
Proof.
  revert t. induction k as [|c r IH]; intros t <- HS HK; [done|]. destruct (foldName_cases c r) as [E|[[r' E]|[r' E]]]; rewrite E in HS, HK |- *; [|by rewrite str_has_cons in HS|by rewrite str_has_cons in HK].
  rewrite str_has_cons, orb_false_iff in HS, HK. cbn. f_equal. apply IH; tauto.
Qed.

Lemma foldName_lane k : names "lane" k = true -> equalFold k "lane" = true.
Proof.
  unfold names, equalFold. rewrite orb_true_iff, !String.eqb_eq. intros [->|H]; [done|]. by apply foldName_upper.
Qed.

Lemma no_field {A} (read : json -> decoded A) zero field m : (forall k, k ∈ map fst m -> names field k = false) -> fieldOf read zero field m = zero.
Proof.
  unfold fieldOf. induction m as [|[k v] m IH]; intros H; [done|]. cbn. rewrite (H k) by left. apply IH. intros k' Hk. apply H. by right.
Qed.

Lemma lane_unnamed scope m : scopeNamesLane scope = false -> members scope = Some m -> fieldOf asString "" "lane" m = "".
Proof.
  intros H Hm. apply no_field. intros k Hk. destruct (names "lane" k) eqn:E; [|done]. apply foldName_lane in E. assert (scopeNamesLane scope = true); [|congruence].
  apply existsb_exists. exists k. split; [|done]. unfold topKeys. rewrite Hm. by apply list_elem_of_In.
Qed.

Section Forge.
Context (jsonb : string -> option string) (uuidParse : string -> option string) (env : nat -> store -> store) (fault : nat -> outcome) (clock : nat -> Z).
Context (Henv : forall n s, rtc (act jsonb) s (env n s)).
Context (digest : string -> string) (freshID : nat -> string) `{!Jsonb jsonb} `{!Inj eq eq digest}.

(** C14: a sandbox cannot forge an Azure DevOps lane: a request whose scope passed
    [scopeNamesLane], raised through the service, is stored or found as a row that
    is never counted (nor held) as an Azure DevOps capability, sign-in or consent
    request, in whatever case, escape, repetition or spelling its keys were
    written, although the name check reads the text sent and the tally reads the
    text Postgres gives back. *)
Theorem lane_cannot_be_forged req w r w' :
  tableOK jsonb (db w) -> Valid (RequestedScope req) = true -> aKind req <> ApprovalCredential -> scopeNamesLane (RequestedScope req) = false ->
  RequestApproval jsonb digest env fault clock freshID req w = (inr r, w') ->
  TallyKey uuidParse r <> TallyToolCallADO /\ TallyKey uuidParse r <> TallyReauthADOSignIn /\ TallyKey uuidParse r <> TallyReauthADOConsent.
Proof using Henv Jsonb0 Inj0.
  intros Hok Hv Hk Hl H. destruct (request_seen jsonb env fault clock Henv digest freshID _ _ _ _ Hok Hv Hk H) as (s & a & e & _ & _ & _ & [_ _ _ Es] & ->).
  pose proof (namesLane_value _ _ Es Hl) as Hla. unfold TallyKey. cbn. destruct (members (RequestedScope a)) as [m|] eqn:Hm; [|by destruct (aKind a)].
  rewrite (lane_unnamed _ _ Hla Hm). destruct (_ || _); [by destruct (aKind a)|].
  destruct (aKind a); try done; [destruct (GrantID a); [|done]; by rewrite andb_false_r|].
  cbn [String.eqb andb]. destruct (negb _); done.
Qed.
End Forge.

Lemma lane_cannot_be_forged_witness : TallyKey noParse row1 <> TallyReauthADOSignIn.
Proof.
  destruct (lane_cannot_be_forged sortedJsonb noParse alone delivered wall (alone_acts _) id ids (askHost "b1" scopeA) start row1 afterFirst) as (_ & H & _).
  - apply noRows_ok.
  - by vm_compute.
  - done.
  - by vm_compute.
  - exact first_raise.
  - exact H.
Defined.

(** The check sees through the two letters that fold to ASCII ones and the escapes. *)
Example lane_spelled_apart : scopeNamesLane (q "{'\u006cANE': 'azure_devops'}") = true /\ scopeNamesLane (q "{'lane ': 1, 'planes': {'lane': 2}}") = false.
Proof. by vm_compute. Qed.

(** ** Holds *)

Definition stampedSeconds (ap : ApprovalRequest) : Z := fieldOf asInt 0 "hold_seconds" (default [] (members (RequestedScope ap))).

Lemma egress_window_max ap : egressHoldWindow ap <= HoldWindowPush.
Proof. unfold egressHoldWindow. cbn zeta. destruct (_ && _) eqn:E; [by apply andb_prop in E as [_ E%Z.leb_le]|]. by vm_compute. Qed.

Lemma egress_window_exact ap : stampedSeconds ap < 2 ^ 63 / second ->
  egressHoldWindow ap = if (1 <=? stampedSeconds ap) && (stampedSeconds ap <=? 600) then stampedSeconds ap * second else 30 * second.
Proof.
  intros H. change (2 ^ 63 / second) with 9223372036 in H. unfold egressHoldWindow. fold (stampedSeconds ap). cbn zeta. set (n := stampedSeconds ap) in *. clearbody n.
  rewrite Z.geb_leb. destruct (Z.leb_spec 1 n) as [H1|H1]; [|done]. rewrite wrap64_small by (unfold second; lia). cbn [andb]. unfold HoldWindowPush.
  destruct (Z.leb_spec n 600), (Z.leb_spec (n * second) (600 * second)); unfold second in *; try lia; done.
Qed.

(** A hold ends: where a row is held with a time it is held until, it is open,
    that time is ahead, and at most ten minutes after the request or its last
    rejoin; and where the stamped seconds fit a [time.Duration], the window of an
    egress hold is the stamped one when it is between one second and ten minutes,
    and thirty seconds otherwise. *)
Theorem hold_is_bounded uuidParse ap now until :
  Hold uuidParse ap now = (true, until) -> until <> 0 ->
  aState ap = ApprovalPending /\ now < until /\ until <= holdStart ap + 600 * second /\
  (aKind ap = ApprovalEgressDomain -> stampedSeconds ap < 2 ^ 63 / second ->
   until = holdStart ap + (if (1 <=? stampedSeconds ap) && (stampedSeconds ap <=? 600) then stampedSeconds ap * second else 30 * second)).
Proof.
  unfold Hold. destruct (bool_decide_reflect (aState ap = ApprovalPending)) as [Hp|]; [|done]. cbn [negb].
  assert (Hb : forall w, w <= HoldWindowPush -> boundedHold (holdStart ap) now w = (true, until) -> now < until /\ until <= holdStart ap + 600 * second).
  { intros w Hw [= Hn <-]. apply Z.ltb_lt in Hn. unfold HoldWindowPush in Hw. lia. }
  destruct (String.eqb_spec (TallyKey uuidParse ap) TallyToolCallADO) as [Et|_].
  - intros H Hu. destruct (Hb HoldWindowADOCapability ltac:(by vm_compute) H) as [? ?]. split_and!; [done..|]. intros Hk. exfalso.
    unfold TallyKey in Et. rewrite Hk in Et. destruct (members _); [|done]. by destruct (_ || _).
  - intros H Hu. destruct (aKind ap) eqn:Hk; try (injection H as <-; done).
    + destruct (negb _); [done|]. destruct (Hb _ (egress_window_max ap) H) as [? ?]. split_and!; done.
    + destruct (negb _); [done|]. destruct (Hb _ (egress_window_max ap) H) as [? ?]. split_and!; [done..|]. intros _ Hs. injection H as _ <-. by rewrite egress_window_exact.
    + destruct (Hb HoldWindowPush ltac:(done) H) as [? ?]. split_and!; done.
Qed.

Definition heldRow (seconds : string) : ApprovalRequest := rowOf "a" ApprovalEgressDomain None (q ("{'mode':'wait_for_review','hold_seconds':" +:+ seconds +:+ "}")).

Lemma hold_is_bounded_witness : 5 < 45 * second /\ 45 * second <= holdStart (heldRow "45") + 600 * second.
Proof.
  destruct (hold_is_bounded noParse (heldRow "45") 5 (45 * second)) as (_ & H1 & H2 & _).
  - by vm_compute.
  - done.
  - split; assumption.
Defined.

(** Past what a [time.Duration] holds the product wraps: the row is not held at all,
    or held for a fraction of a second, where the comment promises the default. *)
Example overflowing_hold : egressHoldWindow (heldRow "10000000000") = -8446744073709551616 /\ egressHoldWindow (heldRow "18446744074") = 290448384 /\
  Hold noParse (heldRow "10000000000") 5 = (false, -8446744073709551616).
Proof. by vm_compute. Qed.
