(* ===== verification/SecretMask.v ===== *)
(** * Masking of secrets in a stream

    The masker and the masking writer of [src/internal/secretmask]
    ([secretmask.go], [close_cut_from.go]): the runs of bytes that occurrences of
    registered secrets cover, their replacement by a placeholder, and the writer
    that masks a stream chunk by chunk, holding back only what may still begin a
    secret. Bytes are characters; a chunk is a list of them. *)
From S2P Require Import Prelude GoSlices.

Definition bytes : Type := list ascii.
Definition MinLen : nat := 8.
Definition placeholder : bytes := String.list_ascii_of_string "<secret-hidden>".

Record Masker := mkMasker { secrets : list bytes; maxLen : nat }.

(** ** Building a masker *)

Definition longestFirst (a b : bytes) : bool := (length b <=? length a)%nat.

Definition NewMasker (values : list bytes) : Masker :=
  let kept := sortBy longestFirst (List.filter (fun s => MinLen <=? length s)%nat values) in
  mkMasker kept (foldl (fun n s => if (n <? length s)%nat then length s else n) 0%nat kept).

Definition bytesEqb (a b : bytes) : bool := bool_decide (a = b).
Definition containsSlice (set : list bytes) (v : bytes) : bool := existsb (fun s => bytesEqb s v) set.

(** A run's own values without those the shared set already holds. *)
Definition ownValues (own shared : list bytes) : list bytes := List.filter (fun v => negb (containsSlice shared v)) own.

Fixpoint mergeLongest (mine : list bytes) : list bytes -> list bytes :=
  match mine with
  | [] => fun shared => shared
  | x :: mine' =>
      fix go (shared : list bytes) : list bytes :=
        match shared with
        | [] => x :: mine'
        | y :: shared' => if (length y <? length x)%nat then x :: mergeLongest mine' shared else y :: go shared'
        end
  end.

Definition newMaskerOver (own shared : list bytes) : Masker :=
  let merged := mergeLongest (secrets (NewMasker (ownValues own shared))) shared in
  mkMasker merged (match merged with s :: _ => length s | [] => 0%nat end).

(** ** Occurrences and runs *)

Fixpoint startsWith (s p : bytes) : bool :=
  match s, p with
  | [], _ => true
  | c :: s, d :: p => Ascii.eqb c d && startsWith s p
  | _ :: _, [] => false
  end.

(** [bytes.Index]. *)
Fixpoint indexOf (s p : bytes) : option nat :=
  if startsWith s p then Some 0%nat
  else match p with [] => None | _ :: p' => option_map S (indexOf s p') end.

Fixpoint occLoop (fuel i : nat) (s p : bytes) : list (nat * nat) :=
  match fuel with
  | O => []
  | S fuel =>
      match indexOf s (drop i p) with
      | None => []
      | Some j => (i + j, i + j + length s)%nat :: occLoop fuel (i + j + 1) s p
      end
  end.

(** The occurrences of one secret, none where its first byte does not occur. *)
Definition occurrences (p s : bytes) : list (nat * nat) :=
  match s with
  | [] => []
  | c :: _ => if existsb (Ascii.eqb c) p then occLoop (S (length p)) 0 s p else []
  end.

Definition startLeb (a b : nat * nat) : bool := (fst a <=? fst b)%nat.

Fixpoint joinRuns (cur : nat * nat) (occ : list (nat * nat)) : list (nat * nat) :=
  match occ with
  | [] => [cur]
  | o :: occ =>
      if (fst o <? snd cur)%nat then joinRuns (fst cur, Nat.max (snd cur) (snd o)) occ else cur :: joinRuns o occ
  end.

Definition runs (m : Masker) (p : bytes) : list (nat * nat) :=
  match sortBy startLeb (concat (map (occurrences p) (secrets m))) with
  | [] => []
  | o :: occ => joinRuns o occ
  end.

Definition slice (a b : nat) (p : bytes) : bytes := take (b - a) (drop a p).

Fixpoint maskRuns (last : nat) (rs : list (nat * nat)) (p : bytes) : bytes :=
  match rs with
  | [] => drop last p
  | r :: rs => slice last (fst r) p ++ placeholder ++ maskRuns (snd r) rs p
  end.

Definition Mask (m : Masker) (p : bytes) : bytes :=
  match runs m p with [] => p | rs => maskRuns 0 rs p end.

(** Where the run that the first [hidden] bytes belong to ends. *)
Definition covered (hidden : nat) (rs : list (nat * nat)) : nat :=
  foldl (fun h r => if (fst r <? h)%nat then Nat.max h (snd r) else h) hidden rs.

(** The longest end of [p] that is the start of a secret. *)
Definition hasSuffix (p s : bytes) : bool := (length s <=? length p)%nat && bytesEqb (drop (length p - length s) p) s.

Fixpoint cutLoop (k best : nat) (s p : bytes) : nat :=
  match k with
  | O => best
  | S k' => if (best <? k)%nat then (if hasSuffix p (take k s) then k else cutLoop k' best s p) else best
  end.

Definition cutPrefixLen (m : Masker) (p : bytes) : nat :=
  foldl (fun best s => cutLoop (Nat.min (length s - 1) (length p)) best s p) 0%nat (secrets m).

(** ** The writer *)

(** A call of [Mask] that panics is [None]; the placeholder stands for the chunk. *)
Definition safeMask (maskCall : Masker -> bytes -> option bytes) (m : Masker) (p : bytes) : bytes * bool :=
  match maskCall m p with Some out => (out, false) | None => (placeholder, true) end.

Record MaskingWriter := mkWriter { wm : Masker; tail : bytes; hidden : nat }.
Definition NewMaskingWriter (m : Masker) : MaskingWriter := mkWriter m [] 0.

Definition crossing (at_ : nat) (rs : list (nat * nat)) : nat :=
  foldl (fun e r => if (fst r <? at_)%nat && (at_ <? snd r)%nat then snd r else e) at_ rs.

Section Writer.
Context (maskCall : Masker -> bytes -> option bytes).

(** The writer afterwards, what is forwarded, and whether the masker panicked. *)
Definition Write (w : MaskingWriter) (p : bytes) : MaskingWriter * bytes * bool :=
  match p with
  | [] => (w, [], false)
  | _ =>
      let buf := tail w ++ p in
      let at_ := (length buf - cutPrefixLen (wm w) buf)%nat in
      let rs := runs (wm w) buf in
      let lo := covered (hidden w) rs in
      let end_ := crossing at_ rs in
      let '(masked, panicked) := if (lo <? at_)%nat then safeMask maskCall (wm w) (slice lo end_ buf) else ([], false) in
      (mkWriter (wm w) (drop at_ buf) (Nat.max lo end_ - at_), masked, panicked)
  end.

Definition flush (w : MaskingWriter) (cut : nat) : MaskingWriter * bytes :=
  let p := tail w in
  let rs := runs (wm w) p in
  let lo := covered (hidden w) rs in
  let w' := mkWriter (wm w) [] 0 in
  let q0 := (length p - cut)%nat in
  let q := foldl (fun q r => if (0 <? cut)%nat && (fst r <? q)%nat && (q <? snd r)%nat then fst r else q) q0 rs in
  if (q <? lo)%nat then (w', [])
  else
    let masked := if (lo <? q)%nat then fst (safeMask maskCall (wm w) (slice lo q p)) else [] in
    (w', if (0 <? cut)%nat then masked ++ placeholder else masked).

Definition Close (w : MaskingWriter) : MaskingWriter * bytes := flush w 0.
Definition CloseCut (w : MaskingWriter) : MaskingWriter * bytes := flush w (cutPrefixLen (wm w) (tail w)).
Definition CloseCutFrom (floor : nat) (w : MaskingWriter) : MaskingWriter * bytes :=
  let cut := cutPrefixLen (wm w) (tail w) in flush w (if (cut <? floor)%nat then 0%nat else cut).

Fixpoint writeAll (w : MaskingWriter) (chunks : list bytes) : MaskingWriter * bytes :=
  match chunks with
  | [] => (w, [])
  | p :: chunks => let '(w1, out, _) := Write w p in let '(w2, rest) := writeAll w1 chunks in (w2, out ++ rest)
  end.

(** What a stream's reader sees, the stream closed at its end or cut short there. *)
Definition stream (m : Masker) (chunks : list bytes) : bytes :=
  let '(w, out) := writeAll (NewMaskingWriter m) chunks in out ++ snd (Close w).
Definition streamCut (m : Masker) (floor : nat) (chunks : list bytes) : bytes :=
  let '(w, out) := writeAll (NewMaskingWriter m) chunks in out ++ snd (CloseCutFrom floor w).
End Writer.

Definition plainCall (m : Masker) (p : bytes) : option bytes := Some (Mask m p).
