(* ===== verification/MaskSound.v ===== *)
(** * What the masker hides

    [Mask] against a byte-by-byte reading of what is hidden, and the writer against
    [Mask]: the chunks a stream arrives in are invisible in what comes out. *)
From S2P Require Import Prelude GoSlices SecretMask.
Local Open Scope nat_scope.

(** ** What is hidden, byte by byte *)

Definition interval : Type := nat * nat.
Definition inside (i : nat) (o : interval) : bool := (fst o <=? i) && (i <? snd o).
Definition within (i : nat) (o : interval) : bool := (fst o <? i) && (i <? snd o).
Definition covers (os : list interval) (i : nat) : bool := existsb (inside i) os.
(** Some occurrence covers both byte [i] and the one before it. *)
Definition joins (os : list interval) (i : nat) : bool := existsb (within i) os.

(** What stands for byte [i]: itself, or the placeholder where a run of overlapping
    occurrences begins, or nothing inside one. *)
Definition piece (os : list interval) (p : bytes) (i : nat) : bytes :=
  if covers os i then (if joins os i then [] else placeholder) else take 1 (drop i p).

Definition seg (os : list interval) (p : bytes) (a n : nat) : bytes := concat (map (piece os p) (seq a n)).

(** Every occurrence of a secret, by trying every place. *)
Definition allOcc (ss : list bytes) (p : bytes) : list interval :=
  concat (map (fun i => map (fun s => (i, i + length s)) (List.filter (fun s => (0 <? length s) && startsWith s (drop i p)) ss)) (seq 0 (length p))).

Definition hiddenText (ss : list bytes) (p : bytes) : bytes := seg (allOcc ss p) p 0 (length p).

(** ** Occurrences *)

Lemma coversIv_spec os i : covers os i = true <-> exists a b, (a, b) ∈ os /\ a <= i < b.
Proof.
  unfold covers, inside. rewrite existsb_exists. split.
  - intros ([a b] & Hin & H). cbn [fst snd] in H. apply andb_prop in H as [H1%Nat.leb_le H2%Nat.ltb_lt]. exists a, b. split; [by apply list_elem_of_In|lia].
  - intros (a & b & Hin & H). exists (a, b). split; [by apply list_elem_of_In|]. cbn [fst snd]. rewrite andb_true_iff, Nat.leb_le, Nat.ltb_lt. lia.
Qed.

Lemma joins_spec os i : joins os i = true <-> exists a b, (a, b) ∈ os /\ a < i < b.
Proof.
  unfold joins, within. rewrite existsb_exists. split.
  - intros ([a b] & Hin & H). cbn [fst snd] in H. apply andb_prop in H as [H1%Nat.ltb_lt H2%Nat.ltb_lt]. exists a, b. split; [by apply list_elem_of_In|lia].
  - intros (a & b & Hin & H). exists (a, b). split; [by apply list_elem_of_In|]. cbn [fst snd]. rewrite andb_true_iff, !Nat.ltb_lt. lia.
Qed.

Lemma bool_ext (a b : bool) : (a = true <-> b = true) -> a = b.
Proof. destruct a, b; intuition congruence. Qed.

Lemma startsWith_spec s p : startsWith s p = true <-> take (length s) p = s.
Proof.
  revert p. induction s as [|c s IH]; intros p; [done|]. destruct p as [|d p]; [done|]. cbn. rewrite andb_true_iff, IH, Ascii.eqb_eq. split; [by intros [-> ->]|by intros [= -> ->]].
Qed.

Definition occ (ss : list bytes) (p : bytes) (a b : nat) : Prop := exists s, s ∈ ss /\ 0 < length s /\ b = a + length s /\ take (length s) (drop a p) = s.

Lemma occ_bound ss p a b : occ ss p a b -> a < b <= length p.
Proof.
  intros (s & _ & Hs & -> & H). apply (f_equal length) in H. rewrite length_take, length_drop in H. lia.
Qed.

Lemma allOcc_spec ss p a b : (a, b) ∈ allOcc ss p <-> occ ss p a b.
Proof.
  unfold allOcc. rewrite list_elem_of_In, in_concat. split.
  - intros (l & Hl & Hin). apply in_map_iff in Hl as (i & <- & Hi). apply in_map_iff in Hin as (s & [= <- <-] & Hs). apply filter_In in Hs as [Hs H].
    apply andb_prop in H as [H1%Nat.ltb_lt H2]. apply startsWith_spec in H2. exists s. split_and!; try done. by apply list_elem_of_In.
  - intros H. pose proof (occ_bound _ _ _ _ H) as Hb. destruct H as (s & Hs & Hl & -> & H). eexists. split; [apply in_map_iff; exists a; split; [reflexivity|apply in_seq; lia]|].
    apply in_map_iff. exists s. split; [done|]. apply filter_In. rewrite andb_true_iff, Nat.ltb_lt, startsWith_spec. split; [by apply list_elem_of_In|done].
Qed.

Lemma take_drop_slice {A} k n a l (p : list A) : a + l <= n -> take l (drop a (take n (drop k p))) = take l (drop (k + a) p).
Proof.
  intros H. rewrite skipn_firstn_comm, take_take, drop_drop, Nat.min_l by lia. done.
Qed.

(** The occurrences of a stretch are those of the whole that lie in it. *)
Lemma occ_slice ss p k n a b : occ ss (take n (drop k p)) a b <-> occ ss p (k + a) (k + b) /\ b <= n.
Proof.
  split.
  - intros H. pose proof (occ_bound _ _ _ _ H) as Hb. rewrite length_take in Hb. destruct H as (s & Hs & Hl & -> & H). rewrite take_drop_slice in H by lia.
    split; [|lia]. exists s. split_and!; try done. lia.
  - intros [(s & Hs & Hl & Hb & H) Hn]. exists s. split_and!; try done; [lia|]. rewrite take_drop_slice by lia. done.
Qed.

Lemma indexOf_spec s p j : 0 < length s -> indexOf s p = Some j -> take (length s) (drop j p) = s /\ forall i, i < j -> take (length s) (drop i p) <> s.
Proof.
  intros Hs. revert j. induction p as [|c p IH]; intros j H; cbn [indexOf] in H.
  - destruct (startsWith s []) eqn:E; [|done]. injection H as <-. apply startsWith_spec in E. split; [done|lia].
  - destruct (startsWith s (c :: p)) eqn:E; [injection H as <-; apply startsWith_spec in E; split; [done|lia]|].
    destruct (indexOf s p) as [j'|]; [|done]. injection H as <-. destruct (IH _ eq_refl) as [H1 H2]. split; [done|]. intros [|i] Hi; [|apply H2; lia].
    intros Hc. change (drop 0 (c :: p)) with (c :: p) in Hc. apply startsWith_spec in Hc. congruence.
Qed.

Lemma indexOf_none s p : 0 < length s -> indexOf s p = None -> forall i, take (length s) (drop i p) <> s.
Proof.
  intros Hs. induction p as [|c p IH]; intros H i; cbn [indexOf] in H.
  - rewrite drop_nil, take_nil. intros <-. cbn in Hs. lia.
  - destruct (startsWith s (c :: p)) eqn:E; [done|]. destruct (indexOf s p); [done|]. destruct i as [|i]; [|by apply IH]. intros Hc.
    change (drop 0 (c :: p)) with (c :: p) in Hc. apply startsWith_spec in Hc. congruence.
Qed.

Lemma occLoop_spec fuel i s p a b : 0 < length s -> length p < i + fuel ->
  (a, b) ∈ occLoop fuel i s p <-> i <= a /\ b = a + length s /\ take (length s) (drop a p) = s.
Proof.
  intros Hs. revert i. induction fuel as [|fuel IH]; intros i Hf.
  - split; [intros H; by apply not_elem_of_nil in H|]. intros (Hi & -> & H). exfalso. apply (f_equal length) in H. rewrite length_take, length_drop in H. lia.
  - cbn [occLoop]. destruct (indexOf s (drop i p)) as [j|] eqn:E.
    + apply indexOf_spec in E as [E1 E2]; [|done]. rewrite drop_drop in E1. rewrite elem_of_cons, IH by lia. split.
      * intros [[= -> ->]|(Hi & -> & H)]; split_and!; try done; lia.
      * intros (Hi & -> & H). destruct (Nat.lt_trichotomy a (i + j)) as [Hlt|[->|Hgt]]; [|by left|right; split_and!; [lia|done..]].
        exfalso. apply (E2 (a - i)); [lia|]. rewrite drop_drop. replace (i + (a - i)) with a by lia. done.
    + split; [intros H; by apply not_elem_of_nil in H|]. intros (Hi & -> & H). exfalso. apply (indexOf_none _ _ Hs E (a - i)). rewrite drop_drop.
      replace (i + (a - i)) with a by lia. done.
Qed.

Lemma occurrences_spec p s a b : (a, b) ∈ occurrences p s <-> 0 < length s /\ b = a + length s /\ take (length s) (drop a p) = s.
Proof.
  unfold occurrences. destruct s as [|c s]; [split; [intros H; by apply not_elem_of_nil in H|cbn; lia]|]. destruct (existsb (Ascii.eqb c) p) eqn:E.
  - rewrite occLoop_spec by (cbn; lia). split; [intros (_ & ? & ?); split_and!; [cbn; lia|done..]|intros (_ & ? & ?); split_and!; [lia|done..]].
  - split; [intros H; by apply not_elem_of_nil in H|]. intros (_ & _ & H). exfalso. assert (existsb (Ascii.eqb c) p = true); [|congruence].
    apply existsb_exists. exists c. split; [|apply Ascii.eqb_refl]. destruct (drop a p) as [|d r] eqn:Ed; [done|]. cbn in H. injection H as -> _.
    apply list_elem_of_In. rewrite <- (take_drop a p), Ed. apply elem_of_app. right. left.
Qed.

(** ** Runs *)

Fixpoint chain (lo : nat) (rs : list interval) : Prop :=
  match rs with [] => True | r :: rs => lo <= fst r /\ fst r < snd r /\ chain (snd r) rs end.

Lemma chain_elem lo rs r : chain lo rs -> r ∈ rs -> lo <= fst r /\ fst r < snd r.
Proof.
  revert lo. induction rs as [|x rs IH]; intros lo H Hr; [by apply not_elem_of_nil in Hr|]. destruct H as (H1 & H2 & H). apply elem_of_cons in Hr as [->|Hr]; [done|].
  destruct (IH _ H Hr). lia.
Qed.

(** A run made of occurrences of [O]: one begins it, and each of its places but the
    first is inside one. *)
Definition made (O : nat -> nat -> Prop) (r : interval) : Prop :=
  (exists b, O (fst r) b /\ fst r < b <= snd r) /\ forall i, fst r < i < snd r -> exists a b, O a b /\ fst r <= a < i /\ i < b <= snd r.

Record runsOf (O : nat -> nat -> Prop) (rs : list interval) : Prop := mkRuns {
  ro_chain : chain 0 rs;
  ro_made : forall r, r ∈ rs -> made O r;
  ro_in : forall a b, O a b -> exists r, r ∈ rs /\ fst r <= a /\ b <= snd r;
}.

Lemma joinRuns_spec O cur os lo : made O cur -> lo <= fst cur -> (forall o, o ∈ os -> O (fst o) (snd o) /\ fst o < snd o /\ fst cur <= fst o) ->
  StronglySorted startLeb os ->
  chain lo (joinRuns cur os) /\ (forall r, r ∈ joinRuns cur os -> made O r) /\
  (forall o, o ∈ cur :: os -> exists r, r ∈ joinRuns cur os /\ fst r <= fst o /\ snd o <= snd r).
Proof.
  revert cur lo. induction os as [|o os IH]; intros cur lo Hc Hlo Hos Hs; cbn [joinRuns].
  - pose proof Hc as ((b & _ & Hb) & _). split_and!; [cbn; lia| |]; intros r ->%list_elem_of_singleton; [done|]. exists cur. split; [left|lia].
  - inversion Hs as [|? ? Hs' Ho]; subst. destruct (Hos o ltac:(left)) as (HO & Hlen & Hle). pose proof Hc as ((b & HOb & Hb) & Hin).
    assert (Hnext : forall o', o' ∈ os -> fst o <= fst o').
    { intros o' Ho'. eapply Forall_forall in Ho; [|exact Ho']. apply Is_true_true, Nat.leb_le in Ho. done. }
    destruct (Nat.ltb_spec (fst o) (snd cur)) as [Hlt|Hge].
    + destruct (IH (fst cur, Nat.max (snd cur) (snd o)) lo) as (C & M & I); [|done| |done|].
      * split; cbn [fst snd]; [exists b; split; [done|lia]|]. intros i Hi. destruct (Nat.lt_ge_cases i (snd cur)) as [H|H].
        -- destruct (Hin i ltac:(lia)) as (a' & b' & HO' & ? & ?). exists a', b'. split; [done|lia].
        -- exists (fst o), (snd o). split; [done|lia].
      * intros o' Ho'. destruct (Hos o' ltac:(by right)) as (? & ? & ?). cbn. done.
      * split_and!; [done|done|]. destruct (I (fst cur, Nat.max (snd cur) (snd o)) ltac:(left)) as (r & Hr & R1 & R2). cbn in R1, R2.
        intros o' [->|[->|Ho']%elem_of_cons]%elem_of_cons; [exists r; split; [done|lia]|exists r; split; [done|lia]|]. apply I. by right.
    + destruct (IH o (snd cur)) as (C & M & I); [|done| |done|].
      * split; [exists (snd o); split; [done|lia]|]. intros i Hi. exists (fst o), (snd o). split; [done|lia].
      * intros o' Ho'. destruct (Hos o' ltac:(by right)) as (? & ? & ?). split_and!; [done..|by apply Hnext].
      * split_and!; [cbn; split_and!; [done|lia|done]| |]; [intros r [->|Hr]%elem_of_cons; [done|by apply M]|].
        intros o' [->|Ho']%elem_of_cons; [exists cur; split; [left|lia]|]. destruct (I o' Ho') as (r & Hr & ?). exists r. split; [by right|done].
Qed.

Lemma found_spec m p a b : (a, b) ∈ concat (map (occurrences p) (secrets m)) <-> occ (secrets m) p a b.
Proof.
  rewrite list_elem_of_In, in_concat. split.
  - intros (l & Hl & Hin). apply in_map_iff in Hl as (s & <- & Hs). apply list_elem_of_In, occurrences_spec in Hin as (H1 & H2 & H3). exists s. split_and!; try done. by apply list_elem_of_In.
  - intros (s & Hs & H1 & H2 & H3). exists (occurrences p s). split; [apply in_map_iff; exists s; split; [done|by apply list_elem_of_In]|]. by apply list_elem_of_In, occurrences_spec.
Qed.

Lemma runs_spec m p : runsOf (occ (secrets m) p) (runs m p).
Proof.
  unfold runs. set (l := concat _). pose proof (sortBy_sorted startLeb ltac:(intros; unfold startLeb; rewrite !Nat.leb_le; lia)
    ltac:(unfold startLeb; intros x y z; rewrite !Nat.leb_le; lia) l) as Hs.
  assert (Hin : forall o, o ∈ sortBy startLeb l <-> occ (secrets m) p (fst o) (snd o)) by (intros [a b]; rewrite elem_of_sortBy; apply found_spec).
  destruct (sortBy startLeb l) as [|o os].
  - constructor; [done|intros r Hr; by apply not_elem_of_nil in Hr|]. intros a b H. apply (Hin (a, b)) in H. by apply not_elem_of_nil in H.
  - inversion Hs as [|? ? Hs' Ho]; subst. assert (Hb : forall x, x ∈ o :: os -> fst x < snd x) by (intros x Hx; apply Hin, occ_bound in Hx; lia).
    destruct (joinRuns_spec (occ (secrets m) p) o os 0) as (C & M & I).
    + split; [exists (snd o); split; [apply Hin; left|split; [apply Hb; left|done]]|]. intros i Hi. exists (fst o), (snd o). split; [apply Hin; left|lia].
    + lia.
    + intros x Hx. split_and!; [apply Hin; by right|apply Hb; by right|]. eapply Forall_forall in Ho; [|exact Hx]. apply Is_true_true, Nat.leb_le in Ho. done.
    + done.
    + constructor; [done|done|]. intros a b H. apply (Hin (a, b)) in H. destruct (I _ H) as (r & Hr & ?). by exists r.
Qed.

(** The runs cover and join what the occurrences do. *)
Lemma runs_covers O rs i : runsOf O rs -> (exists a b, O a b /\ a <= i < b) <-> covers rs i = true.
Proof.
  intros [C M I]. rewrite coversIv_spec. split.
  - intros (a & b & HO & H). destruct (I _ _ HO) as ([ra rb] & Hr & ? & ?). cbn in *. exists ra, rb. split; [done|lia].
  - intros (a & b & Hr & H). destruct (M _ Hr) as ((b' & HO & ?) & Hin). cbn in *. destruct (Nat.eq_dec i a) as [->|]; [exists a, b'; split; [done|lia]|].
    destruct (Hin i ltac:(lia)) as (a2 & b2 & ? & ? & ?). exists a2, b2. split; [done|lia].
Qed.

Lemma runs_joins O rs i : runsOf O rs -> (exists a b, O a b /\ a < i < b) <-> joins rs i = true.
Proof.
  intros [C M I]. rewrite joins_spec. split.
  - intros (a & b & HO & H). destruct (I _ _ HO) as ([ra rb] & Hr & ? & ?). cbn in *. exists ra, rb. split; [done|lia].
  - intros (a & b & Hr & H). destruct (M _ Hr) as (_ & Hin). cbn in *. destruct (Hin i ltac:(lia)) as (a2 & b2 & ? & ? & ?). exists a2, b2. split; [done|lia].
Qed.

Lemma piece_runs m p rs i : runsOf (occ (secrets m) p) rs -> piece rs p i = piece (allOcc (secrets m) p) p i.
Proof.
  intros H. unfold piece. replace (covers (allOcc (secrets m) p) i) with (covers rs i); [replace (joins (allOcc (secrets m) p) i) with (joins rs i); [done|]|].
  - apply bool_ext. rewrite <- (runs_joins _ _ _ H), joins_spec. by setoid_rewrite allOcc_spec.
  - apply bool_ext. rewrite <- (runs_covers _ _ _ H), coversIv_spec. by setoid_rewrite allOcc_spec.
Qed.

(** ** [Mask] is the byte-by-byte reading *)

Lemma seg_app os p a n k : seg os p a (n + k) = seg os p a n ++ seg os p (a + n) k.
Proof. unfold seg. by rewrite seq_app, map_app, concat_app. Qed.

Lemma seg_ext os os' p p' a a' n : (forall i, i < n -> piece os p (a + i) = piece os' p' (a' + i)) -> seg os p a n = seg os' p' a' n.
Proof.
  intros H. unfold seg. f_equal. revert a a' H. induction n as [|n IH]; intros a a' H; [done|]. cbn. f_equal; [by specialize (H 0 ltac:(lia)); rewrite !Nat.add_0_r in H|].
  apply IH. intros i Hi. specialize (H (S i) ltac:(lia)). by rewrite !Nat.add_succ_r in H.
Qed.

Lemma seg_none os p a n : (forall i, a <= i < a + n -> joins os i = true) -> seg os p a n = [].
Proof.
  revert a. induction n as [|n IH]; intros a H; [done|]. unfold seg in *. cbn. rewrite IH by (intros i Hi; apply H; lia). rewrite app_nil_r. unfold piece.
  specialize (H a ltac:(lia)). rewrite H. apply joins_spec in H as (x & y & Hin & ?). replace (covers os a) with true; [done|]. symmetry. apply coversIv_spec. exists x, y. split; [done|lia].
Qed.

Lemma seg_raw os p a n : a + n <= length p -> (forall i, a <= i < a + n -> covers os i = false) -> seg os p a n = take n (drop a p).
Proof.
  revert a. induction n as [|n IH]; intros a Hl H; [by rewrite take_0|]. unfold seg in *. cbn [seq map concat]. rewrite IH by (try lia; intros i Hi; apply H; lia).
  unfold piece. rewrite (H a) by lia. destruct (drop a p) as [|c r] eqn:E; [apply (f_equal length) in E; rewrite length_drop in E; cbn in E; lia|].
  rewrite <- (Nat.add_1_r a), <- drop_drop, E. done.
Qed.

Lemma seg_run os p a b : a < b -> covers os a = true -> joins os a = false -> (forall i, a < i < b -> joins os i = true) -> seg os p a (b - a) = placeholder.
Proof.
  intros Hab Hc Hj Hin. replace (b - a) with (1 + (b - a - 1)) by lia. rewrite seg_app, (seg_none _ _ (a + 1)) by (intros i Hi; apply Hin; lia).
  unfold seg. cbn. unfold piece. by rewrite Hc, Hj, !app_nil_r.
Qed.

(** In a chain past [lo], nothing before [lo] is covered by the rest. *)
Lemma chain_covers lo rs i : chain lo rs -> i < lo -> covers rs i = false.
Proof.
  intros C Hi. apply not_true_iff_false. rewrite coversIv_spec. intros (a & b & Hr & H). destruct (chain_elem _ _ _ C Hr) as [? ?]. cbn in *. lia.
Qed.

Lemma chain_joins lo rs i : chain lo rs -> i <= lo -> joins rs i = false.
Proof.
  intros C Hi. apply not_true_iff_false. rewrite joins_spec. intros (a & b & Hr & H). destruct (chain_elem _ _ _ C Hr) as [? ?]. cbn in *. lia.
Qed.

Lemma maskRuns_seg pre rs p last : (forall r, r ∈ pre -> snd r <= last) -> chain last rs -> (forall r, r ∈ rs -> snd r <= length p) -> last <= length p ->
  maskRuns last rs p = seg (pre ++ rs) p last (length p - last).
Proof.
  revert pre last. induction rs as [|r rs IH]; intros pre last Hpre C Hb Hl; cbn [maskRuns].
  - rewrite seg_raw; [by rewrite firstn_all2 by (rewrite length_drop; lia)|lia|]. intros i Hi. rewrite app_nil_r. apply not_true_iff_false. rewrite coversIv_spec.
    intros (a & b & Hr & H). specialize (Hpre _ Hr). cbn in Hpre. lia.
  - destruct C as (C1 & C2 & C). pose proof (Hb r ltac:(left)) as Hr.
    assert (Hcov : forall i, covers (pre ++ r :: rs) i = covers pre i || (inside i r || covers rs i)) by (intros i; unfold covers; by rewrite existsb_app).
    assert (Hjoin : forall i, joins (pre ++ r :: rs) i = joins pre i || (within i r || joins rs i)) by (intros i; unfold joins; by rewrite existsb_app).
    assert (Hpc : forall i, last <= i -> covers pre i = false /\ joins pre i = false).
    { intros i Hi. split; apply not_true_iff_false; rewrite ?coversIv_spec, ?joins_spec; intros (a & b & Hp & H); specialize (Hpre _ Hp); cbn in Hpre; lia. }
    replace (length p - last) with ((fst r - last) + ((snd r - fst r) + (length p - snd r))) by lia. rewrite !seg_app.
    replace (last + (fst r - last)) with (fst r) by lia. replace (fst r + (snd r - fst r)) with (snd r) by lia. f_equal; [|f_equal].
    + unfold slice. symmetry. apply seg_raw; [lia|]. intros i Hi. rewrite Hcov, (proj1 (Hpc i ltac:(lia))), (chain_covers _ _ _ C) by lia.
      unfold inside. rewrite (proj2 (Nat.leb_gt (fst r) i)) by lia. done.
    + symmetry. apply seg_run; [done| | |].
      * rewrite Hcov. unfold inside. rewrite Nat.leb_refl, (proj2 (Nat.ltb_lt (fst r) (snd r))) by done. by rewrite orb_true_r.
      * rewrite Hjoin, (proj2 (Hpc (fst r) ltac:(lia))), (chain_joins _ _ _ C) by lia. unfold within. by rewrite Nat.ltb_irrefl.
      * intros i Hi. rewrite Hjoin. unfold within. rewrite (proj2 (Nat.ltb_lt (fst r) i)), (proj2 (Nat.ltb_lt i (snd r))) by lia. by rewrite orb_true_r.
    + rewrite (IH (pre ++ [r]) (snd r)); [by rewrite <- app_assoc| |done|intros x Hx; apply Hb; by right|done].
      intros x [Hx|Hx%list_elem_of_singleton]%elem_of_app; [specialize (Hpre _ Hx); lia|by subst].
Qed.

Lemma runs_end O rs (p : bytes) r : runsOf O rs -> (forall a b, O a b -> b <= length p) -> chain 0 rs -> r ∈ rs -> snd r <= length p.
Proof.
  intros [C M I] Hb _ Hr. destruct (M _ Hr) as ((b & HO & Hlt) & Hin). destruct (Nat.eq_dec b (snd r)) as [<-|]; [by eapply Hb|].
  destruct (Hin (snd r - 1) ltac:(lia)) as (a & b' & HO' & ? & ?). assert (b' = snd r) as <- by lia. by eapply Hb.
Qed.

Lemma Mask_seg m p : Mask m p = hiddenText (secrets m) p.
Proof.
  pose proof (runs_spec m p) as H. assert (E : maskRuns 0 (runs m p) p = Mask m p) by (unfold Mask; destruct (runs m p); done).
  rewrite <- E. rewrite (maskRuns_seg [] (runs m p)); [|intros r Hr; by apply not_elem_of_nil in Hr|apply H| |lia].
  - unfold hiddenText. rewrite Nat.sub_0_r. apply seg_ext. intros i _. by apply piece_runs.
  - intros r Hr. eapply runs_end; [exact H| |apply H|exact Hr]. intros a b Ho. apply occ_bound in Ho. lia.
Qed.

(** ** The writer's bookkeeping *)

Lemma covered_spec lo0 h rs : chain lo0 rs ->
  h <= covered h rs /\ (forall r, r ∈ rs -> fst r < covered h rs -> snd r <= covered h rs) /\
  (forall i, h <= i < covered h rs -> exists r, r ∈ rs /\ fst r < i < snd r).
Proof.
  revert lo0 h. induction rs as [|r rs IH]; intros lo0 h C; unfold covered; cbn [foldl].
  - split_and!; [done| |]; [intros r Hr; by apply not_elem_of_nil in Hr|intros; lia].
  - destruct C as (C1 & C2 & C). fold (covered (if fst r <? h then Nat.max h (snd r) else h) rs). set (h' := if fst r <? h then _ else h).
    destruct (IH _ h' C) as (I1 & I2 & I3). assert (Hh : h <= h') by (unfold h'; destruct (_ <? _); lia). split_and!; [lia| |].
    + intros x [->|Hx]%elem_of_cons Hlt; [|by apply I2]. unfold h' in *. destruct (Nat.ltb_spec (fst r) h); [lia|]. destruct (Nat.le_gt_cases (snd r) (covered h rs)) as [|Hgt]; [done|].
      exfalso. destruct (I3 (fst r) ltac:(lia)) as (x & Hx & ?). destruct (chain_elem _ _ _ C Hx). lia.
    + intros i Hi. destruct (Nat.lt_ge_cases i h') as [Hlt|Hge]; [|destruct (I3 i ltac:(lia)) as (x & Hx & ?); exists x; split; [by right|done]].
      unfold h' in Hlt. destruct (Nat.ltb_spec (fst r) h); [|lia]. exists r. split; [left|lia].
Qed.

Lemma crossing_spec lo0 at_ rs : chain lo0 rs ->
  at_ <= crossing at_ rs /\ (forall r, r ∈ rs -> fst r < at_ -> snd r <= crossing at_ rs) /\
  (crossing at_ rs = at_ \/ exists r, r ∈ rs /\ fst r < at_ < snd r /\ crossing at_ rs = snd r).
Proof.
  unfold crossing. set (f := fun e r => _).
  assert (Hgen : forall rs lo0 e, chain lo0 rs -> at_ <= e -> (at_ <= lo0 \/ e = at_) ->
    e <= foldl f e rs /\ (forall r, r ∈ rs -> fst r < at_ -> snd r <= foldl f e rs) /\
    (foldl f e rs = e \/ exists r, r ∈ rs /\ fst r < at_ < snd r /\ foldl f e rs = snd r)).
  { clear rs lo0. induction rs as [|r rs IH]; intros lo0 e C He Hor; cbn [foldl].
    - split_and!; [done|intros r Hr; by apply not_elem_of_nil in Hr|by left].
    - destruct C as (C1 & C2 & C). unfold f at 2 4 6 8. destruct (Nat.ltb_spec (fst r) at_) as [H1|H1], (Nat.ltb_spec at_ (snd r)) as [H2|H2]; cbn [andb];
        [destruct (IH (snd r) (snd r) C ltac:(lia) ltac:(lia)) as (I1 & I2 & I3)|destruct (IH (snd r) e C ltac:(lia) ltac:(lia)) as (I1 & I2 & I3)..];
        (split_and!; [lia| |]); try (intros x [->|Hx]%elem_of_cons Hlt; [lia|by apply I2]).
      + right. destruct I3 as [E|(x & Hx & ? & ?)]; [exists r; split_and!; [left|lia..]|exists x; split_and!; [by right|lia..]].
      + destruct I3 as [E|(x & Hx & ? & ?)]; [by left|right; exists x; split_and!; [by right|lia..]].
      + destruct I3 as [E|(x & Hx & ? & ?)]; [by left|right; exists x; split_and!; [by right|lia..]].
      + destruct I3 as [E|(x & Hx & ? & ?)]; [by left|right; exists x; split_and!; [by right|lia..]]. }
  intros C. apply (Hgen rs lo0 at_ C); [lia|by right].
Qed.

Lemma hasSuffix_spec p s : hasSuffix p s = true <-> length s <= length p /\ drop (length p - length s) p = s.
Proof. unfold hasSuffix, bytesEqb. by rewrite andb_true_iff, Nat.leb_le, bool_decide_eq_true. Qed.

Lemma cutLoop_spec k best s p : best <= cutLoop k best s p /\ (forall j, j <= k -> hasSuffix p (take j s) = true -> j <= cutLoop k best s p) /\
  (cutLoop k best s p = best \/ (cutLoop k best s p <= k /\ hasSuffix p (take (cutLoop k best s p) s) = true)).
Proof.
  induction k as [|k (I1 & I2 & I3)]; cbn [cutLoop]; [split_and!; [done|intros; lia|by left]|]. destruct (Nat.ltb_spec best (S k)) as [Hlt|Hge].
  - destruct (hasSuffix p (take (S k) s)) eqn:E; [split_and!; [lia|intros; lia|right; done]|]. split_and!; [done| |].
    + intros j Hj Hh. destruct (Nat.eq_dec j (S k)) as [->|]; [congruence|]. apply I2; [lia|done].
    + destruct I3 as [?|[? ?]]; [by left|right; split; [lia|done]].
  - split_and!; [done|intros; lia|by left].
Qed.

Lemma cutPrefix_spec m p : (forall s k, s ∈ secrets m -> k <= length s - 1 -> hasSuffix p (take k s) = true -> k <= cutPrefixLen m p) /\
  (cutPrefixLen m p = 0 \/ exists s, s ∈ secrets m /\ cutPrefixLen m p <= length s - 1 /\ hasSuffix p (take (cutPrefixLen m p) s) = true) /\ cutPrefixLen m p <= length p.
Proof.
  unfold cutPrefixLen. set (f := fun best s => _).
  assert (Hgen : forall ss best, best <= foldl f best ss /\ (forall s k, s ∈ ss -> k <= length s - 1 -> hasSuffix p (take k s) = true -> k <= foldl f best ss) /\
    (foldl f best ss = best \/ (exists s, s ∈ ss /\ foldl f best ss <= length s - 1 /\ hasSuffix p (take (foldl f best ss) s) = true) /\ foldl f best ss <= length p)).
  { induction ss as [|s ss IH]; intros best; cbn [foldl]; [split_and!; [done|intros ? ? Hs; by apply not_elem_of_nil in Hs|by left]|].
    destruct (cutLoop_spec (Nat.min (length s - 1) (length p)) best s p) as (L1 & L2 & L3). destruct (IH (f best s)) as (I1 & I2 & I3). fold (f best s) in L1, L2, L3. split_and!; [lia| |].
    - intros x k [->|Hx]%elem_of_cons Hk Hh; [|by apply (I2 x)]. apply hasSuffix_spec in Hh as Hl. destruct Hl as [Hl _]. rewrite length_take in Hl.
      specialize (L2 k ltac:(lia) Hh). lia.
    - destruct I3 as [E|((x & Hx & ?) & ?)]; [|right; split; [exists x; split; [by right|done]|done]]. rewrite E. destruct L3 as [->|[? ?]]; [by left|].
      right. split; [exists s; split_and!; [left|lia|done]|lia]. }
  destruct (Hgen (secrets m) 0) as (_ & H2 & H3). split; [done|]. destruct H3 as [->|[? ?]]; [split; [by left|lia]|]. split; [by right|done].
Qed.

Section Stream.
Context (m : Masker) (P : bytes).
Notation O := (occ (secrets m) P).
Notation os := (allOcc (secrets m) P).

Lemma osJoins i : (exists a b, O a b /\ a < i < b) <-> joins os i = true.
Proof. rewrite joins_spec. by setoid_rewrite allOcc_spec. Qed.
Lemma osCovers i : (exists a b, O a b /\ a <= i < b) <-> covers os i = true.
Proof. rewrite coversIv_spec. by setoid_rewrite allOcc_spec. Qed.

(** With the bytes before [T] forwarded, [h] of the following ones are hidden by a run
    that is forwarded already, and no occurrence from before reaches further. *)
Record inv (T h : nat) : Prop := mkInv {
  iv_reach : forall a b, O a b -> a < T -> b <= T + h;
  iv_joined : forall i, T <= i < T + h -> joins os i = true;
}.

Section Step.
Context (T L at_ h : nat) (Hi : inv T h) (HL : T + L <= length P) (Hat : at_ <= L).
Context (Hwhole : forall a b, O a b -> T <= a < T + at_ -> b <= T + L).
Let buf := take L (drop T P).
Let rs := runs m buf.
Let lo := covered h rs.
Let e := crossing at_ rs.

Lemma buf_occ a b : occ (secrets m) buf a b <-> O (T + a) (T + b) /\ b <= L.
Proof. apply occ_slice. Qed.

Lemma step_runs : runsOf (occ (secrets m) buf) rs.
Proof. apply runs_spec. Qed.

Lemma run_end r : r ∈ rs -> snd r <= L.
Proof.
  intros Hr. pose proof step_runs as H. apply (runs_end _ rs buf r H) in Hr; [| |apply H].
  - unfold buf in Hr. rewrite length_take in Hr. lia.
  - intros a b Hb. apply occ_bound in Hb. lia.
Qed.

(** Everything before [lo] is inside a forwarded run. *)
Lemma before_lo i : i < lo -> joins os (T + i) = true.
Proof.
  intros Hlt. destruct (Nat.lt_ge_cases i h) as [|Hge]; [apply Hi; lia|]. destruct (covered_spec 0 h rs) as (_ & _ & C3); [apply step_runs|].
  destruct (C3 i ltac:(fold lo; lia)) as (r & Hr & Hin). destruct (ro_made _ _ step_runs _ Hr) as (_ & Hm). destruct (Hm i Hin) as (a & b & Hab & ? & ?).
  apply buf_occ in Hab as [Hab _]. apply osJoins. exists (T + a), (T + b). split; [done|lia].
Qed.

(** The stretch that is masked. *)
Lemma slice_occ a b : occ (secrets m) (slice lo e buf) a b <-> occ (secrets m) buf (lo + a) (lo + b) /\ b <= e - lo.
Proof. apply occ_slice. Qed.

Lemma occ_in_slice a b i : occ (secrets m) buf a b -> a <= i < b -> lo <= i < at_ -> lo <= a /\ b <= e.
Proof.
  intros Hab Hab' Hlo. destruct (covered_spec 0 h rs) as (_ & C2 & _); [apply step_runs|]. destruct (crossing_spec 0 at_ rs) as (_ & X2 & _); [apply step_runs|].
  fold lo in C2. fold e in X2. destruct (ro_in _ _ step_runs _ _ Hab) as (r & Hr & R1 & R2). specialize (C2 r Hr). specialize (X2 r Hr). lia.
Qed.

Lemma slice_piece j : lo <= j < at_ -> piece (allOcc (secrets m) (slice lo e buf)) (slice lo e buf) (j - lo) = piece os P (T + j).
Proof.
  intros Hj. destruct (crossing_spec 0 at_ rs) as (X1 & X2 & _); [apply step_runs|]. fold e in X1, X2. destruct (covered_spec 0 h rs) as (C1 & C2 & _); [apply step_runs|]. fold lo in C1, C2.
  assert (Hown : forall a b, O a b -> a <= T + j < b -> exists a' b', a = T + a' /\ b = T + b' /\ occ (secrets m) buf a' b' /\ lo <= a' /\ b' <= e).
  { intros a b Hab Hin. destruct (Nat.lt_ge_cases a T) as [Hlt|Hge]; [pose proof (iv_reach _ _ Hi _ _ Hab Hlt); lia|]. pose proof (Hwhole _ _ Hab ltac:(lia)) as Hb.
    exists (a - T), (b - T). assert (Ho : occ (secrets m) buf (a - T) (b - T)).
    { apply buf_occ. replace (T + (a - T)) with a by lia. replace (T + (b - T)) with b by lia. split; [done|lia]. }
    destruct (occ_in_slice _ _ j Ho) as [? ?]; [lia..|]. split_and!; [lia|lia|done..]. }
  unfold piece. replace (covers (allOcc (secrets m) (slice lo e buf)) (j - lo)) with (covers os (T + j)).
  2:{ apply bool_ext. rewrite <- osCovers, coversIv_spec. setoid_rewrite allOcc_spec. setoid_rewrite slice_occ. split.
      - intros (a & b & Hab & Hin). destruct (Hown a b Hab Hin) as (a' & b' & -> & -> & Ho & ? & ?). exists (a' - lo), (b' - lo).
        replace (lo + (a' - lo)) with a' by lia. assert (lo <= b') by (apply occ_bound in Ho; lia). replace (lo + (b' - lo)) with b' by lia. split; [split; [done|lia]|lia].
      - intros (a & b & [Hab _] & Hin). apply buf_occ in Hab as [Hab _]. exists (T + (lo + a)), (T + (lo + b)). split; [done|lia]. }
  replace (joins (allOcc (secrets m) (slice lo e buf)) (j - lo)) with (joins os (T + j)).
  2:{ apply bool_ext. rewrite <- osJoins, joins_spec. setoid_rewrite allOcc_spec. setoid_rewrite slice_occ. split.
      - intros (a & b & Hab & Hin). destruct (Hown a b Hab ltac:(lia)) as (a' & b' & -> & -> & Ho & ? & ?). exists (a' - lo), (b' - lo).
        replace (lo + (a' - lo)) with a' by lia. assert (lo <= b') by (apply occ_bound in Ho; lia). replace (lo + (b' - lo)) with b' by lia. split; [split; [done|lia]|lia].
      - intros (a & b & [Hab _] & Hin). apply buf_occ in Hab as [Hab _]. exists (T + (lo + a)), (T + (lo + b)). split; [done|lia]. }
  unfold slice, buf. rewrite !take_drop_slice by lia. replace (T + (lo + (j - lo))) with (T + j) by lia. done.
Qed.

(** Inside the run that crosses [at_], everything is joined within the stretch. *)
Lemma crossing_joined j : at_ <= j < e -> exists a b, occ (secrets m) buf a b /\ a < j < b /\ b <= e /\ (lo < at_ -> lo <= a).
Proof.
  intros Hj. destruct (crossing_spec 0 at_ rs) as (_ & _ & X); [apply step_runs|]. fold e in X. destruct X as [X|(r & Hr & Hrat & He)]; [lia|].
  destruct (covered_spec 0 h rs) as (_ & C2 & _); [apply step_runs|]. fold lo in C2. specialize (C2 r Hr).
  destruct (ro_made _ _ step_runs _ Hr) as (_ & Hm). destruct (Hm j ltac:(lia)) as (a & b & Hab & ? & ?). exists a, b. split_and!; [done|lia..].
Qed.

Lemma e_end : e <= L.
Proof.
  destruct (crossing_spec 0 at_ rs) as (_ & _ & X); [apply step_runs|]. fold e in X. destruct X as [X|(r & Hr & _ & X)]; [lia|]. pose proof (run_end r Hr). lia.
Qed.

Lemma step_out : (if lo <? at_ then Mask m (slice lo e buf) else []) = seg os P T at_.
Proof.
  pose proof e_end as He. destruct (crossing_spec 0 at_ rs) as (X1 & _ & _); [apply step_runs|]. fold e in X1. destruct (Nat.ltb_spec lo at_) as [Hlt|Hge].
  - rewrite Mask_seg. unfold hiddenText. assert (Hlen : length (slice lo e buf) = (at_ - lo) + (e - at_)) by (unfold slice, buf; rewrite length_take, length_drop, length_take, length_drop; lia).
    rewrite Hlen, seg_app, (seg_none _ _ (0 + (at_ - lo))), app_nil_r.
    + replace (seg os P T at_) with (seg os P T (lo + (at_ - lo))) by (f_equal; lia). rewrite seg_app, (seg_none _ _ T lo).
      * apply seg_ext. intros i Hilt. cbn [Nat.add]. rewrite <- Nat.add_assoc, <- slice_piece by lia. f_equal. lia.
      * intros i Hin. replace i with (T + (i - T)) by lia. apply before_lo. lia.
    + intros i Hin. destruct (crossing_joined (lo + i) ltac:(lia)) as (a & b & Hab & ? & ? & Hla). specialize (Hla Hlt). apply joins_spec. setoid_rewrite allOcc_spec. setoid_rewrite slice_occ.
      exists (a - lo), (b - lo). replace (lo + (a - lo)) with a by lia. replace (lo + (b - lo)) with b by lia. split; [split; [done|lia]|lia].
  - symmetry. apply seg_none. intros i Hin. replace i with (T + (i - T)) by lia. apply before_lo. lia.
Qed.

Lemma step_held : inv (T + at_) (Nat.max lo e - at_).
Proof.
  destruct (covered_spec 0 h rs) as (C1 & _ & _); [apply step_runs|]. fold lo in C1. destruct (crossing_spec 0 at_ rs) as (X1 & X2 & _); [apply step_runs|]. fold e in X1, X2.
  constructor.
  - intros a b Hab Hlt. destruct (Nat.lt_ge_cases a T) as [H|H]; [pose proof (iv_reach _ _ Hi _ _ Hab H); lia|]. pose proof (Hwhole _ _ Hab ltac:(lia)) as Hb.
    assert (Ho : occ (secrets m) buf (a - T) (b - T)).
    { apply buf_occ. replace (T + (a - T)) with a by lia. replace (T + (b - T)) with b by (apply occ_bound in Hab; lia). split; [done|lia]. }
    destruct (ro_in _ _ step_runs _ _ Ho) as (r & Hr & R1 & R2). specialize (X2 r Hr). lia.
  - intros i Hin. destruct (Nat.lt_ge_cases (i - T) lo) as [H|H]; [replace i with (T + (i - T)) by lia; by apply before_lo|].
    destruct (crossing_joined (i - T) ltac:(lia)) as (a & b & Hab & ? & _). apply buf_occ in Hab as [Hab _]. apply osJoins. exists (T + a), (T + b). split; [done|lia].
Qed.
End Step.

(** The writer with the bytes before [T] forwarded. *)
Record held (T : nat) (w : MaskingWriter) : Prop := mkHeld {
  hd_masker : wm w = m;
  hd_tail : tail w = take (length (tail w)) (drop T P);
  hd_len : T + length (tail w) <= length P;
  hd_inv : inv T (hidden w);
  hd_cut : length (tail w) = cutPrefixLen m (tail w);
  hd_before : forall a s, a < T -> s ∈ secrets m -> let k := T + length (tail w) - a in k <= length s - 1 -> take k (drop a P) <> take k s;
}.

Lemma cut_before T L : let buf := take L (drop T P) in T + L <= length P -> forall a s, T <= a < T + (L - cutPrefixLen m buf) -> s ∈ secrets m ->
  T + L - a <= length s - 1 -> take (T + L - a) (drop a P) <> take (T + L - a) s.
Proof.
  intros buf HL a s Ha Hs Hk H. assert (Hlen : length buf = L) by (unfold buf; rewrite length_take, length_drop; lia).
  destruct (cutPrefix_spec m buf) as (H1 & _ & _). assert (T + L - a <= cutPrefixLen m buf); [|lia]. apply (H1 s); [done..|]. apply hasSuffix_spec.
  rewrite length_take, Nat.min_l by lia. split; [lia|]. rewrite Hlen, <- H. unfold buf. rewrite skipn_firstn_comm, drop_drop. f_equal; [lia|]. f_equal. lia.
Qed.

Lemma cut_whole T L : let buf := take L (drop T P) in T + L <= length P -> forall a b, O a b -> T <= a < T + (L - cutPrefixLen m buf) -> b <= T + L.
Proof.
  intros buf HL a b (s & Hs & Hl & -> & H) Ha. destruct (Nat.le_gt_cases (a + length s) (T + L)) as [|Hgt]; [done|]. exfalso.
  apply (cut_before T L HL a s); [done|done|lia|]. apply (f_equal (take (T + L - a))) in H. rewrite take_take, Nat.min_l in H by lia. done.
Qed.

Lemma cut_tail p : cutPrefixLen m (drop (length p - cutPrefixLen m p) p) = cutPrefixLen m p.
Proof.
  set (c := cutPrefixLen m p). set (t := drop _ p). destruct (cutPrefix_spec m p) as (H1 & H2 & H3). fold c in H1, H2, H3.
  assert (Hl : length t = c) by (unfold t; rewrite length_drop; lia). destruct (cutPrefix_spec m t) as (_ & _ & T3). rewrite Hl in T3. apply Nat.le_antisymm; [done|].
  destruct H2 as [->|(s & Hs & Hk & Hh)]; [lia|]. destruct (cutPrefix_spec m t) as (T1 & _ & _). apply (T1 s); [done..|]. apply hasSuffix_spec.
  apply hasSuffix_spec in Hh as [_ Hh]. rewrite length_take, Nat.min_l, Hl by lia. rewrite length_take, Nat.min_l in Hh by lia. split; [lia|]. rewrite Nat.sub_diag. done.
Qed.

Lemma Write_nonempty mc w p : p <> [] -> Write mc w p =
  let buf := tail w ++ p in
  let at_ := length buf - cutPrefixLen (wm w) buf in
  let rs := runs (wm w) buf in
  let lo := covered (hidden w) rs in
  let end_ := crossing at_ rs in
  let '(masked, panicked) := if lo <? at_ then safeMask mc (wm w) (slice lo end_ buf) else ([], false) in
  (mkWriter (wm w) (drop at_ buf) (Nat.max lo end_ - at_), masked, panicked).
Proof. by destruct p. Qed.

Lemma write_held T w p rest : held T w -> drop (T + length (tail w)) P = p ++ rest ->
  exists T', held T' (fst (fst (Write plainCall w p))) /\ T' + length (tail (fst (fst (Write plainCall w p)))) = T + length (tail w) + length p /\
    T <= T' /\ snd (fst (Write plainCall w p)) = seg os P T (T' - T).
Proof.
  intros [Hm Ht Hl Hi Hc Hbef] Hp. destruct p as [|c p0] eqn:Ep; [exists T; cbn [Write fst snd]; split_and!; [done|cbn; lia|lia|by rewrite Nat.sub_diag]|]. rewrite <- Ep in *.
  set (L := length (tail w) + length p). assert (Hbuf : tail w ++ p = take L (drop T P)).
  { assert (HD : drop T P = tail w ++ p ++ rest) by (rewrite <- (take_drop (length (tail w)) (drop T P)), drop_drop, Hp, <- Ht; done).
    rewrite HD, app_assoc. unfold L. rewrite <- length_app, take_app_length. done. }
  assert (HL : T + L <= length P) by (apply (f_equal length) in Hp; rewrite length_drop, length_app in Hp; unfold L; lia).
  assert (HLb : length (tail w ++ p) = L) by (rewrite length_app; done).
  rewrite !Write_nonempty by (by rewrite Ep). cbn zeta. rewrite Hm, HLb, Hbuf. set (buf := take L (drop T P)). set (at_ := L - cutPrefixLen m buf).
  assert (Hat : at_ <= L) by lia. pose proof (cut_whole T L HL) as Hwhole. fold buf in Hwhole. fold at_ in Hwhole.
  pose proof (step_out T L at_ (hidden w) Hi HL Hat Hwhole) as Hout. pose proof (step_held T L at_ (hidden w) Hi HL Hat Hwhole) as Hinv. fold buf in Hout, Hinv.
  assert (Hlb : length buf = L) by (unfold buf; rewrite length_take, length_drop; lia). assert (Hcl : cutPrefixLen m buf <= L) by (rewrite <- Hlb; apply cutPrefix_spec).
  exists (T + at_). set (lo := covered _ _) in *. set (e := crossing _ _) in *.
  assert (Hfst : forall x : bytes * bool, fst (fst (let '(masked, panicked) := x in (mkWriter m (drop at_ buf) (Nat.max lo e - at_), masked, panicked))) = mkWriter m (drop at_ buf) (Nat.max lo e - at_)) by (by intros []).
  assert (Hsnd : forall x : bytes * bool, snd (fst (let '(masked, panicked) := x in (mkWriter m (drop at_ buf) (Nat.max lo e - at_), masked, panicked))) = fst x) by (by intros []).
  rewrite Hfst, Hsnd. cbn [tail hidden wm]. rewrite length_drop, Hlb. split_and!; [|lia|lia|].
  - constructor; cbn [tail hidden wm]; rewrite ?length_drop, ?Hlb; [done| |lia|done| |].
    + unfold buf. rewrite skipn_firstn_comm, drop_drop. done.
    + pose proof (cut_tail buf) as Hct. rewrite Hlb in Hct. fold at_ in Hct. rewrite Hct. lia.
    + intros a s Ha Hs. replace (T + at_ + (L - at_) - a) with (T + L - a) by lia. cbn zeta. intros Hk. destruct (Nat.lt_ge_cases a T) as [Hlt|Hge].
      * intros Heq. apply (Hbef a s Hlt Hs ltac:(unfold L in *; lia)). apply (f_equal (take (T + length (tail w) - a))) in Heq.
        rewrite !take_take, !Nat.min_l in Heq by (unfold L; lia). done.
      * apply (cut_before T L HL); [done|done|lia].
  - replace (T + at_ - T) with at_ by lia. rewrite <- Hout. by destruct (lo <? at_).
Qed.

Lemma writeAll_held chunks T w : held T w -> drop (T + length (tail w)) P = concat chunks ->
  exists T', held T' (fst (writeAll plainCall w chunks)) /\ T' + length (tail (fst (writeAll plainCall w chunks))) = length P /\
    T <= T' /\ snd (writeAll plainCall w chunks) = seg os P T (T' - T).
Proof.
  revert T w. induction chunks as [|p chunks IH]; intros T w H Hp; cbn [writeAll concat] in *.
  - exists T. apply (f_equal length) in Hp. rewrite length_drop in Hp. cbn in Hp. pose proof (hd_len _ _ H). cbn [fst snd]. split_and!; [done|lia|lia|by rewrite Nat.sub_diag].
  - destruct (write_held T w p (concat chunks) H Hp) as (T1 & H1 & E1 & L1 & O1). destruct (Write plainCall w p) as [[w1 out] pn]. cbn [fst snd] in *.
    destruct (IH T1 w1 H1) as (T2 & H2 & E2 & L2 & O2).
    { rewrite E1, <- drop_drop, Hp. apply drop_app_length. }
    destruct (writeAll plainCall w1 chunks) as [w2 rest]. cbn [fst snd] in *. exists T2. split_and!; [done|done|lia|]. rewrite O1, O2.
    replace (T2 - T) with ((T1 - T) + (T2 - T1)) by lia. rewrite seg_app. f_equal. f_equal. lia.
Qed.

Lemma start_held : held 0 (NewMaskingWriter m).
Proof.
  constructor; cbn; [done|done|lia| | |intros; lia].
  - constructor; intros; lia.
  - pose proof (cutPrefix_spec m []) as (_ & _ & H). cbn in H. lia.
Qed.

Lemma close_held T w : held T w -> T + length (tail w) = length P -> snd (Close plainCall w) = seg os P T (length (tail w)).
Proof.
  intros [Hm Ht Hl Hi Hc _] E. set (L := length (tail w)) in *.
  assert (Hwhole : forall a b, O a b -> T <= a < T + L -> b <= T + L) by (intros a b Hab _; apply occ_bound in Hab; lia).
  pose proof (step_out T L L (hidden w) Hi Hl (Nat.le_refl L) Hwhole) as Hout. rewrite <- Ht in Hout. rewrite <- Hout.
  pose proof (crossing_spec 0 L (runs m (tail w)) (ro_chain _ _ (runs_spec m (tail w)))) as (X1 & _ & X3).
  assert (He : crossing L (runs m (tail w)) = L).
  { destruct X3 as [->|(r & Hr & Hb & ->)]; [done|]. pose proof (runs_end _ _ (tail w) r (runs_spec m (tail w)) ltac:(intros a b Hab; apply occ_bound in Hab; lia) (ro_chain _ _ (runs_spec m (tail w))) Hr). lia. }
  rewrite He. unfold Close, flush. cbn zeta. rewrite Hm. fold L. rewrite Nat.sub_0_r.
  assert (Hq : forall rs q, foldl (fun q r => if (0 <? 0) && (fst r <? q) && (q <? snd r) then fst r else q) q rs = q) by (induction rs as [|r rs IH]; intros q; [done|apply IH]).
  rewrite Hq. set (lo := covered _ _). destruct (Nat.ltb_spec L lo); cbn [snd].
  - destruct (Nat.ltb_spec lo L); [lia|done].
  - by destruct (lo <? L).
Qed.

(** At the end of a stream the writer holds exactly what may begin a secret. *)
Lemma end_cut T w : held T w -> T + length (tail w) = length P -> cutPrefixLen m P = length (tail w).
Proof.
  intros [Hm Ht Hl _ Hc Hbef] E. destruct (cutPrefix_spec m P) as (P1 & P2 & P3). apply Nat.le_antisymm.
  - destruct (Nat.le_gt_cases (cutPrefixLen m P) (length (tail w))) as [|Hgt]; [done|]. exfalso. destruct P2 as [P2|(s & Hs & Hk & Hh)]; [lia|].
    set (k := cutPrefixLen m P) in *. apply hasSuffix_spec in Hh as [_ Hh]. rewrite length_take, Nat.min_l in Hh by lia.
    apply (Hbef (length P - k) s); [lia|done|lia|]. replace (T + length (tail w) - (length P - k)) with k by lia. rewrite Hh, take_take, Nat.min_id. done.
  - rewrite Hc. destruct (cutPrefix_spec m (tail w)) as (_ & [->|(s & Hs & Hk & Hh)] & _); [lia|]. apply (P1 s); [done..|]. rewrite <- Hc in *.
    apply hasSuffix_spec in Hh as [_ Hh]. apply hasSuffix_spec. rewrite length_take, Nat.min_l in * by lia. split; [lia|]. rewrite Nat.sub_diag in Hh. change (drop 0 (tail w)) with (tail w) in Hh.
    rewrite <- Hh. rewrite Ht. replace (length P - length (take (length (tail w)) (drop T P))) with T by (rewrite length_take, length_drop; lia).
    rewrite firstn_all2; [done|rewrite length_drop; lia].
Qed.

Lemma covered_at0 rs : covered 0 rs = 0.
Proof. unfold covered. induction rs as [|r rs IH]; [done|]. cbn [foldl]. by rewrite (proj2 (Nat.ltb_ge (fst r) 0)) by lia. Qed.

Lemma flush_cut T w : held T w -> T + length (tail w) = length P -> 0 < length (tail w) ->
  snd (flush plainCall w (length (tail w))) = if hidden w =? 0 then placeholder else [].
Proof.
  intros [Hm Ht Hl Hi Hc _] E Hpos. unfold flush. cbn zeta. rewrite Nat.sub_diag.
  assert (Hq : forall rs, foldl (fun q r => if (0 <? length (tail w)) && (fst r <? q) && (q <? snd r) then fst r else q) 0 rs = 0).
  { induction rs as [|r rs IH]; [done|]. cbn [foldl]. rewrite (proj2 (Nat.ltb_ge (fst r) 0)) by lia. by rewrite andb_false_r. }
  rewrite Hq, (proj2 (Nat.ltb_lt 0 (length (tail w)))) by done. destruct (Nat.eqb_spec (hidden w) 0) as [->|Hne]; [by rewrite covered_at0|].
  destruct (covered_spec 0 (hidden w) (runs (wm w) (tail w))) as (C1 & _ & _); [apply runs_spec|]. by rewrite (proj2 (Nat.ltb_lt 0 (covered _ _))) by lia.
Qed.

Lemma seg_cut T h n : inv T h -> T + n = length P -> 0 < n ->
  seg ((T, length P) :: os) P 0 (length P) = seg os P 0 T ++ (if h =? 0 then placeholder else []).
Proof.
  intros Hi E Hn. set (os' := (T, length P) :: os). rewrite <- E, seg_app. f_equal.
  - apply seg_ext. intros i Hlt. cbn [Nat.add]. unfold piece, os', covers, joins. cbn [existsb]. unfold inside at 1, within at 1. cbn [fst snd].
    rewrite (proj2 (Nat.leb_gt T i)), (proj2 (Nat.ltb_ge T i)) by lia. done.
  - cbn [Nat.add]. assert (Hin : forall i, T < i < length P -> joins os' i = true).
    { intros i Hlt. apply joins_spec. exists T, (length P). split; [left|done]. }
    destruct (Nat.eqb_spec h 0) as [->|Hne].
    + replace n with (length P - T) by lia. apply seg_run; [lia| | |done].
      * apply coversIv_spec. exists T, (length P). split; [left|lia].
      * apply not_true_iff_false. rewrite joins_spec. intros (a & b & [[= -> ->]|Hab]%elem_of_cons & Hlt); [lia|]. apply allOcc_spec in Hab.
        pose proof (iv_reach _ _ Hi _ _ Hab ltac:(lia)). lia.
    + apply seg_none. intros i Hlt. destruct (Nat.eq_dec i T) as [->|]; [|apply Hin; lia]. pose proof (iv_joined _ _ Hi T ltac:(lia)) as Hj.
      unfold os', joins. cbn [existsb]. fold (joins os T). rewrite Hj. apply orb_true_r.
Qed.
End Stream.

(** The bytes of a secret never come out: what [Mask] returns is, byte by byte, the
    input with every byte that lies in an occurrence of a secret taken out, and one
    placeholder where each maximal run of overlapping occurrences begins. *)
Theorem mask_is_bytewise m p : Mask m p = hiddenText (secrets m) p.
Proof. apply Mask_seg. Qed.

(** C15: chunking is invisible: however a stream is cut into writes, what the writer
    forwards, and flushes when it is closed, is what [Mask] makes of the whole
    stream at once: no secret gets through by spanning two chunks, nothing else is
    touched, and nothing is lost, repeated or reordered. *)
Theorem chunking_is_invisible m chunks : stream plainCall m chunks = Mask m (concat chunks).
Proof.
  set (P := concat chunks). rewrite Mask_seg. unfold stream, hiddenText.
  destruct (writeAll_held m P chunks 0 (NewMaskingWriter m) (start_held m P) eq_refl) as (T & H & E & _ & Hout).
  destruct (writeAll plainCall (NewMaskingWriter m) chunks) as [w out]. cbn [fst snd] in *. rewrite Hout, Nat.sub_0_r, (close_held m P T w H E), <- E, seg_app. done.
Qed.

(** What is hidden of a stream that was cut short where it ends: also the last bytes, as
    many as may begin a secret. *)
Definition hiddenCut (ss : list bytes) (cut : nat) (p : bytes) : bytes := seg ((length p - cut, length p) :: allOcc ss p) p 0 (length p).

(** A stream cut short is masked to its end: with the longest end of the stream that
    is the start of a secret at least [floor] bytes long, exactly that end is hidden as
    well, as if it were an occurrence (joining a run it overlaps), in however many
    chunks the stream came; with a shorter one, the stream is masked as [Close] does.
    Until then the writer never holds back as many bytes as the longest secret. *)
Theorem cut_stream_is_masked m floor chunks :
  let p := concat chunks in
  let cut := cutPrefixLen m p in
  streamCut plainCall m floor chunks = (if (0 <? cut) && (floor <=? cut) then hiddenCut (secrets m) cut p else Mask m p) /\
  (length (tail (fst (writeAll plainCall (NewMaskingWriter m) chunks))) = 0 \/
   exists s, s ∈ secrets m /\ length (tail (fst (writeAll plainCall (NewMaskingWriter m) chunks))) < length s).
Proof.
  intros p cut. destruct (writeAll_held m p chunks 0 (NewMaskingWriter m) (start_held m p) eq_refl) as (T & H & E & _ & Hout). unfold streamCut.
  destruct (writeAll plainCall (NewMaskingWriter m) chunks) as [w out]. cbn [fst snd] in *. pose proof (end_cut m p T w H E) as Ec. fold cut in Ec.
  rewrite Nat.sub_0_r in Hout. split.
  - unfold CloseCutFrom. rewrite (hd_masker _ _ _ _ H), <- (hd_cut _ _ _ _ H), <- Ec.
    assert (Hclose : out ++ snd (flush plainCall w 0) = Mask m p) by (rewrite Mask_seg; unfold hiddenText; rewrite Hout, <- E, seg_app; f_equal; by apply close_held).
    destruct (Nat.leb_spec floor cut) as [Hf|Hf]; rewrite ?andb_false_r, ?andb_true_r.
    + rewrite (proj2 (Nat.ltb_ge cut floor)) by done. destruct (Nat.ltb_spec 0 cut) as [Hpos|Hz]; [|by replace cut with 0 by lia].
      rewrite Ec in Hpos |- *. rewrite (flush_cut m p T w H E Hpos), Hout. unfold hiddenCut. replace (length p - length (tail w)) with T by lia.
      symmetry. apply (seg_cut m p T (hidden w) (length (tail w))); [apply H|done|done].
    + rewrite (proj2 (Nat.ltb_lt cut floor)) by done. done.
  - rewrite (hd_cut _ _ _ _ H). destruct (cutPrefix_spec m (tail w)) as (_ & [?|(s & Hs & Hk & _)] & _); [by left|]. destruct (Nat.eq_dec (cutPrefixLen m (tail w)) 0); [by left|]. right. exists s. split; [done|lia].
Qed.
