(* ===== verification/MaskRegistry.v ===== *)
(** * The registry of secrets

    The [Registry] of [src/internal/secretmask] ([secretmask.go], [backend.go]): the
    values masked for a run, the process-wide values of every credential with their
    retirement, and the maskers cached per generation. Each operation is one
    section under the registry's lock. Times are nanoseconds from the zero time,
    which is 0; identifiers are strings. What a Backend commits before the cache is
    touched is the argument that says whether it did; the generation, a uint64, is
    not wrapped. *)
From S2P Require Import Prelude GoStrings GoPath GoSlices Grants CanonNumber GoJSON SecretMask MaskSound.
Local Open Scope Z_scope.

Definition globalKey : Type := string * string.

Record globalValue := mkGV { gvValue : bytes; gvUntil : Z }.
Record retiredValue := mkRV { rvValue : bytes; rvAt : Z }.
Record globalRow := mkRow { rowKey : globalKey; rowValue : bytes; rowUntil : Z; rowRetiredAt : Z }.

Record runMaskers := mkRM { rmGen : Z; plain : Masker; variant : option Masker }.
Record globalMasks := mkGM { gmPlain : list bytes; gmVariant : option (list bytes) }.

Record Registry := mkRegistry {
  perRun : gmap string (list bytes); globals : list bytes; current : gmap globalKey (list globalValue);
  retired : list retiredValue; rows : gmap string globalRow; gen : Z; cached : gmap string runMaskers; shared : option globalMasks;
}.

Definition NewRegistry : Registry := mkRegistry ∅ [] ∅ [] ∅ 0 ∅ None.

Definition runValues (r : Registry) (run : string) : list bytes := default [] (perRun r !! run).
Definition currentOf (r : Registry) (k : globalKey) : list globalValue := default [] (current r !! k).

(** ** JSON renderings *)

(** The encoder with or without HTML escaping. *)
Fixpoint escapeWith (html : bool) (fuel : nat) (s : string) : string :=
  match fuel, s with
  | S fuel, String c r =>
      if byte_of c <? 128 then
        String.append (if htmlSafe c || (negb html && (Ascii.eqb c "<" || Ascii.eqb c ">" || Ascii.eqb c "&")) then String c EmptyString else escapeByte c) (escapeWith html fuel r)
      else
        let '(rr, ok, r1) := DecodeRune s in
        String.append (if negb ok then uEscape RuneError else if (rr =? 8232) || (rr =? 8233) then uEscape rr else upTo s r1) (escapeWith html fuel r1)
  | _, _ => EmptyString
  end.

Definition jsonStringEscape (v : bytes) (html : bool) : bytes :=
  String.list_ascii_of_string (escapeWith html (length v) (String.string_of_list_ascii v)).

(** The values, and each one's renderings that are not there yet. *)
Definition JSONEscapedVariants (snap : list bytes) : list bytes :=
  foldl (fun out esc => if containsSlice out esc then out else out ++ [esc]) snap
    (concat (map (fun s => [jsonStringEscape s false; jsonStringEscape s true]) snap)).

(** ** The flattened globals *)

Definition addNew (out : list bytes) (v : bytes) : list bytes := if containsSlice out v then out else out ++ [v].

Definition heldValues (r : Registry) : list bytes :=
  concat (map (fun kv => map gvValue (snd kv)) (map_to_list (current r))) ++ map rvValue (retired r) ++ map (fun kv => rowValue (snd kv)) (map_to_list (rows r)).

Definition reflattenLocked (r : Registry) : Registry :=
  let out := foldl addNew [] (heldValues r) in
  if (length out =? length (globals r))%nat && negb (existsb (fun v => negb (containsSlice out v)) (globals r)) then r
  else mkRegistry (perRun r) out (current r) (retired r) (rows r) (gen r + 1) (cached r) None.

Definition setGlobals (r : Registry) (c : gmap globalKey (list globalValue)) (rt : list retiredValue) (rw : gmap string globalRow) : Registry :=
  mkRegistry (perRun r) (globals r) c rt rw (gen r) (cached r) (shared r).

(** ** A run's values *)

Definition AddLocal (run : string) (v : bytes) (r : Registry) : bool * Registry :=
  if (length v <? MinLen)%nat || containsSlice (runValues r run) v then (false, r)
  else (true, mkRegistry (<[run := runValues r run ++ [v]]> (perRun r)) (globals r) (current r) (retired r) (rows r) (gen r + 1) (cached r) (shared r)).

(** [committed] is the Backend's answer, true where there is none. *)
Definition Add (committed : bool) (run : string) (v : bytes) (r : Registry) : bool * Registry :=
  if (length v <? MinLen)%nat || containsSlice (runValues r run) v then (true, r)
  else if negb committed then (false, r)
  else (true, snd (AddLocal run v r)).

Definition RemoveLocal (run : string) (v : bytes) (r : Registry) : Registry :=
  let vs := runValues r run in
  let vs' := List.filter (fun x => negb (bytesEqb x v)) vs in
  if (length vs' =? length vs)%nat then r
  else mkRegistry (match vs' with [] => delete run (perRun r) | _ => <[run := vs']> (perRun r) end) (globals r) (current r) (retired r) (rows r) (gen r + 1)
         (delete run (cached r)) (shared r).

Definition Evict (run : string) (r : Registry) : Registry :=
  mkRegistry (delete run (perRun r)) (globals r) (current r) (retired r) (rows r)
    (match perRun r !! run with Some _ => gen r + 1 | None => gen r end) (delete run (cached r)) (shared r).

(** ** Credentials *)

Definition laterExpiry (a b : Z) : Z := if (a =? 0) || (b =? 0) then 0 else Z.max a b.
Definition containsValue (set : list globalValue) (v : bytes) : bool := existsb (fun gv => bytesEqb (gvValue gv) v) set.

Definition keepValue (merge : bool) (keep : list globalValue) (v : bytes) (until : Z) : list globalValue :=
  if (length v <? MinLen)%nat then keep
  else if containsValue keep v
       then map (fun gv => if bytesEqb (gvValue gv) v then mkGV (gvValue gv) (if merge then laterExpiry (gvUntil gv) until else until) else gv) keep
       else keep ++ [mkGV v until].

Definition retireAt (now until : Z) : Z := if until >? now then until else now.

Definition retireLocked (k : globalKey) (keep : list globalValue) (now : Z) (r : Registry) : Registry :=
  let gone := List.filter (fun gv => negb (containsValue keep (gvValue gv))) (currentOf r k) in
  setGlobals r (delete k (current r)) (retired r ++ map (fun gv => mkRV (gvValue gv) (retireAt now (gvUntil gv))) gone) (rows r).

Definition setGlobalLocal (k : globalKey) (now : Z) (merge : bool) (until : Z) (expiring : bytes) (lasting : list bytes) (r : Registry) : Registry :=
  let keep0 := if merge then currentOf r k else [] in
  let keep := foldl (fun keep v => keepValue merge keep v 0) (keepValue merge keep0 expiring until) lasting in
  match keep with
  | [] => r
  | _ =>
      let r1 := if merge then r else retireLocked k keep now r in
      reflattenLocked (setGlobals r1 (<[k := keep]> (current r1)) (List.filter (fun rv => negb (containsValue keep (rvValue rv))) (retired r1)) (rows r1))
  end.

(** The four setters on the process's own registry, where no Backend is set. *)
Definition AddGlobal (k : globalKey) (now : Z) (values : list bytes) : Registry -> Registry := setGlobalLocal k now false 0 [] values.
Definition AddGlobalUntil (k : globalKey) (now until : Z) (expiring : bytes) (lasting : list bytes) : Registry -> Registry := setGlobalLocal k now false until expiring lasting.
Definition MergeGlobal (k : globalKey) (values : list bytes) : Registry -> Registry := setGlobalLocal k 0 true 0 [] values.
Definition MergeGlobalUntil (k : globalKey) (until : Z) (expiring : bytes) (lasting : list bytes) : Registry -> Registry := setGlobalLocal k 0 true until expiring lasting.

Definition retireRowsLocked (sel : globalKey -> bool) (now : Z) (r : Registry) : Registry :=
  setGlobals r (current r) (retired r)
    ((fun row => if sel (rowKey row) && (rowRetiredAt row =? 0) then mkRow (rowKey row) (rowValue row) (rowUntil row) (retireAt now (rowUntil row)) else row) <$> rows r).

Definition EvictGlobal (committed : bool) (k : globalKey) (now : Z) (r : Registry) : bool * Registry :=
  if negb committed then (false, r)
  else (true, reflattenLocked (retireRowsLocked (fun g => bool_decide (g = k)) now (retireLocked k [] now r))).

Definition RetireOwnerGlobals (committed : bool) (owner : string) (now : Z) (r : Registry) : bool * Registry :=
  if negb committed then (false, r)
  else
    let own := List.filter (fun k => bool_decide (fst k = owner)) (map fst (map_to_list (current r))) in
    (true, reflattenLocked (retireRowsLocked (fun g => bool_decide (fst g = owner)) now (foldl (fun r k => retireLocked k [] now r) r own))).

Definition expired (cutoff until : Z) : bool := negb (until =? 0) && (until <? cutoff).
Definition rowEnd (row : globalRow) : Z := if rowRetiredAt row =? 0 then rowUntil row else rowRetiredAt row.

Definition sweepCurrent (cutoff : Z) (vs : list globalValue) : option (list globalValue) :=
  match List.filter (fun gv => negb (expired cutoff (gvUntil gv))) vs with [] => None | l => Some l end.

Definition SweepGlobals (cutoff : Z) (r : Registry) : Z * Registry :=
  let rt := List.filter (fun rv => negb (rvAt rv <? cutoff)) (retired r) in
  let c := omap (sweepCurrent cutoff) (current r) in
  let rw := filter (fun kv => expired cutoff (rowEnd (snd kv)) = false) (rows r) in
  let count vs := Z.of_nat (length (concat (map snd (map_to_list vs)))) in
  (Z.of_nat (length (retired r)) - Z.of_nat (length rt) + (count (current r) - count c) + (Z.of_nat (size (rows r)) - Z.of_nat (size rw)),
   reflattenLocked (setGlobals r c rt rw)).

(** ** Rows another process committed *)

Definition ApplyGlobal (id : string) (k : globalKey) (v : bytes) (until retiredAt : Z) (r : Registry) : Registry :=
  if (length v <? MinLen)%nat then r else reflattenLocked (setGlobals r (current r) (retired r) (<[id := mkRow k v until retiredAt]> (rows r))).

Definition RetireGlobalValue (id : string) (at_ : Z) (r : Registry) : Registry :=
  match rows r !! id with
  | Some row => if rowRetiredAt row =? 0 then setGlobals r (current r) (retired r) (<[id := mkRow (rowKey row) (rowValue row) (rowUntil row) at_]> (rows r)) else r
  | None => r
  end.

Definition DropGlobalValue (id : string) (r : Registry) : Registry := reflattenLocked (setGlobals r (current r) (retired r) (delete id (rows r))).

Definition HasGlobalValues (k : globalKey) (values : list bytes) (r : Registry) : bool :=
  forallb (fun v => containsValue (currentOf r k) v || existsb (fun rv => bytesEqb (rvValue rv) v) (retired r) ||
    existsb (fun kv => bytesEqb (rowValue (snd kv)) v && (bool_decide (rowKey (snd kv) = k) || negb (rowRetiredAt (snd kv) =? 0))) (map_to_list (rows r))) values.

(** ** Maskers *)

Definition Snapshot (r : Registry) (run : string) : list bytes :=
  runValues r run ++ List.filter (fun v => negb (containsSlice (runValues r run) v)) (globals r).

Definition sharedLocked (r : Registry) : globalMasks * Registry :=
  match shared r with
  | Some g => (g, r)
  | None =>
      let g := mkGM (secrets (NewMasker (globals r))) None in
      (g, mkRegistry (perRun r) (globals r) (current r) (retired r) (rows r) (gen r) (cached r) (Some g))
  end.

Definition setCached (r : Registry) (run : string) (c : runMaskers) : Registry :=
  mkRegistry (perRun r) (globals r) (current r) (retired r) (rows r) (gen r) (<[run := c]> (cached r)) (shared r).
Definition setShared (r : Registry) (g : globalMasks) : Registry :=
  mkRegistry (perRun r) (globals r) (current r) (retired r) (rows r) (gen r) (cached r) (Some g).

(** The variant half of the shared state, derived once. *)
Definition sharedVariant (r : Registry) : list bytes * Registry :=
  let '(g, r1) := sharedLocked r in
  match gmVariant g with
  | Some v => (v, r1)
  | None => let v := secrets (NewMasker (JSONEscapedVariants (gmPlain g))) in (v, setShared r1 (mkGM (gmPlain g) (Some v)))
  end.

Definition rebuild (run : string) (withVariant : bool) (r : Registry) : runMaskers * Registry :=
  let '(c, r1) :=
    match cached r !! run with
    | Some c => if rmGen c =? gen r then (c, r)
                else let '(g, r1) := sharedLocked r in let c := mkRM (gen r) (newMaskerOver (runValues r run) (gmPlain g)) None in (c, setCached r1 run c)
    | None => let '(g, r1) := sharedLocked r in let c := mkRM (gen r) (newMaskerOver (runValues r run) (gmPlain g)) None in (c, setCached r1 run c)
    end in
  match withVariant, variant c with
  | true, None =>
      let '(vs, r2) := sharedVariant r1 in
      let '(g, _) := sharedLocked r2 in
      let own := ownValues (runValues r run) (gmPlain g) in
      let c' := mkRM (rmGen c) (plain c) (Some (newMaskerOver (JSONEscapedVariants own) vs)) in
      (c', setCached r2 run c')
  | _, _ => (c, r1)
  end.

Definition MaskerFor (run : string) (r : Registry) : Masker * Registry :=
  match cached r !! run with
  | Some c => if rmGen c =? gen r then (plain c, r) else let '(c, r1) := rebuild run false r in (plain c, r1)
  | None => let '(c, r1) := rebuild run false r in (plain c, r1)
  end.

Definition noMasker : Masker := mkMasker [] 0.

Definition JSONVariantMasker (run : string) (r : Registry) : Masker * Registry :=
  let build := let '(c, r1) := rebuild run true r in (default noMasker (variant c), r1) in
  match cached r !! run with
  | Some c => if rmGen c =? gen r then match variant c with Some m => (m, r) | None => build end else build
  | None => build
  end.

Definition RunIDs (r : Registry) : list string :=
  map fst (map_to_list (perRun r)) ++ List.filter (fun id => negb (bool_decide (is_Some (perRun r !! id)))) (map fst (map_to_list (cached r))).
