(* ===== verification/MaskRegSound.v ===== *)
(** * What the registry keeps masked

    The cached maskers are those of the current corpus, and a value let go stays
    masked until a sweep past its retirement. *)
From S2P Require Import Prelude GoStrings GoPath GoSlices Grants CanonNumber GoJSON SecretMask MaskSound MaskRegistry.
Local Open Scope Z_scope.

(** ** Sets of values *)

Lemma Mask_same m m' p : (forall s, s ∈ secrets m <-> s ∈ secrets m') -> Mask m p = Mask m' p.
Proof.
  intros H. rewrite !Mask_seg. unfold hiddenText. apply seg_ext. intros i _. unfold piece.
  assert (Ho : forall a b, occ (secrets m) p a b <-> occ (secrets m') p a b) by (intros a b; unfold occ; by setoid_rewrite H).
  replace (covers (allOcc (secrets m') p) (0 + i)%nat) with (covers (allOcc (secrets m) p) (0 + i)%nat) by (apply bool_ext; rewrite !coversIv_spec; setoid_rewrite allOcc_spec; by setoid_rewrite Ho).
  replace (joins (allOcc (secrets m') p) (0 + i)%nat) with (joins (allOcc (secrets m) p) (0 + i)%nat) by (apply bool_ext; rewrite !joins_spec; setoid_rewrite allOcc_spec; by setoid_rewrite Ho).
  done.
Qed.

Lemma containsSlice_spec l v : containsSlice l v = true <-> v ∈ l.
Proof.
  unfold containsSlice, bytesEqb. rewrite existsb_exists. split.
  - intros (s & Hs & E%bool_decide_eq_true). subst. by apply list_elem_of_In.
  - intros H. exists v. rewrite bool_decide_eq_true_2 by done. split; [by apply list_elem_of_In|done].
Qed.

Lemma containsSlice_false l v : containsSlice l v = false <-> v ∉ l.
Proof. rewrite <- containsSlice_spec. by destruct (containsSlice l v). Qed.

Lemma elem_of_filterb {A} (f : A -> bool) l x : x ∈ List.filter f l <-> x ∈ l /\ f x = true.
Proof. by rewrite list_elem_of_In, filter_In, <- list_elem_of_In. Qed.

Lemma NewMasker_elem vs s : s ∈ secrets (NewMasker vs) <-> s ∈ vs /\ (MinLen <= length s)%nat.
Proof. unfold NewMasker. cbn [secrets]. by rewrite elem_of_sortBy, elem_of_filterb, Nat.leb_le. Qed.

Lemma mergeLongest_elem a b x : x ∈ mergeLongest a b <-> x ∈ a \/ x ∈ b.
Proof.
  revert b. induction a as [|y a IH]; intros b; [cbn; set_solver|]. induction b as [|z b IHb]; [cbn; set_solver|]. cbn [mergeLongest] in *. destruct (_ <? _)%nat.
  - rewrite elem_of_cons, IH, !elem_of_cons. tauto.
  - rewrite elem_of_cons, IHb, !elem_of_cons. tauto.
Qed.

Lemma ownValues_elem own sh v : v ∈ ownValues own sh <-> v ∈ own /\ v ∉ sh.
Proof. unfold ownValues. by rewrite elem_of_filterb, negb_true_iff, containsSlice_false. Qed.

Lemma newMaskerOver_elem own sh s : s ∈ secrets (newMaskerOver own sh) <-> (s ∈ own /\ s ∉ sh /\ (MinLen <= length s)%nat) \/ s ∈ sh.
Proof. unfold newMaskerOver. cbn [secrets]. rewrite mergeLongest_elem, NewMasker_elem, ownValues_elem. tauto. Qed.

Lemma addNew_elem l out v : v ∈ foldl addNew out l <-> v ∈ out \/ v ∈ l.
Proof.
  revert out. induction l as [|x l IH]; intros out; cbn [foldl]; [set_solver|]. rewrite IH, elem_of_cons. unfold addNew. destruct (containsSlice out x) eqn:E.
  - apply containsSlice_spec in E. split; [tauto|]. intros [?|[->|?]]; tauto.
  - rewrite elem_of_app, list_elem_of_singleton. tauto.
Qed.

Lemma addNew_nodup l out : NoDup out -> NoDup (foldl addNew out l).
Proof.
  revert out. induction l as [|x l IH]; intros out H; cbn [foldl]; [done|]. apply IH. unfold addNew. destruct (containsSlice out x) eqn:E; [done|].
  apply containsSlice_false in E. apply NoDup_app. split_and!; [done|intros y Hy ->%list_elem_of_singleton; done|apply NoDup_singleton].
Qed.

Lemma JEV_elem l x : x ∈ JSONEscapedVariants l <-> x ∈ l \/ exists s html, s ∈ l /\ x = jsonStringEscape s html.
Proof.
  unfold JSONEscapedVariants. fold addNew. change (fun out esc => if containsSlice out esc then out else out ++ [esc]) with addNew. rewrite addNew_elem.
  split; (intros [?|H]; [by left|right]).
  - apply list_elem_of_In, in_concat in H as (y & Hy & Hx). apply in_map_iff in Hy as (s & <- & Hs). exists s. destruct Hx as [<-|[<-|[]]]; eexists; (split; [by apply list_elem_of_In|done]).
  - destruct H as (s & html & Hs & ->). apply list_elem_of_In, in_concat. eexists. split; [apply in_map_iff; exists s; split; [done|by apply list_elem_of_In]|]. destruct html; [right; by left|by left].
Qed.

(** ** The invariant *)

Definition long (v : bytes) : Prop := (MinLen <= length v)%nat.
Definition corpus (r : Registry) (run : string) (v : bytes) : Prop := v ∈ runValues r run \/ v ∈ globals r.

Lemma Snapshot_elem r run v : v ∈ Snapshot r run <-> corpus r run v.
Proof.
  unfold Snapshot, corpus. rewrite elem_of_app, elem_of_filterb, negb_true_iff, containsSlice_false. destruct (containsSlice (runValues r run) v) eqn:E.
  - apply containsSlice_spec in E. tauto.
  - apply containsSlice_false in E. tauto.
Qed.

Record sharedOK (r : Registry) (g : globalMasks) : Prop := mkSharedOK {
  sh_plain : forall v, v ∈ gmPlain g <-> v ∈ globals r /\ long v;
  sh_variant : forall vs, gmVariant g = Some vs -> forall v, v ∈ vs <-> v ∈ JSONEscapedVariants (gmPlain g) /\ long v;
}.

Definition plainOK (r : Registry) (run : string) (m : Masker) : Prop := forall s, s ∈ secrets m <-> corpus r run s /\ long s.
Definition variantOK (r : Registry) (run : string) (m : Masker) : Prop := forall s, s ∈ secrets m <-> s ∈ JSONEscapedVariants (Snapshot r run) /\ long s.

Record entryOK (r : Registry) (run : string) (c : runMaskers) : Prop := mkEntryOK {
  en_gen : rmGen c <= gen r;
  en_plain : rmGen c = gen r -> plainOK r run (plain c);
  en_variant : rmGen c = gen r -> forall m, variant c = Some m -> variantOK r run m;
}.

Record cacheOK (r : Registry) : Prop := mkCacheOK {
  co_nodup : NoDup (globals r);
  co_long : forall v, v ∈ globals r -> long v;
  co_runs : forall run v, v ∈ runValues r run -> long v;
  co_shared : forall g, shared r = Some g -> sharedOK r g;
  co_cached : forall run c, cached r !! run = Some c -> entryOK r run c;
}.

Definition longValues (r : Registry) : Prop := forall v, v ∈ heldValues r -> long v.

Record regOK (r : Registry) : Prop := mkRegOK { rg_cache : cacheOK r; rg_globals : forall v, v ∈ globals r <-> v ∈ heldValues r }.

Lemma regOK_long r : regOK r -> longValues r.
Proof. intros [C G] v Hv. apply (co_long _ C). by apply G. Qed.

(** An entry of an earlier generation says nothing. *)
Lemma entry_old r r' run c : entryOK r run c -> gen r < gen r' -> entryOK r' run c.
Proof. intros [H _ _] Hg. constructor; [lia|intros E; lia..]. Qed.

Lemma entry_same r r' run c : entryOK r run c -> gen r' = gen r -> runValues r' run = runValues r run -> globals r' = globals r -> entryOK r' run c.
Proof.
  intros [H1 H2 H3] Eg Er El. assert (Es : Snapshot r' run = Snapshot r run) by (unfold Snapshot; by rewrite Er, El). constructor; rewrite Eg; [done| |].
  - intros E s. unfold corpus. rewrite Er, El. by apply H2.
  - intros E m Hm s. rewrite Es. by apply H3.
Qed.

Lemma sub_length_eq (l l' : list bytes) : NoDup l -> l ⊆ l' -> length l = length l' -> l' ⊆ l.
Proof.
  intros Hn Hs Hl x Hx. destruct (decide (x ∈ l)) as [|Hni]; [done|]. exfalso.
  assert (Hn' : NoDup (x :: l)) by (by constructor). assert (Hsub : x :: l ⊆+ l').
  { apply NoDup_submseteq; [done|]. intros y [->|Hy]%elem_of_cons; [done|by apply Hs]. }
  apply submseteq_length in Hsub. cbn in Hsub. lia.
Qed.

Lemma reflatten_ok r : cacheOK r -> longValues r -> regOK (reflattenLocked r).
Proof.
  intros [Cn Cl Cr Cs Cc] Hl. unfold reflattenLocked. set (out := foldl addNew [] (heldValues r)).
  assert (Hout : forall v, v ∈ out <-> v ∈ heldValues r) by (intros v; unfold out; rewrite addNew_elem; set_solver).
  assert (Hnd : NoDup out) by (apply addNew_nodup; constructor). destruct (_ && _) eqn:E.
  - apply andb_prop in E as [E1%Nat.eqb_eq E2%negb_true_iff]. constructor; [by constructor|]. intros v. rewrite <- Hout. split.
    + intros Hv. destruct (containsSlice out v) eqn:Ec; [by apply containsSlice_spec|]. exfalso. assert (existsb (fun v => negb (containsSlice out v)) (globals r) = true); [|congruence].
      apply existsb_exists. exists v. rewrite Ec. split; [by apply list_elem_of_In|done].
    + intros Hv. eapply (sub_length_eq (globals r) out Cn); [|done|exact Hv]. intros x Hx. destruct (containsSlice out x) eqn:Ec; [by apply containsSlice_spec|]. exfalso.
      assert (existsb (fun v => negb (containsSlice out v)) (globals r) = true); [|congruence]. apply existsb_exists. exists x. rewrite Ec. split; [by apply list_elem_of_In|done].
  - constructor; [|done]. constructor; cbn; [done|intros v Hv; by apply Hl, Hout|done|done|]. intros run c Hc. eapply entry_old; [by apply Cc|cbn; lia].
Qed.

Lemma setGlobals_cache r c rt rw : cacheOK r -> cacheOK (setGlobals r c rt rw).
Proof. intros [Cn Cl Cr Cs Cc]. constructor; try done; intros; [destruct (Cs g) as [? ?]; [done|]; by constructor|eapply entry_same; [by apply Cc|done..]]. Qed.

(** What is held, as propositions. *)
Lemma held_elem r v : v ∈ heldValues r <-> (exists k vs gv, current r !! k = Some vs /\ gv ∈ vs /\ gvValue gv = v) \/ (exists rv, rv ∈ retired r /\ rvValue rv = v) \/
  (exists id row, rows r !! id = Some row /\ rowValue row = v).
Proof.
  unfold heldValues. rewrite !elem_of_app. f_equiv; [|f_equiv].
  - rewrite list_elem_of_In, in_concat. split.
    + intros (l & Hl & Hv). apply in_map_iff in Hl as ([k vs] & <- & Hk). apply in_map_iff in Hv as (gv & <- & Hgv). apply list_elem_of_In, elem_of_map_to_list in Hk.
      exists k, vs, gv. split_and!; [done| |done]. by apply list_elem_of_In.
    + intros (k & vs & gv & Hk & Hgv & <-). exists (map gvValue vs). split; [apply in_map_iff; exists (k, vs); split; [done|by apply list_elem_of_In, elem_of_map_to_list]|].
      apply in_map_iff. exists gv. split; [done|by apply list_elem_of_In].
  - rewrite list_elem_of_In, in_map_iff. setoid_rewrite list_elem_of_In. naive_solver.
  - rewrite list_elem_of_In, in_map_iff. split.
    + intros ([id row] & <- & Hin). apply list_elem_of_In, elem_of_map_to_list in Hin. by exists id, row.
    + intros (id & row & Hin & <-). exists (id, row). split; [done|]. by apply list_elem_of_In, elem_of_map_to_list.
Qed.

(** ** Every operation keeps it *)

Definition longKept (keep : list globalValue) : Prop := forall gv, gv ∈ keep -> long (gvValue gv).

Lemma keepValue_long merge keep v until : longKept keep -> longKept (keepValue merge keep v until).
Proof.
  intros H. unfold keepValue. destruct (Nat.ltb_spec (length v) MinLen) as [|Hl]; [done|]. destruct (containsValue keep v).
  - intros gv Hgv. apply list_elem_of_fmap in Hgv as (gv0 & -> & Hgv0). specialize (H _ Hgv0). by destruct (bytesEqb _ _).
  - intros gv [Hgv|E%list_elem_of_singleton]%elem_of_app; [by apply H|by subst].
Qed.

Lemma keepAll_long merge keep lasting : longKept keep -> longKept (foldl (fun keep v => keepValue merge keep v 0) keep lasting).
Proof. revert keep. induction lasting as [|v l IH]; intros keep H; [done|]. apply IH. by apply keepValue_long. Qed.

Lemma current_long r k : longValues r -> longKept (currentOf r k).
Proof.
  intros H gv Hgv. unfold currentOf in Hgv. destruct (current r !! k) as [vs|] eqn:E; [|by apply not_elem_of_nil in Hgv]. apply H, held_elem. left. by exists k, vs, gv.
Qed.

Lemma retireLocked_held k keep now r v : v ∈ heldValues (retireLocked k keep now r) -> v ∈ heldValues r.
Proof.
  rewrite !held_elem. unfold retireLocked, setGlobals. cbn. intros [(k' & vs & gv & Hk & Hgv & <-)|[(rv & Hrv & <-)|H]]; [| |tauto].
  - apply lookup_delete_Some in Hk as [_ Hk]. left. by exists k', vs, gv.
  - apply elem_of_app in Hrv as [Hrv|Hrv]; [right; left; by exists rv|]. apply list_elem_of_fmap in Hrv as (gv & -> & Hgv). apply elem_of_filterb in Hgv as [Hgv _].
    unfold currentOf in Hgv. destruct (current r !! k) as [vs|] eqn:E; [|by apply not_elem_of_nil in Hgv]. left. by exists k, vs, gv.
Qed.

Lemma retireLocked_cache k keep now r : cacheOK r -> cacheOK (retireLocked k keep now r).
Proof. apply setGlobals_cache. Qed.

Lemma retireRows_held sel now r v : v ∈ heldValues (retireRowsLocked sel now r) <-> v ∈ heldValues r.
Proof.
  rewrite !held_elem. unfold retireRowsLocked, setGlobals. cbn. f_equiv. f_equiv. split.
  - intros (id & row & H & <-). rewrite lookup_fmap in H. destruct (rows r !! id) as [row0|] eqn:E; [|done]. injection H as <-. exists id, row0. split; [done|]. by destruct (_ && _).
  - intros (id & row & H & <-). eexists id, _. rewrite lookup_fmap, H. split; [reflexivity|]. by destruct (_ && _).
Qed.

Lemma long_sub r r' : longValues r -> (forall v, v ∈ heldValues r' -> v ∈ heldValues r) -> longValues r'.
Proof. intros H Hs v Hv. by apply H, Hs. Qed.

Lemma setGlobal_ok k now merge until expiring lasting r : regOK r -> regOK (setGlobalLocal k now merge until expiring lasting r).
Proof.
  intros H. pose proof (regOK_long _ H) as Hl. destruct H as [C G]. unfold setGlobalLocal. set (keep := foldl _ _ lasting).
  assert (Hk : longKept keep).
  { apply keepAll_long, keepValue_long. destruct merge; [by apply current_long|]. intros gv Hgv. by apply not_elem_of_nil in Hgv. }
  destruct keep as [|g0 keep0]; [by constructor|]. set (keep := g0 :: keep0) in *. set (r1 := if merge then r else _).
  assert (C1 : cacheOK r1) by (unfold r1; destruct merge; [done|by apply retireLocked_cache]).
  assert (L1 : longValues r1) by (unfold r1; destruct merge; [done|]; eapply long_sub; [exact Hl|]; intros v; apply retireLocked_held).
  apply reflatten_ok; [by apply setGlobals_cache|]. intros v Hv. apply held_elem in Hv. unfold setGlobals in Hv. cbn in Hv. destruct Hv as [(k' & vs & gv & Hk' & Hgv & <-)|[(rv & Hrv & <-)|Hv]].
  - apply lookup_insert_Some in Hk' as [[_ <-]|[_ Hk']]; [by apply Hk|]. apply L1, held_elem. left. by exists k', vs, gv.
  - apply elem_of_filterb in Hrv as [Hrv _]. apply L1, held_elem. right. left. by exists rv.
  - apply L1, held_elem. tauto.
Qed.

Lemma sweep_held cutoff r v : v ∈ heldValues (setGlobals r (omap (sweepCurrent cutoff) (current r)) (List.filter (fun rv => negb (rvAt rv <? cutoff)) (retired r))
    (filter (fun kv => expired cutoff (rowEnd (snd kv)) = false) (rows r))) -> v ∈ heldValues r.
Proof.
  rewrite !held_elem. cbn. intros [(k & vs & gv & Hk & Hgv & <-)|[(rv & Hrv & <-)|(id & row & Hrow & <-)]].
  - rewrite lookup_omap in Hk. destruct (current r !! k) as [vs0|] eqn:E; [|done]. cbn in Hk. unfold sweepCurrent in Hk. left. exists k, vs0, gv. split_and!; [done| |done].
    destruct (List.filter _ vs0) as [|g l] eqn:Ef; [done|]. injection Hk as <-. rewrite <- Ef in Hgv. by apply elem_of_filterb in Hgv as [? _].
  - apply elem_of_filterb in Hrv as [Hrv _]. right. left. by exists rv.
  - apply map_lookup_filter_Some in Hrow as [Hrow _]. right. right. by exists id, row.
Qed.

Lemma AddLocal_ok run v r : regOK r -> regOK (snd (AddLocal run v r)).
Proof.
  intros [C G]. unfold AddLocal. destruct (Nat.ltb_spec (length v) MinLen) as [|Hl]; [by constructor|]. cbn [orb]. destruct (containsSlice _ _); [by constructor|].
  destruct C as [Cn Cl Cr Cs Cc]. constructor; [|done]. constructor; cbn; try done.
  - intros run' x. unfold runValues at 1. cbn. destruct (decide (run' = run)) as [->|Hne].
    + rewrite lookup_insert_eq. cbn. intros [Hx|E%list_elem_of_singleton]%elem_of_app; [by apply (Cr run)|by subst].
    + rewrite lookup_insert_ne by done. apply (Cr run').
  - intros g Hg. destruct (Cs g Hg) as [? ?]. by constructor.
  - intros run' c Hc. eapply entry_old; [by apply Cc|cbn; lia].
Qed.

Lemma Add_ok committed run v r : regOK r -> regOK (snd (Add committed run v r)).
Proof. intros H. unfold Add. destruct (_ || _); [done|]. destruct (negb committed); [done|]. by apply AddLocal_ok. Qed.

Lemma runValues_delete r run run' : default [] (delete run (perRun r) !! run') = if decide (run' = run) then [] else runValues r run'.
Proof. destruct (decide (run' = run)) as [->|Hne]; [by rewrite lookup_delete_eq|by rewrite lookup_delete_ne]. Qed.

Lemma RemoveLocal_ok run v r : regOK r -> regOK (RemoveLocal run v r).
Proof.
  intros [C G]. unfold RemoveLocal. cbn zeta. destruct (_ =? _)%nat; [by constructor|]. destruct C as [Cn Cl Cr Cs Cc]. constructor; [|done]. constructor; cbn; try done.
  - intros run' x. unfold runValues at 1. cbn. set (vs := List.filter _ _).
    assert (Hvs : forall y, y ∈ vs -> long y) by (intros y Hy; apply elem_of_filterb in Hy as [Hy _]; by apply (Cr run)).
    assert (E : default [] ((match vs with [] => delete run (perRun r) | _ => <[run := vs]> (perRun r) end) !! run') = if decide (run' = run) then vs else runValues r run').
    { destruct vs as [|y vs']; [rewrite runValues_delete; by destruct (decide _)|]. destruct (decide (run' = run)) as [->|]; [by rewrite lookup_insert_eq|by rewrite lookup_insert_ne]. }
    rewrite E. destruct (decide _); [by apply Hvs|apply (Cr run')].
  - intros g Hg. destruct (Cs g Hg) as [? ?]. by constructor.
  - intros run' c Hc. apply lookup_delete_Some in Hc as [_ Hc]. eapply entry_old; [by apply Cc|cbn; lia].
Qed.

Lemma Evict_ok run r : regOK r -> regOK (Evict run r).
Proof.
  intros [[Cn Cl Cr Cs Cc] G]. constructor; [|done]. constructor; cbn; try done.
  - intros run' x. unfold runValues at 1. cbn. rewrite runValues_delete. destruct (decide _); [intros Hx; by apply not_elem_of_nil in Hx|apply (Cr run')].
  - intros g Hg. destruct (Cs g Hg) as [? ?]. by constructor.
  - intros run' c Hc. apply lookup_delete_Some in Hc as [Hne Hc]. destruct (perRun r !! run) as [vs|] eqn:E; [eapply entry_old; [by apply Cc|cbn; rewrite E; lia]|].
    eapply entry_same; [by apply Cc|cbn; by rewrite E| |done]. unfold runValues. cbn. rewrite lookup_delete_ne by done. done.
Qed.

Lemma retireOwner_held own now r v : v ∈ heldValues (foldl (fun r k => retireLocked k [] now r) r own) -> v ∈ heldValues r.
Proof. revert r. induction own as [|k own IH]; intros r Hv; [done|]. cbn [foldl] in Hv. by eapply retireLocked_held, IH. Qed.
Lemma retireOwner_cache own now r : cacheOK r -> cacheOK (foldl (fun r k => retireLocked k [] now r) r own).
Proof. revert r. induction own as [|k own IH]; intros r H; [done|]. cbn [foldl]. by apply IH, retireLocked_cache. Qed.

Lemma rows_ok r rw : regOK r -> (forall id row, rw !! id = Some row -> long (rowValue row)) -> regOK (reflattenLocked (setGlobals r (current r) (retired r) rw)).
Proof.
  intros H Hr. pose proof (regOK_long _ H) as Hl. destruct H as [C G]. apply reflatten_ok; [by apply setGlobals_cache|]. intros v Hv. apply held_elem in Hv. cbn in Hv.
  destruct Hv as [?|[?|(id & row & Hrow & <-)]]; [apply Hl, held_elem; tauto..|by eapply Hr].
Qed.

Lemma row_long r id row : regOK r -> rows r !! id = Some row -> long (rowValue row).
Proof. intros H Hr. apply (regOK_long _ H), held_elem. right. right. by exists id, row. Qed.

Lemma RetireGlobalValue_ok id at_ r : regOK r -> regOK (RetireGlobalValue id at_ r).
Proof.
  intros H. unfold RetireGlobalValue. destruct (rows r !! id) as [row|] eqn:E; [|done]. destruct (_ =? 0); [|done]. destruct H as [C G]. constructor; [by apply setGlobals_cache|].
  intros v. change (globals (setGlobals r _ _ _)) with (globals r). rewrite G, !held_elem. cbn. f_equiv. f_equiv. split.
  - intros (id' & row' & Hr & <-). destruct (decide (id' = id)) as [->|Hne]; [|exists id', row'; by rewrite lookup_insert_ne]. rewrite E in Hr. injection Hr as <-. eexists id, _. by rewrite lookup_insert_eq.
  - intros (id' & row' & Hr & <-). apply lookup_insert_Some in Hr as [[<- <-]|[_ Hr]]; [by exists id, row|by exists id', row'].
Qed.

(** ** Maskers *)

(** Deriving a masker changes no value. *)
Record same (r r' : Registry) : Prop := mkSame {
  sm_runs : perRun r' = perRun r; sm_globals : globals r' = globals r; sm_current : current r' = current r;
  sm_retired : retired r' = retired r; sm_rows : rows r' = rows r; sm_gen : gen r' = gen r;
}.

#[export] Instance same_preorder : PreOrder same.
Proof. split; [by intros r|]. intros r1 r2 r3 [] []. constructor; congruence. Qed.

Lemma same_entry r r' run c : same r r' -> entryOK r run c -> entryOK r' run c.
Proof. intros [] H. eapply entry_same; [exact H|done|unfold runValues; congruence|done]. Qed.
Lemma same_shared r r' g : same r r' -> sharedOK r g -> sharedOK r' g.
Proof. intros S [? ?]. constructor; [by rewrite (sm_globals _ _ S)|done]. Qed.
Lemma same_held r r' : same r r' -> heldValues r' = heldValues r.
Proof. intros []. unfold heldValues. congruence. Qed.

Lemma same_ok r r' : same r r' -> regOK r -> (forall g, shared r' = Some g -> sharedOK r g) -> (forall run c, cached r' !! run = Some c -> entryOK r run c) -> regOK r'.
Proof.
  intros S [[Cn Cl Cr Cs Cc] G] Hs Hc. pose proof (same_held _ _ S) as Eh. constructor.
  - constructor.
    + by rewrite (sm_globals _ _ S).
    + by rewrite (sm_globals _ _ S).
    + intros run v. unfold runValues. rewrite (sm_runs _ _ S). apply Cr.
    + intros g Hg. eapply same_shared; [exact S|by apply Hs].
    + intros run c H. eapply same_entry; [exact S|by apply Hc].
  - intros v. by rewrite Eh, (sm_globals _ _ S).
Qed.

Lemma shared_fresh r : regOK r -> sharedOK r (mkGM (secrets (NewMasker (globals r))) None).
Proof. intros H. constructor; [intros v; apply NewMasker_elem|done]. Qed.

Lemma sharedLocked_ok r g r1 : regOK r -> sharedLocked r = (g, r1) -> same r r1 /\ regOK r1 /\ sharedOK r g /\ shared r1 = Some g /\ cached r1 = cached r.
Proof.
  intros H E. pose proof (shared_fresh r H) as Hf. unfold sharedLocked in E. destruct (shared r) as [g0|] eqn:Eg.
  - injection E as <- <-. split_and!; [done|done|by apply (co_shared _ (rg_cache _ H))|done|done].
  - injection E as <- <-. split_and!; [done| |done|done|done]. apply (same_ok r); [done|done| |apply (co_cached _ (rg_cache _ H))]. intros g Hg. cbn in Hg. by injection Hg as <-.
Qed.

Lemma fresh_plain r run g : regOK r -> sharedOK r g -> plainOK r run (newMaskerOver (runValues r run) (gmPlain g)).
Proof.
  intros H [Hp _] s. rewrite newMaskerOver_elem, Hp. unfold corpus. destruct (containsSlice (gmPlain g) s) eqn:E.
  - apply containsSlice_spec, Hp in E. tauto.
  - apply containsSlice_false in E. rewrite Hp in E. tauto.
Qed.

Lemma fresh_entry r run g : regOK r -> sharedOK r g -> entryOK r run (mkRM (gen r) (newMaskerOver (runValues r run) (gmPlain g)) None).
Proof. intros H Hg. constructor; cbn; [lia|intros _; by apply fresh_plain|done]. Qed.

Lemma fresh_variant r run g vs : regOK r -> sharedOK r g -> (forall v, v ∈ vs <-> v ∈ JSONEscapedVariants (gmPlain g) /\ long v) ->
  variantOK r run (newMaskerOver (JSONEscapedVariants (ownValues (runValues r run) (gmPlain g))) vs).
Proof.
  intros H [Hp _] Hv s. rewrite newMaskerOver_elem, Hv, !JEV_elem. fold (long s). setoid_rewrite ownValues_elem. setoid_rewrite Snapshot_elem. unfold corpus.
  assert (Hg : forall x, x ∈ gmPlain g <-> x ∈ globals r) by (intros x; rewrite Hp; split; [tauto|]; intros Hx; split; [done|]; by apply (co_long _ (rg_cache _ H))).
  setoid_rewrite Hg. split.
  - intros [(Hx & _ & Hl)|[Hx Hl]]; (split; [|done]).
    + destruct Hx as [[? _]|(x & html & [? _] & ->)]; [by left; left|right; exists x, html; split; [by left|done]].
    + destruct Hx as [?|(x & html & ? & ->)]; [left; by right|right; exists x, html; split; [by right|done]].
  - intros [Hx Hl].
    assert (Hall : (s ∈ globals r \/ (exists x html, x ∈ globals r /\ s = jsonStringEscape x html)) \/ ~ (s ∈ globals r \/ (exists x html, x ∈ globals r /\ s = jsonStringEscape x html))).
    { destruct (containsSlice (JSONEscapedVariants (globals r)) s) eqn:E; [apply containsSlice_spec, JEV_elem in E; by left|apply containsSlice_false in E; rewrite JEV_elem in E; by right]. }
    destruct Hall as [Hin|Hni]; [right; by split|]. left. split_and!; [|tauto|done].
    destruct Hx as [[?|?]|(x & html & [?|?] & ->)].
    + left. split; [done|]. intros ?. apply Hni. by left.
    + exfalso. apply Hni. by left.
    + right. exists x, html. split; [|done]. split; [done|]. intros ?. apply Hni. right. by exists x, html.
    + exfalso. apply Hni. right. by exists x, html.
Qed.

Lemma setCached_ok r run c : regOK r -> entryOK r run c -> regOK (setCached r run c).
Proof.
  intros H Hc. apply (same_ok r); [done|done|apply (co_shared _ (rg_cache _ H))|]. intros run' c'. cbn. rewrite lookup_insert_Some. intros [[<- <-]|[_ Hc']]; [done|].
  by apply (co_cached _ (rg_cache _ H)).
Qed.

Lemma sharedVariant_ok r vs r1 : regOK r -> sharedVariant r = (vs, r1) ->
  same r r1 /\ regOK r1 /\ cached r1 = cached r /\ exists g, fst (sharedLocked r1) = g /\ sharedOK r g /\ forall v, v ∈ vs <-> v ∈ JSONEscapedVariants (gmPlain g) /\ long v.
Proof.
  intros H E. unfold sharedVariant in E. destruct (sharedLocked r) as [g r0] eqn:Es. destruct (sharedLocked_ok _ _ _ H Es) as (S & R & Hg & Hs & Hc).
  destruct (gmVariant g) as [v|] eqn:Ev; injection E as <- <-.
  - split_and!; [done..|]. exists g. unfold sharedLocked. rewrite Hs. split_and!; [done..|]. by apply (sh_variant _ _ Hg).
  - set (vs := secrets (NewMasker (JSONEscapedVariants (gmPlain g)))). assert (Hvs : forall v, v ∈ vs <-> v ∈ JSONEscapedVariants (gmPlain g) /\ long v) by (intros v; apply NewMasker_elem).
    assert (Hg' : sharedOK r (mkGM (gmPlain g) (Some vs))) by (constructor; cbn; [apply Hg|by intros ? [= <-]]).
    split_and!; [by destruct S| |done|exists (mkGM (gmPlain g) (Some vs)); split_and!; done].
    apply (same_ok r0); [done|done| |apply (co_cached _ (rg_cache _ R))]. intros g' Hg2. cbn in Hg2. injection Hg2 as <-. by eapply same_shared.
Qed.

Lemma rebuild_ok run wv r c r1 : regOK r -> rebuild run wv r = (c, r1) ->
  same r r1 /\ regOK r1 /\ rmGen c = gen r /\ entryOK r run c /\ (wv = true -> is_Some (variant c)).
Proof.
  intros H E. unfold rebuild in E. set (first := match cached r !! run with Some c0 => _ | None => _ end) in E.
  assert (Hfirst : exists c0 r0, first = (c0, r0) /\ same r r0 /\ regOK r0 /\ rmGen c0 = gen r /\ entryOK r run c0).
  { assert (Hb : exists c0 r0, (let '(g, r1) := sharedLocked r in let c := mkRM (gen r) (newMaskerOver (runValues r run) (gmPlain g)) None in (c, setCached r1 run c)) = (c0, r0) /\
      same r r0 /\ regOK r0 /\ rmGen c0 = gen r /\ entryOK r run c0).
    { destruct (sharedLocked r) as [g r0] eqn:Es. destruct (sharedLocked_ok _ _ _ H Es) as (S & R & Hg & Hs & Hc). pose proof (fresh_entry r run g H Hg) as He.
      eexists _, _. split; [reflexivity|]. split_and!; [by destruct S| |done|done]. apply setCached_ok; [done|]. by eapply same_entry. }
    unfold first. destruct (cached r !! run) as [c0|] eqn:Ec; [|exact Hb]. destruct (Z.eqb_spec (rmGen c0) (gen r)) as [Eg|]; [|exact Hb].
    exists c0, r. split_and!; [done..|by apply (co_cached _ (rg_cache _ H))]. }
  destruct Hfirst as (c0 & r0 & Ef & S & R & Eg & He). rewrite Ef in E. destruct wv; [|injection E as <- <-; done]. destruct (variant c0) as [m|] eqn:Ev; [injection E as <- <-; split_and!; [done..|by rewrite Ev]|].
  destruct (sharedVariant r0) as [vs r2] eqn:Es. destruct (sharedVariant_ok _ _ _ R Es) as (S2 & R2 & _ & g & Eg2 & Hg & Hvs). destruct (sharedLocked r2) as [g' r3] eqn:E3. cbn in Eg2. subst g'.
  injection E as <- <-. pose proof (transitivity S S2) as S02.
  assert (Hg0 : sharedOK r g) by (destruct Hg as [Hp ?]; constructor; [by rewrite <- (sm_globals _ _ S)|done]).
  assert (He' : entryOK r run (mkRM (rmGen c0) (plain c0) (Some (newMaskerOver (JSONEscapedVariants (ownValues (runValues r run) (gmPlain g))) vs)))).
  { constructor; cbn; [apply He|apply He|]. intros _ m [= <-]. by apply fresh_variant. }
  split_and!; [by destruct S02| |done|done|done]. apply setCached_ok; [done|]. by eapply same_entry.
Qed.

(** ** Any sequence of operations *)

Inductive regStep : Registry -> Registry -> Prop :=
| st_add committed run v r : regStep r (snd (Add committed run v r))
| st_addLocal run v r : regStep r (snd (AddLocal run v r))
| st_removeLocal run v r : regStep r (RemoveLocal run v r)
| st_evict run r : regStep r (Evict run r)
| st_setGlobal k now merge until expiring lasting r : regStep r (setGlobalLocal k now merge until expiring lasting r)
| st_evictGlobal committed k now r : regStep r (snd (EvictGlobal committed k now r))
| st_retireOwner committed owner now r : regStep r (snd (RetireOwnerGlobals committed owner now r))
| st_sweep cutoff r : regStep r (snd (SweepGlobals cutoff r))
| st_apply id k v until retiredAt r : regStep r (ApplyGlobal id k v until retiredAt r)
| st_retireValue id at_ r : regStep r (RetireGlobalValue id at_ r)
| st_dropValue id r : regStep r (DropGlobalValue id r)
| st_masker run r : regStep r (snd (MaskerFor run r))
| st_jsonMasker run r : regStep r (snd (JSONVariantMasker run r)).

Lemma MaskerFor_ok run r m r1 : regOK r -> MaskerFor run r = (m, r1) -> same r r1 /\ regOK r1 /\ plainOK r run m.
Proof.
  intros H E. assert (Hb : forall m r1, (let '(c, r1) := rebuild run false r in (plain c, r1)) = (m, r1) -> same r r1 /\ regOK r1 /\ plainOK r run m).
  { intros m' r1' E'. destruct (rebuild run false r) as [c r2] eqn:Er. injection E' as <- <-. destruct (rebuild_ok _ _ _ _ _ H Er) as (S & R & Eg & He & _). split_and!; [done..|]. by apply (en_plain _ _ _ He). }
  unfold MaskerFor in E. destruct (cached r !! run) as [c|] eqn:Ec; [|by apply Hb]. destruct (Z.eqb_spec (rmGen c) (gen r)) as [Eg|]; [|by apply Hb].
  injection E as <- <-. split_and!; [done..|]. by apply (en_plain _ _ _ (co_cached _ (rg_cache _ H) _ _ Ec)).
Qed.

Lemma JSONVariantMasker_ok run r m r1 : regOK r -> JSONVariantMasker run r = (m, r1) -> same r r1 /\ regOK r1 /\ variantOK r run m.
Proof.
  intros H E. assert (Hb : forall m r1, (let '(c, r1) := rebuild run true r in (default noMasker (variant c), r1)) = (m, r1) -> same r r1 /\ regOK r1 /\ variantOK r run m).
  { intros m' r1' E'. destruct (rebuild run true r) as [c r2] eqn:Er. injection E' as <- <-. destruct (rebuild_ok _ _ _ _ _ H Er) as (S & R & Eg & He & Hv). split_and!; [done..|].
    destruct (Hv eq_refl) as [mv Emv]. rewrite Emv. cbn. by apply (en_variant _ _ _ He). }
  unfold JSONVariantMasker in E. destruct (cached r !! run) as [c|] eqn:Ec; [|by apply Hb]. destruct (Z.eqb_spec (rmGen c) (gen r)) as [Eg|]; [|by apply Hb].
  destruct (variant c) as [mv|] eqn:Ev; [|by apply Hb]. injection E as <- <-. split_and!; [done..|]. by apply (en_variant _ _ _ (co_cached _ (rg_cache _ H) _ _ Ec)).
Qed.

Lemma regStep_ok r r' : regOK r -> regStep r r' -> regOK r'.
Proof.
  intros H S. pose proof (regOK_long _ H) as Hl. destruct S as [committed run v r|run v r|run v r|run r|k now merge until expiring lasting r|committed k now r|committed owner now r|cutoff r|id k v until ra r|id at_ r|id r|run r|run r].
  - by apply Add_ok.
  - by apply AddLocal_ok.
  - by apply RemoveLocal_ok.
  - by apply Evict_ok.
  - by apply setGlobal_ok.
  - unfold EvictGlobal. destruct (negb committed); [done|]. cbn [snd]. apply reflatten_ok; [by apply setGlobals_cache, setGlobals_cache, H|].
    eapply long_sub; [exact Hl|]. intros v Hv. apply retireRows_held in Hv. by eapply retireLocked_held.
  - unfold RetireOwnerGlobals. destruct (negb committed); [done|]. cbn [snd]. apply reflatten_ok; [apply setGlobals_cache, retireOwner_cache, H|].
    eapply long_sub; [exact Hl|]. intros v Hv. apply retireRows_held in Hv. by eapply retireOwner_held.
  - unfold SweepGlobals. cbn [snd]. apply reflatten_ok; [by apply setGlobals_cache, H|]. eapply long_sub; [exact Hl|]. intros v. apply sweep_held.
  - unfold ApplyGlobal. destruct (Nat.ltb_spec (length v) MinLen) as [|Hv]; [done|]. apply rows_ok; [done|]. intros id' row. rewrite lookup_insert_Some. intros [[_ <-]|[_ Hr]]; [done|by eapply row_long].
  - by apply RetireGlobalValue_ok.
  - apply rows_ok; [done|]. intros id' row Hr. apply lookup_delete_Some in Hr as [_ Hr]. by eapply row_long.
  - destruct (MaskerFor run r) as [m r1] eqn:E. by apply (MaskerFor_ok _ _ _ _ H) in E as (_ & ? & _).
  - destruct (JSONVariantMasker run r) as [m r1] eqn:E. by apply (JSONVariantMasker_ok _ _ _ _ H) in E as (_ & ? & _).
Qed.

Lemma NewRegistry_ok : regOK NewRegistry.
Proof.
  constructor; [constructor|]; cbn; try done.
  - constructor.
  - intros v Hv. by apply not_elem_of_nil in Hv.
  - intros run v Hv. unfold runValues in Hv. cbn in Hv. rewrite lookup_empty in Hv. by apply not_elem_of_nil in Hv.
Qed.

Lemma regSteps_ok r r' : regOK r -> rtc regStep r r' -> regOK r'.
Proof. intros H S. induction S as [|x y z Hxy _ IH]; [done|]. apply IH. by eapply regStep_ok. Qed.

(** The cached maskers are never stale: after any sequence of registrations,
    retirements, evictions, sweeps and maskings, the masker handed out for a run
    masks every text exactly as one built afresh from the run's whole corpus (its
    own values and every credential's), and the audit recorder's masker as one
    built from that corpus and its JSON renderings. *)
Theorem maskers_are_current r run p :
  rtc regStep NewRegistry r ->
  Mask (fst (MaskerFor run r)) p = Mask (NewMasker (Snapshot r run)) p /\
  Mask (fst (JSONVariantMasker run r)) p = Mask (NewMasker (JSONEscapedVariants (Snapshot r run))) p.
Proof.
  intros S. pose proof (regSteps_ok _ _ NewRegistry_ok S) as H. split.
  - destruct (MaskerFor run r) as [m r1] eqn:E. apply (MaskerFor_ok _ _ _ _ H) in E as (_ & _ & Hp). apply Mask_same. intros s. rewrite (Hp s), NewMasker_elem, Snapshot_elem. done.
  - destruct (JSONVariantMasker run r) as [m r1] eqn:E. apply (JSONVariantMasker_ok _ _ _ _ H) in E as (_ & _ & Hp). apply Mask_same. intros s. rewrite (Hp s), NewMasker_elem. done.
Qed.

(** ** The grace of a value let go *)

(** An expiry or retirement that a sweep up to [t] passes over. *)
Definition okAt (t u : Z) : Prop := u = 0 \/ t <= u.

(** A credential that holds [v] as a current value. *)
Definition heldBy (r : Registry) (k : globalKey) (v : bytes) : Prop := exists gv, gv ∈ currentOf r k /\ gvValue gv = v.

Record safe (t : Z) (v : bytes) (r : Registry) : Prop := mkSafe {
  sf_held : (exists k, heldBy r k v) \/ (exists rv, rv ∈ retired r /\ rvValue rv = v /\ t <= rvAt rv);
  sf_current : forall k gv, gv ∈ currentOf r k -> gvValue gv = v -> okAt t (gvUntil gv);
}.

(** Any operation of the registry that does not let [v] go before [t]: an operation that
    takes [v] from a credential holding it happens at [t] or later, a sweep's cutoff is
    [t] at most, and those very bytes are given no expiry before [t]. What is done to
    other values, to runs and to the rows of other processes is free, at any time. *)
Inductive gentle (t : Z) (v : bytes) : Registry -> Registry -> Prop :=
| ge_add committed run x r : gentle t v r (snd (Add committed run x r))
| ge_addLocal run x r : gentle t v r (snd (AddLocal run x r))
| ge_removeLocal run x r : gentle t v r (RemoveLocal run x r)
| ge_evict run r : gentle t v r (Evict run r)
| ge_setGlobal k now (merge : bool) until expiring lasting r :
    (merge = false -> heldBy r k v -> v <> expiring -> v ∉ lasting -> t <= now) -> (expiring = v -> okAt t until) ->
    gentle t v r (setGlobalLocal k now merge until expiring lasting r)
| ge_evictGlobal committed k now r : (heldBy r k v -> t <= now) -> gentle t v r (snd (EvictGlobal committed k now r))
| ge_retireOwner committed owner now r : (forall name, heldBy r (owner, name) v -> t <= now) -> gentle t v r (snd (RetireOwnerGlobals committed owner now r))
| ge_sweep cutoff r : cutoff <= t -> gentle t v r (snd (SweepGlobals cutoff r))
| ge_apply id k x until ra r : gentle t v r (ApplyGlobal id k x until ra r)
| ge_retireValue id at_ r : gentle t v r (RetireGlobalValue id at_ r)
| ge_dropValue id r : gentle t v r (DropGlobalValue id r)
| ge_masker run r : gentle t v r (snd (MaskerFor run r))
| ge_jsonMasker run r : gentle t v r (snd (JSONVariantMasker run r)).

Lemma gentle_step t v r r' : gentle t v r r' -> regStep r r'.
Proof. intros []; constructor. Qed.

(** Operations that leave the two holders alone. *)
Lemma safe_same t v r r' : current r' = current r -> retired r' = retired r -> safe t v r -> safe t v r'.
Proof. intros E1 E2 [H1 H2]. constructor; unfold heldBy, currentOf in *; rewrite ?E1, ?E2; done. Qed.

Lemma reflatten_safe t v r : safe t v r -> safe t v (reflattenLocked r).
Proof. apply safe_same; unfold reflattenLocked; by destruct (_ && _). Qed.

Lemma containsValue_spec keep v : containsValue keep v = true <-> exists gv, gv ∈ keep /\ gvValue gv = v.
Proof.
  unfold containsValue, bytesEqb. rewrite existsb_exists. setoid_rewrite bool_decide_eq_true. by setoid_rewrite <- list_elem_of_In.
Qed.

Lemma retireAt_ge t now until : t <= now -> t <= retireAt now until.
Proof. unfold retireAt. intros H. destruct (until >? now) eqn:E; [|done]. rewrite Z.gtb_lt in E. lia. Qed.

Lemma retireLocked_current k keep now r k' : currentOf (retireLocked k keep now r) k' = if decide (k' = k) then [] else currentOf r k'.
Proof. unfold currentOf, retireLocked, setGlobals. cbn. destruct (decide (k' = k)) as [->|Hne]; [by rewrite lookup_delete_eq|by rewrite lookup_delete_ne]. Qed.

Lemma retireLocked_safe t v k now r : (heldBy r k v -> t <= now) -> safe t v r -> safe t v (retireLocked k [] now r).
Proof.
  intros Hn [H1 H2]. constructor.
  - destruct H1 as [(k' & gv & Hgv & Ev)|(rv & Hrv & Ev & Ha)]; [|right; exists rv; split_and!; [apply elem_of_app; by left|done..]].
    destruct (decide (k' = k)) as [->|Hne]; [|left; exists k', gv; rewrite retireLocked_current; by rewrite decide_False]. right. exists (mkRV v (retireAt now (gvUntil gv))).
    split_and!; [|done|apply retireAt_ge, Hn; by exists gv]. unfold retireLocked, setGlobals. cbn. apply elem_of_app. right. apply list_elem_of_fmap. exists gv. rewrite Ev. split; [done|].
    by apply elem_of_filterb.
  - intros k' gv. rewrite retireLocked_current. destruct (decide (k' = k)); [intros Hg; by apply not_elem_of_nil in Hg|apply H2].
Qed.

Lemma retireAll_safe t v now ks r : (forall k, k ∈ ks -> heldBy r k v -> t <= now) -> safe t v r -> safe t v (foldl (fun r k => retireLocked k [] now r) r ks).
Proof.
  revert r. induction ks as [|k ks IH]; intros r Hn Hs; [done|]. cbn [foldl]. apply IH; [|apply retireLocked_safe; [apply Hn; left|done]].
  intros k' Hk' (gv & Hgv & Ev). rewrite retireLocked_current in Hgv. destruct (decide (k' = k)); [by apply not_elem_of_nil in Hgv|]. apply (Hn k'); [by right|by exists gv].
Qed.

Lemma laterExpiry_ok t a b : okAt t a -> okAt t b -> okAt t (laterExpiry a b).
Proof. unfold laterExpiry, okAt. intros Ha Hb. destruct (Z.eqb_spec a 0), (Z.eqb_spec b 0); cbn; lia. Qed.

(** The values kept, their expiries, and that none is forgotten. *)
Definition okKept (t : Z) (v : bytes) (keep : list globalValue) : Prop := forall gv, gv ∈ keep -> gvValue gv = v -> okAt t (gvUntil gv).

Lemma keepValue_ok t v merge keep x until : (x = v -> okAt t until) -> okKept t v keep -> okKept t v (keepValue merge keep x until).
Proof.
  intros Hu H. unfold keepValue. destruct (_ <? _)%nat; [done|]. destruct (containsValue keep x).
  - intros gv Hgv Ev. apply list_elem_of_fmap in Hgv as (gv0 & -> & Hgv0). unfold bytesEqb in *. destruct (bool_decide_reflect (gvValue gv0 = x)) as [E|]; [|by apply H]. cbn in *.
    destruct merge; [apply laterExpiry_ok; [by apply H|]|]; apply Hu; congruence.
  - intros gv [Hgv|E%list_elem_of_singleton]%elem_of_app Ev; [by apply H|subst gv; by apply Hu].
Qed.

Lemma keepValue_keeps merge keep x until v : (exists gv, gv ∈ keep /\ gvValue gv = v) -> exists gv, gv ∈ keepValue merge keep x until /\ gvValue gv = v.
Proof.
  intros (gv & Hgv & Ev). unfold keepValue. destruct (_ <? _)%nat; [by exists gv|]. destruct (containsValue keep x); [|exists gv; split; [apply elem_of_app; by left|done]].
  eexists. split; [apply list_elem_of_fmap; exists gv; split; [reflexivity|done]|]. by destruct (bytesEqb _ _).
Qed.

Lemma keepValue_adds merge keep v until : long v -> exists gv, gv ∈ keepValue merge keep v until /\ gvValue gv = v.
Proof.
  intros Hl. unfold keepValue. rewrite (proj2 (Nat.ltb_ge (length v) MinLen)) by done. destruct (containsValue keep v) eqn:E; [|exists (mkGV v until); split; [apply elem_of_app; right; by apply list_elem_of_singleton|done]].
  apply containsValue_spec in E as (gv & Hgv & Ev). eexists. split; [apply list_elem_of_fmap; exists gv; split; [reflexivity|done]|]. unfold bytesEqb. rewrite bool_decide_eq_true_2 by done. done.
Qed.

Lemma keepAll_spec t v merge lasting keep : (okKept t v keep -> okKept t v (foldl (fun keep x => keepValue merge keep x 0) keep lasting)) /\
  ((exists gv, gv ∈ keep /\ gvValue gv = v) -> exists gv, gv ∈ foldl (fun keep x => keepValue merge keep x 0) keep lasting /\ gvValue gv = v).
Proof.
  revert keep. induction lasting as [|x l IH]; intros keep; [done|]. cbn [foldl]. destruct (IH (keepValue merge keep x 0)) as [I1 I2]. split.
  - intros H. apply I1, keepValue_ok; [intros _; by left|done].
  - intros H. by apply I2, keepValue_keeps.
Qed.

(** A long value that is named is kept. *)
Lemma keepAll_adds merge lasting v keep : v ∈ lasting -> long v -> exists gv, gv ∈ foldl (fun keep x => keepValue merge keep x 0) keep lasting /\ gvValue gv = v.
Proof.
  revert keep. induction lasting as [|x l IH]; intros keep Hv Hl; [by apply not_elem_of_nil in Hv|]. cbn [foldl]. apply elem_of_cons in Hv as [<-|Hv]; [|by apply IH].
  apply (keepAll_spec 0 v merge). by apply keepValue_adds.
Qed.

Lemma setGlobal_safe t v k now (merge : bool) until expiring lasting r : long v ->
  (merge = false -> heldBy r k v -> v <> expiring -> v ∉ lasting -> t <= now) -> (expiring = v -> okAt t until) ->
  safe t v r -> safe t v (setGlobalLocal k now merge until expiring lasting r).
Proof.
  intros Hl Hn Hu Hs. pose proof Hs as [H1 H2]. unfold setGlobalLocal. set (keep0 := if merge then _ else []). set (keep := foldl _ _ lasting).
  assert (Hok : okKept t v keep).
  { apply keepAll_spec, keepValue_ok; [done|]. unfold keep0. destruct merge; [exact (H2 k)|intros gv Hgv; by apply not_elem_of_nil in Hgv]. }
  destruct keep as [|g0 l0] eqn:Ek; [done|]. rewrite <- Ek in *. clear Ek g0 l0. set (r1 := if merge then r else retireLocked k keep now r). apply reflatten_safe.
  assert (Hcur : forall k', k' <> k -> currentOf r1 k' = currentOf r k') by (intros k' Hne; unfold r1; destruct merge; [done|]; rewrite retireLocked_current; by rewrite decide_False).
  set (r2 := setGlobals r1 _ _ _). assert (Hc2 : forall k', currentOf r2 k' = if decide (k' = k) then keep else currentOf r k').
  { intros k'. unfold r2, currentOf, setGlobals. cbn. destruct (decide (k' = k)) as [->|Hne]; [by rewrite lookup_insert_eq|]. rewrite lookup_insert_ne by done. by apply Hcur. }
  constructor.
  - destruct (containsValue keep v) eqn:Ec; [apply containsValue_spec in Ec as (gv & Hgv & Ev); left; exists k, gv; rewrite Hc2; by rewrite decide_True|].
    assert (Hno : ~ exists gv, gv ∈ keep /\ gvValue gv = v) by (rewrite <- containsValue_spec; by rewrite Ec).
    assert (Hret : forall rv, rv ∈ retired r1 -> rvValue rv = v -> rv ∈ retired r2) by (intros rv Hrv Ev; apply elem_of_filterb; split; [done|by rewrite Ev, Ec]).
    destruct H1 as [(k' & gv & Hgv & Ev)|(rv & Hrv & Ev & Ha)].
    + destruct (decide (k' = k)) as [->|Hne]; [|left; exists k', gv; rewrite Hc2; by rewrite decide_False]. destruct merge eqn:Em.
      * destruct Hno. apply (keepAll_spec t v true lasting), keepValue_keeps. by exists gv.
      * right. exists (mkRV v (retireAt now (gvUntil gv))). split_and!; [|done|].
        -- apply Hret; [|done]. unfold r1, retireLocked, setGlobals. cbn. apply elem_of_app. right. apply list_elem_of_fmap. exists gv. rewrite Ev. split; [done|].
           apply elem_of_filterb. split; [done|]. by rewrite Ev, Ec.
        -- apply retireAt_ge, Hn; [done|by exists gv| |]; [intros ->|intros Hin]; destruct Hno; [apply (keepAll_spec t _ false); by apply keepValue_adds|by apply keepAll_adds].
    + right. exists rv. split_and!; [|done..]. apply Hret; [|done]. unfold r1, retireLocked, setGlobals. destruct merge; [done|]. cbn. apply elem_of_app. by left.
  - intros k' gv. rewrite Hc2. destruct (decide (k' = k)); [apply Hok|apply H2].
Qed.

Lemma okAt_expired t cutoff u : cutoff <= t -> okAt t u -> expired cutoff u = false.
Proof. unfold expired, okAt. intros Hc [->|Hu]; [done|]. destruct (Z.ltb_spec u cutoff); [lia|]. by rewrite andb_false_r. Qed.

Lemma sweep_current cutoff r k : currentOf (snd (SweepGlobals cutoff r)) k = List.filter (fun gv => negb (expired cutoff (gvUntil gv))) (currentOf r k).
Proof.
  unfold SweepGlobals. cbn [snd]. unfold reflattenLocked. assert (E : forall r', current r' = omap (sweepCurrent cutoff) (current r) ->
    currentOf r' k = List.filter (fun gv => negb (expired cutoff (gvUntil gv))) (currentOf r k)); [|destruct (_ && _); by apply E].
  intros r' Er. unfold currentOf. rewrite Er, lookup_omap. destruct (current r !! k) as [vs|]; [|done]. cbn. unfold sweepCurrent. by destruct (List.filter _ vs).
Qed.

Lemma sweep_safe t v cutoff r : cutoff <= t -> safe t v r -> safe t v (snd (SweepGlobals cutoff r)).
Proof.
  intros Hc [H1 H2]. constructor.
  - destruct H1 as [(k & gv & Hgv & Ev)|(rv & Hrv & Ev & Ha)].
    + left. exists k, gv. split; [|done]. rewrite sweep_current. apply elem_of_filterb. split; [done|]. rewrite (okAt_expired t); [done..|]. by eapply H2.
    + right. exists rv. split_and!; [|done..]. unfold SweepGlobals, reflattenLocked. cbn [snd]. destruct (_ && _); cbn; apply elem_of_filterb; (split; [done|]); by rewrite (proj2 (Z.ltb_ge (rvAt rv) cutoff)) by lia.
  - intros k gv Hgv. rewrite sweep_current in Hgv. apply elem_of_filterb in Hgv as [Hgv _]. by apply (H2 k).
Qed.

Lemma gentle_safe t v r r' : long v -> regOK r -> gentle t v r r' -> safe t v r -> safe t v r'.
Proof.
  intros Hl Hok G. destruct G as [committed run x r|run x r|run x r|run r|k now merge until expiring lasting r Hn Hu|committed k now r Hn|committed owner now r Hn|cutoff r Hc|id k x until ra r|id at_ r|id r|run r|run r].
  - apply safe_same; unfold Add, AddLocal; destruct (_ || _); try done; by destruct (negb committed).
  - apply safe_same; unfold AddLocal; by destruct (_ || _).
  - apply safe_same; unfold RemoveLocal; cbn zeta; by destruct (_ =? _)%nat.
  - by apply safe_same.
  - by apply setGlobal_safe.
  - intros Hs. unfold EvictGlobal. destruct (negb committed); [done|]. apply reflatten_safe. apply (safe_same _ _ (retireLocked k [] now r)); [done..|]. by apply retireLocked_safe.
  - intros Hs. unfold RetireOwnerGlobals. destruct (negb committed); [done|]. apply reflatten_safe. apply (safe_same _ _ (foldl (fun r k => retireLocked k [] now r) r
      (List.filter (fun k => bool_decide (fst k = owner)) (map fst (map_to_list (current r)))))); [done..|]. apply retireAll_safe; [|done].
    intros [o name] Hk Hh. apply elem_of_filterb in Hk as [_ Hk]. apply bool_decide_eq_true in Hk. cbn in Hk. subst o. by apply (Hn name).
  - by apply sweep_safe.
  - unfold ApplyGlobal. destruct (_ <? _)%nat; [done|]. intros Hs. apply reflatten_safe. by apply (safe_same _ _ r).
  - apply safe_same; unfold RetireGlobalValue; destruct (rows r !! id); try done; by destruct (_ =? _).
  - intros Hs. apply reflatten_safe. by apply (safe_same _ _ r).
  - destruct (MaskerFor run r) as [m r1] eqn:E. apply (MaskerFor_ok _ _ _ _ Hok) in E as (S & _). cbn. apply safe_same; apply S.
  - destruct (JSONVariantMasker run r) as [m r1] eqn:E. apply (JSONVariantMasker_ok _ _ _ _ Hok) in E as (S & _). cbn. apply safe_same; apply S.
Qed.

Lemma currentOf_lookup r k gv : gv ∈ currentOf r k -> exists vs, current r !! k = Some vs /\ gv ∈ vs.
Proof. unfold currentOf. destruct (current r !! k) as [vs|]; [by exists vs|intros Hg; by apply not_elem_of_nil in Hg]. Qed.

Lemma safe_masked t v r run : regOK r -> safe t v r -> v ∈ Snapshot r run.
Proof.
  intros H [Hs _]. apply Snapshot_elem. right. apply (rg_globals _ H), held_elem.
  destruct Hs as [(k & gv & Hgv & Ev)|(rv & ? & ? & _)]; [|right; left; by exists rv]. apply currentOf_lookup in Hgv as (vs & Hk & Hgv). left. by exists k, vs, gv.
Qed.

Lemma gentles_safe t v r r' : long v -> regOK r -> rtc (gentle t v) r r' -> safe t v r -> regOK r' /\ safe t v r'.
Proof.
  intros Hl H S. induction S as [|x y z Hxy _ IH]; intros Hs; [done|]. apply IH; [by eapply regStep_ok, gentle_step|by eapply gentle_safe].
Qed.

(** C16: a credential's value stays masked through its grace. A value of at least
    [MinLen] bytes that a process registers in its own registry ([AddGlobal] with no
    Backend, where no credential already holds those bytes with an expiry before [t]) is
    in every run's corpus after any later operations that take it from a credential
    holding it only at [t] or later, give those bytes no expiry before [t], and sweep with
    a cutoff of [t] at most. Everything else is free, at any time and in any order:
    replacing, deleting, merging and expiring other values, retiring other owners,
    evicting runs, and the rows of other processes. *)
Theorem masked_through_the_grace t k now values v r0 r run :
  rtc regStep NewRegistry r0 -> v ∈ values -> (MinLen <= length v)%nat ->
  (forall k' gv, gv ∈ currentOf r0 k' -> gvValue gv = v -> gvUntil gv = 0 \/ t <= gvUntil gv) ->
  rtc (gentle t v) (AddGlobal k now values r0) r -> v ∈ Snapshot r run.
Proof.
  intros Hr0 Hv Hl Hcur Hr. pose proof (regSteps_ok _ _ NewRegistry_ok Hr0) as Hok0. assert (Hok1 : regOK (AddGlobal k now values r0)) by (by apply setGlobal_ok).
  assert (Hs : safe t v (AddGlobal k now values r0)).
  { unfold AddGlobal, setGlobalLocal. set (keep := foldl _ _ values). destruct (keepAll_adds false values v (keepValue false [] [] 0) Hv Hl) as (gv & Hgv & Ev). change (gv ∈ keep) in Hgv.
    assert (Hkeep : okKept t v keep) by (apply keepAll_spec; intros g Hg; by apply not_elem_of_nil in Hg).
    destruct keep as [|g0 l0] eqn:Ek; [by apply not_elem_of_nil in Hgv|]. rewrite <- Ek in *. clear Ek g0 l0. apply reflatten_safe.
    set (r2 := setGlobals _ _ _ _). assert (Hc2 : forall k', currentOf r2 k' = if decide (k' = k) then keep else currentOf r0 k').
    { intros k'. unfold r2, currentOf, retireLocked, setGlobals. cbn. destruct (decide (k' = k)) as [->|Hne]; [by rewrite lookup_insert_eq|]. by rewrite lookup_insert_ne, lookup_delete_ne. }
    constructor.
    - left. exists k, gv. rewrite Hc2. by rewrite decide_True.
    - intros k' g. rewrite Hc2. destruct (decide (k' = k)); [apply Hkeep|apply Hcur]. }
  destruct (gentles_safe _ _ _ _ Hl Hok1 Hr Hs) as [Hok2 Hs2]. by eapply safe_masked.
Qed.

(** ** At work *)

Definition text (s : string) : bytes := String.list_ascii_of_string s.
Definition tokenA : bytes := text "sk-aaaa-1111".
Definition tokenB : bytes := text "sk-bbbb-2222".
Definition alice : globalKey := ("alice", "github")%string.
Definition bob : globalKey := ("bob", "github")%string.

(** Another credential is deleted at 20, a refresh at 100 replaces the token, a sweep at
    90 keeps the old one masked. *)
Definition registered : Registry := AddGlobal alice 10 [tokenA] (AddGlobal bob 5 [tokenB] NewRegistry).
Definition refreshed : Registry := snd (SweepGlobals 90 (AddGlobal alice 100 [tokenB] (snd (EvictGlobal true bob 20 registered)))).

Lemma masked_through_the_grace_witness : tokenA ∈ Snapshot refreshed "run" /\ Mask (NewMasker (Snapshot refreshed "run")) (text "key=sk-aaaa-1111;") = text "key=<secret-hidden>;".
Proof.
  split; [|by vm_compute].
  apply (masked_through_the_grace 95 alice 10 [tokenA] tokenA (AddGlobal bob 5 [tokenB] NewRegistry) refreshed "run").
  - apply rtc_once, st_setGlobal.
  - left.
  - vm_compute. lia.
  - intros k' gv Hgv Ev. exfalso. apply currentOf_lookup in Hgv as (vs & Hk & Hgv). apply elem_of_map_to_list in Hk. vm_compute in Hk. apply list_elem_of_singleton in Hk.
    injection Hk as -> ->. apply list_elem_of_singleton in Hgv as ->. vm_compute in Ev. discriminate.
  - eapply rtc_l; [apply (ge_evictGlobal 95 tokenA true bob 20 registered)|].
    { intros (gv & Hgv & Ev). exfalso. vm_compute in Hgv. apply list_elem_of_singleton in Hgv as ->. vm_compute in Ev. discriminate. }
    eapply rtc_l; [apply (ge_setGlobal 95 tokenA alice 100 false 0 [] [tokenB]); [lia|intros _; by left]|]. apply rtc_once. apply ge_sweep. lia.
Defined.

Lemma maskers_are_current_witness : Mask (fst (MaskerFor "run" refreshed)) (text "a sk-aaaa-1111 b") = text "a <secret-hidden> b".
Proof.
  rewrite (proj1 (maskers_are_current refreshed "run" (text "a sk-aaaa-1111 b") ltac:(eapply rtc_l; [apply st_setGlobal|]; eapply rtc_l; [apply st_setGlobal|]; eapply rtc_l; [apply st_evictGlobal|]; eapply rtc_l; [apply st_setGlobal|]; apply rtc_once, st_sweep))).
  by vm_compute.
Defined.

(** Where another credential holds the same bytes with an earlier expiry, the copy
    retired later is dropped from the retired list by a merge that does not name it,
    and a sweep before its retirement unmasks it. *)
Definition twoHolders : Registry := AddGlobal alice 10 [tokenA] (AddGlobalUntil bob 10 50 tokenA [] NewRegistry).
Definition mergedAway : Registry := MergeGlobal bob [tokenB] (snd (EvictGlobal true alice 100 twoHolders)).

Example retired_copy_lost : 
  existsb (bytesEqb tokenA) (Snapshot (snd (SweepGlobals 60 (snd (EvictGlobal true alice 100 twoHolders)))) "run") = true /\
  existsb (bytesEqb tokenA) (Snapshot (snd (SweepGlobals 60 mergedAway)) "run") = false.
Proof. by vm_compute. Qed.
