(* ===== verification/GHPath.v ===== *)
(** * How a GitHub request path is read

    [path.go] of [src/internal/ghscope] and [src/internal/pctdecode]: decoding a path
    into segments, refusing every spelling that a server might route as something
    other than what it reads as, and the names of owners and repositories. *)
From S2P Require Import Prelude GoStrings GoPath Grants PolicyTypes.
Local Open Scope string_scope.
Local Open Scope Z_scope.
Local Open Scope list_scope.

(** ** Tables *)

(** A map literal of the source, read by key. *)
Definition assoc {A} (l : list (string * A)) (k : string) : option A := snd <$> findFirst (fun p => String.eqb (fst p) k) l.

Lemma assoc_elem {A} (l : list (string * A)) k v : assoc l k = Some v -> (k, v) ∈ l.
Proof.
  unfold assoc. destruct (findFirst _ l) as [[k' v']|] eqn:E; [|done]. cbn. intros [= <-]. apply findFirst_Some in E as [Hin Hk].
  apply String.eqb_eq in Hk. cbn in Hk. by subst.
Qed.

(** ** Percent-decoding ([pctdecode.go]) *)

Definition Unhex (c : ascii) : option Z :=
  let b := byte_of c in
  if (48 <=? b) && (b <=? 57) then Some (b - 48)
  else if (97 <=? b) && (b <=? 102) then Some (b - 97 + 10)
  else if (65 <=? b) && (b <=? 70) then Some (b - 65 + 10)
  else None.

Definition byteOf (hi lo : Z) : ascii := ascii_of_N (Z.to_N (Z.lor (Z.shiftl hi 4) lo)).

(** The byte two hexadecimal digits spell. *)
Definition unescape (h l : ascii) : option ascii :=
  match Unhex h, Unhex l with Some hi, Some lo => Some (byteOf hi lo) | _, _ => None end.

(** Every valid escape once; a malformed one stays as it is. *)
Fixpoint Lenient (s : string) : string :=
  match s with
  | "" => ""
  | String c r =>
      match r with
      | String h (String l r2) =>
          match (if Ascii.eqb c "%" then unescape h l else None) with
          | Some b => String b (Lenient r2)
          | None => String c (Lenient r)
          end
      | _ => String c (Lenient r)
      end
  end.

(** ** Hazards of a decoded segment *)

(** The UTF-8 spellings of the runes [unicode.IsSpace] names. A rune's first byte is
    never a continuation byte, so a text begins or ends with one of these runes
    exactly when it begins or ends with one of these spellings. *)
Definition spaceText : list string :=
  map (fun b => String (ascii_of_N b) "") [9; 10; 11; 12; 13; 32]%N ++
  map (fun bs => foldr (fun b s => String (ascii_of_N b) s) "" bs)
    ([[194; 133]; [194; 160]; [225; 154; 128]] ++ map (fun b => [226; 128; b]) [128; 129; 130; 131; 132; 133; 134; 135; 136; 137; 138; 168; 169; 175] ++
     [[226; 129; 159]; [227; 128; 128]])%N.

(** [strings.TrimFunc(s, unicode.IsSpace) != s]. *)
Definition spaceTrims (s : string) : bool := existsb (HasPrefix s) spaceText || existsb (HasSuffix s) spaceText.

(** [strings.ContainsFunc(s, unicode.IsControl)]: a control byte of ASCII, or one of
    U+0080 to U+009F, which are C2 followed by 80 to 9F. *)
Fixpoint hasControl (s : string) : bool :=
  match s with
  | "" => false
  | String c r =>
      (byte_of c <? 32) || (byte_of c =? 127) ||
      ((byte_of c =? 194) && match r with String d _ => (128 <=? byte_of d) && (byte_of d <=? 159) | "" => false end) ||
      hasControl r
  end.

Definition isDotWithParam (seg : string) : bool :=
  match cutByte ";" seg with Some (head, _) => String.eqb head "." || String.eqb head ".." | None => false end.

Definition segmentHazard (seg : string) : string :=
  if String.eqb seg "." || String.eqb seg ".." then "is a dot segment"
  else if isDotWithParam seg then "is a dot segment carrying a path parameter"
  else if spaceTrims seg then "has leading or trailing whitespace"
  else if str_has "/" seg || str_has "\" seg then "holds a separator"
  else if hasControl seg then "holds a control character"
  else "".

Definition maxDecodeDepth : nat := 4.

(** Decoding again and again, for the hazards a catalogue names. *)
Fixpoint hidesLoop (hazard : string -> string) (n : nat) (seg : string) : bool :=
  match n with
  | O => true
  | S n =>
      let next := Lenient seg in
      if String.eqb next seg then false
      else if negb (String.eqb (hazard next) "") then true
      else hidesLoop hazard n next
  end.
Definition hidesStructure (seg : string) : bool := hidesLoop segmentHazard maxDecodeDepth seg.

(** ** Decoding a segment *)

(** The strict decoding: [None] on a malformed escape. *)
Fixpoint strictDecode (s : string) : option string :=
  match s with
  | "" => Some ""
  | String c r =>
      if Ascii.eqb c "%" then
        match r with
        | String h (String l r2) =>
            match unescape h l, strictDecode r2 with Some b, Some t => Some (String b t) | _, _ => None end
        | _ => None
        end
      else match strictDecode r with Some t => Some (String c t) | None => None end
  end.

Definition decodeSegment (raw : string) : errOr string :=
  match strictDecode raw with
  | None => inl "is not decodable"
  | Some seg =>
      if negb (ValidString seg) then inl "decodes to invalid UTF-8"
      else if negb (String.eqb (segmentHazard seg) "") then inl (segmentHazard seg)
      else if hidesStructure seg then inl "is encoded more than once around structure"
      else inr seg
  end.

Record segment := mkSegment { text : string; escaped : bool }.

(** [strings.TrimSuffix]. *)
Definition TrimSuffix (s suf : string) : string := default s (CutSuffix s suf).

Section Unicode.
Context {U : GoUnicode}.

Fixpoint decodeParts (parts : list string) : errOr (list segment) :=
  match parts with
  | [] => inr []
  | part :: rest =>
      if String.eqb part "" then inl "has an empty segment"
      else match decodeSegment part with
           | inl e => inl e
           | inr t => match decodeParts rest with
                      | inl e => inl e
                      | inr l => inr (mkSegment (ToLower t) (str_has "%" part) :: l)
                      end
           end
  end.

Definition splitPath (raw : string) : errOr (list segment) :=
  if negb (HasPrefix raw "/") then inl "does not start with a slash"
  else if str_has "?" raw || str_has "#" raw then inl "carries a query or fragment"
  else
    let rest := tailOf raw in
    if String.eqb rest "" then inr [] else decodeParts (splitByte "/" (TrimSuffix rest "/")).

(** ** Names *)

Definition nameByte (extra : string) (c : ascii) : bool := is_lower c || is_digit c || str_has c extra.
Definition isNameText (s extra : string) : bool := str_forall (nameByte extra) s.

Definition ownerName (s : segment) : option string :=
  if escaped s || String.eqb (text s) "" || negb (isNameText (text s) "-_") then None else Some (text s).

Definition repoName (s : segment) : option string :=
  let name := TrimSuffix (text s) ".git" in
  if escaped s || String.eqb name "" || String.eqb name "." || String.eqb name ".." || HasSuffix name ".git" || negb (isNameText name "-_.")
  then None else Some name.

Definition RepoKey (s : string) : option string :=
  match cutByte "/" (ToLower (TrimSpace s)) with
  | None => None
  | Some (o, n) =>
      match ownerName (mkSegment o false) with
      | None => None
      | Some owner =>
          match repoName (mkSegment n false) with
          | None => None
          | Some name => Some (owner +:+ "/" +:+ name)
          end
      end
  end.
End Unicode.

(** ** The reading of a segment *)

(** Where the escapes are well-formed both decoders agree. *)
Lemma strict_lenient s t : strictDecode s = Some t -> Lenient s = t.
Proof.
  revert t. induction s as [s IH] using (induction_ltof1 _ String.length). unfold ltof in IH. intros t. destruct s as [|c r]; [by intros [= <-]|]. cbn [strictDecode].
  destruct (Ascii.eqb c "%") eqn:Ec.
  - destruct r as [|h [|l r2]]; [done..|]. destruct (unescape h l) as [b|] eqn:Eu; [|done]. destruct (strictDecode r2) as [t2|] eqn:E2; [|done]. intros [= <-].
    cbn [Lenient]. rewrite Ec, Eu. f_equal. apply IH; [cbn; lia|done].
  - destruct (strictDecode r) as [t2|] eqn:E2; [|done]. intros [= <-]. apply IH in E2; [|cbn; lia]. cbn [Lenient]. rewrite Ec. destruct r as [|h [|l r2]]; by rewrite <- E2.
Qed.

Lemma hides_never hazard n seg : hidesLoop hazard n seg = false -> hazard seg = "" -> forall k, hazard (Nat.iter k Lenient seg) = "".
Proof.
  revert seg. induction n as [|n IH]; intros seg; cbn [hidesLoop]; [done|]. intros H Hs k.
  destruct (String.eqb_spec (Lenient seg) seg) as [E|_].
  - assert (Ek : Nat.iter k Lenient seg = seg) by (induction k as [|k IHk]; [done|]; by rewrite Nat.iter_succ, IHk). by rewrite Ek.
  - destruct (String.eqb_spec (hazard (Lenient seg)) "") as [En|]; [|done]. destruct k as [|k]; [done|]. rewrite Nat.iter_succ_r. by apply IH.
Qed.

(** An accepted segment has one reading: it is what decoding its escapes once gives,
    it is valid UTF-8, and however many more times a server decodes it, never meets a
    separator, a dot segment, a control character or space at an end. *)
Theorem segment_reads_one_way raw seg k :
  decodeSegment raw = inr seg ->
  Lenient raw = seg /\ ValidString seg = true /\ segmentHazard (Nat.iter k Lenient seg) = "".
Proof.
  unfold decodeSegment. destruct (strictDecode raw) as [t|] eqn:Et; [|done]. destruct (ValidString t) eqn:Ev; [|done].
  destruct (String.eqb_spec (segmentHazard t) "") as [Eh|]; [|done]. cbn [negb]. destruct (hidesStructure t) eqn:Es; [done|]. intros [= <-].
  split_and!; [by apply strict_lenient|done|]. by eapply hides_never.
Qed.

Lemma segment_reads_one_way_witness :
  decodeSegment "release%20notes" = inr "release notes" /\ segmentHazard (Nat.iter 7 Lenient "release notes") = "" /\
  decodeSegment "a%252Fb" = inl "is encoded more than once around structure".
Proof.
  split_and!; [by vm_compute| |by vm_compute].
  apply (segment_reads_one_way "release%20notes" "release notes" 7). by vm_compute.
Defined.
