(* ===== verification/GHScope.v ===== *)
(** * The GitHub capability catalogue

    [src/internal/ghscope]: one request to one capability and the repository it
    targets ([classify.go], [repo_routes.go]), capabilities to the permissions of a
    token, and the gate ([permissions.go]). *)
From S2P Require Import Prelude GoStrings GoPath Grants PolicyTypes GHPath.
Local Open Scope string_scope.
Local Open Scope list_scope.

(** ** Capabilities ([capability.go]) *)

Definition Capability : Type := string.

Definition CapCodeRead : Capability := "code_read".
Definition CapCodeWrite : Capability := "code_write".
Definition CapWorkflowsWrite : Capability := "workflows_write".
Definition CapPR : Capability := "pr".
Definition CapIssuesRead : Capability := "issues_read".
Definition CapIssuesWrite : Capability := "issues_write".
Definition CapActionsRead : Capability := "actions_read".
Definition CapActionsExecute : Capability := "actions_execute".
Definition CapActionsAdmin : Capability := "actions_admin".
Definition CapPackagesRead : Capability := "packages_read".
Definition CapPackagesWrite : Capability := "packages_write".
Definition CapRepoAdmin : Capability := "repo_admin".
Definition CapOrgRead : Capability := "org_read".
Definition CapOrgAdmin : Capability := "org_admin".
Definition CapIdentity : Capability := "identity".
Definition CapMetadata : Capability := "metadata".
Definition CapDeniedTokens : Capability := "denied_tokens".
Definition CapDeniedHooks : Capability := "denied_hooks".
Definition CapDeniedSecrets : Capability := "denied_secrets".
Definition CapDeniedAccount : Capability := "denied_account".
Definition CapDeniedSearch : Capability := "denied_search".
Definition CapDeniedGraphQL : Capability := "denied_graphql".
Definition CapRepoContentWriteREST : Capability := "repo_content_write_rest".
Definition CapUnclassifiedWrite : Capability := "unclassified_write".
Definition CapUnclassifiedRead : Capability := "unclassified_read".

Definition grantableCapabilities : list Capability :=
  [CapCodeRead; CapCodeWrite; CapWorkflowsWrite; CapPR; CapIssuesRead; CapIssuesWrite; CapActionsRead; CapActionsExecute; CapActionsAdmin;
   CapPackagesRead; CapPackagesWrite; CapRepoAdmin; CapOrgRead; CapOrgAdmin; CapIdentity].

Definition deniedCapabilities : list Capability :=
  [CapDeniedTokens; CapDeniedHooks; CapDeniedSecrets; CapDeniedAccount; CapDeniedSearch; CapDeniedGraphQL; CapRepoContentWriteREST].

Definition Grantable (c : Capability) : bool := memS c grantableCapabilities.
Definition Denied (c : Capability) : bool := memS c deniedCapabilities.
Definition capValid (c : Capability) : bool :=
  Grantable c || Denied c || String.eqb c CapMetadata || String.eqb c CapUnclassifiedWrite || String.eqb c CapUnclassifiedRead.

Definition ProfileDefault : list Capability := [CapCodeRead].

(** ** Requests *)

Definition APIHost : string := "api.github.com".
Definition GitHost : string := "github.com".

(** Of the header only the names of its fields are read. *)
Record Request := mkRequest { Method : string; Host : string; Path : string; RawQuery : string; Header : list string }.
Record Verdict := mkVerdict { vCapability : Capability; vRepo : string; vOwner : string }.
Definition onlyCap (c : Capability) : Verdict := mkVerdict c "" "".

Definition methodOverrideHeaders : list string := ["X-HTTP-Method-Override"; "X-HTTP-Method"; "X-Method-Override"].

Definition unclassified (read : bool) : Capability := if read then CapUnclassifiedRead else CapUnclassifiedWrite.

Definition texts (segs : list segment) : list string := map text segs.
Definition at_ (p : list string) (i : nat) : string := default "" (p !! i).

(** ** Packages, organisations and accounts *)

Definition packagesCapability (read : bool) (method : string) (sub : list string) : Capability :=
  let n := length sub in
  if read then CapPackagesRead
  else if String.eqb method "DELETE" && ((n =? 2) || ((n =? 4) && String.eqb (at_ sub 2) "versions"))%nat then CapPackagesWrite
  else if String.eqb method "POST" && ((n =? 3) || ((n =? 5) && String.eqb (at_ sub 2) "versions"))%nat && String.eqb (at_ sub (n - 1)) "restore" then CapPackagesWrite
  else CapUnclassifiedWrite.

Definition secretAreas : list string := ["actions"; "codespaces"; "dependabot"].
Definition orgMemberAreas : list string := ["invitations"; "members"; "memberships"; "outside_collaborators"; "public_members"; "teams"].
Definition orgTokenAreas : list string :=
  ["credential-authorizations"; "installation"; "installations"; "personal-access-token-requests"; "personal-access-tokens"].

Definition deniedOrgArea (sub : list string) : option Capability :=
  let a := at_ sub 0 in
  if String.eqb a "hooks" then Some CapDeniedHooks
  else if memS a orgTokenAreas then Some CapDeniedTokens
  else if String.eqb a "actions" && String.eqb (at_ sub 1) "runners" then Some CapDeniedTokens
  else if String.eqb a "private-registries" || (memS a secretAreas && String.eqb (at_ sub 1) "secrets") then Some CapDeniedSecrets
  else None.

Definition orgCapability (read : bool) (method : string) (sub : list string) : Capability :=
  match deniedOrgArea sub with
  | Some c => c
  | None =>
      if (length sub =? 0)%nat && read then CapOrgRead
      else if (length sub =? 0)%nat && String.eqb method "PATCH" then CapOrgAdmin
      else if (length sub =? 1)%nat && String.eqb (at_ sub 0) "repos" && read then CapOrgRead
      else if (length sub =? 1)%nat && String.eqb (at_ sub 0) "repos" && String.eqb method "POST" then CapRepoAdmin
      else if String.eqb (at_ sub 0) "packages" then packagesCapability read method (drop 1 sub)
      else if (0 <? length sub)%nat && memS (at_ sub 0) orgMemberAreas then (if read then CapOrgRead else CapOrgAdmin)
      else unclassified read
  end.

Definition classifyUser (read : bool) (segs : list segment) : errOr Verdict :=
  if read && (length segs =? 0)%nat then inr (onlyCap CapIdentity) else inr (onlyCap CapDeniedAccount).

Definition classifyUsers (read : bool) (method : string) (segs : list segment) : errOr Verdict :=
  match segs with
  | u :: a :: sub =>
      if negb (String.eqb (text a) "packages") then inr (onlyCap (unclassified read))
      else match ownerName u with
           | None => inl "is not an account name"
           | Some owner => inr (mkVerdict (packagesCapability read method (texts sub)) "" owner)
           end
  | _ => inr (onlyCap (unclassified read))
  end.

Definition classifyOrg (read : bool) (method : string) (segs : list segment) : errOr Verdict :=
  match segs with
  | [] => inr (onlyCap (unclassified read))
  | o :: sub =>
      match ownerName o with
      | None => inl "is not an organisation name"
      | Some org => inr (mkVerdict (orgCapability read method (texts sub)) "" org)
      end
  end.

(** ** Repository routes ([repo_routes.go]) *)

Definition metadataAreas : list string := ["collaborators"; "contributors"; "languages"; "license"; "rules"; "rulesets"; "tags"; "topics"].
Definition adminWriteAreas : list string := ["collaborators"; "rulesets"; "topics"].
Definition contentWriteAreas : list string := ["contents"; "git"; "import"; "merge-upstream"; "merges"; "releases"].
Definition codeReadAreas : list string :=
  ["activity"; "branches"; "commits"; "compare"; "contents"; "git"; "readme"; "releases"; "tarball"; "zipball"].
Definition issueAreas : list string := ["assignees"; "issues"; "labels"; "milestones"].
Definition pullReadParts : list string := ["comments"; "commits"; "files"; "merge"; "requested_reviewers"; "reviews"].
Definition pullWriteParts : list string := ["comments"; "requested_reviewers"; "reviews"].
Definition pullContentParts : list string := ["merge"; "merge-async"; "update-branch"].

Definition deniedRepoArea (sub : list string) : option Capability :=
  let a := at_ sub 0 in
  if String.eqb a "hooks" then Some CapDeniedHooks
  else if String.eqb a "keys" || (String.eqb a "actions" && String.eqb (at_ sub 1) "runners") then Some CapDeniedTokens
  else if (memS a secretAreas && String.eqb (at_ sub 1) "secrets") || (String.eqb a "actions" && String.eqb (at_ sub 1) "organization-secrets") ||
          (String.eqb a "environments" && String.eqb (at_ sub 2) "secrets") then Some CapDeniedSecrets
  else None.

Definition isNumber (s : string) : bool := str_forall is_digit s && negb (String.eqb s "").

(** A case of the switch whose own condition fails leaves it for the last line. *)
Definition pullsCapability (read : bool) (method : string) (sub : list string) : Capability :=
  let c := if read then CapCodeRead else CapPR in
  if (length sub =? 1)%nat then (if read || String.eqb method "POST" then c else unclassified read)
  else if String.eqb (at_ sub 1) "comments" then (if read || (2 <? length sub)%nat then c else unclassified read)
  else if negb (isNumber (at_ sub 1)) then unclassified read
  else if (length sub =? 2)%nat then (if read || String.eqb method "PATCH" then c else unclassified read)
  else if negb read && memS (at_ sub 2) pullContentParts then CapRepoContentWriteREST
  else if (read && memS (at_ sub 2) pullReadParts) || (negb read && memS (at_ sub 2) pullWriteParts) then c
  else unclassified read.

Definition actionsWrites : list (string * Capability) :=
  [("POST runs/{id}/approve", CapActionsAdmin); ("POST runs/{id}/cancel", CapActionsExecute); ("POST runs/{id}/force-cancel", CapActionsExecute);
   ("POST runs/{id}/rerun", CapActionsExecute); ("POST runs/{id}/rerun-failed-jobs", CapActionsExecute); ("DELETE runs/{id}", CapActionsAdmin);
   ("DELETE runs/{id}/logs", CapActionsAdmin); ("POST jobs/{id}/rerun", CapActionsExecute); ("POST workflows/{id}/dispatches", CapActionsExecute);
   ("PUT workflows/{id}/enable", CapActionsAdmin); ("PUT workflows/{id}/disable", CapActionsAdmin); ("DELETE artifacts/{id}", CapActionsAdmin);
   ("DELETE caches", CapActionsAdmin); ("DELETE caches/{id}", CapActionsAdmin)].
Definition actionsReadResources : list string := ["artifacts"; "cache"; "caches"; "jobs"; "runs"; "workflows"].

Definition actionsCapability (read : bool) (method : string) (sub : list string) : Capability :=
  let res := at_ sub 1 in
  if String.eqb res "permissions" && negb read then CapRepoAdmin
  else if negb (memS res actionsReadResources) then unclassified read
  else if read then CapActionsRead
  else if (4 <? length sub)%nat then CapUnclassifiedWrite
  else
    let key := method +:+ " " +:+ res +:+ (if (2 <? length sub)%nat then "/{id}" else "") +:+ (if (3 <? length sub)%nat then "/" +:+ at_ sub 3 else "") in
    default CapUnclassifiedWrite (assoc actionsWrites key).

Definition repoCapability (read : bool) (method : string) (sub : list string) : Capability :=
  if (length sub =? 0)%nat then
    (if read then CapMetadata else if String.eqb method "PATCH" || String.eqb method "DELETE" then CapRepoAdmin else CapUnclassifiedWrite)
  else
    match deniedRepoArea sub with
    | Some c => c
    | None =>
        let area := at_ sub 0 in
        if negb read && String.eqb area "branches" && (2 <? length sub)%nat && String.eqb (at_ sub (length sub - 1)) "rename" then CapRepoContentWriteREST
        else if String.eqb area "branches" && (2 <? length sub)%nat && memS "protection" (drop 2 sub) then CapRepoAdmin
        else if String.eqb area "pulls" then pullsCapability read method sub
        else if String.eqb area "actions" then actionsCapability read method sub
        else if memS area issueAreas then (if read then CapIssuesRead else CapIssuesWrite)
        else if read && memS area metadataAreas then CapMetadata
        else if read && memS area codeReadAreas then CapCodeRead
        else if read then CapUnclassifiedRead
        else if memS area adminWriteAreas then CapRepoAdmin
        else if memS area contentWriteAreas || (String.eqb area "code-scanning" && String.eqb (at_ sub 1) "alerts" && memS "autofix" sub) then CapRepoContentWriteREST
        else CapUnclassifiedWrite
    end.

Definition repoOf (o r : segment) : errOr (string * string) :=
  match ownerName o with
  | None => inl "is not an account or organisation name"
  | Some owner => match repoName r with None => inl "is not a repository name" | Some repo => inr (owner, repo) end
  end.

Definition classifyRepo (read : bool) (method : string) (segs : list segment) : errOr Verdict :=
  match segs with
  | o :: r :: sub =>
      match repoOf o r with
      | inl e => inl e
      | inr (owner, repo) => inr (mkVerdict (repoCapability read method (texts sub)) (owner +:+ "/" +:+ repo) owner)
      end
  | _ => inr (onlyCap (unclassified read))
  end.

(** ** Top-level areas *)

Definition deniedRoots : list string := ["app"; "app-manifests"; "applications"; "authorizations"; "credentials"; "installation"].
Definition metadataRoots : list string := ["meta"; "octocat"; "rate_limit"; "versions"; "zen"].
Definition accountRoots : list string := ["gists"; "notifications"; "repositories"].

Definition classifyREST (read : bool) (method : string) (segs : list segment) : errOr Verdict :=
  match segs with
  | [] => inr (onlyCap (if read then CapMetadata else CapUnclassifiedWrite))
  | s :: rest =>
      let root := text s in
      if String.eqb root "repos" then classifyRepo read method rest
      else if String.eqb root "orgs" then classifyOrg read method rest
      else if String.eqb root "user" then classifyUser read rest
      else if String.eqb root "users" then classifyUsers read method rest
      else if String.eqb root "graphql" then inr (onlyCap CapDeniedGraphQL)
      else if String.eqb root "search" then inr (onlyCap CapDeniedSearch)
      else if memS root deniedRoots then inr (onlyCap CapDeniedTokens)
      else if memS root accountRoots then inr (onlyCap CapDeniedAccount)
      else if read && (length segs =? 1)%nat && memS root metadataRoots then inr (onlyCap CapMetadata)
      else inr (onlyCap (unclassified read))
  end.

Definition gitPackServices : list (string * Capability) := [("git-upload-pack", CapCodeRead); ("git-receive-pack", CapCodeWrite)].

Definition gitVerdict (service : string) (o r : segment) : errOr Verdict :=
  match assoc gitPackServices service with
  | None => inl "is not a git service this catalogue classifies"
  | Some c =>
      match repoOf o r with
      | inl e => inl e
      | inr (owner, repo) => inr (mkVerdict c (owner +:+ "/" +:+ repo) owner)
      end
  end.

Definition classifyGit (method : string) (segs : list segment) (rawQuery : string) : errOr Verdict :=
  let other := inr (onlyCap (unclassified (String.eqb method "GET"))) in
  match segs with
  | [o; r; i; f] =>
      if String.eqb (text i) "info" && String.eqb (text f) "refs" then
        if negb (String.eqb method "GET") then inl "a git handshake is a GET"
        else match CutPrefix rawQuery "service=" with
             | None => inl "a git handshake that does not name exactly one service cannot be classified"
             | Some service => gitVerdict service o r
             end
      else other
  | [o; r; s] =>
      match assoc gitPackServices (text s) with
      | None => other
      | Some _ => if negb (String.eqb method "POST") then inl "a git request is a POST" else gitVerdict (text s) o r
      end
  | _ => other
  end.

Section Unicode.
Context {U : GoUnicode}.

Definition methodOf (req : Request) : errOr (bool * string) :=
  if existsb (fun k => existsb (equalFold k) methodOverrideHeaders) (Header req) then inl "the method the server acts on is not knowable"
  else
    let method := ToUpper (TrimSpace (Method req)) in
    if String.eqb method "GET" || String.eqb method "HEAD" then inr (true, "GET")
    else if memS method ["POST"; "PUT"; "PATCH"; "DELETE"] then inr (false, method)
    else inl "is not an HTTP method this catalogue classifies".

Definition Classify (req : Request) : errOr Verdict :=
  match methodOf req with
  | inl e => inl e
  | inr (read, method) =>
      match splitPath (Path req) with
      | inl e => inl e
      | inr segs =>
          let host := ToLower (TrimSuffixDot (TrimSpace (Host req))) in
          if String.eqb host APIHost then classifyREST read method segs
          else if String.eqb host GitHost then classifyGit method segs (RawQuery req)
          else inl "is not a GitHub host this catalogue classifies"
      end
  end.

(** ** The gate and the token ([permissions.go]) *)

Definition pinned (repos : list string) (v : Verdict) : bool :=
  if String.eqb (vRepo v) "" && String.eqb (vOwner v) "" then true
  else existsb (fun r =>
    match RepoKey r with
    | None => false
    | Some key =>
        if negb (String.eqb (vRepo v) "") then String.eqb key (vRepo v)
        else String.eqb (match cutByte "/" key with Some (owner, _) => owner | None => key end) (vOwner v)
    end) repos.

Definition Permits (granted : list Capability) (repos : list string) (v : Verdict) : bool :=
  if negb (pinned repos v) then false
  else if String.eqb (vCapability v) CapMetadata then existsb Grantable granted
  else Grantable (vCapability v) && memS (vCapability v) granted.
End Unicode.

Definition levelRead : string := "read".
Definition levelWrite : string := "write".

Definition capabilityPermissions : list (Capability * list (string * string)) :=
  [(CapCodeRead, [("contents", levelRead); ("pull_requests", levelRead)]);
   (CapCodeWrite, [("contents", levelWrite)]);
   (CapWorkflowsWrite, [("contents", levelWrite); ("workflows", levelWrite)]);
   (CapPR, [("pull_requests", levelWrite)]);
   (CapIssuesRead, [("issues", levelRead)]);
   (CapIssuesWrite, [("issues", levelWrite)]);
   (CapActionsRead, [("actions", levelRead)]);
   (CapActionsExecute, [("actions", levelWrite)]);
   (CapActionsAdmin, [("actions", levelWrite)]);
   (CapPackagesRead, [("packages", levelRead)]);
   (CapPackagesWrite, [("packages", levelWrite)]);
   (CapRepoAdmin, [("administration", levelWrite)]);
   (CapOrgRead, [("members", levelRead)]);
   (CapOrgAdmin, [("members", levelWrite); ("organization_administration", levelWrite)]);
   (CapIdentity, [])].

Definition permissionsOf (c : Capability) : list (string * string) := default [] (assoc capabilityPermissions c).

Definition raiseLevel (out : gmap string string) (pl : string * string) : gmap string string :=
  if String.eqb (snd pl) levelWrite || String.eqb (default "" (out !! fst pl)) "" then <[fst pl := snd pl]> out else out.

Fixpoint permissionsLoop (caps : list Capability) (out : gmap string string) : errOr (gmap string string) :=
  match caps with
  | [] => inr out
  | c :: rest =>
      if negb (Grantable c) then inl "is not a grantable capability"
      else permissionsLoop rest (foldl raiseLevel out (permissionsOf c))
  end.
Definition PermissionsFor (caps : list Capability) : errOr (gmap string string) := permissionsLoop caps {["metadata" := levelRead]}.
