(* ===== verification/GHScopeSound.v ===== *)
(** * What the GitHub gate holds

    A permitted request is inside the run's repositories, needs what the run was
    granted, and the token minted for a set of capabilities is exactly their join. *)
From S2P Require Import Prelude GoStrings GoPath Grants PolicyTypes GHPath GHScope.
Local Open Scope string_scope.
Local Open Scope list_scope.

(** ** The tables *)

(** Split every conditional of a classification; what is left is a table entry. *)
Ltac split_routes :=
  repeat match goal with |- context [if ?b then _ else _] => destruct b eqn:? end.

(** The capabilities that only read. *)
Definition readCaps : list Capability :=
  [CapMetadata; CapCodeRead; CapIssuesRead; CapActionsRead; CapPackagesRead; CapOrgRead; CapIdentity].
Definition readCap (c : Capability) : bool := memS c readCaps.

Lemma packages_write m sub : readCap (packagesCapability false m sub) = false.
Proof. unfold packagesCapability. split_routes; reflexivity. Qed.

Lemma deniedOrg_denied sub c : deniedOrgArea sub = Some c -> Denied c = true.
Proof. unfold deniedOrgArea. split_routes; intros [= <-]; reflexivity. Qed.

Lemma deniedRepo_denied sub c : deniedRepoArea sub = Some c -> Denied c = true.
Proof. unfold deniedRepoArea. split_routes; intros [= <-]; reflexivity. Qed.

(** What some run could be allowed. *)
Definition allowable (c : Capability) : bool := Grantable c || String.eqb c CapMetadata.

Lemma denied_not_allowable c : Denied c = true -> allowable c = false.
Proof. intros H%memS_true. repeat (apply elem_of_cons in H as [->|H]; [reflexivity|]). by apply not_elem_of_nil in H. Qed.

Lemma denied_apart c : Denied c = true -> Grantable c = false /\ readCap c = false /\ capValid c = true.
Proof.
  intros H. split_and!; [..|by unfold capValid; rewrite H, orb_true_r]; apply memS_true in H;
    repeat (apply elem_of_cons in H as [->|H]; [reflexivity|]); by apply not_elem_of_nil in H.
Qed.

Lemma org_write m sub : readCap (orgCapability false m sub) = false.
Proof.
  unfold orgCapability. destruct (deniedOrgArea sub) as [c|] eqn:E; [by apply denied_apart, (deniedOrg_denied sub)|].
  split_routes; try reflexivity; try (rewrite andb_false_r in *; done). apply packages_write.
Qed.

Lemma actions_table k c : (k, c) ∈ actionsWrites -> c = CapActionsAdmin \/ c = CapActionsExecute.
Proof. unfold actionsWrites. intros H. repeat (apply elem_of_cons in H as [[= -> ->]|H]; [auto|]). by apply not_elem_of_nil in H. Qed.

Lemma actions_write m sub : readCap (actionsCapability false m sub) = false /\ capValid (actionsCapability false m sub) = true.
Proof.
  unfold actionsCapability. cbn [negb]. rewrite andb_true_r. split_routes; try done.
  all: destruct (assoc actionsWrites _) as [c|] eqn:E; [|done]; apply assoc_elem, actions_table in E as [-> | ->]; done.
Qed.

Lemma pulls_write m sub : readCap (pullsCapability false m sub) = false.
Proof. unfold pullsCapability. cbn [negb orb andb]. split_routes; reflexivity. Qed.

Lemma repo_write m sub : readCap (repoCapability false m sub) = false.
Proof.
  unfold repoCapability. cbn [negb andb]. destruct (length sub =? 0)%nat; [split_routes; reflexivity|].
  destruct (deniedRepoArea sub) as [c|] eqn:E; [by apply denied_apart, (deniedRepo_denied sub)|].
  split_routes; try reflexivity; [apply pulls_write|apply actions_write].
Qed.

(** ** The open routes, spelled out *)

(** Doors onto a second credential, a webhook or a secret, under a repository or an
    organisation. *)
Inductive closedDoor : list string -> Prop :=
| cd_hooks o n rest : closedDoor ("repos" :: o :: n :: "hooks" :: rest)
| cd_keys o n rest : closedDoor ("repos" :: o :: n :: "keys" :: rest)
| cd_runners o n rest : closedDoor ("repos" :: o :: n :: "actions" :: "runners" :: rest)
| cd_secrets o n a rest : a ∈ ["actions"; "codespaces"; "dependabot"] -> closedDoor ("repos" :: o :: n :: a :: "secrets" :: rest)
| cd_shared o n rest : closedDoor ("repos" :: o :: n :: "actions" :: "organization-secrets" :: rest)
| cd_environment o n e rest : closedDoor ("repos" :: o :: n :: "environments" :: e :: "secrets" :: rest)
| cd_orgHooks o rest : closedDoor ("orgs" :: o :: "hooks" :: rest)
| cd_orgRunners o rest : closedDoor ("orgs" :: o :: "actions" :: "runners" :: rest)
| cd_orgSecrets o a rest : a ∈ ["actions"; "codespaces"; "dependabot"] -> closedDoor ("orgs" :: o :: a :: "secrets" :: rest)
| cd_orgRegistries o rest : closedDoor ("orgs" :: o :: "private-registries" :: rest)
| cd_orgTokens o a rest : a ∈ ["credential-authorizations"; "installation"; "installations"; "personal-access-token-requests"; "personal-access-tokens"] ->
    closedDoor ("orgs" :: o :: a :: rest).

(** The writes under a repository: its settings and deletion, branch protection, pull
    requests without their merge and update, workflow runs and their settings, issues, and
    its collaborators, rulesets and topics. None of them writes a file, a commit, a release
    or a ref of a repository that stays. *)
Inductive repoWrite : list string -> Prop :=
| rw_repo : repoWrite []
| rw_protection b sub : "protection" ∈ sub -> last sub <> Some "rename" -> repoWrite ("branches" :: b :: sub)
| rw_pulls : repoWrite ["pulls"]
| rw_pull n : isNumber n = true -> repoWrite ["pulls"; n]
| rw_pullComment c rest : repoWrite ("pulls" :: "comments" :: c :: rest)
| rw_pullPart n part rest : isNumber n = true -> part ∈ ["comments"; "requested_reviewers"; "reviews"] -> repoWrite ("pulls" :: n :: part :: rest)
| rw_actions res rest : res ∈ ["permissions"; "artifacts"; "cache"; "caches"; "jobs"; "runs"; "workflows"] -> repoWrite ("actions" :: res :: rest)
| rw_issues a rest : a ∈ ["assignees"; "issues"; "labels"; "milestones"] -> repoWrite (a :: rest)
| rw_admin a rest : a ∈ ["collaborators"; "rulesets"; "topics"] -> repoWrite (a :: rest).

(** The writes under an organisation: its settings, a new repository, packages, members. *)
Inductive orgWrite : list string -> Prop :=
| ow_org : orgWrite []
| ow_newRepo : orgWrite ["repos"]
| ow_packages rest : orgWrite ("packages" :: rest)
| ow_members a rest : a ∈ ["invitations"; "members"; "memberships"; "outside_collaborators"; "public_members"; "teams"] -> orgWrite (a :: rest).

(** The whole REST surface of a read, and of a write. *)
Inductive readRoute : list string -> Prop :=
| rr_repo o n sub : readRoute ("repos" :: o :: n :: sub)
| rr_org o sub : readRoute ("orgs" :: o :: sub)
| rr_packages u sub : readRoute ("users" :: u :: "packages" :: sub)
| rr_root : readRoute []
| rr_self : readRoute ["user"]
| rr_public r : r ∈ ["meta"; "octocat"; "rate_limit"; "versions"; "zen"] -> readRoute [r].
Inductive writeRoute : list string -> Prop :=
| wr_repo o n sub : repoWrite sub -> writeRoute ("repos" :: o :: n :: sub)
| wr_org o sub : orgWrite sub -> writeRoute ("orgs" :: o :: sub)
| wr_packages u sub : writeRoute ("users" :: u :: "packages" :: sub).

Lemma pulls_writes m sub : allowable (pullsCapability false m sub) = true -> at_ sub 0 = "pulls" -> repoWrite sub.
Proof.
  unfold pullsCapability. destruct sub as [|a [|n [|part rest]]]; cbn [length Nat.eqb]; change (at_ (?a :: ?l) 0) with a; intros H E; try (subst a).
  - done.
  - constructor.
  - change (at_ ["pulls"; n] 1) with n in H. destruct (String.eqb_spec n "comments"); [done|]. destruct (isNumber n) eqn:En; [|done]. by constructor.
  - change (at_ ("pulls" :: n :: part :: rest) 1) with n in H. change (at_ ("pulls" :: n :: part :: rest) 2) with part in H. destruct (String.eqb_spec n "comments") as [->|]; [constructor|].
    destruct (isNumber n) eqn:En; [|done]. cbn [negb andb orb] in H. destruct (memS part pullContentParts); [done|]. destruct (memS part pullWriteParts) eqn:Ep; [|done].
    apply rw_pullPart; [done|]. by apply memS_true in Ep.
Qed.

Lemma actions_writes m sub : allowable (actionsCapability false m sub) = true -> at_ sub 0 = "actions" -> repoWrite sub.
Proof.
  unfold actionsCapability. destruct sub as [|a [|res rest]]; intros H E; [done|by vm_compute in H|]. change (at_ (a :: res :: rest) 0) with a in E. subst a.
  change (at_ ("actions" :: res :: rest) 1) with res in H. cbn zeta in H. destruct (String.eqb_spec res "permissions") as [->|]; [apply rw_actions; left|]. cbn [andb] in H.
  destruct (memS res actionsReadResources) eqn:Em; [|done]. apply rw_actions. right. by apply memS_true in Em.
Qed.

Lemma repo_writes m sub : allowable (repoCapability false m sub) = true -> repoWrite sub.
Proof.
  unfold repoCapability. destruct sub as [|a sub]; [constructor|]. change (length (a :: sub) =? 0)%nat with false. cbn iota.
  destruct (deniedRepoArea (a :: sub)) as [c|] eqn:Ed; [intros H; apply deniedRepo_denied, denied_not_allowable in Ed; congruence|].
  change (at_ (a :: sub) 0) with a. cbn zeta. cbn [negb andb].
  destruct (String.eqb_spec a "branches") as [->|Hb]; cbn [andb].
  { destruct sub as [|b [|x sub]]; [by vm_compute|by vm_compute|]. change (2 <? length ("branches" :: b :: x :: sub))%nat with true. cbn [andb].
    assert (El : at_ ("branches" :: b :: x :: sub) (length ("branches" :: b :: x :: sub) - 1) = default "" (last (x :: sub))).
    { unfold at_. rewrite last_lookup. done. }
    rewrite El. destruct (String.eqb_spec (default "" (last (x :: sub))) "rename") as [|Hl]; [done|]. change (drop 2 ("branches" :: b :: x :: sub)) with (x :: sub).
    destruct (memS "protection" (x :: sub)) eqn:Ep; [|by vm_compute]. intros _. apply rw_protection; [by apply memS_true in Ep|]. intros El'. by rewrite El' in Hl. }
  destruct (String.eqb_spec a "pulls") as [->|Hp]; [intros H; by eapply pulls_writes|]. destruct (String.eqb_spec a "actions") as [->|Ha]; [intros H; by eapply actions_writes|].
  destruct (memS a issueAreas) eqn:Ei; [intros _; apply rw_issues; by apply memS_true in Ei|]. destruct (memS a adminWriteAreas) eqn:Ea; [intros _; apply rw_admin; by apply memS_true in Ea|].
  by destruct (_ || _).
Qed.

Lemma org_writes m sub : allowable (orgCapability false m sub) = true -> orgWrite sub.
Proof.
  unfold orgCapability. destruct (deniedOrgArea sub) as [c|] eqn:Ed; [intros H; apply deniedOrg_denied, denied_not_allowable in Ed; congruence|].
  destruct sub as [|a sub]; [constructor|]. rewrite !andb_false_r. change (length (a :: sub) =? 0)%nat with false. cbn [andb]. change (at_ (a :: sub) 0) with a.
  destruct (Nat.eqb_spec (length (a :: sub)) 1) as [E1|_]; cbn [andb].
  - destruct sub; [|done]. destruct (String.eqb_spec a "repos") as [->|]; [destruct (String.eqb m "POST"); [constructor|done]|]. cbn [andb].
    destruct (String.eqb_spec a "packages") as [->|]; [constructor|]. destruct (memS a orgMemberAreas) eqn:Em; [|done]. intros _. apply ow_members. by apply memS_true in Em.
  - destruct (String.eqb_spec a "packages") as [->|]; [constructor|]. destruct (memS a orgMemberAreas) eqn:Em; [|by rewrite andb_false_r]. intros _. apply ow_members. by apply memS_true in Em.
Qed.

(** An open route is none of the closed doors. *)
Lemma repo_no_door read m o n sub : allowable (repoCapability read m sub) = true -> ~ closedDoor ("repos" :: o :: n :: sub).
Proof.
  intros H D. assert (Hd : deniedRepoArea sub = None).
  { revert H. unfold repoCapability. destruct sub as [|a sub]; [done|]. change (length (a :: sub) =? 0)%nat with false. cbn iota.
    destruct (deniedRepoArea (a :: sub)) as [c|] eqn:Ed; [|done]. intros H; apply deniedRepo_denied, denied_not_allowable in Ed; congruence. }
  inversion D as [| | |? ? a rest Ha| | | | | | |]; subst; try done.
  - unfold deniedRepoArea in Hd. cbn zeta in Hd. change (at_ (a :: "secrets" :: rest) 0) with a in Hd. change (at_ (a :: "secrets" :: rest) 1) with "secrets" in Hd.
    rewrite !elem_of_cons, elem_of_nil in Ha. by destruct Ha as [->|[->|[->|[]]]].
Qed.

Lemma org_no_door read m o sub : allowable (orgCapability read m sub) = true -> ~ closedDoor ("orgs" :: o :: sub).
Proof.
  intros H D. assert (Hd : deniedOrgArea sub = None).
  { revert H. unfold orgCapability. destruct (deniedOrgArea sub) as [c|] eqn:Ed; [|done]. intros H; apply deniedOrg_denied, denied_not_allowable in Ed; congruence. }
  inversion D as [| | | | | | | |? a rest Ha| |? a rest Ha]; subst; try done.
  - rewrite !elem_of_cons, elem_of_nil in Ha. by destruct Ha as [->|[->|[->|[]]]].
  - rewrite !elem_of_cons, elem_of_nil in Ha. by destruct Ha as [->|[->|[->|[->|[->|[]]]]]].
Qed.

(** What a REST path that may be allowed looks like. *)
Lemma rest_routes read m segs v : classifyREST read m segs = inr v -> allowable (vCapability v) = true ->
  ~ closedDoor (texts segs) /\ readRoute (texts segs) /\ (read = false -> writeRoute (texts segs)).
Proof.
  unfold classifyREST. destruct segs as [|s rest]; [destruct read; intros [= <-] H; [split_and!; [by inversion 1|constructor|done]|done]|]. cbn zeta.
  change (texts (s :: rest)) with (text s :: texts rest). destruct (String.eqb_spec (text s) "repos") as [->|N1].
  { unfold classifyRepo. destruct rest as [|o [|n sub]]; [destruct read; by intros [= <-]..|]. destruct (repoOf o n) as [|[owner repo]]; [done|]. intros [= <-] H. cbn [vCapability] in H.
    change (texts (o :: n :: sub)) with (text o :: text n :: texts sub). split_and!; [by eapply repo_no_door|constructor|]. intros ->. constructor. by eapply repo_writes. }
  destruct (String.eqb_spec (text s) "orgs") as [->|N2].
  { unfold classifyOrg. destruct rest as [|o sub]; [destruct read; by intros [= <-]|]. destruct (ownerName o); [|done]. intros [= <-] H. cbn [vCapability] in H.
    change (texts (o :: sub)) with (text o :: texts sub). split_and!; [by eapply org_no_door|constructor|]. intros ->. constructor. by eapply org_writes. }
  assert (Hno : forall l, ~ closedDoor (text s :: l)) by (intros l D; inversion D; congruence).
  destruct (String.eqb_spec (text s) "user") as [Eu|N3].
  { unfold classifyUser. destruct read, rest as [|x rest]; cbn [andb length Nat.eqb]; intros [= <-] H; try done. split_and!; [done|rewrite Eu; constructor|done]. }
  destruct (String.eqb_spec (text s) "users") as [Eu|N4].
  { unfold classifyUsers. destruct rest as [|u [|a sub]]; [destruct read; by intros [= <-]..|]. destruct (String.eqb_spec (text a) "packages") as [Ea|]; cbn [negb]; [|destruct read; by intros [= <-]].
    destruct (ownerName u); [|done]. intros [= <-] H. change (texts (u :: a :: sub)) with (text u :: text a :: texts sub). rewrite Ea. split_and!; [apply Hno| |]; rewrite Eu; constructor. }
  destruct (String.eqb (text s) "graphql"); [by intros [= <-]|]. destruct (String.eqb (text s) "search"); [by intros [= <-]|]. destruct (memS (text s) deniedRoots); [by intros [= <-]|].
  destruct (memS (text s) accountRoots); [by intros [= <-]|]. destruct read; cbn [andb]; [|by intros [= <-]]. destruct rest as [|x rest]; [|by intros [= <-]]. cbn [length Nat.eqb andb].
  destruct (memS (text s) metadataRoots) eqn:Em; [|by intros [= <-]]. intros _ _. split_and!; [apply Hno|apply rr_public; by apply memS_true in Em|done].
Qed.

(** ** Names *)

Lemma ownerName_Some s o : ownerName s = Some o -> escaped s = false /\ text s = o /\ o <> "".
Proof.
  unfold ownerName. destruct (escaped s); [done|]. destruct (String.eqb_spec (text s) ""); [done|]. destruct (negb _); [done|]. intros [= <-]. done.
Qed.

Lemma repoName_Some s n : repoName s = Some n -> escaped s = false /\ TrimSuffix (text s) ".git" = n.
Proof. unfold repoName. destruct (escaped s); [done|]. cbn [orb]. destruct (_ || _); [done|]. intros [= <-]. done. Qed.

Lemma repoOf_Some o r owner repo :
  repoOf o r = inr (owner, repo) ->
  escaped o = false /\ escaped r = false /\ text o = owner /\ TrimSuffix (text r) ".git" = repo /\ owner <> "".
Proof.
  unfold repoOf. destruct (ownerName o) as [x|] eqn:Eo; [|done]. destruct (repoName r) as [y|] eqn:Er; [|done]. intros [= <- <-].
  apply ownerName_Some in Eo as (? & ? & ?). apply repoName_Some in Er as [? ?]. done.
Qed.

Lemma slash_nonempty a b : a +:+ "/" +:+ b <> "".
Proof. by destruct a. Qed.

Lemma nameByte_slash extra o : isNameText o extra = true -> str_has "/" extra = false -> str_has "/" o = false.
Proof.
  intros H He. unfold str_has. apply negb_false_iff. unfold isNameText in H. induction o as [|c o IH]; [done|]. cbn in *. apply andb_prop in H as [Hc H].
  rewrite IH by done. rewrite andb_true_r, negb_true_iff. destruct (Ascii.eqb_spec c "/") as [->|]; [|done]. unfold nameByte in Hc. rewrite He in Hc. done.
Qed.

(** The owner of a key is what stands before its slash. *)
Lemma key_owner o n : str_has "/" o = false -> cutByte "/" (o +:+ "/" +:+ n) = Some (o, n).
Proof.
  induction o as [|c o IH]; [done|]. rewrite str_has_cons. intros [Hc H]%orb_false_elim. rewrite str_app_cons. cbn [cutByte]. rewrite Hc, IH by done. done.
Qed.

(** ** Where a request points *)

(** The repository and the owner the segments of a path name, by position, on the git
    host and on the API's. *)
Inductive names (git : bool) : list segment -> Verdict -> Prop :=
| names_repo pre o r rest c :
    texts pre = (if git then [] else ["repos"]) -> escaped o = false -> escaped r = false -> text o <> "" ->
    names git (pre ++ o :: r :: rest) (mkVerdict c (text o +:+ "/" +:+ TrimSuffix (text r) ".git") (text o))
| names_owner a o rest c :
    text a = "orgs" \/ text a = "users" -> escaped o = false -> text o <> "" ->
    names git (a :: o :: rest) (mkVerdict c "" (text o))
| names_nothing segs c : names git segs (mkVerdict c "" "").

Lemma rest_names read m segs v : classifyREST read m segs = inr v -> names false segs v.
Proof.
  unfold classifyREST, classifyUser, onlyCap. destruct segs as [|s rest]; [intros [= <-]; constructor|].
  destruct (String.eqb_spec (text s) "repos") as [E|_].
  { unfold classifyRepo, onlyCap. destruct rest as [|o [|r sub]]; [intros [= <-]; constructor..|]. destruct (repoOf o r) as [|[owner repo]] eqn:Er; [done|].
    intros [= <-]. apply repoOf_Some in Er as (? & ? & <- & <- & ?). apply (names_repo false [s] o r sub); auto. cbn. by rewrite E. }
  destruct (String.eqb_spec (text s) "orgs") as [E|_].
  { unfold classifyOrg, onlyCap. destruct rest as [|o sub]; [intros [= <-]; constructor|]. destruct (ownerName o) as [org|] eqn:Eo; [|done].
    intros [= <-]. apply ownerName_Some in Eo as (? & <- & ?). apply names_owner; auto. }
  destruct (String.eqb (text s) "user"); [split_routes; intros [= <-]; constructor|].
  destruct (String.eqb_spec (text s) "users") as [E|_].
  { unfold classifyUsers, onlyCap. destruct rest as [|o [|a sub]]; [intros [= <-]; constructor..|]. destruct (negb _); [intros [= <-]; constructor|].
    destruct (ownerName o) as [org|] eqn:Eo; [|done]. intros [= <-]. apply ownerName_Some in Eo as (? & <- & ?). apply names_owner; auto. }
  split_routes; intros [= <-]; constructor.
Qed.

Lemma gitVerdict_Some service o r v : gitVerdict service o r = inr v ->
  assoc gitPackServices service = Some (vCapability v) /\ vRepo v <> "" /\ forall rest, names true (o :: r :: rest) v.
Proof.
  unfold gitVerdict. destruct (assoc gitPackServices service) as [c|]; [|done]. destruct (repoOf o r) as [|[owner repo]] eqn:Er; [done|].
  intros [= <-]. apply repoOf_Some in Er as (? & ? & <- & <- & ?). split_and!; [done|apply slash_nonempty|]. intros rest. by apply (names_repo true [] o r rest).
Qed.

(** A request of the git host: a handshake or a service that says which it is, or
    nothing anyone holds. *)
Lemma git_cases m segs q v : classifyGit m segs q = inr v ->
  names true segs v /\
  (v = onlyCap (unclassified (String.eqb m "GET")) \/
   exists service, assoc gitPackServices service = Some (vCapability v) /\ vRepo v <> "" /\
     ((m = "GET" /\ CutPrefix q "service=" = Some service) \/ (m = "POST" /\ (text <$> segs !! 2) = Some service))).
Proof.
  unfold classifyGit. destruct segs as [|o [|r [|s [|f [|]]]]]; try (intros [= <-]; split; [constructor|by left]).
  - destruct (assoc gitPackServices (text s)) eqn:Ea; [|intros [= <-]; split; [constructor|by left]]. destruct (String.eqb_spec m "POST"); [|done].
    intros (Hc & Hr & Hn)%gitVerdict_Some. split; [apply Hn|]. right. exists (text s). auto.
  - destruct (_ && _); [|intros [= <-]; split; [constructor|by left]]. destruct (String.eqb_spec m "GET"); [|done]. destruct (CutPrefix q _) as [service|] eqn:Eq; [|done].
    intros (Hc & Hr & Hn)%gitVerdict_Some. split; [apply Hn|]. right. exists service. auto.
Qed.

(** What may be asked without naming anyone. *)
Definition publicPath (p : list string) : Prop := p = [] \/ p = ["user"] \/ exists m, m ∈ metadataRoots /\ p = [m].

Lemma rest_unpinned read m segs v :
  classifyREST read m segs = inr v -> vRepo v = "" -> vOwner v = "" -> vCapability v = CapMetadata \/ Grantable (vCapability v) = true ->
  read = true /\ publicPath (texts segs).
Proof.
  unfold classifyREST, publicPath. destruct segs as [|s rest].
  { destruct read; intros [= <-]; [by auto|]. cbn. intros _ _ [|]; done. }
  destruct (String.eqb (text s) "repos").
  { unfold classifyRepo. destruct rest as [|o [|r sub]]; [destruct read; intros [= <-] _ _ [|]; done..|]. destruct (repoOf o r) as [|[owner repo]]; [done|].
    intros [= <-] H. by destruct (slash_nonempty _ _ H). }
  destruct (String.eqb (text s) "orgs").
  { unfold classifyOrg. destruct rest as [|o sub]; [destruct read; intros [= <-] _ _ [|]; done|]. destruct (ownerName o) as [org|] eqn:Eo; [|done].
    apply ownerName_Some in Eo as (_ & _ & Ho). intros [= <-] _ H. done. }
  destruct (String.eqb_spec (text s) "user") as [E|_].
  { unfold classifyUser. destruct (read && (length rest =? 0)%nat) eqn:Er; intros [= <-]; [|intros _ _ [|]; done]. apply andb_prop in Er as [-> Hl%Nat.eqb_eq].
    intros _ _ _. split; [done|]. right; left. destruct rest; [|done]. cbn. by rewrite E. }
  destruct (String.eqb (text s) "users").
  { unfold classifyUsers. destruct rest as [|o [|a sub]]; [destruct read; intros [= <-] _ _ [|]; done..|]. destruct (negb _); [destruct read; intros [= <-] _ _ [|]; done|].
    destruct (ownerName o) as [org|] eqn:Eo; [|done]. apply ownerName_Some in Eo as (_ & _ & Ho). intros [= <-] _ H. done. }
  destruct (String.eqb (text s) "graphql"); [intros [= <-] _ _ [|]; done|]. destruct (String.eqb (text s) "search"); [intros [= <-] _ _ [|]; done|].
  destruct (memS (text s) deniedRoots); [intros [= <-] _ _ [|]; done|]. destruct (memS (text s) accountRoots); [intros [= <-] _ _ [|]; done|].
  destruct (read && _ && _) eqn:Er; [|destruct read; intros [= <-] _ _ [|]; done]. intros _ _ _ _. apply andb_prop in Er as [[-> Hl%Nat.eqb_eq]%andb_prop Hm].
  split; [done|]. right; right. exists (text s). apply memS_true in Hm. split; [done|]. by destruct rest.
Qed.

Lemma rest_write m segs v : classifyREST false m segs = inr v -> readCap (vCapability v) = false.
Proof.
  unfold classifyREST, classifyUser. destruct segs as [|s rest]; [by intros [= <-]|].
  destruct (String.eqb (text s) "repos").
  { unfold classifyRepo. destruct rest as [|o [|r sub]]; [by intros [= <-]..|]. destruct (repoOf o r) as [|[owner repo]]; [done|]. intros [= <-]. apply repo_write. }
  destruct (String.eqb (text s) "orgs").
  { unfold classifyOrg. destruct rest as [|o sub]; [by intros [= <-]|]. destruct (ownerName o); [|done]. intros [= <-]. apply org_write. }
  destruct (String.eqb (text s) "user"); [by intros [= <-]|]. destruct (String.eqb (text s) "users").
  { unfold classifyUsers. destruct rest as [|o [|a sub]]; [by intros [= <-]..|]. destruct (negb _); [by intros [= <-]|]. destruct (ownerName o); [|done].
    intros [= <-]. apply packages_write. }
  cbn [andb]. split_routes; by intros [= <-].
Qed.

Section Gate.
Context {U : GoUnicode}.

Definition hostOf (req : Request) : string := ToLower (TrimSuffixDot (TrimSpace (Host req))).
Definition isGit (req : Request) : bool := negb (String.eqb (hostOf req) APIHost).

Lemma Classify_inv req v : Classify req = inr v ->
  exists read m segs, methodOf req = inr (read, m) /\ splitPath (Path req) = inr segs /\
    ((isGit req = false /\ classifyREST read m segs = inr v) \/
     (isGit req = true /\ hostOf req = GitHost /\ classifyGit m segs (RawQuery req) = inr v)).
Proof.
  unfold Classify, isGit, hostOf. destruct (methodOf req) as [|[read m]]; [done|]. destruct (splitPath (Path req)) as [|segs]; [done|]. intros H. exists read, m, segs. split_and!; [done..|].
  destruct (String.eqb _ APIHost); [by left|]. destruct (String.eqb_spec (ToLower (TrimSuffixDot (TrimSpace (Host req)))) GitHost); [by right|done].
Qed.

Lemma methodOf_read req m : methodOf req = inr (true, m) -> methodOf req = inr (true, "GET").
Proof. unfold methodOf. split_routes; try done; congruence. Qed.

Lemma methodOf_get req m : methodOf req = inr (false, m) -> m <> "GET".
Proof. unfold methodOf. split_routes; try done. intros [= <-] E. by rewrite E in *. Qed.

Lemma RepoKey_shape e key : RepoKey e = Some key -> exists o n, key = o +:+ "/" +:+ n /\ cutByte "/" key = Some (o, n).
Proof.
  unfold RepoKey. destruct (cutByte "/" _) as [[o n]|]; [|done]. destruct (ownerName _) as [owner|] eqn:Eo; [|done]. destruct (repoName _) as [name|] eqn:En; [|done].
  intros [= <-]. exists owner, name. split; [done|]. apply key_owner. unfold ownerName in Eo. cbn [text escaped orb] in Eo. destruct (String.eqb o ""); [done|]. cbn [orb] in Eo.
  destruct (isNameText o "-_") eqn:Hn; [|done]. injection Eo as <-. by eapply nameByte_slash.
Qed.

Lemma pinned_repo repos v : vRepo v <> "" -> pinned repos v = true -> exists e, e ∈ repos /\ RepoKey e = Some (vRepo v).
Proof.
  intros Hr. unfold pinned. destruct (String.eqb_spec (vRepo v) ""); [done|]. cbn [andb negb]. intros (e & He%list_elem_of_In & Hk)%existsb_exists. exists e.
  destruct (RepoKey e) as [key|]; [|done]. apply String.eqb_eq in Hk as ->. done.
Qed.

Lemma pinned_owner repos v : vRepo v = "" -> vOwner v <> "" -> pinned repos v = true -> exists e n, e ∈ repos /\ RepoKey e = Some (vOwner v +:+ "/" +:+ n).
Proof.
  intros Hr Hne. unfold pinned. rewrite Hr. destruct (String.eqb_spec (vOwner v) ""); [done|]. cbn [andb negb String.eqb]. intros (e & He%list_elem_of_In & Hk)%existsb_exists.
  destruct (RepoKey e) as [key|] eqn:Ek; [|done]. destruct (RepoKey_shape _ _ Ek) as (o & name & -> & Hc). rewrite Hc in Hk. apply String.eqb_eq in Hk as <-. exists e, name. done.
Qed.

Lemma Permits_inv granted repos v : Permits granted repos v = true ->
  pinned repos v = true /\ ((vCapability v = CapMetadata /\ existsb Grantable granted = true) \/ (Grantable (vCapability v) = true /\ vCapability v ∈ granted)).
Proof.
  unfold Permits. destruct (pinned repos v); [|done]. cbn [negb]. destruct (String.eqb_spec (vCapability v) CapMetadata); [by auto|].
  intros [? ?%memS_true]%andb_prop. auto.
Qed.

(** C24: a permitted request stays inside the run. What it needs was granted (metadata:
    to any run that was granted something), and it names, unescaped and at the
    position where GitHub reads it, a repository of the run, or an organisation or
    account that owns one; only a read of the API's root, of its public tables or of
    the person's own profile names nobody. *)
Theorem permitted_request_is_pinned granted repos req v segs :
  Classify req = inr v -> splitPath (Path req) = inr segs -> Permits granted repos v = true ->
  ((vCapability v = CapMetadata /\ existsb Grantable granted = true) \/ (Grantable (vCapability v) = true /\ vCapability v ∈ granted)) /\
  ((exists pre o r rest entry, segs = pre ++ o :: r :: rest /\ texts pre = (if isGit req then [] else ["repos"]) /\ escaped o = false /\ escaped r = false /\
      entry ∈ repos /\ RepoKey entry = Some (text o +:+ "/" +:+ TrimSuffix (text r) ".git")) \/
   (exists a o rest entry name, segs = a :: o :: rest /\ (text a = "orgs" \/ text a = "users") /\ escaped o = false /\
      entry ∈ repos /\ RepoKey entry = Some (text o +:+ "/" +:+ name)) \/
   (publicPath (texts segs) /\ methodOf req = inr (true, "GET"))).
Proof.
  intros Hc Hs Hp. apply Permits_inv in Hp as [Hpin Hcap]. split; [done|]. apply Classify_inv in Hc as (read & m & segs' & Hm & Hs' & Hc). assert (segs' = segs) as -> by congruence.
  assert (Hn : names (isGit req) segs v) by (destruct Hc as [[-> Hc]|(-> & _ & Hc)]; [by eapply rest_names|by eapply git_cases]).
  destruct Hn as [pre o r rest c Hpre Eo Er Ho | a o rest c Ha Eo Ho | segs c].
  - left. apply pinned_repo in Hpin as (e & He & Hk); [|exact (slash_nonempty (text o) (TrimSuffix (text r) ".git"))]. exists pre, o, r, rest, e. done.
  - right; left. apply pinned_owner in Hpin as (e & name & He & Hk); [|done|done]. exists a, o, rest, e, name. done.
  - right; right. destruct Hc as [[_ Hc]|(_ & _ & Hc)].
    + apply rest_unpinned in Hc as [-> Hpub]; [|done|done|destruct Hcap as [[? _]|[? _]]; auto]. split; [done|]. by apply (methodOf_read _ _ Hm).
    + apply git_cases in Hc as [_ [[= ->]|(service & _ & Hr & _)]]; [exfalso; destruct (String.eqb m "GET"), Hcap as [[? _]|[? _]]; done|].
      by destruct Hr.
Qed.

(** A run granted only reads never writes: with no capability but the reading ones,
    every permitted request is a GET or a HEAD, or the POST of a fetch on the git
    host, whose third segment is [git-upload-pack]. *)
Theorem read_only_run_never_writes granted repos req v :
  Classify req = inr v -> Permits granted repos v = true -> Forall (fun c => readCap c = true) granted ->
  methodOf req = inr (true, "GET") \/
  (isGit req = true /\ methodOf req = inr (false, "POST") /\ exists segs, splitPath (Path req) = inr segs /\ (text <$> segs !! 2) = Some "git-upload-pack").
Proof.
  intros Hc [_ Hcap]%Permits_inv Hg. assert (Hr : readCap (vCapability v) = true) by (destruct Hcap as [[-> _]|[_ Hin]]; [done|by rewrite Forall_forall in Hg; apply Hg]).
  apply Classify_inv in Hc as (read & m & segs & Hm & Hs & Hc). destruct read; [left; by eapply methodOf_read|]. right. destruct Hc as [[_ Hc]|(-> & _ & Hc)].
  - apply rest_write in Hc. congruence.
  - apply git_cases in Hc as [_ [->|(service & Ha & _ & [[-> _]|[-> Hsv]])]]; [by destruct (String.eqb m "GET")|by destruct (methodOf_get _ _ Hm)|].
    split_and!; [done..|]. exists segs. split; [done|]. rewrite Hsv. f_equal. apply assoc_elem in Ha.
    apply elem_of_cons in Ha as [[= -> _]|Ha]; [done|]. apply list_elem_of_singleton in Ha as [= _ E]. by rewrite E in Hr.
Qed.

(** C25: the REST surface of a run is closed, whatever was granted. A permitted request on
    the API host is one of the listed routes: a repository's, an organisation's, an
    account's packages, the caller's own name, or a public page; it is never one of the
    doors onto hooks, deploy keys, runners, tokens and secrets, of a repository or an
    organisation. A permitted write is one of the listed writes only: so it writes no
    contents, git data, release, import or merge, merges or updates no pull request and
    renames no branch; deleting the repository itself is on the list. *)
Theorem rest_surface_is_closed granted repos req v segs read m :
  Classify req = inr v -> Permits granted repos v = true -> isGit req = false -> methodOf req = inr (read, m) -> splitPath (Path req) = inr segs ->
  ~ closedDoor (texts segs) /\ readRoute (texts segs) /\ (read = false -> writeRoute (texts segs)).
Proof.
  intros Hc [_ Hcap]%Permits_inv Hg Hm Hs. apply Classify_inv in Hc as (read' & m' & segs' & Hm' & Hs' & [[_ Hc]|[? _]]); [|congruence].
  rewrite Hm in Hm'. injection Hm' as <- <-. rewrite Hs in Hs'. injection Hs' as <-. apply (rest_routes _ _ _ _ Hc). unfold allowable. by destruct Hcap as [[-> _]|[-> _]].
Qed.
End Gate.

(** ** The token *)

Definition asks (level : string) (perm : string) (c : Capability) : bool :=
  existsb (fun pl => String.eqb (fst pl) perm && String.eqb (snd pl) level) (permissionsOf c).

(** The level a permission ends at: write where some capability asks for it, read where
    one asks for that, and metadata is always read. *)
Definition joinLevel (caps : list Capability) (perm : string) : option string :=
  if existsb (asks levelWrite perm) caps then Some levelWrite
  else if existsb (asks levelRead perm) caps || String.eqb perm "metadata" then Some levelRead
  else None.

Definition levels (l : list (string * string)) : Prop := Forall (fun pl => snd pl = levelRead \/ snd pl = levelWrite) l.

Lemma raise_join l (out : gmap string string) perm :
  levels l -> (forall p lv, out !! p = Some lv -> lv = levelRead \/ lv = levelWrite) ->
  foldl raiseLevel out l !! perm =
    (if existsb (fun pl => String.eqb (fst pl) perm && String.eqb (snd pl) levelWrite) l then Some levelWrite
     else match out !! perm with
          | Some lv => Some lv
          | None => if existsb (fun pl => String.eqb (fst pl) perm && String.eqb (snd pl) levelRead) l then Some levelRead else None
          end).
Proof.
  revert out. induction l as [|[p lv] l IH]; intros out Hl Ho; cbn [foldl existsb fst snd]; [by destruct (out !! perm)|].
  inversion_clear Hl as [|? ? Hlv Hl']. cbn in Hlv.
  assert (Ho' : forall q lw, raiseLevel out (p, lv) !! q = Some lw -> lw = levelRead \/ lw = levelWrite).
  { intros q lw. unfold raiseLevel. cbn. destruct (_ || _); [|apply Ho]. intros [[_ <-]|[_ ?]]%lookup_insert_Some; [done|]. by eapply Ho. }
  rewrite (IH _ Hl' Ho'). unfold raiseLevel. cbn [fst snd]. destruct (String.eqb_spec p perm) as [->|Hne]; cbn [andb orb].
  - destruct Hlv as [-> | ->]; cbn [String.eqb orb].
    + change (String.eqb levelRead levelWrite) with false. cbn [orb]. destruct (existsb _ l); [done|]. destruct (out !! perm) as [lw|] eqn:Eo; cbn [default].
      * destruct (Ho _ _ Eo) as [-> | ->]; [change (String.eqb (id levelRead) "") with false|change (String.eqb (id levelWrite) "") with false]; cbv match; by rewrite Eo.
      * change (String.eqb "" "") with true. cbv match. by rewrite lookup_insert_eq.
    + change (String.eqb levelWrite levelWrite) with true. cbn [orb]. rewrite lookup_insert_eq. by destruct (existsb _ l).
  - by destruct (_ || _); rewrite ?lookup_insert_ne by done.
Qed.

Lemma permissions_levels c : levels (permissionsOf c).
Proof.
  unfold permissionsOf. destruct (assoc capabilityPermissions c) as [l|] eqn:E; [|constructor]. apply assoc_elem in E. cbn [default].
  unfold capabilityPermissions in E. repeat (apply elem_of_cons in E as [[= -> ->]|E]; [repeat (constructor; cbn; auto)|]). by apply not_elem_of_nil in E.
Qed.

Lemma loop_join caps (out : gmap string string) m :
  permissionsLoop caps out = inr m -> (forall p lv, out !! p = Some lv -> lv = levelRead \/ lv = levelWrite) ->
  forall perm, m !! perm =
    (if existsb (asks levelWrite perm) caps then Some levelWrite
     else match out !! perm with Some lv => Some lv | None => if existsb (asks levelRead perm) caps then Some levelRead else None end).
Proof.
  revert out. induction caps as [|c caps IH]; intros out; cbn [permissionsLoop existsb]; [intros [= <-] _ perm; by destruct (out !! perm)|].
  destruct (Grantable c); [|done]. cbn [negb]. intros H Ho perm. pose proof (raise_join (permissionsOf c) out) as Hr.
  rewrite (IH _ H).
  - rewrite Hr by (apply permissions_levels || done). fold (asks levelWrite perm c) (asks levelRead perm c). destruct (asks levelWrite perm c), (existsb (asks levelWrite perm) caps); cbn [orb]; try done.
    destruct (out !! perm); [done|]. by destruct (asks levelRead perm c).
  - intros p lv. rewrite Hr by (apply permissions_levels || done). destruct (existsb _ _); [intros [= <-]; by right|]. destruct (out !! p) eqn:Ep; [intros [= <-]; by eapply Ho|].
    destruct (existsb _ _); [intros [= <-]; by left|done].
Qed.

Lemma loop_ok caps out : (exists m, permissionsLoop caps out = inr m) <-> Forall (fun c => Grantable c = true) caps.
Proof.
  revert out. induction caps as [|c caps IH]; intros out; cbn [permissionsLoop].
  - split; [done|eauto].
  - destruct (Grantable c) eqn:E; cbn [negb].
    + rewrite IH, Forall_cons. tauto.
    + split; [intros [m H]; done|]. rewrite Forall_cons. intros [? _]. congruence.
Qed.

(** The permissions no token ever asks for. *)
Definition neverAsked : list string := ["secrets"; "organization_secrets"; "repository_hooks"; "organization_hooks"; "environments"; "organization_self_hosted_runners"].

Lemma table_never level perm c : perm ∈ neverAsked -> asks level perm c = false.
Proof.
  intros Hp. unfold asks, permissionsOf. destruct (assoc capabilityPermissions c) as [l|] eqn:E; [|done]. apply assoc_elem in E. cbn [default].
  unfold neverAsked in Hp. repeat (apply elem_of_cons in Hp as [->|Hp]; [unfold capabilityPermissions in E; repeat (apply elem_of_cons in E as [[= -> ->]|E]; [reflexivity|]); by apply not_elem_of_nil in E|]).
  by apply not_elem_of_nil in Hp.
Qed.

(** The token is the join of what was granted. [PermissionsFor] succeeds exactly on
    grantable capabilities, and then lists each permission at the highest level one of
    them asks for, metadata at read, and nothing else: it is never empty (which GitHub
    would read as everything) and never names a secret's or a webhook's permission. *)
Theorem token_is_the_join caps :
  ((exists m, PermissionsFor caps = inr m) <-> Forall (fun c => Grantable c = true) caps) /\
  forall m, PermissionsFor caps = inr m ->
    (forall perm, m !! perm = joinLevel caps perm) /\ m <> ∅ /\ Forall (fun perm => m !! perm = None) neverAsked.
Proof.
  split; [apply loop_ok|]. intros m Hm.
  assert (Hj : forall perm, m !! perm = joinLevel caps perm).
  { intros perm. unfold joinLevel. rewrite (loop_join _ _ _ Hm).
    - destruct (existsb (asks levelWrite perm) caps); [done|]. destruct (String.eqb_spec perm "metadata") as [->|Hne].
      + rewrite orb_true_r. done.
      + rewrite lookup_singleton_ne by done. by rewrite orb_false_r.
    - intros p lv [_ <-]%lookup_singleton_Some. by left. }
  assert (Hnever : forall level perm, perm ∈ neverAsked -> existsb (asks level perm) caps = false).
  { intros level perm Hp. destruct (existsb _ caps) eqn:E; [|done]. apply existsb_exists in E as (c & _ & Hc). by rewrite (table_never level perm c Hp) in Hc. }
  split_and!; [done| |].
  - intros ->. specialize (Hj "metadata"). unfold joinLevel in Hj. rewrite orb_true_r in Hj. rewrite lookup_empty in Hj. by destruct (existsb _ _).
  - apply Forall_forall. intros perm Hp. rewrite Hj. unfold joinLevel. rewrite !Hnever by done. unfold neverAsked in Hp.
    repeat (apply elem_of_cons in Hp as [->|Hp]; [done|]). by apply not_elem_of_nil in Hp.
Qed.

(** ** The closed set *)

Lemma packages_valid read m sub : capValid (packagesCapability read m sub) = true.
Proof. unfold packagesCapability. split_routes; reflexivity. Qed.

Lemma org_valid read m sub : capValid (orgCapability read m sub) = true.
Proof.
  unfold orgCapability. destruct (deniedOrgArea sub) as [c|] eqn:E; [by apply denied_apart, (deniedOrg_denied sub)|].
  destruct read; split_routes; try reflexivity; apply packages_valid.
Qed.

Lemma repo_valid read m sub : capValid (repoCapability read m sub) = true.
Proof.
  unfold repoCapability. destruct (length sub =? 0)%nat; [split_routes; reflexivity|].
  destruct (deniedRepoArea sub) as [c|] eqn:E; [by apply denied_apart, (deniedRepo_denied sub)|].
  unfold pullsCapability. destruct read.
  - unfold actionsCapability. split_routes; reflexivity.
  - pose proof (proj2 (actions_write m sub)) as Ha. split_routes; try reflexivity; exact Ha.
Qed.

(** The classification is closed: whatever is asked, an answer that is not a refusal
    is one of the catalogue's capabilities, and a request it does not recognise is one
    no run can be granted. *)
Theorem classified_in_the_closed_set `{U : GoUnicode} req v :
  Classify req = inr v ->
  capValid (vCapability v) = true /\ (Grantable (vCapability v) = false -> vCapability v <> CapMetadata -> forall granted repos, Permits granted repos v = false).
Proof.
  intros Hc. split.
  - apply Classify_inv in Hc as (read & m & segs & _ & _ & [[_ Hc]|(_ & _ & Hc)]).
    + revert Hc. unfold classifyREST, classifyUser. destruct segs as [|s rest]; [destruct read; by intros [= <-]|].
      destruct (String.eqb (text s) "repos").
      { unfold classifyRepo. destruct rest as [|o [|r sub]]; [destruct read; by intros [= <-]..|]. destruct (repoOf o r) as [|[owner repo]]; [done|]. intros [= <-]. apply repo_valid. }
      destruct (String.eqb (text s) "orgs").
      { unfold classifyOrg. destruct rest as [|o sub]; [destruct read; by intros [= <-]|]. destruct (ownerName o); [|done]. intros [= <-]. apply org_valid. }
      destruct (String.eqb (text s) "user"); [split_routes; by intros [= <-]|]. destruct (String.eqb (text s) "users").
      { unfold classifyUsers. destruct rest as [|o [|a sub]]; [destruct read; by intros [= <-]..|]. destruct (negb _); [destruct read; by intros [= <-]|].
        destruct (ownerName o); [|done]. intros [= <-]. apply packages_valid. }
      destruct read; split_routes; by intros [= <-].
    + apply git_cases in Hc as [_ [->|(service & Ha & _)]]; [by destruct (String.eqb m "GET")|]. apply assoc_elem in Ha.
      apply elem_of_cons in Ha as [[= _ ->]|Ha]; [done|]. apply list_elem_of_singleton in Ha as [= _ ->]. done.
  - intros Hg Hm granted repos. unfold Permits. destruct (pinned repos v); [|done]. apply String.eqb_neq in Hm. by rewrite Hm, Hg.
Qed.

(** ** Witnesses *)

Definition ask (method host path query : string) : Request := mkRequest method host path query [].
Definition runRepos : list string := ["Acme/Web.git"].

Lemma permitted_request_is_pinned_witness :
  let req := ask "get" "API.github.com." "/repos/ACME/web/contents/a%20b" "" in
  exists v segs, @Classify asciiTables req = inr v /\ @splitPath asciiTables (Path req) = inr segs /\ @Permits asciiTables [CapCodeRead] runRepos v = true /\
    ((vCapability v = CapMetadata /\ existsb Grantable [CapCodeRead] = true) \/ (Grantable (vCapability v) = true /\ vCapability v ∈ [CapCodeRead])) /\
    @Permits asciiTables [CapCodeRead] ["acme/other"] v = false.
Proof.
  do 2 eexists. split_and!; [by vm_compute|by vm_compute|by vm_compute| |by vm_compute].
  eapply (@permitted_request_is_pinned asciiTables [CapCodeRead] runRepos (ask "get" "API.github.com." "/repos/ACME/web/contents/a%20b" "")); by vm_compute.
Defined.

Lemma read_only_run_never_writes_witness :
  let req := ask "POST" "github.com" "/acme/web.git/git-upload-pack" "" in
  (exists v, @Classify asciiTables req = inr v /\ @Permits asciiTables [CapCodeRead] runRepos v = true) /\
  (@methodOf asciiTables req = inr (true, "GET") \/
   (@isGit asciiTables req = true /\ @methodOf asciiTables req = inr (false, "POST") /\
    exists segs, @splitPath asciiTables (Path req) = inr segs /\ (text <$> segs !! 2) = Some "git-upload-pack")).
Proof.
  split; [eexists; split; by vm_compute|].
  eapply (@read_only_run_never_writes asciiTables [CapCodeRead] runRepos (ask "POST" "github.com" "/acme/web.git/git-upload-pack" "")); [by vm_compute..|by constructor].
Defined.

Definition seg (s : string) : segment := mkSegment s false.

Lemma rest_surface_is_closed_witness :
  let req := ask "POST" "api.github.com" "/repos/acme/web/pulls" "" in
  (exists v, @Classify asciiTables req = inr v /\ @Permits asciiTables [CapPR] runRepos v = true) /\ writeRoute ["repos"; "acme"; "web"; "pulls"].
Proof.
  split; [eexists; split; by vm_compute|].
  apply (@rest_surface_is_closed asciiTables [CapPR] runRepos (ask "POST" "api.github.com" "/repos/acme/web/pulls" "") (mkVerdict CapPR "acme/web" "acme")
    [seg "repos"; seg "acme"; seg "web"; seg "pulls"] false "POST"); by vm_compute.
Defined.

Lemma classified_in_the_closed_set_witness :
  let req := ask "POST" "api.github.com" "/repos/acme/web/dispatches" "" in
  @Classify asciiTables req = inr (mkVerdict CapUnclassifiedWrite "acme/web" "acme") /\ capValid CapUnclassifiedWrite = true.
Proof.
  split; [by vm_compute|].
  eapply (@classified_in_the_closed_set asciiTables (ask "POST" "api.github.com" "/repos/acme/web/dispatches" "") (mkVerdict CapUnclassifiedWrite "acme/web" "acme")). by vm_compute.
Defined.
