(* ===== verification/WireFrame.v ===== *)
(** * Frames between the organisation's hub and a runner

    [frame.go] of [src/internal/runnerwire] and the fixed-width payloads of
    [payload.go]: the 20-byte header, the rules of each frame type, and the codec. *)
From S2P Require Import Prelude GoStrings SecretMask.
Local Open Scope Z_scope.
Local Open Scope list_scope.

(** ** Big-endian integers ([encoding/binary]) *)

Definition byteAt (v : Z) : ascii := ascii_of_N (Z.to_N (Z.land v 255)).

(** The low [n] bytes of [v], most significant first. *)
Fixpoint putUint (n : nat) (v : Z) : bytes :=
  match n with O => [] | S n => putUint n (Z.shiftr v 8) ++ [byteAt v] end.

Definition uintOf (b : bytes) : Z := foldl (fun acc c => acc * 256 + byte_of c) 0 b.

(** ** Types *)

Definition TypeHello : Z := 1.
Definition TypeAuth : Z := 2.
Definition TypeAuthOK : Z := 3.
Definition TypeRevoked : Z := 4.
Definition TypeGoaway : Z := 5.
Definition TypePending : Z := 6.
Definition TypeState : Z := 7.
Definition TypeReady : Z := 8.
Definition TypeCall : Z := 9.
Definition TypeReply : Z := 10.
Definition TypeEvent : Z := 11.
Definition TypeLease : Z := 12.
Definition TypeOpen : Z := 13.
Definition TypeOpenOK : Z := 14.
Definition TypeData : Z := 15.
Definition TypeWindow : Z := 16.
Definition TypeClose : Z := 17.
Definition TypeReset : Z := 18.
Definition TypeAck : Z := 19.
Definition TypePing : Z := 20.
Definition TypePong : Z := 21.
Definition TypeCurrentActivity : Z := 22.
Definition typeEnd : Z := 23.

Definition HeaderLen : nat := 20.
Definition MaxControlFrame : Z := Z.shiftl 1 20.
Definition MaxDataFrame : Z := Z.shiftl 64 10.

Inductive streamRule := streamZero | streamAny | streamNonZero.
Inductive direction := dirEither | dirOrgToRunner | dirRunnerToOrg.
Record typeSpec := mkTypeSpec { seqd : bool; streamOf : streamRule; dir : direction }.

(** The rows of the table from HELLO to CURRENT_ACTIVITY; row 0 is the zero value. *)
Definition specs : list typeSpec :=
  [mkTypeSpec false streamZero dirEither;
   mkTypeSpec false streamZero dirOrgToRunner; mkTypeSpec false streamZero dirRunnerToOrg; mkTypeSpec false streamZero dirOrgToRunner;
   mkTypeSpec false streamZero dirOrgToRunner; mkTypeSpec false streamZero dirOrgToRunner; mkTypeSpec true streamZero dirOrgToRunner;
   mkTypeSpec true streamZero dirRunnerToOrg; mkTypeSpec true streamZero dirRunnerToOrg; mkTypeSpec true streamNonZero dirEither;
   mkTypeSpec true streamNonZero dirEither; mkTypeSpec true streamZero dirRunnerToOrg; mkTypeSpec true streamZero dirOrgToRunner;
   mkTypeSpec false streamNonZero dirEither; mkTypeSpec false streamNonZero dirEither; mkTypeSpec false streamNonZero dirEither;
   mkTypeSpec false streamAny dirEither; mkTypeSpec false streamNonZero dirEither; mkTypeSpec false streamNonZero dirEither;
   mkTypeSpec false streamZero dirEither; mkTypeSpec false streamZero dirEither; mkTypeSpec false streamZero dirEither;
   mkTypeSpec false streamZero dirRunnerToOrg].

Definition typeValid (t : Z) : bool := (0 <? t) && (t <? typeEnd).
Definition specOf (t : Z) : typeSpec := default (mkTypeSpec false streamZero dirEither) (specs !! Z.to_nat t).
Definition Sequenced (t : Z) : bool := typeValid t && seqd (specOf t).
Definition AllowedFrom (t : Z) (org : bool) : bool :=
  if negb (typeValid t) then false
  else match dir (specOf t) with dirOrgToRunner => org | dirRunnerToOrg => negb org | dirEither => true end.

(** ** Frames *)

Record Frame := mkFrame { fType : Z; fFlags : Z; fStream : Z; fSeq : Z; fPayload : bytes }.

Inductive frameError := ErrFrameTooLarge | ErrBadFrame | ErrEOF | ErrUnexpectedEOF.

Definition maxPayload (t : Z) : Z := if t =? TypeData then MaxDataFrame else MaxControlFrame.
Definition plen (f : Frame) : Z := Z.of_nat (length (fPayload f)).

(** [None] is Go's nil error. *)
Definition Validate (f : Frame) : option frameError :=
  if negb (typeValid (fType f)) then Some ErrBadFrame
  else if maxPayload (fType f) <? plen f then Some ErrFrameTooLarge
  else
    let spec := specOf (fType f) in
    if negb (Bool.eqb (seqd spec) (negb (fSeq f =? 0))) then Some ErrBadFrame
    else match streamOf spec with
         | streamZero => if negb (fStream f =? 0) then Some ErrBadFrame else None
         | streamNonZero => if fStream f =? 0 then Some ErrBadFrame else None
         | streamAny => None
         end.

(** The conversions to the header's fixed widths are [putUint]'s. *)
Definition header (f : Frame) : bytes :=
  putUint 1 (fType f) ++ putUint 1 (fFlags f) ++ putUint 2 0 ++ putUint 4 (fStream f) ++ putUint 8 (fSeq f) ++ putUint 4 (plen f).

Definition Encode (f : Frame) (dst : bytes) : frameError + bytes :=
  match Validate f with Some e => inl e | None => inr (dst ++ header f ++ fPayload f) end.

(** [io.ReadFull] of [n] bytes: nothing at all is EOF, too few is another error. *)
Definition ReadFull (n : nat) (r : bytes) : frameError + (bytes * bytes) :=
  if (n <=? length r)%nat then inr (take n r, drop n r)
  else inl (if (length r =? 0)%nat then ErrEOF else ErrUnexpectedEOF).

Definition field (from n : nat) (h : bytes) : bytes := take n (drop from h).

Definition ReadFrame (r : bytes) : frameError + (Frame * bytes) :=
  match ReadFull HeaderLen r with
  | inl e => inl e
  | inr (h, r) =>
      let t := uintOf (field 0 1 h) in
      if negb (uintOf (field 2 2 h) =? 0) then inl ErrBadFrame
      else if negb (typeValid t) then inl ErrBadFrame
      else
        let n := uintOf (field 16 4 h) in
        if maxPayload t <? n then inl ErrFrameTooLarge
        else
          match ReadFull (Z.to_nat n) r with
          | inl _ => inl ErrUnexpectedEOF
          | inr (payload, r) =>
              let f := mkFrame t (uintOf (field 1 1 h)) (uintOf (field 4 4 h)) (uintOf (field 8 8 h)) payload in
              match Validate f with Some e => inl e | None => inr (f, r) end
          end
  end.

Definition Decode (b : bytes) : frameError + Frame :=
  match ReadFrame b with
  | inl e => inl e
  | inr (f, r) => if (length r =? 0)%nat then inr f else inl ErrBadFrame
  end.

(** ** Fixed-width payloads ([payload.go]) *)

Definition EncodeWindow (n : Z) : bytes := putUint 4 n.
Definition EncodeReset (code : Z) : bytes := putUint 4 code.
Definition EncodeAck (seq : Z) : bytes := putUint 8 seq.
Definition fixed32 (p : bytes) : frameError + Z := if negb (length p =? 4)%nat then inl ErrBadFrame else inr (uintOf p).
Definition DecodeWindow (p : bytes) : frameError + Z := fixed32 p.
Definition DecodeReset (p : bytes) : frameError + Z := fixed32 p.
Definition DecodeAck (p : bytes) : frameError + Z := if negb (length p =? 8)%nat then inl ErrBadFrame else inr (uintOf p).

(** ** Identifiers ([session.go]) *)

Definition NewIDAllocator (org : bool) : Z := if org then 2 else 1.
(** The id and the next one, a [uint32]. *)
Definition Next (next : Z) : Z * Z := (next, (next + 2) mod 2 ^ 32).
Definition InitiatedByOrg (id : Z) : option bool := if id =? 0 then None else Some (id mod 2 =? 0).

(** ** Lemmas *)

Lemma byteAt_byte v : byte_of (byteAt v) = v mod 256.
Proof.
  unfold byteAt, byte_of. change 255 with (Z.ones 8). rewrite Z.land_ones by lia. change (2 ^ 8) with 256.
  rewrite N_ascii_embedding; [rewrite Z2N.id; [done|]; apply Z.mod_pos_bound; lia|].
  pose proof (Z.mod_pos_bound v 256 ltac:(lia)). lia.
Qed.

Lemma octet_range c : 0 <= byte_of c < 256.
Proof. unfold byte_of. pose proof (N_ascii_bounded c). lia. Qed.

Lemma byteAt_of c : byteAt (byte_of c) = c.
Proof.
  unfold byteAt, byte_of. change 255 with (Z.ones 8). rewrite Z.land_ones by lia. change (2 ^ 8) with 256. pose proof (octet_range c) as H. unfold byte_of in H.
  rewrite Z.mod_small by lia. rewrite N2Z.id. apply ascii_N_embedding.
Qed.

Lemma length_putUint n v : length (putUint n v) = n.
Proof. revert v. induction n as [|n IH]; intros v; cbn; [done|]. rewrite length_app, IH. cbn. lia. Qed.

Lemma uintOf_snoc b c : uintOf (b ++ [c]) = uintOf b * 256 + byte_of c.
Proof. unfold uintOf. by rewrite foldl_app. Qed.

Lemma uint_put n v : 0 <= v -> uintOf (putUint n v) = v mod 256 ^ Z.of_nat n.
Proof.
  revert v. induction n as [|n IH]; intros v Hv; [by rewrite Z.mod_1_r|]. cbn [putUint]. rewrite uintOf_snoc, IH, byteAt_byte by (apply Z.shiftr_nonneg; done).
  rewrite Z.shiftr_div_pow2 by lia. change (2 ^ 8) with 256. rewrite Nat2Z.inj_succ, Z.pow_succ_r by lia. rewrite (Z.rem_mul_r v 256 (256 ^ Z.of_nat n)) by lia. lia.
Qed.

Lemma uint_bound b : 0 <= uintOf b < 256 ^ Z.of_nat (length b).
Proof.
  induction b as [|c b IH] using rev_ind; [cbn; lia|]. rewrite uintOf_snoc, length_app. cbn [length]. rewrite Nat2Z.inj_add, Z.pow_add_r by lia.
  change (256 ^ Z.of_nat 1) with 256. pose proof (octet_range c). nia.
Qed.

Lemma put_uint b n : length b = n -> putUint n (uintOf b) = b.
Proof.
  revert n. induction b as [|c b IH] using rev_ind; intros n; [by intros <-|]. rewrite length_app. cbn [length]. intros <-. rewrite Nat.add_1_r. cbn [putUint].
  rewrite uintOf_snoc. pose proof (octet_range c). f_equal.
  - rewrite Z.shiftr_div_pow2 by lia. change (2 ^ 8) with 256. rewrite Z.div_add_l by lia. rewrite (Z.div_small (byte_of c)) by lia. rewrite Z.add_0_r. by apply IH.
  - f_equal. rewrite <- (byteAt_of c) at 2. unfold byteAt. change 255 with (Z.ones 8). rewrite !Z.land_ones by lia. change (2 ^ 8) with 256.
    rewrite Z.add_comm, Z_mod_plus_full. done.
Qed.

(** A frame whose numbers fit their fields. *)
Definition fits (f : Frame) : Prop := 0 <= fType f < 256 /\ 0 <= fFlags f < 256 /\ 0 <= fStream f < 2 ^ 32 /\ 0 <= fSeq f < 2 ^ 64.

Lemma length_header f : length (header f) = HeaderLen.
Proof. unfold header. by rewrite !length_app, !length_putUint. Qed.

Lemma field_app a b c : field (length a) (length b) (a ++ b ++ c) = b.
Proof. unfold field. by rewrite drop_app_length, take_app_length. Qed.

(** The field that begins at [from], where [before] is what stands before it. *)
Lemma field_at before n v after from k :
  length before = from -> n = k -> field from k (before ++ putUint n v ++ after) = putUint n v.
Proof. intros <- <-. rewrite <- (length_putUint n v) at 1. apply field_app. Qed.

Lemma header_fields f : let h := header f in
  field 0 1 h = putUint 1 (fType f) /\ field 1 1 h = putUint 1 (fFlags f) /\ field 2 2 h = putUint 2 0 /\ field 4 4 h = putUint 4 (fStream f) /\
  field 8 8 h = putUint 8 (fSeq f) /\ field 16 4 h = putUint 4 (plen f).
Proof. by vm_compute. Qed.

Lemma header_of_fields h : length h = HeaderLen ->
  h = field 0 1 h ++ field 1 1 h ++ field 2 2 h ++ field 4 4 h ++ field 8 8 h ++ field 16 4 h.
Proof. intros H. do 20 (destruct h as [|? h]; [done|]). by destruct h. Qed.

Lemma Validate_type f : Validate f = None -> typeValid (fType f) = true /\ plen f <= maxPayload (fType f).
Proof.
  unfold Validate. destruct (typeValid (fType f)); [|done]. cbn [negb]. destruct (maxPayload (fType f) <? plen f) eqn:E; [done|]. intros _. apply Z.ltb_ge in E. done.
Qed.

Lemma maxPayload_max t : maxPayload t < 2 ^ 32.
Proof. unfold maxPayload. destruct (_ =? _); by vm_compute. Qed.

Lemma read_encoded f rest : Validate f = None -> fits f -> ReadFrame (header f ++ fPayload f ++ rest) = inr (f, rest).
Proof.
  intros Hv (Ht & Hf & Hs & Hq). destruct (Validate_type f Hv) as [Htv Hl]. pose proof (maxPayload_max (fType f)) as Hm. pose proof (length_header f) as Hh.
  unfold ReadFrame, ReadFull at 1. rewrite length_app, Hh, (proj2 (Nat.leb_le _ _)) by lia. rewrite (take_app_length' _ _ HeaderLen), (drop_app_length' _ _ HeaderLen) by done.
  destruct (header_fields f) as (-> & -> & -> & -> & -> & ->). rewrite !uint_put by (unfold plen in *; lia). change (Z.of_nat 1) with 1. change (Z.of_nat 2) with 2. change (Z.of_nat 4) with 4. change (Z.of_nat 8) with 8.
  rewrite !(Z.mod_small _ (256 ^ 1)), (Z.mod_small 0), !(Z.mod_small _ (256 ^ 4)), (Z.mod_small _ (256 ^ 8)) by (unfold plen in *; lia).
  rewrite Htv. cbn [negb Z.eqb]. rewrite (proj2 (Z.ltb_ge _ _)) by lia. unfold ReadFull, plen. rewrite Nat2Z.id, length_app, (proj2 (Nat.leb_le _ _)) by lia.
  rewrite take_app_length, drop_app_length. destruct f as [t fl st sq p]. cbn [fType fFlags fStream fSeq fPayload] in *. by rewrite Hv.
Qed.

(** C23: the codec is a bijection: a frame that passes [Validate] is encoded, and decoding
    what was written gives it back; a message that decodes holds a valid frame whose
    numbers fit, and is that frame's one encoding, byte for byte. *)
Theorem frame_codec_is_a_bijection f b :
  (fits f -> Validate f = None -> exists w, Encode f [] = inr w /\ Decode w = inr f) /\
  (Decode b = inr f -> Validate f = None /\ fits f /\ Encode f [] = inr b).
Proof.
  split.
  - intros Hf Hv. unfold Encode. rewrite Hv. eexists. split; [done|]. unfold Decode. cbn [app]. rewrite <- (app_nil_r (fPayload f)), read_encoded by done. done.
  - unfold Decode. destruct (ReadFrame b) as [|[f' r]] eqn:E; [done|]. destruct (Nat.eqb_spec (length r) 0) as [Hr%nil_length_inv|]; [|done]. intros [= ->]. subst r.
    revert E. unfold ReadFrame, ReadFull at 1. destruct (Nat.leb_spec HeaderLen (length b)) as [Hb|]; [|done]. set (h := take HeaderLen b). set (r := drop HeaderLen b).
    assert (Hh : length h = HeaderLen) by (unfold h; rewrite length_take; lia). destruct (Z.eqb_spec (uintOf (field 2 2 h)) 0) as [H0|]; [|done]. cbn [negb].
    destruct (typeValid (uintOf (field 0 1 h))); [|done]. cbn [negb]. destruct (maxPayload _ <? _); [done|]. unfold ReadFull. destruct (Nat.leb_spec (Z.to_nat (uintOf (field 16 4 h))) (length r)) as [Hn|]; [|done].
    set (p := take _ r). set (g := mkFrame _ _ _ _ p). destruct (Validate g) eqn:Hv; [done|]. intros [= <- Hd].
    assert (Hlen : forall from n, (from + n <= HeaderLen)%nat -> length (field from n h) = n) by (intros from n H; unfold field; rewrite length_take, length_drop, Hh; lia).
    assert (Hp : plen g = uintOf (field 16 4 h)).
    { unfold plen, g, p. cbn [fPayload]. rewrite length_take, Nat.min_l by lia. rewrite Z2Nat.id; [done|]. apply uint_bound. }
    split_and!; [done| |].
    + unfold fits, g. cbn [fType fFlags fStream fSeq].
      pose proof (uint_bound (field 0 1 h)) as B1. pose proof (uint_bound (field 1 1 h)) as B2. pose proof (uint_bound (field 4 4 h)) as B3. pose proof (uint_bound (field 8 8 h)) as B4.
      rewrite !Hlen in B1, B2, B3, B4 by (unfold HeaderLen; lia). auto.
    + unfold Encode. rewrite Hv. cbn [app]. f_equal. unfold header. rewrite Hp. unfold g. cbn [fType fFlags fStream fSeq fPayload]. rewrite <- H0.
      rewrite !put_uint by (apply Hlen; unfold HeaderLen; lia). rewrite <- !app_assoc. 
      assert (Ep : p = r) by (unfold p; rewrite <- (take_drop (Z.to_nat (uintOf (field 16 4 h))) r) at 2; by rewrite Hd, app_nil_r).
      rewrite Ep, <- (take_drop HeaderLen b). fold h r. rewrite (header_of_fields h Hh) at 7. by rewrite <- !app_assoc.
Qed.

Lemma frame_codec_is_a_bijection_witness :
  let f := mkFrame TypeAck 0 0 0 (EncodeAck 513) in
  Validate f = None /\ (exists w, Encode f [] = inr w /\ Decode w = inr f) /\ DecodeAck (fPayload f) = inr 513 /\
  Decode (header f) = inl ErrUnexpectedEOF.
Proof.
  split_and!; [done| |done|by vm_compute].
  apply (frame_codec_is_a_bijection (mkFrame TypeAck 0 0 0 (EncodeAck 513)) []); [|done]. unfold fits. by vm_compute.
Defined.

(** The sides never allocate the same id, and an id names the side that made it, as long
    as the ids have not wrapped around. *)
Lemma ids_apart org (n : nat) : 2 * Z.of_nat n + NewIDAllocator org < 2 ^ 32 ->
  fst (Next (Nat.iter n (fun x => snd (Next x)) (NewIDAllocator org))) = 2 * Z.of_nat n + NewIDAllocator org /\
  InitiatedByOrg (2 * Z.of_nat n + NewIDAllocator org) = Some org.
Proof.
  intros Hb. assert (0 < NewIDAllocator org) by (by destruct org). split.
  - cbn [fst Next]. revert Hb. induction n as [|n IH]; [by destruct org|]. rewrite Nat.iter_succ. intros Hb. rewrite IH by lia. unfold Next. cbn [snd].
    rewrite Z.mod_small by lia. lia.
  - unfold InitiatedByOrg. destruct (Z.eqb_spec (2 * Z.of_nat n + NewIDAllocator org) 0); [lia|]. rewrite Z.add_comm, Z.mul_comm, Z_mod_plus_full. by destruct org.
Qed.
