(* ===== verification/WireReplay.v ===== *)
(** * Sequenced frames across dropped links

    [replay.go] of [src/internal/runnerwire] and the sequencing half of [peer.go],
    [peer_resume.go] and [event_ack.go]: the buffer of unacknowledged frames, what the
    receiving side does with a sequenced frame, and the system of the two over a link
    that may drop anything, resumed from a cursor. Sequence numbers are not wrapped
    (a [uint64] counts every frame of a session). *)
From S2P Require Import Prelude GoStrings SecretMask WireFrame.
Local Open Scope Z_scope.
Local Open Scope list_scope.

(** ** The replay buffer *)

Definition ReplayBytes : Z := Z.shiftl 1 20.

Record ReplayBuffer := mkReplay { rFrames : list Frame; rBytes : Z; rAcked : Z; rNext : Z }.
Definition NewReplayBuffer : ReplayBuffer := mkReplay [] 0 0 1.

Inductive replayError := ErrReplayFull | ErrResumeGap | ErrAckAhead.

(** One try under the lock: an error, a wait for room ([None]), or the room held. *)
Definition Reserve (n : Z) (b : ReplayBuffer) : replayError + option ReplayBuffer :=
  if ReplayBytes <? n then inl ErrReplayFull
  else if rBytes b + n <=? ReplayBytes then inr (Some (mkReplay (rFrames b) (rBytes b + n) (rAcked b) (rNext b)))
  else inr None.

Definition unreserve (n : Z) (b : ReplayBuffer) : ReplayBuffer := mkReplay (rFrames b) (rBytes b - n) (rAcked b) (rNext b).

Definition withSeq (f : Frame) (seq : Z) : Frame := mkFrame (fType f) (fFlags f) (fStream f) seq (fPayload f).

Definition Assign (f : Frame) (b : ReplayBuffer) : Frame * ReplayBuffer :=
  let f := withSeq f (rNext b) in (f, mkReplay (rFrames b ++ [f]) (rBytes b) (rAcked b) (rNext b + 1)).

(** The loop of [Ack]: the frames up to [seq] leave, and their bytes with them. *)
Fixpoint dropUpTo (seq : Z) (frames : list Frame) (bytes : Z) : list Frame * Z :=
  match frames with
  | f :: rest => if fSeq f <=? seq then dropUpTo seq rest (bytes - plen f) else (frames, bytes)
  | [] => ([], bytes)
  end.

Definition Ack (seq : Z) (b : ReplayBuffer) : replayError + ReplayBuffer :=
  if rNext b <=? seq then inl ErrAckAhead
  else if seq <=? rAcked b then inr b
  else let '(frames, bytes) := dropUpTo seq (rFrames b) (rBytes b) in inr (mkReplay frames bytes seq (rNext b)).

Definition Since (lastSeq : Z) (b : ReplayBuffer) : replayError + list Frame :=
  if (lastSeq <? rAcked b) || (rNext b <=? lastSeq) then inl ErrResumeGap
  else inr (List.filter (fun f => lastSeq <? fSeq f) (rFrames b)).

(** [waitAck] returns without an error. *)
Definition ackedBy (seq : Z) (b : ReplayBuffer) : bool := seq <=? rAcked b.

(** ** The receiving side *)

Definition ackEvery : Z := 8.
Definition ackBytes : Z := Z.shiftl 64 10.

(** [pOrg] and [pChecked]: the side, and whether events are ingested durably
    ([OnEventChecked]). *)
Record Receiver := mkReceiver { pOrg : bool; pChecked : bool; recvSeq : Z; recvAcks : Z; recvBytes : Z }.

(** What the frame's own handler answered; a refusal is final and recorded
    ([EventRefusal]). *)
Inductive outcome := handlerOK | handlerFailed | handlerRefused.

(** The new state and whether an acknowledgement is due. *)
Definition acceptSequence (f : Frame) (r : Receiver) : Receiver * bool :=
  let acks := recvAcks r + 1 in
  let bytes := recvBytes r + plen f in
  let ack := (acks mod ackEvery =? 0) || (ackBytes <=? bytes) || ((fType f =? TypeEvent) && pChecked r) in
  (mkReceiver (pOrg r) (pChecked r) (fSeq f) acks (if ack then 0 else bytes), ack).

Inductive handled := Failed | Dropped | Accepted (r : Receiver) (ack : bool).

(** [handle] on a sequenced frame. *)
Definition handle (out : outcome) (f : Frame) (r : Receiver) : handled :=
  if negb (AllowedFrom (fType f) (negb (pOrg r))) then Failed
  else if fSeq f <=? recvSeq r then Dropped
  else if negb (fSeq f =? recvSeq r + 1) then Failed
  else
    let stays := match out with handlerOK => true | handlerFailed => false | handlerRefused => (fType f =? TypeEvent) && pOrg r end in
    if negb stays then Failed else let '(r, ack) := acceptSequence f r in Accepted r ack.

(** ** Starting a resumed link *)

(** [Start]: what is replayed, and the buffer once the cursor has acknowledged. *)
Definition Start (lastSeq : Z) (b : ReplayBuffer) : replayError + (list Frame * ReplayBuffer) :=
  match Since lastSeq b with
  | inl e => inl e
  | inr frames => match Ack lastSeq b with inl e => inl e | inr b => inr (frames, b) end
  end.

(** Of the calls carried over, those whose CALL is not replayed now. *)
Definition unanswerable (carried : list Z) (replayed : list Frame) : list Z :=
  List.filter (fun id => negb (existsb (fun f => (fType f =? TypeCall) && (fStream f =? id)) replayed)) carried.

(** ** The system

    One direction of a session: the sender's buffer with the room its callers hold,
    the link with the frames and the acknowledgements under way on it ([None] while
    it is down), and the receiver. Two histories are kept beside it: every frame ever
    sequenced, and every frame the receiver accepted. *)

Record Session := mkSession {
  buffer : ReplayBuffer; hands : list Z; link : option (list Frame * list Z); receiver : Receiver;
  sequenced : list Frame; accepted : list Frame }.

Definition newSession (org checked : bool) : Session :=
  mkSession NewReplayBuffer [] (Some ([], [])) (mkReceiver org checked 0 0 0) [] [].

Inductive step : Session -> Session -> Prop :=
| step_reserve b b' hs l r s a n : Reserve n b = inr (Some b') -> 0 <= n ->
    step (mkSession b hs l r s a) (mkSession b' (n :: hs) l r s a)
| step_unreserve b hs1 n hs2 l r s a :
    step (mkSession b (hs1 ++ n :: hs2) l r s a) (mkSession (unreserve n b) (hs1 ++ hs2) l r s a)
| step_send b hs1 hs2 w acks r s a f : Sequenced (fType f) = true -> AllowedFrom (fType f) (negb (pOrg r)) = true ->
    let '(f', b') := Assign f b in
    step (mkSession b (hs1 ++ plen f :: hs2) (Some (w, acks)) r s a) (mkSession b' (hs1 ++ hs2) (Some (w ++ [f'], acks)) r (s ++ [f']) a)
| step_receive b hs f w acks r s a out :
    step (mkSession b hs (Some (f :: w, acks)) r s a)
      (match handle out f r with
       | Failed => mkSession b hs None r s a
       | Dropped => mkSession b hs (Some (w, acks)) r s a
       | Accepted r' _ => mkSession b hs (Some (w, acks)) r' s (a ++ [f])
       end)
| step_ack b hs w acks r s a : step (mkSession b hs (Some (w, acks)) r s a) (mkSession b hs (Some (w, acks ++ [recvSeq r])) r s a)
| step_acked b hs w seq acks r s a :
    step (mkSession b hs (Some (w, seq :: acks)) r s a)
      (match Ack seq b with inl _ => mkSession b hs None r s a | inr b' => mkSession b' hs (Some (w, acks)) r s a end)
| step_drop b hs l r s a : step (mkSession b hs l r s a) (mkSession b hs None r s a)
| step_resume b hs r s a cursor frames b' : cursor <= recvSeq r -> Start cursor b = inr (frames, b') ->
    step (mkSession b hs None r s a) (mkSession b' hs (Some (frames, [])) (mkReceiver (pOrg r) (pChecked r) (recvSeq r) 0 0) s a).

(** ** Numbered frames *)

Definition numbered (s : list Frame) : Prop := forall i f, s !! i = Some f -> fSeq f = Z.of_nat i + 1.
Definition total (l : list Z) : Z := foldr Z.add 0 l.
Definition payloads (l : list Frame) : Z := total (map plen l).

Lemma total_app a b : total (a ++ b) = total a + total b.
Proof. induction a as [|x a IH]; cbn; [done|]. fold (total (a ++ b)) (total a). lia. Qed.

Lemma total_cons x a : total (x :: a) = x + total a.
Proof. done. Qed.

Lemma payloads_nonneg l : 0 <= payloads l.
Proof. unfold payloads. induction l as [|f l IH]; cbn; [done|]. fold (total (map plen l)). unfold plen at 1. lia. Qed.

Lemma numbered_snoc s f : numbered s -> numbered (s ++ [withSeq f (Z.of_nat (length s) + 1)]).
Proof. intros H i g [Hi|[Hi Hg]]%lookup_app_Some; [by apply H|]. apply list_lookup_singleton_Some in Hg as [Hi' <-]. cbn. lia. Qed.

(** Leaving the frames up to [seq] out of a numbered list is dropping that many. *)
Lemma dropUpTo_spec s k seq bytes : numbered s -> (k <= length s)%nat -> Z.of_nat k <= seq <= Z.of_nat (length s) ->
  dropUpTo seq (drop k s) bytes = (drop (Z.to_nat seq) s, bytes - payloads (drop k s) + payloads (drop (Z.to_nat seq) s)).
Proof.
  intros Hn. remember (drop k s) as l eqn:El. revert k bytes El. induction l as [|f l IH]; intros k bytes El Hk Hs; cbn [dropUpTo].
  - assert (length s <= k)%nat by (apply (f_equal length) in El; rewrite length_drop in El; cbn in El; lia).
    replace (drop (Z.to_nat seq) s) with (@nil Frame) by (symmetry; apply drop_ge; lia). f_equal. lia.
  - assert (Hf : s !! k = Some f) by (rewrite <- (Nat.add_0_r k), <- lookup_drop, <- El; done).
    assert (El' : l = drop (S k) s) by (replace (S k) with (k + 1)%nat by lia; rewrite <- drop_drop, <- El; done).
    rewrite (Hn _ _ Hf). apply lookup_lt_Some in Hf. unfold payloads. cbn [map total foldr]. fold (total (map plen l)). destruct (Z.leb_spec (Z.of_nat k + 1) seq).
    + rewrite (IH (S k)) by (done || lia). unfold payloads. f_equal. lia.
    + replace (Z.to_nat seq) with k by lia. rewrite <- El. f_equal. unfold payloads. cbn. fold (total (map plen l)). lia.
Qed.

Lemma since_spec s k seq : numbered s -> Z.of_nat k <= seq -> List.filter (fun f => seq <? fSeq f) (drop k s) = drop (Z.to_nat seq) s.
Proof.
  intros Hn. remember (drop k s) as l eqn:El. revert k El. induction l as [|f l IH]; intros k El Hs; cbn [List.filter].
  - apply (f_equal length) in El. rewrite length_drop in El. cbn in El. symmetry. apply drop_ge. lia.
  - assert (Hf : s !! k = Some f) by (rewrite <- (Nat.add_0_r k), <- lookup_drop, <- El; done).
    assert (El' : l = drop (S k) s) by (replace (S k) with (k + 1)%nat by lia; rewrite <- drop_drop, <- El; done).
    pose proof (Hn _ _ Hf) as Hq. destruct (Z.ltb_spec seq (fSeq f)) as [Hlt|Hge].
    + replace (Z.to_nat seq) with k by lia. rewrite <- El. f_equal. rewrite El'. clear - Hn Hlt Hq. rewrite <- (List.filter_true (drop (S k) s)) at 2. apply List.filter_ext_in. intros g Hg.
      apply list_elem_of_In, list_elem_of_lookup in Hg as [i Hi]. rewrite lookup_drop in Hi. apply Hn in Hi. apply Z.ltb_lt. lia.
    + apply IH with (k := S k); [done|lia].
Qed.

(** ** The invariant *)

Arguments total : simpl never.
Arguments payloads : simpl never.

Record sessionOK (st : Session) : Prop := mkSessionOK {
  ok_numbered : numbered (sequenced st);
  ok_next : rNext (buffer st) = Z.of_nat (length (sequenced st)) + 1;
  ok_cursors : 0 <= rAcked (buffer st) <= recvSeq (receiver st) /\ recvSeq (receiver st) <= Z.of_nat (length (sequenced st));
  ok_frames : rFrames (buffer st) = drop (Z.to_nat (rAcked (buffer st))) (sequenced st);
  ok_accepted : accepted st = take (Z.to_nat (recvSeq (receiver st))) (sequenced st);
  ok_wire : forall w acks, link st = Some (w, acks) ->
    (exists k, Z.of_nat k <= recvSeq (receiver st) /\ w = drop k (sequenced st)) /\ Forall (fun q => 0 <= q <= recvSeq (receiver st)) acks;
  ok_room : rBytes (buffer st) = payloads (rFrames (buffer st)) + total (hands st) /\ rBytes (buffer st) <= ReplayBytes;
  ok_hands : Forall (fun n => 0 <= n) (hands st);
  ok_allowed : Forall (fun f => AllowedFrom (fType f) (negb (pOrg (receiver st))) = true) (sequenced st);
}.

(** An acknowledgement of something received moves the buffer's start there. *)
Lemma ack_inv st seq : sessionOK st -> 0 <= seq <= recvSeq (receiver st) ->
  exists b, Ack seq (buffer st) = inr b /\ sessionOK (mkSession b (hands st) (link st) (receiver st) (sequenced st) (accepted st)) /\
    rAcked b = Z.max seq (rAcked (buffer st)).
Proof.
  intros [Hn Hx [Hc Hc2] Hf Ha Hw Hr Hh Hal] Hs. unfold Ack. destruct (Z.leb_spec (rNext (buffer st)) seq); [lia|]. destruct (Z.leb_spec seq (rAcked (buffer st))).
  - eexists. split; [done|]. split; [by constructor|lia].
  - rewrite Hf, dropUpTo_spec by (done || lia). eexists. split; [done|]. split; [|cbn; lia].
    constructor; cbn [buffer hands link receiver sequenced accepted rFrames rBytes rAcked rNext]; try done. rewrite Hf in Hr.
    assert (payloads (drop (Z.to_nat seq) (sequenced st)) <= payloads (drop (Z.to_nat (rAcked (buffer st))) (sequenced st))).
    { replace (Z.to_nat seq) with (Z.to_nat (rAcked (buffer st)) + (Z.to_nat seq - Z.to_nat (rAcked (buffer st))))%nat by lia. rewrite <- drop_drop.
      set (l := drop _ (sequenced st)). set (j := (_ - _)%nat). rewrite <- (take_drop j l) at 2. unfold payloads at 2. rewrite map_app, total_app.
      pose proof (payloads_nonneg (take j l)). unfold payloads in *. lia. }
    lia.
Qed.

(** From any cursor between the last acknowledgement and the receiver's own, the resume
    succeeds, and puts every frame after it on the wire. *)
Lemma start_inv st cursor : sessionOK st -> rAcked (buffer st) <= cursor <= recvSeq (receiver st) ->
  exists b, Start cursor (buffer st) = inr (drop (Z.to_nat cursor) (sequenced st), b) /\
    sessionOK (mkSession b (hands st) (Some (drop (Z.to_nat cursor) (sequenced st), [])) (receiver st) (sequenced st) (accepted st)) /\ rAcked b = cursor.
Proof.
  intros Hst Hc. pose proof Hst as [Hn Hx [Hc1 Hc2] Hf Ha Hw Hr Hh Hal]. unfold Start, Since. destruct (Z.ltb_spec cursor (rAcked (buffer st))); [lia|]. destruct (Z.leb_spec (rNext (buffer st)) cursor); [lia|]. cbn [orb].
  rewrite Hf, since_spec by (done || lia). destruct (ack_inv st cursor Hst ltac:(lia)) as (b & -> & [Hn' Hx' Hc' Hf' Ha' Hw' Hr' Hh' Hal'] & Hb). exists b. split; [done|]. cbn in *.
  split; [|lia]. constructor; cbn; try done. intros w acks [= <- <-]. split; [|done]. exists (Z.to_nat cursor). split; [lia|done].
Qed.

Lemma handle_frame out st k f w :
  sessionOK st -> Z.of_nat k <= recvSeq (receiver st) -> f :: w = drop k (sequenced st) ->
  (fSeq f = Z.of_nat k + 1 /\ sequenced st !! k = Some f /\ w = drop (S k) (sequenced st)) /\
  handle out f (receiver st) =
    (if Z.of_nat k =? recvSeq (receiver st) then
       (if match out with handlerOK => true | handlerFailed => false | handlerRefused => (fType f =? TypeEvent) && pOrg (receiver st) end
        then let '(r, ack) := acceptSequence f (receiver st) in Accepted r ack else Failed)
     else Dropped).
Proof.
  intros [Hn Hx [Hc Hc2] Hf Ha Hw Hr Hh Hal] Hk Hd.
  assert (Hlk : sequenced st !! k = Some f) by (rewrite <- (Nat.add_0_r k), <- lookup_drop, <- Hd; done). pose proof (Hn _ _ Hlk) as Hq.
  split; [split_and!; [done..|]; replace (S k) with (k + 1)%nat by lia; by rewrite <- drop_drop, <- Hd|].
  unfold handle. rewrite Forall_lookup in Hal. rewrite (Hal _ _ Hlk). cbn [negb]. rewrite Hq. destruct (Z.eqb_spec (Z.of_nat k) (recvSeq (receiver st))) as [E|].
  - rewrite E, (proj2 (Z.leb_gt _ _)), Z.eqb_refl by lia. cbn [negb]. by destruct (match out with handlerOK => _ | handlerFailed => _ | handlerRefused => _ end).
  - by rewrite (proj2 (Z.leb_le _ _)) by lia.
Qed.

Lemma down_ok st : sessionOK st -> sessionOK (mkSession (buffer st) (hands st) None (receiver st) (sequenced st) (accepted st)).
Proof. intros [Hn Hx Hc Hf Ha Hw Hr Hh Hal]. by constructor. Qed.

(** Taking the next frame keeps what was accepted a prefix of what was sequenced. *)
Lemma accept_ok st f w acks : sessionOK st -> link st = Some (f :: w, acks) -> Z.of_nat (length (sequenced st)) - Z.of_nat (length (f :: w)) = recvSeq (receiver st) ->
  f :: w = drop (Z.to_nat (recvSeq (receiver st))) (sequenced st) ->
  sessionOK (mkSession (buffer st) (hands st) (Some (w, acks)) (fst (acceptSequence f (receiver st))) (sequenced st) (accepted st ++ [f])).
Proof.
  intros Hst Hl Hlen Hd. pose proof (ok_cursors _ Hst) as Hcur. destruct (handle_frame handlerOK st (Z.to_nat (recvSeq (receiver st))) f w Hst ltac:(lia) Hd) as [(Hq & Hlk & Hw') _].
  destruct Hst as [Hn Hx [Hc Hc2] Hf Ha Hw Hr Hh Hal]. destruct (Hw _ _ Hl) as [_ Hacks]. apply lookup_lt_Some in Hlk as Hlt.
  constructor; cbn; try done; rewrite ?Hq.
  - lia.
  - replace (Z.to_nat (Z.of_nat (Z.to_nat (recvSeq (receiver st))) + 1)) with (S (Z.to_nat (recvSeq (receiver st)))) by lia. by rewrite (take_S_r _ _ f), <- Ha.
  - intros w' acks' [= <- <-]. split.
    + exists (S (Z.to_nat (recvSeq (receiver st)))). split; [lia|done].
    + eapply Forall_impl; [exact Hacks|]. cbn. lia.
Qed.

Lemma step_ok st st' : sessionOK st -> step st st' -> sessionOK st'.
Proof.
  intros Hst H. destruct H as [b b' hs l r s a n Hres Hn0 | b hs1 n hs2 l r s a | b hs1 hs2 w acks r s a f Hsq Hal | b hs f w acks r s a out | b hs w acks r s a | b hs w seq acks r s a | b hs l r s a | b hs r s a cursor frames b' Hc Hs].
  - destruct Hst as [Hn Hx Hc Hf Ha Hw Hr Hh Hal]. cbn in *. unfold Reserve in Hres. destruct (ReplayBytes <? n); [done|]. destruct (Z.leb_spec (rBytes b + n) ReplayBytes); [|done]. injection Hres as <-.
    constructor; cbn; try done; [rewrite total_cons; lia|by constructor].
  - destruct Hst as [Hn Hx Hc Hf Ha Hw Hr Hh Hal]. cbn in *. rewrite total_app, total_cons in Hr. apply Forall_app in Hh as [H1 H2]. inversion_clear H2.
    constructor; cbn; try done; [rewrite total_app; lia|by apply Forall_app].
  - destruct Hst as [Hn Hx [Hc Hc2] Hf Ha Hw Hr Hh Hal']. cbn in *. rewrite total_app, total_cons in Hr. apply Forall_app in Hh as [H1 H2]. inversion_clear H2 as [|? ? Hp H2'].
    destruct (Hw _ _ eq_refl) as [(k & Hk & ->) Hacks].
    constructor; cbn; rewrite ?Hx, ?length_app; cbn [length]; try done.
    + by apply numbered_snoc.
    + lia.
    + lia.
    + rewrite Hf, drop_app_le by lia. done.
    + rewrite Ha, take_app_le by lia. done.
    + intros w' acks' [= <- <-]. split; [|done]. exists k. split; [done|]. by rewrite drop_app_le by lia.
    + unfold payloads. rewrite map_app, total_app. fold (payloads (rFrames b)). cbn [map]. rewrite total_cons, total_app. change (total []) with 0. change (plen (withSeq f _)) with (plen f). lia.
    + by apply Forall_app.
    + apply Forall_app. split; [done|]. by constructor.
  - pose proof (ok_wire _ Hst _ _ eq_refl) as [(k & Hk & Hd) Hacks]. cbn in Hk, Hd. destruct (handle_frame out _ k f w Hst Hk Hd) as [(Hq & Hlk & Hw') He]. cbn [receiver sequenced] in *. rewrite He.
    destruct (Z.eqb_spec (Z.of_nat k) (recvSeq r)) as [E|]; [destruct (match out with handlerOK => _ | handlerFailed => _ | handlerRefused => _ end)|].
    + apply lookup_lt_Some in Hlk. apply (accept_ok _ f w acks) in Hst; cbn [link receiver sequenced]; [done|done| |].
      * apply (f_equal length) in Hd. rewrite length_drop in Hd. rewrite Hd. lia.
      * rewrite <- E, Nat2Z.id. done.
    + apply (down_ok _ Hst).
    + destruct Hst as [Hn Hx Hc Hf Ha Hw Hr Hh Hal]. constructor; try done. cbn in *. intros w0 acks0 [= <- <-]. split; [|done]. exists (S k). split; [lia|done].
  - destruct Hst as [Hn Hx Hc Hf Ha Hw Hr Hh Hal]. constructor; try done. cbn in *. intros w0 acks0 [= <- <-]. destruct (Hw _ _ eq_refl) as [? ?]. split; [done|].
    apply Forall_app. split; [done|]. constructor; [lia|done].
  - pose proof (ok_wire _ Hst _ _ eq_refl) as [Hk Hacks]. inversion_clear Hacks as [|? ? Hq Hacks']. destruct (ack_inv _ seq Hst Hq) as (b' & Hb & Hok & _). cbn in Hb. rewrite Hb.
    destruct Hok as [Hn Hx Hc Hf Ha Hw Hr Hh Hal]. constructor; try done. cbn in *. by intros w0 acks0 [= <- <-].
  - apply (down_ok (mkSession b hs l r s a) Hst).
  - assert (Hge : rAcked b <= cursor) by (unfold Start, Since in Hs; destruct (Z.ltb_spec cursor (rAcked b)); [done|lia]).
    destruct (start_inv _ cursor Hst (conj Hge Hc)) as (b2 & Hs2 & Hok & _). cbn in Hs2, Hok. rewrite Hs in Hs2. injection Hs2 as -> <-.
    destruct Hok as [Hn Hx Hc' Hf Ha Hw Hr Hh Hal]. by constructor.
Qed.

Lemma new_ok org checked : sessionOK (newSession org checked).
Proof. constructor; cbn; try done. intros ? ? [= <- <-]. split; [by exists 0%nat|done]. Qed.

Lemma steps_ok org checked st : rtc step (newSession org checked) st -> sessionOK st.
Proof. intros H. assert (Ho : sessionOK (newSession org checked)) by apply new_ok. induction H as [|x y z Hxy _ IH]; [done|]. apply IH. by eapply step_ok. Qed.

(** C22: sequenced frames are taken once and in order, whatever the link loses. In every
    run of sends, deliveries, failing handlers, acknowledgements, dropped links and
    resumes from cursors old or new, the frames the receiver accepted are exactly the
    first ones the sender numbered; an acknowledgement the sender has seen is of frames
    accepted; no acknowledgement under way is refused as ahead and no frame under way is
    out of sequence, so a session ends for neither; the buffer stays in its bound; and
    resuming from the receiver's cursor succeeds and replays exactly the frames it has
    not accepted. *)
Theorem frames_taken_once_in_order org checked st :
  rtc step (newSession org checked) st ->
  accepted st = take (Z.to_nat (recvSeq (receiver st))) (sequenced st) /\
  (forall seq, ackedBy seq (buffer st) = true -> seq <= recvSeq (receiver st)) /\
  (forall w acks, link st = Some (w, acks) ->
     (forall seq, seq ∈ acks -> exists b, Ack seq (buffer st) = inr b) /\
     (forall f w', w = f :: w' -> handle handlerOK f (receiver st) <> Failed)) /\
  0 <= rBytes (buffer st) <= ReplayBytes /\
  exists b, Start (recvSeq (receiver st)) (buffer st) = inr (drop (Z.to_nat (recvSeq (receiver st))) (sequenced st), b).
Proof.
  intros H%steps_ok. pose proof H as [Hn Hx [Hc Hc2] Hf Ha Hw Hr Hh Hal]. split_and!; [done| | |..].
  - intros seq Hs%Z.leb_le. lia.
  - intros w acks Hl. destruct (Hw _ _ Hl) as [(k & Hk & Hd) Hacks]. split.
    + intros seq Hin. rewrite Forall_forall in Hacks. destruct (ack_inv st seq H (Hacks _ Hin)) as (b & Hb & _). by exists b.
    + intros f w' ->. destruct (handle_frame handlerOK st k f w' H Hk Hd) as [_ ->]. destruct (Z.of_nat k =? _); done.
  - pose proof (payloads_nonneg (rFrames (buffer st))). assert (0 <= total (hands st)) by (clear - Hh; induction Hh as [|n l Hn _ IH]; [done|]; rewrite total_cons; lia). lia.
  - lia.
  - destruct (start_inv st (recvSeq (receiver st)) H ltac:(lia)) as (b & Hb & _). by exists b.
Qed.

(** Delivering the frames under way, each handled well. *)
Fixpoint delivered (w : list Frame) (r : Receiver) (a : list Frame) : Receiver * list Frame :=
  match w with
  | [] => (r, a)
  | f :: w =>
      match handle handlerOK f r with
      | Accepted r' _ => delivered w r' (a ++ [f])
      | _ => delivered w r a
      end
  end.

Lemma delivered_all st w acks : sessionOK st -> link st = Some (w, acks) ->
  exists st', rtc step st st' /\ accepted st' = sequenced st /\ sequenced st' = sequenced st /\ receiver st' = fst (delivered w (receiver st) (accepted st)).
Proof.
  revert st. induction w as [|f w IH]; intros st Hok Hl.
  - exists st. split; [done|]. destruct Hok as [Hn Hx [Hc Hc2] Hf Ha Hw Hr Hh Hal]. destruct (Hw _ _ Hl) as [(k & Hk & Hd) _]. split; [|done].
    apply (f_equal length) in Hd. rewrite length_drop in Hd. cbn in Hd. rewrite Ha. apply take_ge. lia.
  - destruct st as [b hs l r s a]. cbn in Hl. subst l. pose proof (step_receive b hs f w acks r s a handlerOK) as Hs. pose proof (step_ok _ _ Hok Hs) as Hok'.
    pose proof (ok_wire _ Hok _ _ eq_refl) as [(k & Hk & Hd) _]. cbn in Hk, Hd. destruct (handle_frame handlerOK _ k f w Hok Hk Hd) as [_ He]. cbn [receiver] in He. cbn [receiver accepted delivered].
    destruct (Z.of_nat k =? recvSeq r); rewrite He in *.
    + destruct (acceptSequence f r) as [r' ack] eqn:Er. destruct (IH _ Hok' eq_refl) as (st' & H1 & H2 & H3 & H4). exists st'. split_and!; [by eapply rtc_l|done|done|done].
    + destruct (IH _ Hok' eq_refl) as (st' & H1 & H2 & H3 & H4). exists st'. split_and!; [by eapply rtc_l|done|done|done].
Qed.

(** A resumed session loses nothing: from any state in which the link is down, the
    resume at the receiver's cursor can be taken, and delivering what it replays
    brings the receiver to every frame the sender ever numbered. *)
Theorem resume_delivers_everything org checked st :
  rtc step (newSession org checked) st -> link st = None ->
  exists st', rtc step st st' /\ accepted st' = sequenced st /\ sequenced st' = sequenced st.
Proof.
  intros H%steps_ok Hl. destruct st as [b hs l r s a]. cbn in Hl. subst l. pose proof (ok_cursors _ H) as Hc. cbn in Hc.
  destruct (start_inv _ (recvSeq r) H ltac:(cbn; lia)) as (b' & Hs & _). cbn in Hs. pose proof (step_resume b hs r s a _ _ _ (Z.le_refl (recvSeq r)) Hs) as Hstep.
  pose proof (step_ok _ _ H Hstep) as Hok. destruct (delivered_all _ _ _ Hok eq_refl) as (st' & H1 & H2 & H3 & _). exists st'. split_and!; [by eapply rtc_l|done|done].
Qed.

(** ** Witnesses: one event sent, the link lost before it arrived, and resumed. *)

Definition event : Frame := mkFrame TypeEvent 0 0 0 (EncodeAck 7).
Definition lostSession : Session :=
  mkSession (mkReplay [withSeq event 1] 8 0 2) [] None (mkReceiver true true 0 0 0) [withSeq event 1] [].

Lemma lost_reachable : rtc step (newSession true true) lostSession.
Proof.
  eapply rtc_l; [apply (step_reserve NewReplayBuffer (mkReplay [] 8 0 1) [] _ _ _ _ 8); by vm_compute|].
  eapply rtc_l; [apply (step_send (mkReplay [] 8 0 1) [] [] [] [] _ [] [] event); by vm_compute|].
  eapply rtc_l; [apply step_drop|]. apply rtc_refl.
Qed.

Lemma frames_taken_once_in_order_witness :
  accepted lostSession = [] /\ 0 <= rBytes (buffer lostSession) <= ReplayBytes /\
  exists b, Start 0 (buffer lostSession) = inr ([withSeq event 1], b).
Proof.
  destruct (frames_taken_once_in_order true true lostSession lost_reachable) as (H1 & _ & _ & H2 & H3). split_and!; [exact H1|apply H2|apply H2|exact H3].
Defined.

Lemma resume_delivers_everything_witness :
  link lostSession = None /\ exists st', rtc step lostSession st' /\ accepted st' = [withSeq event 1] /\ sequenced st' = [withSeq event 1].
Proof. split; [done|]. apply (resume_delivers_everything true true lostSession); [apply lost_reachable|done]. Defined.
