(* ===== verification/WireFlow.v ===== *)
(** * Flow control of byte streams

    [flow.go] and [stream.go] of [src/internal/runnerwire] with the credit half of
    [peer.go]: the sender's windows, the receiver's buffers and what it gives back,
    and the system of the two. Every section under a lock is a function; what a
    goroutine holds between two sections (bytes it took credit for and has not sent,
    bytes it read and has not counted, a WINDOW it owes) is part of the state, so the
    steps interleave as the goroutines do. *)
From S2P Require Import Prelude GoStrings SecretMask WireFrame WireReplay.
Local Open Scope Z_scope.
Local Open Scope list_scope.

Definition StreamWindow : Z := Z.shiftl 256 10.
Definition ConnWindow : Z := Z.shiftl 4 20.

Definition blen (b : bytes) : Z := Z.of_nat (length b).

(** ** Credit ([flow.go]) *)

Record Credit := mkCredit { avail : Z; closed : bool }.
Definition NewConnCredit : Credit := mkCredit ConnWindow false.
Definition NewStreamCredit : Credit := mkCredit StreamWindow false.

Definition Add (n : Z) (c : Credit) : Credit := mkCredit (avail c + n) (closed c).
Definition CloseCredit (c : Credit) : Credit := mkCredit (avail c) true.

(** [None] is [ErrCreditClosed]. *)
Definition takeUpTo (n : Z) (c : Credit) : option (Z * Credit) :=
  if closed c then None
  else let n := if avail c <? n then avail c else n in Some (n, mkCredit (avail c - n) (closed c)).

(** One try of [Take] on a stream's window and its connection's: the bytes taken, 0 for
    a wait. *)
Definition tryTake (max : Z) (c parent : Credit) : option (Z * Credit * Credit) :=
  if closed c then None
  else
    let n := if avail c <? max then avail c else max in
    if n <=? 0 then Some (0, c, parent)
    else match takeUpTo n parent with
         | None => None
         | Some (got, parent') => if got =? 0 then Some (0, c, parent') else Some (got, mkCredit (avail c - got) (closed c), parent')
         end.

(** ** The receiving end of a stream ([stream.go]) *)

Record Stream := mkStream {
  buf : bytes; remoteClosed : bool; localClosed : bool; readClosed : bool; reset : option Z; unacked : Z; heldReleased : bool;
  (** a kind whose bytes flow the other way only *)
  oneWay : bool }.
Definition newStream (one : bool) : Stream := mkStream [] false false false None 0 false one.

(** The peer's half that counts credit: the streams it knows, the bytes held for
    readers, and the credit of the connection it has yet to give back. *)
Record Peer := mkPeer { streams : gmap Z Stream; held : Z; connPend : Z; owed : Z }.

Definition returnCredit (n : Z) (p : Peer) : Peer := mkPeer (streams p) (held p) 0 (owed p + (n + connPend p)).
Definition forget (id : Z) (p : Peer) : Peer := mkPeer (delete id (streams p)) (held p) (connPend p) (owed p).
Definition withStream (id : Z) (s : Stream) (p : Peer) : Peer := mkPeer (<[id := s]> (streams p)) (held p) (connPend p) (owed p).
Definition addHeld (n : Z) (p : Peer) : Peer := mkPeer (streams p) (held p + n) (connPend p) (owed p).

(** The credit owed, and the stream and the peer after it. *)
Definition releaseHeldLocked (s : Stream) (p : Peer) : Z * Stream * Peer :=
  if heldReleased s then (0, s, p)
  else (blen (buf s), mkStream (buf s) (remoteClosed s) (localClosed s) (readClosed s) (reset s) 0 true (oneWay s), addHeld (- blen (buf s)) p).

Definition dropBuf (s : Stream) : Stream := mkStream [] (remoteClosed s) (localClosed s) (readClosed s) (reset s) (unacked s) (heldReleased s) (oneWay s).

(** [abort]: nothing where the stream was reset already. *)
Definition abort (id code : Z) (p : Peer) : Peer :=
  match streams p !! id with
  | None => p
  | Some s =>
      match reset s with
      | Some _ => p
      | None =>
          let '(ow, s, p) := releaseHeldLocked (mkStream (buf s) (remoteClosed s) (localClosed s) (readClosed s) (Some code) (unacked s) (heldReleased s) (oneWay s)) p in
          returnCredit ow (withStream id (dropBuf s) p)
      end
  end.

(** [resetQueued], [Reset] and a RESET of the other side. *)
Definition resetStream (id code : Z) (p : Peer) : Peer := forget id (abort id code p).

Definition ResetRefused : Z := 3.
Definition ResetInternal : Z := 4.

Inductive deliverResult := deliverOK | errStreamOverflow | errPastWindow.

Definition deliver (id : Z) (b : bytes) (s : Stream) (p : Peer) : deliverResult * Peer :=
  match reset s with
  | Some _ => (deliverOK, returnCredit (blen b) p)
  | None =>
      if readClosed s then (deliverOK, returnCredit (blen b) p)
      else if StreamWindow <? blen (buf s) + blen b then (errStreamOverflow, p)
      else if ConnWindow <? held p + blen b then (errPastWindow, p)
      else (deliverOK, addHeld (blen b) (withStream id (mkStream (buf s ++ b) (remoteClosed s) (localClosed s) (readClosed s) (reset s) (unacked s) (heldReleased s) (oneWay s)) p))
  end.

(** DATA for a stream ([handleStream]); [None] ends the link. *)
Definition handleData (id : Z) (b : bytes) (p : Peer) : option Peer :=
  match streams p !! id with
  | None => Some (returnCredit (blen b) p)
  | Some s =>
      if oneWay s then Some (resetStream id ResetRefused (returnCredit (blen b) p))
      else match deliver id b s p with
           | (deliverOK, p) => Some p
           | (errPastWindow, _) => None
           | (errStreamOverflow, p) => Some (resetStream id ResetInternal (returnCredit (blen b) p))
           end
  end.

(** What [Read] of up to [n] bytes returns, with the grant for the stream and the bytes
    to count for the connection. It is called with something buffered and the stream
    neither reset nor closed for reading. *)
Definition Read (id : Z) (n : nat) (s : Stream) (p : Peer) : bytes * Z * Z * Peer :=
  let out := take n (buf s) in
  let rest := drop n (buf s) in
  if heldReleased s then
    (out, 0, 0, withStream id (mkStream rest (remoteClosed s) (localClosed s) (readClosed s) (reset s) (unacked s) (heldReleased s) (oneWay s)) p)
  else
    let un := unacked s + blen out in
    let grant := if StreamWindow / 4 <=? un then un else 0 in
    (out, grant, blen out,
     addHeld (- blen out) (withStream id (mkStream rest (remoteClosed s) (localClosed s) (readClosed s) (reset s) (un - grant) (heldReleased s) (oneWay s)) p)).

(** The WINDOW the connection is given back, 0 for none. *)
Definition consumed (n : Z) (p : Peer) : Z * Peer :=
  let pend := connPend p + n in
  if ConnWindow / 4 <=? pend then (pend, mkPeer (streams p) (held p) 0 (owed p)) else (0, mkPeer (streams p) (held p) pend (owed p)).

Definition CloseWrite (id : Z) (p : Peer) : Peer :=
  match streams p !! id with
  | None => p
  | Some s =>
      if localClosed s || bool_decide (is_Some (reset s)) then p
      else
        let s := mkStream (buf s) (remoteClosed s) true (readClosed s) (reset s) (unacked s) (heldReleased s) (oneWay s) in
        if remoteClosed s then let '(ow, s, p) := releaseHeldLocked s p in returnCredit ow (withStream id s p) else withStream id s p
  end.

Definition CloseRead (id : Z) (p : Peer) : Peer :=
  match streams p !! id with
  | None => p
  | Some s =>
      if readClosed s || bool_decide (is_Some (reset s)) then p
      else
        let '(ow, s, p) := releaseHeldLocked (mkStream (buf s) (remoteClosed s) (localClosed s) true (reset s) (unacked s) (heldReleased s) (oneWay s)) p in
        returnCredit ow (withStream id (dropBuf s) p)
  end.

Definition remoteClose (id : Z) (p : Peer) : Peer :=
  match streams p !! id with
  | None => p
  | Some s =>
      let s := mkStream (buf s) true (localClosed s) (readClosed s) (reset s) (unacked s) (heldReleased s) (oneWay s) in
      if localClosed s then let '(ow, s, p) := releaseHeldLocked s p in returnCredit ow (withStream id s p) else withStream id s p
  end.

(** What the reply worker sends back of the credit owed ([sendReplies]). *)
Definition maxUint32 : Z := 2 ^ 32 - 1.
Definition takeOwed (p : Peer) : Z * Peer := (Z.min (owed p) maxUint32, mkPeer (streams p) (held p) (connPend p) 0).

(** ** The system

    One direction of a link. A writer does not write a stream it has closed for writing
    ([taking] ends before [closing]), ids are not used twice, and both ends of a stream
    are there before its first DATA. *)

Inductive item := Data (id : Z) (b : bytes) | CloseFrame (id : Z).

Record Flow := mkFlow {
  conn : Credit; sends : gmap Z Credit; shut : list Z;
  taken : list (Z * bytes); wire : list item;
  peer : Peer; counting : list Z; granting : list (Z * Z); back : list (Z * Z) }.

Definition newFlow : Flow := mkFlow NewConnCredit ∅ [] [] [] (mkPeer ∅ 0 0 0) [] [] [].

Definition handFor (id : Z) (t : list (Z * bytes)) : bool := existsb (fun x => fst x =? id) t.

(** A WINDOW is sent for a positive amount only, as a [uint32]. *)
Definition note (id n : Z) (gs : list (Z * Z)) : list (Z * Z) := if 0 <? n then (id, n) :: gs else gs.
Definition uint32 (n : Z) : Z := n mod 2 ^ 32.

Inductive flowStep : Flow -> Flow -> Prop :=
| f_open c ss sh t w p cs gs bk id one : id <> 0 -> ss !! id = None -> streams p !! id = None ->
    flowStep (mkFlow c ss sh t w p cs gs bk) (mkFlow c (<[id := NewStreamCredit]> ss) sh t w (withStream id (newStream one) p) cs gs bk)
| f_take c ss sh t w p cs gs bk id s max n s' c' b : ss !! id = Some s -> id ∉ sh -> max <= MaxDataFrame ->
    tryTake max s c = Some (n, s', c') -> 0 < n -> blen b = n ->
    flowStep (mkFlow c ss sh t w p cs gs bk) (mkFlow c' (<[id := s']> ss) sh ((id, b) :: t) w p cs gs bk)
| f_send c ss sh t1 id b t2 w p cs gs bk :
    flowStep (mkFlow c ss sh (t1 ++ (id, b) :: t2) w p cs gs bk) (mkFlow c ss sh (t1 ++ t2) (w ++ [Data id b]) p cs gs bk)
| f_shut c ss sh t w p cs gs bk id : is_Some (ss !! id) -> id ∉ sh -> handFor id t = false ->
    flowStep (mkFlow c ss sh t w p cs gs bk) (mkFlow c ss (id :: sh) t (w ++ [CloseFrame id]) p cs gs bk)
| f_data c ss sh t w p p' cs gs bk id b : handleData id b p = Some p' ->
    flowStep (mkFlow c ss sh t (Data id b :: w) p cs gs bk) (mkFlow c ss sh t w p' cs gs bk)
| f_close c ss sh t w p cs gs bk id :
    flowStep (mkFlow c ss sh t (CloseFrame id :: w) p cs gs bk) (mkFlow c ss sh t w (remoteClose id p) cs gs bk)
| f_read c ss sh t w p cs gs bk id n s out grant count p' : streams p !! id = Some s -> reset s = None -> readClosed s = false ->
    Read id n s p = (out, grant, count, p') ->
    flowStep (mkFlow c ss sh t w p cs gs bk) (mkFlow c ss sh t w p' (if 0 <? count then count :: cs else cs) (note id grant gs) bk)
| f_count c ss sh t w p cs1 n cs2 gs bk g p' : consumed n p = (g, p') ->
    flowStep (mkFlow c ss sh t w p (cs1 ++ n :: cs2) gs bk) (mkFlow c ss sh t w p' (cs1 ++ cs2) (note 0 g gs) bk)
| f_closeread c ss sh t w p cs gs bk id : flowStep (mkFlow c ss sh t w p cs gs bk) (mkFlow c ss sh t w (CloseRead id p) cs gs bk)
| f_closewrite c ss sh t w p cs gs bk id : flowStep (mkFlow c ss sh t w p cs gs bk) (mkFlow c ss sh t w (CloseWrite id p) cs gs bk)
| f_abort c ss sh t w p cs gs bk id code : flowStep (mkFlow c ss sh t w p cs gs bk) (mkFlow c ss sh t w (abort id code p) cs gs bk)
| f_forget c ss sh t w p cs gs bk id s : streams p !! id = Some s -> is_Some (reset s) \/ (localClosed s = true /\ remoteClosed s = true) ->
    flowStep (mkFlow c ss sh t w p cs gs bk) (mkFlow c ss sh t w (forget id p) cs gs bk)
| f_owed c ss sh t w p cs gs bk n p' : takeOwed p = (n, p') ->
    flowStep (mkFlow c ss sh t w p cs gs bk) (mkFlow c ss sh t w p' cs (note 0 n gs) bk)
| f_grant c ss sh t w p cs gs1 id n gs2 bk :
    flowStep (mkFlow c ss sh t w p cs (gs1 ++ (id, n) :: gs2) bk) (mkFlow c ss sh t w p cs (gs1 ++ gs2) (bk ++ [(id, uint32 n)]))
| f_window c ss sh t w p cs gs n bk :
    flowStep (mkFlow c ss sh t w p cs gs ((0, n) :: bk)) (mkFlow (Add n c) ss sh t w p cs gs bk)
| f_swindow c ss sh t w p cs gs id n bk : id <> 0 ->
    flowStep (mkFlow c ss sh t w p cs gs ((id, n) :: bk)) (mkFlow c (alter (Add n) id ss) sh t w p cs gs bk).
