(* ===== verification/FlowSound.v ===== *)
(** * Credit is conserved

    Every byte of the connection's window is somewhere: with the sender, in a
    goroutine's hands, on the wire, in a buffer, or on its way back. So a sender that
    keeps to its credit is never refused, and credit is never lost. *)
From S2P Require Import Prelude GoStrings SecretMask WireFrame WireReplay WireFlow.
Local Open Scope Z_scope.
Local Open Scope list_scope.

(** ** Sums *)

Definition itemLen (x : item) : Z := match x with Data _ b => blen b | CloseFrame _ => 0 end.
Definition itemFor (id : Z) (x : item) : Z := match x with Data i b => if i =? id then blen b else 0 | CloseFrame _ => 0 end.
Definition handFor_ (id : Z) (x : Z * bytes) : Z := if fst x =? id then blen (snd x) else 0.
Definition winFor (id : Z) (x : Z * Z) : Z := if fst x =? id then snd x else 0.

Definition dataAll (w : list item) : Z := total (map itemLen w).
Definition dataOf (id : Z) (w : list item) : Z := total (map (itemFor id) w).
Definition handAll (t : list (Z * bytes)) : Z := total (map (fun x => blen (snd x)) t).
Definition handOf (id : Z) (t : list (Z * bytes)) : Z := total (map (handFor_ id) t).
Definition winOf (id : Z) (l : list (Z * Z)) : Z := total (map (winFor id) l).

Lemma sum_app {A} (f : A -> Z) a b : total (map f (a ++ b)) = total (map f a) + total (map f b).
Proof. by rewrite map_app, total_app. Qed.

Lemma sum_cons {A} (f : A -> Z) x a : total (map f (x :: a)) = f x + total (map f a).
Proof. done. Qed.

Lemma sum_nonneg {A} (f : A -> Z) l : (forall x, x ∈ l -> 0 <= f x) -> 0 <= total (map f l).
Proof.
  induction l as [|x l IH]; intros H; [done|]. rewrite sum_cons. pose proof (H x (list_elem_of_here x l)). assert (0 <= total (map f l)); [|lia].
  apply IH. intros y Hy. apply H. by right.
Qed.

Lemma blen_nonneg b : 0 <= blen b.
Proof. unfold blen. lia. Qed.

Lemma dataOf_nonneg id w : 0 <= dataOf id w.
Proof. apply sum_nonneg. intros [i b|i] _; cbn; [|done]. pose proof (blen_nonneg b). destruct (i =? id); lia. Qed.

Lemma handOf_nonneg id t : 0 <= handOf id t.
Proof. apply sum_nonneg. intros [i b] _. unfold handFor_. cbn. pose proof (blen_nonneg b). destruct (i =? id); lia. Qed.

Lemma dataAll_nonneg w : 0 <= dataAll w.
Proof. apply sum_nonneg. intros [i b|i] _; cbn; [|done]. apply blen_nonneg. Qed.

Lemma handAll_nonneg t : 0 <= handAll t.
Proof. apply sum_nonneg. intros [i b] _. cbn. apply blen_nonneg. Qed.

Definition positive (l : list (Z * Z)) : Prop := Forall (fun x => 0 <= snd x) l.

Lemma winOf_nonneg id l : positive l -> 0 <= winOf id l.
Proof. intros H. unfold positive in H. rewrite Forall_forall in H. apply sum_nonneg. intros x Hx. unfold winFor. specialize (H x Hx). destruct (fst x =? id); lia. Qed.

Lemma winOf_cons id i n l : winOf id ((i, n) :: l) = (if i =? id then n else 0) + winOf id l.
Proof. done. Qed.

Lemma winOf_app id a b : winOf id (a ++ b) = winOf id a + winOf id b.
Proof. apply sum_app. Qed.

Lemma winOf_note id i n l : 0 <= n -> winOf id (note i n l) = (if i =? id then n else 0) + winOf id l.
Proof.
  intros Hn. unfold note. destruct (Z.ltb_spec 0 n); [done|]. assert (n = 0) as -> by lia. by destruct (i =? id).
Qed.

Lemma note_positive i n l : positive l -> positive (note i n l).
Proof. intros H. unfold note. destruct (Z.ltb_spec 0 n); [|done]. constructor; [cbn; lia|done]. Qed.

Create Rewrite HintDb sums.
#[export] Hint Rewrite @sum_app @sum_cons : sums.
Ltac sums := unfold dataAll, dataOf, handAll, handOf, winOf in *; autorewrite with sums in *.

(** ** Streams *)

Definition recv (s : Stream) : Z := if heldReleased s then 0 else blen (buf s) + unacked s.
Definition heldOf (s : Stream) : Z := if heldReleased s then 0 else blen (buf s).

Record streamOK (s : Stream) : Prop := mkStreamOK {
  so_unacked : 0 <= unacked s < StreamWindow / 4;
  so_released : heldReleased s = bool_decide (is_Some (reset s)) || readClosed s || (remoteClosed s && localClosed s) }.

Definition heldSum (m : gmap Z Stream) : Z := map_fold (fun _ s acc => heldOf s + acc) 0 m.

Lemma heldSum_insert m i s : m !! i = None -> heldSum (<[i := s]> m) = heldOf s + heldSum m.
Proof. intros H. unfold heldSum. rewrite map_fold_insert_L; [done| |done]. intros. lia. Qed.

Lemma heldSum_delete m i s : m !! i = Some s -> heldSum m = heldOf s + heldSum (delete i m).
Proof. intros H. unfold heldSum. apply (map_fold_delete_L (fun _ s acc => heldOf s + acc) 0); [intros; lia|done]. Qed.

Lemma heldSum_replace m i s s' : m !! i = Some s -> heldSum (<[i := s']> m) = heldSum m - heldOf s + heldOf s'.
Proof. intros H. rewrite <- insert_delete_eq. rewrite heldSum_insert by apply lookup_delete_eq. rewrite (heldSum_delete m i s H). lia. Qed.

Definition credit (p : Peer) : Z := held p + connPend p + owed p.

Record peerOK (p : Peer) : Prop := mkPeerOK {
  po_streams : forall id s, streams p !! id = Some s -> streamOK s;
  po_held : held p = heldSum (streams p);
  po_pos : 0 <= connPend p /\ 0 <= owed p }.

Definition recvOf (i : Z) (p : Peer) : Z := match streams p !! i with Some s => recv s | None => 0 end.
Definition live (i : Z) (p : Peer) : Prop := exists s, streams p !! i = Some s /\ heldReleased s = false.

(** What an operation on stream [id] may do: the connection's credit changes by [c], the
    stream's by [d], and nothing appears from nowhere; with [rc] the other side may be
    seen to close it. *)
Record moves (rc : bool) (p p' : Peer) (c id d : Z) : Prop := mkMoves {
  mv_ok : peerOK p';
  mv_credit : credit p' = credit p + c;
  mv_pend : connPend p < ConnWindow / 4 -> connPend p' < ConnWindow / 4;
  mv_live : forall i, live i p' -> live i p /\ recvOf i p' = recvOf i p + (if i =? id then d else 0);
  mv_recv : forall i, recvOf i p' <= recvOf i p + (if i =? id then d else 0);
  mv_known : forall i s', streams p' !! i = Some s' -> exists s, streams p !! i = Some s /\ (remoteClosed s' = true -> remoteClosed s = true \/ (rc = true /\ i = id)) }.

Lemma recv_nonneg s : streamOK s -> 0 <= recv s.
Proof. intros [H _]. unfold recv. pose proof (blen_nonneg (buf s)). destruct (heldReleased s); lia. Qed.

Lemma recvOf_nonneg i p : peerOK p -> 0 <= recvOf i p.
Proof. intros [H _ _]. unfold recvOf. destruct (streams p !! i) as [s|] eqn:E; [|done]. by eapply recv_nonneg, H. Qed.

Lemma moves_refl p : peerOK p -> forall rc id, moves rc p p 0 id 0.
Proof. intros H rc id. constructor; [done|lia|done| | |eauto 10]; intros i; [intros Hl; split; [done|]|]; destruct (i =? id); lia. Qed.

(** Replacing one stream, with what leaves its buffer going elsewhere. *)
Lemma moves_replace rc p id s s' h c d cp ow :
  peerOK p -> streams p !! id = Some s -> streamOK s' -> h = held p - heldOf s + heldOf s' -> h + cp + ow = credit p + c -> 0 <= cp -> 0 <= ow -> (connPend p < ConnWindow / 4 -> cp < ConnWindow / 4) ->
  recv s' <= recv s + d -> (heldReleased s' = false -> heldReleased s = false /\ recv s' = recv s + d) -> (remoteClosed s' = true -> remoteClosed s = true \/ rc = true) ->
  moves rc p (mkPeer (<[id := s']> (streams p)) h cp ow) c id d.
Proof.
  intros [Hs Hh Hp] Hl Hok Eh Ec Hcp How Hpend Hr Heq Hrc. constructor; cbn.
  - constructor; cbn; [|by rewrite (heldSum_replace _ _ s) by done; lia|done]. intros i t [[_ <-]|[_ Ht]]%lookup_insert_Some; [done|]. by eapply Hs.
  - unfold credit in *. cbn. lia.
  - done.
  - intros i (t & Ht & Hrel). unfold live, recvOf. cbn in *. apply lookup_insert_Some in Ht as [[-> ->]|[Hne Ht]].
    + rewrite lookup_insert_eq, Hl, Z.eqb_refl. destruct (Heq Hrel) as [? ?]. eauto.
    + rewrite lookup_insert_ne, Ht by done. rewrite (proj2 (Z.eqb_neq i id)) by done. split; [eauto|lia].
  - intros i. unfold recvOf. cbn. destruct (Z.eqb_spec i id) as [->|Hne].
    + by rewrite lookup_insert_eq, Hl.
    + rewrite lookup_insert_ne by done. lia.
  - intros i t [[<- <-]|[_ Ht]]%lookup_insert_Some; [|eauto]. exists s. split; [done|]. intros H. destruct (Hrc H); auto.
Qed.

(** ** The operations *)

(** Giving bytes no stream holds back to the connection. *)
Lemma moves_return rc p p' c id d n : moves rc p p' c id d -> 0 <= n -> moves rc p (returnCredit n p') (c + n) id d.
Proof.
  intros [[Hs Hh [Hp Ho]] Hc Hpd Hl Hr Hk] Hn. constructor; [|unfold credit, returnCredit in *; cbn; lia|done..]. constructor; cbn; [done|done|lia].
Qed.

Ltac stream_ok := constructor; cbn; rewrite ?orb_true_r, ?andb_true_r; try done.

(** Releasing a stream that changed only in its flags. *)
Lemma moves_release rc p id s s1 s' ow p' drop :
  peerOK p -> streams p !! id = Some s -> releaseHeldLocked s1 p = (ow, s', p') ->
  buf s1 = buf s -> unacked s1 = unacked s -> heldReleased s1 = heldReleased s -> (remoteClosed s1 = true -> remoteClosed s = true \/ rc = true) ->
  bool_decide (is_Some (reset s1)) || readClosed s1 || (remoteClosed s1 && localClosed s1) = true ->
  moves rc p (returnCredit ow (withStream id (if drop : bool then dropBuf s' else s') p')) 0 id 0.
Proof.
  intros Hp Hl Hrel Eb Eu Eh Hrc Hfin. pose proof Hp as [Hs Hh [Hcp Ho]]. pose proof (Hs _ _ Hl) as [Hu Hr]. pose proof (blen_nonneg (buf s)) as Hb.
  unfold releaseHeldLocked in Hrel. rewrite Eh, Eb in Hrel. destruct (heldReleased s) eqn:Er; injection Hrel as <- <- <-.
  - apply moves_replace with (s := s); cbn; try done; try (intros _; reflexivity); destruct drop; cbn; unfold heldOf, recv; cbn; rewrite ?Eh, ?Er; try lia; try done.
    + stream_ok; [by rewrite Eu|by rewrite Eh, Hfin].
    + stream_ok; [by rewrite Eu|by rewrite Eh, Hfin].
    + unfold credit. lia.
    + unfold credit. lia.
  - unfold returnCredit, withStream, addHeld. cbn [streams held connPend owed]. apply moves_replace with (s := s); cbn; try done; try (intros _; reflexivity); destruct drop; cbn; unfold heldOf, recv; cbn; rewrite ?Er; try lia; try done.
    + unfold credit. lia.
    + unfold credit. lia.
Qed.

Lemma closeRead_moves id p : peerOK p -> moves false p (CloseRead id p) 0 id 0.
Proof.
  intros Hp. unfold CloseRead. destruct (streams p !! id) as [s|] eqn:E; [|by apply moves_refl]. destruct (readClosed s || _) eqn:Er; [by apply moves_refl|].
  destruct (releaseHeldLocked _ p) as [[ow s'] p'] eqn:Erel. apply (moves_release false p id s _ s' ow p' true Hp E Erel); try done; [by left|]. cbn. by rewrite orb_true_r.
Qed.

Lemma abort_moves id code p : peerOK p -> moves false p (abort id code p) 0 id 0.
Proof.
  intros Hp. unfold abort. destruct (streams p !! id) as [s|] eqn:E; [|by apply moves_refl]. destruct (reset s) eqn:Er; [by apply moves_refl|].
  destruct (releaseHeldLocked _ p) as [[ow s'] p'] eqn:Erel. apply (moves_release false p id s _ s' ow p' true Hp E Erel); try done. by left.
Qed.

Lemma closeWrite_moves id p : peerOK p -> moves false p (CloseWrite id p) 0 id 0.
Proof.
  intros Hp. unfold CloseWrite. destruct (streams p !! id) as [s|] eqn:E; [|by apply moves_refl]. destruct (localClosed s || _) eqn:Er; [by apply moves_refl|]. cbn [remoteClosed].
  apply orb_false_elim in Er as [El Er]. destruct (remoteClosed s) eqn:Erc.
  - destruct (releaseHeldLocked _ p) as [[ow s'] p'] eqn:Erel. apply (moves_release false p id s _ s' ow p' false Hp E Erel); try done; [by left|]. cbn. by rewrite orb_true_r.
  - pose proof Hp as [Hs _ [? ?]]. pose proof (Hs _ _ E) as [Hu Hr]. apply moves_replace with (s := s); try done; try (unfold heldOf, recv, credit; cbn; lia); try (by left).
    + constructor; cbn; [done|]. by rewrite Hr, El, Erc, ?andb_false_r.
    + cbn. intros Hrel. split; [done|]. unfold recv. cbn. lia.
Qed.

Lemma forget_moves id s p : peerOK p -> streams p !! id = Some s -> heldReleased s = true -> moves false p (forget id p) 0 id 0.
Proof.
  intros [Hs Hh Hpos] E Hrel. constructor; cbn.
  - constructor; cbn; [|by rewrite Hh, (heldSum_delete _ _ _ E); unfold heldOf; rewrite Hrel|done]. intros i t [_ Ht]%lookup_delete_Some. by eapply Hs.
  - unfold credit. cbn. lia.
  - done.
  - intros i (t & Ht & Hr). cbn in Ht. unfold recvOf. cbn. rewrite Ht. apply lookup_delete_Some in Ht as [_ Ht]. rewrite Ht. split; [by exists t|]. destruct (i =? id); lia.
  - intros i. unfold recvOf. cbn. destruct (Z.eq_dec i id) as [->|Hne]; [rewrite lookup_delete_eq, E, Z.eqb_refl|rewrite lookup_delete_ne by done; destruct (i =? id); lia].
    unfold recv. rewrite Hrel. lia.
  - intros i t [_ Ht]%lookup_delete_Some. eauto.
Qed.

Lemma moves_trans p q r c1 c2 id d1 d2 : moves false p q c1 id d1 -> moves false q r c2 id d2 -> moves false p r (c1 + c2) id (d1 + d2).
Proof.
  intros [_ H2 Hpd H3 H4 H5] [G1 G2 Gpd G3 G4 G5]. constructor; [done|lia|auto| | |].
  - intros i Hi. destruct (G3 i Hi) as [Hq Eq]. destruct (H3 i Hq) as [Hpi Ep]. split; [done|]. destruct (i =? id); lia.
  - intros i. specialize (H4 i). specialize (G4 i). destruct (i =? id); lia.
  - intros i s' Hs'. destruct (G5 i s' Hs') as (t & Ht & Hrc). destruct (H5 i t Ht) as (u & Hu & Hrc'). exists u. split; [done|]. intros H. destruct (Hrc H) as [H'|[? _]]; [by apply Hrc'|done].
Qed.

Lemma resetStream_moves id code p : peerOK p -> moves false p (resetStream id code p) 0 id 0 /\ ~ live id (resetStream id code p).
Proof.
  intros Hp. pose proof (abort_moves id code p Hp) as Ha. unfold resetStream. assert (Hno : ~ live id (forget id (abort id code p))) by (intros (t & Ht & _); cbn in Ht; by rewrite lookup_delete_eq in Ht).
  split; [|done]. destruct (streams (abort id code p) !! id) as [s|] eqn:E.
  - change 0 with (0 + 0) at 1 2. eapply moves_trans; [exact Ha|]. apply forget_moves with (s := s); [apply Ha|done|]. destruct Ha as [[Hs _ _] _ _ _ _ _]. destruct (Hs _ _ E) as [_ ->].
    assert (is_Some (reset s)) as Hr; [|by rewrite bool_decide_eq_true_2].
    unfold abort in E. destruct (streams p !! id) as [t|] eqn:Et; [|congruence]. destruct (reset t) eqn:Er; [rewrite Et in E; injection E as <-; by rewrite Er|].
    unfold releaseHeldLocked in E. cbn in E. destruct (heldReleased t); cbn in E; rewrite lookup_insert_eq in E; injection E as <-; done.
  - unfold forget. rewrite delete_id by done. by destruct (abort id code p).
Qed.

Lemma remoteClose_moves id p : peerOK p -> moves true p (remoteClose id p) 0 id 0.
Proof.
  intros Hp. unfold remoteClose. destruct (streams p !! id) as [s|] eqn:E; [|by apply moves_refl]. cbn [localClosed]. destruct (localClosed s) eqn:El.
  - destruct (releaseHeldLocked _ p) as [[ow s'] p'] eqn:Erel. apply (moves_release true p id s _ s' ow p' false Hp E Erel); try done; [by right|]. cbn. by rewrite orb_true_r.
  - pose proof Hp as [Hs _ [? ?]]. pose proof (Hs _ _ E) as [Hu Hr]. apply moves_replace with (s := s); try done; try (unfold heldOf, recv, credit; cbn; lia); try (by left).
    + constructor; cbn; [done|]. by rewrite Hr, El, ?andb_false_r.
    + cbn. intros Hrel. split; [done|]. unfold recv. cbn. lia.
Qed.

Lemma moves_dead rc p p' c id d d' : moves rc p p' c id d -> ~ live id p' -> d <= d' -> moves rc p p' c id d'.
Proof.
  intros [H1 H2 Hpd H3 H4 H5] Hn Hd. constructor; [done|done|done| | |done].
  - intros i Hi. destruct (Z.eqb_spec i id) as [->|Hne]; [done|]. specialize (H3 i Hi). by rewrite (proj2 (Z.eqb_neq i id)) in H3.
  - intros i. specialize (H4 i). destruct (i =? id); lia.
Qed.

Lemma returned_moves id b p : peerOK p -> ~ live id p -> moves false p (returnCredit (blen b) p) (blen b) id (blen b).
Proof.
  intros Hp Hn. pose proof (blen_nonneg b). apply (moves_dead false p _ _ id 0); [|done|done]. change (blen b) with (0 + blen b) at 2. apply moves_return; [by apply moves_refl|done].
Qed.

Lemma handleData_moves id b p :
  peerOK p -> (forall s, streams p !! id = Some s -> heldReleased s = false -> blen (buf s) + blen b <= StreamWindow) -> held p + blen b <= ConnWindow ->
  (forall s, streams p !! id = Some s -> remoteClosed s = false) ->
  exists p', handleData id b p = Some p' /\ moves false p p' (blen b) id (blen b).
Proof.
  intros Hp Hw Hc Hrc. pose proof (blen_nonneg b) as Hb. unfold handleData. destruct (streams p !! id) as [s|] eqn:E.
  2: { eexists. split; [done|]. apply returned_moves; [done|]. intros (t & Ht & _). congruence. }
  pose proof Hp as [Hs _ Hpos]. pose proof (Hs _ _ E) as [Hu Hr]. rewrite (Hrc s eq_refl) in Hr. cbn [andb] in Hr. rewrite orb_false_r in Hr.
  assert (Hdead : heldReleased s = true -> ~ live id p) by (intros Hh (t & Ht & Hf); rewrite E in Ht; injection Ht as <-; congruence).
  destruct (oneWay s).
  { eexists. split; [done|]. assert (Hret : moves false p (returnCredit (blen b) p) (0 + blen b) id 0) by (apply moves_return; [by apply moves_refl|done]).
    destruct (resetStream_moves id ResetRefused _ (mv_ok _ _ _ _ _ _ Hret)) as [Hm Hn]. apply (moves_dead false p _ _ id 0); [|done|done].
    pose proof (moves_trans _ _ _ _ _ _ _ _ Hret Hm) as Ht. by rewrite Z.add_0_l, !Z.add_0_r in Ht. }
  unfold deliver. destruct (reset s) eqn:Er; [eexists; split; [done|]; apply returned_moves; [done|]; by apply Hdead|].
  destruct (readClosed s) eqn:Erd; [eexists; split; [done|]; apply returned_moves; [done|]; by apply Hdead|]. cbn in Hr.
  rewrite (proj2 (Z.ltb_ge _ _)) by (by apply Hw). rewrite (proj2 (Z.ltb_ge _ _)) by done. eexists. split; [done|].
  unfold addHeld, withStream. cbn [streams held connPend owed]. destruct Hpos.
  assert (Hl : blen (buf s ++ b) = blen (buf s) + blen b) by (unfold blen; rewrite length_app; lia).
  apply moves_replace with (s := s); try done; unfold heldOf, recv, credit; cbn; rewrite ?Hr; try lia; [|by left].
  constructor; cbn; [done|]. by rewrite ?Hr, (Hrc s eq_refl).
Qed.

Lemma read_moves id n s p out grant count p' : peerOK p -> streams p !! id = Some s -> Read id n s p = (out, grant, count, p') ->
  moves false p p' (- count) id (- grant) /\ 0 <= count /\ 0 <= grant.
Proof.
  intros Hp E Hr. pose proof Hp as [Hs Hh [? ?]]. pose proof (Hs _ _ E) as [Hu Hrel]. revert Hr. unfold Read. destruct (heldReleased s) eqn:Er.
  - intros [= <- <- <- <-]. split; [|done]. apply moves_replace with (s := s); try done; try (unfold heldOf, recv, credit; cbn; rewrite ?Er; lia); try (by left).
  - intros [= <- <- <- <-]. pose proof (blen_nonneg (take n (buf s))). assert (Hlen : blen (take n (buf s)) + blen (drop n (buf s)) = blen (buf s)).
    { unfold blen. rewrite <- (take_drop n (buf s)) at 3. rewrite length_app. lia. }
    split; [|split; [done|destruct (_ <=? _); lia]]. unfold addHeld, withStream. cbn [streams held connPend owed].
    apply moves_replace with (s := s); try done; try (unfold heldOf, recv, credit; cbn; rewrite ?Er; lia); try (by left).
    + constructor; cbn; [destruct (Z.leb_spec (StreamWindow / 4) (unacked s + blen (take n (buf s)))); [by rewrite Z.sub_diag|lia]|by rewrite <- Hrel].
Qed.

(** ** The invariant *)

Definition noData (id : Z) (w : list item) : Prop := forall b, Data id b ∉ w.

Definition streamTotal (id : Z) (st : Flow) : Z :=
  match sends st !! id with Some s => avail s | None => 0 end + handOf id (taken st) + dataOf id (wire st) + recvOf id (peer st) + winOf id (granting st) + winOf id (back st).

Record flowOK (st : Flow) : Prop := mkFlowOK {
  fo_conn : avail (conn st) + handAll (taken st) + dataAll (wire st) + credit (peer st) + total (counting st) + winOf 0 (granting st) + winOf 0 (back st) = ConnWindow;
  fo_avail : 0 <= avail (conn st);
  fo_counting : Forall (fun n => 0 <= n) (counting st);
  fo_wins : positive (granting st) /\ positive (back st);
  fo_peer : peerOK (peer st);
  fo_pend : connPend (peer st) < ConnWindow / 4;
  fo_zero : sends st !! 0 = None /\ streams (peer st) !! 0 = None;
  fo_sends : forall id s, sends st !! id = Some s -> 0 <= avail s;
  fo_stream : forall id, id <> 0 -> streamTotal id st <= StreamWindow /\ (live id (peer st) -> streamTotal id st = StreamWindow);
  fo_none : forall id, id <> 0 -> sends st !! id = None -> streamTotal id st = 0 /\ streams (peer st) !! id = None;
  fo_shut : forall id, id ∈ shut st -> handFor id (taken st) = false;
  fo_wire : forall w1 id w2, wire st = w1 ++ CloseFrame id :: w2 -> id ∈ shut st /\ noData id w2;
  fo_remote : forall id s, streams (peer st) !! id = Some s -> remoteClosed s = true -> id ∈ shut st /\ noData id (wire st) }.

(** A step of the receiving peer on stream [id]: [c] bytes of the connection's credit
    and [d] of the stream's arrive from elsewhere. *)
Lemma peer_step st st' rc c id d :
  flowOK st -> moves rc (peer st) (peer st') c id d ->
  conn st' = conn st -> sends st' = sends st -> shut st' = shut st -> taken st' = taken st ->
  dataAll (wire st') + total (counting st') + winOf 0 (granting st') + winOf 0 (back st') + c = dataAll (wire st) + total (counting st) + winOf 0 (granting st) + winOf 0 (back st) ->
  (forall i, i <> 0 -> dataOf i (wire st') + winOf i (granting st') + winOf i (back st') + (if i =? id then d else 0) = dataOf i (wire st) + winOf i (granting st) + winOf i (back st)) ->
  Forall (fun n => 0 <= n) (counting st') -> positive (granting st') -> positive (back st') ->
  (forall w1 i w2, wire st' = w1 ++ CloseFrame i :: w2 -> i ∈ shut st /\ noData i w2) ->
  (forall i, noData i (wire st) -> noData i (wire st')) -> (rc = true -> id ∈ shut st /\ noData id (wire st')) ->
  flowOK st'.
Proof.
  intros [Hc Ha Hcn [Hg Hb] Hp Hpn Hz Hss Hs Hn Hsh Hw Hr] [M1 M2 Mp M3 M4 M5] Ec Es Esh Et Ed Ei Hcn' Hg' Hb' Hw' Hnd Hrc.
  assert (Htot : forall i, i <> 0 -> streamTotal i st' <= streamTotal i st /\ (live i (peer st') -> streamTotal i st' = streamTotal i st)).
  { intros i Hi. specialize (Ei i Hi). specialize (M4 i). specialize (M3 i). unfold streamTotal. rewrite Es, Et. split; [destruct (i =? id); lia|]. intros Hl. destruct (M3 Hl) as [_ E]. destruct (i =? id); lia. }
  constructor; rewrite ?Ec, ?Es, ?Esh, ?Et; try done.
  - lia.
  - by apply Mp.
  - split; [apply Hz|]. destruct (streams (peer st') !! 0) as [s'|] eqn:E; [|done]. destruct (M5 _ _ E) as (s & Hs' & _). destruct Hz. congruence.
  - intros i Hi. destruct (Htot i Hi) as [H1 H2]. destruct (Hs i Hi) as [H3 H4]. split; [lia|]. intros Hl. rewrite (H2 Hl). apply H4. by apply M3.
  - intros i Hi Hnone. destruct (Hn i Hi Hnone) as [H1 H2]. destruct (streams (peer st') !! i) as [s'|] eqn:E; [destruct (M5 _ _ E) as (s & Hs' & _); congruence|].
    split; [|done]. destruct (Htot i Hi) as [H3 _]. assert (0 <= streamTotal i st'); [|lia].
    unfold streamTotal. rewrite Es, Hnone. pose proof (handOf_nonneg i (taken st')). pose proof (dataOf_nonneg i (wire st')). pose proof (recvOf_nonneg i _ M1). pose proof (winOf_nonneg i _ Hg'). pose proof (winOf_nonneg i _ Hb'). lia.
  - intros i s' Hi Hrem. destruct (M5 _ _ Hi) as (s & Hs' & Hm). destruct (Hm Hrem) as [Hrs|[-> ->]]; [|by apply Hrc]. destruct (Hr _ _ Hs' Hrs). split; [done|]. by apply Hnd.
Qed.

Lemma handFor_none id t : handFor id t = false <-> forall b, (id, b) ∉ t.
Proof.
  unfold handFor. split.
  - intros H b Hin. assert (existsb (fun x => fst x =? id) t = true); [|congruence]. apply existsb_exists. exists (id, b). split; [by apply list_elem_of_In|apply Z.eqb_refl].
  - intros H. destruct (existsb _ t) eqn:E; [|done]. apply existsb_exists in E as ([i b] & Hin%list_elem_of_In & Hi%Z.eqb_eq). cbn in Hi. subst i. by destruct (H b).
Qed.

(** Where the last item of a wire is new, a CLOSE before it was there already. *)
Lemma wire_snoc w x w1 id w2 : w ++ [x] = w1 ++ CloseFrame id :: w2 ->
  (exists w2', w = w1 ++ CloseFrame id :: w2' /\ w2 = w2' ++ [x]) \/ (w = w1 /\ x = CloseFrame id /\ w2 = []).
Proof.
  intros H. destruct w2 as [|y w2 _] using rev_ind.
  - apply app_inj_tail in H as [-> ->]. by right.
  - left. rewrite app_comm_cons, app_assoc in H. apply app_inj_tail in H as [-> ->]. by exists w2.
Qed.

Lemma wire_cons x w w1 id w2 : w = w1 ++ CloseFrame id :: w2 -> x :: w = (x :: w1) ++ CloseFrame id :: w2.
Proof. by intros ->. Qed.

Lemma noData_cons i x w : noData i (x :: w) -> noData i w.
Proof. intros H b Hin. apply (H b). by right. Qed.

Lemma tryTake_spec max s c n s' c' : tryTake max s c = Some (n, s', c') -> 0 < n -> 0 <= avail s -> 0 <= avail c ->
  n <= max /\ avail s' = avail s - n /\ avail c' = avail c - n /\ 0 <= avail s' /\ 0 <= avail c'.
Proof.
  unfold tryTake, takeUpTo. destruct (closed s); [done|]. destruct (Z.ltb_spec (avail s) max).
  - destruct (Z.leb_spec (avail s) 0); [intros [= <- <- <-]; lia|]. destruct (closed c); [done|].
    destruct (Z.ltb_spec (avail c) (avail s)); cbv zeta; match goal with |- context [?x =? 0] => destruct (Z.eqb_spec x 0) end; intros [= <- <- <-]; cbn [avail]; lia.
  - destruct (Z.leb_spec max 0); [intros [= <- <- <-]; lia|]. destruct (closed c); [done|].
    destruct (Z.ltb_spec (avail c) max); cbv zeta; match goal with |- context [?x =? 0] => destruct (Z.eqb_spec x 0) end; intros [= <- <- <-]; cbn [avail]; lia.
Qed.

Ltac flow := cbn [conn sends shut taken wire peer counting granting back] in *.

Lemma open_ok c ss sh t w p cs gs bk id one : id <> 0 -> ss !! id = None -> streams p !! id = None ->
  flowOK (mkFlow c ss sh t w p cs gs bk) -> flowOK (mkFlow c (<[id := NewStreamCredit]> ss) sh t w (withStream id (newStream one) p) cs gs bk).
Proof.
  intros Hid Hnone Hp0 [Hc Ha Hcn [Hg Hb] Hp Hpn Hz Hss Hs Hn Hsh Hw Hr]. flow. pose proof Hp as [Hps Hph Hpp].
  assert (Hrecv : forall i, recvOf i (withStream id (newStream one) p) = recvOf i p).
  { intros i. unfold recvOf. cbn. destruct (Z.eq_dec i id) as [->|Hne]; [by rewrite lookup_insert_eq, Hp0|by rewrite lookup_insert_ne by done]. }
  destruct (Hn id Hid Hnone) as [Htot _]. unfold streamTotal in Htot. flow. rewrite Hnone in Htot.
  constructor; flow; try done.
  - constructor; cbn; [|by rewrite heldSum_insert|done]. intros i s [[_ <-]|[_ H]]%lookup_insert_Some; [by constructor|by eapply Hps].
  - cbn [streams withStream]. by rewrite !lookup_insert_ne.
  - intros i s [[_ <-]|[_ H]]%lookup_insert_Some; [done|by eapply Hss].
  - intros i Hi. unfold streamTotal. flow. rewrite Hrecv. destruct (Z.eq_dec i id) as [->|Hne].
    + rewrite lookup_insert_eq. cbn [avail NewStreamCredit]. lia.
    + rewrite lookup_insert_ne by done. destruct (Hs i Hi) as [H1 H2]. split; [exact H1|]. intros (s & H & Hrel). cbn in H. rewrite lookup_insert_ne in H by done. apply H2. by exists s.
  - intros i Hi H. apply lookup_insert_None in H as [H Hne]. unfold streamTotal. flow. rewrite Hrecv, lookup_insert_ne by done. cbn. rewrite lookup_insert_ne by done. apply (Hn i Hi H).
  - cbn [streams withStream]. intros i s [[_ <-]|[_ H]]%lookup_insert_Some; [done|by eapply Hr].
Qed.

Lemma take_ok c ss sh t w p cs gs bk id s max n s' c' b : ss !! id = Some s -> id ∉ sh -> tryTake max s c = Some (n, s', c') -> 0 < n -> blen b = n ->
  flowOK (mkFlow c ss sh t w p cs gs bk) -> flowOK (mkFlow c' (<[id := s']> ss) sh ((id, b) :: t) w p cs gs bk).
Proof.
  intros Hid Hnsh Ht Hn0 Hb0 [Hc Ha Hcn [Hg Hb] Hp Hpn Hz Hss Hs Hn Hsh Hw Hr]. flow. destruct (tryTake_spec _ _ _ _ _ _ Ht Hn0 (Hss _ _ Hid) Ha) as (_ & Es & Ec & Hs0 & Hc0).
  assert (Htot : forall i, streamTotal i (mkFlow c' (<[id := s']> ss) sh ((id, b) :: t) w p cs gs bk) = streamTotal i (mkFlow c ss sh t w p cs gs bk)).
  { intros i. unfold streamTotal. flow. unfold handOf. rewrite sum_cons. unfold handFor_ at 1. cbn [fst snd]. destruct (Z.eqb_spec id i) as [->|Hne]; [rewrite lookup_insert_eq, Hid; lia|].
    rewrite lookup_insert_ne by done. lia. }
  constructor; flow; try done.
  - unfold handAll in *. rewrite sum_cons. cbn [snd]. lia.
  - destruct Hz. destruct (Z.eq_dec id 0) as [->|]; [congruence|]. by rewrite lookup_insert_ne.
  - intros i x [[_ <-]|[_ H]]%lookup_insert_Some; [done|by eapply Hss].
  - intros i Hi. rewrite Htot. apply (Hs i Hi).
  - intros i Hi H. rewrite Htot. apply lookup_insert_None in H as [H _]. apply (Hn i Hi H).
  - intros i Hi. specialize (Hsh i Hi). unfold handFor in *. cbn [existsb fst]. rewrite Hsh, orb_false_r. apply Z.eqb_neq. by intros ->.
Qed.

Lemma send_ok c ss sh t1 id b t2 w p cs gs bk : flowOK (mkFlow c ss sh (t1 ++ (id, b) :: t2) w p cs gs bk) -> flowOK (mkFlow c ss sh (t1 ++ t2) (w ++ [Data id b]) p cs gs bk).
Proof.
  intros [Hc Ha Hcn [Hg Hb] Hp Hpn Hz Hss Hs Hn Hsh Hw Hr]. flow.
  assert (Hnsh : id ∉ sh) by (intros Hin; apply Hsh, handFor_none with (b := b) in Hin; apply Hin, elem_of_app; right; left).
  assert (Htot : forall i, streamTotal i (mkFlow c ss sh (t1 ++ t2) (w ++ [Data id b]) p cs gs bk) = streamTotal i (mkFlow c ss sh (t1 ++ (id, b) :: t2) w p cs gs bk)).
  { intros i. unfold streamTotal. flow. unfold handOf, dataOf. rewrite !sum_app, !sum_cons. unfold handFor_ at 4. cbn [itemFor fst snd map]. change (total []) with 0. lia. }
  constructor; flow; try done.
  - unfold handAll, dataAll in *. rewrite sum_app, sum_cons in Hc. rewrite !sum_app, sum_cons. cbn [itemLen snd map] in *. change (total []) with 0. lia.
  - intros i Hi. rewrite Htot. apply (Hs i Hi).
  - intros i Hi H. rewrite Htot. apply (Hn i Hi H).
  - intros i Hi. apply handFor_none. intros b' Hin. specialize (Hsh i Hi). rewrite handFor_none in Hsh. apply (Hsh b'). rewrite elem_of_app in *. destruct Hin; [by left|right; by right].
  - intros w1 i w2 [(w2' & -> & ->)|(_ & [=] & _)]%wire_snoc. destruct (Hw _ _ _ eq_refl) as [H1 H2]. split; [done|]. intros b' [Hin|Hin]%elem_of_app; [by apply (H2 b')|].
    apply list_elem_of_singleton in Hin as [= -> _]. done.
  - intros i s H1 H2. destruct (Hr _ _ H1 H2) as [H3 H4]. split; [done|]. intros b' [Hin|Hin]%elem_of_app; [by apply (H4 b')|]. apply list_elem_of_singleton in Hin as [= -> _]. done.
Qed.

Lemma shut_ok c ss sh t w p cs gs bk id : handFor id t = false -> flowOK (mkFlow c ss sh t w p cs gs bk) -> flowOK (mkFlow c ss (id :: sh) t (w ++ [CloseFrame id]) p cs gs bk).
Proof.
  intros Hh [Hc Ha Hcn [Hg Hb] Hp Hpn Hz Hss Hs Hn Hsh Hw Hr]. flow.
  assert (Htot : forall i, streamTotal i (mkFlow c ss (id :: sh) t (w ++ [CloseFrame id]) p cs gs bk) = streamTotal i (mkFlow c ss sh t w p cs gs bk)).
  { intros i. unfold streamTotal. flow. unfold dataOf. rewrite sum_app. cbn [itemFor map]. rewrite ?total_cons. change (total []) with 0. lia. }
  constructor; flow; try done.
  - unfold dataAll in *. rewrite sum_app. cbn [itemLen map]. rewrite ?total_cons. change (total []) with 0. lia.
  - intros i Hi. rewrite Htot. apply (Hs i Hi).
  - intros i Hi H. rewrite Htot. apply (Hn i Hi H).
  - intros i [->|Hi]%elem_of_cons; [done|by apply Hsh].
  - intros w1 i w2 [(w2' & -> & ->)|(_ & [= ->] & ->)]%wire_snoc.
    + destruct (Hw _ _ _ eq_refl) as [H1 H2]. split; [by right|]. intros b' [Hin|Hin]%elem_of_app; [by apply (H2 b')|]. by apply list_elem_of_singleton in Hin.
    + split; [by left|]. intros b' Hin. by apply not_elem_of_nil in Hin.
  - intros i s H1 H2. destruct (Hr _ _ H1 H2) as [H3 H4]. split; [by right|]. intros b' [Hin|Hin]%elem_of_app; [by apply (H4 b')|]. by apply list_elem_of_singleton in Hin.
Qed.

(** The streams stay as they are. *)
Lemma moves_same p cp ow c : peerOK p -> 0 <= cp < ConnWindow / 4 -> 0 <= ow -> held p + cp + ow = credit p + c -> moves false p (mkPeer (streams p) (held p) cp ow) c 0 0.
Proof.
  intros [Hs Hh Hp] Hcp How Hc. destruct Hcp. constructor; [by constructor|done|done| | |eauto 10]; intros i; [intros Hl; split; [done|]|]; unfold recvOf; cbn; destruct (i =? 0); lia.
Qed.

Lemma heldSum_nonneg m : 0 <= heldSum m.
Proof.
  induction m as [|i s m Hi IH] using map_ind; [done|]. rewrite heldSum_insert by done. unfold heldOf. pose proof (blen_nonneg (buf s)). destruct (heldReleased s); lia.
Qed.

Lemma credit_nonneg p : peerOK p -> 0 <= credit p /\ 0 <= owed p <= credit p /\ 0 <= held p.
Proof. intros [_ Hh [? ?]]. unfold credit. pose proof (heldSum_nonneg (streams p)). lia. Qed.

Lemma total_nonneg l : Forall (fun n => 0 <= n) l -> 0 <= total l.
Proof. intros H. induction H as [|n l Hn _ IH]; [done|]. rewrite total_cons. lia. Qed.

Lemma conn_room st : flowOK st -> dataAll (wire st) + credit (peer st) + winOf 0 (granting st) <= ConnWindow.
Proof.
  intros [Hc Ha Hcn [Hg Hb] Hp Hpn Hz Hss Hs Hn Hsh Hw Hr]. pose proof (handAll_nonneg (taken st)). pose proof (winOf_nonneg 0 _ Hb). pose proof (total_nonneg _ Hcn). lia.
Qed.

(** What is under way for a stream, with what its buffer holds, fits its window. *)
Lemma stream_room st id : flowOK st -> id <> 0 -> dataOf id (wire st) + recvOf id (peer st) + winOf id (granting st) <= StreamWindow.
Proof.
  intros [Hc Ha Hcn [Hg Hb] Hp Hpn Hz Hss Hs Hn Hsh Hw Hr] Hi. destruct (Hs id Hi) as [H _]. unfold streamTotal in H. pose proof (handOf_nonneg id (taken st)). pose proof (winOf_nonneg id _ Hb).
  assert (0 <= match sends st !! id with Some s => avail s | None => 0 end) by (destruct (sends st !! id) eqn:E; [by eapply Hss|done]). lia.
Qed.

(** The head of the wire is taken: it is DATA within both windows. *)
Lemma data_fits st id b w : flowOK st -> wire st = Data id b :: w -> exists p', handleData id b (peer st) = Some p' /\ moves false (peer st) p' (blen b) id (blen b).
Proof.
  intros Hok Ew. pose proof (conn_room st Hok) as Hconn. pose proof Hok as [Hc Ha Hcn [Hg Hb] Hp Hpn Hz Hss Hs Hn Hsh Hw Hr]. pose proof (credit_nonneg _ Hp) as (Hc1 & Hc2 & Hc3). pose proof (winOf_nonneg 0 _ Hg).
  rewrite Ew in *. unfold dataAll in Hconn. rewrite sum_cons in Hconn. cbn [itemLen] in Hconn. pose proof (dataAll_nonneg w). unfold dataAll in *.
  apply handleData_moves; [done| |unfold credit in *; destruct Hp as [_ _ [? ?]]; lia|].
  - intros s Hl Hrel. assert (Hid : id <> 0) by (intros ->; destruct Hz; congruence). pose proof (stream_room st id Hok Hid) as Hroom. rewrite Ew in Hroom. unfold dataOf in Hroom. rewrite sum_cons in Hroom.
    cbn [itemFor] in Hroom. rewrite Z.eqb_refl in Hroom. pose proof (dataOf_nonneg id w). unfold dataOf in *. pose proof (winOf_nonneg id _ Hg). unfold recvOf in Hroom. rewrite Hl in Hroom. unfold recv in Hroom. rewrite Hrel in Hroom.
    destruct Hp as [Hps _ _]. destruct (Hps _ _ Hl) as [? _]. lia.
  - intros s Hl. destruct (remoteClosed s) eqn:E; [|done]. destruct (Hr _ _ Hl E) as [_ H1]. exfalso. apply (H1 b). by left.
Qed.

(** A step of the peer that leaves the wire and what is owed alone. *)
Lemma quiet_ok c ss sh t w p p' cs gs bk id : flowOK (mkFlow c ss sh t w p cs gs bk) -> moves false p p' 0 id 0 -> flowOK (mkFlow c ss sh t w p' cs gs bk).
Proof.
  intros Hok Hm. pose proof Hok as [Hc Ha Hcn [Hg Hb] Hp Hpn Hz Hss Hs Hn Hsh Hw Hr]. flow. apply (peer_step _ _ false 0 id 0 Hok); flow; try done.
  - lia.
  - intros i _. destruct (i =? id); lia.
Qed.

Lemma data_ok c ss sh t w p p' cs gs bk id b : handleData id b p = Some p' ->
  flowOK (mkFlow c ss sh t (Data id b :: w) p cs gs bk) -> flowOK (mkFlow c ss sh t w p' cs gs bk).
Proof.
  intros Hd Hok. destruct (data_fits _ id b w Hok eq_refl) as (q & Hq & Hm). flow. assert (q = p') as -> by congruence.
  pose proof Hok as [Hc Ha Hcn [Hg Hb] Hp Hpn Hz Hss Hs Hn Hsh Hw Hr]. flow. apply (peer_step _ _ false (blen b) id (blen b) Hok); flow; try done.
  - unfold dataAll. rewrite sum_cons. cbn [itemLen]. lia.
  - intros i _. unfold dataOf. rewrite sum_cons. cbn [itemFor]. rewrite (Z.eqb_sym id i). lia.
  - intros w1 i w2 E. apply (Hw (Data id b :: w1)). by rewrite E.
  - intros i. apply noData_cons.
Qed.

Lemma close_ok c ss sh t w p cs gs bk id :
  flowOK (mkFlow c ss sh t (CloseFrame id :: w) p cs gs bk) -> flowOK (mkFlow c ss sh t w (remoteClose id p) cs gs bk).
Proof.
  intros Hok. pose proof Hok as [Hc Ha Hcn [Hg Hb] Hp Hpn Hz Hss Hs Hn Hsh Hw Hr]. flow.
  apply (peer_step _ _ true 0 id 0 Hok); flow; try done; [by apply remoteClose_moves|..].
  - unfold dataAll. rewrite sum_cons. cbn [itemLen]. lia.
  - intros i _. unfold dataOf. rewrite sum_cons. cbn [itemFor]. destruct (i =? id); lia.
  - intros w1 i w2 E. apply (Hw (CloseFrame id :: w1)). by rewrite E.
  - intros i. apply noData_cons.
  - intros _. by apply (Hw []).
Qed.

Lemma read_ok c ss sh t w p cs gs bk id n s out grant count p' : streams p !! id = Some s -> Read id n s p = (out, grant, count, p') ->
  flowOK (mkFlow c ss sh t w p cs gs bk) -> flowOK (mkFlow c ss sh t w p' (if 0 <? count then count :: cs else cs) (note id grant gs) bk).
Proof.
  intros Hl Hrd Hok. pose proof Hok as [Hc Ha Hcn [Hg Hb] Hp Hpn Hz Hss Hs Hn Hsh Hw Hr]. flow. destruct (read_moves _ _ _ _ _ _ _ _ Hp Hl Hrd) as (Hm & Hct & Hgr).
  assert (Hid : id <> 0) by (intros ->; destruct Hz; congruence).
  apply (peer_step _ _ false (- count) id (- grant) Hok); flow; try done.
  - rewrite winOf_note, (proj2 (Z.eqb_neq id 0)) by done. destruct (Z.ltb_spec 0 count); rewrite ?total_cons; lia.
  - intros i _. rewrite winOf_note by done. rewrite (Z.eqb_sym id i). destruct (i =? id); lia.
  - destruct (0 <? count); [by constructor|done].
  - by apply note_positive.
Qed.

Lemma count_ok c ss sh t w p cs1 n cs2 gs bk g p' : consumed n p = (g, p') ->
  flowOK (mkFlow c ss sh t w p (cs1 ++ n :: cs2) gs bk) -> flowOK (mkFlow c ss sh t w p' (cs1 ++ cs2) (note 0 g gs) bk).
Proof.
  intros Hcon Hok. pose proof Hok as [Hc Ha Hcn [Hg Hb] Hp Hpn Hz Hss Hs Hn Hsh Hw Hr]. flow. apply Forall_app in Hcn as [Hc1 Hc2]. inversion_clear Hc2 as [|? ? Hn0 Hc3]. pose proof Hp as [_ _ [Hcp Ho]].
  assert (Hm : moves false p p' (n - g) 0 0 /\ 0 <= g).
  { assert (0 < ConnWindow / 4) by reflexivity. unfold consumed in Hcon. destruct (Z.leb_spec (ConnWindow / 4) (connPend p + n)); injection Hcon as <- <-; (split; [apply moves_same; unfold credit; try done; lia|lia]). }
  destruct Hm as [Hm Hg0]. apply (peer_step _ _ false (n - g) 0 0 Hok); flow; try done.
  - rewrite winOf_note by done. rewrite Z.eqb_refl, !total_app, total_cons. lia.
  - intros i Hi. rewrite winOf_note by done. rewrite (proj2 (Z.eqb_neq 0 i)) by congruence. destruct (i =? 0); lia.
  - by apply Forall_app.
  - by apply note_positive.
Qed.

Lemma owed_ok c ss sh t w p cs gs bk n p' : takeOwed p = (n, p') ->
  flowOK (mkFlow c ss sh t w p cs gs bk) -> flowOK (mkFlow c ss sh t w p' cs (note 0 n gs) bk).
Proof.
  intros Ht Hok. pose proof Hok as [Hc Ha Hcn [Hg Hb] Hp Hpn Hz Hss Hs Hn Hsh Hw Hr]. pose proof (conn_room _ Hok) as Hroom. flow. pose proof (credit_nonneg _ Hp) as (? & ? & ?).
  pose proof (dataAll_nonneg w). pose proof (winOf_nonneg 0 _ Hg). pose proof Hp as [_ _ [Hcp Ho]]. unfold takeOwed in Ht. rewrite Z.min_l in Ht by (unfold maxUint32; change ConnWindow with 4194304 in *; lia). injection Ht as <- <-.
  apply (peer_step _ _ false (- owed p) 0 0 Hok); flow; try done.
  - apply moves_same; unfold credit; try done; lia.
  - rewrite winOf_note by lia. rewrite Z.eqb_refl. lia.
  - intros i Hi. rewrite winOf_note by lia. rewrite (proj2 (Z.eqb_neq 0 i)) by congruence. destruct (i =? 0); lia.
  - by apply note_positive.
Qed.

Lemma grant_ok c ss sh t w p cs gs1 id n gs2 bk :
  flowOK (mkFlow c ss sh t w p cs (gs1 ++ (id, n) :: gs2) bk) -> flowOK (mkFlow c ss sh t w p cs (gs1 ++ gs2) (bk ++ [(id, uint32 n)])).
Proof.
  intros Hok. pose proof Hok as [Hc Ha Hcn [Hg Hb] Hp Hpn Hz Hss Hs Hn Hsh Hw Hr]. flow.
  assert (Hpos : positive gs1 /\ 0 <= n /\ positive gs2) by (apply Forall_app in Hg as [? Hg2]; by inversion_clear Hg2). destruct Hpos as (P1 & P2 & P3).
  assert (Hsmall : n < 2 ^ 32).
  { pose proof (winOf_nonneg id _ P1) as W1. pose proof (winOf_nonneg id _ P3) as W3. pose proof (credit_nonneg _ Hp) as (? & _ & _). pose proof (dataAll_nonneg w). pose proof (dataOf_nonneg id w). pose proof (recvOf_nonneg id _ Hp).
    destruct (Z.eq_dec id 0) as [->|Hne].
    - pose proof (conn_room _ Hok) as H'. flow. rewrite winOf_app, winOf_cons in H'. cbn [Z.eqb] in H'. change ConnWindow with 4194304 in *. lia.
    - pose proof (stream_room _ id Hok Hne) as H'. flow. rewrite winOf_app, winOf_cons, Z.eqb_refl in H'. change StreamWindow with 262144 in *. lia. }
  assert (Eu : uint32 n = n) by (unfold uint32; apply Z.mod_small; lia). rewrite Eu.
  apply (peer_step _ _ false 0 0 0 Hok); flow; try done; [by apply moves_refl|..].
  - rewrite !winOf_app, !winOf_cons. change (winOf _ []) with 0. lia.
  - intros i Hi. rewrite !winOf_app, !winOf_cons. change (winOf _ []) with 0. destruct (i =? 0); lia.
  - by apply Forall_app.
  - apply Forall_app. split; [done|]. by constructor.
Qed.

Lemma window_ok c ss sh t w p cs gs n bk : flowOK (mkFlow c ss sh t w p cs gs ((0, n) :: bk)) -> flowOK (mkFlow (Add n c) ss sh t w p cs gs bk).
Proof.
  intros [Hc Ha Hcn [Hg Hb] Hp Hpn Hz Hss Hs Hn Hsh Hw Hr]. flow. inversion_clear Hb as [|? ? Hn0 Hb']. cbn in Hn0. rewrite winOf_cons in Hc. cbn [Z.eqb] in Hc.
  assert (Htot : forall i, i <> 0 -> streamTotal i (mkFlow (Add n c) ss sh t w p cs gs bk) = streamTotal i (mkFlow c ss sh t w p cs gs ((0, n) :: bk))).
  { intros i Hi. unfold streamTotal. flow. rewrite winOf_cons, (proj2 (Z.eqb_neq 0 i)) by congruence. lia. }
  constructor; flow; try done.
  - unfold Add. cbn [avail]. lia.
  - unfold Add. cbn [avail]. lia.
  - intros i Hi. rewrite Htot by done. apply (Hs i Hi).
  - intros i Hi H. rewrite Htot by done. apply (Hn i Hi H).
Qed.

Lemma swindow_ok c ss sh t w p cs gs id n bk : id <> 0 -> flowOK (mkFlow c ss sh t w p cs gs ((id, n) :: bk)) -> flowOK (mkFlow c (alter (Add n) id ss) sh t w p cs gs bk).
Proof.
  intros Hid [Hc Ha Hcn [Hg Hb] Hp Hpn Hz Hss Hs Hn Hsh Hw Hr]. flow. inversion_clear Hb as [|? ? Hn0 Hb']. cbn in Hn0. rewrite winOf_cons in Hc. rewrite (proj2 (Z.eqb_neq id 0)) in Hc by done.
  assert (Htot : forall i, i <> 0 -> streamTotal i (mkFlow c (alter (Add n) id ss) sh t w p cs gs bk) <= streamTotal i (mkFlow c ss sh t w p cs gs ((id, n) :: bk)) /\
    (is_Some (ss !! i) -> streamTotal i (mkFlow c (alter (Add n) id ss) sh t w p cs gs bk) = streamTotal i (mkFlow c ss sh t w p cs gs ((id, n) :: bk)))).
  { intros i Hi. unfold streamTotal. flow. rewrite winOf_cons. destruct (Z.eqb_spec id i) as [->|Hne].
    - rewrite lookup_alter_eq. destruct (ss !! i) as [s|]; cbn [fmap option_fmap option_map]; [unfold Add; cbn [avail]|]; (split; [lia|]); [intros _; lia|intros [? [=]]].
    - rewrite lookup_alter_ne by done. split; [lia|]. intros _. lia. }
  constructor; flow; try done.
  - destruct Hz. by rewrite lookup_alter_ne.
  - intros i s H. destruct (Z.eq_dec id i) as [->|Hne]; [|rewrite lookup_alter_ne in H by done; by eapply Hss]. rewrite lookup_alter_eq in H. destruct (ss !! i) as [s0|] eqn:E; [|done]. injection H as <-.
    specialize (Hss _ _ E). unfold Add. cbn. lia.
  - intros i Hi. destruct (Htot i Hi) as [H1 H2]. destruct (Hs i Hi) as [H3 H4]. split; [lia|]. intros Hl. rewrite H2; [by apply H4|]. destruct (ss !! i) eqn:E; [done|]. destruct (Hn i Hi E) as [_ H5]. destruct Hl as (s & Hl & _). congruence.
  - intros i Hi H. assert (E : ss !! i = None) by (destruct (Z.eq_dec id i) as [->|Hne]; [rewrite lookup_alter_eq in H; by destruct (ss !! i)|by rewrite lookup_alter_ne in H]).
    destruct (Hn i Hi E) as [H1 H2]. split; [|done]. destruct (Htot i Hi) as [H3 _]. assert (0 <= streamTotal i (mkFlow c (alter (Add n) id ss) sh t w p cs gs bk)); [|lia].
    unfold streamTotal. flow. rewrite H. pose proof (handOf_nonneg i t). pose proof (dataOf_nonneg i w). pose proof (recvOf_nonneg i _ Hp). pose proof (winOf_nonneg i _ Hg). pose proof (winOf_nonneg i _ Hb'). lia.
Qed.

Lemma flowStep_ok st st' : flowOK st -> flowStep st st' -> flowOK st'.
Proof.
  intros Hok H. pose proof (fo_peer _ Hok) as Hp. destruct H; flow.
  - by apply open_ok.
  - by eapply take_ok.
  - by apply send_ok.
  - by apply shut_ok.
  - by eapply data_ok.
  - by apply close_ok.
  - by eapply read_ok.
  - by eapply count_ok.
  - by eapply quiet_ok, closeRead_moves.
  - by eapply quiet_ok, closeWrite_moves.
  - by eapply quiet_ok, abort_moves.
  - eapply quiet_ok; [done|]. apply forget_moves with (s := s); [done|done|]. destruct Hp as [Hps _ _]. destruct (Hps id s) as [_ ->]; [done|].
    match goal with H : _ \/ _ |- _ => destruct H as [Hr|[-> ->]] end; [by rewrite bool_decide_eq_true_2|by rewrite orb_true_r].
  - by eapply owed_ok.
  - by apply grant_ok.
  - by apply window_ok.
  - by apply swindow_ok.
Qed.

Lemma newFlow_ok : flowOK newFlow.
Proof.
  constructor; cbn; try done; try (by intros i0 s0 Hl; rewrite lookup_empty in Hl).
  - split; constructor.
  - intros id _. split; [done|]. intros (s & H & _). cbn in H. by rewrite lookup_empty in H.
  - intros w1 id w2 H. by destruct w1.
Qed.

Lemma flow_reachable st : rtc flowStep newFlow st -> flowOK st.
Proof. intros H. pose proof newFlow_ok as Ho. induction H as [|x y z Hxy _ IH]; [done|]. apply IH. by eapply flowStep_ok. Qed.

(** A writer within its credit is never refused: in every run of opens, writes,
    reads, closes, resets and window updates, DATA that arrives fits the buffer of
    its stream and of the connection (no stream is reset for overflow and the link
    does not end), and the bytes held for readers never exceed the connection's
    window, however many streams there are. *)
Theorem writer_within_credit_is_never_refused st :
  rtc flowStep newFlow st ->
  0 <= held (peer st) <= ConnWindow /\
  forall id b w, wire st = Data id b :: w ->
    (exists p', handleData id b (peer st) = Some p') /\
    (forall s, streams (peer st) !! id = Some s -> fst (deliver id b s (peer st)) = deliverOK).
Proof.
  intros H%flow_reachable. pose proof (conn_room st H) as Hroom. pose proof H as [Hc Ha Hcn [Hg Hb] Hp Hpn Hz Hss Hs Hn Hsh Hw Hr]. pose proof (credit_nonneg _ Hp) as (Hc1 & Hc2 & Hc3).
  pose proof Hp as [Hps _ [? ?]]. pose proof (dataAll_nonneg (wire st)). pose proof (winOf_nonneg 0 _ Hg). split; [unfold credit in *; lia|]. intros id b w Ew. split.
  - destruct (data_fits st id b w H Ew) as (p' & Hp' & _). by exists p'.
  - intros s Hl. unfold deliver. destruct (Hps _ _ Hl) as [Hu Hrel]. destruct (reset s); [done|]. destruct (readClosed s) eqn:Er; [done|].
    assert (Hrc : remoteClosed s = false) by (destruct (remoteClosed s) eqn:E; [|done]; destruct (Hr _ _ Hl E) as [_ Hnd]; exfalso; apply (Hnd b); rewrite Ew; by left).
    rewrite Hrc in Hrel. cbn in Hrel. assert (Hid : id <> 0) by (intros ->; destruct Hz; congruence). pose proof (stream_room st id H Hid) as Hsr. rewrite Ew in Hsr, Hroom.
    unfold dataOf in Hsr. unfold dataAll in Hroom. rewrite sum_cons in Hsr, Hroom. cbn [itemFor itemLen] in *. rewrite Z.eqb_refl in Hsr. unfold recvOf in Hsr. rewrite Hl in Hsr. unfold recv in Hsr. rewrite Hrel in Hsr.
    pose proof (dataOf_nonneg id w) as D1. pose proof (dataAll_nonneg w) as D2. unfold dataOf, dataAll in D1, D2. pose proof (winOf_nonneg id _ Hg).
    rewrite (proj2 (Z.ltb_ge _ _)) by lia. rewrite (proj2 (Z.ltb_ge _ _)) by (unfold credit in *; lia). done.
Qed.

(** Nothing is on its way, and no stream holds bytes nobody read. *)
Definition atRest (st : Flow) : Prop :=
  taken st = [] /\ wire st = [] /\ counting st = [] /\ granting st = [] /\ back st = [] /\ owed (peer st) = 0 /\ held (peer st) = 0.

(** Credit is never lost: once what is on its way has arrived and readers have
    read, the sender has more than three quarters of the connection's window again,
    whatever was closed or reset in between; and it has more than three quarters of
    the window of every stream that is open at the receiver, so no writer is stuck. *)
Theorem credit_comes_back st :
  rtc flowStep newFlow st -> atRest st ->
  avail (conn st) > ConnWindow - ConnWindow / 4 /\
  forall id s r, sends st !! id = Some s -> streams (peer st) !! id = Some r -> heldReleased r = false -> avail s > StreamWindow - StreamWindow / 4.
Proof.
  intros H%flow_reachable (Et & Ew & Ec & Eg & Eb & Eo & Eh). pose proof H as [Hc Ha Hcn [Hg Hb] Hp Hpn Hz Hss Hs Hn Hsh Hw Hr]. rewrite Et, Ew, Ec, Eg, Eb in *. cbn in Hc. unfold credit in Hc. rewrite Eh, Eo in Hc.
  change (handAll []) with 0 in Hc. change (dataAll []) with 0 in Hc. change (total []) with 0 in Hc. change (winOf 0 []) with 0 in Hc. split; [lia|].
  intros id s r Hsd Hl Hrel. assert (Hid : id <> 0) by (intros ->; destruct Hz; congruence). destruct (Hs id Hid) as [_ He]. specialize (He ltac:(by exists r)). unfold streamTotal in He. rewrite Hsd, Et, Ew, Eg, Eb in He.
  change (handOf id []) with 0 in He. change (dataOf id []) with 0 in He. change (winOf id []) with 0 in He. unfold recvOf in He. rewrite Hl in He. unfold recv in He. rewrite Hrel in He.
  pose proof Hp as [Hps Hph _]. destruct (Hps _ _ Hl) as [Hu _]. rewrite Eh, (heldSum_delete _ _ _ Hl) in Hph. unfold heldOf in Hph. rewrite Hrel in Hph. pose proof (heldSum_nonneg (delete id (streams (peer st)))). pose proof (blen_nonneg (buf r)). lia.
Qed.

(** ** Witnesses: a stream opened, three bytes sent and waiting to be taken; then read. *)

Definition msg : bytes := String.list_ascii_of_string "abc".
Definition afterTake : Credit := mkCredit (StreamWindow - 3) false.
Definition sentFlow : Flow :=
  mkFlow (mkCredit (ConnWindow - 3) false) {[2 := afterTake]} [] [] [Data 2 msg] (mkPeer {[2 := newStream false]} 0 0 0) [] [] [].
Definition readStream : Stream := mkStream [] false false false None 3 false false.
Definition readFlow : Flow :=
  mkFlow (mkCredit (ConnWindow - 3) false) {[2 := afterTake]} [] [] [] (mkPeer {[2 := readStream]} 0 3 0) [] [] [].

Lemma sent_reachable : rtc flowStep newFlow sentFlow.
Proof.
  eapply rtc_l; [apply (f_open NewConnCredit ∅ [] [] [] (mkPeer ∅ 0 0 0) [] [] [] 2 false); by vm_compute|].
  eapply rtc_l; [apply (f_take _ (<[2 := NewStreamCredit]> ∅) [] [] [] _ [] [] [] 2 NewStreamCredit 3 3 afterTake (mkCredit (ConnWindow - 3) false) msg); try by vm_compute|].
  { by apply not_elem_of_nil. }
  eapply rtc_l; [apply (f_send _ _ [] [] 2 msg [])|]. by vm_compute.
Qed.

Lemma read_reachable : rtc flowStep newFlow readFlow.
Proof.
  transitivity sentFlow; [apply sent_reachable|].
  eapply rtc_l; [eapply (f_data _ _ _ _ [] _ (mkPeer {[2 := mkStream msg false false false None 0 false false]} 3 0 0)); by vm_compute|].
  eapply rtc_l; [eapply (f_read _ _ _ _ _ (mkPeer {[2 := mkStream msg false false false None 0 false false]} 3 0 0) [] [] [] 2 3 (mkStream msg false false false None 0 false false) msg 0 3 (mkPeer {[2 := readStream]} 0 0 0)); by vm_compute|].
  eapply rtc_l; [apply (f_count _ _ _ _ _ (mkPeer {[2 := readStream]} 0 0 0) [] 3 [] [] [] 0 (mkPeer {[2 := readStream]} 0 3 0)); by vm_compute|]. by vm_compute.
Qed.

Lemma writer_within_credit_is_never_refused_witness :
  wire sentFlow = [Data 2 msg] /\ exists p', handleData 2 msg (peer sentFlow) = Some p'.
Proof. split; [done|]. by apply (writer_within_credit_is_never_refused sentFlow sent_reachable) with (w := []). Defined.

Lemma credit_comes_back_witness : atRest readFlow /\ avail (conn readFlow) > ConnWindow - ConnWindow / 4.
Proof. split; [by vm_compute|]. apply (credit_comes_back readFlow read_reachable). by vm_compute. Defined.
