(* ===== verification/PolicyRef.v ===== *)
(** * Who owns a policy and how to ask for a change

    [src/internal/policyref]: the contact an administrator publishes, its one
    validator, the re-validation on every read, and the two header values a sandbox
    reads. [net/mail]'s address parser and [net/url]'s parser are arguments of the
    model ([NetText]): everything proved here holds whatever they answer. *)
From S2P Require Import Prelude GoStrings GoPath PolicyTypes Grants CanonNumber GHPath.
Local Open Scope string_scope.
Local Open Scope Z_scope.
Local Open Scope list_scope.

(** ** Runes *)

(** The runes a [range] over [s] visits: a byte that begins no valid encoding is
    U+FFFD, alone. *)
Fixpoint runesLoop (fuel : nat) (s : string) : list Z :=
  match fuel, s with
  | S f, String _ _ => let '(r, _, rest) := DecodeRune s in r :: runesLoop f rest
  | _, _ => []
  end.
Definition runes (s : string) : list Z := runesLoop (String.length s) s.

(** [utf8.RuneCountInString] and [strings.ContainsFunc]. *)
Definition RuneCount (s : string) : Z := Z.of_nat (length (runes s)).
Definition containsRune (f : Z -> bool) (s : string) : bool := existsb f (runes s).

(** ** Data *)

Definition ownerMax : Z := 200.
Definition emailMax : Z := 254.
Definition requestURLMax : Z := 2048.
Definition requestTextMax : Z := 1000.

Definition SourceUnit := "unit".
Definition SourceDeployment := "deployment".
Definition LayerUnit := SourceUnit.
Definition LayerPersonal := "personal".
Definition LayerWallPreset := "wall_preset".
Definition mailtoScheme := "mailto:".

Record Contact := mkContact { cOwner : string; cEmail : string; cRequestURL : string; cRequestText : string }.
Definition zeroContact : Contact := mkContact "" "" "" "".
#[global] Instance Contact_eq : EqDecision Contact.
Proof. solve_decision. Defined.

Definition IsZero (c : Contact) : bool := bool_decide (c = zeroContact).

(** The names of the fields that are set, in a fixed order. *)
Definition Fields (c : Contact) : list string :=
  map fst (List.filter (fun f => negb (String.eqb (snd f) ""))
    [("owner", cOwner c); ("email", cEmail c); ("request_url", cRequestURL c); ("request_text", cRequestText c)]).

Record Ref := mkRef {
  Source : string; Name : string; Owner : string; Email : string; RequestURL : string; RequestText : string;
  Overridden : bool; Layer : string; Locked : bool }.
#[global] Instance Ref_eq : EqDecision Ref.
Proof. solve_decision. Defined.

Record Provenance := mkProvenance { pLayer : string; pName : string; pContact : option Contact; pLocked : bool }.
Definition zeroProvenance : Provenance := mkProvenance "" "" None false.

Definition namesLayer (source : string) : bool :=
  String.eqb source SourceUnit || String.eqb source SourceDeployment ||
  String.eqb source LayerPersonal || String.eqb source LayerWallPreset.

Definition setLocked (r : Ref) (b : bool) : Ref :=
  mkRef (Source r) (Name r) (Owner r) (Email r) (RequestURL r) (RequestText r) (Overridden r) (Layer r) b.
Definition setLayer (r : Ref) (l : string) : Ref :=
  mkRef (Source r) (Name r) (Owner r) (Email r) (RequestURL r) (RequestText r) (Overridden r) l (Locked r).

(** [nil] is [None]; the functions return copies. *)
Definition AttributedTo (ref : option Ref) (p : Provenance) : option Ref := option_map (fun r => setLocked r (pLocked p)) ref.
Definition Layered (ref : option Ref) : option Ref :=
  option_map (fun r => setLayer r (if namesLayer (Source r) then Source r else "")) ref.

(** ** The rules of a field *)

(** [unicode.Cf], [unicode.Zl] and [unicode.Zp] (Unicode 15, the tables of the
    library): the ranges of the runes of those categories. *)
Definition invisible : list (Z * Z) :=
  [(173, 173); (1536, 1541); (1564, 1564); (1757, 1757); (1807, 1807); (2192, 2193); (2274, 2274); (6158, 6158);
   (8203, 8207); (8232, 8233); (8234, 8238); (8288, 8292); (8294, 8303); (65279, 65279); (65529, 65531);
   (69821, 69821); (69837, 69837); (78896, 78911); (113824, 113827); (119155, 119162); (917505, 917505); (917536, 917631)].

Definition inRanges (l : list (Z * Z)) (r : Z) : bool := existsb (fun p => (fst p <=? r) && (r <=? snd p)) l.

Definition UnsafeRune (r : Z) : bool := (r <? 32) || ((127 <=? r) && (r <=? 159)) || inRanges invisible r.

Definition validText (s : string) (maxRunes : Z) : bool := (RuneCount s <=? maxRunes) && negb (containsRune UnsafeRune s).

(** [hostrules.ValidApprovedHost]: a dot, and the expression
    [^[a-z0-9]([a-z0-9.-]{0,251}[a-z0-9])?$]. *)
Definition hostAlnum (c : ascii) : bool := is_lower c || is_digit c.
Definition hostMiddle (c : ascii) : bool := hostAlnum c || Ascii.eqb c "." || Ascii.eqb c "-".

(** A run of middle bytes ending in a letter or digit. *)
Fixpoint hostTail (s : string) : bool :=
  match s with
  | "" => false
  | String c "" => hostAlnum c
  | String c s => hostMiddle c && hostTail s
  end.

Definition suggestedHostRE (s : string) : bool :=
  match s with
  | "" => false
  | String c "" => hostAlnum c
  | String c r => hostAlnum c && hostTail r && (String.length r <=? 252)%nat
  end.

Definition ValidApprovedHost (h : string) : bool := str_has "." h && suggestedHostRE h.

(** What the source reads of a parsed URL. *)
Record parsedURL := mkURL { Scheme : string; User : bool; Hostname : string }.
Class NetText := { parseAddress : string -> option string; parseURL : string -> option parsedURL }.

Definition localByte (r : Z) : bool :=
  ((97 <=? r) && (r <=? 122)) || ((65 <=? r) && (r <=? 90)) || ((48 <=? r) && (r <=? 57)) ||
  existsb (Z.eqb r) [46; 95; 37; 43; 45].

Section Validator.
Context {U : GoUnicode} {N : NetText}.

Definition validEmail (s : string) : bool :=
  if String.eqb s "" then true
  else if emailMax <? Z.of_nat (String.length s) then false
  else match parseAddress s with
       | None => false
       | Some a =>
           if negb (String.eqb a s) then false
           else match cutByte "@" s with
                | None => false
                | Some (local, domain) =>
                    if String.eqb local "" || containsRune (fun r => negb (localByte r)) local then false
                    else ValidApprovedHost (ToLower domain)
                end
       end.

(** [s[:7]] and [s[7:]], for a text longer than seven bytes. *)
Definition mailtoLen : nat := String.length mailtoScheme.

Definition validRequestURL (s : string) : bool :=
  if String.eqb s "" then true
  else if (requestURLMax <? Z.of_nat (String.length s)) || containsRune (fun r => (r <? 33) || (126 <? r)) s then false
  else if (mailtoLen <? String.length s)%nat && equalFold (strTake mailtoLen s) mailtoScheme then
    validEmail (strDrop mailtoLen s)
  else match parseURL s with
       | None => false
       | Some u =>
           if negb (equalFold (Scheme u) "https") || User u then false
           else ValidApprovedHost (ToLower (Hostname u))
       end.

(** ** Writing and reading a contact *)

Definition Validate (c : Contact) : errOr unit :=
  if negb (validText (cOwner c) ownerMax) then inl "contact.owner"
  else if negb (validEmail (cEmail c)) then inl "contact.email"
  else if negb (validRequestURL (cRequestURL c)) then inl "contact.request_url"
  else if negb (validText (cRequestText c) requestTextMax) then inl "contact.request_text"
  else inr tt.

Definition keepIf (b : bool) (s : string) : string := if b then s else "".

Definition Project (source name : string) (c : option Contact) : option Ref :=
  if negb (String.eqb source SourceUnit) && negb (String.eqb source SourceDeployment) then None
  else
    let n := if String.eqb source SourceUnit then name else "" in
    match c with
    | None => Some (mkRef source n "" "" "" "" false "" false)
    | Some c =>
        Some (mkRef source n
          (keepIf (validText (cOwner c) ownerMax) (cOwner c)) (keepIf (validEmail (cEmail c)) (cEmail c))
          (keepIf (validRequestURL (cRequestURL c)) (cRequestURL c))
          (keepIf (validText (cRequestText c) requestTextMax) (cRequestText c)) false "" false)
    end.

Definition Personal (owner : string) : Ref :=
  mkRef LayerPersonal "" (keepIf (validText owner ownerMax) owner) "" "" "" false "" false.
Definition WallPreset (name owner : string) : Ref :=
  mkRef LayerWallPreset (keepIf (validText name ownerMax) name) (keepIf (validText owner ownerMax) owner) "" "" "" false "" false.

(** ** The header values *)

Definition RequestRoute (r : Ref) : string :=
  if negb (String.eqb (RequestURL r) "") && validRequestURL (RequestURL r) then RequestURL r
  else if negb (String.eqb (Email r) "") && validRequestURL (mailtoScheme +:+ Email r) then mailtoScheme +:+ Email r
  else "".

(** [url.PathEscape]: the bytes that stand for themselves in a path segment, and
    [%XX] in upper case for the rest. *)
Definition pathPlain (c : ascii) : bool :=
  is_lower c || is_upper c || is_digit c || str_has c "-_.~$&+:=@".

Definition upperhex (z : Z) : ascii := ascii_of_N (Z.to_N (if z <? 10 then 48 + z else 55 + z)).

Fixpoint PathEscape (s : string) : string :=
  match s with
  | "" => ""
  | String c r =>
      if pathPlain c then String c (PathEscape r)
      else String "%" (String (upperhex (Z.shiftr (byte_of c) 4)) (String (upperhex (Z.land (byte_of c) 15)) (PathEscape r)))
  end.

Definition quote1 : string := String "034" "".

Definition HeaderValues (r : Ref) : string * string :=
  let policy :=
    if String.eqb (Source r) SourceUnit then
      SourceUnit +:+ (if String.eqb (Name r) "" then "" else "; name=" +:+ quote1 +:+ PathEscape (Name r) +:+ quote1)
    else SourceDeployment in
  (policy +:+ (if Overridden r then "; overridden" else ""), RequestRoute r).
End Validator.

(** ** Lemmas: runes and bytes *)

Lemma low6_bounds c : 0 <= low6 c < 64.
Proof. unfold low6. destruct c as [[] [] [] [] [] [] [] []]; vm_compute; split; congruence. Qed.

(** The payload of a first byte, and of the byte after it, is never that of a shorter
    encoding. *)
Lemma lead_payload c n lo hi : runeShape (byte_of c) = Some (n, lo, hi) ->
  (n = 2%nat /\ 2 <= Z.land (byte_of c) 31) \/
  (n = 3%nat /\ 0 <= Z.land (byte_of c) 15 /\ (1 <= Z.land (byte_of c) 15 \/ lo = 160)) \/
  (n = 4%nat /\ 0 <= Z.land (byte_of c) 7 /\ (1 <= Z.land (byte_of c) 7 \/ lo = 144)).
Proof.
  destruct c as [[] [] [] [] [] [] [] []]; vm_compute; intros [= <- <- <-];
    first [left; split; [done|congruence] | right; left; split; [done|split; [congruence|first [left; congruence|by right]]]
          | right; right; split; [done|split; [congruence|first [left; congruence|by right]]]].
Qed.

Lemma second_payload c : (cont 160 191 c = true -> 32 <= low6 c) /\ (cont 144 191 c = true -> 16 <= low6 c).
Proof. destruct c as [[] [] [] [] [] [] [] []]; vm_compute; split; intros; congruence. Qed.

Lemma lead_hi c n lo hi : runeShape (byte_of c) = Some (n, lo, hi) -> lo = 160 \/ lo = 144 -> hi = 191.
Proof. destruct c as [[] [] [] [] [] [] [] []]; vm_compute; intros [= <- <- <-] [|]; congruence. Qed.

(** A rune that begins with a byte beyond ASCII is beyond ASCII. *)
Lemma decode_wide c r rr ok rest : byte_of c <? 128 = false -> DecodeRune (String c r) = (rr, ok, rest) -> 128 <= rr.
Proof.
  unfold DecodeRune. cbn zeta. intros ->. destruct (runeShape (byte_of c)) as [[[n lo] hi]|] eqn:Hs; [|by intros [= <- <- <-]].
  pose proof (lead_payload _ _ _ _ Hs) as [[-> H]|[[-> [H0 H]]|[-> [H0 H]]]];
    destruct r as [|c1 r]; try (by intros [= <- <- <-]); pose proof (low6_bounds c1);
    pose proof (second_payload c1) as [H160 H144];
    try (destruct r as [|c2 r]; [by intros [= <- <- <-]|]; pose proof (low6_bounds c2));
    try (destruct r as [|c3 r]; [by intros [= <- <- <-]|]; pose proof (low6_bounds c3)).
  - destruct (cont lo hi c1); intros [= <- <- <-]; [lia|unfold RuneError; lia].
  - destruct (cont lo hi c1 && cont 128 191 c2) eqn:E; intros [= <- <- <-]; [|unfold RuneError; lia].
    bool_prop. destruct H as [H| ->]; [lia|]. assert (hi = 191) as -> by (eapply lead_hi; eauto). specialize (H160 H3). lia.
  - destruct (cont lo hi c1 && cont 128 191 c2 && cont 128 191 c3) eqn:E; intros [= <- <- <-]; [|unfold RuneError; lia].
    bool_prop. destruct H as [H| ->]; [lia|]. assert (hi = 191) as -> by (eapply lead_hi; eauto). match goal with H : cont 144 191 _ = true |- _ => specialize (H144 H) end. lia.
Qed.

(** Where every rune passes an ASCII test, every byte does. *)
Lemma runes_bytes (f : Z -> bool) s : (forall r, f r = true -> r < 128) ->
  containsRune (fun r => negb (f r)) s = false -> str_forall (fun c => f (byte_of c)) s = true.
Proof.
  intros Hf. unfold containsRune, runes. enough (forall n s, (String.length s <= n)%nat -> existsb (fun r => negb (f r)) (runesLoop n s) = false ->
    str_forall (fun c => f (byte_of c)) s = true) by (intros; eauto).
  clear s. induction n as [|n IH]; intros [|c s] Hn; cbn in Hn; [done|lia|done|]. cbn [runesLoop].
  destruct (DecodeRune (String c s)) as [[r ok] rest] eqn:E. cbn [existsb]. intros [Hr%negb_false_iff Hrest]%orb_false_elim.
  destruct (byte_of c <? 128) eqn:Hc; [|specialize (Hf _ Hr); pose proof (decode_wide _ _ _ _ _ Hc E); lia].
  unfold DecodeRune in E. rewrite Hc in E. injection E as <- <- <-. cbn [str_forall]. rewrite Hr. apply IH; [lia|done].
Qed.

Definition visible (c : ascii) : bool := (33 <=? byte_of c) && (byte_of c <=? 126).
Definition printable (c : ascii) : bool := (32 <=? byte_of c) && (byte_of c <=? 126).

Lemma visible_printable s : str_forall visible s = true -> str_forall printable s = true.
Proof. apply str_forall_impl. unfold visible, printable. intros c H. bool_prop. apply andb_true_intro. split; lia. Qed.

Lemma visible_ascii s : str_forall visible s = true -> str_forall is_ascii s = true.
Proof. apply str_forall_impl. unfold visible, is_ascii. intros c H. bool_prop. lia. Qed.

Lemma str_forall_map f g s : str_forall f (str_map g s) = str_forall (fun c => f (g c)) s.
Proof. induction s as [|c s IH]; [done|]. cbn. by rewrite IH. Qed.

(** ** Lemmas: hosts and addresses *)

Lemma hostTail_bytes s : hostTail s = true -> str_forall hostMiddle s = true.
Proof.
  induction s as [|c s IH]; [done|]. destruct s as [|d s].
  - cbn. intros H. unfold hostMiddle. by rewrite H.
  - intros H. change (hostMiddle c && hostTail (String d s) = true) in H. bool_prop. cbn [str_forall]. rewrite H. by apply IH.
Qed.

Lemma host_bytes h : ValidApprovedHost h = true -> h <> "" /\ str_forall hostMiddle h = true.
Proof.
  unfold ValidApprovedHost, suggestedHostRE. intros [_ H]%andb_prop. destruct h as [|c h]; [done|]. split; [done|].
  assert (Hc : hostAlnum c = true) by (destruct h; [done|bool_prop; done]).
  assert (Hm : hostMiddle c = true) by (unfold hostMiddle; by rewrite Hc).
  destruct h as [|d h]; [by cbn; rewrite Hm|]. bool_prop. change (hostMiddle c && str_forall hostMiddle (String d h) = true). rewrite Hm. by apply hostTail_bytes.
Qed.

Lemma cutByte_Some c s a b : cutByte c s = Some (a, b) -> s = a +:+ String c b.
Proof.
  revert a b. induction s as [|x s IH]; intros a b; cbn; [done|]. destruct (Ascii.eqb_spec x c) as [->|Hx]; [by intros [= <- <-]|].
  destruct (cutByte c s) as [[a' b']|]; [|done]. intros [= <- <-]. by rewrite str_app_cons, (IH _ _ eq_refl).
Qed.

(** What a byte of a mail domain may be: a letter in either case, a digit, a dot or a
    hyphen. *)
Definition domainByte (c : ascii) : bool := hostMiddle (lower_byte c).

Section Valid.
Context {U : GoUnicode} {N : NetText}.

Lemma email_shape s : validEmail s = true -> s <> "" -> str_forall is_ascii s = true ->
  exists local domain, s = local +:+ String "@" domain /\ local <> "" /\ domain <> "" /\
    str_forall (fun c => localByte (byte_of c)) local = true /\ str_forall domainByte domain = true.
Proof.
  unfold validEmail. intros H Hs Ha. rewrite (proj2 (String.eqb_neq s "") Hs) in H.
  destruct (_ <? _); [done|]. destruct (parseAddress s) as [a|]; [|done]. destruct (negb _); [done|].
  destruct (cutByte "@" s) as [[local domain]|] eqn:Ec; [|done]. apply cutByte_Some in Ec as ->.
  destruct (String.eqb_spec local ""); [done|]. cbn [orb] in H. destruct (containsRune _ local) eqn:El; [done|].
  exists local, domain. rewrite str_forall_app in Ha. cbn in Ha. bool_prop.
  unfold ToLower in H. match goal with X : str_forall is_ascii domain = true |- _ => rewrite X in H end.
  apply host_bytes in H as [Hne Hb]. rewrite str_forall_map in Hb.
  split_and!; [done|done|by intros ->|apply runes_bytes; [|done]|done].
  intros r. unfold localByte. cbn [existsb]. intros Hr. repeat (bool_prop; destruct_or?; try lia). all: bool_prop; lia.
Qed.

Lemma url_visible s : validRequestURL s = true -> str_forall visible s = true.
Proof.
  unfold validRequestURL. destruct (String.eqb_spec s "") as [->|Hs]; [done|].
  destruct (_ <? _); [done|]. cbn [orb]. destruct (containsRune _ s) eqn:E; [done|]. intros _.
  assert (Hv : containsRune (fun r => negb ((33 <=? r) && (r <=? 126))) s = false).
  { unfold containsRune in *. rewrite <- E. clear E. induction (runes s) as [|r l IH]; [done|]. cbn [existsb]. rewrite IH. f_equal. destruct (Z.leb_spec 33 r), (Z.leb_spec r 126), (Z.ltb_spec r 33), (Z.ltb_spec 126 r); cbn; try done; lia. }
  apply runes_bytes in Hv; [done|]. intros r Hr. bool_prop. lia.
Qed.

(** ** The header values *)

Lemma escape_plain c r : pathPlain c = true -> PathEscape (String c r) = String c (PathEscape r).
Proof. cbn. by intros ->. Qed.

(** A byte of an escaped name: printable, and neither a quote, a semicolon nor a space. *)
Definition escapedByte (c : ascii) : bool := visible c && negb (Ascii.eqb c "034") && negb (Ascii.eqb c ";").

Lemma hex_pair c : escapedByte (upperhex (Z.shiftr (byte_of c) 4)) = true /\ escapedByte (upperhex (Z.land (byte_of c) 15)) = true /\
  unescape (upperhex (Z.shiftr (byte_of c) 4)) (upperhex (Z.land (byte_of c) 15)) = Some c.
Proof. destruct c as [[] [] [] [] [] [] [] []]; vm_compute; done. Qed.

Lemma plain_byte c : pathPlain c = true -> escapedByte c = true /\ Ascii.eqb c "%" = false.
Proof. destruct c as [[] [] [] [] [] [] [] []]; vm_compute; done. Qed.

Lemma escape_bytes s : str_forall escapedByte (PathEscape s) = true.
Proof.
  induction s as [|c s IH]; [done|]. cbn [PathEscape]. destruct (pathPlain c) eqn:E; cbn [str_forall]; rewrite IH, andb_true_r.
  - by apply plain_byte.
  - pose proof (hex_pair c) as (-> & -> & _). done.
Qed.

(** Decoding an escaped name gives the name. *)
Lemma escape_roundtrip s : strictDecode (PathEscape s) = Some s.
Proof.
  induction s as [|c s IH]; [done|]. cbn [PathEscape]. destruct (pathPlain c) eqn:E; cbn [strictDecode].
  - apply plain_byte in E as [_ ->]. by rewrite IH.
  - pose proof (hex_pair c) as (_ & _ & ->). rewrite IH. done.
Qed.

Lemma escaped_printable s : str_forall escapedByte s = true -> str_forall printable s = true.
Proof. intros H. apply visible_printable. revert H. apply str_forall_impl. unfold escapedByte. intros c H. by bool_prop. Qed.

(** The route: nothing, or a text the write rules accept. *)
Lemma route_valid r : validRequestURL (RequestRoute r) = true.
Proof. unfold RequestRoute. repeat (break_goal; [by bool_prop|]). done. Qed.

(** A valid route spelled as a mail address is one plain address. *)
Lemma mailto_shape s : validRequestURL s = true -> (mailtoLen < String.length s)%nat -> equalFold (strTake mailtoLen s) mailtoScheme = true ->
  exists local domain, strDrop mailtoLen s = local +:+ String "@" domain /\
    str_forall (fun c => localByte (byte_of c)) local = true /\ str_forall domainByte domain = true.
Proof.
  intros H Hl Hm. pose proof (visible_ascii _ (url_visible _ H)) as Ha. unfold validRequestURL in H.
  destruct (String.eqb_spec s "") as [Es|Es]; [rewrite Es in Hl; cbn in Hl; lia|]. destruct (_ || _); [done|].
  rewrite (proj2 (Nat.ltb_lt _ _) Hl), Hm in H. cbn [andb] in H.
  rewrite <- (take_drop mailtoLen s), str_forall_app in Ha. apply andb_prop in Ha as [_ Ha].
  assert (Hd : strDrop mailtoLen s <> "").
  { intros E. pose proof (slen_drop mailtoLen s ltac:(lia)) as L. rewrite E in L. unfold slen in L. change (Z.of_nat (String.length "")) with 0 in L. lia. }
  destruct (email_shape _ H Hd Ha) as (local & domain & ? & ? & ? & ? & ?). eauto.
Qed.

(** Whatever a policy reference holds, its two header values are printable ASCII (the
    request has no space either): the policy value is the source, followed for a unit by
    its name between quotes, the name percent-encoded so that it contains no quote,
    semicolon or space and decodes to itself, so a name never adds a parameter or ends
    the header; the request is empty or passes the write rules, and one spelled as a mail
    address is one plain address, with no query and no second recipient. *)
Theorem header_values_are_safe (r : Ref) :
  let '(policy, request) := HeaderValues r in
  let ov := if Overridden r then "; overridden" else "" in
  str_forall printable policy = true /\ str_forall visible request = true /\
  (policy = SourceDeployment +:+ ov \/ policy = SourceUnit +:+ ov \/
   exists n, policy = SourceUnit +:+ "; name=" +:+ quote1 +:+ n +:+ quote1 +:+ ov /\
     str_forall escapedByte n = true /\ strictDecode n = Some (Name r)) /\
  validRequestURL request = true /\
  ((mailtoLen < String.length request)%nat /\ equalFold (strTake mailtoLen request) mailtoScheme = true ->
   exists local domain, strDrop mailtoLen request = local +:+ String "@" domain /\
     str_forall (fun c => localByte (byte_of c)) local = true /\ str_forall domainByte domain = true).
Proof.
  unfold HeaderValues. cbn zeta. pose proof (route_valid r) as Hr. assert (Hov : str_forall printable (if Overridden r then "; overridden" else "") = true) by (by destruct (Overridden r)).
  split_and!; [|by apply url_visible| |done|intros [? ?]; by apply mailto_shape].
  - rewrite str_forall_app, Hov, andb_true_r. destruct (String.eqb _ SourceUnit); [|done]. destruct (String.eqb (Name r) ""); [done|].
    rewrite !str_forall_app, (escaped_printable _ (escape_bytes _)). done.
  - destruct (String.eqb _ SourceUnit); [|by left]. destruct (String.eqb (Name r) ""); [by right; left|].
    right; right. exists (PathEscape (Name r)). split_and!; [by rewrite !str_app_assoc|apply escape_bytes|apply escape_roundtrip].
Qed.

(** ** Writing against reading *)

Lemma keepIf_same b s : keepIf b s = s <-> b = true \/ s = "".
Proof. destruct b; cbn; split; intros H; [by left|done|by right|by destruct H]. Qed.

Lemma keepIf_passes (f : string -> bool) s : f "" = true -> f (keepIf (f s) s) = true.
Proof. intros H0. destruct (f s) eqn:E; cbn; done. Qed.

Lemma validate_fields c : Validate c = inr tt <->
  validText (cOwner c) ownerMax = true /\ validEmail (cEmail c) = true /\ validRequestURL (cRequestURL c) = true /\
  validText (cRequestText c) requestTextMax = true.
Proof.
  unfold Validate. destruct (validText (cOwner c) ownerMax), (validEmail (cEmail c)), (validRequestURL (cRequestURL c)),
    (validText (cRequestText c) requestTextMax); cbn; split; intros; destruct_and?; split_and?; congruence.
Qed.

Definition contactOf (r : Ref) : Contact := mkContact (Owner r) (Email r) (RequestURL r) (RequestText r).

(** A contact read back passes the write rules, and one that passed them is read back as
    it was written. *)
Theorem read_contact_is_valid (source name : string) (c : Contact) (r : Ref) (H : Project source name (Some c) = Some r) :
  Validate (contactOf r) = inr tt /\ (Validate c = inr tt <-> contactOf r = c).
Proof.
  unfold Project in H. destruct (negb _ && negb _); [done|]. injection H as <-. destruct c as [o e u t]. cbn. split.
  - apply validate_fields. cbn. split_and!; [apply (keepIf_passes (fun s => validText s ownerMax))|apply keepIf_passes|apply keepIf_passes|
      apply (keepIf_passes (fun s => validText s requestTextMax))]; done.
  - rewrite validate_fields. cbn. unfold contactOf. cbn. split.
    + intros (-> & -> & -> & ->). done.
    + intros [= H1 H2 H3 H4]. apply keepIf_same in H1, H2, H3, H4.
      split_and!; [destruct H1 as [H1|H1]|destruct H2 as [H2|H2]|destruct H3 as [H3|H3]|destruct H4 as [H4|H4]]; first [done|by rewrite ?H1, ?H2, ?H3, ?H4].
Qed.
End Valid.
