(* ===== verification/Authz.v ===== *)
(** * The authorization kernel and its one refusal emitter

    [src/internal/authz] (the decision every door refuses with, the registry of
    refusal reasons, the data of an audit row) and [src/internal/api/refusal.go]
    (the response and the row a refusal becomes). Maps are [gmap]; the random id
    and the clock reading of an audit row are left out. *)
From stdpp Require Import gmap.
From S2P Require Import Prelude GoStrings GoSlices PolicyTypes Grants CanonNumber PolicyRef.
Local Open Scope string_scope.
Local Open Scope Z_scope.
Local Open Scope list_scope.

(** ** Effects *)

(** [Effect] is a string type; the last constructor stands for every other value. *)
Inductive Effect := EffectAllow | EffectDeny | EffectHidden | EffectUnprocessable | EffectConflict
  | EffectUnavailable | EffectUnauthenticated | EffectBadRequest | EffectOther (s : string).
#[global] Instance Effect_eq : EqDecision Effect.
Proof. solve_decision. Defined.

Definition Status (e : Effect) : Z :=
  match e with
  | EffectAllow => 200 | EffectHidden => 404 | EffectUnprocessable => 422 | EffectConflict => 409
  | EffectUnavailable => 503 | EffectUnauthenticated => 401 | EffectBadRequest => 400 | _ => 403
  end.

(** ** The registry *)

Definition Reason := string.
Definition ReasonAdminSurface : Reason := "admin_surface".
Definition ReasonSecurityAdminSurface : Reason := "security_admin_surface".
Definition ReasonNotOwner : Reason := "not_owner".
Definition ReasonAttachTicketForeignRun : Reason := "attach_ticket_foreign_run".
Definition ReasonSponsorNotEntitled : Reason := "sponsor_not_entitled".
Definition ReasonBYOIUser : Reason := "byoi_user".
Definition ReasonCapabilityAgent : Reason := "capability_agent".
Definition ReasonCapabilityEgressHost : Reason := "capability_egress_host".
Definition ReasonCapabilityFeature : Reason := "capability_feature".
Definition ReasonCapabilityPolicy : Reason := "capability_policy".
Definition ReasonCapabilitySecret : Reason := "capability_secret".
Definition ReasonCapabilityWorkspace : Reason := "capability_workspace".
Definition ReasonCapabilityWorkspaceProvider : Reason := "capability_workspace_provider".
Definition ReasonCapabilityModelProvider : Reason := "capability_model_provider".
Definition ReasonCapabilityComponent : Reason := "capability_component".
Definition ReasonGovernanceUnit : Reason := "governance_unit".
Definition ReasonPlacementComponentSelfDefined : Reason := "placement_component_self_defined".
Definition ReasonGovernanceOverlayUnsatisfiable : Reason := "governance_overlay_unsatisfiable".
Definition ReasonGrantPairingNotEligible : Reason := "grant_pairing_not_eligible".
Definition ReasonGroupsSnapshotStale : Reason := "groups_snapshot_stale".
Definition ReasonRunKept : Reason := "run_kept".
Definition ReasonRunNotFound : Reason := "run_not_found".
Definition ReasonRunTerminal : Reason := "run_terminal".
Definition ReasonSecondHumanRequired : Reason := "second_human_required".
Definition ReasonRunQuota : Reason := "run_quota".
Definition ReasonUserTypeUnknown : Reason := "user_type_unknown".
Definition ReasonUserViewTypeDeleted : Reason := "user_view_type_deleted".
Definition ReasonModelProviderUnavailable : Reason := "model_provider_unavailable".
Definition ReasonAdminView : Reason := "admin_view".
Definition ReasonUserViewPreview : Reason := "user_view_preview".
Definition ReasonDelegationScope : Reason := "delegation_scope".
Definition ReasonServiceScope : Reason := "service_scope".
Definition ReasonEventStreamCap : Reason := "event_stream_cap".
Definition ReasonRunOwnerOnly : Reason := "run_owner_only".
Definition ReasonMaskStateUnavailable : Reason := "mask_state_unavailable".
Definition ReasonDriveNotFound : Reason := "drive_not_found".
Definition ReasonDriveTargetConflict : Reason := "drive_target_conflict".
Definition ReasonDriveNotInPool : Reason := "drive_not_in_pool".
Definition ReasonRoleStampStale : Reason := "role_stamp_stale".
Definition ReasonRecordingGoverned : Reason := "recording_governed".
Definition ReasonAuditExportPartitionFilter : Reason := "audit_export_partition_filter".
Definition ReasonKeyDomainUnknown : Reason := "key_domain_unknown".
Definition ReasonKeyDomainAmbiguous : Reason := "key_domain_ambiguous_membership".
Definition ReasonAuditRetentionNotOldest : Reason := "audit_retention_not_oldest".
Definition ReasonAuditRetentionNotClosed : Reason := "audit_retention_not_closed".
Definition ReasonAuditRetentionInsideWindow : Reason := "audit_retention_inside_window".
Definition ReasonAuditRetentionLiveRun : Reason := "audit_retention_live_run".
Definition ReasonAuditRetentionDigestMismatch : Reason := "audit_retention_digest_mismatch".
Definition ReasonAuditRetentionActorReserved : Reason := "audit_retention_actor_reserved".
Definition ReasonComponentAutonomy : Reason := "component_autonomy".
Definition ReasonUnitScopeDenied : Reason := "unit_scope_denied".

Record Refusal := mkRefusal { rEffect : Effect; rAudit : bool; rSentence : string }.
#[global] Instance Refusal_eq : EqDecision Refusal.
Proof. solve_decision. Defined.

Definition requiresAdminRole := "requires admin role".

Definition refusalRows : list (Reason * Refusal) :=
  [(ReasonAdminSurface, mkRefusal EffectDeny true requiresAdminRole);
   (ReasonSecurityAdminSurface, mkRefusal EffectDeny true requiresAdminRole);
   (ReasonNotOwner, mkRefusal EffectHidden true "");
   (ReasonAttachTicketForeignRun, mkRefusal EffectHidden true "");
   (ReasonSponsorNotEntitled, mkRefusal EffectHidden true "");
   (ReasonBYOIUser, mkRefusal EffectDeny true "");
   (ReasonCapabilityAgent, mkRefusal EffectDeny true "");
   (ReasonCapabilityEgressHost, mkRefusal EffectDeny true "");
   (ReasonCapabilityFeature, mkRefusal EffectDeny true "");
   (ReasonCapabilityPolicy, mkRefusal EffectDeny true "");
   (ReasonCapabilitySecret, mkRefusal EffectDeny true "");
   (ReasonCapabilityWorkspace, mkRefusal EffectDeny true "");
   (ReasonCapabilityWorkspaceProvider, mkRefusal EffectDeny true "");
   (ReasonCapabilityModelProvider, mkRefusal EffectDeny true "");
   (ReasonCapabilityComponent, mkRefusal EffectDeny true "");
   (ReasonPlacementComponentSelfDefined, mkRefusal EffectDeny true "");
   (ReasonGovernanceUnit, mkRefusal EffectDeny true "");
   (ReasonGovernanceOverlayUnsatisfiable, mkRefusal EffectDeny true "");
   (ReasonGrantPairingNotEligible, mkRefusal EffectDeny true "");
   (ReasonGroupsSnapshotStale, mkRefusal EffectDeny true "");
   (ReasonRunKept, mkRefusal EffectDeny true "");
   (ReasonRunNotFound, mkRefusal EffectDeny true "");
   (ReasonRunOwnerOnly, mkRefusal EffectDeny true "only the person who started this run can open it interactively");
   (ReasonRecordingGoverned, mkRefusal EffectDeny true "");
   (ReasonRunTerminal, mkRefusal EffectDeny true "");
   (ReasonSecondHumanRequired, mkRefusal EffectDeny true "");
   (ReasonRunQuota, mkRefusal EffectUnprocessable false "");
   (ReasonModelProviderUnavailable, mkRefusal EffectUnprocessable true "");
   (ReasonUserTypeUnknown, mkRefusal EffectDeny true "");
   (ReasonUserViewTypeDeleted, mkRefusal EffectDeny true "");
   (ReasonAdminView, mkRefusal EffectConflict false "");
   (ReasonUserViewPreview, mkRefusal EffectConflict true "");
   (ReasonDelegationScope, mkRefusal EffectDeny true "");
   (ReasonServiceScope, mkRefusal EffectDeny true "");
   (ReasonEventStreamCap, mkRefusal EffectUnprocessable false "");
   (ReasonMaskStateUnavailable, mkRefusal EffectUnavailable true "");
   (ReasonDriveNotFound, mkRefusal EffectUnprocessable true "");
   (ReasonDriveTargetConflict, mkRefusal EffectUnprocessable true "");
   (ReasonDriveNotInPool, mkRefusal EffectUnprocessable true "");
   (ReasonRoleStampStale, mkRefusal EffectUnauthenticated true "this token's role is out of date: its owner must sign in again to refresh it");
   (ReasonAuditExportPartitionFilter, mkRefusal EffectBadRequest false "");
   (ReasonKeyDomainUnknown, mkRefusal EffectUnprocessable true "");
   (ReasonKeyDomainAmbiguous, mkRefusal EffectConflict true "");
   (ReasonAuditRetentionNotOldest, mkRefusal EffectConflict true "");
   (ReasonAuditRetentionNotClosed, mkRefusal EffectConflict true "");
   (ReasonAuditRetentionInsideWindow, mkRefusal EffectConflict true "");
   (ReasonAuditRetentionLiveRun, mkRefusal EffectConflict true "");
   (ReasonAuditRetentionDigestMismatch, mkRefusal EffectConflict true "");
   (ReasonAuditRetentionActorReserved, mkRefusal EffectDeny true "");
   (ReasonComponentAutonomy, mkRefusal EffectDeny true "");
   (ReasonUnitScopeDenied, mkRefusal EffectDeny true "this is outside the units you administer")].

Definition refusals : gmap string Refusal := list_to_map refusalRows.

Definition Lookup (reason : Reason) : option Refusal := refusals !! reason.

Definition Reasons : list Reason := sortStrings (map fst (map_to_list refusals)).

(** ** Decisions *)

Definition Schema := "authz/v1".
Definition AuditAction := "authz.denied".
Definition ObligationDrop := "drop".

Record Obligation := mkObligation { Kind : string; oDetail : string }.
Record Step := mkStep { Rule : string; Tier : string; RowID : string; Outcome : string }.

Record Decision := mkDecision {
  dSchema : string; dEffect : Effect; dStatus : Z; dReason : Reason; dTarget : string; dRunID : option string;
  dSentence : string; dWireReason : Reason; dPolicy : option Ref; dDetail : gmap string string;
  dObligations : list Obligation; dTrace : list Step; dKnob : Provenance }.

Definition Deny (reason : Reason) (target sentence : string) : Decision :=
  let eff := match Lookup reason with Some ref => rEffect ref | None => EffectDeny end in
  mkDecision Schema eff (Status eff) reason target None sentence "" None ∅ [] [] zeroProvenance.

Definition withObligations (d : Decision) (l : list Obligation) : Decision :=
  mkDecision (dSchema d) (dEffect d) (dStatus d) (dReason d) (dTarget d) (dRunID d) (dSentence d) (dWireReason d)
    (dPolicy d) (dDetail d) l (dTrace d) (dKnob d).

Definition Drop (reason : Reason) (target : string) (dropped : list string) : Decision :=
  fold_left (fun d v => withObligations d (dObligations d ++ [mkObligation ObligationDrop v])) dropped (Deny reason target "").

Definition OnRun (d : Decision) (id : string) : Decision :=
  mkDecision (dSchema d) (dEffect d) (dStatus d) (dReason d) (dTarget d) (Some id) (dSentence d) (dWireReason d)
    (dPolicy d) (dDetail d) (dObligations d) (dTrace d) (dKnob d).

Definition AsIf (d : Decision) (reason : Reason) : Decision :=
  mkDecision (dSchema d) (dEffect d) (dStatus d) (dReason d) (dTarget d) (dRunID d) (dSentence d) reason
    (dPolicy d) (dDetail d) (dObligations d) (dTrace d) (dKnob d).

Definition WithPolicy (d : Decision) (ref : option Ref) : Decision :=
  mkDecision (dSchema d) (dEffect d) (dStatus d) (dReason d) (dTarget d) (dRunID d) (dSentence d) (dWireReason d)
    (Layered ref) (dDetail d) (dObligations d) (dTrace d) (dKnob d).

Definition OnKnob (d : Decision) (p : Provenance) : Decision :=
  mkDecision (dSchema d) (dEffect d) (dStatus d) (dReason d) (dTarget d) (dRunID d) (dSentence d) (dWireReason d)
    (dPolicy d) (dDetail d) (dObligations d) (dTrace d) p.

Definition With (d : Decision) (key value : string) : Decision :=
  mkDecision (dSchema d) (dEffect d) (dStatus d) (dReason d) (dTarget d) (dRunID d) (dSentence d) (dWireReason d)
    (dPolicy d) (<[key := value]> (dDetail d)) (dObligations d) (dTrace d) (dKnob d).

(** ** The data of an audit row *)

Record Origin := mkOrigin { DeviceID : option string; Placement : string }.
Record Principal := mkPrincipal { Subject : string; MemberView : bool; UserType : string; pOrigin : Origin }.

(** The values of a datum: text, a flag, the device marker's own map, a list. *)
Inductive datum := DText (s : string) | DBool (b : bool) | DDevice (id : string) | DList (l : list string).

Definition reservedDatumKeys : list string :=
  ["reason"; "method"; "user_view"; "device_channel"; "dropped"; "user_type"; "dry_run"; "layer"; "layer_name"].

Definition putIf (b : bool) (k : string) (v : datum) (m : gmap string datum) : gmap string datum :=
  if b then <[k := v]> m else m.

Definition detailDatum (d : Decision) : gmap string datum :=
  DText <$> filter (fun kv => kv.1 ∉ reservedDatumKeys) (dDetail d).

Definition droppedOf (d : Decision) : list string :=
  map oDetail (List.filter (fun o => String.eqb (Kind o) ObligationDrop) (dObligations d)).

Definition layerDatum (ref : option Ref) (m : gmap string datum) : gmap string datum :=
  match Layered ref with
  | Some r =>
      if String.eqb (Layer r) "" then m
      else putIf (String.eqb (Layer r) LayerUnit && negb (String.eqb (Name r) "")) "layer_name" (DText (Name r))
             (<["layer" := DText (Layer r)]> m)
  | None => m
  end.

Definition Datum (d : Decision) (p : Principal) (method : string) : gmap string datum :=
  let m := <["reason" := DText (dReason d)]> (detailDatum d) in
  let m := putIf (negb (String.eqb method "")) "method" (DText method) m in
  let m := putIf (MemberView p) "user_view" (DBool true) m in
  let m := putIf (negb (String.eqb (UserType p) "")) "user_type" (DText (UserType p)) m in
  let m := match DeviceID (pOrigin p) with Some id => <["device_channel" := DDevice id]> m | None => m end in
  let m := layerDatum (dPolicy d) m in
  putIf (negb (bool_decide (droppedOf d = []))) "dropped" (DList (droppedOf d)) m.

(** ** The datum *)

Lemma lookup_putIf b k v m j : putIf b k v m !! j = if b && bool_decide (j = k) then Some v else m !! j.
Proof.
  destruct b; cbn [putIf andb]; [|done]. case_bool_decide as H; [subst; by rewrite lookup_insert_eq|by rewrite lookup_insert_ne].
Qed.

Lemma lookup_put (k : string) (v : datum) (m : gmap string datum) j : <[k := v]> m !! j = if bool_decide (j = k) then Some v else m !! j.
Proof. exact (lookup_putIf true k v m j). Qed.

Lemma lookup_detail d k : detailDatum d !! k = if bool_decide (k ∈ reservedDatumKeys) then None else DText <$> dDetail d !! k.
Proof.
  unfold detailDatum. rewrite lookup_fmap. case_bool_decide as H.
  - assert (filter (fun kv : string * string => kv.1 ∉ reservedDatumKeys) (dDetail d) !! k = None) as ->; [|done].
    apply map_lookup_filter_None. right. intros x _ Hx. done.
  - destruct (dDetail d !! k) as [x|] eqn:E.
    + by rewrite (proj2 (map_lookup_filter_Some _ _ _ _) (conj E H)).
    + by rewrite (proj2 (map_lookup_filter_None _ _ _) (or_introl E)).
Qed.

Lemma lookup_layer ref m j :
  (forall m', m !! j = m' !! j -> layerDatum ref m !! j = layerDatum ref m' !! j) /\
  (j <> "layer" -> j <> "layer_name" -> layerDatum ref m !! j = m !! j).
Proof.
  unfold layerDatum. destruct (Layered ref) as [r|]; [|done]. destruct (String.eqb (Layer r) ""); [done|].
  split; intros H.
  - intros. rewrite !lookup_putIf, !lookup_put. destruct (_ && _); [done|]. by destruct (bool_decide _).
  - intros H'. rewrite lookup_putIf, lookup_put, !bool_decide_eq_false_2 by done. by rewrite andb_false_r.
Qed.

Lemma datum_reason (d : Decision) (p : Principal) (method : string) : Datum d p method !! "reason" = Some (DText (dReason d)).
Proof.
  unfold Datum. cbn zeta. rewrite lookup_putIf, (bool_decide_eq_false_2 ("reason" = "dropped")), andb_false_r by done.
  rewrite (proj2 (lookup_layer _ _ "reason")) by done. destruct (DeviceID _); rewrite ?lookup_put, ?lookup_putIf, ?lookup_put; cbn; by rewrite ?andb_false_r.
Qed.

Definition withDetail (d : Decision) (m : gmap string string) : Decision :=
  mkDecision (dSchema d) (dEffect d) (dStatus d) (dReason d) (dTarget d) (dRunID d) (dSentence d) (dWireReason d)
    (dPolicy d) m (dObligations d) (dTrace d) (dKnob d).

(** No detail a door attaches stands in for a key the kernel writes: at every reserved
    key the audit datum is what it would be with no detail at all (so the reason, the
    method, the markers, the layer and the drops are the kernel's own), the reason is the
    decision's true one whatever the wire reason, and every other key carries exactly the
    door's detail. *)
Theorem datum_cannot_be_forged (d : Decision) (p : Principal) (method k : string) :
  Datum d p method !! "reason" = Some (DText (dReason d)) /\
  (k ∈ reservedDatumKeys -> Datum d p method !! k = Datum (withDetail d ∅) p method !! k) /\
  (k ∉ reservedDatumKeys -> Datum d p method !! k = DText <$> dDetail d !! k).
Proof.
  unfold Datum. cbn zeta. change (droppedOf (withDetail d ∅)) with (droppedOf d). cbn [dPolicy dReason withDetail].
  assert (Hl : forall m m' j, m !! j = m' !! j -> layerDatum (dPolicy d) m !! j = layerDatum (dPolicy d) m' !! j)
    by (intros m m' j; apply (lookup_layer (dPolicy d) m j)).
  split_and!; [apply datum_reason| |].
  - intros Hk. rewrite !lookup_putIf. destruct (_ && _); [done|]. apply Hl.
    destruct (DeviceID _); rewrite ?lookup_put, !lookup_putIf, !lookup_put, !lookup_detail, (bool_decide_eq_true_2 _ Hk); done.
  - intros Hk. assert (Hne : forall j, j ∈ reservedDatumKeys -> bool_decide (k = j) = false) by (intros j Hj; apply bool_decide_eq_false_2; by intros ->).
    rewrite lookup_putIf, (Hne "dropped"), andb_false_r by (by apply (bool_decide_eq_true_1 _)).
    rewrite (proj2 (lookup_layer _ _ k)) by (intros ->; apply Hk; by apply (bool_decide_eq_true_1 _)).
    destruct (DeviceID _); rewrite ?lookup_put, !lookup_putIf, !lookup_put, lookup_detail, (bool_decide_eq_false_2 _ Hk);
      rewrite ?(Hne "device_channel"), !(Hne "user_type"), !(Hne "user_view"), !(Hne "method"), !(Hne "reason"), ?andb_false_r by (by apply (bool_decide_eq_true_1 _)); done.
Qed.

(** ** The registry *)

(** What the registry's rows say together: no refusal allows or is an unknown effect, and
    a refusal that writes no row is one of four, each a limit or the shape of the input. *)
Definition unaudited : list Reason :=
  [ReasonRunQuota; ReasonAdminView; ReasonEventStreamCap; ReasonAuditExportPartitionFilter].

Definition rowOk (row : Reason * Refusal) : bool :=
  bool_decide (Status (rEffect (snd row)) ∈ [400; 401; 403; 404; 409; 422; 503]) && negb (bool_decide (rEffect (snd row) = EffectAllow)) &&
  (rAudit (snd row) || bool_decide (fst row ∈ unaudited)).

Lemma registry_ok r ref : Lookup r = Some ref -> rowOk (r, ref) = true.
Proof.
  unfold Lookup, refusals. intros H. apply elem_of_list_to_map_2 in H. assert (Hall : forallb rowOk refusalRows = true) by (vm_compute; reflexivity).
  apply list_elem_of_In in H. by apply (proj1 (forallb_forall _ _) Hall).
Qed.
