(* ===== verification/Refuse.v ===== *)
(** * Who asks, and the answer a refusal becomes

    The caller of a request as the control plane's API reads it ([http.go],
    [runs_policy.go], [delegation.go] of [src/internal/api]), the refusal emitter
    ([refusal.go]) and the answer to a failed store call ([writeservererror.go]).

    A request's context is a record of what the middleware published on it. The tests'
    [strictRefusals] is off: an unregistered reason is answered 500 and still recorded.
    An audit row carries no id and no time here, and the stamps the audit chain adds to
    its data are not modelled. *)
From stdpp Require Import gmap.
From S2P Require Import Prelude GoStrings PolicyTypes Grants PolicyRef Authz.
Local Open Scope string_scope.
Local Open Scope Z_scope.
Local Open Scope list_scope.

(** ** The caller *)

Inductive ActorType := ActorHuman | ActorAgent | ActorSystem | ActorService.
#[global] Instance ActorType_eq : EqDecision ActorType.
Proof. solve_decision. Defined.

Definition RoleAdmin := "admin".
Definition RoleSecurityAdmin := "security_admin".
Definition ServicePrincipalPrefix := "service:".
Definition adminTokenPrincipal := "admin-token".

(** What the middleware published: an approval rule deciding (its id, and whether it
    only reports), a device, a redeemed ticket's actor, a service identity and its
    sponsor, the operator of local mode, a verified person and their role, the markers
    of a portal and of the identity provider's connector, the user view. *)
Record reqCtx := mkReqCtx {
  policyDecider : option (string * bool); device : option string; ticketActor : option (ActorType * string);
  service : option (string * string); localPrincipal : string; human : string; role : string;
  delegated : bool; scimCaller : bool; memberMode : bool; userType : string; methodKey : string }.

Record request := mkRequest { rCtx : reqCtx; rMethod : string; rPath : string; headerPrincipal : string }.

Definition maxCapabilityGrantFieldLen : Z := 512.

Section Server.
Context {U : GoUnicode}.

Definition controlCharFree (s : string) : bool := negb (containsRune (fun r => (r <? 32) || ((127 <=? r) && (r <=? 159))) s).

(** The validated development-only header. *)
Definition localPrincipalOverride (r : request) : string :=
  let h := TrimSpace (headerPrincipal r) in
  if String.eqb h "" || (maxCapabilityGrantFieldLen <? Z.of_nat (String.length h)) || negb (controlCharFree h) then "" else h.

Definition actorFromContext (c : reqCtx) (localOverride : string) : ActorType * string :=
  match policyDecider c with
  | Some (rule, _) => (ActorSystem, "policy:" +:+ rule)
  | None =>
  match device c with
  | Some id => (ActorSystem, "device:" +:+ id)
  | None =>
  match ticketActor c with
  | Some a => a
  | None =>
  match service c with
  | Some (name, _) => (ActorService, ServicePrincipalPrefix +:+ name)
  | None =>
      if negb (String.eqb (localPrincipal c) "") then
        (ActorHuman, if negb (String.eqb localOverride "") then localOverride else localPrincipal c)
      else if negb (String.eqb (human c) "") then (ActorHuman, human c)
      else (ActorSystem, adminTokenPrincipal)
  end end end end.

Definition actorFromRequest (r : request) : ActorType * string := actorFromContext (rCtx r) (localPrincipalOverride r).
Definition actorTypeFromRequest (r : request) : ActorType := fst (actorFromRequest r).
Definition principalFromRequest (r : request) : string := snd (actorFromRequest r).

Definition neverOperator (c : reqCtx) : bool :=
  bool_decide (is_Some (device c)) || delegated c || scimCaller c || bool_decide (is_Some (service c)) ||
  bool_decide (is_Some (policyDecider c)).

Definition isOperator (c : reqCtx) : bool :=
  if neverOperator c then false else if String.eqb (human c) "" then true else String.eqb (role c) RoleAdmin.

Definition isSecurityOperator (c : reqCtx) : bool :=
  if neverOperator c then false
  else if String.eqb (human c) "" then true
  else String.eqb (role c) RoleAdmin || String.eqb (role c) RoleSecurityAdmin.

Definition isServicePrincipal (p : string) : bool := HasPrefix (ToLower (TrimSpace p)) ServicePrincipalPrefix.

(** ** Responses and rows *)

Record errorBody := mkErrorBody {
  eError : string; eReason : string; ePolicy : option Ref; eTool : string; eField : string }.

(** The body of an answer: the error shape, or a map of its own. *)
Inductive payload := PError (e : errorBody) | PMap (m : list (string * string)).
Record response := mkResponse { status : Z; retryAfter : string; body : payload }.

Definition writeJSON (st : Z) (e : errorBody) : response := mkResponse st "" (PError e).
Definition writeErrorReason (st : Z) (reason msg : string) : response := writeJSON st (mkErrorBody msg reason None "" "").

Record AuditEvent := mkAuditEvent {
  evRun : option string; evActorType : ActorType; evActor : string; evAction : string; evTarget : string;
  evOutcome : string; evData : gmap string datum }.

(** [refusalEvent]: the row of [d] for a subject. *)
Definition refusalEvent (c : reqCtx) (actor : ActorType) (subject method : string) (d : Decision) : AuditEvent :=
  mkAuditEvent (dRunID d) actor subject AuditAction (dTarget d) "denied"
    (Datum d (mkPrincipal subject (memberMode c) (userType c) (mkOrigin None "")) method).

(** [recordAudit]: an approval rule's dry run writes nothing. *)
Definition recordAudit (c : reqCtx) (ev : AuditEvent) : list AuditEvent :=
  match policyDecider c with Some (_, true) => [] | _ => [ev] end.

(** [recordRefusal] with a sink configured ([audited]); [r] is [None] for a decision
    reached with only a context. *)
Definition recordRefusal (audited : bool) (c : reqCtx) (r : option request) (d : Decision) : list AuditEvent :=
  if negb audited then []
  else match r with
       | Some r => recordAudit c (refusalEvent c (actorTypeFromRequest r) (principalFromRequest r) (rMethod r) d)
       | None =>
           let actor := match service c with Some _ => ActorService | None => ActorHuman end in
           recordAudit c (refusalEvent c actor (human c) (methodKey c) d)
       end.

Definition reasonInternalError := "internal_error".

(** [cmp.Or]. *)
Definition orElse (a b : string) : string := if String.eqb a "" then b else a.

Definition wirePolicy (d : Decision) (ref : Refusal) : option Ref :=
  if negb (String.eqb (dWireReason d) "") || bool_decide (rEffect ref = EffectHidden) then None else dPolicy d.

Definition refuseOn (audited : bool) (r : request) (d : Decision) (field : string) : response * list AuditEvent :=
  match Lookup (dReason d) with
  | None =>
      (writeErrorReason 500 reasonInternalError "internal error: unregistered refusal reason", recordRefusal audited (rCtx r) (Some r) d)
  | Some ref =>
      let wireReason := if negb (String.eqb (dWireReason d) "") then dWireReason d else dReason d in
      (writeJSON (Status (rEffect ref))
         (mkErrorBody (orElse (dSentence d) (rSentence ref)) wireReason
            (Layered (AttributedTo (wirePolicy d ref) (dKnob d))) (default "" (dDetail d !! "tool")) field),
       if rAudit ref then recordRefusal audited (rCtx r) (Some r) d else [])
  end.

Definition refuse (audited : bool) (r : request) (d : Decision) : response * list AuditEvent := refuseOn audited r d "".

(** ** The answer to a failed call *)

(** The errors [writeServerError] tells apart; the last is any other, with its text. *)
Inductive serverErr := ErrOrgRevoked | ErrIdentityDeactivated | ErrRunCapReached | ErrRefused (reason : string)
  | ErrLockRefused | ErrGenerationChanged | ErrUserTypeUnknown | ErrOtherFault (driver : string).

Definition orgRevokedMsg := "This device's enrolment with its organisation was revoked; new runs are refused until it is re-enrolled (deliver a fresh WARDYN_ORG_ENROLMENT_TOKEN and restart wardynd)".
Definition identityDeactivatedMsg := "This account's access has been removed — sign in again, or ask your Wardyn admin".
Definition runCapMsg := "This deployment is at its limit of concurrent runs (WARDYN_MAX_CONCURRENT_RUNS) — wait for one to finish, or ask an admin to stop one".
Definition lockUnavailableMsg := "Another operation on this resource is in progress, or the server cannot take its lock right now; retry in a moment".
Definition credentialErasedDuringWriteMsg := "This person's stored credentials were erased while this was being saved, so nothing was saved — connect again to store it".
Definition userTypeUnknownMsg := "Your user type no longer exists, so Wardyn can't tell what you may use. Ask an admin to give you another type, then sign in again.".

Definition writeServerError (msg : string) (e : serverErr) : response :=
  match e with
  | ErrOrgRevoked => writeErrorReason 503 "org_revoked" orgRevokedMsg
  | ErrIdentityDeactivated => writeErrorReason 403 "identity_deactivated" identityDeactivatedMsg
  | ErrRunCapReached => writeErrorReason 422 ReasonRunQuota runCapMsg
  | ErrRefused reason =>
      mkResponse 503 "30" (PMap [("error", "host_capacity_refused"); ("reason", reason);
        ("message", "this host is too busy to start a run right now (" +:+ reason +:+ ") — retry in 30 seconds")])
  | ErrLockRefused =>
      mkResponse 503 "5" (PError (mkErrorBody lockUnavailableMsg "lock_unavailable" None "" ""))
  | ErrGenerationChanged => writeErrorReason 409 "credential_erased_during_write" credentialErasedDuringWriteMsg
  | ErrUserTypeUnknown => writeErrorReason 403 ReasonUserTypeUnknown userTypeUnknownMsg
  | ErrOtherFault _ => writeErrorReason 500 reasonInternalError msg
  end.
End Server.

(** ** What every refusal does *)

Section Refusals.
Context {U : GoUnicode} (audited : bool) (r : request).

(** A decision that hides its cause answers as the missing row it stands for. *)
Lemma hidden_answer (d : Decision) (ref : Refusal) (field : string) :
  Lookup (dReason d) = Some ref -> rEffect ref = EffectHidden -> dWireReason d <> "" -> dSentence d <> "" ->
  dDetail d !! "tool" = None -> fst (refuseOn audited r d field) = writeJSON 404 (mkErrorBody (dSentence d) (dWireReason d) None "" field).
Proof.
  intros HL He Hw Hs Ht. unfold refuseOn. rewrite HL. cbn [fst]. rewrite He, Ht. cbn [Status default].
  rewrite (proj2 (String.eqb_neq _ _) Hw). cbn [negb]. unfold orElse. rewrite (proj2 (String.eqb_neq _ _) Hs).
  unfold wirePolicy. by rewrite (proj2 (String.eqb_neq _ _) Hw).
Qed.

(** A reporting dry run of an approval rule. *)
Definition reports (c : reqCtx) : bool := match policyDecider c with Some (_, true) => true | _ => false end.
(** The registry audits the reason, or does not know it. *)
Definition mustAudit (reason : string) : bool := match Lookup reason with Some ref => rAudit ref | None => true end.

(** The row of a refusal: the true caller, target, run and reason. *)
Definition rowOf (d : Decision) (ev : AuditEvent) : Prop :=
  evAction ev = AuditAction /\ evOutcome ev = "denied" /\ (evActorType ev, evActor ev) = actorFromRequest r /\ evTarget ev = dTarget d /\ evRun ev = dRunID d /\
  evData ev !! "reason" = Some (DText (dReason d)).

Lemma record_rows (d : Decision) : exists ev, rowOf d ev /\
  recordRefusal audited (rCtx r) (Some r) d = if audited && negb (reports (rCtx r)) then [ev] else [].
Proof.
  exists (refusalEvent (rCtx r) (actorTypeFromRequest r) (principalFromRequest r) (rMethod r) d). split.
  - unfold rowOf, refusalEvent, actorTypeFromRequest, principalFromRequest. cbn -[Datum]. split_and!; [done|done|by destruct (actorFromRequest r)|done|done|apply datum_reason].
  - unfold recordRefusal, recordAudit, reports. destruct audited; [|done]. cbn [negb andb]. by destruct (policyDecider (rCtx r)) as [[rule []]|].
Qed.

(** C21: A refusal refuses and is on the record. Whatever the decision, the answer's status
    is that of the registered effect, or 500 for a reason nobody registered, and always an
    error; a hidden effect, or a decision with a wire reason of its own, carries no policy.
    One audit row is written exactly when a sink is configured, the caller is not a
    reporting dry run of an approval rule, and the registry audits the reason or does not
    know it; otherwise none is. The row names the true caller, the decision's target and
    run, and the true reason. A registered reason that is not audited is one of the closed
    list of unaudited ones. *)
Theorem refusal_is_answered_and_recorded (d : Decision) (field : string) :
  let '(x, rows) := refuseOn audited r d field in
  status x = (match Lookup (dReason d) with Some ref => Status (rEffect ref) | None => 500 end) /\ (400 <= status x <= 503) /\
  (forall ref e, Lookup (dReason d) = Some ref -> rEffect ref = EffectHidden \/ dWireReason d <> "" -> body x = PError e -> ePolicy e = None) /\
  (exists ev, rowOf d ev /\ rows = if audited && negb (reports (rCtx r)) && mustAudit (dReason d) then [ev] else []) /\
  (mustAudit (dReason d) = false -> dReason d ∈ unaudited).
Proof.
  unfold refuseOn, mustAudit. destruct (record_rows d) as (ev & Hev & Erows).
  destruct (Lookup (dReason d)) as [ref|] eqn:HL.
  - apply registry_ok in HL as Hok. unfold rowOk in Hok. cbn [fst snd] in Hok. split_and!.
    + done.
    + bool_prop. cbn [status writeJSON]. match goal with H : Status _ ∈ _ |- _ => rewrite !elem_of_cons in H; destruct_or! H; try lia; by apply not_elem_of_nil in H end.
    + bool_prop. cbn [status writeJSON]. match goal with H : Status _ ∈ _ |- _ => rewrite !elem_of_cons in H; destruct_or! H; try lia; by apply not_elem_of_nil in H end.
    + intros ref' e [= <-] Hh [= <-]. cbn [ePolicy]. unfold wirePolicy.
      destruct Hh as [-> |Hw]; [by rewrite orb_true_r|by rewrite (proj2 (String.eqb_neq _ _) Hw)].
    + exists ev. split; [done|]. destruct (rAudit ref); [by rewrite andb_true_r|by rewrite andb_false_r].
    + intros Ea. rewrite Ea in Hok. cbn [orb] in Hok. by bool_prop.
  - split_and!; [done|cbn; lia|cbn; lia|by intros|exists ev; split; [done|by rewrite andb_true_r]|done].
Qed.
End Refusals.
