(* ===== verification/RunAccess.v ===== *)
(** * Doors to runs and workspaces

    The owner rules of the control plane's API ([helpers.go], [run_entry.go],
    [attach_ticket.go] and [service_identity_auth.go] of [src/internal/api]): who may
    read, stop or enter a run, who may read, change or launch a workspace, and what
    everyone else is answered. The store's reads and the capability resolver's answer
    are an argument of the model ([apiStore]); a door returns what it grants or the
    response it wrote, with the audit rows.

    A caller who may not act on a run cannot tell it from a missing one: the theorems
    at the end say that the two answers are equal. *)
From stdpp Require Import gmap.
From S2P Require Import Prelude GoStrings GoPath PolicyTypes Grants PolicyRef Authz Refuse.
Local Open Scope string_scope.
Local Open Scope Z_scope.
Local Open Scope list_scope.

(** ** Rows and the store *)

Record AgentRun := mkAgentRun {
  runID : string; CreatedBy : string; OperatorOwned : bool; Experience : string; HumanAuthor : string }.
Record Workspace := mkWorkspace { wsID : string; OwnedBy : string }.

(** What a read answers: the row, [store.ErrNotFound], or another error. *)
Inductive got (A : Type) := Found (a : A) | Missing | Failed (e : serverErr).
Arguments Found {A} a.
Arguments Missing {A}.
Arguments Failed {A} e.

Record apiStore := mkApiStore {
  storeSet : bool; GetRun : string -> got AgentRun; GetWorkspace : string -> got Workspace;
  serviceStore : bool; GetServiceIdentity : string -> got string;
  ServiceStillSponsored : string -> string -> Z -> got bool;
  capAllowedAsMember : reqCtx -> string -> string -> serverErr + bool }.

(** A door grants, or has answered. *)
Inductive door (A : Type) := Granted (a : A) | Answered (r : response).
Arguments Granted {A} a.
Arguments Answered {A} r.
Definition outcome (A : Type) : Type := door A * list AuditEvent.

Definition reasonRunNotFound := "run_not_found".
Definition reasonWorkspaceNotFound := "workspace_not_found".
Definition reasonRunBackgroundOnly := "run_background_only".

Section Doors.
Context {U : GoUnicode} (st : apiStore) (audited : bool) (r : request).

(** [notFoundIf]. *)
Definition notFound (entity reason : string) : response := writeErrorReason 404 reason (entity +:+ " not found").

Definition answer {A} (x : response * list AuditEvent) : outcome A := (Answered (fst x), snd x).

(** ** Runs: who may act *)

Definition serviceOfRun (run : AgentRun) : option string := CutPrefix (CreatedBy run) ServicePrincipalPrefix.

(** [None] stands for any error. *)
Definition serviceRecord (name : string) : option string :=
  if serviceStore st then match GetServiceIdentity st name with Found sponsor => Some sponsor | _ => None end else None.

Definition ownsRunOrAdmin (run : AgentRun) : bool :=
  isSecurityOperator (rCtx r) || String.eqb (CreatedBy run) (principalFromRequest r).

Definition sponsorsRun (run : AgentRun) : bool :=
  match serviceOfRun run with
  | None => false
  | Some name =>
      let principal := principalFromRequest r in
      if String.eqb principal "" || isServicePrincipal principal || delegated (rCtx r) then false
      else match serviceRecord name with Some sponsor => String.eqb sponsor principal | None => false end
  end.

Definition ownsRunOrSponsorOrAdmin (run : AgentRun) : bool := ownsRunOrAdmin run || sponsorsRun run.

Definition ownsRunOrSuperAdmin (run : AgentRun) : bool :=
  isOperator (rCtx r) || String.eqb (CreatedBy run) (principalFromRequest r).

Definition ownsRun (run : AgentRun) : bool :=
  let p := principalFromRequest r in
  negb (String.eqb (CreatedBy run) "") && negb (String.eqb p "") && String.eqb (CreatedBy run) p.

Definition mayEnterRun (run : AgentRun) (principal : string) (superAdmin : bool) : bool :=
  (negb (String.eqb (CreatedBy run) "") && negb (String.eqb principal "") && String.eqb (CreatedBy run) principal) ||
  (superAdmin && OperatorOwned run).

(** A store failure is the error; a missing identity is no. *)
Definition sponsorStillEntitled (run : AgentRun) (principal : string) (since : Z) : serverErr + bool :=
  match serviceOfRun run with
  | None => inr false
  | Some name =>
      if String.eqb principal "" || isServicePrincipal principal then inr false
      else if negb (serviceStore st) then inr false
      else match ServiceStillSponsored st name principal since with
           | Found b => inr b
           | Missing => inr false
           | Failed e => inl e
           end
  end.

Definition mayEnterRunOrSponsor (run : AgentRun) (principal : string) (superAdmin : bool) (since : Z) : bool :=
  if mayEnterRun run principal superAdmin then true
  else if superAdmin then false
  else match sponsorStillEntitled run principal since with inr b => b | inl _ => false end.

(** The second-human rule's author test; the left is a refusal. *)
Definition runAuthoredBy (run : AgentRun) (principal : string) : option bool :=
  if String.eqb (CreatedBy run) "" then Some false
  else if String.eqb (CreatedBy run) principal then Some true
  else match serviceOfRun run with
       | None => Some false
       | Some name =>
           match serviceRecord name with
           | None => None
           | Some sponsor =>
               if String.eqb sponsor principal || String.eqb (HumanAuthor run) principal then Some true
               else if String.eqb (HumanAuthor run) "" then None else Some false
           end
       end.

(** ** Runs: the doors *)

Definition getRunOr404 (id : string) : door AgentRun :=
  match GetRun st id with
  | Found run => Granted run
  | Missing => Answered (notFound "run" reasonRunNotFound)
  | Failed e => Answered (writeServerError "get run" e)
  end.

Definition getRunAuthorizedBy (id : string) (allow : AgentRun -> bool) : outcome AgentRun :=
  match getRunOr404 id with
  | Answered x => (Answered x, [])
  | Granted run =>
      if allow run then (Granted run, [])
      else answer (refuse audited r (AsIf (OnRun (Deny ReasonNotOwner (runID run) "run not found") (runID run)) reasonRunNotFound))
  end.

Definition getRunAuthorized (id : string) : outcome AgentRun := getRunAuthorizedBy id ownsRunOrAdmin.

Definition refuseRunOwnerOnly (run : AgentRun) : response * list AuditEvent :=
  refuse audited r (OnRun (Deny ReasonRunOwnerOnly (runID run) "") (runID run)).

Definition getRunForEntry (id : string) : outcome AgentRun :=
  match getRunAuthorizedBy id ownsRunOrSuperAdmin with
  | (Answered x, rows) => (Answered x, rows)
  | (Granted run, rows) =>
      if negb (mayEnterRun run (principalFromRequest r) (isOperator (rCtx r))) then answer (refuseRunOwnerOnly run)
      else (Granted run, rows)
  end.

Definition BackgroundOnly (run : AgentRun) : bool := String.eqb (Experience run) "background".

Definition runBackgroundOnlyMsg (door : string) : string :=
  "This run is a background task, so it has no " +:+ door +:+ ". Its logs, audit trail and status stay available.".

(** The sponsor arm: entered, not the sponsor, or answered. *)
Inductive arm := ArmOk | ArmNo | ArmRefused (x : response) (rows : list AuditEvent).

Definition sponsorRefused (d : Decision) : arm :=
  ArmRefused (writeErrorReason 404 reasonRunNotFound "run not found") (recordRefusal audited (rCtx r) (Some r) d).

Definition sponsorMayEnter (run : AgentRun) (authorizedAt : Z) : arm :=
  if negb (sponsorsRun run) then ArmNo
  else match sponsorStillEntitled run (principalFromRequest r) authorizedAt with
       | inl e => ArmRefused (writeServerError "mint attach ticket" e) []
       | inr false => sponsorRefused (OnRun (Deny ReasonSponsorNotEntitled (runID run) "run not found") (runID run))
       | inr true =>
           match capAllowedAsMember st (rCtx r) "feature" "service_attach" with
           | inl e => ArmRefused (writeServerError "mint attach ticket" e) []
           | inr true => ArmOk
           | inr false => sponsorRefused (OnRun (Deny ReasonCapabilityFeature (runID run) "run not found") (runID run))
           end
       end.

(** The last gate of an entry: a background run has no terminal. *)
Definition enterForeground (run : AgentRun) (asSponsor : bool) : outcome (AgentRun * bool) :=
  if BackgroundOnly run then (Answered (writeErrorReason 409 reasonRunBackgroundOnly (runBackgroundOnlyMsg "terminal")), [])
  else (Granted (run, asSponsor), []).

Definition admitRunEntry (id : string) (authorizedAt : Z) : outcome (AgentRun * bool) :=
  match getRunAuthorizedBy id (fun run => ownsRunOrAdmin run || sponsorsRun run) with
  | (Answered x, rows) => (Answered x, rows)
  | (Granted run, _) =>
      if negb (mayEnterRun run (principalFromRequest r) (isOperator (rCtx r))) then
        match sponsorMayEnter run authorizedAt with
        | ArmRefused x rows => (Answered x, rows)
        | ArmOk => enterForeground run true
        | ArmNo =>
            if isOperator (rCtx r) then answer (refuseRunOwnerOnly run)
            else answer (refuse audited r
              (AsIf (OnRun (Deny ReasonAttachTicketForeignRun (runID run) "run not found") (runID run)) reasonRunNotFound))
        end
      else enterForeground run false
  end.

(** ** Workspaces *)

Definition getWorkspaceOr404 (id : string) : door Workspace :=
  if negb (storeSet st) then Answered (writeErrorReason 500 "workspace_store_unavailable" "get workspace: no store configured")
  else match GetWorkspace st id with
       | Found ws => Granted ws
       | Missing => Answered (notFound "workspace" reasonWorkspaceNotFound)
       | Failed e => Answered (writeServerError "get workspace" e)
       end.

Definition ownsWorkspace (ws : Workspace) : bool :=
  let principal := principalFromRequest r in
  negb (String.eqb (OwnedBy ws) "") && negb (String.eqb principal "") && String.eqb (OwnedBy ws) principal.

Definition ownsWorkspaceOrAdmin (ws : Workspace) : bool := if isOperator (rCtx r) then true else ownsWorkspace ws.
Definition ownsWorkspaceOrSecurityAdmin (ws : Workspace) : bool := if isSecurityOperator (rCtx r) then true else ownsWorkspace ws.
Definition mayLaunchWorkspace (ws : Workspace) : bool := String.eqb (OwnedBy ws) "" || ownsWorkspaceOrAdmin ws.

Definition denyForeignWorkspace (ws : Workspace) : response * list AuditEvent :=
  refuse audited r (AsIf (Deny ReasonNotOwner (wsID ws) "workspace not found") reasonWorkspaceNotFound).

Definition getWorkspaceAuthorized (id : string) : outcome Workspace :=
  match getWorkspaceOr404 id with
  | Answered x => (Answered x, [])
  | Granted ws =>
      if ownsWorkspaceOrAdmin ws then (Granted ws, [])
      else if String.eqb (OwnedBy ws) "" then answer (refuse audited r (Deny ReasonAdminSurface (rPath r) ""))
      else answer (denyForeignWorkspace ws)
  end.

Definition getWorkspaceReadable (id : string) : outcome Workspace :=
  match getWorkspaceOr404 id with
  | Answered x => (Answered x, [])
  | Granted ws =>
      if String.eqb (OwnedBy ws) "" || ownsWorkspaceOrSecurityAdmin ws then (Granted ws, [])
      else answer (denyForeignWorkspace ws)
  end.

(** ** Admin surfaces *)

Definition requireOperator {A} (next : outcome A) : outcome A :=
  if negb (isOperator (rCtx r)) then answer (refuse audited r (Deny ReasonAdminSurface (rPath r) "")) else next.

Definition requireSecurityOperator {A} (next : outcome A) : outcome A :=
  if negb (isSecurityOperator (rCtx r)) then answer (refuse audited r (Deny ReasonSecurityAdminSurface (rPath r) "")) else next.
End Doors.

(** ** Existence is hidden *)

(** The store without the run, and without the workspace, of that id. *)
Definition withoutRun (st : apiStore) (id : string) : apiStore :=
  mkApiStore (storeSet st) (fun i => if String.eqb i id then Missing else GetRun st i) (GetWorkspace st) (serviceStore st)
    (GetServiceIdentity st) (ServiceStillSponsored st) (capAllowedAsMember st).
Definition withoutWorkspace (st : apiStore) (id : string) : apiStore :=
  mkApiStore (storeSet st) (GetRun st) (fun i => if String.eqb i id then Missing else GetWorkspace st i) (serviceStore st)
    (GetServiceIdentity st) (ServiceStillSponsored st) (capAllowedAsMember st).

Section Hidden.
Context {U : GoUnicode} (st : apiStore) (audited : bool) (r : request).

Lemma hidden_denial reason target m s :
  bool_decide (rEffect <$> Lookup reason = Some EffectHidden) = true -> m <> "" -> s <> "" ->
  (forall id, fst (refuse audited r (AsIf (OnRun (Deny reason target s) id) m)) = writeErrorReason 404 m s) /\
  fst (refuse audited r (AsIf (Deny reason target s) m)) = writeErrorReason 404 m s.
Proof.
  intros H Hm Hs. bool_prop. apply fmap_Some in H as (ref & HL & He).
  split; [intros id|]; unfold refuse; by rewrite (hidden_answer _ _ _ ref).
Qed.

Lemma owner_denial run : fst (refuse audited r (AsIf (OnRun (Deny ReasonNotOwner (runID run) "run not found") (runID run)) reasonRunNotFound)) =
  notFound "run" reasonRunNotFound.
Proof. by apply hidden_denial. Qed.

Lemma foreign_denial run : fst (refuse audited r (AsIf (OnRun (Deny ReasonAttachTicketForeignRun (runID run) "run not found") (runID run)) reasonRunNotFound)) =
  notFound "run" reasonRunNotFound.
Proof. by apply hidden_denial. Qed.

Lemma workspace_denial ws : fst (denyForeignWorkspace audited r ws) = notFound "workspace" reasonWorkspaceNotFound.
Proof. unfold denyForeignWorkspace. by apply hidden_denial. Qed.

Lemma load_gone id : getRunOr404 (withoutRun st id) id = Answered (notFound "run" reasonRunNotFound).
Proof. unfold getRunOr404, withoutRun. cbn. by rewrite String.eqb_refl. Qed.

Lemma authorized_gone id allow : getRunAuthorizedBy (withoutRun st id) audited r id allow = (Answered (notFound "run" reasonRunNotFound), []).
Proof. unfold getRunAuthorizedBy. by rewrite load_gone. Qed.

Lemma admit_gone id at_ : admitRunEntry (withoutRun st id) audited r id at_ = (Answered (notFound "run" reasonRunNotFound), []).
Proof. unfold admitRunEntry. by rewrite authorized_gone. Qed.

Lemma authorized_refused id run allow : GetRun st id = Found run -> allow run = false ->
  fst (getRunAuthorizedBy st audited r id allow) = Answered (notFound "run" reasonRunNotFound).
Proof. intros Hg Ha. unfold getRunAuthorizedBy, getRunOr404, answer. rewrite Hg, Ha. cbn [fst]. by rewrite owner_denial. Qed.

(** The sponsor arm refuses with the missing run's answer, unless a lookup failed. *)
Lemma sponsor_refusal run at_ x rows :
  (forall e, sponsorStillEntitled st run (principalFromRequest r) at_ <> inl e) ->
  (forall e, capAllowedAsMember st (rCtx r) "feature" "service_attach" <> inl e) ->
  sponsorMayEnter st audited r run at_ = ArmRefused x rows -> x = notFound "run" reasonRunNotFound.
Proof.
  intros He Hc. unfold sponsorMayEnter, sponsorRefused. destruct (negb _); [done|].
  destruct (sponsorStillEntitled _ _ _ _) as [e|[]]; [by destruct (He e)| |by intros [= <- _]].
  destruct (capAllowedAsMember _ _ _ _) as [e|[]]; [by destruct (Hc e)|done|by intros [= <- _]].
Qed.

Lemma admit_refused id run at_ : GetRun st id = Found run ->
  isOperator (rCtx r) = false -> mayEnterRun run (principalFromRequest r) false = false -> sponsorMayEnter st audited r run at_ <> ArmOk ->
  (forall e, sponsorStillEntitled st run (principalFromRequest r) at_ <> inl e) ->
  (forall e, capAllowedAsMember st (rCtx r) "feature" "service_attach" <> inl e) ->
  fst (admitRunEntry st audited r id at_) = Answered (notFound "run" reasonRunNotFound).
Proof.
  intros Hg Ho Hm Hs He Hc. unfold admitRunEntry. destruct (ownsRunOrAdmin r run || sponsorsRun st r run) eqn:Ha.
  - unfold getRunAuthorizedBy, getRunOr404. rewrite Hg, Ha, Ho, Hm. cbn [negb].
    destruct (sponsorMayEnter st audited r run at_) as [| |x rows] eqn:Es; [done| |by rewrite (sponsor_refusal _ _ _ _ He Hc Es)].
    unfold answer. cbn [fst]. by rewrite foreign_denial.
  - pose proof (authorized_refused id run (fun run => ownsRunOrAdmin r run || sponsorsRun st r run) Hg Ha) as H.
    destruct (getRunAuthorizedBy _ _ _ _ _) as [[] rows]; [done|]. cbn [fst] in *. by injection H as ->.
Qed.

(** A lookup of the sponsor arm failed: the sponsor's standing, or the capability. *)
Definition sponsorLookupFails (run : AgentRun) (authorizedAt : Z) : Prop :=
  (exists e, sponsorStillEntitled st run (principalFromRequest r) authorizedAt = inl e) \/
  (exists e, capAllowedAsMember st (rCtx r) "feature" "service_attach" = inl e).

Lemma admit_hidden id run at_ : GetRun st id = Found run ->
  isOperator (rCtx r) = false -> mayEnterRun run (principalFromRequest r) false = false -> sponsorMayEnter st audited r run at_ <> ArmOk ->
  fst (admitRunEntry st audited r id at_) = Answered (notFound "run" reasonRunNotFound) \/ (sponsorsRun st r run = true /\ sponsorLookupFails run at_).
Proof.
  intros Hg Ho Hm Hs. destruct (sponsorStillEntitled st run (principalFromRequest r) at_) as [e|ok] eqn:Ee, (capAllowedAsMember st (rCtx r) "feature" "service_attach") as [e'|ok'] eqn:Ec;
    [| | |left; apply (admit_refused id run); [done..| |]; intros; congruence];
    (destruct (sponsorsRun st r run) eqn:Es; [right; split; [done|]; unfold sponsorLookupFails; eauto|left]).
  all: unfold admitRunEntry; destruct (ownsRunOrAdmin r run || sponsorsRun st r run) eqn:Ha;
    [unfold getRunAuthorizedBy, getRunOr404; rewrite Hg, Ha, Ho, Hm; cbn [negb]; unfold sponsorMayEnter; rewrite Es; cbn [negb]; unfold answer; cbn [fst]; by rewrite foreign_denial|].
  all: pose proof (authorized_refused id run (fun run => ownsRunOrAdmin r run || sponsorsRun st r run) Hg Ha) as H;
    destruct (getRunAuthorizedBy _ _ _ _ _) as [[] rows]; [done|]; cbn [fst] in *; by injection H as ->.
Qed.

(** C17: A caller who may not act on a run or a workspace that is there is answered exactly
    as if it were not. At every run door, whatever its owner rule, a run the rule refuses
    is answered as a missing one. At the entry door so is every caller but a super admin
    (who sees every run anyway) that neither may enter the run nor enters as its sponsor;
    the one other answer there is to the recorded sponsor of the run itself, when a lookup
    of that sponsor's standing or capability fails. At the changing and at the reading door
    of a workspace a member owns, everyone the door refuses. *)
Theorem existence_is_hidden :
  (forall id run, GetRun st id = Found run ->
    (forall allow, allow run = false ->
       fst (getRunAuthorizedBy st audited r id allow) = fst (getRunAuthorizedBy (withoutRun st id) audited r id allow)) /\
    (forall authorizedAt, isOperator (rCtx r) = false -> mayEnterRun run (principalFromRequest r) false = false ->
       sponsorMayEnter st audited r run authorizedAt <> ArmOk ->
       fst (admitRunEntry st audited r id authorizedAt) = fst (admitRunEntry (withoutRun st id) audited r id authorizedAt) \/
       (sponsorsRun st r run = true /\ sponsorLookupFails run authorizedAt))) /\
  (forall id ws, GetWorkspace st id = Found ws -> OwnedBy ws <> "" ->
    (ownsWorkspaceOrAdmin r ws = false ->
       fst (getWorkspaceAuthorized st audited r id) = fst (getWorkspaceAuthorized (withoutWorkspace st id) audited r id)) /\
    (ownsWorkspaceOrSecurityAdmin r ws = false ->
       fst (getWorkspaceReadable st audited r id) = fst (getWorkspaceReadable (withoutWorkspace st id) audited r id))).
Proof.
  split.
  - intros id run Hg. split.
    + intros allow Ha. by rewrite (authorized_refused id run), authorized_gone.
    + intros at_ Ho Hm Hs. rewrite admit_gone. by apply (admit_hidden id run).
  - intros id ws Hws Ho. split; intros Ha.
    + unfold getWorkspaceAuthorized, getWorkspaceOr404, withoutWorkspace. cbn [storeSet GetWorkspace]. destruct (storeSet st); [|done].
      rewrite Hws, String.eqb_refl. cbn [negb]. rewrite Ha, (proj2 (String.eqb_neq _ _) Ho). cbn [negb]. unfold answer. cbn [fst]. by rewrite workspace_denial.
    + unfold getWorkspaceReadable, getWorkspaceOr404, withoutWorkspace. cbn [storeSet GetWorkspace]. destruct (storeSet st); [|done].
      rewrite Hws, String.eqb_refl. cbn [negb]. rewrite Ha, (proj2 (String.eqb_neq _ _) Ho). cbn [negb orb]. unfold answer. cbn [fst]. by rewrite workspace_denial.
Qed.

(** ** Entry belongs to the owner *)

Lemma enter_granted run b a b' rows : enterForeground run b = (Granted (a, b'), rows) ->
  a = run /\ b' = b /\ rows = [] /\ BackgroundOnly run = false.
Proof. unfold enterForeground. destruct (BackgroundOnly run); [done|]. by intros [= <- <- <-]. Qed.

Lemma authorized_granted id allow run rows : getRunAuthorizedBy st audited r id allow = (Granted run, rows) ->
  GetRun st id = Found run /\ allow run = true /\ rows = [].
Proof.
  unfold getRunAuthorizedBy, getRunOr404. destruct (GetRun st id) as [run'| |e]; [|done|done].
  destruct (allow run') eqn:Ha; [|done]. by intros [= <- <-].
Qed.

Lemma sponsor_enters run at_ : sponsorMayEnter st audited r run at_ = ArmOk ->
  sponsorsRun st r run = true /\ sponsorStillEntitled st run (principalFromRequest r) at_ = inr true /\
  capAllowedAsMember st (rCtx r) "feature" "service_attach" = inr true.
Proof.
  unfold sponsorMayEnter, sponsorRefused. destruct (sponsorsRun st r run); [|done]. cbn [negb].
  destruct (sponsorStillEntitled _ _ _ _) as [|[]]; [done| |done]. by destruct (capAllowedAsMember _ _ _ _) as [|[]].
Qed.

Lemma sponsors_run_facts run : sponsorsRun st r run = true ->
  exists name, CreatedBy run = ServicePrincipalPrefix +:+ name /\ serviceRecord st name = Some (principalFromRequest r) /\
    delegated (rCtx r) = false /\ isServicePrincipal (principalFromRequest r) = false.
Proof.
  unfold sponsorsRun, serviceOfRun. destruct (CutPrefix _ _) as [name|] eqn:Ec; [|done]. cbn zeta. intros H. exists name.
  destruct (String.eqb (principalFromRequest r) ""); [done|]. destruct (isServicePrincipal _); [done|]. destruct (delegated _); [done|]. cbn [orb] in H.
  destruct (serviceRecord st name) as [s|]; [|done]. apply String.eqb_eq in H as ->.
  split_and!; [by apply CutPrefix_Some|done|done|done].
Qed.

(** C18: Whoever the entry door lets into a run is the run's own creator, or a super admin
    on a run with no personal owner, or, as a sponsor, the recorded sponsor of the
    service identity that created it, still entitled and holding the capability, acting
    in person and not a service itself; the run exists and is not a background run, and
    nothing is recorded. A security administrator enters no one else's run. *)
Theorem entry_is_the_owners (id : string) (authorizedAt : Z) (run : AgentRun) (asSponsor : bool) (rows : list AuditEvent)
  (H : admitRunEntry st audited r id authorizedAt = (Granted (run, asSponsor), rows)) :
  GetRun st id = Found run /\ BackgroundOnly run = false /\ rows = [] /\
  ((asSponsor = false /\ CreatedBy run = principalFromRequest r /\ CreatedBy run <> "") \/
   (asSponsor = false /\ isOperator (rCtx r) = true /\ OperatorOwned run = true) \/
   (asSponsor = true /\ (exists name, CreatedBy run = ServicePrincipalPrefix +:+ name /\ serviceRecord st name = Some (principalFromRequest r)) /\
    delegated (rCtx r) = false /\ isServicePrincipal (principalFromRequest r) = false /\
    sponsorStillEntitled st run (principalFromRequest r) authorizedAt = inr true /\
    capAllowedAsMember st (rCtx r) "feature" "service_attach" = inr true)).
Proof.
  unfold admitRunEntry in H. destruct (getRunAuthorizedBy _ _ _ _ _) as [[run'|x] rows'] eqn:Eg; [|done].
  apply authorized_granted in Eg as (Hg & Ha & ->). destruct (mayEnterRun run' _ _) eqn:Em; cbn [negb] in H.
  - apply enter_granted in H as (-> & -> & -> & Hb). split_and!; [done|done|done|]. unfold mayEnterRun in Em.
    apply orb_prop in Em as [Em|Em]; bool_prop; [left|right; left; done]. split_and!; [done|by apply String.eqb_eq|by apply String.eqb_neq].
  - destruct (sponsorMayEnter _ _ _ _ _) as [| |x rows''] eqn:Es; [|by destruct (isOperator _)|done].
    apply enter_granted in H as (-> & -> & -> & Hb). apply sponsor_enters in Es as (Hsp & He & Hc).
    apply sponsors_run_facts in Hsp as (name & ? & ? & ? & ?). split_and!; [done|done|done|]. right; right. split_and!; eauto.
Qed.
End Hidden.

(** ** Examples *)

Definition plainCtx (who rl : string) : reqCtx := mkReqCtx None None None None "" who rl false false false "" "".
Definition asPerson (who rl : string) : request := mkRequest (plainCtx who rl) "GET" "/api/v1/runs/r1" "".
Definition aliceRun : AgentRun := mkAgentRun "r1" "alice" false "" "".
Definition aliceSpace : Workspace := mkWorkspace "w1" "alice".
Definition oneStore : apiStore :=
  mkApiStore true (fun i => if String.eqb i "r1" then Found aliceRun else Missing) (fun i => if String.eqb i "w1" then Found aliceSpace else Missing)
    true (fun _ => Missing) (fun _ _ _ => Missing) (fun _ _ _ => inr false).

Lemma existence_is_hidden_witness :
  fst (admitRunEntry (U := asciiTables) oneStore true (asPerson "eve" RoleSecurityAdmin) "r1" 0) =
  fst (admitRunEntry (U := asciiTables) (withoutRun oneStore "r1") true (asPerson "eve" RoleSecurityAdmin) "r1" 0) /\
  fst (getWorkspaceReadable (U := asciiTables) oneStore true (asPerson "eve" "user") "w1") =
  fst (getWorkspaceReadable (U := asciiTables) (withoutWorkspace oneStore "w1") true (asPerson "eve" "user") "w1").
Proof.
  split.
  - destruct (existence_is_hidden (U := asciiTables) oneStore true (asPerson "eve" RoleSecurityAdmin)) as [H _].
    destruct (proj2 (H "r1" aliceRun eq_refl) 0) as [E|[E _]]; [reflexivity|reflexivity|vm_compute; discriminate|exact E|vm_compute in E; discriminate].
  - destruct (existence_is_hidden (U := asciiTables) oneStore true (asPerson "eve" "user")) as [_ H].
    apply (proj2 (H "w1" aliceSpace eq_refl ltac:(discriminate))). vm_compute. reflexivity.
Defined.

Lemma entry_is_the_owners_witness : CreatedBy aliceRun = principalFromRequest (U := asciiTables) (asPerson "alice" "user").
Proof.
  pose proof (entry_is_the_owners (U := asciiTables) oneStore true (asPerson "alice" "user") "r1" 0 aliceRun false []
    ltac:(vm_compute; reflexivity)) as (_ & _ & _ & [H|[H|H]]).
  - apply H.
  - destruct H as (_ & H & _). discriminate H.
  - destruct H as (H & _). discriminate H.
Defined.
