(* ===== verification/AttachTicket.v ===== *)
(** * Attach tickets

    The single-use tickets that open a terminal or a UI session
    ([store_ephemeral.go] of [src/internal/store]; [attach_ticket.go] and
    [run_entry.go] of [src/internal/api]): mint, redemption, the sweep, and the checks
    of the authority a redeemed ticket carries. The token hash, the revocation list and
    the portal grants are arguments of the model; the random token is the mint's
    argument. A step system interleaves mints, redemptions and sweeps of any callers. *)
From stdpp Require Import gmap.
From S2P Require Import Prelude GoStrings PushRules PolicyTypes Grants Authz Refuse RunAccess.
Local Open Scope string_scope.
Local Open Scope Z_scope.
Local Open Scope list_scope.

(** ** The table *)

Record DelegationVia := mkVia { Delegate : string; Grant : string }.
#[global] Instance DelegationVia_eq : EqDecision DelegationVia.
Proof. solve_decision. Defined.

(** A zero [AuthorizedAt] is 0. *)
Record AttachTicket := mkTicket {
  tRunID : string; tActorType : ActorType; tPrincipal : string; tRole : string; tVia : option DelegationVia;
  tAuthorizedAt : Z; tEmail : string; tRevSeq : Z; tCaller : string; tApp : string }.

Definition attachTicketTTL : Z := 30 * second.

Record ticketRow := mkRow { rowTicket : AttachTicket; expiresAt : Z }.
Abbreviation table := (gmap string ticketRow).

Section Tickets.
Context (hashToken : string -> string).

(** The sweep rides the insert; a key that is taken fails it. *)
Definition MintAttachTicket (tbl : table) (token : string) (t : AttachTicket) (now exp : Z) : option table :=
  match tbl !! hashToken token with
  | Some _ => None
  | None => Some (<[hashToken token := mkRow t exp]> (filter (fun kv => now < expiresAt kv.2) tbl))
  end.

Definition ConsumeAttachTicket (tbl : table) (token : string) (now : Z) : table * option AttachTicket :=
  match tbl !! hashToken token with
  | Some row => if now <? expiresAt row then (delete (hashToken token) tbl, Some (rowTicket row)) else (tbl, None)
  | None => (tbl, None)
  end.

Definition SweepExpiredEphemeral (tbl : table) (now : Z) : table := filter (fun kv => now < expiresAt kv.2) tbl.

(** ** Mint and redemption *)

(** [storeAttachTicket]: the portal, the authority and the email come from the context
    and the issue. *)
Definition storeAttachTicket (tbl : table) (via : option DelegationVia) (email : string) (t : AttachTicket) (at_ seq : Z) (tok : string) : option table :=
  let t' := mkTicket (tRunID t) (tActorType t) (tPrincipal t) (tRole t) (match via with Some v => Some v | None => tVia t end)
              at_ email seq (tCaller t) (tApp t) in
  MintAttachTicket tbl tok t' at_ (at_ + attachTicketTTL).

(** Burned on any attempt; the run is compared after. *)
Definition consumeAttachTicket (tbl : table) (tok runID : string) (now : Z) : table * option AttachTicket :=
  let '(tbl', t) := ConsumeAttachTicket tbl tok now in
  (tbl', match t with Some t => if String.eqb (tRunID t) runID then Some t else None | None => None end).

Inductive entryVerdict := verdictOK | verdictInvalid | verdictRevoked | verdictRevocationUnavailable
  | verdictDelegationEnded | verdictDelegationUnavailable.
#[local] Instance entryVerdict_eq : EqDecision entryVerdict.
Proof. solve_decision. Defined.

Definition unavailable (v : entryVerdict) : bool :=
  match v with verdictRevocationUnavailable | verdictDelegationUnavailable => true | _ => false end.

(** The revocation list ([None]: none configured), asked with the ticket's principal,
    email and issue; the portal grants ([None]: the store has none), read by id at a
    time: the portal and the expiry. [None] of an answer is a failed lookup. *)
Context (revocations : option (string -> string -> Z -> Z -> option bool)).
Context (delegates : option (string -> Z -> got (string * Z))).

Definition delegationLive (via : DelegationVia) (now : Z) : Z * entryVerdict :=
  match delegates with
  | None => (0, verdictDelegationUnavailable)
  | Some get =>
      match get (Grant via) now with
      | Missing => (0, verdictDelegationEnded)
      | Failed _ => (0, verdictDelegationUnavailable)
      | Found (portal, exp) => if negb (String.eqb portal (Delegate via)) then (0, verdictDelegationEnded) else (exp, verdictOK)
      end
  end.

Definition ticketAuthority (ta : AttachTicket) (now : Z) : Z * entryVerdict :=
  let after := match tVia ta with Some via => delegationLive via now | None => (0, verdictOK) end in
  match revocations with
  | None => after
  | Some isRevoked =>
      match isRevoked (tPrincipal ta) (tEmail ta) (tAuthorizedAt ta) (tRevSeq ta) with
      | None => (0, verdictRevocationUnavailable)
      | Some true => (0, verdictRevoked)
      | Some false => after
      end
  end.

(** The redeemed actor ([None] for an invalid ticket), the grant's expiry and the
    verdict. *)
Definition redeemAttachTicket (tbl : table) (tok runID : string) (now : Z) : table * (option (AttachTicket * Z) * entryVerdict) :=
  let '(tbl', t) := consumeAttachTicket tbl tok runID now in
  (tbl', match t with
         | None => (None, verdictInvalid)
         | Some ta =>
             if tAuthorizedAt ta =? 0 then (None, verdictInvalid)
             else let '(exp, v) := ticketAuthority ta now in (Some (ta, exp), v)
         end).

(** When a UI session opened from the ticket ends. *)
Definition sessionExpiry (ta : AttachTicket) (grantExpires now ttl : Z) : Z :=
  let exp := now + ttl in
  match tVia ta with Some _ => if grantExpires <? exp then grantExpires else exp | None => exp end.

Definition verdictText (v : entryVerdict) : string :=
  match v with
  | verdictOK => "" | verdictInvalid => "invalid" | verdictRevoked => "revoked"
  | verdictRevocationUnavailable => "revocation_unavailable" | verdictDelegationEnded => "delegation_ended"
  | verdictDelegationUnavailable => "delegation_unavailable"
  end.

Definition refuseTicketResponse (v : entryVerdict) : response :=
  if unavailable v then writeErrorReason 503 (verdictText v) "Could not verify this UI session; try again"
  else writeErrorReason 403 "ui_gateway_ticket_invalid" "Invalid, expired, or already-used attach ticket".

(** ** Every interleaving *)

(** The table, what was minted (by key), and the redemptions that were let in: key,
    ticket, run and time. *)
Record world := mkWorld { tickets : table; minted : list (string * AttachTicket); opened : list (string * AttachTicket * string * Z) }.
Definition initial : world := mkWorld ∅ [] [].

Definition openKey (o : string * AttachTicket * string * Z) : string := o.1.1.1.

(** A mint's key was never minted before (the token is 256 random bits); times are
    arbitrary, so clocks may disagree. *)
Inductive tstep : world -> world -> Prop :=
| step_mint w tbl' via email t at_ seq tok t' :
    (forall u, (hashToken tok, u) ∉ minted w) ->
    storeAttachTicket (tickets w) via email t at_ seq tok = Some tbl' -> rowTicket <$> tbl' !! hashToken tok = Some t' ->
    tstep w (mkWorld tbl' ((hashToken tok, t') :: minted w) (opened w))
| step_redeem w tok runID now tbl' res v :
    redeemAttachTicket (tickets w) tok runID now = (tbl', (res, v)) ->
    tstep w (mkWorld tbl' (minted w)
      (match v, res with verdictOK, Some (t, _) => (hashToken tok, t, runID, now) :: opened w | _, _ => opened w end))
| step_sweep w now : tstep w (mkWorld (SweepExpiredEphemeral (tickets w) now) (minted w) (opened w)).

(** The authority of a ticket at a time: not revoked, its portal grant standing. *)
Definition authorityHolds (t : AttachTicket) (now : Z) : Prop :=
  tAuthorizedAt t <> 0 /\
  (forall isRevoked, revocations = Some isRevoked -> isRevoked (tPrincipal t) (tEmail t) (tAuthorizedAt t) (tRevSeq t) = Some false) /\
  (forall via, tVia t = Some via -> exists get exp, delegates = Some get /\ get (Grant via) now = Found (Delegate via, exp)).

Definition rowOk (w : world) (k : string) (row : ticketRow) : Prop :=
  (k, rowTicket row) ∈ minted w /\ expiresAt row = tAuthorizedAt (rowTicket row) + attachTicketTTL /\ k ∉ map openKey (opened w).

Definition openOk (w : world) (o : string * AttachTicket * string * Z) : Prop :=
  let '(k, t, run, now) := o in
  (k, t) ∈ minted w /\ tRunID t = run /\ now < tAuthorizedAt t + attachTicketTTL /\ authorityHolds t now.

Record inv (w : world) : Prop := mkInv {
  inv_rows : forall k row, tickets w !! k = Some row -> rowOk w k row;
  inv_opened : Forall (openOk w) (opened w);
  inv_once : NoDup (map openKey (opened w)) }.

Lemma authority_ok t now exp : tAuthorizedAt t <> 0 -> ticketAuthority t now = (exp, verdictOK) -> authorityHolds t now.
Proof.
  intros Ha H. unfold ticketAuthority in H. split; [done|].
  assert (Hafter : (match tVia t with Some via => delegationLive via now | None => (0, verdictOK) end) = (exp, verdictOK) ->
    forall via, tVia t = Some via -> exists get exp, delegates = Some get /\ get (Grant via) now = Found (Delegate via, exp)).
  { intros Hd via Hv. rewrite Hv in Hd. unfold delegationLive in Hd. destruct delegates as [get|]; [|done].
    destruct (get (Grant via) now) as [[portal e]| |] eqn:Eg; [|done|done].
    destruct (String.eqb_spec portal (Delegate via)) as [->|]; [|done]. by exists get, e. }
  destruct revocations as [rev|]; [|split; [done|by apply Hafter]].
  destruct (rev _ _ _ _) as [[]|] eqn:Er; [done| |done]. split; [by intros ? [= <-]|by apply Hafter].
Qed.

(** What a redemption does to the table and what it lets in. *)
Lemma redeem_cases tbl tok runID now tbl' res v : redeemAttachTicket tbl tok runID now = (tbl', (res, v)) ->
  (tbl' = tbl /\ v = verdictInvalid) \/
  (exists row, tbl !! hashToken tok = Some row /\ now < expiresAt row /\ tbl' = delete (hashToken tok) tbl /\
    (v = verdictOK -> exists exp, res = Some (rowTicket row, exp) /\ tRunID (rowTicket row) = runID /\ authorityHolds (rowTicket row) now)).
Proof.
  unfold redeemAttachTicket, consumeAttachTicket, ConsumeAttachTicket. destruct (tbl !! hashToken tok) as [row|] eqn:El; [|intros [= <- <- <-]; by left].
  destruct (Z.ltb_spec now (expiresAt row)) as [Hn|]; [|intros [= <- <- <-]; by left]. intros H. right. exists row.
  destruct (String.eqb_spec (tRunID (rowTicket row)) runID) as [Hr|]; [|injection H as <- <- <-; split_and!; done].
  destruct (Z.eqb_spec (tAuthorizedAt (rowTicket row)) 0) as [|Ha]; [injection H as <- <- <-; split_and!; done|].
  destruct (ticketAuthority (rowTicket row) now) as [exp v'] eqn:Ea. injection H as <- <- <-. split_and!; [done|done|done|].
  intros ->. exists exp. split_and!; [done|done|by eapply authority_ok].
Qed.

Lemma openOk_mono w w' o : (forall x, x ∈ minted w -> x ∈ minted w') -> openOk w o -> openOk w' o.
Proof. intros Hm. destruct o as [[[k t] run] now]. intros (? & ? & ? & ?). split_and!; auto. Qed.

(** A minted key is not among the opened ones unless it was minted before. *)
Lemma opened_minted w k : Forall (openOk w) (opened w) -> k ∈ map openKey (opened w) -> exists t, (k, t) ∈ minted w.
Proof.
  intros H Hk. apply list_elem_of_In, in_map_iff in Hk as (o & <- & Ho). apply list_elem_of_In in Ho.
  apply (proj1 (Forall_forall _ _) H) in Ho. destruct o as [[[k' t] run] now]. exists t. by destruct Ho.
Qed.

Lemma inv_step w w' : inv w -> tstep w w' -> inv w'.
Proof.
  intros [Hrows Hop Hone] Hs. destruct Hs as [w tbl' via email t at_ seq tok t' Hfresh Hm Ht|w tok runID now tbl' res v Hr|w now].
  - unfold storeAttachTicket, MintAttachTicket in Hm. destruct (tickets w !! hashToken tok) eqn:El; [done|]. injection Hm as <-.
    rewrite lookup_insert_eq in Ht. injection Ht as <-. constructor; cbn [tickets minted opened].
    + intros k row [[<- <-]|[Hne [Hk _]%map_lookup_filter_Some]]%lookup_insert_Some.
      * split_and!; [left|done|]. intros Hk. destruct (opened_minted w _ Hop Hk) as [u Hu]. by apply (Hfresh u).
      * destruct (Hrows _ _ Hk) as (? & ? & ?). split_and!; [by right|done|done].
    + eapply Forall_impl; [exact Hop|]. intros o. apply openOk_mono. cbn. by right.
    + done.
  - destruct (redeem_cases _ _ _ _ _ _ _ Hr) as [[-> ->]|(row & El & Hn & -> & Hok)]; [done|]. pose proof (Hrows _ _ El) as (Hmt & He & Hno).
    assert (Hkeep : forall k row', delete (hashToken tok) (tickets w) !! k = Some row' -> k <> hashToken tok /\ rowOk w k row')
      by (intros k row' [? ?]%lookup_delete_Some; eauto).
    destruct (decide (v = verdictOK)) as [->|Hv].
    + destruct (Hok eq_refl) as (exp & -> & Hrun & Ha). constructor; cbn [tickets minted opened].
      * intros k row' [Hne [? [? Hk]]]%Hkeep. split_and!; [done|done|]. cbn. rewrite not_elem_of_cons. done.
      * constructor; [split_and!; [done|done|lia|done]|]. eapply Forall_impl; [exact Hop|]. intros o. by apply openOk_mono.
      * cbn. by constructor.
    + assert (match v, res with verdictOK, Some (t, _) => (hashToken tok, t, runID, now) :: opened w | _, _ => opened w end = opened w) as -> by (by destruct v).
      constructor; cbn [tickets minted opened]; [by intros k row' [_ ?]%Hkeep|done|done].
  - constructor; cbn [tickets minted opened]; [|done|done]. intros k row [Hk _]%map_lookup_filter_Some. by apply Hrows.
Qed.

(** C19: A ticket opens at most once, and only what it was minted for: over every
    interleaving of mints, redemptions and sweeps with any clocks, no token is let in
    twice; one that is let in was minted with that principal and role for that very run,
    less than thirty seconds of the redeemer's clock after its authority time, which is
    set, with that authority not revoked and its portal grant standing; and a redemption
    that finds the row burns it, for the wrong run or with a refusal too. *)
Theorem ticket_opens_once (w : world) (H : rtc tstep initial w) :
  NoDup (map openKey (opened w)) /\ Forall (openOk w) (opened w) /\
  (forall tok runID now row, tickets w !! hashToken tok = Some row -> now < expiresAt row ->
     fst (redeemAttachTicket (tickets w) tok runID now) !! hashToken tok = None).
Proof.
  assert (Hi : inv w).
  { assert (H0 : inv initial) by (constructor; cbn; [by intros k row Hk; rewrite lookup_empty in Hk|constructor|constructor]).
    clear -H H0. revert H0. induction H as [|a b c Hab _ IH]; [done|]. intros H0. apply IH. by eapply inv_step. }
  split_and!; [apply Hi|apply Hi|]. intros tok runID now row El Hn.
  destruct (redeemAttachTicket (tickets w) tok runID now) as [tbl' [res v]] eqn:Er. cbn [fst].
  unfold redeemAttachTicket, consumeAttachTicket, ConsumeAttachTicket in Er. rewrite El, (proj2 (Z.ltb_lt _ _) Hn) in Er.
  injection Er as <- _. apply lookup_delete_eq.
Qed.

(** No refusal of a redemption says which check refused. *)
Theorem ticket_refusal_is_no_oracle (v v' : entryVerdict) (H : unavailable v = false) (H' : unavailable v' = false) :
  refuseTicketResponse v = refuseTicketResponse v'.
Proof. unfold refuseTicketResponse. by rewrite H, H'. Qed.
End Tickets.

Definition demoTicket : AttachTicket := mkTicket "r1" ActorHuman "alice" "user" None 5 "" 0 "" "".

Lemma ticket_opens_once_witness :
  let w := mkWorld ∅ [("tok", demoTicket)] [("tok", demoTicket, "r1", 7)] in
  NoDup (map openKey (opened w)) /\ Forall (openOk (Some (fun _ _ _ _ => Some false)) None w) (opened w).
Proof.
  cbn zeta. edestruct (ticket_opens_once (fun t => t) (Some (fun _ _ _ _ => Some false)) None
    (mkWorld ∅ [("tok", demoTicket)] [("tok", demoTicket, "r1", 7)])) as (H1 & H2 & _); [|split; [exact H1|exact H2]].
  eapply rtc_l.
  { eapply (step_mint _ _ _ initial _ None "" demoTicket 5 0 "tok" demoTicket).
    - intros u Hu. by apply not_elem_of_nil in Hu.
    - reflexivity.
    - reflexivity. }
  eapply rtc_l; [|apply rtc_refl].
  eapply (step_redeem (fun t => t) (Some (fun _ _ _ _ => Some false)) None (mkWorld _ _ _) "tok" "r1" 7 ∅ (Some (demoTicket, 0)) verdictOK).
  vm_compute. reflexivity.
Defined.
