(* ===== verification/SweepHealth.v ===== *)
(** * The shared record of background sweeps

    [src/internal/sweephealth] and the Postgres store of [src/internal/db/sweep_ticks.go]:
    when each sweep last tried and last finished, shared by every replica. The two
    stores are instances of one interface; the tracker is written against it.

    Times are nanoseconds, the zero time is 0; a duration is 64 bits wide. A write or a
    read that fails is an outcome of the store. *)
From stdpp Require Import gmap.
From S2P Require Import Prelude GoStrings GoSlices PushRules.
Local Open Scope string_scope.
Local Open Scope Z_scope.
Local Open Scope list_scope.

(** [Time.Sub]: the difference, held inside 64 bits. *)
Definition timeSub (a b : Z) : Z := Z.max (- 2 ^ 63) (Z.min (2 ^ 63 - 1) (a - b)).

Lemma timeSub_exact a b : - 2 ^ 63 <= a - b < 2 ^ 63 -> timeSub a b = a - b.
Proof. unfold timeSub. lia. Qed.

Lemma timeSub_ge a b n : 0 <= n < 2 ^ 63 -> (n <= timeSub a b <-> n <= a - b).
Proof. unfold timeSub. lia. Qed.

(** ** The record *)

Record Tick := mkTick { AttemptedAt : Z; SucceededAt : Z; Replica : string }.
Definition zeroTick : Tick := mkTick 0 0 "".

(** What one write does to a sweep's record, in the contract of the store: no time ever
    moves backwards. *)
Definition ticked (t : Tick) (replica : string) (success : bool) (at_ : Z) : Tick :=
  mkTick (Z.max (AttemptedAt t) at_) (if success then Z.max (SucceededAt t) at_ else SucceededAt t)
    (if AttemptedAt t <=? at_ then replica else Replica t).

(** A store of ticks: a write says whether it landed, a read may fail; [view] is what a
    read that succeeds returns. *)
Class TickStore (S : Type) := {
  RecordTick : S -> string -> string -> bool -> Z -> S * bool;
  Ticks : S -> option (gmap string Tick);
  view : S -> gmap string Tick }.

Definition tickOf {S} `{TickStore S} (s : S) (sweep : string) : Tick := default zeroTick (view s !! sweep).

Class TickStoreOk (S : Type) `{TickStore S} := {
  record_same : forall s sweep replica ok at_ s' up, RecordTick s sweep replica ok at_ = (s', up) -> 0 <= at_ ->
    0 <= AttemptedAt (tickOf s sweep) -> 0 <= SucceededAt (tickOf s sweep) ->
    tickOf s' sweep = if up then ticked (tickOf s sweep) replica ok at_ else tickOf s sweep;
  record_other : forall s sweep replica ok at_ s' up other, RecordTick s sweep replica ok at_ = (s', up) -> other <> sweep -> tickOf s' other = tickOf s other;
  ticks_view : forall s m, Ticks s = Some m -> m = view s }.

(** ** The in-process store *)

Record MemStore := mkMemStore { memTicks : gmap string Tick; memErr : bool }.
Definition NewMemStore : MemStore := mkMemStore ∅ false.
Definition SetErr (m : MemStore) (e : bool) : MemStore := mkMemStore (memTicks m) e.

Definition memRecordTick (m : MemStore) (sweep replica : string) (success : bool) (at_ : Z) : MemStore * bool :=
  if memErr m then (m, false)
  else
    let t := default zeroTick (memTicks m !! sweep) in
    let rep := if negb (at_ <? AttemptedAt t) then replica else Replica t in
    let att := if AttemptedAt t <? at_ then at_ else AttemptedAt t in
    let suc := if success && (SucceededAt t <? at_) then at_ else SucceededAt t in
    (mkMemStore (<[sweep := mkTick att suc rep]> (memTicks m)) false, true).

#[global] Instance MemStore_ticks : TickStore MemStore := {
  RecordTick := memRecordTick; Ticks m := if memErr m then None else Some (memTicks m); view := memTicks }.

Lemma tick_branches t replica (success : bool) at_ :
  mkTick (if AttemptedAt t <? at_ then at_ else AttemptedAt t) (if success && (SucceededAt t <? at_) then at_ else SucceededAt t)
    (if negb (at_ <? AttemptedAt t) then replica else Replica t) = ticked t replica success at_.
Proof.
  unfold ticked. f_equal.
  - destruct (Z.ltb_spec (AttemptedAt t) at_); lia.
  - destruct success; [|done]. cbn [andb]. destruct (Z.ltb_spec (SucceededAt t) at_); lia.
  - by destruct (Z.ltb_spec at_ (AttemptedAt t)), (Z.leb_spec (AttemptedAt t) at_); try lia.
Qed.

#[global] Instance MemStore_ok : TickStoreOk MemStore.
Proof.
  split.
  - intros s sweep replica ok at_ s' up H _ _ _. cbn in H. unfold memRecordTick in H. destruct (memErr s); [by injection H as <- <-|].
    injection H as <- <-. unfold tickOf. cbn [view MemStore_ticks memTicks]. rewrite lookup_insert_eq. cbn [default]. apply tick_branches.
  - intros s sweep replica ok at_ s' up other H Hne. cbn in H. unfold memRecordTick in H. destruct (memErr s); [by injection H as <- <-|].
    injection H as <- <-. unfold tickOf. cbn [view MemStore_ticks memTicks]. by rewrite lookup_insert_ne.
  - intros s m H. cbn in *. destruct (memErr s); [done|]. by injection H.
Qed.

(** ** The Postgres store *)

(** A row: the attempt, the success ([None] is NULL) and the replica. [down] says that
    the database refuses the statement. *)
Record pgRow := mkPgRow { attempted_at : Z; succeeded_at : option Z; replica_ : string }.
Record SweepTicks := mkSweepTicks { sweepRows : gmap string pgRow; down : bool }.

(** [GREATEST] ignores NULL. *)
Definition greatest (a b : option Z) : option Z :=
  match a, b with Some x, Some y => Some (Z.max x y) | Some x, None => Some x | None, y => y end.

Definition pgRecordTick (s : SweepTicks) (sweep replica : string) (success : bool) (at_ : Z) : SweepTicks * bool :=
  if down s then (s, false)
  else
    let succeeded := if success then Some at_ else None in
    let row := match sweepRows s !! sweep with
               | None => mkPgRow at_ succeeded replica
               | Some t => mkPgRow (Z.max (attempted_at t) at_) (greatest (succeeded_at t) succeeded)
                             (if attempted_at t <=? at_ then replica else replica_ t)
               end in
    (mkSweepTicks (<[sweep := row]> (sweepRows s)) false, true).

Definition rowTick (r : pgRow) : Tick := mkTick (attempted_at r) (default 0 (succeeded_at r)) (replica_ r).
Definition pgView (s : SweepTicks) : gmap string Tick := rowTick <$> sweepRows s.

#[global] Instance SweepTicks_ticks : TickStore SweepTicks := {
  RecordTick := pgRecordTick; Ticks s := if down s then None else Some (pgView s); view := pgView }.

#[global] Instance SweepTicks_ok : TickStoreOk SweepTicks.
Proof.
  split.
  - intros s sweep replica ok at_ s' up H Hat Ha Hs. cbn in H. unfold pgRecordTick in H. destruct (down s); [by injection H as <- <-|].
    injection H as <- <-. unfold tickOf in *. cbn [view SweepTicks_ticks] in *. unfold pgView in *. cbn [sweepRows]. rewrite !lookup_fmap in *. rewrite lookup_insert_eq.
    destruct (sweepRows s !! sweep) as [[a su re]|]; cbn in *.
    + unfold rowTick, ticked. cbn. f_equal. destruct ok, su as [x|]; cbn in *; lia.
    + unfold rowTick, ticked. cbn. rewrite (proj2 (Z.leb_le 0 at_)) by done. f_equal; [lia|]. destruct ok; cbn; lia.
  - intros s sweep replica ok at_ s' up other H Hne. cbn in H. unfold pgRecordTick in H. destruct (down s); [by injection H as <- <-|].
    injection H as <- <-. unfold tickOf. cbn [view SweepTicks_ticks]. unfold pgView. cbn [sweepRows]. by rewrite !lookup_fmap, lookup_insert_ne.
  - intros s m H. cbn in *. destruct (down s); [done|]. by injection H.
Qed.

(** ** The tracker *)

Definition Names : list string :=
  ["idle_reaper"; "terminal_sandbox"; "approval_expiry"; "run_secret"; "credential_expiry"; "recording_retention";
   "run_watcher"; "orphaned_build"; "run_output"; "run_queue"; "aws_sso_renewal"].
Definition IdleReaper := "idle_reaper".
Definition StaleAfterIntervals : Z := 3.

Record Sweep := mkSweep { sName : string; sInterval : Z }.
Record Tracker := mkTracker { tReplica : string; started : Z; tSweeps : gmap string Z }.
Record SweepStatus := mkStatus { ssSweep : Sweep; ssAttempted : Z; ssSucceeded : Z; Stale : bool }.

(** [slices.Index]. *)
Fixpoint indexOf (l : list string) (x : string) : Z :=
  match l with
  | [] => -1
  | y :: l => if String.eqb x y then 0 else let i := indexOf l x in if i <? 0 then -1 else i + 1
  end.

Definition Register (t : Tracker) (sweeps : list Sweep) : Tracker :=
  mkTracker (tReplica t) (started t) (fold_left (fun m s => <[sName s := sInterval s]> m) sweeps (tSweeps t)).

Definition Registered (t : option Tracker) : list Sweep :=
  match t with
  | None => []
  | Some t => sortBy (fun a b => indexOf Names (sName a) <=? indexOf Names (sName b)) (map (fun kv => mkSweep kv.1 kv.2) (map_to_list (tSweeps t)))
  end.

Section Tracking.
Context {S : Type} `{TickStoreOk S}.

(** Best effort: a write that fails changes nothing and stops nothing. *)
Definition mark (t : Tracker) (s : S) (sweep : string) (success : bool) (now : Z) : S := fst (RecordTick s sweep (tReplica t) success now).

(** [Tick] around a body that returned an error or not ([ok]); the two clock readings.
    The body's own effects are not the record's. *)
Definition TrackTick (t : option Tracker) (s : S) (sweep : string) (begin_ end_ : Z) (ok : bool) : S :=
  match t with
  | None => s
  | Some t => let s := mark t s sweep false begin_ in if ok then mark t s sweep true end_ else s
  end.

Definition sweepStatus (t : Tracker) (m : gmap string Tick) (now : Z) (s : Sweep) : SweepStatus :=
  let tk := default zeroTick (m !! sName s) in
  let ref := if SucceededAt tk <? started t then started t else SucceededAt tk in
  mkStatus s (AttemptedAt tk) (SucceededAt tk) ((0 <? sInterval s) && (wrap64 (StaleAfterIntervals * sInterval s) <=? timeSub now ref)).

(** [None] is the error of a record that cannot be read. *)
Definition Status (t : option Tracker) (s : S) (now : Z) : option (list SweepStatus) :=
  match t, Registered t with
  | Some t, (_ :: _) as sweeps => match Ticks s with None => None | Some m => Some (map (sweepStatus t m now) sweeps) end
  | _, _ => Some []
  end.

(** ** What the record says *)

(** One tick of some replica. *)
Record tickRun := mkTickRun { trTracker : Tracker; trSweep : string; trBegin : Z; trEnd : Z; trOk : bool }.
Definition runTick (s : S) (x : tickRun) : S := TrackTick (Some (trTracker x)) s (trSweep x) (trBegin x) (trEnd x) (trOk x).

Definition sane (s : S) : Prop := forall sweep, 0 <= AttemptedAt (tickOf s sweep) /\ 0 <= SucceededAt (tickOf s sweep).

Lemma mark_sane t s sweep ok now : sane s -> 0 <= now -> sane (mark t s sweep ok now).
Proof.
  intros Hs Hn other. unfold mark. destruct (RecordTick s sweep (tReplica t) ok now) as [s' up] eqn:E. cbn [fst]. destruct (decide (other = sweep)) as [->|Hne].
  - destruct (Hs sweep). rewrite (record_same _ _ _ _ _ _ _ E) by done. destruct up; [|done]. unfold ticked. cbn. destruct ok; lia.
  - by rewrite (record_other _ _ _ _ _ _ _ _ E Hne).
Qed.

Lemma mark_succeeded t s sweep ok now other : sane s -> 0 <= now ->
  SucceededAt (tickOf s other) <= SucceededAt (tickOf (mark t s sweep ok now) other) /\
  (SucceededAt (tickOf (mark t s sweep ok now) other) = SucceededAt (tickOf s other) \/
   (other = sweep /\ ok = true /\ SucceededAt (tickOf (mark t s sweep ok now) other) = now)).
Proof.
  intros Hs Hn. unfold mark. destruct (RecordTick s sweep (tReplica t) ok now) as [s' up] eqn:E. cbn [fst]. destruct (decide (other = sweep)) as [->|Hne].
  - destruct (Hs sweep). rewrite (record_same _ _ _ _ _ _ _ E) by done. destruct up; [|split; [lia|by left]]. unfold ticked. cbn. destruct ok; [|split; [lia|by left]].
    split; [lia|]. destruct (Z.max_spec (SucceededAt (tickOf s sweep)) now) as [[_ ->]|[_ ->]]; [right|left]; done.
  - rewrite (record_other _ _ _ _ _ _ _ _ E Hne). split; [lia|by left].
Qed.

Lemma runTick_sane s x : sane s -> 0 <= trBegin x -> 0 <= trEnd x -> sane (runTick s x).
Proof. intros. unfold runTick, TrackTick. destruct (trOk x); repeat apply mark_sane; done. Qed.

Lemma runTick_succeeded s x other : sane s -> 0 <= trBegin x -> 0 <= trEnd x ->
  SucceededAt (tickOf s other) <= SucceededAt (tickOf (runTick s x) other) /\
  (trSweep x <> other \/ trOk x = false -> SucceededAt (tickOf (runTick s x) other) = SucceededAt (tickOf s other)).
Proof.
  intros Hs Hb He. unfold runTick, TrackTick. set (s1 := mark (trTracker x) s (trSweep x) false (trBegin x)).
  assert (H1 : SucceededAt (tickOf s1 other) = SucceededAt (tickOf s other))
    by (destruct (mark_succeeded (trTracker x) s (trSweep x) false (trBegin x) other Hs Hb) as [_ [?|(_ & ? & _)]]; done).
  destruct (trOk x); [|rewrite H1; split; [lia|done]]. rewrite <- H1.
  destruct (mark_succeeded (trTracker x) s1 (trSweep x) true (trEnd x) other) as [Hle Hor]; [by apply mark_sane|done|].
  split; [done|]. intros [Hne|?]; [|done]. destruct Hor as [?|(-> & _)]; done.
Qed.

Lemma history_succeeded hist s other : sane s -> Forall (fun x => 0 <= trBegin x /\ 0 <= trEnd x) hist ->
  sane (fold_left runTick hist s) /\ SucceededAt (tickOf s other) <= SucceededAt (tickOf (fold_left runTick hist s) other) /\
  (Forall (fun x => trSweep x <> other \/ trOk x = false) hist -> SucceededAt (tickOf (fold_left runTick hist s) other) = SucceededAt (tickOf s other)).
Proof.
  revert s. induction hist as [|x hist IH]; intros s Hs Hh; [split_and!; [done|cbn; lia|done]|]. inversion Hh as [|? ? [Hb He] Hh']; subst.
  destruct (runTick_succeeded s x other Hs Hb He) as [Hle Heq]. destruct (IH (runTick s x)) as (H1 & H2 & H3); [by apply runTick_sane|done|]. cbn [fold_left].
  split_and!; [done|lia|]. intros Hf. inversion Hf; subst. rewrite H3 by done. by apply Heq.
Qed.

(** A sweep that stops succeeding shows: after any history of ticks by any replicas,
    over either store and with any writes lost, a sweep's recorded success never moves
    back, and one none of whose ticks in the history succeeded is reported stale exactly
    when three of its intervals have passed since the later of its last recorded success
    and the reader's start; no sweep is ever reported stale before that long after the
    reader's start. *)
Theorem failing_sweep_turns_stale (s : S) (hist : list tickRun) (t : Tracker) (now : Z) (out : list SweepStatus) (x : SweepStatus)
  (Hs : sane s) (Hh : Forall (fun y => 0 <= trBegin y /\ 0 <= trEnd y) hist)
  (Hst : Status (Some t) (fold_left runTick hist s) now = Some out) (Hx : x ∈ out)
  (Hi : 0 < sInterval (ssSweep x) < 2 ^ 63 / 3) :
  SucceededAt (tickOf s (sName (ssSweep x))) <= ssSucceeded x /\
  (Stale x = true -> started t + 3 * sInterval (ssSweep x) <= now) /\
  (Forall (fun y => trSweep y <> sName (ssSweep x) \/ trOk y = false) hist ->
   Stale x = true <-> Z.max (SucceededAt (tickOf s (sName (ssSweep x)))) (started t) + 3 * sInterval (ssSweep x) <= now).
Proof.
  unfold Status in Hst. destruct (Registered (Some t)) as [|sw sws] eqn:Er; [injection Hst as <-; by apply not_elem_of_nil in Hx|].
  destruct (Ticks _) as [m|] eqn:Et; [|done]. injection Hst as <-. apply ticks_view in Et as ->.
  apply list_elem_of_In in Hx. apply (proj1 (in_map_iff (sweepStatus t _ now) (sw :: sws) x)) in Hx as (w & <- & _). clear Er.
  unfold sweepStatus in *. cbn [ssSweep ssSucceeded Stale] in *.
  destruct (history_succeeded hist s (sName w) Hs Hh) as (_ & Hle & Heq). unfold tickOf in Hle at 2. unfold tickOf in Heq at 1.
  set (tk := default zeroTick (view (fold_left runTick hist s) !! sName w)) in *.
  assert (H63 : 2 ^ 63 / 3 * 3 <= 2 ^ 63) by (vm_compute; congruence). unfold StaleAfterIntervals.
  rewrite (proj2 (Z.ltb_lt 0 _)) by lia. cbn [andb]. rewrite wrap64_small by lia. rewrite Z.leb_le, timeSub_ge by lia.
  split_and!; [done| |].
  - destruct (Z.ltb_spec (SucceededAt tk) (started t)); lia.
  - intros Hf. rewrite <- (Heq Hf). destruct (Z.ltb_spec (SucceededAt tk) (started t)); lia.
Qed.
End Tracking.

Definition demoTracker : Tracker := mkTracker "a" 0 (<[IdleReaper := 10]> ∅).

Lemma new_sane : sane NewMemStore.
Proof. intros sweep. change (tickOf NewMemStore sweep) with (default zeroTick ((∅ : gmap string Tick) !! sweep)). rewrite lookup_empty. cbn. lia. Qed.

Lemma failing_sweep_turns_stale_witness : exists x,
  Status (Some demoTracker) (fold_left runTick [mkTickRun demoTracker IdleReaper 40 41 false] NewMemStore) 50 = Some [x] /\ Stale x = true.
Proof.
  eexists. split; [vm_compute; reflexivity|].
  apply (proj2 (proj2 (failing_sweep_turns_stale NewMemStore [mkTickRun demoTracker IdleReaper 40 41 false] demoTracker 50 _ _
    new_sane ltac:(repeat constructor; cbn; lia) ltac:(vm_compute; reflexivity) ltac:(left) ltac:(vm_compute; split; reflexivity)))).
  - constructor; [by right|constructor].
  - vm_compute. discriminate.
Defined.
