(* ===== verification/Reaper.v ===== *)
(** * The idle reaper

    [src/internal/lifecycle] (the reap loop, its thresholds and its audit events), the
    adapters of [src/cmd/wardynd/adapters.go] that list the runs and stop one, and the
    guarded updates of [src/internal/store/store_run_state_cas.go].

    The loop is written against the [Stopper] interface: a stop is a function of the
    world that returns the new world and an answer, so anything may have happened to a
    run since it was listed. What the loop does is a trace of calls and emitted events.
    Times are nanoseconds, the zero time is 0; [int64(d.Seconds())] goes through floating
    point and is an argument. A deadline that passes is an error of the call. *)
From stdpp Require Import gmap.
From S2P Require Import Prelude GoStrings GoSlices PushRules SweepHealth.
Local Open Scope string_scope.
Local Open Scope Z_scope.
Local Open Scope list_scope.

(** ** Failed steps *)

Definition failedStepNames : gmap string string :=
  list_to_map [("runner_error", "sandbox_teardown"); ("identity_error", "identity_revoke"); ("broker_error", "broker_revoke");
    ("proxy_config_error", "proxy_config_drop"); ("pat_revoke_check_error", "pat_revoke_check"); ("approval_cancel_error", "approval_cancel")].

(** The [failed_steps] list [WithFailedSteps] adds: step and reason, in key order. *)
Definition failedSteps (data : gmap string string) : list (string * string) :=
  omap (fun k => match failedStepNames !! k with Some step => Some (step, default "" (data !! k)) | None => None end)
    (sortStrings (map fst (map_to_list data))).

(** ** The loop *)

Record RunSummary := mkRunSummary {
  ID : string; CreatedAt : Z; AdmittedAt : Z; UpdatedAt : Z; PolicyAutoStopAfterSec : Z; Kept : bool; HasLifetimeCap : bool }.

Definition aged (s : RunSummary) : Z := if negb (AdmittedAt s =? 0) then AdmittedAt s else CreatedAt s.

Record StopOutcome := mkOutcome { Applied : bool; Errors : gmap string string }.

Class Stopper (W : Type) := {
  StopRun : W -> string -> Z -> W * (string + StopOutcome);
  StopRunMaxAge : W -> string -> Z -> W * (string + StopOutcome) }.

Inductive eventData :=
  | IdleData (idle_for_sec threshold_sec : Z)
  | AgeData (age_sec max_age_sec : Z)
  | RevokeData (steps : gmap string string) (failed_steps : list (string * string)).

(** An audit event of the reaper: the system actor "wardyn/lifecycle-reaper" on the run. *)
Record reaperEvent := mkEvent { evRunID : string; evAct : string; evResult : string; evPayload : eventData }.

(** What a tick does, in order: a stop with the answer it got, or an event. *)
Inductive act :=
  | CallStop (id : string) (notAfter : Z) (ans : string + StopOutcome)
  | CallMaxAge (id : string) (createdNotAfter : Z) (ans : string + StopOutcome)
  | Emit (ev : reaperEvent).

Definition TouchDebounce : Z := 30 * second.
Definition defaultInterval : Z := 60 * second.

Definition thresholdFor (run : RunSummary) : Z := wrap64 (wrap64 (PolicyAutoStopAfterSec run * second) + TouchDebounce).

(** [New]'s default. *)
Definition intervalOf (i : Z) : Z := if i <=? 0 then defaultInterval else i.

Section Loop.
Context {W : Type} `{Stopper W} (wholeSeconds : Z -> Z) (maxAge : Z).

Definition emitAutoStop (id : string) (idleFor threshold : Z) : act :=
  Emit (mkEvent id "run.autostop" "success" (IdleData (wholeSeconds idleFor) (wholeSeconds threshold))).
Definition emitMaxAgeStop (id : string) (age : Z) : act :=
  Emit (mkEvent id "run.max_age.expire" "success" (AgeData (wholeSeconds age) (wholeSeconds maxAge))).
Definition emitRevokeFailure (id : string) (errs : gmap string string) : act :=
  Emit (mkEvent id "run.revoke" "failure" (RevokeData errs (failedSteps errs))).

Definition emitErrors (id : string) (errs : gmap string string) : list act :=
  if bool_decide (errs = ∅) then [] else [emitRevokeFailure id errs].

Definition stopMaxAge (w : W) (run : RunSummary) (now : Z) : W * list act * option string :=
  let '(w', ans) := StopRunMaxAge w (ID run) (now - maxAge) in
  let call := CallMaxAge (ID run) (now - maxAge) ans in
  match ans with
  | inl e => (w', [call], Some ("lifecycle: max-age stop " +:+ ID run +:+ ": " +:+ e))
  | inr out =>
      if negb (Applied out) then (w', [call], None)
      else (w', call :: emitMaxAgeStop (ID run) (timeSub now (aged run)) :: emitErrors (ID run) (Errors out), None)
  end.

(** The body of the loop over the listed runs. *)
Definition reapOne (w : W) (now : Z) (run : RunSummary) : W * list act * option string :=
  if (0 <? maxAge) && negb (HasLifetimeCap run) && (maxAge <=? timeSub now (aged run)) then stopMaxAge w run now
  else if Kept run then (w, [], None)
  else if PolicyAutoStopAfterSec run <=? 0 then (w, [], None)
  else
    let threshold := thresholdFor run in
    let idleFor := timeSub now (UpdatedAt run) in
    if idleFor <? threshold then (w, [], None)
    else
      let '(w', ans) := StopRun w (ID run) (UpdatedAt run) in
      let call := CallStop (ID run) (UpdatedAt run) ans in
      match ans with
      | inl e => (w', [call], Some ("lifecycle: stop run " +:+ ID run +:+ ": " +:+ e))
      | inr out =>
          if negb (Applied out) then (w', [call], None)
          else (w', call :: emitAutoStop (ID run) idleFor threshold :: emitErrors (ID run) (Errors out), None)
      end.

Fixpoint reapRuns (w : W) (now : Z) (runs : list RunSummary) : W * list act * list string :=
  match runs with
  | [] => (w, [], [])
  | run :: rest =>
      let '(w1, acts1, e) := reapOne w now run in
      let '(w2, acts2, es) := reapRuns w1 now rest in
      (w2, acts1 ++ acts2, match e with Some e => e :: es | None => es end)
  end.

(** [listed] is the scan's answer with the store's clock, [None] when it failed; the
    errors of the tick are joined. *)
Definition reap (w : W) (listed : option (list RunSummary * Z)) (ownNow : Z) : W * list act * list string :=
  match listed with
  | None => (w, [], ["lifecycle: list running runs"])
  | Some (runs, storeNow) => reapRuns w (if storeNow =? 0 then ownNow else storeNow) runs
  end.

(** [Tick]: with a lock, only its holder scans; the sweep record is written around the
    scan. [None] of the lock is no lock; a lock answers whether it was won. *)
Definition ReaperTick {S} `{TickStore S} (lock : option bool) (t : option Tracker) (s : S) (begin_ end_ : Z)
    (w : W) (listed : option (list RunSummary * Z)) (ownNow : Z) : W * S * list act * list string :=
  match lock with
  | Some false => (w, s, [], [])
  | _ =>
      let '(w', acts, errs) := reap w listed ownNow in
      (w', TrackTick t s IdleReaper begin_ end_ (bool_decide (errs = [])), acts, errs)
  end.
End Loop.

(** ** What the loop does *)

(** The stop a listed run is due, at the scan's clock. *)
Inductive due := DueAge | DueIdle.
Definition dueStop (maxAge now : Z) (run : RunSummary) : option due :=
  if (0 <? maxAge) && negb (HasLifetimeCap run) && (maxAge <=? timeSub now (aged run)) then Some DueAge
  else if negb (Kept run) && (0 <? PolicyAutoStopAfterSec run) && (thresholdFor run <=? timeSub now (UpdatedAt run)) then Some DueIdle
  else None.

Definition stopErrText (k : due) (id e : string) : string :=
  match k with DueAge => "lifecycle: max-age stop " +:+ id +:+ ": " +:+ e | DueIdle => "lifecycle: stop run " +:+ id +:+ ": " +:+ e end.

Section Exact.
Context (wholeSeconds : Z -> Z) (maxAge now : Z).

(** The whole trace of one due run, as its answer determines it. *)
Definition traceOf (run : RunSummary) (k : due) (ans : string + StopOutcome) : list act :=
  let call := match k with DueAge => CallMaxAge (ID run) (now - maxAge) ans | DueIdle => CallStop (ID run) (UpdatedAt run) ans end in
  match ans with
  | inr out =>
      if Applied out then
        call :: (match k with
                 | DueAge => emitMaxAgeStop wholeSeconds maxAge (ID run) (timeSub now (aged run))
                 | DueIdle => emitAutoStop wholeSeconds (ID run) (timeSub now (UpdatedAt run)) (thresholdFor run)
                 end) :: emitErrors (ID run) (Errors out)
      else [call]
  | inl _ => [call]
  end.

Definition errOf (run : RunSummary) (k : due) (ans : string + StopOutcome) : list string :=
  match ans with inl e => [stopErrText k (ID run) e] | inr _ => [] end.

(** The due runs of a scan, in its order. *)
Definition dueRuns (runs : list RunSummary) : list (RunSummary * due) :=
  omap (fun run => match dueStop maxAge now run with Some k => Some (run, k) | None => None end) runs.

Context {W : Type} `{Stopper W}.

Lemma reapOne_spec (w : W) run : exists w' ,
  match dueStop maxAge now run with
  | None => reapOne wholeSeconds maxAge w now run = (w, [], None) /\ w' = w
  | Some k => exists ans, reapOne wholeSeconds maxAge w now run = (w', traceOf run k ans, head (errOf run k ans)) /\
      (w', ans) = match k with DueAge => StopRunMaxAge w (ID run) (now - maxAge) | DueIdle => StopRun w (ID run) (UpdatedAt run) end
  end.
Proof.
  unfold dueStop, reapOne. destruct ((0 <? maxAge) && negb (HasLifetimeCap run) && (maxAge <=? timeSub now (aged run))).
  - unfold stopMaxAge. destruct (StopRunMaxAge w (ID run) (now - maxAge)) as [w' ans]. exists w', ans. split; [|done].
    destruct ans as [e|out]; [done|]. unfold traceOf. by destruct (Applied out).
  - destruct (Kept run); [by exists w|]. cbn [negb andb]. rewrite (Z.ltb_antisym _ 0). destruct (PolicyAutoStopAfterSec run <=? 0); [by exists w|]. cbn [negb andb].
    rewrite (Z.leb_antisym (timeSub now (UpdatedAt run))). destruct (timeSub now (UpdatedAt run) <? thresholdFor run); [by exists w|]. cbn [negb].
    destruct (StopRun w (ID run) (UpdatedAt run)) as [w' ans]. exists w', ans. split; [|done].
    destruct ans as [e|out]; [done|]. unfold traceOf. by destruct (Applied out).
Qed.

Lemma reapRuns_spec (w : W) runs : exists w' answers,
  length answers = length (dueRuns runs) /\
  reapRuns wholeSeconds maxAge w now runs =
    (w', concat (zip_with (fun rk ans => traceOf rk.1 rk.2 ans) (dueRuns runs) answers),
         concat (zip_with (fun rk ans => errOf rk.1 rk.2 ans) (dueRuns runs) answers)).
Proof.
  revert w. induction runs as [|run runs IH]; intros w; [by exists w, []|]. cbn [reapRuns]. unfold dueRuns. cbn [omap list_omap].
  destruct (reapOne_spec w run) as [w1 H1]. destruct (dueStop maxAge now run) as [k|].
  - destruct H1 as (ans & -> & _). destruct (IH w1) as (w' & answers & Hl & ->). exists w', (ans :: answers).
    split; [cbn; by f_equal|]. cbn. by destruct ans.
  - destruct H1 as [-> ->]. destruct (IH w) as (w' & answers & Hl & ->). by exists w', answers.
Qed.

(** The reaper acts exactly on the runs that are due, whatever its calls answer: the
    calls of a tick are one per due run of the scan, in its order, a failed or refused
    stop never keeping a later run from its own; a run is due when it has outlived the
    maximum age and carries no lifetime cap, or is not kept, has a positive idle limit
    and has been idle for it plus the slack; the stop is guarded by the scan's own
    reading; an event says a run was stopped exactly when its stop was applied, with a
    second event when the teardown left errors; and the tick fails exactly with the
    stops that failed. *)
Theorem reaper_acts_on_the_due (w : W) (runs : list RunSummary) (storeNow ownNow : Z)
  (Hnow : now = if storeNow =? 0 then ownNow else storeNow) :
  exists w' answers, length answers = length (dueRuns runs) /\
  reap wholeSeconds maxAge w (Some (runs, storeNow)) ownNow =
    (w', concat (zip_with (fun rk ans => traceOf rk.1 rk.2 ans) (dueRuns runs) answers),
         concat (zip_with (fun rk ans => errOf rk.1 rk.2 ans) (dueRuns runs) answers)) /\
  (forall run k, (run, k) ∈ dueRuns runs <-> run ∈ runs /\ dueStop maxAge now run = Some k).
Proof.
  destruct (reapRuns_spec w runs) as (w' & answers & Hl & Hr). exists w', answers. split; [done|]. split; [unfold reap; by rewrite <- Hnow|].
  intros run k. unfold dueRuns. rewrite list_elem_of_omap. split.
  - intros (run' & Hin & He). destruct (dueStop maxAge now run') eqn:Ed; [|done]. injection He as <- <-. done.
  - intros [Hin Hd]. exists run. by rewrite Hd.
Qed.
End Exact.

(** With a limit that fits the 32-bit column of the run row, the threshold is the limit
    plus the slack. *)
Theorem threshold_is_exact (run : RunSummary) (H : - 2 ^ 31 <= PolicyAutoStopAfterSec run < 2 ^ 31) :
  thresholdFor run = PolicyAutoStopAfterSec run * second + TouchDebounce.
Proof. unfold thresholdFor, TouchDebounce, second in *. rewrite (wrap64_small (_ * _)) by lia. apply wrap64_small. lia. Qed.

(** ** Example: a stopper that answers nothing but errors *)

#[local] Instance brokenStopper : Stopper unit := {
  StopRun w _ _ := (w, inl "down"); StopRunMaxAge w _ _ := (w, inl "down") }.

Definition twoRuns : list RunSummary :=
  [mkRunSummary "a" 1 0 1 60 false false; mkRunSummary "b" 1 0 (200 * second) 60 false false; mkRunSummary "c" 1 0 1 60 false false].

Lemma reaper_acts_on_the_due_witness : exists answers, length answers = 2%nat /\
  snd (reap (fun z => z) 0 tt (Some (twoRuns, 201 * second)) 0) =
    concat (zip_with (fun rk ans => errOf rk.1 rk.2 ans) (dueRuns 0 (201 * second) twoRuns) answers).
Proof.
  destruct (reaper_acts_on_the_due (fun z => z) 0 (201 * second) tt twoRuns (201 * second) 0 eq_refl) as (w' & answers & Hl & Hr & _).
  exists answers. split; [rewrite Hl; reflexivity|]. rewrite Hr. reflexivity.
Defined.
