(* ===== verification/ReaperStore.v ===== *)
(** * Stopping a run for real

    The adapters the reaper runs on ([lifecycleStore] and [lifecycleStopper] of
    [src/cmd/wardynd/adapters.go]) over the guarded updates of
    [src/internal/store/store_run_state_cas.go], as an instance of the reaper's [Stopper]
    interface: the rows, the database's clock, and the log of what a stop did to the
    sandbox, the credentials and the approvals. The clock stands still for one tick. *)
From stdpp Require Import gmap.
From S2P Require Import Prelude GoStrings GoSlices PushRules SweepHealth Reaper.
Local Open Scope string_scope.
Local Open Scope Z_scope.
Local Open Scope list_scope.

(** ** Rows *)

Inductive RunState := RunQueued | RunPending | RunStarting | RunRunning | RunWaiting | RunStopped | RunArchived
  | RunFailed | RunKilled | RunCompleted.
#[global] Instance RunState_eq : EqDecision RunState.
Proof. solve_decision. Defined.

Definition IsTerminal (s : RunState) : bool :=
  match s with RunCompleted | RunFailed | RunKilled | RunStopped | RunArchived => true | _ => false end.

(** The columns the reaper's statements read; [holds] are the times at which the run's
    PENDING approvals were requested. A NULL time is [None]. *)
Record runRow := mkRunRow {
  state : RunState; updated_at : Z; created_at : Z; admitted_at : option Z; ended_at : option Z; lost_at : option Z;
  lost_reason : string; agent_stopped_at : option Z; lifetime_cap_at : option Z; wait_budget_sec : Z; ends_at : option Z;
  experience : string; auto_stop_after_sec : Z; sandbox_ref : string; holds : list Z }.

Definition moveTo (row : runRow) (to : RunState) (now : Z) : runRow :=
  mkRunRow to now (created_at row) (admitted_at row) (if IsTerminal to then Some now else ended_at row) (lost_at row)
    (lost_reason row) (agent_stopped_at row) (lifetime_cap_at row) (wait_budget_sec row) (ends_at row) (experience row)
    (auto_stop_after_sec row) (sandbox_ref row) (holds row).

(** [LEAST] ignores NULL. *)
Definition least (a b : option Z) : option Z :=
  match a, b with Some x, Some y => Some (Z.min x y) | Some x, None => Some x | None, y => y end.

(** [openHoldCond] for a request made at [requested]: no bound, or one still ahead. *)
Definition openHold (row : runRow) (now requested : Z) : bool :=
  match least (if wait_budget_sec row =? 0 then None else Some (requested + wait_budget_sec row * second)) (ends_at row) with
  | None => true
  | Some bound => now <? bound
  end.

Definition openHoldSQL (row : runRow) (now : Z) : bool := existsb (openHold row now) (holds row).

Definition HoldsSandboxSQL (row : runRow) : bool :=
  bool_decide (lost_at row = None) || (String.eqb (lost_reason row) "outage" && bool_decide (agent_stopped_at row = None)).

Definition anchor (row : runRow) : Z := default (created_at row) (admitted_at row).

(** ** The guarded updates *)

(** What a stop does besides the row. *)
Inductive effect := ECancel (id : string) (forAge : bool) | ERevoke (id : string) | ESnapshot (id : string)
  | EStopSandbox (ref : string) | EFinish (id : string).

Record lworld := mkLWorld { rows : gmap string runRow; dbNow : Z; elog : list effect }.

Definition errQueuedLeave := "store: a QUEUED run leaves its state through LeaveRunQueue".

Definition updateWhere (guard : runRow -> bool) (from to : RunState) (w : lworld) (id : string) : lworld * (string + bool) :=
  if bool_decide (from = RunQueued) then (w, inl errQueuedLeave)
  else match rows w !! id with
       | Some row =>
           if bool_decide (state row = from) && guard row
           then (mkLWorld (<[id := moveTo row to (dbNow w)]> (rows w)) (dbNow w) (elog w), inr true)
           else (w, inr false)
       | None => (w, inr false)
       end.

Definition idleGuard (now notAfter : Z) (row : runRow) : bool :=
  (updated_at row <=? notAfter) && bool_decide (lost_at row = None) && negb (openHoldSQL row now).
Definition ageGuard (createdNotAfter : Z) (row : runRow) : bool := (anchor row <=? createdNotAfter) && HoldsSandboxSQL row.

Definition UpdateRunStateIfIdle (w : lworld) (id : string) (from to : RunState) (notAfter : Z) : lworld * (string + bool) :=
  updateWhere (idleGuard (dbNow w) notAfter) from to w id.
Definition UpdateRunStateIfCreatedBefore (w : lworld) (id : string) (from to : RunState) (createdNotAfter : Z) : lworld * (string + bool) :=
  updateWhere (ageGuard createdNotAfter) from to w id.

(** ** The stopper *)

(** The parts wired into it, nil-safe: what the revocation and the runner answer, which
    of the server's hooks are set, and whether a store call fails at this moment. *)
Record wiring := mkWiring {
  revoke : option (string -> gmap string string); runner : option (string -> option string);
  cancelApprovals : bool; cancelMaxAgeApprovals : bool; finishOutput : bool; snapshotPane : bool;
  getFails : lworld -> string -> option string; updateFails : lworld -> string -> option string }.

Section Stop.
Context (l : wiring).

Definition logEffect (w : lworld) (b : bool) (e : effect) : lworld := mkLWorld (rows w) (dbNow w) (elog w ++ (if b then [e] else [])).

(** The cascade of a stop that won its transition. *)
Definition cascade (w : lworld) (id ref : string) (cancel forAge : bool) : lworld * gmap string string :=
  let w := logEffect w cancel (ECancel id forAge) in
  let errs := match revoke l with Some f => f id | None => ∅ end in
  let w := logEffect w (bool_decide (is_Some (revoke l))) (ERevoke id) in
  let w := logEffect w (snapshotPane l) (ESnapshot id) in
  let '(w, errs) := match runner l with
                    | Some f =>
                        if negb (String.eqb ref "") then
                          (logEffect w true (EStopSandbox ref), match f ref with Some e => <["teardown_error" := e]> errs | None => errs end)
                        else (w, errs)
                    | None => (w, errs)
                    end in
  (logEffect w (finishOutput l) (EFinish id), errs).

Definition stop (w : lworld) (id : string) (cancel forAge : bool) (transition : lworld * (string + bool)) : lworld * (string + StopOutcome) :=
  match getFails l w id, rows w !! id with
  | Some e, _ => (w, inl ("wardynd: lifecycle get run: " +:+ e))
  | None, None => (w, inl "wardynd: lifecycle get run: not found")
  | None, Some row =>
      match updateFails l w id with
      | Some e => (w, inl ("wardynd: lifecycle update state: " +:+ e))
      | None =>
          match transition with
          | (_, inl e) => (w, inl ("wardynd: lifecycle update state: " +:+ e))
          | (_, inr false) => (w, inr (mkOutcome false ∅))
          | (w', inr true) => let '(w'', errs) := cascade w' id (sandbox_ref row) cancel forAge in (w'', inr (mkOutcome true errs))
          end
      end
  end.

Definition lifecycleStopRun (w : lworld) (id : string) (notAfter : Z) : lworld * (string + StopOutcome) :=
  stop w id (cancelApprovals l) false (UpdateRunStateIfIdle w id RunRunning RunStopped notAfter).
Definition lifecycleStopRunMaxAge (w : lworld) (id : string) (createdNotAfter : Z) : lworld * (string + StopOutcome) :=
  stop w id (cancelMaxAgeApprovals l) true (UpdateRunStateIfCreatedBefore w id RunRunning RunStopped createdNotAfter).

#[local] Instance lifecycleStopper : Stopper lworld := { StopRun := lifecycleStopRun; StopRunMaxAge := lifecycleStopRunMaxAge }.

(** ** The scan *)

Definition summaryOf (id : string) (row : runRow) : RunSummary :=
  mkRunSummary id (created_at row) (default 0 (admitted_at row)) (updated_at row)
    (if String.eqb (experience row) "background" then 0 else auto_stop_after_sec row)
    (bool_decide (lost_at row <> None)) (bool_decide (lifetime_cap_at row <> None)).

(** An empty scan has no clock. *)
Definition ListRunningWithPolicy (w : lworld) : list RunSummary * Z :=
  let out := omap (fun kv => if bool_decide (state kv.2 = RunRunning) && HoldsSandboxSQL kv.2 then Some (summaryOf kv.1 kv.2) else None)
               (map_to_list (rows w)) in
  (out, match out with [] => 0 | _ => dbNow w end).

(** ** One stop *)

Lemma updateWhere_cases guard w id w' x : updateWhere guard RunRunning RunStopped w id = (w', x) ->
  (x = inr false /\ w' = w /\ forall row, rows w !! id = Some row -> bool_decide (state row = RunRunning) && guard row = false) \/
  (x = inr true /\ exists row, rows w !! id = Some row /\ state row = RunRunning /\ guard row = true /\
    w' = mkLWorld (<[id := moveTo row RunStopped (dbNow w)]> (rows w)) (dbNow w) (elog w)).
Proof.
  unfold updateWhere. rewrite bool_decide_eq_false_2 by done. destruct (rows w !! id) as [row|] eqn:E; [|intros [= <- <-]; left; by split_and!].
  destruct (bool_decide (state row = RunRunning) && guard row) eqn:G; intros [= <- <-]; [right|left].
  - split; [done|]. exists row. by bool_prop.
  - split_and!; [done|done|]. by intros ? [= <-].
Qed.

(** The steps the cascade takes, in their order, where they are wired. *)
Definition cascadeLog (id ref : string) (cancel forAge : bool) : list effect :=
  (if cancel then [ECancel id forAge] else []) ++ (if bool_decide (is_Some (revoke l)) then [ERevoke id] else []) ++
  (if snapshotPane l then [ESnapshot id] else []) ++
  (if bool_decide (is_Some (runner l)) && negb (String.eqb ref "") then [EStopSandbox ref] else []) ++
  (if finishOutput l then [EFinish id] else []).

Definition cascadeErrs (id ref : string) : gmap string string :=
  let errs := match revoke l with Some f => f id | None => ∅ end in
  match runner l with
  | Some f => if negb (String.eqb ref "") then match f ref with Some e => <["teardown_error" := e]> errs | None => errs end else errs
  | None => errs
  end.

Lemma cascade_spec w id ref cancel forAge :
  cascade w id ref cancel forAge = (mkLWorld (rows w) (dbNow w) (elog w ++ cascadeLog id ref cancel forAge), cascadeErrs id ref).
Proof.
  unfold cascade, cascadeLog, cascadeErrs, logEffect. destruct (runner l) as [f|]; [destruct (negb _)|]; cbn [rows dbNow elog];
    rewrite ?bool_decide_eq_true_2 by done; rewrite ?(bool_decide_eq_false_2 (is_Some None)) by (by intros []); cbn [andb];
    rewrite <- ?app_assoc, ?app_nil_l; done.
Qed.

(** A run is stopped only while it still is what the scan saw: whatever happened
    since, the idle stop is applied only to a row that is RUNNING, not touched after the
    scan's reading, not kept, with no request open inside its wait; then the row becomes
    STOPPED with its end time and nothing else of it changes, and the approvals are
    cancelled, the credentials revoked, the pane kept and the sandbox stopped, in that
    order, each failure reported. A stop that is not applied changes no row and does
    nothing. *)
Theorem stop_spares_the_touched (w w' : lworld) (id : string) (notAfter : Z) (out : StopOutcome)
  (H : lifecycleStopRun w id notAfter = (w', inr out)) :
  (Applied out = false /\ w' = w /\ Errors out = ∅) \/
  (Applied out = true /\ exists row, rows w !! id = Some row /\ state row = RunRunning /\ updated_at row <= notAfter /\
     lost_at row = None /\ openHoldSQL row (dbNow w) = false /\
     rows w' = <[id := moveTo row RunStopped (dbNow w)]> (rows w) /\
     elog w' = elog w ++ cascadeLog id (sandbox_ref row) (cancelApprovals l) false /\
     Errors out = cascadeErrs id (sandbox_ref row)).
Proof.
  unfold lifecycleStopRun, stop in H. destruct (getFails l w id); [done|]. destruct (rows w !! id) as [row|] eqn:Er; [|done].
  destruct (updateFails l w id); [done|]. destruct (UpdateRunStateIfIdle w id RunRunning RunStopped notAfter) as [w1 x] eqn:Eu.
  apply updateWhere_cases in Eu as [(-> & -> & _)|(-> & row' & Er' & Hs & Hg & ->)]; [injection H as <- <-; by left|].
  rewrite Er' in Er. injection Er as ->. rewrite cascade_spec in H. injection H as <- <-. right. split; [done|]. exists row.
  unfold idleGuard in Hg. bool_prop. split_and!; done.
Qed.

(** ** One tick *)

Definition pastAge (maxAge now : Z) (row : runRow) : bool :=
  (0 <? maxAge) && bool_decide (lifetime_cap_at row = None) && (maxAge <=? now - anchor row).
Definition idleTooLong (now : Z) (row : runRow) : bool :=
  bool_decide (lost_at row = None) && negb (String.eqb (experience row) "background") && (0 <? auto_stop_after_sec row) &&
  (auto_stop_after_sec row * second + TouchDebounce <=? now - updated_at row) && negb (openHoldSQL row now).
Definition reaped (maxAge now : Z) (row : runRow) : bool :=
  bool_decide (state row = RunRunning) && HoldsSandboxSQL row && (pastAge maxAge now row || idleTooLong now row).

(** Times of a row inside the range of a duration of the clock; a limit of 32 bits. *)
Definition saneRow (now : Z) (row : runRow) : Prop :=
  0 < anchor row <= now /\ 0 < updated_at row <= now /\ now < 2 ^ 63 /\ - 2 ^ 31 <= auto_stop_after_sec row < 2 ^ 31 /\
  admitted_at row <> Some 0.

Context (healthyGet : forall w id, getFails l w id = None) (healthyUpdate : forall w id, updateFails l w id = None).
Context (wholeSeconds : Z -> Z) (maxAge : Z).

Lemma aged_anchor id row : admitted_at row <> Some 0 -> aged (summaryOf id row) = anchor row.
Proof.
  unfold aged, anchor, summaryOf. cbn. destruct (admitted_at row) as [a|]; cbn; [|done]. intros Ha.
  destruct (Z.eqb_spec a 0); [congruence|done].
Qed.

Lemma due_summary id row now : saneRow now row ->
  dueStop maxAge now (summaryOf id row) =
    (if pastAge maxAge now row then Some DueAge
     else if bool_decide (lost_at row = None) && negb (String.eqb (experience row) "background") && (0 <? auto_stop_after_sec row) &&
       (auto_stop_after_sec row * second + TouchDebounce <=? now - updated_at row) then Some DueIdle else None).
Proof.
  intros (Ha & Hu & Hn & Hs & Hz). unfold dueStop, pastAge. rewrite aged_anchor by done. cbn [HasLifetimeCap Kept PolicyAutoStopAfterSec UpdatedAt summaryOf].
  rewrite (timeSub_exact now (anchor row)), (timeSub_exact now (updated_at row)) by lia.
  assert (negb (bool_decide (lifetime_cap_at row <> None)) = bool_decide (lifetime_cap_at row = None)) as -> by (by destruct (lifetime_cap_at row)).
  assert (negb (bool_decide (lost_at row <> None)) = bool_decide (lost_at row = None)) as -> by (by destruct (lost_at row)).
  destruct (_ && _ && _); [done|]. destruct (String.eqb (experience row) "background") eqn:Eb.
  - cbn. by rewrite !andb_false_r.
  - rewrite threshold_is_exact by (cbn; rewrite Eb; lia). cbn [negb PolicyAutoStopAfterSec summaryOf]. by rewrite Eb, andb_true_r.
Qed.

Lemma stop_rows w id row cancel forAge guard : rows w !! id = Some row -> state row = RunRunning ->
  exists ans, stop w id cancel forAge (updateWhere guard RunRunning RunStopped w id) =
    (mkLWorld (if guard row then <[id := moveTo row RunStopped (dbNow w)]> (rows w) else rows w) (dbNow w)
       (elog w ++ if guard row then cascadeLog id (sandbox_ref row) cancel forAge else []), inr ans).
Proof.
  intros Hr Hs. unfold stop. rewrite healthyGet, Hr, healthyUpdate. unfold updateWhere. rewrite bool_decide_eq_false_2 by done.
  rewrite Hr, (bool_decide_eq_true_2 _ Hs). cbn [andb]. destruct (guard row); [rewrite cascade_spec; cbn [rows dbNow elog]; eauto|].
  rewrite app_nil_r. destruct w. eauto.
Qed.

(** One listed run: its row is moved exactly when it is due. *)
Lemma reapOne_row w id row : rows w !! id = Some row -> state row = RunRunning -> HoldsSandboxSQL row = true -> saneRow (dbNow w) row ->
  exists acts w', reapOne wholeSeconds maxAge w (dbNow w) (summaryOf id row) = (w', acts, None) /\ dbNow w' = dbNow w /\
    rows w' = if reaped maxAge (dbNow w) row then <[id := moveTo row RunStopped (dbNow w)]> (rows w) else rows w.
Proof.
  intros Hr Hs Hh Hsane. pose proof (due_summary id row _ Hsane) as Hd. destruct (reapOne_spec wholeSeconds maxAge (dbNow w) w (summaryOf id row)) as [w' H].
  unfold reaped, idleTooLong. rewrite (bool_decide_eq_true_2 _ Hs), Hh. cbn [andb]. rewrite Hd in H. unfold pastAge in *.
  destruct ((0 <? maxAge) && bool_decide (lifetime_cap_at row = None) && (maxAge <=? dbNow w - anchor row)) eqn:Ea; cbn [orb].
  - destruct H as (ans & -> & Hw). cbn [StopRunMaxAge lifecycleStopper ID summaryOf] in Hw. unfold lifecycleStopRunMaxAge, UpdateRunStateIfCreatedBefore in Hw.
    destruct (stop_rows w id row (cancelMaxAgeApprovals l) true (ageGuard (dbNow w - maxAge)) Hr Hs) as [a Ha]. rewrite Ha in Hw. injection Hw as -> ->.
    eexists _, _. split; [reflexivity|]. split; [done|]. cbn [rows]. unfold ageGuard. rewrite Hh. bool_prop. by rewrite (proj2 (Z.leb_le _ _)) by lia.
  - destruct (bool_decide (lost_at row = None) && negb (String.eqb (experience row) "background") && (0 <? auto_stop_after_sec row) &&
      (auto_stop_after_sec row * second + TouchDebounce <=? dbNow w - updated_at row)) eqn:Ei; cbn [andb].
    + destruct H as (ans & -> & Hw). cbn [StopRun lifecycleStopper ID UpdatedAt summaryOf] in Hw. unfold lifecycleStopRun, UpdateRunStateIfIdle in Hw.
      destruct (stop_rows w id row (cancelApprovals l) false (idleGuard (dbNow w) (updated_at row)) Hr Hs) as [a Ha]. rewrite Ha in Hw. injection Hw as -> ->.
      eexists _, _. split; [reflexivity|]. split; [done|]. cbn [rows]. unfold idleGuard. bool_prop.
      by rewrite Z.leb_refl, bool_decide_eq_true_2 by done.
    + destruct H as [-> ->]. by eexists _, w.
Qed.

Definition after (now : Z) (row : runRow) : runRow := if reaped maxAge now row then moveTo row RunStopped now else row.

Definition summaries (kvs : list (string * runRow)) : list RunSummary :=
  omap (fun kv => if bool_decide (state kv.2 = RunRunning) && HoldsSandboxSQL kv.2 then Some (summaryOf kv.1 kv.2) else None) kvs.

Lemma not_listed now row : bool_decide (state row = RunRunning) && HoldsSandboxSQL row = false -> after now row = row.
Proof. unfold after, reaped. by intros ->. Qed.

(** The loop over the rows of a scan. *)
Lemma reapRuns_rows (kvs : list (string * runRow)) now : forall w, dbNow w = now -> NoDup (map fst kvs) ->
  (forall id row, (id, row) ∈ kvs -> rows w !! id = Some row) -> Forall (fun kv => saneRow now kv.2) kvs ->
  exists acts w', reapRuns wholeSeconds maxAge w now (summaries kvs) = (w', acts, []) /\
    forall id, rows w' !! id = if decide (id ∈ map fst kvs) then after now <$> rows w !! id else rows w !! id.
Proof.
  induction kvs as [|[id row] kvs IH]; intros w Hn Hnd Hin Hsane; [exists [], w; split; [done|]; intros id; by rewrite decide_False by apply not_elem_of_nil|].
  cbn [map fst] in Hnd. apply NoDup_cons in Hnd as [Hid Hnd]. inversion Hsane as [|? ? Hs1 Hs2]; subst. cbn [snd] in Hs1.
  pose proof (Hin id row (list_elem_of_here _ _)) as Hr.
  assert (Hrest : forall w1, dbNow w1 = dbNow w -> rows w1 = <[id := after (dbNow w) row]> (rows w) ->
    exists acts w', reapRuns wholeSeconds maxAge w1 (dbNow w) (summaries kvs) = (w', acts, []) /\
      forall j, rows w' !! j = if decide (j ∈ id :: map fst kvs) then after (dbNow w) <$> rows w !! j else rows w !! j).
  { intros w1 Hn1 Hr1. destruct (IH w1) as (acts & w' & Hred & Hrows); [done|done| |done|].
    - intros j rj Hj. rewrite Hr1, lookup_insert_ne; [apply Hin; by right|]. intros <-. apply Hid. apply list_elem_of_In, in_map_iff. exists (id, rj). split; [done|by apply list_elem_of_In].
    - exists acts, w'. split; [done|]. intros j. rewrite Hrows, Hr1. destruct (decide (j = id)) as [->|Hne].
      + rewrite decide_False by done. rewrite decide_True by left. by rewrite lookup_insert_eq, Hr.
      + rewrite lookup_insert_ne by done. destruct (decide (j ∈ map fst kvs)) as [Hj|Hj]; [by rewrite decide_True by (by right)|].
        rewrite decide_False; [done|]. by intros [?|?]%elem_of_cons. }
  change (map fst ((id, row) :: kvs)) with (id :: map fst kvs). unfold summaries. cbn [omap list_omap fst snd]. fold (summaries kvs).
  destruct (bool_decide (state row = RunRunning) && HoldsSandboxSQL row) eqn:El.
  - apply andb_prop in El as [Hst Hh]. apply bool_decide_eq_true in Hst.
    destruct (reapOne_row w id row Hr Hst Hh Hs1) as (acts1 & w1 & Hone & Hn1 & Hr1). destruct (Hrest w1 Hn1) as (acts & w' & Hred & Hrows).
    + rewrite Hr1. unfold after. destruct (reaped _ _ _); [done|]. by rewrite insert_id.
    + exists (acts1 ++ acts), w'. cbn [reapRuns]. rewrite Hone, Hred. done.
  - destruct (Hrest w) as (acts & w' & Hred & Hrows); [done|rewrite not_listed by done; by rewrite insert_id|]. by exists acts, w'.
Qed.

(** C20: One tick stops exactly the runs that should stop: with the store answering, after
    a scan and its stops every row is as it was, except that a RUNNING run whose agent
    still runs and that has outlived the maximum age (and carries no lifetime cap), or
    has been idle past its policy's limit and the slack with no request open inside its
    wait, is STOPPED; the tick reports no error. A background run, a run with no idle
    limit and a kept run are never stopped for idleness. *)
Theorem tick_stops_exactly_the_due (w : lworld) (ownNow : Z) (Hclock : dbNow w <> 0)
  (Hsane : forall id row, rows w !! id = Some row -> saneRow (dbNow w) row) :
  exists acts w', reap wholeSeconds maxAge w (Some (ListRunningWithPolicy w)) ownNow = (w', acts, []) /\
    forall id, rows w' !! id = (fun row => if reaped maxAge (dbNow w) row then moveTo row RunStopped (dbNow w) else row) <$> rows w !! id.
Proof.
  destruct (reapRuns_rows (map_to_list (rows w)) (dbNow w) w eq_refl) as (acts & w' & Hred & Hrows).
  - apply NoDup_fst_map_to_list.
  - intros id row. apply elem_of_map_to_list.
  - apply Forall_forall. intros [id row] Hin%elem_of_map_to_list. by eapply Hsane.
  - unfold reap, ListRunningWithPolicy. fold (summaries (map_to_list (rows w))). exists acts, w'. split.
    + destruct (summaries (map_to_list (rows w))) as [|x xs] eqn:Es; [|by rewrite (proj2 (Z.eqb_neq _ _) Hclock)].
      cbn. by cbn in Hred.
    + intros id. rewrite Hrows. destruct (decide _) as [|Hn]; [done|]. destruct (rows w !! id) as [row|] eqn:E; [|done]. destruct Hn.
      apply list_elem_of_In, in_map_iff. exists (id, row). split; [done|]. by apply list_elem_of_In, elem_of_map_to_list.
Qed.
End Stop.

(** ** The teardown's failed step *)

(** A stop whose sandbox teardown failed reports the failure, and the event of it names
    no failed step for it: the key the stopper writes is not one the table of steps
    knows. *)
Theorem failed_teardown_names_no_step (l : wiring) (id ref e : string) (f : string -> option string)
  (Hr : runner l = Some f) (Hf : f ref = Some e) (Hn : revoke l = None) (Hne : ref <> "") :
  cascadeErrs l id ref !! "teardown_error" = Some e /\ failedSteps (cascadeErrs l id ref) = [].
Proof.
  unfold cascadeErrs. rewrite Hr, Hn, (proj2 (String.eqb_neq _ _) Hne), Hf. cbn [negb]. split; [apply lookup_insert_eq|].
  unfold failedSteps. rewrite insert_empty, map_to_list_singleton. reflexivity.
Qed.

(** ** Examples *)

Definition demoRow (upd : Z) : runRow :=
  mkRunRow RunRunning upd 1 None None None "" None None 0 None "" 60 "box" [].
Definition demoWiring : wiring := mkWiring None (Some (fun _ => Some "timeout")) true true true true (fun _ _ => None) (fun _ _ => None).
Definition demoWorld : lworld := mkLWorld (<["busy" := demoRow (100 * second)]> (<["idle" := demoRow (5 * second)]> ∅)) (110 * second) [].

Lemma stop_spares_the_touched_witness : exists w', lifecycleStopRun demoWiring demoWorld "busy" (50 * second) = (w', inr (mkOutcome false ∅)) /\ w' = demoWorld.
Proof.
  eexists. split; [vm_compute; reflexivity|].
  destruct (stop_spares_the_touched demoWiring demoWorld _ "busy" (50 * second) (mkOutcome false ∅) ltac:(vm_compute; reflexivity)) as [(_ & H & _)|(H & _)];
    [exact H|discriminate H].
Defined.

Lemma tick_stops_exactly_the_due_witness : exists acts w',
  @reap lworld (lifecycleStopper demoWiring) (fun z => z) 0 demoWorld (Some (ListRunningWithPolicy demoWorld)) 0 = (w', acts, []) /\
  state <$> rows w' !! "idle" = Some RunStopped /\ state <$> rows w' !! "busy" = Some RunRunning.
Proof.
  destruct (tick_stops_exactly_the_due demoWiring ltac:(done) ltac:(done) (fun z => z) 0 demoWorld 0 ltac:(done)) as (acts & w' & H & Hr).
  - intros id row Hrow. cbn [rows demoWorld] in Hrow.
    apply lookup_insert_Some in Hrow as [[_ <-]|[_ Hrow]]; [|apply lookup_insert_Some in Hrow as [[_ <-]|[_ Hrow]]; [|by rewrite lookup_empty in Hrow]];
      unfold saneRow, anchor, second; cbn; split_and!; first [lia|done].
  - exists acts, w'. split; [exact H|]. rewrite !Hr. split; vm_compute; reflexivity.
Defined.
