(* ===== verification/AdoNames.v ===== *)
(** * Azure DevOps names in addresses

    [names.go] of [src/internal/adoscope]: a path segment decoded into the name the
    service routes it as, the one spelling of a name, and the canonical form of a
    path and of a repository's address. *)
From S2P Require Import Prelude GoStrings GoPath Grants PolicyTypes CanonNumber GoJSON GoJSONSound GHPath PolicyRef.
Local Open Scope string_scope.
Local Open Scope Z_scope.
Local Open Scope list_scope.

(** ** Text *)

Definition isPathSeparator (c : ascii) : bool := Ascii.eqb c "/" || Ascii.eqb c "\".

(** [strings.ContainsAny] for a set of ASCII bytes. *)
Definition containsAny (chars s : string) : bool := negb (str_forall (fun c => negb (str_has c chars)) s).

(** [strings.Cut] for a text, and [s] before and from its first byte in [chars]. *)
Fixpoint cutStr (sep s : string) : option (string * string) :=
  if HasPrefix s sep then Some ("", strDrop (String.length sep) s)
  else match s with
       | "" => None
       | String c s' => match cutStr sep s' with Some (a, b) => Some (String c a, b) | None => None end
       end.

Fixpoint spanAny (chars s : string) : string * string :=
  match s with
  | "" => ("", "")
  | String c s' => if str_has c chars then ("", s) else let '(a, b) := spanAny chars s' in (String c a, b)
  end.

(** [unicode.IsSpace] and [unicode.IsControl]. *)
Definition isSpaceRune (r : Z) : bool :=
  existsb (Z.eqb r) [9; 10; 11; 12; 13; 32; 133; 160; 5760; 8232; 8233; 8239; 8287; 12288] || ((8192 <=? r) && (r <=? 8202)).
Definition isControlRune (r : Z) : bool := (r <? 32) || ((127 <=? r) && (r <? 160)).

(** ** Hazards of a decoded segment *)

Definition paramHeadTrims (seg : string) : bool :=
  match cutByte ";" seg with Some (head, _) => spaceTrims head || HasSuffix head "." | None => false end.

(** [segmentHazard]. *)
Definition adoHazard (seg : string) : string :=
  if String.eqb seg "." || String.eqb seg ".." then "is a dot segment"
  else if isDotWithParam seg then "is a dot segment carrying a path parameter"
  else if paramHeadTrims seg then "carries a path parameter after text the service trims"
  else if spaceTrims seg then "has leading or trailing whitespace"
  else if HasSuffix seg "." then "ends in a dot"
  else if hasControl seg then "holds a control character"
  else if negb (str_forall (fun c => negb (isPathSeparator c)) seg) then "still holds a separator"
  else "".

(** [hidesStructure], with the catalogue's own bound. *)
Definition adoDecodeDepth : nat := 4.
Definition adoHidesStructure (seg : string) : bool := hidesLoop adoHazard adoDecodeDepth seg.

(** ** A segment and its name *)

Fixpoint decodeName (raw : string) : errOr string :=
  match raw with
  | "" => inr ""
  | String c r =>
      if Ascii.eqb c "%" then
        match r with
        | String h (String l r2) =>
            match unescape h l with
            | None => inl "is not decodable"
            | Some b =>
                if isPathSeparator b then inl "decodes to a second segment"
                else match decodeName r2 with inl e => inl e | inr t => inr (String b t) end
            end
        | _ => inl "is not decodable"
        end
      else match decodeName r with inl e => inl e | inr t => inr (String c t) end
  end.

Definition UnescapeName (raw : string) : errOr string :=
  match decodeName raw with
  | inl e => inl e
  | inr seg =>
      if negb (ValidString seg) then inl "decodes to invalid UTF-8"
      else if negb (String.eqb (adoHazard seg) "") then inl (adoHazard seg)
      else if adoHidesStructure seg then inl "is encoded more than once around structure"
      else inr seg
  end.

(** [%02X] of every byte, each after a percent sign. *)
Fixpoint pctBytes (s : string) : string :=
  match s with
  | "" => ""
  | String c r => String "%" (String (upperhex (Z.shiftr (byte_of c) 4)) (String (upperhex (Z.land (byte_of c) 15)) (pctBytes r)))
  end.

Definition mustEscape (r : Z) : bool :=
  (r =? RuneError) || isSpaceRune r || isControlRune r || existsb (fun c => r =? byte_of c) ["%"; "#"; "?"; "/"; "\"]%char.

Fixpoint escapeLoop (fuel : nat) (s : string) : string :=
  match fuel, s with
  | S f, String _ _ =>
      let '(r, _, rest) := DecodeRune s in
      let chunk := upTo s rest in
      (if mustEscape r then pctBytes chunk else chunk) +:+ escapeLoop f rest
  | _, _ => ""
  end.
Definition EscapeName (name : string) : string := escapeLoop (String.length name) name.

(** ** Paths and addresses *)

Fixpoint canonicalSegments (segs : list string) : option (list string) :=
  match segs with
  | [] => Some []
  | raw :: rest =>
      match (if String.eqb raw "" then Some "" else match UnescapeName raw with inl _ => None | inr name => Some (EscapeName name) end) with
      | None => None
      | Some seg => match canonicalSegments rest with Some l => Some (seg :: l) | None => None end
      end
  end.

Definition CanonicalPath (path : string) : option string := join "/" <$> canonicalSegments (splitByte "/" path).

(** Hosts that accept the tokens of a directory ([classify.go]). *)
Definition azureDevOpsHost (h : string) : bool :=
  String.eqb h "dev.azure.com" || HasSuffix h ".dev.azure.com" || HasSuffix h ".visualstudio.com".

Definition afterLast (c : ascii) (s : string) : string := match cutLastByte c s with Some (_, b) => b | None => s end.
Definition beforeFirst (c : ascii) (s : string) : string := match cutByte c s with Some (a, _) => a | None => s end.

Section Unicode.
Context {U : GoUnicode}.

Definition NameKey (raw : string) : string := match UnescapeName raw with inl _ => "" | inr name => ToLower name end.

(** The text up to the path, the path and the host. *)
Definition splitRepoAddress (raw : string) : option (string * string * string) :=
  let finish head path host :=
    if containsAny "?#" path then None else Some (head, path, ToLower (beforeFirst ":" (afterLast "@" host))) in
  match cutStr "://" raw with
  | Some (scheme, rest) =>
      if String.eqb scheme "" || containsRune (fun r => ((r <? 97) || (122 <? r)) && ((r <? 65) || (90 <? r))) scheme then None
      else
        let '(host, path) := spanAny "/?#" rest in
        if negb (HasPrefix path "/") then None else finish (scheme +:+ "://" +:+ host) path host
  | None =>
      match cutByte ":" raw with
      | None => None
      | Some (host, path) => if String.eqb host "" || containsAny "/ " host then None else finish (host +:+ ":") path host
      end
  end.

Definition CanonicalURL (raw : string) : option string :=
  match splitRepoAddress raw with
  | None => None
  | Some (head, path, _) =>
      if str_has "%" head then None
      else match CanonicalPath path with Some p => Some (head +:+ p) | None => None end
  end.

Definition CanonicalRepoURL (raw : string) (serverHosts : list string) : option string :=
  match splitRepoAddress raw with
  | None => None
  | Some (_, _, host) => if azureDevOpsHost host || memS host serverHosts then CanonicalURL raw else None
  end.
End Unicode.

(** ** Lemmas: runes and their bytes *)

(** The bytes of a rune outside ASCII are outside ASCII. *)
Lemma wide_rune_bytes a rr : rune a rr -> 128 <= rr -> str_forall (fun c => 128 <=? byte_of c) a = true.
Proof.
  intros [Hne H] Hr. specialize (H ""). rewrite str_app_nil_r in H. destruct a as [|c r]; [done|]. unfold DecodeRune in H. cbn zeta in H.
  destruct (byte_of c <? 128) eqn:Ec; [simplify_eq; bool_prop; lia|]. apply Z.ltb_ge in Ec.
  destruct (runeShape (byte_of c)) as [[[n lo] hi]|] eqn:Es; [|done].
  assert (Hlo : 128 <= lo) by (unfold runeShape in Es; repeat case_match; simplify_eq; lia).
  assert (Hc : forall lo' hi' d, cont lo' hi' d = true -> 128 <= lo' -> (128 <=? byte_of d) = true) by (intros ? ? d Hd ?; unfold cont in Hd; bool_prop; lia).
  destruct n as [|[|[|[|[|n]]]]]; try done; destruct r as [|c1 [|c2 [|c3 r]]]; try done; case_match eqn:E; try done; simplify_eq; bool_prop;
    cbn [str_forall]; rewrite (proj2 (Z.leb_le _ _) Ec); repeat match goal with Hd : cont _ _ ?d = true |- _ => rewrite (Hc _ _ d Hd ltac:(lia)); clear Hd end; done.
Qed.

Lemma wide_has c a : str_forall (fun c => 128 <=? byte_of c) a = true -> byte_of c < 128 -> str_has c a = false.
Proof. intros H Hc. eapply str_forall_has_not; [exact H|]. cbn. lia. Qed.

(** What [EscapeName] leaves as it is holds neither a percent sign nor a separator. *)
Lemma chunk_of c s r ok rest : DecodeRune (String c s) = (r, ok, rest) ->
  exists a, String c s = a +:+ rest /\ a <> "" /\ (mustEscape r = false -> str_has "%" a = false /\ str_has "/" a = false).
Proof.
  intros H. destruct ok.
  - apply decode_ok in H as (a & E & Ha). exists a. split; [done|]. split; [apply Ha|]. intros Hm. destruct a as [|x a]; [by destruct Ha|].
    destruct (byte_of x <? 128) eqn:Ex.
    + apply (rune_ascii _ _ _ Ha) in Ex as [-> ->]. unfold mustEscape in Hm. cbn [existsb] in Hm. bool_prop. rewrite !str_has_cons.
      split; apply orb_false_intro; try done; apply Ascii.eqb_neq; intros ->; done.
    + assert (Hw : str_forall (fun c => 128 <=? byte_of c) (String x a) = true).
      { apply (wide_rune_bytes _ r Ha). destruct Ha as [_ Ha]. specialize (Ha ""). rewrite str_app_nil_r in Ha. by eapply decode_wide. }
      split; by apply wide_has.
  - exists (String c ""). assert (r = RuneError /\ rest = s) as [-> ->]; [|by split_and!].
    unfold DecodeRune in H. cbn zeta in H. repeat case_match; simplify_eq; done.
Qed.

(** ** Lemmas: escaping and decoding *)

Definition puts (a : string) (m : errOr string) : errOr string := match m with inl e => inl e | inr t => inr (a +:+ t) end.
Lemma puts_nil m : puts "" m = m.
Proof. by destruct m. Qed.

Definition noSeparator (s : string) : bool := str_forall (fun c => negb (isPathSeparator c)) s.

Lemma decode_pct a b : noSeparator a = true -> decodeName (pctBytes a +:+ b) = puts a (decodeName b).
Proof.
  induction a as [|c a IH]; [intros _; by rewrite puts_nil|]. cbn. intros [Hc%negb_true_iff Ha]%andb_prop. change (str_forall (fun x => negb (isPathSeparator x)) a) with (noSeparator a) in Ha.
  rewrite !str_app_cons. cbn [decodeName Ascii.eqb Bool.eqb]. pose proof (hex_pair c) as (_ & _ & ->). rewrite Hc, (IH Ha). by destruct (decodeName b).
Qed.

Lemma decode_plain a b : str_has "%" a = false -> decodeName (a +:+ b) = puts a (decodeName b).
Proof.
  induction a as [|c a IH]; [intros _; by rewrite puts_nil|]. rewrite str_has_cons. intros [Hc Ha]%orb_false_elim. rewrite str_app_cons. cbn [decodeName].
  rewrite Hc, (IH Ha). by destruct (decodeName b).
Qed.

Lemma noSeparator_app a b : noSeparator (a +:+ b) = noSeparator a && noSeparator b.
Proof. apply str_forall_app. Qed.

Lemma pct_no_slash a : str_has "/" (pctBytes a) = false.
Proof.
  induction a as [|c a IH]; [done|]. cbn [pctBytes]. rewrite !str_has_cons, IH. destruct (hex_pair c) as (H1 & H2 & H3).
  destruct c as [[] [] [] [] [] [] [] []]; reflexivity.
Qed.

Lemma escape_decodes_from n s : (String.length s <= n)%nat -> noSeparator s = true ->
  decodeName (escapeLoop n s) = inr s /\ str_has "/" (escapeLoop n s) = false.
Proof.
  revert s. induction n as [|n IH]; intros [|c s] Hn Hs; cbn in Hn; [done|lia|done|]. cbn [escapeLoop].
  destruct (DecodeRune (String c s)) as [[r ok] rest] eqn:E. pose proof (rune_shorter _ _ _ _ c s eq_refl E) as Hlen.
  destruct (chunk_of _ _ _ _ _ E) as (a & Ea & _ & Hplain). rewrite Ea in *. rewrite upTo_app. rewrite noSeparator_app in Hs. apply andb_prop in Hs as [Ha Hrest].
  destruct (IH rest ltac:(lia) Hrest) as [Hd Hh]. rewrite str_has_app, Hh, orb_false_r. destruct (mustEscape r).
  - by rewrite (decode_pct _ _ Ha), Hd, pct_no_slash.
  - destruct (Hplain eq_refl) as [Hp Hsl]. by rewrite (decode_plain _ _ Hp), Hd, Hsl.
Qed.

Lemma escape_decodes s : noSeparator s = true -> decodeName (EscapeName s) = inr s /\ str_has "/" (EscapeName s) = false.
Proof. by apply escape_decodes_from. Qed.

Lemma UnescapeName_Some raw n : UnescapeName raw = inr n ->
  decodeName raw = inr n /\ ValidString n = true /\ adoHazard n = "" /\ adoHidesStructure n = false.
Proof.
  unfold UnescapeName. destruct (decodeName raw) as [e|t] eqn:E; [done|]. destruct (ValidString t) eqn:Ev; [|done].
  destruct (String.eqb_spec (adoHazard t) "") as [Eh|]; [|done]. cbn [negb]. destruct (adoHidesStructure t) eqn:Es; [done|]. by intros [= <-].
Qed.

Lemma hazard_no_separator n : adoHazard n = "" -> noSeparator n = true.
Proof. unfold adoHazard. repeat case_match; try done. intros _. by apply negb_false_iff. Qed.

Lemma decode_nonempty raw n : decodeName raw = inr n -> raw <> "" -> n <> "".
Proof. destruct raw as [|c r]; [done|]. cbn [decodeName]. repeat case_match; intros [= <-]; done. Qed.

Lemma escape_name_back raw n : UnescapeName raw = inr n -> UnescapeName (EscapeName n) = inr n /\ str_has "/" (EscapeName n) = false.
Proof.
  intros (Hd & Hv & Hh & Hs)%UnescapeName_Some. destruct (escape_decodes n (hazard_no_separator _ Hh)) as [He Hsl]. split; [|done].
  unfold UnescapeName. by rewrite He, Hv, Hh, Hs.
Qed.

(** ** Lemmas: paths *)

Lemma split_nonempty c s : splitByte c s <> [].
Proof. destruct s as [|x s]; [done|]. cbn. destruct (Ascii.eqb x c); [done|]. by destruct (splitByte c s). Qed.

Lemma split_plain c a s : str_has c a = false -> splitByte c (a +:+ String c s) = a :: splitByte c s.
Proof.
  induction a as [|x a IH]; [intros _; rewrite str_app_nil_l; cbn; by rewrite Ascii.eqb_refl|]. rewrite str_has_cons, str_app_cons. intros [Hx Ha]%orb_false_elim.
  cbn. by rewrite Hx, (IH Ha).
Qed.

Lemma split_whole c a : str_has c a = false -> splitByte c a = [a].
Proof. induction a as [|x a IH]; [done|]. rewrite str_has_cons. intros [Hx Ha]%orb_false_elim. cbn. by rewrite Hx, (IH Ha). Qed.

Lemma split_join l : l <> [] -> Forall (fun s => str_has "/" s = false) l -> splitByte "/" (join "/" l) = l.
Proof.
  intros Hne H. induction H as [|a l Ha Hl IH]; [done|]. destruct l as [|b l]; [by apply split_whole|].
  change (join "/" (a :: b :: l)) with (a +:+ String "/" (join "/" (b :: l))). by rewrite (split_plain _ _ _ Ha), IH.
Qed.

(** What canonicalising a list of segments gives: the same names, each in its one spelling. *)
Lemma canonical_segments l l' : canonicalSegments l = Some l' ->
  length l' = length l /\ Forall (fun s => str_has "/" s = false) l' /\ canonicalSegments l' = Some l' /\ Forall2 (fun raw seg => UnescapeName seg = UnescapeName raw) l l'.
Proof.
  revert l'. induction l as [|raw l IH]; intros l'; cbn [canonicalSegments]; [by intros [= <-]|].
  destruct (String.eqb_spec raw "") as [->|Hne].
  - destruct (canonicalSegments l) as [t|]; [|done]. intros [= <-]. destruct (IH _ eq_refl) as (H1 & H2 & H3 & H4). cbn. rewrite H1, H3. split_and!; try done; by constructor.
  - destruct (UnescapeName raw) as [e|n] eqn:E; [done|]. destruct (canonicalSegments l) as [t|]; [|done]. intros [= <-]. destruct (IH _ eq_refl) as (H1 & H2 & H3 & H4).
    destruct (escape_name_back _ _ E) as [Hb Hs]. cbn [canonicalSegments length]. rewrite H1, H3, Hb. split_and!; [done|by constructor| |by constructor; [congruence|]].
    destruct (String.eqb_spec (EscapeName n) "") as [E0|]; [|done]. exfalso. rewrite E0 in Hb. cbn in Hb. injection Hb as <-.
    apply UnescapeName_Some in E as [Hd _]. by eapply decode_nonempty.
Qed.

(** ** The names *)

(** Every spelling of a name has one canonical form, and it stands for the same
    name: the canonical path reads, segment by segment, as the path did, a second
    canonicalisation changes nothing, and the name of each segment is read back from
    its one spelling. *)
Theorem canonical_path_keeps_the_names (path q : string) (H : CanonicalPath path = Some q) :
  CanonicalPath q = Some q /\ Forall2 (fun raw seg => UnescapeName seg = UnescapeName raw) (splitByte "/" path) (splitByte "/" q) /\
  forall raw n, UnescapeName raw = inr n -> UnescapeName (EscapeName n) = inr n.
Proof.
  unfold CanonicalPath in *. destruct (canonicalSegments (splitByte "/" path)) as [l|] eqn:E; [|done]. injection H as <-.
  destruct (canonical_segments _ _ E) as (Hlen & Hs & Hc & Hf). rewrite split_join; [|by intros ->; destruct (splitByte "/" path) eqn:?; [eapply split_nonempty|]|done].
  rewrite Hc. split_and!; [done|done|]. intros raw n Hn. by destruct (escape_name_back _ _ Hn).
Qed.

Lemma canonical_path_keeps_the_names_witness :
  CanonicalPath "/acme/My Project/_git/web%2Eapp" = Some "/acme/My%20Project/_git/web.app" /\
  CanonicalPath "/acme/My%20Project/_git/web.app" = Some "/acme/My%20Project/_git/web.app" /\
  CanonicalPath "/acme/a%2Fb" = None /\ CanonicalPath "/acme/a%252Fb" = None.
Proof.
  split_and!; [by vm_compute| |by vm_compute..].
  apply (canonical_path_keeps_the_names "/acme/My Project/_git/web%2Eapp" "/acme/My%20Project/_git/web.app"). by vm_compute.
Defined.

(** A name a segment decodes to reads the same however often it is decoded again:
    never a separator, a dot segment, a control character, or text the service trims. *)
Theorem name_reads_one_way (raw n : string) (k : nat) :
  UnescapeName raw = inr n -> ValidString n = true /\ noSeparator n = true /\ adoHazard (Nat.iter k Lenient n) = "".
Proof.
  intros (_ & Hv & Hh & Hs)%UnescapeName_Some. split_and!; [done|by apply hazard_no_separator|]. by eapply hides_never.
Qed.
