(* ===== verification/GoRunes.v ===== *)
(** * Go's case folding and rune maps

    [strings.Map], [strings.EqualFold] and the least rune of a simple-fold orbit. Of
    Unicode's tables only what they say of runes outside ASCII is left open, as the
    operations of the class [GoRunes]. The long s (U+017F) and the Kelvin sign
    (U+212A) are the only runes outside ASCII whose orbit holds an ASCII letter. *)
From S2P Require Import Prelude GoStrings GoPath CanonNumber GoJSON PolicyRef.
Local Open Scope string_scope.
Local Open Scope Z_scope.
Local Open Scope list_scope.

(** For a rune outside ASCII: its lower case, the least rune of its orbit when no
    ASCII letter is in it, and whether it is a letter or digit that is drawn (one not
    among the code points ignored by default). *)
Class GoRunes := { lowerRune : Z -> Z; orbitRune : Z -> Z; drawnRune : Z -> bool }.

(** The tables of a language with no case outside ASCII, for the witnesses. *)
Definition plainRunes : GoRunes := {| lowerRune := fun r => r; orbitRune := fun r => r; drawnRune := fun _ => true |}.

Definition longS : Z := 383.
Definition kelvin : Z := 8490.

Definition upperASCII (r : Z) : Z := if (97 <=? r) && (r <=? 122) then r - 32 else r.
Definition lowerASCII (r : Z) : Z := if (65 <=? r) && (r <=? 90) then r + 32 else r.

(** [strings.Map]: each rune's image, encoded. *)
Definition mapRunes (f : Z -> Z) (s : string) : string := foldr (fun r acc => encodeRune (f r) +:+ acc) "" (runes s).

Section Runes.
Context {R : GoRunes}.

(** The least rune of a simple-fold orbit, and the lower case of a rune. *)
Definition leastFold (r : Z) : Z :=
  if r <? 128 then upperASCII r else if r =? longS then 83 else if r =? kelvin then 75 else orbitRune r.
Definition toLowerRune (r : Z) : Z := if r <? 128 then lowerASCII r else lowerRune r.

(** [strings.EqualFold]. *)
Definition EqualFold (a b : string) : bool := bool_decide (map leastFold (runes a) = map leastFold (runes b)).

(** A letter or digit that is drawn. *)
Definition drawn (r : Z) : bool :=
  if r <? 128 then ((48 <=? r) && (r <=? 57)) || ((65 <=? r) && (r <=? 90)) || ((97 <=? r) && (r <=? 122)) else drawnRune r.
End Runes.
