(* ===== verification/ArmScope.v ===== *)
(** * The Azure Resource Manager gate

    [src/internal/armscope]: whether one request stays inside the subscriptions a run
    was given, and whether a run that may only read is trying to change something. *)
From S2P Require Import Prelude GoStrings GoPath Grants PolicyTypes CanonNumber GoJSON GHPath PolicyRef AdoNames GoRunes.
Local Open Scope string_scope.
Local Open Scope Z_scope.
Local Open Scope list_scope.

Definition armHost : string := "management.azure.com".

(** The three refusals; an unreadable request says why. *)
Inductive armErr := ErrUnreadable (why : string) | ErrOutside | ErrReadOnly.

Record Scope := mkScope { Subscriptions : list string; Write : bool }.

Definition tenantReads : list string := ["subscriptions"; "providers"; "tenants"].

Fixpoint str_filter (f : ascii -> bool) (s : string) : string :=
  match s with "" => "" | String c r => if f c then String c (str_filter f r) else str_filter f r end.

(** [strings.Contains]. *)
Definition containsStr (s sub : string) : bool := match cutStr sub s with Some _ => true | None => false end.

Definition segmentMarks : string := "?#%".

Section Unicode.
Context {U : GoUnicode} {R : GoRunes}.

Definition normalizedHeader (header : string) : string :=
  str_filter (fun c => negb (Ascii.eqb c "-" || Ascii.eqb c "_")) (ToLower header).

Definition methodOverride (header : string) : bool := containsStr (normalizedHeader header) "method".

Definition pathOverride (header : string) : bool :=
  existsb (containsStr (normalizedHeader header))
    ["originalurl"; "originaluri"; "originalpath"; "rewriteurl"; "rewriteuri"; "rewritepath";
     "forwardedprefix"; "forwardedurl"; "forwardeduri"; "forwardedpath"; "overrideurl"; "overrideuri"; "overridepath"].

(** The bytes of an identifier from index [i]. *)
Fixpoint guidFrom (i : nat) (id : string) : bool :=
  match id with
  | "" => true
  | String c r =>
      (if existsb (Nat.eqb i) [8; 13; 18; 23]%nat then Ascii.eqb c "-"
       else is_digit c || ((97 <=? byte_of c) && (byte_of c <=? 102)) || ((65 <=? byte_of c) && (byte_of c <=? 70)))
      && guidFrom (S i) r
  end.

Definition Subscription (id : string) : option string :=
  if negb (Nat.eqb (String.length id) 36) then None else if guidFrom 0 id then Some (ToLower id) else None.

Definition dotLookalike (seg : string) : bool :=
  if containsRune drawn seg then false else containsRune (fun r => (r =? 46) || (127 <? r)) seg.

Definition pathParameter (i : nat) (seg : string) : bool :=
  match cutByte ";" seg with
  | None => false
  | Some (head, _) => Nat.ltb i 2 || String.eqb head "" || dotLookalike head
  end.

Definition routedElsewhere : armErr := ErrUnreadable "a path segment is spelled so that it could be routed as another".

Fixpoint armParts (i : nat) (parts : list string) : armErr + list string :=
  match parts with
  | [] => inr []
  | raw :: rest =>
      if String.eqb raw "" then inl (ErrUnreadable "its path has an empty segment")
      else match UnescapeName raw with
           | inl _ => inl routedElsewhere
           | inr seg =>
               if containsAny segmentMarks seg || pathParameter i seg then inl routedElsewhere
               else if dotLookalike seg then inl routedElsewhere
               else match armParts (S i) rest with inl e => inl e | inr l => inr (ToLower seg :: l) end
           end
  end.

Definition segments (rawPath : string) : armErr + list string :=
  if negb (HasPrefix rawPath "/") || containsAny "\?#" rawPath then inl (ErrUnreadable "its path is not a plain absolute path")
  else
    let rest := TrimSuffix (tailOf rawPath) "/" in
    if String.eqb rest "" then inr [] else armParts 0 (splitByte "/" rest).

(** Of the headers only the names are read. *)
Definition readMethod (method : string) (h : list string) : armErr + bool :=
  match findFirst (fun k => methodOverride k || pathOverride k) h with
  | Some k => inl (ErrUnreadable ("it carries " +:+ k))
  | None =>
      if memS method ["GET"; "HEAD"] then inr true
      else if memS method ["POST"; "PUT"; "PATCH"; "DELETE"] then inr false
      else inl (ErrUnreadable "is not a method this gate classifies")
  end.

Definition Admit (s : Scope) (method rawPath : string) (h : list string) : armErr + unit :=
  match readMethod method h with
  | inl e => inl e
  | inr read =>
      match segments rawPath with
      | inl e => inl e
      | inr segs =>
          match segs with
          | [t] => if memS t tenantReads then (if negb read then inl ErrOutside else inr tt) else inl ErrOutside
          | a :: b :: _ =>
              if negb (String.eqb a "subscriptions") || negb (memS b (Subscriptions s)) then inl ErrOutside
              else if negb read && negb (Write s) then inl ErrReadOnly
              else inr tt
          | [] => inl ErrOutside
          end
      end
  end.

(** ** Lemmas *)

(** Nothing is left to decode in a segment with no percent sign. *)
Lemma lenient_plain s : str_has "%" s = false -> Lenient s = s.
Proof.
  induction s as [|c s IH]; [done|]. rewrite str_has_cons. intros [Hc Hs]%orb_false_elim. cbn [Lenient]. rewrite Hc.
  destruct s as [|h [|l s]]; f_equal; by apply IH.
Qed.

Lemma decodeName_lenient raw n : decodeName raw = inr n -> Lenient raw = n.
Proof.
  intros H. apply strict_lenient. revert n H. induction raw as [raw IH] using (induction_ltof1 _ String.length). unfold ltof in IH. intros n.
  destruct raw as [|c r]; [by intros [= <-]|]. cbn [decodeName strictDecode]. destruct (Ascii.eqb c "%").
  - destruct r as [|h [|l r2]]; [done..|]. destruct (unescape h l) as [b|]; [|done]. destruct (isPathSeparator b); [done|].
    destruct (decodeName r2) as [e|t] eqn:E; [done|]. intros [= <-]. by rewrite (IH r2 ltac:(cbn; lia) _ E).
  - destruct (decodeName r) as [e|t] eqn:E; [done|]. intros [= <-]. by rewrite (IH r ltac:(cbn; lia) _ E).
Qed.

Lemma marks_no_percent seg : containsAny segmentMarks seg = false -> str_has "%" seg = false.
Proof. unfold containsAny. intros H%negb_false_iff. by eapply str_forall_has_not. Qed.

(** Decoding a path's parts, once or more, gives the segments that were judged. *)
Lemma armParts_decode i parts segs k : armParts i parts = inr segs -> segs = map (fun raw => ToLower (Nat.iter (S k) Lenient raw)) parts.
Proof.
  revert i segs. induction parts as [|raw parts IH]; intros i segs; cbn [armParts]; [by intros [= <-]|].
  destruct (String.eqb raw ""); [done|]. destruct (UnescapeName raw) as [e|seg] eqn:E; [done|].
  destruct (containsAny segmentMarks seg || pathParameter i seg) eqn:Em; [done|]. destruct (dotLookalike seg); [done|].
  destruct (armParts (S i) parts) as [e|l] eqn:El; [done|]. intros [= <-]. cbn [map]. rewrite <- (IH _ _ El). f_equal. f_equal.
  apply orb_false_elim in Em as [Em _]. apply UnescapeName_Some in E as [Ed _]. rewrite Nat.iter_succ_r, (decodeName_lenient _ _ Ed).
  clear -Em. induction k as [|k IHk]; [done|]. rewrite Nat.iter_succ, <- IHk. symmetry. by apply lenient_plain, marks_no_percent.
Qed.

Definition rest_of (path : string) : string := TrimSuffix (tailOf path) "/".

(** C32: a request the Resource Manager gate admits carries no header that names
    another method or path, and is either a read of one of the three tenant-level
    lists or lies under a subscription of the run, where it reads or the run may
    write; and a front end that decodes the path again, any number of times, finds
    the very segments that were judged. *)
Theorem admitted_stays_in_its_subscriptions (s : Scope) (method path : string) (h : list string) (k : nat) (H : Admit s method path h = inr tt) :
  (forall name, name ∈ h -> methodOverride name = false /\ pathOverride name = false) /\
  let segs := map (fun raw => ToLower (Nat.iter (S k) Lenient raw)) (splitByte "/" (rest_of path)) in
  (exists t, segs = [t] /\ t ∈ tenantReads /\ method ∈ ["GET"; "HEAD"]) \/
  (exists sub rest, segs = "subscriptions" :: sub :: rest /\ sub ∈ Subscriptions s /\
    (method ∈ ["GET"; "HEAD"] \/ (Write s = true /\ method ∈ ["POST"; "PUT"; "PATCH"; "DELETE"]))).
Proof.
  unfold Admit in H. destruct (readMethod method h) as [e|read] eqn:Em; [done|]. destruct (segments path) as [e|segs] eqn:Es; [done|].
  unfold readMethod in Em. destruct (findFirst _ h) eqn:Ef; [done|]. split.
  { intros name Hn. apply orb_false_elim. by apply (proj1 (findFirst_None _ h) Ef). }
  assert (Hm : if read then method ∈ ["GET"; "HEAD"] else method ∈ ["POST"; "PUT"; "PATCH"; "DELETE"]).
  { destruct (memS method ["GET"; "HEAD"]) eqn:E1; [injection Em as <-; by apply memS_true|]. destruct (memS method ["POST"; "PUT"; "PATCH"; "DELETE"]) eqn:E2; [|done]. injection Em as <-. by apply memS_true. }
  unfold segments in Es. destruct (_ || _); [done|]. fold (rest_of path) in Es. destruct (String.eqb (rest_of path) ""); [by injection Es as <-|].
  apply (armParts_decode _ _ _ k) in Es. cbn zeta. rewrite <- Es. destruct segs as [|a [|b rest]]; [done| |].
  - left. exists a. destruct (memS a tenantReads) eqn:Et; [|done]. destruct read; [|done]. split_and!; [done|by apply memS_true|done].
  - right. exists b, rest. destruct (String.eqb_spec a "subscriptions") as [->|]; [|done]. destruct (memS b _) eqn:Eb; [|done]. cbn [negb orb] in H.
    split_and!; [done|by apply memS_true|]. destruct read; [by left|]. destruct (Write s); [by right|done].
Qed.
End Unicode.

Lemma admitted_stays_in_its_subscriptions_witness :
  let s := mkScope ["0f3c7a10-5b2e-4a57-9d3a-5c0f1d2e3b4a"] false in
  let path := "/Subscriptions/0F3C7A10-5b2e-4a57-9d3a-5c0f1d2e3b4a/resourceGroups/%72g1/" in
  @Admit asciiTables plainRunes s "GET" path ["Accept"] = inr tt /\
  @Admit asciiTables plainRunes s "POST" path [] = inl ErrReadOnly /\
  @Admit asciiTables plainRunes s "GET" path ["X_HTTP_Method"] = inl (ErrUnreadable "it carries X_HTTP_Method") /\
  @pathOverride asciiTables "Accept" = false.
Proof.
  assert (H : @Admit asciiTables plainRunes (mkScope ["0f3c7a10-5b2e-4a57-9d3a-5c0f1d2e3b4a"] false) "GET"
    "/Subscriptions/0F3C7A10-5b2e-4a57-9d3a-5c0f1d2e3b4a/resourceGroups/%72g1/" ["Accept"] = inr tt) by (vm_compute; reflexivity).
  split_and!; [exact H|vm_compute; reflexivity..|].
  destruct (@admitted_stays_in_its_subscriptions asciiTables plainRunes _ _ _ _ 2%nat H) as [Hh _]. apply Hh. left.
Defined.
