(* ===== verification/AdoCaps.v ===== *)
(** * The Azure DevOps capability catalogue: capabilities, areas and scopes

    [capability.go], [areas.go] and [scopes.go] of [src/internal/adoscope]: the closed
    set of capabilities, what a read of each area needs, what each capability asks of
    a token, and the gate. *)
From S2P Require Import Prelude GoStrings GoPath GoSlices Grants PolicyTypes CanonNumber GoJSON GHPath.
Local Open Scope string_scope.
Local Open Scope list_scope.

(** ** Capabilities *)

Definition Capability : Type := string.

Definition CapCodeRead : Capability := "code_read".
Definition CapCodeWrite : Capability := "code_write".
Definition CapPR : Capability := "pr".
Definition CapPolicyAdmin : Capability := "policy_admin".
Definition CapPolicyBypass : Capability := "policy_bypass".
Definition CapRepoAdmin : Capability := "repo_admin".
Definition CapWorkRead : Capability := "work_read".
Definition CapWorkWrite : Capability := "work_write".
Definition CapWorkAdmin : Capability := "work_admin".
Definition CapWikiRead : Capability := "wiki_read".
Definition CapWikiWrite : Capability := "wiki_write".
Definition CapBuildRead : Capability := "build_read".
Definition CapBuildExecute : Capability := "build_execute".
Definition CapBuildAdmin : Capability := "build_admin".
Definition CapReleaseRead : Capability := "release_read".
Definition CapReleaseExecute : Capability := "release_execute".
Definition CapReleaseAdmin : Capability := "release_admin".
Definition CapServiceEndpointRead : Capability := "serviceendpoint_read".
Definition CapServiceEndpointAdmin : Capability := "serviceendpoint_admin".
Definition CapLibraryRead : Capability := "library_read".
Definition CapPackagingRead : Capability := "packaging_read".
Definition CapPackagingWrite : Capability := "packaging_write".
Definition CapPackagingManage : Capability := "packaging_manage".
Definition CapTestRead : Capability := "test_read".
Definition CapProjectRead : Capability := "project_read".
Definition CapIdentityRead : Capability := "identity_read".
Definition CapProjectAdmin : Capability := "project_admin".
Definition CapSecurityAdmin : Capability := "security_admin".
Definition CapDeniedTokens : Capability := "denied_tokens".
Definition CapDeniedServiceHooks : Capability := "denied_service_hooks".
Definition CapDeniedExtensions : Capability := "denied_extension_management".
Definition CapDeniedInternal : Capability := "denied_internal".
Definition CapUnclassifiedWrite : Capability := "unclassified_write".
Definition CapUnclassifiedRead : Capability := "unclassified_read".
Definition CapDiscovery : Capability := "discovery".

Definition grantableCapabilities : list Capability :=
  [CapCodeRead; CapCodeWrite; CapPR; CapPolicyAdmin; CapPolicyBypass; CapRepoAdmin; CapWorkRead; CapWorkWrite; CapWorkAdmin; CapWikiRead;
   CapWikiWrite; CapBuildRead; CapBuildExecute; CapBuildAdmin; CapReleaseRead; CapReleaseExecute; CapReleaseAdmin; CapServiceEndpointRead;
   CapServiceEndpointAdmin; CapLibraryRead; CapPackagingRead; CapPackagingWrite; CapPackagingManage; CapTestRead; CapProjectRead; CapIdentityRead;
   CapProjectAdmin; CapSecurityAdmin].

Definition deniedCapabilities : list Capability := [CapDeniedTokens; CapDeniedServiceHooks; CapDeniedExtensions; CapDeniedInternal].

Definition Grantable (c : Capability) : bool := memS c grantableCapabilities.
Definition Denied (c : Capability) : bool := memS c deniedCapabilities.
Definition capValid (c : Capability) : bool :=
  Grantable c || Denied c || String.eqb c CapDiscovery || String.eqb c CapUnclassifiedWrite || String.eqb c CapUnclassifiedRead.

Definition GrantableCapabilities : list Capability := sortStrings grantableCapabilities.
Definition GrantableCapabilityList : string := join ", " GrantableCapabilities.

Definition labels : list (Capability * string) :=
  [(CapCodeRead, "Clone, fetch and browse repositories, commits, branches, pull requests and branch policies, and search code");
   (CapCodeWrite, "Push commits and create or move branches, inside this run's own branch unless its policy allows any branch");
   (CapPR, "Open, review and complete pull requests");
   (CapPolicyAdmin, "Change the branch policies themselves");
   (CapPolicyBypass, "Complete a pull request without its required reviewers or checks");
   (CapRepoAdmin, "Create, rename and delete repositories");
   (CapWorkRead, "Read work items, queries, boards, backlogs, areas and iterations, and search work items");
   (CapWorkWrite, "Create and update work items");
   (CapWorkAdmin, "Delete, restore or permanently destroy work items, and change area and iteration paths, fields and tags for everyone");
   (CapWikiRead, "Read wiki pages, their history and attachments, and search wikis");
   (CapWikiWrite, "Write wiki pages");
   (CapBuildRead, "Read pipelines, runs, builds, logs and artifacts");
   (CapBuildExecute, "Queue, cancel or update a pipeline run");
   (CapBuildAdmin, "Change pipeline definitions — what every future run executes");
   (CapReleaseRead, "Read classic release pipelines, releases and their stages");
   (CapReleaseExecute, "Create releases, deploy them to a stage, and delete them");
   (CapReleaseAdmin, "Change release pipelines and answer release approvals — what every future release deploys");
   (CapServiceEndpointRead, "Read service connection names, types and settings");
   (CapServiceEndpointAdmin, "Change service connections and the credentials they hold");
   (CapLibraryRead, "Read variable groups and secure-file details");
   (CapPackagingRead, "List feeds, and download or restore packages");
   (CapPackagingWrite, "Publish packages to feeds");
   (CapPackagingManage, "Delete or unpublish package versions, and create, change or delete feeds, views and their permissions");
   (CapTestRead, "Read test plans, suites, cases, runs and results");
   (CapProjectRead, "Read projects, teams and your own profile");
   (CapIdentityRead, "Read the organisation's users, groups, memberships and licences, and directory identities");
   (CapProjectAdmin, "Create, change and delete projects");
   (CapSecurityAdmin, "Change permissions and identities");
   (CapDiscovery, "Find where Azure DevOps serves each API — no organisation data");
   (CapDeniedTokens, "Not available: minting or revoking access tokens");
   (CapDeniedServiceHooks, "Not available: forwarding organisation events to another address");
   (CapDeniedExtensions, "Not available: installing extensions into the organisation");
   (CapDeniedInternal, "Not available: the organisation's internal web API");
   (CapUnclassifiedWrite, "Not available: a write this deployment does not recognize");
   (CapUnclassifiedRead, "Not available: a read this deployment does not recognize")].

Definition shortLabels : list (Capability * string) :=
  [(CapCodeRead, "Read code");
   (CapCodeWrite, "Push to the run's own branch");
   (CapPR, "Contribute to pull requests");
   (CapPolicyAdmin, "Edit branch policies");
   (CapPolicyBypass, "Bypass policies when completing pull requests");
   (CapRepoAdmin, "Create, rename and delete repositories");
   (CapWorkRead, "View work items");
   (CapWorkWrite, "Edit work items");
   (CapWorkAdmin, "Delete work items & manage work tracking");
   (CapWikiRead, "Read wikis");
   (CapWikiWrite, "Edit wikis");
   (CapBuildRead, "View builds & pipelines");
   (CapBuildExecute, "Queue builds");
   (CapBuildAdmin, "Edit build pipelines");
   (CapReleaseRead, "View releases");
   (CapReleaseExecute, "Create releases & deploy");
   (CapReleaseAdmin, "Edit release pipelines");
   (CapServiceEndpointRead, "View service connections");
   (CapServiceEndpointAdmin, "Manage service connections");
   (CapLibraryRead, "View variable groups & secure files");
   (CapPackagingRead, "Read feeds & packages");
   (CapPackagingWrite, "Publish packages");
   (CapPackagingManage, "Delete packages & manage feeds");
   (CapTestRead, "View test plans & results");
   (CapProjectRead, "View projects & teams");
   (CapIdentityRead, "Read users & groups");
   (CapProjectAdmin, "Manage projects & teams");
   (CapSecurityAdmin, "Manage permissions & identities")].

Definition ShortLabel (c : Capability) : string := default c (assoc shortLabels c).
Definition Label (c : Capability) : string := default "" (assoc labels c).

Definition ProfileDefault : list Capability := [CapProjectRead; CapCodeRead].

(** ** What a read of an area needs *)

Record readArea := mkReadArea { raCap : Capability; raScope : string }.

Definition readAreas : list (string * readArea) :=
  [("git", mkReadArea CapCodeRead "vso.code");
   ("policy", mkReadArea CapCodeRead "vso.code");
   ("search/codesearchresults", mkReadArea CapCodeRead "vso.code");
   ("search/workitemsearchresults", mkReadArea CapWorkRead "vso.work");
   ("search/wikisearchresults", mkReadArea CapWikiRead "vso.wiki");
   ("search/packagesearchresults", mkReadArea CapPackagingRead "vso.packaging");
   ("wit", mkReadArea CapWorkRead "vso.work");
   ("work", mkReadArea CapWorkRead "vso.work");
   ("wiki", mkReadArea CapWikiRead "vso.wiki");
   ("build", mkReadArea CapBuildRead "vso.build");
   ("pipelines", mkReadArea CapBuildRead "vso.build");
   ("release", mkReadArea CapReleaseRead "vso.release");
   ("serviceendpoint", mkReadArea CapServiceEndpointRead "vso.serviceendpoint");
   ("distributedtask/variablegroups", mkReadArea CapLibraryRead "vso.variablegroups_read");
   ("distributedtask/securefiles", mkReadArea CapLibraryRead "vso.securefiles_read");
   ("packaging", mkReadArea CapPackagingRead "vso.packaging");
   ("packages", mkReadArea CapPackagingRead "vso.packaging");
   ("test", mkReadArea CapTestRead "vso.test");
   ("testplan", mkReadArea CapTestRead "vso.test");
   ("testresults", mkReadArea CapTestRead "vso.test");
   ("projects", mkReadArea CapProjectRead "vso.project");
   ("projectcollections", mkReadArea CapProjectRead "vso.project");
   ("profile", mkReadArea CapProjectRead "vso.profile");
   ("accounts", mkReadArea CapProjectRead "vso.profile");
   ("graph", mkReadArea CapIdentityRead "vso.graph");
   ("identities", mkReadArea CapIdentityRead "vso.identity");
   ("userentitlements", mkReadArea CapIdentityRead "vso.memberentitlementmanagement");
   ("groupentitlements", mkReadArea CapIdentityRead "vso.memberentitlementmanagement");
   ("memberentitlements", mkReadArea CapIdentityRead "vso.memberentitlementmanagement");
   ("connectiondata", mkReadArea CapDiscovery "");
   ("resourceareas", mkReadArea CapDiscovery "")].

(** ** Scopes *)

Definition ResourceID : string := "499b84ac-1321-427f-aa17-267ca6975798".
Definition resourceURI : string := "https://app.vssps.visualstudio.com/".

Definition neverRequestedScopes : list string := ["vso.tokens"; "vso.pats"; "vso.pats_manage"; "vso.tokenadministration"; "user_impersonation"].

Definition MintScopes : list string := [ResourceID +:+ "/vso.pats"; ResourceID +:+ "/vso.pats_manage"].

Definition TrimPrefix (s pre : string) : string := default s (CutPrefix s pre).

Definition IsTokenScope `{U : GoUnicode} (s : string) : bool :=
  memS (TrimPrefix (TrimPrefix (ToLower s) (ResourceID +:+ "/")) resourceURI) neverRequestedScopes.

(** The rows that write or administer, as they are spelled out. *)
Definition writeScopes : list (Capability * list string) :=
  [(CapCodeWrite, ["vso.code_write"]);
   (CapPR, ["vso.code_write"]);
   (CapPolicyAdmin, ["vso.code_write"]);
   (CapPolicyBypass, ["vso.code_write"]);
   (CapRepoAdmin, ["vso.code_manage"]);
   (CapWorkWrite, ["vso.work_write"]);
   (CapWorkAdmin, ["vso.work_write"]);
   (CapWikiWrite, ["vso.wiki_write"]);
   (CapBuildExecute, ["vso.build_execute"]);
   (CapBuildAdmin, ["vso.build_execute"]);
   (CapReleaseExecute, ["vso.release_execute"]);
   (CapReleaseAdmin, ["vso.release_manage"]);
   (CapServiceEndpointAdmin, ["vso.serviceendpoint_manage"]);
   (CapPackagingWrite, ["vso.packaging_write"]);
   (CapPackagingManage, ["vso.packaging_manage"]);
   (CapProjectAdmin, ["vso.project_manage"]);
   (CapSecurityAdmin, ["vso.security_manage"; "vso.graph_manage"; "vso.identity_manage"])].

(** Add what [l] does not hold. *)
Definition addScope (l : list string) (s : string) : list string := if memS s l then l else l ++ [s].

(** The scopes of one capability: its own row, and those of the read areas it reads. *)
Definition capabilityScopes (c : Capability) : list string :=
  sortStrings (foldl (fun acc a => if negb (String.eqb (raScope a) "") && String.eqb (raCap a) c && Grantable (raCap a) then addScope acc (raScope a) else acc)
    (default [] (assoc writeScopes c)) (map snd readAreas)).

Fixpoint scopesLoop (caps : list Capability) (out : list string) : errOr (list string) :=
  match caps with
  | [] => inr out
  | c :: rest =>
      if negb (Grantable c) then inl "is not a grantable capability"
      else scopesLoop rest (foldl (fun acc s => addScope acc (ResourceID +:+ "/" +:+ s)) out (capabilityScopes c))
  end.

Definition ScopesFor (caps : list Capability) : errOr (list string) :=
  match scopesLoop caps [] with inl e => inl e | inr out => inr (sortStrings out) end.

Definition PATScope (caps : list Capability) : errOr string :=
  match ScopesFor caps with
  | inl e => inl e
  | inr [] => inl "a personal access token needs at least one scope"
  | inr qualified => inr (join " " (map (fun q => TrimPrefix q (ResourceID +:+ "/")) qualified))
  end.

(** ** The gate *)

Record Verdict := mkVerdict { vCapability : Capability; vRefs : list string }.
Definition onlyCap (c : Capability) : Verdict := mkVerdict c [].

Definition Permits (granted : list Capability) (v : Verdict) : bool :=
  if String.eqb (vCapability v) CapDiscovery then existsb Grantable granted
  else Grantable (vCapability v) && memS (vCapability v) granted.

(** ** Lemmas: the tables *)

Lemma grantable_elem c : Grantable c = true <-> c ∈ grantableCapabilities.
Proof. apply memS_true. Qed.

(** A fact of every grantable capability is checked once for each. *)
Lemma every_grantable (P : Capability -> bool) : forallb P grantableCapabilities = true -> forall c, Grantable c = true -> P c = true.
Proof. intros H c Hc%grantable_elem. rewrite forallb_forall in H. by apply H, list_elem_of_In. Qed.

Lemma addScope_elem l s x : x ∈ addScope l s <-> x ∈ l \/ x = s.
Proof.
  unfold addScope. destruct (memS s l) eqn:E; [|rewrite elem_of_app, list_elem_of_singleton; tauto]. apply memS_true in E. split; [tauto|]. by intros [H| ->].
Qed.

Lemma addScope_nodup l s : NoDup l -> NoDup (addScope l s).
Proof.
  unfold addScope. destruct (memS s l) eqn:E; [done|]. intros H. apply NoDup_app. split_and!; [done| |apply NoDup_singleton].
  intros x Hx ->%list_elem_of_singleton. apply memS_true in Hx. congruence.
Qed.

Lemma addAll_elem (f : string -> string) l out x : x ∈ foldl (fun acc s => addScope acc (f s)) out l <-> x ∈ out \/ exists s, s ∈ l /\ x = f s.
Proof.
  revert out. induction l as [|s l IH]; intros out; cbn; [split; [tauto|]; intros [H|(s & H & _)]; [done|by apply not_elem_of_nil in H]|].
  rewrite IH, addScope_elem. setoid_rewrite elem_of_cons. naive_solver.
Qed.

Lemma addAll_nodup (f : string -> string) l out : NoDup out -> NoDup (foldl (fun acc s => addScope acc (f s)) out l).
Proof. revert out. induction l as [|s l IH]; intros out H; [done|]. cbn. by apply IH, addScope_nodup. Qed.

Definition qualified (s : string) : string := ResourceID +:+ "/" +:+ s.

Lemma scopesLoop_spec caps out : NoDup out ->
  match scopesLoop caps out with
  | inl _ => Exists (fun c => Grantable c = false) caps
  | inr l => Forall (fun c => Grantable c = true) caps /\ NoDup l /\
      forall q, q ∈ l <-> q ∈ out \/ exists c s, c ∈ caps /\ s ∈ capabilityScopes c /\ q = qualified s
  end.
Proof.
  revert out. induction caps as [|c caps IH]; intros out Hn; cbn [scopesLoop].
  { split_and!; [done..|]. intros q. split; [tauto|]. intros [H|(c & s & H & _)]; [done|by apply not_elem_of_nil in H]. }
  destruct (Grantable c) eqn:Ec; cbn [negb]; [|by constructor]. specialize (IH _ (addAll_nodup qualified (capabilityScopes c) out Hn)).
  change (fun acc s => addScope acc (ResourceID +:+ "/" +:+ s)) with (fun acc s => addScope acc (qualified s)).
  destruct (scopesLoop caps _) as [e|l]; [by apply Exists_cons_tl|]. destruct IH as (Hf & Hd & Hl). split_and!; [by constructor|done|].
  intros q. rewrite Hl, addAll_elem. split.
  - intros [[H|(s & Hs & ->)]|(c' & s & Hc & Hs & ->)]; [by left| |]; right; [exists c, s|exists c', s]; split_and!; try done; [left|by right].
  - intros [H|(c' & s & [->|Hc]%elem_of_cons & Hs & ->)]; [by left; left|left; right; by exists s|right; by exists c', s].
Qed.

Lemma sortStrings_nodup l : NoDup l -> NoDup (sortStrings l).
Proof. intros H. unfold sortStrings. by rewrite sortBy_perm. Qed.

Section Unicode.
Context {U : GoUnicode}.

(** Each capability asks for something, and never for a token that makes tokens. *)
Lemma grantable_scopes c : Grantable c = true -> capabilityScopes c <> [] /\ forall s, s ∈ capabilityScopes c -> IsTokenScope (qualified s) = false.
Proof.
  intros Hc. set (P := fun c => negb (bool_decide (capabilityScopes c = [])) && forallb (fun s => negb (IsTokenScope (qualified s))) (capabilityScopes c)).
  assert (HP : P c = true) by (apply every_grantable; [vm_compute; reflexivity|done]). apply andb_prop in HP as [H1%negb_true_iff%bool_decide_eq_false H2]. split; [done|].
  intros s Hs. rewrite forallb_forall in H2. apply negb_true_iff, H2. by apply list_elem_of_In.
Qed.

#[local] Opaque capabilityScopes grantableCapabilities.

(** The scopes asked for a set of capabilities are exactly theirs: asking fails,
    rather than giving fewer scopes, when a capability is not grantable; each scope is
    listed once; a capability always asks for something; and no set of capabilities
    asks for a scope that lets its holder make personal access tokens. *)
Theorem scopes_are_the_capabilities (caps : list Capability) :
  match ScopesFor caps with
  | inl _ => exists c, c ∈ caps /\ Grantable c = false
  | inr out =>
      (forall c, c ∈ caps -> Grantable c = true) /\ NoDup out /\ (caps <> [] -> out <> []) /\
      forall q, q ∈ out -> IsTokenScope q = false /\ exists c s, c ∈ caps /\ s ∈ capabilityScopes c /\ q = qualified s
  end /\
  forall out c s, ScopesFor caps = inr out -> c ∈ caps -> s ∈ capabilityScopes c -> qualified s ∈ out.
Proof.
  unfold ScopesFor. pose proof (scopesLoop_spec caps [] (NoDup_nil_2)) as H. destruct (scopesLoop caps []) as [e|l]; cbn in H.
  { split; [|done]. by apply Exists_exists in H. }
  destruct H as (Hf & Hd & Hl). rewrite Forall_forall in Hf. assert (Hin : forall c s, c ∈ caps -> s ∈ capabilityScopes c -> qualified s ∈ sortStrings l).
  { intros c s Hc Hs. apply elem_of_sortStrings, Hl. right. by exists c, s. }
  split; [|intros out c s [= <-]; apply Hin]. split_and!; [done|by apply sortStrings_nodup| |].
  - intros Hne. destruct caps as [|c caps]; [done|]. destruct (grantable_scopes c) as [H1 _]; [apply Hf; left|]. destruct (capabilityScopes c) as [|s t] eqn:Ec; [done|].
    intros E0. assert (Hx : qualified s ∈ sortStrings l) by (apply (Hin c); [left|rewrite Ec; left]). rewrite E0 in Hx. by apply not_elem_of_nil in Hx.
  - intros q Hq. rewrite elem_of_sortStrings in Hq. apply Hl in Hq as [Hq|(c & s & Hc & Hs & ->)]; [by apply not_elem_of_nil in Hq|]. split; [|by exists c, s].
    by apply (grantable_scopes c); [apply Hf|].
Qed.
End Unicode.
