(* ===== verification/AdoRoute.v ===== *)
(** * How an Azure DevOps request is read

    The first half of [classify.go] of [src/internal/adoscope]: the method the server
    will act on, the headers that may change it, and the path decoded, pinned to the
    organisation of the row and split where the API begins. *)
From S2P Require Import Prelude GoStrings GoPath Grants PolicyTypes CanonNumber GoJSON GHPath PolicyRef AdoNames GoRunes AdoCaps.
Local Open Scope string_scope.
Local Open Scope Z_scope.
Local Open Scope list_scope.

(** ** Errors *)

(** A refusal: [ErrNeedsBody], [ErrNoRef], or another error, by its text. *)
Inductive adoErr := ErrNeedsBody | ErrNoRef | Refused (why : string).
Definition tbind {A B} (m : adoErr + A) (k : A -> adoErr + B) : adoErr + B := match m with inl e => inl e | inr x => k x end.
Notation "x <-? m ; k" := (tbind m (fun x => k)) (at level 100, m at next level, right associativity) : wardyn_scope.
Local Open Scope wardyn_scope.

(** ** Requests *)

(** The header is the map of the source, its keys as they are spelled. *)
Record Request := mkRequest {
  Method : string; Host : string; Path : string; RawQuery : string; Header : list (string * list string);
  BodyPeek : string; Org : string; BodyWithheld : bool }.

Definition readMethods : list string := ["GET"; "HEAD"; "OPTIONS"].
Definition writeMethods : list string := ["POST"; "PUT"; "PATCH"; "DELETE"].
Definition knownMethod (m : string) : bool := memS m readMethods || memS m writeMethods.

Section Unicode.
Context {U : GoUnicode} {R : GoRunes}.

Definition headerValues (h : list (string * list string)) (name : string) : list string :=
  concat (map snd (List.filter (fun kv => EqualFold (fst kv) name) h)).

Definition effectiveMethod (method : string) (h : list (string * list string)) : adoErr + string :=
  let base := ToUpper (TrimSpace method) in
  if negb (knownMethod base) then inl (Refused "is not an HTTP method this catalogue classifies")
  else
    match headerValues h "X-HTTP-Method-Override" with
    | [] => inr base
    | _ :: _ :: _ => inl (Refused "which value the server acts on is not knowable")
    | [v] =>
        let over := ToUpper (TrimSpace v) in
        if String.eqb base "OPTIONS" then inl (Refused "discovery takes no override")
        else if negb (knownMethod over) then inl (Refused "the override is not an HTTP method")
        else if negb (String.eqb base "POST") then
          (if String.eqb over base || memS over readMethods then inr base else inl (Refused "the header raises only a POST"))
        else if negb (memS over writeMethods) then inl (Refused "an override may only raise")
        else inr over
    end.

(** ** Headers of the body ([body.go]) *)

Definition singleHeader (h : list (string * list string)) (name : string) : adoErr + string :=
  match headerValues h name with
  | [] => inr ""
  | [v] => inr (TrimSpace v)
  | _ => inl (Refused "the body's shape is not knowable")
  end.

(** The declared length, if there is one. *)
Definition declaredLength (h : list (string * list string)) : adoErr + option Z :=
  raw <-? singleHeader h "Content-Length";
  if String.eqb raw "" then inr None
  else match Atoi raw with
       | Some n => if n <? 0 then inl (Refused "is not a length") else inr (Some n)
       | None => inl (Refused "is not a length")
       end.

Definition optionsCarriesNoBody (req : Request) : adoErr + unit :=
  if BodyWithheld req then inl ErrNeedsBody
  else if negb (String.eqb (BodyPeek req) "") then inl (Refused "an OPTIONS request carries a body")
  else
    n <-? declaredLength (Header req);
    if match n with Some n => 0 <? n | None => false end then inl (Refused "an OPTIONS request declares a body")
    else match headerValues (Header req) "Transfer-Encoding" with
         | [] => inr tt
         | _ => inl (Refused "an OPTIONS request declares a streamed body")
         end.

(** ** Routes *)

(** [apis] is the index of the API's boundary, if the path has one. *)
Record route := mkRoute { rHost : string; rSegs : list string; rFolded : list string; rApis : option nat; rArea : string; rRes : string }.

Fixpoint indexS (s : string) (l : list string) : option nat :=
  match l with [] => None | x :: l => if String.eqb x s then Some 0%nat else S <$> indexS s l end.

Definition atOf (segs : list string) (apis : option nat) (n : nat) : string :=
  match apis with None => "" | Some i => default "" (segs !! (i + n)%nat) end.
Definition at_ (r : route) (n : nat) : string := atOf (rFolded r) (rApis r) n.
Definition id_ (r : route) (n : nat) : string := atOf (rSegs r) (rApis r) n.

Definition foldSegment (s : string) : string :=
  mapRunes (fun r => if r <? 128 then lowerASCII r else if r =? longS then 115 else if r =? kelvin then 107 else lowerRune r) s.

Definition cutSeparator (s : string) (front : bool) : option string :=
  if front then match s with String c r => if isPathSeparator c then Some r else None | "" => None end
  else match CutSuffix s "/" with Some r => Some r | None => CutSuffix s "\" end.

(** The text between separators. *)
Fixpoint splitSep (s : string) : list string :=
  match s with
  | "" => [""]
  | String c r =>
      if isPathSeparator c then "" :: splitSep r
      else match splitSep r with h :: t => String c h :: t | [] => [String c ""] end
  end.

Fixpoint decodeAll (parts : list string) : adoErr + list string :=
  match parts with
  | [] => inr []
  | part :: rest =>
      if String.eqb part "" then inl (Refused "has an empty segment")
      else match UnescapeName part with
           | inl e => inl (Refused e)
           | inr seg => l <-? decodeAll rest; inr (ToLower seg :: l)
           end
  end.

Definition decodeSegments (rawPath : string) : adoErr + list string :=
  let rest := default rawPath (cutSeparator rawPath true) in
  if String.eqb rest "" then inr []
  else
    let rest' := default rest (cutSeparator rest false) in
    if String.eqb rest' "" then inl (Refused "has an empty segment") else decodeAll (splitSep rest').

Definition pinOrg (host : string) (segs : list string) (org : string) : adoErr + list string :=
  let want := ToLower (TrimSpace org) in
  if HasSuffix host ".visualstudio.com" then
    if negb (String.eqb (beforeFirst "." host) want) then inl (Refused "the host names another organisation") else inr segs
  else match segs with
       | [] => inl (Refused "the path names no organisation")
       | s :: rest => if negb (String.eqb s want) then inl (Refused "the path names another organisation") else inr rest
       end.

Definition splitAtAPIs (host : string) (segs : list string) : route :=
  let folded := map foldSegment segs in
  let apis := indexS "_apis" folded in
  mkRoute host segs folded apis (atOf folded apis 1) (atOf folded apis 2).

Definition parseRoute (host rawPath org : string) : adoErr + route :=
  let h := ToLower (TrimSuffixDot (TrimSpace host)) in
  if negb (azureDevOpsHost h) then inl (Refused "is not an Azure DevOps host")
  else if String.eqb (TrimSpace org) "" then inl (Refused "no organisation pinned")
  else
    segs <-? decodeSegments rawPath;
    if memS "_git" segs then inl (Refused "is a git-over-HTTP endpoint")
    else segs <-? pinOrg h segs org; inr (splitAtAPIs h segs).

(** ** Areas *)

Definition deniedAreas : list (string * Capability) :=
  [("tokens", CapDeniedTokens); ("token", CapDeniedTokens); ("tokenadmin", CapDeniedTokens); ("tokenadministration", CapDeniedTokens);
   ("accesstokens", CapDeniedTokens); ("delegatedauth", CapDeniedTokens); ("webplatformauth", CapDeniedTokens);
   ("hooks", CapDeniedServiceHooks); ("servicehooks", CapDeniedServiceHooks);
   ("extensionmanagement", CapDeniedExtensions); ("gallery", CapDeniedExtensions); ("contribution", CapDeniedInternal)].

Definition locationDiscovery (r : route) : Verdict :=
  if match rApis r with Some i => Nat.leb i 1 | None => false end && String.eqb (at_ r 2) "" then onlyCap CapDiscovery else onlyCap CapUnclassifiedRead.

Definition packageProtocols : list string := ["npm"; "nuget"; "pypi"; "maven"; "upack"].

Definition packagePublish (r : route) : bool :=
  match rApis r with
  | Some _ => false
  | None =>
      if negb (String.eqb (rHost r) "pkgs.dev.azure.com") && negb (HasSuffix (rHost r) ".pkgs.visualstudio.com") then false
      else match indexS "_packaging" (rFolded r) with
           | Some i => Nat.leb i 1 && match rFolded r !! (i + 2)%nat with Some p => memS p packageProtocols | None => false end
           | None => false
           end
  end.

Definition readAreaOf (r : route) : option readArea :=
  if packagePublish r then assoc readAreas "packaging"
  else match assoc readAreas (rArea r +:+ "/" +:+ rRes r) with Some a => Some a | None => assoc readAreas (rArea r) end.

Definition gitQueryResources : list string := ["pullrequestquery"; "commitsbatch"; "itemsbatch"; "blobs"].

Definition readWrite (method : string) (r : route) : bool :=
  if negb (String.eqb method "POST") then false
  else if String.eqb (rArea r) "wit" then
    String.eqb (rRes r) "wiql" || String.eqb (rRes r) "workitemsbatch" || (String.eqb (rRes r) "reporting" && String.eqb (at_ r 3) "workitemrevisions")
  else if String.eqb (rArea r) "git" then String.eqb (rRes r) "repositories" && memS (at_ r 4) gitQueryResources
  else if String.eqb (rArea r) "graph" then String.eqb (rRes r) "subjectquery" || String.eqb (rRes r) "subjectlookup"
  else if String.eqb (rArea r) "search" then HasPrefix (rHost r) "almsearch." || HasSuffix (rHost r) ".almsearch.visualstudio.com"
  else false.
End Unicode.
