(* ===== verification/AdoBody.v ===== *)
(** * What an Azure DevOps body asks for

    [body.go] of [src/internal/adoscope]: the bytes the classifier may trust, the body
    decoded with every repeated key refused, the refs a write names, and the widest
    operation of a batch. [ParseQuery] and the relative half of [url.Parse] are
    [net/url]'s. *)
From S2P Require Import Prelude GoStrings GoPath GoSlices Grants PushRules PushForge PolicyTypes CanonNumber GoJSON GHPath ApprovalScope PolicyRef AdoNames GoRunes AdoCaps AdoRoute.
Local Open Scope string_scope.
Local Open Scope Z_scope.
Local Open Scope list_scope.
Local Open Scope wardyn_scope.

Definition MaxBodyPeek : Z := Z.shiftl 256 10.
Definition maxJSONDepth : Z := 64.

(** ** Reading a value into a Go type *)

(** A struct takes the members of an object; [null] leaves it at its zero. *)
Definition structOf (v : json) : option (list (string * json)) := match v with JObj m => Some m | JNull => Some [] | _ => None end.

(** A field, or [None] where a member that names it has another type. *)
Definition fieldIn {A} (read : json -> decoded A) (zero : A) (name : string) (m : list (string * json)) : option A :=
  if fieldFails read name m then None else Some (fieldOf read zero name m).

Definition ofOption {A} (o : option A) : decoded A := match o with Some a => Set_ a | None => Mismatch end.

(** A slice, whose elements are read one by one; [null] is the nil slice. *)
Definition sliceOf {A} (read : json -> option A) (v : json) : option (list A) :=
  match v with JArr l => mapM read l | JNull => Some [] | _ => None end.

(** A pointer: [null] is nil. *)
Definition ptrOf {A} (read : json -> option A) (v : json) : decoded (option A) :=
  match v with JNull => Set_ None | _ => ofOption (Some <$> read v) end.

Definition readString (v : json) : option string := match v with JStr s => Some s | _ => None end.
Definition readBool (v : json) : option bool := match v with JBool b => Some b | _ => None end.

(** The keys of a [map[string]string]; a [null] value is the empty text. *)
Definition stringMapKeys (v : json) : option (list string) :=
  match v with
  | JObj m => if forallb (fun kv => match snd kv with JStr _ | JNull => true | _ => false end) m then Some (map fst m) else None
  | JNull => Some []
  | _ => None
  end.

(** ** A value decoded into [any] *)

(** The digits of a number, as an integer and the power of ten it is scaled by. *)
Definition scaled (n : string) : option (Z * Z) :=
  let body := if HasPrefix n "-" then strDrop 1 n else n in
  let '(mant, e) := match cutByte "e" body with Some p => p | None => match cutByte "E" body with Some p => p | None => (body, "0") end end in
  let '(whole, frac) := match cutByte "." mant with Some p => p | None => (mant, "") end in
  let '(neg, e) := match e with String c r => if Ascii.eqb c "-" then (true, r) else if Ascii.eqb c "+" then (false, r) else (false, e) | "" => (false, e) end in
  match digits_val 0 (whole +:+ frac), digits_val 0 e with
  | Some d, Some e => Some (d, (if neg then - e else e) - Z.of_nat (String.length frac))
  | _, _ => None
  end.

(** Below this a decimal rounds to a finite 64-bit float. *)
Definition maxFloat64 : Z := 2 ^ 1024 - 2 ^ 970.

(** [strconv.ParseFloat] does not overflow. A number of [k] digits is below [10^k],
    and [maxFloat64] below [10^309]. *)
Definition floatFits (n : string) : bool :=
  match scaled n with
  | None => false
  | Some (d, q) =>
      if d =? 0 then true
      else if q >? 309 then false
      else if q <? - Z.of_nat (String.length n) then true
      else if 0 <=? q then d * 10 ^ q <? maxFloat64
      else d <? maxFloat64 * 10 ^ (- q)
  end.

Fixpoint anyFits (v : json) : bool :=
  match v with
  | JNum n => floatFits n
  | JArr l => forallb anyFits l
  | JObj m => forallb (fun kv => anyFits (snd kv)) m
  | _ => true
  end.

(** ** Structs of the source *)

Definition refUpdate (v : json) : option string := m ← structOf v; fieldIn asString "" "name" m.

Record batchOp := mkBatchOp { boMethod : string; boURI : string; boHeaders : list string }.
Definition readBatchOp (v : json) : option batchOp :=
  m ← structOf v; me ← fieldIn asString "" "method" m; u ← fieldIn asString "" "uri" m;
  h ← fieldIn (fun v => ofOption (stringMapKeys v)) [] "headers" m; Some (mkBatchOp me u h).

(** ** Text of a request *)

(** [url.ParseQuery], its pairs in order: [None] on any error. *)
Definition defaultMaxParams : nat := 10000.
Definition QueryUnescape (s : string) : option string := strictDecode (str_map (fun c => if Ascii.eqb c "+" then " "%char else c) s).

Fixpoint queryPairs (pieces : list string) : option (list (string * string)) :=
  match pieces with
  | [] => Some []
  | p :: rest =>
      if str_has ";" p then None
      else if String.eqb p "" then queryPairs rest
      else
        let '(k, v) := match cutByte "=" p with Some kv => kv | None => (p, "") end in
        k ← QueryUnescape k; v ← QueryUnescape v; l ← queryPairs rest; Some ((k, v) :: l)
  end.
Definition ParseQuery (query : string) : option (list (string * string)) :=
  let pieces := splitByte "&" query in if Nat.ltb defaultMaxParams (length pieces) then None else queryPairs pieces.

(** [url.Parse]: no scheme at the head of a URI, and no error in looking for one. *)
Fixpoint noScheme (first : bool) (s : string) : bool :=
  match s with
  | "" => true
  | String c r =>
      if is_lower c || is_upper c then noScheme false r
      else if is_digit c || str_has c "+-." then first || noScheme false r
      else negb (Ascii.eqb c ":")
  end.

Definition ctlByte (c : ascii) : bool := (byte_of c <? 32) || (byte_of c =? 127).
Definition userinfoByte (c : ascii) : bool := is_lower c || is_upper c || is_digit c || str_has c "-._:~!$&'()*+,;=%@".
Definition decodes (s : string) : bool := match strictDecode s with Some _ => true | None => false end.

(** An authority that is read and whose host is empty. *)
Definition emptyHost (authority : string) : bool :=
  match cutLastByte "@" authority with
  | None => String.eqb authority ""
  | Some (user, host) =>
      String.eqb host "" && str_forall userinfoByte user &&
      (let '(name, password) := match cutByte ":" user with Some p => p | None => (user, "") end in decodes name && decodes password)
  end.

(** The decoded path of a URI that is read and has no scheme, no host and no opaque part. *)
Definition relativePath (uri : string) : option string :=
  let '(u, frag) := match cutByte "#" uri with Some p => p | None => (uri, "") end in
  if negb (decodes frag) || negb (str_forall (fun c => negb (ctlByte c)) u) then None
  else if String.eqb u "*" then Some "*"
  else if negb (noScheme true u) then None
  else
    let rest := beforeFirst "?" u in
    if negb (HasPrefix rest "/") && str_has ":" (beforeFirst "/" rest) then None
    else if HasPrefix rest "//" && negb (HasPrefix rest "///") then
      let '(authority, path) := spanAny "/" (strDrop 2 rest) in
      if emptyHost authority then strictDecode path else None
    else strictDecode rest.

(** ** Ref names *)

(** [CheckRefName] is the one rule of both doors ([PushForge]). *)
Definition checkRef (ref : string) : adoErr + unit := if CheckRefName ref then inr tt else inl (Refused "refusing malformed refname").

Definition oneRef (ref : string) : adoErr + Verdict := _ <-? checkRef ref; inr (mkVerdict CapCodeWrite [ref]).

(** ** Packages *)

Definition packageBatch (r : route) : bool :=
  if negb (String.eqb (rArea r) "packaging") || negb (String.eqb (rRes r) "feeds") || negb (memS (at_ r 4) packageProtocols) then false
  else if String.eqb (at_ r 5) "recyclebin" then String.eqb (at_ r 6) "packagesbatch" && String.eqb (at_ r 7) ""
  else String.eqb (at_ r 5) "packagesbatch" && String.eqb (at_ r 6) "".

Definition packageBatchOps : list (string * Capability) :=
  [("promote", CapPackagingWrite); ("list", CapPackagingWrite); ("deprecate", CapPackagingWrite); ("delete", CapPackagingManage);
   ("permanentdelete", CapPackagingManage); ("unpublish", CapPackagingManage); ("restoretofeed", CapPackagingManage)].

Definition witAdminResources : list string := ["workitemsdelete"; "recyclebin"; "classificationnodes"; "fields"; "tags"].

Section Unicode.
Context {U : GoUnicode} {R : GoRunes}.

(** ** The body *)

Definition peekBody (req : Request) : adoErr + string :=
  if BodyWithheld req then inl ErrNeedsBody
  else
    enc <-? singleHeader (Header req) "Content-Encoding";
    if negb (String.eqb enc "") && negb (EqualFold enc "identity") then inl (Refused "hides the body from the peek")
    else
      let len := Z.of_nat (String.length (BodyPeek req)) in
      if len >? MaxBodyPeek then inl (Refused "the body peek is over its bound")
      else
        declared <-? declaredLength (Header req);
        match declared with
        | Some n => if n >? len then inl (Refused "the body is longer than the peek") else inr (BodyPeek req)
        | None => if len =? MaxBodyPeek then inl (Refused "it may continue") else inr (BodyPeek req)
        end.

(** [encoding/json]'s fold of a key. *)
Definition foldKey (name : string) : string := mapRunes leastFold name.

Fixpoint distinctKeys (seen : list string) (m : list (string * json)) : bool :=
  match m with
  | [] => true
  | (k, _) :: m => negb (memS (foldKey k) seen) && distinctKeys (foldKey k :: seen) m
  end.

(** [walkUnique] over the value its tokens spell: no object repeats a key, and the
    value nests no deeper than the bound. *)
Fixpoint walkUnique (depth : Z) (v : json) : bool :=
  (depth <=? maxJSONDepth) &&
  match v with
  | JObj m => distinctKeys [] m && forallb (fun kv => walkUnique (depth + 1) (snd kv)) m
  | JArr l => forallb (walkUnique (depth + 1)) l
  | _ => true
  end.

Definition decodeUnique {A} (read : json -> option A) (body : string) : adoErr + A :=
  match decode body with
  | None => inl (Refused "body is not decodable JSON")
  | Some v =>
      if negb (walkUnique 0 v) then inl (Refused "body repeats a key or nests too deep")
      else match read v with Some a => inr a | None => inl (Refused "body is not the JSON this route takes") end
  end.

(** ** Refs *)

Fixpoint checkedNames (updates : list string) : adoErr + list string :=
  match updates with
  | [] => inr []
  | u :: rest =>
      let name := TrimSpace u in
      if String.eqb name "" then checkedNames rest
      else _ <-? checkRef name; l <-? checkedNames rest; inr (name :: l)
  end.

Definition refNames (body : string) : adoErr + list string :=
  match TrimSpace body with
  | "" => inl ErrNoRef
  | String c _ =>
      updates <-? (if Ascii.eqb c "[" then decodeUnique (sliceOf refUpdate) body
                   else decodeUnique (fun v => m ← structOf v; fieldIn (fun v => ofOption (sliceOf refUpdate v)) [] "refUpdates" m) body);
      out <-? checkedNames updates;
      match out with [] => inl ErrNoRef | _ => inr out end
  end.

Definition refWrite (req : Request) : adoErr + Verdict :=
  body <-? peekBody req; refs <-? refNames body; inr (mkVerdict CapCodeWrite refs).

Definition filterRefWrite (req : Request) : adoErr + Verdict :=
  match ParseQuery (RawQuery req) with
  | None => inl ErrNoRef
  | Some q =>
      match List.filter (fun kv => EqualFold (TrimSpace (fst kv)) "filter") q with
      | [(_, f)] => if String.eqb (TrimSpace f) "" then inl ErrNoRef else oneRef ("refs/" +:+ f)
      | _ => inl ErrNoRef
      end
  end.

(** The one ref a body names in [field]. *)
Definition namedRef (field prefix : string) (req : Request) : adoErr + Verdict :=
  body <-? peekBody req;
  if String.eqb (TrimSpace body) "" then inl ErrNoRef
  else
    name <-? decodeUnique (fun v => m ← structOf v; fieldIn asString "" field m) body;
    if String.eqb (TrimSpace name) "" then inl ErrNoRef else oneRef (prefix +:+ name).

Definition annotatedTagWrite (req : Request) : adoErr + Verdict := namedRef "name" "refs/tags/" req.
Definition generatedRefWrite (req : Request) : adoErr + Verdict := namedRef "generatedRefName" "" req.

(** ** Pull requests *)

(** Whether the body asks to complete a pull request through the branch policy. *)
Definition bypassAsked (v : json) : option bool :=
  m ← structOf v;
  options ← fieldIn (ptrOf (fun v => m ← structOf v; fieldIn (ptrOf readBool) None "bypassPolicy" m)) None "completionOptions" m;
  Some (match options with Some (Some true) => true | _ => false end).

Definition pullRequestWrite (method : string) (req : Request) (sub : string) : adoErr + Verdict :=
  if String.eqb method "DELETE" then inr (onlyCap CapPR)
  else
    body <-? peekBody req;
    if String.eqb body "" then inr (onlyCap CapPR)
    else match decodeUnique bypassAsked body with
         | inl e => if negb (String.eqb sub "") then inr (onlyCap CapPR) else inl e
         | inr bypass => inr (onlyCap (if bypass then CapPolicyBypass else CapPR))
         end.

(** ** Batches *)

Definition packageBatchWrite (req : Request) : adoErr + Verdict :=
  body <-? peekBody req;
  operation <-? decodeUnique (fun v => m ← structOf v; fieldIn (ptrOf readString) None "operation" m) body;
  match operation with
  | None => inl (Refused "package batch names no operation")
  | Some op => match assoc packageBatchOps (ToLower op) with
               | Some c => inr (onlyCap c)
               | None => inl (Refused "is not one this catalogue classifies")
               end
  end.

(** The work-item resource a batched operation names. *)
Definition batchOpIsWorkItem (uri org : string) : adoErr + string :=
  match relativePath (TrimSpace uri) with
  | None => inl (Refused "an operation URI is relative to the organisation, never absolute")
  | Some path =>
      segs <-? decodeSegments path;
      segs <-? match segs with
               | s :: rest =>
                   if String.eqb s "_apis" then inr segs
                   else if negb (EqualFold s (TrimSpace org)) then inl (Refused "names another organisation") else inr rest
               | [] => inr []
               end;
      match indexS "_apis" segs with
      | Some i =>
          if Nat.leb i 1 && match segs !! (i + 1)%nat with Some s => String.eqb s "wit" | None => false end
          then inr (match segs !! (i + 2)%nat with Some s => foldSegment s | None => "" end)
          else inl (Refused "is not a work-item URL")
      | None => inl (Refused "is not a work-item URL")
      end
  end.

Fixpoint batchOps (org : string) (out : Capability) (ops : list batchOp) : adoErr + Capability :=
  match ops with
  | [] => inr out
  | op :: rest =>
      res <-? batchOpIsWorkItem (boURI op) org;
      let method := ToUpper (TrimSpace (boMethod op)) in
      if negb (knownMethod method) then inl (Refused "the method is not one this catalogue classifies")
      else if existsb (fun k => EqualFold (TrimSpace k) "X-HTTP-Method-Override") (boHeaders op) then inl (Refused "carries a method override")
      else batchOps org (if String.eqb method "DELETE" || memS res witAdminResources then CapWorkAdmin else out) rest
  end.

Definition batchCapability (req : Request) : adoErr + Capability :=
  body <-? peekBody req;
  ops <-? decodeUnique (sliceOf readBatchOp) body;
  match ops with
  | [] => inl (Refused "a batch naming no operation cannot be classified")
  | _ => batchOps (Org req) CapWorkWrite ops
  end.
End Unicode.
