(* ===== verification/AdoScope.v ===== *)
(** * The Azure DevOps classifier

    The second half of [classify.go] of [src/internal/adoscope]: one request to one
    capability, or a refusal; and what the gate holds of it. *)
From S2P Require Import Prelude GoStrings GoPath GoSlices Grants PushRules PushForge PolicyTypes CanonNumber GoJSON GHPath ApprovalScope PolicyRef AdoNames GoRunes AdoCaps AdoRoute AdoBody.
Local Open Scope string_scope.
Local Open Scope Z_scope.
Local Open Scope list_scope.
Local Open Scope wardyn_scope.

(** ** Writes, by area *)

Definition witWriteCapability (method res sub : string) : Capability :=
  if memS res witAdminResources || (String.eqb method "DELETE" && String.eqb res "workitems" && String.eqb sub "") then CapWorkAdmin else CapWorkWrite.

Definition packagingWrite (method : string) (r : route) : Capability :=
  if String.eqb method "DELETE" then CapPackagingManage
  else if String.eqb (rArea r) "packaging" then
    if memS (rRes r) ["feedrecyclebin"; "globalpermissions"] then CapPackagingManage
    else if String.eqb (rRes r) "feeds" && (String.eqb (at_ r 3) "" || negb (memS (at_ r 4) packageProtocols) || String.eqb (at_ r 5) "recyclebin")
    then CapPackagingManage
    else CapPackagingWrite
  else CapPackagingWrite.

Definition gitCodeWriteResources : list string := ["items"; "commits"; "merges"; "suggestions"].
Definition gitGeneratedRefResources : list string := ["cherrypicks"; "reverts"].

Definition buildWrite (r : route) : Capability := if String.eqb (rRes r) "builds" then CapBuildExecute else CapBuildAdmin.
Definition pipelinesWrite (r : route) : Capability := if memS (at_ r 3) ["runs"; "preview"] then CapBuildExecute else CapBuildAdmin.
Definition releaseWrite (r : route) : Capability := if memS (rRes r) ["releases"; "deployments"] then CapReleaseExecute else CapReleaseAdmin.

Definition securityAreas : list string :=
  ["accesscontrollists"; "accesscontrolentries"; "securitynamespaces"; "securityroles"; "permissions"; "identities"; "graph"].

Section Unicode.
Context {U : GoUnicode} {R : GoRunes}.

Definition witWrite (method : string) (r : route) (req : Request) : adoErr + Verdict :=
  if String.eqb (rRes r) "$batch" then c <-? batchCapability req; inr (onlyCap c)
  else inr (onlyCap (witWriteCapability method (rRes r) (at_ r 4))).

Definition gitRepositoryWrite (method : string) (r : route) (req : Request) : adoErr + Verdict :=
  let res := at_ r 4 in
  if memS res [""; "importrequests"] then inr (onlyCap CapRepoAdmin)
  else if String.eqb res "refs" then (if negb (String.eqb method "POST") then filterRefWrite req else refWrite req)
  else if String.eqb res "pushes" then refWrite req
  else if String.eqb res "annotatedtags" then annotatedTagWrite req
  else if String.eqb res "forksyncrequests" then inr (onlyCap CapUnclassifiedWrite)
  else if String.eqb res "pullrequests" then pullRequestWrite method req (at_ r 6)
  else if String.eqb res "policyconfigurations" then inr (onlyCap CapPolicyAdmin)
  else if String.eqb res "permissions" then inr (onlyCap CapSecurityAdmin)
  else if memS res gitGeneratedRefResources then generatedRefWrite req
  else if memS res gitCodeWriteResources then inr (onlyCap CapCodeWrite)
  else inr (onlyCap CapUnclassifiedWrite).

Definition gitWrite (method : string) (r : route) (req : Request) : adoErr + Verdict :=
  if String.eqb (rRes r) "repositories" then gitRepositoryWrite method r req
  else if String.eqb (rRes r) "pullrequests" then pullRequestWrite method req (at_ r 4)
  else if memS (rRes r) ["policy"; "policyconfigurations"] then inr (onlyCap CapPolicyAdmin)
  else inr (onlyCap CapUnclassifiedWrite).

Definition classifyWrite (method : string) (r : route) (req : Request) : adoErr + Verdict :=
  if packagePublish r then inr (onlyCap (packagingWrite method r))
  else
    let area := rArea r in
    if String.eqb area "wit" then witWrite method r req
    else if String.eqb area "git" then gitWrite method r req
    else if String.eqb area "policy" then inr (onlyCap CapPolicyAdmin)
    else if memS area securityAreas then inr (onlyCap CapSecurityAdmin)
    else if String.eqb area "serviceendpoint" then inr (onlyCap CapServiceEndpointAdmin)
    else if String.eqb area "build" then inr (onlyCap (buildWrite r))
    else if String.eqb area "pipelines" then inr (onlyCap (pipelinesWrite r))
    else if String.eqb area "release" then inr (onlyCap (releaseWrite r))
    else if String.eqb area "wiki" then inr (onlyCap CapWikiWrite)
    else if memS area ["packaging"; "packages"] then
      (if negb (String.eqb method "DELETE") && packageBatch r then packageBatchWrite req else inr (onlyCap (packagingWrite method r)))
    else if memS area ["projects"; "projectcollections"] then inr (onlyCap CapProjectAdmin)
    else inr (onlyCap CapUnclassifiedWrite).

(** ** The classifier *)

Definition Classify (req : Request) : adoErr + Verdict :=
  method <-? effectiveMethod (Method req) (Header req);
  _ <-? (if String.eqb method "OPTIONS" then optionsCarriesNoBody req else inr tt);
  r <-? parseRoute (Host req) (Path req) (Org req);
  match assoc deniedAreas (rArea r) with
  | Some c => inr (onlyCap c)
  | None =>
      if String.eqb method "OPTIONS" then inr (locationDiscovery r)
      else if memS method readMethods || readWrite method r then
        inr (onlyCap (match readAreaOf r with Some a => raCap a | None => CapUnclassifiedRead end))
      else classifyWrite method r req
  end.
End Unicode.
