(* ===== verification/AdoSound.v ===== *)
(** * What the Azure DevOps gate holds

    A permitted request is on the row's organisation and outside the denied areas; a
    run that may only read cannot change anything, whatever its headers say; a ref is
    never moved unless it was named and checked; and a verdict given before the body
    was read stands whatever the body is. *)
From S2P Require Import Prelude GoStrings GoPath GoSlices Grants PushRules PushForge PolicyTypes CanonNumber GoJSON GHPath ApprovalScope PolicyRef AdoNames GoRunes AdoCaps AdoRoute AdoBody AdoScope.
Local Open Scope string_scope.
Local Open Scope Z_scope.
Local Open Scope list_scope.
Local Open Scope wardyn_scope.

(** The capabilities that only read. *)
Definition adoReadCaps : list Capability :=
  [CapCodeRead; CapWorkRead; CapWikiRead; CapBuildRead; CapReleaseRead; CapServiceEndpointRead; CapLibraryRead; CapPackagingRead; CapTestRead; CapProjectRead; CapIdentityRead].
Definition adoReadCap (c : Capability) : bool := memS c adoReadCaps || String.eqb c CapDiscovery.

(** Split every conditional of a classification. *)
Ltac split_areas := repeat match goal with |- context [if ?b then _ else _] => destruct b eqn:? end.

(** One step of the error monad, when it answered. *)
Tactic Notation "step_ok" hyp(H) ident(x) ident(E) := match type of H with tbind ?m _ = inr _ => destruct m as [?|x] eqn:E; [discriminate H|]; cbn [tbind] in H end.

Lemma packaging_write m r : adoReadCap (packagingWrite m r) = false /\ packagingWrite m r <> CapCodeWrite.
Proof. unfold packagingWrite. split_areas; split; [reflexivity|discriminate|reflexivity|discriminate|reflexivity|discriminate|reflexivity|discriminate|reflexivity|discriminate]. Qed.

Lemma denied_table k c : (k, c) ∈ deniedAreas -> Denied c = true.
Proof. unfold deniedAreas. intros H. repeat (apply elem_of_cons in H as [[= -> ->]|H]; [reflexivity|]). by apply not_elem_of_nil in H. Qed.

Lemma denied_refused c : Denied c = true -> Grantable c = false /\ String.eqb c CapDiscovery = false.
Proof. intros H%memS_true. repeat (apply elem_of_cons in H as [->|H]; [by split|]). by apply not_elem_of_nil in H. Qed.

Lemma batch_table k c : (k, c) ∈ packageBatchOps -> c = CapPackagingWrite \/ c = CapPackagingManage.
Proof. unfold packageBatchOps. intros H. repeat (apply elem_of_cons in H as [[= -> ->]|H]; [auto|]). by apply not_elem_of_nil in H. Qed.

Section Unicode.
Context {U : GoUnicode} {R : GoRunes}.

(** ** Where a request goes *)

(** The organisation a request is on, as the route reads it. *)
Definition onOrg (host path org : string) : Prop :=
  let h := ToLower (TrimSuffixDot (TrimSpace host)) in
  azureDevOpsHost h = true /\
  if HasSuffix h ".visualstudio.com" then beforeFirst "." h = ToLower (TrimSpace org)
  else exists rest, decodeSegments path = inr (ToLower (TrimSpace org) :: rest).

Lemma parseRoute_org host path org r : parseRoute host path org = inr r -> onOrg host path org.
Proof.
  unfold parseRoute, onOrg. destruct (azureDevOpsHost _) eqn:Eh; [|done]. cbn [negb]. destruct (String.eqb (TrimSpace org) ""); [done|]. intros H. split; [done|].
  step_ok H segs Es. destruct (memS "_git" segs); [done|]. unfold pinOrg in H. destruct (HasSuffix _ ".visualstudio.com").
  - destruct (String.eqb_spec (beforeFirst "." (ToLower (TrimSuffixDot (TrimSpace host)))) (ToLower (TrimSpace org))); done.
  - destruct segs as [|s rest]; [done|]. destruct (String.eqb_spec s (ToLower (TrimSpace org))) as [->|]; [|done]. by exists rest.
Qed.

Lemma adoClassify_inv req v : Classify req = inr v -> exists m r,
  effectiveMethod (Method req) (Header req) = inr m /\ parseRoute (Host req) (Path req) (Org req) = inr r /\
  match assoc deniedAreas (rArea r) with
  | Some c => v = onlyCap c
  | None =>
      (m = "OPTIONS" /\ v = locationDiscovery r) \/
      (m <> "OPTIONS" /\ (memS m readMethods || readWrite m r = true) /\ v = onlyCap (match readAreaOf r with Some a => raCap a | None => CapUnclassifiedRead end)) \/
      (memS m readMethods = false /\ readWrite m r = false /\ classifyWrite m r req = inr v)
  end.
Proof.
  unfold Classify. intros H. step_ok H m Em. step_ok H x Ex. step_ok H r Er. exists m, r. split; [done|]. split; [done|].
  destruct (assoc deniedAreas (rArea r)) as [c|]; [by injection H|]. destruct (String.eqb_spec m "OPTIONS") as [->|Hm]; [injection H as <-; by left|].
  destruct (memS m readMethods || readWrite m r) eqn:Eread; right; [left; injection H as <-; done|right]. apply orb_false_elim in Eread as [? ?]. done.
Qed.

Lemma adoPermits_inv granted v : Permits granted v = true ->
  (vCapability v = CapDiscovery /\ exists c, c ∈ granted /\ Grantable c = true) \/ (Grantable (vCapability v) = true /\ vCapability v ∈ granted).
Proof.
  unfold Permits. destruct (String.eqb_spec (vCapability v) CapDiscovery).
  - intros (c & Hc & Hg)%existsb_exists. left. split; [done|]. exists c. split; [by apply list_elem_of_In|done].
  - intros [Hg Hm]%andb_prop. right. split; [done|by apply memS_true].
Qed.

(** C26: a request the Azure DevOps gate permits is to an Azure DevOps host, names the
    organisation the row pins, is outside the areas that make tokens, forward events,
    install extensions or drive the internal API, whatever its method, and needs a
    capability the run was granted; discovery alone needs none, and is for runs that
    hold some. *)
Theorem permitted_stays_on_the_row (granted : list Capability) (req : Request) (v : Verdict)
    (Hc : Classify req = inr v) (Hp : Permits granted v = true) :
  onOrg (Host req) (Path req) (Org req) /\
  (exists r, parseRoute (Host req) (Path req) (Org req) = inr r /\ forall c, (rArea r, c) ∉ deniedAreas) /\
  ((Grantable (vCapability v) = true /\ vCapability v ∈ granted) \/ (vCapability v = CapDiscovery /\ exists c, c ∈ granted /\ Grantable c = true)).
Proof.
  destruct (adoClassify_inv _ _ Hc) as (m & r & Em & Er & H). split; [by eapply parseRoute_org|]. apply adoPermits_inv in Hp. split; [|tauto].
  exists r. split; [done|]. destruct (assoc deniedAreas (rArea r)) as [c|] eqn:Ea.
  - exfalso. subst v. apply assoc_elem, denied_table, denied_refused in Ea as [H1 H2]. cbn [vCapability onlyCap] in Hp. destruct Hp as [[E _]|[E _]]; [by rewrite E in H2|congruence].
  - intros c Hin. unfold assoc in Ea. destruct (findFirst _ deniedAreas) eqn:Ef; [done|]. pose proof (proj1 (findFirst_None _ _) Ef _ Hin) as Hne. cbn in Hne. by rewrite String.eqb_refl in Hne.
Qed.

(** ** Reads and writes *)

Lemma checkedNames_ok l out : checkedNames l = inr out -> Forall (fun n => CheckRefName n = true) out.
Proof.
  revert out. induction l as [|u l IH]; intros out; cbn [checkedNames]; [by intros [= <-]|]. destruct (String.eqb (TrimSpace u) ""); [apply IH|].
  unfold checkRef. destruct (CheckRefName (TrimSpace u)) eqn:E; [|done]. cbn [tbind]. destruct (checkedNames l) as [e|t]; [done|]. intros [= <-]. constructor; [done|by apply IH].
Qed.

(** A verdict on refs: the code is written, and the refs are named and well-formed. *)
Definition namesRefs (v : Verdict) : Prop := vCapability v = CapCodeWrite /\ vRefs v <> [] /\ Forall (fun n => CheckRefName n = true) (vRefs v).

Lemma refNames_ok body out : refNames body = inr out -> out <> [] /\ Forall (fun n => CheckRefName n = true) out.
Proof.
  unfold refNames. destruct (TrimSpace body) as [|c s]; [done|]. intros H. step_ok H updates Eu. step_ok H nl En. destruct nl as [|n t]; [done|].
  injection H as <-. split; [done|]. by eapply checkedNames_ok.
Qed.

Lemma refWrite_ok req v : refWrite req = inr v -> namesRefs v.
Proof. unfold refWrite. intros H. step_ok H body Eb. step_ok H refs Er. injection H as <-. split; [done|]. by apply (refNames_ok body). Qed.

Lemma oneRef_ok ref v : oneRef ref = inr v -> namesRefs v.
Proof. unfold oneRef, checkRef. destruct (CheckRefName ref) eqn:E; [|done]. intros [= <-]. split; [done|]. split; [done|]. by constructor. Qed.

Lemma filterRefWrite_ok req v : filterRefWrite req = inr v -> namesRefs v.
Proof.
  unfold filterRefWrite. destruct (ParseQuery _) as [q|]; [|done]. destruct (List.filter _ q) as [|[k f] [|]]; [done| |done].
  destruct (String.eqb (TrimSpace f) ""); [done|]. apply oneRef_ok.
Qed.

Lemma namedRef_ok field prefix req v : namedRef field prefix req = inr v -> namesRefs v.
Proof.
  unfold namedRef. intros H. step_ok H body Eb. destruct (String.eqb (TrimSpace body) ""); [done|]. step_ok H name En.
  destruct (String.eqb (TrimSpace name) ""); [done|]. by eapply oneRef_ok.
Qed.

Lemma pullRequest_ok m req sub v : pullRequestWrite m req sub = inr v -> v = onlyCap CapPR \/ v = onlyCap CapPolicyBypass.
Proof.
  unfold pullRequestWrite. destruct (String.eqb m "DELETE"); [intros [= <-]; by left|]. intros H. step_ok H body Eb. destruct (String.eqb body ""); [injection H as <-; by left|].
  destruct (decodeUnique bypassAsked body) as [e|[]]; [|injection H as <-; by right|injection H as <-; by left]. destruct (negb _); [|done]. injection H as <-. by left.
Qed.

Lemma batchOps_ok org ops out c : batchOps org out ops = inr c -> c = out \/ c = CapWorkAdmin.
Proof.
  revert out. induction ops as [|op ops IH]; intros out; cbn [batchOps]; [intros [= <-]; by left|]. intros H. step_ok H res Er.
  destruct (negb _); [done|]. destruct (existsb _ _); [done|]. apply IH in H. destruct (_ || _); tauto.
Qed.

(** The resources that move a ref. *)
Definition refResources : list string := ["refs"; "pushes"; "annotatedtags"; "cherrypicks"; "reverts"].

Lemma ref_resource res x : String.eqb res x = true -> memS x refResources = true -> res ∈ refResources.
Proof. intros ->%String.eqb_eq. by apply memS_true. Qed.

(** Where a classified write can lead. *)
Definition writeVerdict (r : route) (v : Verdict) : Prop :=
  (exists c, v = onlyCap c /\ adoReadCap c = false /\ c <> CapCodeWrite) \/
  (namesRefs v /\ rArea r = "git" /\ rRes r = "repositories" /\ at_ r 4 ∈ refResources) \/
  (v = onlyCap CapCodeWrite /\ rArea r = "git" /\ rRes r = "repositories" /\ at_ r 4 ∈ gitCodeWriteResources).

Lemma plain_write r c : adoReadCap c = false -> c <> CapCodeWrite -> writeVerdict r (onlyCap c).
Proof. left. by exists c. Qed.

Lemma repository_write m r req v : rArea r = "git" -> rRes r = "repositories" -> gitRepositoryWrite m r req = inr v -> writeVerdict r v.
Proof.
  intros Ha Hr. unfold gitRepositoryWrite. split_areas; intros H; try (injection H as <-; by apply plain_write).
  - right. left. split_and!; [by eapply filterRefWrite_ok|done|done|by eapply ref_resource].
  - right. left. split_and!; [by eapply refWrite_ok|done|done|by eapply ref_resource].
  - right. left. split_and!; [by eapply refWrite_ok|done|done|by eapply ref_resource].
  - right. left. split_and!; [by eapply namedRef_ok|done|done|by eapply ref_resource].
  - apply pullRequest_ok in H as [-> | ->]; by apply plain_write.
  - right. left. split_and!; [by eapply namedRef_ok|done|done|]. match goal with E : memS _ gitGeneratedRefResources = true |- _ => apply memS_true in E; set_solver end.
  - right. right. injection H as <-. split_and!; try done. by apply memS_true.
Qed.

Lemma classifyWrite_ok m r req v : classifyWrite m r req = inr v -> writeVerdict r v.
Proof.
  unfold classifyWrite. split_areas; intros H; try (injection H as <-; first [by apply plain_write|apply plain_write; apply packaging_write]).
  - unfold witWrite in H. destruct (String.eqb (rRes r) "$batch").
    + step_ok H c Ec. injection H as <-. unfold batchCapability in Ec. step_ok Ec body Eb. step_ok Ec ops Eo. destruct ops as [|op ops]; [done|].
      apply batchOps_ok in Ec as [-> | ->]; by apply plain_write.
    + injection H as <-. unfold witWriteCapability. destruct (_ || _); by apply plain_write.
  - unfold gitWrite in H. destruct (String.eqb_spec (rRes r) "repositories") as [Er|]; [apply (repository_write m r req); [by apply String.eqb_eq|done..]|].
    destruct (String.eqb (rRes r) "pullrequests"); [apply pullRequest_ok in H as [-> | ->]; by apply plain_write|].
    destruct (memS (rRes r) _); injection H as <-; by apply plain_write.
  - injection H as <-. unfold buildWrite. destruct (String.eqb (rRes r) "builds"); by apply plain_write.
  - injection H as <-. unfold pipelinesWrite. destruct (memS (at_ r 3) _); by apply plain_write.
  - injection H as <-. unfold releaseWrite. destruct (memS (rRes r) _); by apply plain_write.
  - unfold packageBatchWrite in H. step_ok H body Eb. step_ok H op Eo. destruct op as [op|]; [|done]. destruct (assoc packageBatchOps (ToLower op)) as [c|] eqn:Ea; [|done].
    injection H as <-. apply assoc_elem, batch_table in Ea as [-> | ->]; by apply plain_write.
Qed.

(** A header only raises: it changes no method but a POST, and that to another write. *)
Lemma effective_raises m h e : effectiveMethod m h = inr e ->
  e = ToUpper (TrimSpace m) \/ (ToUpper (TrimSpace m) = "POST" /\ memS e writeMethods = true).
Proof.
  unfold effectiveMethod. destruct (knownMethod _); [|done]. cbn [negb]. destruct (headerValues h _) as [|v [|]]; [intros [= <-]; by left| |done].
  destruct (String.eqb _ "OPTIONS"); [done|]. destruct (knownMethod (ToUpper (TrimSpace v))); [|done]. cbn [negb].
  destruct (String.eqb_spec (ToUpper (TrimSpace m)) "POST") as [Ep|]; cbn [negb]; [|destruct (_ || _); [intros [= <-]; by left|done]].
  destruct (memS _ writeMethods) eqn:Ew; [|done]. intros [= <-]. by right.
Qed.

Lemma write_not_read m : memS m writeMethods = true -> memS m readMethods = false.
Proof. intros H%memS_true. repeat (apply elem_of_cons in H as [->|H]; [reflexivity|]). by apply not_elem_of_nil in H. Qed.

Lemma effective_read m h e : effectiveMethod m h = inr e -> memS e readMethods = true -> e = ToUpper (TrimSpace m).
Proof. intros [H|[_ H]]%effective_raises Hr; [done|]. apply write_not_read in H. congruence. Qed.

(** C29: a run that holds only reads cannot change anything through Azure DevOps: the
    request line of whatever it is permitted is a GET, HEAD or OPTIONS, or a POST the
    server acts on as a POST, to one of the documented query endpoints; no header,
    path spelling or body makes a write pass as a read. *)
Theorem azure_reader_never_writes (granted : list Capability) (req : Request) (v : Verdict)
    (Hg : forall c, c ∈ granted -> c ∈ adoReadCaps) (Hc : Classify req = inr v) (Hp : Permits granted v = true) :
  let base := ToUpper (TrimSpace (Method req)) in
  base ∈ readMethods \/
  (base = "POST" /\ effectiveMethod (Method req) (Header req) = inr "POST" /\
   exists r, parseRoute (Host req) (Path req) (Org req) = inr r /\ readWrite "POST" r = true).
Proof.
  cbn zeta. destruct (adoClassify_inv _ _ Hc) as (m & r & Em & Er & H).
  assert (Hv : adoReadCap (vCapability v) = true).
  { unfold adoReadCap. apply adoPermits_inv in Hp as [[-> _]|[_ Hin]]; [by rewrite orb_true_r|]. apply orb_true_iff. left. by apply memS_true, Hg. }
  destruct (assoc deniedAreas (rArea r)) as [c|] eqn:Ea.
  { subst v. apply assoc_elem, denied_table, denied_refused in Ea as [H1 H2]. apply adoPermits_inv in Hp as [[E _]|[E _]]; cbn [vCapability onlyCap] in E; [by rewrite E in H2|congruence]. }
  destruct H as [[-> _]|[(_ & Hr & _)|(_ & _ & Hw)]].
  - left. rewrite <- (effective_read _ _ _ Em eq_refl). by apply memS_true.
  - apply orb_prop in Hr as [Hr|Hr]; [left; rewrite <- (effective_read _ _ _ Em Hr); by apply memS_true|]. right.
    assert (m = "POST") as -> by (unfold readWrite in Hr; destruct (String.eqb_spec m "POST"); done).
    split_and!; [by destruct (effective_raises _ _ _ Em) as [<-|[? _]]|done|by exists r].
  - exfalso. apply classifyWrite_ok in Hw as [(c & -> & Hw & _)|[[[E _] _]|[-> _]]]; [cbn [vCapability onlyCap] in Hv; congruence| |done]. by rewrite E in Hv.
Qed.

(** ** Refs *)

Lemma ref_route m r req v : rArea r = "git" -> rRes r = "repositories" -> at_ r 4 ∈ refResources -> classifyWrite m r req = inr v -> namesRefs v.
Proof.
  intros Ha Hr Hres. unfold classifyWrite, gitWrite, packagePublish. assert (Hap : exists i, rApis r = Some i).
  { destruct (rApis r) as [i|] eqn:E; [by exists i|]. unfold at_, atOf in Hres. rewrite E in Hres. by repeat (apply elem_of_cons in Hres as [?|Hres]; [done|]); apply not_elem_of_nil in Hres. }
  destruct Hap as [i ->]. rewrite Ha, Hr. cbn [String.eqb Ascii.eqb Bool.eqb]. unfold gitRepositoryWrite. revert Hres. generalize (at_ r 4) as res. intros res Hres.
  repeat (apply elem_of_cons in Hres as [->|Hres]; [|]); [..|by apply not_elem_of_nil in Hres]; cbn.
  - destruct (negb _); [apply filterRefWrite_ok|apply refWrite_ok].
  - apply refWrite_ok.
  - apply namedRef_ok.
  - apply namedRef_ok.
  - apply namedRef_ok.
Qed.

Lemma ref_not_query m r : rArea r = "git" -> rRes r = "repositories" -> at_ r 4 ∈ refResources -> readWrite m r = false.
Proof.
  intros Ha Hr Hres. unfold readWrite. destruct (negb _); [done|]. rewrite Ha, Hr. cbn [String.eqb Ascii.eqb Bool.eqb andb]. revert Hres. generalize (at_ r 4) as res. intros res Hres.
  repeat (apply elem_of_cons in Hres as [->|Hres]; [reflexivity|]). by apply not_elem_of_nil in Hres.
Qed.

Lemma readAreas_caps k a : (k, a) ∈ readAreas -> adoReadCap (raCap a) = true.
Proof. unfold readAreas. intros H. repeat (apply elem_of_cons in H as [[= -> ->]|H]; [reflexivity|]). by apply not_elem_of_nil in H. Qed.

Lemma readArea_not_write r a : readAreaOf r = Some a -> raCap a <> CapCodeWrite.
Proof.
  assert (Hr : forall k, assoc readAreas k = Some a -> raCap a <> CapCodeWrite) by (intros k Hk%assoc_elem%readAreas_caps E; by rewrite E in Hk).
  unfold readAreaOf. destruct (packagePublish r); [apply Hr|]. destruct (assoc readAreas (_ +:+ _)) eqn:E; [intros [= <-]; by eapply Hr|apply Hr].
Qed.

Lemma checked_ref n : CheckRefName n = true -> hasDotDot n = false /\ containsAny "\*?[:^~ " n = false.
Proof.
  unfold CheckRefName. intros [H1%negb_true_iff H2]%andb_prop. split; [done|]. unfold containsAny. apply negb_false_iff. revert H2. apply str_forall_impl.
  intros c. destruct c as [[] [] [] [] [] [] [] []]; vm_compute; done.
Qed.

(** C27: a ref never moves unread: a classified write to a repository's refs, pushes,
    annotated tags, cherry-picks or reverts always names the refs it moves, and no ref
    of any verdict holds a parent segment, a backslash or a wildcard, so a run-branch
    prefix test reads the name the service reads; and code is written without naming
    refs only through the four resources that move none. *)
Theorem moved_refs_are_named (req : Request) (v : Verdict) (m : string) (r : route)
    (Hc : Classify req = inr v) (Hm : effectiveMethod (Method req) (Header req) = inr m) (Hr : parseRoute (Host req) (Path req) (Org req) = inr r) :
  (rArea r = "git" -> rRes r = "repositories" -> at_ r 4 ∈ refResources -> memS m readMethods = false -> namesRefs v) /\
  (vCapability v = CapCodeWrite -> namesRefs v \/ (vRefs v = [] /\ at_ r 4 ∈ gitCodeWriteResources)) /\
  (forall n, n ∈ vRefs v -> hasDotDot n = false /\ containsAny "\*?[:^~ " n = false).
Proof.
  destruct (adoClassify_inv _ _ Hc) as (m' & r' & Em & Er & H). rewrite Hm in Em. injection Em as <-. rewrite Hr in Er. injection Er as <-.
  assert (Hplain : forall c, v = onlyCap c -> c <> CapCodeWrite -> (vCapability v = CapCodeWrite -> namesRefs v \/ (vRefs v = [] /\ at_ r 4 ∈ gitCodeWriteResources)) /\
    (forall n, n ∈ vRefs v -> hasDotDot n = false /\ containsAny "\*?[:^~ " n = false)).
  { intros c -> Hne. split; [done|]. intros n Hn. by apply not_elem_of_nil in Hn. }
  split.
  - intros Ha Hres H4 Hread. rewrite Ha in H. change (assoc deniedAreas "git") with (@None Capability) in H. cbn match in H.
    destruct H as [[-> _]|[(_ & Ho & _)|(_ & _ & Hw)]]; [done| |by eapply ref_route]. exfalso. rewrite Hread in Ho. by rewrite (ref_not_query m r Ha Hres H4) in Ho.
  - destruct (assoc deniedAreas (rArea r)) as [c|] eqn:Ea; [apply (Hplain c H); apply assoc_elem, denied_table in Ea; intros ->; done|].
    destruct H as [[_ ->]|[(_ & _ & ->)|(_ & _ & Hw)]].
    + unfold locationDiscovery in *. destruct (_ && _); by eapply Hplain.
    + eapply Hplain; [done|]. destruct (readAreaOf r) as [a|] eqn:Er; [|done]. by eapply readArea_not_write.
    + apply classifyWrite_ok in Hw as [(c & -> & _ & Hw)|[[Hn _]|(-> & _ & _ & H4)]]; [by eapply Hplain| |].
      * split; [by left|]. destruct Hn as (_ & _ & Hf). rewrite Forall_forall in Hf. intros n Hin. by apply checked_ref, Hf.
      * split; [by right|]. intros n Hn. by apply not_elem_of_nil in Hn.
Qed.

(** ** Asking before the body is read *)

(** The request with its body not yet read, and with the body [b]. *)
Definition withheld (req : Request) : Request := mkRequest (Method req) (Host req) (Path req) (RawQuery req) (Header req) "" (Org req) true.
Definition opened (b : string) (req : Request) : Request := mkRequest (Method req) (Host req) (Path req) (RawQuery req) (Header req) b (Org req) false.

(** A function of the request that asks for the body wherever it would use it. *)
Definition waits {A} (f : Request -> adoErr + A) : Prop := forall req b, f (withheld req) <> inl ErrNeedsBody -> f (opened b req) = f (withheld req).

Lemma waits_now {A} (f : Request -> adoErr + A) : (forall req, f (withheld req) = inl ErrNeedsBody) -> waits f.
Proof. intros H req b Hn. by rewrite H in Hn. Qed.

Lemma waits_bind {A B} (f : Request -> adoErr + A) (k : A -> Request -> adoErr + B) :
  waits f -> (forall x, waits (k x)) -> waits (fun req => tbind (f req) (fun x => k x req)).
Proof.
  intros Hf Hk req b Hn. cbn beta in *. rewrite (Hf req b); [|intros E; by rewrite E in Hn]. destruct (f (withheld req)) as [e|x]; [done|]. by apply Hk.
Qed.

Lemma waits_repository m r : waits (gitRepositoryWrite m r).
Proof. intros req b. unfold gitRepositoryWrite. split_areas; intros Hn; try done. unfold pullRequestWrite in *. by destruct (String.eqb m "DELETE"). Qed.

Lemma waits_write m r : waits (classifyWrite m r).
Proof.
  intros req b. unfold classifyWrite. split_areas; intros Hn; try done.
  - unfold witWrite in *. by destruct (String.eqb (rRes r) "$batch").
  - unfold gitWrite in *. destruct (String.eqb (rRes r) "repositories"); [by apply waits_repository|]. destruct (String.eqb (rRes r) "pullrequests"); [|done].
    unfold pullRequestWrite in *. by destruct (String.eqb m "DELETE").
Qed.

(** C31: a verdict given before the body was read is the verdict: unless the
    classifier asks for the body, it answers the same, refusals included, whatever the
    body turns out to be. *)
Theorem verdict_without_the_body_stands (req : Request) (b : string) (Hn : Classify (withheld req) <> inl ErrNeedsBody) :
  Classify (opened b req) = Classify (withheld req).
Proof.
  revert Hn. enough (Hw : waits Classify) by apply Hw. unfold Classify. apply waits_bind; [by intros ? ?|intros m].
  apply waits_bind; [by destruct (String.eqb m "OPTIONS"); [apply waits_now|intros ? ?]|intros _].
  apply waits_bind; [by intros ? ?|intros r]. destruct (assoc deniedAreas (rArea r)); [by intros ? ?|]. destruct (String.eqb m "OPTIONS"); [by intros ? ?|].
  destruct (memS m readMethods || readWrite m r); [by intros ? ?|]. apply waits_write.
Qed.

(** ** Batches of work items *)

(** What one operation of a batch asks for. *)
Definition opAdmin (org : string) (op : batchOp) : Prop :=
  ToUpper (TrimSpace (boMethod op)) = "DELETE" \/ exists res, batchOpIsWorkItem (boURI op) org = inr res /\ res ∈ witAdminResources.

Lemma opAdmin_step org op res : batchOpIsWorkItem (boURI op) org = inr res ->
  opAdmin org op <-> String.eqb (ToUpper (TrimSpace (boMethod op))) "DELETE" || memS res witAdminResources = true.
Proof.
  intros E. unfold opAdmin. rewrite orb_true_iff, String.eqb_eq, memS_true, E. split; intros [H|H]; try (by left); right; [by destruct H as (? & [= <-] & H)|by exists res].
Qed.

(** A batch of work items needs its widest operation: it is answered only when
    every operation is under the work items of the row's organisation, with a method
    that is known and no header that overrides it, and it needs the administrator's
    capability exactly when one of them deletes or touches what everyone shares. *)
Theorem batch_needs_its_widest (org : string) (ops : list batchOp) (c : Capability) (H : batchOps org CapWorkWrite ops = inr c) :
  (c = CapWorkWrite \/ c = CapWorkAdmin) /\ (c = CapWorkAdmin <-> Exists (opAdmin org) ops) /\
  Forall (fun op => (exists res, batchOpIsWorkItem (boURI op) org = inr res) /\ knownMethod (ToUpper (TrimSpace (boMethod op))) = true /\
    forall k, k ∈ boHeaders op -> EqualFold (TrimSpace k) "X-HTTP-Method-Override" = false) ops.
Proof.
  assert (Hgen : forall out, batchOps org out ops = inr c -> (c = out \/ c = CapWorkAdmin) /\ (Exists (opAdmin org) ops -> c = CapWorkAdmin) /\
    (c = CapWorkAdmin -> out = CapWorkAdmin \/ Exists (opAdmin org) ops) /\ Forall (fun op => (exists res, batchOpIsWorkItem (boURI op) org = inr res) /\
    knownMethod (ToUpper (TrimSpace (boMethod op))) = true /\ forall k, k ∈ boHeaders op -> EqualFold (TrimSpace k) "X-HTTP-Method-Override" = false) ops).
  { clear H. induction ops as [|op ops IH]; intros out; cbn [batchOps]; [intros [= <-]; split_and!; [by left|by intros H%Exists_nil|by left|done]|].
    intros H. step_ok H res Er. destruct (knownMethod _) eqn:Ek; [|done]. cbn [negb] in H. destruct (existsb _ (boHeaders op)) eqn:Eh; [done|].
    pose proof (opAdmin_step org op res Er) as Hop. apply IH in H as (H1 & H2 & H3 & H4). rewrite Exists_cons. split_and!; [destruct (_ || _); tauto| | |].
    - intros [Ha|Ha]; [|by apply H2]. rewrite (proj1 Hop Ha) in H1. tauto.
    - intros Hc. apply H3 in Hc as [Hc|Hc]; [|by right; right]. destruct (_ || _) eqn:Ea; [right; left; by apply Hop|by left].
    - constructor; [|done]. split_and!; [by exists res|done|]. intros k Hk. by apply (proj1 (containsFunc_false _ _) Eh). }
  destruct (Hgen _ H) as (H1 & H2 & H3 & H4). split_and!; [done| |done].
  split; [|done]. intros Hc. by destruct (H3 Hc).
Qed.
End Unicode.

(** ** Witnesses *)

(** A text with its apostrophes as double quotes. *)
Definition dq (s : string) : string := str_map (fun c => if Ascii.eqb c "'" then "034"%char else c) s.
Definition demoReq (method path body : string) : Request := mkRequest method "dev.azure.com" path "" [] (dq body) "Acme" false.

Lemma permitted_stays_on_the_row_witness :
  let req := demoReq "get" "/ACME/web/_apis/git/repositories" "" in
  @Classify asciiTables plainRunes req = inr (onlyCap CapCodeRead) /\
  @Classify asciiTables plainRunes (demoReq "get" "/acme/_apis/Tokens/pats" "") = inr (onlyCap CapDeniedTokens) /\
  @onOrg asciiTables "dev.azure.com" "/ACME/web/_apis/git/repositories" "Acme".
Proof.
  assert (H : @Classify asciiTables plainRunes (demoReq "get" "/ACME/web/_apis/git/repositories" "") = inr (onlyCap CapCodeRead)) by (vm_compute; reflexivity).
  split_and!; [exact H|vm_compute; reflexivity|].
  exact (proj1 (@permitted_stays_on_the_row asciiTables plainRunes [CapCodeRead] (demoReq "get" "/ACME/web/_apis/git/repositories" "") _ H eq_refl)).
Defined.

Lemma azure_reader_never_writes_witness :
  let req := demoReq "post" "/acme/web/_apis/wit/wiql" "" in
  @Classify asciiTables plainRunes req = inr (onlyCap CapWorkRead) /\
  (@ToUpper asciiTables (@TrimSpace asciiTables "post") ∈ readMethods \/ @ToUpper asciiTables (@TrimSpace asciiTables "post") = "POST").
Proof.
  assert (H : @Classify asciiTables plainRunes (demoReq "post" "/acme/web/_apis/wit/wiql" "") = inr (onlyCap CapWorkRead)) by (vm_compute; reflexivity).
  split; [exact H|].
  assert (Hg : forall c, c ∈ [CapWorkRead] -> c ∈ adoReadCaps) by (intros c ->%list_elem_of_singleton; by apply memS_true).
  destruct (@azure_reader_never_writes asciiTables plainRunes [CapWorkRead] (demoReq "post" "/acme/web/_apis/wit/wiql" "") _ Hg H eq_refl) as [Hr|[Hr _]]; [by left|by right].
Defined.

Lemma moved_refs_are_named_witness :
  let req := demoReq "POST" "/acme/web/_apis/git/repositories/r1/pushes" "{'refUpdates':[{'name':'refs/heads/wardyn/r1/x'}]}" in
  @Classify asciiTables plainRunes req = inr (mkVerdict CapCodeWrite ["refs/heads/wardyn/r1/x"]) /\
  @Classify asciiTables plainRunes (demoReq "POST" "/acme/web/_apis/git/repositories/r1/pushes" "{'refUpdates':[{'name':'refs/heads/wardyn/../main'}]}")
    = inl (Refused "refusing malformed refname") /\
  namesRefs (mkVerdict CapCodeWrite ["refs/heads/wardyn/r1/x"]).
Proof.
  set (req := demoReq "POST" "/acme/web/_apis/git/repositories/r1/pushes" "{'refUpdates':[{'name':'refs/heads/wardyn/r1/x'}]}").
  assert (H : @Classify asciiTables plainRunes req = inr (mkVerdict CapCodeWrite ["refs/heads/wardyn/r1/x"])) by (vm_compute; reflexivity).
  split_and!; [exact H|vm_compute; reflexivity|].
  destruct (@moved_refs_are_named asciiTables plainRunes req _ "POST" (mkRoute "dev.azure.com" ["web"; "_apis"; "git"; "repositories"; "r1"; "pushes"]
    ["web"; "_apis"; "git"; "repositories"; "r1"; "pushes"] (Some 1%nat) "git" "repositories") H) as [Hn _]; [vm_compute; reflexivity..|].
  apply Hn; [reflexivity..| |reflexivity]. by apply memS_true.
Defined.

Lemma verdict_without_the_body_stands_witness :
  let req := demoReq "PUT" "/acme/web/_apis/build/definitions/3" "" in
  @Classify asciiTables plainRunes (opened "any body" req) = inr (onlyCap CapBuildAdmin) /\
  @Classify asciiTables plainRunes (withheld (demoReq "POST" "/acme/web/_apis/git/repositories/r1/pushes" "")) = inl ErrNeedsBody.
Proof.
  split; [|vm_compute; reflexivity].
  rewrite (@verdict_without_the_body_stands asciiTables plainRunes); [vm_compute; reflexivity|]. vm_compute. discriminate.
Defined.

Lemma batch_needs_its_widest_witness :
  let ops := [mkBatchOp "PATCH" "/_apis/wit/workitems/3" []; mkBatchOp "delete" "/acme/web/_apis/wit/workitems/4" []] in
  @batchOps asciiTables plainRunes "Acme" CapWorkWrite ops = inr CapWorkAdmin /\
  @batchOps asciiTables plainRunes "Acme" CapWorkWrite [mkBatchOp "PATCH" "/other/_apis/wit/workitems/3" []] = inl (Refused "names another organisation") /\
  Exists (@opAdmin asciiTables plainRunes "Acme") ops.
Proof.
  set (ops := [mkBatchOp "PATCH" "/_apis/wit/workitems/3" []; mkBatchOp "delete" "/acme/web/_apis/wit/workitems/4" []]).
  assert (H : @batchOps asciiTables plainRunes "Acme" CapWorkWrite ops = inr CapWorkAdmin) by (vm_compute; reflexivity).
  split_and!; [exact H|vm_compute; reflexivity|].
  apply (@batch_needs_its_widest asciiTables plainRunes "Acme" ops CapWorkAdmin H). reflexivity.
Defined.

(** A reference with an authority but no host passes for a relative one. *)
Example userinfo_uri_is_read : @batchOpIsWorkItem asciiTables plainRunes "//u@/_apis/wit/workitems/3" "Acme" = inr "workitems".
Proof. vm_compute. reflexivity. Qed.

(** A batch inside a batch is not opened. *)
Example nested_batch_is_an_edit : @batchOps asciiTables plainRunes "Acme" CapWorkWrite [mkBatchOp "POST" "/_apis/wit/$batch" []] = inr CapWorkWrite.
Proof. vm_compute. reflexivity. Qed.
