(* ===== verification/AdoKeys.v ===== *)
(** * An accepted body reads one way

    A body [decodeUnique] accepts has, in each of its objects, at most one member that
    names a field, under the very fold [encoding/json] binds keys with; so neither the
    order of the members nor a parser's choice between equal keys changes what is
    read. *)
From S2P Require Import Prelude GoStrings GoPath GoSlices Grants PushRules PushForge PolicyTypes CanonNumber GoJSON GoJSONSound GHPath ApprovalScope PolicyRef AdoNames GoRunes AdoCaps AdoRoute AdoBody.
Local Open Scope string_scope.
Local Open Scope Z_scope.
Local Open Scope list_scope.

(** ** Runes of a text *)

Lemma runesLoop_fuel n n' s : (String.length s <= n)%nat -> (String.length s <= n')%nat -> runesLoop n s = runesLoop n' s.
Proof.
  revert n' s. induction n as [|n IH]; intros n' [|c s] Hn Hn'; cbn in Hn, Hn'; try lia; [by destruct n'..|]. destruct n' as [|n']; [lia|]. cbn [runesLoop].
  destruct (DecodeRune (String c s)) as [[r ok] rest] eqn:E. pose proof (rune_shorter _ _ _ _ c s eq_refl E). f_equal. apply IH; lia.
Qed.

Lemma runes_cons a rr t : rune a rr -> runes (a +:+ t) = rr :: runes t.
Proof.
  intros [Hne H]. destruct a as [|c a]; [done|]. unfold runes. specialize (H t). rewrite str_app_cons in *. cbn [String.length runesLoop]. rewrite H. f_equal.
  apply runesLoop_fuel; [rewrite str_len_app; lia|lia].
Qed.

Lemma byte_is (n : N) c : byte_of c = Z.of_N n -> c = ascii_of_N n.
Proof. unfold byte_of. intros H. rewrite <- (ascii_N_embedding c). f_equal. lia. Qed.

Lemma lead_bits c : (192 <= byte_of c <= 223 -> Z.land (byte_of c) 31 = byte_of c - 192) /\ (224 <= byte_of c <= 239 -> Z.land (byte_of c) 15 = byte_of c - 224) /\
  (240 <= byte_of c <= 247 -> Z.land (byte_of c) 7 = byte_of c - 240) /\ (128 <= byte_of c <= 191 -> low6 c = byte_of c - 128).
Proof. unfold low6. destruct c as [[] [] [] [] [] [] [] []]; vm_compute; intuition congruence. Qed.

(** The bytes of a rune outside ASCII. *)
Lemma rune_shape a rr : rune a rr -> 128 <= rr ->
  (exists c0 c1, a = String c0 (String c1 "") /\ 194 <= byte_of c0 <= 223 /\ 128 <= byte_of c1 <= 191 /\ rr = (byte_of c0 - 192) * 64 + (byte_of c1 - 128)) \/
  (exists c0 c1 c2, a = String c0 (String c1 (String c2 "")) /\ 224 <= byte_of c0 <= 239 /\ 128 <= byte_of c1 <= 191 /\ 128 <= byte_of c2 <= 191 /\
    2048 <= rr /\ rr = (byte_of c0 - 224) * 4096 + (byte_of c1 - 128) * 64 + (byte_of c2 - 128)) \/
  (exists c0 c1 c2 c3, a = String c0 (String c1 (String c2 (String c3 ""))) /\ 240 <= byte_of c0 <= 244 /\ 128 <= byte_of c1 <= 191 /\ 128 <= byte_of c2 <= 191 /\
    128 <= byte_of c3 <= 191 /\ 65536 <= rr).
Proof.
  intros [Hne H] Hr. specialize (H ""). rewrite str_app_nil_r in H. destruct a as [|c0 r]; [done|]. unfold DecodeRune in H. cbn zeta in H.
  destruct (byte_of c0 <? 128) eqn:Ec; [simplify_eq; bool_prop; lia|]. destruct (runeShape (byte_of c0)) as [[[n lo] hi]|] eqn:Es; [|done].
  assert (Hsh : (n = 2%nat /\ 194 <= byte_of c0 <= 223 /\ lo = 128 /\ hi = 191) \/ (n = 3%nat /\ 224 <= byte_of c0 <= 239 /\ 128 <= lo /\ hi <= 191 /\ (byte_of c0 = 224 -> 160 <= lo)) \/
    (n = 4%nat /\ 240 <= byte_of c0 <= 244 /\ 128 <= lo /\ hi <= 191 /\ (byte_of c0 = 240 -> 144 <= lo))).
  { clear -Es. unfold runeShape in Es. repeat case_match; simplify_eq; bool_prop; lia. }
  pose proof (lead_bits c0) as (L2 & L3 & L4 & _).
  destruct Hsh as [(-> & Hb & -> & ->)|[(-> & Hb & Hlo & Hhi & Hx)|(-> & Hb & Hlo & Hhi & Hx)]]; destruct r as [|c1 r]; try done.
  - destruct (cont 128 191 c1) eqn:E1; simplify_eq. left. unfold cont in E1. bool_prop. pose proof (lead_bits c1) as (_ & _ & _ & B1).
    exists c0, c1. rewrite L2, B1 in * by lia. split_and!; done || lia.
  - destruct r as [|c2 r]; [done|]. destruct (cont lo hi c1 && cont 128 191 c2) eqn:E1; simplify_eq. right. left. unfold cont in E1. bool_prop.
    pose proof (lead_bits c1) as (_ & _ & _ & B1). pose proof (lead_bits c2) as (_ & _ & _ & B2). exists c0, c1, c2. rewrite L3, B1, B2 in * by lia. split_and!; done || lia.
  - destruct r as [|c2 r]; [done|]. destruct r as [|c3 r]; [done|]. destruct (cont lo hi c1 && cont 128 191 c2 && cont 128 191 c3) eqn:E1; simplify_eq. right. right.
    unfold cont in E1. bool_prop. pose proof (lead_bits c1) as (_ & _ & _ & B1). pose proof (lead_bits c2) as (_ & _ & _ & B2). pose proof (lead_bits c3) as (_ & _ & _ & B3).
    exists c0, c1, c2, c3. rewrite L4, B1, B2, B3 in * by lia. split_and!; done || lia.
Qed.

(** ** The fold of a key *)

(** What [foldName] makes of a rune. *)
Definition nameRune (r : Z) : Z := if r <? 128 then upperASCII r else if r =? longS then 83 else if r =? kelvin then 75 else r.

Lemma foldName_ascii c t : byte_of c < 128 -> foldName (String c t) = String (upper_byte c) (foldName t).
Proof. destruct c as [[] [] [] [] [] [] [] []]; vm_compute byte_of; intros H; try lia; reflexivity. Qed.

Lemma foldName_cont c t : 128 <= byte_of c <= 191 -> foldName (String c t) = String c (foldName t).
Proof. destruct c as [[] [] [] [] [] [] [] []]; vm_compute byte_of; intros H; try lia; reflexivity. Qed.

Lemma foldName_lead c t : 192 <= byte_of c -> byte_of c <> 197 -> byte_of c <> 226 -> foldName (String c t) = String c (foldName t).
Proof. destruct c as [[] [] [] [] [] [] [] []]; vm_compute byte_of; intros H1 H2 H3; try lia; reflexivity. Qed.

Lemma foldName_197 d t : byte_of d <> 191 -> foldName (String "197" (String d t)) = String "197" (foldName (String d t)).
Proof. destruct d as [[] [] [] [] [] [] [] []]; vm_compute byte_of; intros H; try lia; reflexivity. Qed.

Lemma foldName_226 d e t : byte_of d <> 132 \/ byte_of e <> 170 -> foldName (String "226" (String d (String e t))) = String "226" (foldName (String d (String e t))).
Proof.
  intros H. destruct (Z.eq_dec (byte_of d) 132) as [E|E].
  - apply (byte_is 132) in E as ->. destruct H as [H|H]; [done|]. revert H. destruct e as [[] [] [] [] [] [] [] []]; vm_compute byte_of; intros H; try lia; reflexivity.
  - revert E. clear H. destruct d as [[] [] [] [] [] [] [] []]; vm_compute byte_of; intros H; try lia; reflexivity.
Qed.

Lemma rune_upper c : byte_of c < 128 -> rune (String (upper_byte c) "") (upperASCII (byte_of c)).
Proof.
  intros H. assert (E : byte_of (upper_byte c) = upperASCII (byte_of c) /\ byte_of (upper_byte c) <? 128 = true).
  { revert H. destruct c as [[] [] [] [] [] [] [] []]; vm_compute; done. }
  destruct E as [E1 E2]. split; [done|]. intros t. rewrite str_app_cons, str_app_nil_l. unfold DecodeRune. by rewrite E2, E1.
Qed.

(** [foldName] works rune by rune. *)
Lemma foldName_rune a rr t : rune a rr -> exists b, rune b (nameRune rr) /\ foldName (a +:+ t) = b +:+ foldName t.
Proof.
  intros Ha. destruct (Z.ltb_spec rr 128) as [Hs|Hw].
  - destruct a as [|c a]; [by destruct Ha|]. destruct (byte_of c <? 128) eqn:Ec.
    + destruct (rune_ascii _ _ _ Ha Ec) as [-> ->]. apply Z.ltb_lt in Ec. exists (String (upper_byte c) ""). unfold nameRune. rewrite (proj2 (Z.ltb_lt _ _)) by done.
      split; [by apply rune_upper|]. rewrite !str_app_cons, !str_app_nil_l. by apply foldName_ascii.
    + destruct Ha as [_ Ha]. specialize (Ha ""). rewrite str_app_nil_r in Ha. pose proof (decode_wide _ _ _ _ _ Ec Ha). lia.
  - unfold nameRune. rewrite (proj2 (Z.ltb_ge _ _)) by done. destruct (Z.eqb_spec rr longS) as [El|El]; [|destruct (Z.eqb_spec rr kelvin) as [Ek|Ek]].
    + exists "S". split; [by split; [|intros]|]. unfold longS in El. destruct (rune_shape a rr Ha Hw) as [(c0 & c1 & -> & H0 & H1 & E)|[(c0 & c1 & c2 & -> & H)|(c0 & c1 & c2 & c3 & -> & H)]]; [|lia..].
      assert (E0 : byte_of c0 = 197) by lia. assert (E1 : byte_of c1 = 191) by lia. apply (byte_is 197) in E0 as ->. by apply (byte_is 191) in E1 as ->.
    + exists "K". split; [by split; [|intros]|]. unfold kelvin in Ek. destruct (rune_shape a rr Ha Hw) as [(c0 & c1 & -> & H)|[(c0 & c1 & c2 & -> & H0 & H1 & H2 & H3 & E)|(c0 & c1 & c2 & c3 & -> & H)]]; [lia| |lia].
      assert (E0 : byte_of c0 = 226) by lia. assert (E1 : byte_of c1 = 132) by lia. assert (E2 : byte_of c2 = 170) by lia.
      apply (byte_is 226) in E0 as ->. apply (byte_is 132) in E1 as ->. by apply (byte_is 170) in E2 as ->.
    + exists a. split; [done|]. unfold longS, kelvin in *.
      destruct (rune_shape a rr Ha Hw) as [(c0 & c1 & -> & H0 & H1 & E)|[(c0 & c1 & c2 & -> & H0 & H1 & H2 & _ & E)|(c0 & c1 & c2 & c3 & -> & H0 & H1 & H2 & H3 & _)]];
        rewrite !str_app_cons, !str_app_nil_l.
      * destruct (Z.eq_dec (byte_of c0) 197) as [E0|E0]; [apply (byte_is 197) in E0 as ->; rewrite foldName_197 by (change (byte_of (ascii_of_N 197)) with 197 in E; lia)|rewrite foldName_lead by lia];
          by rewrite foldName_cont by lia.
      * destruct (Z.eq_dec (byte_of c0) 226) as [E0|E0]; [apply (byte_is 226) in E0 as ->; rewrite foldName_226 by (change (byte_of (ascii_of_N 226)) with 226 in E; lia)|rewrite foldName_lead by lia];
          by rewrite !foldName_cont by lia.
      * rewrite foldName_lead by lia. by rewrite !foldName_cont by lia.
Qed.

Lemma foldName_runes k : utf8 k -> runes (foldName k) = map nameRune (runes k).
Proof.
  induction 1 as [|a rr t Ha Ht IH]; [done|]. destruct (foldName_rune a rr t Ha) as (b & Hb & ->). by rewrite (runes_cons _ _ _ Ha), (runes_cons _ _ _ Hb), IH.
Qed.

Section Unicode.
Context {U : GoUnicode} {R : GoRunes}.

Definition orbitOf (r : Z) : Z := if r <? 128 then r else orbitRune r.

Lemma leastFold_name r : leastFold r = orbitOf (nameRune r).
Proof.
  unfold leastFold, orbitOf, nameRune. destruct (r <? 128) eqn:E; [|destruct (r =? longS); [done|]; destruct (r =? kelvin); [done|by rewrite E]].
  unfold upperASCII. apply Z.ltb_lt in E. destruct (_ && _); rewrite (proj2 (Z.ltb_lt _ _)) by lia; done.
Qed.

(** Keys that name one field have one fold. *)
Lemma one_field_one_fold field k k' : utf8 k -> utf8 k' -> names field k = true -> names field k' = true -> foldKey k = foldKey k'.
Proof.
  intros Hk Hk' H H'. assert (Hn : forall k, names field k = true -> foldName k = foldName field).
  { intros x Hx. unfold names in Hx. apply orb_prop in Hx as [->%String.eqb_eq|Hx%String.eqb_eq]; done. }
  assert (E : map nameRune (runes k) = map nameRune (runes k')) by (rewrite <- !foldName_runes by done; by rewrite (Hn k), (Hn k')).
  unfold foldKey, mapRunes. enough (Hf : forall l, foldr (fun r acc => encodeRune (leastFold r) +:+ acc) "" l =
    foldr (fun r acc => encodeRune (orbitOf r) +:+ acc) "" (map nameRune l)) by by rewrite !Hf, E.
  induction l as [|r l IH]; [done|]. cbn. by rewrite leastFold_name, IH.
Qed.

(** ** Members of an object *)

Lemma distinctKeys_nodup seen m : distinctKeys seen m = true -> NoDup (map (fun kv => foldKey (fst kv)) m) /\ forall kv, kv ∈ m -> foldKey (fst kv) ∉ seen.
Proof.
  revert seen. induction m as [|[k v] m IH]; intros seen; cbn [distinctKeys].
  { intros _. split; [constructor|]. intros kv H. by apply not_elem_of_nil in H. }
  intros [Hs%negb_true_iff Hm]%andb_prop. destruct (IH _ Hm) as [Hn Hd]. split.
  - cbn [map fst]. constructor; [|done]. intros (kv & E & Hin)%list_elem_of_fmap. apply (Hd _ Hin). cbn [fst] in E. rewrite <- E. left.
  - intros kv [->|Hin]%elem_of_cons; [intros Hx%memS_true; cbn [fst] in Hx; congruence|]. intros Hx. apply (Hd _ Hin). by right.
Qed.

(** The members that name a field. *)
Definition naming (field : string) (m : list (string * json)) : list (string * json) := List.filter (fun kv => names field (fst kv)) m.

Lemma naming_one field m : Forall (fun kv => utf8 (fst kv)) m -> NoDup (map (fun kv => foldKey (fst kv)) m) -> (length (naming field m) <= 1)%nat.
Proof.
  intros Hu Hn. assert (Hone : forall kv kv' rest, naming field m <> kv :: kv' :: rest); [|destruct (naming field m) as [|kv [|kv' rest]]; cbn; [lia..|by destruct (Hone kv kv' rest)]].
  induction m as [|[k v] m IH]; [done|]. apply Forall_cons in Hu as [Hk Hu]. cbn [map] in Hn. apply NoDup_cons in Hn as [Hni Hn]. intros kv kv' rest.
  unfold naming. cbn [List.filter fst]. destruct (names field k) eqn:Ek; [|by apply IH]. fold (naming field m). intros [= <- E].
  assert (Hin : kv' ∈ naming field m) by (rewrite E; left). unfold naming in Hin. apply list_elem_of_In, filter_In in Hin as [Hin Hf]. apply Hni. apply list_elem_of_fmap.
  exists kv'. split; [|by apply list_elem_of_In]. cbn. rewrite Forall_forall in Hu. apply (one_field_one_fold field); [done| |done|done]. by apply Hu, list_elem_of_In.
Qed.

Lemma fieldOf_naming {A} (read : json -> decoded A) zero field m : fieldOf read zero field m = fieldOf read zero field (naming field m).
Proof.
  unfold fieldOf. revert zero. induction m as [|[k v] m IH]; intros zero; [done|]. unfold naming. cbn [List.filter fst foldl]. fold (naming field m).
  destruct (names field k) eqn:E; [|apply IH]. cbn [foldl fst]. rewrite E. apply IH.
Qed.

Lemma fieldFails_naming {A} (read : json -> decoded A) field m : fieldFails read field m = fieldFails read field (naming field m).
Proof.
  unfold fieldFails. induction m as [|[k v] m IH]; [done|]. unfold naming. cbn [List.filter fst existsb]. fold (naming field m).
  destruct (names field k) eqn:E; [|done]. cbn [existsb fst]. by rewrite E, IH.
Qed.

Lemma naming_perm field m m' : m ≡ₚ m' -> naming field m ≡ₚ naming field m'.
Proof.
  unfold naming. induction 1 as [|x l l' _ IH|x y l|l1 l2 l3 _ IH1 _ IH2]; [done| | |by rewrite IH1].
  - cbn. destruct (names field _); [by constructor|done].
  - cbn. destruct (names field _), (names field _); try done. constructor.
Qed.

(** Where a field has at most one member, the order of the members is nothing. *)
Lemma fieldIn_order {A} (read : json -> decoded A) zero field m m' :
  (length (naming field m) <= 1)%nat -> m' ≡ₚ m -> fieldIn read zero field m' = fieldIn read zero field m.
Proof.
  intros Hl Hp%(naming_perm field). unfold fieldIn. rewrite (fieldOf_naming _ _ _ m), (fieldOf_naming _ _ _ m'), (fieldFails_naming _ _ m), (fieldFails_naming _ _ m').
  assert (E : naming field m' = naming field m); [|by rewrite E]. destruct (naming field m) as [|x [|]]; [by apply Permutation_nil_r|by apply Permutation_singleton_r|cbn in Hl; lia].
Qed.

(** ** Objects of a body *)

Inductive inside (x : json) : json -> Prop :=
| inside_self : inside x x
| inside_arr l v : v ∈ l -> inside x v -> inside x (JArr l)
| inside_obj m k v : (k, v) ∈ m -> inside x v -> inside x (JObj m).

Lemma walk_inside m v d : walkUnique d v = true -> inside (JObj m) v -> distinctKeys [] m = true.
Proof.
  intros H Hi. revert d H. induction Hi as [|l v Hin _ IH|m' k v Hin _ IH]; intros d; cbn [walkUnique]; intros [_ H]%andb_prop.
  - by apply andb_prop in H as [H _].
  - rewrite forallb_forall in H. apply (IH (d + 1)). apply H. by apply list_elem_of_In.
  - apply andb_prop in H as [_ H]. rewrite forallb_forall in H. apply (IH (d + 1)). apply (H (k, v)). by apply list_elem_of_In.
Qed.

Lemma wf_inside m v : wf v -> inside (JObj m) v -> Forall (fun kv => utf8 (fst kv)) m.
Proof.
  intros Hw Hi. induction Hi as [|l v Hin _ IH|m' k v Hin _ IH]; inversion Hw as [| | | |? Hf|? Hf]; subst.
  - eapply Forall_impl; [exact Hf|]. by intros kv [? _].
  - apply IH. rewrite Forall_forall in Hf. by apply Hf.
  - apply IH. rewrite Forall_forall in Hf. by apply (Hf (k, v)).
Qed.

(** C30: a body the classifier reads, reads one way: in each of its objects, at any
    depth, at most one member names a field, counting every spelling the decoder binds
    to it; so whichever of several members a parser keeps, and in whatever order it
    meets them, each field has the value the classifier saw. *)
Theorem accepted_body_reads_one_way {A} (read : json -> option A) (body : string) (a : A) (H : decodeUnique read body = inr a) :
  exists v, decode body = Some v /\ read v = Some a /\
    forall m, inside (JObj m) v -> forall field, (length (naming field m) <= 1)%nat /\
      forall B (rd : json -> decoded B) zero m', m' ≡ₚ m -> fieldIn rd zero field m' = fieldIn rd zero field m.
Proof.
  unfold decodeUnique in H. destruct (decode body) as [v|] eqn:Ed; [|done]. destruct (walkUnique 0 v) eqn:Ew; [|done]. cbn [negb] in H.
  destruct (read v) as [x|] eqn:Er; [|done]. injection H as <-. exists v. split_and!; [done..|]. intros m Hi field.
  assert (Hl : (length (naming field m) <= 1)%nat).
  { apply naming_one; [by eapply wf_inside; [apply (decode_wf body)|]|]. by apply (distinctKeys_nodup []), (walk_inside m v 0). }
  split; [done|]. intros B rd zero m' Hp. by apply fieldIn_order.
Qed.
End Unicode.

(** ** One string of a body ([top_level.go]) *)

Section TopLevel.
Context {R : GoRunes}.

(** [ErrKeyMissing], or another refusal. *)
Inductive topErr := ErrKeyMissing | TopRefused (e : adoErr).

(** [uniqueKeys]: one value off the token stream, no key repeated, and no more to
    read. [Decoder.More] answers no at the end and before a closing bracket. *)
Definition uniqueKeys (body : string) : adoErr + json :=
  match parseValue maxNestingDepth (2 * String.length body + 1) 0 body with
  | None => inl (Refused "body is not decodable JSON")
  | Some (v, rest) =>
      if negb (walkUnique 0 v) then inl (Refused "body repeats a key or nests too deep")
      else match skipWS rest with
           | "" => inr v
           | String c _ => if Ascii.eqb c "]" || Ascii.eqb c "}" then inr v else inl (Refused "body carries more than one JSON value")
           end
  end.

(** The members in order, up to the key: a value before it is skipped token by token,
    and a number among them must fit a float. *)
Fixpoint topString (key : string) (m : list (string * json)) : topErr + string :=
  match m with
  | [] => inl ErrKeyMissing
  | (k, v) :: m =>
      if negb (String.eqb k key) then (if anyFits v then topString key m else inl (TopRefused (Refused "body is not decodable JSON")))
      else match v with
           | JStr s => if String.eqb s "" then inl (TopRefused (Refused "is not a non-empty string")) else inr s
           | _ => inl (TopRefused (Refused "is not a non-empty string"))
           end
  end.

Definition TopLevelString (body key : string) : topErr + string :=
  match uniqueKeys body with
  | inl e => inl (TopRefused e)
  | inr (JObj m) => topString key m
  | inr _ => inl (TopRefused (Refused "body is not one JSON object"))
  end.

Lemma topString_member key m s : topString key m = inr s -> s <> "" /\ (key, JStr s) ∈ m.
Proof.
  induction m as [|[k v] m IH]; cbn [topString]; [done|]. destruct (String.eqb_spec k key) as [->|]; cbn [negb].
  - destruct v; try done. destruct (String.eqb_spec s0 ""); [done|]. intros [= <-]. split; [done|left].
  - destruct (anyFits v); [|done]. intros [? ?]%IH. split; [done|by right].
Qed.

(** The string taken at a key is that of the one member any spelling of the key
    names. *)
Theorem top_level_string_is_the_one (body key s : string) (H : TopLevelString body key = inr s) :
  s <> "" /\ exists m, uniqueKeys body = inr (JObj m) /\ naming key m = [(key, JStr s)].
Proof.
  unfold TopLevelString in H. destruct (uniqueKeys body) as [e|v] eqn:Eu; [done|]. destruct v as [| | | | |m]; try done.
  destruct (topString_member _ _ _ H) as [Hs Hin]. split; [done|]. exists m. split; [done|].
  assert (Hn : (length (naming key m) <= 1)%nat).
  { unfold uniqueKeys in Eu. destruct (parseValue _ _ _ _) as [[v rest]|] eqn:Ep; [|done]. destruct (walkUnique 0 v) eqn:Ew; [|done]. cbn [negb] in Eu.
    assert (v = JObj m) as -> by (destruct (skipWS rest) as [|c r]; [|destruct (_ || _)]; congruence).
    apply naming_one; [|by apply (distinctKeys_nodup []), (walk_inside m (JObj m) 0), inside_self]. apply (wf_inside m (JObj m)); [by apply parse_wf in Ep|constructor]. }
  assert (Hmem : (key, JStr s) ∈ naming key m). { unfold naming. apply list_elem_of_In, filter_In. split; [by apply list_elem_of_In|]. unfold names. by rewrite String.eqb_refl. }
  destruct (naming key m) as [|x [|]]; [by apply not_elem_of_nil in Hmem|by apply list_elem_of_singleton in Hmem as <-|cbn in Hn; lia].
Qed.
End TopLevel.

Definition dquoted (s : string) : string := str_map (fun c => if Ascii.eqb c "'" then "034"%char else c) s.

Lemma accepted_body_reads_one_way_witness :
  let body := dquoted "{'completionOptions':{'squash':true,'bypassPolicy':false},'status':'completed'}" in
  @decodeUnique plainRunes bool bypassAsked body = inr false /\
  @decodeUnique plainRunes bool bypassAsked (dquoted "{'completionOptions':{'bypassPolicy':false,'BYPASSpolicy':true}}") = inl (Refused "body repeats a key or nests too deep") /\
  exists v, decode body = Some v /\ bypassAsked v = Some false.
Proof.
  set (body := dquoted "{'completionOptions':{'squash':true,'bypassPolicy':false},'status':'completed'}").
  assert (H : @decodeUnique plainRunes bool bypassAsked body = inr false) by (vm_compute; reflexivity).
  split_and!; [exact H|vm_compute; reflexivity|].
  destruct (@accepted_body_reads_one_way plainRunes bool bypassAsked body false H) as (v & Hd & Hr & _). by exists v.
Defined.

Lemma top_level_string_is_the_one_witness :
  @TopLevelString plainRunes (dquoted "{'input':[1],'model':'gpt-5'}") "model" = inr "gpt-5" /\
  @TopLevelString plainRunes (dquoted "{'Model':'gpt-5'}") "model" = inl ErrKeyMissing /\
  exists m, @uniqueKeys plainRunes (dquoted "{'input':[1],'model':'gpt-5'}") = inr (JObj m) /\ naming "model" m = [("model", JStr "gpt-5")].
Proof.
  assert (H : @TopLevelString plainRunes (dquoted "{'input':[1],'model':'gpt-5'}") "model" = inr "gpt-5") by (vm_compute; reflexivity).
  split_and!; [exact H|vm_compute; reflexivity|]. apply (@top_level_string_is_the_one plainRunes _ _ _ H).
Defined.

(** A closing bracket after the object is not refused. *)
Example trailing_bracket_is_read : @TopLevelString plainRunes (dquoted "{'model':'gpt-5'}]") "model" = inr "gpt-5".
Proof. vm_compute. reflexivity. Qed.
