(* ===== verification/AdoContent.v ===== *)
(** * Which Azure DevOps requests write content

    [content.go] of [src/internal/adoscope]: for a run with push rules, whether a
    request puts content on a branch, and what a push shows of it. The digest of a
    body is an argument of the model. *)
From S2P Require Import Prelude GoStrings GoPath GoSlices Grants PushRules PushForge PolicyTypes CanonNumber GoJSON GoJSONSound GHPath ApprovalScope PolicyRef AdoNames GoRunes AdoCaps AdoRoute AdoBody AdoScope AdoSound.
Local Open Scope string_scope.
Local Open Scope Z_scope.
Local Open Scope list_scope.
Local Open Scope wardyn_scope.

Inductive ContentWrite := NoContentWrite | ContentPush | ContentOpaque.
#[global] Instance ContentWrite_eq : EqDecision ContentWrite.
Proof. solve_decision. Defined.

Record ContentTarget := mkTarget { ctWrite : ContentWrite; ctRepoPath : string }.
Definition noTarget : ContentTarget := mkTarget NoContentWrite "".

Definition gitOpaqueContentResources : list string :=
  ["importrequests"; "items"; "commits"; "merges"; "cherrypicks"; "reverts"; "suggestions"; "forksyncrequests"; "annotatedtags"].

(** Whether an [any] is set. *)
Definition anySet (v : json) : decoded bool := match v with JNull => Set_ false | _ => if anyFits v then Set_ true else Mismatch end.

(** ** Structs *)

Definition newObjectID (v : json) : option string := m ← structOf v; fieldIn asString "" "newObjectId" m.

Definition prStatus (v : json) : option (string * bool) :=
  m ← structOf v; s ← fieldIn asString "" "status" m; auto ← fieldIn anySet false "autoCompleteSetBy" m; Some (s, auto).

Record change := mkChange { chItem : option string; chSource : string }.
Definition readChange (v : json) : option change :=
  m ← structOf v; item ← fieldIn (ptrOf (fun v => m ← structOf v; fieldIn asString "" "path" m)) None "item" m;
  src ← fieldIn asString "" "sourceServerItem" m; Some (mkChange item src).
Definition readCommit (v : json) : option (list change) := m ← structOf v; fieldIn (fun v => ofOption (sliceOf readChange v)) [] "changes" m.
Definition readPush (v : json) : option (list string * list (list change)) :=
  m ← structOf v; us ← fieldIn (fun v => ofOption (sliceOf newObjectID v)) [] "refUpdates" m;
  cs ← fieldIn (fun v => ofOption (sliceOf readCommit v)) [] "commits" m; Some (us, cs).

(** [strings.Trim(id, "0") != ""]. *)
Definition namesObject (id : string) : bool := negb (str_forall (Ascii.eqb "0") id).

(** ** Paths of a push *)

Definition badPathRune (r : Z) : bool := (r =? 92) || (r <? 32) || (r =? 127).
Definition dotSegment (seg : string) : bool := memS seg [""; "."; ".."].

Definition pushPath (raw : string) : adoErr + string :=
  let p := TrimPrefix raw "/" in
  if String.eqb (TrimSuffix p "/") "" then inl (Refused "names the repository root")
  else if containsRune badPathRune p then inl (Refused "carries a backslash or a control character")
  else if existsb dotSegment (splitByte "/" (TrimSuffix p "/")) then inl (Refused "has an empty or dot segment")
  else inr (TrimSuffix p "/").

Fixpoint rawPaths (raws : list string) : adoErr + list string :=
  match raws with
  | [] => inr []
  | raw :: rest => if String.eqb raw "" then rawPaths rest else p <-? pushPath raw; l <-? rawPaths rest; inr (p :: l)
  end.

Fixpoint changePaths (chs : list change) : adoErr + list string :=
  match chs with
  | [] => inr []
  | ch :: rest =>
      match chItem ch with
      | None => inl (Refused "a push change names no item path")
      | Some path =>
          if String.eqb path "" then inl (Refused "a push change names no item path")
          else ps <-? rawPaths [path; chSource ch]; l <-? changePaths rest; inr (ps ++ l)
      end
  end.

Record Push := mkPush { pushRefs : list string; pushPaths : list string; pushDigest : string }.

Section Unicode.
Context {U : GoUnicode} {R : GoRunes}.

(** ** The routes *)

Definition refContent (req : Request) (t : ContentTarget) : adoErr + ContentTarget :=
  body <-? peekBody req;
  updates <-? decodeUnique (sliceOf newObjectID) body;
  inr (if existsb namesObject updates then mkTarget ContentOpaque (ctRepoPath t) else t).

Definition pullRequestContent (method : string) (req : Request) (t : ContentTarget) (sub : string) : adoErr + ContentTarget :=
  if String.eqb method "DELETE" || negb (String.eqb sub "") then inr t
  else
    body <-? peekBody req;
    if String.eqb (TrimSpace body) "" then inr t
    else
      pr <-? decodeUnique prStatus body;
      let '(status, auto) := pr in
      inr (if negb (memS (ToLower status) [""; "active"; "abandoned"; "notset"]) || auto then mkTarget ContentOpaque (ctRepoPath t) else t).

Definition ClassifyContent (req : Request) : adoErr + ContentTarget :=
  method <-? effectiveMethod (Method req) (Header req);
  r <-? parseRoute (Host req) (Path req) (Org req);
  if String.eqb method "OPTIONS" || memS method readMethods || readWrite method r then inr noTarget
  else if memS (rArea r) ["wiki"; "tfvc"] then inr (mkTarget ContentOpaque "")
  else if negb (String.eqb (rArea r) "git") then inr noTarget
  else if String.eqb (rRes r) "pullrequests" then pullRequestContent method req noTarget (at_ r 4)
  else if negb (String.eqb (rRes r) "repositories") || String.eqb (at_ r 3) "" then inr noTarget
  else
    let path := join "/" (take (default 0%nat (rApis r)) (rSegs r) ++ ["_git"; id_ r 3]) in
    let t := mkTarget NoContentWrite path in
    let res := at_ r 4 in
    if String.eqb res "pushes" && String.eqb method "POST" then inr (mkTarget ContentPush path)
    else if String.eqb res "pushes" || memS res gitOpaqueContentResources then inr (mkTarget ContentOpaque path)
    else if String.eqb res "refs" && String.eqb method "POST" then refContent req t
    else if String.eqb res "pullrequests" then pullRequestContent method req t (at_ r 6)
    else inr t.

(** ** A push *)

Context (digest : string -> string).

Definition ParsePush (req : Request) : adoErr + Push :=
  body <-? peekBody req;
  refs <-? refNames body;
  push <-? decodeUnique readPush body;
  let '(updates, commits) := push in
  if existsb namesObject updates then inl (Refused "a push that points a ref at a commit the request does not show")
  else
    paths <-? changePaths (concat commits);
    match paths with
    | [] => inl (Refused "a push that names no path cannot be judged")
    | _ => inr (mkPush refs paths (digest body))
    end.
End Unicode.

(** ** Lemmas *)

(** A path as git stores it: segments that are names, no backslash, no control byte. *)
Definition cleanPath (p : string) : Prop :=
  p <> "" /\ (forall seg, seg ∈ splitByte "/" p -> dotSegment seg = false) /\ str_forall (fun c => negb (badPathRune (byte_of c))) p = true.

(** A test that no rune passes, no byte passes. *)
Lemma bytes_of_runes f s : (forall r, 128 <= r -> f r = false) -> containsRune f s = false -> str_forall (fun c => negb (f (byte_of c))) s = true.
Proof.
  intros Hw. assert (Hb : forall a, str_forall (fun c => 128 <=? byte_of c) a = true -> str_forall (fun c => negb (f (byte_of c))) a = true).
  { intros a. apply str_forall_impl. intros c Hc. rewrite Hw; [done|lia]. }
  unfold containsRune, runes. generalize (Nat.le_refl (String.length s)). generalize (String.length s) at 2 3 as n. intros n. revert s.
  induction n as [|n IH]; intros [|c s] Hn; cbn in Hn; [done|lia|done|]. cbn [runesLoop]. destruct (DecodeRune (String c s)) as [[r ok] rest] eqn:E. cbn [existsb].
  intros [Hr Hrest]%orb_false_elim. pose proof (rune_shorter _ _ _ _ c s eq_refl E) as Hlen. specialize (IH rest ltac:(lia) Hrest).
  destruct (byte_of c <? 128) eqn:Ec.
  { unfold DecodeRune in E. rewrite Ec in E. injection E as <- <- <-. cbn [str_forall]. by rewrite Hr, IH. }
  destruct ok.
  - pose proof (decode_wide _ _ _ _ _ Ec E). apply decode_ok in E as (a & E & Ha). rewrite E, str_forall_app, IH, andb_true_r. by apply Hb, (wide_rune_bytes _ r).
  - assert (rest = s) as -> by (unfold DecodeRune in E; cbn zeta in E; repeat case_match; simplify_eq; done). cbn [str_forall]. rewrite IH, Hw by lia. done.
Qed.

Lemma TrimSuffix_forall f s suf : str_forall f s = true -> str_forall f (TrimSuffix s suf) = true.
Proof.
  unfold TrimSuffix. destruct (CutSuffix s suf) as [p|] eqn:E; [|done]. apply CutSuffix_Some in E as ->. rewrite str_forall_app. by intros [Hp _]%andb_prop.
Qed.

Lemma pushPath_clean raw p : pushPath raw = inr p -> cleanPath p.
Proof.
  unfold pushPath. destruct (String.eqb_spec (TrimSuffix (TrimPrefix raw "/") "/") "") as [|Hne]; [done|]. destruct (containsRune _ _) eqn:Ec; [done|].
  destruct (existsb _ _) eqn:Es; [done|]. intros [= <-]. split; [done|]. split; [by apply containsFunc_false|]. apply TrimSuffix_forall, bytes_of_runes; [|done].
  intros r Hr. unfold badPathRune. lia.
Qed.

Lemma rawPaths_clean raws l : rawPaths raws = inr l -> Forall cleanPath l.
Proof.
  revert l. induction raws as [|raw raws IH]; intros l; cbn [rawPaths]; [by intros [= <-]|]. destruct (String.eqb raw ""); [apply IH|].
  destruct (pushPath raw) as [e|p] eqn:E; [done|]. cbn [tbind]. destruct (rawPaths raws) as [e|t]; [done|]. intros [= <-]. constructor; [by eapply pushPath_clean|by apply IH].
Qed.

(** Every change is read: each one's path is among the paths of the push. *)
Lemma changePaths_spec chs l : changePaths chs = inr l ->
  Forall cleanPath l /\ forall ch, ch ∈ chs -> exists path p, chItem ch = Some path /\ path <> "" /\ pushPath path = inr p /\ p ∈ l /\
    (chSource ch <> "" -> exists q, pushPath (chSource ch) = inr q /\ q ∈ l).
Proof.
  revert l. induction chs as [|ch chs IH]; intros l; cbn [changePaths].
  { intros [= <-]. split; [done|]. intros ch H. by apply not_elem_of_nil in H. }
  destruct (chItem ch) as [path|] eqn:Ei; [|done]. destruct (String.eqb_spec path "") as [|Hne]; [done|]. intros H. step_ok H ps Ep. step_ok H rest Er.
  injection H as <-. destruct (IH _ eq_refl) as [Hc Hall]. split; [apply Forall_app; split; [by eapply rawPaths_clean|done]|]. intros x [->|Hx]%elem_of_cons.
  - cbn [rawPaths] in Ep. rewrite (proj2 (String.eqb_neq _ _) Hne) in Ep. step_ok Ep p E1. step_ok Ep t E2. injection Ep as <-. exists path, p. split_and!; [done..|left|].
    intros Hs. rewrite (proj2 (String.eqb_neq _ _) Hs) in E2. step_ok E2 q E3. injection E2 as <-. exists q. split; [done|]. right. left.
  - destruct (Hall x Hx) as (path' & p & H1 & H2 & H3 & H4 & H5). exists path', p. split_and!; [done..|apply elem_of_app; by right|].
    intros Hs. destruct (H5 Hs) as (q & Hq & Hin). exists q. split; [done|]. apply elem_of_app. by right.
Qed.

(** Compare the literals of a route. *)
Ltac eval_eqb H :=
  repeat match type of H with context [String.eqb ?a ?b] =>
    let v := eval vm_compute in (String.eqb a b) in
    match v with true => idtac | false => idtac end; change (String.eqb a b) with v in H end;
  cbn [negb andb orb] in H.

Section Sound.
Context {U : GoUnicode} {R : GoRunes}.

(** Where code is written. *)
Lemma code_route m r req v : classifyWrite m r req = inr v -> vCapability v = CapCodeWrite ->
  rArea r = "git" /\ rRes r = "repositories" /\ at_ r 4 ∈ refResources ++ gitCodeWriteResources.
Proof.
  intros H Hv. apply classifyWrite_ok in H as [(c & -> & _ & Hc)|[(_ & ? & ? & ?)|(_ & ? & ? & ?)]]; [done|..]; split_and!; try done; apply elem_of_app; auto.
Qed.

(** A resource that writes code is a push, is opaque, or is the refs themselves. *)
Lemma code_resource res : res ∈ refResources ++ gitCodeWriteResources -> res = "pushes" \/ memS res gitOpaqueContentResources = true \/ res = "refs".
Proof. intros H. cbn in H. repeat (apply elem_of_cons in H as [->|H]; [by auto|]). by apply not_elem_of_nil in H. Qed.

Lemma Classify_code req v m r : Classify req = inr v -> vCapability v = CapCodeWrite -> effectiveMethod (Method req) (Header req) = inr m ->
  parseRoute (Host req) (Path req) (Org req) = inr r -> memS m readMethods = false /\ readWrite m r = false /\ classifyWrite m r req = inr v.
Proof.
  intros Hc Hv Hm Hr. destruct (adoClassify_inv _ _ Hc) as (m' & r' & Em & Er & H). rewrite Hm in Em. injection Em as <-. rewrite Hr in Er. injection Er as <-.
  destruct (assoc deniedAreas (rArea r)) as [c|] eqn:Ea; [exfalso; subst v; apply assoc_elem, denied_table in Ea; cbn in Hv; by subst c|].
  destruct H as [[_ ->]|[(_ & _ & ->)|H]]; [exfalso; unfold locationDiscovery in Hv; by destruct (_ && _)| |done].
  exfalso. cbn in Hv. destruct (readAreaOf r) as [a|] eqn:Era; [|done]. by apply readArea_not_write in Era.
Qed.

(** C28: a run with push rules gets no code past them: where the content check calls a
    request no content write, yet the classifier says it writes code, the request
    moves refs and nothing else, and an update of refs among them points every ref at
    no object at all, which deletes it. *)
Theorem no_code_past_the_push_rules (req : Request) (v : Verdict) (t : ContentTarget) (m : string) (r : route)
    (Hc : Classify req = inr v) (Hv : vCapability v = CapCodeWrite) (Ht : ClassifyContent req = inr t) (Hw : ctWrite t = NoContentWrite)
    (Hm : effectiveMethod (Method req) (Header req) = inr m) (Hr : parseRoute (Host req) (Path req) (Org req) = inr r) (Hrepo : at_ r 3 <> "") :
  namesRefs v /\ at_ r 4 = "refs" /\
  (m = "POST" -> exists body ids, peekBody req = inr body /\ decodeUnique (sliceOf newObjectID) body = inr ids /\ forall id, id ∈ ids -> namesObject id = false).
Proof.
  destruct (Classify_code _ _ _ _ Hc Hv Hm Hr) as (Hread & Hrw & Hcw). destruct (code_route _ _ _ _ Hcw Hv) as (Ha & Hres & H4).
  unfold ClassifyContent in Ht. rewrite Hm, Hr in Ht. cbn [tbind] in Ht. rewrite Hread, Hrw, Ha, Hres, (proj2 (String.eqb_neq _ _) Hrepo) in Ht.
  assert (Ho : String.eqb m "OPTIONS" = false) by (destruct (String.eqb_spec m "OPTIONS") as [->|]; done). rewrite Ho in Ht.
  change (memS "git" ["wiki"; "tfvc"]) with false in Ht. cbn [orb] in Ht. cbn zeta in Ht.
  destruct (code_resource _ H4) as [E|[E|E]].
  - rewrite E in Ht. destruct (String.eqb m "POST"); eval_eqb Ht; injection Ht as <-; done.
  - rewrite E in Ht. rewrite orb_true_r in Ht. eval_eqb Ht. destruct (_ && _); injection Ht as <-; done.
  - rewrite E in Ht. assert (Hn : namesRefs v) by (eapply ref_route; [done|done|by rewrite E; apply memS_true|done]). split_and!; [done..|]. intros ->. change (memS "refs" gitOpaqueContentResources) with false in Ht. eval_eqb Ht.
    unfold refContent in Ht. step_ok Ht body Eb. step_ok Ht ids Ei. injection Ht as <-. exists body, ids. split_and!; [done..|]. apply containsFunc_false.
    by destruct (existsb namesObject ids) eqn:Ex.
Qed.

Context (digest : string -> string).

(** A push the rules judge is shown whole: every change of every commit names a
    path, and the paths judged include it and, for a rename, where it came from; each
    is a path as git stores it, with no empty, dot or parent segment, no backslash and
    no control byte; and the refs it moves are named and well-formed. *)
Theorem judged_push_is_whole (req : Request) (p : Push) (H : ParsePush digest req = inr p) :
  pushRefs p <> [] /\ Forall (fun n => CheckRefName n = true) (pushRefs p) /\ pushPaths p <> [] /\ Forall cleanPath (pushPaths p) /\
  exists body ids commits, peekBody req = inr body /\ decodeUnique readPush body = inr (ids, commits) /\ pushDigest p = digest body /\
    (forall id, id ∈ ids -> namesObject id = false) /\
    forall chs ch, chs ∈ commits -> ch ∈ chs -> exists path q, chItem ch = Some path /\ pushPath path = inr q /\ q ∈ pushPaths p /\
      (chSource ch <> "" -> exists q', pushPath (chSource ch) = inr q' /\ q' ∈ pushPaths p).
Proof.
  unfold ParsePush in H. step_ok H body Eb. step_ok H refs Er. step_ok H push Ep. destruct push as [ids commits]. destruct (existsb namesObject ids) eqn:Ei; [done|].
  step_ok H paths Epa. destruct (refNames_ok _ _ Er) as [Hr1 Hr2]. destruct (changePaths_spec _ _ Epa) as [Hc Hall].
  assert (Hne : paths <> []) by (by destruct paths). assert (p = mkPush refs paths (digest body)) as -> by (destruct paths; [done|by injection H]). cbn [pushRefs pushPaths pushDigest].
  split_and!; [done..|]. exists body, ids, commits. split_and!; [done..|by apply containsFunc_false|]. intros chs ch Hchs Hch.
  destruct (Hall ch) as (path & q & H1 & _ & H3 & H4 & H5); [|by exists path, q]. apply list_elem_of_In, in_concat. exists chs. split; by apply list_elem_of_In.
Qed.
End Sound.

Lemma no_code_past_the_push_rules_witness :
  let req := demoReq "POST" "/acme/web/_apis/git/repositories/r1/refs" "[{'name':'refs/heads/wardyn/r1/x','newObjectId':'0000'}]" in
  @ClassifyContent asciiTables plainRunes req = inr (mkTarget NoContentWrite "web/_git/r1") /\
  @ClassifyContent asciiTables plainRunes (demoReq "POST" "/acme/web/_apis/git/repositories/r1/refs" "[{'name':'refs/heads/x','newObjectId':'00a0'}]")
    = inr (mkTarget ContentOpaque "web/_git/r1") /\
  namesRefs (mkVerdict CapCodeWrite ["refs/heads/wardyn/r1/x"]).
Proof.
  set (req := demoReq "POST" "/acme/web/_apis/git/repositories/r1/refs" "[{'name':'refs/heads/wardyn/r1/x','newObjectId':'0000'}]").
  assert (H : @ClassifyContent asciiTables plainRunes req = inr (mkTarget NoContentWrite "web/_git/r1")) by (vm_compute; reflexivity).
  split_and!; [exact H|vm_compute; reflexivity|].
  apply (@no_code_past_the_push_rules asciiTables plainRunes req (mkVerdict CapCodeWrite ["refs/heads/wardyn/r1/x"]) (mkTarget NoContentWrite "web/_git/r1") "POST"
    (mkRoute "dev.azure.com" ["web"; "_apis"; "git"; "repositories"; "r1"; "refs"] ["web"; "_apis"; "git"; "repositories"; "r1"; "refs"] (Some 1%nat) "git" "repositories"));
    [vm_compute; reflexivity|reflexivity|exact H|reflexivity|vm_compute; reflexivity|vm_compute; reflexivity|vm_compute; discriminate].
Defined.

Lemma judged_push_is_whole_witness :
  let req := demoReq "POST" "/acme/web/_apis/git/repositories/r1/pushes"
    "{'refUpdates':[{'name':'refs/heads/x'}],'commits':[{'changes':[{'item':{'path':'/src/main.go'},'sourceServerItem':'/src/old.go'}]}]}" in
  @ParsePush asciiTables plainRunes (fun _ => "d1") req = inr (mkPush ["refs/heads/x"] ["src/main.go"; "src/old.go"] "d1") /\ cleanPath "src/old.go".
Proof.
  set (req := demoReq "POST" "/acme/web/_apis/git/repositories/r1/pushes"
    "{'refUpdates':[{'name':'refs/heads/x'}],'commits':[{'changes':[{'item':{'path':'/src/main.go'},'sourceServerItem':'/src/old.go'}]}]}").
  assert (H : @ParsePush asciiTables plainRunes (fun _ => "d1") req = inr (mkPush ["refs/heads/x"] ["src/main.go"; "src/old.go"] "d1")) by (vm_compute; reflexivity).
  split; [exact H|]. destruct (@judged_push_is_whole asciiTables plainRunes (fun _ => "d1") req _ H) as (_ & _ & _ & Hc & _). cbn [pushPaths] in Hc.
  rewrite Forall_forall in Hc. apply Hc. right. left.
Defined.
