(* ===== verification/Placement.v ===== *)
(** * Local placement: the request, the refusals and the delivery policy

    [src/internal/placement]: placement.go, reasons.go and delivery.go, with the trust
    classes of [src/internal/types/runner.go]. A class key, a mode and a trust class are
    strings, as the stored document holds them. A Go map is a [gmap]; where nil and empty
    maps are told apart ([reflect.DeepEqual] does), nil is [None]. [uuid.Parse] is a
    parameter. *)
From stdpp Require Import gmap.
From S2P Require Import Prelude GoStrings GoSlices Grants.
Local Open Scope string_scope.
Local Open Scope Z_scope.
Local Open Scope list_scope.

(** ** Refusal reasons and their HTTP status *)

Definition reasonStatus : list (string * Z) := [
  ("placement_unavailable", 422); ("placement_denied", 403); ("placement_credential", 422);
  ("placement_trusted_output", 422); ("placement_component_self_defined", 403);
  ("placement_capability", 422); ("placement_local_path", 422); ("runner_offline", 422);
  ("runner_at_capacity", 422); ("runner_limits_unset", 422); ("runner_ambiguous", 422);
  ("runner_not_found", 404); ("runner_unclaimed", 409); ("runner_revoked", 401);
  ("runner_token_invalid", 401); ("runner_claim_mismatch", 403); ("runner_posture_unmet", 422);
  ("runner_trust_changed", 409); ("runner_keystore_unavailable", 422); ("runner_action_pending", 409);
  ("runner_recording_off", 422); ("recording_store_off", 422); ("relay_runner_mismatch", 403);
  ("relay_required", 403); ("relay_route_refused", 403); ("delivery_via_org", 403);
  ("delivery_runner_resident", 403); ("delivery_not_via_org", 403);
  ("via_org_destination_refused", 403); ("via_org_cap_exceeded", 429)].

Definition reasonEntry (r : string) : option (string * Z) := findFirst (fun e => String.eqb (fst e) r) reasonStatus.
Definition ReasonStatus (r : string) : Z := match reasonEntry r with Some e => snd e | None => 0 end.
Definition ReasonValid (r : string) : bool := match reasonEntry r with Some _ => true | None => false end.

Definition ReasonPlacementCredential : string := "placement_credential".
Definition ReasonPlacementTrustedOutput : string := "placement_trusted_output".
Definition ReasonPlacementComponentSelfDefine : string := "placement_component_self_defined".
Definition ReasonPlacementCapability : string := "placement_capability".
Definition ReasonPlacementLocalPath : string := "placement_local_path".
Definition ReasonRunnerPostureUnmet : string := "runner_posture_unmet".

(** ** The request and the capacity *)

Definition Remote : string := "remote".
Definition Local_ : string := "local".

Record Request := mkRequest { reqPlacement : string; reqRunnerID : string }.
Inductive RequestErr := UnknownPlacement (p : string) | RunnerNeedsLocal | RunnerNotUUID.

Definition RequestValidate (uuidParse : string -> option string) (r : Request) : option RequestErr :=
  let p := reqPlacement r in
  if negb (String.eqb p "" || String.eqb p Remote || String.eqb p Local_) then Some (UnknownPlacement p)
  else if String.eqb (reqRunnerID r) "" then None
  else if negb (String.eqb p Local_) then Some RunnerNeedsLocal
  else match uuidParse (reqRunnerID r) with None => Some RunnerNotUUID | Some _ => None end.

Record Capacity := mkCapacity { CPUMillisMax : Z; MemoryMiBMax : Z }.
Definition Fits (c : Capacity) (cpuMillis memoryMiB : Z) : bool :=
  ((cpuMillis <=? 0) || (cpuMillis <=? CPUMillisMax c)) && ((memoryMiB <=? 0) || (memoryMiB <=? MemoryMiBMax c)).

Definition EvidenceSubstrate : string := "substrate".
Definition EvidenceRunnerAsserted : string := "runner_asserted".
Definition EvidenceFor (p : string) : string := if String.eqb p Local_ then EvidenceRunnerAsserted else EvidenceSubstrate.

Definition RunnerSubstrateName (runnerID : string) : string := "runner:" +:+ runnerID.
Definition RunnerRefPrefix (runnerID : string) : string := RunnerSubstrateName runnerID +:+ "/".

(** ** Trust classes *)

Definition RunnerTrustPersonal : string := "personal".
Definition RunnerTrustManagedDevice : string := "managed_device".
Definition RunnerTrustOrgCluster : string := "org_cluster".
Definition RunnerOwnerPerson : string := "person".
Definition RunnerOwnerOrg : string := "org".

Definition TrustValid (c : string) : bool :=
  String.eqb c RunnerTrustPersonal || String.eqb c RunnerTrustManagedDevice || String.eqb c RunnerTrustOrgCluster.
Definition FitsOwner (c kind : string) : bool :=
  TrustValid c && Bool.eqb (String.eqb c RunnerTrustOrgCluster) (String.eqb kind RunnerOwnerOrg).
Definition TrustClassesByRank : list string := [RunnerTrustOrgCluster; RunnerTrustManagedDevice; RunnerTrustPersonal].

(** ** Modes and classes *)

Definition ModeOwn : string := "own".
Definition ModeViaOrg : string := "via_org".
Definition ModeRunnerResident : string := "runner_resident".
Definition ModeRefuse : string := "refuse".

Definition ClassOAuthSubscription : string := "oauth_subscription".
Definition ClassAPIKey : string := "api_key".
Definition ClassBedrockBearer : string := "bedrock_bearer".
Definition ClassAWSSSOBearer : string := "aws_sso_bearer".
Definition ClassAzureFoundryToken : string := "azure_foundry_token".
Definition ClassBedrockRoleCreds : string := "bedrock_role_credentials".
Definition ClassEnvSecret : string := "env_secret".
Definition ClassFileSecret : string := "file_secret".
Definition ClassSSHKey : string := "ssh_key".
Definition ClassGitPATBroker : string := "git_pat_broker".
Definition ClassGitPATHelper : string := "git_pat_helper".
Definition ClassGitHubToken : string := "github_token".
Definition ClassADOMintedPAT : string := "ado_minted_pat".
Definition ClassCloudSTS : string := "cloud_sts".

Definition viaOrgResidentRefuse : list string := [ModeViaOrg; ModeRunnerResident; ModeRefuse].

Definition classModesTable : list (string * list string) := [
  (ClassOAuthSubscription, [ModeOwn]);
  (ClassAPIKey, viaOrgResidentRefuse);
  (ClassBedrockBearer, viaOrgResidentRefuse);
  (ClassAWSSSOBearer, viaOrgResidentRefuse);
  (ClassAzureFoundryToken, viaOrgResidentRefuse);
  (ClassBedrockRoleCreds, [ModeRunnerResident; ModeRefuse]);
  (ClassEnvSecret, [ModeRunnerResident; ModeRefuse]);
  (ClassFileSecret, [ModeRunnerResident; ModeRefuse]);
  (ClassSSHKey, [ModeRunnerResident; ModeRefuse]);
  (ClassGitPATBroker, viaOrgResidentRefuse);
  (ClassGitPATHelper, [ModeRunnerResident; ModeRefuse]);
  (ClassGitHubToken, [ModeViaOrg; ModeRefuse]);
  (ClassADOMintedPAT, viaOrgResidentRefuse);
  (ClassCloudSTS, [ModeRefuse])].

Definition classEntry (class : string) : option (string * list string) := findFirst (fun e => String.eqb (fst e) class) classModesTable.
(** [classModes[class]]: nil for an unknown class. *)
Definition classModes (class : string) : list string := match classEntry class with Some e => snd e | None => [] end.
Definition classKnown (class : string) : bool := match classEntry class with Some _ => true | None => false end.
Definition fixedClasses : list string := [ClassOAuthSubscription; ClassCloudSTS].
Definition DeliveryClasses : list string := sortStrings (map fst classModesTable).
Definition AllowedModes (class : string) : list string := classModes class.
Definition Writable (class : string) : bool := classKnown class && negb (bool_decide (class ∈ fixedClasses)).

(** ** Posture *)

Record RunnerPosture := mkPosture { pMDM : bool; pDisk : bool; pOS : string; pOSVersion : string; pEvidence : string }.
Record PostureRequirement := mkReq { rMDM : bool; rDisk : bool; rOSMin : option (gmap string string) }.
#[export] Instance PostureRequirement_eq : EqDecision PostureRequirement.
Proof. solve_decision. Defined.

(** The numeric part at the head of a version, 0 past its end. *)
Definition versionPart (l : list string) : option Z := match l with [] => Some 0 | p :: _ => Atoi p end.

Fixpoint versionLoop (n : nat) (a b : list string) : bool :=
  match n with
  | O => true
  | S n' =>
      match versionPart a with
      | None => false
      | Some x =>
          match versionPart b with
          | None => false
          | Some y => if negb (x =? y) then y <? x else versionLoop n' (tail a) (tail b)
          end
      end
  end.

Definition versionAtLeast (v min : string) : bool :=
  let a := splitByte "." v in let b := splitByte "." min in
  versionLoop (Nat.max (length a) (length b)) a b.

Definition osMin (req : PostureRequirement) : gmap string string := default ∅ (rOSMin req).

Definition PostureUnmetAll (req : option PostureRequirement) (p : option RunnerPosture) : list string :=
  match req with
  | None => []
  | Some r =>
      match p with
      | None => ["posture"]
      | Some p =>
          (if rMDM r && negb (pMDM p) then ["mdm_managed"] else []) ++
          (if rDisk r && negb (pDisk p) then ["disk_encrypted"] else []) ++
          (if bool_decide (osMin r = ∅) then []
           else match osMin r !! pOS p with
                | None => ["os_min"]
                | Some min => if negb (versionAtLeast (pOSVersion p) min) then ["os_min"] else []
                end)
      end
  end.

Definition PostureUnmet (req : option PostureRequirement) (p : option RunnerPosture) : string :=
  match PostureUnmetAll req p with f :: _ => f | [] => "" end.

Definition mapKeys {A} (m : gmap string A) : list string := sortStrings (map fst (map_to_list m)).

Definition requires (req : PostureRequirement) : string :=
  String.concat ", "
    ((if rMDM req then ["mdm_managed"] else []) ++ (if rDisk req then ["disk_encrypted"] else []) ++
     map (fun name => "os_min " +:+ name +:+ " " +:+ default "" (osMin req !! name)) (mapKeys (osMin req))).

(** ** The delivery policy *)

Record ClassPolicy := mkClassPolicy { cpMode : string; cpPosture : option PostureRequirement }.
#[export] Instance ClassPolicy_eq : EqDecision ClassPolicy.
Proof. solve_decision. Defined.

Record DeliveryPolicy := mkDelivery { Classes : gmap string ClassPolicy; ByTrust : gmap string (gmap string ClassPolicy) }.
Definition trustClasses (p : DeliveryPolicy) (trust : string) : gmap string ClassPolicy := default ∅ (ByTrust p !! trust).

(** [p.Classes[class].Mode], "" for an absent class. *)
Definition modeAt (m : gmap string ClassPolicy) (class : string) : string := match m !! class with Some cp => cpMode cp | None => "" end.

Inductive PolicyErr :=
| UnknownTrust (trust : string) | UnknownClass (name : string) | NotConfigurable (name : string)
| CannotDeliver (name mode : string) (allowed : list string) | PostureWithoutResident (name : string)
| TrustViaOrg (trust class : string) | GloballyViaOrg (trust class : string) | PostureOnCluster (trust class : string).

(** The first error of a loop over keys. *)
Fixpoint firstErr {A E} (f : A -> option E) (l : list A) : option E :=
  match l with [] => None | x :: l' => match f x with Some e => Some e | None => firstErr f l' end end.

Definition validateClass (classes : gmap string ClassPolicy) (prefix class : string) : option PolicyErr :=
  match classes !! class with
  | None => None
  | Some cp =>
      let name := prefix +:+ class in
      if negb (classKnown class) then Some (UnknownClass name)
      else if negb (Writable class) then Some (NotConfigurable name)
      else if negb (bool_decide (cpMode cp ∈ classModes class)) then Some (CannotDeliver name (cpMode cp) (classModes class))
      else if bool_decide (cpPosture cp <> None) && negb (String.eqb (cpMode cp) ModeRunnerResident) then Some (PostureWithoutResident name)
      else None
  end.
Definition validateClasses (classes : gmap string ClassPolicy) (prefix : string) : option PolicyErr :=
  firstErr (validateClass classes prefix) (mapKeys classes).

Definition validateOverride (p : DeliveryPolicy) (trust class : string) : option PolicyErr :=
  match trustClasses p trust !! class with
  | None => None
  | Some cp =>
      if String.eqb (cpMode cp) ModeViaOrg then Some (TrustViaOrg trust class)
      else if String.eqb (modeAt (Classes p) class) ModeViaOrg then Some (GloballyViaOrg trust class)
      else if bool_decide (cpPosture cp <> None) && String.eqb trust RunnerTrustOrgCluster then Some (PostureOnCluster trust class)
      else None
  end.

Definition validateTrust (p : DeliveryPolicy) (trust : string) : option PolicyErr :=
  if negb (TrustValid trust) then Some (UnknownTrust trust)
  else match validateClasses (trustClasses p trust) ("by_trust." +:+ trust +:+ ".") with
       | Some e => Some e
       | None => firstErr (validateOverride p trust) (mapKeys (trustClasses p trust))
       end.

Definition PolicyValidate (p : DeliveryPolicy) : option PolicyErr :=
  match validateClasses (Classes p) "" with
  | Some e => Some e
  | None => firstErr (validateTrust p) (mapKeys (ByTrust p))
  end.

Definition refusePolicy : ClassPolicy := mkClassPolicy ModeRefuse None.

Definition ForTrust (p : DeliveryPolicy) (class trust : string) : ClassPolicy :=
  let global := Classes p !! class in
  let gated :=
    if negb (TrustValid trust) then refusePolicy
    else match trustClasses p trust !! class with
         | Some cp => cp
         | None => default refusePolicy global
         end in
  match global with
  | Some g => if String.eqb (cpMode g) ModeViaOrg then g else gated
  | None => gated
  end.

(** ** Placeholders *)

Section Placeholders.
Context (uuidParse : string -> option string).

Definition residentPlaceholderPrefix : string := "wardyn-resident:".
Definition ResidentPlaceholder (grantID : string) : string := residentPlaceholderPrefix +:+ grantID.
Definition ResidentGrantID (v : string) : option string :=
  match CutPrefix v residentPlaceholderPrefix with None => None | Some rest => uuidParse rest end.

Definition FillPlaceholderPrefix : string := "wardyn-placeholder:".
Definition FillGrantID (v : string) : option string :=
  match CutPrefix v FillPlaceholderPrefix with None => None | Some rest => uuidParse rest end.
End Placeholders.
