(* ===== verification/PlaceTable.v ===== *)
(** * The dispatched types and the classification table of local placement

    The declarations of the types a dispatch carries, the table of
    [src/internal/placement/classify.go] with the closed schema of nested.go, and what the
    walk over that schema shows of the types. *)
From stdpp Require Import base list strings relations.
From S2P Require Import Prelude GoStrings Placement.
Local Open Scope string_scope.
Local Open Scope list_scope.

(** ** The dispatched types, as reflection sees them

    Every struct type that [src/internal/placement/nested.go] walks: a
    [runner.SandboxSpec], the stored [proxy.Config], the placement plan, and what they hold.
    A named type that is not a struct is its underlying kind; [uuid.UUID] is an array of
    bytes, [time.Time] and [netip.Prefix] are structs of other packages. *)

(** [reflect.Type], by kind. *)
Inductive goType :=
| TBasic | TFunc | TIface
| TPtr (t : goType) | TSlice (t : goType) | TArray (t : goType) | TMap (k v : goType)
| TStruct (name : string).

(** [reflect.StructField]: [fJSON] is false for the tag [json:"-"]. *)
Record goField := mkField { fName : string; fExported : bool; fAnonymous : bool; fJSON : bool; fType : goType }.
(** A struct type: its [Name()], without the package, and its fields in order. *)
Record goStruct := mkStruct { sName : string; sFields : list goField }.

Definition fld (n : string) (t : goType) : goField := mkField n true false true t.
Definition emb (n : string) (t : goType) : goField := mkField n true true true t.
Definition dashed (n : string) (t : goType) : goField := mkField n true false false t.

Definition types_GrantSpec : goStruct := mkStruct "GrantSpec"
  [fld "Kind" TBasic; fld "Scope" (TSlice TBasic); fld "TTLSeconds" TBasic; fld "RequiresApproval" TBasic;
   fld "OwnerOnly" TBasic; fld "OwnerOnlyRefs" (TSlice TBasic)].

Definition types_WorkspaceMount : goStruct := mkStruct "WorkspaceMount"
  [fld "Source" TBasic; fld "Target" TBasic; fld "ReadOnly" (TPtr TBasic)].

Definition types_WorkspaceRepo : goStruct := mkStruct "WorkspaceRepo"
  [fld "Repo" TBasic; fld "Target" TBasic; fld "Ref" TBasic].

Definition types_LLMInspectionSpec : goStruct := mkStruct "LLMInspectionSpec"
  [fld "Mode" TBasic; fld "WorkspaceSecretNames" (TSlice TBasic); fld "WorkspaceSecretValues" (TSlice TBasic);
   fld "DetectSecrets" TBasic; fld "DetectSecretPatterns" TBasic; fld "DetectEntropy" TBasic; fld "DetectPII" TBasic;
   fld "DetectorSidecarURL" TBasic; fld "ClassifiedMarkers" (TSlice TBasic); fld "ScanAttachments" TBasic;
   fld "InspectForwardEgress" TBasic; fld "MaxScanBytes" TBasic; fld "OnScannerError" TBasic; fld "RequireInspectableLLM" TBasic;
   fld "InterceptTLS" TBasic; fld "BlockMinSeverity" TBasic].

Definition types_UIApp : goStruct := mkStruct "UIApp"
  [fld "Name" TBasic; fld "Port" TBasic; fld "Path" TBasic; fld "Inbound" TBasic; fld "Callers" (TSlice TBasic)].

Definition types_ResourceLimits : goStruct := mkStruct "ResourceLimits"
  [fld "CPUMillis" TBasic; fld "MemoryMiB" TBasic; fld "PidsLimit" TBasic; fld "DiskMiB" TBasic].

Definition types_ToolRule : goStruct := mkStruct "ToolRule"
  [fld "Tool" TBasic; fld "Effect" TBasic].

Definition types_PushRulesSpec : goStruct := mkStruct "PushRulesSpec"
  [fld "DenyPaths" (TSlice TBasic); fld "MaxInspectPackMiB" TBasic; fld "RequireReviewPaths" (TSlice TBasic);
   fld "HoldSeconds" TBasic; fld "DenyNewExecutables" TBasic; fld "MaxFileSizeMiB" TBasic; fld "DenyAll" TBasic].

Definition types_HarnessInnerWalls : goStruct := mkStruct "HarnessInnerWalls"
  [fld "SandboxMode" TBasic; fld "Approvals" TBasic].

Definition types_DesktopControls : goStruct := mkStruct "DesktopControls"
  [fld "PasteIn" TBasic; fld "CopyOut" TBasic; fld "Upload" TBasic; fld "Download" TBasic].

Definition types_RunPolicySpec : goStruct := mkStruct "RunPolicySpec"
  [fld "AllowedDomains" (TSlice TBasic); fld "DeniedDomains" (TSlice TBasic); fld "AllowAllEgress" TBasic;
   fld "FirstUseApproval" TBasic; fld "FirstUseHoldSeconds" TBasic; fld "MaxHolds" TBasic; fld "AllowedMethods" (TSlice TBasic);
   fld "MinConfinementClass" TBasic; fld "EligibleGrants" (TSlice (TStruct "types.GrantSpec")); fld "AutoStopAfterSec" TBasic;
   fld "WorkspaceMounts" (TSlice (TStruct "types.WorkspaceMount"));
   fld "WorkspaceRepos" (TSlice (TStruct "types.WorkspaceRepo")); fld "LLMInspection" (TPtr (TStruct "types.LLMInspectionSpec"));
   fld "UIApps" (TSlice (TStruct "types.UIApp")); fld "Resources" (TPtr (TStruct "types.ResourceLimits"));
   fld "ToolRules" (TSlice (TStruct "types.ToolRule")); fld "GitPushAnyBranch" TBasic;
   fld "PushRules" (TPtr (TStruct "types.PushRulesSpec")); fld "AzureDevOpsCapabilities" (TSlice TBasic);
   fld "GitHubCapabilities" (TSlice TBasic); fld "HarnessInnerWalls" (TPtr (TStruct "types.HarnessInnerWalls"));
   fld "Desktop" (TPtr (TStruct "types.DesktopControls")); fld "Recording" TBasic].

Definition egress_PinRoute : goStruct := mkStruct "PinRoute"
  [fld "Method" TBasic; fld "Path" TBasic].

Definition egress_InjectionRule : goStruct := mkStruct "InjectionRule"
  [fld "Host" TBasic; fld "Header" TBasic; fld "SecretName" TBasic; fld "Format" TBasic; fld "RequireTLS" TBasic;
   fld "PinPath" TBasic; fld "PinQuery" (TMap TBasic TBasic); fld "PinRoutes" (TSlice (TStruct "egress.PinRoute"));
   fld "Placeholder" TBasic].

Definition runner_InjectionGrant : goStruct := mkStruct "InjectionGrant"
  [fld "GrantID" (TArray TBasic); fld "Rule" (TStruct "egress.InjectionRule")].

Definition proxy_PATGrant : goStruct := mkStruct "PATGrant"
  [fld "GrantID" (TArray TBasic); fld "Username" TBasic; fld "Repos" (TPtr (TSlice TBasic)); fld "Access" TBasic;
   fld "Forge" TBasic; fld "API" TBasic].

Definition proxy_ADOGrantConfig : goStruct := mkStruct "ADOGrantConfig"
  [fld "Organization" TBasic; fld "Capabilities" (TSlice TBasic); fld "Hosts" (TSlice TBasic)].

Definition proxy_AzureGateConfig : goStruct := mkStruct "AzureGateConfig"
  [fld "Host" TBasic; fld "Route" TBasic; fld "Models" (TSlice TBasic); fld "BodyCap" TBasic].

Definition proxy_GitHubAPIGrant : goStruct := mkStruct "GitHubAPIGrant"
  [fld "Capabilities" (TSlice TBasic); fld "Repos" (TSlice TBasic); fld "Grants" (TMap TBasic (TArray TBasic))].

Definition proxy_AzureARMGrant : goStruct := mkStruct "AzureARMGrant"
  [fld "TenantID" TBasic; fld "Subscriptions" (TSlice TBasic); fld "Write" TBasic].

Definition proxy_AWSSigV4Config : goStruct := mkStruct "AWSSigV4Config"
  [fld "GrantID" (TArray TBasic); fld "PortalHost" TBasic; fld "AccountID" TBasic; fld "RoleName" TBasic;
   fld "Hosts" (TSlice TBasic)].

Definition proxy_KubeAPIGrant : goStruct := mkStruct "KubeAPIGrant"
  [fld "Host" TBasic; fld "Port" TBasic; fld "CAPEM" TBasic; fld "Namespaces" (TSlice TBasic); fld "Write" TBasic].

Definition proxy_ResidentMint : goStruct := mkStruct "ResidentMint"
  [fld "GrantID" (TArray TBasic); fld "Kind" TBasic; fld "Username" TBasic; fld "KnownHosts" TBasic; fld "Token" TBasic;
   fld "ExpiresAt" (TStruct "time.Time"); fld "Host" TBasic].

Definition types_InternalHost : goStruct := mkStruct "InternalHost"
  [fld "HostSuffix" TBasic; fld "CIDRs" (TSlice TBasic); fld "Baseline" TBasic].

Definition policyref_Ref : goStruct := mkStruct "Ref"
  [fld "Source" TBasic; fld "Name" TBasic; fld "Owner" TBasic; fld "Email" TBasic; fld "RequestURL" TBasic;
   fld "RequestText" TBasic; fld "Overridden" TBasic; fld "Layer" TBasic; fld "Locked" TBasic].

Definition types_PushRuleSet : goStruct := mkStruct "PushRuleSet"
  [fld "Provider" TBasic; fld "Host" TBasic; fld "Org" TBasic; fld "BasePath" TBasic;
   fld "Rules" (TStruct "types.PushRulesSpec")].

Definition types_HarnessToolRules : goStruct := mkStruct "HarnessToolRules"
  [fld "Harness" TBasic; fld "Default" TBasic; fld "Rules" (TSlice (TStruct "types.ToolRule"))].

Definition types_HarnessCredential : goStruct := mkStruct "HarnessCredential"
  [fld "Harness" TBasic; fld "SHA256" TBasic].

Definition proxy_ViaOrgRoute : goStruct := mkStruct "ViaOrgRoute"
  [fld "GrantID" (TArray TBasic); fld "Host" TBasic].

Definition proxy_MCPServerConfig : goStruct := mkStruct "MCPServerConfig"
  [fld "Key" TBasic; fld "URL" TBasic; fld "GrantID" (TPtr (TArray TBasic)); fld "Ordinal" TBasic].

Definition proxy_MCPBinding : goStruct := mkStruct "MCPBinding"
  [fld "Harness" TBasic; fld "SHA256" TBasic; fld "Servers" (TSlice TBasic)].

Definition types_LocalModelSettings : goStruct := mkStruct "LocalModelSettings"
  [fld "Models" (TSlice TBasic); fld "MaxContext" TBasic; fld "MaxOutput" TBasic; fld "KeepAliveSeconds" TBasic;
   fld "AllowOnLaptopRunners" TBasic].

Definition proxy_GatewayIdentityRoute : goStruct := mkStruct "GatewayIdentityRoute"
  [fld "Host" TBasic; fld "Port" TBasic; fld "PathPrefix" TBasic; fld "ProviderID" TBasic; fld "MCPKey" TBasic;
   fld "Audience" TBasic; fld "ProviderUID" TBasic; fld "InspectionDeferred" TBasic].

Definition runner_ModelLimit : goStruct := mkStruct "ModelLimit"
  [fld "Models" (TSlice TBasic); fld "BedrockRoutes" (TMap TBasic TBasic)].

Definition runner_ProxyConfig : goStruct := mkStruct "ProxyConfig"
  [fld "RunToken" TBasic; fld "ControlPlaneURL" TBasic; fld "ControlPlaneCAPEM" TBasic;
   fld "Policy" (TStruct "types.RunPolicySpec"); fld "Injection" (TSlice (TStruct "runner.InjectionGrant"));
   fld "MITMCACertPEM" TBasic; fld "MITMCAKeyPEM" TBasic; fld "MITMHosts" (TSlice TBasic); fld "MITMLLM" TBasic;
   fld "GitGrants" (TMap TBasic (TArray TBasic)); fld "PATGrants" (TMap TBasic (TStruct "proxy.PATGrant"));
   fld "ADOGrant" (TPtr (TStruct "proxy.ADOGrantConfig")); fld "AzureGates" (TSlice (TStruct "proxy.AzureGateConfig"));
   fld "GitPushWithheld" (TMap TBasic TBasic); fld "GitHubAPI" (TPtr (TStruct "proxy.GitHubAPIGrant"));
   fld "AzureARM" (TPtr (TStruct "proxy.AzureARMGrant")); fld "AWSSigV4" (TPtr (TStruct "proxy.AWSSigV4Config"));
   fld "KubeAPI" (TPtr (TStruct "proxy.KubeAPIGrant")); fld "BrokeredPATGrantIDs" (TSlice (TArray TBasic));
   fld "ResidentMints" (TSlice (TStruct "proxy.ResidentMint")); fld "UpstreamProxyURL" TBasic; fld "TrustedCAPEM" TBasic;
   fld "InternalHosts" (TSlice (TStruct "types.InternalHost")); fld "UpstreamProxyNoProxy" (TSlice TBasic);
   fld "LLMUpstreams" (TMap TBasic TBasic); fld "LLMChannelHosts" (TMap TBasic TBasic); fld "LLMUnavailableDetail" TBasic;
   fld "Unattended" TBasic; fld "ScrubResponses" TBasic; fld "CanonicalPushRepos" TBasic;
   fld "Attribution" (TPtr (TStruct "policyref.Ref")); fld "PushRuleSets" (TSlice (TStruct "types.PushRuleSet"));
   fld "PushRuleBase" (TPtr (TStruct "types.PushRulesSpec")); fld "HarnessToolRules" (TSlice (TStruct "types.HarnessToolRules"));
   fld "HarnessCredentials" (TSlice (TStruct "types.HarnessCredential"));
   fld "ViaOrgRoutes" (TSlice (TStruct "proxy.ViaOrgRoute")); fld "MCPServers" (TSlice (TStruct "proxy.MCPServerConfig"));
   fld "MCPBindings" (TSlice (TStruct "proxy.MCPBinding")); fld "VM" TBasic; fld "PortRule" TBasic; fld "DesktopSignins" TBasic;
   fld "ForgeHosts" (TSlice TBasic); fld "LocalModels" (TMap TBasic (TStruct "types.LocalModelSettings"));
   fld "GatewayIdentity" (TSlice (TStruct "proxy.GatewayIdentityRoute")); fld "ModelLimit" (TPtr (TStruct "runner.ModelLimit"))].

Definition runner_Resources : goStruct := mkStruct "Resources"
  [fld "CPUMillis" TBasic; fld "MemoryMiB" TBasic; fld "CPURequestMillis" TBasic; fld "MemoryRequestMiB" TBasic;
   fld "PidsLimit" TBasic; fld "DiskMiB" TBasic; fld "DiskMiBSoft" TBasic; fld "LifetimeCap" TBasic; dashed "ProxyAzure" TBasic].

Definition runner_Mount : goStruct := mkStruct "Mount"
  [fld "Source" TBasic; fld "Target" TBasic; fld "ReadOnly" TBasic; fld "MemberAuthored" TBasic; fld "DriveAuthored" TBasic;
   fld "BoundRunner" TBasic].

Definition runner_UserWritableCeiling : goStruct := mkStruct "UserWritableCeiling"
  [fld "Roots" (TSlice TBasic); fld "Deny" (TSlice TBasic)].

Definition types_DriveMount : goStruct := mkStruct "DriveMount"
  [fld "DriveID" (TArray TBasic); fld "Backend" TBasic; fld "ObjectName" TBasic; fld "HostRoot" TBasic; fld "DriveName" TBasic;
   fld "StorageClass" TBasic; fld "HomeName" TBasic; fld "SubjectHash" TBasic; fld "Target" TBasic; fld "ReadOnly" TBasic;
   fld "SizeMiB" TBasic; fld "Enforcement" TBasic; fld "Team" TBasic; fld "RunnerID" (TPtr (TArray TBasic))].

Definition runner_ManagedFile : goStruct := mkStruct "ManagedFile"
  [fld "Path" TBasic; fld "Mode" TBasic; fld "AgentOwned" TBasic; fld "WipeAfterRead" TBasic; fld "Content" (TSlice TBasic)].

Definition runner_KeptMachineSpec : goStruct := mkStruct "KeptMachineSpec"
  [fld "ID" (TArray TBasic); fld "Mode" TBasic; fld "OwnerHash" TBasic; fld "IdleDays" TBasic; fld "Name" TBasic].

Definition runner_SandboxSpec : goStruct := mkStruct "SandboxSpec"
  [fld "RunID" (TArray TBasic); fld "RunnerID" TBasic; fld "RunnerMaxRuns" TBasic; fld "Namespace" TBasic; fld "Image" TBasic;
   fld "ConfinementClass" TBasic; fld "Env" (TMap TBasic TBasic); fld "SecretEnv" (TMap TBasic TBasic);
   fld "ProxyConfig" (TStruct "runner.ProxyConfig"); fld "Resources" (TStruct "runner.Resources");
   fld "Labels" (TMap TBasic TBasic); fld "Mounts" (TSlice (TStruct "runner.Mount")); fld "UserMountRoots" (TSlice TBasic);
   fld "UserWritable" (TPtr (TStruct "runner.UserWritableCeiling")); fld "Drives" (TSlice (TStruct "types.DriveMount"));
   fld "ManagedFiles" (TSlice (TStruct "runner.ManagedFile")); dashed "OnWaiting" TFunc; fld "Interactive" TBasic;
   fld "DesktopSignins" TBasic; dashed "ExecOutput" TIface; fld "Record" (TPtr TBasic); fld "MachineKind" TBasic;
   fld "MacOSBase" TBasic; fld "KeptMachine" (TPtr (TStruct "runner.KeptMachineSpec")); fld "ImageArches" (TSlice TBasic);
   fld "DesktopSignInsOff" TBasic; fld "DesktopViewOnly" TBasic].

Definition proxy_InjectionConfig : goStruct := mkStruct "InjectionConfig"
  [emb "InjectionRule" (TStruct "egress.InjectionRule"); fld "GrantID" (TArray TBasic)].

Definition proxy_DecisionSinkConfig : goStruct := mkStruct "DecisionSinkConfig"
  [fld "URL" TBasic; fld "SPKISHA256" TBasic; fld "Key" TBasic].

Definition proxy_HardDenyConfig : goStruct := mkStruct "HardDenyConfig"
  [fld "Suffixes" (TSlice TBasic); fld "Hosts" (TSlice TBasic); fld "CIDRs" (TSlice TBasic)].

Definition proxy_Config : goStruct := mkStruct "Config"
  [fld "RunID" (TArray TBasic); fld "ControlPlaneURL" TBasic; fld "ControlPlaneCAPEM" TBasic; fld "RunToken" TBasic;
   fld "Policy" (TStruct "types.RunPolicySpec"); fld "Injection" (TSlice (TStruct "proxy.InjectionConfig")); fld "Listen" TBasic;
   fld "SigninListen" TBasic; fld "AllowedPeers" (TSlice (TStruct "netip.Prefix")); fld "DecisionBufferSize" TBasic;
   fld "DecisionSpoolDir" TBasic; fld "SelfLapse" TBasic; fld "DecisionSink" (TPtr (TStruct "proxy.DecisionSinkConfig"));
   fld "HardDeny" (TPtr (TStruct "proxy.HardDenyConfig")); fld "MITMCACertPEM" TBasic; fld "MITMCAKeyPEM" TBasic;
   fld "MITMHosts" (TSlice TBasic); fld "GitGrants" (TMap TBasic (TArray TBasic)); fld "GitPushWithheld" (TMap TBasic TBasic);
   fld "PATGrants" (TMap TBasic (TStruct "proxy.PATGrant")); fld "BrokeredPATGrantIDs" (TSlice (TArray TBasic));
   fld "ResidentMints" (TSlice (TStruct "proxy.ResidentMint")); fld "ADOGrant" (TPtr (TStruct "proxy.ADOGrantConfig"));
   fld "AzureGates" (TSlice (TStruct "proxy.AzureGateConfig")); fld "GitHubAPI" (TPtr (TStruct "proxy.GitHubAPIGrant"));
   fld "AzureARM" (TPtr (TStruct "proxy.AzureARMGrant")); fld "AWSSigV4" (TPtr (TStruct "proxy.AWSSigV4Config"));
   fld "KubeAPI" (TPtr (TStruct "proxy.KubeAPIGrant")); fld "MITMLLM" TBasic; fld "UpstreamProxyURL" TBasic;
   fld "UpstreamProxyNoProxy" (TSlice TBasic); fld "TrustedCAPEM" TBasic;
   fld "InternalHosts" (TSlice (TStruct "types.InternalHost")); fld "LLMUpstreams" (TMap TBasic TBasic);
   fld "LLMChannelHosts" (TMap TBasic TBasic); fld "LLMUnavailableDetail" TBasic;
   fld "LocalModels" (TMap TBasic (TStruct "types.LocalModelSettings")); fld "AllowedModels" (TPtr (TSlice TBasic));
   fld "BedrockRoutes" (TMap TBasic TBasic); fld "GatewayIdentity" (TSlice (TStruct "proxy.GatewayIdentityRoute"));
   fld "RunnerLocalModels" (TSlice TBasic); fld "Unattended" TBasic; fld "ScrubResponses" TBasic;
   fld "CanonicalPushRepos" TBasic; fld "VM" TBasic; fld "PortRule" TBasic; fld "Attribution" (TPtr (TStruct "policyref.Ref"));
   fld "PushRuleSets" (TSlice (TStruct "types.PushRuleSet")); fld "PushRuleBase" (TPtr (TStruct "types.PushRulesSpec"));
   fld "ForgeHosts" (TSlice TBasic); fld "HarnessToolRules" (TSlice (TStruct "types.HarnessToolRules"));
   fld "HarnessCredentials" (TSlice (TStruct "types.HarnessCredential"));
   fld "ViaOrgRoutes" (TSlice (TStruct "proxy.ViaOrgRoute")); fld "MCPServers" (TSlice (TStruct "proxy.MCPServerConfig"));
   fld "MCPBindings" (TSlice (TStruct "proxy.MCPBinding"))].

Definition placement_CredentialOrigin : goStruct := mkStruct "CredentialOrigin"
  [fld "Class" TBasic; fld "Delivery" TBasic; fld "GrantKind" TBasic; fld "Stored" TBasic; fld "OwnNamespace" TBasic;
   fld "OwnerOnly" TBasic; fld "ResidentOptIn" TBasic].

Definition placement_CredentialIntent : goStruct := mkStruct "CredentialIntent"
  [fld "Field" TBasic; fld "Origin" (TStruct "placement.CredentialOrigin")].

Definition placement_PostureRequirement : goStruct := mkStruct "PostureRequirement"
  [fld "MDMManaged" TBasic; fld "DiskEncrypted" TBasic; fld "OSMin" (TMap TBasic TBasic)].

Definition placement_ClassPolicy : goStruct := mkStruct "ClassPolicy"
  [fld "Mode" TBasic; fld "RequirePosture" (TPtr (TStruct "placement.PostureRequirement"))].

Definition placement_TrustPolicy : goStruct := mkStruct "TrustPolicy"
  [fld "Classes" (TMap TBasic (TStruct "placement.ClassPolicy"))].

Definition placement_DeliveryPolicy : goStruct := mkStruct "DeliveryPolicy"
  [fld "Classes" (TMap TBasic (TStruct "placement.ClassPolicy")); fld "ByTrust" (TMap TBasic (TStruct "placement.TrustPolicy"))].

Definition types_RunnerPosture : goStruct := mkStruct "RunnerPosture"
  [fld "MDMManaged" TBasic; fld "DiskEncrypted" TBasic; fld "OS" TBasic; fld "OSVersion" TBasic; fld "Evidence" TBasic].

Definition placement_LocalPlan : goStruct := mkStruct "LocalPlan"
  [fld "Spec" (TStruct "runner.SandboxSpec"); fld "Origins" (TMap TBasic (TStruct "placement.CredentialOrigin"));
   fld "CredentialIntents" (TSlice (TStruct "placement.CredentialIntent")); fld "OrgConfigKeys" (TSlice TBasic);
   fld "VerifiedLocalPaths" (TMap TBasic TBasic); fld "UpstreamProxySecretRef" TBasic; fld "TrustedOutput" TBasic;
   fld "SelfDefinedComponents" (TSlice TBasic); fld "LocalSelfDefinedComponents" TBasic;
   fld "Delivery" (TStruct "placement.DeliveryPolicy"); fld "Posture" (TPtr (TStruct "types.RunnerPosture")); fld "Trust" TBasic;
   fld "ConfinementFloor" TBasic; fld "OwnerKind" TBasic].

(** The declarations in scope: a type's qualified name and its struct. *)
Definition goTypes : list (string * goStruct) := [
  ("types.GrantSpec", types_GrantSpec);
  ("types.WorkspaceMount", types_WorkspaceMount);
  ("types.WorkspaceRepo", types_WorkspaceRepo);
  ("types.LLMInspectionSpec", types_LLMInspectionSpec);
  ("types.UIApp", types_UIApp);
  ("types.ResourceLimits", types_ResourceLimits);
  ("types.ToolRule", types_ToolRule);
  ("types.PushRulesSpec", types_PushRulesSpec);
  ("types.HarnessInnerWalls", types_HarnessInnerWalls);
  ("types.DesktopControls", types_DesktopControls);
  ("types.RunPolicySpec", types_RunPolicySpec);
  ("egress.PinRoute", egress_PinRoute);
  ("egress.InjectionRule", egress_InjectionRule);
  ("runner.InjectionGrant", runner_InjectionGrant);
  ("proxy.PATGrant", proxy_PATGrant);
  ("proxy.ADOGrantConfig", proxy_ADOGrantConfig);
  ("proxy.AzureGateConfig", proxy_AzureGateConfig);
  ("proxy.GitHubAPIGrant", proxy_GitHubAPIGrant);
  ("proxy.AzureARMGrant", proxy_AzureARMGrant);
  ("proxy.AWSSigV4Config", proxy_AWSSigV4Config);
  ("proxy.KubeAPIGrant", proxy_KubeAPIGrant);
  ("proxy.ResidentMint", proxy_ResidentMint);
  ("types.InternalHost", types_InternalHost);
  ("policyref.Ref", policyref_Ref);
  ("types.PushRuleSet", types_PushRuleSet);
  ("types.HarnessToolRules", types_HarnessToolRules);
  ("types.HarnessCredential", types_HarnessCredential);
  ("proxy.ViaOrgRoute", proxy_ViaOrgRoute);
  ("proxy.MCPServerConfig", proxy_MCPServerConfig);
  ("proxy.MCPBinding", proxy_MCPBinding);
  ("types.LocalModelSettings", types_LocalModelSettings);
  ("proxy.GatewayIdentityRoute", proxy_GatewayIdentityRoute);
  ("runner.ModelLimit", runner_ModelLimit);
  ("runner.ProxyConfig", runner_ProxyConfig);
  ("runner.Resources", runner_Resources);
  ("runner.Mount", runner_Mount);
  ("runner.UserWritableCeiling", runner_UserWritableCeiling);
  ("types.DriveMount", types_DriveMount);
  ("runner.ManagedFile", runner_ManagedFile);
  ("runner.KeptMachineSpec", runner_KeptMachineSpec);
  ("runner.SandboxSpec", runner_SandboxSpec);
  ("proxy.InjectionConfig", proxy_InjectionConfig);
  ("proxy.DecisionSinkConfig", proxy_DecisionSinkConfig);
  ("proxy.HardDenyConfig", proxy_HardDenyConfig);
  ("proxy.Config", proxy_Config);
  ("placement.CredentialOrigin", placement_CredentialOrigin);
  ("placement.CredentialIntent", placement_CredentialIntent);
  ("placement.PostureRequirement", placement_PostureRequirement);
  ("placement.ClassPolicy", placement_ClassPolicy);
  ("placement.TrustPolicy", placement_TrustPolicy);
  ("placement.DeliveryPolicy", placement_DeliveryPolicy);
  ("types.RunnerPosture", types_RunnerPosture);
  ("placement.LocalPlan", placement_LocalPlan)].

(** ** The classification table of local placement

    [src/internal/placement/classify.go] and nested.go: one row per case of every dispatched
    field, the lookups over it, and the closed schema of the types beneath. A class and a
    rule are strings, as in the source: a rule outside the closed set is a value the code
    meets and refuses. *)

(** ** Classes, rules and rows *)

Definition ClassOwn : string := "own".
Definition ClassOperator : string := "operator".
Definition ClassBrokered : string := "brokered".
Definition ClassPlatform : string := "platform".
Definition ClassExempt : string := "exempt".
Definition ClassComposite : string := "composite".

Definition RuleAllow : string := "allow".
Definition RuleDelivery : string := "delivery".
Definition RuleViaOrgRefuse : string := "via_org_refuse".
Definition RuleRefuse : string := "refuse".
Definition RuleBound : string := "bound".
Definition RuleNotSent : string := "not_sent".
Definition RuleStrip : string := "strip".
Definition RuleExempt : string := "exempt".
Definition RuleOwnerOnlyOwn : string := "owner_only_own".
Definition RuleNotConfigured : string := "not_configured".
Definition RuleResidentViaOrg : string := "resident_via_org".

Definition allRules : list string :=
  [RuleAllow; RuleDelivery; RuleViaOrgRefuse; RuleRefuse; RuleBound; RuleNotSent; RuleStrip; RuleExempt; RuleOwnerOnlyOwn; RuleNotConfigured; RuleResidentViaOrg].
Definition allClasses : list string := [ClassOwn; ClassOperator; ClassBrokered; ClassPlatform; ClassExempt; ClassComposite].
Definition ruleKnown (r : string) : bool := bool_decide (r ∈ allRules).
Definition classIsKnown (c : string) : bool := bool_decide (c ∈ allClasses).

Definition StructSandboxSpec : string := "SandboxSpec".
Definition StructProxyConfig : string := "ProxyConfig".
Definition StructGrantKind : string := "GrantKind".

Record Entry := mkEntry {
  eStruct : string; eField : string; ePath : string; eClass : string; eRule : string;
  eDelivery : string; eReason : string; eViaOrg : bool; eVariant : string }.
Definition row := mkEntry.

(** Struct, field, path, class and rule; then the delivery class, the reason, whether the
    variant has the via_org shape, and the variant. *)
Definition Table : list Entry := [
  row StructSandboxSpec "SecretEnv" "" ClassOwn RuleOwnerOnlyOwn
    ClassEnvSecret "" false "env_secret grant, OwnerOnly";
  row StructSandboxSpec "SecretEnv" "" ClassOperator RuleDelivery
    ClassEnvSecret ReasonPlacementCredential false "env_secret grant, not OwnerOnly";
  row StructSandboxSpec "SecretEnv" "" ClassOwn RuleDelivery
    ClassBedrockRoleCreds ReasonPlacementCredential false "Bedrock role credentials, the person's own bedrock_sso: they sign in-process, so own is still runner_resident or refuse";
  row StructSandboxSpec "SecretEnv" "" ClassOperator RuleDelivery
    ClassBedrockRoleCreds ReasonPlacementCredential false "Bedrock role credentials, otherwise";
  row StructSandboxSpec "SecretEnv" "" ClassPlatform RuleAllow
    "" "" false "the Codex CLI's MCP broker URLs: a token minted per run that reaches only that run's own proxy, as Claude Code's managed MCP file does";
  row StructSandboxSpec "ManagedFiles" "" ClassPlatform RuleAllow
    "" "" false "managed settings";
  row StructSandboxSpec "ManagedFiles" "" ClassOwn RuleOwnerOnlyOwn
    ClassFileSecret "" false "AgentOwned file_secret, OwnerOnly";
  row StructSandboxSpec "ManagedFiles" "" ClassOperator RuleDelivery
    ClassFileSecret ReasonPlacementCredential false "AgentOwned file_secret, not OwnerOnly";
  row StructSandboxSpec "Mounts" "" ClassOperator RuleRefuse
    "" ReasonPlacementCapability false "operator-authored, including host-mode ~/.aws";
  row StructSandboxSpec "Mounts" "" ClassOwn RuleBound
    "" ReasonPlacementLocalPath false "MemberAuthored local_dir";
  row StructSandboxSpec "Drives" "" ClassOwn RuleBound
    "" ReasonPlacementLocalPath false "host_path: allowed when its second place is bound to this runner and inside the roots its owner allowed";
  row StructSandboxSpec "Drives" "" ClassOperator RuleRefuse
    "" ReasonPlacementCapability false "k8s_pvc, k8s_pvc_static, the org's docker_volume";
  row StructSandboxSpec "Drives" "" ClassOwn RuleBound
    "" ReasonPlacementLocalPath false "mac_disk: allowed on the Mac the person's disk drive is kept on";
  row StructSandboxSpec "Image" "" ClassOwn RuleAllow
    "" ReasonPlacementCapability false "any, including a workspace image in the org registry; pulled with the runner's own registry credentials, never the org's pull secrets";
  row StructSandboxSpec "Env" "" ClassExempt RuleExempt
    "" "" false "platform variables (the placeholder ~/.aws of a proxy-injected AWS SSO session among them) and the person's own or self-defined component config";
  row StructSandboxSpec "Env" "" ClassOperator RuleStrip
    "" "" false "an org component's config: operator-authored, so a value there may be a secret the org never meant to send";
  row StructSandboxSpec "Labels" "" ClassExempt RuleExempt
    "" "" false "";
  row StructSandboxSpec "UserMountRoots" "" ClassExempt RuleExempt
    "" "" false "re-checked against allowed_roots";
  row StructSandboxSpec "UserWritable" "" ClassExempt RuleExempt
    "" "" false "narrows member binds only";
  row StructSandboxSpec "RunID" "" ClassExempt RuleExempt
    "" "" false "";
  row StructSandboxSpec "RunnerID" "" ClassExempt RuleExempt
    "" "" false "routing carrier";
  row StructSandboxSpec "RunnerMaxRuns" "" ClassExempt RuleExempt
    "" "" false "runner limit carrier";
  row StructSandboxSpec "Namespace" "" ClassExempt RuleExempt
    "" "" false "the runs namespace of the run's pool membership; a runner that does not serve it refuses the create";
  row StructSandboxSpec "ConfinementClass" "" ClassExempt RuleExempt
    "" "" false "";
  row StructSandboxSpec "Resources" "" ClassExempt RuleExempt
    "" "" false "checked against the advertised capacity";
  row StructSandboxSpec "Interactive" "" ClassExempt RuleExempt
    "" "" false "";
  row StructSandboxSpec "DesktopSignins" "" ClassExempt RuleRefuse
    "" ReasonPlacementCapability false "a boolean, no credential: it mounts the person's sign-in store, a tmpfs. Sign-ins run on the organisation's own Docker runner only (signinTarget gives a runner or pool run none), so a set one is refused";
  row StructSandboxSpec "DesktopSignInsOff" "" ClassExempt RuleExempt
    "" "" false "a boolean, no credential: the admin's Not allowed for a VM desktop's sign-ins, which only narrows the run";
  row StructSandboxSpec "DesktopViewOnly" "" ClassExempt RuleExempt
    "" "" false "a boolean, no credential: dispatch sets it from the run's stored mode; only a macOS VM reads it";
  row StructSandboxSpec "Record" "" ClassExempt RuleExempt
    "" "" false "organisation's per-run recording choice";
  row StructSandboxSpec "MachineKind" "" ClassExempt RuleExempt
    "" "" false "the sandbox kind; a runner that cannot start it refuses the create";
  row StructSandboxSpec "MacOSBase" "" ClassExempt RuleExempt
    "" "" false "a macOS VM's base, a name; a Mac without it ready refuses the create";
  row StructSandboxSpec "KeptMachine" "" ClassExempt RuleExempt
    "" "" false "a kept machine's id, mode, owner hash, idle days and name: no credential. Only a macOS VM on the person's own Mac reads it; a runner without MacVMCaps.KeptMachines is never sent one";
  row StructSandboxSpec "ImageArches" "" ClassExempt RuleExempt
    "" "" false "a prewrapped image's checked architectures; only narrows where the agent pod lands";
  row StructSandboxSpec "OnWaiting" "" ClassExempt RuleNotSent
    "" "" false "a callback; waiting events replace it";
  row StructSandboxSpec "ExecOutput" "" ClassExempt RuleNotSent
    "" "" false "a writer; the output stream replaces it";
  row StructSandboxSpec "ProxyConfig" "" ClassComposite RuleStrip
    "" "" false "classified field by field under ProxyConfig";
  row StructProxyConfig "RunToken" "" ClassPlatform RuleAllow
    "" "" false "bounded by the runner_id binding";
  row StructProxyConfig "ControlPlaneCAPEM" "" ClassPlatform RuleAllow
    "" "" false "public";
  row StructProxyConfig "MITMCACertPEM" "" ClassPlatform RuleAllow
    "" "" false "";
  row StructProxyConfig "MITMCAKeyPEM" "" ClassPlatform RuleAllow
    "" "" false "per run; gains MITM of one's own sandbox only";
  row StructProxyConfig "Injection" "" ClassOwn RuleOwnerOnlyOwn
    "" "" false "stored api_key, own namespace";
  row StructProxyConfig "Injection" "" ClassOperator RuleDelivery
    ClassAPIKey ReasonPlacementCredential true "operator namespace or shared component; via_org replaces it with a ViaOrgRoutes entry";
  row StructProxyConfig "Injection" "" ClassOperator RuleResidentViaOrg
    ClassEnvSecret ReasonPlacementCredential false "the placeholder fill of a runner_resident env_secret, WARDYN_RUNNER_SECRET_PLACEHOLDERS on: a ViaOrgRoutes entry replaces it";
  row StructProxyConfig "Injection" "" ClassOperator RuleResidentViaOrg
    ClassFileSecret ReasonPlacementCredential false "the placeholder fill of a runner_resident file_secret, WARDYN_RUNNER_SECRET_PLACEHOLDERS on: a ViaOrgRoutes entry replaces it";
  row StructProxyConfig "Injection" "" ClassOwn RuleAllow
    "" "" false "the person's model-provider key or own Claude sign-in";
  row StructProxyConfig "Injection" "" ClassOwn RuleAllow
    "" "" false "captured AWS SSO, credential_source per_user";
  row StructProxyConfig "Injection" "" ClassBrokered RuleDelivery
    ClassAWSSSOBearer ReasonPlacementCredential false "captured AWS SSO shared";
  row StructProxyConfig "Injection" "" ClassBrokered RuleDelivery
    ClassADOMintedPAT ReasonPlacementCredential false "Azure DevOps minted PAT; runner_resident: the runner's proxy fetches it per resolve, at most every 15 minutes, and holds it in memory only";
  row StructProxyConfig "GitGrants" "" ClassBrokered RuleViaOrgRefuse
    ClassGitHubToken ReasonPlacementCredential true "GitHub App installation token; via_org keeps the repo allowlist and routes /wardyn/gh/ to the organisation";
  row StructProxyConfig "PATGrants" "" ClassOwn RuleAllow
    "" "" false "per_user stored PAT";
  row StructProxyConfig "PATGrants" "" ClassOperator RuleDelivery
    ClassGitPATBroker ReasonPlacementCredential false "shared CredentialSource";
  row StructProxyConfig "BrokeredPATGrantIDs" "" ClassOwn RuleAllow
    "" "" false "follows per_user PATGrants";
  row StructProxyConfig "BrokeredPATGrantIDs" "" ClassOperator RuleDelivery
    ClassGitPATBroker ReasonPlacementCredential false "follows shared PATGrants";
  row StructProxyConfig "ResidentMints" "" ClassOperator RuleDelivery
    ClassSSHKey ReasonPlacementCredential false "runner_resident ssh_key, its Token a placeholder";
  row StructProxyConfig "ResidentMints" "" ClassOperator RuleDelivery
    ClassGitPATHelper ReasonPlacementCredential false "runner_resident git_pat with the PAT broker off, its Token a placeholder";
  row StructProxyConfig "ADOGrant" "" ClassBrokered RuleDelivery
    ClassADOMintedPAT ReasonPlacementCredential false "minted PAT or bearer from a captured Entra sign-in; runner_resident only on a connection that opted in";
  row StructProxyConfig "ADOGrant" "" ClassOwn RuleAllow
    "" "" false "own_pat token mode";
  row StructProxyConfig "AzureGates" "" ClassOwn RuleAllow
    "" "" false "Azure Foundry, the person's own Entra sign-in";
  row StructProxyConfig "AzureGates" "" ClassBrokered RuleDelivery
    ClassAzureFoundryToken ReasonPlacementCredential false "Azure Foundry, any shared capture";
  row StructProxyConfig "GitHubAPI" "" ClassBrokered RuleRefuse
    "" ReasonPlacementCredential false "the organisation's GitHub App installation token, for the GitHub CLI";
  row StructProxyConfig "AzureARM" "" ClassBrokered RuleRefuse
    "" ReasonPlacementCredential false "the Azure CLI's Resource Manager token, redeemed by the organisation from the person's Entra sign-in";
  row StructProxyConfig "AWSSigV4" "" ClassOwn RuleAllow
    "" "" false "the person's own AWS sign-in (credential_source per_user): the run's proxy redeems role credentials from it and holds them in memory; the sandbox holds a placeholder pair";
  row StructProxyConfig "AWSSigV4" "" ClassBrokered RuleDelivery
    ClassAWSSSOBearer ReasonPlacementCredential false "a shared AWS sign-in";
  row StructProxyConfig "KubeAPI" "" ClassBrokered RuleRefuse
    "" ReasonPlacementCredential false "the kubectl door's grant, whose cluster token the organisation mints from its registered service-account token";
  row StructProxyConfig "UpstreamProxyURL" "" ClassOperator RuleNotSent
    "" "" false "the runner's own upstream-proxy config applies";
  row StructProxyConfig "TrustedCAPEM" "" ClassOperator RuleNotSent
    "" "" false "the proxy copy only: the runner's own --trusted-ca-file bundle replaces it, destinations needing the org's roots take via_org, and the org's roots still reach the sandbox env, where the runner appends its own";
  row StructProxyConfig "InternalHosts" "" ClassOperator RuleAllow
    "" "" false "the org's internal_hosts lift only the private-IP guard for declared suffixes; the egress allowlist still decides";
  row StructProxyConfig "UpstreamProxyNoProxy" "" ClassOperator RuleNotSent
    "" "" false "org network";
  row StructProxyConfig "LLMUpstreams" "" ClassOperator RuleRefuse
    "" ReasonPlacementCredential false "org network, never sent; a provider routed through a gateway keys its credential there, so the run is refused rather than dial the vendor host; a laptop local model's own entry is admitted with it";
  row StructProxyConfig "GatewayIdentity" "" ClassOperator RuleRefuse
    "" ReasonPlacementCredential false "org network, never sent; a provider route also carries its LLMUpstreams entry, so its run is refused there first; an MCP server route carries none and is refused here";
  row StructProxyConfig "MITMHosts" "" ClassOperator RuleStrip
    "" "" false "only hosts of own and runner_resident injections and every via_org destination; operator-only hosts dropped";
  row StructProxyConfig "Policy" "EligibleGrants" ClassOperator RuleStrip
    "" "" false "grants not delivered own or runner_resident dropped; a via_org grant keeps only its grant_id and host";
  row StructProxyConfig "Policy" "LLMInspection.WorkspaceSecretValues" ClassOperator RuleStrip
    "" "" false "resolved inspection corpus never sent to a runner";
  row StructProxyConfig "Policy" "LLMInspection.WorkspaceSecretNames" ClassOperator RuleStrip
    "" "" false "resolved values stripped; the org-side via_org scan may still use them";
  row StructProxyConfig "Policy" "AllowedDomains" ClassExempt RuleExempt
    "" "" false "";
  row StructProxyConfig "Policy" "DeniedDomains" ClassExempt RuleExempt
    "" "" false "";
  row StructProxyConfig "Policy" "AllowAllEgress" ClassExempt RuleExempt
    "" "" false "";
  row StructProxyConfig "Policy" "FirstUseApproval" ClassExempt RuleExempt
    "" "" false "";
  row StructProxyConfig "Policy" "FirstUseHoldSeconds" ClassExempt RuleExempt
    "" "" false "";
  row StructProxyConfig "Policy" "MaxHolds" ClassExempt RuleExempt
    "" "" false "";
  row StructProxyConfig "Policy" "AllowedMethods" ClassExempt RuleExempt
    "" "" false "";
  row StructProxyConfig "Policy" "MinConfinementClass" ClassExempt RuleExempt
    "" "" false "";
  row StructProxyConfig "Policy" "AutoStopAfterSec" ClassExempt RuleExempt
    "" "" false "";
  row StructProxyConfig "Policy" "WorkspaceMounts" ClassExempt RuleExempt
    "" "" false "";
  row StructProxyConfig "Policy" "WorkspaceRepos" ClassExempt RuleExempt
    "" "" false "";
  row StructProxyConfig "Policy" "UIApps" ClassExempt RuleExempt
    "" "" false "";
  row StructProxyConfig "Policy" "Resources" ClassExempt RuleExempt
    "" "" false "";
  row StructProxyConfig "Policy" "ToolRules" ClassExempt RuleExempt
    "" "" false "";
  row StructProxyConfig "Policy" "GitPushAnyBranch" ClassExempt RuleExempt
    "" "" false "";
  row StructProxyConfig "Policy" "PushRules" ClassExempt RuleExempt
    "" "" false "";
  row StructProxyConfig "Policy" "AzureDevOpsCapabilities" ClassExempt RuleExempt
    "" "" false "";
  row StructProxyConfig "Policy" "GitHubCapabilities" ClassExempt RuleExempt
    "" "" false "";
  row StructProxyConfig "Policy" "HarnessInnerWalls" ClassExempt RuleExempt
    "" "" false "";
  row StructProxyConfig "Policy" "Desktop" ClassExempt RuleExempt
    "" "" false "";
  row StructProxyConfig "Policy" "Recording" ClassExempt RuleExempt
    "" "" false "never sent: sidecarPolicy clears it";
  row StructProxyConfig "Policy" "LLMInspection" ClassExempt RuleExempt
    "" "" false "the rest of LLMInspection; its resolved secret names are the strip row above";
  row StructProxyConfig "ControlPlaneURL" "" ClassExempt RuleExempt
    "" "" false "";
  row StructProxyConfig "MITMLLM" "" ClassExempt RuleExempt
    "" "" false "";
  row StructProxyConfig "LLMChannelHosts" "" ClassExempt RuleExempt
    "" "" false "";
  row StructProxyConfig "LocalModels" "" ClassOperator RuleRefuse
    "" ReasonPlacementCredential false "org network, never sent; a local_model run also carries its LLMUpstreams entry, refused the same way, unless allow_on_laptop_runners is set and the runner is a person's";
  row StructProxyConfig "LLMUnavailableDetail" "" ClassExempt RuleExempt
    "" "" false "";
  row StructProxyConfig "Unattended" "" ClassExempt RuleExempt
    "" "" false "";
  row StructProxyConfig "ScrubResponses" "" ClassExempt RuleExempt
    "" "" false "";
  row StructProxyConfig "CanonicalPushRepos" "" ClassExempt RuleExempt
    "" "" false "the operator's held-push key spelling; it names an approval, no credential";
  row StructProxyConfig "GitPushWithheld" "" ClassExempt RuleExempt
    "" "" false "the hosts whose pushes the run's capabilities withhold; it names a refusal, no credential";
  row StructProxyConfig "Attribution" "" ClassExempt RuleExempt
    "" "" false "";
  row StructProxyConfig "VM" "" ClassExempt RuleExempt
    "" "" false "a desktop VM run's flag: it turns the port rule on and the relay's refusal route; no credential";
  row StructProxyConfig "DesktopSignins" "" ClassPlatform RuleRefuse
    "" ReasonPlacementCredential false "opens the sign-in listener (port 3129), which admits a per-sign-in credential the organisation's control plane checks and carries the person's logins; refused, like signinTarget";
  row StructProxyConfig "PortRule" "" ClassExempt RuleExempt
    "" "" false "the operator's egress port rule; it only narrows egress, no credential";
  row StructProxyConfig "PushRuleBase" "" ClassExempt RuleExempt
    "" "" false "the run's push rules after the ceiling, for an entry with no set; policy content, no credential";
  row StructProxyConfig "ForgeHosts" "" ClassExempt RuleExempt
    "" "" false "the code hosts the deny_all guard refuses; it only narrows egress, no credential";
  row StructProxyConfig "PushRuleSets" "" ClassExempt RuleExempt
    "" "" false "push content rules per SCM entry; policy content, no credential";
  row StructProxyConfig "HarnessCredentials" "" ClassExempt RuleExempt
    "" "" false "SHA-256 of each harness's approval credential; a digest, never the plaintext, which goes to that harness as an agent-owned file its own launch reads into that one process";
  row StructProxyConfig "HarnessToolRules" "" ClassExempt RuleExempt
    "" "" false "tool rules per included harness; policy content, no credential";
  row StructProxyConfig "ModelLimit" "" ClassExempt RuleExempt
    "" "" false "the run's governed model list and its Bedrock gateway routes; policy content, no credential";
  row StructProxyConfig "ViaOrgRoutes" "" ClassExempt RuleExempt
    "" "" false "grant id and destination host of each via_org grant; no credential, and the organisation re-checks both";
  row StructProxyConfig "MCPServers" "" ClassExempt RuleExempt
    "" "" false "key, URL and the grant id of each MCP server's header credential; no credential, which the broker resolves from the control plane per request";
  row StructProxyConfig "MCPBindings" "" ClassExempt RuleExempt
    "" "" false "SHA-256 of each harness's MCP token and its server keys; a digest, never the token";
  row StructGrantKind "api_key" "" ClassOwn RuleOwnerOnlyOwn
    "" "" false "own namespace";
  row StructGrantKind "api_key" "" ClassOperator RuleDelivery
    ClassAPIKey ReasonPlacementCredential true "operator/shared";
  row StructGrantKind "env_secret" "" ClassOwn RuleOwnerOnlyOwn
    "" "" false "own namespace";
  row StructGrantKind "env_secret" "" ClassOperator RuleDelivery
    ClassEnvSecret ReasonPlacementCredential false "operator/shared";
  row StructGrantKind "file_secret" "" ClassOwn RuleOwnerOnlyOwn
    "" "" false "own namespace";
  row StructGrantKind "file_secret" "" ClassOperator RuleDelivery
    ClassFileSecret ReasonPlacementCredential false "operator/shared";
  row StructGrantKind "github_token" "" ClassBrokered RuleViaOrgRefuse
    ClassGitHubToken ReasonPlacementCredential true "";
  row StructGrantKind "ssh_key" "" ClassOwn RuleAllow
    "" "" false "own key";
  row StructGrantKind "ssh_key" "" ClassOperator RuleDelivery
    ClassSSHKey ReasonPlacementCredential false "operator key";
  row StructGrantKind "git_pat" "" ClassOwn RuleAllow
    "" "" false "helper shape, own";
  row StructGrantKind "git_pat" "" ClassOperator RuleDelivery
    ClassGitPATHelper ReasonPlacementCredential false "helper shape, operator";
  row StructGrantKind "cloud_sts" "" ClassBrokered RuleNotConfigured
    ClassCloudSTS ReasonPlacementCredential false ""].

Definition Entries (structName field : string) : list Entry :=
  List.filter (fun e => String.eqb (eStruct e) structName && String.eqb (eField e) field) Table.

(** ** What the rows of one field say *)

Record ruleSet := mkRuleSet { rsCredential : bool; rsGated : bool; rsNotSent : bool; rsStrip : bool }.

Definition ruleStep (r : ruleSet) (e : Entry) : ruleSet :=
  if bool_decide (eRule e ∈ [RuleDelivery; RuleViaOrgRefuse; RuleNotConfigured; RuleOwnerOnlyOwn; RuleResidentViaOrg])
  then mkRuleSet true (rsGated r) (rsNotSent r) (rsStrip r)
  else if bool_decide (eRule e ∈ [RuleRefuse; RuleBound]) then mkRuleSet (rsCredential r) true (rsNotSent r) (rsStrip r)
  else if String.eqb (eRule e) RuleNotSent then mkRuleSet (rsCredential r) (rsGated r) true (rsStrip r)
  else if String.eqb (eRule e) RuleStrip then
    if negb (String.eqb (eClass e) ClassComposite) then mkRuleSet (rsCredential r) (rsGated r) (rsNotSent r) true else r
  else mkRuleSet (rsCredential r) (negb (ruleKnown (eRule e)) || rsGated r) (rsNotSent r) (rsStrip r).
Definition rulesOf (rows : list Entry) : ruleSet := fold_left ruleStep rows (mkRuleSet false false false false).

Definition CredentialProxyField (field : string) : bool := rsCredential (rulesOf (Entries StructProxyConfig field)).

(** The modes a local run can be delivered a class under today ([residentBuilt] is
    resident_lift.go's). *)
Definition residentBuilt (class : string) : bool :=
  bool_decide (class ∈ [ClassEnvSecret; ClassFileSecret; ClassSSHKey; ClassGitPATHelper; ClassADOMintedPAT]).

Definition modeBuilt (class m : string) : bool :=
  if String.eqb m ModeViaOrg then
    containsFunc (fun e => eViaOrg e && negb (String.eqb (eRule e) RuleNotConfigured) && String.eqb (eDelivery e) class) Table
  else if String.eqb m ModeRunnerResident then residentBuilt class
  else true.
Definition BuildableModes (class : string) : list string := List.filter (modeBuilt class) (classModes class).
Definition Buildable (class m : string) : bool := bool_decide (m ∈ BuildableModes class).

(** ** The closed schema *)

Definition nestedFields : list (string * list string) := [
  ("proxy.Config",
    ["RunID"; "ControlPlaneURL"; "ControlPlaneCAPEM"; "RunToken"; "Policy"; "Injection"; "Listen"; "DecisionBufferSize";
     "SelfLapse"; "DecisionSink"; "HardDeny"; "MITMCACertPEM"; "MITMCAKeyPEM"; "MITMHosts"; "GitGrants"; "GitPushWithheld";
     "PATGrants"; "BrokeredPATGrantIDs"; "ResidentMints"; "ADOGrant"; "AzureGates"; "GitHubAPI"; "AzureARM"; "AWSSigV4";
     "KubeAPI"; "MITMLLM"; "UpstreamProxyURL"; "UpstreamProxyNoProxy"; "AllowedPeers"; "TrustedCAPEM"; "InternalHosts";
     "LLMUpstreams"; "LLMChannelHosts"; "LLMUnavailableDetail"; "LocalModels"; "GatewayIdentity"; "RunnerLocalModels";
     "Unattended"; "ScrubResponses"; "CanonicalPushRepos"; "Attribution"; "DecisionSpoolDir"; "PushRuleSets"; "PushRuleBase";
     "ForgeHosts"; "HarnessToolRules"; "AllowedModels"; "BedrockRoutes"; "HarnessCredentials"; "ViaOrgRoutes"; "MCPServers";
     "MCPBindings"; "VM"; "PortRule"; "SigninListen"]);
  ("proxy.InjectionConfig",
    ["InjectionRule"; "GrantID"]);
  ("proxy.DecisionSinkConfig",
    ["URL"; "SPKISHA256"; "Key"]);
  ("proxy.HardDenyConfig",
    ["Suffixes"; "Hosts"; "CIDRs"]);
  ("proxy.ViaOrgRoute",
    ["GrantID"; "Host"]);
  ("proxy.GatewayIdentityRoute",
    ["Host"; "Port"; "PathPrefix"; "ProviderID"; "MCPKey"; "Audience"; "ProviderUID"; "InspectionDeferred"]);
  ("proxy.ResidentMint",
    ["GrantID"; "Kind"; "Username"; "KnownHosts"; "Token"; "ExpiresAt"; "Host"]);
  ("proxy.MCPServerConfig",
    ["Key"; "URL"; "GrantID"; "Ordinal"]);
  ("proxy.MCPBinding",
    ["Harness"; "SHA256"; "Servers"]);
  ("types.LocalModelSettings",
    ["Models"; "MaxContext"; "MaxOutput"; "KeepAliveSeconds"; "AllowOnLaptopRunners"]);
  ("placement.LocalPlan",
    ["Spec"; "Origins"; "CredentialIntents"; "OrgConfigKeys"; "VerifiedLocalPaths"; "UpstreamProxySecretRef"; "TrustedOutput";
     "SelfDefinedComponents"; "LocalSelfDefinedComponents"; "Delivery"; "Posture"; "ConfinementFloor"; "Trust"; "OwnerKind"]);
  ("placement.CredentialOrigin",
    ["Class"; "Delivery"; "GrantKind"; "Stored"; "OwnNamespace"; "OwnerOnly"; "ResidentOptIn"]);
  ("placement.CredentialIntent",
    ["Field"; "Origin"]);
  ("placement.DeliveryPolicy",
    ["Classes"; "ByTrust"]);
  ("placement.TrustPolicy",
    ["Classes"]);
  ("placement.ClassPolicy",
    ["Mode"; "RequirePosture"]);
  ("placement.PostureRequirement",
    ["MDMManaged"; "DiskEncrypted"; "OSMin"]);
  ("types.RunnerPosture",
    ["MDMManaged"; "DiskEncrypted"; "OS"; "OSVersion"; "Evidence"]);
  ("egress.InjectionRule",
    ["Host"; "Header"; "SecretName"; "Format"; "RequireTLS"; "PinPath"; "PinQuery"; "PinRoutes"; "Placeholder"]);
  ("egress.PinRoute",
    ["Method"; "Path"]);
  ("policyref.Ref",
    ["Source"; "Name"; "Owner"; "Email"; "RequestURL"; "RequestText"; "Overridden"; "Layer"; "Locked"]);
  ("proxy.ADOGrantConfig",
    ["Organization"; "Capabilities"; "Hosts"]);
  ("proxy.AzureGateConfig",
    ["Host"; "Route"; "Models"; "BodyCap"]);
  ("proxy.GitHubAPIGrant",
    ["Capabilities"; "Repos"; "Grants"]);
  ("proxy.AzureARMGrant",
    ["TenantID"; "Subscriptions"; "Write"]);
  ("proxy.AWSSigV4Config",
    ["GrantID"; "PortalHost"; "AccountID"; "RoleName"; "Hosts"]);
  ("proxy.KubeAPIGrant",
    ["Host"; "Port"; "CAPEM"; "Namespaces"; "Write"]);
  ("proxy.PATGrant",
    ["GrantID"; "Username"; "Repos"; "Access"; "Forge"; "API"]);
  ("runner.InjectionGrant",
    ["GrantID"; "Rule"]);
  ("runner.ManagedFile",
    ["Path"; "Mode"; "AgentOwned"; "WipeAfterRead"; "Content"]);
  ("runner.ModelLimit",
    ["Models"; "BedrockRoutes"]);
  ("runner.Mount",
    ["Source"; "Target"; "ReadOnly"; "MemberAuthored"; "DriveAuthored"; "BoundRunner"]);
  ("runner.KeptMachineSpec",
    ["ID"; "Mode"; "OwnerHash"; "IdleDays"; "Name"]);
  ("runner.UserWritableCeiling",
    ["Roots"; "Deny"]);
  ("runner.Resources",
    ["CPUMillis"; "MemoryMiB"; "CPURequestMillis"; "MemoryRequestMiB"; "PidsLimit"; "DiskMiB"; "DiskMiBSoft"; "LifetimeCap";
     "ProxyAzure"]);
  ("types.DriveMount",
    ["DriveID"; "Backend"; "ObjectName"; "HostRoot"; "DriveName"; "StorageClass"; "HomeName"; "SubjectHash"; "Target";
     "ReadOnly"; "SizeMiB"; "Enforcement"; "Team"; "RunnerID"]);
  ("types.GrantSpec",
    ["Kind"; "Scope"; "TTLSeconds"; "RequiresApproval"; "OwnerOnly"; "OwnerOnlyRefs"]);
  ("types.InternalHost",
    ["HostSuffix"; "CIDRs"; "Baseline"]);
  ("types.LLMInspectionSpec",
    ["Mode"; "WorkspaceSecretNames"; "WorkspaceSecretValues"; "DetectSecrets"; "DetectSecretPatterns"; "DetectEntropy";
     "DetectPII"; "DetectorSidecarURL"; "ClassifiedMarkers"; "ScanAttachments"; "InspectForwardEgress"; "MaxScanBytes";
     "OnScannerError"; "RequireInspectableLLM"; "InterceptTLS"; "BlockMinSeverity"]);
  ("types.PushRulesSpec",
    ["DenyPaths"; "MaxInspectPackMiB"; "RequireReviewPaths"; "HoldSeconds"; "DenyNewExecutables"; "MaxFileSizeMiB"; "DenyAll"]);
  ("types.ResourceLimits",
    ["CPUMillis"; "MemoryMiB"; "PidsLimit"; "DiskMiB"]);
  ("types.RunPolicySpec",
    ["AllowedDomains"; "DeniedDomains"; "AllowAllEgress"; "FirstUseApproval"; "FirstUseHoldSeconds"; "MaxHolds";
     "AllowedMethods"; "MinConfinementClass"; "EligibleGrants"; "AutoStopAfterSec"; "WorkspaceMounts"; "WorkspaceRepos";
     "LLMInspection"; "UIApps"; "Resources"; "ToolRules"; "GitPushAnyBranch"; "PushRules"; "AzureDevOpsCapabilities";
     "GitHubCapabilities"; "HarnessInnerWalls"; "Desktop"; "Recording"]);
  ("types.ToolRule",
    ["Tool"; "Effect"]);
  ("types.PushRuleSet",
    ["Provider"; "Host"; "Org"; "BasePath"; "Rules"]);
  ("types.HarnessToolRules",
    ["Harness"; "Default"; "Rules"]);
  ("types.HarnessCredential",
    ["Harness"; "SHA256"]);
  ("types.HarnessInnerWalls",
    ["SandboxMode"; "Approvals"]);
  ("types.DesktopControls",
    ["PasteIn"; "CopyOut"; "Upload"; "Download"]);
  ("types.UIApp",
    ["Name"; "Port"; "Path"; "Inbound"; "Callers"]);
  ("types.WorkspaceMount",
    ["Source"; "Target"; "ReadOnly"]);
  ("types.WorkspaceRepo",
    ["Repo"; "Target"; "Ref"])].

Definition tableRoots : list string := ["runner.SandboxSpec"; "runner.ProxyConfig"].
Definition opaqueFields : list string := ["SandboxSpec.OnWaiting"; "SandboxSpec.ExecOutput"; "ResidentMint.ExpiresAt"; "Config.AllowedPeers"].

Definition assocStr {A} (k : string) (l : list (string * A)) : option A := option_map snd (findFirst (fun e => String.eqb (fst e) k) l).

(** What is left after the pointers, slices, arrays and map values around a type, and the
    map keys met on the way. *)
Fixpoint elemKeys (t : goType) : list goType :=
  match t with TPtr t' | TSlice t' | TArray t' => elemKeys t' | TMap k v => k :: elemKeys v | _ => [] end.
Fixpoint elemType (t : goType) : goType :=
  match t with TPtr t' | TSlice t' | TArray t' | TMap _ t' => elemType t' | _ => t end.

Section Schema.
(** The declared struct types, the caller's own manifests (nil or a map, whose nil entry
    marks an opaque scalar) and the opaque fields. *)
Context (G : list (string * goStruct)) (additional : option (list (string * option (list string)))) (opaque : list string).

(** [depth] is how many levels are left of the 32 below the first. *)
Fixpoint schemaUnclassified (depth : nat) (t : goType) (path : string) : list string :=
  match depth with
  | O => [path]
  | S depth' =>
      let out := flat_map (fun k => schemaUnclassified depth' k (path +:+ "[key]")) (elemKeys t) in
      match elemType t with
      | TIface | TFunc => out ++ [path]
      | TStruct name =>
          let explicit := match additional with Some m => assocStr name m | None => None end in
          let walk (fields : option (list string)) :=
            let root := bool_decide (name ∈ tableRoots) in
            if negb root && bool_decide (fields = None) then out ++ [path]
            else
              out ++ flat_map (fun f =>
                if negb (fExported f) && negb (fAnonymous f) && bool_decide (additional = None) then []
                else
                  let child := path +:+ "." +:+ fName f in
                  if bool_decide (default "" (sName <$> assocStr name G) +:+ "." +:+ fName f ∈ opaque) then []
                  else if negb (bool_decide (fName f ∈ default [] fields)) && (negb root || (negb (fExported f) && fAnonymous f)) then [child]
                  else schemaUnclassified depth' (fType f) child)
                (default [] (sFields <$> assocStr name G)) in
          match explicit with
          | Some None => out
          | Some (Some fs) => walk (Some fs)
          | None => walk (assocStr name nestedFields)
          end
      | _ => out
      end
  end.

End Schema.

(** The caller's opaque fields join the ones here ([mergeOpaque]). *)
Definition SchemaUnclassified (G : list (string * goStruct)) (t : goType) (path : string) (additional : option (list (string * option (list string)))) (extra : list string) : list string :=
  schemaUnclassified G additional (opaqueFields ++ extra) 33 t path.

Definition nestedUnclassified (G : list (string * goStruct)) (name path : string) : list string :=
  schemaUnclassified G None opaqueFields 33 (TStruct name) path.

Definition NestedUnclassified (G : list (string * goStruct)) : list string :=
  nestedUnclassified G "runner.SandboxSpec" StructSandboxSpec ++
  nestedUnclassified G "proxy.Config" "StoredProxyConfig" ++
  nestedUnclassified G "placement.CredentialOrigin" "CredentialOrigin" ++
  nestedUnclassified G "placement.CredentialIntent" "CredentialIntent" ++
  nestedUnclassified G "placement.DeliveryPolicy" "DeliveryPolicy" ++
  nestedUnclassified G "placement.LocalPlan" "LocalPlan".

(** ** Fields the table does not name *)

Definition unclassifiedIn (name : string) (t : goStruct) : list string :=
  flat_map (fun f => if fExported f && bool_decide (Entries name (fName f) = []) then [name +:+ "." +:+ fName f] else []) (sFields t).

Definition unclassifiedPaths (structName field : string) (t : goStruct) : list string :=
  flat_map (fun f =>
    if negb (fExported f) then []
    else if containsFunc (fun e => String.eqb (ePath e) (fName f) || HasPrefix (ePath e) (fName f +:+ ".")) (Entries structName field) then []
    else [structName +:+ "." +:+ field +:+ "." +:+ fName f]) (sFields t).

Definition Unclassified : list string :=
  unclassifiedIn StructSandboxSpec runner_SandboxSpec ++ unclassifiedIn StructProxyConfig runner_ProxyConfig ++
  unclassifiedPaths StructProxyConfig "Policy" types_RunPolicySpec ++ NestedUnclassified goTypes.

(** ** The dispatched types are closed under the schema

    What an empty answer of the walk over the declared types means, and that the program's
    own types give one: every type a dispatched value can hold is known, and no field of it
    escapes the table and the manifests. *)

Section Closed.
Context (G : list (string * goStruct)).

(** A field the walk enters: one that reflection or JSON can reach, and not declared opaque. *)
Definition entered (name : string) (st : goStruct) (f : goField) : Prop :=
  assocStr name G = Some st /\ f ∈ sFields st /\ (fExported f = true \/ fAnonymous f = true) /\
  sName st +:+ "." +:+ fName f ∉ opaqueFields.

(** A value of the first type holds values of the second. *)
Inductive holdsType : goType -> goType -> Prop :=
| HoldsPtr t : holdsType (TPtr t) t
| HoldsSlice t : holdsType (TSlice t) t
| HoldsArray t : holdsType (TArray t) t
| HoldsKey k v : holdsType (TMap k v) k
| HoldsValue k v : holdsType (TMap k v) v
| HoldsField name st f : entered name st f -> holdsType (TStruct name) (fType f).

(** No value of unknown dynamic type, and a struct's every field is in its manifest; the
    two table roots are classified field by field instead. *)
Definition closedType (t : goType) : Prop :=
  match t with
  | TFunc | TIface => False
  | TStruct name =>
      (name ∈ tableRoots \/ is_Some (assocStr name nestedFields)) /\
      forall st f, entered name st f -> fName f ∈ default [] (assocStr name nestedFields) \/ (name ∈ tableRoots /\ fExported f = true)
  | _ => True
  end.

Local Notation walk := (schemaUnclassified G None opaqueFields).

Lemma flat_map_nil {A B} (f : A -> list B) l : flat_map f l = [] -> forall x, x ∈ l -> f x = [].
Proof.
  induction l as [|y l IH]; [intros _ x Hx%elem_of_nil; done|]. cbn [flat_map]. intros [E1 E2]%app_eq_nil x [->|Hx]%elem_of_cons; [done|]. by apply IH.
Qed.

Lemma walk_keys d t path : walk (S d) t path = [] -> forall k, k ∈ elemKeys t -> walk d k (path +:+ "[key]") = [].
Proof.
  cbn [schemaUnclassified]. intros H k Hk. apply (flat_map_nil (fun k => walk d k (path +:+ "[key]")) (elemKeys t)); [|done].
  destruct (elemType t); try done; try (by apply app_eq_nil in H as [H _]).
  destruct (negb _ && _); by apply app_eq_nil in H as [H _].
Qed.

Lemma walk_value d k v path : walk (S d) (TMap k v) path = [] -> walk (S d) v path = [].
Proof.
  cbn [schemaUnclassified elemKeys elemType flat_map]. intros H.
  destruct (elemType v); try (rewrite <- ?app_assoc in H; apply app_eq_nil in H as [_ H]; exact H).
  destruct (negb _ && _); rewrite <- ?app_assoc in H; apply app_eq_nil in H as [_ H]; exact H.
Qed.

Lemma walk_struct d name path : walk (S d) (TStruct name) path = [] ->
  (name ∈ tableRoots \/ is_Some (assocStr name nestedFields)) /\
  forall st f, entered name st f ->
    (fName f ∈ default [] (assocStr name nestedFields) \/ (name ∈ tableRoots /\ fExported f = true)) /\ walk d (fType f) (path +:+ "." +:+ fName f) = [].
Proof.
  cbn [schemaUnclassified elemKeys elemType flat_map app].
  destruct (bool_decide_reflect (name ∈ tableRoots)) as [Hr|Hr], (bool_decide_reflect (assocStr name nestedFields = None)) as [Hn|Hn];
    cbn [negb andb orb]; try done; intros H; (split; [first [by left|right; by apply not_eq_None_Some]|]); intros st f (Es & Hf & He & Ho);
    rewrite Es in H; cbn [fmap option_fmap option_map default] in H; apply (flat_map_nil _ _ H) in Hf; clear H; revert Hf;
    rewrite (bool_decide_eq_true_2 (None = None)) by done; rewrite (bool_decide_eq_false_2 _ Ho);
    destruct (fExported f) eqn:Ee, (fAnonymous f) eqn:Ea; cbn [negb andb orb]; try (by destruct He);
    destruct (bool_decide_reflect (fName f ∈ default [] (assocStr name nestedFields))); cbn [negb andb orb]; try done; intros ?; (split; [|done]); auto.
Qed.

Lemma walk_step d t t' path : walk d t path = [] -> holdsType t t' -> exists d' path', walk d' t' path' = [].
Proof.
  destruct d as [|d]; [done|]. intros H S. destruct S as [t|t|t|k v|k v|name st f E].
  1-3: by exists (S d), path.
  - exists d, (path +:+ "[key]"). apply (walk_keys d (TMap k v)); [done|]. cbn. left.
  - exists (S d), path. by apply (walk_value d k).
  - exists d, (path +:+ "." +:+ fName f). by apply (walk_struct d name path H) with (st := st).
Qed.

Lemma walk_closed d t path : walk d t path = [] -> closedType t.
Proof.
  destruct d as [|d]; [done|]. intros H. destruct t; cbn [closedType]; try done; try (by cbn in H).
  destruct (walk_struct _ _ _ H) as [H1 H2]. split; [done|]. intros st f E. by apply (H2 st f E).
Qed.

Lemma walk_sound t t' : rtc holdsType t t' -> forall d path, walk d t path = [] -> closedType t'.
Proof.
  induction 1 as [t|t u t' S _ IH]; intros d path H; [by eapply walk_closed|].
  destruct (walk_step _ _ _ _ H S) as (d' & path' & H'). by eapply IH.
Qed.
End Closed.

Definition dispatchRoots : list string :=
  ["runner.SandboxSpec"; "proxy.Config"; "placement.CredentialOrigin"; "placement.CredentialIntent"; "placement.DeliveryPolicy"; "placement.LocalPlan"].

Lemma roots_walk_empty root : root ∈ dispatchRoots -> exists path, schemaUnclassified goTypes None opaqueFields 33 (TStruct root) path = [].
Proof.
  unfold dispatchRoots. rewrite !elem_of_cons, elem_of_nil.
  intros [->|[->|[->|[->|[->|[->|[]]]]]]]; exists ""; by vm_compute.
Qed.

(** The start-up check of the classification finds nothing: every exported field of the
    sandbox spec and of its proxy configuration has a row, every field of the policy has one
    by path, and every type that a dispatched value, a stored proxy configuration or a
    placement plan can hold, at any depth through pointers, slices, arrays, maps and fields,
    is a scalar, or a struct whose every field is listed; none is a function or an interface
    outside the four declared opaque fields. *)
Theorem dispatched_types_are_closed root t :
  root ∈ dispatchRoots -> rtc (holdsType goTypes) (TStruct root) t ->
  Unclassified = [] /\ closedType goTypes t /\
  (forall f, f ∈ sFields runner_SandboxSpec -> Entries StructSandboxSpec (fName f) <> []) /\
  (forall f, f ∈ sFields runner_ProxyConfig -> Entries StructProxyConfig (fName f) <> []).
Proof.
  intros Hr Ht. split; [by vm_compute|]. split.
  - destruct (roots_walk_empty root Hr) as [path H]. by apply (walk_sound _ _ _ Ht 33 path).
  - assert (C : forall name st, forallb (fun f => negb (bool_decide (Entries name (fName f) = []))) (sFields st) = true -> forall f, f ∈ sFields st -> Entries name (fName f) <> []).
    { intros name st H f Hf. rewrite forallb_forall in H. specialize (H f). rewrite <- list_elem_of_In in H. specialize (H Hf).
      by apply negb_true_iff, bool_decide_eq_false_1 in H. }
    split; apply C; by vm_compute.
Qed.

Lemma dispatched_types_are_closed_witness :
  rtc (holdsType goTypes) (TStruct "runner.SandboxSpec") (TStruct "types.GrantSpec") /\ closedType goTypes (TStruct "types.GrantSpec").
Proof.
  assert (E : forall name st f, assocStr name goTypes = Some st -> f ∈ sFields st -> fExported f = true -> sName st +:+ "." +:+ fName f ∉ opaqueFields -> holdsType goTypes (TStruct name) (fType f)).
  { intros name st f H1 H2 H3 H4. apply (HoldsField goTypes name st). split_and!; auto. }
  assert (R : rtc (holdsType goTypes) (TStruct "runner.SandboxSpec") (TStruct "types.GrantSpec")).
  { eapply rtc_l; [apply (E "runner.SandboxSpec" runner_SandboxSpec (fld "ProxyConfig" (TStruct "runner.ProxyConfig"))); [done|set_solver|done|by apply (bool_decide_unpack _); vm_compute]|].
    eapply rtc_l; [apply (E "runner.ProxyConfig" runner_ProxyConfig (fld "Policy" (TStruct "types.RunPolicySpec"))); [done|set_solver|done|by apply (bool_decide_unpack _); vm_compute]|].
    eapply rtc_l; [apply (E "types.RunPolicySpec" types_RunPolicySpec (fld "EligibleGrants" (TSlice (TStruct "types.GrantSpec")))); [done|set_solver|done|by apply (bool_decide_unpack _); vm_compute]|].
    apply rtc_once, HoldsSlice. }
  split; [exact R|]. apply (dispatched_types_are_closed "runner.SandboxSpec"); [left|exact R].
Defined.
