(* ===== verification/DeliveryCheck.v ===== *)
(** * The delivery policy: what a writer may store and what a run is delivered

    The write-time check and the read of a stored document of delivery.go, and the theorems
    on the document: the bounds a validated one keeps on every runner, the check against the
    list of rows that cannot be built, and the order on versions that a posture requirement
    is judged by. *)
From stdpp Require Import gmap.
From S2P Require Import Prelude GoStrings GoSlices Placement PlaceTable.
Local Open Scope string_scope.
Local Open Scope Z_scope.
Local Open Scope list_scope.

(** ** Rows that cannot be built *)

Record UnbuildableRow := mkUnbuildable { uClass : string; uTrust : string; uMode : string; uBuildable : list string }.
Definition UnbuildablePath (r : UnbuildableRow) : string :=
  if String.eqb (uTrust r) "" then uClass r else "by_trust." +:+ uTrust r +:+ "." +:+ uClass r.

Definition rowFor (trust class mode : string) : UnbuildableRow := mkUnbuildable class trust mode (BuildableModes class).

(** One class of the document being written; [was] is the same part of the stored one. *)
Definition checkClass (trust : string) (classes was : gmap string ClassPolicy) (class : string) : option UnbuildableRow :=
  match classes !! class with
  | None => None
  | Some m =>
      if bool_decide (was !! class = Some m) then None
      else if negb (Buildable class (cpMode m)) then Some (rowFor trust class (cpMode m)) else None
  end.
Definition checkClasses (trust : string) (classes was : gmap string ClassPolicy) : option UnbuildableRow :=
  firstErr (checkClass trust classes was) (mapKeys classes).

(** The refusal is the row its sentence names. *)
Definition CheckBuildable (p before : DeliveryPolicy) : option UnbuildableRow :=
  match checkClasses "" (Classes p) (Classes before) with
  | Some r => Some r
  | None => firstErr (fun trust => checkClasses trust (trustClasses p trust) (trustClasses before trust)) (mapKeys (ByTrust p))
  end.

Definition addRow (trust : string) (classes : gmap string ClassPolicy) (class : string) : list UnbuildableRow :=
  let m := modeAt classes class in if negb (Buildable class m) then [rowFor trust class m] else [].
Definition addRows (trust : string) (classes : gmap string ClassPolicy) : list UnbuildableRow := flat_map (addRow trust classes) (mapKeys classes).
Definition Unbuildable (p : DeliveryPolicy) : list UnbuildableRow :=
  addRows "" (Classes p) ++ flat_map (fun trust => addRows trust (trustClasses p trust)) (mapKeys (ByTrust p)).

(** ** Loops over keys *)

Lemma elem_of_mapKeys {A} (m : gmap string A) k : k ∈ mapKeys m <-> is_Some (m !! k).
Proof.
  unfold mapKeys. rewrite elem_of_sortStrings, list_elem_of_fmap. split.
  - intros ([k' x] & -> & H%elem_of_map_to_list). by exists x.
  - intros [x H]. exists (k, x). split; [done|]. by apply elem_of_map_to_list.
Qed.

Lemma firstErr_None {A E} (f : A -> option E) l : firstErr f l = None <-> forall x, x ∈ l -> f x = None.
Proof.
  induction l as [|x l IH]; cbn [firstErr]; [split; [intros _ x H%elem_of_nil|]; done|].
  destruct (f x) eqn:E1.
  - split; [done|]. intros H. specialize (H x (list_elem_of_here _ _)). congruence.
  - rewrite IH. split; intros H y Hy.
    + apply elem_of_cons in Hy as [->|Hy]; auto.
    + apply H. by right.
Qed.

Lemma firstErr_ext {A E} (f g : A -> option E) l : (forall x, x ∈ l -> f x = g x) -> firstErr f l = firstErr g l.
Proof.
  induction l as [|x l IH]; intros H; [done|]. cbn [firstErr]. rewrite H by left. destruct (g x); [done|].
  apply IH. intros y Hy. apply H. by right.
Qed.

(** A loop that stops at the first row of each step is the head of all the rows. *)
Lemma firstErr_flat {A E} (f : A -> list E) l : firstErr (fun x => hd_error (f x)) l = hd_error (flat_map f l).
Proof. induction l as [|x l IH]; [done|]. cbn [firstErr flat_map]. destruct (f x); [apply IH|done]. Qed.

Lemma hd_error_app {A} (a b : list A) : hd_error (a ++ b) = match hd_error a with Some x => Some x | None => hd_error b end.
Proof. by destruct a. Qed.

Lemma filter_flat_map {A B} (f : B -> bool) (g : A -> list B) l : List.filter f (flat_map g l) = flat_map (fun x => List.filter f (g x)) l.
Proof. induction l as [|x l IH]; [done|]. cbn [flat_map]. by rewrite List.filter_app, IH. Qed.

(** ** The check and the list *)

(** A row's place in a document. *)
Definition rowAt (p : DeliveryPolicy) (r : UnbuildableRow) : option ClassPolicy :=
  (if String.eqb (uTrust r) "" then Classes p else trustClasses p (uTrust r)) !! uClass r.
Definition newRow (p before : DeliveryPolicy) (r : UnbuildableRow) : bool := negb (bool_decide (rowAt before r = rowAt p r)).

Section Check.
Context (p before : DeliveryPolicy).

Lemma row_places trust (classes was : gmap string ClassPolicy) :
  (forall class m, classes = (if String.eqb trust "" then Classes p else trustClasses p trust) ->
    was = (if String.eqb trust "" then Classes before else trustClasses before trust) ->
    rowAt p (rowFor trust class m) = classes !! class /\ rowAt before (rowFor trust class m) = was !! class).
Proof. intros class m -> ->. unfold rowAt, rowFor. cbn [uTrust uClass]. by destruct (String.eqb trust ""). Qed.

Lemma checkClasses_head trust (classes was : gmap string ClassPolicy) :
  classes = (if String.eqb trust "" then Classes p else trustClasses p trust) ->
  was = (if String.eqb trust "" then Classes before else trustClasses before trust) ->
  checkClasses trust classes was = hd_error (List.filter (newRow p before) (addRows trust classes)).
Proof.
  intros Hc Hw. unfold checkClasses, addRows. rewrite filter_flat_map, <- firstErr_flat. apply firstErr_ext.
  intros class [cp E]%elem_of_mapKeys. unfold checkClass, addRow, modeAt. rewrite E.
  destruct (negb (Buildable class (cpMode cp))) eqn:Eb; [|by destruct (bool_decide _)].
  destruct (row_places trust classes was class (cpMode cp) Hc Hw) as [H1 H2].
  cbn [List.filter]. unfold newRow. rewrite H1, H2, E. by destruct (bool_decide _).
Qed.
End Check.

Lemma trustClasses_empty_policy trust : trustClasses (mkDelivery ∅ ∅) trust = ∅.
Proof. unfold trustClasses. cbn [ByTrust]. by rewrite lookup_empty. Qed.

(** The write-time check refuses exactly the first row, in the order of the read's own
    list of rows that cannot be built, that the stored document does not already hold
    unchanged; with no such row the write is let through. *)
Theorem write_check_is_the_read_list p before :
  ~ is_Some (ByTrust p !! "") ->
  CheckBuildable p before = hd_error (List.filter (newRow p before) (Unbuildable p)).
Proof.
  intros Hn. unfold CheckBuildable, Unbuildable. rewrite (checkClasses_head p before "") by done.
  rewrite List.filter_app, hd_error_app. destruct (hd_error _); [done|].
  rewrite filter_flat_map, <- firstErr_flat. apply firstErr_ext. intros trust Ht%elem_of_mapKeys.
  apply checkClasses_head; (destruct (String.eqb_spec trust "") as [->|]; [by destruct Hn|done]).
Qed.

Definition pinnedPolicy : DeliveryPolicy :=
  mkDelivery {[ ClassAPIKey := mkClassPolicy ModeViaOrg None; ClassBedrockBearer := mkClassPolicy ModeRunnerResident None ]}
    {[ RunnerTrustPersonal := {[ ClassEnvSecret := mkClassPolicy ModeRefuse None; ClassGitPATBroker := mkClassPolicy ModeRunnerResident None ]};
       RunnerTrustOrgCluster := {[ ClassEnvSecret := mkClassPolicy ModeRunnerResident None ]} ]}.

Lemma write_check_is_the_read_list_witness :
  let before := mkDelivery {[ ClassBedrockBearer := mkClassPolicy ModeRunnerResident None ]} ∅ in
  CheckBuildable pinnedPolicy before = hd_error (List.filter (newRow pinnedPolicy before) (Unbuildable pinnedPolicy)) /\
  CheckBuildable pinnedPolicy before = Some (mkUnbuildable ClassGitPATBroker RunnerTrustPersonal ModeRunnerResident [ModeRefuse]) /\
  length (Unbuildable pinnedPolicy) = 2%nat.
Proof.
  intros before. split; [|by vm_compute]. apply write_check_is_the_read_list. vm_compute. by intros [? ?].
Defined.

(** ** A validated document *)

Section Valid.
Context (p : DeliveryPolicy) (Hv : PolicyValidate p = None).

Lemma valid_classes : validateClasses (Classes p) "" = None.
Proof. revert Hv. unfold PolicyValidate. by destruct (validateClasses _ _). Qed.

Lemma valid_trust trust : is_Some (ByTrust p !! trust) -> validateTrust p trust = None.
Proof.
  intros Ht. revert Hv. unfold PolicyValidate. destruct (validateClasses _ _); [done|]. intros H. rewrite firstErr_None in H. apply H. by apply elem_of_mapKeys.
Qed.

Definition rowOK (class : string) (cp : ClassPolicy) : Prop :=
  Writable class = true /\ cpMode cp ∈ classModes class /\ (cpPosture cp <> None -> cpMode cp = ModeRunnerResident).

Lemma validateClasses_ok classes prefix class cp : validateClasses classes prefix = None -> classes !! class = Some cp -> rowOK class cp.
Proof.
  unfold validateClasses. rewrite firstErr_None. intros H E. specialize (H class). rewrite elem_of_mapKeys, E in H.
  specialize (H (ex_intro _ cp eq_refl)). revert H. unfold validateClass. rewrite E. cbn zeta.
  destruct (classKnown class) eqn:Ek; [|done]. destruct (Writable class) eqn:Ew; [|done].
  destruct (bool_decide_reflect (cpMode cp ∈ classModes class)) as [Hm|]; [|done]. cbn [negb].
  destruct (bool_decide_reflect (cpPosture cp <> None)) as [Hp|Hp], (String.eqb_spec (cpMode cp) ModeRunnerResident) as [Hr|Hr]; cbn [andb negb]; done.
Qed.

Lemma valid_global class cp : Classes p !! class = Some cp -> rowOK class cp.
Proof. apply validateClasses_ok with (prefix := ""), valid_classes. Qed.

Lemma valid_override trust class cp : trustClasses p trust !! class = Some cp ->
  rowOK class cp /\ TrustValid trust = true /\ cpMode cp <> ModeViaOrg /\ modeAt (Classes p) class <> ModeViaOrg /\
  (trust = RunnerTrustOrgCluster -> cpPosture cp = None).
Proof.
  intros E. assert (Ht : is_Some (ByTrust p !! trust)).
  { revert E. unfold trustClasses. destruct (ByTrust p !! trust); [by eexists|]. cbn. by rewrite lookup_empty. }
  apply valid_trust in Ht. revert Ht. unfold validateTrust. destruct (TrustValid trust); [|done]. cbn [negb].
  destruct (validateClasses _ _) eqn:Ec; [done|]. rewrite firstErr_None. intros H. split; [by eapply validateClasses_ok|]. split; [done|].
  specialize (H class). rewrite elem_of_mapKeys, E in H. specialize (H (ex_intro _ cp eq_refl)). revert H. unfold validateOverride. rewrite E.
  destruct (String.eqb_spec (cpMode cp) ModeViaOrg); [done|]. destruct (String.eqb_spec (modeAt (Classes p) class) ModeViaOrg); [done|].
  destruct (bool_decide_reflect (cpPosture cp <> None)) as [Hp|Hp], (String.eqb_spec trust RunnerTrustOrgCluster) as [?|?]; cbn [andb]; try done;
    intros _; split_and!; try done; intros ?; destruct (cpPosture cp); try done; by destruct Hp.
Qed.
End Valid.

(** Which row [ForTrust] answers with. *)
Inductive answers (p : DeliveryPolicy) (class trust : string) : ClassPolicy -> Prop :=
| AnsViaOrg g : Classes p !! class = Some g -> cpMode g = ModeViaOrg -> answers p class trust g
| AnsRefuse : modeAt (Classes p) class <> ModeViaOrg -> answers p class trust refusePolicy
| AnsOverride cp : modeAt (Classes p) class <> ModeViaOrg -> TrustValid trust = true -> trustClasses p trust !! class = Some cp -> answers p class trust cp
| AnsGlobal g : Classes p !! class = Some g -> cpMode g <> ModeViaOrg -> TrustValid trust = true -> trustClasses p trust !! class = None -> answers p class trust g.

Lemma ForTrust_answers p class trust : answers p class trust (ForTrust p class trust).
Proof.
  unfold ForTrust. destruct (Classes p !! class) as [g|] eqn:Eg.
  - assert (Em : modeAt (Classes p) class = cpMode g) by (unfold modeAt; by rewrite Eg).
    destruct (String.eqb_spec (cpMode g) ModeViaOrg) as [|Hne]; [by apply AnsViaOrg|].
    destruct (TrustValid trust) eqn:Et; [|apply AnsRefuse; congruence]. cbn [negb default].
    destruct (trustClasses p trust !! class) eqn:Eo; [apply AnsOverride; congruence|by apply AnsGlobal].
  - assert (Em : modeAt (Classes p) class <> ModeViaOrg) by (unfold modeAt; by rewrite Eg).
    destruct (TrustValid trust) eqn:Et; [|by apply AnsRefuse]. cbn [negb default].
    destruct (trustClasses p trust !! class) eqn:Eo; [by apply AnsOverride|by apply AnsRefuse].
Qed.

(** A document that validates keeps its bounds on every runner. The mode a class is
    delivered under is refuse or one the class may have; a class that cannot be configured,
    or is unknown, is refused; a posture requirement stands only beside runner_resident and
    never on an org_cluster runner that an override governs; via_org is the same answer on
    every trust class, a known one or not; and an unknown trust class gets nothing else. *)
Theorem valid_policy_keeps_its_bounds p class trust :
  PolicyValidate p = None ->
  let cp := ForTrust p class trust in
  (cpMode cp = ModeRefuse \/ cpMode cp ∈ classModes class) /\
  (Writable class = false -> cp = refusePolicy) /\
  (cpPosture cp <> None -> cpMode cp = ModeRunnerResident) /\
  (cpMode cp = ModeViaOrg <-> modeAt (Classes p) class = ModeViaOrg) /\
  (TrustValid trust = false -> cpMode cp = ModeViaOrg \/ cp = refusePolicy) /\
  (is_Some (trustClasses p RunnerTrustOrgCluster !! class) -> cpPosture (ForTrust p class RunnerTrustOrgCluster) = None).
Proof.
  intros Hv cp. assert (Hc : forall t, cpMode (ForTrust p class t) = ModeViaOrg <-> modeAt (Classes p) class = ModeViaOrg).
  { intros t. destruct (ForTrust_answers p class t) as [g E H|H|cp' H _ E|g E H].
    - unfold modeAt. by rewrite E.
    - split; [by intros [=]|done].
    - split; [|done]. intros H'. by apply (valid_override p Hv t class) in E as (_ & _ & ? & _).
    - unfold modeAt. by rewrite E. }
  split_and!; [..|by apply Hc| |].
  - unfold cp. destruct (ForTrust_answers p class trust) as [g E H|H|cp' H _ E|g E H]; [right|by left|right|right]; try (by apply (valid_global p Hv class) in E as (_ & ? & _)).
    by apply (valid_override p Hv trust class) in E as ((_ & ? & _) & _).
  - intros Hw. unfold cp. destruct (ForTrust_answers p class trust) as [g E H|H|cp' H _ E|g E H]; [..|done| |]; exfalso.
    1,3: apply (valid_global p Hv class) in E as (? & _); congruence.
    apply (valid_override p Hv trust class) in E as ((? & _) & _). congruence.
  - unfold cp. destruct (ForTrust_answers p class trust) as [g E H|H|cp' H _ E|g E H]; [by apply (valid_global p Hv class) in E as (_ & _ & ?)|done| |by apply (valid_global p Hv class) in E as (_ & _ & ?)].
    by apply (valid_override p Hv trust class) in E as ((_ & _ & ?) & _).
  - intros Ht. unfold cp. destruct (ForTrust_answers p class trust) as [g E H|H|cp' H H' E|g E H H']; [by left|by right|congruence..].
  - intros [o Eo]. destruct (ForTrust_answers p class RunnerTrustOrgCluster) as [g E H|H|cp' H H' E|g E H H']; [|done| |congruence].
    + apply (valid_override p Hv) in Eo as (_ & _ & _ & Hn & _). destruct Hn. unfold modeAt. by rewrite E.
    + apply (valid_override p Hv) in E as (_ & _ & _ & _ & Hn). by apply Hn.
Qed.

Lemma valid_policy_keeps_its_bounds_witness :
  PolicyValidate pinnedPolicy = None /\ ForTrust pinnedPolicy ClassAPIKey "" = mkClassPolicy ModeViaOrg None /\
  (cpMode (ForTrust pinnedPolicy ClassEnvSecret RunnerTrustPersonal) = ModeViaOrg <-> modeAt (Classes pinnedPolicy) ClassEnvSecret = ModeViaOrg).
Proof.
  split; [by vm_compute|]. split; [by vm_compute|].
  destruct (valid_policy_keeps_its_bounds pinnedPolicy ClassEnvSecret RunnerTrustPersonal) as (_ & _ & _ & H & _); [by vm_compute|exact H].
Defined.

(** ** Versions *)

(** The numbers of a dotted version, 0 past its end; a numeric version has no other part. *)
Definition numeric (v : string) : Prop := forall part, part ∈ splitByte "." v -> is_Some (Atoi part).
Definition numberAt (l : list string) (i : nat) : Z := match l !! i with Some part => default 0 (Atoi part) | None => 0 end.

(** Lexicographic order on sequences of numbers. *)
Definition noOlder (f g : nat -> Z) : Prop :=
  (forall i, f i = g i) \/ exists i, (forall j, (j < i)%nat -> f j = g j) /\ g i < f i.

Lemma noOlder_refl f : noOlder f f.
Proof. by left. Qed.

Lemma noOlder_trans f g h : noOlder f g -> noOlder g h -> noOlder f h.
Proof.
  intros [E1|(i & E1 & L1)] [E2|(k & E2 & L2)].
  - left. intros i. by rewrite E1.
  - right. exists k. split; [intros j Hj; rewrite E1; by apply E2|]. by rewrite E1.
  - right. exists i. split; [intros j Hj; rewrite <- E2; by apply E1|]. by rewrite <- E2.
  - right. exists (Nat.min i k). split.
    + intros j Hj. rewrite E1 by lia. apply E2. lia.
    + destruct (Nat.lt_trichotomy i k) as [H|[->|H]].
      * rewrite Nat.min_l by lia. rewrite <- E2 by done. done.
      * rewrite Nat.min_id. lia.
      * rewrite Nat.min_r by lia. rewrite E1 by done. done.
Qed.

Lemma numeric_part l : (forall part, part ∈ l -> is_Some (Atoi part)) -> versionPart l = Some (numberAt l 0).
Proof.
  intros H. destruct l as [|x l]; [done|]. cbn [versionPart]. destruct (H x (list_elem_of_here _ _)) as [n E]. unfold numberAt. cbn. by rewrite E.
Qed.

Lemma numberAt_tail l i : numberAt (tail l) i = numberAt l (S i).
Proof. by destruct l. Qed.

Lemma numeric_tail l : (forall part, part ∈ l -> is_Some (Atoi part)) -> forall part, part ∈ tail l -> is_Some (Atoi part).
Proof. destruct l as [|x l]; [done|]. intros H part Hp. apply H. by right. Qed.

Lemma numberAt_past l i : (length l <= i)%nat -> numberAt l i = 0.
Proof. intros H. unfold numberAt. by rewrite lookup_ge_None_2. Qed.

Lemma versionLoop_spec n a b : (forall part, part ∈ a -> is_Some (Atoi part)) -> (forall part, part ∈ b -> is_Some (Atoi part)) ->
  (length a <= n)%nat -> (length b <= n)%nat ->
  versionLoop n a b = true <-> noOlder (numberAt a) (numberAt b).
Proof.
  revert a b. induction n as [|n IH]; intros a b Ha Hb La Lb.
  - split; [|done]. intros _. left. intros i. rewrite !numberAt_past by lia. done.
  - cbn [versionLoop]. rewrite (numeric_part a Ha), (numeric_part b Hb).
    assert (Lt : forall l : list string, (length l <= S n)%nat -> (length (tail l) <= n)%nat) by (intros [|? l] H; cbn in *; lia).
    destruct (Z.eqb_spec (numberAt a 0) (numberAt b 0)) as [E|E]; cbn [negb].
    + rewrite IH by (solve [apply Lt; done | apply numeric_tail; done]). unfold noOlder. split.
      * intros [H|(i & H & L)]; [left; intros [|i]; [done|]; rewrite <- !numberAt_tail; apply H|].
        right. exists (S i). rewrite <- !numberAt_tail. split; [|done]. intros [|j] Hj; [done|]. rewrite <- !numberAt_tail. apply H. lia.
      * intros [H|([|i] & H & L)]; [left; intros i; rewrite !numberAt_tail; apply H|lia|].
        right. exists i. rewrite !numberAt_tail. split; [|done]. intros j Hj. rewrite !numberAt_tail. apply H. lia.
    + rewrite Z.ltb_lt. split.
      * intros L. right. exists 0%nat. split; [lia|done].
      * intros [H|([|i] & H & L)]; [by destruct (E (H 0%nat))|done|]. destruct E. apply H. lia.
Qed.

Lemma versionAtLeast_spec v m : numeric v -> numeric m ->
  versionAtLeast v m = true <-> noOlder (numberAt (splitByte "." v)) (numberAt (splitByte "." m)).
Proof. intros Hv Hm. unfold versionAtLeast. apply versionLoop_spec; [done..|lia|lia]. Qed.

Lemma versionLoop_total n a b : (forall part, part ∈ a -> is_Some (Atoi part)) -> (forall part, part ∈ b -> is_Some (Atoi part)) ->
  versionLoop n a b = true \/ versionLoop n b a = true.
Proof.
  revert a b. induction n as [|n IH]; intros a b Ha Hb; [by left|]. cbn [versionLoop]. rewrite (numeric_part a Ha), (numeric_part b Hb).
  rewrite (Z.eqb_sym (numberAt b 0)). destruct (Z.eqb_spec (numberAt a 0) (numberAt b 0)) as [E|E]; cbn [negb]; [by apply IH; apply numeric_tail|].
  rewrite !Z.ltb_lt. lia.
Qed.

(** On versions whose every part is a number, [versionAtLeast] is the lexicographic
    order of their numbers, a missing part counting as 0; it is reflexive, transitive and
    total, so a runner that met a minimum still meets it after an upgrade, and meets every
    lower one. *)
Theorem versions_are_ordered u v w : numeric u -> numeric v -> numeric w ->
  (versionAtLeast u v = true <-> noOlder (numberAt (splitByte "." u)) (numberAt (splitByte "." v))) /\
  versionAtLeast u u = true /\
  (versionAtLeast u v = true \/ versionAtLeast v u = true) /\
  (versionAtLeast u v = true -> versionAtLeast v w = true -> versionAtLeast u w = true).
Proof.
  intros Hu Hv Hw. rewrite !versionAtLeast_spec by done. split_and!; [done|apply noOlder_refl| |apply noOlder_trans].
  rewrite <- !versionAtLeast_spec by done. unfold versionAtLeast. rewrite (Nat.max_comm (length (splitByte "." v))). by apply versionLoop_total.
Qed.

Lemma versions_are_ordered_witness :
  versionAtLeast "14.2" "14" = true /\ versionAtLeast "14" "13.9.1" = true /\ versionAtLeast "14.2" "13.9.1" = true.
Proof.
  assert (N : forall v, forallb (fun part => bool_decide (is_Some (Atoi part))) (splitByte "." v) = true -> numeric v).
  { intros v H part Hp. apply list_elem_of_In in Hp. rewrite forallb_forall in H. apply (bool_decide_eq_true_1 _). by apply H. }
  destruct (versions_are_ordered "14.2" "14" "13.9.1") as (_ & _ & _ & H); [apply N; by vm_compute..|].
  split; [by vm_compute|]. split; [by vm_compute|]. by apply H; vm_compute.
Defined.
