(* ===== verification/PlaceGate.v ===== *)
(** * Local eligibility: the gate a run passes before a laptop gets it

    [src/internal/placement]: eligibility.go, resident_lift.go and enforce.go. The final
    spec is what reflection sees of it: a tree of [rv]. The code reads it by field name, in
    the order of the type's declaration, and rebuilds the copy a runner is sent.

    [uuid.Parse] is a parameter; a grant id is the text of its UUID. Copies are values: the
    source clones what it changes. *)
From stdpp Require Import gmap.
From S2P Require Import Prelude GoStrings GoSlices Grants CanonNumber AdoNames AdoCaps GHPath Placement PlaceTable.
Local Open Scope string_scope.
Local Open Scope Z_scope.
Local Open Scope list_scope.

(** ** Values as reflection sees them *)

(** A map's keys are printed ([fmt.Sprint]); [None] is nil. *)
Inductive rv :=
| VNone
| VBool (b : bool) | VInt (z : Z) | VStr (s : string) | VUUID (s : string) | VTime (ns : Z)
| VFunc (isNil : bool) | VBytes (o : option string)
| VPtr (o : option rv) | VSlice (o : option (list rv)) | VMap (o : option (list (string * rv)))
| VStruct (ty : string) (fields : list (string * rv)).

Definition nilID : string := "00000000-0000-0000-0000-000000000000".

Fixpoint IsZero (v : rv) : bool :=
  match v with
  | VNone => true
  | VBool b => negb b
  | VInt z => z =? 0
  | VStr s => String.eqb s ""
  | VUUID s => String.eqb s nilID
  | VTime z => z =? 0
  | VFunc n => n
  | VBytes None | VPtr None | VSlice None | VMap None => true
  | VBytes _ | VPtr _ | VSlice _ | VMap _ => false
  | VStruct _ fs => forallb (fun f => IsZero (snd f)) fs
  end.

(** [reflect.Value.SetZero]. *)
Fixpoint zeroOf (v : rv) : rv :=
  match v with
  | VNone => VNone
  | VBool _ => VBool false | VInt _ => VInt 0 | VStr _ => VStr "" | VUUID _ => VUUID nilID | VTime _ => VTime 0
  | VFunc _ => VFunc true | VBytes _ => VBytes None | VPtr _ => VPtr None | VSlice _ => VSlice None | VMap _ => VMap None
  | VStruct t fs => VStruct t (map (fun f => (fst f, zeroOf (snd f))) fs)
  end.

(** [FieldByName], and an assignment to a field. *)
Definition rField (v : rv) (n : string) : rv := match v with VStruct _ fs => default VNone (assocStr n fs) | _ => VNone end.
Definition setField (v : rv) (n : string) (x : rv) : rv :=
  match v with
  | VStruct t fs => VStruct t (map (fun f => if String.eqb (fst f) n then (fst f, x) else f) fs)
  | _ => v
  end.
Definition rSlice (v : rv) : list rv := match v with VSlice (Some l) => l | _ => [] end.
Definition rMap (v : rv) : list (string * rv) := match v with VMap (Some l) => l | _ => [] end.
Definition rStr (v : rv) : string := match v with VStr s | VUUID s | VBytes (Some s) => s | _ => "" end.
Definition rBool (v : rv) : bool := match v with VBool b => b | _ => false end.
Definition rTime (v : rv) : Z := match v with VTime z => z | _ => 0 end.

(** ** Origins, plans and refusals *)

Record CredentialOrigin := mkOrigin {
  oClass : string; oDelivery : string; oGrantKind : string; oStored : bool; oOwnNamespace : bool; oOwnerOnly : bool; oResidentOptIn : bool }.
Definition noOrigin : CredentialOrigin := mkOrigin "" "" "" false false false false.

Record LocalPlan := mkPlan {
  Spec : rv; Origins : gmap string CredentialOrigin; CredentialIntents : list (string * CredentialOrigin);
  OrgConfigKeys : list string; VerifiedLocalPaths : gset string; UpstreamProxySecretRef : string; TrustedOutput : bool;
  SelfDefinedComponents : list string; LocalSelfDefinedComponents : bool; Delivery : DeliveryPolicy;
  Posture : option RunnerPosture; Trust : string; ConfinementFloor : string; OwnerKind : string }.
Definition originAt (p : LocalPlan) (path : string) : CredentialOrigin := default noOrigin (Origins p !! path).

Record Refusal := refuse { Reason : string; Field : string; Detail : string }.

Definition indexed (path : string) (i : nat) : string := path +:+ "[" +:+ Itoa (Z.of_nat i) +:+ "]".
Definition trustName (t : string) : string := if TrustValid t then t else "unknown".

(** ** The gates of one credential *)

Definition viaOrgAdmits (r : Entry) (mode : string) : bool :=
  eViaOrg r && negb (String.eqb (eRule r) RuleNotConfigured) && String.eqb mode ModeViaOrg && bool_decide (ModeViaOrg ∈ classModes (eDelivery r)).

Definition matchingRows (rows : list Entry) (o : CredentialOrigin) : list Entry :=
  let ours := List.filter (fun r => String.eqb (eClass r) (oClass o)) rows in
  List.filter (fun r => negb (String.eqb (eDelivery r) "") && String.eqb (eDelivery r) (oDelivery o)) ours ++
  List.filter (fun r => String.eqb (eDelivery r) "") ours.

Definition notDeliveredDetail (class trust mode : string) : string :=
  let at_ := class +:+ " credential is not delivered to a local runner of trust class " +:+ trustName trust in
  if String.eqb mode ModeViaOrg then at_ +:+ ": via_org delivery of this credential is not built yet (delivery policy: via_org)"
  else if negb (TrustValid trust) then at_ +:+ " (a runner of unknown trust class gets via_org delivery only)"
  else if String.eqb mode ModeRefuse || String.eqb mode "" then at_ +:+ " (delivery policy: refuse)"
  else at_ +:+ " (delivery policy: " +:+ mode +:+ ")".

Definition ResidentAdmits (o : CredentialOrigin) (p : LocalPlan) (path : string) : option Refusal :=
  let class := oDelivery o in
  let cp := ForTrust (Delivery p) class (Trust p) in
  if negb (bool_decide (ModeRunnerResident ∈ classModes class)) then
    Some (refuse ReasonPlacementCredential path (class +:+ " credential is never runner_resident"))
  else if negb (String.eqb (cpMode cp) ModeRunnerResident) then
    Some (refuse ReasonPlacementCredential path (class +:+ " credential is not delivered runner_resident under the current delivery policy"))
  else if String.eqb class ClassADOMintedPAT && negb (oResidentOptIn o) then
    Some (refuse ReasonPlacementCredential path "the Azure DevOps connection has not opted in to runner_resident, or its token mode is not minted_pat")
  else if String.eqb class ClassADOMintedPAT && negb (String.eqb (OwnerKind p) RunnerOwnerPerson) then
    Some (refuse ReasonPlacementCredential path "an Azure DevOps minted token is runner_resident only on a person's own runner")
  else if negb (String.eqb (ConfinementFloor p) "") then
    Some (refuse ReasonRunnerPostureUnmet path ("confinement_class: a runner-asserted class never meets the " +:+ ConfinementFloor p +:+ " floor for a runner_resident credential"))
  else
    let needs := match cpPosture cp with Some req => requires req | None => "" end in
    match PostureUnmetAll (cpPosture cp) (Posture p) with
    | [] => None
    | unmet =>
        match Posture p with
        | None => Some (refuse ReasonRunnerPostureUnmet path
            ("posture: no reported posture to judge. At launch no runner is chosen yet. A runner that reports no posture fails every posture requirement, so a delivery policy with require_posture refuses (requires " +:+ needs +:+ ")"))
        | Some _ => Some (refuse ReasonRunnerPostureUnmet path
            (String.concat ", " unmet +:+ ": the runner's reported posture does not meet " +:+ class +:+ "'s requirement (requires " +:+ needs +:+ ")"))
        end
    end.

Section Gate.
Context (uuidParse : string -> option string).

Definition isSomeStr (o : option string) : bool := match o with Some _ => true | None => false end.

Fixpoint residentPlaceholderLeaf (v : rv) : bool :=
  match v with
  | VPtr (Some v') => residentPlaceholderLeaf v'
  | VStr s => isSomeStr (ResidentGrantID uuidParse s)
  | VBytes o => isSomeStr (ResidentGrantID uuidParse (default "" o))
  | VStruct ty fs =>
      let field n := existsb (fun f => String.eqb (fst f) n && residentPlaceholderLeaf (snd f)) fs in
      if String.eqb ty "runner.ManagedFile" then field "Content"
      else if String.eqb ty "proxy.ResidentMint" then negb (rTime (rField v "ExpiresAt") =? 0) && field "Token"
      else false
  | _ => false
  end.

Definition fillPlaceholderLeaf (v : rv) : bool :=
  match v with
  | VStr s => isSomeStr (FillGrantID uuidParse s)
  | VStruct ty _ => String.eqb ty "runner.ManagedFile" && isSomeStr (FillGrantID uuidParse (rStr (rField v "Content")))
  | _ => false
  end.

Definition isValid (v : rv) : bool := match v with VNone => false | _ => true end.
Definition notBuiltDetail : string := "runner_resident delivery of this credential is not built yet".

Definition residentValueRefusal (path class : string) (record : bool) (leaf : rv) : option Refusal :=
  if negb (residentBuilt class) then Some (refuse ReasonPlacementCredential path notBuiltDetail)
  else if String.eqb class ClassADOMintedPAT then None
  else if record then None
  else if negb (isValid leaf) then Some (refuse ReasonPlacementCredential path notBuiltDetail)
  else if negb (residentPlaceholderLeaf leaf) && negb (fillPlaceholderLeaf leaf) then
    Some (refuse ReasonPlacementCredential path "a runner_resident value is dispatched only as its placeholder, never inline")
  else None.

(** The struct and field whose rows judge a path; a grant record's are its kind's. *)
Definition rowKey (path : string) (o : CredentialOrigin) : string * string :=
  let k := if HasPrefix path "ProxyConfig." then (StructProxyConfig, beforeFirst "[" (TrimPrefix path "ProxyConfig."))
           else (StructSandboxSpec, beforeFirst "[" (TrimPrefix path "SandboxSpec.")) in
  if String.eqb (snd k) "Policy.EligibleGrants" then (StructGrantKind, oGrantKind o) else k.

(** The loop over the matching rows: the first row that does not [continue] decides. *)
Fixpoint judgeRows (rows : list Entry) (path : string) (o : CredentialOrigin) (p : LocalPlan) (record : bool) (leaf : rv) : option Refusal :=
  match rows with
  | [] => Some (refuse ReasonPlacementCredential path "credential variant has no permitted local rule")
  | r :: rows' =>
      let mode := cpMode (ForTrust (Delivery p) (eDelivery r) (Trust p)) in
      if bool_decide (eRule r ∈ [RuleAllow; RuleOwnerOnlyOwn]) then
        if String.eqb (oClass o) ClassOwn && negb (oOwnNamespace o) then
          Some (refuse ReasonPlacementCredential path "credential requires proof of its owner namespace")
        else if String.eqb (oClass o) ClassOwn && oStored o && (negb (oOwnNamespace o) || negb (oOwnerOnly o)) then
          Some (refuse ReasonPlacementCredential path "stored credential requires its owner's namespace and OwnerOnly")
        else if String.eqb (eRule r) RuleOwnerOnlyOwn && negb (oStored o) then judgeRows rows' path o p record leaf
        else None
      else if bool_decide (eRule r ∈ [RuleDelivery; RuleViaOrgRefuse; RuleNotConfigured]) then
        if viaOrgAdmits r mode then None
        else if String.eqb mode ModeRunnerResident && String.eqb (eRule r) RuleDelivery then
          match ResidentAdmits o p path with
          | Some ref => Some ref
          | None => residentValueRefusal path (eDelivery r) record leaf
          end
        else Some (refuse ReasonPlacementCredential path (notDeliveredDetail (eDelivery r) (Trust p) mode))
      else if String.eqb (eRule r) RuleResidentViaOrg then
        if negb (String.eqb mode ModeRunnerResident) then Some (refuse ReasonPlacementCredential path (notDeliveredDetail (eDelivery r) (Trust p) mode))
        else ResidentAdmits o p path
      else Some (refuse ReasonPlacementCredential path "credential row has a rule this server does not implement")
  end.

Definition entrySource : Type := string -> string -> list Entry.

Definition classifyCredential (entries : entrySource) (path : string) (o : CredentialOrigin) (p : LocalPlan) (leaf : rv) : option Refusal :=
  if String.eqb (oClass o) "" then Some (refuse ReasonPlacementCredential path "credential provenance is unknown")
  else
    let k := rowKey path o in
    judgeRows (matchingRows (entries (fst k) (snd k)) o) path o p (String.eqb (fst k) StructGrantKind) leaf.
End Gate.

(** ** Local eligibility: the walk over the spec and the copy a runner is sent

    enforce.go and the body of [LocalEligibility] of [src/internal/placement], with
    [HostOf] of [src/internal/hostrules]. *)

(** ** Host names *)

Definition hostByte (c : ascii) : bool := is_lower c || is_digit c.
(** [^[a-z0-9]([a-z0-9.-]{0,251}[a-z0-9])?$], with a dot. *)
Definition ValidApprovedHost (h : string) : bool :=
  str_has "." h && (String.length h <=? 253)%nat &&
  str_forall (fun c => hostByte c || Ascii.eqb c "." || Ascii.eqb c "-") h &&
  match h with String c _ => hostByte c | "" => false end &&
  match String.get (String.length h - 1) h with Some c => hostByte c | None => false end.

Definition HostOf `{GoUnicode} (rawURL : string) : string :=
  let s := TrimSpace rawURL in
  let s := match cutStr "://" s with Some (_, r) => r | None => s end in
  let authority := fst (spanAny "/?#" s) in
  let s := match cutLastByte "@" authority with Some (a, _) => strDrop (String.length a + 1) s | None => s end in
  let s := ToLower (fst (spanAny "/:" s)) in
  if ValidApprovedHost s then s else "".

(** ** Every credential of a spec *)

Definition nonCredentialElement (structName field : string) (e : rv) : bool :=
  String.eqb structName StructSandboxSpec && String.eqb field "ManagedFiles" && negb (rBool (rField e "AgentOwned")).

Definition slicePaths (path : string) (l : list rv) (skip : rv -> bool) : list string :=
  flat_map (fun iv => if skip (snd iv) then [] else [indexed path (fst iv)]) (zip (seq 0 (length l)) l).

Definition elementPaths (path : string) (v : rv) (skip : rv -> bool) : list string :=
  match v with
  | VMap o =>
      let kvs := default [] o in
      flat_map (fun k => if skip (default VNone (assocStr k kvs)) then [] else [path +:+ "[" +:+ k +:+ "]"]) (sortStrings (map fst kvs))
  | VSlice o => slicePaths path (default [] o) skip
  | VBytes o => slicePaths path (map (fun c => VInt (byte_of c)) (String.list_ascii_of_string (default "" o))) skip
  | VUUID _ => slicePaths path (replicate 16 (VInt 0)) skip
  | _ => if IsZero v then [] else [path]
  end.

Definition structPaths (entries : entrySource) (structName prefix : string) (t : goStruct) (v : rv) : list string :=
  flat_map (fun f =>
    if negb (fExported f) || negb (rsCredential (rulesOf (entries structName (fName f)))) then []
    else elementPaths (prefix +:+ "." +:+ fName f) (rField v (fName f)) (nonCredentialElement structName (fName f))) (sFields t).

Definition proxyOf (s : rv) : rv := rField s "ProxyConfig".
Definition policyOf (s : rv) : rv := rField (proxyOf s) "Policy".
Definition grantPath : string := "ProxyConfig.Policy.EligibleGrants".

Definition credentialPaths (entries : entrySource) (s : rv) : list string :=
  structPaths entries StructSandboxSpec "SandboxSpec" runner_SandboxSpec s ++
  structPaths entries StructProxyConfig "ProxyConfig" runner_ProxyConfig (proxyOf s) ++
  map (indexed grantPath) (seq 0 (length (rSlice (rField (policyOf s) "EligibleGrants")))).
Definition CredentialPaths (s : rv) : list string := credentialPaths Entries s.

Definition credentialElement (s : rv) (path : string) : rv :=
  let at_ (root : rv) (rest : string) :=
    match cutByte "[" rest with
    | None => rField root rest
    | Some (field, key) =>
        let key := TrimSuffix key "]" in
        match rField root field with
        | VMap o => default VNone (assocStr key (default [] o))
        | VSlice o =>
            match Atoi key with
            | Some i => if (0 <=? i) && (i <? Z.of_nat (length (default [] o))) then nth (Z.to_nat i) (default [] o) VNone else VNone
            | None => VNone
            end
        | _ => VNone
        end
    end in
  match CutPrefix path "SandboxSpec." with
  | Some rest => at_ s rest
  | None => match CutPrefix path "ProxyConfig." with Some rest => at_ (proxyOf s) rest | None => VNone end
  end.

(** ** The gates of a refused or bound field *)

(** The first refusal of a loop over a slice, with its index. *)
Fixpoint eachIndexed {A} (f : nat -> A -> option Refusal) (i : nat) (l : list A) : option Refusal :=
  match l with [] => None | x :: l' => match f i x with Some r => Some r | None => eachIndexed f (S i) l' end end.

Definition laptopLocalModel (p : LocalPlan) (base : string) : bool :=
  match assocStr base (rMap (rField (proxyOf (Spec p)) "LocalModels")) with
  | Some s => rBool (rField s "AllowOnLaptopRunners") && String.eqb (OwnerKind p) RunnerOwnerPerson
  | None => false
  end.

Definition noLocalRule : string := "credential variant has no permitted local rule".
Definition refuseWhen (b : bool) (reason field detail : string) : option Refusal := if b then Some (refuse reason field detail) else None.
Definition ptrSet (v : rv) : bool := match v with VPtr (Some _) => true | _ => false end.

Definition mountGate (p : LocalPlan) (i : nat) (m : rv) : option Refusal :=
  let path := indexed "SandboxSpec.Mounts" i in
  if negb (rBool (rField m "MemberAuthored")) then Some (refuse ReasonPlacementCapability path "operator host mounts cannot be sent to a local runner")
  else refuseWhen (negb (bool_decide (path ∈ VerifiedLocalPaths p))) ReasonPlacementLocalPath path "local path is not bound to this runner's allowed roots".

Definition driveGate (p : LocalPlan) (i : nat) (d : rv) : option Refusal :=
  let path := indexed "SandboxSpec.Drives" i in
  let verified := bool_decide (path ∈ VerifiedLocalPaths p) in
  let backend := rStr (rField d "Backend") in
  if String.eqb backend "mac_disk" then refuseWhen (negb verified) ReasonPlacementLocalPath path "disk drive is not kept on this runner"
  else if negb (String.eqb backend "host_path") then Some (refuse ReasonPlacementCapability path "organisation storage cannot be sent to a local runner")
  else refuseWhen (negb verified) ReasonPlacementLocalPath path "drive path is not bound to this runner's allowed roots".

Definition gates (key : string) : option (LocalPlan -> option Refusal) :=
  let pc p n := rField (proxyOf (Spec p)) n in
  let at_ := String.eqb key in
  if at_ "SandboxSpec.Mounts" then Some (fun p => eachIndexed (mountGate p) 0 (rSlice (rField (Spec p) "Mounts")))
  else if at_ "SandboxSpec.Drives" then Some (fun p => eachIndexed (driveGate p) 0 (rSlice (rField (Spec p) "Drives")))
  else if at_ "ProxyConfig.GitHubAPI" then Some (fun p => refuseWhen (ptrSet (pc p "GitHubAPI")) ReasonPlacementCredential key "the GitHub CLI's App token cannot be sent to a local runner")
  else if at_ "ProxyConfig.LLMUpstreams" then
    Some (fun p => refuseWhen (containsFunc (fun kv => negb (laptopLocalModel p (rStr (snd kv)))) (rMap (pc p "LLMUpstreams"))) ReasonPlacementCredential key noLocalRule)
  else if at_ "ProxyConfig.GatewayIdentity" then
    Some (fun p => refuseWhen (negb (bool_decide (rSlice (pc p "GatewayIdentity") = []))) ReasonPlacementCredential key noLocalRule)
  else if at_ "ProxyConfig.LocalModels" then
    Some (fun p => refuseWhen (containsFunc (fun kv => negb (laptopLocalModel p (fst kv))) (rMap (pc p "LocalModels"))) ReasonPlacementCredential key noLocalRule)
  else if at_ "SandboxSpec.DesktopSignins" then
    Some (fun p => refuseWhen (rBool (rField (Spec p) "DesktopSignins")) ReasonPlacementCapability key "desktop sign-ins run on the organisation's own runner only")
  else if at_ "ProxyConfig.DesktopSignins" then
    Some (fun p => refuseWhen (rBool (pc p "DesktopSignins")) ReasonPlacementCredential key "the sign-in listener's credential is checked by the organisation's control plane")
  else if at_ "ProxyConfig.AzureARM" then Some (fun p => refuseWhen (ptrSet (pc p "AzureARM")) ReasonPlacementCredential key "the Azure CLI's token cannot be sent to a local runner")
  else if at_ "ProxyConfig.KubeAPI" then Some (fun p => refuseWhen (ptrSet (pc p "KubeAPI")) ReasonPlacementCredential key "kubectl's cluster token cannot be sent to a local runner")
  else None.

(** ** The strippers *)

Definition setProxy (s : rv) (n : string) (x : rv) : rv := setField s "ProxyConfig" (setField (proxyOf s) n x).
Definition setPolicy (s : rv) (n : string) (x : rv) : rv := setProxy s "Policy" (setField (policyOf s) n x).

Definition viaOrgPath (p : LocalPlan) (path : string) : bool :=
  match Origins p !! path with
  | Some o => negb (String.eqb (oClass o) ClassOwn) && negb (String.eqb (oClass o) "") && String.eqb (cpMode (ForTrust (Delivery p) (oDelivery o) (Trust p))) ModeViaOrg
  | None => false
  end.

Definition residentFillPath (p : LocalPlan) (path : string) : bool :=
  match Origins p !! path with
  | Some o => match matchingRows (Entries StructProxyConfig "Injection") o with r :: _ => String.eqb (eRule r) RuleResidentViaOrg | [] => false end
  | None => false
  end.

(** The elements [drop] does not name by index; nil when it names them all. *)
Definition keepIndexed {A} (drop : nat -> bool) (l : list A) : list A :=
  flat_map (fun ix => if drop (fst ix) then [] else [snd ix]) (zip (seq 0 (length l)) l).
Definition deleteIndexed (drop : nat -> bool) (v : rv) : rv :=
  let l := rSlice v in
  if existsb drop (seq 0 (length l)) then VSlice (match keepIndexed drop l with [] => None | out => Some out end) else v.

Definition ViaOrgRoute : Type := string * string.
Definition routeValue (r : ViaOrgRoute) : rv := VStruct "proxy.ViaOrgRoute" [("GrantID", VUUID (fst r)); ("Host", VStr (snd r))].
Definition valueRoute (v : rv) : ViaOrgRoute := (rStr (rField v "GrantID"), rStr (rField v "Host")).
Definition routeLeb (a b : ViaOrgRoute) : bool := String.leb (fst a +:+ " " +:+ snd a) (fst b +:+ " " +:+ snd b).

Definition injectionPath (i : nat) : string := indexed "ProxyConfig.Injection" i.
Definition routed (p : LocalPlan) (i : nat) : bool := viaOrgPath p (injectionPath i) || residentFillPath p (injectionPath i).
Definition injectionHost (v : rv) : string := rStr (rField (rField v "Rule") "Host").
Definition injectionRoute (v : rv) : ViaOrgRoute := (rStr (rField v "GrantID"), injectionHost v).
Definition viaOrgGitHubHost : string := "github.com".

(** The injections that leave for the organisation's routes. *)
Definition routedInjections (p : LocalPlan) (s : rv) : list rv :=
  let l := rSlice (rField (proxyOf s) "Injection") in
  flat_map (fun ix => if routed p (fst ix) then [snd ix] else []) (zip (seq 0 (length l)) l).
Definition gitRoutes (p : LocalPlan) (s : rv) : list ViaOrgRoute :=
  flat_map (fun kv => if viaOrgPath p ("ProxyConfig.GitGrants[" +:+ fst kv +:+ "]") then [(rStr (snd kv), viaOrgGitHubHost)] else [])
    (rMap (rField (proxyOf s) "GitGrants")).
Definition addHost (v : rv) (h : string) : rv := if bool_decide (h ∈ map rStr (rSlice v)) then v else VSlice (Some (rSlice v ++ [VStr h])).

Definition stripViaOrg (p : LocalPlan) (s0 : rv) : rv :=
  let s := setPolicy s0 "EligibleGrants" (deleteIndexed (fun i => viaOrgPath p (indexed grantPath i)) (rField (policyOf s0) "EligibleGrants")) in
  let moved := routedInjections p s in
  let s := setProxy s "MITMHosts" (fold_left addHost (map injectionHost moved) (rField (proxyOf s) "MITMHosts")) in
  let s := setProxy s "Injection" (deleteIndexed (routed p) (rField (proxyOf s) "Injection")) in
  let routes := map injectionRoute moved ++ gitRoutes p s in
  if bool_decide (routes = []) then s
  else setProxy s "ViaOrgRoutes"
    (VSlice (Some (map routeValue (compact (sortBy routeLeb (routes ++ map valueRoute (rSlice (rField (proxyOf s) "ViaOrgRoutes")))))))).

(** A pointer's target changed, when there is one. *)
Definition underPtr (v : rv) (f : rv -> rv) : rv := match v with VPtr (Some x) => VPtr (Some (f x)) | _ => v end.
Definition clearInspection (field : string) (s : rv) : rv :=
  setPolicy s "LLMInspection" (underPtr (rField (policyOf s) "LLMInspection") (fun li => setField li field (VSlice None))).

Section Enforce.
Context `{GoUnicode} (uuidParse : string -> option string).

Definition stripMITM (s : rv) : rv :=
  let pc := proxyOf s in
  let keep (v : rv) :=
    let h := HostOf (rStr v) in
    containsFunc (fun i => String.eqb h (injectionHost i)) (rSlice (rField pc "Injection")) ||
    containsFunc (fun r => String.eqb h (rStr (rField r "Host"))) (rSlice (rField pc "ViaOrgRoutes")) in
  setProxy s "MITMHosts" (match rField pc "MITMHosts" with VSlice (Some l) => VSlice (Some (List.filter keep l)) | v => v end).

Definition stripEnv (p : LocalPlan) (s : rv) : rv :=
  setField s "Env" (match rField s "Env" with VMap (Some l) => VMap (Some (List.filter (fun kv => negb (bool_decide (fst kv ∈ OrgConfigKeys p))) l)) | v => v end).

Definition strippers (k : string) : option (LocalPlan -> rv -> rv) :=
  if String.eqb k "SandboxSpec.Env" then Some stripEnv
  else if String.eqb k "ProxyConfig.MITMHosts" then Some (fun _ => stripMITM)
  else if String.eqb k "ProxyConfig.Policy.EligibleGrants" then Some stripViaOrg
  else if String.eqb k "ProxyConfig.Policy.LLMInspection.WorkspaceSecretValues" then Some (fun _ => clearInspection "WorkspaceSecretValues")
  else if String.eqb k "ProxyConfig.Policy.LLMInspection.WorkspaceSecretNames" then Some (fun _ => clearInspection "WorkspaceSecretNames")
  else None.

Fixpoint applyStrips (rows : list Entry) (key path : string) (p : LocalPlan) (s : rv) : Refusal + rv :=
  match rows with
  | [] => inr s
  | e :: rows' =>
      if negb (String.eqb (eRule e) RuleStrip) || String.eqb (eClass e) ClassComposite then applyStrips rows' key path p s
      else
        let k := if negb (String.eqb (ePath e) "") then key +:+ "." +:+ ePath e else key in
        match strippers k with
        | None => inl (refuse ReasonPlacementCredential path "no local strip is implemented for this field")
        | Some fn => applyStrips rows' key path p (fn p s)
        end
  end.

(** ** The walk *)

(** A struct of the copy: the spec itself, or its proxy configuration. *)
Definition structOf (structName : string) (s : rv) : rv := if String.eqb structName StructSandboxSpec then s else proxyOf s.
Definition setIn (structName : string) (s : rv) (n : string) (x : rv) : rv :=
  if String.eqb structName StructSandboxSpec then setField s n x else setProxy s n x.

Definition enforceField (entries : entrySource) (p : LocalPlan) (structName prefix : string) (s : rv) (f : goField) : Refusal + rv :=
  if negb (fExported f) then inr s
  else
    let rows := entries structName (fName f) in
    let rs := rulesOf rows in
    let key := structName +:+ "." +:+ fName f in
    let field := rField (structOf structName s) (fName f) in
    if IsZero field && negb (containsFunc (fun e => negb (String.eqb (ePath e) "")) rows) then inr s
    else
      match
        (if rsGated rs then
           match gates key with
           | None => Some (refuse ReasonPlacementCapability (prefix +:+ "." +:+ fName f) "no local enforcement is implemented for this field")
           | Some gate => gate p
           end
         else None)
      with
      | Some r => inl r
      | None =>
          let s := if rsNotSent rs && fJSON f then setIn structName s (fName f) (zeroOf field) else s in
          applyStrips rows key (prefix +:+ "." +:+ fName f) p s
      end.

Fixpoint enforceFields (entries : entrySource) (p : LocalPlan) (structName prefix : string) (fs : list goField) (s : rv) : Refusal + rv :=
  match fs with
  | [] => inr s
  | f :: fs' =>
      match enforceField entries p structName prefix s f with
      | inl r => inl r
      | inr s' => enforceFields entries p structName prefix fs' s'
      end
  end.

Definition enforceTable (entries : entrySource) (p : LocalPlan) : Refusal + rv :=
  match enforceFields entries p StructSandboxSpec "SandboxSpec" (sFields runner_SandboxSpec) (Spec p) with
  | inl r => inl r
  | inr s => enforceFields entries p StructProxyConfig "ProxyConfig" (sFields runner_ProxyConfig) s
  end.

(** ** Local eligibility *)

Definition grantGate (p : LocalPlan) (i : nat) (g : rv) : option Refusal :=
  let path := indexed grantPath i in
  let o := originAt p path in
  refuseWhen (negb (String.eqb (oGrantKind o) (rStr (rField g "Kind"))) || (String.eqb (oClass o) ClassOwn && negb (rBool (rField g "OwnerOnly"))))
    ReasonPlacementCredential path "credential provenance does not match its actual grant".

Definition LocalEligibility (p : LocalPlan) : Refusal + rv :=
  match Unclassified with
  | f :: _ => inl (refuse ReasonPlacementCredential f "unclassified dispatch field")
  | [] =>
      if TrustedOutput p then inl (refuse ReasonPlacementTrustedOutput "trusted_output" "this operation requires the organisation's substrate")
      else if negb (bool_decide (SelfDefinedComponents p = [])) && negb (LocalSelfDefinedComponents p) then
        inl (refuse ReasonPlacementComponentSelfDefine (hd "" (SelfDefinedComponents p)) "local_self_defined_components is not permitted by the profile")
      else if negb (String.eqb (UpstreamProxySecretRef p) "") then
        inl (refuse ReasonPlacementCredential "upstream_proxy_secret_ref" "the runner must use its own upstream proxy configuration")
      else
        match eachIndexed (grantGate p) 0 (rSlice (rField (policyOf (Spec p)) "EligibleGrants")) with
        | Some r => inl r
        | None =>
            match firstErr (fun path => classifyCredential uuidParse Entries path (originAt p path) p (credentialElement (Spec p) path)) (CredentialPaths (Spec p)) with
            | Some r => inl r
            | None =>
                match firstErr (fun it => classifyCredential uuidParse Entries (fst it) (snd it) p VNone) (CredentialIntents p) with
                | Some r => inl r
                | None => enforceTable Entries p
                end
            end
        end
  end.

(** ** The grants of a policy, judged before there is a spec *)

(** The plan of a grant alone: only the policy, the runner's trust class and the floor. *)
Definition grantPlan (policy : DeliveryPolicy) (trust floor : string) : LocalPlan :=
  mkPlan VNone ∅ [] [] ∅ "" false [] false policy None trust floor "".

Definition orgHeld (o : CredentialOrigin) : bool := negb (String.eqb (oClass o) ClassOwn) && negb (String.eqb (oClass o) "").

Definition ViaOrgGrant (o : CredentialOrigin) (policy : DeliveryPolicy) (trust : string) : bool :=
  orgHeld o && bool_decide (classifyCredential uuidParse Entries grantPath o (grantPlan policy trust "") VNone = None) &&
  String.eqb (cpMode (ForTrust policy (oDelivery o) trust)) ModeViaOrg.

Definition ResidentGrant (o : CredentialOrigin) (policy : DeliveryPolicy) (trust floor : string) : bool * option Refusal :=
  if negb (orgHeld o) || negb (String.eqb (cpMode (ForTrust policy (oDelivery o) trust)) ModeRunnerResident) then (false, None)
  else match classifyCredential uuidParse Entries grantPath o (grantPlan policy trust floor) VNone with
       | Some r => (false, Some r)
       | None => (true, None)
       end.
End Enforce.
