(* ===== verification/PlaceSound.v ===== *)
(** * What a local run's credentials are admitted by

    The credential classification of local placement against a statement of who may be
    delivered what, and the agreement of the check at create with the one at dispatch. *)
From stdpp Require Import gmap.
From S2P Require Import Prelude GoStrings GoSlices Grants CanonNumber AdoNames AdoCaps GHPath Placement PlaceTable DeliveryCheck PlaceGate.
Local Open Scope string_scope.
Local Open Scope Z_scope.
Local Open Scope list_scope.

(** ** The shape of the table *)

(** A field of credentials, or the record of a grant. *)
Definition credentialField (st f : string) : bool := rsCredential (rulesOf (Entries st f)) || String.eqb st StructGrantKind.

Definition rowFits (r : Entry) : bool :=
  negb (credentialField (eStruct r) (eField r)) ||
  (if String.eqb (eRule r) RuleAllow then bool_decide (eClass r ∈ [ClassOwn; ClassPlatform])
   else if String.eqb (eRule r) RuleOwnerOnlyOwn then String.eqb (eClass r) ClassOwn
   else bool_decide (eRule r ∈ [RuleDelivery; RuleViaOrgRefuse; RuleNotConfigured; RuleResidentViaOrg]) && negb (String.eqb (eDelivery r) "") &&
        (negb (String.eqb (eRule r) RuleResidentViaOrg) || residentBuilt (eDelivery r)) &&
        (negb (eViaOrg r) || negb (String.eqb (eClass r) ClassOwn))).

Lemma table_fits : forallb rowFits Table = true.
Proof. by vm_compute. Qed.

#[local] Opaque Table.

Lemma elem_Entries st f r : r ∈ Entries st f <-> r ∈ Table /\ eStruct r = st /\ eField r = f.
Proof.
  unfold Entries. rewrite !list_elem_of_In, List.filter_In, andb_true_iff, !String.eqb_eq. done.
Qed.

Lemma elem_matchingRows rows o r : r ∈ matchingRows rows o -> r ∈ rows /\ eClass r = oClass o /\ (eDelivery r <> "" -> eDelivery r = oDelivery o).
Proof.
  unfold matchingRows. rewrite elem_of_app, !list_elem_of_In, !List.filter_In, !andb_true_iff, !negb_true_iff, !String.eqb_eq.
  intros [[[H1 H2] [_ H3]]|[[H1 H2] H3]]; split_and!; done.
Qed.

(** A row that may judge a credential of [o] at a field of credentials. *)
Definition judges (o : CredentialOrigin) (r : Entry) : Prop :=
  r ∈ Table /\ eClass r = oClass o /\ (eDelivery r <> "" -> eDelivery r = oDelivery o) /\ rowFits r = true /\ credentialField (eStruct r) (eField r) = true.

Lemma matching_judges st f o r : credentialField st f = true -> r ∈ matchingRows (Entries st f) o -> judges o r.
Proof.
  intros Hc [Hr [Hk Hd]]%elem_matchingRows. apply elem_Entries in Hr as (Ht & <- & <-). split_and!; try done.
  pose proof table_fits as H. rewrite forallb_forall in H. apply H. by apply list_elem_of_In.
Qed.

(** ** Who may be delivered what *)

Definition modeFor (p : LocalPlan) (o : CredentialOrigin) : string := cpMode (ForTrust (Delivery p) (oDelivery o) (Trust p)).

(** The runner_resident gate, as a statement: the policy of this runner's trust class
    delivers the class so, it is built, the run has no confinement floor, the reported
    posture meets the requirement, and an Azure DevOps token is opted in on a person's own
    runner. *)
Definition residentOpen (p : LocalPlan) (o : CredentialOrigin) : Prop :=
  modeFor p o = ModeRunnerResident /\ Buildable (oDelivery o) ModeRunnerResident = true /\ ConfinementFloor p = "" /\
  PostureUnmetAll (cpPosture (ForTrust (Delivery p) (oDelivery o) (Trust p))) (Posture p) = [] /\
  (oDelivery o = ClassADOMintedPAT -> oResidentOptIn o = true /\ OwnerKind p = RunnerOwnerPerson).

Section Sound.
Context (uuidParse : string -> option string).

(** What is dispatched of a runner_resident credential: a placeholder, never the value;
    [served] says that the organisation fills it instead. *)
Definition noValue (o : CredentialOrigin) (record served : bool) (leaf : rv) : Prop :=
  record = true \/ served = true \/ oDelivery o = ClassADOMintedPAT \/
  residentPlaceholderLeaf uuidParse leaf = true \/ fillPlaceholderLeaf uuidParse leaf = true.

Inductive admitted (p : LocalPlan) (o : CredentialOrigin) (record served : bool) (leaf : rv) : Prop :=
| AdmOwn : oClass o = ClassOwn -> oOwnNamespace o = true -> (oStored o = true -> oOwnerOnly o = true) -> admitted p o record served leaf
| AdmPlatform : oClass o = ClassPlatform -> admitted p o record served leaf
| AdmViaOrg : oClass o <> ClassOwn -> modeFor p o = ModeViaOrg -> Buildable (oDelivery o) ModeViaOrg = true -> admitted p o record served leaf
| AdmResident : residentOpen p o -> noValue o record served leaf -> admitted p o record served leaf.

Lemma Buildable_true class m : Buildable class m = true <-> m ∈ classModes class /\ modeBuilt class m = true.
Proof. unfold Buildable, BuildableModes. rewrite bool_decide_eq_true. by rewrite !list_elem_of_In, List.filter_In. Qed.

Lemma viaOrg_built o r mode : judges o r -> eDelivery r <> "" -> viaOrgAdmits r mode = true -> mode = ModeViaOrg /\ Buildable (oDelivery o) ModeViaOrg = true.
Proof.
  intros (Ht & _ & Hd & _) Hne. unfold viaOrgAdmits. rewrite !andb_true_iff, bool_decide_eq_true, String.eqb_eq. intros [[[H1 H2] ->] H3].
  split; [done|]. rewrite <- (Hd Hne). apply Buildable_true. split; [done|]. change (modeBuilt (eDelivery r) ModeViaOrg) with
    (containsFunc (fun e => eViaOrg e && negb (String.eqb (eRule e) RuleNotConfigured) && String.eqb (eDelivery e) (eDelivery r)) Table).
  apply containsFunc_true. exists r. split; [done|]. rewrite H1, H2. cbn. apply String.eqb_refl.
Qed.

Lemma ResidentAdmits_open o p path : residentBuilt (oDelivery o) = true -> ResidentAdmits o p path = None -> residentOpen p o.
Proof.
  intros Hb. unfold ResidentAdmits, residentOpen, modeFor. cbn zeta. set (cp := ForTrust _ _ _).
  destruct (bool_decide_reflect (ModeRunnerResident ∈ classModes (oDelivery o))) as [Hm|]; [|done]. cbn [negb].
  destruct (String.eqb_spec (cpMode cp) ModeRunnerResident) as [Hc|]; [|done]. cbn [negb].
  destruct (String.eqb_spec (oDelivery o) ClassADOMintedPAT) as [Ha|Ha]; cbn [andb].
  - destruct (oResidentOptIn o); [|done]. destruct (String.eqb_spec (OwnerKind p) RunnerOwnerPerson); [|done]. cbn [negb].
    destruct (String.eqb_spec (ConfinementFloor p) ""); [|done]. cbn [negb]. destruct (PostureUnmetAll _ _) eqn:Ep; [|by destruct (Posture p)].
    intros _. split_and!; try done. by apply Buildable_true.
  - destruct (String.eqb_spec (ConfinementFloor p) ""); [|done]. cbn [negb]. destruct (PostureUnmetAll _ _) eqn:Ep; [|by destruct (Posture p)].
    intros _. split_and!; try done. by apply Buildable_true.
Qed.

Lemma residentValue_built path class record leaf : residentValueRefusal uuidParse path class record leaf = None ->
  residentBuilt class = true /\ (record = true \/ class = ClassADOMintedPAT \/ residentPlaceholderLeaf uuidParse leaf = true \/ fillPlaceholderLeaf uuidParse leaf = true).
Proof.
  unfold residentValueRefusal. destruct (residentBuilt class); [|done]. cbn [negb]. destruct (String.eqb_spec class ClassADOMintedPAT); [by auto|].
  destruct record; [by auto|]. destruct (isValid leaf); [|done]. cbn [negb].
  destruct (residentPlaceholderLeaf uuidParse leaf); [by auto|]. destruct (fillPlaceholderLeaf uuidParse leaf); [by auto|]. done.
Qed.

(** The placeholder fill of a row that serves it through the organisation. *)
Definition servedBy (rows : list Entry) : bool := containsFunc (fun r => String.eqb (eRule r) RuleResidentViaOrg) rows.

Lemma servedBy_cons r rows : servedBy (r :: rows) = String.eqb (eRule r) RuleResidentViaOrg || servedBy rows.
Proof. done. Qed.

Lemma judgeRows_admitted rows path o p record leaf :
  (forall r, r ∈ rows -> judges o r) ->
  judgeRows uuidParse rows path o p record leaf = None -> admitted p o record (servedBy rows) leaf.
Proof.
  assert (Hs : forall r rows, admitted p o record (servedBy rows) leaf -> admitted p o record (servedBy (r :: rows)) leaf).
  { intros r rs [H1 H2 H3|H1|H0 H1 H2|H1 H2]; [by apply AdmOwn|by apply AdmPlatform|by apply AdmViaOrg|apply AdmResident; [done|]].
    destruct H2 as [?|[H2|?]]; [by left| |by right; right]. right. left. by rewrite servedBy_cons, H2, orb_true_r. }
  induction rows as [|r rows IH]; intros Hj; [done|]. cbn [judgeRows]. pose proof (Hj r (list_elem_of_here _ _)) as Hr. destruct Hr as (Ht & Hk & Hd & Hf & Hc).
  revert Hf. unfold rowFits. rewrite Hc. cbn [negb orb]. intros Hf.
  destruct (bool_decide_reflect (eRule r ∈ [RuleAllow; RuleOwnerOnlyOwn])) as [Ha|Ha].
  - destruct (String.eqb_spec (oClass o) ClassOwn) as [Eo|Eo]; cbn [andb].
    + destruct (oOwnNamespace o) eqn:En; [|done]. destruct (oStored o && (negb true || negb (oOwnerOnly o))) eqn:Es; [done|]. intros _. apply AdmOwn; [done..|].
      intros H. rewrite H in Es. by destruct (oOwnerOnly o).
    + rewrite !elem_of_cons, elem_of_nil in Ha. destruct Ha as [Ha|[Ha|[]]]; rewrite Ha in Hf |- *.
      * change (String.eqb RuleAllow RuleAllow) with true in Hf. cbn iota in Hf. apply bool_decide_eq_true in Hf. rewrite Hk, !elem_of_cons, elem_of_nil in Hf.
        destruct Hf as [Hf|[Hf|[]]]; [done|]. intros _. by apply AdmPlatform.
      * change (String.eqb RuleOwnerOnlyOwn RuleAllow) with false in Hf. change (String.eqb RuleOwnerOnlyOwn RuleOwnerOnlyOwn) with true in Hf. cbn iota in Hf. apply String.eqb_eq in Hf. congruence.
  - destruct (String.eqb_spec (eRule r) RuleAllow) as [E|_]; [destruct Ha; rewrite E; left|]. destruct (String.eqb_spec (eRule r) RuleOwnerOnlyOwn) as [E|_]; [destruct Ha; rewrite E; right; left|].
    apply andb_prop in Hf as [[[_ Hne]%andb_prop Hb]%andb_prop Hw]. apply negb_true_iff, String.eqb_neq in Hne. pose proof (Hd Hne) as Ed. rewrite !Ed in *.
    destruct (bool_decide (eRule r ∈ _)).
    + destruct (viaOrgAdmits r _) eqn:Ev; [intros _|].
      { destruct (viaOrg_built o r _ (Hj r (list_elem_of_here _ _)) ltac:(by rewrite Ed) Ev) as [E1 E2]. apply AdmViaOrg; [|done..].
        unfold viaOrgAdmits in Ev. destruct (eViaOrg r); [|done]. cbn [negb orb] in Hw. rewrite Hk in Hw. by apply String.eqb_neq, negb_true_iff. }
      destruct (String.eqb _ ModeRunnerResident && _); [|done]. destruct (ResidentAdmits o p path) eqn:Er; [done|]. intros [Hb' Hv]%residentValue_built.
      apply AdmResident; [by eapply ResidentAdmits_open|]. unfold noValue. destruct Hv as [?|[?|[?|?]]]; auto.
    + destruct (String.eqb_spec (eRule r) RuleResidentViaOrg) as [E|]; [|done]. destruct (String.eqb _ ModeRunnerResident); [|done]. cbn [negb orb] in *.
      intros H. apply AdmResident; [by eapply ResidentAdmits_open|]. right. left. by rewrite servedBy_cons, E.
Qed.
End Sound.

(** ** The rows that judge a path of the spec *)

Lemma elem_of_flat_map {A B} (f : A -> list B) l y : y ∈ flat_map f l <-> exists x, x ∈ l /\ y ∈ f x.
Proof.
  rewrite list_elem_of_In, in_flat_map. split; intros (x & Hx & Hy); exists x; by rewrite ?list_elem_of_In in *.
Qed.

Definition tailed (path q : string) : Prop := q = path \/ exists r, q = path +:+ String "[" r.

Lemma slicePaths_tailed path l skip q : q ∈ slicePaths path l skip -> tailed path q.
Proof.
  unfold slicePaths. rewrite elem_of_flat_map. intros ([i v] & _ & H). revert H. cbn [fst snd]. destruct (skip v); [by intros ?%elem_of_nil|].
  intros ->%list_elem_of_singleton. right. by exists (Itoa (Z.of_nat i) +:+ "]").
Qed.

Lemma elementPaths_tailed path v skip q : q ∈ elementPaths path v skip -> tailed path q.
Proof.
  destruct v; cbn [elementPaths]; try (destruct (IsZero _); [by intros ?%elem_of_nil|by intros ->%list_elem_of_singleton; left]); try apply slicePaths_tailed.
  rewrite elem_of_flat_map. intros (k & _ & H). revert H. destruct (skip _); [by intros ?%elem_of_nil|].
  intros ->%list_elem_of_singleton. right. by exists (k +:+ "]").
Qed.

Definition plainField (f : goField) : bool := negb (str_has "[" (fName f)) && negb (String.eqb (fName f) "Policy.EligibleGrants").

Lemma beforeFirst_tailed f q : str_has "[" f = false -> tailed f q -> beforeFirst "[" q = f.
Proof.
  intros Hn [->|[r ->]]; unfold beforeFirst.
  - by rewrite cutByte_lacks.
  - by rewrite cutByte_at.
Qed.

Lemma tailed_app a f q : tailed (a +:+ f) q -> exists q', q = a +:+ q' /\ tailed f q'.
Proof. intros [->|[r ->]]; eexists; (split; [by rewrite <- ?str_app_assoc|]); [by left|right; by eexists]. Qed.

Lemma rowKey_proxy f q o : plainField f = true -> tailed ("ProxyConfig" +:+ "." +:+ fName f) q -> rowKey q o = (StructProxyConfig, fName f).
Proof.
  intros [Hn Hg]%andb_prop Ht. apply negb_true_iff in Hn, Hg. destruct (tailed_app "ProxyConfig." _ _ Ht) as (q' & -> & Hq).
  unfold rowKey. rewrite (proj2 (HasPrefix_spec _ _)) by by eexists. unfold TrimPrefix. rewrite (proj2 (CutPrefix_Some _ _ _) eq_refl). cbn [default fst snd].
  rewrite (beforeFirst_tailed (fName f)) by done. by rewrite Hg.
Qed.

Lemma rowKey_spec f q o : plainField f = true -> tailed ("SandboxSpec" +:+ "." +:+ fName f) q -> rowKey q o = (StructSandboxSpec, fName f).
Proof.
  intros [Hn Hg]%andb_prop Ht. apply negb_true_iff in Hn, Hg. destruct (tailed_app "SandboxSpec." _ _ Ht) as (q' & -> & Hq).
  unfold rowKey. change (HasPrefix ("SandboxSpec." +:+ q') "ProxyConfig.") with false. unfold TrimPrefix. rewrite (proj2 (CutPrefix_Some _ _ _) eq_refl). cbn [default fst snd].
  rewrite (beforeFirst_tailed (fName f)) by done. by rewrite Hg.
Qed.

Lemma rowKey_grant i o : rowKey (indexed grantPath i) o = (StructGrantKind, oGrantKind o).
Proof.
  change (indexed grantPath i) with ("ProxyConfig." +:+ ("Policy.EligibleGrants" +:+ String "[" (Itoa (Z.of_nat i) +:+ "]"))).
  unfold rowKey. rewrite (proj2 (HasPrefix_spec _ _)) by by eexists. unfold TrimPrefix. rewrite (proj2 (CutPrefix_Some _ _ _) eq_refl). cbn [default fst snd].
  rewrite (beforeFirst_tailed "Policy.EligibleGrants"); [done..|]. right. by eexists.
Qed.

Lemma fields_plain : forallb plainField (sFields runner_SandboxSpec ++ sFields runner_ProxyConfig) = true.
Proof. by vm_compute. Qed.

Lemma structPaths_elem st prefix t v q : q ∈ structPaths Entries st prefix t v ->
  exists f, f ∈ sFields t /\ credentialField st (fName f) = true /\ tailed (prefix +:+ "." +:+ fName f) q.
Proof.
  unfold structPaths. rewrite elem_of_flat_map. intros (f & Hf & H). exists f. revert H. unfold credentialField.
  destruct (rsCredential _); cbn [negb orb]; destruct (fExported f); cbn [negb orb]; try (by intros ?%elem_of_nil).
  intros H%elementPaths_tailed. split_and!; try done.
Qed.

Lemma plain_in t f : t = runner_SandboxSpec \/ t = runner_ProxyConfig -> f ∈ sFields t -> plainField f = true.
Proof.
  intros Ht Hf. pose proof fields_plain as H. rewrite forallb_forall in H. apply H. rewrite <- list_elem_of_In, elem_of_app. by destruct Ht as [-> | ->]; [left|right].
Qed.

Lemma CredentialPaths_key s q o : q ∈ CredentialPaths s -> credentialField (fst (rowKey q o)) (snd (rowKey q o)) = true.
Proof.
  unfold CredentialPaths, credentialPaths. rewrite !elem_of_app. intros [H|[H|H]].
  - apply structPaths_elem in H as (f & Hf & Hc & Ht). rewrite (rowKey_spec f) by (eauto using plain_in). done.
  - apply structPaths_elem in H as (f & Hf & Hc & Ht). rewrite (rowKey_proxy f) by (eauto using plain_in). done.
  - apply list_elem_of_fmap in H as (i & -> & _). rewrite rowKey_grant. unfold credentialField. cbn [fst snd]. by rewrite orb_true_r.
Qed.

(** ** The whole gate *)

Lemma nothing_unclassified : Unclassified = [].
Proof. by vm_compute. Qed.

#[local] Opaque Unclassified.

Record passed `{GoUnicode} (uuidParse : string -> option string) (p : LocalPlan) (s : rv) : Prop := {
  pass_output : TrustedOutput p = false;
  pass_components : SelfDefinedComponents p = [] \/ LocalSelfDefinedComponents p = true;
  pass_upstream : UpstreamProxySecretRef p = "";
  pass_grants : eachIndexed (grantGate p) 0 (rSlice (rField (policyOf (Spec p)) "EligibleGrants")) = None;
  pass_paths : forall path, path ∈ CredentialPaths (Spec p) -> classifyCredential uuidParse Entries path (originAt p path) p (credentialElement (Spec p) path) = None;
  pass_intents : forall field o, (field, o) ∈ CredentialIntents p -> classifyCredential uuidParse Entries field o p VNone = None;
  pass_table : enforceTable Entries p = inr s }.

Lemma LocalEligibility_passed `{GoUnicode} uuidParse p s : LocalEligibility uuidParse p = inr s -> passed uuidParse p s.
Proof.
  unfold LocalEligibility. rewrite nothing_unclassified. destruct (TrustedOutput p) eqn:E1; [done|].
  destruct (bool_decide_reflect (SelfDefinedComponents p = [])) as [E2|E2]; cbn [negb andb].
  2: destruct (LocalSelfDefinedComponents p) eqn:E3; cbn [negb]; [|done].
  all: destruct (String.eqb_spec (UpstreamProxySecretRef p) "") as [E4|]; [|done]; cbn [negb].
  all: destruct (eachIndexed _ _ _) eqn:E5; [done|].
  all: destruct (firstErr _ (CredentialPaths (Spec p))) eqn:E6; [done|]; rewrite firstErr_None in E6.
  all: destruct (firstErr _ (CredentialIntents p)) eqn:E7; [done|]; rewrite firstErr_None in E7; intros E8.
  all: split; auto; intros field o Hi; by apply (E7 (field, o)).
Qed.

Lemma classify_admitted uuidParse path o p leaf :
  credentialField (fst (rowKey path o)) (snd (rowKey path o)) = true ->
  classifyCredential uuidParse Entries path o p leaf = None ->
  admitted uuidParse p o (String.eqb (fst (rowKey path o)) StructGrantKind)
    (servedBy (matchingRows (Entries (fst (rowKey path o)) (snd (rowKey path o))) o)) leaf.
Proof.
  intros Hc. unfold classifyCredential. destruct (String.eqb (oClass o) ""); [done|]. apply judgeRows_admitted.
  intros r Hr. by eapply matching_judges.
Qed.

(** A plan the gate lets onto a laptop carries no credential without a delivery. For
    every present value of a field of credentials and every grant record, the origin is
    known and is the person's own (its namespace proved, and OwnerOnly if stored), or the
    platform's for this run; or the organisation's policy, read at this runner's trust
    class, delivers the class via_org and that is built; or it delivers the class
    runner_resident, that is built, the run has no confinement floor, the reported posture
    meets the requirement, an Azure DevOps token is opted in on a person's own runner, and
    what is dispatched is a placeholder or a record, never the value. The same holds of
    every credential still to be minted, and nothing whose output must be trusted, and no
    organisation proxy secret, is placed there. *)
Theorem local_run_holds_only_delivered_credentials `{GoUnicode} uuidParse p s :
  LocalEligibility uuidParse p = inr s ->
  (forall path, path ∈ CredentialPaths (Spec p) ->
    let o := originAt p path in
    admitted uuidParse p o (String.eqb (fst (rowKey path o)) StructGrantKind)
      (servedBy (matchingRows (Entries (fst (rowKey path o)) (snd (rowKey path o))) o)) (credentialElement (Spec p) path)) /\
  (forall field o, (field, o) ∈ CredentialIntents p -> credentialField (fst (rowKey field o)) (snd (rowKey field o)) = true ->
    admitted uuidParse p o (String.eqb (fst (rowKey field o)) StructGrantKind)
      (servedBy (matchingRows (Entries (fst (rowKey field o)) (snd (rowKey field o))) o)) VNone) /\
  TrustedOutput p = false /\ UpstreamProxySecretRef p = "".
Proof.
  intros [H1 _ H3 _ Hp Hi _]%LocalEligibility_passed. split_and!; [|intros field o Ho Hc; by apply classify_admitted; auto|done|done].
  intros path Hpath o. apply classify_admitted; [by eapply CredentialPaths_key|by apply Hp].
Qed.

(** ** Create and dispatch *)

Section Early.
Context (uuidParse : string -> option string).

Lemma ResidentAdmits_early o policy trust floor p path path' :
  Delivery p = policy -> Trust p = trust -> ConfinementFloor p = floor ->
  ResidentAdmits o (grantPlan policy trust floor) path' = None -> ResidentAdmits o p path = None.
Proof.
  intros <- <- <-. unfold ResidentAdmits. cbn zeta. cbn [grantPlan Delivery Trust ConfinementFloor OwnerKind Posture]. set (cp := ForTrust _ _ _).
  destruct (negb (bool_decide _)); [done|]. destruct (negb (String.eqb (cpMode cp) _)); [done|].
  destruct (String.eqb (oDelivery o) ClassADOMintedPAT); cbn [andb].
  - destruct (negb (oResidentOptIn o)); done.
  - destruct (negb (String.eqb (ConfinementFloor p) "")); [done|]. destruct (cpPosture cp); [done|]. by destruct (Posture p).
Qed.

Lemma judgeRows_early rows o policy trust floor p path path' leaf :
  (forall r, r ∈ rows -> judges o r) ->
  Delivery p = policy -> Trust p = trust -> (ConfinementFloor p = floor \/ modeFor p o = ModeViaOrg) ->
  judgeRows uuidParse rows path' o (grantPlan policy trust floor) true VNone = None -> judgeRows uuidParse rows path o p true leaf = None.
Proof.
  intros Hj Ed Et Ef. induction rows as [|r rows IH]; [done|]. cbn [judgeRows]. cbn [grantPlan Delivery Trust].
  destruct (Hj r (list_elem_of_here _ _)) as (_ & _ & Hd & Hf & Hc). revert Hf. unfold rowFits. rewrite Hc. cbn [negb orb]. intros Hf.
  assert (IH' := IH (fun r' Hr' => Hj r' (list_elem_of_further _ _ _ Hr'))). clear IH Hj. rewrite <- Ed, <- Et in *.
  destruct (bool_decide_reflect (eRule r ∈ [RuleAllow; RuleOwnerOnlyOwn])) as [Ha|Ha].
  { destruct (String.eqb (oClass o) ClassOwn && negb (oOwnNamespace o)); [done|]. destruct (String.eqb (oClass o) ClassOwn && oStored o && (negb (oOwnNamespace o) || negb (oOwnerOnly o))); [done|].
    by destruct (String.eqb (eRule r) RuleOwnerOnlyOwn && negb (oStored o)). }
  destruct (String.eqb_spec (eRule r) RuleAllow) as [E|_]; [destruct Ha; rewrite E; left|]. destruct (String.eqb_spec (eRule r) RuleOwnerOnlyOwn) as [E|_]; [destruct Ha; rewrite E; right; left|].
  apply andb_prop in Hf as [[[_ Hne]%andb_prop _]%andb_prop _]. apply negb_true_iff, String.eqb_neq in Hne. rewrite (Hd Hne). fold (modeFor p o).
  assert (Er : modeFor p o = ModeRunnerResident -> ResidentAdmits o (grantPlan (Delivery p) (Trust p) floor) path' = None -> ResidentAdmits o p path = None).
  { intros Em. destruct Ef as [Ef|Ef]; [by eapply ResidentAdmits_early|by rewrite Em in Ef]. }
  destruct (bool_decide (eRule r ∈ _)).
  - destruct (viaOrgAdmits r _); [done|]. destruct (String.eqb_spec (modeFor p o) ModeRunnerResident) as [Em|]; cbn [andb]; [|done].
    destruct (String.eqb (eRule r) RuleDelivery); [|done]. destruct (ResidentAdmits o (grantPlan _ _ _) path') eqn:E; [done|]. rewrite Er by done.
    unfold residentValueRefusal. destruct (negb (residentBuilt _)); [done|]. by destruct (String.eqb _ ClassADOMintedPAT).
  - destruct (String.eqb (eRule r) RuleResidentViaOrg); [|done]. destruct (String.eqb_spec (modeFor p o) ModeRunnerResident) as [Em|]; cbn [negb]; [|done]. by apply Er.
Qed.

(** What create promises of a grant, dispatch keeps. A grant that the check before
    launch calls via_org, or runner_resident for the run's floor, is admitted by the gate
    on the whole plan, under the same policy, trust class and floor, at every index and
    whatever the spec, the posture and the owner of the runner turn out to be; and no grant
    is called both. *)
Theorem grant_promised_is_admitted o p i leaf :
  ViaOrgGrant uuidParse o (Delivery p) (Trust p) = true \/ fst (ResidentGrant uuidParse o (Delivery p) (Trust p) (ConfinementFloor p)) = true ->
  classifyCredential uuidParse Entries (indexed grantPath i) o p leaf = None /\
  ~ (ViaOrgGrant uuidParse o (Delivery p) (Trust p) = true /\ fst (ResidentGrant uuidParse o (Delivery p) (Trust p) (ConfinementFloor p)) = true).
Proof.
  assert (Hk : rowKey grantPath o = (StructGrantKind, oGrantKind o)) by (by vm_compute).
  assert (Hc : credentialField StructGrantKind (oGrantKind o) = true) by (unfold credentialField; by rewrite orb_true_r).
  unfold ViaOrgGrant, ResidentGrant, classifyCredential. rewrite rowKey_grant, Hk. cbn [fst snd]. fold (modeFor p o).
  destruct (orgHeld o) eqn:Eo; cbn [andb negb orb]; [|by intros [?|?]]. destruct (String.eqb (oClass o) "") eqn:Ec.
  { unfold orgHeld in Eo. rewrite Ec in Eo. by destruct (negb _). }
  change (String.eqb StructGrantKind StructGrantKind) with true. intros H. split.
  - destruct H as [H|H].
    + apply andb_prop in H as [H1 H2]. apply bool_decide_eq_true in H1. apply String.eqb_eq in H2.
      eapply judgeRows_early; [|done..|by right|exact H1]. intros r Hr. by eapply matching_judges.
    + destruct (String.eqb (modeFor p o) ModeRunnerResident); cbn [negb] in H; [|done]. destruct (judgeRows _ _ _ _ _ _ _) eqn:E; [done|].
      eapply judgeRows_early; [|done..|by left|exact E]. intros r Hr. by eapply matching_judges.
  - intros [H1 H2]. apply andb_prop in H1 as [_ H1]. apply String.eqb_eq in H1. rewrite H1 in H2. done.
Qed.
End Early.
