(* ===== verification/PlaceSent.v ===== *)
(** * What reaches a laptop

    The theorems on the copy of the spec that local eligibility returns: nothing of the
    organisation's network, gated doors or configuration is in it, and a credential that is
    delivered through the organisation stays there. *)
From stdpp Require Import gmap.
From S2P Require Import Prelude GoStrings GoSlices Grants CanonNumber AdoNames AdoCaps GHPath Placement PlaceTable DeliveryCheck PlaceGate PlaceSound.
Local Open Scope string_scope.
Local Open Scope Z_scope.
Local Open Scope list_scope.

(** ** The copy a runner is sent

    What the walk over the table leaves in the laptop's copy of the spec: the fields that
    are never sent, the ones that are stripped, the gates every other field passed, and the
    injections that turned into routes at the organisation. *)

#[local] Opaque Table.

(** ** Fields of a value *)

Lemma assocStr_cons {A} n m (x : A) l : assocStr n ((m, x) :: l) = if String.eqb m n then Some x else assocStr n l.
Proof. unfold assocStr. cbn [findFirst fst]. by destruct (String.eqb m n). Qed.

Lemma rField_set_ne v n m x : n <> m -> rField (setField v n x) m = rField v m.
Proof.
  intros Hne. destruct v as [| | | | | | | | | | |ty fs]; try done. cbn [setField rField]. f_equal.
  induction fs as [|[k y] fs IH]; [done|]. cbn [map fst]. destruct (String.eqb_spec k n) as [->|]; rewrite !assocStr_cons.
  - destruct (String.eqb_spec n m); [done|]. apply IH.
  - by destruct (String.eqb k m).
Qed.

Lemma rField_set v n x : rField (setField v n x) n = x \/ (rField v n = VNone /\ rField (setField v n x) n = VNone).
Proof.
  destruct v as [| | | | | | | | | | |ty fs]; try by right. cbn [setField rField].
  induction fs as [|[k y] fs IH]; [by right|]. cbn [map fst]. destruct (String.eqb_spec k n) as [->|Hk]; rewrite !assocStr_cons.
  - rewrite String.eqb_refl. by left.
  - by destruct (String.eqb_spec k n).
Qed.

(** A property that holds of the new value, and of an absent field. *)
Lemma rField_set_P (P : rv -> Prop) v n x : P x -> (rField v n = VNone -> P VNone) -> P (rField (setField v n x) n).
Proof. intros Hx Hn. destruct (rField_set v n x) as [-> | [E ->]]; auto. Qed.

Fixpoint IsZero_zeroOf (v : rv) : IsZero (zeroOf v) = true.
Proof.
  destruct v as [| | | | | | | | | | |ty fs]; try reflexivity. cbn [zeroOf IsZero].
  induction fs as [|f fs IH]; [reflexivity|]. cbn [map forallb snd]. rewrite (IsZero_zeroOf (snd f)). exact IH.
Qed.

(** A field of the spec ([SandboxSpec]) or of its proxy configuration. *)
Definition obs (st n : string) (s : rv) : rv := rField (structOf st s) n.
Notation SB := StructSandboxSpec (only parsing).
Notation PC := StructProxyConfig (only parsing).

Lemma obs_setProxy_ne n m s x : n <> m -> obs PC m (setProxy s n x) = obs PC m s.
Proof.
  intros Hne. unfold obs, structOf, setProxy, proxyOf. change (String.eqb StructProxyConfig StructSandboxSpec) with false. cbn iota.
  destruct (rField_set s "ProxyConfig" (setField (rField s "ProxyConfig") n x)) as [-> | [E ->]]; [by apply rField_set_ne|by rewrite E].
Qed.

Lemma obs_setProxy s n x : obs PC n (setProxy s n x) = x \/ (obs PC n s = VNone /\ obs PC n (setProxy s n x) = VNone).
Proof.
  unfold obs, structOf, setProxy, proxyOf. change (String.eqb StructProxyConfig StructSandboxSpec) with false. cbn iota.
  destruct (rField_set s "ProxyConfig" (setField (rField s "ProxyConfig") n x)) as [-> | [E ->]]; [apply rField_set|right]. by rewrite E.
Qed.

Lemma obs_SB_setProxy m s n x : m <> "ProxyConfig" -> obs SB m (setProxy s n x) = obs SB m s.
Proof. intros Hm. unfold obs, structOf, setProxy. change (String.eqb StructSandboxSpec StructSandboxSpec) with true. cbn iota. by rewrite rField_set_ne. Qed.

Lemma obs_setPolicy_ne m s n x : m <> "Policy" -> obs PC m (setPolicy s n x) = obs PC m s.
Proof. intros Hm. unfold setPolicy. by rewrite obs_setProxy_ne. Qed.

(** A field of the policy. *)
Definition pol (n : string) (s : rv) : rv := rField (policyOf s) n.

Lemma policyOf_obs s : policyOf s = obs PC "Policy" s.
Proof. done. Qed.

Lemma pol_setPolicy_ne n m s x : n <> m -> pol m (setPolicy s n x) = pol m s.
Proof.
  intros Hne. unfold pol. rewrite policyOf_obs. unfold setPolicy. destruct (obs_setProxy s "Policy" (setField (policyOf s) n x)) as [-> | [E ->]]; [by apply rField_set_ne|].
  by rewrite policyOf_obs, E.
Qed.

Lemma pol_setPolicy s n x : pol n (setPolicy s n x) = x \/ (pol n s = VNone /\ pol n (setPolicy s n x) = VNone).
Proof.
  unfold pol. rewrite policyOf_obs. unfold setPolicy. destruct (obs_setProxy s "Policy" (setField (policyOf s) n x)) as [-> | [E ->]]; [apply rField_set|].
  right. by rewrite policyOf_obs, E.
Qed.

(** ** One step of the walk *)

Section Walk.
Context `{GoUnicode}.

Definition stripKeys (rows : list Entry) (key : string) : list string :=
  flat_map (fun e => if negb (String.eqb (eRule e) RuleStrip) || String.eqb (eClass e) ClassComposite then []
                     else [if negb (String.eqb (ePath e) "") then key +:+ "." +:+ ePath e else key]) rows.
Definition stripOne (p : LocalPlan) (s : rv) (k : string) : rv := match strippers k with Some fn => fn p s | None => s end.

Lemma applyStrips_inr rows key path p s s' : applyStrips rows key path p s = inr s' -> s' = fold_left (stripOne p) (stripKeys rows key) s.
Proof.
  revert s. induction rows as [|e rows IH]; intros s; cbn [applyStrips]; [by intros [= ->]|]. unfold stripKeys. cbn [flat_map].
  destruct (negb (String.eqb (eRule e) RuleStrip) || String.eqb (eClass e) ClassComposite); [apply IH|]. cbn [app fold_left]. unfold stripOne at 2. destruct (strippers _); [apply IH|done].
Qed.

(** What a step changes, when it does not refuse. *)
Definition zeroed (st : string) (f : goField) : bool := rsNotSent (rulesOf (Entries st (fName f))) && fJSON f.
Definition keyOf (st : string) (f : goField) : string := st +:+ "." +:+ fName f.
Definition skipped (st : string) (s : rv) (f : goField) : bool :=
  IsZero (obs st (fName f) s) && negb (containsFunc (fun e => negb (String.eqb (ePath e) "")) (Entries st (fName f))).
Definition stepped (p : LocalPlan) (st : string) (s : rv) (f : goField) : rv :=
  if negb (fExported f) || skipped st s f then s
  else fold_left (stripOne p) (stripKeys (Entries st (fName f)) (keyOf st f))
         (if zeroed st f then setIn st s (fName f) (zeroOf (obs st (fName f) s)) else s).
Definition gatePassed (p : LocalPlan) (st : string) (s : rv) (f : goField) : Prop :=
  fExported f = true -> rsGated (rulesOf (Entries st (fName f))) = true -> skipped st s f = true \/ exists gate, gates (keyOf st f) = Some gate /\ gate p = None.

Lemma enforceField_inr p st prefix s f s' : enforceField Entries p st prefix s f = inr s' -> s' = stepped p st s f /\ gatePassed p st s f.
Proof.
  unfold enforceField, stepped, gatePassed. fold (obs st (fName f) s). fold (keyOf st f). fold (skipped st s f).
  destruct (fExported f); cbn [negb orb]; [|by intros [= ->]]. destruct (skipped st s f); [intros [= ->]; by split; [|left]|].
  fold (zeroed st f). destruct (rsGated _) eqn:Eg.
  - destruct (gates (keyOf st f)) as [gate|]; [|done]. destruct (gate p) eqn:Ep; [done|]. intros ->%applyStrips_inr. split; [done|]. intros _ _. right. by exists gate.
  - intros ->%applyStrips_inr. by split.
Qed.

Lemma enforceFields_inr p st prefix fs s s' : enforceFields Entries p st prefix fs s = inr s' ->
  s' = fold_left (stepped p st) fs s /\ forall a f b, fs = a ++ f :: b -> gatePassed p st (fold_left (stepped p st) a s) f.
Proof.
  revert s. induction fs as [|f fs IH]; intros s; cbn [enforceFields]; [intros [= ->]; split; [done|]; by intros [] ? ?|].
  destruct (enforceField _ _ _ _ _ f) as [|s1] eqn:E; [done|]. apply enforceField_inr in E as [-> Hg]. intros [-> Hr]%IH. split; [done|].
  intros [|f' a] g b; cbn [app]; intros [= -> ->]; [done|]. cbn [fold_left]. by apply (Hr a g b).
Qed.

(** ** What a stripper touches *)

Definition touchedBy (k : string) : list (string * string) :=
  if String.eqb k "SandboxSpec.Env" then [(SB, "Env")]
  else if String.eqb k "ProxyConfig.MITMHosts" then [(PC, "MITMHosts")]
  else if String.eqb k "ProxyConfig.Policy.EligibleGrants" then [(PC, "Policy"); (PC, "MITMHosts"); (PC, "Injection"); (PC, "ViaOrgRoutes")]
  else if String.eqb k "ProxyConfig.Policy.LLMInspection.WorkspaceSecretValues" || String.eqb k "ProxyConfig.Policy.LLMInspection.WorkspaceSecretNames" then [(PC, "Policy")]
  else [].

(** An observation of the spec: any field but the proxy configuration as a whole. *)
Definition observed (o : string * string) : Prop := (fst o = SB /\ snd o <> "ProxyConfig") \/ fst o = PC.
Definition obsAt (o : string * string) (s : rv) : rv := obs (fst o) (snd o) s.

Lemma obsAt_setProxy o n s x : observed o -> o <> (PC, n) -> obsAt o (setProxy s n x) = obsAt o s.
Proof.
  destruct o as [st m]. unfold obsAt, observed. cbn [fst snd]. intros [[-> Hm] | ->] Hne; cbn [fst snd] in *; [by apply obs_SB_setProxy|]. apply obs_setProxy_ne. congruence.
Qed.

Lemma obsAt_Env o s x : observed o -> o <> (SB, "Env") -> obsAt o (setField s "Env" x) = obsAt o s.
Proof.
  destruct o as [st m]. unfold obsAt, observed. cbn [fst snd]. intros [[-> Hm] | ->] Hne; cbn [fst snd] in *; unfold obs, structOf.
  - change (String.eqb StructSandboxSpec StructSandboxSpec) with true. cbn iota. apply rField_set_ne. congruence.
  - change (String.eqb StructProxyConfig StructSandboxSpec) with false. cbn iota. unfold proxyOf. by rewrite rField_set_ne.
Qed.

Lemma stripViaOrg_frame o p s : observed o -> o ∉ touchedBy "ProxyConfig.Policy.EligibleGrants" -> obsAt o (stripViaOrg p s) = obsAt o s.
Proof.
  intros Ho Ht. change (touchedBy "ProxyConfig.Policy.EligibleGrants") with [(PC, "Policy"); (PC, "MITMHosts"); (PC, "Injection"); (PC, "ViaOrgRoutes")] in Ht.
  rewrite !not_elem_of_cons in Ht. destruct Ht as (H1 & H2 & H3 & H4 & _). unfold stripViaOrg. cbn zeta.
  destruct (bool_decide _); rewrite ?obsAt_setProxy by done; unfold setPolicy; by rewrite obsAt_setProxy.
Qed.

Lemma stripOne_frame o p s k : observed o -> o ∉ touchedBy k -> obsAt o (stripOne p s k) = obsAt o s.
Proof.
  intros Ho Ht. unfold stripOne, strippers. unfold touchedBy in Ht.
  destruct (String.eqb_spec k "SandboxSpec.Env"); [apply obsAt_Env; [done|by apply not_elem_of_cons in Ht as [? _]]|].
  destruct (String.eqb_spec k "ProxyConfig.MITMHosts"); [unfold stripMITM; cbn zeta; apply obsAt_setProxy; [done|by apply not_elem_of_cons in Ht as [? _]]|].
  destruct (String.eqb_spec k "ProxyConfig.Policy.EligibleGrants"); [by apply stripViaOrg_frame|].
  destruct (String.eqb_spec k "ProxyConfig.Policy.LLMInspection.WorkspaceSecretValues"); cbn [orb] in Ht;
    [unfold clearInspection, setPolicy; apply obsAt_setProxy; [done|by apply not_elem_of_cons in Ht as [? _]]|].
  destruct (String.eqb_spec k "ProxyConfig.Policy.LLMInspection.WorkspaceSecretNames"); [|done].
  unfold clearInspection, setPolicy. apply obsAt_setProxy; [done|by apply not_elem_of_cons in Ht as [? _]].
Qed.

(** What a step may touch: fields of the spec are never zeroed, by the table. *)
Definition touches (st : string) (f : goField) : list (string * string) :=
  (if zeroed st f then [(st, fName f)] else []) ++ flat_map touchedBy (stripKeys (Entries st (fName f)) (keyOf st f)).
Definition keepsSpec (st : string) (f : goField) : bool := String.eqb st PC || (String.eqb st SB && negb (zeroed st f)).

Lemma strips_frame o p ks s : observed o -> o ∉ flat_map touchedBy ks -> obsAt o (fold_left (stripOne p) ks s) = obsAt o s.
Proof.
  intros Ho. revert s. induction ks as [|k ks IH]; intros s Ht; [done|]. cbn [flat_map] in Ht. rewrite not_elem_of_app in Ht. destruct Ht as [Ht1 Ht2].
  cbn [fold_left]. rewrite IH by done. by apply stripOne_frame.
Qed.

Lemma stepped_frame o p st s f : observed o -> keepsSpec st f = true -> o ∉ touches st f -> obsAt o (stepped p st s f) = obsAt o s.
Proof.
  intros Ho Hk Ht. unfold touches in Ht. rewrite not_elem_of_app in Ht. destruct Ht as [Hz Hs]. unfold stepped. destruct (negb (fExported f) || skipped st s f); [done|].
  rewrite strips_frame by done. destruct (zeroed st f) eqn:Ez; [|done]. unfold keepsSpec in Hk. rewrite Ez, andb_false_r, orb_false_r in Hk. apply String.eqb_eq in Hk as ->.
  unfold setIn. change (String.eqb StructProxyConfig StructSandboxSpec) with false. cbn iota. apply obsAt_setProxy; [done|]. by apply not_elem_of_cons in Hz as [? _].
Qed.

Definition spares (st : string) (o : string * string) (f : goField) : bool := keepsSpec st f && negb (bool_decide (o ∈ touches st f)).

Lemma walk_frame o p st fs s : observed o -> forallb (spares st o) fs = true -> obsAt o (fold_left (stepped p st) fs s) = obsAt o s.
Proof.
  intros Ho. revert s. induction fs as [|f fs IH]; intros s; [done|]. cbn [forallb fold_left]. intros [[H1 H2]%andb_prop Hr]%andb_prop.
  rewrite IH by done. apply stepped_frame; [done..|]. by apply negb_true_iff, bool_decide_eq_false in H2.
Qed.

(** ** The whole walk *)

Definition specFields : list goField := sFields runner_SandboxSpec.
Definition proxyFields : list goField := sFields runner_ProxyConfig.
Definition afterSpec (p : LocalPlan) : rv := fold_left (stepped p SB) specFields (Spec p).

Lemma enforceTable_inr p s : enforceTable Entries p = inr s ->
  s = fold_left (stepped p PC) proxyFields (afterSpec p) /\
  (forall a f b, specFields = a ++ f :: b -> gatePassed p SB (fold_left (stepped p SB) a (Spec p)) f) /\
  (forall a f b, proxyFields = a ++ f :: b -> gatePassed p PC (fold_left (stepped p PC) a (afterSpec p)) f).
Proof.
  unfold enforceTable. destruct (enforceFields _ _ SB _ _ _) as [|s1] eqn:E1; [done|]. apply enforceFields_inr in E1 as [-> H1].
  intros [-> H2]%enforceFields_inr. unfold afterSpec, proxyFields, specFields. split; [reflexivity|]. split; [exact H1|exact H2].
Qed.

#[local] Opaque specFields proxyFields.

Fixpoint splitField (n : string) (fs : list goField) : list goField * list goField :=
  match fs with
  | [] => ([], [])
  | f :: fs' => if String.eqb (fName f) n then ([], fs) else let '(a, b) := splitField n fs' in (f :: a, b)
  end.

Lemma splitField_app n fs a b : splitField n fs = (a, b) -> fs = a ++ b.
Proof.
  revert a b. induction fs as [|f fs IH]; intros a b; cbn [splitField]; [by intros [= <- <-]|]. destruct (String.eqb (fName f) n); [by intros [= <- <-]|].
  destruct (splitField n fs) as [a' b'] eqn:E. intros [= <- <-]. cbn [app]. by rewrite <- (IH _ _ eq_refl).
Qed.

(** A field the walk leaves alone but gates. *)
Definition gatedOnly (st n : string) : bool :=
  forallb (spares SB (st, n)) specFields && forallb (spares PC (st, n)) proxyFields &&
  match snd (splitField n (if String.eqb st SB then specFields else proxyFields)) with
  | f :: _ => String.eqb (fName f) n && fExported f && rsGated (rulesOf (Entries st n))
  | [] => false
  end.

Lemma gated_passed p s st n : enforceTable Entries p = inr s -> observed (st, n) -> (st = SB \/ st = PC) -> gatedOnly st n = true ->
  obs st n s = obs st n (Spec p) /\
  (IsZero (obs st n (Spec p)) = true \/ exists gate, gates (st +:+ "." +:+ n) = Some gate /\ gate p = None).
Proof.
  intros (-> & Hs & Hp)%enforceTable_inr Ho Hst. unfold gatedOnly. intros [[H1 H2]%andb_prop H3]%andb_prop.
  assert (Ea : obs st n (afterSpec p) = obs st n (Spec p)) by (apply (walk_frame (st, n)); done). split; [rewrite <- Ea; by apply (walk_frame (st, n))|].
  assert (G : forall s0 f, fName f = n -> fExported f = true -> rsGated (rulesOf (Entries st n)) = true -> obs st n s0 = obs st n (Spec p) -> gatePassed p st s0 f ->
    IsZero (obs st n (Spec p)) = true \/ exists gate, gates (st +:+ "." +:+ n) = Some gate /\ gate p = None).
  { intros s0 f En Ex Er E0 Hg. unfold gatePassed, skipped, keyOf in Hg. rewrite En, E0 in Hg. destruct (Hg Ex Er) as [[Hz _]%andb_prop|Hg']; [by left|by right]. }
  destruct Hst as [-> | ->].
  - change (String.eqb StructSandboxSpec StructSandboxSpec) with true in H3. cbn iota in H3. destruct (splitField n specFields) as [a b] eqn:Es. cbn [snd] in H3.
    destruct b as [|f b]; [done|]. apply andb_prop in H3 as [[E1 E2]%andb_prop E3]. apply String.eqb_eq in E1. pose proof (splitField_app _ _ _ _ Es) as Ef.
    apply (G (fold_left (stepped p SB) a (Spec p)) f); try done; [|by apply (Hs a f b)]. apply (walk_frame (StructSandboxSpec, n)); [done|].
    rewrite Ef, forallb_app in H1. by apply andb_prop in H1 as [? _].
  - change (String.eqb StructProxyConfig StructSandboxSpec) with false in H3. cbn iota in H3. destruct (splitField n proxyFields) as [a b] eqn:Es. cbn [snd] in H3.
    destruct b as [|f b]; [done|]. apply andb_prop in H3 as [[E1 E2]%andb_prop E3]. apply String.eqb_eq in E1. pose proof (splitField_app _ _ _ _ Es) as Ef.
    apply (G (fold_left (stepped p PC) a (afterSpec p)) f); try done; [|by apply (Hp a f b)]. rewrite <- Ea. apply (walk_frame (StructProxyConfig, n)); [done|].
    rewrite Ef, forallb_app in H2. by apply andb_prop in H2 as [? _].
Qed.

(** A field of the proxy configuration that is never sent. *)
Definition neverSent (n : string) : bool :=
  match snd (splitField n proxyFields) with
  | f :: b => String.eqb (fName f) n && fExported f && zeroed PC f && bool_decide (stripKeys (Entries PC n) (PC +:+ "." +:+ n) = []) && forallb (spares PC (PC, n)) b
  | [] => false
  end.

Lemma zeroed_zero p s n : enforceTable Entries p = inr s -> neverSent n = true -> IsZero (obs PC n s) = true.
Proof.
  intros (-> & _)%enforceTable_inr. unfold neverSent. destruct (splitField n proxyFields) as [a b] eqn:Es. cbn [snd]. destruct b as [|f b]; [done|].
  intros [[[[E1 E2]%andb_prop E3]%andb_prop E4]%andb_prop E5]%andb_prop. apply String.eqb_eq in E1. apply bool_decide_eq_true in E4.
  rewrite (splitField_app _ _ _ _ Es), fold_left_app. cbn [fold_left]. set (s0 := fold_left _ a _).
  change (IsZero (obsAt (StructProxyConfig, n) (fold_left (stepped p PC) b (stepped p PC s0 f))) = true). rewrite (walk_frame (StructProxyConfig, n)) by (done || by right). unfold obsAt. cbn [fst snd].
  unfold stepped. rewrite E2. cbn [negb orb]. destruct (skipped PC s0 f) eqn:Ek; [unfold skipped in Ek; rewrite E1 in Ek; by apply andb_prop in Ek as [? _]|].
  rewrite E3. unfold keyOf. rewrite E1, E4. cbn [fold_left]. unfold setIn. change (String.eqb StructProxyConfig StructSandboxSpec) with false. cbn iota.
  destruct (obs_setProxy s0 n (zeroOf (obs PC n s0))) as [-> | [_ ->]]; [apply IsZero_zeroOf|done].
Qed.
End Walk.

(** ** What the strippers leave *)

Lemma keepIndexed_from {A} (drop : nat -> bool) (l : list A) i :
  flat_map (fun ix => if drop (fst ix) then [] else [snd ix]) (zip (seq i (length l)) l) =
  omap id (imap (fun j x => if drop (i + j)%nat then None else Some x) l).
Proof.
  revert i. induction l as [|x l IH]; intros i; [done|]. cbn [length seq zip zip_with flat_map fst snd]. rewrite IH. cbn [imap omap list_omap]. rewrite Nat.add_0_r.
  assert (E : imap (fun j x => if drop (S i + j)%nat then None else Some x) l = imap ((fun j x => if drop (i + j)%nat then None else Some x) ∘ S) l)
    by (apply imap_ext; intros; cbn; by rewrite Nat.add_succ_r).
  rewrite E. by destruct (drop i).
Qed.

Lemma elem_of_keepIndexed {A} (drop : nat -> bool) (l : list A) x : x ∈ keepIndexed drop l <-> exists i, l !! i = Some x /\ drop i = false.
Proof.
  unfold keepIndexed. rewrite keepIndexed_from. rewrite list_elem_of_omap. split.
  - intros (o & Ho & E). apply list_elem_of_lookup in Ho as [i Hi]. rewrite list_lookup_imap in Hi. destruct (l !! i) as [y|] eqn:Ey; [|done]. cbn in Hi. exists i.
    destruct (drop i); injection Hi as <-; [done|]. cbn in E. by injection E as <-.
  - intros (i & Hi & Hd). exists (Some x). split; [|done]. apply list_elem_of_lookup. exists i. rewrite list_lookup_imap, Hi. cbn. by rewrite Hd.
Qed.

Lemma keepIndexed_all {A} (drop : nat -> bool) (l : list A) : existsb drop (seq 0 (length l)) = false -> keepIndexed drop l = l.
Proof.
  unfold keepIndexed. generalize 0%nat. induction l as [|x l IH]; intros i; [done|]. cbn [length seq existsb zip zip_with flat_map fst snd].
  destruct (drop i); [done|]. cbn [orb app]. intros Hr. f_equal. by apply IH.
Qed.

Lemma rSlice_deleteIndexed drop v : rSlice (deleteIndexed drop v) = keepIndexed drop (rSlice v).
Proof.
  unfold deleteIndexed. destruct (existsb drop _) eqn:E; [|by rewrite keepIndexed_all]. by destruct (keepIndexed drop (rSlice v)).
Qed.

Section Strips.
Context (p : LocalPlan).

(** The injections of the stripped copy. *)
Lemma strip_injections s : rSlice (obs PC "Injection" (stripViaOrg p s)) = keepIndexed (routed p) (rSlice (obs PC "Injection" s)).
Proof.
  unfold stripViaOrg. cbn zeta. set (s1 := setPolicy s _ _). set (s2 := setProxy s1 "MITMHosts" _). set (s3 := setProxy s2 "Injection" _).
  assert (E2 : obs PC "Injection" s2 = obs PC "Injection" s) by (unfold s2; rewrite obs_setProxy_ne by done; by apply obs_setPolicy_ne).
  assert (E3 : rSlice (obs PC "Injection" s3) = keepIndexed (routed p) (rSlice (obs PC "Injection" s))).
  { unfold s3. change (rField (proxyOf s2) "Injection") with (obs PC "Injection" s2). rewrite E2.
    destruct (obs_setProxy s2 "Injection" (deleteIndexed (routed p) (obs PC "Injection" s))) as [-> | [E ->]]; [apply rSlice_deleteIndexed|].
    rewrite <- E2, E. done. }
  destruct (bool_decide _); [exact E3|]. rewrite obs_setProxy_ne by done. exact E3.
Qed.

Lemma strip_grants s : rSlice (pol "EligibleGrants" (stripViaOrg p s)) = keepIndexed (fun i => viaOrgPath p (indexed grantPath i)) (rSlice (pol "EligibleGrants" s)).
Proof.
  assert (Ef : forall n s x, n <> "Policy" -> pol "EligibleGrants" (setProxy s n x) = pol "EligibleGrants" s)
    by (intros n s' x Hn; unfold pol; rewrite !policyOf_obs; by rewrite obs_setProxy_ne).
  unfold stripViaOrg. cbn zeta. set (drop := fun i => viaOrgPath p (indexed grantPath i)).
  assert (E1 : rSlice (pol "EligibleGrants" (setPolicy s "EligibleGrants" (deleteIndexed drop (rField (policyOf s) "EligibleGrants")))) = keepIndexed drop (rSlice (pol "EligibleGrants" s))).
  { destruct (pol_setPolicy s "EligibleGrants" (deleteIndexed drop (rField (policyOf s) "EligibleGrants"))) as [-> | [E ->]]; [apply rSlice_deleteIndexed|by rewrite E]. }
  destruct (bool_decide _); rewrite !Ef by done; exact E1.
Qed.

(** The routes it gains. *)
Definition newRoutes (s : rv) : list ViaOrgRoute := map injectionRoute (routedInjections p s) ++ gitRoutes p s.
Definition routesOf (s : rv) : list ViaOrgRoute := map valueRoute (rSlice (obs PC "ViaOrgRoutes" s)).

Lemma strip_routes s r : obs PC "ViaOrgRoutes" s <> VNone -> r ∈ routesOf (stripViaOrg p s) <-> r ∈ newRoutes s \/ r ∈ routesOf s.
Proof.
  intros Hn. unfold stripViaOrg. cbn zeta. set (s1 := setPolicy s _ _). set (s2 := setProxy s1 "MITMHosts" _). set (s3 := setProxy s2 "Injection" _).
  assert (R : routedInjections p s1 = routedInjections p s).
  { unfold routedInjections. change (rField (proxyOf s1) "Injection") with (obs PC "Injection" s1). unfold s1. by rewrite obs_setPolicy_ne. }
  assert (G : gitRoutes p s3 = gitRoutes p s).
  { unfold gitRoutes. change (rField (proxyOf s3) "GitGrants") with (obs PC "GitGrants" s3). unfold s3, s2, s1. by rewrite !obs_setProxy_ne, obs_setPolicy_ne. }
  assert (V : obs PC "ViaOrgRoutes" s3 = obs PC "ViaOrgRoutes" s) by (unfold s3, s2, s1; by rewrite !obs_setProxy_ne, obs_setPolicy_ne).
  rewrite R, G. fold (newRoutes s). destruct (bool_decide_reflect (newRoutes s = [])) as [-> | _].
  - unfold routesOf. rewrite V. rewrite elem_of_nil. naive_solver.
  - unfold routesOf at 1. change (rField (proxyOf s3) "ViaOrgRoutes") with (obs PC "ViaOrgRoutes" s3). rewrite V. fold (routesOf s).
    destruct (obs_setProxy s3 "ViaOrgRoutes" (VSlice (Some (map routeValue (compact (sortBy routeLeb (newRoutes s ++ routesOf s))))))) as [-> | [E _]]; [|by rewrite V in E].
    cbn [rSlice]. rewrite map_map. rewrite (map_ext _ id) by (by intros []). rewrite map_id, elem_of_compact, elem_of_sortBy, elem_of_app. done.
Qed.
End Strips.

Lemma strip_inspection (f : string) s li : pol "LLMInspection" (clearInspection f s) = VPtr (Some li) -> rSlice (rField li f) = [].
Proof.
  unfold clearInspection. change (rField (policyOf s) "LLMInspection") with (pol "LLMInspection" s).
  destruct (pol_setPolicy s "LLMInspection" (underPtr (pol "LLMInspection" s) (fun li => setField li f (VSlice None)))) as [-> | [_ ->]]; [|done].
  unfold underPtr. destruct (pol "LLMInspection" s) as [| | | | | | | |[x|]| | |] eqn:E; try done. intros [= <-].
  destruct (rField_set x f (VSlice None)) as [-> | [_ ->]]; done.
Qed.

Lemma strip_inspection_keeps f g s li : pol "LLMInspection" (clearInspection f s) = VPtr (Some li) -> f <> g ->
  (forall li', pol "LLMInspection" s = VPtr (Some li') -> rSlice (rField li' g) = []) -> rSlice (rField li g) = [].
Proof.
  intros E Hne Hg. revert E. unfold clearInspection. change (rField (policyOf s) "LLMInspection") with (pol "LLMInspection" s).
  destruct (pol_setPolicy s "LLMInspection" (underPtr (pol "LLMInspection" s) (fun li => setField li f (VSlice None)))) as [-> | [_ ->]]; [|done].
  unfold underPtr. destruct (pol "LLMInspection" s) as [| | | | | | | |[x|]| | |] eqn:E; try done. intros [= <-]. rewrite rField_set_ne by done. by apply Hg.
Qed.

(** ** What reaches a laptop *)

Section Sent.
Context `{GoUnicode}.

(** ** The steps that change the copy *)

Definition policyField : goField := fld "Policy" (TStruct "types.RunPolicySpec").
Definition mitmField : goField := fld "MITMHosts" (TSlice TBasic).
Definition envField : goField := fld "Env" (TMap TBasic TBasic).

Definition afterPolicy (p : LocalPlan) (s : rv) : rv := clearInspection "WorkspaceSecretNames" (clearInspection "WorkspaceSecretValues" (stripViaOrg p s)).

Lemma policy_step p s : stepped p StructProxyConfig s policyField = afterPolicy p s.
Proof.
  assert (K : stripKeys (Entries StructProxyConfig "Policy") "ProxyConfig.Policy" =
    ["ProxyConfig.Policy.EligibleGrants"; "ProxyConfig.Policy.LLMInspection.WorkspaceSecretValues"; "ProxyConfig.Policy.LLMInspection.WorkspaceSecretNames"]) by by vm_compute.
  assert (Z : zeroed StructProxyConfig policyField = false) by by vm_compute.
  assert (P : containsFunc (fun e => negb (String.eqb (ePath e) "")) (Entries StructProxyConfig "Policy") = true) by by vm_compute.
  unfold stepped, skipped. rewrite Z. change (fName policyField) with "Policy". rewrite P, andb_false_r. change (negb (fExported policyField)) with false. cbn [orb].
  change (keyOf StructProxyConfig policyField) with "ProxyConfig.Policy". rewrite K. reflexivity.
Qed.

Lemma mitm_step p s : stepped p StructProxyConfig s mitmField = if IsZero (obs StructProxyConfig "MITMHosts" s) then s else stripMITM s.
Proof.
  assert (K : stripKeys (Entries StructProxyConfig "MITMHosts") "ProxyConfig.MITMHosts" = ["ProxyConfig.MITMHosts"]) by by vm_compute.
  assert (Z : zeroed StructProxyConfig mitmField = false) by by vm_compute.
  assert (P : containsFunc (fun e => negb (String.eqb (ePath e) "")) (Entries StructProxyConfig "MITMHosts") = false) by by vm_compute.
  unfold stepped, skipped. rewrite Z. change (fName mitmField) with "MITMHosts". rewrite P. change (negb (fExported mitmField)) with false. cbn [orb negb]. rewrite andb_true_r.
  change (keyOf StructProxyConfig mitmField) with "ProxyConfig.MITMHosts". rewrite K. reflexivity.
Qed.

Lemma env_step p s : stepped p StructSandboxSpec s envField = if IsZero (obs StructSandboxSpec "Env" s) then s else stripEnv p s.
Proof.
  assert (K : stripKeys (Entries StructSandboxSpec "Env") "SandboxSpec.Env" = ["SandboxSpec.Env"]) by by vm_compute.
  assert (Z : zeroed StructSandboxSpec envField = false) by by vm_compute.
  assert (P : containsFunc (fun e => negb (String.eqb (ePath e) "")) (Entries StructSandboxSpec "Env") = false) by by vm_compute.
  unfold stepped, skipped. rewrite Z. change (fName envField) with "Env". rewrite P. change (negb (fExported envField)) with false. cbn [orb negb]. rewrite andb_true_r.
  change (keyOf StructSandboxSpec envField) with "SandboxSpec.Env". rewrite K. reflexivity.
Qed.

(** ** The walk, cut at those steps *)

Definition beforePolicy : list goField := fst (splitField "Policy" proxyFields).
Definition toMITM : list goField := fst (splitField "MITMHosts" (tail (snd (splitField "Policy" proxyFields)))).
Definition afterMITM : list goField := tail (snd (splitField "MITMHosts" (tail (snd (splitField "Policy" proxyFields))))).
Definition beforeEnv : list goField := fst (splitField "Env" specFields).
Definition afterEnv : list goField := tail (snd (splitField "Env" specFields)).

Lemma proxy_cut : proxyFields = beforePolicy ++ policyField :: toMITM ++ mitmField :: afterMITM.
Proof. by vm_compute. Qed.
Lemma spec_cut : specFields = beforeEnv ++ envField :: afterEnv.
Proof. by vm_compute. Qed.

Definition sparesAll (st : string) (ns : list string) (fs : list goField) : bool := forallb (fun n => forallb (spares st (StructProxyConfig, n)) fs) ns.

Lemma sparesAll_frame p st ns fs s n : sparesAll st ns fs = true -> n ∈ ns -> obs StructProxyConfig n (fold_left (stepped p st) fs s) = obs StructProxyConfig n s.
Proof.
  unfold sparesAll. rewrite forallb_forall. intros Hf Hn. apply (walk_frame (StructProxyConfig, n)); [by right|]. apply Hf. by apply list_elem_of_In.
Qed.

Lemma sparesAll_step p st ns f s n : sparesAll st ns [f] = true -> n ∈ ns -> obs StructProxyConfig n (stepped p st s f) = obs StructProxyConfig n s.
Proof. intros Hs Hn. by rewrite <- (sparesAll_frame p st ns [f] s n). Qed.

Lemma fold_left_cut {A B} (f : A -> B -> A) a x b s : fold_left f (a ++ x :: b) s = fold_left f b (f (fold_left f a s) x).
Proof. by rewrite fold_left_app. Qed.

Definition early : list string := ["Policy"; "Injection"; "MITMHosts"; "ViaOrgRoutes"; "GitGrants"].
Definition late : list string := ["Policy"; "Injection"; "ViaOrgRoutes"].

Lemma walk_spares : sparesAll StructSandboxSpec early specFields = true /\ sparesAll StructProxyConfig early beforePolicy = true /\
  sparesAll StructProxyConfig late toMITM = true /\ sparesAll StructProxyConfig late [mitmField] = true /\ sparesAll StructProxyConfig ("MITMHosts" :: late) afterMITM = true.
Proof. by vm_compute. Qed.

#[local] Opaque specFields proxyFields.

(** The copy in terms of the spec: [s0] is as the policy step finds it, [sm] as the
    interception step does. *)
Lemma walk_parts p s : enforceTable Entries p = inr s -> exists s0 sm,
  (forall n, n ∈ early -> obs StructProxyConfig n s0 = obs StructProxyConfig n (Spec p)) /\
  (forall n, n ∈ late -> obs StructProxyConfig n s = obs StructProxyConfig n (afterPolicy p s0) /\ obs StructProxyConfig n sm = obs StructProxyConfig n (afterPolicy p s0)) /\
  obs StructProxyConfig "MITMHosts" s = obs StructProxyConfig "MITMHosts" (stepped p StructProxyConfig sm mitmField).
Proof.
  intros (-> & _ & _)%enforceTable_inr. destruct walk_spares as (H1 & H2 & H3 & H4 & H5). rewrite proxy_cut, !fold_left_cut, policy_step.
  remember (fold_left (stepped p StructProxyConfig) beforePolicy (afterSpec p)) as s0 eqn:E0. remember (fold_left (stepped p StructProxyConfig) toMITM (afterPolicy p s0)) as sm eqn:Em. exists s0, sm. split; [|split].
  - intros n Hn. rewrite E0. rewrite (sparesAll_frame p _ early _ _ n H2 Hn). exact (sparesAll_frame p _ early _ _ n H1 Hn).
  - intros n Hn. assert (Es : obs StructProxyConfig n sm = obs StructProxyConfig n (afterPolicy p s0)) by (rewrite Em; exact (sparesAll_frame p _ late _ _ n H3 Hn)).
    split; [|exact Es]. rewrite (sparesAll_frame p _ ("MITMHosts" :: late) _ _ n H5 (list_elem_of_further _ _ _ Hn)). rewrite <- Es. exact (sparesAll_step p _ late mitmField sm n H4 Hn).
  - exact (sparesAll_frame p _ ("MITMHosts" :: late) _ _ _ H5 (list_elem_of_here _ _)).
Qed.

(** ** Gates *)

Lemma eachIndexed_None {A} (f : nat -> A -> option Refusal) l k : eachIndexed f k l = None -> forall i x, l !! i = Some x -> f (k + i)%nat x = None.
Proof.
  revert k. induction l as [|y l IH]; intros k; cbn [eachIndexed]; [done|]. destruct (f k y) eqn:E; [done|]. intros Hr [|i] x Hx.
  - injection Hx as <-. by rewrite Nat.add_0_r.
  - rewrite Nat.add_succ_r. by apply (IH (S k) Hr i).
Qed.

Lemma refuseWhen_None b reason field detail : refuseWhen b reason field detail = None -> b = false.
Proof. by destruct b. Qed.

Lemma gate_field p s st n g : enforceTable Entries p = inr s -> observed (st, n) -> (st = StructSandboxSpec \/ st = StructProxyConfig) -> gatedOnly st n = true ->
  gates (st +:+ "." +:+ n) = Some g -> obs st n s = obs st n (Spec p) /\ (IsZero (obs st n (Spec p)) = true \/ g p = None).
Proof.
  intros He Ho Hst Hg Eg. destruct (gated_passed p s st n He Ho Hst Hg) as [E [Hz|(g' & Eg' & Hn)]]; (split; [done|]); [by left|].
  rewrite Eg in Eg'. injection Eg' as ->. by right.
Qed.

Lemma zero_slice v : IsZero v = true -> rSlice v = [].
Proof. by destruct v as [| | | | | | | | |[]| |]. Qed.
Lemma zero_map v : IsZero v = true -> rMap v = [].
Proof. by destruct v as [| | | | | | | | | |[]|]. Qed.
Lemma zero_ptr v : IsZero v = true -> ptrSet v = false.
Proof. by destruct v as [| | | | | | | |[]| | |]. Qed.
Lemma zero_bool v : IsZero v = true -> rBool v = false.
Proof. by destruct v as [|[]| | | | | | | | | |]. Qed.

(** ** The stripped copy *)

Record laptopCopy (p : LocalPlan) (s : rv) : Prop := {
  lc_network : forall n, n ∈ ["UpstreamProxyURL"; "TrustedCAPEM"; "UpstreamProxyNoProxy"] -> IsZero (rField (proxyOf s) n) = true;
  lc_doors : forall n, n ∈ ["GitHubAPI"; "AzureARM"; "KubeAPI"] -> ptrSet (rField (proxyOf s) n) = false;
  lc_identity : rSlice (rField (proxyOf s) "GatewayIdentity") = [];
  lc_signins : rBool (rField s "DesktopSignins") = false /\ rBool (rField (proxyOf s) "DesktopSignins") = false;
  lc_upstreams : forall k v, (k, v) ∈ rMap (rField (proxyOf s) "LLMUpstreams") -> laptopLocalModel p (rStr v) = true;
  lc_models : forall k v, (k, v) ∈ rMap (rField (proxyOf s) "LocalModels") -> laptopLocalModel p k = true;
  lc_mounts : forall i m, rSlice (rField s "Mounts") !! i = Some m -> rBool (rField m "MemberAuthored") = true /\ indexed "SandboxSpec.Mounts" i ∈ VerifiedLocalPaths p;
  lc_drives : forall i d, rSlice (rField s "Drives") !! i = Some d ->
    rStr (rField d "Backend") ∈ ["mac_disk"; "host_path"] /\ indexed "SandboxSpec.Drives" i ∈ VerifiedLocalPaths p;
  lc_env : forall k, k ∈ OrgConfigKeys p -> k ∉ map fst (rMap (rField s "Env"));
  lc_inspection : forall li, rField (policyOf s) "LLMInspection" = VPtr (Some li) ->
    rSlice (rField li "WorkspaceSecretValues") = [] /\ rSlice (rField li "WorkspaceSecretNames") = [] }.

Lemma never_sent_fields : forallb neverSent ["UpstreamProxyURL"; "TrustedCAPEM"; "UpstreamProxyNoProxy"] = true.
Proof. by vm_compute. Qed.
Lemma gated_fields : forallb (gatedOnly StructProxyConfig) ["GitHubAPI"; "AzureARM"; "KubeAPI"; "GatewayIdentity"; "LLMUpstreams"; "LocalModels"; "DesktopSignins"] = true /\
  forallb (gatedOnly StructSandboxSpec) ["Mounts"; "Drives"; "DesktopSignins"] = true.
Proof. by vm_compute. Qed.

Lemma proxy_gate p s n g : enforceTable Entries p = inr s -> n ∈ ["GitHubAPI"; "AzureARM"; "KubeAPI"; "GatewayIdentity"; "LLMUpstreams"; "LocalModels"; "DesktopSignins"] ->
  gates ("ProxyConfig." +:+ n) = Some g -> obs StructProxyConfig n s = obs StructProxyConfig n (Spec p) /\ (IsZero (obs StructProxyConfig n (Spec p)) = true \/ g p = None).
Proof.
  intros He Hn Eg. apply gate_field; [done|by right|by right| |exact Eg]. pose proof (proj1 gated_fields) as Hf. rewrite forallb_forall in Hf. apply Hf. by apply list_elem_of_In.
Qed.

Lemma spec_gate p s n g : enforceTable Entries p = inr s -> n ∈ ["Mounts"; "Drives"; "DesktopSignins"] ->
  gates ("SandboxSpec." +:+ n) = Some g -> obs StructSandboxSpec n s = obs StructSandboxSpec n (Spec p) /\ (IsZero (obs StructSandboxSpec n (Spec p)) = true \/ g p = None).
Proof.
  intros He Hn Eg. apply gate_field; [done| |by left| |exact Eg].
  - left. split; [done|]. cbn [snd]. intros ->. rewrite !elem_of_cons, elem_of_nil in Hn. by destruct Hn as [|[|[|]]].
  - pose proof (proj2 gated_fields) as Hf. rewrite forallb_forall in Hf. apply Hf. by apply list_elem_of_In.
Qed.

Lemma sent_env p s : enforceTable Entries p = inr s -> forall k, k ∈ OrgConfigKeys p -> k ∉ map fst (rMap (obs StructSandboxSpec "Env" s)).
Proof.
  intros (-> & _ & _)%enforceTable_inr k Hk.
  assert (F : forallb (spares StructSandboxSpec (StructSandboxSpec, "Env")) afterEnv = true /\ forallb (spares StructProxyConfig (StructSandboxSpec, "Env")) proxyFields = true) by by vm_compute.
  destruct F as [F1 F2]. assert (Ho : observed (StructSandboxSpec, "Env")) by (by left). pose proof (walk_frame _ p _ proxyFields (afterSpec p) Ho F2) as E2.
  unfold obsAt in E2. cbn [fst snd] in E2. rewrite E2. unfold afterSpec. rewrite spec_cut, fold_left_cut.
  remember (fold_left (stepped p StructSandboxSpec) beforeEnv (Spec p)) as s0 eqn:E0. pose proof (walk_frame _ p _ afterEnv (stepped p StructSandboxSpec s0 envField) Ho F1) as E1.
  unfold obsAt in E1. cbn [fst snd] in E1. rewrite E1, env_step. destruct (IsZero (obs StructSandboxSpec "Env" s0)) eqn:Ez; [rewrite (zero_map _ Ez); apply not_elem_of_nil|].
  unfold stripEnv. change (rField s0 "Env") with (obs StructSandboxSpec "Env" s0).
  unfold obs at 1. change (structOf StructSandboxSpec ?x) with x.
  destruct (rField_set s0 "Env" (match obs StructSandboxSpec "Env" s0 with VMap (Some l) => VMap (Some (List.filter (fun kv => negb (bool_decide (fst kv ∈ OrgConfigKeys p))) l)) | v => v end)) as [-> | [_ ->]];
    [|apply not_elem_of_nil].
  destruct (obs StructSandboxSpec "Env" s0) as [| | | | | | | | | |[l|]|]; try apply not_elem_of_nil. cbn [rMap].
  rewrite list_elem_of_fmap. intros (kv & -> & Hkv). rewrite list_elem_of_In, List.filter_In in Hkv. destruct Hkv as [_ Hkv]. by rewrite bool_decide_eq_true_2 in Hkv.
Qed.

Lemma sent_inspection p s : enforceTable Entries p = inr s -> forall li, rField (policyOf s) "LLMInspection" = VPtr (Some li) ->
  rSlice (rField li "WorkspaceSecretValues") = [] /\ rSlice (rField li "WorkspaceSecretNames") = [].
Proof.
  intros (s0 & sm & _ & Hl & _)%walk_parts li. rewrite policyOf_obs, (proj1 (Hl "Policy" (list_elem_of_here _ _))). unfold afterPolicy. set (s2 := clearInspection "WorkspaceSecretValues" _).
  change (rField (obs StructProxyConfig "Policy" ?x) "LLMInspection") with (pol "LLMInspection" x). intros E. split; [|by apply (strip_inspection _ _ _ E)].
  apply (strip_inspection_keeps _ _ _ _ E); [done|]. intros li' E'. by apply (strip_inspection _ _ _ E').
Qed.

Lemma sent_models p s : enforceTable Entries p = inr s ->
  (forall k v, (k, v) ∈ rMap (obs StructProxyConfig "LLMUpstreams" s) -> laptopLocalModel p (rStr v) = true) /\
  (forall k v, (k, v) ∈ rMap (obs StructProxyConfig "LocalModels" s) -> laptopLocalModel p k = true).
Proof.
  intros He. split; intros k v.
  - destruct (proxy_gate p s "LLMUpstreams" _ He ltac:(set_solver) eq_refl) as [-> [Hz|Hg]]; [rewrite (zero_map _ Hz); by intros ?%elem_of_nil|].
    apply refuseWhen_None in Hg. intros Hkv. rewrite containsFunc_false in Hg. by apply negb_false_iff, (Hg (k, v)).
  - destruct (proxy_gate p s "LocalModels" _ He ltac:(set_solver) eq_refl) as [-> [Hz|Hg]]; [rewrite (zero_map _ Hz); by intros ?%elem_of_nil|].
    apply refuseWhen_None in Hg. intros Hkv. rewrite containsFunc_false in Hg. by apply negb_false_iff, (Hg (k, v)).
Qed.

Lemma sent_doors p s : enforceTable Entries p = inr s ->
  (forall n, n ∈ ["GitHubAPI"; "AzureARM"; "KubeAPI"] -> ptrSet (obs StructProxyConfig n s) = false) /\
  rSlice (obs StructProxyConfig "GatewayIdentity" s) = [] /\
  rBool (obs StructSandboxSpec "DesktopSignins" s) = false /\ rBool (obs StructProxyConfig "DesktopSignins" s) = false.
Proof.
  intros He. split_and!.
  - intros n Hn. rewrite !elem_of_cons, elem_of_nil in Hn. destruct Hn as [->|[->|[->|[]]]].
    + destruct (proxy_gate p s "GitHubAPI" _ He ltac:(set_solver) eq_refl) as [-> [Hz|Hg]]; [by apply zero_ptr|by apply refuseWhen_None in Hg].
    + destruct (proxy_gate p s "AzureARM" _ He ltac:(set_solver) eq_refl) as [-> [Hz|Hg]]; [by apply zero_ptr|by apply refuseWhen_None in Hg].
    + destruct (proxy_gate p s "KubeAPI" _ He ltac:(set_solver) eq_refl) as [-> [Hz|Hg]]; [by apply zero_ptr|by apply refuseWhen_None in Hg].
  - destruct (proxy_gate p s "GatewayIdentity" _ He ltac:(set_solver) eq_refl) as [-> [Hz|Hg]]; [by apply zero_slice|]. apply refuseWhen_None, negb_false_iff in Hg. by apply bool_decide_eq_true in Hg.
  - destruct (spec_gate p s "DesktopSignins" _ He ltac:(set_solver) eq_refl) as [-> [Hz|Hg]]; [by apply zero_bool|by apply refuseWhen_None in Hg].
  - destruct (proxy_gate p s "DesktopSignins" _ He ltac:(set_solver) eq_refl) as [-> [Hz|Hg]]; [by apply zero_bool|by apply refuseWhen_None in Hg].
Qed.

Lemma sent_places p s : enforceTable Entries p = inr s ->
  (forall i m, rSlice (obs StructSandboxSpec "Mounts" s) !! i = Some m -> rBool (rField m "MemberAuthored") = true /\ indexed "SandboxSpec.Mounts" i ∈ VerifiedLocalPaths p) /\
  (forall i d, rSlice (obs StructSandboxSpec "Drives" s) !! i = Some d -> rStr (rField d "Backend") ∈ ["mac_disk"; "host_path"] /\ indexed "SandboxSpec.Drives" i ∈ VerifiedLocalPaths p).
Proof.
  intros He. split; intros i x.
  - destruct (spec_gate p s "Mounts" _ He ltac:(set_solver) eq_refl) as [-> [Hz|Hg]]; [by rewrite (zero_slice _ Hz)|]. intros Hi.
    pose proof (eachIndexed_None _ _ _ Hg _ _ Hi) as E. revert E. cbn [Nat.add]. unfold mountGate. destruct (rBool (rField x "MemberAuthored")); [|done]. cbn [negb].
    intros E%refuseWhen_None%negb_false_iff%bool_decide_eq_true. done.
  - destruct (spec_gate p s "Drives" _ He ltac:(set_solver) eq_refl) as [-> [Hz|Hg]]; [by rewrite (zero_slice _ Hz)|]. intros Hi.
    pose proof (eachIndexed_None _ _ _ Hg _ _ Hi) as E. revert E. cbn [Nat.add]. unfold driveGate. destruct (String.eqb_spec (rStr (rField x "Backend")) "mac_disk") as [->|].
    + intros E%refuseWhen_None%negb_false_iff%bool_decide_eq_true. split; [left|done].
    + destruct (String.eqb_spec (rStr (rField x "Backend")) "host_path") as [->|]; [|done]. cbn [negb]. intros E%refuseWhen_None%negb_false_iff%bool_decide_eq_true. split; [right; left|done].
Qed.

(** The spec a laptop is sent holds nothing of the organisation's. In the copy the gate
    returns, the organisation's upstream proxy, its exceptions and its trusted roots are
    unset; there is no GitHub App, Resource Manager or cluster door, no gateway identity and
    no desktop sign-in; a model upstream or a local model is one an administrator allowed on
    laptops, on a person's own runner; every mount was authored by a member and every drive
    kept or bound there, on a path verified for this runner; no key an organisation
    component configured is in the environment; and the inspection corpus is empty. *)
Theorem laptop_copy_is_stripped uuidParse p s : LocalEligibility uuidParse p = inr s -> laptopCopy p s.
Proof.
  intros [_ _ _ _ _ _ He]%LocalEligibility_passed. destruct (sent_doors p s He) as (D1 & D2 & D3 & D4). destruct (sent_models p s He) as [M1 M2]. destruct (sent_places p s He) as [P1 P2].
  split; [|done..|by apply (sent_env p s He)|by apply (sent_inspection p s He)].
  intros n Hn. apply (zeroed_zero p s n He). pose proof never_sent_fields as Hf. rewrite forallb_forall in Hf. apply Hf. by apply list_elem_of_In.
Qed.

(** ** Injections *)

Definition injections (s : rv) : list rv := rSlice (rField (proxyOf s) "Injection").
Definition grants (s : rv) : list rv := rSlice (rField (policyOf s) "EligibleGrants").

Lemma injection_paths v i x : injections v !! i = Some x -> injectionPath i ∈ CredentialPaths v.
Proof.
  intros Hi. unfold CredentialPaths, credentialPaths. rewrite !elem_of_app. right. left. unfold structPaths. rewrite elem_of_flat_map.
  exists (fld "Injection" (TSlice (TStruct "runner.InjectionGrant"))). split.
  - change (fld "Injection" (TSlice (TStruct "runner.InjectionGrant")) ∈ sFields runner_ProxyConfig). unfold runner_ProxyConfig. cbn [sFields]. set_solver.
  - assert (Hc : rsCredential (rulesOf (Entries StructProxyConfig "Injection")) = true) by by vm_compute. change (fName (fld "Injection" ?t)) with "Injection". rewrite Hc. cbn [negb orb fld fExported].
    unfold injections in Hi. destruct (rField (proxyOf v) "Injection") as [| | | | | | | | |[l|]| |] eqn:Ev; try done. cbn [rSlice] in Hi. cbn [elementPaths default]. unfold slicePaths. rewrite elem_of_flat_map.
    exists (i, x). split.
    + apply list_elem_of_lookup. exists i. rewrite lookup_zip_with. rewrite lookup_seq_lt by (by apply lookup_lt_Some in Hi). cbn. by rewrite Hi.
    + cbn [fst snd]. change (nonCredentialElement StructProxyConfig "Injection" x) with false. cbn iota. by apply list_elem_of_singleton.
Qed.

(** The leaf judged at an injection's path is an injection, or none. *)
Lemma injection_leaf v i x : injections v !! i = Some x -> credentialElement v (injectionPath i) ∈ injections v \/ credentialElement v (injectionPath i) = VNone.
Proof.
  unfold credentialElement, injectionPath, indexed, injections.
  change (CutPrefix ("ProxyConfig.Injection" +:+ "[" +:+ Itoa (Z.of_nat i) +:+ "]") "SandboxSpec.") with (@None string).
  assert (Ec : CutPrefix ("ProxyConfig.Injection" +:+ "[" +:+ Itoa (Z.of_nat i) +:+ "]") "ProxyConfig." = Some ("Injection" +:+ String "[" (Itoa (Z.of_nat i) +:+ "]"))) by (by apply CutPrefix_Some).
  rewrite Ec, cutByte_at by done. destruct (rField (proxyOf v) "Injection") as [| | | | | | | | |o|kvs|] eqn:Ev; try done. intros _.
  destruct (Atoi _) as [z|]; [|by right]. destruct ((0 <=? z) && (z <? Z.of_nat (length (default [] o)))) eqn:Ez; [|by right]. left.
    apply andb_prop in Ez as [?%Z.leb_le Hlt%Z.ltb_lt]. destruct o as [l|]; cbn [default rSlice] in *; [|cbn in Hlt; lia].
    apply list_elem_of_In, nth_In. unfold id in *. lia.
Qed.

(** The rows of an injection: none of the platform's, and one that serves a placeholder
    through the organisation is alone with its kind. *)
Definition fillAlone (rows : list Entry) : bool :=
  forallb (fun r => negb (String.eqb (eClass r) ClassPlatform)) rows &&
  forallb (fun r => negb (String.eqb (eRule r) RuleResidentViaOrg) ||
    forallb (fun r' => String.eqb (eRule r') RuleResidentViaOrg || negb (String.eqb (eClass r') (eClass r)) ||
                       negb (String.eqb (eDelivery r') "" || String.eqb (eDelivery r') (eDelivery r)) || String.eqb (eDelivery r) "") rows) rows.

Lemma injection_rows : fillAlone (Entries StructProxyConfig "Injection") = true /\ forallb (fun r => negb (String.eqb (eRule r) RuleResidentViaOrg) || negb (String.eqb (eDelivery r) "")) (Entries StructProxyConfig "Injection") = true.
Proof. by vm_compute. Qed.

Lemma served_is_routed p i o : Origins p !! injectionPath i = Some o -> servedBy (matchingRows (Entries StructProxyConfig "Injection") o) = true -> routed p i = true.
Proof.
  intros Eo Hs. unfold routed, residentFillPath. rewrite Eo. apply orb_true_iff. right. destruct injection_rows as [[_ Ha]%andb_prop Hd].
  unfold servedBy in Hs. apply containsFunc_true in Hs as (r & Hr & Er). destruct (matchingRows _ o) as [|r0 rs] eqn:Em; [by apply elem_of_nil in Hr|].
  assert (H0 : r0 ∈ matchingRows (Entries StructProxyConfig "Injection") o) by (rewrite Em; left). rewrite <- Em in Hr. apply elem_matchingRows in H0 as (T0 & C0 & D0), Hr as (T1 & C1 & D1).
  rewrite forallb_forall in Ha, Hd. rewrite list_elem_of_In in T0, T1. specialize (Hd r T1). rewrite Er in Hd. cbn [negb orb] in Hd. apply negb_true_iff, String.eqb_neq in Hd.
  specialize (Ha r T1). rewrite Er in Ha. cbn [negb orb] in Ha. rewrite forallb_forall in Ha. specialize (Ha r0 T0). rewrite C0, C1, String.eqb_refl in Ha.
  destruct (String.eqb (eRule r0) RuleResidentViaOrg); [done|]. cbn [negb orb] in Ha. pose proof (D1 Hd) as Ed. rewrite Ed in Ha, Hd. rewrite (proj2 (String.eqb_neq _ _) Hd), orb_false_r in Ha. apply negb_true_iff, orb_false_iff in Ha as [N0 N1].
  apply String.eqb_neq in N0, N1. destruct N1. by apply D0.
Qed.

Lemma injection_key i o : rowKey (injectionPath i) o = (StructProxyConfig, "Injection").
Proof. apply (rowKey_proxy (fld "Injection" TBasic)); [done|]. right. by eexists. Qed.

Lemma not_platform uuidParse p i o leaf : classifyCredential uuidParse Entries (injectionPath i) o p leaf = None -> oClass o <> ClassPlatform /\ oClass o <> "".
Proof.
  unfold classifyCredential. destruct (String.eqb_spec (oClass o) ""); [done|]. rewrite injection_key. cbn [fst snd]. intros Hc. split; [|done]. intros Hp.
  destruct (matchingRows _ o) as [|r rs] eqn:Em; [done|]. assert (H0 : r ∈ matchingRows (Entries StructProxyConfig "Injection") o) by (rewrite Em; left).
  apply elem_matchingRows in H0 as (T & C & _). destruct injection_rows as [[Ha _]%andb_prop _]. rewrite forallb_forall in Ha. rewrite list_elem_of_In in T. specialize (Ha r T). by rewrite C, Hp in Ha.
Qed.

(** What is left of an injection the organisation does not serve. *)
Definition sentInjection (p : LocalPlan) (o : CredentialOrigin) : Prop :=
  (oClass o = ClassOwn /\ oOwnNamespace o = true /\ (oStored o = true -> oOwnerOnly o = true)) \/
  (oDelivery o = ClassADOMintedPAT /\ residentOpen p o).

Lemma unrouted_injection uuidParse p s i x : LocalEligibility uuidParse p = inr s -> (forall x, x ∈ injections (Spec p) -> exists fs, x = VStruct "runner.InjectionGrant" fs) ->
  injections (Spec p) !! i = Some x -> routed p i = false -> sentInjection p (originAt p (injectionPath i)).
Proof.
  intros Hl%LocalEligibility_passed Ht Hi Hr. pose proof (pass_paths _ _ _ Hl _ (injection_paths _ _ _ Hi)) as Hc. destruct (not_platform _ _ _ _ _ Hc) as [Np Ne].
  assert (Eo : Origins p !! injectionPath i = Some (originAt p (injectionPath i))).
  { revert Ne. unfold originAt. by destruct (Origins p !! injectionPath i). }
  apply classify_admitted in Hc; [|by rewrite injection_key; vm_compute]. rewrite injection_key in Hc. cbn [fst snd] in Hc. change (String.eqb StructProxyConfig StructGrantKind) with false in Hc.
  assert (Hn : forall fs, residentPlaceholderLeaf uuidParse (VStruct "runner.InjectionGrant" fs) = false /\ fillPlaceholderLeaf uuidParse (VStruct "runner.InjectionGrant" fs) = false) by done.
  destruct Hc as [H1 H2 H3|H1|H0 H1 H2|H1 H2]; [by left|done| |right; split; [|done]].
  - exfalso. unfold routed, viaOrgPath in Hr. rewrite Eo in Hr. apply orb_false_iff in Hr as [Hr _]. unfold modeFor in H1. rewrite H1 in Hr. change (String.eqb ModeViaOrg ModeViaOrg) with true in Hr.
    rewrite (proj2 (String.eqb_neq _ _) H0), (proj2 (String.eqb_neq _ _) Ne) in Hr. done.
  - destruct H2 as [H2|[H2|[H2|H2]]]; [done| |done|].
    + by rewrite (served_is_routed p i _ Eo H2) in Hr.
    + exfalso. destruct (injection_leaf _ _ _ Hi) as [He|He]; [|rewrite He in H2; by destruct H2]. destruct (Ht _ He) as [fs E]. rewrite E in H2. destruct (Hn fs) as [N1 N2]. rewrite N1, N2 in H2. by destruct H2.
Qed.
(** The copy in terms of the strippers. *)
Lemma sent_injections p s : enforceTable Entries p = inr s -> injections s = keepIndexed (routed p) (injections (Spec p)).
Proof.
  intros (s0 & sm & He & Hl & _)%walk_parts. unfold injections. change (rField (proxyOf s) "Injection") with (obs StructProxyConfig "Injection" s).
  change (rField (proxyOf (Spec p)) "Injection") with (obs StructProxyConfig "Injection" (Spec p)).
  rewrite (proj1 (Hl "Injection" ltac:(set_solver))), <- (He "Injection" ltac:(set_solver)). unfold afterPolicy, clearInspection. rewrite !obs_setPolicy_ne by done. apply strip_injections.
Qed.

Lemma sent_grants p s : enforceTable Entries p = inr s -> grants s = keepIndexed (fun i => viaOrgPath p (indexed grantPath i)) (grants (Spec p)).
Proof.
  intros (s0 & sm & He & Hl & _)%walk_parts. unfold grants. change (rField (policyOf s) "EligibleGrants") with (rField (obs StructProxyConfig "Policy" s) "EligibleGrants").
  change (rField (policyOf (Spec p)) "EligibleGrants") with (rField (obs StructProxyConfig "Policy" (Spec p)) "EligibleGrants").
  rewrite (proj1 (Hl "Policy" ltac:(set_solver))), <- (He "Policy" ltac:(set_solver)).
  change (rField (obs StructProxyConfig "Policy" ?x) "EligibleGrants") with (pol "EligibleGrants" x). unfold afterPolicy, clearInspection. rewrite !pol_setPolicy_ne by done. apply strip_grants.
Qed.

Lemma elem_of_routed p s x : x ∈ routedInjections p s <-> exists i, injections s !! i = Some x /\ routed p i = true.
Proof.
  unfold routedInjections. rewrite elem_of_flat_map. fold (injections s). split.
  - intros ([i y] & Hy & Hx). cbn [fst snd] in Hx. apply list_elem_of_lookup in Hy as [j Hj]. apply lookup_zip_Some in Hj as [Hs Hl]. apply lookup_seq in Hs as [-> _].
    destruct (routed p _) eqn:E; [|by apply elem_of_nil in Hx]. apply list_elem_of_singleton in Hx as ->. by exists j.
  - intros (i & Hi & Hr). exists (i, x). cbn [fst snd]. rewrite Hr. split; [|by apply list_elem_of_singleton]. apply list_elem_of_lookup. exists i. apply lookup_zip_Some. split; [|done].
    apply lookup_seq. split; [done|]. by apply lookup_lt_Some in Hi.
Qed.

Lemma sent_routes p s r : enforceTable Entries p = inr s -> obs StructProxyConfig "ViaOrgRoutes" (Spec p) <> VNone ->
  r ∈ map injectionRoute (routedInjections p (Spec p)) -> r ∈ routesOf s.
Proof.
  intros (s0 & sm & He & Hl & _)%walk_parts Hn Hr. unfold routesOf. rewrite (proj1 (Hl "ViaOrgRoutes" ltac:(set_solver))). unfold afterPolicy, clearInspection. rewrite !obs_setPolicy_ne by done.
  apply strip_routes; [by rewrite (He "ViaOrgRoutes" ltac:(set_solver))|]. left. apply elem_of_app. left. revert Hr. unfold routedInjections.
  change (rField (proxyOf s0) "Injection") with (obs StructProxyConfig "Injection" s0). by rewrite (He "Injection" ltac:(set_solver)).
Qed.

Lemma sent_mitm p s h : enforceTable Entries p = inr s -> h ∈ rSlice (obs StructProxyConfig "MITMHosts" s) ->
  HostOf (rStr h) ∈ map injectionHost (injections s) \/ HostOf (rStr h) ∈ map snd (routesOf s).
Proof.
  intros (s0 & sm & _ & Hl & ->)%walk_parts. rewrite mitm_step. destruct (IsZero (obs StructProxyConfig "MITMHosts" sm)) eqn:Ez; [rewrite (zero_slice _ Ez); by intros ?%elem_of_nil|].
  unfold stripMITM. cbn zeta. change (rField (proxyOf sm) ?n) with (obs StructProxyConfig n sm). destruct (Hl "Injection" ltac:(set_solver)) as [E1 E1'], (Hl "ViaOrgRoutes" ltac:(set_solver)) as [E2 E2'].
  rewrite E1', E2', <- E1, <- E2. set (keep := fun v => _ || _).
  destruct (obs_setProxy sm "MITMHosts" (match obs StructProxyConfig "MITMHosts" sm with VSlice (Some l) => VSlice (Some (List.filter keep l)) | v => v end)) as [-> | [_ ->]]; [|by intros ?%elem_of_nil].
  destruct (obs StructProxyConfig "MITMHosts" sm) as [| | | | | | | | |[l|]| |]; try (by intros ?%elem_of_nil). cbn [rSlice]. rewrite list_elem_of_In, List.filter_In. intros [_ Hk]. unfold keep in Hk.
  apply orb_prop in Hk as [Hk|Hk]; apply containsFunc_true in Hk as (x & Hx & E%String.eqb_eq); rewrite E; [left|right].
  - by apply list_elem_of_fmap_2.
  - unfold routesOf. rewrite map_map. apply (list_elem_of_fmap_2 (fun v => snd (valueRoute v))). exact Hx.
Qed.

(** A credential the organisation serves never leaves it. Every injection in the copy a
    laptop is sent is one of the spec's, and the person's own (its namespace proved, and
    OwnerOnly if stored) or an Azure DevOps token the policy delivers there with every
    condition met. Every other injection is gone from the copy, and what the laptop gets in
    its place is a route naming its grant and its host. No grant record the policy delivers
    through the organisation is left, and the laptop intercepts only hosts that one of its
    own injections or routes needs. *)
Theorem organisation_keeps_its_credentials uuidParse p s :
  LocalEligibility uuidParse p = inr s ->
  (forall x, x ∈ injections (Spec p) -> exists fs, x = VStruct "runner.InjectionGrant" fs) -> obs StructProxyConfig "ViaOrgRoutes" (Spec p) <> VNone ->
  (forall x, x ∈ injections s -> exists i, injections (Spec p) !! i = Some x /\ sentInjection p (originAt p (injectionPath i))) /\
  (forall i x, injections (Spec p) !! i = Some x -> sentInjection p (originAt p (injectionPath i)) \/ injectionRoute x ∈ routesOf s) /\
  (forall g, g ∈ grants s -> exists i, grants (Spec p) !! i = Some g /\ viaOrgPath p (indexed grantPath i) = false) /\
  (forall h, h ∈ rSlice (obs StructProxyConfig "MITMHosts" s) -> HostOf (rStr h) ∈ map injectionHost (injections s) \/ HostOf (rStr h) ∈ map snd (routesOf s)).
Proof.
  intros Hl Ht Hn. pose proof (pass_table _ _ _ (LocalEligibility_passed _ _ _ Hl)) as He. split_and!.
  - intros x. rewrite (sent_injections _ _ He), elem_of_keepIndexed. intros (i & Hi & Hr). exists i. split; [done|]. by eapply unrouted_injection.
  - intros i x Hi. destruct (routed p i) eqn:Er; [|left; by eapply unrouted_injection]. right. apply (sent_routes p s _ He Hn). apply list_elem_of_fmap_2, elem_of_routed. exists i. split; [exact Hi | exact Er].
  - intros g. rewrite (sent_grants _ _ He), elem_of_keepIndexed. done.
  - intros h Hh. by apply (sent_mitm p s h He).
Qed.
End Sent.

(** ** At work *)

Definition keyInjection (grant host : string) : rv :=
  VStruct "runner.InjectionGrant" [("GrantID", VUUID grant); ("Rule", VStruct "egress.InjectionRule" [("Host", VStr host)])].

(** A person's own key and an operator's, on a laptop; the operator's class is served by
    the organisation. *)
Definition laptopSpec : rv :=
  VStruct "runner.SandboxSpec"
    [("Env", VMap (Some [("ORG_ENDPOINT", VStr "https://org"); ("EDITOR", VStr "vi")]));
     ("ProxyConfig", VStruct "runner.ProxyConfig"
        [("Policy", VStruct "types.RunPolicySpec" [("EligibleGrants", VSlice None)]);
         ("Injection", VSlice (Some [keyInjection "g1" "api.own.example"; keyInjection "g2" "api.org.example"]));
         ("MITMHosts", VSlice (Some [VStr "api.own.example"; VStr "api.org.example"; VStr "internal.org.example"]));
         ("UpstreamProxyURL", VStr "http://proxy.org:3128"); ("ViaOrgRoutes", VSlice None)])].
Definition laptopPlan : LocalPlan :=
  mkPlan laptopSpec
    {[ injectionPath 0 := mkOrigin ClassOwn "" "" true true true false; injectionPath 1 := mkOrigin ClassOperator ClassAPIKey "" true false false false ]}
    [] ["ORG_ENDPOINT"] ∅ "" false [] false (mkDelivery {[ ClassAPIKey := mkClassPolicy ModeViaOrg None ]} ∅) None RunnerTrustPersonal "" RunnerOwnerPerson.
Definition noUUID (s : string) : option string := None.
Definition laptopSent : rv := match @LocalEligibility asciiTables noUUID laptopPlan with inr s => s | inl _ => VNone end.

Lemma laptop_admitted : @LocalEligibility asciiTables noUUID laptopPlan = inr laptopSent.
Proof. by vm_compute. Qed.

Lemma organisation_keeps_its_credentials_witness :
  injections laptopSent = [keyInjection "g1" "api.own.example"] /\ ("g2", "api.org.example") ∈ routesOf laptopSent.
Proof.
  destruct (@organisation_keeps_its_credentials asciiTables noUUID laptopPlan laptopSent laptop_admitted) as (_ & H & _).
  - intros x Hx. change (x ∈ [keyInjection "g1" "api.own.example"; keyInjection "g2" "api.org.example"]) in Hx. rewrite !elem_of_cons, elem_of_nil in Hx.
    destruct Hx as [->|[->|[]]]; by eexists.
  - vm_compute. discriminate.
  - split; [by vm_compute|]. destruct (H 1%nat (keyInjection "g2" "api.org.example") eq_refl) as [[Ho|[Ho _]]|Ho]; [| |exact Ho].
    + destruct Ho as [Ho _]. vm_compute in Ho. discriminate.
    + vm_compute in Ho. discriminate.
Defined.

Lemma laptop_copy_is_stripped_witness :
  "ORG_ENDPOINT" ∉ map fst (rMap (rField laptopSent "Env")) /\ IsZero (rField (proxyOf laptopSent) "UpstreamProxyURL") = true.
Proof.
  pose proof (@laptop_copy_is_stripped asciiTables noUUID laptopPlan laptopSent laptop_admitted) as [H1 _ _ _ _ _ _ _ H2 _].
  split; [apply H2; left | apply H1; left].
Defined.

Lemma local_run_holds_only_delivered_credentials_witness :
  modeFor laptopPlan (originAt laptopPlan (injectionPath 1)) = ModeViaOrg /\ TrustedOutput laptopPlan = false.
Proof.
  destruct (@local_run_holds_only_delivered_credentials asciiTables noUUID laptopPlan laptopSent laptop_admitted) as (H & _ & H3 & _). split; [|exact H3].
  destruct (H (injectionPath 1)) as [E _ _|E|_ E _|(_ & E & _) _].
  - vm_compute. right. left.
  - vm_compute in E. discriminate.
  - vm_compute in E. discriminate.
  - exact E.
  - vm_compute in E. discriminate.
Defined.

Lemma grant_promised_is_admitted_witness :
  let o := mkOrigin ClassOperator ClassAPIKey "api_key" true false false false in
  classifyCredential noUUID Entries (indexed grantPath 3) o laptopPlan VNone = None.
Proof.
  intros o. apply (grant_promised_is_admitted noUUID o laptopPlan 3 VNone). left. by vm_compute.
Defined.
